(* ===== verification/_CoqProject ===== *)
-Q . S2P
Prelude.v
Threads.v
Db.v
Json.v
Numbers.v
Schema.v
SponsorPolicy.v
SponsorShape.v
SponsorFacts.v
UnshieldedFacts.v
SwapShape.v
GrantScope.v
GrantBudgets.v
BudgetFacts.v
GrantShape.v
AgentAccess.v
AccessFacts.v
RateLimiter.v
Retry.v
InstanceLease.v
JobKinds.v
JobStore.v
SubmitFailure.v
WorkerProtocol.v
Scheduler.v
ChainOutcome.v
Reconciliation.v
Paging.v
StartJob.v
GrantAdmin.v
GrantLifecycle.v
ShapeFacts.v
GrantMachine.v
Rollback.v
RollbackFacts.v
BalanceCheck.v
BalanceScan.v
Scale.v
ScaleFacts.v
BlockEvents.v
NodeRpc.v
BlockProcessor.v
PersistFacts.v
BalanceUpdates.v
StoredBalances.v
IndexMachine.v
IndexProperties.v
IndexExamples.v
PayloadDecoder.v
PassFacts.v
PassSafety.v
BlockFetch.v
Crawler.v
CatchUp.v
FollowChain.v
CatchUpEnds.v
Forks.v
JobMachine.v
Settlement.v
BatchOrder.v
SponsorJobs.v
SponsorSafety.v
SponsorExamples.v
WalletSessions.v
SessionFacts.v
Submitter.v
SubmitterFacts.v
WorkerSubmit.v
WorkerSubmitFacts.v
ContractJobs.v
Envelope.v
AccountKeys.v
JsonText.v
StoredStates.v
SyncStates.v
KeyRotation.v
WorkerRpc.v
RpcFacts.v
WalletPool.v
PoolFacts.v
