(* ===== verification/Prelude.v ===== *)
(** * NIGHTGATE: a verification development of the server core

    NIGHTGATE is a CAP service in front of the Midnight blockchain. Its server
    indexes the chain into tables (srv/crawler), runs transactions for its users
    as background jobs (srv/submission), sends them from wallets kept in a worker
    thread (srv/midnight/worker), pays the fees of others' transactions from
    sponsor wallets, and lets users and agents act on wallet sessions
    (srv/sessions). This library models that core: each definition is a
    translation of the code it names, and runs; each theorem is about those
    definitions.

    ** How the program is rendered

    A computation that may throw and changes a state [S] has the type [M S A],
    that is [S -> outcome A * S]: what was changed before an exception stays,
    unless the code runs in a database transaction ([tx]), which undoes it. A
    database statement is one step on tables ([gmap] from ID to row, Db.v); what
    other requests, jobs and processes do between two statements is an argument
    wherever a theorem depends on it, and where handlers of the same kind meet
    they are trees of statements that a schedule interleaves (Threads.v). Text is
    [string], JSON is [json] (Json.v), instants are milliseconds, bytes are lists
    of [Z], and JavaScript's coercions are written out (Numbers.v). Code that is
    not in the repository (the ledger and wallet SDK, the node, the indexer, node
    crypto, hashing, the decoding of metadata, events and digests) enters as
    Section variables or arguments; what the proofs need of it are hypotheses,
    each with an instance in a witness.

    ** The parts

    Shared: Prelude (monad, tactics, lists), Threads (a
    program logic for [M]: invariant and order preserved; handlers beside one
    another, with locks), Db (statements), Json, Numbers (numbers, hex and lists in text),
    Schema (rows of jobs, attempts and grants).

    Background jobs (srv/submission). JobKinds: the registry of kinds. StartJob:
    admission, idempotency keys, workflow children (background-jobs.ts).
    JobStore: every fenced write of a job row (job-store.ts). Scheduler: the
    semaphore, classes, lease reclaim, poller (job-scheduler.ts). Retry: the retry
    of writes that lost a lock. ChainOutcome: what the indexer says of a
    transaction. Reconciliation: start-up recovery, parked jobs, lost broadcasts,
    reservations (job-reconciliation.ts). Paging: the bounded scans are fair.
    JobMachine, Settlement: the life of a job under all of these
    as a step relation with arbitrarily stale reads; what recovery and
    reconciliation promise; deploy slots given back once. InstanceLease:
    one process per database (utils/instance-lease.ts).

    Contract transactions. Submitter: the main thread's side of a deploy or call,
    with its rows and rebuilds (TransactionSubmitter.ts), and how the scheduler
    books its end. WorkerSubmit: the worker's side, from the announcement over the
    phases of a send to the looks at the indexer (midnight/worker/submit.ts,
    phased-submit.ts). SubmitFailure, WorkerProtocol: how a failed submission
    is sorted and crosses between the threads. SubmitterFacts, WorkerSubmitFacts,
    ContractJobs: their theorems and runs. BatchOrder: the
    segments of a batch (midnight/batch-segment-order.ts).

    Sponsoring. SponsorPolicy: the platform policy and its narrowing by a grant
    (sponsor-policy.ts). SponsorShape, SponsorFacts, UnshieldedFacts, SwapShape:
    what the worker checks of a transaction before a wallet pays for it
    (midnight/worker/sponsor.ts). SponsorJobs: choice of the wallet, pauses, the
    verdict on a failure (sponsor-pool.ts), and the two executors
    (executors/sponsor.ts). SponsorSafety, SponsorExamples: they
    end, on what evidence they build another transaction, and they reserve each
    deploy once.

    Wallet sessions (srv/sessions). WalletSessions: connecting, closing, expiry
    and eviction, as handlers over the table and the worker's wallets
    (wallet-sessions.ts, wallet-session-lifecycle.ts, wallet-session-sweep.ts).
    SessionFacts: their theorems.

    Secrets at rest. Envelope: the key ring and the format of encrypted values
    (utils/crypto.ts, utils/envelope-bindings.ts). AccountKeys: the data key of an
    account, its two copies, and its lookups in several processes
    (submission/account-keys.ts). JsonText: [JSON.parse], and that it reads what
    [stringify] prints. StoredStates: private states and signing keys under that
    key, their exports and imports (midnight/CapDbPrivateStateProvider.ts,
    utils/storage-encryption.ts). SyncStates: the saved wallet states
    (wallet-sync-state-store.ts). KeyRotation: the check at start-up and the tool
    that changes the encryption key (utils/encryption-rewrap.ts). Each of these
    files ends with its theorems and a run on a toy cipher.

    Agent grants (srv/sessions/agent-grants.ts). GrantShape: validation of the
    settings. GrantAdmin: the owner's handlers. AgentAccess, GrantScope: the check
    of a token on every request. GrantBudgets: the budgets' statements.
    BudgetFacts: budgets hold however statements interleave.
    GrantLifecycle, GrantMachine, ShapeFacts: an abstract life of a grant, which
    the handlers refine. AccessFacts: a token reaches what its grant allows.
    RateLimiter: the sliding-window limiter refines a log of
    requests, in a bounded table (utils/rate-limiter.ts).

    The chain index (srv/crawler). Scale, ScaleFacts: SCALE encoding and the
    parser of extrinsics. BlockEvents: classification and events of
    a block. NodeRpc: what the node is asked, validators, runtime
    versions and their caches. Rollback: the tables, and removing a branch.
    BlockProcessor: storing a block with its transactions, UTXOs and NIGHT
    balances. BlockFetch, Crawler: batches, the catch-up pipeline with prefetching
    and retries, live heads, forks. PayloadDecoder: the cursor of
    the passes that trail the tip, and the one that decodes the stored ledger
    transactions. BalanceCheck, BalanceScan: the check of the balances and its
    pages. RollbackFacts, PersistFacts, BalanceUpdates, StoredBalances,
    IndexMachine, IndexProperties, IndexExamples, CatchUp, FollowChain,
    CatchUpEnds, Forks, PassFacts, PassSafety: their theorems.

    Worker threads. WalletPool: the wallet workers, how calls reach them
    (midnight/wallet-worker-client.ts), how a worker takes a call and restarts
    (midnight/worker/rpc.ts, midnight/worker/rotation.ts), as one machine over the
    messages of both threads. WorkerRpc: the calls of the helper threads and their
    dispatcher (midnight/worker-rpc). PoolFacts, RpcFacts: their theorems.

    ** How the parts meet

    The index and the job system share one database: [IndexDb] holds the job
    tables as [ix_main], and a rollback reverts the outcomes jobs had on the
    removed branch and raises the rollback counter, which the reconciliation and
    the trailing passes check under a lock before they write. The sponsor
    executors call the pool, the worker (an arbitrary [Call]), the job store and
    the budgets. Submitter runs a contract job over arbitrary answers of a worker;
    WorkerSubmit is the worker, WorkerProtocol the way of its errors. Requests of an
    agent take a budget unit in AgentAccess and give it back in Reconciliation or
    GrantBudgets when their job fails early. Closing a session counts the jobs and
    sessions that still need its wallet before the worker drops it. The sessions
    see encryption as sealing that opens under the same binding; Envelope shows it
    of the ring. The rotation runs the account keys' lookup alone ([alone]) between
    its own statements, and reads and writes the tables of the stored states.

    ** What the theorems show

    Jobs: a job crosses the boundary to outside effects once and only while
    claimed; a failed job stays failed; a worker that lost its lease writes
    nothing; a claim is exclusive; recovery and reconciliation settle a job only
    on final evidence and never across a rollback; a deploy slot comes back once;
    scans pass no row over for ever; the lease holder that renews in time is
    alone. Contract transactions: a job ends failed only after all its
    transactions were answered by errors that read as refusals; an error of the worker that reads as a rejection means that no
    request of any of its attempts can land; submissions end; a batch is proved
    only in an order the ledger applies. Index: under any sequence of blocks and
    rollbacks the balances are what the rows say, the blocks are one chain, a
    block and its rollback cancel out, and orphans are refused with nothing
    written; catching up, from the lookup of the start and the anchor block
    on, leaves no gap, ends, and reaches the head or says why not; a fork keeps
    what both branches share; the decode pass skips no block whatever runs beside
    it, and catches up when left alone; the paged balance check visits every
    address once; an encoded extrinsic parses back. Sessions: closing is final,
    and the last session to close unloads the wallet, however the handlers
    interleave. Secrets: an account's key never changes, whichever processes look
    it up or create it at once; a rewrap never loses a value and frees the old
    keys; an export imports as what it was; a saved wallet state loads again. Worker threads: a
    call that may send a transaction is carried out once, whatever restarts and
    crashes come between; a planned restart comes, and waits for such calls up to its
    ceiling; a call
    of a helper thread is answered once or still waits for a worker that can
    answer it. Grants: budgets hold under interleaving, tokens stay confined, the handlers refine the lifecycle, settings stay well
    formed when the owner's requests come one after another and keep what is said of
    each column when they overlap, a revoked grant is final. Sponsoring: a grant only narrows the
    policy, sponsored calls are allowed ones, unshielded offers are accounted
    for, swaps net to zero, jobs end and pay again only after a rejection or an
    error about the wallet. Limiter: it refines a log and its table is bounded.

    ** Bounds and fuel

    Loops over lists are structural. Loops of the code that are not run on fuel
    that is shown to be enough: [pipeline_fuel] is two tries for every height of
    the range, and [catch_up_ends] shows it is never used up; the executors'
    loops end by their candidates ([sponsoring_ends]), the rebuilds of a contract
    job by their two counters ([submission_ends]); the pages of a rewrap by the
    rows of the column ([rewrap_column_spec]); the parser of JSON by twice the
    length of a printed text ([json_roundtrip]); the looks of the worker at the
    indexer last until the end of their window ([waitLanded_until_deadline],
    [waitVisible_until_deadline]); the fork search is bounded
    by the height. Integers are unbounded [Z] where the code uses bigint or
    stays below 2^53 by a stated hypothesis ([counts_fit]).

    ** Assumptions

    A transaction of the database is atomic and its statements on one row are
    ordered; a message between threads is delivered once, in its order, or lost with
    the worker; no handler of a worker fails under the name of a refusal
    ([honest]); [cds.utils.uuid()] is fresh ([fresh_ids]); block heights come from
    hashes ([from_node]: the node answers consistently); a prefetched batch is
    fetched when it is started; while the crawler catches up and while a client
    follows the pages of the balance check, nothing else writes the index. The
    handlers of grants run one after another, but for budgets and overlapping
    updates. A rejection by the node speaks for the request it answers; other code
    neither reopens the attempt rows of a running contract job nor writes its
    status. AES-GCM opens what it sealed ([GcmLaws]); SHA-256 and HKDF answer 32
    bytes ([HashLaws]) and the salts of one account's passwords differ
    ([salts_apart]); the rings of the processes agree on a key id, and the storage
    password of an account is one ([legal]). Log lines, times and progress figures are left out.

    ** Not modelled

    The wallet facades, contract calls, wallet providers and proof providers of
    the worker, whose statements are calls of the wallet SDK, with its pool of
    clients; the actions that only check arguments and
    start a job, those of the wallet sessions among them; contract registry,
    attestations, predicates, disclosures, token factories and swap offers;
    the building of wallets from seeds and the caches of derived keys; monitoring,
    configuration, services and routes; the client libraries and scripts. The start and stop of the crawler,
    its subscription and timers, the indexer supplement and the author and
    identifier backfills are not modelled either. *)
From Stdlib Require Export Lia ZArith.
From stdpp Require Export strings pretty sorting fin_maps gmap list.

#[export] Set Default Goal Selector "!".

(** ** Automation *)

(** Lemmas that discharge the common side conditions of the components. *)
Create HintDb ng.
Create Rewrite HintDb ng.

(** Lemmas that compose what operations preserve of the rows they write. *)
Create HintDb keeps.

(** Case analysis on the innermost match or if of the goal or a hypothesis. *)
Ltac case_match_any :=
  match goal with
  | |- context [ match ?x with _ => _ end ] =>
      lazymatch x with context [ match _ with _ => _ end ] => fail | _ => destruct x eqn:? end
  | H : context [ match ?x with _ => _ end ] |- _ =>
      lazymatch x with context [ match _ with _ => _ end ] => fail | _ => destruct x eqn:? end
  end.

(** Walks the guards of a handler: case analysis, then closing what is absurd. *)
Ltac walk := repeat (case_match_any; simplify_eq/=; try done).

(** ** Exceptions and the state-and-error monad

    JavaScript code throws [Error] objects; what the program looks at is the
    error's name, its code and its message. A computation on a state [S] may
    throw, and what it changed before throwing stays changed unless it ran in a
    transaction ([tx]). *)
Record exn := Exn { ex_name : string; ex_code : string; ex_msg : string }.

#[export] Instance exn_eq_dec : EqDecision exn.
Proof. solve_decision. Defined.

Inductive outcome (A : Type) := Ret (a : A) | Throw (e : exn).
Arguments Ret {_} _.
Arguments Throw {_} _.

Definition M (S A : Type) : Type := S → outcome A * S.

#[export] Instance M_ret S : MRet (M S) := λ A a s, (Ret a, s).
#[export] Instance M_bind S : MBind (M S) := λ A B k m s,
  match m s with
  | (Ret a, s') => k a s'
  | (Throw e, s') => (Throw e, s')
  end.

Definition throw {S A} (e : exn) : M S A := λ s, (Throw e, s).

(** A synchronous result. *)
Definition lift {S A} (o : outcome A) : M S A := λ s, (o, s).

(** Opens the monad, to compute a computation on a given state. *)
Ltac m_unfold := unfold mret, M_ret, mbind, M_bind, throw in *.

Definition get {S} : M S S := λ s, (Ret s, s).
Definition put {S} (s' : S) : M S unit := λ _, (Ret tt, s').

(** [try { m } catch (e) { h e }]. *)
Definition try_catch {S A} (m : M S A) (h : exn → M S A) : M S A := λ s,
  match m s with
  | (Ret a, s') => (Ret a, s')
  | (Throw e, s') => h e s'
  end.

(** A database transaction: commit on return, rollback on throw. *)
Definition tx {S A} (m : M S A) : M S A := λ s,
  match m s with
  | (Ret a, s') => (Ret a, s')
  | (Throw e, _) => (Throw e, s)
  end.

(** [throw new Error(msg)]. *)
Definition js_error (msg : string) : exn := Exn "Error" EmptyString msg.

Lemma tx_throw {S A} (m : M S A) s e s' : tx m s = (Throw e, s') → s' = s.
Proof. unfold tx. destruct (m s) as [[a|e'] s1]; naive_solver. Qed.

Lemma tx_ret {S A} (m : M S A) s a s' : tx m s = (Ret a, s') → m s = (Ret a, s').
Proof. unfold tx. destruct (m s) as [[a'|e'] s1]; naive_solver. Qed.

Lemma bind_ret_inv {S A B} (m : M S A) (k : A → M S B) s b s' :
  (m ≫= k) s = (Ret b, s') → ∃ a s1, m s = (Ret a, s1) ∧ k a s1 = (Ret b, s').
Proof.
  unfold mbind, M_bind. destruct (m s) as [[a|e] s1]; [|done]. eauto.
Qed.

Lemma bind_cases {S A B} (m : M S A) (k : A → M S B) s o s' :
  (m ≫= k) s = (o, s') →
  (∃ a s1, m s = (Ret a, s1) ∧ k a s1 = (o, s')) ∨ (∃ e, m s = (Throw e, s') ∧ o = Throw e).
Proof.
  unfold mbind, M_bind. destruct (m s) as [[a|e] s1]; [eauto|]. intros [= <- <-]. eauto.
Qed.

#[export] Hint Resolve tx_throw tx_ret : ng.

(** Synchronous code that only may throw. *)
#[export] Instance outcome_ret : MRet outcome := λ A a, Ret a.
#[export] Instance outcome_bind : MBind outcome := λ A B k m,
  match m with Ret a => k a | Throw e => Throw e end.

#[export] Instance outcome_fmap : FMap outcome := λ A B f m,
  match m with Ret a => Ret (f a) | Throw e => Throw e end.

Lemma outcome_bind_ret {A B} (m : outcome A) (k : A → outcome B) b :
  (m ≫= k) = Ret b ↔ ∃ a, m = Ret a ∧ k a = Ret b.
Proof. destruct m; simpl; naive_solver. Qed.

(** ** Strings

    A JavaScript string is a sequence of code units; the model uses one
    character per unit. *)

(** [s.slice(0, n)]. *)
Definition slice0 (n : nat) (s : string) : string := String.substring 0 n s.

(** [prefix p s]: [s.startsWith(p)]. *)
Fixpoint starts_with (p s : string) : bool :=
  match p, s with
  | EmptyString, _ => true
  | String a p', String b s' => Ascii.eqb a b && starts_with p' s'
  | String _ _, EmptyString => false
  end.

(** [s.includes(p)]. *)
Fixpoint includes (p s : string) : bool :=
  starts_with p s ||
  match s with EmptyString => false | String _ s' => includes p s' end.

Definition ascii_lower (a : Ascii.ascii) : Ascii.ascii :=
  let n := Ascii.nat_of_ascii a in
  if (65 <=? n)%nat && (n <=? 90)%nat then Ascii.ascii_of_nat (n + 32) else a.

Fixpoint lower (s : string) : string :=
  match s with
  | EmptyString => EmptyString
  | String a s' => String (ascii_lower a) (lower s')
  end.

(** [/p/i.test(s)] for a pattern [p] without metacharacters. *)
Definition includes_ci (p s : string) : bool := includes (lower p) (lower s).

Lemma substring0_length n s : String.length (String.substring 0 n s) ≤ n.
Proof.
  revert s. induction n as [|n IH]; intros [|a s]; simpl; try lia.
  specialize (IH s). lia.
Qed.

Lemma slice0_length n s : String.length (slice0 n s) ≤ n.
Proof. apply substring0_length. Qed.

#[export] Hint Resolve slice0_length : ng.

(** [a ?? b] *)
Definition nullish {A} (a : option A) (b : A) : A := match a with Some x => x | None => b end.

(** ** Lists *)

Lemma sublist_fmap_mono {A B} (f : A → B) (l1 l2 : list A) :
  l1 `sublist_of` l2 → f <$> l1 `sublist_of` f <$> l2.
Proof. induction 1; csimpl; by constructor. Qed.

Lemma StronglySorted_filter {A} (R : relation A) (P : A → Prop) `{∀ x, Decision (P x)} (l : list A) :
  StronglySorted R l → StronglySorted R (filter P l).
Proof.
  induction 1 as [|x l Hs IH Hall]; [constructor|]. rewrite filter_cons. case_decide; [|done].
  constructor; [done|]. apply Forall_forall. intros y [_ Hy]%list_elem_of_filter.
  by eapply Forall_forall in Hall.
Qed.

Lemma list_filter_none {A} (P : A → Prop) `{∀ x, Decision (P x)} (l : list A) :
  (∀ x, x ∈ l → ¬ P x) → filter P l = [].
Proof.
  induction l as [|x l IH]; intros Hl; [done|]. rewrite filter_cons, decide_False by (apply Hl, list_elem_of_here).
  apply IH. intros y Hy. by apply Hl, list_elem_of_further.
Qed.

Lemma list_filter_all {A} (P : A → Prop) `{∀ x, Decision (P x)} (l : list A) :
  (∀ x, x ∈ l → P x) → filter P l = l.
Proof.
  induction l as [|x l IH]; intros Hl; [done|]. rewrite filter_cons, decide_True by (apply Hl, list_elem_of_here).
  f_equal. apply IH. intros y Hy. by apply Hl, list_elem_of_further.
Qed.

(** [for (i = 0; i < l.length; i += n) l.slice(i, i + n)]. *)
Fixpoint chunks_fuel {A} (fuel n : nat) (l : list A) : list (list A) :=
  match fuel, l with
  | O, _ | _, [] => []
  | S fuel', _ => take n l :: chunks_fuel fuel' n (drop n l)
  end.
Definition chunks {A} (n : nat) (l : list A) : list (list A) := chunks_fuel (length l) n l.

(** Every element is in exactly one chunk, in order, and the fuel is enough. *)
Lemma chunks_concat {A} n (l : list A) : 0 < n → concat (chunks n l) = l.
Proof.
  intros Hn. unfold chunks.
  enough (∀ fuel l, length l ≤ fuel → concat (chunks_fuel fuel n l) = l) as H by (by apply H).
  intros fuel. induction fuel as [|fuel IH]; intros l0 Hl; destruct l0 as [|x l0];
    [done|simpl in Hl; lia|done|].
  cbn [chunks_fuel concat]. rewrite IH; [apply take_drop|]. rewrite length_drop. simpl in *. lia.
Qed.

(** [[...new Set(l)]]: the distinct elements, by first occurrence. *)
Definition set_add {A} `{EqDecision A} (s : list A) (x : A) : list A :=
  if decide (x ∈ s) then s else s ++ [x].
Definition js_set {A} `{EqDecision A} (l : list A) : list A := foldl set_add [] l.

Lemma elem_of_set_adds {A} `{EqDecision A} (l s : list A) x :
  x ∈ foldl set_add s l ↔ x ∈ s ∨ x ∈ l.
Proof.
  revert s. induction l as [|y l IH]; intros s; simpl; [set_solver|].
  rewrite IH. unfold set_add. case_decide; set_solver.
Qed.

Lemma elem_of_js_set {A} `{EqDecision A} (l : list A) x : x ∈ js_set l ↔ x ∈ l.
Proof. unfold js_set. rewrite elem_of_set_adds. set_solver. Qed.

Lemma js_set_NoDup {A} `{EqDecision A} (l : list A) : NoDup (js_set l).
Proof.
  unfold js_set. assert (NoDup (@nil A)) as H by constructor. revert H. generalize (@nil A).
  induction l as [|y l IH]; intros s Hs; simpl; [done|]. apply IH. unfold set_add.
  case_decide; [done|]. apply NoDup_app. split_and!; [done| |apply NoDup_singleton]. set_solver.
Qed.

#[export] Hint Rewrite @elem_of_js_set : ng.

(** ** Insertion-ordered maps

    A JavaScript [Map]: iteration in insertion order; [set] on a present key
    keeps the key's position, on an absent one appends. *)
Section JsMap.
Context {K V : Type} `{EqDecision K}.

Fixpoint map_get (k : K) (m : list (K * V)) : option V :=
  match m with
  | [] => None
  | (k', v) :: m' => if decide (k' = k) then Some v else map_get k m'
  end.

Definition map_has (k : K) (m : list (K * V)) : bool :=
  match map_get k m with Some _ => true | None => false end.

Fixpoint map_set (k : K) (v : V) (m : list (K * V)) : list (K * V) :=
  match m with
  | [] => [(k, v)]
  | (k', v') :: m' => if decide (k' = k) then (k', v) :: m' else (k', v') :: map_set k v m'
  end.

Fixpoint map_del (k : K) (m : list (K * V)) : list (K * V) :=
  match m with
  | [] => []
  | (k', v') :: m' => if decide (k' = k) then m' else (k', v') :: map_del k m'
  end.

Lemma map_get_set_eq k v m : map_get k (map_set k v m) = Some v.
Proof. induction m as [|[k' v'] m IH]; csimpl; repeat (case_decide; csimpl); congruence. Qed.

Lemma map_get_set_ne k k' v m : k ≠ k' → map_get k' (map_set k v m) = map_get k' m.
Proof.
  intros Hne. induction m as [|[k2 v2] m IH]; csimpl; repeat (case_decide; csimpl); congruence.
Qed.

Lemma map_get_del_ne k k' m : k ≠ k' → map_get k' (map_del k m) = map_get k' m.
Proof.
  intros Hne. induction m as [|[k2 v2] m IH]; csimpl; repeat (case_decide; csimpl); congruence.
Qed.

Lemma map_get_None k m : map_get k m = None ↔ k ∉ m.*1.
Proof.
  induction m as [|[k' v] m IH]; csimpl; [set_solver|].
  rewrite not_elem_of_cons, <- IH. case_decide as Hd.
  - split; [done|intros [Hk _]; congruence].
  - split; [intros Hm; split; [congruence|done]|by intros [_ ?]].
Qed.

Lemma map_get_In k v m : map_get k m = Some v → (k, v) ∈ m.
Proof. induction m as [|[k' v'] m IH]; csimpl; [done|]. case_decide; set_solver. Qed.

Lemma map_get_Some_NoDup k v m : NoDup m.*1 → (k, v) ∈ m → map_get k m = Some v.
Proof.
  induction m as [|[k' v'] m IH]; csimpl; [set_solver|].
  intros [Hnin Hnd]%NoDup_cons [|Hin]%elem_of_cons; simplify_eq; case_decide; simplify_eq; auto.
  exfalso. apply Hnin. apply list_elem_of_fmap. by exists (k, v).
Qed.

Lemma map_set_absent k v m : map_get k m = None → map_set k v m = m ++ [(k, v)].
Proof.
  induction m as [|[k' v'] m IH]; csimpl; [done|]. case_decide; [done|]. intros Hm. by rewrite IH.
Qed.

Lemma map_set_keys k v m : (map_set k v m).*1 = if map_has k m then m.*1 else m.*1 ++ [k].
Proof.
  unfold map_has. induction m as [|[k' v'] m IH]; csimpl; [done|].
  case_decide; csimpl; [congruence|]. rewrite IH. by destruct (map_get k m).
Qed.

Lemma map_del_absent k m : map_get k m = None → map_del k m = m.
Proof. induction m as [|[k' v'] m IH]; csimpl; [done|]. case_decide; [done|]. intros. by rewrite IH. Qed.

Lemma map_del_sublist k m : map_del k m `sublist_of` m.
Proof.
  induction m as [|[k' v'] m IH]; csimpl; [constructor|].
  case_decide; [by constructor|by constructor].
Qed.

Lemma map_get_del_eq k m : NoDup m.*1 → map_get k (map_del k m) = None.
Proof.
  induction m as [|[k' v'] m IH]; csimpl; [done|]. intros [Hnin Hnd]%NoDup_cons.
  case_decide; simplify_eq; csimpl; [by apply map_get_None|]. case_decide; [done|auto].
Qed.

Lemma map_del_NoDup k m : NoDup m.*1 → NoDup (map_del k m).*1.
Proof.
  intros. eapply sublist_NoDup; [done|]. apply sublist_fmap_mono, map_del_sublist.
Qed.

Lemma map_set_NoDup k v m : NoDup m.*1 → NoDup (map_set k v m).*1.
Proof.
  intros Hnd. rewrite map_set_keys. unfold map_has. destruct (map_get k m) eqn:E; [done|].
  apply map_get_None in E. apply NoDup_app. split_and!; [done| |apply NoDup_singleton].
  intros x Hx ->%list_elem_of_singleton. done.
Qed.

Lemma map_del_length k m : map_has k m = true → S (length (map_del k m)) = length m.
Proof.
  unfold map_has. induction m as [|[k' v'] m IH]; csimpl; [done|]. case_decide; [done|]. csimpl.
  intros Hm. by rewrite IH.
Qed.

Lemma map_del_keys_elem k k' m :
  NoDup m.*1 → k' ∈ (map_del k m).*1 ↔ k' ≠ k ∧ k' ∈ m.*1.
Proof.
  intros Hnd. destruct (decide (k' = k)) as [->|Hne].
  - split; [|naive_solver]. intros Hin. exfalso.
    apply (map_get_None k (map_del k m)); [by apply map_get_del_eq|done].
  - assert (map_get k' (map_del k m) = None ↔ map_get k' m = None) as Heq.
    { by rewrite map_get_del_ne by done. }
    rewrite !map_get_None in Heq. destruct (decide (k' ∈ m.*1)); destruct (decide (k' ∈ (map_del k m).*1)); naive_solver.
Qed.
End JsMap.

#[export] Hint Resolve map_set_NoDup map_del_NoDup map_get_del_eq : ng.
