(* ===== verification/Threads.v ===== *)
(** Computations over one state.

    First a small program logic for the state-and-error monad: triples over an
    invariant of the state and an order in which the state only grows. Then
    handlers that run beside one another: an asynchronous function is a tree of
    statements, and between two of them any other handler may run its own. A
    statement may have to wait for a lock, and a statement of the database may
    fail. *)
From S2P Require Import Prelude.

Section Triples.
Context {S : Type} (inv : S → Prop) (ext : relation S) `{!PreOrder ext}.

(** From a state with the invariant and [P], the computation keeps the
    invariant, goes up, and ends in [Q] when it returns. *)
Definition triple {A} (P : S → Prop) (m : M S A) (Q : A → S → Prop) : Prop :=
  ∀ s o s', inv s → P s → m s = (o, s') → inv s' ∧ ext s s' ∧ ∀ a, o = Ret a → Q a s'.

Definition anywhere (s : S) : Prop := True.
Definition anything {A} (a : A) (s : S) : Prop := True.

(** What stays true as the state grows. *)
Definition stable (P : S → Prop) : Prop := ∀ s s', ext s s' → P s → P s'.

Lemma triple_bind {A B} P (m : M S A) Q (k : A → M S B) R :
  triple P m Q → (∀ a, triple (Q a) (k a) R) → triple P (m ≫= k) R.
Proof using All.
  intros Hm Hk s o s' Hi HP [(a & s1 & E1 & E2)|(e & E1 & ->)]%bind_cases.
  - destruct (Hm _ _ _ Hi HP E1) as (H1 & H2 & H3). destruct (Hk a _ _ _ H1 (H3 _ eq_refl) E2) as (H4 & H5 & H6).
    split_and!; [done|by transitivity s1|done].
  - destruct (Hm _ _ _ Hi HP E1) as (H1 & H2 & _). done.
Qed.

Lemma triple_ret {A} (a : A) (P : S → Prop) (Q : A → S → Prop) : (∀ s, P s → Q a s) → triple P (mret a) Q.
Proof using All. intros HQ s o s' Hi HP [= <- <-]. split_and!; [done|reflexivity|]. intros a' [= <-]. auto. Qed.

Lemma triple_throw {A} e P (Q : A → S → Prop) : triple P (throw e) Q.
Proof using All. intros s o s' Hi HP [= <- <-]. split_and!; [done|reflexivity|done]. Qed.

Lemma triple_lift {A} (x : outcome A) P (Q : A → S → Prop) : (∀ a s, x = Ret a → P s → Q a s) → triple P (lift x) Q.
Proof using All. intros HQ s o s' Hi HP [= <- <-]. split_and!; [done|reflexivity|]. eauto. Qed.

Lemma triple_get (P : S → Prop) : triple P get (λ a s, a = s ∧ P s).
Proof using All. intros s o s' Hi HP [= <- <-]. split_and!; [done|reflexivity|]. by intros a [= <-]. Qed.

Lemma triple_weaken {A} (P P' : S → Prop) (m : M S A) (Q Q' : A → S → Prop) :
  triple P m Q → (∀ s, P' s → P s) → (∀ a s, Q a s → Q' a s) → triple P' m Q'.
Proof using Type. intros Hm HP HQ s o s' Hi HP' E. destruct (Hm _ _ _ Hi (HP _ HP') E) as (H1 & H2 & H3). naive_solver. Qed.

(** A stable fact is carried along. *)
Lemma triple_frame {A} (F P : S → Prop) (m : M S A) (Q : A → S → Prop) :
  stable F → triple P m Q → triple (λ s, F s ∧ P s) m (λ a s, F s ∧ Q a s).
Proof using Type.
  intros HF Hm s o s' Hi [HFs HP] E. destruct (Hm _ _ _ Hi HP E) as (H1 & H2 & H3). split_and!; [done|done|]. intros a Ha. split; eauto.
Qed.

(** A precondition that holds or not once and for all. *)
Lemma triple_pure {A} (F : Prop) (P : S → Prop) (m : M S A) Q : (F → triple P m Q) → triple (λ s, F ∧ P s) m Q.
Proof using Type. intros Hm s o s' Hi [HF HP] E. by eapply Hm. Qed.

Lemma triple_exists {X A} (P : X → S → Prop) (m : M S A) Q :
  (∀ x, triple (P x) m Q) → triple (λ s, ∃ x, P x s) m Q.
Proof using Type. intros Hm s o s' Hi [x HP] E. by eapply Hm. Qed.

End Triples.

(** * Programs that run beside one another *)

(** ** Programs *)

Section Programs.
Context {S : Type}.

(** [Stmt fallible guard m k]: when [guard] holds, runs [m] at the time of the
    clock and goes on with its outcome. *)
Inductive prog (A : Type) : Type :=
| Done (o : outcome A)
| Stmt (X : Type) (fallible : bool) (guard : S → bool) (m : Z → M S X) (k : outcome X → prog A).
Arguments Done {A} _.
Arguments Stmt {A} _ _ _ _ _.

Fixpoint prog_bind {A B} (k : A → prog B) (p : prog A) : prog B :=
  match p with
  | Done (Ret a) => k a
  | Done (Throw e) => Done (Throw e)
  | Stmt X f g m c => Stmt X f g m (λ o, prog_bind k (c o))
  end.

#[export] Instance prog_mbind : MBind prog := λ A B k p, prog_bind k p.
#[export] Instance prog_mret : MRet prog := λ A a, Done (Ret a).

(** [try { p } catch (e) { h e }] *)
Fixpoint catching {A} (p : prog A) (h : exn → prog A) : prog A :=
  match p with
  | Done (Throw e) => h e
  | Done (Ret a) => Done (Ret a)
  | Stmt X f g m c => Stmt X f g m (λ o, catching (c o) h)
  end.

(** [try { p } finally { q }] of a [q] that does not fail. *)
Fixpoint finally {A} (p : prog A) (q : prog unit) : prog A :=
  match p with
  | Done o => prog_bind (λ _, Done o) q
  | Stmt X f g m c => Stmt X f g m (λ o, finally (c o) q)
  end.

Definition raise {A} (e : exn) : prog A := Done (Throw e).

(** A statement of the database; one in memory; a read of the clock. *)
Definition db_stmt {A} (m : Z → M S A) : prog A := Stmt A true (λ _, true) m Done.
Definition local {A} (m : M S A) : prog A := Stmt A false (λ _, true) (λ _, m) Done.
Definition clock : prog Z := Stmt Z false (λ _, true) (λ now s, (Ret now, s)) Done.

(** Waits until [guard] holds. *)
Definition blocking {A} (guard : S → bool) (m : M S A) : prog A := Stmt A false guard (λ _, m) Done.

(** ** A pool of programs *)

Definition pool (A : Type) : Type := (S * list (prog A))%type.

(** One program runs one statement; with [faults], the database may fail it. *)
Inductive pool_step {A} (faults : bool) : pool A → pool A → Prop :=
| pool_runs s ps i X f g (m : Z → M S X) k now o s' :
    ps !! i = Some (Stmt X f g m k) → g s = true → m now s = (o, s') →
    pool_step faults (s, ps) (s', <[i := k o]> ps)
| pool_fails s ps i X g (m : Z → M S X) k e :
    faults = true → ps !! i = Some (Stmt X true g m k) → g s = true →
    pool_step faults (s, ps) (s, <[i := k (Throw e)]> ps).

Definition finished {A} (p : prog A) : Prop := match p with Done _ => True | _ => False end.

(** A schedule: which program runs next, at one time of the clock. *)
Definition run_one {A} (now : Z) (c : pool A) (i : nat) : pool A :=
  match c.2 !! i with
  | Some (Stmt X f g m k) => if g c.1 then let '(o, s') := m now c.1 in (s', <[i := k o]> c.2) else c
  | _ => c
  end.

Definition run_schedule {A} (now : Z) (schedule : list nat) (c : pool A) : pool A := foldl (run_one now) c schedule.

Lemma run_schedule_steps {A} faults now schedule (c : pool A) : rtc (pool_step faults) c (run_schedule now schedule c).
Proof.
  revert c. induction schedule as [|i schedule IH]; intros [s ps]; [done|]. cbn [run_schedule foldl]. unfold run_one at 2. cbn [fst snd].
  destruct (ps !! i) as [[o|X f g m k]|] eqn:El; [apply IH| |apply IH].
  destruct (g s) eqn:Eg; [|apply IH]. destruct (m now s) as [o s'] eqn:Em. eapply rtc_l; [by eapply pool_runs|apply IH].
Qed.

(** ** Statements within a relation *)

(** Every statement [p] may run is within [R]. *)
Fixpoint within {A} (R : S → S → Prop) (p : prog A) : Prop :=
  match p with
  | Done _ => True
  | Stmt X f g m k =>
      (∀ now s o s', g s = true → m now s = (o, s') → R s s' ∧ within R (k o)) ∧ (f = true → ∀ e, within R (k (Throw e)))
  end.

Lemma within_bind {A B} R (p : prog A) (k : A → prog B) : within R p → (∀ a, within R (k a)) → within R (p ≫= k).
Proof.
  intros Hp Hk. unfold mbind, prog_mbind. induction p as [o|X f g m c IH]; simpl.
  - destruct o as [a|e]; [apply Hk|done].
  - destruct Hp as [H1 H2]. split.
    + intros now s o s' Hg Hm. destruct (H1 _ _ _ _ Hg Hm). auto.
    + intros Hf e. auto.
Qed.

Lemma within_catching {A} R (p : prog A) h : within R p → (∀ e, within R (h e)) → within R (catching p h).
Proof.
  intros Hp Hk. induction p as [o|X f g m c IH]; simpl.
  - destruct o as [a|e]; [done|apply Hk].
  - destruct Hp as [H1 H2]. split.
    + intros now s o s' Hg Hm. destruct (H1 _ _ _ _ Hg Hm). auto.
    + intros Hf e. auto.
Qed.

Lemma within_finally {A} R (p : prog A) q : within R p → within R q → within R (finally p q).
Proof.
  intros Hp Hq. induction p as [o|X f g m c IH]; simpl.
  - apply (within_bind R q (λ _, Done o)); [done|]. by intros [].
  - destruct Hp as [H1 H2]. split.
    + intros now s o s' Hg Hm. destruct (H1 _ _ _ _ Hg Hm). auto.
    + intros Hf e. auto.
Qed.

Lemma within_stmt {A} R f g (m : Z → M S A) : (∀ now s o s', g s = true → m now s = (o, s') → R s s') → within R (Stmt A f g m Done).
Proof. intros Hm. split; [|done]. intros now s o s' Hg E. split; [by eapply Hm|done]. Qed.

Lemma within_pool {A} R faults (s s' : S) (ps ps' : list (prog A)) :
  Forall (within R) ps → rtc (pool_step faults) (s, ps) (s', ps') → rtc R s s' ∧ Forall (within R) ps'.
Proof.
  intros Hps Hr. remember (s, ps) as c eqn:Ec. remember (s', ps') as c' eqn:Ec'. revert s ps Hps Ec.
  induction Hr as [c|c c1 c2 Hs _ IH]; intros s ps Hps ->; [by injection Ec' as -> ->|]. specialize (IH Ec').
  inversion Hs as [s0 ps0 i X f g m k now o s1 Hl Hg Hm|s0 ps0 i X g m k e Hf Hl Hg]; subst.
  - pose proof (Forall_lookup_1 _ _ _ _ Hps Hl) as [H2 _]. destruct (H2 _ _ _ _ Hg Hm) as [HR Hk].
    destruct (IH _ _ (Forall_insert _ _ _ _ Hps Hk) eq_refl) as [Hrtc ?]. split; [by eapply rtc_l|done].
  - pose proof (Forall_lookup_1 _ _ _ _ Hps Hl) as [_ H2]. apply (IH s (<[i:=k (Throw e)]> ps)); [|done].
    apply Forall_insert; [done|by apply H2].
Qed.

Lemma join_split {A} (l : list (list A)) i x : l !! i = Some x → mjoin l ≡ₚ x ++ mjoin (delete i l).
Proof.
  revert i. induction l as [|y l IH]; intros [|i] Hi; [done|done|by injection Hi as ->|]. cbn in *.
  rewrite (IH _ Hi), !app_assoc. by rewrite (Permutation_app_comm y x).
Qed.

Lemma delete_replaced {A} (l : list A) i x : delete i (<[i:=x]> l) = delete i l.
Proof. revert i. induction l as [|y l IH]; intros [|i]; simpl; [done..|]. by rewrite IH. Qed.

(** ** Obligations

    Ghost state: each program owns the list of what it still has to do; the
    invariant of the shared state may rely on what anybody still has to do. *)
Section Obligations.
Context {Ob : Type} (inv : S → list Ob → Prop) (faults : bool).
Hypothesis inv_perm : ∀ s l l', l ≡ₚ l' → inv s l → inv s l'.

(** [p], owning [own], keeps the invariant beside any others, and ends with [Q]. *)
Fixpoint keeps {A} (Q : outcome A → list Ob → Prop) (own : list Ob) (p : prog A) : Prop :=
  match p with
  | Done o => Q o own
  | Stmt X f g m k =>
      (∀ now s env o s', inv s (own ++ env) → g s = true → m now s = (o, s') →
         ∃ own', inv s' (own' ++ env) ∧ keeps Q own' (k o)) ∧
      (faults = true → f = true → ∀ e, keeps Q own (k (Throw e)))
  end.

Lemma keeps_weaken {A} (Q Q' : outcome A → list Ob → Prop) own p :
  keeps Q own p → (∀ o l, Q o l → Q' o l) → keeps Q' own p.
Proof.
  revert own. induction p as [o|X f g m c IH]; intros own Hp HQ; simpl in *; [auto|]. destruct Hp as [Hp Hf]. split; [|eauto].
  intros now s env o s' Hi Hg Hm. destruct (Hp _ _ _ _ _ Hi Hg Hm) as (own' & H1 & H2). eauto.
Qed.

Lemma keeps_bind {A B} (Q : outcome A → list Ob → Prop) (Q' : outcome B → list Ob → Prop) own (p : prog A) (k : A → prog B) :
  keeps Q own p → (∀ a l, Q (Ret a) l → keeps Q' l (k a)) → (∀ e l, Q (Throw e) l → Q' (Throw e) l) → keeps Q' own (p ≫= k).
Proof.
  intros Hp Hk He. revert own Hp. unfold mbind, prog_mbind. induction p as [o|X f g m c IH]; intros own Hp; simpl in *.
  - destruct o; [by apply Hk|by apply He].
  - destruct Hp as [Hp Hf]. split; [|eauto]. intros now s env o s' Hi Hg Hm. destruct (Hp _ _ _ _ _ Hi Hg Hm) as (own' & H1 & H2). eauto.
Qed.

Lemma keeps_catching {A} (Q Q' : outcome A → list Ob → Prop) own (p : prog A) h :
  keeps Q own p → (∀ e l, Q (Throw e) l → keeps Q' l (h e)) → (∀ a l, Q (Ret a) l → Q' (Ret a) l) → keeps Q' own (catching p h).
Proof.
  intros Hp Hk He. revert own Hp. induction p as [o|X f g m c IH]; intros own Hp; simpl in *.
  - destruct o; simpl; auto.
  - destruct Hp as [Hp Hf]. split; [|eauto]. intros now s env o s' Hi Hg Hm. destruct (Hp _ _ _ _ _ Hi Hg Hm) as (own' & H1 & H2). eauto.
Qed.

Lemma keeps_finally {A} (Q : outcome A → list Ob → Prop) (Q' : outcome A → list Ob → Prop) own (p : prog A) q :
  keeps Q own p → (∀ o l, Q o l → keeps (λ o' l', ∃ u, o' = Ret u ∧ Q' o l') l q) → keeps Q' own (finally p q).
Proof.
  intros Hp Hq. revert own Hp. induction p as [o|X f g m c IH]; intros own Hp; simpl in *.
  - eapply keeps_bind; [by apply Hq| |by intros e l (u & [=] & _)]. by intros a l (u & _ & HQ).
  - destruct Hp as [Hp Hf]. split; [|eauto]. intros now s env o s' Hi Hg Hm. destruct (Hp _ _ _ _ _ Hi Hg Hm) as (own' & H1 & H2). eauto.
Qed.

(** One statement. *)
Lemma keeps_stmt {A} (Q : outcome A → list Ob → Prop) own f g (m : Z → M S A) :
  (∀ now s env o s', inv s (own ++ env) → g s = true → m now s = (o, s') → ∃ own', inv s' (own' ++ env) ∧ Q o own') →
  (faults = true → f = true → ∀ e, Q (Throw e) own) → keeps Q own (Stmt A f g m Done).
Proof. intros H Hf. split; [|done]. intros now s env o s' Hi Hg Hm. by apply (H now s env o s' Hi Hg Hm). Qed.

(** Each program of a pool owns a list and ends as it should. *)
Definition pool_keeps {A} (Q : nat → outcome A → list Ob → Prop) (owns : list (list Ob)) (ps : list (prog A)) : Prop :=
  length owns = length ps ∧ ∀ i own p, owns !! i = Some own → ps !! i = Some p → keeps (Q i) own p.

Lemma pool_keeps_insert {A} (Q : nat → outcome A → list Ob → Prop) owns ps i own p :
  pool_keeps Q owns ps → keeps (Q i) own p → pool_keeps Q (<[i:=own]> owns) (<[i:=p]> ps).
Proof.
  intros [Hl Hk] Hp. split; [by rewrite !length_insert|]. intros j own' p' Ho Hps.
  apply list_lookup_insert_Some in Ho as [(<- & -> & _)|[Hne Ho]]; apply list_lookup_insert_Some in Hps as [(? & -> & _)|[Hne' Hps]]; try done. by eapply Hk.
Qed.

(** The pool keeps the invariant, of what its programs own. *)
Lemma keeps_pool_at {A} (Q : nat → outcome A → list Ob → Prop) (s s' : S) (ps ps' : list (prog A)) owns :
  pool_keeps Q owns ps → inv s (mjoin owns) → rtc (pool_step faults) (s, ps) (s', ps') →
  ∃ owns', inv s' (mjoin owns') ∧ pool_keeps Q owns' ps'.
Proof.
  intros Ho Hi Hr. remember (s, ps) as c eqn:Ec. remember (s', ps') as c' eqn:Ec'. revert s ps owns Ho Hi Ec.
  induction Hr as [c|c c1 c2 Hs _ IH]; intros s ps owns Ho Hi ->; [injection Ec' as -> ->; eauto|]. specialize (IH Ec').
  assert (∀ i p, ps !! i = Some p → ∃ own, owns !! i = Some own ∧ keeps (Q i) own p) as Hat.
  { intros i p Hl. destruct Ho as [Hlen Hk]. destruct (lookup_lt_is_Some_2 owns i) as [own Hown]; [rewrite Hlen; by eapply lookup_lt_Some|]. eauto. }
  inversion Hs as [s0 ps0 i X f g m k now o s1 Hl Hg Hm|s0 ps0 i X g m k e Hf Hl Hg]; subst; destruct (Hat _ _ Hl) as (own & Hown & Hk1 & Hk2).
  2:{ specialize (Hk2 Hf eq_refl e). apply (IH s (<[i:=k (Throw e)]> ps) owns); [|done..]. rewrite <- (list_insert_id owns i own) by done. by apply pool_keeps_insert. }
  assert (mjoin owns ≡ₚ own ++ mjoin (delete i owns)) as Hperm by (by apply join_split).
  destruct (Hk1 now s (mjoin (delete i owns)) o s1) as (own' & Hi' & Hk'); [by eapply inv_perm|done|done|].
  apply (IH s1 (<[i:=k o]> ps) (<[i:=own']> owns)); [by apply pool_keeps_insert| |done].
  eapply inv_perm; [|exact Hi']. rewrite (join_split (<[i:=own']> owns) i own') by (apply list_lookup_insert_eq; by eapply lookup_lt_Some).
  by rewrite delete_replaced.
Qed.

(** When all have ended, it holds of what their ends allow to be left. *)
Lemma keeps_finished {A} (Q : list Ob → Prop) (s s' : S) (ps ps' : list (prog A)) owns :
  Forall2 (keeps (λ _, Q)) owns ps → inv s (mjoin owns) → rtc (pool_step faults) (s, ps) (s', ps') → Forall finished ps' →
  ∃ owns', inv s' (mjoin owns') ∧ Forall Q owns'.
Proof.
  intros Ho Hi Hr Hf. apply Forall2_same_length_lookup in Ho.
  destruct (keeps_pool_at (λ _ _, Q) _ _ _ _ _ Ho Hi Hr) as (owns' & Hi' & Ho').
  apply (Forall2_same_length_lookup (keeps (λ _, Q))) in Ho'. exists owns'. split; [done|].
  clear -Ho' Hf. induction Ho' as [|own p owns ps Hp _ IH]; [done|]. apply Forall_cons in Hf as [Hf1 Hf2]. constructor; [|auto]. by destruct p.
Qed.
End Obligations.
End Programs.

Arguments prog : clear implicits.
Arguments Done {S A} _.
Arguments Stmt {S A} _ _ _ _ _.
Arguments pool : clear implicits.
