(* ===== verification/Db.v ===== *)
(** Tables and the statements the program runs on them.

    A table maps a primary key to a row. [UPDATE .. SET .. WHERE] answers the
    number of rows it changed; [SELECT .. ORDER BY ID LIMIT n] reads a page in
    key order. Statements run on the database through CAP (cds.ql); their
    meaning is SQL's. *)
From S2P Require Import Prelude.

(** A SELECT without ORDER BY returns its rows in an order of the database's
    choice; the statements that read so are proved for every such order. *)
Class ScanOrder := {
  scan : ∀ {R : Type}, gmap string R → list (string * R);
  scan_perm : ∀ {R : Type} (t : gmap string R), scan t ≡ₚ map_to_list t }.

(** The order of the keys is one. *)
Definition key_order : ScanOrder :=
  {| scan := λ R t, map_to_list t; scan_perm := λ R t, Permutation_refl (map_to_list t) |}.

Section Table.
Context {R : Type}.
Implicit Types (t : gmap string R) (w : string → R → bool) (c : R → bool) (f : R → R).

(** [UPDATE t SET f WHERE w] with the affected-row count. *)
Definition sql_update w f t : gmap string R * nat :=
  (map_imap (λ k r, Some (if w k r then f r else r)) t,
   size (filter (λ kr, w kr.1 kr.2 = true) t)).

(** [UPDATE t SET f WHERE ID = k AND c]. *)
Definition sql_update_key (k : string) (c : R → bool) f t : gmap string R * nat :=
  match t !! k with
  | Some r => if c r then (<[k := f r]> t, 1) else (t, 0)
  | None => (t, 0)
  end.

(** [DELETE FROM t WHERE w]. *)
Definition sql_delete w t : gmap string R := filter (λ kr, w kr.1 kr.2 = false) t.

(** [SELECT FROM t WHERE w ORDER BY ID]. *)
Definition key_le : relation (string * R) := λ a b, String.le a.1 b.1.
#[export] Instance key_le_dec : RelDecision key_le.
Proof. intros a b. unfold key_le. apply _. Defined.

Definition sql_select_by_id w t : list (string * R) :=
  merge_sort key_le (filter (λ kr, w kr.1 kr.2 = true) (map_to_list t)).

(** ** Laws *)

Lemma lookup_sql_update w f t k :
  (sql_update w f t).1 !! k = (λ r, if w k r then f r else r) <$> t !! k.
Proof. simpl. rewrite map_lookup_imap. by destruct (t !! k). Qed.

Lemma lookup_sql_delete w t k r :
  sql_delete w t !! k = Some r ↔ t !! k = Some r ∧ w k r = false.
Proof. unfold sql_delete. by rewrite map_lookup_filter_Some. Qed.

Lemma sql_update_none w f t :
  (∀ k r, t !! k = Some r → w k r = false) → sql_update w f t = (t, 0).
Proof.
  intros Hw. unfold sql_update. f_equal.
  - apply map_eq. intros k. rewrite map_lookup_imap. destruct (t !! k) eqn:E; simpl; [|done].
    by rewrite (Hw _ _ E).
  - apply map_size_empty_iff, map_empty. intros k. apply map_lookup_filter_None. right.
    intros r Hr. simpl. rewrite (Hw _ _ Hr). done.
Qed.

Lemma sql_update_key_eq k c f t :
  sql_update_key k c f t = sql_update (λ k' r, bool_decide (k' = k) && c r) f t.
Proof.
  unfold sql_update_key. destruct (t !! k) as [r|] eqn:E; [destruct (c r) eqn:Ec|].
  - unfold sql_update. f_equal.
    + apply map_eq. intros k'. rewrite map_lookup_imap.
      destruct (decide (k' = k)) as [->|Hne].
      * rewrite lookup_insert_eq, E. simpl. by rewrite bool_decide_eq_true_2, Ec.
      * rewrite lookup_insert_ne by done. destruct (t !! k') eqn:E'; simpl; [|done].
        by rewrite bool_decide_eq_false_2.
    + assert (filter (λ kr : string * R, bool_decide (kr.1 = k) && c kr.2 = true) t = {[k := r]}) as ->.
      { apply map_eq. intros k'. apply option_eq. intros r'.
        rewrite map_lookup_filter_Some, lookup_singleton_Some. simpl. split.
        - intros [H1 [H2%bool_decide_eq_true_1 H3]%andb_prop]. simplify_eq. done.
        - intros [-> ->]. split; [done|]. by rewrite bool_decide_eq_true_2. }
      by rewrite map_size_singleton.
  - symmetry. apply sql_update_none. intros k' r' Hr. case_bool_decide; simplify_eq; done.
  - symmetry. apply sql_update_none. intros k' r' Hr. case_bool_decide; simplify_eq; done.
Qed.

(** The compare-and-swap reading of an UPDATE by key: it changed the row
    exactly when it answers one row. *)
Lemma sql_update_key_one k c f t t' :
  sql_update_key k c f t = (t', 1) ↔
  ∃ r, t !! k = Some r ∧ c r = true ∧ t' = <[k := f r]> t.
Proof.
  unfold sql_update_key. split.
  - intros H. destruct (t !! k) as [r|] eqn:E; [|done]. destruct (c r) eqn:Ec; simplify_eq. eauto.
  - intros (r & -> & -> & ->). done.
Qed.

Lemma sql_update_key_cases k c f t t' n :
  sql_update_key k c f t = (t', n) →
  (n = 1 ∧ ∃ r, t !! k = Some r ∧ c r = true ∧ t' = <[k := f r]> t) ∨
  (n = 0 ∧ t' = t ∧ ∀ r, t !! k = Some r → c r = false).
Proof.
  unfold sql_update_key. intros H. destruct (t !! k) as [r|] eqn:E.
  - destruct (c r) eqn:Ec; simplify_eq; [left; eauto|right]. split_and!; [done|done|]. naive_solver.
  - simplify_eq. right. split_and!; [done|done|]. naive_solver.
Qed.

Lemma elem_of_sql_select w t k r :
  (k, r) ∈ sql_select_by_id w t ↔ t !! k = Some r ∧ w k r = true.
Proof.
  unfold sql_select_by_id. rewrite merge_sort_Permutation.
  rewrite list_elem_of_filter, elem_of_map_to_list. simpl. naive_solver.
Qed.

#[export] Instance key_le_total : Total key_le.
Proof. intros a b. apply (total String.le). Qed.
#[export] Instance key_le_trans : Transitive key_le.
Proof. intros a b c. unfold key_le. apply transitivity. Qed.

Lemma sql_select_sorted w t : StronglySorted key_le (sql_select_by_id w t).
Proof. apply StronglySorted_merge_sort; apply _. Qed.

Lemma sql_select_NoDup w t : NoDup (sql_select_by_id w t).*1.
Proof.
  unfold sql_select_by_id. rewrite (merge_sort_Permutation key_le).
  eapply sublist_NoDup; [apply (NoDup_fst_map_to_list (M:=gmap string) t)|]. apply sublist_fmap_mono, sublist_filter.
Qed.

(** Selecting with one more condition on the key is filtering the selection. *)
Lemma sql_select_and w (v : string → bool) t :
  sql_select_by_id (λ k r, w k r && v k) t = filter (λ kr, v kr.1 = true) (sql_select_by_id w t).
Proof.
  apply (StronglySorted_unique_strong key_le).
  - intros [k1 r1] [k2 r2] H1 H2 Hle1 Hle2. unfold key_le in *. simpl in *.
    assert (k1 = k2) as -> by (by apply (anti_symm String.le)).
    apply elem_of_sql_select in H1 as [H1 _]. apply list_elem_of_filter in H2 as [_ H2].
    apply elem_of_sql_select in H2 as [H2 _]. by simplify_eq.
  - apply sql_select_sorted.
  - apply StronglySorted_filter, sql_select_sorted.
  - unfold sql_select_by_id. rewrite !merge_sort_Permutation, list_filter_filter.
    apply reflexive_eq, list_filter_iff. intros [k r]. simpl. destruct (w k r), (v k); naive_solver.
Qed.

Context `{ScanOrder}.

(** [SELECT FROM t WHERE w]. *)
Definition sql_select w t : list (string * R) := filter (λ kr, w kr.1 kr.2 = true) (scan t).

Lemma elem_of_select w t k r :
  (k, r) ∈ sql_select w t ↔ t !! k = Some r ∧ w k r = true.
Proof.
  unfold sql_select. rewrite list_elem_of_filter, (scan_perm t), elem_of_map_to_list. simpl.
  naive_solver.
Qed.

Lemma select_NoDup w t : NoDup (sql_select w t).*1.
Proof.
  unfold sql_select. eapply sublist_NoDup; [|apply sublist_fmap_mono, sublist_filter].
  rewrite (scan_perm t). apply (NoDup_fst_map_to_list (M:=gmap string) t).
Qed.
End Table.
