(* ===== verification/Json.v ===== *)
(** JSON values and instants, as the program reads and writes them.

    A JSON text column is modelled by the value of its text, or as malformed
    text that JSON.parse refuses. An instant is its milliseconds since the
    epoch; [toISOString] and [dateParse] are the two conversions of JavaScript's
    Date the program uses. *)
From Stdlib Require Import Ascii.
From S2P Require Import Prelude.

Set Warnings "-register-all".

Local Open Scope string_scope.

(** A number is an integer or another double, kept by its text. *)
Inductive json :=
| JNull
| JBool (b : bool)
| JInt (n : Z)
| JFloat (repr : string)
| JStr (s : string)
| JArr (l : list json)
| JObj (fields : list (string * json)).

Inductive json_text := Malformed | Text (v : json).

(** [v.k]; undefined for anything but an object with the field. *)
Definition json_get (k : string) (v : json) : option json :=
  match v with JObj fs => map_get k fs | _ => None end.

(** [String(v)]; the elements of an array are joined with commas, null
    elements as the empty string. *)
Fixpoint json_to_string (v : json) : string :=
  match v with
  | JNull => "null" | JBool true => "true" | JBool false => "false"
  | JInt n => pretty n | JFloat r => r | JStr s => s
  | JArr l => String.concat "," (List.map (λ x, match x with JNull => EmptyString
                                                      | _ => json_to_string x end) l)
  | JObj _ => "[object Object]"
  end.

(** [JSON.stringify(v)]: no spaces; quotes, backslashes and control characters
    of strings are escaped. *)
Definition chr (n : nat) : string := String (ascii_of_nat n) EmptyString.
Definition hex_digit (n : nat) : Ascii.ascii := ascii_of_nat (if (n <? 10)%nat then 48 + n else 87 + n).

Definition escape_char (a : Ascii.ascii) : string :=
  let n := nat_of_ascii a in
  if (n =? 34)%nat then chr 92 ++ chr 34
  else if (n =? 92)%nat then chr 92 ++ chr 92
  else if (n =? 8)%nat then chr 92 ++ "b"
  else if (n =? 9)%nat then chr 92 ++ "t"
  else if (n =? 10)%nat then chr 92 ++ "n"
  else if (n =? 12)%nat then chr 92 ++ "f"
  else if (n =? 13)%nat then chr 92 ++ "r"
  else if (n <? 32)%nat then
    chr 92 ++ "u00" ++ String (hex_digit (n / 16)) (String (hex_digit (n mod 16)) EmptyString)
  else String a EmptyString.

Fixpoint escape (s : string) : string :=
  match s with
  | EmptyString => EmptyString
  | String a s' => escape_char a ++ escape s'
  end.

Definition quote (s : string) : string := chr 34 ++ escape s ++ chr 34.

Fixpoint stringify (v : json) : string :=
  match v with
  | JNull => "null" | JBool true => "true" | JBool false => "false"
  | JInt n => pretty n | JFloat r => r | JStr s => quote s
  | JArr l => "[" ++ String.concat "," (List.map stringify l) ++ "]"
  | JObj fs => "{" ++ String.concat "," (List.map (λ kv, quote kv.1 ++ ":" ++ stringify kv.2) fs) ++ "}"
  end.

(** JavaScript truthiness; [None] is undefined. *)
Definition truthy (v : option json) : bool :=
  match v with
  | None | Some JNull | Some (JBool false) | Some (JInt 0) => false
  | Some (JStr s) => negb (bool_decide (s = EmptyString))
  | Some _ => true
  end.

(** [a ?? b] on a field. *)
Definition json_nullish (v : option json) (d : option json) : option json :=
  match v with None | Some JNull => d | Some _ => v end.

Definition json_of_string (s : option string) : json :=
  match s with Some x => JStr x | None => JNull end.

(** ** Instants *)

Section Dates.
Local Open Scope Z_scope.

(** Days since 1970-01-01 of a proleptic Gregorian date. *)
Definition days_from_civil (y m d : Z) : Z :=
  let y' := if m <=? 2 then y - 1 else y in
  let era := y' / 400 in
  let yoe := y' - era * 400 in
  let doy := (153 * (if 2 <? m then m - 3 else m + 9) + 2) / 5 + d - 1 in
  let doe := yoe * 365 + yoe / 4 - yoe / 100 + doy in
  era * 146097 + doe - 719468.

Definition civil_from_days (z : Z) : Z * Z * Z :=
  let z' := z + 719468 in
  let era := z' / 146097 in
  let doe := z' - era * 146097 in
  let yoe := (doe - doe / 1460 + doe / 36524 - doe / 146096) / 365 in
  let doy := doe - (365 * yoe + yoe / 4 - yoe / 100) in
  let mp := (5 * doy + 2) / 153 in
  let d := doy - (153 * mp + 2) / 5 + 1 in
  let m := if mp <? 10 then mp + 3 else mp - 9 in
  let y := yoe + era * 400 in
  (if m <=? 2 then y + 1 else y, m, d).

Definition digit (n : Z) : Ascii.ascii := Ascii.ascii_of_N (Z.to_N (48 + n mod 10)).

(** [n] as [w] decimal digits. *)
Fixpoint pad (w : nat) (n : Z) (acc : string) : string :=
  match w with
  | O => acc
  | S w' => pad w' (n / 10) (String (digit n) acc)
  end.

(** [new Date(ms).toISOString()] for the years 0000 to 9999. *)
Definition toISOString (ms : Z) : string :=
  let '(y, m, d) := civil_from_days (ms / 86400000) in
  let t := ms mod 86400000 in
  pad 4 y ("-" ++ pad 2 m ("-" ++ pad 2 d ("T" ++ pad 2 (t / 3600000) (":" ++
  pad 2 (t / 60000 mod 60) (":" ++ pad 2 (t / 1000 mod 60) ("." ++ pad 3 (t mod 1000) "Z")))))).

Definition digit_val (a : Ascii.ascii) : option Z :=
  let n := Z.of_N (Ascii.N_of_ascii a) in
  if (48 <=? n) && (n <=? 57) then Some (n - 48) else None.

(** [w] decimal digits off the front of [s]. *)
Fixpoint read_digits (w : nat) (acc : Z) (s : string) : option (Z * string) :=
  match w, s with
  | O, _ => Some (acc, s)
  | S w', String a s' => v ← digit_val a; read_digits w' (acc * 10 + v) s'
  | S _, EmptyString => None
  end.

Definition read_char (c : Ascii.ascii) (s : string) : option string :=
  match s with
  | String a s' => if Ascii.eqb a c then Some s' else None
  | EmptyString => None
  end.

(** [Date.parse(s)] on the format [toISOString] writes; NaN is [None]. Other
    formats Date.parse may accept do not occur in the columns read here. *)
Definition dateParse (s : string) : option Z :=
  '(y, s) ← read_digits 4 0 s; s ← read_char "-"%char s;
  '(m, s) ← read_digits 2 0 s; s ← read_char "-"%char s;
  '(d, s) ← read_digits 2 0 s; s ← read_char "T"%char s;
  '(hh, s) ← read_digits 2 0 s; s ← read_char ":"%char s;
  '(mm, s) ← read_digits 2 0 s; s ← read_char ":"%char s;
  '(ss, s) ← read_digits 2 0 s; s ← read_char "."%char s;
  '(ms, s) ← read_digits 3 0 s; s ← read_char "Z"%char s;
  if bool_decide (s = EmptyString) && (1 <=? m) && (m <=? 12) && (1 <=? d) && (d <=? 31) &&
     (hh <? 24) && (mm <? 60) && (ss <? 60)
  then Some (days_from_civil y m d * 86400000 + hh * 3600000 + mm * 60000 + ss * 1000 + ms)
  else None.
End Dates.

Example toISOString_ex : toISOString 1700000000123 = "2023-11-14T22:13:20.123Z".
Proof. by vm_compute. Qed.
Example dateParse_ex : dateParse (toISOString 1700000000123) = Some 1700000000123%Z.
Proof. by vm_compute. Qed.
