(* ===== verification/Numbers.v ===== *)
(** Integers out of text and JSON (srv/utils/numbers.ts), hex strings and JSON lists
    in text columns (srv/utils/hex-patterns.ts, srv/utils/json-list.ts). *)
From Stdlib Require Import Ascii.
From S2P Require Import Prelude Json.

Set Warnings "-register-all".

Local Open Scope string_scope.

Definition MAX_SAFE_INTEGER : Z := 9007199254740991.
Definition MIN_SAFE_INTEGER : Z := -9007199254740991.

Definition is_space (a : Ascii.ascii) : bool :=
  let n := Ascii.nat_of_ascii a in
  ((9 <=? n)%nat && (n <=? 13)%nat) || (n =? 32)%nat || (n =? 160)%nat.

Fixpoint trim_start (s : string) : string :=
  match s with
  | EmptyString => EmptyString
  | String a s' => if is_space a then trim_start s' else s
  end.

Fixpoint all_spaces (s : string) : bool :=
  match s with EmptyString => true | String a s' => is_space a && all_spaces s' end.

Fixpoint trim_end (s : string) : string :=
  match s with
  | EmptyString => EmptyString
  | String a s' => if all_spaces s then EmptyString else String a (trim_end s')
  end.

(** [s.trim()] *)
Definition trim (s : string) : string := trim_end (trim_start s).

(** The value of a string of digits; [None] when it is not one. *)
Fixpoint digits_val (acc : Z) (s : string) : option Z :=
  match s with
  | EmptyString => Some acc
  | String a s' => v ← digit_val a; digits_val (acc * 10 + v)%Z s'
  end.

(** [/^\d+$/.test(s)] with [Number(s)]. *)
Definition parse_digits (s : string) : option Z :=
  if bool_decide (s = EmptyString) then None else digits_val 0 s.

(** [s.replace(/[,_\s]/g, '')] *)
Definition is_separator (a : Ascii.ascii) : bool :=
  Ascii.eqb a ","%char || Ascii.eqb a "_"%char || is_space a.

Fixpoint strip_separators (s : string) : string :=
  match s with
  | EmptyString => EmptyString
  | String a s' => if is_separator a then strip_separators s' else String a (strip_separators s')
  end.

(** [/^-?\d+$/.test(s)] with [BigInt(s)]. *)
Definition parse_signed (s : string) : option Z :=
  match s with
  | String a s' => if Ascii.eqb a "-"%char then Z.opp <$> parse_digits s' else parse_digits s
  | EmptyString => None
  end.

(** [String(value ?? '')] *)
Definition text_of (v : json) : string := match v with JNull => EmptyString | _ => json_to_string v end.

(** Numbers that are not integers ([JFloat]) are outside the model: none of the
    columns and fields it is applied to holds one. *)
Definition toBigInt (value : json) : Z :=
  match value with
  | JInt n => n
  | _ => nullish (parse_signed (strip_separators (text_of value))) 0%Z
  end.

Definition toInt (value : json) : Z :=
  let big := toBigInt value in
  if bool_decide (big ≤ MAX_SAFE_INTEGER)%Z && bool_decide (MIN_SAFE_INTEGER ≤ big)%Z then big else 0%Z.

Definition int64Value (value : option json) : json := nullish value JNull.

(** ** Facts *)

Lemma toBigInt_int n : toBigInt (JInt n) = n.
Proof. done. Qed.

Lemma toInt_safe v : (MIN_SAFE_INTEGER ≤ toInt v ≤ MAX_SAFE_INTEGER)%Z.
Proof.
  unfold toInt. case_bool_decide; simpl; [case_bool_decide; simpl|]; unfold MIN_SAFE_INTEGER, MAX_SAFE_INTEGER in *; lia.
Qed.

(** ** Decimal text *)

Lemma digit_val_char x : (x < 10)%N → digit_val (pretty_N_char x) = Some (Z.of_N x).
Proof.
  intros Hx.
  assert (x = 0 ∨ x = 1 ∨ x = 2 ∨ x = 3 ∨ x = 4 ∨ x = 5 ∨ x = 6 ∨ x = 7 ∨ x = 8 ∨ x = 9)%N as Hin by lia.
  by repeat (destruct Hin as [->|Hin]; [by vm_compute|]); subst x.
Qed.

Lemma digits_val_pretty_go x s : digits_val 0 (pretty_N_go x s) = digits_val (Z.of_N x) s.
Proof.
  revert s. induction (N.lt_wf_0 x) as [x _ IH]; intros s.
  assert (x = 0 ∨ 0 < x)%N as [->|Hx] by lia; [by rewrite pretty_N_go_0|].
  rewrite pretty_N_go_step by done. rewrite IH by (by apply N.div_lt). simpl.
  rewrite digit_val_char by (by apply N.mod_lt). simpl. f_equal.
  rewrite N2Z.inj_div, N2Z.inj_mod. pose proof (Z.div_mod (Z.of_N x) 10). lia.
Qed.

(** The first and every other character of a decimal numeral is a digit. *)
Fixpoint all_digits (s : string) : bool :=
  match s with EmptyString => true | String a s' => bool_decide (is_Some (digit_val a)) && all_digits s' end.

Lemma all_digits_pretty_go x s : all_digits s = true → all_digits (pretty_N_go x s) = true.
Proof.
  revert s. induction (N.lt_wf_0 x) as [x _ IH]; intros s Hs.
  assert (x = 0 ∨ 0 < x)%N as [->|Hx] by lia; [by rewrite pretty_N_go_0|].
  rewrite pretty_N_go_step by done. apply IH; [by apply N.div_lt|]. simpl.
  rewrite digit_val_char by (by apply N.mod_lt). by rewrite Hs.
Qed.

Lemma all_digits_pretty (p : positive) : all_digits (pretty (N.pos p)) = true.
Proof. unfold pretty, pretty_N. simpl. by apply all_digits_pretty_go. Qed.

Lemma digits_val_pretty (p : positive) : parse_digits (pretty (N.pos p)) = Some (Z.pos p).
Proof.
  unfold parse_digits. case_bool_decide as He.
  - unfold pretty, pretty_N in He. simpl in He.
    pose proof (digits_val_pretty_go (N.pos p) EmptyString) as H. by rewrite He in H.
  - unfold pretty, pretty_N in *. simpl in *. by rewrite digits_val_pretty_go.
Qed.

Lemma digit_not_separator a : is_Some (digit_val a) → is_separator a = false ∧ Ascii.eqb a "-"%char = false.
Proof. destruct a as [[] [] [] [] [] [] [] []]; vm_compute; intros [v Hv]; first [done|discriminate]. Qed.

Lemma strip_digits s : all_digits s = true → strip_separators s = s.
Proof.
  induction s as [|a s IH]; simpl; [done|]. intros [Ha%bool_decide_eq_true_1 Hs]%andb_prop.
  apply digit_not_separator in Ha as [-> _]. by rewrite IH.
Qed.

(** What is written with [n.toString()] is read back as [n]. *)
Lemma toBigInt_pretty n : toBigInt (JStr (pretty n)) = n.
Proof.
  unfold toBigInt, text_of, json_to_string. destruct n as [|p|p]; [done| |].
  - change (pretty (Z.pos p)) with (pretty (N.pos p)).
    pose proof (all_digits_pretty p) as Hd. rewrite strip_digits by done.
    pose proof (digits_val_pretty p) as Hp. unfold parse_signed. destruct (pretty (N.pos p)) as [|a s]; [done|].
    simpl in Hd. apply andb_prop in Hd as [Ha%bool_decide_eq_true_1 _].
    apply digit_not_separator in Ha as [_ ->]. by rewrite Hp.
  - change (pretty (Z.neg p)) with (String "-"%char (pretty (N.pos p))).
    assert (∀ s, strip_separators (String "-"%char s) = String "-"%char (strip_separators s)) as -> by done.
    rewrite strip_digits by apply all_digits_pretty.
    assert (∀ s, parse_signed (String "-"%char s) = Z.opp <$> parse_digits s) as -> by done.
    by rewrite digits_val_pretty.
Qed.

(** ** Text *)

(** Every character satisfies [p]: [/^[..]*$/.test(s)]. *)
Fixpoint all_chars (p : Ascii.ascii → bool) (s : string) : bool :=
  match s with EmptyString => true | String a s' => p a && all_chars p s' end.

Definition char_in (lo hi a : Ascii.ascii) : bool :=
  (nat_of_ascii lo <=? nat_of_ascii a)%nat && (nat_of_ascii a <=? nat_of_ascii hi)%nat.

Definition is_digit : Ascii.ascii → bool := char_in "0" "9".
Definition is_hex_lower (a : Ascii.ascii) : bool := is_digit a || char_in "a" "f" a.

(** [HEX64_RE.test(s)] with [/^[0-9a-f]{64}$/]. *)
Definition HEX64_RE (s : string) : bool := (String.length s =? 64)%nat && all_chars is_hex_lower s.

(** [s.replace(/^0x/, '')]; with the flag [i] also [0X]. *)
Definition drop_0x (s : string) : string :=
  match s with String "0"%char (String "x"%char s') => s' | _ => s end.

Definition drop_0x_ci (s : string) : string :=
  match s with
  | String "0"%char (String "x"%char s') | String "0"%char (String "X"%char s') => s'
  | _ => s
  end.

(** [String(value ?? '')] of a field that may be missing. *)
Definition string_or_empty (v : option json) : string :=
  match v with None | Some JNull => EmptyString | Some x => json_to_string x end.

Definition bareHex (value : option json) : string := lower (drop_0x_ci (trim (string_or_empty value))).

(** [s.length === 0] *)
Definition is_empty (s : string) : bool := bool_decide (s = EmptyString).

(** A text that is neither null nor empty. *)
Definition present (s : option string) : option string :=
  match s with Some x => if bool_decide (x = EmptyString) then None else Some x | None => None end.

Lemma present_Some s x : present s = Some x ↔ s = Some x ∧ x ≠ EmptyString.
Proof. destruct s as [y|]; simpl; [case_bool_decide|]; naive_solver. Qed.

(** [l.includes(x)] *)
Definition mem (x : string) (l : list string) : bool := bool_decide (x ∈ l).

(** [l.filter(f)] *)
Definition keep {A} (f : A → bool) (l : list A) : list A := filter (λ x, f x = true) l.

Lemma elem_of_keep {A} (f : A → bool) l x : x ∈ keep f l ↔ f x = true ∧ x ∈ l.
Proof. unfold keep. by rewrite list_elem_of_filter. Qed.

Lemma mem_true x l : mem x l = true ↔ x ∈ l.
Proof. apply bool_decide_eq_true. Qed.

(** [l] followed by what it does not hold yet of [m]. *)
Lemma elem_of_append_new x l m : x ∈ (l ++ keep (λ y, negb (mem y l)) m)%list ↔ x ∈ l ∨ x ∈ m.
Proof.
  rewrite elem_of_app, elem_of_keep, negb_true_iff, <- not_true_iff_false, mem_true.
  destruct (decide (x ∈ l)); tauto.
Qed.

#[export] Hint Rewrite @elem_of_keep mem_true elem_of_append_new : ng.

(** The strings of a JSON array; [x is string]. *)
Definition strings_of (l : list json) : list string :=
  omap (λ v, match v with JStr s => Some s | _ => None end) l.

(** A column: [None] is null. The empty text is malformed JSON, so it needs no
    case of its own. *)
Definition parseJsonStringList (raw : option json_text) : list string :=
  match raw with
  | Some (Text (JArr l)) => strings_of l
  | _ => []
  end.

(** [JSON.stringify(l)] of a list of strings, as a column. *)
Definition json_strings (l : list string) : json_text := Text (JArr (JStr <$> l)).

Lemma parse_json_strings l : parseJsonStringList (Some (json_strings l)) = l.
Proof. simpl. unfold strings_of. induction l as [|x l IH]; [done|]. cbn. by rewrite IH. Qed.

#[export] Hint Rewrite parse_json_strings : ng.
