(* ===== verification/Schema.v ===== *)
(** The rows the components share (db/schema.cds, db/types.cds), and the
    database as the job system sees it.

    A timestamp column holds the ISO string of an instant, which sorts like the
    instant's milliseconds; the model stores the milliseconds. A JSON column
    ([result], [request], [chainSegments], [submitIntentData]) holds its value. Columns an
    UPDATE of the modelled code never assigns are grouped in [JobSpec]. *)
From S2P Require Import Prelude Db Json.

(** db/types.cds: BackgroundJobStatus *)
Inductive JobStatus :=
| Pending | Running | ExternalExecution | Submitted | ReconciliationRequired | Succeeded | Failed.

(** db/types.cds: BackgroundJobChainStatus *)
Inductive ChainStatus := ChainPending | ChainSuccess | ChainFailure | ChainDropped.

(** db/types.cds: PendingSubmissionStatus *)
Inductive SubmissionStatus := SubPending | SubIncluded | SubFinalized | SubFailed.

(** db/types.cds: CommandEncoding *)
Inductive CommandEncoding := JsonV1 | AesGcmV1.

#[export] Instance JobStatus_eq_dec : EqDecision JobStatus.
Proof. solve_decision. Defined.
#[export] Instance ChainStatus_eq_dec : EqDecision ChainStatus.
Proof. solve_decision. Defined.
#[export] Instance SubmissionStatus_eq_dec : EqDecision SubmissionStatus.
Proof. solve_decision. Defined.
#[export] Instance CommandEncoding_eq_dec : EqDecision CommandEncoding.
Proof. solve_decision. Defined.

(** The columns of BackgroundJobs that are written once, by the INSERT. *)
Record JobSpec := MkJobSpec {
  kind : string; sessionId : string; idempotencyKey : option string; request : json;
  payloadFingerprint : string; commandVersion : option Z; command : option string;
  commandEncoding : option CommandEncoding; requestedBy : option string;
  grantId : option string; parentJobId : option string; workflowStep : option string;
  queuedAt : Z; createdAt : Z; maxAttempts : Z }.

(** A row of BackgroundJobs; its ID is the key of the table. *)
Record Job := MkJob {
  j_spec : JobSpec; j_status : JobStatus; j_attempt : option Z; j_result : option json;
  j_errorCode : option string; j_errorMessage : option string; j_startedAt : option Z;
  j_externalExecutionAt : option Z; j_submittedAt : option Z; j_finishedAt : option Z;
  j_leaseOwner : option string; j_leaseExpiresAt : option Z; j_heartbeatAt : option Z;
  j_submissionId : option string; j_txHash : option string; j_chainStatus : option ChainStatus;
  j_chainFinalizedAt : option Z; j_chainBlockHeight : option Z; j_chainBlockHash : option string;
  j_indexerTxHash : option string; j_chainSegments : option json }.

(** One assignment of a [.set({ .. })] clause on Job. *)
Inductive job_set :=
| SetStatus (v : JobStatus)
| SetAttempt (v : option Z)
| SetResult (v : option json)
| SetErrorCode (v : option string)
| SetErrorMessage (v : option string)
| SetStartedAt (v : option Z)
| SetExternalExecutionAt (v : option Z)
| SetSubmittedAt (v : option Z)
| SetFinishedAt (v : option Z)
| SetLeaseOwner (v : option string)
| SetLeaseExpiresAt (v : option Z)
| SetHeartbeatAt (v : option Z)
| SetSubmissionId (v : option string)
| SetTxHash (v : option string)
| SetChainStatus (v : option ChainStatus)
| SetChainFinalizedAt (v : option Z)
| SetChainBlockHeight (v : option Z)
| SetChainBlockHash (v : option string)
| SetIndexerTxHash (v : option string)
| SetChainSegments (v : option json).

Definition apply_job_set (a : job_set) (r : Job) : Job :=
  match a with
  | SetStatus v =>
      MkJob (j_spec r) v (j_attempt r) (j_result r) (j_errorCode r) (j_errorMessage r)
        (j_startedAt r) (j_externalExecutionAt r) (j_submittedAt r) (j_finishedAt r)
        (j_leaseOwner r) (j_leaseExpiresAt r) (j_heartbeatAt r) (j_submissionId r) (j_txHash r)
        (j_chainStatus r) (j_chainFinalizedAt r) (j_chainBlockHeight r) (j_chainBlockHash r)
        (j_indexerTxHash r) (j_chainSegments r)
  | SetAttempt v =>
      MkJob (j_spec r) (j_status r) v (j_result r) (j_errorCode r) (j_errorMessage r)
        (j_startedAt r) (j_externalExecutionAt r) (j_submittedAt r) (j_finishedAt r)
        (j_leaseOwner r) (j_leaseExpiresAt r) (j_heartbeatAt r) (j_submissionId r) (j_txHash r)
        (j_chainStatus r) (j_chainFinalizedAt r) (j_chainBlockHeight r) (j_chainBlockHash r)
        (j_indexerTxHash r) (j_chainSegments r)
  | SetResult v =>
      MkJob (j_spec r) (j_status r) (j_attempt r) v (j_errorCode r) (j_errorMessage r)
        (j_startedAt r) (j_externalExecutionAt r) (j_submittedAt r) (j_finishedAt r)
        (j_leaseOwner r) (j_leaseExpiresAt r) (j_heartbeatAt r) (j_submissionId r) (j_txHash r)
        (j_chainStatus r) (j_chainFinalizedAt r) (j_chainBlockHeight r) (j_chainBlockHash r)
        (j_indexerTxHash r) (j_chainSegments r)
  | SetErrorCode v =>
      MkJob (j_spec r) (j_status r) (j_attempt r) (j_result r) v (j_errorMessage r)
        (j_startedAt r) (j_externalExecutionAt r) (j_submittedAt r) (j_finishedAt r)
        (j_leaseOwner r) (j_leaseExpiresAt r) (j_heartbeatAt r) (j_submissionId r) (j_txHash r)
        (j_chainStatus r) (j_chainFinalizedAt r) (j_chainBlockHeight r) (j_chainBlockHash r)
        (j_indexerTxHash r) (j_chainSegments r)
  | SetErrorMessage v =>
      MkJob (j_spec r) (j_status r) (j_attempt r) (j_result r) (j_errorCode r) v (j_startedAt r)
        (j_externalExecutionAt r) (j_submittedAt r) (j_finishedAt r) (j_leaseOwner r)
        (j_leaseExpiresAt r) (j_heartbeatAt r) (j_submissionId r) (j_txHash r) (j_chainStatus r)
        (j_chainFinalizedAt r) (j_chainBlockHeight r) (j_chainBlockHash r) (j_indexerTxHash r)
        (j_chainSegments r)
  | SetStartedAt v =>
      MkJob (j_spec r) (j_status r) (j_attempt r) (j_result r) (j_errorCode r) (j_errorMessage r)
        v (j_externalExecutionAt r) (j_submittedAt r) (j_finishedAt r) (j_leaseOwner r)
        (j_leaseExpiresAt r) (j_heartbeatAt r) (j_submissionId r) (j_txHash r) (j_chainStatus r)
        (j_chainFinalizedAt r) (j_chainBlockHeight r) (j_chainBlockHash r) (j_indexerTxHash r)
        (j_chainSegments r)
  | SetExternalExecutionAt v =>
      MkJob (j_spec r) (j_status r) (j_attempt r) (j_result r) (j_errorCode r) (j_errorMessage r)
        (j_startedAt r) v (j_submittedAt r) (j_finishedAt r) (j_leaseOwner r) (j_leaseExpiresAt r)
        (j_heartbeatAt r) (j_submissionId r) (j_txHash r) (j_chainStatus r) (j_chainFinalizedAt r)
        (j_chainBlockHeight r) (j_chainBlockHash r) (j_indexerTxHash r) (j_chainSegments r)
  | SetSubmittedAt v =>
      MkJob (j_spec r) (j_status r) (j_attempt r) (j_result r) (j_errorCode r) (j_errorMessage r)
        (j_startedAt r) (j_externalExecutionAt r) v (j_finishedAt r) (j_leaseOwner r)
        (j_leaseExpiresAt r) (j_heartbeatAt r) (j_submissionId r) (j_txHash r) (j_chainStatus r)
        (j_chainFinalizedAt r) (j_chainBlockHeight r) (j_chainBlockHash r) (j_indexerTxHash r)
        (j_chainSegments r)
  | SetFinishedAt v =>
      MkJob (j_spec r) (j_status r) (j_attempt r) (j_result r) (j_errorCode r) (j_errorMessage r)
        (j_startedAt r) (j_externalExecutionAt r) (j_submittedAt r) v (j_leaseOwner r)
        (j_leaseExpiresAt r) (j_heartbeatAt r) (j_submissionId r) (j_txHash r) (j_chainStatus r)
        (j_chainFinalizedAt r) (j_chainBlockHeight r) (j_chainBlockHash r) (j_indexerTxHash r)
        (j_chainSegments r)
  | SetLeaseOwner v =>
      MkJob (j_spec r) (j_status r) (j_attempt r) (j_result r) (j_errorCode r) (j_errorMessage r)
        (j_startedAt r) (j_externalExecutionAt r) (j_submittedAt r) (j_finishedAt r) v
        (j_leaseExpiresAt r) (j_heartbeatAt r) (j_submissionId r) (j_txHash r) (j_chainStatus r)
        (j_chainFinalizedAt r) (j_chainBlockHeight r) (j_chainBlockHash r) (j_indexerTxHash r)
        (j_chainSegments r)
  | SetLeaseExpiresAt v =>
      MkJob (j_spec r) (j_status r) (j_attempt r) (j_result r) (j_errorCode r) (j_errorMessage r)
        (j_startedAt r) (j_externalExecutionAt r) (j_submittedAt r) (j_finishedAt r)
        (j_leaseOwner r) v (j_heartbeatAt r) (j_submissionId r) (j_txHash r) (j_chainStatus r)
        (j_chainFinalizedAt r) (j_chainBlockHeight r) (j_chainBlockHash r) (j_indexerTxHash r)
        (j_chainSegments r)
  | SetHeartbeatAt v =>
      MkJob (j_spec r) (j_status r) (j_attempt r) (j_result r) (j_errorCode r) (j_errorMessage r)
        (j_startedAt r) (j_externalExecutionAt r) (j_submittedAt r) (j_finishedAt r)
        (j_leaseOwner r) (j_leaseExpiresAt r) v (j_submissionId r) (j_txHash r) (j_chainStatus r)
        (j_chainFinalizedAt r) (j_chainBlockHeight r) (j_chainBlockHash r) (j_indexerTxHash r)
        (j_chainSegments r)
  | SetSubmissionId v =>
      MkJob (j_spec r) (j_status r) (j_attempt r) (j_result r) (j_errorCode r) (j_errorMessage r)
        (j_startedAt r) (j_externalExecutionAt r) (j_submittedAt r) (j_finishedAt r)
        (j_leaseOwner r) (j_leaseExpiresAt r) (j_heartbeatAt r) v (j_txHash r) (j_chainStatus r)
        (j_chainFinalizedAt r) (j_chainBlockHeight r) (j_chainBlockHash r) (j_indexerTxHash r)
        (j_chainSegments r)
  | SetTxHash v =>
      MkJob (j_spec r) (j_status r) (j_attempt r) (j_result r) (j_errorCode r) (j_errorMessage r)
        (j_startedAt r) (j_externalExecutionAt r) (j_submittedAt r) (j_finishedAt r)
        (j_leaseOwner r) (j_leaseExpiresAt r) (j_heartbeatAt r) (j_submissionId r) v
        (j_chainStatus r) (j_chainFinalizedAt r) (j_chainBlockHeight r) (j_chainBlockHash r)
        (j_indexerTxHash r) (j_chainSegments r)
  | SetChainStatus v =>
      MkJob (j_spec r) (j_status r) (j_attempt r) (j_result r) (j_errorCode r) (j_errorMessage r)
        (j_startedAt r) (j_externalExecutionAt r) (j_submittedAt r) (j_finishedAt r)
        (j_leaseOwner r) (j_leaseExpiresAt r) (j_heartbeatAt r) (j_submissionId r) (j_txHash r) v
        (j_chainFinalizedAt r) (j_chainBlockHeight r) (j_chainBlockHash r) (j_indexerTxHash r)
        (j_chainSegments r)
  | SetChainFinalizedAt v =>
      MkJob (j_spec r) (j_status r) (j_attempt r) (j_result r) (j_errorCode r) (j_errorMessage r)
        (j_startedAt r) (j_externalExecutionAt r) (j_submittedAt r) (j_finishedAt r)
        (j_leaseOwner r) (j_leaseExpiresAt r) (j_heartbeatAt r) (j_submissionId r) (j_txHash r)
        (j_chainStatus r) v (j_chainBlockHeight r) (j_chainBlockHash r) (j_indexerTxHash r)
        (j_chainSegments r)
  | SetChainBlockHeight v =>
      MkJob (j_spec r) (j_status r) (j_attempt r) (j_result r) (j_errorCode r) (j_errorMessage r)
        (j_startedAt r) (j_externalExecutionAt r) (j_submittedAt r) (j_finishedAt r)
        (j_leaseOwner r) (j_leaseExpiresAt r) (j_heartbeatAt r) (j_submissionId r) (j_txHash r)
        (j_chainStatus r) (j_chainFinalizedAt r) v (j_chainBlockHash r) (j_indexerTxHash r)
        (j_chainSegments r)
  | SetChainBlockHash v =>
      MkJob (j_spec r) (j_status r) (j_attempt r) (j_result r) (j_errorCode r) (j_errorMessage r)
        (j_startedAt r) (j_externalExecutionAt r) (j_submittedAt r) (j_finishedAt r)
        (j_leaseOwner r) (j_leaseExpiresAt r) (j_heartbeatAt r) (j_submissionId r) (j_txHash r)
        (j_chainStatus r) (j_chainFinalizedAt r) (j_chainBlockHeight r) v (j_indexerTxHash r)
        (j_chainSegments r)
  | SetIndexerTxHash v =>
      MkJob (j_spec r) (j_status r) (j_attempt r) (j_result r) (j_errorCode r) (j_errorMessage r)
        (j_startedAt r) (j_externalExecutionAt r) (j_submittedAt r) (j_finishedAt r)
        (j_leaseOwner r) (j_leaseExpiresAt r) (j_heartbeatAt r) (j_submissionId r) (j_txHash r)
        (j_chainStatus r) (j_chainFinalizedAt r) (j_chainBlockHeight r) (j_chainBlockHash r) v
        (j_chainSegments r)
  | SetChainSegments v =>
      MkJob (j_spec r) (j_status r) (j_attempt r) (j_result r) (j_errorCode r) (j_errorMessage r)
        (j_startedAt r) (j_externalExecutionAt r) (j_submittedAt r) (j_finishedAt r)
        (j_leaseOwner r) (j_leaseExpiresAt r) (j_heartbeatAt r) (j_submissionId r) (j_txHash r)
        (j_chainStatus r) (j_chainFinalizedAt r) (j_chainBlockHeight r) (j_chainBlockHash r)
        (j_indexerTxHash r) v
  end.

(** [.set(patch)]: the assignments in order. *)
Definition patch_job (p : list job_set) (r : Job) : Job := foldl (λ r a, apply_job_set a r) r p.

(** A row of PendingSubmissions. *)
Record Submission := MkSubmission {
  s_status : SubmissionStatus; s_txHash : option string; s_contractAddress : option string;
  s_circuitName : option string; s_submittedAt : Z; s_finalizedAt : option Z;
  s_finalizedTxData : option string; s_chainBlockHeight : option Z;
  s_chainBlockHash : option string; s_indexerTxHash : option string;
  s_submitIntentData : option json_text; s_errorCode : option string; s_errorMessage : option string }.

(** One assignment of a [.set({ .. })] clause on Submission. *)
Inductive sub_set :=
| SSetStatus (v : SubmissionStatus)
| SSetTxHash (v : option string)
| SSetContractAddress (v : option string)
| SSetCircuitName (v : option string)
| SSetSubmittedAt (v : Z)
| SSetFinalizedAt (v : option Z)
| SSetFinalizedTxData (v : option string)
| SSetChainBlockHeight (v : option Z)
| SSetChainBlockHash (v : option string)
| SSetIndexerTxHash (v : option string)
| SSetSubmitIntentData (v : option json_text)
| SSetErrorCode (v : option string)
| SSetErrorMessage (v : option string).

Definition apply_sub_set (a : sub_set) (r : Submission) : Submission :=
  match a with
  | SSetStatus v =>
      MkSubmission v (s_txHash r) (s_contractAddress r) (s_circuitName r) (s_submittedAt r)
        (s_finalizedAt r) (s_finalizedTxData r) (s_chainBlockHeight r) (s_chainBlockHash r)
        (s_indexerTxHash r) (s_submitIntentData r) (s_errorCode r) (s_errorMessage r)
  | SSetTxHash v =>
      MkSubmission (s_status r) v (s_contractAddress r) (s_circuitName r) (s_submittedAt r)
        (s_finalizedAt r) (s_finalizedTxData r) (s_chainBlockHeight r) (s_chainBlockHash r)
        (s_indexerTxHash r) (s_submitIntentData r) (s_errorCode r) (s_errorMessage r)
  | SSetContractAddress v =>
      MkSubmission (s_status r) (s_txHash r) v (s_circuitName r) (s_submittedAt r)
        (s_finalizedAt r) (s_finalizedTxData r) (s_chainBlockHeight r) (s_chainBlockHash r)
        (s_indexerTxHash r) (s_submitIntentData r) (s_errorCode r) (s_errorMessage r)
  | SSetCircuitName v =>
      MkSubmission (s_status r) (s_txHash r) (s_contractAddress r) v (s_submittedAt r)
        (s_finalizedAt r) (s_finalizedTxData r) (s_chainBlockHeight r) (s_chainBlockHash r)
        (s_indexerTxHash r) (s_submitIntentData r) (s_errorCode r) (s_errorMessage r)
  | SSetSubmittedAt v =>
      MkSubmission (s_status r) (s_txHash r) (s_contractAddress r) (s_circuitName r) v
        (s_finalizedAt r) (s_finalizedTxData r) (s_chainBlockHeight r) (s_chainBlockHash r)
        (s_indexerTxHash r) (s_submitIntentData r) (s_errorCode r) (s_errorMessage r)
  | SSetFinalizedAt v =>
      MkSubmission (s_status r) (s_txHash r) (s_contractAddress r) (s_circuitName r)
        (s_submittedAt r) v (s_finalizedTxData r) (s_chainBlockHeight r) (s_chainBlockHash r)
        (s_indexerTxHash r) (s_submitIntentData r) (s_errorCode r) (s_errorMessage r)
  | SSetFinalizedTxData v =>
      MkSubmission (s_status r) (s_txHash r) (s_contractAddress r) (s_circuitName r)
        (s_submittedAt r) (s_finalizedAt r) v (s_chainBlockHeight r) (s_chainBlockHash r)
        (s_indexerTxHash r) (s_submitIntentData r) (s_errorCode r) (s_errorMessage r)
  | SSetChainBlockHeight v =>
      MkSubmission (s_status r) (s_txHash r) (s_contractAddress r) (s_circuitName r)
        (s_submittedAt r) (s_finalizedAt r) (s_finalizedTxData r) v (s_chainBlockHash r)
        (s_indexerTxHash r) (s_submitIntentData r) (s_errorCode r) (s_errorMessage r)
  | SSetChainBlockHash v =>
      MkSubmission (s_status r) (s_txHash r) (s_contractAddress r) (s_circuitName r)
        (s_submittedAt r) (s_finalizedAt r) (s_finalizedTxData r) (s_chainBlockHeight r) v
        (s_indexerTxHash r) (s_submitIntentData r) (s_errorCode r) (s_errorMessage r)
  | SSetIndexerTxHash v =>
      MkSubmission (s_status r) (s_txHash r) (s_contractAddress r) (s_circuitName r)
        (s_submittedAt r) (s_finalizedAt r) (s_finalizedTxData r) (s_chainBlockHeight r)
        (s_chainBlockHash r) v (s_submitIntentData r) (s_errorCode r) (s_errorMessage r)
  | SSetSubmitIntentData v =>
      MkSubmission (s_status r) (s_txHash r) (s_contractAddress r) (s_circuitName r)
        (s_submittedAt r) (s_finalizedAt r) (s_finalizedTxData r) (s_chainBlockHeight r)
        (s_chainBlockHash r) (s_indexerTxHash r) v (s_errorCode r) (s_errorMessage r)
  | SSetErrorCode v =>
      MkSubmission (s_status r) (s_txHash r) (s_contractAddress r) (s_circuitName r)
        (s_submittedAt r) (s_finalizedAt r) (s_finalizedTxData r) (s_chainBlockHeight r)
        (s_chainBlockHash r) (s_indexerTxHash r) (s_submitIntentData r) v (s_errorMessage r)
  | SSetErrorMessage v =>
      MkSubmission (s_status r) (s_txHash r) (s_contractAddress r) (s_circuitName r)
        (s_submittedAt r) (s_finalizedAt r) (s_finalizedTxData r) (s_chainBlockHeight r)
        (s_chainBlockHash r) (s_indexerTxHash r) (s_submitIntentData r) (s_errorCode r) v
  end.

Definition patch_sub (p : list sub_set) (r : Submission) : Submission :=
  foldl (λ r a, apply_sub_set a r) r p.

(** A row of AgentGrants. *)
Record Grant := MkGrant {
  g_userId : string; g_sessionId : string; g_sponsorSessionId : option string;
  g_agentLabel : option string; g_tokenHash : string; g_allowedActions : json_text;
  g_maxJobsPerDay : option Z; g_jobsUsedToday : option Z; g_budgetWindow : option string;
  g_maxJobsPerHour : option Z; g_jobsUsedThisHour : option Z; g_hourWindow : option string;
  g_allowedContracts : option json_text; g_allowedCircuits : option json_text;
  g_allowDeploy : option bool; g_maxDeploys : option Z; g_deploysUsed : option Z;
  g_deployedContracts : option json_text; g_allowedTokenTypes : option json_text;
  g_mintedTokenTypes : option json_text; g_allowUnshieldedOffers : option bool;
  g_allowedUnshieldedTokenTypes : option json_text; g_maxValuePerDay : option json_text;
  g_valueUsedToday : option json_text; g_valueWindow : option string; g_validUntil : option Z;
  g_isActive : option bool; g_revokedAt : option Z }.

(** One assignment of a [.set({ .. })] clause on Grant. *)
Inductive grant_set :=
| GSetAgentLabel (v : option string)
| GSetTokenHash (v : string)
| GSetAllowedActions (v : json_text)
| GSetMaxJobsPerDay (v : option Z)
| GSetJobsUsedToday (v : option Z)
| GSetBudgetWindow (v : option string)
| GSetMaxJobsPerHour (v : option Z)
| GSetJobsUsedThisHour (v : option Z)
| GSetHourWindow (v : option string)
| GSetAllowedContracts (v : option json_text)
| GSetAllowedCircuits (v : option json_text)
| GSetAllowDeploy (v : option bool)
| GSetMaxDeploys (v : option Z)
| GSetDeploysUsed (v : option Z)
| GSetDeployedContracts (v : option json_text)
| GSetAllowedTokenTypes (v : option json_text)
| GSetMintedTokenTypes (v : option json_text)
| GSetAllowUnshieldedOffers (v : option bool)
| GSetAllowedUnshieldedTokenTypes (v : option json_text)
| GSetMaxValuePerDay (v : option json_text)
| GSetValueUsedToday (v : option json_text)
| GSetValueWindow (v : option string)
| GSetValidUntil (v : option Z)
| GSetIsActive (v : option bool)
| GSetRevokedAt (v : option Z).

Definition apply_grant_set (a : grant_set) (r : Grant) : Grant :=
  match a with
  | GSetAgentLabel v =>
      MkGrant (g_userId r) (g_sessionId r) (g_sponsorSessionId r) v (g_tokenHash r)
        (g_allowedActions r) (g_maxJobsPerDay r) (g_jobsUsedToday r) (g_budgetWindow r)
        (g_maxJobsPerHour r) (g_jobsUsedThisHour r) (g_hourWindow r) (g_allowedContracts r)
        (g_allowedCircuits r) (g_allowDeploy r) (g_maxDeploys r) (g_deploysUsed r)
        (g_deployedContracts r) (g_allowedTokenTypes r) (g_mintedTokenTypes r)
        (g_allowUnshieldedOffers r) (g_allowedUnshieldedTokenTypes r) (g_maxValuePerDay r)
        (g_valueUsedToday r) (g_valueWindow r) (g_validUntil r) (g_isActive r) (g_revokedAt r)
  | GSetTokenHash v =>
      MkGrant (g_userId r) (g_sessionId r) (g_sponsorSessionId r) (g_agentLabel r) v
        (g_allowedActions r) (g_maxJobsPerDay r) (g_jobsUsedToday r) (g_budgetWindow r)
        (g_maxJobsPerHour r) (g_jobsUsedThisHour r) (g_hourWindow r) (g_allowedContracts r)
        (g_allowedCircuits r) (g_allowDeploy r) (g_maxDeploys r) (g_deploysUsed r)
        (g_deployedContracts r) (g_allowedTokenTypes r) (g_mintedTokenTypes r)
        (g_allowUnshieldedOffers r) (g_allowedUnshieldedTokenTypes r) (g_maxValuePerDay r)
        (g_valueUsedToday r) (g_valueWindow r) (g_validUntil r) (g_isActive r) (g_revokedAt r)
  | GSetAllowedActions v =>
      MkGrant (g_userId r) (g_sessionId r) (g_sponsorSessionId r) (g_agentLabel r)
        (g_tokenHash r) v (g_maxJobsPerDay r) (g_jobsUsedToday r) (g_budgetWindow r)
        (g_maxJobsPerHour r) (g_jobsUsedThisHour r) (g_hourWindow r) (g_allowedContracts r)
        (g_allowedCircuits r) (g_allowDeploy r) (g_maxDeploys r) (g_deploysUsed r)
        (g_deployedContracts r) (g_allowedTokenTypes r) (g_mintedTokenTypes r)
        (g_allowUnshieldedOffers r) (g_allowedUnshieldedTokenTypes r) (g_maxValuePerDay r)
        (g_valueUsedToday r) (g_valueWindow r) (g_validUntil r) (g_isActive r) (g_revokedAt r)
  | GSetMaxJobsPerDay v =>
      MkGrant (g_userId r) (g_sessionId r) (g_sponsorSessionId r) (g_agentLabel r)
        (g_tokenHash r) (g_allowedActions r) v (g_jobsUsedToday r) (g_budgetWindow r)
        (g_maxJobsPerHour r) (g_jobsUsedThisHour r) (g_hourWindow r) (g_allowedContracts r)
        (g_allowedCircuits r) (g_allowDeploy r) (g_maxDeploys r) (g_deploysUsed r)
        (g_deployedContracts r) (g_allowedTokenTypes r) (g_mintedTokenTypes r)
        (g_allowUnshieldedOffers r) (g_allowedUnshieldedTokenTypes r) (g_maxValuePerDay r)
        (g_valueUsedToday r) (g_valueWindow r) (g_validUntil r) (g_isActive r) (g_revokedAt r)
  | GSetJobsUsedToday v =>
      MkGrant (g_userId r) (g_sessionId r) (g_sponsorSessionId r) (g_agentLabel r)
        (g_tokenHash r) (g_allowedActions r) (g_maxJobsPerDay r) v (g_budgetWindow r)
        (g_maxJobsPerHour r) (g_jobsUsedThisHour r) (g_hourWindow r) (g_allowedContracts r)
        (g_allowedCircuits r) (g_allowDeploy r) (g_maxDeploys r) (g_deploysUsed r)
        (g_deployedContracts r) (g_allowedTokenTypes r) (g_mintedTokenTypes r)
        (g_allowUnshieldedOffers r) (g_allowedUnshieldedTokenTypes r) (g_maxValuePerDay r)
        (g_valueUsedToday r) (g_valueWindow r) (g_validUntil r) (g_isActive r) (g_revokedAt r)
  | GSetBudgetWindow v =>
      MkGrant (g_userId r) (g_sessionId r) (g_sponsorSessionId r) (g_agentLabel r)
        (g_tokenHash r) (g_allowedActions r) (g_maxJobsPerDay r) (g_jobsUsedToday r) v
        (g_maxJobsPerHour r) (g_jobsUsedThisHour r) (g_hourWindow r) (g_allowedContracts r)
        (g_allowedCircuits r) (g_allowDeploy r) (g_maxDeploys r) (g_deploysUsed r)
        (g_deployedContracts r) (g_allowedTokenTypes r) (g_mintedTokenTypes r)
        (g_allowUnshieldedOffers r) (g_allowedUnshieldedTokenTypes r) (g_maxValuePerDay r)
        (g_valueUsedToday r) (g_valueWindow r) (g_validUntil r) (g_isActive r) (g_revokedAt r)
  | GSetMaxJobsPerHour v =>
      MkGrant (g_userId r) (g_sessionId r) (g_sponsorSessionId r) (g_agentLabel r)
        (g_tokenHash r) (g_allowedActions r) (g_maxJobsPerDay r) (g_jobsUsedToday r)
        (g_budgetWindow r) v (g_jobsUsedThisHour r) (g_hourWindow r) (g_allowedContracts r)
        (g_allowedCircuits r) (g_allowDeploy r) (g_maxDeploys r) (g_deploysUsed r)
        (g_deployedContracts r) (g_allowedTokenTypes r) (g_mintedTokenTypes r)
        (g_allowUnshieldedOffers r) (g_allowedUnshieldedTokenTypes r) (g_maxValuePerDay r)
        (g_valueUsedToday r) (g_valueWindow r) (g_validUntil r) (g_isActive r) (g_revokedAt r)
  | GSetJobsUsedThisHour v =>
      MkGrant (g_userId r) (g_sessionId r) (g_sponsorSessionId r) (g_agentLabel r)
        (g_tokenHash r) (g_allowedActions r) (g_maxJobsPerDay r) (g_jobsUsedToday r)
        (g_budgetWindow r) (g_maxJobsPerHour r) v (g_hourWindow r) (g_allowedContracts r)
        (g_allowedCircuits r) (g_allowDeploy r) (g_maxDeploys r) (g_deploysUsed r)
        (g_deployedContracts r) (g_allowedTokenTypes r) (g_mintedTokenTypes r)
        (g_allowUnshieldedOffers r) (g_allowedUnshieldedTokenTypes r) (g_maxValuePerDay r)
        (g_valueUsedToday r) (g_valueWindow r) (g_validUntil r) (g_isActive r) (g_revokedAt r)
  | GSetHourWindow v =>
      MkGrant (g_userId r) (g_sessionId r) (g_sponsorSessionId r) (g_agentLabel r)
        (g_tokenHash r) (g_allowedActions r) (g_maxJobsPerDay r) (g_jobsUsedToday r)
        (g_budgetWindow r) (g_maxJobsPerHour r) (g_jobsUsedThisHour r) v (g_allowedContracts r)
        (g_allowedCircuits r) (g_allowDeploy r) (g_maxDeploys r) (g_deploysUsed r)
        (g_deployedContracts r) (g_allowedTokenTypes r) (g_mintedTokenTypes r)
        (g_allowUnshieldedOffers r) (g_allowedUnshieldedTokenTypes r) (g_maxValuePerDay r)
        (g_valueUsedToday r) (g_valueWindow r) (g_validUntil r) (g_isActive r) (g_revokedAt r)
  | GSetAllowedContracts v =>
      MkGrant (g_userId r) (g_sessionId r) (g_sponsorSessionId r) (g_agentLabel r)
        (g_tokenHash r) (g_allowedActions r) (g_maxJobsPerDay r) (g_jobsUsedToday r)
        (g_budgetWindow r) (g_maxJobsPerHour r) (g_jobsUsedThisHour r) (g_hourWindow r) v
        (g_allowedCircuits r) (g_allowDeploy r) (g_maxDeploys r) (g_deploysUsed r)
        (g_deployedContracts r) (g_allowedTokenTypes r) (g_mintedTokenTypes r)
        (g_allowUnshieldedOffers r) (g_allowedUnshieldedTokenTypes r) (g_maxValuePerDay r)
        (g_valueUsedToday r) (g_valueWindow r) (g_validUntil r) (g_isActive r) (g_revokedAt r)
  | GSetAllowedCircuits v =>
      MkGrant (g_userId r) (g_sessionId r) (g_sponsorSessionId r) (g_agentLabel r)
        (g_tokenHash r) (g_allowedActions r) (g_maxJobsPerDay r) (g_jobsUsedToday r)
        (g_budgetWindow r) (g_maxJobsPerHour r) (g_jobsUsedThisHour r) (g_hourWindow r)
        (g_allowedContracts r) v (g_allowDeploy r) (g_maxDeploys r) (g_deploysUsed r)
        (g_deployedContracts r) (g_allowedTokenTypes r) (g_mintedTokenTypes r)
        (g_allowUnshieldedOffers r) (g_allowedUnshieldedTokenTypes r) (g_maxValuePerDay r)
        (g_valueUsedToday r) (g_valueWindow r) (g_validUntil r) (g_isActive r) (g_revokedAt r)
  | GSetAllowDeploy v =>
      MkGrant (g_userId r) (g_sessionId r) (g_sponsorSessionId r) (g_agentLabel r)
        (g_tokenHash r) (g_allowedActions r) (g_maxJobsPerDay r) (g_jobsUsedToday r)
        (g_budgetWindow r) (g_maxJobsPerHour r) (g_jobsUsedThisHour r) (g_hourWindow r)
        (g_allowedContracts r) (g_allowedCircuits r) v (g_maxDeploys r) (g_deploysUsed r)
        (g_deployedContracts r) (g_allowedTokenTypes r) (g_mintedTokenTypes r)
        (g_allowUnshieldedOffers r) (g_allowedUnshieldedTokenTypes r) (g_maxValuePerDay r)
        (g_valueUsedToday r) (g_valueWindow r) (g_validUntil r) (g_isActive r) (g_revokedAt r)
  | GSetMaxDeploys v =>
      MkGrant (g_userId r) (g_sessionId r) (g_sponsorSessionId r) (g_agentLabel r)
        (g_tokenHash r) (g_allowedActions r) (g_maxJobsPerDay r) (g_jobsUsedToday r)
        (g_budgetWindow r) (g_maxJobsPerHour r) (g_jobsUsedThisHour r) (g_hourWindow r)
        (g_allowedContracts r) (g_allowedCircuits r) (g_allowDeploy r) v (g_deploysUsed r)
        (g_deployedContracts r) (g_allowedTokenTypes r) (g_mintedTokenTypes r)
        (g_allowUnshieldedOffers r) (g_allowedUnshieldedTokenTypes r) (g_maxValuePerDay r)
        (g_valueUsedToday r) (g_valueWindow r) (g_validUntil r) (g_isActive r) (g_revokedAt r)
  | GSetDeploysUsed v =>
      MkGrant (g_userId r) (g_sessionId r) (g_sponsorSessionId r) (g_agentLabel r)
        (g_tokenHash r) (g_allowedActions r) (g_maxJobsPerDay r) (g_jobsUsedToday r)
        (g_budgetWindow r) (g_maxJobsPerHour r) (g_jobsUsedThisHour r) (g_hourWindow r)
        (g_allowedContracts r) (g_allowedCircuits r) (g_allowDeploy r) (g_maxDeploys r) v
        (g_deployedContracts r) (g_allowedTokenTypes r) (g_mintedTokenTypes r)
        (g_allowUnshieldedOffers r) (g_allowedUnshieldedTokenTypes r) (g_maxValuePerDay r)
        (g_valueUsedToday r) (g_valueWindow r) (g_validUntil r) (g_isActive r) (g_revokedAt r)
  | GSetDeployedContracts v =>
      MkGrant (g_userId r) (g_sessionId r) (g_sponsorSessionId r) (g_agentLabel r)
        (g_tokenHash r) (g_allowedActions r) (g_maxJobsPerDay r) (g_jobsUsedToday r)
        (g_budgetWindow r) (g_maxJobsPerHour r) (g_jobsUsedThisHour r) (g_hourWindow r)
        (g_allowedContracts r) (g_allowedCircuits r) (g_allowDeploy r) (g_maxDeploys r)
        (g_deploysUsed r) v (g_allowedTokenTypes r) (g_mintedTokenTypes r)
        (g_allowUnshieldedOffers r) (g_allowedUnshieldedTokenTypes r) (g_maxValuePerDay r)
        (g_valueUsedToday r) (g_valueWindow r) (g_validUntil r) (g_isActive r) (g_revokedAt r)
  | GSetAllowedTokenTypes v =>
      MkGrant (g_userId r) (g_sessionId r) (g_sponsorSessionId r) (g_agentLabel r)
        (g_tokenHash r) (g_allowedActions r) (g_maxJobsPerDay r) (g_jobsUsedToday r)
        (g_budgetWindow r) (g_maxJobsPerHour r) (g_jobsUsedThisHour r) (g_hourWindow r)
        (g_allowedContracts r) (g_allowedCircuits r) (g_allowDeploy r) (g_maxDeploys r)
        (g_deploysUsed r) (g_deployedContracts r) v (g_mintedTokenTypes r)
        (g_allowUnshieldedOffers r) (g_allowedUnshieldedTokenTypes r) (g_maxValuePerDay r)
        (g_valueUsedToday r) (g_valueWindow r) (g_validUntil r) (g_isActive r) (g_revokedAt r)
  | GSetMintedTokenTypes v =>
      MkGrant (g_userId r) (g_sessionId r) (g_sponsorSessionId r) (g_agentLabel r)
        (g_tokenHash r) (g_allowedActions r) (g_maxJobsPerDay r) (g_jobsUsedToday r)
        (g_budgetWindow r) (g_maxJobsPerHour r) (g_jobsUsedThisHour r) (g_hourWindow r)
        (g_allowedContracts r) (g_allowedCircuits r) (g_allowDeploy r) (g_maxDeploys r)
        (g_deploysUsed r) (g_deployedContracts r) (g_allowedTokenTypes r) v
        (g_allowUnshieldedOffers r) (g_allowedUnshieldedTokenTypes r) (g_maxValuePerDay r)
        (g_valueUsedToday r) (g_valueWindow r) (g_validUntil r) (g_isActive r) (g_revokedAt r)
  | GSetAllowUnshieldedOffers v =>
      MkGrant (g_userId r) (g_sessionId r) (g_sponsorSessionId r) (g_agentLabel r)
        (g_tokenHash r) (g_allowedActions r) (g_maxJobsPerDay r) (g_jobsUsedToday r)
        (g_budgetWindow r) (g_maxJobsPerHour r) (g_jobsUsedThisHour r) (g_hourWindow r)
        (g_allowedContracts r) (g_allowedCircuits r) (g_allowDeploy r) (g_maxDeploys r)
        (g_deploysUsed r) (g_deployedContracts r) (g_allowedTokenTypes r) (g_mintedTokenTypes r)
        v (g_allowedUnshieldedTokenTypes r) (g_maxValuePerDay r) (g_valueUsedToday r)
        (g_valueWindow r) (g_validUntil r) (g_isActive r) (g_revokedAt r)
  | GSetAllowedUnshieldedTokenTypes v =>
      MkGrant (g_userId r) (g_sessionId r) (g_sponsorSessionId r) (g_agentLabel r)
        (g_tokenHash r) (g_allowedActions r) (g_maxJobsPerDay r) (g_jobsUsedToday r)
        (g_budgetWindow r) (g_maxJobsPerHour r) (g_jobsUsedThisHour r) (g_hourWindow r)
        (g_allowedContracts r) (g_allowedCircuits r) (g_allowDeploy r) (g_maxDeploys r)
        (g_deploysUsed r) (g_deployedContracts r) (g_allowedTokenTypes r) (g_mintedTokenTypes r)
        (g_allowUnshieldedOffers r) v (g_maxValuePerDay r) (g_valueUsedToday r) (g_valueWindow r)
        (g_validUntil r) (g_isActive r) (g_revokedAt r)
  | GSetMaxValuePerDay v =>
      MkGrant (g_userId r) (g_sessionId r) (g_sponsorSessionId r) (g_agentLabel r)
        (g_tokenHash r) (g_allowedActions r) (g_maxJobsPerDay r) (g_jobsUsedToday r)
        (g_budgetWindow r) (g_maxJobsPerHour r) (g_jobsUsedThisHour r) (g_hourWindow r)
        (g_allowedContracts r) (g_allowedCircuits r) (g_allowDeploy r) (g_maxDeploys r)
        (g_deploysUsed r) (g_deployedContracts r) (g_allowedTokenTypes r) (g_mintedTokenTypes r)
        (g_allowUnshieldedOffers r) (g_allowedUnshieldedTokenTypes r) v (g_valueUsedToday r)
        (g_valueWindow r) (g_validUntil r) (g_isActive r) (g_revokedAt r)
  | GSetValueUsedToday v =>
      MkGrant (g_userId r) (g_sessionId r) (g_sponsorSessionId r) (g_agentLabel r)
        (g_tokenHash r) (g_allowedActions r) (g_maxJobsPerDay r) (g_jobsUsedToday r)
        (g_budgetWindow r) (g_maxJobsPerHour r) (g_jobsUsedThisHour r) (g_hourWindow r)
        (g_allowedContracts r) (g_allowedCircuits r) (g_allowDeploy r) (g_maxDeploys r)
        (g_deploysUsed r) (g_deployedContracts r) (g_allowedTokenTypes r) (g_mintedTokenTypes r)
        (g_allowUnshieldedOffers r) (g_allowedUnshieldedTokenTypes r) (g_maxValuePerDay r) v
        (g_valueWindow r) (g_validUntil r) (g_isActive r) (g_revokedAt r)
  | GSetValueWindow v =>
      MkGrant (g_userId r) (g_sessionId r) (g_sponsorSessionId r) (g_agentLabel r)
        (g_tokenHash r) (g_allowedActions r) (g_maxJobsPerDay r) (g_jobsUsedToday r)
        (g_budgetWindow r) (g_maxJobsPerHour r) (g_jobsUsedThisHour r) (g_hourWindow r)
        (g_allowedContracts r) (g_allowedCircuits r) (g_allowDeploy r) (g_maxDeploys r)
        (g_deploysUsed r) (g_deployedContracts r) (g_allowedTokenTypes r) (g_mintedTokenTypes r)
        (g_allowUnshieldedOffers r) (g_allowedUnshieldedTokenTypes r) (g_maxValuePerDay r)
        (g_valueUsedToday r) v (g_validUntil r) (g_isActive r) (g_revokedAt r)
  | GSetValidUntil v =>
      MkGrant (g_userId r) (g_sessionId r) (g_sponsorSessionId r) (g_agentLabel r)
        (g_tokenHash r) (g_allowedActions r) (g_maxJobsPerDay r) (g_jobsUsedToday r)
        (g_budgetWindow r) (g_maxJobsPerHour r) (g_jobsUsedThisHour r) (g_hourWindow r)
        (g_allowedContracts r) (g_allowedCircuits r) (g_allowDeploy r) (g_maxDeploys r)
        (g_deploysUsed r) (g_deployedContracts r) (g_allowedTokenTypes r) (g_mintedTokenTypes r)
        (g_allowUnshieldedOffers r) (g_allowedUnshieldedTokenTypes r) (g_maxValuePerDay r)
        (g_valueUsedToday r) (g_valueWindow r) v (g_isActive r) (g_revokedAt r)
  | GSetIsActive v =>
      MkGrant (g_userId r) (g_sessionId r) (g_sponsorSessionId r) (g_agentLabel r)
        (g_tokenHash r) (g_allowedActions r) (g_maxJobsPerDay r) (g_jobsUsedToday r)
        (g_budgetWindow r) (g_maxJobsPerHour r) (g_jobsUsedThisHour r) (g_hourWindow r)
        (g_allowedContracts r) (g_allowedCircuits r) (g_allowDeploy r) (g_maxDeploys r)
        (g_deploysUsed r) (g_deployedContracts r) (g_allowedTokenTypes r) (g_mintedTokenTypes r)
        (g_allowUnshieldedOffers r) (g_allowedUnshieldedTokenTypes r) (g_maxValuePerDay r)
        (g_valueUsedToday r) (g_valueWindow r) (g_validUntil r) v (g_revokedAt r)
  | GSetRevokedAt v =>
      MkGrant (g_userId r) (g_sessionId r) (g_sponsorSessionId r) (g_agentLabel r)
        (g_tokenHash r) (g_allowedActions r) (g_maxJobsPerDay r) (g_jobsUsedToday r)
        (g_budgetWindow r) (g_maxJobsPerHour r) (g_jobsUsedThisHour r) (g_hourWindow r)
        (g_allowedContracts r) (g_allowedCircuits r) (g_allowDeploy r) (g_maxDeploys r)
        (g_deploysUsed r) (g_deployedContracts r) (g_allowedTokenTypes r) (g_mintedTokenTypes r)
        (g_allowUnshieldedOffers r) (g_allowedUnshieldedTokenTypes r) (g_maxValuePerDay r)
        (g_valueUsedToday r) (g_valueWindow r) (g_validUntil r) (g_isActive r) v
  end.

Definition patch_grant (p : list grant_set) (r : Grant) : Grant := foldl (λ r a, apply_grant_set a r) r p.

(** The tables the job system writes: the jobs, their attempt rows, the agent
    grants, and the [reorgGeneration] of the SyncState row, absent when the row is. *)
Record Database := MkDatabase {
  jobs : gmap string Job;
  submissions : gmap string Submission;
  grants : gmap string Grant;
  reorgGeneration : option (option Z) }.

Definition with_jobs (t : gmap string Job) (d : Database) : Database :=
  MkDatabase t (submissions d) (grants d) (reorgGeneration d).
Definition with_submissions (t : gmap string Submission) (d : Database) : Database :=
  MkDatabase (jobs d) t (grants d) (reorgGeneration d).
Definition with_grants (t : gmap string Grant) (d : Database) : Database :=
  MkDatabase (jobs d) (submissions d) t (reorgGeneration d).
Definition with_reorgGeneration (g : option (option Z)) (d : Database) : Database :=
  MkDatabase (jobs d) (submissions d) (grants d) g.

(** ** Statements on BackgroundJobs *)

(** [UPDATE BackgroundJobs SET p WHERE ID = k AND c], answering affected rows. *)
Definition update_job (k : string) (c : Job → bool) (p : list job_set) : M Database nat := λ d,
  let '(t, n) := sql_update_key k c (patch_job p) (jobs d) in (Ret n, with_jobs t d).

(** [UPDATE BackgroundJobs SET p WHERE w]. *)
Definition update_jobs (w : string → Job → bool) (p : list job_set) : M Database nat := λ d,
  let '(t, n) := sql_update w (patch_job p) (jobs d) in (Ret n, with_jobs t d).

Definition update_submission (k : string) (c : Submission → bool) (p : list sub_set) :
    M Database nat := λ d,
  let '(t, n) := sql_update_key k c (patch_sub p) (submissions d) in
  (Ret n, with_submissions t d).

Definition update_submissions (w : string → Submission → bool) (p : list sub_set) :
    M Database nat := λ d,
  let '(t, n) := sql_update w (patch_sub p) (submissions d) in (Ret n, with_submissions t d).

(** [SELECT.one.from(BackgroundJobs).where({ ID })]. *)
Definition select_job (k : string) : M Database (option Job) := λ d, (Ret (jobs d !! k), d).

(** [status: { in: [..] }] *)
Definition status_in (l : list JobStatus) (r : Job) : bool := bool_decide (j_status r ∈ l).

(** [leaseOwner: w] *)
Definition owned_by (w : string) (r : Job) : bool := bool_decide (j_leaseOwner r = Some w).

Lemma with_jobs_jobs t d : jobs (with_jobs t d) = t.
Proof. done. Qed.

Lemma with_jobs_id d : with_jobs (jobs d) d = d.
Proof. by destruct d. Qed.

Lemma with_submissions_id d : with_submissions (submissions d) d = d.
Proof. by destruct d. Qed.

(** Patching never touches the columns written at insertion. *)
Lemma patch_job_spec p r : j_spec (patch_job p r) = j_spec r.
Proof.
  unfold patch_job. revert r. induction p as [|a p IH]; intros r; [done|]. simpl. rewrite IH.
  by destruct a.
Qed.

#[export] Hint Rewrite patch_job_spec with_jobs_jobs with_jobs_id with_submissions_id : ng.

(** The compare-and-swap of a job row, as a case analysis. *)
Lemma update_job_cases k c p d o d' :
  update_job k c p d = (o, d') →
  (∃ r, jobs d !! k = Some r ∧ c r = true ∧ o = Ret 1 ∧
        d' = with_jobs (<[k := patch_job p r]> (jobs d)) d) ∨
  (o = Ret 0 ∧ d' = d ∧ ∀ r, jobs d !! k = Some r → c r = false).
Proof.
  unfold update_job. intros H.
  destruct (sql_update_key k c (patch_job p) (jobs d)) as [t n] eqn:E.
  apply sql_update_key_cases in E as [(-> & r & Hr & Hc & ->)|(-> & -> & Hc)]; simplify_eq.
  - left. eauto 6.
  - right. by rewrite with_jobs_id.
Qed.

(** ** Concrete rows, for the examples *)

Definition sample_spec (k : string) : JobSpec :=
  MkJobSpec k "session-1" (Some "key-1"%string) (JObj []) "fp" (Some 1%Z) (Some "{}"%string) (Some JsonV1)
    (Some "alice"%string) None None None 1000 1000 1.

(** A row of kind [k] with a status, an owner and an error code. *)
Definition sample_job (k : string) (st : JobStatus) (owner code : option string) : Job :=
  MkJob (sample_spec k) st (Some 1%Z) None code None None None None None owner None None None None None None None
    None None None.

Definition one_job_db (r : Job) : Database := MkDatabase {[ "job-1"%string := r ]} ∅ ∅ (Some (Some 0%Z)).

Lemma one_job_lookup r k j : jobs (one_job_db r) !! k = Some j → k = "job-1"%string ∧ j = r.
Proof. unfold one_job_db. simpl. rewrite lookup_singleton_Some. naive_solver. Qed.
