(* ===== verification/SponsorPolicy.v ===== *)
(** What a fee sponsor pays for: the platform policy, from the settings or the
    policy file, and its narrowing by an agent grant
    (srv/submission/sponsor-policy.ts). *)
From Stdlib Require Import Ascii.
From S2P Require Import Prelude Json Numbers.

Set Warnings "-register-all".

Local Open Scope string_scope.

(** ** Data *)

(** The circuits sponsored on one contract: ["*"] or the named ones. *)
Inductive ContractCircuitRule := AllCircuits | NamedCircuits (l : list string).

(** An object: the keys are distinct addresses, in the order of the text. *)
Definition ContractCircuitRules := list (string * ContractCircuitRule).

(** Optional fields are options; [None] is undefined. *)
Record SponsorPolicy := MkPolicy {
  p_allowedContracts : list string; p_allowedCircuits : list string;
  p_contractCircuits : option ContractCircuitRules; p_allowDeploy : option bool;
  p_ownContracts : option (list string); p_allowedTokenTypes : option (list string);
  p_allowContractMints : option bool; p_allowSwaps : option bool;
  p_shareMintedTokenTypes : option bool; p_ownTokenTypes : option (list string);
  p_sharedTokenTypes : option (list string); p_allowTransfers : option bool;
  p_allowUnshieldedOffers : option bool; p_allowedUnshieldedTokenTypes : option (list string);
  p_rateLimits : option (list (string * Z)) }.

(** Null and undefined fields read alike. *)
Record GrantPolicyInput := MkGrantPolicy {
  gp_allowedContracts : option (list string); gp_allowedCircuits : option (list string);
  gp_allowDeploy : option bool; gp_deployedContracts : option (list string);
  gp_allowedTokenTypes : option (list string); gp_mintedTokenTypes : option (list string);
  gp_allowSwaps : option bool; gp_allowTransfers : option bool;
  gp_allowUnshieldedOffers : option bool; gp_allowedUnshieldedTokenTypes : option (list string) }.

(** [v === true] *)
Definition is_true (v : option bool) : bool := bool_decide (v = Some true).

(** ** Validation of the lists *)

Definition MAX_POLICY_ENTRIES : nat := 256.
Definition MAX_ENTRY_LENGTH : nat := 130.

Definition is_word (a : ascii) : bool :=
  char_in "A" "Z" a || char_in "a" "z" a || is_digit a || Ascii.eqb a "_".

(** The loops of the two list validators differ in the check of an entry. *)
Fixpoint validated (name : string) (check : string → outcome string) (l : list json) (out : list string) :
    outcome (list string) :=
  match l with
  | [] => Ret out
  | JStr entry :: l' => v ← check entry; validated name check l' (set_add out v)
  | _ :: _ => Throw (js_error (name ++ " entries must be strings"))
  end.

Definition validate_list (name : string) (check : string → outcome string) (raw : option json) :
    outcome (list string) :=
  match raw with
  | None | Some JNull => Ret []
  | Some (JArr l) =>
      if (MAX_POLICY_ENTRIES <? length l)%nat then
        Throw (js_error (name ++ " has " ++ pretty (length l) ++ " entries; at most " ++
                         pretty MAX_POLICY_ENTRIES ++ " are allowed"))
      else validated name check l []
  | Some _ => Throw (js_error (name ++ " must be an array of strings"))
  end.

Definition policy_entry (name entry : string) : outcome string :=
  let v := trim entry in
  if is_empty v then Throw (js_error (name ++ " contains an empty entry"))
  else if (MAX_ENTRY_LENGTH <? String.length v)%nat then
    Throw (js_error (name ++ " entry '" ++ slice0 16 v ++ "…' is longer than " ++
                     pretty MAX_ENTRY_LENGTH ++ " characters"))
  else if negb (all_chars is_word v) then
    Throw (js_error (name ++ " entry '" ++ slice0 32 v ++ "' is not a contract address or circuit name"))
  else Ret v.

Definition validatePolicyList (name : string) (raw : option json) : outcome (list string) :=
  validate_list name (policy_entry name) raw.

Definition token_type_entry (name entry : string) : outcome string :=
  let v := drop_0x (lower (trim entry)) in
  if negb (HEX64_RE v) then
    Throw (js_error (name ++ " entry '" ++ slice0 32 (trim entry) ++
                     "' is not a raw token type (64 hex; use deriveTokenType)"))
  else Ret v.

Definition validateTokenTypeList (name : string) (raw : option json) : outcome (list string) :=
  validate_list name (token_type_entry name) raw.

(** [value === '*'] *)
Definition is_star (v : json) : bool := match v with JStr s => bool_decide (s = "*") | _ => false end.
(** [Array.isArray(v) && v.includes('*')] *)
Definition has_star (v : json) : bool := match v with JArr l => existsb is_star l | _ => false end.

Fixpoint contract_rules (name : string) (entries : list (string * json)) (out : ContractCircuitRules) :
    outcome ContractCircuitRules :=
  match entries with
  | [] => Ret out
  | (key, value) :: entries' =>
      let address := lower (trim key) in
      let label := name ++ "." ++ slice0 16 address in
      if negb (HEX64_RE address) then
        Throw (js_error (name ++ " key '" ++ slice0 32 (trim key) ++ "' is not a contract address (64 hex)"))
      else if map_has address out then
        Throw (js_error (name ++ " lists contract " ++ slice0 16 address ++ " twice"))
      else if is_star value then contract_rules name entries' (map_set address AllCircuits out)
      else if has_star value then
        Throw (js_error (label ++ ": use " ++ quote "*" ++ " as the value, not inside the array"))
      else
        circuits ← validatePolicyList label (Some value);
        match circuits with
        | [] => Throw (js_error (label ++ " must be " ++ quote "*" ++ " or a non-empty array of circuit names"))
        | _ => contract_rules name entries' (map_set address (NamedCircuits circuits) out)
        end
  end.

Definition validateContractCircuits (name : string) (raw : option json) : outcome (option ContractCircuitRules) :=
  match raw with
  | None | Some JNull => Ret None
  | Some (JObj entries) =>
      if (MAX_POLICY_ENTRIES <? length entries)%nat then
        Throw (js_error (name ++ " has " ++ pretty (length entries) ++ " entries; at most " ++
                         pretty MAX_POLICY_ENTRIES ++ " are allowed"))
      else Some <$> contract_rules name entries []
  | Some _ => Throw (js_error (name ++ " must be an object of contract address to " ++ quote "*" ++ " or circuit names"))
  end.

(** ** The platform policy *)

(** What the getters of srv/utils/config.ts answer. *)
Record Settings := MkSettings {
  configList : string → list string;
  configFlag : string → bool;
  configString : string → option string }.

Definition unavailable (msg : string) : exn := Exn "SponsorPolicyUnavailableError" "SPONSOR_POLICY_UNAVAILABLE" msg.

Definition list_setting (c : Settings) (key : string) : option json := Some (JArr (JStr <$> configList c key)).

Definition envPolicy (c : Settings) : outcome SponsorPolicy :=
  match (types ← validateTokenTypeList "NIGHTGATE_SPONSOR_ALLOWED_TOKEN_TYPES"
                   (list_setting c "NIGHTGATE_SPONSOR_ALLOWED_TOKEN_TYPES");
         unshielded ← validateTokenTypeList "NIGHTGATE_SPONSOR_ALLOWED_UNSHIELDED_TOKEN_TYPES"
                   (list_setting c "NIGHTGATE_SPONSOR_ALLOWED_UNSHIELDED_TOKEN_TYPES");
         mret (types, unshielded)) with
  | Throw e => Throw (unavailable (ex_msg e ++ "; refusing to sponsor"))
  | Ret (types, unshielded) => Ret {|
      p_allowedContracts := configList c "NIGHTGATE_SPONSOR_ALLOWED_CONTRACTS";
      p_allowedCircuits := configList c "NIGHTGATE_SPONSOR_ALLOWED_CIRCUITS";
      p_contractCircuits := None;
      p_allowDeploy := Some (configFlag c "NIGHTGATE_SPONSOR_ALLOW_DEPLOY");
      p_ownContracts := None;
      p_allowedTokenTypes := Some types;
      p_allowContractMints := Some (configFlag c "NIGHTGATE_SPONSOR_ALLOW_CONTRACT_MINTS");
      p_allowSwaps := Some (configFlag c "NIGHTGATE_SPONSOR_ALLOW_SWAPS");
      p_shareMintedTokenTypes := Some (configFlag c "NIGHTGATE_SPONSOR_SHARE_MINTED_TOKEN_TYPES");
      p_ownTokenTypes := None; p_sharedTokenTypes := None;
      p_allowTransfers := Some (configFlag c "NIGHTGATE_SPONSOR_ALLOW_TRANSFERS");
      p_allowUnshieldedOffers := Some (configFlag c "NIGHTGATE_SPONSOR_ALLOW_UNSHIELDED_OFFERS");
      p_allowedUnshieldedTokenTypes := Some unshielded;
      p_rateLimits := None |}
  end.

Definition POLICY_FILE_KEYS : list string := [
  "allowedContracts"; "allowedCircuits"; "contractCircuits"; "allowDeploy"; "allowedTokenTypes";
  "allowContractMints"; "allowSwaps"; "allowTransfers"; "shareMintedTokenTypes";
  "allowUnshieldedOffers"; "allowedUnshieldedTokenTypes"; "rateLimits" ].

Definition policy_flags : list string :=
  [ "allowDeploy"; "allowContractMints"; "allowSwaps"; "allowTransfers"; "shareMintedTokenTypes"; "allowUnshieldedOffers" ].

Definition RATE_CLASS_NAMES : list string :=
  [ "prove"; "deploy"; "sponsor"; "compute"; "read"; "wallet"; "signing"; "admin"; "public-verify" ].

Definition isRateClass (name : string) : bool := mem name RATE_CLASS_NAMES.

Fixpoint rate_limits (l : list (string * json)) (out : list (string * Z)) : outcome (list (string * Z)) :=
  match l with
  | [] => Ret out
  | (name, value) :: l' =>
      if negb (isRateClass name) then
        Throw (js_error ("rateLimits names unknown class '" ++ name ++ "'; known: " ++
                         String.concat ", " RATE_CLASS_NAMES))
      else match value with
      | JInt n => if bool_decide (n < 1)%Z
                  then Throw (js_error ("rateLimits." ++ name ++ " must be an integer of at least 1"))
                  else rate_limits l' (map_set name n out)
      | _ => Throw (js_error ("rateLimits." ++ name ++ " must be an integer of at least 1"))
      end
  end.

Definition readRateLimits (raw : option json) : outcome (option (list (string * Z))) :=
  match raw with
  | None => Ret None
  | Some (JObj l) => Some <$> rate_limits l []
  | Some _ => Throw (js_error "rateLimits must be an object of class name to count")
  end.

(** [parsed.flag === true] *)
Definition flag (parsed : json) (key : string) : option bool :=
  Some (match json_get key parsed with Some (JBool true) => true | _ => false end).

Definition bad_flag (parsed : json) (key : string) : bool :=
  match json_get key parsed with None | Some (JBool _) => false | Some _ => true end.

(** [readPolicyFile] once the text is read. *)
Definition parse_policy_file (text : json_text) : outcome SponsorPolicy :=
  match text with
  | Malformed => Throw (Exn "SyntaxError" EmptyString "policy file is not JSON")
  | Text (JObj fields) =>
      let parsed := JObj fields in
      match keep (λ k, negb (mem k POLICY_FILE_KEYS)) fields.*1 with
      | (_ :: _) as unknownKeys =>
          Throw (js_error ("policy file has unknown keys: " ++ String.concat ", " unknownKeys))
      | [] =>
          match keep (bad_flag parsed) policy_flags with
          | key :: _ => Throw (js_error (key ++ " must be a boolean"))
          | [] =>
              rateLimits ← readRateLimits (json_get "rateLimits" parsed);
              contractCircuits ← validateContractCircuits "contractCircuits" (json_get "contractCircuits" parsed);
              allowedContracts ← validatePolicyList "allowedContracts" (json_get "allowedContracts" parsed);
              let ruled := keep (λ a, negb (mem a allowedContracts)) (nullish contractCircuits []).*1 in
              allowedCircuits ← validatePolicyList "allowedCircuits" (json_get "allowedCircuits" parsed);
              allowedTokenTypes ← validateTokenTypeList "allowedTokenTypes" (json_get "allowedTokenTypes" parsed);
              unshielded ← validateTokenTypeList "allowedUnshieldedTokenTypes"
                             (json_get "allowedUnshieldedTokenTypes" parsed);
              Ret {|
                p_allowedContracts := match allowedContracts with [] => [] | _ => (allowedContracts ++ ruled)%list end;
                p_allowedCircuits := allowedCircuits;
                p_contractCircuits := contractCircuits;
                p_allowDeploy := flag parsed "allowDeploy";
                p_ownContracts := None;
                p_allowedTokenTypes := Some allowedTokenTypes;
                p_allowContractMints := flag parsed "allowContractMints";
                p_allowSwaps := flag parsed "allowSwaps";
                p_shareMintedTokenTypes := flag parsed "shareMintedTokenTypes";
                p_ownTokenTypes := None; p_sharedTokenTypes := None;
                p_allowTransfers := flag parsed "allowTransfers";
                p_allowUnshieldedOffers := flag parsed "allowUnshieldedOffers";
                p_allowedUnshieldedTokenTypes := Some unshielded;
                p_rateLimits := rateLimits |}
          end
      end
  | Text _ => Throw (js_error "policy file must be a JSON object")
  end.

(** A file as one call sees it: [statSync] (time and size, or it throws), then
    [readFileSync] (the text, or it throws). *)
Record FileView := MkFile { fv_stat : option (Z * Z); fv_text : option json_text }.

Definition readPolicyFile (f : FileView) : outcome SponsorPolicy :=
  match fv_text f with
  | None => Throw (Exn "Error" "ENOENT" "no such file or directory")
  | Some text => parse_policy_file text
  end.

Record FileCache := MkCache {
  fc_path : string; fc_mtimeMs : Z; fc_size : Z; fc_policy : option SponsorPolicy;
  fc_lastGood : option SponsorPolicy; fc_loadedAt : option Z }.

(** A policy at hand is used, else sponsoring is refused. *)
Definition good_or_refuse (lastGood : option SponsorPolicy) (path why : string) : outcome SponsorPolicy :=
  match lastGood with
  | Some p => Ret p
  | None => Throw (unavailable ("sponsor policy file " ++ path ++ " " ++ why ++
                     " and no policy was loaded before; refusing to sponsor"))
  end.

Definition same_path (path : string) (c : FileCache) : bool := bool_decide (fc_path c = path).

Definition unchanged (path : string) (stat : option (Z * Z)) (cache : option FileCache) : bool :=
  match cache, stat with
  | Some c, Some (mtimeMs, size) =>
      same_path path c && bool_decide (fc_mtimeMs c = mtimeMs) && bool_decide (fc_size c = size)
  | _, _ => false
  end.

(** [fileCache?.path === filePath ? fileCache.lastGood : null] *)
Definition last_good (path : string) (cache : option FileCache) : option SponsorPolicy :=
  match cache with Some c => if same_path path c then fc_lastGood c else None | None => None end.

(** What an unusable file leaves in the cache. *)
Definition bad_cache (path : string) (mtimeMs size : Z) (lastGood : option SponsorPolicy) (cache : option FileCache) :
    FileCache :=
  MkCache path mtimeMs size None lastGood
    (match lastGood with Some _ => cache ≫= fc_loadedAt | None => None end).

Section Global.
Context (c : Settings) (files : string → FileView) (now : Z).

(** The file is missing, or differs from the cached version. *)
Definition reload (path : string) : M (option FileCache) SponsorPolicy := λ cache,
  let lastGood := last_good path cache in
  match fv_stat (files path) with
  | None =>
      (good_or_refuse lastGood path "cannot be read",
       if match cache with Some f => same_path path f && bool_decide (fc_mtimeMs f = (-1)%Z) | None => false end
       then cache else Some (bad_cache path (-1) (-1) lastGood cache))
  | Some (mtimeMs, size) =>
      match readPolicyFile (files path) with
      | Ret policy => (Ret policy, Some (MkCache path mtimeMs size (Some policy) (Some policy) (Some now)))
      | Throw _ =>
          (good_or_refuse lastGood path "is invalid", Some (bad_cache path mtimeMs size lastGood cache))
      end
  end.

Definition getGlobalSponsorPolicy : M (option FileCache) SponsorPolicy := λ cache,
  match configString c "NIGHTGATE_SPONSOR_POLICY_FILE" with
  | None => (envPolicy c, cache)
  | Some path =>
      if unchanged path (fv_stat (files path)) cache then
        match cache ≫= fc_policy with
        | Some p => (Ret p, cache)
        | None => (good_or_refuse (cache ≫= fc_lastGood) path "is unusable", cache)
        end
      else reload path cache
  end.

Definition is_unavailable (e : exn) : bool := bool_decide (ex_name e = "SponsorPolicyUnavailableError").

Definition policyFileRateLimits : M (option FileCache) (list (string * Z)) :=
  match configString c "NIGHTGATE_SPONSOR_POLICY_FILE" with
  | None => mret []
  | Some _ =>
      try_catch (p ← getGlobalSponsorPolicy; mret (nullish (p_rateLimits p) []))
        (λ e, if is_unavailable e then mret [] else throw e)
  end.

(** [describeGlobalSponsorPolicy]: the source, the path, the time of the load,
    the policy or the reason there is none. *)
Definition describeGlobalSponsorPolicy :
    M (option FileCache) (option string * option Z * option SponsorPolicy * option string) :=
  floor ← try_catch (p ← getGlobalSponsorPolicy; mret (Some p, None))
            (λ e, if is_unavailable e then mret (None, Some (ex_msg e)) else throw e);
  cache ← get;
  let path := configString c "NIGHTGATE_SPONSOR_POLICY_FILE" in
  let loadedAt := p ← path; f ← cache; if same_path p f then fc_loadedAt f else None in
  mret (path, loadedAt, floor.1, floor.2).
End Global.

(** ** The policy in effect *)

Definition emptyIntersection (what : string) (grant : list string) : exn :=
  Exn "SponsorPolicyEmptyError" "SPONSOR_POLICY_EMPTY"
    ("this grant's " ++ what ++ " (" ++ String.concat ", " (slice0 16 <$> grant) ++
     ") share nothing with the platform's sponsor allow-list; the grant cannot be sponsored here " ++
     "(revoke and re-issue it, or widen the platform policy)").

Definition both (floor grant : list string) : list string := keep (λ g, mem g floor) grant.

Definition intersect (floor : list string) (grant : option (list string)) (what : string) : outcome (list string) :=
  match nullish grant [], floor with
  | [], _ => Ret floor
  | g, [] => Ret g
  | g, _ => match both floor g with [] => Throw (emptyIntersection what g) | b => Ret b end
  end.

(** The rule left by the grant's circuit list. *)
Definition narrow_rule (grantList : list string) (rule : ContractCircuitRule) : list string :=
  match rule with AllCircuits => grantList | NamedCircuits l => keep (λ c, mem c grantList) l end.

Definition narrowed_rules (grantList : list string) (rules : option ContractCircuitRules) : list (string * list string) :=
  (λ '(a, r), (a, narrow_rule grantList r)) <$> nullish rules [].

Definition as_rules (l : list (string * list string)) : ContractCircuitRules := (λ '(a, cs), (a, NamedCircuits cs)) <$> l.

Definition usable_rule (contracts : list string) (r : string * list string) : bool :=
  match r.2 with [] => false | _ => true end &&
  (match contracts with [] => true | _ => false end || mem r.1 contracts).

(** The contracts, the circuits and the rules. *)
Definition narrowCircuits (floor : SponsorPolicy) (grant : option (list string)) (contracts : list string) :
    outcome (list string * list string * option ContractCircuitRules) :=
  match nullish grant [] with
  | [] => Ret (contracts, p_allowedCircuits floor, p_contractCircuits floor)
  | grantList =>
      let flat := match p_allowedCircuits floor with [] => grantList | l => both l grantList end in
      let narrowed := narrowed_rules grantList (p_contractCircuits floor) in
      match flat with
      | _ :: _ => Ret (contracts, flat, (λ _, as_rules narrowed) <$> p_contractCircuits floor)
      | [] => match keep (usable_rule contracts) narrowed with
              | [] => Throw (emptyIntersection "allowedCircuits" grantList)
              | usable => Ret (usable.*1, grantList, Some (as_rules usable))
              end
      end
  end.

Definition non_empty (s : string) : bool := negb (is_empty s).

Definition floorTokenTypes (floor : SponsorPolicy) (sharedTypes : list string) : list string :=
  let listed := nullish (p_allowedTokenTypes floor) [] in
  (listed ++ keep (λ t, negb (mem t listed)) sharedTypes)%list.

Definition narrowUnshieldedTypes (floor : list string) (grant : option (list string)) : list string :=
  match keep HEX64_RE (nullish grant []) with [] => floor | wanted => both floor wanted end.

(** [x.length ? { field: x } : {}] *)
Definition unless_empty (l : list string) : option (list string) := match l with [] => None | _ => Some l end.

(** [floor.f === true && (grant ? grant.f === true : true)] *)
Definition both_allow (f : option bool) (grant : option GrantPolicyInput) (g : GrantPolicyInput → option bool) : option bool :=
  Some (is_true f && match grant with Some gr => is_true (g gr) | None => true end).

(** [grant?.field] *)
Definition of_grant {A} (f : GrantPolicyInput → option A) (grant : option GrantPolicyInput) : option A := grant ≫= f.

Definition sharing (floor : SponsorPolicy) : bool :=
  is_true (p_allowContractMints floor) && is_true (p_shareMintedTokenTypes floor).

Definition shared_types (floor : SponsorPolicy) (shared : list string) : list string :=
  if sharing floor then js_set (keep HEX64_RE shared) else [].

Definition minted_types (floor : SponsorPolicy) (grant : option GrantPolicyInput) : list string :=
  if is_true (p_allowContractMints floor)
  then js_set (keep HEX64_RE (nullish (of_grant gp_mintedTokenTypes grant) [])) else [].

Definition listed_types (floorTokens grantTokens : list string) : list string :=
  match grantTokens with [] => floorTokens | _ => both floorTokens grantTokens end.

Definition deployed_contracts (grant : option GrantPolicyInput) : list string :=
  js_set (keep non_empty (nullish (of_grant gp_deployedContracts grant) [])).

(** [l] and what it does not hold of [more]; an empty [l] stands for all. *)
Definition and_more (l more : list string) : list string :=
  match l with [] => [] | _ => (l ++ keep (λ a, negb (mem a l)) more)%list end.

Definition effectiveSponsorPolicy (floor : SponsorPolicy) (grant : option GrantPolicyInput) (shared : list string) :
    outcome SponsorPolicy :=
  contracts0 ← intersect (p_allowedContracts floor) (of_grant gp_allowedContracts grant) "allowedContracts";
  circuits ← narrowCircuits floor (of_grant gp_allowedCircuits grant) contracts0;
  let '(contracts, allowedCircuits, contractCircuits) := circuits in
  let deployed := deployed_contracts grant in
  let sharedTypes := shared_types floor shared in
  let grantTokens := keep non_empty (nullish (of_grant gp_allowedTokenTypes grant) []) in
  let listed := listed_types (floorTokenTypes floor sharedTypes) grantTokens in
  let minted := minted_types floor grant in
  mret {|
    p_allowedContracts := and_more contracts deployed;
    p_allowedCircuits := allowedCircuits;
    p_contractCircuits := contractCircuits;
    p_allowDeploy := both_allow (p_allowDeploy floor) grant gp_allowDeploy;
    p_ownContracts := unless_empty deployed;
    p_allowedTokenTypes := Some (listed ++ keep (λ t, negb (mem t listed)) minted)%list;
    p_allowContractMints := Some (is_true (p_allowContractMints floor));
    p_allowSwaps := both_allow (p_allowSwaps floor) grant gp_allowSwaps;
    p_shareMintedTokenTypes := Some (sharing floor);
    p_ownTokenTypes := unless_empty minted;
    p_sharedTokenTypes := unless_empty sharedTypes;
    p_allowTransfers := both_allow (p_allowTransfers floor) grant gp_allowTransfers;
    p_allowUnshieldedOffers := both_allow (p_allowUnshieldedOffers floor) grant gp_allowUnshieldedOffers;
    p_allowedUnshieldedTokenTypes :=
      Some (narrowUnshieldedTypes (nullish (p_allowedUnshieldedTokenTypes floor) [])
              (of_grant gp_allowedUnshieldedTokenTypes grant));
    p_rateLimits := None |}.

(** [one ? 'is' : 'are'] *)
Definition is_or_are (l : list string) : string := match l with [_] => " is" | _ => " are" end.

Definition grantPolicyConflict (floor : SponsorPolicy) (grant : GrantPolicyInput) (shared : list string) :
    outcome (option string) :=
  match effectiveSponsorPolicy floor (Some grant) shared with
  | Throw e => if bool_decide (ex_name e = "SponsorPolicyEmptyError") then Ret (Some (ex_msg e)) else Throw e
  | Ret effective =>
      let floorUnshielded := nullish (p_allowedUnshieldedTokenTypes floor) [] in
      match keep (λ t, negb (mem t floorUnshielded)) (nullish (gp_allowedUnshieldedTokenTypes grant) []) with
      | (_ :: _) as outside => Ret (Some (
          "allowedUnshieldedTokenTypes " ++ String.concat ", " outside ++ is_or_are outside ++
          " not in the platform's unshielded token-type list" ++
          match floorUnshielded with [] => " (the platform lists none besides NIGHT)" | _ => EmptyString end ++
          "; the platform policy has to list a type before a grant can"))
      | [] =>
          let floorTokens := floorTokenTypes floor (nullish (p_sharedTokenTypes effective) []) in
          match keep (λ t, negb (mem t floorTokens)) (nullish (gp_allowedTokenTypes grant) []) with
          | [] => Ret None
          | outside => Ret (Some (
              "allowedTokenTypes " ++ String.concat ", " outside ++ is_or_are outside ++
              " not in the platform's sponsor token-type allow-list" ++
              match floorTokens with [] => " (the platform lists none)" | _ => EmptyString end ++
              "; the platform policy has to list a type before a grant can"))
          end
      end
  end.

(** [resolveSponsorPolicyForRequest]: the request's grant, if it has one. *)
Definition resolveSponsorPolicyForRequest (c : Settings) (files : string → FileView) (now : Z) (shared : list string)
    (agentGrant : option GrantPolicyInput) : M (option FileCache) SponsorPolicy :=
  floor ← getGlobalSponsorPolicy c files now;
  (λ cache, (effectiveSponsorPolicy floor agentGrant shared, cache)) : M (option FileCache) SponsorPolicy.

(** ** What a policy lets a call do

    The test of one call in [checkSponsorableShape]
    (srv/midnight/worker/sponsor.ts). *)
Definition contract_listed (allowedContracts : list string) (address : string) : bool :=
  match allowedContracts with [] => true | l => mem address l end.

Definition own_contract (ownContracts : option (list string)) (address : string) : bool :=
  match ownContracts with Some l => mem address l | None => false end.

Definition circuit_sponsorable (allowedCircuits : list string) (rules : option ContractCircuitRules)
    (address name : string) : bool :=
  match rules ≫= map_get address with
  | Some AllCircuits => true
  | Some (NamedCircuits l) => mem name l
  | None => match allowedCircuits with [] => true | l => mem name l end
  end.

Definition call_sponsorable (p : SponsorPolicy) (address name : string) : bool :=
  contract_listed (p_allowedContracts p) address &&
  (own_contract (p_ownContracts p) address ||
   circuit_sponsorable (p_allowedCircuits p) (p_contractCircuits p) address name).

(** A grant's lists, where an absent or empty one names everything. *)
Definition grant_lists (grant : GrantPolicyInput) (address name : string) : bool :=
  contract_listed (nullish (gp_allowedContracts grant) []) address &&
  contract_listed (nullish (gp_allowedCircuits grant) []) name.

(** The rules are an object: no address twice. *)
Definition rules_ok (p : SponsorPolicy) : Prop := NoDup (nullish (p_contractCircuits p) []).*1.

(** *** Lists *)

Lemma elem_of_both floor g x : x ∈ both floor g ↔ x ∈ floor ∧ x ∈ g.
Proof. unfold both. by rewrite elem_of_keep, mem_true. Qed.

Lemma contract_listed_cons x l a : contract_listed (x :: l) a = mem a (x :: l).
Proof. done. Qed.

Lemma listed_iff l a : contract_listed l a = true ↔ l = [] ∨ a ∈ l.
Proof. destruct l as [|x l]; [naive_solver|]. rewrite contract_listed_cons, mem_true. naive_solver. Qed.

Lemma intersect_listed floor grant what l a :
  intersect floor grant what = Ret l →
  contract_listed l a = contract_listed floor a && contract_listed (nullish grant []) a.
Proof.
  unfold intersect. destruct (nullish grant []) as [|x g]; [intros [= ->]; by rewrite andb_true_r|].
  destruct floor as [|y floor]; [by intros [= ->]|].
  destruct (both (y :: floor) (x :: g)) as [|z b] eqn:Eb; [done|]. intros [= <-].
  rewrite !contract_listed_cons. apply eq_true_iff_eq. rewrite andb_true_iff, !mem_true, <- Eb. apply elem_of_both.
Qed.

Lemma and_more_listed l more a : a ∉ more → contract_listed (and_more l more) a = contract_listed l a.
Proof.
  intros Ha. destruct l as [|x l]; [done|]. cbn [and_more]. rewrite <- app_comm_cons, !contract_listed_cons.
  apply eq_true_iff_eq. rewrite !mem_true, app_comm_cons, elem_of_append_new. naive_solver.
Qed.

Lemma elem_of_deployed grant a :
  a ∈ deployed_contracts grant ↔ non_empty a = true ∧ a ∈ nullish (of_grant gp_deployedContracts grant) [].
Proof. unfold deployed_contracts. by rewrite elem_of_js_set, elem_of_keep. Qed.

Lemma own_unless_empty l a : own_contract (unless_empty l) a = mem a l.
Proof. by destruct l. Qed.

(** *** Circuits *)

Lemma map_get_fmap {A B} (f : A → B) (l : list (string * A)) k :
  map_get k ((λ x, (x.1, f x.2)) <$> l) = f <$> map_get k l.
Proof. induction l as [|[k' v] l IH]; csimpl; [done|]. by case_decide. Qed.

Lemma map_get_keep {A} (f : string * A → bool) (l : list (string * A)) k v :
  NoDup l.*1 → map_get k (keep f l) = Some v ↔ map_get k l = Some v ∧ f (k, v) = true.
Proof.
  intros Hl. assert (NoDup (keep f l).*1) as Hk.
  { eapply sublist_NoDup; [exact Hl|]. apply sublist_fmap_mono, sublist_filter. }
  split.
  - intros H%map_get_In. apply elem_of_keep in H as [Hf Hin]. split; [by apply map_get_Some_NoDup|done].
  - intros [H%map_get_In Hf]. apply map_get_Some_NoDup; [done|]. by apply elem_of_keep.
Qed.

Lemma narrowed_get g rules a :
  map_get a (narrowed_rules g rules) = narrow_rule g <$> map_get a (nullish rules []).
Proof.
  unfold narrowed_rules. rewrite <- (map_get_fmap (narrow_rule g)). f_equal. apply list_fmap_ext. by intros ? [? ?].
Qed.

Lemma as_rules_get l a : map_get a (as_rules l) = NamedCircuits <$> map_get a l.
Proof.
  unfold as_rules. rewrite <- (map_get_fmap NamedCircuits). f_equal. apply list_fmap_ext. by intros ? [? ?].
Qed.

Lemma narrowed_keys g rules : (narrowed_rules g rules).*1 = (nullish rules []).*1.
Proof. unfold narrowed_rules. rewrite <- list_fmap_compose. apply list_fmap_ext. by intros ? [? ?]. Qed.

(** What a narrowed rule names. *)
Lemma elem_of_narrow g r c :
  c ∈ narrow_rule g r ↔ c ∈ g ∧ match r with AllCircuits => True | NamedCircuits l => c ∈ l end.
Proof. destruct r as [|l]; cbn [narrow_rule]; [naive_solver|]. rewrite elem_of_keep, mem_true. done. Qed.

Lemma rule_sponsorable circuits rules a c r :
  map_get a (nullish rules []) = Some r →
  circuit_sponsorable circuits rules a c = match r with AllCircuits => true | NamedCircuits l => mem c l end.
Proof. unfold circuit_sponsorable. destruct rules as [rs|]; [|done]. cbn. by intros ->. Qed.

Lemma no_rule_sponsorable circuits rules a c :
  map_get a (nullish rules []) = None → circuit_sponsorable circuits rules a c = contract_listed circuits c.
Proof. unfold circuit_sponsorable. destruct rules as [rs|]; [|done]. cbn. by intros ->. Qed.

Section Narrow.
Context (floor : SponsorPolicy) (G : list string) (a c : string).

Lemma listed_G : G ≠ [] → contract_listed G c = mem c G.
Proof. by destruct G. Qed.

(** The platform's answer for the call, and the grant's. *)
Definition platform_allows : bool := circuit_sponsorable (p_allowedCircuits floor) (p_contractCircuits floor) a c.

Lemma narrow_ruled r :
  map_get a (nullish (p_contractCircuits floor) []) = Some r →
  mem c (narrow_rule G r) = platform_allows && mem c G.
Proof.
  intros Hr. unfold platform_allows. rewrite (rule_sponsorable _ _ _ _ _ Hr). apply eq_true_iff_eq.
  rewrite andb_true_iff, !mem_true, elem_of_narrow. destruct r; rewrite ?mem_true; naive_solver.
Qed.

Lemma elem_of_flat x :
  x ∈ match p_allowedCircuits floor with [] => G | l => both l G end ↔
  contract_listed (p_allowedCircuits floor) x = true ∧ x ∈ G.
Proof. rewrite listed_iff. destruct (p_allowedCircuits floor); [naive_solver|]. rewrite elem_of_both. naive_solver. Qed.

Lemma usable_listed contracts l :
  (∃ x, x ∈ l) → usable_rule contracts (a, l) = true ↔ contract_listed contracts a = true.
Proof.
  intros [x Hx]. unfold usable_rule. cbn [fst snd]. rewrite listed_iff.
  destruct l; [by apply not_elem_of_nil in Hx|]. cbn [andb].
  destruct contracts; [naive_solver|]. rewrite orb_true_iff, mem_true. naive_solver.
Qed.

(** Only rules can let a call through when the flat lists share nothing. *)
Lemma narrow_usable contracts :
  rules_ok floor →
  (∀ x, ¬ (contract_listed (p_allowedCircuits floor) x = true ∧ x ∈ G)) →
  let usable := keep (usable_rule contracts) (narrowed_rules G (p_contractCircuits floor)) in
  usable ≠ [] →
  contract_listed usable.*1 a && circuit_sponsorable G (Some (as_rules usable)) a c =
  contract_listed contracts a && platform_allows && mem c G.
Proof.
  intros Hok Hflat usable Hne.
  assert (NoDup (narrowed_rules G (p_contractCircuits floor)).*1) as Hnd by (by rewrite narrowed_keys).
  assert (∀ l, map_get a usable = Some l ↔ ∃ r, map_get a (nullish (p_contractCircuits floor) []) = Some r ∧
    l = narrow_rule G r ∧ usable_rule contracts (a, l) = true) as Hu.
  { intros l. unfold usable. rewrite (map_get_keep _ _ _ _ Hnd), narrowed_get.
    destruct (map_get a (nullish (p_contractCircuits floor) [])); naive_solver. }
  apply eq_true_iff_eq. rewrite !andb_true_iff, mem_true.
  assert (contract_listed usable.*1 a = true ↔ ∃ l, map_get a usable = Some l) as ->.
  { rewrite listed_iff. split.
    - intros [Hn|Ha]; [by destruct usable|]. destruct (map_get a usable) eqn:E; [eauto|]. by apply map_get_None in E.
    - intros [l Hl]. right. apply map_get_In in Hl. apply list_elem_of_fmap. by exists (a, l). }
  assert (∀ l, map_get a usable = Some l → circuit_sponsorable G (Some (as_rules usable)) a c = mem c l) as Hc.
  { intros l Hl. rewrite (rule_sponsorable _ _ _ _ (NamedCircuits l)); [done|]. cbn [nullish]. by rewrite as_rules_get, Hl. }
  split.
  - intros [[l Hl] Hs]. rewrite (Hc l Hl) in Hs. apply Hu in Hl as (r & Hr & -> & Hus).
    apply usable_listed in Hus; [|exists c; by apply mem_true].
    rewrite (narrow_ruled _ Hr), andb_true_iff, mem_true in Hs. tauto.
  - intros [[Hl Hp] Hg]. destruct (map_get a (nullish (p_contractCircuits floor) [])) as [r|] eqn:Hr.
    + assert (mem c (narrow_rule G r) = true) as Hm by (by rewrite (narrow_ruled _ Hr), Hp; apply mem_true).
      assert (map_get a usable = Some (narrow_rule G r)) as Hau.
      { apply Hu. exists r. split_and!; [done|done|]. apply usable_listed; [exists c; by apply mem_true|done]. }
      split; [eauto|]. by rewrite (Hc _ Hau).
    + exfalso. unfold platform_allows in Hp. rewrite (no_rule_sponsorable _ _ _ _ Hr) in Hp. by apply (Hflat c).
Qed.

(** With a flat list left, the rules and the list are narrowed one by one. *)
Lemma narrow_flat flat :
  (∀ x, x ∈ flat ↔ contract_listed (p_allowedCircuits floor) x = true ∧ x ∈ G) → flat ≠ [] →
  circuit_sponsorable flat ((λ _, as_rules (narrowed_rules G (p_contractCircuits floor))) <$> p_contractCircuits floor) a c =
  platform_allows && mem c G.
Proof.
  intros Hflat Hne. destruct (map_get a (nullish (p_contractCircuits floor) [])) as [r|] eqn:Hr.
  - rewrite <- (narrow_ruled _ Hr). rewrite (rule_sponsorable _ _ _ _ (NamedCircuits (narrow_rule G r))); [done|].
    destruct (p_contractCircuits floor) as [rs|]; [|done]. cbn [nullish fmap option_fmap option_map] in *.
    rewrite as_rules_get, narrowed_get. cbn [nullish]. by rewrite Hr.
  - unfold platform_allows. rewrite (no_rule_sponsorable (p_allowedCircuits floor) _ _ _ Hr), no_rule_sponsorable.
    + apply eq_true_iff_eq. rewrite andb_true_iff, mem_true, listed_iff, <- Hflat. naive_solver.
    + destruct (p_contractCircuits floor) as [rs|]; [|done]. cbn [nullish fmap option_fmap option_map] in *.
      rewrite as_rules_get, narrowed_get. cbn [nullish]. by rewrite Hr.
Qed.
End Narrow.

Lemma narrowCircuits_spec floor grant contracts0 contracts circuits rules a c :
  rules_ok floor → narrowCircuits floor grant contracts0 = Ret (contracts, circuits, rules) →
  contract_listed contracts a && circuit_sponsorable circuits rules a c =
  contract_listed contracts0 a && platform_allows floor a c && contract_listed (nullish grant []) c.
Proof.
  unfold narrowCircuits. intros Hok. destruct (nullish grant []) as [|g0 g]; [intros [= <- <- <-]; by rewrite andb_true_r|].
  assert (g0 :: g ≠ []) as HG by done. revert HG. generalize (g0 :: g). clear g0 g. intros G HG.
  pose proof (elem_of_flat floor G) as Hflat. revert Hflat. generalize (match p_allowedCircuits floor with [] => G | l => both l G end).
  intros flat Hflat. rewrite (listed_G G c HG). destruct flat as [|x flat].
  - assert (∀ x, ¬ (contract_listed (p_allowedCircuits floor) x = true ∧ x ∈ G)) as Hno.
    { intros x Hx. by apply Hflat, not_elem_of_nil in Hx. }
    pose proof (narrow_usable floor G a c contracts0 Hok Hno) as Hus. revert Hus. simpl.
    generalize (keep (usable_rule contracts0) (narrowed_rules G (p_contractCircuits floor))). intros [|u us]; [done|].
    intros Hus H. injection H as <- <- <-. by apply Hus.
  - intros [= <- <- <-]. rewrite <- andb_assoc. f_equal. by apply narrow_flat.
Qed.

(** ** The properties *)

Lemma effective_fields floor grant shared p :
  effectiveSponsorPolicy floor grant shared = Ret p →
  ∃ contracts0 contracts circuits rules,
    intersect (p_allowedContracts floor) (of_grant gp_allowedContracts grant) "allowedContracts" = Ret contracts0 ∧
    narrowCircuits floor (of_grant gp_allowedCircuits grant) contracts0 = Ret (contracts, circuits, rules) ∧
    p_allowedContracts p = and_more contracts (deployed_contracts grant) ∧
    p_allowedCircuits p = circuits ∧ p_contractCircuits p = rules ∧
    p_ownContracts p = unless_empty (deployed_contracts grant).
Proof.
  unfold effectiveSponsorPolicy. intros (contracts0 & H0 & ([[contracts circuits] rules] & H1 & H)%outcome_bind_ret)%outcome_bind_ret.
  injection H as <-. exists contracts0, contracts, circuits, rules. done.
Qed.

(** What the token lists of the policy in effect hold. *)
Definition token_sponsored (floor : SponsorPolicy) (grant : GrantPolicyInput) (shared : list string) (t : string) : Prop :=
  (t ∈ nullish (p_allowedTokenTypes floor) [] ∨ sharing floor = true ∧ HEX64_RE t = true ∧ t ∈ shared) ∧
    (keep non_empty (nullish (gp_allowedTokenTypes grant) []) = [] ∨ t ∈ nullish (gp_allowedTokenTypes grant) []) ∨
  is_true (p_allowContractMints floor) = true ∧ HEX64_RE t = true ∧ t ∈ nullish (gp_mintedTokenTypes grant) [].

Lemma HEX64_RE_non_empty t : HEX64_RE t = true → non_empty t = true.
Proof. by destruct t. Qed.

Lemma elem_of_listed floorTokens grantTokens t :
  t ∈ listed_types floorTokens grantTokens ↔ t ∈ floorTokens ∧ (grantTokens = [] ∨ t ∈ grantTokens).
Proof. unfold listed_types. destruct grantTokens; [naive_solver|]. rewrite elem_of_both. naive_solver. Qed.

Lemma elem_of_shared_types floor shared t :
  t ∈ shared_types floor shared ↔ sharing floor = true ∧ HEX64_RE t = true ∧ t ∈ shared.
Proof.
  unfold shared_types. destruct (sharing floor); [|split; [by intros ?%not_elem_of_nil|by intros [? _]]].
  rewrite elem_of_js_set, elem_of_keep. naive_solver.
Qed.

Lemma elem_of_floorTokenTypes floor l t :
  t ∈ floorTokenTypes floor l ↔ t ∈ nullish (p_allowedTokenTypes floor) [] ∨ t ∈ l.
Proof. apply elem_of_append_new. Qed.

Lemma elem_of_minted floor grant t :
  t ∈ minted_types floor (Some grant) ↔
  is_true (p_allowContractMints floor) = true ∧ HEX64_RE t = true ∧ t ∈ nullish (gp_mintedTokenTypes grant) [].
Proof.
  unfold minted_types. destruct (is_true _); [|split; [by intros ?%not_elem_of_nil|by intros [? _]]].
  rewrite elem_of_js_set, elem_of_keep. cbn. naive_solver.
Qed.

Lemma effective_tokens floor grant shared p :
  effectiveSponsorPolicy floor (Some grant) shared = Ret p →
  ∀ t, t ≠ EmptyString → t ∈ nullish (p_allowedTokenTypes p) [] ↔ token_sponsored floor grant shared t.
Proof.
  unfold effectiveSponsorPolicy. intros (contracts0 & _ & ([[contracts circuits] rules] & _ & H)%outcome_bind_ret)%outcome_bind_ret.
  injection H as <-. intros t Ht. cbn [p_allowedTokenTypes nullish].
  rewrite elem_of_append_new, elem_of_listed, elem_of_floorTokenTypes, elem_of_shared_types, elem_of_minted.
  unfold token_sponsored, of_grant. cbn [mbind option_bind]. rewrite elem_of_keep.
  assert (non_empty t = true) as Hne by (unfold non_empty, is_empty; by rewrite bool_decide_eq_false_2).
  naive_solver.
Qed.

(** A right the grant carries has to be given by both. *)
Definition rights (p : SponsorPolicy) : list bool :=
  is_true <$> [p_allowDeploy p; p_allowSwaps p; p_allowTransfers p; p_allowUnshieldedOffers p].
Definition grant_rights (grant : GrantPolicyInput) : list bool :=
  is_true <$> [gp_allowDeploy grant; gp_allowSwaps grant; gp_allowTransfers grant; gp_allowUnshieldedOffers grant].

Lemma is_true_both_allow f grant g : is_true (both_allow f (Some grant) g) = is_true f && is_true (g grant).
Proof. unfold both_allow, is_true. by repeat case_bool_decide. Qed.

(** A grant only narrows what the platform sponsors, and exactly so: apart
    from the contracts deployed under the grant, a call is sponsored if and only
    if the platform policy lets it through and the grant's lists name its
    contract and its circuit; a token type only if the platform lists or shares
    it and the grant's list, if it has one, names it, or if it was minted under
    the grant; and a right only if both give it. *)
Theorem grant_only_narrows floor grant shared p :
  rules_ok floor → p_ownContracts floor = None →
  effectiveSponsorPolicy floor (Some grant) shared = Ret p →
  (∀ a c, a ∉ nullish (gp_deployedContracts grant) [] →
     call_sponsorable p a c = call_sponsorable floor a c && grant_lists grant a c) ∧
  (∀ t, t ≠ EmptyString → t ∈ nullish (p_allowedTokenTypes p) [] ↔ token_sponsored floor grant shared t) ∧
  rights p = zip_with andb (rights floor) (grant_rights grant).
Proof.
  intros Hok Hown He. split_and!; [|by apply effective_tokens|].
  - intros a c Ha. destruct (effective_fields _ _ _ _ He) as (c0 & cs & ci & ru & H0 & H1 & Hc & Hci & Hru & Ho).
    assert (a ∉ deployed_contracts (Some grant)) as Hd by (rewrite elem_of_deployed; naive_solver).
    unfold call_sponsorable, grant_lists. rewrite Hc, Hci, Hru, Ho, Hown, own_unless_empty, and_more_listed by done.
    assert (mem a (deployed_contracts (Some grant)) = false) as -> by (apply not_true_iff_false; by rewrite mem_true).
    cbn [orb own_contract]. rewrite (narrowCircuits_spec _ _ _ _ _ _ _ _ Hok H1), (intersect_listed _ _ _ _ _ H0).
    unfold platform_allows, of_grant. cbn [mbind option_bind].
    destruct (contract_listed (p_allowedContracts floor) a), (circuit_sponsorable _ _ _ _),
      (contract_listed (nullish (gp_allowedContracts grant) []) a); done.
  - unfold effectiveSponsorPolicy in He. apply outcome_bind_ret in He as (c0 & _ & He).
    apply outcome_bind_ret in He as ([[cs ci] ru] & _ & He). injection He as <-. unfold rights, grant_rights. csimpl.
    by rewrite !is_true_both_allow.
Qed.

(** *** The policy file *)

Definition POLICY_FILE : string := "NIGHTGATE_SPONSOR_POLICY_FILE".

(** One call: the settings, the files and the time it finds. *)
Definition policy_call : Type := Settings * (string → FileView) * Z.

(** The calls that led to a cache. *)
Inductive served : list policy_call → option FileCache → Prop :=
| served_start : served [] None
| served_call hist cache c files now :
    served hist cache →
    served (hist ++ [(c, files, now)])%list (getGlobalSponsorPolicy c files now cache).2.

(** A call that read [path] and found it with [st], or as the policy [p]. *)
Definition saw (hist : list policy_call) (path : string) (st : Z * Z) : Prop :=
  ∃ c files now, (c, files, now) ∈ hist ∧ configString c POLICY_FILE = Some path ∧ fv_stat (files path) = Some st.
Definition loaded (hist : list policy_call) (path : string) (p : SponsorPolicy) : Prop :=
  ∃ c files now, (c, files, now) ∈ hist ∧ configString c POLICY_FILE = Some path ∧ readPolicyFile (files path) = Ret p.

Definition cache_ok (hist : list policy_call) (cache : option FileCache) : Prop :=
  ∀ f, cache = Some f →
    (∀ p, fc_policy f = Some p ∨ fc_lastGood f = Some p → loaded hist (fc_path f) p) ∧
    (saw hist (fc_path f) (fc_mtimeMs f, fc_size f) ∨ fc_size f = (-1)%Z).

Lemma loaded_more hist hist' path p : loaded hist path p → loaded (hist ++ hist')%list path p.
Proof. intros (c & files & now & H & H'). exists c, files, now. split; [set_solver|done]. Qed.

Lemma cache_ok_more hist hist' cache : cache_ok hist cache → cache_ok (hist ++ hist')%list cache.
Proof.
  intros H f Hf. destruct (H f Hf) as [Hl [(c & files & now & Hin & Hs)|Hs]]; (split; [by eauto using loaded_more|]).
  - left. exists c, files, now. split; [set_solver|done].
  - by right.
Qed.

Lemma last_good_loaded hist path cache p :
  cache_ok hist cache → last_good path cache = Some p → loaded hist path p.
Proof.
  unfold last_good. destruct cache as [f|]; [|done]. intros Hok. destruct (same_path path f) eqn:E; [|done].
  apply bool_decide_eq_true_1 in E as <-. intros Hg. apply (Hok f eq_refl). by right.
Qed.

Lemma good_or_refuse_cases lastGood path why o :
  good_or_refuse lastGood path why = o →
  (∃ p, lastGood = Some p ∧ o = Ret p) ∨ ∃ e, o = Throw e ∧ is_unavailable e = true.
Proof. destruct lastGood; intros <-; [left; eauto|right; eauto]. Qed.

Lemma unchanged_true path stat cache :
  unchanged path stat cache = true →
  ∃ f, cache = Some f ∧ fc_path f = path ∧ stat = Some (fc_mtimeMs f, fc_size f).
Proof.
  unfold unchanged, same_path. destruct cache as [f|]; [|done]. destruct stat as [[m s]|]; [|done].
  intros [[H1%bool_decide_eq_true_1 H2%bool_decide_eq_true_1]%andb_true_iff H3%bool_decide_eq_true_1]%andb_true_iff.
  exists f. by subst.
Qed.

(** One call: where its answer comes from, and that it keeps the cache sound. *)
Lemma reload_sound c files now hist cache path o cache' :
  cache_ok hist cache → configString c POLICY_FILE = Some path →
  reload files now path cache = (o, cache') →
  cache_ok (hist ++ [(c, files, now)])%list cache' ∧
  match o with Ret p => loaded (hist ++ [(c, files, now)])%list path p | Throw e => is_unavailable e = true end.
Proof.
  intros Hok Hp Hr. pose proof (cache_ok_more _ [(c, files, now)] _ Hok) as Hok'. unfold reload in Hr.
  assert (∀ m s f, f = bad_cache path m s (last_good path cache) cache →
    (fv_stat (files path) = Some (m, s) ∨ s = (-1)%Z) → cache_ok (hist ++ [(c, files, now)])%list (Some f)) as Hbad.
  { intros m s f -> Hst f' [= <-]. cbn [bad_cache fc_policy fc_lastGood fc_path fc_mtimeMs fc_size]. split.
    - intros p [|Hg]; [done|]. by apply loaded_more, (last_good_loaded _ _ cache).
    - destruct Hst as [Hst| ->]; [left|by right]. exists c, files, now. split; [set_solver|done]. }
  assert (∀ why o, good_or_refuse (last_good path cache) path why = o →
    match o with Ret p => loaded (hist ++ [(c, files, now)])%list path p | Throw e => is_unavailable e = true end) as Hgood.
  { intros why o' [(p & Hg & ->)|(e & -> & He)]%good_or_refuse_cases; [|done].
    by apply loaded_more, (last_good_loaded _ _ cache). }
  destruct (fv_stat (files path)) as [[m s]|] eqn:Est.
  - destruct (readPolicyFile (files path)) as [p|e] eqn:Er; simplify_eq.
    + assert (loaded (hist ++ [(c, files, now)])%list path p) as Hl by (exists c, files, now; split; [set_solver|done]).
      split; [|done]. intros f [= <-]. cbn. split; [intros p' [|]; by simplify_eq|].
      left. exists c, files, now. split; [set_solver|done].
    + split; [|by eapply Hgood]. eapply Hbad; [done|by left].
  - simplify_eq. split; [|by eapply Hgood]. case_match; [done|]. eapply Hbad; [done|by right].
Qed.

Lemma getGlobalSponsorPolicy_sound c files now hist cache :
  cache_ok hist cache →
  cache_ok (hist ++ [(c, files, now)])%list (getGlobalSponsorPolicy c files now cache).2 ∧
  ∀ path, configString c POLICY_FILE = Some path →
    match (getGlobalSponsorPolicy c files now cache).1 with
    | Ret p => loaded (hist ++ [(c, files, now)])%list path p
    | Throw e => is_unavailable e = true
    end.
Proof.
  intros Hok. pose proof (cache_ok_more _ [(c, files, now)] _ Hok) as Hok'. unfold getGlobalSponsorPolicy. fold POLICY_FILE.
  destruct (configString c POLICY_FILE) as [path|] eqn:Hp; [|done].
  destruct (unchanged path (fv_stat (files path)) cache) eqn:Eu.
  - apply unchanged_true in Eu as (f & -> & <- & _). cbn [mbind option_bind].
    destruct (fc_policy f) as [p|] eqn:Ef.
    + split; [done|]. intros path [= <-]. apply (Hok' f eq_refl). by left.
    + split; [done|]. intros path [= <-]. cbn [fst].
      destruct (good_or_refuse_cases (fc_lastGood f) (fc_path f) "is unusable" _ eq_refl) as [(p & Hg & ->)|(e & -> & He)]; [|done].
      apply (Hok' f eq_refl). by right.
  - destruct (reload files now path cache) as [o cache'] eqn:Er.
    destruct (reload_sound _ _ _ _ _ _ _ _ Hok Hp Er) as [H1 H2]. split; [done|]. intros path' [= <-]. done.
Qed.

Lemma served_ok hist cache : served hist cache → cache_ok hist cache.
Proof. induction 1; [done|]. by apply getGlobalSponsorPolicy_sound. Qed.

(** Sponsoring never falls back to a laxer policy: while a policy file is
    set, every answer is a policy that file held, valid, at this call or an
    earlier one, or a refusal because there was none yet; the settings the file
    replaces are never used. A new version of the file is in force at the first
    call that sees it. *)
Theorem policy_file_governs hist cache c files now path :
  served hist cache → configString c POLICY_FILE = Some path →
  match (getGlobalSponsorPolicy c files now cache).1 with
  | Ret p => loaded (hist ++ [(c, files, now)])%list path p
  | Throw e => is_unavailable e = true
  end ∧
  ∀ mtime size p, fv_stat (files path) = Some (mtime, size) → (0 ≤ size)%Z → ¬ saw hist path (mtime, size) →
    readPolicyFile (files path) = Ret p → (getGlobalSponsorPolicy c files now cache).1 = Ret p.
Proof.
  intros Hs Hp. apply served_ok in Hs. split; [by apply getGlobalSponsorPolicy_sound|].
  intros mtime size p Hst Hsize Hnew Hread. unfold getGlobalSponsorPolicy. fold POLICY_FILE. rewrite Hp, Hst.
  destruct (unchanged path (Some (mtime, size)) cache) eqn:Eu.
  - exfalso. apply unchanged_true in Eu as (f & -> & <- & [= -> ->]).
    destruct (Hs f eq_refl) as [_ [Hsaw|Hneg]]; [done|lia].
  - unfold reload. by rewrite Hst, Hread.
Qed.

(** ** Witnesses *)

Definition hex_a : string := "aaaaaaaaaaaaaaaaaaaaaaaaaaaaaaaaaaaaaaaaaaaaaaaaaaaaaaaaaaaaaaaa".
Definition hex_b : string := "bbbbbbbbbbbbbbbbbbbbbbbbbbbbbbbbbbbbbbbbbbbbbbbbbbbbbbbbbbbbbbbb".

Definition sample_file : json_text := Text (JObj [
  ("allowedContracts", JArr [JStr "c1"; JStr "c2"]); ("allowedCircuits", JArr [JStr "attest"; JStr "mint"]);
  ("contractCircuits", JObj [(hex_a, JStr "*"); (hex_b, JArr [JStr "swap"])]); ("allowDeploy", JBool true) ]).

Definition sample_floor : SponsorPolicy :=
  match parse_policy_file sample_file with Ret p => p | Throw _ => MkPolicy [] [] None None None None None None None None None None None None None end.

Definition sample_grant : GrantPolicyInput :=
  MkGrantPolicy (Some ["c1"; hex_b]) (Some ["attest"; "swap"]) (Some true) (Some ["mine"]) None None None None None None.

Definition sample_effective : SponsorPolicy :=
  match effectiveSponsorPolicy sample_floor (Some sample_grant) [] with Ret p => p | Throw _ => sample_floor end.

Lemma grant_only_narrows_witness :
  call_sponsorable sample_effective "c2" "attest" = false ∧ call_sponsorable sample_effective hex_b "swap" = true ∧
  (call_sponsorable sample_effective "c1" "attest" =
   call_sponsorable sample_floor "c1" "attest" && grant_lists sample_grant "c1" "attest").
Proof.
  split; [vm_compute; reflexivity|]. split; [vm_compute; reflexivity|].
  apply (grant_only_narrows sample_floor sample_grant [] sample_effective).
  - refine (bool_decide_eq_true_1 _ _). vm_compute. reflexivity.
  - reflexivity.
  - vm_compute. reflexivity.
  - refine (bool_decide_eq_true_1 _ _). vm_compute. reflexivity.
Defined.

Definition file_settings : Settings := MkSettings (λ _, []) (λ _, true) (λ _, Some "policy.json").
Definition good_file (path : string) : FileView := MkFile (Some (5%Z, 100%Z)) (Some sample_file).
Definition broken_file (path : string) : FileView := MkFile (Some (9%Z, 1%Z)) (Some Malformed).

Definition after_good : option FileCache := (getGlobalSponsorPolicy file_settings good_file 0%Z None).2.

Lemma policy_file_governs_witness :
  (getGlobalSponsorPolicy file_settings good_file 0%Z None).1 = Ret sample_floor ∧
  match (getGlobalSponsorPolicy file_settings broken_file 1%Z after_good).1 with
  | Ret p => loaded [(file_settings, good_file, 0%Z); (file_settings, broken_file, 1%Z)] "policy.json" p
  | Throw e => is_unavailable e = true
  end.
Proof.
  split.
  - apply (policy_file_governs [] None file_settings good_file 0 "policy.json") with (mtime := 5%Z) (size := 100%Z).
    + apply served_start.
    + reflexivity.
    + reflexivity.
    + lia.
    + intros (c & f & n & H & _). by apply not_elem_of_nil in H.
    + vm_compute. reflexivity.
  - apply (policy_file_governs [(file_settings, good_file, 0%Z)] after_good file_settings broken_file 1 "policy.json").
    + apply (served_call [] None file_settings good_file 0), served_start.
    + reflexivity.
Defined.

Example broken_keeps_last_good :
  (getGlobalSponsorPolicy file_settings broken_file 1%Z after_good).1 = Ret sample_floor ∧
  is_unavailable (match (getGlobalSponsorPolicy file_settings broken_file 1%Z None).1 with Throw e => e | _ => js_error "x" end) = true.
Proof. split; vm_compute; reflexivity. Qed.
