(* ===== verification/SponsorShape.v ===== *)
(** What a sponsor's worker checks of a transaction before it pays the fee
    (srv/midnight/worker/sponsor.ts): the shape of the transaction, its calls
    and deploys, and the shielded offers next to them.

    The transaction is a ledger object; what the code asks of the ledger by a
    method ([rawTokenType], [imbalances]) is an argument. *)
From Stdlib Require Import Ascii.
From S2P Require Import Prelude Json Numbers SponsorPolicy.

Set Warnings "-register-all".

Local Open Scope string_scope.

(** [VNum] is an integer number, [VFloat] another one by its text, [VBig] a
    bigint; [VBytes] a Uint8Array, by the text TextDecoder makes of it; an
    object carries the name of its constructor. Getters are fields. *)
Inductive value :=
| VUndef | VNull
| VBool (b : bool) | VNum (n : Z) | VFloat (repr : string) | VBig (n : Z) | VStr (s : string)
| VBytes (decoded : string)
| VArr (l : list value)
| VMap (l : list (value * value))
| VObj (ctor : string) (fields : list (string * value)).

(** [v === undefined || v === null] *)
Definition nullish_value (v : value) : bool := match v with VUndef | VNull => true | _ => false end.

Definition is_undefined (v : value) : bool := match v with VUndef => true | _ => false end.

(** [!v] *)
Definition falsy (v : value) : bool :=
  match v with
  | VUndef | VNull | VBool false | VNum 0 | VBig 0 => true
  | VStr s => is_empty s
  | VFloat r => bool_decide (r = "NaN")
  | _ => false
  end.

(** [v?.k] *)
Definition prop (k : string) (v : value) : value :=
  match v with
  | VObj _ fs => nullish (map_get k fs) VUndef
  | VArr l => if bool_decide (k = "length") then VNum (Z.of_nat (length l)) else VUndef
  | VMap l => if bool_decide (k = "size") then VNum (Z.of_nat (length l)) else VUndef
  | VStr s => if bool_decide (k = "length") then VNum (Z.of_nat (String.length s)) else VUndef
  | VBytes s => if bool_decide (k = "length") then VNum (Z.of_nat (String.length s)) else VUndef
  | _ => VUndef
  end.

(** [String(v)] *)
Fixpoint value_to_string (v : value) : string :=
  match v with
  | VUndef => "undefined" | VNull => "null"
  | VBool true => "true" | VBool false => "false"
  | VNum n | VBig n => pretty n
  | VFloat r => r
  | VStr s => s
  | VBytes s => s
  | VArr l => String.concat "," (List.map (λ x, if nullish_value x then EmptyString else value_to_string x) l)
  | VMap _ => "[object Map]"
  | VObj _ _ => "[object Object]"
  end.

(** [String(v ?? '')] *)
Definition text (v : value) : string := if nullish_value v then EmptyString else value_to_string v.

(** [bareHex(v)] *)
Definition bare (v : value) : string := lower (drop_0x_ci (trim (text v))).

(** [Array.isArray(v)], and its elements. *)
Definition array (v : value) : option (list value) := match v with VArr l => Some l | _ => None end.

Fixpoint indexed (i : Z) (l : list value) : list (value * value) :=
  match l with [] => [] | x :: l' => (VNum i, x) :: indexed (i + 1) l' end.

(** [typeof v?.entries === 'function'] with [Array.from(v.entries())]: maps and
    arrays have entries. *)
Definition entries (v : value) : option (list (value * value)) :=
  match v with VMap l => Some l | VArr l => Some (indexed 0 l) | _ => None end.

(** [Array.from(v.values())] *)
Definition values (v : value) : option (list value) :=
  match v with VMap l => Some l.*2 | VArr l => Some l | _ => None end.

Definition type_error : exn := Exn "TypeError" EmptyString "value is not iterable".

(** [for (const x of (v ?? []))] *)
Definition iterate (v : value) : outcome (list value) :=
  match v with
  | VUndef | VNull => Ret []
  | VArr l => Ret l
  | VMap l => Ret ((λ '(k, x), VArr [k; x]) <$> l)
  | VStr s => Ret ((λ a, VStr (String a EmptyString)) <$> String.list_ascii_of_string s)
  | VBytes s => Ret ((λ a, VNum (Z.of_nat (nat_of_ascii a))) <$> String.list_ascii_of_string s)
  | _ => Throw type_error
  end.

(** [sizeOf(v)] of srv/midnight/worker/sponsor.ts; [None] is null. *)
Definition number (v : value) : option Z := match v with VNum n => Some n | _ => None end.
Definition sizeOf (v : value) : option Z :=
  match v with
  | VArr l => Some (Z.of_nat (length l))
  | _ => match number (prop "size" v) with Some n => Some n | None => number (prop "length" v) end
  end.

Definition no_elements (v : value) : bool := bool_decide (sizeOf v = Some 0%Z).

(** [v?.constructor?.name || typeof v] *)
Definition kind_name (v : value) : string :=
  match v with
  | VUndef => "undefined" | VNull => "object"
  | VBool _ => "Boolean" | VNum _ | VFloat _ => "Number" | VBig _ => "BigInt" | VStr _ => "String"
  | VBytes _ => "Uint8Array" | VArr _ => "Array" | VMap _ => "Map"
  | VObj c _ => if is_empty c then "object" else c
  end.

(** [typeof v === 'bigint'] *)
Definition bigint (v : value) : option Z := match v with VBig n => Some n | _ => None end.

(** ** The shape of a sponsored transaction *)

Definition refusal (why : string) : exn := Exn "SponsorRefusalError" "SPONSOR_REFUSED" ("refusing to sponsor: " ++ why).
Definition refuse {A} (why : string) : outcome A := Throw (refusal why).

(** [for (const x of l) { s = f(x, s) }] with a throw ending the loop. *)
Fixpoint each {X S} (f : X → S → outcome S) (l : list X) (s : S) : outcome S :=
  match l with [] => Ret s | x :: l' => s' ← f x s; each f l' s' end.

(** *** Offers *)

(** One key of the loop: decided, or go on. *)
Definition key_non_empty (v : value) : option bool :=
  match v with
  | VNull => None
  | VArr l => match l with [] => None | _ => Some true end
  | _ => match number (prop "size" v) with
         | Some n => if bool_decide (0 < n)%Z then Some true else None
         | None => match number (prop "length" v) with
                   | Some n => if bool_decide (0 < n)%Z then Some true else None
                   | None => Some true
                   end
         end
  end.

Definition offer_keys : list string := [ "inputs"; "outputs"; "transient"; "spends"; "registrations"; "deltas" ].

Fixpoint any_key_non_empty (keys : list string) (sawKnownKey : bool) (offer : value) : bool :=
  match keys with
  | [] => negb sawKnownKey
  | key :: keys' =>
      match prop key offer with
      | VUndef => any_key_non_empty keys' sawKnownKey offer
      | v => match key_non_empty v with Some b => b | None => any_key_non_empty keys' true offer end
      end
  end.

Definition offerNonEmpty (offer : value) : bool :=
  if falsy offer then false else any_key_non_empty offer_keys false offer.

(** Token type to amount, in insertion order. *)
Definition MintBudget := list (string * Z).

Definition amount_of (k : string) (m : MintBudget) : Z := nullish (map_get k m) 0%Z.

(** One entry of a transcript's mints. *)
Definition add_mint (derive : string → string → string) (address : string) (entry : value * value) (budget : MintBudget) :
    MintBudget :=
  match bigint entry.2 with
  | Some amount =>
      if bool_decide (amount ≤ 0)%Z then budget
      else let type := bareHex (Some (JStr (derive (bare entry.1) address))) in
           if HEX64_RE type then map_set type (amount_of type budget + amount)%Z budget else budget
  | None => budget
  end.

Definition shielded_mints (transcript : value) : list (value * value) :=
  nullish (entries (prop "shieldedMints" (prop "effects" transcript))) [].

(** The mints of one action, on a contract that is sponsored. *)
Definition add_action_mints (contractSponsorable : string → bool) (derive : string → string → string) (action : value)
    (budget : MintBudget) : MintBudget :=
  let address := text (prop "address" action) in
  if is_empty address || negb (contractSponsorable address) then budget
  else foldl (λ b e, add_mint derive address e b) budget
         (shielded_mints (prop "guaranteedTranscript" action) ++ shielded_mints (prop "fallibleTranscript" action)).

Definition declaredMints (tx : value) (contractSponsorable : string → bool) (derive : string → string → string) :
    outcome MintBudget :=
  match values (prop "intents" tx) with
  | None => Ret []
  | Some intents =>
      each (λ intent budget,
        actions ← iterate (prop "actions" intent);
        mret (foldl (λ b a, add_action_mints contractSponsorable derive a b) budget actions)) intents []
  end.

Definition coin_lists : list string := [ "inputs"; "outputs"; "transients"; "transient" ].

Definition coins_of (offer : value) (coll : string) : list value := nullish (array (prop coll offer)) [].

(** [coin?.contractAddress], when there is one. *)
Definition coin_contract (coin : value) : option string :=
  let owner := prop "contractAddress" coin in
  if nullish_value owner then None else Some (value_to_string owner).

Section OfferTokens.
Context (key : string) (tokenTypes : list string) (nightType : option string) (contractSponsorable : string → bool).

(** One delta: inputs minus outputs of a token type. *)
Definition check_delta (entry : value * value) (mints : MintBudget) : outcome MintBudget :=
  let type := bare entry.1 in
  if bool_decide (nightType = Some type) && non_empty type then refuse (key ++ " moves NIGHT")
  else if mem type tokenTypes then Ret mints
  else match map_get type mints with
  | None => refuse (key ++ " moves token type " ++ slice0 16 type ++ "…, not in allowedTokenTypes")
  | Some minted =>
      match bigint entry.2 with
      | Some delta =>
          let taken := (- delta)%Z in
          if bool_decide (taken ≤ 0)%Z then
            refuse (key ++ " pays in token type " ++ slice0 16 type ++ "…, not in allowedTokenTypes (a mint in the same transaction covers only what it creates)")
          else if bool_decide (minted < taken)%Z then
            refuse (key ++ " creates " ++ pretty taken ++ " of token type " ++ slice0 16 type ++ "…, the transaction's calls mint " ++ pretty minted)
          else Ret (map_set type (minted - taken)%Z mints)
      | None =>
          refuse (key ++ " pays in token type " ++ slice0 16 type ++ "…, not in allowedTokenTypes (a mint in the same transaction covers only what it creates)")
      end
  end.

Definition check_coin (coin : value) (_ : unit) : outcome unit :=
  match coin_contract coin with
  | None => Ret tt
  | Some address =>
      if is_empty address || negb (contractSponsorable address) then
        refuse (key ++ " carries a coin owned by contract " ++ slice0 16 address ++ "…, which is not sponsorable here")
      else Ret tt
  end.

Definition has_contract_coin (offer : value) : bool :=
  existsb (λ coll, existsb (λ coin, bool_decide (is_Some (coin_contract coin))) (coins_of offer coll)) coin_lists.

Definition checkOfferTokens (offer : value) (mints : MintBudget) : outcome MintBudget :=
  match entries (prop "deltas" offer) with
  | None => refuse (key ++ " exposes no deltas (token types not inspectable)")
  | Some deltas =>
      if match deltas with [] => negb (has_contract_coin offer) | _ => false end then
        refuse (key ++ " nets to zero and carries no contract-owned coin (a shielded transfer alongside the call, not value the call moves)")
      else
        mints' ← each check_delta deltas mints;
        _ ← each check_coin (concat (coins_of offer <$> coin_lists)) tt;
        mret mints'
  end.
End OfferTokens.

(** *** Unshielded offers *)

Record UnshieldedMove := MkMove { mv_type : string; mv_amount : Z; mv_to : string }.

Definition utxoValue (v : value) (what : string) : outcome Z :=
  match v with
  | VBig n | VNum n => Ret n
  | VStr s => match parse_digits s with
              | Some n => Ret n
              | None => refuse (what ++ " carries a value that is not readable")
              end
  | _ => refuse (what ++ " carries a value that is not readable")
  end.

(** The first entry of the type; [Ret None] is undefined. *)
Fixpoint ledgerImbalance (balance : list (value * value)) (type : string) : outcome (option Z) :=
  match balance with
  | [] => Ret None
  | (t, v) :: balance' =>
      match prop "tag" t with
      | VStr "unshielded" =>
          if bool_decide (bare (prop "raw" t) = type)
          then Some <$> utxoValue v ("the ledger balance of " ++ slice0 16 type ++ "…")
          else ledgerImbalance balance' type
      | _ => ledgerImbalance balance' type
      end
  end.

(** Payouts per ["<raw token type>:<recipient address>"]. *)
Definition ClaimedPayouts := list (string * Z).

Definition payout_key (type to : string) : string := type ++ ":" ++ to.

Definition add_claim (entry : value * value) (budget : ClaimedPayouts) : ClaimedPayouts :=
  let '(tokenType, recipient) :=
    match entry.1 with
    | VArr (t :: r :: _) => (t, r) | VArr [t] => (t, VUndef) | _ => (VUndef, VUndef)
    end in
  match prop "tag" tokenType, entry.2 with
  | VStr "unshielded", VBig amount =>
      if bool_decide (amount ≤ 0)%Z then budget
      else let key := payout_key (bare (prop "raw" tokenType)) (bare (prop "address" recipient)) in
           map_set key (amount_of key budget + amount)%Z budget
  | _, _ => budget
  end.

Definition claimed_spends (transcript : value) : list (value * value) :=
  nullish (entries (prop "claimedUnshieldedSpends" (prop "effects" transcript))) [].

Definition claimedPayouts (actions : value) (contracts : list string) : ClaimedPayouts :=
  foldl (λ budget action,
    if mem (text (prop "address" action)) contracts then
      foldl (λ b e, add_claim e b) budget
        (claimed_spends (prop "guaranteedTranscript" action) ++ claimed_spends (prop "fallibleTranscript" action))
    else budget) [] (nullish (array actions) []).

(** The rules an offer is checked by: the context of one offer. *)
Record OfferContext := MkContext {
  oc_nightType : option string; oc_tokenTypes : list string;
  oc_listedContract : string → bool; oc_calledContracts : list string;
  oc_ledgerBalance : list (value * value);
  oc_addressFromKey : option (string → string); oc_sponsorInputKeys : list string }.

(** What the loops over inputs and outputs carry: the net per type, the owners'
    addresses, the payouts left, the moves and the number of payouts. *)
Record OfferState := MkOfferState {
  os_sums : list (string * Z); os_owners : list string; os_claimed : ClaimedPayouts;
  os_moves : list UnshieldedMove; os_payouts : nat }.

Section UnshieldedOffer.
Context (key : string) (ctx : OfferContext).

Definition allowedType (type : string) : bool :=
  bool_decide (oc_nightType ctx = Some type) || mem type (oc_tokenTypes ctx).

Definition check_input (input : value) (s : OfferState) : outcome OfferState :=
  let type := bare (prop "type" input) in
  if negb (allowedType type) then
    refuse (key ++ " spends token type " ++ slice0 16 type ++ "…, which is neither NIGHT nor in allowedUnshieldedTokenTypes")
  else let owner := bare (prop "owner" input) in
  if negb (HEX64_RE owner) then refuse (key ++ " has an input without a readable owner key")
  else if mem owner (oc_sponsorInputKeys ctx) then refuse (key ++ " spends a UTXO of the sponsor itself")
  else
    let owners := match oc_addressFromKey ctx with
                  | Some f => set_add (os_owners s) (bareHex (Some (JStr (f owner))))
                  | None => os_owners s
                  end in
    amount ← utxoValue (prop "value" input) (key ++ " input");
    mret (MkOfferState (map_set type (amount_of type (os_sums s) + amount)%Z (os_sums s)) owners (os_claimed s)
            (os_moves s) (os_payouts s)).

Definition check_output (output : value) (s : OfferState) : outcome OfferState :=
  let type := bare (prop "type" output) in
  if negb (allowedType type) then
    refuse (key ++ " creates token type " ++ slice0 16 type ++ "…, which is neither NIGHT nor in allowedUnshieldedTokenTypes")
  else let to := bare (prop "owner" output) in
  if negb (HEX64_RE to) then refuse (key ++ " has an output without a readable owner")
  else
    amount ← utxoValue (prop "value" output) (key ++ " output");
    let left := amount_of (payout_key type to) (os_claimed s) in
    if bool_decide (amount ≤ left)%Z then
      mret (MkOfferState (if map_has type (os_sums s) then os_sums s else map_set type 0%Z (os_sums s)) (os_owners s)
              (map_set (payout_key type to) (left - amount)%Z (os_claimed s)) (os_moves s) (S (os_payouts s)))
    else
      let sums := map_set type (amount_of type (os_sums s) - amount)%Z (os_sums s) in
      if mem to (oc_calledContracts ctx) || oc_listedContract ctx to then
        mret (MkOfferState sums (os_owners s) (os_claimed s) (os_moves s ++ [MkMove type amount to])%list (os_payouts s))
      else if mem to (os_owners s) then
        mret (MkOfferState sums (os_owners s) (os_claimed s) (os_moves s) (os_payouts s))
      else refuse (key ++ " pays " ++ slice0 16 to ++ "…, which is neither a sponsorable contract nor an owner of its inputs, and no called contract claims that payout").

Definition check_sum (entry : string * Z) (moves : list UnshieldedMove) : outcome (list UnshieldedMove) :=
  let '(type, net) := entry in
  if bool_decide (net < 0)%Z then
    refuse (key ++ " creates more of token type " ++ slice0 16 type ++ "… than it spends, beyond what the called contracts claim")
  else
    imbalance ← ledgerImbalance (oc_ledgerBalance ctx) type;
    match imbalance with
    | None => refuse ("the ledger reports no balance of token type " ++ slice0 16 type ++ "… for " ++ key)
    | Some i =>
        if bool_decide (i ≠ 0)%Z then
          refuse (key ++ " does not balance in token type " ++ slice0 16 type ++ "…: the offer and the calls' intake leave a " ++
                  (if bool_decide (0 < i)%Z then "surplus" else "deficit") ++ " of " ++ pretty (Z.abs i))
        else if bool_decide (net = 0)%Z then Ret moves
        else match oc_calledContracts ctx with
             | [contract] => Ret (moves ++ [MkMove type net contract])%list
             | l => refuse (key ++ " pays " ++ pretty net ++ " of token type " ++ slice0 16 type ++ "… into " ++
                            pretty (length l) ++ " called contracts; one contract per intent takes value")
             end
    end.

(** The moves into contracts, and the payouts still claimed. *)
Definition checkUnshieldedOffer (offer : value) (claimed : ClaimedPayouts) :
    outcome (list UnshieldedMove * ClaimedPayouts) :=
  match array (prop "inputs" offer), array (prop "outputs" offer) with
  | Some inputs, Some outputs =>
      s ← each check_input inputs (MkOfferState [] [] claimed [] 0);
      s ← each check_output outputs s;
      if bool_decide (inputs = []) && bool_decide (os_payouts s = 0) then
        refuse (key ++ " spends nothing and pays out nothing a called contract claims")
      else
        moves ← each check_sum (os_sums s) (os_moves s);
        mret (moves, os_claimed s)
  | _, _ => refuse (key ++ " is not inspectable (no inputs/outputs)")
  end.
End UnshieldedOffer.

(** *** The whole transaction *)

Definition DEPLOY_ENTRY_POINT : string := "<deploy>".

Record Call := MkCall { call_address : string; call_entryPoint : string }.

Record ShapeOptions := MkShapeOptions {
  so_allowedContracts : list string; so_allowedCircuits : list string;
  so_allowDeploy : option bool; so_maxDeploys : option Z; so_ownContracts : option (list string);
  so_allowedTokenTypes : option (list string); so_nightTokenType : option string;
  so_contractCircuits : option ContractCircuitRules;
  so_allowContractMints : option bool; so_deriveTokenType : option (string → string → string);
  so_allowUnshieldedOffers : option bool; so_allowedUnshieldedTokenTypes : option (list string);
  so_addressFromKey : option (string → string); so_sponsorInputKeys : option (list string) }.

Section Shape.
Context (maxTxBytes maxDeployBytes byteLength : Z) (opt : ShapeOptions).
(** [tx.imbalances(segment)] with its entries; [None]: not a function, or it throws. *)
Context (imbalances : Z → option (list (value * value))).

Definition bare_list (l : option (list string)) : list string := (λ s, bareHex (Some (JStr s))) <$> nullish l [].

(** [options.nightTokenType ? bareHex(options.nightTokenType) : undefined] *)
Definition night_type (o : option string) : option string :=
  t ← o; if is_empty t then None else Some (bareHex (Some (JStr t))).

Definition contractSponsorable (address : string) : bool :=
  contract_listed (so_allowedContracts opt) address || own_contract (so_ownContracts opt) address.

(** Named in a list; an empty list names nothing here. *)
Definition listedContract (address : string) : bool :=
  mem address (so_allowedContracts opt) || own_contract (so_ownContracts opt) address.

Definition maxDeploysPerTx : Z :=
  match so_maxDeploys opt with Some n => if bool_decide (0 ≤ n)%Z then n else 1%Z | None => 1%Z end.

Definition entry_name (action : value) : string :=
  match prop "entryPoint" action with VStr s | VBytes s => s | _ => EmptyString end.

(** An action without an entry point: a deploy, when it is sponsored. *)
Definition check_deploy (action : value) (deployCount : Z) : outcome (Call * Z) :=
  let kind := kind_name action in
  if bool_decide (kind = "MaintenanceUpdate") || negb (is_undefined (prop "updates" action)) then
    refuse "transaction carries a contract maintenance update (never sponsorable)"
  else
    let isDeploy := bool_decide (kind = "ContractDeploy") ||
      negb (is_undefined (prop "initialState" action)) && negb (is_undefined (prop "address" action)) in
    if isDeploy && is_true (so_allowDeploy opt) then
      let address := text (prop "address" action) in
      if is_empty address then refuse "deploy action carries no contract address"
      else if bool_decide (maxDeploysPerTx < deployCount + 1)%Z then
        refuse ("transaction carries " ++ pretty (deployCount + 1)%Z ++ "+ contract deploys; at most " ++
                pretty maxDeploysPerTx ++ " per sponsored transaction")
      else if bool_decide (maxDeployBytes < byteLength)%Z then
        refuse ("deploy transaction is " ++ pretty byteLength ++ "B, over the " ++ pretty maxDeployBytes ++
                "B deploy budget (NIGHTGATE_SPONSOR_MAX_DEPLOY_BYTES)")
      else Ret (MkCall address DEPLOY_ENTRY_POINT, (deployCount + 1)%Z)
    else refuse ("transaction carries a non-call action (" ++ kind ++ ")" ++
                 (if isDeploy then "; deploys need allowDeploy on the grant and NIGHTGATE_SPONSOR_ALLOW_DEPLOY on the server"
                  else EmptyString)).

Definition check_call (action : value) (name : string) : outcome Call :=
  let address := text (prop "address" action) in
  if negb (contract_listed (so_allowedContracts opt) address) then
    refuse ("contract " ++ slice0 16 address ++ " is not in the allow-list")
  else if negb (own_contract (so_ownContracts opt) address) &&
          negb (circuit_sponsorable (so_allowedCircuits opt) (so_contractCircuits opt) address name) then
    refuse ("circuit '" ++ name ++ "' is not sponsorable on contract " ++ slice0 16 address)
  else Ret (MkCall address name).

(** The loop over the actions of an intent: the calls, the contracts the intent
    calls, and the deploys counted so far. *)
Record ActionState := MkActionState { as_calls : list Call; as_called : list string; as_deploys : Z }.

Definition check_action (action : value) (s : ActionState) : outcome ActionState :=
  let name := entry_name action in
  if is_empty name then
    r ← check_deploy action (as_deploys s);
    mret (MkActionState (as_calls s ++ [r.1])%list (as_called s) r.2)
  else
    call ← check_call action name;
    mret (MkActionState (as_calls s ++ [call])%list (set_add (as_called s) (call_address call)) (as_deploys s)).

Definition unshielded_keys : list string := [ "guaranteedUnshieldedOffer"; "fallibleUnshieldedOffer" ].

(** [key === 'guaranteedUnshieldedOffer' ? 0 : Number(segmentId)]; [None] is NaN. *)
Definition segment_of (key : string) (segmentId : value) : option Z :=
  if bool_decide (key = "guaranteedUnshieldedOffer") then Some 0%Z
  else match segmentId with VNum n | VBig n => Some n | VStr s => parse_digits s | _ => None end.

(** The moves collected and the claims left. *)
Definition check_unshielded (intent segmentId : value) (called : list string) (key : string)
    (s : list UnshieldedMove * ClaimedPayouts) : outcome (list UnshieldedMove * ClaimedPayouts) :=
  match segment_of key segmentId ≫= imbalances with
  | None => refuse ("the balance of segment " ++ value_to_string segmentId ++ " is not readable")
  | Some balance =>
      r ← checkUnshieldedOffer key
            (MkContext (night_type (so_nightTokenType opt)) (bare_list (so_allowedUnshieldedTokenTypes opt)) listedContract
               called balance (so_addressFromKey opt) (nullish (so_sponsorInputKeys opt) []))
            (prop key intent) s.2;
      mret (s.1 ++ r.1, r.2)%list
  end.

(** What the check of the whole transaction carries from intent to intent. *)
Record ShapeState := MkShapeState { ss_calls : list Call; ss_deploys : Z; ss_moves : list UnshieldedMove }.

Definition check_intent (entry : value * value) (s : ShapeState) : outcome ShapeState :=
  let '(segmentId, intent) := entry in
  if offerNonEmpty (prop "dustActions" intent) then
    refuse "transaction carries dustActions alongside its contract calls"
  else
    let keys := keep (λ key, offerNonEmpty (prop key intent)) unshielded_keys in
    match keys with
    | key :: _ =>
        if is_true (so_allowUnshieldedOffers opt) then Ret tt
        else refuse ("transaction carries " ++ key ++ " alongside its contract calls; moving unshielded tokens needs allowUnshieldedOffers on the grant and NIGHTGATE_SPONSOR_ALLOW_UNSHIELDED_OFFERS on the server")
    | [] => Ret tt
    end ≫= λ _,
    actions ← iterate (prop "actions" intent);
    a ← each check_action actions (MkActionState (ss_calls s) [] (ss_deploys s));
    match keys with
    | key :: _ =>
        if bool_decide (as_called a = []) then refuse (key ++ " sits in an intent without a contract call") else Ret tt
    | [] => Ret tt
    end ≫= λ _,
    r ← each (check_unshielded intent segmentId (as_called a)) keys
          (ss_moves s, claimedPayouts (prop "actions" intent) (as_called a));
    mret (MkShapeState (as_calls a) (as_deploys a) r.1).

Definition shielded_keys : list string := [ "guaranteedOffer"; "fallibleOffer"; "guaranteedCoins"; "fallibleCoins" ].

(** [!('inputs' in offer)] *)
Definition has_inputs (offer : value) : bool :=
  match offer with VObj _ fs => map_has "inputs" fs | _ => false end.

(** A map of segments to offers, else one offer. *)
Definition offer_parts (offer : value) : list value :=
  match entries offer with
  | Some l => if has_inputs offer then [offer] else l.*2
  | None => [offer]
  end.

Definition tokenTypes : list string := bare_list (so_allowedTokenTypes opt).

Definition check_part (key : string) (part : value) (mints : MintBudget) : outcome MintBudget :=
  if negb (offerNonEmpty part) then Ret mints
  else if match tokenTypes, mints with [], [] => true | _, _ => false end then
    refuse ("transaction carries a " ++ key ++ " (shielded value transfer)")
  else checkOfferTokens key tokenTypes (night_type (so_nightTokenType opt)) contractSponsorable part mints.

Definition check_shielded (tx : value) (key : string) (mints : MintBudget) : outcome MintBudget :=
  let offer := prop key tx in
  if nullish_value offer then Ret mints else each (check_part key) (offer_parts offer) mints.

(** The mints that pay for offers of types that are not listed. *)
Definition mint_budget (tx : value) : outcome MintBudget :=
  match so_deriveTokenType opt with
  | Some derive => if is_true (so_allowContractMints opt) then declaredMints tx contractSponsorable derive else Ret []
  | None => Ret []
  end.

(** The calls, and the unshielded moves the code collects on the side. *)
Definition checkSponsorableShape (tx : value) : outcome (list Call * list UnshieldedMove) :=
  if bool_decide (maxTxBytes < byteLength)%Z then
    refuse ("transaction is " ++ pretty byteLength ++ "B, over the " ++ pretty maxTxBytes ++
            "B budget (NIGHTGATE_SPONSOR_MAX_TX_BYTES)")
  else match entries (prop "intents" tx) with
  | None => refuse "transaction structure is not inspectable (no intents)"
  | Some intents =>
      mints ← mint_budget tx;
      _ ← each (check_shielded tx) shielded_keys mints;
      s ← each check_intent intents (MkShapeState [] 0 []);
      match ss_calls s with
      | [] => refuse "the transaction carries no contract call"
      | calls => Ret (calls, ss_moves s)
      end
  end.
End Shape.
