(* ===== verification/SponsorFacts.v ===== *)
(** What the sponsor's checks guarantee of a transaction that passes them. *)
From Stdlib Require Import Ascii.
From S2P Require Import Prelude Json Numbers SponsorPolicy SponsorShape.

Set Warnings "-register-all".

Local Open Scope string_scope.

(** *** Loops *)

(** What holds before a loop and is kept by each turn holds after it. *)
Lemma each_inv {X S} (f : X → S → outcome S) (I : list X → S → Prop) l s s' :
  I [] s → (∀ seen x s1 s2, x ∈ l → I seen s1 → f x s1 = Ret s2 → I (seen ++ [x])%list s2) →
  each f l s = Ret s' → I l s'.
Proof.
  intros H0 Hstep. enough (∀ seen rest s1, (∀ x, x ∈ rest → x ∈ l) → I seen s1 → each f rest s1 = Ret s' → I (seen ++ rest)%list s') as H.
  { intros He. by apply (H [] l s). }
  intros seen rest. revert seen. induction rest as [|x rest IH]; intros seen s1 Hin Hi He.
  - injection He as <-. by rewrite app_nil_r.
  - cbn [each] in He. apply outcome_bind_ret in He as (s2 & Hx & He).
    specialize (IH (seen ++ [x])%list s2). rewrite <- app_assoc in IH. apply IH; [set_solver| |done].
    eapply Hstep; [apply Hin, list_elem_of_here|done|done].
Qed.

(** The sum of [f] over the elements that satisfy [p]. *)
Definition sum_where {X} (p : X → bool) (f : X → Z) (l : list X) : Z :=
  foldr (λ x acc, (if p x then f x else 0) + acc)%Z 0%Z l.

Lemma sum_where_app {X} p f (l1 l2 : list X) : sum_where p f (l1 ++ l2)%list = (sum_where p f l1 + sum_where p f l2)%Z.
Proof. induction l1 as [|x l1 IH]; [done|]. cbn [app sum_where foldr] in *. unfold sum_where in *. lia. Qed.

Lemma sum_where_one {X} p f (x : X) : sum_where p f [x] = (if p x then f x else 0)%Z.
Proof. unfold sum_where. simpl. lia. Qed.

Lemma amount_set k k' v m : amount_of k (map_set k' v m) = if decide (k = k') then v else amount_of k m.
Proof.
  unfold amount_of. destruct (decide (k = k')) as [->|Hne]; [by rewrite map_get_set_eq|].
  by rewrite map_get_set_ne by done.
Qed.

#[export] Hint Rewrite @sum_where_app @sum_where_one amount_set : ng.

(** *** Shielded offers *)

Section Offers.
Context (key : string) (types : list string) (nightType : option string) (sponsorable : string → bool).

(** What the deltas create of a type: outputs minus inputs. *)
Definition created (t : string) (deltas : list (value * value)) : Z :=
  sum_where (λ d, bool_decide (bare d.1 = t)) (λ d, match d.2 with VBig n => - n | _ => 0 end)%Z deltas.

(** A delta that may ride along: of a listed type, or a pure creation; never NIGHT. *)
Definition delta_ok (d : value * value) : Prop :=
  (nightType = Some (bare d.1) → bare d.1 = EmptyString) ∧
  (bare d.1 ∈ types ∨ ∃ n, d.2 = VBig n ∧ (n < 0)%Z).

Lemma check_delta_spec d mints mints' :
  check_delta key types nightType d mints = Ret mints' →
  delta_ok d ∧ ∀ t, t ∉ types →
    amount_of t mints' = (amount_of t mints - created t [d])%Z ∧ (0 ≤ amount_of t mints → 0 ≤ amount_of t mints')%Z.
Proof.
  unfold check_delta, delta_ok, created. intros H.
  destruct (bool_decide (nightType = Some (bare d.1)) && non_empty (bare d.1)) eqn:En; [done|].
  assert (nightType = Some (bare d.1) → bare d.1 = EmptyString) as Hn.
  { intros Hn. rewrite bool_decide_eq_true_2 in En by done. unfold non_empty, is_empty in En. simpl in En.
    by apply negb_false_iff, bool_decide_eq_true_1 in En. }
  destruct (mem (bare d.1) types) eqn:Em.
  - injection H as <-. apply mem_true in Em. split; [tauto|]. intros t Ht. rewrite sum_where_one.
    rewrite bool_decide_eq_false_2 by congruence. lia.
  - destruct (map_get (bare d.1) mints) as [minted|] eqn:Eg; [|done]. destruct (bigint d.2) as [delta|] eqn:Eb; [|done].
    assert (d.2 = VBig delta) as Hd by (destruct d.2; naive_solver).
    case_bool_decide as H1; [done|]. case_bool_decide as H2; [done|]. injection H as <-.
    split; [split; [done|right; exists delta; split; [done|lia]]|]. intros t Ht.
    rewrite sum_where_one, amount_set, Hd. destruct (decide (t = bare d.1)) as [->|Hne].
    + rewrite bool_decide_eq_true_2 by done. unfold amount_of. rewrite Eg. simpl. lia.
    + rewrite bool_decide_eq_false_2 by done. lia.
Qed.

(** A checked offer: its deltas, and the coins it may carry. *)
Definition deltas_of (offer : value) : list (value * value) := nullish (entries (prop "deltas" offer)) [].
Definition offer_ok (offer : value) : Prop :=
  is_Some (entries (prop "deltas" offer)) ∧ Forall delta_ok (deltas_of offer) ∧
  ∀ coll coin address, coll ∈ coin_lists → coin ∈ coins_of offer coll → coin_contract coin = Some address →
    sponsorable address = true.

Lemma checkOfferTokens_spec offer mints mints' :
  checkOfferTokens key types nightType sponsorable offer mints = Ret mints' →
  offer_ok offer ∧ ∀ t, t ∉ types →
    amount_of t mints' = (amount_of t mints - created t (deltas_of offer))%Z ∧
    (0 ≤ amount_of t mints → 0 ≤ amount_of t mints')%Z.
Proof.
  unfold checkOfferTokens, offer_ok, deltas_of. destruct (entries (prop "deltas" offer)) as [deltas|]; [|done].
  intros H. case_match; [done|]. apply outcome_bind_ret in H as (m1 & H1 & H).
  apply outcome_bind_ret in H as ([] & H2 & H). injection H as <-. cbn [nullish].
  assert (Forall delta_ok deltas ∧ ∀ t, t ∉ types →
    amount_of t m1 = (amount_of t mints - created t deltas)%Z ∧ (0 ≤ amount_of t mints → 0 ≤ amount_of t m1)%Z) as [Hd Ha].
  { revert H1. apply (each_inv _ (λ ds m, Forall delta_ok ds ∧ ∀ t, t ∉ types →
      amount_of t m = (amount_of t mints - created t ds)%Z ∧ (0 ≤ amount_of t mints → 0 ≤ amount_of t m)%Z)).
    - split; [constructor|]. intros t _. unfold created. simpl. lia.
    - intros seen d s1 s2 _ [Hf Hs] Hd. apply check_delta_spec in Hd as [Hok Hd].
      split; [apply Forall_app; by auto|]. intros t Ht. specialize (Hs t Ht). specialize (Hd t Ht).
      unfold created in *. rewrite sum_where_app. lia. }
  split; [|done]. split_and!; [by eexists|done|].
  assert (∀ coin, coin ∈ concat (coins_of offer <$> coin_lists) →
    ∀ a, coin_contract coin = Some a → sponsorable a = true) as Hcoins.
  { revert H2. apply (each_inv _ (λ cs (_ : unit), ∀ coin, coin ∈ cs → ∀ a, coin_contract coin = Some a → sponsorable a = true)).
    - intros coin Hc. by apply not_elem_of_nil in Hc.
    - intros seen coin [] [] _ IH Hc c' [Hin| ->%list_elem_of_singleton]%elem_of_app; [by apply IH|].
      intros a Hco. unfold check_coin in Hc. rewrite Hco in Hc. destruct (is_empty a); [done|]. by destruct (sponsorable a). }
  intros coll coin a Hcoll Hcoin. apply Hcoins. apply list_elem_of_In, in_concat. exists (coins_of offer coll).
  split; apply list_elem_of_In; [by apply list_elem_of_fmap_2|done].
Qed.
End Offers.

(** *** The whole transaction *)

Section Whole.
Context (maxTxBytes maxDeployBytes byteLength : Z) (opt : ShapeOptions).
Context (imbalances : Z → option (list (value * value))).

(** The shielded offers that are inspected, in order. *)
Definition parts_at (tx : value) (key : string) : list value :=
  if nullish_value (prop key tx) then [] else keep offerNonEmpty (offer_parts (prop key tx)).
Definition inspected (tx : value) (keys : list string) : list value := concat (parts_at tx <$> keys).

Definition all_deltas (parts : list value) : list (value * value) := concat (deltas_of <$> parts).

Definition sponsor_offer_ok : value → Prop :=
  offer_ok (tokenTypes opt) (night_type (so_nightTokenType opt)) (contractSponsorable opt).

(** [m1] is [m0] less what [parts] create, and nothing overdrawn. *)
Definition spends (parts : list value) (m0 m1 : MintBudget) : Prop :=
  Forall sponsor_offer_ok parts ∧ ∀ t, t ∉ tokenTypes opt →
    amount_of t m1 = (amount_of t m0 - created t (all_deltas parts))%Z ∧ (0 ≤ amount_of t m0 → 0 ≤ amount_of t m1)%Z.

Lemma spends_nil m : spends [] m m.
Proof. split; [constructor|]. intros t _. unfold created, all_deltas. simpl. lia. Qed.

Lemma spends_app parts parts' m0 m1 m2 : spends parts m0 m1 → spends parts' m1 m2 → spends (parts ++ parts')%list m0 m2.
Proof.
  intros [F1 S1] [F2 S2]. split; [by apply Forall_app|]. intros t Ht. specialize (S1 t Ht). specialize (S2 t Ht).
  unfold created, all_deltas in *. rewrite fmap_app, concat_app, sum_where_app. lia.
Qed.

Lemma check_part_spends key part m m' :
  check_part opt key part m = Ret m' → spends (keep offerNonEmpty [part]) m m'.
Proof.
  unfold check_part, keep. intros H. rewrite filter_cons, filter_nil. destruct (offerNonEmpty part) eqn:En; cbn [negb] in H.
  - rewrite decide_True by done. case_match; [done|].
    apply checkOfferTokens_spec in H as [Hok H]. split; [by constructor|]. intros t Ht.
    unfold all_deltas. simpl. rewrite app_nil_r. by apply H.
  - rewrite decide_False by done. injection H as <-. apply spends_nil.
Qed.

Lemma check_shielded_spends tx keys m m' :
  each (check_shielded opt tx) keys m = Ret m' → spends (inspected tx keys) m m'.
Proof.
  apply (each_inv _ (λ ks m', spends (inspected tx ks) m m')); [apply spends_nil|].
  intros seen key s1 s2 _ Hs Hc. unfold inspected. rewrite fmap_app, concat_app. cbn [fmap list_fmap concat]. rewrite app_nil_r.
  eapply spends_app; [exact Hs|]. unfold parts_at. unfold check_shielded in Hc.
  destruct (nullish_value (prop key tx)); [injection Hc as <-; apply spends_nil|].
  revert Hc. apply (each_inv _ (λ ps m', spends (keep offerNonEmpty ps) s1 m')); [apply spends_nil|].
  intros seen' part s3 s4 _ Hs' Hp. unfold keep. rewrite filter_app. eapply spends_app; [exact Hs'|].
  by eapply check_part_spends.
Qed.

(** *** Actions *)

Definition is_deploy (action : value) : bool := is_empty (entry_name action).

Definition action_call (action : value) : Call :=
  MkCall (text (prop "address" action)) (if is_deploy action then DEPLOY_ENTRY_POINT else entry_name action).

(** An action the sponsor pays for. *)
Definition action_ok (action : value) : Prop :=
  if is_deploy action then
    is_true (so_allowDeploy opt) = true ∧ is_undefined (prop "updates" action) = true ∧
    kind_name action ≠ "MaintenanceUpdate" ∧ text (prop "address" action) ≠ EmptyString ∧ (byteLength ≤ maxDeployBytes)%Z
  else
    contract_listed (so_allowedContracts opt) (text (prop "address" action)) = true ∧
    (own_contract (so_ownContracts opt) (text (prop "address" action)) = true ∨
     circuit_sponsorable (so_allowedCircuits opt) (so_contractCircuits opt) (text (prop "address" action)) (entry_name action) = true).

Definition deploys (actions : list value) : Z := sum_where is_deploy (λ _, 1%Z) actions.

(** The calls and deploys of [actions] were added to those before. *)
Definition acted (actions : list value) (calls : list Call) (n : Z) (calls' : list Call) (n' : Z) : Prop :=
  calls' = (calls ++ (action_call <$> actions))%list ∧ n' = (n + deploys actions)%Z ∧ Forall action_ok actions ∧
  (n ≤ maxDeploysPerTx opt → n' ≤ maxDeploysPerTx opt)%Z.

Lemma acted_nil calls n : acted [] calls n calls n.
Proof. unfold acted, deploys. simpl. rewrite app_nil_r. split_and!; [done|lia|constructor|lia]. Qed.

Lemma acted_app l l' c n c' n' c'' n'' : acted l c n c' n' → acted l' c' n' c'' n'' → acted (l ++ l')%list c n c'' n''.
Proof.
  intros (-> & -> & F1 & D1) (-> & -> & F2 & D2). unfold acted, deploys in *. rewrite fmap_app, app_assoc, sum_where_app.
  split_and!; [done|lia|by apply Forall_app|lia].
Qed.

Lemma check_deploy_spec action n r :
  is_deploy action = true → check_deploy maxDeployBytes byteLength opt action n = Ret r →
  action_ok action ∧ r = (action_call action, (n + 1)%Z) ∧ (n + 1 ≤ maxDeploysPerTx opt)%Z.
Proof.
  intros Hd H. unfold check_deploy in H. unfold action_ok, action_call. rewrite Hd.
  case_bool_decide as Hk; [done|]. cbn [orb] in H. destruct (is_undefined (prop "updates" action)) eqn:Eu; [|done].
  cbn [negb] in H. destruct (_ && is_true (so_allowDeploy opt)) eqn:Ed; [|done]. apply andb_true_iff in Ed as [_ Ed].
  destruct (is_empty (text (prop "address" action))) eqn:Ea; [done|]. case_bool_decide; [done|]. case_bool_decide; [done|].
  injection H as <-. apply bool_decide_eq_false_1 in Ea. split_and!; try done; lia.
Qed.

Lemma check_action_spec action s s' :
  check_action maxDeployBytes byteLength opt action s = Ret s' →
  acted [action] (as_calls s) (as_deploys s) (as_calls s') (as_deploys s').
Proof.
  unfold check_action, acted, deploys. intros H. rewrite sum_where_one. cbn [fmap list_fmap]. unfold is_deploy at 1.
  destruct (is_empty (entry_name action)) eqn:En.
  - apply outcome_bind_ret in H as (r & Hr & H). injection H as <-. cbn [as_calls as_deploys].
    apply check_deploy_spec in Hr as (Hok & -> & Hn); [|exact En]. split_and!; [done|done|by constructor|simpl; lia].
  - apply outcome_bind_ret in H as (call & Hr & H). injection H as <-. cbn [as_calls as_deploys].
    unfold check_call in Hr. destruct (contract_listed _ _) eqn:Ec; [|done]. cbn [negb] in Hr.
    destruct (negb (own_contract _ _) && _) eqn:Eo; [done|]. injection Hr as <-.
    assert (action_ok action) as Hok.
    { unfold action_ok, is_deploy. rewrite En. split; [done|]. destruct (own_contract _ _); [by left|right].
      cbn [negb andb] in Eo. by apply negb_false_iff in Eo. }
    split_and!; [|lia|by constructor|lia]. unfold action_call, is_deploy. by rewrite En.
Qed.

(** The actions of an intent. *)
Definition actions_of (intent : value) : list value :=
  match iterate (prop "actions" intent) with Ret l => l | Throw _ => [] end.

(** What the check of an intent establishes besides its actions. *)
Definition intent_ok (intent : value) : Prop :=
  offerNonEmpty (prop "dustActions" intent) = false ∧
  ∀ key, key ∈ unshielded_keys → offerNonEmpty (prop key intent) = true →
    is_true (so_allowUnshieldedOffers opt) = true ∧ ∃ action, action ∈ actions_of intent ∧ is_deploy action = false.

Lemma as_called_from actions calls n s :
  each (check_action maxDeployBytes byteLength opt) actions (MkActionState calls [] n) = Ret s →
  acted actions calls n (as_calls s) (as_deploys s) ∧
  ∀ a, a ∈ as_called s → ∃ action, action ∈ actions ∧ is_deploy action = false ∧ a = text (prop "address" action).
Proof.
  apply (each_inv _ (λ l s, acted l calls n (as_calls s) (as_deploys s) ∧
    ∀ a, a ∈ as_called s → ∃ action, action ∈ l ∧ is_deploy action = false ∧ a = text (prop "address" action))).
  - split; [apply acted_nil|]. cbn. intros a Ha. by apply not_elem_of_nil in Ha.
  - intros seen action s1 s2 _ [Ha Hc] H. pose proof (check_action_spec _ _ _ H) as Hs. split; [by eapply acted_app|].
    intros a Hin. unfold check_action in H. destruct (is_empty (entry_name action)) eqn:En.
    + apply outcome_bind_ret in H as (r & _ & H). injection H as <-. cbn in Hin.
      destruct (Hc a Hin) as (x & ? & ?). exists x. set_solver.
    + apply outcome_bind_ret in H as (call & Hr & H). injection H as <-. cbn [as_called] in Hin.
      unfold set_add in Hin. assert (call_address call = text (prop "address" action)) as Haddr.
      { unfold check_call in Hr. destruct (negb (contract_listed _ _)); [done|].
        destruct (negb (own_contract _ _) && _); [done|]. by injection Hr as <-. }
      assert (a ∈ as_called s1 ∨ a = call_address call) as [Hin'| ->] by (case_decide; set_solver).
      * destruct (Hc a Hin') as (x & ? & ?). exists x. set_solver.
      * exists action. split; [set_solver|]. done.
Qed.

Lemma check_intent_spec segment intent s s' :
  check_intent maxDeployBytes byteLength opt imbalances (segment, intent) s = Ret s' →
  acted (actions_of intent) (ss_calls s) (ss_deploys s) (ss_calls s') (ss_deploys s') ∧ intent_ok intent.
Proof.
  unfold check_intent, intent_ok, actions_of. destruct (offerNonEmpty (prop "dustActions" intent)); [done|].
  intros H. apply outcome_bind_ret in H as ([] & Hk & H). apply outcome_bind_ret in H as (actions & Ha & H).
  apply outcome_bind_ret in H as (a & He & H). apply outcome_bind_ret in H as ([] & Hc & H).
  apply outcome_bind_ret in H as (r & _ & H). injection H as <-. cbn [ss_calls ss_deploys]. rewrite Ha.
  apply as_called_from in He as [Hact Hcalled]. split_and!; [done|done|]. intros key Hin Hne.
  destruct (keep (λ key, offerNonEmpty (prop key intent)) unshielded_keys) as [|k0 ks] eqn:Ek.
  - exfalso. apply (not_elem_of_nil key). rewrite <- Ek. by apply elem_of_keep.
  - split; [by destruct (is_true (so_allowUnshieldedOffers opt))|]. case_bool_decide as Hemp; [done|].
    destruct (as_called a) as [|x l] eqn:El; [done|]. destruct (Hcalled x) as (act & H1 & H2 & _); [set_solver|]. eauto.
Qed.

(** C25. A transaction the sponsor pays for holds nothing but what its policy
    names: every action of every intent, each of which is in the answer, is a
    call on a listed contract with a circuit sponsored there (or any circuit of
    the caller's own contract), or a deploy within the allowed number and size;
    no intent acts on dust; unshielded offers ride only where they are allowed
    and next to a call; and there is at least one call or deploy. *)
Theorem sponsored_calls_allowed tx calls moves :
  checkSponsorableShape maxTxBytes maxDeployBytes byteLength opt imbalances tx = Ret (calls, moves) →
  ∃ intents, entries (prop "intents" tx) = Some intents ∧
    let actions := concat (actions_of <$> intents.*2) in
    calls = action_call <$> actions ∧ calls ≠ [] ∧ Forall action_ok actions ∧ Forall intent_ok intents.*2 ∧
    (deploys actions ≤ maxDeploysPerTx opt)%Z ∧ (byteLength ≤ maxTxBytes)%Z.
Proof.
  unfold checkSponsorableShape. case_bool_decide as Hsize; [done|]. destruct (entries (prop "intents" tx)) as [intents|]; [|done].
  intros H. apply outcome_bind_ret in H as (mints & _ & H). apply outcome_bind_ret in H as (mints' & _ & H).
  apply outcome_bind_ret in H as (s & Hs & H). exists intents. split; [done|].
  assert (acted (concat (actions_of <$> intents.*2)) [] 0 (ss_calls s) (ss_deploys s) ∧ Forall intent_ok intents.*2) as [Ha Hi].
  { revert Hs. apply (each_inv _ (λ l s, acted (concat (actions_of <$> l.*2)) [] 0 (ss_calls s) (ss_deploys s) ∧ Forall intent_ok l.*2)).
    - split; [apply acted_nil|constructor].
    - intros seen [seg intent] s1 s2 _ [Ha Hi] [Hc Hk]%check_intent_spec.
      rewrite !fmap_app, concat_app. cbn [fmap list_fmap concat snd]. rewrite app_nil_r.
      split; [by eapply acted_app|]. apply Forall_app; split; [done|by constructor]. }
  destruct Ha as (Hcalls & Hn & Hok & Hd). assert (ss_calls s ≠ [] ∧ calls = ss_calls s) as [Hne ->].
  { destruct (ss_calls s); [done|]. by injection H as <- <-. }
  split_and!; [done|done|done|done| |lia].
  assert (0 ≤ maxDeploysPerTx opt)%Z as Hmax.
  { unfold maxDeploysPerTx. destruct (so_maxDeploys opt); [case_bool_decide; lia|lia]. }
  specialize (Hd Hmax). lia.
Qed.

Lemma foldl_keeps {X S} (f : S → X → S) (P : S → Prop) l s : (∀ s x, P s → P (f s x)) → P s → P (foldl f s l).
Proof. intros Hf. revert s. induction l as [|x l IH]; intros s Hs; [done|]. simpl. auto. Qed.

(** The budget holds no debts: only positive mints are counted. *)
Lemma mint_budget_nonneg tx mints t : mint_budget opt tx = Ret mints → (0 ≤ amount_of t mints)%Z.
Proof.
  assert (∀ s d l, (0 ≤ amount_of t l)%Z → ∀ m, declaredMints tx s d = Ret m → (0 ≤ amount_of t m)%Z) as Hd.
  { intros sp derive _ _ m. unfold declaredMints. destruct (values (prop "intents" tx)) as [intents|]; [|by intros [= <-]].
    apply (each_inv _ (λ _ m, (0 ≤ amount_of t m)%Z)); [done|]. intros _ intent s1 s2 _ Hs H.
    apply outcome_bind_ret in H as (actions & _ & H). injection H as <-.
    apply (foldl_keeps _ (λ m, (0 ≤ amount_of t m)%Z)); [|done]. clear s1 Hs. intros b a Hb. unfold add_action_mints.
    case_match; [done|]. apply (foldl_keeps _ (λ m, (0 ≤ amount_of t m)%Z)); [|done]. clear b Hb. intros b e Hb. unfold add_mint.
    destruct (bigint e.2) as [amount|]; [|done]. case_bool_decide; [done|]. case_match; [|done]. rewrite amount_set.
    case_decide; subst; lia. }
  unfold mint_budget. destruct (so_deriveTokenType opt); [|by intros [= <-]].
  destruct (is_true _); [|by intros [= <-]]. by apply (Hd _ _ []).
Qed.

(** The shielded value that rides along is listed or was just made: over
    all inspected offers together, a token type that is not listed is only
    created, and never more of it than the calls on sponsored contracts mint in
    this transaction; NIGHT is never moved, and every coin a contract owns
    belongs to a sponsored one. *)
Theorem offers_within_mints tx calls moves :
  checkSponsorableShape maxTxBytes maxDeployBytes byteLength opt imbalances tx = Ret (calls, moves) →
  ∃ mints, mint_budget opt tx = Ret mints ∧
    Forall sponsor_offer_ok (inspected tx shielded_keys) ∧
    ∀ t, t ∉ tokenTypes opt → (created t (all_deltas (inspected tx shielded_keys)) ≤ amount_of t mints)%Z.
Proof.
  unfold checkSponsorableShape. case_bool_decide as Hsize; [done|]. destruct (entries (prop "intents" tx)) as [intents|]; [|done].
  intros H. apply outcome_bind_ret in H as (mints & Hm & H). apply outcome_bind_ret in H as (mints' & Hs & _).
  exists mints. split; [done|]. apply check_shielded_spends in Hs as [Hok Hs]. split; [done|].
  intros t Ht. pose proof (mint_budget_nonneg _ _ t Hm). destruct (Hs t Ht). lia.
Qed.
End Whole.

(** ** Witnesses *)

Definition obj (fields : list (string * value)) : value := VObj "Object" fields.

Definition mint_call : value := VObj "ContractCall" [
  ("address", VStr "c1"); ("entryPoint", VStr "mint");
  ("guaranteedTranscript", obj [("effects", obj [("shieldedMints", VMap [(VStr hex_a, VBig 10)])])]) ].

(** A call that mints ten and an offer that takes four of them. *)
Definition minting_tx (offer : value) : value :=
  obj [ ("intents", VMap [(VNum 1, obj [("actions", VArr [mint_call])])]); ("guaranteedOffer", offer) ].

Definition offer_of (inputs outputs transients : list value) (deltas : list (value * value)) : value :=
  VObj "ZswapOffer" [ ("inputs", VArr inputs); ("outputs", VArr outputs); ("transients", VArr transients); ("deltas", VMap deltas) ].

Definition taking_four : value := offer_of [] [obj []] [] [(VStr hex_b, VBig (-4))].

Definition mint_options : ShapeOptions :=
  MkShapeOptions ["c1"] ["mint"] None None None None None None (Some true) (Some (λ _ _, hex_b)) None None None None.

Definition mint_check (tx : value) : outcome (list Call * list UnshieldedMove) :=
  checkSponsorableShape 1000 1000 500 mint_options (λ _, None) tx.

Lemma sponsored_calls_allowed_witness :
  mint_check (minting_tx taking_four) = Ret ([MkCall "c1" "mint"], []) ∧
  ∃ intents, entries (prop "intents" (minting_tx taking_four)) = Some intents ∧
    Forall (action_ok 1000 500 mint_options) (concat (actions_of <$> intents.*2)).
Proof.
  split; [vm_compute; reflexivity|].
  destruct (sponsored_calls_allowed 1000 1000 500 mint_options (λ _, None) (minting_tx taking_four) [MkCall "c1" "mint"] [])
    as (intents & H & _ & _ & Hok & _); [vm_compute; reflexivity|]. exists intents. split; [exact H|exact Hok].
Defined.

Lemma offers_within_mints_witness :
  ∃ mints, mint_budget mint_options (minting_tx taking_four) = Ret mints ∧ amount_of hex_b mints = 10%Z ∧
    (created hex_b (all_deltas (inspected (minting_tx taking_four) shielded_keys)) ≤ 10)%Z.
Proof.
  destruct (offers_within_mints 1000 1000 500 mint_options (λ _, None) (minting_tx taking_four) [MkCall "c1" "mint"] [])
    as (mints & Hm & _ & H); [vm_compute; reflexivity|]. exists mints. split; [exact Hm|].
  assert (amount_of hex_b mints = 10%Z) as Ha by (vm_compute in Hm; injection Hm as <-; vm_compute; reflexivity).
  split; [exact Ha|]. rewrite <- Ha. apply H. vm_compute. intros Hin. by apply not_elem_of_nil in Hin.
Defined.

(** An offer that is empty but for its transients passes as no offer: a coin of
    a contract that is not sponsored rides along, although the check of the
    offer itself refuses it. *)
Theorem transients_only_offer_skipped :
  let offer := offer_of [] [] [obj [("contractAddress", VStr "other")]] [] in
  offerNonEmpty offer = false ∧
  (∀ mints, ∃ e, checkOfferTokens "guaranteedOffer" [] None (contractSponsorable mint_options) offer mints = Throw e) ∧
  mint_check (minting_tx offer) = Ret ([MkCall "c1" "mint"], []).
Proof.
  split; [vm_compute; reflexivity|]. split; [|vm_compute; reflexivity]. intros mints. by eexists.
Qed.
