(* ===== verification/UnshieldedFacts.v ===== *)
(** The accounting of an unshielded offer next to a sponsored call: whatever the
    spenders put in goes into contracts or back to spenders, and whatever is paid
    out beyond that was claimed by a called contract. *)
From Stdlib Require Import Ascii.
From S2P Require Import Prelude Json Numbers SponsorPolicy SponsorShape SponsorFacts.

Set Warnings "-register-all".

Local Open Scope string_scope.

(** Where an output goes. *)
Inductive Destination := Payout | ToContract | Change.

#[export] Instance Destination_eq_dec : EqDecision Destination.
Proof. solve_decision. Defined.

Definition coin_type (coin : value) : string := bare (prop "type" coin).
Definition coin_owner (coin : value) : string := bare (prop "owner" coin).
Definition coin_value (coin : value) : Z :=
  match utxoValue (prop "value" coin) EmptyString with Ret n => n | Throw _ => 0%Z end.

Lemma utxoValue_coin coin what n : utxoValue (prop "value" coin) what = Ret n → coin_value coin = n.
Proof.
  unfold coin_value, utxoValue. destruct (prop "value" coin); try done; [by intros [= ->]|by intros [= ->]|].
  destruct (parse_digits s); [by intros [= ->]|done].
Qed.

Section Offer.
Context (key : string) (ctx : OfferContext).

(** The addresses of the inputs' owners. *)
Definition owner_address (input : value) : option string :=
  (λ f, bareHex (Some (JStr (f (coin_owner input))))) <$> oc_addressFromKey ctx.

Definition pays_contract (to : string) : bool := mem to (oc_calledContracts ctx) || oc_listedContract ctx to.

(** An input a caller may spend. *)
Definition input_ok (input : value) : Prop :=
  allowedType ctx (coin_type input) = true ∧ HEX64_RE (coin_owner input) = true ∧
  coin_owner input ∉ oc_sponsorInputKeys ctx.

(** An output, with where it goes. *)
Definition output_ok (inputs : list value) (o : value * Destination) : Prop :=
  allowedType ctx (coin_type o.1) = true ∧
  match o.2 with
  | Payout => True
  | ToContract => pays_contract (coin_owner o.1) = true
  | Change => ∃ input, input ∈ inputs ∧ owner_address input = Some (coin_owner o.1)
  end.

(** Sums over the coins of a type. *)
Definition input_sum (t : string) (inputs : list value) : Z :=
  sum_where (λ c, bool_decide (coin_type c = t)) coin_value inputs.
Definition output_sum (t : string) (d : Destination) (outputs : list (value * Destination)) : Z :=
  sum_where (λ o, bool_decide (coin_type o.1 = t) && bool_decide (o.2 = d)) (λ o, coin_value o.1) outputs.
Definition paid_out (k : string) (outputs : list (value * Destination)) : Z :=
  sum_where (λ o, bool_decide (payout_key (coin_type o.1) (coin_owner o.1) = k) && bool_decide (o.2 = Payout))
    (λ o, coin_value o.1) outputs.
Definition move_sum (t : string) (moves : list UnshieldedMove) : Z :=
  sum_where (λ m, bool_decide (mv_type m = t)) mv_amount moves.

(** After the inputs. *)
Lemma check_inputs_spec inputs claimed s :
  each (check_input key ctx) inputs (MkOfferState [] [] claimed [] 0) = Ret s →
  Forall input_ok inputs ∧ (∀ t, amount_of t (os_sums s) = input_sum t inputs) ∧ NoDup (os_sums s).*1 ∧
  (∀ a, a ∈ os_owners s → ∃ input, input ∈ inputs ∧ owner_address input = Some a) ∧
  os_claimed s = claimed ∧ os_moves s = [].
Proof.
  apply (each_inv _ (λ l s, Forall input_ok l ∧ (∀ t, amount_of t (os_sums s) = input_sum t l) ∧ NoDup (os_sums s).*1 ∧
    (∀ a, a ∈ os_owners s → ∃ input, input ∈ l ∧ owner_address input = Some a) ∧ os_claimed s = claimed ∧ os_moves s = [])).
  - split_and!; [constructor|done|constructor|intros a Ha; by apply not_elem_of_nil in Ha|done|done].
  - intros seen c s1 s2 _ (Hok & Hsum & Hnd & Hown & Hcl & Hmv) H. unfold check_input in H. fold (coin_type c) (coin_owner c) in H.
    destruct (allowedType ctx (coin_type c)) eqn:Et; [|done]. destruct (HEX64_RE (coin_owner c)) eqn:Eo; [|done].
    destruct (mem (coin_owner c) (oc_sponsorInputKeys ctx)) eqn:Ek; [done|]. cbn [negb] in H.
    apply outcome_bind_ret in H as (n & Hn & H). apply utxoValue_coin in Hn. injection H as <-. cbn [os_sums os_owners os_claimed os_moves].
    split_and!; [| |by apply map_set_NoDup| |done|done].
    + apply Forall_app; split; [done|]. constructor; [|done]. split_and!; [done|done|]. rewrite <- mem_true. by rewrite Ek.
    + intros t. unfold input_sum. rewrite sum_where_app, sum_where_one, amount_set, Hsum, Hn. fold (input_sum t seen).
      destruct (decide (t = coin_type c)) as [->|Hne]; [by rewrite bool_decide_eq_true_2|].
      rewrite bool_decide_eq_false_2 by done. rewrite Hsum. unfold input_sum. lia.
    + intros a Ha. destruct (oc_addressFromKey ctx) as [f|] eqn:Ef.
      * unfold set_add in Ha. assert (a ∈ os_owners s1 ∨ a = bareHex (Some (JStr (f (coin_owner c))))) as [Hin| ->]
          by (case_decide; set_solver).
        -- destruct (Hown a Hin) as (i & Hi & Ha'). exists i. split; [set_solver|done].
        -- exists c. split; [set_solver|]. unfold owner_address. by rewrite Ef.
      * destruct (Hown a Ha) as (i & Hi & Ha'). exists i. split; [set_solver|done].
Qed.

(** One output: where it goes, and what that does to the sums. *)
Lemma check_output_spec output s s' :
  check_output key ctx output s = Ret s' →
  allowedType ctx (coin_type output) = true ∧ os_owners s' = os_owners s ∧ (NoDup (os_sums s).*1 → NoDup (os_sums s').*1) ∧
  ∃ d, match d with
       | Payout => True
       | ToContract => pays_contract (coin_owner output) = true
       | Change => coin_owner output ∈ os_owners s
       end ∧
       (∀ t, amount_of t (os_sums s') =
             if bool_decide (coin_type output = t) && bool_decide (d ≠ Payout)
             then (amount_of t (os_sums s) - coin_value output)%Z else amount_of t (os_sums s)) ∧
       (∀ k, amount_of k (os_claimed s') = (amount_of k (os_claimed s) - paid_out k [(output, d)])%Z ∧
             (0 ≤ amount_of k (os_claimed s) → 0 ≤ amount_of k (os_claimed s'))%Z) ∧
       os_moves s' = (os_moves s ++ if bool_decide (d = ToContract)
                                    then [MkMove (coin_type output) (coin_value output) (coin_owner output)] else [])%list.
Proof.
  unfold check_output. fold (coin_type output) (coin_owner output). intros H.
  destruct (allowedType ctx (coin_type output)) eqn:Et; [|done]. destruct (HEX64_RE (coin_owner output)) eqn:Eo; [|done].
  cbn [negb] in H. apply outcome_bind_ret in H as (n & Hn & H). apply utxoValue_coin in Hn.
  set (k0 := payout_key (coin_type output) (coin_owner output)) in *.
  split; [done|]. unfold paid_out. case_bool_decide as Hle.
  - injection H as <-. cbn [os_owners os_sums os_claimed os_moves]. split; [done|].
    split; [destruct (map_has _ _); [done|by apply map_set_NoDup]|]. exists Payout. split; [done|]. split_and!.
    + intros t. rewrite (bool_decide_eq_false_2 (Payout ≠ Payout)) by (by intros ?). rewrite andb_false_r.
      unfold map_has. destruct (map_get (coin_type output) (os_sums s)) eqn:Eg; [done|]. rewrite amount_set.
      case_decide; [subst|done]. unfold amount_of. by rewrite Eg.
    + intros k. rewrite sum_where_one, amount_set. cbn [fst snd]. rewrite Hn, (bool_decide_eq_true_2 (Payout = Payout)) by done.
      fold k0. destruct (decide (k = k0)) as [->|Hne].
      * rewrite bool_decide_eq_true_2 by done. simpl. lia.
      * rewrite bool_decide_eq_false_2 by done. simpl. lia.
    + by rewrite app_nil_r.
  - assert (∀ d, d ≠ Payout → ∀ t, (if decide (t = coin_type output) then (amount_of (coin_type output) (os_sums s) - n)%Z else amount_of t (os_sums s)) =
      if bool_decide (coin_type output = t) && bool_decide (d ≠ Payout)
      then (amount_of t (os_sums s) - coin_value output)%Z else amount_of t (os_sums s)) as Hs.
    { intros d Hd t. rewrite (bool_decide_eq_true_2 (d ≠ Payout)) by done. rewrite andb_true_r, Hn.
      destruct (decide (t = coin_type output)) as [->|Hne]; [by rewrite bool_decide_eq_true_2|].
      by rewrite bool_decide_eq_false_2. }
    assert (∀ d, d ≠ Payout → ∀ k, (amount_of k (os_claimed s) = amount_of k (os_claimed s) -
      sum_where (λ o : value * Destination, bool_decide (payout_key (coin_type o.1) (coin_owner o.1) = k) && bool_decide (o.2 = Payout))
        (λ o, coin_value o.1) [(output, d)])%Z ∧ (0 ≤ amount_of k (os_claimed s) → 0 ≤ amount_of k (os_claimed s))%Z) as Hk.
    { intros d Hd k. rewrite sum_where_one. cbn [fst snd]. rewrite (bool_decide_eq_false_2 (d = Payout)) by done.
      rewrite andb_false_r. lia. }
    destruct (mem (coin_owner output) (oc_calledContracts ctx) || oc_listedContract ctx (coin_owner output)) eqn:Ec.
    + injection H as <-. cbn [os_owners os_sums os_claimed os_moves]. split; [done|]. split; [by apply map_set_NoDup|].
      exists ToContract. split_and!; [done| |by apply Hk|by rewrite bool_decide_eq_true_2, Hn].
      intros t. rewrite amount_set. by apply Hs.
    + destruct (mem (coin_owner output) (os_owners s)) eqn:Ew; [|done]. injection H as <-.
      cbn [os_owners os_sums os_claimed os_moves]. split; [done|]. split; [by apply map_set_NoDup|].
      exists Change. split_and!; [by apply mem_true| |by apply Hk|by rewrite app_nil_r].
      intros t. rewrite amount_set. by apply Hs.
Qed.

(** What the loop over the outputs establishes, [outputs] with their destinations. *)
Definition outputs_checked (inputs : list value) (s0 : OfferState) (outputs : list (value * Destination)) (s : OfferState) : Prop :=
  Forall (output_ok inputs) outputs ∧ os_owners s = os_owners s0 ∧ NoDup (os_sums s).*1 ∧
  (∀ t, amount_of t (os_sums s) = (amount_of t (os_sums s0) - output_sum t ToContract outputs - output_sum t Change outputs)%Z) ∧
  (∀ k, amount_of k (os_claimed s) = (amount_of k (os_claimed s0) - paid_out k outputs)%Z ∧
        (0 ≤ amount_of k (os_claimed s0) → 0 ≤ amount_of k (os_claimed s))%Z) ∧
  (∀ t, move_sum t (os_moves s) = (move_sum t (os_moves s0) + output_sum t ToContract outputs)%Z) ∧
  (Forall (λ m, pays_contract (mv_to m) = true) (os_moves s0) → Forall (λ m, pays_contract (mv_to m) = true) (os_moves s)).

Lemma check_outputs_spec inputs outputs s0 s :
  NoDup (os_sums s0).*1 → (∀ a, a ∈ os_owners s0 → ∃ input, input ∈ inputs ∧ owner_address input = Some a) →
  each (check_output key ctx) outputs s0 = Ret s →
  ∃ tagged, tagged.*1 = outputs ∧ outputs_checked inputs s0 tagged s.
Proof.
  intros Hnd Hown. apply (each_inv _ (λ l s, ∃ tagged, tagged.*1 = l ∧ outputs_checked inputs s0 tagged s)).
  - exists []. split; [done|]. unfold outputs_checked, output_sum, paid_out. simpl. split_and!; [constructor|done|done| | | |done]; intros; lia.
  - intros seen o s1 s2 _ (tagged & <- & Hok & Ho1 & Hn1 & Hs1 & Hc1 & Hm1 & Hp1) H.
    apply check_output_spec in H as (Ht & Ho2 & Hn2 & d & Hd & Hs2 & Hc2 & Hm2).
    exists (tagged ++ [(o, d)])%list. split; [by rewrite fmap_app|]. unfold outputs_checked, output_sum, paid_out.
    split_and!; [|congruence|by apply Hn2| | | |].
    + apply Forall_app; split; [done|]. constructor; [|done]. split; [done|]. cbn [snd fst]. destruct d; [done|done|].
      apply Hown. congruence.
    + intros t. rewrite !sum_where_app, !sum_where_one, Hs2, Hs1. cbn [fst snd]. unfold output_sum.
      destruct d; repeat case_bool_decide; simpl; try done; lia.
    + intros k. rewrite sum_where_app. specialize (Hc1 k). specialize (Hc2 k). unfold paid_out in Hc1, Hc2. lia.
    + intros t. rewrite Hm2. unfold move_sum. rewrite !sum_where_app, sum_where_one. fold (move_sum t (os_moves s1)).
      rewrite Hm1. unfold output_sum, move_sum. cbn [fst snd].
      destruct d; repeat case_bool_decide; simpl; try done; rewrite ?bool_decide_eq_true_2, ?bool_decide_eq_false_2 by done; lia.
    + intros Hp. rewrite Hm2. apply Forall_app; split; [by apply Hp1|]. destruct d; simpl; constructor; done.
Qed.

(** The nets that are left go into the one called contract. *)
Lemma check_sums_spec sums moves0 moves :
  NoDup sums.*1 → each (check_sum key ctx) sums moves0 = Ret moves →
  (∀ t, move_sum t moves = (move_sum t moves0 + amount_of t sums)%Z) ∧
  (∀ t n, (t, n) ∈ sums → (0 ≤ n)%Z ∧ ledgerImbalance (oc_ledgerBalance ctx) t = Ret (Some 0%Z)) ∧
  (Forall (λ m, pays_contract (mv_to m) = true) moves0 → Forall (λ m, pays_contract (mv_to m) = true) moves).
Proof.
  intros Hnd He.
  assert ((∀ t, move_sum t moves = (move_sum t moves0 + sum_where (λ e, bool_decide (e.1 = t)) snd sums)%Z) ∧
    (∀ t n, (t, n) ∈ sums → (0 ≤ n)%Z ∧ ledgerImbalance (oc_ledgerBalance ctx) t = Ret (Some 0%Z)) ∧
    (Forall (λ m, pays_contract (mv_to m) = true) moves0 → Forall (λ m, pays_contract (mv_to m) = true) moves)) as (Hm & Hn & Hp).
  { clear Hnd. revert He. apply (each_inv _ (λ l m, (∀ t, move_sum t m = (move_sum t moves0 + sum_where (λ e, bool_decide (e.1 = t)) snd l)%Z) ∧
      (∀ t n, (t, n) ∈ l → (0 ≤ n)%Z ∧ ledgerImbalance (oc_ledgerBalance ctx) t = Ret (Some 0%Z)) ∧
      (Forall (λ m, pays_contract (mv_to m) = true) moves0 → Forall (λ m, pays_contract (mv_to m) = true) m))).
    - split_and!; [intros; simpl; lia|intros t n Hin; by apply not_elem_of_nil in Hin|done].
    - intros seen [t0 net] m1 m2 _ (Hm & Hn & Hp) H. unfold check_sum in H. case_bool_decide as Hneg; [done|].
      apply outcome_bind_ret in H as ([i|] & Hi & H); [|done]. case_bool_decide as Hz; [done|].
      assert (i = 0%Z) as -> by (destruct (decide (i = 0%Z)); tauto).
      split_and!.
      + intros t. rewrite sum_where_app, sum_where_one. cbn [fst snd]. case_bool_decide as Hnet; [|destruct (oc_calledContracts ctx) as [|c [|c2 cs]]; try done];
          injection H as <-; rewrite ?Hm.
        * subst net. destruct (bool_decide (t0 = t)); lia.
        * unfold move_sum at 1. rewrite sum_where_app, sum_where_one. fold (move_sum t m1). rewrite Hm. cbn [mv_type mv_amount]. lia.
      + intros t n [Hin|Heq%list_elem_of_singleton]%elem_of_app; [by apply Hn|]. simplify_eq. split; [lia|done].
      + intros Hp0. specialize (Hp Hp0). case_bool_decide; [by injection H as <-|].
        destruct (oc_calledContracts ctx) as [|c [|c2 cs]] eqn:Ec; try done. injection H as <-.
        apply Forall_app; split; [done|]. constructor; [|done]. cbn [mv_to]. unfold pays_contract. rewrite Ec.
        apply orb_true_iff. left. apply mem_true. set_solver. }
  split_and!; [|done|done]. intros t. rewrite Hm. f_equal. clear -Hnd.
  induction sums as [|[t0 n] sums IH]; [done|]. apply NoDup_cons in Hnd as [Hni Hnd]. specialize (IH Hnd).
  unfold amount_of in *. cbn [map_get sum_where foldr fst snd]. unfold sum_where in IH. rewrite IH.
  destruct (decide (t0 = t)) as [->|Hne].
  - rewrite bool_decide_eq_true_2 by done. cbn [fst] in Hni. apply map_get_None in Hni. rewrite Hni. simpl. lia.
  - rewrite bool_decide_eq_false_2 by done. lia.
Qed.

(** Unshielded value next to a sponsored call is accounted for to the last
    atom. Of a checked offer, every input is of an allowed type and none is the
    sponsor's own; every output either pays out what a called contract claims
    (which uses up the claim), or goes into a called or listed contract, or is
    change to an owner of an input; and per token type the inputs equal the
    moves into contracts plus the change, where the moves are what the answer
    reports. *)
Theorem unshielded_offer_accounted offer claimed moves claimed' :
  checkUnshieldedOffer key ctx offer claimed = Ret (moves, claimed') →
  ∃ inputs outputs tagged,
    array (prop "inputs" offer) = Some inputs ∧ array (prop "outputs" offer) = Some outputs ∧ tagged.*1 = outputs ∧
    Forall input_ok inputs ∧ Forall (output_ok inputs) tagged ∧ Forall (λ m, pays_contract (mv_to m) = true) moves ∧
    (∀ t, input_sum t inputs = (move_sum t moves + output_sum t Change tagged)%Z) ∧
    (∀ k, amount_of k claimed' = (amount_of k claimed - paid_out k tagged)%Z ∧
          (0 ≤ amount_of k claimed → 0 ≤ amount_of k claimed')%Z).
Proof.
  unfold checkUnshieldedOffer. destruct (array (prop "inputs" offer)) as [inputs|]; [|done].
  destruct (array (prop "outputs" offer)) as [outputs|]; [|done]. intros H.
  apply outcome_bind_ret in H as (s1 & Hin & H). apply outcome_bind_ret in H as (s2 & Hout & H).
  case_match; [done|]. apply outcome_bind_ret in H as (mv & Hmv & H). injection H as <- <-.
  apply check_inputs_spec in Hin as (Hok & Hsum & Hnd & Hown & Hcl & Hm0).
  apply (check_outputs_spec inputs) in Hout as (tagged & Htag & Hto & _ & Hnd2 & Hs & Hc & Hm & Hp); [|done|done].
  apply (check_sums_spec _ _ _ Hnd2) in Hmv as (Hmoves & _ & Hpay). rewrite Hm0 in Hm, Hp. rewrite Hcl in Hc.
  exists inputs, outputs, tagged. split_and!; [done|done|done|done|done| | |done].
  - apply Hpay, Hp. constructor.
  - intros t. rewrite Hmoves, Hm, Hs, Hsum. unfold move_sum at 1. simpl. lia.
Qed.
End Offer.

(** ** Witness *)

(** Ten NIGHT in: six to the called contract, three back, one taken in by the
    call itself; and a payout of two that the contract claims. *)
Definition night : string := "0000000000000000000000000000000000000000000000000000000000000000".
Definition utxo (owner : string) (amount : Z) : value :=
  obj [("type", VStr night); ("owner", VStr owner); ("value", VBig amount)].

Definition funding_offer : value := obj [
  ("inputs", VArr [utxo hex_a 10]); ("outputs", VArr [utxo hex_b 6; utxo hex_a 3; utxo hex_a 2]) ].

Definition funding_context : OfferContext :=
  MkContext (Some night) [] (λ _, false) [hex_b] [(obj [("tag", VStr "unshielded"); ("raw", VStr night)], VBig 0)]
    (Some (λ k, k)) [].

Definition funding_claims : ClaimedPayouts := [(payout_key night hex_a, 2%Z)].

Definition funding_moves : list UnshieldedMove := [MkMove night 6 hex_b; MkMove night 1 hex_b].

Lemma unshielded_offer_accounted_witness :
  checkUnshieldedOffer "guaranteedUnshieldedOffer" funding_context funding_offer funding_claims =
    Ret (funding_moves, [(payout_key night hex_a, 0%Z)]) ∧
  ∃ tagged, input_sum night [utxo hex_a 10] = (move_sum night funding_moves + output_sum night Change tagged)%Z.
Proof.
  assert (checkUnshieldedOffer "guaranteedUnshieldedOffer" funding_context funding_offer funding_claims =
    Ret (funding_moves, [(payout_key night hex_a, 0%Z)])) as E by (vm_compute; reflexivity).
  split; [exact E|].
  destruct (unshielded_offer_accounted "guaranteedUnshieldedOffer" funding_context funding_offer funding_claims _ _ E)
    as (inputs & outputs & tagged & Hi & _ & _ & _ & _ & _ & Hsum & _).
  exists tagged. vm_compute in Hi. injection Hi as <-. exact (Hsum night).
Defined.
