(* ===== verification/SwapShape.v ===== *)
(** Sponsored swaps and plain transfers: their shape and terms
    (srv/midnight/worker/sponsor.ts). *)
From Stdlib Require Import Ascii.
From S2P Require Import Prelude Json Numbers SponsorPolicy SponsorShape SponsorFacts.

Set Warnings "-register-all".

Local Open Scope string_scope.

Definition refuse_as {A} (prefix what why : string) : outcome A :=
  Throw (Exn "SponsorRefusalError" "SPONSOR_REFUSED" (prefix ++ ": the " ++ what ++ " " ++ why)).

Section Plain.
Context (prefix what : string) (maxInputs : Z).

Definition plainShieldedOffer (tx : value) (outputsWhy : string) : outcome value :=
  if negb (nullish_value (prop "intents" tx)) && negb (no_elements (prop "intents" tx)) then
    refuse_as prefix what "carries an intent (a contract call, unshielded value or dust actions)"
  else if negb (nullish_value (prop "fallibleOffer" tx)) && negb (no_elements (prop "fallibleOffer" tx)) then
    refuse_as prefix what "carries a fallible offer"
  else
    let offer := prop "guaranteedOffer" tx in
    match array (prop "inputs" offer), array (prop "outputs" offer) with
    | Some inputs, Some outputs =>
        let transients := prop "transients" offer in
        if negb (nullish_value transients) && negb (no_elements transients) then
          refuse_as prefix what "carries a transient coin"
        else if existsb (λ coin, bool_decide (is_Some (coin_contract coin))) (inputs ++ outputs)%list then
          refuse_as prefix what "carries a contract-owned coin"
        else if bool_decide (length inputs < 1)%nat || bool_decide (maxInputs < Z.of_nat (length inputs))%Z then
          refuse_as prefix what ("carries " ++ pretty (length inputs) ++ " inputs; 1 to " ++ pretty maxInputs ++
                                 " are sponsored (NIGHTGATE_SPONSOR_SWAP_MAX_INPUTS)")
        else if bool_decide (length outputs < 1)%nat || bool_decide (2 < length outputs)%nat then
          refuse_as prefix what ("carries " ++ pretty (length outputs) ++ " outputs; " ++ outputsWhy)
        else Ret offer
    | _, _ => refuse_as prefix what "carries no readable guaranteed offer"
    end.

(** [deltas.entries()], the types bare. *)
Definition typed_deltas (offer : value) : option (list (string * value)) :=
  List.map (λ e, (bare e.1, e.2)) <$> entries (prop "deltas" offer).

Definition non_zero_bigint (v : value) : bool :=
  match v with VBig n => bool_decide (n ≠ 0)%Z | _ => false end.

(** The entries with a positive, and with a negative amount. *)
Definition amounts (p : Z → bool) (l : list (string * value)) : list (string * Z) :=
  omap (λ e, match e.2 with VBig n => if p n then Some (e.1, n) else None | _ => None end) l.

Record HalfTerms := MkHalf { h_give : string * Z; h_want : string * Z }.

Definition check_half_type (tokenTypes : option (list string)) (nightType : option string) (type : string) : outcome unit :=
  if bool_decide (nightType = Some type) && non_empty type then refuse_as prefix what "moves NIGHT"
  else match tokenTypes with
  | Some l => if mem type l then Ret tt
              else refuse_as prefix what ("moves token type " ++ slice0 16 type ++ "…, not in allowedTokenTypes")
  | None => Ret tt
  end.

Definition swapHalfTerms (half : value) (tokenTypes : option (list string)) (nightType : option string) : outcome HalfTerms :=
  offer ← plainShieldedOffer half "a half has the coin it wants and at most its change";
  match typed_deltas offer with
  | None => refuse_as prefix what "exposes no deltas (terms not readable)"
  | Some typed =>
      if existsb (λ e, negb (non_zero_bigint e.2)) typed then
        refuse_as prefix what "exposes a delta that is not a non-zero amount"
      else
        match amounts (λ n, bool_decide (0 < n)%Z) typed, amounts (λ n, bool_decide (n < 0)%Z) typed with
        | [give], [(wantType, wantDelta)] =>
            if bool_decide (give.1 = wantType) then refuse_as prefix what "gives and wants the same token type"
            else
              _ ← check_half_type tokenTypes nightType give.1;
              _ ← check_half_type tokenTypes nightType wantType;
              mret (MkHalf give (wantType, - wantDelta)%Z)
        | gives, wants =>
            refuse_as prefix what ("gives " ++ pretty (length gives) ++ " token type(s) and wants " ++
                                   pretty (length wants) ++ "; a half gives one and wants one")
        end
  end.
End Plain.

(** Nullifiers of a half's inputs. *)
Definition swapHalfNullifiers (half : value) : list string :=
  js_set (keep HEX64_RE ((λ i, bare (prop "nullifier" i)) <$>
    nullish (array (prop "inputs" (prop "guaranteedOffer" half))) [])).

(** Amounts in atoms, from the maker's side. *)
Record SwapTerms := MkTerms { st_gives : string * string; st_wants : string * string }.

Definition as_text (t : string * Z) : string * string := (t.1, pretty t.2).

Definition checkSwapHalves (maker taker : value) (allowedTokenTypes : option (list string))
    (nightTokenType : option string) (maxInputs : option Z) : outcome SwapTerms :=
  let tokenTypes := bare_list allowedTokenTypes in
  match tokenTypes with
  | [] => refuse "a swap needs its token types in allowedTokenTypes, and none is listed"
  | _ =>
      let nightType := night_type nightTokenType in
      let maxInputs := match maxInputs with Some n => if bool_decide (1 ≤ n)%Z then n else 4%Z | None => 4%Z end in
      m ← swapHalfTerms "refusing to sponsor" "maker half" maxInputs maker (Some tokenTypes) nightType;
      t ← swapHalfTerms "refusing to sponsor" "taker half" maxInputs taker (Some tokenTypes) nightType;
      if bool_decide (h_give m = h_want t) && bool_decide (h_want m = h_give t)
      then Ret (MkTerms (as_text (h_give m)) (as_text (h_want m)))
      else refuse ("the halves do not mirror each other (maker gives " ++ pretty (h_give m).2 ++ " of " ++ slice0 16 (h_give m).1 ++
                   "… for " ++ pretty (h_want m).2 ++ " of " ++ slice0 16 (h_want m).1 ++ "…, taker gives " ++
                   pretty (h_give t).2 ++ " of " ++ slice0 16 (h_give t).1 ++ "… for " ++ pretty (h_want t).2 ++ " of " ++
                   slice0 16 (h_want t).1 ++ "…)")
  end.

(** [imbalances(0)] with its entries, or the error it throws. *)
Definition balanced (imbalances : option (list (value * value))) : option bool :=
  forallb (λ e, match e.2 with VBig 0 => true | _ => false end) <$> imbalances.

Definition assertSwapBalanced (merged : value) (byteLength maxBytes : Z) (imbalances : option (list (value * value))) :
    outcome unit :=
  if bool_decide (maxBytes < byteLength)%Z then
    refuse ("the merged swap is " ++ pretty byteLength ++ "B, over the " ++ pretty maxBytes ++
            "B budget (NIGHTGATE_SPONSOR_MAX_TX_BYTES)")
  else if negb (nullish_value (prop "intents" merged)) && negb (no_elements (prop "intents" merged)) then
    refuse "the merged swap carries an intent"
  else if negb (no_elements (prop "deltas" (prop "guaranteedOffer" merged))) then
    refuse "the merged swap does not net to zero"
  else match balanced imbalances with
  | None => refuse "the merged swap's balance is not readable"
  | Some false => refuse "the merged swap does not balance"
  | Some true => Ret tt
  end.

(** The numbers of inputs and outputs, and the nullifiers. *)
Definition checkTransferShape (tx : value) (maxInputs : Z) (prefix : string) (imbalances : option (list (value * value))) :
    outcome (Z * Z * list string) :=
  let what := "transfer" in
  offer ← plainShieldedOffer prefix what maxInputs tx "a transfer has the recipient's coin and at most its change";
  if negb (no_elements (prop "deltas" offer)) then
    refuse_as prefix what "does not net to zero (a net change in a type makes it a swap half, not a transfer)"
  else match balanced imbalances with
  | None => refuse_as prefix what "has a balance that is not readable"
  | Some false => refuse_as prefix what "does not balance"
  | Some true => Ret (Z.of_nat (length (nullish (array (prop "inputs" offer)) [])),
                      Z.of_nat (length (nullish (array (prop "outputs" offer)) [])), swapHalfNullifiers tx)
  end.

(** *** What an accepted swap is *)

(** Nothing but a guaranteed offer, without coins of contracts. *)
Definition plain (maxInputs : Z) (tx offer : value) : Prop :=
  offer = prop "guaranteedOffer" tx ∧
  (nullish_value (prop "intents" tx) = true ∨ sizeOf (prop "intents" tx) = Some 0%Z) ∧
  (nullish_value (prop "fallibleOffer" tx) = true ∨ sizeOf (prop "fallibleOffer" tx) = Some 0%Z) ∧
  ∃ inputs outputs, array (prop "inputs" offer) = Some inputs ∧ array (prop "outputs" offer) = Some outputs ∧
    (∀ coin, coin ∈ inputs ∨ coin ∈ outputs → coin_contract coin = None) ∧
    (1 ≤ Z.of_nat (length inputs) ≤ maxInputs)%Z ∧ (1 ≤ length outputs ≤ 2)%nat.

Lemma none_or_empty v : negb (nullish_value v) && negb (no_elements v) = false → nullish_value v = true ∨ sizeOf v = Some 0%Z.
Proof.
  unfold no_elements. destruct (nullish_value v); [by left|]. case_bool_decide; [by right|done].
Qed.

Lemma plain_spec prefix what maxInputs tx why offer :
  plainShieldedOffer prefix what maxInputs tx why = Ret offer → plain maxInputs tx offer.
Proof.
  unfold plainShieldedOffer. destruct (_ && _) eqn:E1; [done|]. destruct (negb (nullish_value (prop "fallibleOffer" tx)) && _) eqn:E2; [done|].
  destruct (array (prop "inputs" (prop "guaranteedOffer" tx))) as [inputs|] eqn:Ei; [|done].
  destruct (array (prop "outputs" (prop "guaranteedOffer" tx))) as [outputs|] eqn:Eo; [|done].
  destruct (negb (nullish_value (prop "transients" _)) && _); [done|]. destruct (existsb _ _) eqn:Ec; [done|].
  destruct (bool_decide (length inputs < 1) || _) eqn:El; [done|]. destruct (bool_decide (length outputs < 1) || _) eqn:Em; [done|].
  intros [= <-]. split_and!; [done|by apply none_or_empty|by apply none_or_empty|]. exists inputs, outputs.
  apply orb_false_iff in El as [El1%bool_decide_eq_false_1 El2%bool_decide_eq_false_1].
  apply orb_false_iff in Em as [Em1%bool_decide_eq_false_1 Em2%bool_decide_eq_false_1].
  split_and!; [done|done| |lia|lia|lia|lia]. intros coin Hc. destruct (coin_contract coin) as [a|] eqn:E; [|done]. exfalso.
  apply not_true_iff_false in Ec. apply Ec. apply existsb_exists. exists coin.
  split; [apply list_elem_of_In; by apply elem_of_app|]. by rewrite bool_decide_eq_true_2 by eauto.
Qed.

(** What a half moves of a type: inputs minus outputs. *)
Definition half_delta (t : string) (half : value) : Z :=
  sum_where (λ e, bool_decide (e.1 = t)) (λ e, match e.2 with VBig n => n | _ => 0%Z end)
    (nullish (typed_deltas (prop "guaranteedOffer" half)) []).

Lemma sum_amounts t l :
  existsb (λ e : string * value, negb (non_zero_bigint e.2)) l = false →
  sum_where (λ e, bool_decide (e.1 = t)) (λ e, match e.2 with VBig n => n | _ => 0%Z end) l =
  (sum_where (λ e, bool_decide (e.1 = t)) snd (amounts (λ n, bool_decide (0 < n)%Z) l) +
   sum_where (λ e, bool_decide (e.1 = t)) snd (amounts (λ n, bool_decide (n < 0)%Z) l))%Z.
Proof.
  induction l as [|[k v] l IH]; [done|]. cbn [existsb snd]. intros [Hv Hl]%orb_false_iff. specialize (IH Hl).
  destruct v as [| |b|n|r|n|s|s|l'|l'|c fs]; try done. apply negb_false_iff, bool_decide_eq_true_1 in Hv.
  unfold amounts in *. cbn [omap list_omap fst snd]. unfold sum_where in *. cbn [foldr fst snd]. rewrite IH.
  destruct (decide (0 < n)%Z).
  - rewrite (bool_decide_eq_true_2 (0 < n)%Z), (bool_decide_eq_false_2 (n < 0)%Z) by lia. cbn [foldr fst snd]. lia.
  - rewrite (bool_decide_eq_false_2 (0 < n)%Z), (bool_decide_eq_true_2 (n < 0)%Z) by lia. cbn [foldr fst snd]. lia.
Qed.

Lemma amounts_sign p l t n : (t, n) ∈ amounts p l → p n = true.
Proof.
  unfold amounts. rewrite list_elem_of_omap. intros ([k v] & _ & H). cbn in H. destruct v; try done.
  destruct (p n0) eqn:E; [|done]. by injection H as <- <-.
Qed.

(** A type the policy lets a swap move. *)
Definition swap_type_ok (types : list string) (nightType : option string) (t : string) : Prop :=
  t ∈ types ∧ (nightType = Some t → t = EmptyString).

Lemma check_half_type_ok prefix what types nightType t u :
  check_half_type prefix what (Some types) nightType t = Ret u → swap_type_ok types nightType t.
Proof.
  unfold check_half_type, swap_type_ok. intros H. destruct (bool_decide _ && _) eqn:En; [done|].
  destruct (mem t types) eqn:Em; [|done]. split; [by apply mem_true|]. intros Hn.
  rewrite bool_decide_eq_true_2 in En by done. unfold non_empty, is_empty in En. simpl in En.
  by apply negb_false_iff, bool_decide_eq_true_1 in En.
Qed.

Lemma swapHalfTerms_spec prefix what maxInputs half types nightType r :
  swapHalfTerms prefix what maxInputs half (Some types) nightType = Ret r →
  plain maxInputs half (prop "guaranteedOffer" half) ∧ (0 < (h_give r).2)%Z ∧ (0 < (h_want r).2)%Z ∧
  (h_give r).1 ≠ (h_want r).1 ∧ swap_type_ok types nightType (h_give r).1 ∧ swap_type_ok types nightType (h_want r).1 ∧
  ∀ t, half_delta t half = (sum_where (λ e, bool_decide (e.1 = t)) snd [h_give r] - sum_where (λ e, bool_decide (e.1 = t)) snd [h_want r])%Z.
Proof.
  unfold swapHalfTerms. intros H. apply outcome_bind_ret in H as (offer & Ho & H). apply plain_spec in Ho.
  assert (offer = prop "guaranteedOffer" half) as -> by apply Ho. unfold half_delta.
  destruct (typed_deltas (prop "guaranteedOffer" half)) as [typed|]; [|done]. cbn [nullish].
  destruct (existsb _ typed) eqn:Ex; [done|]. pose proof (λ t, sum_amounts t typed Ex) as Hsum.
  pose proof (amounts_sign (λ n, bool_decide (0 < n)%Z) typed) as Hg. pose proof (amounts_sign (λ n, bool_decide (n < 0)%Z) typed) as Hw.
  destruct (amounts (λ n, bool_decide (0 < n)%Z) typed) as [|give [|? ?]]; [by destruct (amounts _ typed) as [|[? ?] [|? ?]]| |by destruct (amounts _ typed) as [|[? ?] [|? ?]]].
  destruct (amounts _ typed) as [|[wt wn] [|? ?]]; [done| |done]. case_bool_decide as Hne; [done|].
  apply outcome_bind_ret in H as (u1 & H1 & H). apply outcome_bind_ret in H as (u2 & H2 & H). injection H as <-.
  cbn [h_give h_want fst snd]. destruct give as [gt gn]. cbn [fst snd] in *.
  assert (0 < gn)%Z by (by eapply bool_decide_eq_true_1, Hg, list_elem_of_here).
  assert (wn < 0)%Z by (by eapply bool_decide_eq_true_1, Hw, list_elem_of_here).
  split_and!; [done|lia|lia|done|by eapply check_half_type_ok|by eapply check_half_type_ok|].
  intros t. rewrite Hsum, !sum_where_one. cbn [fst snd]. destruct (bool_decide (wt = t)); lia.
Qed.

(** C26. A sponsored swap is an exchange and nothing else: both halves are plain
    shielded offers without intents or contract coins, each gives one listed
    token type and wants another, neither is NIGHT, the terms in the answer are
    the maker's, and over both halves together every token type nets to zero,
    so no value appears, disappears or comes from the sponsor. *)
Theorem swap_nets_to_zero maker taker types night maxInputs terms :
  checkSwapHalves maker taker types night maxInputs = Ret terms →
  (∀ t, half_delta t maker + half_delta t taker = 0)%Z ∧
  ∃ n give want, plain n maker (prop "guaranteedOffer" maker) ∧ plain n taker (prop "guaranteedOffer" taker) ∧
    terms = MkTerms (as_text give) (as_text want) ∧ (0 < give.2)%Z ∧ (0 < want.2)%Z ∧ give.1 ≠ want.1 ∧
    half_delta give.1 maker = give.2 ∧ half_delta want.1 maker = (- want.2)%Z ∧
    swap_type_ok (bare_list types) (night_type night) give.1 ∧ swap_type_ok (bare_list types) (night_type night) want.1.
Proof.
  unfold checkSwapHalves. destruct (bare_list types) as [|x l]; [done|]. intros H.
  apply outcome_bind_ret in H as (m & Hm & H). apply outcome_bind_ret in H as (t & Ht & H).
  destruct (bool_decide (h_give m = h_want t) && _) eqn:E; [|done]. injection H as <-.
  apply andb_true_iff in E as [E1%bool_decide_eq_true_1 E2%bool_decide_eq_true_1].
  apply swapHalfTerms_spec in Hm as (Hpm & Hg & Hw & Hne & Hok1 & Hok2 & Hdm).
  apply swapHalfTerms_spec in Ht as (Hpt & _ & _ & _ & _ & _ & Hdt). split.
  - intros u. rewrite Hdm, Hdt, E1, E2. lia.
  - eexists _, (h_give m), (h_want m). split_and!; [exact Hpm|exact Hpt|done|done|done|done| | |done|done].
    + rewrite Hdm, !sum_where_one, bool_decide_eq_true_2, bool_decide_eq_false_2 by congruence. lia.
    + rewrite Hdm, !sum_where_one, bool_decide_eq_false_2, bool_decide_eq_true_2 by congruence. lia.
Qed.

(** ** Witness *)

Definition swap_half (gives wants : string) (give want : Z) : value :=
  obj [ ("guaranteedOffer", offer_of [obj []] [obj []] [] [(VStr gives, VBig give); (VStr wants, VBig (- want))]) ].

Lemma swap_nets_to_zero_witness :
  checkSwapHalves (swap_half hex_a hex_b 5 7) (swap_half hex_b hex_a 7 5) (Some [hex_a; hex_b]) None None =
    Ret (MkTerms (hex_a, "5") (hex_b, "7")) ∧
  (half_delta hex_a (swap_half hex_a hex_b 5 7) + half_delta hex_a (swap_half hex_b hex_a 7 5) = 0)%Z.
Proof.
  split; [vm_compute; reflexivity|].
  apply (swap_nets_to_zero (swap_half hex_a hex_b 5 7) (swap_half hex_b hex_a 7 5) (Some [hex_a; hex_b]) None None
    (MkTerms (hex_a, "5") (hex_b, "7"))).
  vm_compute. reflexivity.
Defined.
