(* ===== verification/GrantScope.v ===== *)
(** What an agent grant lets its token ask for: the actions, contracts and
    circuits of a grant, checked of a request and again of a queued job
    (srv/sessions/agent-grants.ts). *)
From Stdlib Require Import Ascii.
From S2P Require Import Prelude Json Numbers Schema SponsorPolicy.

Set Warnings "-register-all".

Local Open Scope string_scope.

Definition AGENT_ALLOWLISTABLE_ACTIONS : list string := [
  "anchorDocument"; "attestAgentOutput"; "issueFieldPredicateAttestation"; "issueFieldEqualityAttestation";
  "issueFieldMembershipAttestation"; "issueFieldPredicateAttestationBatch"; "issueDocumentIntegrityAttestation";
  "issueDocumentDiffAttestation"; "grantDisclosure"; "revokeDisclosure"; "reindexDisclosures";
  "sponsorFinalizedTransaction"; "sponsorUnboundTransaction"; "sponsorSwap"; "sponsorTransfer"; "postSwapOffer";
  "retireSwapOffer"; "grantDisclosureToHolders"; "revokeHolderDisclosure"; "mintFactoryToken"; "burnFactoryToken" ].

Definition POOL_NEUTRAL_ACTIONS : list string := [ "postSwapOffer"; "retireSwapOffer" ].
Definition POOL_PAID_SESSION_ACTIONS : list string := [ "mintFactoryToken" ].
Definition SPONSOR_TRANSACTION_ACTIONS : list string := [ "sponsorFinalizedTransaction"; "sponsorUnboundTransaction" ].
Definition SPONSOR_SWAP_ACTION : string := "sponsorSwap".
Definition SPONSOR_TRANSFER_ACTION : string := "sponsorTransfer".
Definition SPONSOR_PHASE2_ACTIONS : list string :=
  (SPONSOR_TRANSACTION_ACTIONS ++ [SPONSOR_SWAP_ACTION; SPONSOR_TRANSFER_ACTION])%list.

Definition AGENT_READABLE_ENTITIES : list string := [
  "Blocks"; "Transactions"; "TransactionResults"; "TransactionSegments"; "TransactionFees"; "ContractActions";
  "ContractBalances"; "ContractStates"; "UnshieldedUtxos"; "ZswapLedgerEvents"; "DustLedgerEvents"; "NightBalances";
  "PredicateAttestations"; "DisclosureGrants"; "WalletSessions"; "PendingSubmissions"; "AgentGrants"; "Documents" ].

Definition AGENT_ALWAYS_ALLOWED_EVENTS : list string := [
  "READ"; "verifyDocument"; "verifyAttestationState"; "verifyPredicateState"; "verifyPredicateAttestation";
  "prepareDocumentProof"; "prepareMembershipSet"; "deriveTokenType"; "listSwapOffers"; "getSwapOffer";
  "claimDisclosure"; "getJobStatus"; "getGrantUsage"; "latest"; "byHeight"; "range"; "byHash"; "byIdentifier"; "byType";
  "byAddress"; "history"; "stateAt"; "byOwner"; "unspent"; "getBalance"; "getTopHolders" ].

(** ** The policy of a row *)

Definition grantRowPolicy (row : Grant) : GrantPolicyInput :=
  let actions := parseJsonStringList (Some (g_allowedActions row)) in
  MkGrantPolicy (Some (parseJsonStringList (g_allowedContracts row))) (Some (parseJsonStringList (g_allowedCircuits row)))
    (Some (is_true (g_allowDeploy row))) (Some (parseJsonStringList (g_deployedContracts row)))
    (Some (parseJsonStringList (g_allowedTokenTypes row))) (Some (parseJsonStringList (g_mintedTokenTypes row)))
    (Some (mem SPONSOR_SWAP_ACTION actions)) (Some (mem SPONSOR_TRANSFER_ACTION actions))
    (Some (is_true (g_allowUnshieldedOffers row))) (Some (parseJsonStringList (g_allowedUnshieldedTokenTypes row))).

(** [!!grant.validUntil && new Date(grant.validUntil) < now] *)
Definition grantExpired (grant : Grant) (now : Z) : bool :=
  match g_validUntil grant with Some t => bool_decide (t < now)%Z | None => false end.

(** Null unless the grant is usable now. *)
Definition currentGrantRow (now : Z) (grantId : string) : M Database (option Grant) := λ d,
  (Ret (g ← grants d !! grantId;
        if bool_decide (g_isActive g = Some false) || bool_decide (is_Some (g_revokedAt g)) || grantExpired g now
        then None else Some g), d).

Definition currentGrantPolicy (now : Z) (grantId : string) : M Database (option GrantPolicyInput) :=
  g ← currentGrantRow now grantId; mret (grantRowPolicy <$> g).

(** ** Circuits of a request *)

Definition attestation_circuits : list string := [ "anchorContentRoot"; "proveDocumentComparison" ].
Definition batch_circuits : list string :=
  [ "anchorContentRoot"; "proveFieldPredicate"; "proveFieldEquality"; "proveFieldMembership"; "proveDocumentComparison" ].

Definition ACTION_CIRCUITS : list (string * list string) := [
  ("issueFieldPredicateAttestation", ["anchorContentRoot"; "proveFieldPredicate"]);
  ("issueFieldEqualityAttestation", ["anchorContentRoot"; "proveFieldEquality"]);
  ("issueFieldMembershipAttestation", ["anchorContentRoot"; "proveFieldMembership"]);
  ("issueFieldPredicateAttestationBatch", batch_circuits);
  ("issueDocumentIntegrityAttestation", attestation_circuits);
  ("issueDocumentDiffAttestation", attestation_circuits);
  ("grantDisclosure", ["grantDisclosure"]); ("revokeDisclosure", ["revokeDisclosure"]); ("reindexDisclosures", []);
  ("mintFactoryToken", ["mint"]); ("burnFactoryToken", ["burn"]) ].

Definition OP_CIRCUITS : list (string * list string) := [
  ("fieldPredicateWorkflow", ["anchorContentRoot"; "proveFieldPredicate"]);
  ("fieldEqualityWorkflow", ["anchorContentRoot"; "proveFieldEquality"]);
  ("fieldMembershipWorkflow", ["anchorContentRoot"; "proveFieldMembership"]);
  ("fieldPredicateBatchWorkflow", batch_circuits);
  ("documentIntegrityWorkflow", attestation_circuits); ("documentDiffWorkflow", attestation_circuits);
  ("anchorDocument", ["attest"]); ("grantDisclosure", ["grantDisclosure"]); ("revokeDisclosure", ["revokeDisclosure"]);
  ("registerPassport", ["registerDocument"]); ("retract", ["retract"]) ].

Section Scope.
(** [JSON.parse] of a text in the request. *)
Context (parse : string → json_text).

(** The circuits the action itself runs; [None]: not in the table. *)
Definition event_circuits (event : string) : option (list string) :=
  if mem event ["anchorDocument"; "attestAgentOutput"] then Some ["attest"] else map_get event ACTION_CIRCUITS.

(** [None]: an element that is no string. *)
Definition strings_only (l : list json) : option (list string) :=
  mapM (λ v, match v with JStr s => Some s | _ => None end) l.

(** [c.circuit ?? c.name] of one call, a non-empty string. *)
Definition call_circuit (call : json) : option string :=
  match json_nullish (json_get "circuit" call) (json_get "name" call) with
  | Some (JStr s) => if is_empty s then None else Some s
  | _ => None
  end.

(** The calls, whether given as an array or as its text. *)
Definition calls_of (calls : json) : option (list json) :=
  match calls with
  | JStr s => match parse s with Text (JArr l) => Some l | _ => None end
  | JArr l => Some l
  | _ => None
  end.

(** What one field of the request names: [None], nothing; [Some None], it cannot
    be read; [Some (Some l)], these circuits. *)
Definition circuit_field (d : json) : option (option (list string)) :=
  match json_get "circuit" d with Some (JStr s) => Some (Some [s]) | _ => None end.
Definition circuits_field (d : json) : option (option (list string)) :=
  match json_get "circuits" d with Some (JArr l) => Some (strings_only l) | _ => None end.
Definition calls_field (d : json) : option (option (list string)) :=
  match json_get "calls" d with
  | None | Some JNull => None
  | Some calls => Some (l ← calls_of calls; mapM call_circuit l)
  end.

(** [None] when nothing is known of the circuits, or something cannot be read. *)
Definition circuitsOfRequest (event : string) (d : json) : option (list string) :=
  let known := omap id [Some <$> event_circuits event; circuit_field d; circuits_field d; calls_field d] in
  match known with
  | [] => None
  | _ => l ← mapM id known; Some (js_set (concat l))
  end.

(** ** The scope *)

(** A problem, or none. *)
Definition grantScopeViolation (allowedContracts allowedCircuits : option json_text) (data : json) (event : string) :
    option string :=
  let contracts := lower <$> parseJsonStringList allowedContracts in
  let address := match json_get "contractAddress" data with Some (JStr a) => a | _ => EmptyString end in
  if negb (bool_decide (contracts = [])) && non_empty address && negb (mem (lower address) contracts) then
    Some ("contract '" ++ slice0 16 address ++ "' is not in this agent grant's allowedContracts")
  else match parseJsonStringList allowedCircuits with
  | [] => None
  | circuits =>
      match circuitsOfRequest event data with
      | None => Some ("action '" ++ slice0 64 event ++ "' cannot be matched against this agent grant's allowedCircuits")
      | Some required =>
          c ← head (keep (λ c, negb (mem c circuits)) required);
          Some ("circuit '" ++ slice0 64 c ++ "' is not in this agent grant's allowedCircuits")
      end
  end.

Definition actionsOfJob (kind : string) (command : json) : list string :=
  if bool_decide (kind = "retract") then
    match json_get "mode" command with Some (JInt 1) => ["purgeExpired"] | _ => ["retractAttestation"] end
  else if bool_decide (kind = "anchorDocument") then ["anchorDocument"; "attestAgentOutput"]
  else [kind].

(** The request a stored command stands for. *)
Definition command_request (op : string) (command : json) : json :=
  JObj (omap id [
    (λ v, ("contractAddress", v)) <$> json_get "contractAddress" command;
    match json_get "circuit" command with Some (JStr s) => Some ("circuit", JStr s) | _ => None end;
    match json_get "calls" command with Some (JArr l) => Some ("calls", JArr l) | _ => None end;
    (λ l, ("circuits", JArr (JStr <$> l))) <$> map_get op OP_CIRCUITS ]).

(** A child job is checked by the kind its parent was admitted as. *)
Definition grantJobScopeViolation (grant : Grant) (kind : string) (parentJobId parentKind : option string)
    (command : json) : option string :=
  let is_child := match parentJobId with Some p => non_empty p | None => false end in
  match (if is_child then parentKind else Some kind) with
  | None => Some "the action the parent job was admitted as is unknown"
  | Some admittedKind =>
      if is_empty admittedKind then Some "the action the parent job was admitted as is unknown"
      else
        let allowed := parseJsonStringList (Some (g_allowedActions grant)) in
        let actions := actionsOfJob admittedKind (if is_child then JObj [] else command) in
        if negb (existsb (λ a, mem a allowed) actions) then
          Some ("action '" ++ nullish (head actions) EmptyString ++ "' is no longer allowed for this agent grant")
        else
          let op := string_or_empty (json_get "op" command) in
          grantScopeViolation (g_allowedContracts grant) (g_allowedCircuits grant) (command_request op command) op
  end.
End Scope.

(** ** What passes *)

Section Facts.
Context (parse : string → json_text).

(** A request names a circuit: its action runs it, or one of its fields says so. *)
Inductive names_circuit (event : string) (d : json) (c : string) : Prop :=
| names_by_action l : event_circuits event = Some l → c ∈ l → names_circuit event d c
| names_by_circuit : json_get "circuit" d = Some (JStr c) → names_circuit event d c
| names_by_circuits l : json_get "circuits" d = Some (JArr l) → JStr c ∈ l → names_circuit event d c
| names_by_calls calls l call :
    json_get "calls" d = Some calls → calls ≠ JNull → calls_of parse calls = Some l → call ∈ l →
    json_nullish (json_get "circuit" call) (json_get "name" call) = Some (JStr c) → names_circuit event d c.

Lemma mapM_elem {A B} (f : A → option B) l l' y : mapM f l = Some l' → y ∈ l' ↔ ∃ x, x ∈ l ∧ f x = Some y.
Proof.
  intros H%mapM_Some. induction H as [|x y' l l' Hxy H IH]; [split; [by intros ?%not_elem_of_nil|intros (x & Hx & _); by apply not_elem_of_nil in Hx]|].
  rewrite elem_of_cons, IH. split.
  - intros [->|(x' & Hx & Hf)]; [exists x|exists x']; split; try done; [apply list_elem_of_here|by apply list_elem_of_further].
  - intros (x' & [->|Hx]%elem_of_cons & Hf); [left; congruence|right; eauto].
Qed.

Lemma mapM_id_concat {A} (known : list (option (list A))) l c :
  mapM id known = Some l → c ∈ concat l ↔ ∃ x, Some x ∈ known ∧ c ∈ x.
Proof.
  intros H. assert (c ∈ concat l ↔ ∃ x, x ∈ l ∧ c ∈ x) as ->.
  { rewrite list_elem_of_In, in_concat. setoid_rewrite <- list_elem_of_In. done. }
  setoid_rewrite (mapM_elem _ _ _ _ H). split.
  - intros (x & (o & Ho & Hx) & Hc). unfold id in Hx. subst o. eauto.
  - intros (x & Hx & Hc). exists x. split; [|done]. by exists (Some x).
Qed.

(** Reading all fields succeeds only if each that is there can be read. *)
Lemma mapM_id_readable {A} (known : list (option A)) l : mapM id known = Some l → None ∉ known.
Proof.
  intros Hm%mapM_Some [i Hi]%list_elem_of_lookup. by destruct (Forall2_lookup_l _ _ _ _ _ Hm Hi) as (y & _ & Hy).
Qed.

Lemma call_circuit_names call c :
  call_circuit call = Some c → json_nullish (json_get "circuit" call) (json_get "name" call) = Some (JStr c).
Proof.
  unfold call_circuit. destruct (json_nullish _ _) as [[]|]; try done. by destruct (is_empty s); intros [= ->].
Qed.

(** The fields of a request that say something about its circuits. *)
Definition fields_of (event : string) (d : json) : list (option (list string)) :=
  omap id [Some <$> event_circuits event; circuit_field d; circuits_field d; calls_field parse d].

Lemma elem_of_fields event d o :
  o ∈ fields_of event d ↔
  Some <$> event_circuits event = Some o ∨ circuit_field d = Some o ∨ circuits_field d = Some o ∨ calls_field parse d = Some o.
Proof.
  unfold fields_of. rewrite list_elem_of_omap. unfold id. split.
  - intros (x & Hx & ->). rewrite !elem_of_cons in Hx. destruct Hx as [Hx|[Hx|[Hx|[Hx|Hx]]]]; [symmetry in Hx; tauto..|].
    by apply not_elem_of_nil in Hx.
  - intros Ho. exists (Some o). split; [|done]. rewrite !elem_of_cons. destruct Ho as [->|[->|[->| ->]]]; auto.
Qed.

(** A field that can be read names exactly its circuits. *)
Lemma field_names event d c :
  None ∉ fields_of event d →
  (∃ x, Some x ∈ fields_of event d ∧ c ∈ x) ↔ names_circuit event d c.
Proof.
  intros Hread. setoid_rewrite elem_of_fields. rewrite elem_of_fields in Hread. split.
  - intros (x & [Hx|[Hx|[Hx|Hx]]] & Hc).
    + destruct (event_circuits event) as [y|] eqn:E; [|done]. simpl in Hx. simplify_eq. by eapply names_by_action.
    + unfold circuit_field in Hx. destruct (json_get "circuit" d) as [[]|] eqn:E; try done. injection Hx as <-.
      apply list_elem_of_singleton in Hc as ->. by apply names_by_circuit.
    + unfold circuits_field in Hx. destruct (json_get "circuits" d) as [[]|] eqn:E; try done. injection Hx as Hx.
      apply (mapM_elem _ _ _ _ Hx) in Hc as (v & Hv & Hs). destruct v; try done. injection Hs as ->. by eapply names_by_circuits.
    + unfold calls_field in Hx. destruct (json_get "calls" d) as [calls|] eqn:E; [|done].
      assert (calls ≠ JNull ∧ (l ← calls_of parse calls; mapM call_circuit l) = Some x) as [Hn Hcalls] by (destruct calls; try done; by injection Hx).
      destruct (calls_of parse calls) as [cs|] eqn:Ec; [|done]. cbn [mbind option_bind] in Hcalls.
      apply (mapM_elem _ _ _ _ Hcalls) in Hc as (call & Hin & Hc). by eapply names_by_calls, call_circuit_names.
  - intros [x Hx Hc|Hx|cs Hx Hc|calls cs call Hx Hn Hcs Hin Hc].
    + exists x. rewrite Hx. auto.
    + exists [c]. split; [|set_solver]. right; left. unfold circuit_field. by rewrite Hx.
    + assert (circuits_field d = Some (strings_only cs)) as Hf by (unfold circuits_field; by rewrite Hx).
      destruct (strings_only cs) as [x|] eqn:Hs; [|tauto]. exists x. split; [tauto|].
      apply (mapM_elem _ _ _ _ Hs). by exists (JStr c).
    + assert (calls_field parse d = Some (mapM call_circuit cs)) as Hf by (unfold calls_field; rewrite Hx, Hcs; by destruct calls).
      destruct (mapM call_circuit cs) as [x|] eqn:Hs; [|tauto]. exists x. split; [tauto|].
      apply (mapM_elem _ _ _ _ Hs). exists call. split; [done|].
      assert (is_Some (call_circuit call)) as [y Hy].
      { apply (Forall_forall (λ v, is_Some (call_circuit v)) cs); [|done]. apply mapM_is_Some. by eexists. }
      pose proof (call_circuit_names _ _ Hy). congruence.
Qed.

(** The circuits read off a request are the ones it names. *)
Lemma circuitsOfRequest_names event d required c :
  circuitsOfRequest parse event d = Some required → c ∈ required ↔ names_circuit event d c.
Proof.
  unfold circuitsOfRequest. intros H. fold (fields_of event d) in H.
  assert (∃ l, mapM id (fields_of event d) = Some l ∧ required = js_set (concat l)) as (l & Hl & ->).
  { destruct (fields_of event d) as [|k0 ks]; [done|]. destruct (mapM id (k0 :: ks)) as [l|]; [|done]. injection H as <-. by eexists. }
  rewrite elem_of_js_set, (mapM_id_concat _ _ _ Hl). apply field_names. by eapply mapM_id_readable.
Qed.

Lemma fmap_empty {A B} (f : A → B) l : f <$> l = [] ↔ l = [].
Proof. by destruct l. Qed.

(** A grant admits only what it lists, and fails closed: a request passes
    exactly if its contract, when the grant lists contracts and the request
    names one, is listed, and, when the grant lists circuits, the circuits of
    the request can be read and every one it names, by its action, a field or a
    call, is listed. *)
Theorem scope_admits_only_listed contracts circuits data event :
  grantScopeViolation parse contracts circuits data event = None ↔
  (∀ a, json_get "contractAddress" data = Some (JStr a) → a ≠ EmptyString →
     parseJsonStringList contracts = [] ∨ ∃ c, c ∈ parseJsonStringList contracts ∧ lower c = lower a) ∧
  (parseJsonStringList circuits = [] ∨
   is_Some (circuitsOfRequest parse event data) ∧ ∀ c, names_circuit event data c → c ∈ parseJsonStringList circuits).
Proof.
  unfold grantScopeViolation. set (cs := parseJsonStringList contracts).
  set (address := match json_get "contractAddress" data with Some (JStr a) => a | _ => EmptyString end).
  assert ((∀ a, json_get "contractAddress" data = Some (JStr a) → a ≠ EmptyString → cs = [] ∨ ∃ c, c ∈ cs ∧ lower c = lower a) ↔
    negb (bool_decide (lower <$> cs = [])) && non_empty address && negb (mem (lower address) (lower <$> cs)) = false) as ->.
  { rewrite !andb_false_iff, !negb_false_iff, bool_decide_eq_true, mem_true, fmap_empty, list_elem_of_fmap.
    unfold non_empty, is_empty. rewrite negb_false_iff, bool_decide_eq_true. unfold address.
    destruct (json_get "contractAddress" data) as [[]|]; try (split; [by auto|by intros _ ? [=]]).
    destruct (decide (s = EmptyString)) as [->|Hne]; [split; [by auto|by intros _ ? [= <-]]|].
    split; [intros H; destruct (H s eq_refl Hne) as [?|(c & ? & ?)]; eauto|]. intros [[?|?]|(c & ? & ?)] a [= <-] _; naive_solver. }
  destruct (_ && _ && _); [split; [done|by intros [? _]]|].
  destruct (parseJsonStringList circuits) as [|c0 l]; [by split; auto|]. destruct (circuitsOfRequest parse event data) as [required|] eqn:E.
  2:{ split; [done|]. by intros [_ [?|[[? ?] _]]]. }
  setoid_rewrite <- (circuitsOfRequest_names _ _ _ _ E). destruct (keep _ required) as [|c k] eqn:Ek; cbn [head mbind option_bind].
  - split; [|done]. intros _. split; [done|]. right. split; [by eexists|]. intros c Hc. destruct (mem c (c0 :: l)) eqn:Em; [by apply mem_true|].
    exfalso. apply (not_elem_of_nil c). rewrite <- Ek. apply elem_of_keep. by rewrite Em.
  - split; [done|]. intros [_ [?|[_ H]]]; [done|]. exfalso. assert (c ∈ keep (λ c, negb (mem c (c0 :: l))) required) as Hc by (rewrite Ek; apply list_elem_of_here).
    apply elem_of_keep in Hc as [Hm Hc]. apply negb_true_iff, not_true_iff_false in Hm. by apply Hm, mem_true, H.
Qed.
End Facts.
