(* ===== verification/GrantBudgets.v ===== *)
(** The budgets of an agent grant: jobs per hour and day, value per day, deploys
    (srv/sessions/agent-grants.ts). Each takes and gives back with single
    statements on the grant's row, so parallel requests meet only there. *)
From Stdlib Require Import Ascii.
From S2P Require Import Prelude Db Json Numbers Schema SponsorPolicy GrantScope.

Set Warnings "-register-all".

(** ** Dates *)

Section Civil.
Local Open Scope Z_scope.

(** Day of the era, year of the era, day of the year. *)
Definition year_of_era (doe : Z) : Z := (doe - doe / 1460 + doe / 36524 - doe / 146096) / 365.

Lemma year_of_era_bounds doe : 0 ≤ doe < 146097 →
  let y := year_of_era doe in 0 ≤ y < 400 ∧ 0 ≤ doe - (365 * y + y / 4 - y / 100) < 366.
Proof. intros H y. unfold y, year_of_era. Z.div_mod_to_equations. lia. Qed.

Lemma month_bounds doy : 0 ≤ doy < 366 →
  let mp := (5 * doy + 2) / 153 in 0 ≤ mp < 12 ∧ 0 ≤ doy - (153 * mp + 2) / 5 < 31.
Proof. intros H mp. unfold mp. Z.div_mod_to_equations. lia. Qed.

(** The date of a day determines the day. *)
Lemma civil_roundtrip z :
  let '(y, m, d) := civil_from_days z in days_from_civil y m d = z ∧ 1 ≤ m ≤ 12 ∧ 1 ≤ d ≤ 31.
Proof.
  unfold civil_from_days. set (z' := z + 719468). set (era := z' / 146097). set (doe := z' - era * 146097).
  assert (0 ≤ doe < 146097) as Hdoe by (unfold doe, era; Z.div_mod_to_equations; lia).
  pose proof (year_of_era_bounds doe Hdoe) as Hy. fold (year_of_era doe). set (yoe := year_of_era doe) in *.
  cbn zeta in Hy. destruct Hy as [Hyoe Hdoy]. set (doy := doe - (365 * yoe + yoe / 4 - yoe / 100)) in *.
  pose proof (month_bounds doy Hdoy) as Hm. cbn zeta in Hm. set (mp := (5 * doy + 2) / 153) in *. destruct Hm as [Hmp Hd].
  set (m := if mp <? 10 then mp + 3 else mp - 9).
  assert (1 ≤ m ≤ 12 ∧ (m <=? 2) = negb (mp <? 10) ∧ (if 2 <? m then m - 3 else m + 9) = mp) as (H1 & H2 & H3).
  { unfold m. destruct (Z.ltb_spec mp 10); [|]; (split_and!; [lia|lia| |]); cbn [negb].
    - apply Z.leb_gt. lia.
    - destruct (Z.ltb_spec 2 (mp + 3)); lia.
    - apply Z.leb_le. lia.
    - destruct (Z.ltb_spec 2 (mp - 9)); lia. }
  split; [|lia]. unfold days_from_civil. rewrite H3.
  assert ((if m <=? 2 then (if m <=? 2 then yoe + era * 400 + 1 else yoe + era * 400) - 1
           else if m <=? 2 then yoe + era * 400 + 1 else yoe + era * 400) = yoe + era * 400) as -> by (destruct (m <=? 2); lia).
  assert ((yoe + era * 400) / 400 = era) as -> by (Z.div_mod_to_equations; lia).
  unfold doe, doy in *. Z.div_mod_to_equations. lia.
Qed.

Lemma civil_inj z1 z2 : civil_from_days z1 = civil_from_days z2 → z1 = z2.
Proof.
  intros H. pose proof (civil_roundtrip z1) as H1. pose proof (civil_roundtrip z2) as H2. rewrite H in H1.
  destruct (civil_from_days z2) as [[y m] d]. destruct H1 as [<- _], H2 as [<- _]. done.
Qed.

(** The days whose year has four digits. *)
Definition in_range (z : Z) : Prop := 0 ≤ z < 2932897.

Lemma civil_year z : in_range z → let '(y, m, d) := civil_from_days z in 0 ≤ y < 10000.
Proof.
  unfold in_range. intros Hz. pose proof (civil_roundtrip z) as H. destruct (civil_from_days z) as [[y m] d].
  destruct H as (H & Hm & Hd). unfold days_from_civil in H.
  destruct (Z.leb_spec m 2), (Z.ltb_spec 2 m); Z.div_mod_to_equations; lia.
Qed.
End Civil.

(** ** Digits *)

Lemma digit_inj a b : digit a = digit b → (a mod 10 = b mod 10)%Z.
Proof.
  unfold digit. intros H. apply (f_equal Ascii.N_of_ascii) in H.
  pose proof (Z.mod_pos_bound a 10 ltac:(lia)). pose proof (Z.mod_pos_bound b 10 ltac:(lia)).
  rewrite !Ascii.N_ascii_embedding in H by lia. lia.
Qed.

Lemma pad_inj w n1 n2 s1 s2 :
  (0 ≤ n1 < 10 ^ Z.of_nat w)%Z → (0 ≤ n2 < 10 ^ Z.of_nat w)%Z → pad w n1 s1 = pad w n2 s2 → n1 = n2 ∧ s1 = s2.
Proof.
  revert n1 n2 s1 s2. induction w as [|w IH]; intros n1 n2 s1 s2 H1 H2 H; [simpl in *; split; [lia|done]|].
  rewrite Nat2Z.inj_succ, Z.pow_succ_r in H1, H2 by lia. cbn [pad] in H. apply IH in H as [Hd Hs].
  - injection Hs as Hc Hs. apply digit_inj in Hc. split; [|done].
    rewrite (Z.div_mod n1 10), (Z.div_mod n2 10) by lia. lia.
  - split; [apply Z.div_pos; lia|apply Z.div_lt_upper_bound; lia].
  - split; [apply Z.div_pos; lia|apply Z.div_lt_upper_bound; lia].
Qed.

Lemma append_assoc (a b c : string) : ((a ++ b) ++ c)%string = (a ++ (b ++ c))%string.
Proof. induction a as [|x a IH]; [done|]. by apply (f_equal (String x)) in IH. Qed.

Lemma append_length (a b : string) : String.length (a ++ b)%string = String.length a + String.length b.
Proof. induction a as [|x a IH]; [done|]. by apply (f_equal S) in IH. Qed.

Lemma char_inj c (a b : string) : (String c EmptyString ++ a)%string = (String c EmptyString ++ b)%string → a = b.
Proof. intros H. by apply (f_equal (λ s, match s with String _ t => t | EmptyString => EmptyString end)) in H. Qed.

Lemma pad_app w n s t : pad w n (s ++ t)%string = (pad w n s ++ t)%string.
Proof. revert n s. induction w as [|w IH]; intros n s; [done|]. cbn [pad]. by rewrite <- IH. Qed.

Lemma pad_length w n s : String.length (pad w n s) = w + String.length s.
Proof. revert n s. induction w as [|w IH]; intros n s; [done|]. cbn [pad]. rewrite IH. simpl. lia. Qed.

Lemma slice0_app s t : slice0 (String.length s) (s ++ t)%string = s.
Proof. unfold slice0. induction s as [|a s IH]; [by destruct t|]. by apply (f_equal (String a)) in IH. Qed.

(** ** Windows *)

Local Open Scope string_scope.

(** [now.toISOString().slice(0, 10)] and [.slice(0, 13)]. *)
Definition utcDay (now : Z) : string := slice0 10 (toISOString now).
Definition utcHour (now : Z) : string := slice0 13 (toISOString now).

Definition day_text (z : Z) (rest : string) : string :=
  let '(y, m, d) := civil_from_days z in pad 4 y ("-" ++ pad 2 m ("-" ++ pad 2 d rest)).

Lemma day_text_app z s t : day_text z (s ++ t) = (day_text z s ++ t)%string.
Proof.
  unfold day_text. destruct (civil_from_days z) as [[y m] d].
  by rewrite <- pad_app, append_assoc, <- pad_app, append_assoc, <- pad_app.
Qed.

Lemma day_text_length z s : String.length (day_text z s) = 10 + String.length s.
Proof. unfold day_text. destruct (civil_from_days z) as [[y m] d]. rewrite pad_length, append_length, pad_length, append_length, pad_length. simpl. lia. Qed.

Lemma day_text_inj z1 z2 s1 s2 : in_range z1 → in_range z2 → day_text z1 s1 = day_text z2 s2 → z1 = z2 ∧ s1 = s2.
Proof.
  intros R1 R2 H. pose proof (civil_year _ R1) as Y1. pose proof (civil_year _ R2) as Y2.
  pose proof (civil_roundtrip z1) as C1. pose proof (civil_roundtrip z2) as C2.
  pose proof (civil_inj z1 z2) as Hinj. unfold day_text in H.
  destruct (civil_from_days z1) as [[y1 m1] d1], (civil_from_days z2) as [[y2 m2] d2].
  apply pad_inj in H as [-> H]; [|simpl; lia|simpl; lia]. apply char_inj in H.
  apply pad_inj in H as [-> H]; [|simpl; lia|simpl; lia]. apply char_inj in H.
  apply pad_inj in H as [-> H]; [|simpl; lia|simpl; lia]. split; [by apply Hinj|done].
Qed.

Lemma slice0_prefix n s t : String.length s = n → slice0 n (s ++ t)%string = s.
Proof. intros <-. apply slice0_app. Qed.

Lemma utcDay_text now : utcDay now = day_text (now / 86400000) EmptyString.
Proof.
  unfold utcDay.
  assert (∃ t, toISOString now = (day_text (now / 86400000) EmptyString ++ t)%string) as [t ->].
  { eexists. rewrite <- day_text_app. reflexivity. }
  apply slice0_prefix. by rewrite day_text_length.
Qed.

Lemma utcHour_text now :
  utcHour now = day_text (now / 86400000) ("T" ++ pad 2 (now mod 86400000 / 3600000) EmptyString).
Proof.
  unfold utcHour.
  assert (∃ t, toISOString now = (day_text (now / 86400000) ("T" ++ pad 2 (now mod 86400000 / 3600000) EmptyString) ++ t)%string) as [t ->].
  { eexists. rewrite <- day_text_app, append_assoc, <- pad_app. reflexivity. }
  apply slice0_prefix. by rewrite day_text_length, append_length, pad_length.
Qed.

(** The instants the four-digit years cover. *)
Definition representable (now : Z) : Prop := (0 ≤ now < 2932897 * 86400000)%Z.

Lemma representable_day now : representable now → in_range (now / 86400000).
Proof. unfold representable, in_range. intros H. split; [apply Z.div_pos; lia|apply Z.div_lt_upper_bound; lia]. Qed.

Lemma utcDay_inj t1 t2 : representable t1 → representable t2 → utcDay t1 = utcDay t2 ↔ (t1 / 86400000 = t2 / 86400000)%Z.
Proof.
  intros R1%representable_day R2%representable_day. rewrite !utcDay_text. split; [|by intros ->].
  intros H. by apply day_text_inj in H as [H _].
Qed.

Lemma utcHour_inj t1 t2 : representable t1 → representable t2 → utcHour t1 = utcHour t2 ↔ (t1 / 3600000 = t2 / 3600000)%Z.
Proof.
  intros R1%representable_day R2%representable_day. rewrite !utcHour_text.
  assert (∀ t, (t / 3600000 = t / 86400000 * 24 + t mod 86400000 / 3600000 ∧ 0 ≤ t mod 86400000 / 3600000 < 24)%Z) as Hh
    by (intros t; Z.div_mod_to_equations; lia).
  pose proof (Hh t1). pose proof (Hh t2). split.
  - intros H1. apply day_text_inj in H1 as [H1 H2]; [|done|done]. apply char_inj in H2. apply pad_inj in H2 as [H2 _]; simpl; lia.
  - intros H1. assert (t1 / 86400000 = t2 / 86400000 ∧ t1 mod 86400000 / 3600000 = t2 mod 86400000 / 3600000)%Z as [-> ->] by lia. done.
Qed.

Example utcDay_ex : utcDay 1700000000123 = "2023-11-14". Proof. by vm_compute. Qed.
Example utcHour_ex : utcHour 1700000000123 = "2023-11-14T22". Proof. by vm_compute. Qed.

(** ** Budgets *)

(** [UPDATE AgentGrants SET p WHERE ID = k AND c]; the assignments may use the row. *)
Definition update_grant (k : string) (c : Grant → bool) (p : Grant → list grant_set) : M Database nat := λ d,
  let '(t, n) := sql_update_key k c (λ r, patch_grant (p r) r) (grants d) in (Ret n, with_grants t d).

Definition select_grant (k : string) : M Database (option Grant) := λ d, (Ret (grants d !! k), d).

(** [{ '+=': n }] and a comparison, on a column that may be null. *)
Definition plus (c : option Z) (n : Z) : option Z := (λ x, (x + n)%Z) <$> c.
Definition column_lt (c : option Z) (n : Z) : bool := match c with Some x => bool_decide (x < n)%Z | None => false end.
Definition column_le (c : option Z) (n : Z) : bool := match c with Some x => bool_decide (x ≤ n)%Z | None => false end.

(** ** Jobs per hour and per day *)

Inductive GrantBudget := HOUR_BUDGET | DAY_BUDGET.

#[export] Instance GrantBudget_dec : EqDecision GrantBudget.
Proof. solve_decision. Defined.


Definition GRANT_BUDGETS : list GrantBudget := [HOUR_BUDGET; DAY_BUDGET].

Definition limitName (b : GrantBudget) : string := match b with HOUR_BUDGET => "grant-hour" | DAY_BUDGET => "grant-day" end.
Definition windowMs (b : GrantBudget) : Z := match b with HOUR_BUDGET => 3600000 | DAY_BUDGET => 86400000 end.
Definition maxField (b : GrantBudget) (g : Grant) : option Z :=
  match b with HOUR_BUDGET => g_maxJobsPerHour g | DAY_BUDGET => g_maxJobsPerDay g end.
Definition usedField (b : GrantBudget) (g : Grant) : option Z :=
  match b with HOUR_BUDGET => g_jobsUsedThisHour g | DAY_BUDGET => g_jobsUsedToday g end.
Definition windowField (b : GrantBudget) (g : Grant) : option string :=
  match b with HOUR_BUDGET => g_hourWindow g | DAY_BUDGET => g_budgetWindow g end.
Definition set_used (b : GrantBudget) : option Z → grant_set :=
  match b with HOUR_BUDGET => GSetJobsUsedThisHour | DAY_BUDGET => GSetJobsUsedToday end.
Definition set_window (b : GrantBudget) : option string → grant_set :=
  match b with HOUR_BUDGET => GSetHourWindow | DAY_BUDGET => GSetBudgetWindow end.
Definition current (b : GrantBudget) (now : Z) : string := match b with HOUR_BUDGET => utcHour now | DAY_BUDGET => utcDay now end.

(** The start of the next hour or day. *)
Definition resetsAt (b : GrantBudget) (now : Z) : Z := ((now / windowMs b + 1) * windowMs b)%Z.

Definition usedInWindow (g : Grant) (b : GrantBudget) (now : Z) : Z :=
  if bool_decide (windowField b g = Some (current b now)) then nullish (usedField b g) 0%Z else 0%Z.

Record BudgetView := MkBudgetView { bv_max : option Z; bv_used : Z; bv_resetsAt : Z }.
Definition budgetView (g : Grant) (b : GrantBudget) (now : Z) : BudgetView :=
  MkBudgetView (maxField b g) (usedInWindow g b now) (resetsAt b now).

(** A new window's first unit, unless another request reset it first. *)
Definition reset_window (id : string) (b : GrantBudget) (seen : option string) (window : string) : M Database nat :=
  update_grant id (λ r, bool_decide (windowField b r = seen)) (λ _, [set_window b (Some window); set_used b (Some 1%Z)]).

Definition take_unit (id : string) (b : GrantBudget) (max : Z) (window : string) : M Database nat :=
  update_grant id (λ r, bool_decide (windowField b r = Some window) && column_lt (usedField b r) max)
    (λ r, [set_used b (plus (usedField b r) 1)]).

(** [grant] is the row as the request read it, [now] the time of the call. *)
Definition consumeBudget (now : Z) (id : string) (grant : Grant) (b : GrantBudget) : M Database bool :=
  let window := current b now in
  let max := nullish (maxField b grant) 0%Z in
  reset ← (if bool_decide (windowField b grant = Some window) then mret 0
           else reset_window id b (windowField b grant) window);
  if bool_decide (0 < reset) then mret true
  else incremented ← take_unit id b max window; mret (bool_decide (0 < incremented)).

Definition refundBudget (now : Z) (id : string) (b : GrantBudget) : M Database nat :=
  update_grant id (λ r, bool_decide (windowField b r = Some (current b now)) && bool_decide (is_Some (usedField b r)) &&
                        negb (column_le (usedField b r) 0))
    (λ r, [set_used b (plus (usedField b r) (-1))]).

(** ** Value per day *)

Definition ValueBudgetMap := list (string * string).

Definition all_digits_text (s : string) : bool := non_empty s && all_chars is_digit s.

(** A stored map; malformed data and entries read as absent. *)
Definition parseValueBudgetMap (raw : option json_text) : ValueBudgetMap :=
  match raw with
  | Some (Text (JObj fields)) =>
      omap (λ e, match e.2 with
                 | JStr amount => if HEX64_RE e.1 && all_digits_text amount then Some (e.1, amount) else None
                 | _ => None
                 end) fields
  | _ => []
  end.

Definition value_map_text (m : ValueBudgetMap) : json_text := Text (JObj ((λ e, (e.1, JStr e.2)) <$> m)).

(** [BigInt(text)] of a text of digits. *)
Definition big_of_text (s : string) : Z := nullish (parse_digits s) 0%Z.

(** [BigInt(used[type] ?? '0')] *)
Definition used_of (type : string) (m : ValueBudgetMap) : Z := nullish (big_of_text <$> map_get type m) 0%Z.

(** What the row counts for the day. *)
Definition used_today (now : Z) (g : Grant) : ValueBudgetMap :=
  if bool_decide (g_valueWindow g = Some (utcDay now)) then parseValueBudgetMap (g_valueUsedToday g) else [].

Inductive ValueOutcome := NoLimit | TakenValue | Refused (max : string) (used : Z).

#[export] Instance ValueOutcome_dec : EqDecision ValueOutcome.
Proof. solve_decision. Defined.

(** The part of [consumeValueBudget] that runs under the lock of the grant. *)
Definition take_value (now : Z) (grantId type : string) (amount : Z) : M Database ValueOutcome :=
  grant ← currentGrantRow now grantId;
  match grant with
  | None => mret NoLimit
  | Some grant =>
      match map_get type (parseValueBudgetMap (g_maxValuePerDay grant)) with
      | None => mret NoLimit
      | Some max =>
          let used := used_today now grant in
          let usedNow := used_of type used in
          if bool_decide (big_of_text max < usedNow + amount)%Z then mret (Refused max usedNow)
          else
            let next := map_set type (pretty (usedNow + amount)%Z) used in
            _ ← update_grant grantId (λ _, true)
                  (λ _, [GSetValueWindow (Some (utcDay now)); GSetValueUsedToday (Some (value_map_text next))]);
            mret TakenValue
      end
  end.

(** True: the request goes on; false: it was answered 429. *)
Definition consumeValueBudget (now : Z) (grantId tokenType : string) (amount : Z) : M Database (bool * bool) :=
  if bool_decide (amount ≤ 0)%Z then mret (true, false)
  else o ← take_value now grantId (lower tokenType) amount;
       mret match o with NoLimit => (true, false) | TakenValue => (true, true) | Refused _ _ => (false, false) end.

Definition refundValueBudget (now : Z) (grantId type : string) (amount : Z) : M Database unit :=
  grant ← currentGrantRow now grantId;
  match grant with
  | None => mret tt
  | Some grant =>
      if negb (bool_decide (g_valueWindow grant = Some (utcDay now))) then mret tt
      else
        let used := parseValueBudgetMap (g_valueUsedToday grant) in
        let left := (used_of type used - amount)%Z in
        let used' := map_set type (pretty (Z.max left 0)) used in
        _ ← update_grant grantId (λ _, true) (λ _, [GSetValueUsedToday (Some (value_map_text used'))]);
        mret tt
  end.

(** ** Deploys *)

(** All or nothing; inside the transaction that inserts the attempt row. *)
Definition reserveDeployBudget (grantId : string) (count : Z) : M Database bool :=
  if is_empty grantId || bool_decide (count < 1)%Z then mret false
  else
    grant ← select_grant grantId;
    match grant with
    | None => mret false
    | Some g =>
        if bool_decide (g_isActive g = Some false) || negb (is_true (g_allowDeploy g)) then mret false
        else
          let max := nullish (g_maxDeploys g) 1%Z in
          updated ← update_grant grantId
            (λ r, is_true (g_isActive r) && is_true (g_allowDeploy r) && column_le (g_deploysUsed r) (max - count))
            (λ r, [GSetDeploysUsed (plus (g_deploysUsed r) count)]);
          mret (bool_decide (0 < updated))
    end.

(** [fresh] deployed addresses, trimmed. *)
Definition recordDeployedContracts (grantId : string) (addresses : list string) : M Database unit :=
  let fresh := keep non_empty (trim <$> addresses) in
  if is_empty grantId || bool_decide (fresh = []) then mret tt
  else
    grant ← select_grant grantId;
    match grant with
    | None => mret tt
    | Some g =>
        let current := parseJsonStringList (g_deployedContracts g) in
        let merged := foldl set_add current fresh in
        if bool_decide (length merged = length current) then mret tt
        else _ ← update_grant grantId (λ _, true) (λ _, [GSetDeployedContracts (Some (json_strings merged))]); mret tt
    end.

Definition recordMintedTokenTypes (grantId : string) (types : list string) : M Database unit :=
  let fresh := js_set (keep HEX64_RE ((λ t, lower (trim t)) <$> types)) in
  if is_empty grantId || bool_decide (fresh = []) then mret tt
  else
    grant ← select_grant grantId;
    match grant with
    | None => mret tt
    | Some g =>
        let current := parseJsonStringList (g_mintedTokenTypes g) in
        let added := keep (λ t, negb (mem t current)) fresh in
        if bool_decide (added = []) || (MAX_POLICY_ENTRIES <? length current + length added)%nat then mret tt
        else _ ← update_grant grantId (λ _, true) (λ _, [GSetMintedTokenTypes (Some (json_strings (current ++ added)))]); mret tt
    end.
