(* ===== verification/BudgetFacts.v ===== *)
(** The budgets of a grant hold however the requests of its token interleave. *)
From Stdlib Require Import Ascii.
From S2P Require Import Prelude Db Json Numbers Schema SponsorPolicy GrantScope GrantBudgets.

Set Warnings "-register-all".

Local Open Scope string_scope.

Lemma update_grant_cases k c p d o d' :
  update_grant k c p d = (o, d') →
  (∃ g, grants d !! k = Some g ∧ c g = true ∧ o = Ret 1 ∧
        d' = with_grants (<[k := patch_grant (p g) g]> (grants d)) d) ∨
  (o = Ret 0 ∧ d' = d ∧ ∀ g, grants d !! k = Some g → c g = false).
Proof.
  unfold update_grant. intros H.
  destruct (sql_update_key k c (λ r, patch_grant (p r) r) (grants d)) as [t n] eqn:E.
  apply sql_update_key_cases in E as [(-> & r & Hr & Hc & ->)|(-> & -> & Hc)]; simplify_eq.
  - left. eauto 6.
  - right. split_and!; [done|by destruct d|done].
Qed.

(** ** Windows *)

Definition window_of (b : GrantBudget) (t : Z) : Z := (t / windowMs b)%Z.

Lemma windowMs_pos b : (0 < windowMs b)%Z.
Proof. by destruct b. Qed.

Lemma current_inj b t1 t2 :
  representable t1 → representable t2 → current b t1 = current b t2 ↔ window_of b t1 = window_of b t2.
Proof. intros R1 R2. destruct b; [by apply utcHour_inj|by apply utcDay_inj]. Qed.

Lemma window_mono b t1 t2 : (t1 ≤ t2)%Z → (window_of b t1 ≤ window_of b t2)%Z.
Proof. intros H. apply Z.div_le_mono; [apply windowMs_pos|done]. Qed.

Section Budget.
Context (id : string) (b : GrantBudget) (m : Z).
Hypothesis m_pos : (1 ≤ m)%Z.

(** *** The requests on one grant

    Requests read the row, then run the statements of [consumeBudget] and
    [refundBudget] one by one, in any interleaving; the log keeps the statements
    that counted, with the time their window was computed from. *)
Record World := MkWorld {
  w_db : Database; w_clock : Z; w_reads : list (option string * Z); w_log : list (bool * Z) }.

(** What the statements see of the row. *)
Definition counted (d : Database) : option (option string * option Z) :=
  (λ g, (windowField b g, usedField b g)) <$> grants d !! id.

Definition log_if (n : nat) (e : bool * Z) (log : list (bool * Z)) : list (bool * Z) :=
  if bool_decide (0 < n) then (log ++ [e])%list else log.

Inductive world_step : World → World → Prop :=
| world_tick d t t' rs log : (t ≤ t')%Z → representable t' → world_step (MkWorld d t rs log) (MkWorld d t' rs log)
| world_read d t rs log g :
    grants d !! id = Some g → world_step (MkWorld d t rs log) (MkWorld d t ((windowField b g, t) :: rs) log)
| world_reset d t rs log seen read now n d' :
    (seen, read) ∈ rs → (read ≤ now ≤ t)%Z → seen ≠ Some (current b now) →
    reset_window id b seen (current b now) d = (Ret n, d') →
    world_step (MkWorld d t rs log) (MkWorld d' t rs (log_if n (true, now) log))
| world_take d t rs log seen read now max n d' :
    (seen, read) ∈ rs → (read ≤ now ≤ t)%Z → (max ≤ m)%Z → take_unit id b max (current b now) d = (Ret n, d') →
    world_step (MkWorld d t rs log) (MkWorld d' t rs (log_if n (true, now) log))
| world_refund d t rs log now n d' :
    (0 ≤ now ≤ t)%Z → refundBudget now id b d = (Ret n, d') →
    world_step (MkWorld d t rs log) (MkWorld d' t rs (log_if n (false, now) log))
| world_other d t rs log d' : counted d' = counted d → world_step (MkWorld d t rs log) (MkWorld d' t rs log).

(** Units taken less units given back, by statements of window [c]. *)
Definition net (c : Z) (log : list (bool * Z)) : Z :=
  foldr (λ (e : bool * Z) acc, ((if bool_decide (window_of b e.2 = c) then if e.1 then 1 else -1 else 0) + acc)%Z) 0%Z log.

Lemma net_app c l1 l2 : net c (l1 ++ l2)%list = (net c l1 + net c l2)%Z.
Proof. induction l1 as [|e l1 IH]; [done|]. cbn [app net foldr] in *. unfold net in *. lia. Qed.

Lemma net_none c log : (∀ e, e ∈ log → window_of b e.2 ≠ c) → net c log = 0%Z.
Proof.
  induction log as [|e log IH]; intros H; [done|]. cbn [net foldr]. rewrite bool_decide_eq_false_2 by (apply H, list_elem_of_here).
  unfold net in IH. rewrite IH; [done|]. intros e' He'. by apply H, list_elem_of_further.
Qed.

(** The row counts the window it holds; no statement counted in a later one. *)
Definition row_ok (d : Database) (t : Z) (rs : list (option string * Z)) (log : list (bool * Z)) : Prop :=
  match counted d with
  | None => True
  | Some (None, _) => log = [] ∧ ∀ seen read, (seen, read) ∈ rs → seen = None
  | Some (Some w, used) =>
      ∃ t0, w = current b t0 ∧ (0 ≤ t0 ≤ t)%Z ∧
        (∃ u, used = Some u ∧ u = net (window_of b t0) log ∧ (0 ≤ u ≤ m)%Z) ∧
        (∀ e, e ∈ log → (window_of b e.2 ≤ window_of b t0)%Z) ∧
        ∀ s read, (Some s, read) ∈ rs → ∃ ts, s = current b ts ∧ (0 ≤ ts ≤ read)%Z ∧ (window_of b ts ≤ window_of b t0)%Z
  end.

Definition world_ok (w : World) : Prop :=
  (0 ≤ w_clock w)%Z ∧ representable (w_clock w) ∧ (∀ seen read, (seen, read) ∈ w_reads w → 0 ≤ read ≤ w_clock w)%Z ∧
  row_ok (w_db w) (w_clock w) (w_reads w) (w_log w) ∧ ∀ c, (net c (w_log w) ≤ m)%Z.

Lemma representable_le t t' : (0 ≤ t ≤ t')%Z → representable t' → representable t.
Proof. unfold representable. lia. Qed.

Ltac open_row Hrow Hg := unfold row_ok, counted in Hrow; rewrite Hg in Hrow; cbn [fmap option_fmap option_map] in Hrow.
Ltac same_window := apply current_inj; [by eapply representable_le; [|done]; lia|by eapply representable_le; [|done]; lia|done].

Lemma counted_set d g a :
  grants d !! id = Some g →
  counted (with_grants (<[id := patch_grant a g]> (grants d)) d) = Some (windowField b (patch_grant a g), usedField b (patch_grant a g)).
Proof. intros _. unfold counted. simpl. by rewrite lookup_insert_eq. Qed.

(** A statement that changes nothing keeps the invariant; so does one that only
    adds to the log of the window the row holds. *)
Lemma log_step d' t rs log u' w (e : bool * Z) t0 :
  counted d' = Some (Some w, Some u') → w = current b t0 → (0 ≤ t0 ≤ t)%Z →
  window_of b e.2 = window_of b t0 → (0 ≤ u' ≤ m)%Z → u' = (net (window_of b t0) log + (if e.1 then 1 else -1)%Z)%Z →
  (∀ e, e ∈ log → (window_of b e.2 ≤ window_of b t0)%Z) →
  (∀ s read, (Some s, read) ∈ rs → ∃ ts, s = current b ts ∧ (0 ≤ ts ≤ read)%Z ∧ (window_of b ts ≤ window_of b t0)%Z) →
  (∀ c, net c log ≤ m)%Z →
  row_ok d' t rs (log ++ [e])%list ∧ ∀ c, (net c (log ++ [e])%list ≤ m)%Z.
Proof using m_pos.
  intros Hc -> Ht He Hu Hu' Hlog Hrs Hm. assert (∀ c, net c [e] = (if bool_decide (window_of b t0 = c) then if e.1 then 1 else -1 else 0)%Z) as Hnet.
  { intros c. unfold net. simpl. rewrite He. lia. }
  split.
  - unfold row_ok. rewrite Hc. exists t0. split_and!; [done|lia|lia| | |done].
    + exists u'. rewrite net_app, Hnet, bool_decide_eq_true_2 by done. split_and!; [done|done|lia|lia].
    + intros e' [Hin| ->%list_elem_of_singleton]%elem_of_app; [by apply Hlog|]. lia.
  - intros c. rewrite net_app, Hnet. case_bool_decide as Hcase; [subst c; lia|]. specialize (Hm c). lia.
Qed.

Lemma reset_ok d t rs log seen read now n d' :
  world_ok (MkWorld d t rs log) → (seen, read) ∈ rs → (read ≤ now ≤ t)%Z → seen ≠ Some (current b now) →
  reset_window id b seen (current b now) d = (Ret n, d') → world_ok (MkWorld d' t rs (log_if n (true, now) log)).
Proof using m_pos.
  intros (H0 & Hrep & Hrd & Hrow & Hnet) Hin Hnow Hne H. cbn [w_db w_clock w_reads w_log] in *. pose proof (Hrd _ _ Hin) as Hread.
  unfold reset_window in H. apply update_grant_cases in H as [(g & Hg & Hw & [= ->] & ->)|([= ->] & -> & _)]; [|done].
  apply bool_decide_eq_true_1 in Hw. unfold log_if. rewrite bool_decide_eq_true_2 by lia.
  unfold world_ok. cbn [w_db w_clock w_reads w_log]. cut (row_ok (with_grants (<[id:=patch_grant [set_window b (Some (current b now)); set_used b (Some 1%Z)] g]> (grants d)) d) t rs (log ++ [(true, now)])%list ∧
    ∀ c, (net c (log ++ [(true, now)])%list ≤ m)%Z); [by intros []|].
  assert (∀ e, e ∈ log → (window_of b e.2 < window_of b now)%Z) as Hlog.
  { open_row Hrow Hg. rewrite Hw in Hrow. destruct seen as [s|].
    - destruct Hrow as (t0 & -> & Ht0 & _ & Hlog & Hrs). intros e He. specialize (Hlog e He).
      destruct (Hrs _ _ Hin) as (ts & Hs & Hts & _). assert (window_of b ts = window_of b t0) as Heq.
      { same_window. }
      assert (window_of b t0 ≤ window_of b now)%Z by (rewrite <- Heq; apply window_mono; lia).
      assert (window_of b t0 ≠ window_of b now); [|lia]. intros Hc. apply Hne. f_equal. same_window.
    - destruct Hrow as [-> _]. intros e He. by apply not_elem_of_nil in He. }
  apply (log_step _ _ _ _ 1 (current b now) (true, now) now).
  - rewrite counted_set by done. by destruct b.
  - done.
  - lia.
  - done.
  - lia.
  - rewrite net_none; [done|]. intros e He. specialize (Hlog e He). lia.
  - intros e He. specialize (Hlog e He). lia.
  - intros s rd Hs. open_row Hrow Hg. rewrite Hw in Hrow. destruct seen as [s0|].
    + destruct Hrow as (t0 & -> & Ht0 & _ & _ & Hrs). destruct (Hrs _ _ Hs) as (ts & -> & Hts & Hle).
      exists ts. split_and!; [done|lia|lia|]. destruct (Hrs _ _ Hin) as (ts' & Hs' & Hts' & _).
      assert (window_of b t0 = window_of b ts') as Heq.
      { same_window. }
      pose proof (window_mono b ts' now). lia.
    + destruct Hrow as [_ Hrs]. by specialize (Hrs _ _ Hs).
  - done.
Qed.

(** A statement that counts in the window the row holds. *)
Lemma count_ok d t rs log now (e : bool) g u p :
  world_ok (MkWorld d t rs log) → (0 ≤ now ≤ t)%Z → grants d !! id = Some g →
  windowField b g = Some (current b now) → usedField b g = Some u →
  p = [set_used b (Some (u + if e then 1 else -1)%Z)] → (0 ≤ u + (if e then 1 else -1) ≤ m)%Z →
  world_ok (MkWorld (with_grants (<[id := patch_grant p g]> (grants d)) d) t rs (log ++ [(e, now)])%list).
Proof using m_pos.
  intros (H0 & Hrep & Hrd & Hrow & Hnet) Hnow Hg Hw Hu -> Hb. unfold world_ok. cbn [w_db w_clock w_reads w_log] in *.
  open_row Hrow Hg. rewrite Hw, Hu in Hrow.
  destruct Hrow as (t0 & Heq & Ht0 & (u0 & Hu0 & Hnu & _) & Hlog & Hrs). simplify_eq.
  assert (window_of b now = window_of b t0) as Hwin.
  { same_window. }
  cut (row_ok (with_grants (<[id:=patch_grant [set_used b (Some (net (window_of b t0) log + if e then 1 else -1)%Z)] g]> (grants d)) d) t rs (log ++ [(e, now)])%list ∧
    ∀ c, (net c (log ++ [(e, now)])%list ≤ m)%Z); [by intros []|].
  eapply (log_step _ _ _ _ _ (current b now) (e, now) t0); [|done|lia|done|exact Hb|done|done|done|done].
  rewrite counted_set by done. by destruct b; simpl in *; rewrite Hw.
Qed.

Lemma world_step_ok w w' : world_step w w' → world_ok w → world_ok w'.
Proof using m_pos.
  intros Hs Hok. pose proof Hok as (H0 & Hrep & Hrd & Hrow & Hnet).
  destruct Hs as [d t t' rs log Ht Ht'|d t rs log g Hg|d t rs log seen read now n d' Hin Hnow Hne H
                 |d t rs log seen read now max n d' Hin Hnow Hmax H|d t rs log now n d' Hnow H|d t rs log d' Hc];
    cbn [w_db w_clock w_reads w_log] in *.
  - unfold world_ok. cbn [w_db w_clock w_reads w_log]. split_and!; [lia|done| | |done].
    + intros s r Hin. specialize (Hrd _ _ Hin). lia.
    + unfold row_ok in *. destruct (counted d) as [[[w|] u]|]; [|done|done].
      destruct Hrow as (t0 & ? & ? & ?). exists t0. split_and!; [done|lia|lia|tauto..].
  - unfold world_ok. cbn [w_db w_clock w_reads w_log]. split_and!; [lia|done| | |done].
    + intros s r [Heq|Hin]%elem_of_cons; [simplify_eq; lia|by eapply Hrd].
    + unfold row_ok, counted in *. rewrite Hg in *. cbn [fmap option_fmap option_map] in *.
      destruct (windowField b g) as [w|].
      * destruct Hrow as (t0 & -> & Ht0 & Hu & Hlog & Hrs). exists t0. split_and!; [done|lia|lia|done|done|].
        intros s r [Heq|Hin]%elem_of_cons; [simplify_eq; exists t0; split_and!; [done|lia|lia|lia]|by eapply Hrs].
      * destruct Hrow as [-> Hrs]. split; [done|]. intros s r [Heq|Hin]%elem_of_cons; [by simplify_eq|by eapply Hrs].
  - by eapply reset_ok.
  - specialize (Hrd _ _ Hin). unfold take_unit in H.
    apply update_grant_cases in H as [(g & Hg & Hw & [= ->] & ->)|([= ->] & -> & _)]; [|done].
    apply andb_true_iff in Hw as [Hw%bool_decide_eq_true_1 Hlt]. unfold column_lt in Hlt.
    destruct (usedField b g) as [u|] eqn:Hu; [|done]. apply bool_decide_eq_true_1 in Hlt.
    unfold log_if. rewrite bool_decide_eq_true_2 by lia. eapply count_ok; [done|lia|done|done|exact Hu|done|].
    open_row Hrow Hg. rewrite Hw, Hu in Hrow.
    destruct Hrow as (_ & _ & _ & (u0 & [= <-] & _ & ?) & _). lia.
  - unfold refundBudget in H. apply update_grant_cases in H as [(g & Hg & Hw & [= ->] & ->)|([= ->] & -> & _)]; [|done].
    apply andb_true_iff in Hw as [[Hw%bool_decide_eq_true_1 _]%andb_true_iff Hpos]. unfold column_le in Hpos.
    destruct (usedField b g) as [u|] eqn:Hu; [|].
    + apply negb_true_iff, bool_decide_eq_false_1 in Hpos. unfold log_if. rewrite bool_decide_eq_true_2 by lia.
      eapply count_ok; [done|lia|done|done|exact Hu|done|].
      open_row Hrow Hg. rewrite Hw, Hu in Hrow.
      destruct Hrow as (_ & _ & _ & (u0 & [= <-] & _ & ?) & _). lia.
    + exfalso. open_row Hrow Hg. rewrite Hw, Hu in Hrow.
      by destruct Hrow as (_ & _ & _ & (u0 & ? & _) & _).
  - unfold world_ok, row_ok in *. cbn [w_db w_clock w_reads w_log]. by rewrite Hc.
Qed.

(** A run of [consumeBudget] on a row the request has read is made of these
    steps, and it answers true exactly when it counted a unit. *)
Lemma consume_steps d t rs log read now g r d' :
  (windowField b g, read) ∈ rs → (read ≤ now ≤ t)%Z → (nullish (maxField b g) 0 ≤ m)%Z →
  consumeBudget now id g b d = (Ret r, d') →
  rtc world_step (MkWorld d t rs log) (MkWorld d' t rs (if r then log ++ [(true, now)] else log)%list).
Proof.
  intros Hin Hnow Hm. unfold consumeBudget.
  assert (∀ d d' r, (incremented ← take_unit id b (nullish (maxField b g) 0%Z) (current b now);
            mret (bool_decide (0 < incremented))) d = (Ret r, d') →
          rtc world_step (MkWorld d t rs log) (MkWorld d' t rs (if r then log ++ [(true, now)] else log)%list)) as Htake.
  { intros d0 d0' r0 H. apply bind_ret_inv in H as (n & d1 & Ht & [= <- <-]).
    eapply rtc_l; [by eapply (world_take _ _ _ _ _ _ now)|]. unfold log_if. by case_bool_decide. }
  case_bool_decide as Hw; intros H.
  - apply bind_ret_inv in H as (n & d1 & [= <- <-] & H). by apply Htake.
  - apply bind_ret_inv in H as (n & d1 & Hr & H).
    assert (world_step (MkWorld d t rs log) (MkWorld d1 t rs (log_if n (true, now) log))) as Hs by by eapply world_reset.
    eapply rtc_l; [exact Hs|]. unfold log_if in *. case_bool_decide as Hn.
    + by injection H as <- <-.
    + by apply Htake.
Qed.
End Budget.

(** However the requests of a token interleave, reading the row early and
    running the statements of [consumeBudget] and [refundBudget] later, the
    jobs admitted in an hour or day less those given back in it never exceed
    the limit; the stored counter keeps between zero and the limit; and a
    request is admitted only while the window it is admitted in has room. *)
Theorem job_budget_respected id b m d t w c :
  (1 ≤ m)%Z → (0 ≤ t)%Z → representable t → (∀ g, grants d !! id = Some g → windowField b g = None) →
  rtc (world_step id b m) (MkWorld d t [] []) w →
  (net b c (w_log w) ≤ m)%Z ∧
  (∀ g, grants (w_db w) !! id = Some g → is_Some (windowField b g) → ∃ u, usedField b g = Some u ∧ (0 ≤ u ≤ m)%Z) ∧
  (∀ g read now d', (windowField b g, read) ∈ w_reads w → (read ≤ now ≤ w_clock w)%Z → (nullish (maxField b g) 0 ≤ m)%Z →
     consumeBudget now id g b (w_db w) = (Ret true, d') → (net b (window_of b now) (w_log w) < m)%Z).
Proof.
  intros Hm Ht Hrep Hfresh Hs.
  assert (∀ w w', rtc (world_step id b m) w w' → world_ok id b m w → world_ok id b m w') as Hinv.
  { intros w1 w2 H. induction H; [done|]. intros Hw. apply IHrtc. by eapply world_step_ok. }
  assert (world_ok id b m w) as Hok.
  { eapply Hinv; [exact Hs|]. unfold world_ok, row_ok, counted. cbn [w_db w_clock w_reads w_log].
    split_and!; [done|done| | |intros; simpl; lia].
    - intros s r H. by apply not_elem_of_nil in H.
    - destruct (grants d !! id) as [g|] eqn:Hg; [|done]. simpl. rewrite (Hfresh g eq_refl). split; [done|].
      intros s r H. by apply not_elem_of_nil in H. }
  destruct w as [d1 t1 rs log]. split_and!.
  - apply Hok.
  - intros g Hg [wd Hwd]. destruct Hok as (_ & _ & _ & Hrow & _). cbn [w_db w_clock w_reads w_log] in *. unfold row_ok, counted in Hrow. rewrite Hg in Hrow. simpl in Hrow.
    rewrite Hwd in Hrow. destruct Hrow as (_ & _ & _ & (u & -> & _ & ?) & _). eauto.
  - intros g read now d' Hin Hnow Hmax H. eapply consume_steps in H; [|done..]. apply Hinv in H; [|done].
    destruct H as (_ & _ & _ & _ & H). specialize (H (window_of b now)). cbn [w_db w_clock w_reads w_log] in *.
    rewrite net_app in H. unfold net at 2 in H. simpl in H. rewrite bool_decide_eq_true_2 in H by done. lia.
Qed.

(** *** Concrete runs *)

Definition hour_grant (max : Z) : Grant :=
  MkGrant "alice" "session-1" None None "hash" (Text (JArr [])) None None None (Some max) (Some 0%Z) None None None None None
    None None None None None None None None None None (Some true) None.

Definition hour_db (max : Z) : Database := MkDatabase ∅ ∅ {[ "g1" := hour_grant max ]} None.

Definition row_of (d : Database) : Grant := nullish (grants d !! "g1") (hour_grant 0).

(** One request: read the row, take a unit. *)
Definition take_now (now : Z) (d : Database) : outcome bool * Database := consumeBudget now "g1" (row_of d) HOUR_BUDGET d.

(** One minute, and the times of the run below: 10:59, 11:00, 11:01 and 11:02. *)
Definition minute (n : Z) : Z := (n * 60000)%Z.

Definition late_run : list (outcome bool) :=
  let '(r1, d1) := take_now (minute 659) (hour_db 1) in
  let '(r2, d2) := take_now (minute 660) d1 in
  let '(_, d3) := refundBudget (minute 661) "g1" HOUR_BUDGET d2 in
  let '(r3, d4) := take_now (minute 662) d3 in
  [r1; r2; r3].

(** A request admitted at 10:59 that fails after 11:00 gives its unit back to
    the new hour: with a limit of one job per hour, two jobs are admitted in the
    hour from 11:00 and neither is given back. *)
Theorem late_refund_overspends :
  late_run = [Ret true; Ret true; Ret true] ∧
  window_of HOUR_BUDGET (minute 660) = window_of HOUR_BUDGET (minute 662) ∧ g_maxJobsPerHour (hour_grant 1) = Some 1%Z.
Proof. vm_compute. auto. Qed.

Lemma job_budget_respected_witness :
  (net HOUR_BUDGET 11 (w_log (MkWorld (take_now (minute 660) (hour_db 2)).2 (minute 660) [(None, minute 660)] [(true, minute 660)])) ≤ 2)%Z.
Proof.
  refine (proj1 (job_budget_respected "g1" HOUR_BUDGET 2 (hour_db 2) (minute 660) _ 11 _ _ _ _ _)); [lia|done|unfold representable, minute; lia| |].
  - intros g H. vm_compute in H. by simplify_eq.
  - eapply rtc_l; [by eapply (world_read _ _ _ _ _ _ _ (hour_grant 2))|].
    eapply rtc_l; [|apply rtc_refl]. refine (world_reset "g1" HOUR_BUDGET 2 (hour_db 2) (minute 660) [(None, minute 660)] [] None (minute 660) (minute 660) 1 _ _ _ _ _).
    + apply list_elem_of_here.
    + by split.
    + discriminate.
    + vm_compute. reflexivity.
Defined.

(** ** Value budgets *)

(** ** Amounts as text *)

Lemma digit_val_digit a : is_Some (digit_val a) → is_digit a = true.
Proof. destruct a as [[] [] [] [] [] [] [] []]; vm_compute; intros [v Hv]; first [done|discriminate]. Qed.

Lemma digit_val_nonneg a v : digit_val a = Some v → (0 ≤ v)%Z.
Proof. destruct a as [[] [] [] [] [] [] [] []]; vm_compute; intros [= <-]; discriminate. Qed.

Lemma digits_val_nonneg s acc v : (0 ≤ acc)%Z → digits_val acc s = Some v → (0 ≤ v)%Z.
Proof.
  revert acc. induction s as [|a s IH]; simpl; intros acc Hacc; [by intros [= <-]|].
  destruct (digit_val a) as [x|] eqn:Hx; [|done]. simpl. apply IH. apply digit_val_nonneg in Hx. lia.
Qed.

Lemma big_of_text_nonneg s : (0 ≤ big_of_text s)%Z.
Proof.
  unfold big_of_text, parse_digits. case_bool_decide; [done|]. destruct (digits_val 0 s) eqn:E; [|done].
  by eapply digits_val_nonneg; [|exact E].
Qed.

Lemma big_of_text_pretty n : (0 ≤ n)%Z → big_of_text (pretty n) = n.
Proof. destruct n as [|p|p]; [done| |lia]. intros _. unfold big_of_text. change (pretty (Z.pos p)) with (pretty (N.pos p)). by rewrite (digits_val_pretty p). Qed.

Lemma all_digits_chars s : all_digits s = true → all_chars is_digit s = true.
Proof.
  induction s as [|a s IH]; simpl; [done|]. intros [Ha%bool_decide_eq_true_1 Hs]%andb_true_iff.
  by rewrite (digit_val_digit _ Ha), IH.
Qed.

Lemma all_digits_text_pretty n : (0 ≤ n)%Z → all_digits_text (pretty n) = true.
Proof.
  destruct n as [|p|p]; [done| |lia]. intros _. change (pretty (Z.pos p)) with (pretty (N.pos p)).
  unfold all_digits_text. rewrite all_digits_chars by apply all_digits_pretty. rewrite andb_true_r.
  pose proof (digits_val_pretty p) as H. unfold non_empty, is_empty. by destruct (pretty (N.pos p)).
Qed.

(** ** The stored maps *)

Definition value_entry_ok (e : string * string) : Prop := HEX64_RE e.1 = true ∧ all_digits_text e.2 = true.

Lemma parse_value_ok raw : Forall value_entry_ok (parseValueBudgetMap raw).
Proof.
  unfold parseValueBudgetMap. destruct raw as [[|j]|]; [apply Forall_nil_2| |apply Forall_nil_2]. destruct j; try apply Forall_nil_2. apply Forall_forall. intros e.
  rewrite list_elem_of_omap. intros (x & _ & Hx). destruct x.2; try done.
  destruct (HEX64_RE x.1 && all_digits_text s) eqn:E; [|done]. apply andb_true_iff in E. by injection Hx as <-.
Qed.

Lemma parse_value_text m : Forall value_entry_ok m → parseValueBudgetMap (Some (value_map_text m)) = m.
Proof.
  intros H. unfold value_map_text, parseValueBudgetMap. induction H as [|[k v] m [Hk Hv] H IH]; [done|].
  cbn [fmap list_fmap omap list_omap fst snd] in *. rewrite Hk, Hv. cbn. by rewrite IH.
Qed.

Lemma map_set_ok k v m : value_entry_ok (k, v) → Forall value_entry_ok m → Forall value_entry_ok (map_set k v m).
Proof.
  intros He H. induction H as [|[k' v'] m Hm H IH]; simpl; [by apply Forall_singleton|].
  case_decide; subst; apply Forall_cons; done.
Qed.

Lemma used_of_nonneg k m : (0 ≤ used_of k m)%Z.
Proof. unfold used_of. destruct (map_get k m); simpl; [apply big_of_text_nonneg|done]. Qed.

Lemma used_of_set k v m k' : (0 ≤ v)%Z → used_of k' (map_set k (pretty v) m) = if bool_decide (k = k') then v else used_of k' m.
Proof.
  intros Hv. unfold used_of. case_bool_decide; subst; [|by rewrite map_get_set_ne].
  rewrite map_get_set_eq. simpl. by apply big_of_text_pretty.
Qed.

(** A type with a limit is written as 64 hex digits. *)
Lemma limited_type raw k v : map_get k (parseValueBudgetMap raw) = Some v → HEX64_RE k = true.
Proof.
  intros H%map_get_In. pose proof (parse_value_ok raw) as Hp. rewrite Forall_forall in Hp. by apply Hp in H as [].
Qed.

(** ** Takes and refunds *)

Lemma update_grant_true id p d n d' :
  update_grant id (λ _, true) p d = (Ret n, d') → grants d' !! id = (λ g, patch_grant (p g) g) <$> grants d !! id.
Proof.
  intros [(g & -> & _ & _ & ->)|(_ & -> & H)]%update_grant_cases; [simpl; by rewrite lookup_insert_eq|].
  destruct (grants d !! id) as [g|] eqn:E; [|done]. by specialize (H g eq_refl).
Qed.

Lemma currentGrantRow_row now id d o d' :
  currentGrantRow now id d = (Ret o, d') → d' = d ∧ ∀ g, o = Some g → grants d !! id = Some g.
Proof.
  unfold currentGrantRow. intros [= <- <-]. split; [done|]. intros g. destruct (grants d !! id) as [g'|]; [|done]. simpl. case_match; congruence.
Qed.

(** What a take that counts leaves behind. *)
Lemma take_value_taken now id ty a d d' :
  take_value now id ty a d = (Ret TakenValue, d') → (0 ≤ a)%Z →
  ∃ g limit, grants d !! id = Some g ∧ map_get ty (parseValueBudgetMap (g_maxValuePerDay g)) = Some limit ∧
    (used_of ty (used_today now g) + a ≤ big_of_text limit)%Z ∧
    ∃ g', grants d' !! id = Some g' ∧ g_maxValuePerDay g' = g_maxValuePerDay g ∧ g_valueWindow g' = Some (utcDay now) ∧
      parseValueBudgetMap (g_valueUsedToday g') = map_set ty (pretty (used_of ty (used_today now g) + a)%Z) (used_today now g).
Proof.
  unfold take_value. intros H Ha. apply bind_ret_inv in H as (o & d1 & Hrow & H).
  apply currentGrantRow_row in Hrow as [-> Hrow]. destruct o as [g|]; [|by injection H]. specialize (Hrow g eq_refl).
  destruct (map_get _ _) as [limit|] eqn:Hmax in H; [|by injection H]. case_bool_decide as Hle; [by injection H|].
  apply bind_ret_inv in H as (n & d2 & Hu & [= <-]). exists g, limit. split_and!; [done|done|lia|].
  apply update_grant_true in Hu. rewrite Hrow in Hu. eexists. split; [exact Hu|]. split_and!; [done|done|].
  change (parseValueBudgetMap (Some (value_map_text (map_set ty (pretty (used_of ty (used_today now g) + a)%Z) (used_today now g)))) =
          map_set ty (pretty (used_of ty (used_today now g) + a)%Z) (used_today now g)).
  apply parse_value_text, map_set_ok; [split; [by eapply limited_type|]|].
  - apply all_digits_text_pretty. pose proof (used_of_nonneg ty (used_today now g)). lia.
  - unfold used_today. case_bool_decide; [apply parse_value_ok|constructor].
Qed.

Lemma take_value_untaken now id ty a d o d' : take_value now id ty a d = (Ret o, d') → o ≠ TakenValue → d' = d.
Proof.
  unfold take_value. intros H Ho. apply bind_ret_inv in H as (g & d1 & Hrow & H).
  apply currentGrantRow_row in Hrow as [-> _]. destruct g as [g|]; [|by injection H].
  destruct (map_get _ _) as [limit|] in H; [|by injection H]. case_bool_decide; [by injection H|].
  by apply bind_ret_inv in H as (n & d2 & Hu & [= <- <-]).
Qed.

(** The amount is given back only while the day of the row runs. *)
Definition refund_applies (now : Z) (id : string) (d : Database) : bool :=
  match (currentGrantRow now id d).1 with
  | Ret (Some g) => bool_decide (g_valueWindow g = Some (utcDay now))
  | _ => false
  end.

Lemma refund_value_applied now id ty a d d' :
  refundValueBudget now id ty a d = (Ret tt, d') → refund_applies now id d = true → HEX64_RE ty = true →
  ∃ g g', grants d !! id = Some g ∧ grants d' !! id = Some g' ∧ g_valueWindow g = Some (utcDay now) ∧
    g_maxValuePerDay g' = g_maxValuePerDay g ∧ g_valueWindow g' = g_valueWindow g ∧
    let used := parseValueBudgetMap (g_valueUsedToday g) in
    parseValueBudgetMap (g_valueUsedToday g') = map_set ty (pretty (Z.max (used_of ty used - a) 0)) used.
Proof.
  unfold refundValueBudget, refund_applies. intros H Happ Hhex. apply bind_ret_inv in H as (o & d1 & Hrow & H).
  rewrite Hrow in Happ. apply currentGrantRow_row in Hrow as [-> Hrow]. simpl in Happ. destruct o as [g|]; [|done].
  specialize (Hrow g eq_refl). rewrite Happ in H. apply bool_decide_eq_true_1 in Happ.
  apply bind_ret_inv in H as (n & d2 & Hu & [= <-]). apply update_grant_true in Hu. rewrite Hrow in Hu.
  exists g. eexists. split_and!; [done|exact Hu|done|done|done|]. cbv zeta.
  set (used := parseValueBudgetMap (g_valueUsedToday g)). set (m := map_set _ _ used).
  change (parseValueBudgetMap (Some (value_map_text m)) = m). apply parse_value_text, map_set_ok; [split; [done|]|].
  - apply all_digits_text_pretty. lia.
  - apply parse_value_ok.
Qed.

Lemma refund_value_idle now id ty a d d' :
  refundValueBudget now id ty a d = (Ret tt, d') → refund_applies now id d = false → d' = d.
Proof.
  unfold refundValueBudget, refund_applies. intros H Happ. apply bind_ret_inv in H as (o & d1 & Hrow & H).
  rewrite Hrow in Happ. apply currentGrantRow_row in Hrow as [-> _]. simpl in Happ. destruct o as [g|]; [|by injection H].
  rewrite Happ in H. by injection H.
Qed.

Section Values.
Context (id : string).

(** An amount taken, or given back with the sign turned. *)
Definition Move : Type := string * Z * Z.

(** The database, the clock and the amounts moved. *)
Record ValueWorld := MkValueWorld { v_db : Database; v_clock : Z; v_log : list Move }.

(** What the value budgets see of the row. *)
Definition valued (d : Database) : option (option json_text * option string * option json_text) :=
  (λ g, (g_maxValuePerDay g, g_valueWindow g, g_valueUsedToday g)) <$> grants d !! id.

Definition move_if (c : bool) (e : Move) (log : list Move) : list Move := if c then (log ++ [e])%list else log.

Inductive value_step : ValueWorld → ValueWorld → Prop :=
| value_tick d t t' log : (t ≤ t')%Z → representable t' → value_step (MkValueWorld d t log) (MkValueWorld d t' log)
| value_take d t log ty a ok taken d' :
    consumeValueBudget t id ty a d = (Ret (ok, taken), d') →
    value_step (MkValueWorld d t log) (MkValueWorld d' t (move_if taken (lower ty, t, a) log))
| value_refund d t log ty a d' :
    HEX64_RE ty = true → (0 ≤ a)%Z → refundValueBudget t id ty a d = (Ret tt, d') →
    value_step (MkValueWorld d t log) (MkValueWorld d' t (move_if (refund_applies t id d) (ty, t, (- a)%Z) log))
| value_other d t log d' : valued d' = valued d → value_step (MkValueWorld d t log) (MkValueWorld d' t log).

Definition day_of (t : Z) : Z := (t / 86400000)%Z.

(** What the token moved of a type in a day. *)
Definition moved (ty : string) (c : Z) (log : list Move) : Z :=
  foldr (λ (e : Move) acc, ((if bool_decide (e.1.1 = ty ∧ day_of e.1.2 = c) then e.2 else 0) + acc)%Z) 0%Z log.

Lemma moved_app ty c l1 l2 : moved ty c (l1 ++ l2)%list = (moved ty c l1 + moved ty c l2)%Z.
Proof. induction l1 as [|e l1 IH]; [done|]. cbn [app moved foldr] in *. unfold moved in *. lia. Qed.

Lemma moved_one ty c e : moved ty c [e] = (if bool_decide (e.1.1 = ty ∧ day_of e.1.2 = c) then e.2 else 0)%Z.
Proof. unfold moved. simpl. lia. Qed.

Lemma moved_none ty c log : (∀ e, e ∈ log → day_of e.1.2 ≠ c) → moved ty c log = 0%Z.
Proof.
  induction log as [|e log IH]; intros H; [done|]. cbn [moved foldr].
  rewrite bool_decide_eq_false_2 by (intros [_ He]; by apply (H e), He; apply list_elem_of_here).
  unfold moved in IH. rewrite IH; [done|]. intros e' He'. by apply H, list_elem_of_further.
Qed.

Context (ty limit : string) (max : option json_text).
Hypothesis ty_limit : map_get ty (parseValueBudgetMap max) = Some limit.

(** The row counts at least what was moved in its day, and no move is later. *)
Definition vrow_ok (d : Database) (t : Z) (log : list Move) : Prop :=
  match valued d with
  | None => True
  | Some (mx, None, _) => mx = max ∧ log = []
  | Some (mx, Some w, used) =>
      mx = max ∧ ∃ t0, w = utcDay t0 ∧ (0 ≤ t0 ≤ t)%Z ∧ (moved ty (day_of t0) log ≤ used_of ty (parseValueBudgetMap used))%Z ∧
        ∀ e, e ∈ log → (day_of e.1.2 ≤ day_of t0)%Z
  end.

Definition vworld_ok (w : ValueWorld) : Prop :=
  (0 ≤ v_clock w)%Z ∧ representable (v_clock w) ∧ vrow_ok (v_db w) (v_clock w) (v_log w) ∧
  ∀ c, (moved ty c (v_log w) ≤ big_of_text limit)%Z.

Lemma day_le t1 t2 : (t1 ≤ t2)%Z → (day_of t1 ≤ day_of t2)%Z.
Proof. intros H. by apply Z.div_le_mono. Qed.

(** A move of today, counted by a row of today. *)
Lemma move_ok d t log k a g used :
  (0 ≤ t)%Z → grants d !! id = Some g → g_maxValuePerDay g = max → g_valueWindow g = Some (utcDay t) →
  parseValueBudgetMap (g_valueUsedToday g) = used →
  (moved ty (day_of t) log + (if bool_decide (k = ty) then a else 0) ≤ used_of ty used)%Z →
  (moved ty (day_of t) log + (if bool_decide (k = ty) then a else 0) ≤ big_of_text limit)%Z →
  (∀ e, e ∈ log → (day_of e.1.2 ≤ day_of t)%Z) → (∀ c, (moved ty c log ≤ big_of_text limit)%Z) →
  vrow_ok d t (log ++ [(k, t, a)])%list ∧ ∀ c, (moved ty c (log ++ [(k, t, a)])%list ≤ big_of_text limit)%Z.
Proof.
  intros Ht Hg Hmax Hw Hu Hle Hlim Hlog Hm.
  assert (∀ c, moved ty c (log ++ [(k, t, a)])%list =
    (moved ty c log + if bool_decide (day_of t = c) then if bool_decide (k = ty) then a else 0 else 0)%Z) as Hnet.
  { intros c. rewrite moved_app, moved_one. cbn [fst snd]. repeat case_bool_decide; intuition lia. }
  split.
  - unfold vrow_ok, valued. rewrite Hg. cbn [fmap option_fmap option_map]. rewrite Hw. split; [done|]. exists t.
    split_and!; [done|lia|lia| |].
    + rewrite Hnet, bool_decide_eq_true_2 by done. by rewrite Hu.
    + intros e [He| ->%list_elem_of_singleton]%elem_of_app; [by apply Hlog|done].
  - intros c. rewrite Hnet. specialize (Hm c). destruct (bool_decide (day_of t = c)) eqn:Hc; [by apply bool_decide_eq_true_1 in Hc as <-|lia].
Qed.

(** What the row tells of today's moves. *)
Lemma today_ok d t log g :
  representable t → vrow_ok d t log → (0 ≤ t)%Z → grants d !! id = Some g →
  g_maxValuePerDay g = max ∧ (∀ e, e ∈ log → (day_of e.1.2 ≤ day_of t)%Z) ∧
  (moved ty (day_of t) log ≤ used_of ty (used_today t g))%Z.
Proof.
  intros Hrep Hrow Ht Hg. unfold vrow_ok, valued in Hrow. rewrite Hg in Hrow. cbn [fmap option_fmap option_map] in Hrow.
  unfold used_today. destruct (g_valueWindow g) as [w|].
  - destruct Hrow as (Hmax & t0 & -> & Ht0 & Hle & Hlog). pose proof (day_le t0 t). split; [done|]. split.
    { intros e He. specialize (Hlog e He). lia. }
    assert (utcDay t0 = utcDay t ↔ day_of t0 = day_of t) as Hday by (apply utcDay_inj; [by eapply representable_le|done]).
    case_bool_decide as Hd.
    + apply (inj Some), Hday in Hd. by rewrite <- Hd.
    + rewrite moved_none; [done|]. intros e He Hc. specialize (Hlog e He). assert (day_of t0 = day_of t) by lia. apply Hd. f_equal. tauto.
  - destruct Hrow as [Hmax ->]. split; [done|]. split; [by intros e ?%not_elem_of_nil|]. apply used_of_nonneg.
Qed.

Lemma value_take_ok d t log k a o d' :
  vworld_ok (MkValueWorld d t log) → consumeValueBudget t id k a d = (Ret o, d') →
  vworld_ok (MkValueWorld d' t (move_if o.2 (lower k, t, a) log)).
Proof using ty_limit.
  intros (Ht & Hrep & Hrow & Hm) H. unfold vworld_ok. cbn [v_db v_clock v_log] in *. unfold consumeValueBudget in H.
  case_bool_decide as Ha; [by injection H as <- <-|]. apply bind_ret_inv in H as (r & d1 & H & [= <- <-]).
  destruct (decide (r = TakenValue)) as [->|Hne].
  2:{ apply take_value_untaken in H as ->; [|done]. by destruct r. }
  apply take_value_taken in H as (g & l & Hg & Hl & Hfit & g' & Hg' & Hmax' & Hw' & Hu'); [|lia].
  destruct (today_ok d t log g) as (Hmax & Hlog & Hle); [done..|]. cbn [move_if snd].
  cut (vrow_ok d1 t (log ++ [(lower k, t, a)])%list ∧ ∀ c, (moved ty c (log ++ [(lower k, t, a)])%list ≤ big_of_text limit)%Z); [by intros []|].
  eapply move_ok; [done|exact Hg'|congruence|done|exact Hu'| | |done|done].
  - rewrite used_of_set by (pose proof (used_of_nonneg (lower k) (used_today t g)); lia).
    case_bool_decide as Hk; [rewrite ?Hk|]; lia.
  - case_bool_decide as Hk; [|specialize (Hm (day_of t)); lia]. rewrite Hmax, Hk, ty_limit in Hl. rewrite Hk in Hfit.
    assert (l = limit) as -> by congruence. lia.
Qed.

Lemma value_refund_ok d t log k a d' :
  vworld_ok (MkValueWorld d t log) → HEX64_RE k = true → (0 ≤ a)%Z → refundValueBudget t id k a d = (Ret tt, d') →
  vworld_ok (MkValueWorld d' t (move_if (refund_applies t id d) (k, t, (- a)%Z) log)).
Proof.
  intros (Ht & Hrep & Hrow & Hm) Hhex Ha H. unfold vworld_ok. cbn [v_db v_clock v_log] in *.
  destruct (refund_applies t id d) eqn:Happ; cbn [move_if].
  2:{ by apply refund_value_idle in H as ->. }
  apply refund_value_applied in H as (g & g' & Hg & Hg' & Hw & Hmax' & Hw' & Hu'); [|done..].
  destruct (today_ok d t log g) as (Hmax & Hlog & Hle); [done..|]. cbv zeta in Hu'.
  assert (used_today t g = parseValueBudgetMap (g_valueUsedToday g)) as Hus by (unfold used_today; by rewrite Hw, bool_decide_eq_true_2).
  rewrite Hus in Hle.
  cut (vrow_ok d' t (log ++ [(k, t, (- a)%Z)])%list ∧ ∀ c, (moved ty c (log ++ [(k, t, (- a)%Z)])%list ≤ big_of_text limit)%Z); [by intros []|].
  eapply move_ok; [done|exact Hg'|congruence|congruence|exact Hu'| | |done|done].
  - rewrite used_of_set by lia. case_bool_decide as Hk; [rewrite ?Hk|]; lia.
  - specialize (Hm (day_of t)). case_bool_decide; lia.
Qed.

Lemma value_step_ok w w' : value_step w w' → vworld_ok w → vworld_ok w'.
Proof using ty_limit.
  intros [d t t' log Hle Hrep'|d t log k a ok taken d' H|d t log k a d' Hhex Ha H|d t log d' Hsame] Hok.
  - destruct Hok as (Ht & Hrep & Hrow & Hm). unfold vworld_ok in *. cbn [v_db v_clock v_log] in *. split_and!; [lia|done| |done].
    unfold vrow_ok in *. destruct (valued d) as [[[mx [wd|]] u]|]; [|done..].
    destruct Hrow as (? & t0 & ? & ? & ?). split; [done|]. exists t0. split_and!; [done|lia|lia|tauto..].
  - by eapply (value_take_ok _ _ _ _ _ (ok, taken)).
  - by apply value_refund_ok.
  - unfold vworld_ok, vrow_ok in *. cbn [v_db v_clock v_log] in *. by rewrite Hsame.
Qed.
End Values.

(** C24. However takes and refunds of a grant follow one another, by any
    number of requests and over any number of days, what its token moved of a
    type in a day, less what was given back in that day, stays within the
    grant's limit for the type; moves of other types do not count. *)
Theorem value_budget_respected id g d t w ty limit c :
  (0 ≤ t)%Z → representable t → grants d !! id = Some g → g_valueWindow g = None →
  map_get ty (parseValueBudgetMap (g_maxValuePerDay g)) = Some limit →
  rtc (value_step id) (MkValueWorld d t []) w → (moved ty c (v_log w) ≤ big_of_text limit)%Z.
Proof.
  intros Ht Hrep Hg Hw Hl Hs.
  assert (vworld_ok id ty limit (g_maxValuePerDay g) (MkValueWorld d t [])) as Hok.
  { unfold vworld_ok, vrow_ok, valued. cbn [v_db v_clock v_log]. rewrite Hg. simpl. rewrite Hw.
    split_and!; [done|done|done|done|]. intros _. apply big_of_text_nonneg. }
  assert (vworld_ok id ty limit (g_maxValuePerDay g) w) as (_ & _ & _ & H); [|apply H].
  clear -Hs Hok Hl. induction Hs; [done|]. apply IHHs. by eapply value_step_ok.
Qed.

Definition token64 : string := "0123456789abcdef0123456789abcdef0123456789abcdef0123456789abcdef".

Definition value_grant : Grant :=
  patch_grant [GSetMaxValuePerDay (Some (value_map_text [(token64, "100")]))] (hour_grant 1).

Definition value_db : Database := MkDatabase ∅ ∅ {[ "g1" := value_grant ]} None.

Definition after_take : Database := (consumeValueBudget 5 "g1" token64 70 value_db).2.

Lemma value_budget_respected_witness :
  (consumeValueBudget 5 "g1" token64 31 after_take).1 = Ret (false, false) ∧
  (consumeValueBudget 5 "g1" token64 30 after_take).1 = Ret (true, true) ∧
  (moved token64 0 [(token64, 5, 70)%Z] ≤ 100)%Z.
Proof.
  split; [vm_compute; reflexivity|]. split; [vm_compute; reflexivity|].
  refine (value_budget_respected "g1" value_grant value_db 5 (MkValueWorld after_take 5 [(token64, 5, 70)%Z]) token64 "100" 0 _ _ _ _ _ _);
    [lia|unfold representable; lia|reflexivity|reflexivity|vm_compute; reflexivity|].
  eapply rtc_l; [|apply rtc_refl].
  refine (value_take "g1" value_db 5 [] token64 70 true true after_take _). vm_compute. reflexivity.
Defined.
