(* ===== verification/GrantShape.v ===== *)
(** The settings of an agent grant as its owner may give them, checked when a
    grant is created and when it is changed (srv/sessions/agent-grants.ts). *)
From Stdlib Require Import Ascii.
From S2P Require Import Prelude Db Json Numbers Schema SponsorPolicy GrantScope GrantBudgets.

Set Warnings "-register-all".

Local Open Scope string_scope.

(** A check answers a problem or a value: [{ ok: false, message }] or [{ ok: true, values }]. *)
Definition shape (A : Type) : Type := string + A.
#[export] Instance shape_ret : MRet shape := λ A a, inr a.
#[export] Instance shape_bind : MBind shape := λ A B k m, match m with inl e => inl e | inr a => k a end.

Lemma shape_bind_inr {A B} (m : shape A) (k : A → shape B) b : (m ≫= k) = inr b ↔ ∃ a, m = inr a ∧ k a = inr b.
Proof. destruct m; simpl; naive_solver. Qed.

(** [try { .. } catch (e) { return fail(e.message) }] *)
Definition caught {A} (o : outcome A) : shape A := match o with Ret a => inr a | Throw e => inl (ex_msg e) end.

(** [if (c) return fail(message)] *)
Definition fail_if (c : bool) (message : string) : shape unit := if c then inl message else inr tt.

(** ** Value limits *)

Definition MAX_VALUE_BUDGET_ENTRIES : nat := 64.

(** [/^[1-9]\d*$/.test(s)] *)
Definition positive_text (s : string) : bool :=
  match s with String a s' => char_in "1" "9" a && all_chars is_digit s' | EmptyString => false end.

Definition value_type (entry : json) : string := drop_0x (lower (trim (string_or_empty (json_get "tokenType" entry)))).
Definition value_amount (entry : json) : string := trim (string_or_empty (json_get "amount" entry)).

Fixpoint value_entries (l : list json) (out : ValueBudgetMap) : outcome ValueBudgetMap :=
  match l with
  | [] => Ret out
  | entry :: l' =>
      let type := value_type entry in
      let amount := value_amount entry in
      if negb (HEX64_RE type) then
        Throw (js_error ("maxValuePerDay: tokenType '" ++ slice0 32 (string_or_empty (json_get "tokenType" entry)) ++
                         "' is not a raw token type (64 hex)"))
      else if negb (positive_text amount) then
        Throw (js_error ("maxValuePerDay: amount for " ++ slice0 16 type ++ "… must be a positive integer in atoms"))
      else if map_has type out then
        Throw (js_error ("maxValuePerDay lists token type " ++ slice0 16 type ++ "… twice"))
      else value_entries l' (map_set type amount out)
  end.

Definition validateValueBudget (raw : option json) : outcome ValueBudgetMap :=
  match raw with
  | None | Some JNull => Ret []
  | Some (JArr l) =>
      if (MAX_VALUE_BUDGET_ENTRIES <? length l)%nat then
        Throw (js_error ("maxValuePerDay has " ++ pretty (length l) ++ " entries; at most " ++
                         pretty MAX_VALUE_BUDGET_ENTRIES ++ " are allowed"))
      else value_entries l []
  | Some _ => Throw (js_error "maxValuePerDay must be an array of { tokenType, amount }")
  end.

Definition valueBudgetList (m : ValueBudgetMap) : list (string * string) := m.

(** ** The settings *)

(** An option inside an option: the field is left out, or given with null. *)
Record GrantShapeValues := MkValues {
  v_allowedActions : option (list string); v_maxJobsPerDay : option (option Z); v_maxJobsPerHour : option (option Z);
  v_validUntil : option (option string); v_agentLabel : option (option string);
  v_allowedContracts : list string; v_allowedCircuits : list string; v_allowedTokenTypes : list string;
  v_allowDeploy : bool; v_maxDeploys : option Z; v_allowUnshieldedOffers : bool;
  v_allowedUnshieldedTokenTypes : list string; v_maxValuePerDay : ValueBudgetMap }.

Section Shape.
(** The fields of the request; the row of the grant on an update. *)
Context (now : Z) (input : list (string * json)) (existing : option Grant).

Definition has (k : string) : bool := map_has k input.
Definition given (k : string) : bool := has k || bool_decide (existing = None).
(** [input.k ?? null], a field null and one left out alike. *)
Definition value_of (k : string) : option json := match map_get k input with Some JNull => None | v => v end.

Definition is_json_true (v : option json) : bool := match v with Some (JBool b) => b | _ => false end.

Definition grantable (a : json) : bool := match a with JStr s => mem s AGENT_ALLOWLISTABLE_ACTIONS | _ => false end.

Definition joined (l : list json) : string :=
  String.concat ", " ((λ v, match v with JNull => EmptyString | _ => json_to_string v end) <$> l).

(** [None]: the update leaves the actions as they are. *)
Definition shape_actions : shape (option (list string)) :=
  if given "allowedActions" then
    match map_get "allowedActions" input with
    | Some (JArr ((_ :: _) as l)) =>
        match keep (λ a, negb (grantable a)) l with
        | [] => inr (Some (strings_of l))
        | unknown => inl ("allowedActions contains non-grantable entries: " ++ joined unknown ++ ". Grantable: " ++
                          String.concat ", " AGENT_ALLOWLISTABLE_ACTIONS)
        end
    | _ => inl "allowedActions must be a non-empty array"
    end
  else inr None.

Definition effective_actions (actions : option (list string)) : list string :=
  match actions with
  | Some l => l
  | None => parseJsonStringList (existing ≫= λ g, Some (g_allowedActions g))
  end.

Definition sponsors_transactions (actions : list string) : bool := existsb (λ a, mem a SPONSOR_TRANSACTION_ACTIONS) actions.

(** A flag as given, or as it was. *)
Definition flag_of (k : string) (field : Grant → option bool) : bool :=
  if given k then is_json_true (map_get k input) else is_true (existing ≫= field).

(** [Number(raw)]; CAP passes an Integer parameter as a number. *)
Definition integer_of (v : json) : option Z := match v with JInt n => Some n | _ => None end.

Definition deploys_raw : option json :=
  if has "maxDeploys" then value_of "maxDeploys" else JInt <$> (existing ≫= g_maxDeploys).

Definition shape_deploys (allowDeploy : bool) : shape (option Z) :=
  if allowDeploy then
    match (match deploys_raw with None => Some 1%Z | Some raw => integer_of raw end) with
    | Some n =>
        if bool_decide (n < 1 ∨ 100 < n)%Z then inl "maxDeploys must be an integer between 1 and 100"
        else match existing with
        | Some g =>
            if bool_decide (n < nullish (g_deploysUsed g) 0)%Z then
              inl ("maxDeploys must not be below the " ++ pretty (nullish (g_deploysUsed g) 0%Z) ++ " deploys already used")
            else inr (Some n)
        | None => inr (Some n)
        end
    | None => inl "maxDeploys must be an integer between 1 and 100"
    end
  else if bool_decide (is_Some (value_of "maxDeploys")) then inl "maxDeploys needs allowDeploy: true"
  else inr None.

(** A list as given, validated, or as it is stored. *)
Definition shape_list {A} (k : string) (validate : option json → outcome A) (stored : Grant → A) : shape A :=
  match existing with
  | Some g => if has k then caught (validate (map_get k input)) else inr (stored g)
  | None => caught (validate (map_get k input))
  end.

(** [None]: the update leaves the budget as it is. *)
Definition shape_budget (field : string) : shape (option (option Z)) :=
  if bool_decide (is_Some existing) && negb (has field) then inr None
  else match value_of field with
  | None => inr (Some None)
  | Some v =>
      match integer_of v with
      | Some n => if bool_decide (n < 1)%Z then inl (field ++ " must be a positive integer") else inr (Some (Some n))
      | None => inl (field ++ " must be a positive integer")
      end
  end.

(** [futureTimeProblem(raw, name)] *)
Definition futureTimeProblem (raw : option json) (name : string) : option string :=
  match raw with
  | None | Some JNull | Some (JStr EmptyString) => None
  | Some v =>
      match dateParse (json_to_string v) with
      | None => Some (name ++ " must be an ISO-8601 timestamp")
      | Some ms => if bool_decide (ms ≤ now)%Z then Some (name ++ " must be in the future") else None
      end
  end.

(** A text field: CAP passes a String parameter as a string. *)
Definition text_field (k : string) : option string := match value_of k with Some (JStr s) => Some s | _ => None end.

Definition shape_until : shape (option (option string)) :=
  if given "validUntil" then
    match futureTimeProblem (map_get "validUntil" input) "validUntil" with
    | Some problem => inl problem
    | None => inr (Some (text_field "validUntil"))
    end
  else inr None.

Definition shape_label : shape (option (option string)) :=
  if given "agentLabel" then
    match text_field "agentLabel" with
    | Some s => if (100 <? String.length s)%nat then inl "agentLabel must be at most 100 characters" else inr (Some (Some s))
    | None => inr (Some None)
    end
  else inr None.

Definition deploy_needs_sponsoring : string :=
  "allowDeploy needs 'sponsorFinalizedTransaction' or 'sponsorUnboundTransaction' in allowedActions: " ++
  "a deploy is sponsored, never run by the server wallet".
Definition offers_need_sponsoring : string :=
  "allowUnshieldedOffers needs 'sponsorFinalizedTransaction' or 'sponsorUnboundTransaction' in allowedActions: " ++
  "the offer rides in a sponsored call".

Definition validateGrantShape : shape GrantShapeValues :=
  actions ← shape_actions;
  let sponsoring := sponsors_transactions (effective_actions actions) in
  let allowDeploy := flag_of "allowDeploy" g_allowDeploy in
  _ ← fail_if (allowDeploy && negb sponsoring) deploy_needs_sponsoring;
  maxDeploys ← shape_deploys allowDeploy;
  let allowOffers := flag_of "allowUnshieldedOffers" g_allowUnshieldedOffers in
  _ ← fail_if (allowOffers && negb sponsoring) offers_need_sponsoring;
  contracts ← shape_list "allowedContracts" (validatePolicyList "allowedContracts") (λ g, parseJsonStringList (g_allowedContracts g));
  circuits ← shape_list "allowedCircuits" (validatePolicyList "allowedCircuits") (λ g, parseJsonStringList (g_allowedCircuits g));
  types ← shape_list "allowedTokenTypes" (validateTokenTypeList "allowedTokenTypes") (λ g, parseJsonStringList (g_allowedTokenTypes g));
  unshielded ← shape_list "allowedUnshieldedTokenTypes" (validateTokenTypeList "allowedUnshieldedTokenTypes")
                 (λ g, parseJsonStringList (g_allowedUnshieldedTokenTypes g));
  values ← shape_list "maxValuePerDay" validateValueBudget (λ g, parseValueBudgetMap (g_maxValuePerDay g));
  _ ← fail_if (negb (bool_decide (unshielded = [])) && negb allowOffers) "allowedUnshieldedTokenTypes needs allowUnshieldedOffers: true";
  perDay ← shape_budget "maxJobsPerDay";
  perHour ← shape_budget "maxJobsPerHour";
  until ← shape_until;
  label ← shape_label;
  mret (MkValues actions perDay perHour until label contracts circuits types allowDeploy maxDeploys allowOffers unshielded values).
End Shape.
