(* ===== verification/AgentAccess.v ===== *)
(** The check of an agent token on every request: the grant it stands for, what
    the grant allows, the session the request is bound to and the budget it
    takes (enforceAgentGrant of srv/sessions/agent-grants.ts). *)
From Stdlib Require Import Ascii.
From S2P Require Import Prelude Db Json Numbers Schema SponsorPolicy GrantScope GrantBudgets.

Set Warnings "-register-all".

Local Open Scope string_scope.

Definition AGENT_TOKEN_HEADER : string := "x-agent-token".
Definition TOKEN_PREFIX : string := "ngat_".
Definition AGENT_TOKEN_TRANSPORT_USER : string := "agent-token-transport".
Definition PUBLIC_VERIFY_TRANSPORT_USER : string := "public-verify-transport".
Definition PLATFORM_POOL_SENTINEL : string := "00000000-0000-0000-0000-706f6f6c0000".

(** ** Requests *)

Record RequestAgentGrant := MkRequestGrant {
  ra_ID : string; ra_sessionId : string; ra_userId : string; ra_sponsorSessionId : option string;
  ra_policy : GrantPolicyInput }.

(** [data] is [None] when it is no object; [q_where] holds the conditions put on
    the query of a READ, [None] if the query takes none. *)
Record Request := MkRequest {
  q_headers : list (string * json); q_partHeaders : list (string * json); q_user : option string;
  q_event : option string; q_target : option string; q_data : option (list (string * json));
  q_where : option (list (string * string)); q_agentGrant : option RequestAgentGrant }.

Definition with_data (data : option (list (string * json))) (q : Request) : Request :=
  MkRequest (q_headers q) (q_partHeaders q) (q_user q) (q_event q) (q_target q) data (q_where q) (q_agentGrant q).

Definition narrowRead (key value : string) (q : Request) : Request :=
  MkRequest (q_headers q) (q_partHeaders q) (q_user q) (q_event q) (q_target q) (q_data q)
    ((λ w, w ++ [(key, value)])%list <$> q_where q) (q_agentGrant q).

Definition as_agent (user : string) (g : RequestAgentGrant) (q : Request) : Request :=
  MkRequest (q_headers q) (q_partHeaders q) (Some user) (q_event q) (q_target q) (q_data q) (q_where q) (Some g).

(** [data.k] *)
Definition field (k : string) (q : Request) : option json := fields ← q_data q; map_get k fields.

Definition set_field (k v : string) (q : Request) : Request := with_data (map_set k (JStr v) <$> q_data q) q.

Definition json_of_data (q : Request) : json := match q_data q with Some fields => JObj fields | None => JNull end.

(** A refusal with its status, or the request as it goes on, with the budgets
    a later 4xx gives back. *)
Inductive Answer := Rejected (status : Z) (message : string) | Passed (q : Request) (taken : list GrantBudget).

(** ** The configured sponsors (srv/utils/session-expiry.ts) *)

Fixpoint split_comma (word s : string) : list string :=
  match s with
  | EmptyString => [word]
  | String a s' => if Ascii.eqb a ","%char then word :: split_comma EmptyString s'
                   else split_comma (word ++ String a EmptyString) s'
  end.

Record SponsorConfig := MkSponsorConfig { env_sessions : list string; feeSponsorSessions : option json }.

Definition getConfiguredFeeSponsorSessions (c : SponsorConfig) : list string :=
  match env_sessions c with
  | [] =>
      let raw := match feeSponsorSessions c with Some (JArr l) => Some (JStr (json_to_string (JArr l))) | v => v end in
      match raw with
      | Some (JStr raw) => if is_empty raw then [] else keep non_empty (trim <$> split_comma EmptyString raw)
      | _ => []
      end
  | fromEnv => fromEnv
  end.

(** A platform sponsor's session does not expire
    (srv/utils/session-expiry.ts). *)
Definition session_expired (c : SponsorConfig) (now : Z) (sessionId : string) (expiresAt : option Z) : bool :=
  match expiresAt with
  | None => false
  | Some at_ => negb (mem sessionId (getConfiguredFeeSponsorSessions c)) && bool_decide (at_ < now)%Z
  end.

(** ** The check *)

(** The text after the last dot. *)
Fixpoint after_dot (s last : string) : string :=
  match s with
  | EmptyString => last
  | String a s' => after_dot s' (if Ascii.eqb a "."%char then s' else last)
  end.

Definition entity_of (target : string) : string := after_dot target target.

(** [x !== undefined && x !== null && x !== s] *)
Definition other_than (v : option json) (s : string) : bool :=
  match v with None | Some JNull => false | Some x => match x with JStr t => negb (bool_decide (t = s)) | _ => true end end.

(** [x === s] *)
Definition same_text (v : option json) (s : string) : bool :=
  match v with Some (JStr t) => bool_decide (t = s) | _ => false end.

(** [!!grant.sponsorSessionId] *)
Definition pin_of (grant : Grant) : option string :=
  match g_sponsorSessionId grant with Some s => if is_empty s then None else Some s | None => None end.

Section Access.
Context (hashAgentToken : string → string) (parse : string → json_text) (cfg : SponsorConfig) (now : Z).
Context `{ScanOrder}.

(** The token, if the request carries one. *)
Definition token_of (q : Request) : option string :=
  match json_nullish (map_get AGENT_TOKEN_HEADER (q_headers q)) (map_get AGENT_TOKEN_HEADER (q_partHeaders q)) with
  | Some (JStr t) => if is_empty t then None else Some t
  | _ => None
  end.

(** [SELECT.one.from(AgentGrants).where({ tokenHash, isActive: true })] *)
Definition grant_by_token (token : string) (d : Database) : option (string * Grant) :=
  head (sql_select (λ _ g, bool_decide (g_tokenHash g = hashAgentToken token) && is_true (g_isActive g)) (grants d)).

(** Each check refuses, or hands the request on. *)
Definition check (A : Type) : Type := (Z * string) + A.
#[local] Instance check_ret : MRet check := λ A a, inr a.
#[local] Instance check_bind : MBind check := λ A B k m, match m with inl e => inl e | inr a => k a end.

Definition own_usage (id : string) (event : string) (q : Request) : check Request :=
  if bool_decide (event = "getGrantUsage") then
    let grantId := field "grantId" q in
    if negb (truthy grantId) then inr (set_field "grantId" id q)
    else if negb (bool_decide (json_to_string (nullish grantId JNull) = id)) then inl (404, "Grant not found")%Z
    else inr q
  else inr q.

Definition alwaysAllowed (event : string) : bool := mem event AGENT_ALWAYS_ALLOWED_EVENTS.

(** Whether the action is one the grant lists. *)
Definition check_event (grant : Grant) (event : string) : check bool :=
  if alwaysAllowed event then inr false
  else if mem event (parseJsonStringList (Some (g_allowedActions grant))) then inr true
  else inl (403%Z, "action '" ++ event ++ "' is not allowed for this agent grant").

Definition check_read (id : string) (grant : Grant) (event : string) (q : Request) : check Request :=
  if bool_decide (event = "READ") then
    let entity := entity_of (nullish (q_target q) EmptyString) in
    if negb (mem entity AGENT_READABLE_ENTITIES) then
      inl (403%Z, "entity '" ++ entity ++ "' is not readable with an agent token")
    else if mem entity ["WalletSessions"; "PendingSubmissions"; "Documents"] then
      inr (narrowRead "sessionId" (g_sessionId grant) q)
    else if bool_decide (entity = "AgentGrants") then inr (narrowRead "ID" id q)
    else inr q
  else inr q.

Definition check_scope (grant : Grant) (allowlisted : bool) (event : string) (q : Request) : check unit :=
  if allowlisted && negb (mem event SPONSOR_PHASE2_ACTIONS) then
    match grantScopeViolation parse (g_allowedContracts grant) (g_allowedCircuits grant) (json_of_data q) event with
    | Some scope => inl (403%Z, scope)
    | None => inr tt
    end
  else inr tt.

(** The job of another session may be polled: the pool's, or the pinned sponsor's. *)
Definition pinnedPoll (grant : Grant) (event : string) (q : Request) : bool :=
  bool_decide (event = "getJobStatus") && negb (same_text (field "sessionId" q) (g_sessionId grant)) &&
  match pin_of grant with
  | Some pin => negb (bool_decide (pin = PLATFORM_POOL_SENTINEL)) && same_text (field "sessionId" q) pin
  | None => false
  end.

Definition poolPoll (grant : Grant) (event : string) (q : Request) : bool :=
  bool_decide (event = "getJobStatus") && negb (same_text (field "sessionId" q) (g_sessionId grant)) &&
  negb (pinnedPoll grant event q) &&
  (same_text (field "sessionId" q) PLATFORM_POOL_SENTINEL ||
   mem (string_or_empty (field "sessionId" q)) (getConfiguredFeeSponsorSessions cfg)).

Definition bind_session (grant : Grant) (event : string) (q : Request) : check Request :=
  let pool := poolPoll grant event q in
  let sponsorPoll := pinnedPoll grant event q || pool in
  let q := if pool then set_field "sessionId" PLATFORM_POOL_SENTINEL q else q in
  if other_than (field "sessionId" q) (g_sessionId grant) && negb sponsorPoll then
    inl (403%Z, "sessionId does not match this agent grant")
  else inr (if sponsorPoll then q else set_field "sessionId" (g_sessionId grant) q).

Definition bind_sponsor (grant : Grant) (allowlisted : bool) (event : string) (q : Request) : check Request :=
  if allowlisted && negb (mem event SPONSOR_PHASE2_ACTIONS) then
    match pin_of grant with
    | Some pin =>
        if other_than (field "sponsorSessionId" q) pin then
          inl (403%Z, "sponsorSessionId does not match this agent grant")
        else inr (set_field "sponsorSessionId" pin q)
    | None =>
        if other_than (field "sponsorSessionId" q) EmptyString then
          inl (403%Z, "this agent grant has no sponsor binding; issue the grant with sponsorSessionId to sponsor its jobs")
        else inr q
    end
  else inr q.

(** [data && typeof data === 'object' && event !== 'READ'] *)
Definition bind_data (grant : Grant) (allowlisted : bool) (event : string) (q : Request) : check Request :=
  if bool_decide (is_Some (q_data q)) && negb (bool_decide (event = "READ")) then
    q ← bind_session grant event q; bind_sponsor grant allowlisted event q
  else inr q.

(** *** The budget *)

(** [rejectRateLimited] *)
Definition seconds_up (ms : Z) : Z := (- (- ms / 1000))%Z.
Definition window_word (b : GrantBudget) : string := match b with HOUR_BUDGET => "hour" | DAY_BUDGET => "day" end.
Definition rejectRateLimited (b : GrantBudget) (limit : Z) : Answer :=
  Rejected 429 ("Rate limited (" ++ limitName b ++ ": " ++ pretty limit ++ " per " ++ window_word b ++
                "). Retry after " ++ pretty (Z.max 1 (seconds_up (resetsAt b now - now))) ++ "s").

Fixpoint refund_all (id : string) (taken : list GrantBudget) : M Database unit :=
  match taken with
  | [] => mret tt
  | b :: rest => _ ← refundBudget now id b; refund_all id rest
  end.

(** Takes one unit of each limited budget, or gives back what it took. *)
Fixpoint take_budgets (id : string) (grant : Grant) (budgets taken : list GrantBudget) :
    M Database (Answer + list GrantBudget) :=
  match budgets with
  | [] => mret (inr taken)
  | b :: rest =>
      match maxField b grant with
      | None => take_budgets id grant rest taken
      | Some limit =>
          ok ← consumeBudget now id grant b;
          if (ok : bool) then take_budgets id grant rest (taken ++ [b])%list
          else _ ← refund_all id taken; mret (inl (rejectRateLimited b limit))
      end
  end.

Definition request_grant (id : string) (grant : Grant) : RequestAgentGrant :=
  let p := grantRowPolicy grant in
  MkRequestGrant id (g_sessionId grant) (g_userId grant) (g_sponsorSessionId grant)
    (MkGrantPolicy (gp_allowedContracts p) (gp_allowedCircuits p)
      (Some (is_true (g_allowDeploy grant) && bool_decide (nullish (g_deploysUsed grant) 0 < nullish (g_maxDeploys grant) 1)%Z))
      (gp_deployedContracts p) (gp_allowedTokenTypes p) (gp_mintedTokenTypes p) (gp_allowSwaps p) (gp_allowTransfers p)
      (gp_allowUnshieldedOffers p) (gp_allowedUnshieldedTokenTypes p)).

(** *** The whole check *)

(** Everything before the budget: the request rewritten, and whether the grant lists the action. *)
Definition admit_request (id : string) (grant : Grant) (q : Request) : check (Request * bool) :=
  let event := nullish (q_event q) EmptyString in
  q ← own_usage id event q;
  allowlisted ← check_event grant event;
  q ← check_read id grant event q;
  _ ← check_scope grant allowlisted event q;
  q ← bind_data grant allowlisted event q;
  mret (q, allowlisted).

(** A request without a token goes on, unless its user is a placeholder. *)
Definition no_token (q : Request) : Answer :=
  if bool_decide (q_user q = Some AGENT_TOKEN_TRANSPORT_USER) then Rejected 401 "agent token required"
  else if bool_decide (q_user q = Some PUBLIC_VERIFY_TRANSPORT_USER) then Rejected 401 "authentication required"
  else Passed q [].

Definition enforceAgentGrant (q : Request) : M Database Answer := λ d,
  match token_of q with
  | None => (Ret (no_token q), d)
  | Some token =>
      if negb (starts_with TOKEN_PREFIX token) then (Ret (Rejected 401 "invalid agent token"), d)
      else match grant_by_token token d with
      | None => (Ret (Rejected 401 "invalid agent token"), d)
      | Some (id, grant) =>
          if grantExpired grant now then (Ret (Rejected 410 "agent grant expired"), d)
          else if bool_decide (q_event q = Some "getGrantUsage" ∧ q_data q = None) then
            (Throw (Exn "TypeError" EmptyString "Cannot set properties of undefined (setting 'grantId')"), d)
          else match admit_request id grant q with
          | inl (status, message) => (Ret (Rejected status message), d)
          | inr (q, allowlisted) =>
              (r ← (if (allowlisted : bool) then take_budgets id grant GRANT_BUDGETS [] else mret (inr []));
               mret match r with
                    | inl refused => refused
                    | inr taken => Passed (as_agent (g_userId grant) (request_grant id grant) q) taken
                    end) d
          end
      end
  end.
End Access.
