(* ===== verification/AccessFacts.v ===== *)
(** An agent token reaches what its grant allows and nothing else, and each
    request it makes costs one unit of the grant's budgets, or none. *)
From Stdlib Require Import Ascii.
From S2P Require Import Prelude Db Json Numbers Schema SponsorPolicy GrantScope GrantBudgets BudgetFacts AgentAccess.

Set Warnings "-register-all".

Local Open Scope string_scope.

(** ** What each check lets through *)

Section Checks.
Context (hashAgentToken : string → string) (parse : string → json_text) (cfg : SponsorConfig) (now : Z).
Context `{ScanOrder}.

(** The checks rewrite data and conditions, nothing else. *)
Record same_caller (q q' : Request) : Prop := MkSameCaller {
  same_event : q_event q' = q_event q; same_target : q_target q' = q_target q;
  same_data : is_Some (q_data q') ↔ is_Some (q_data q) }.

#[local] Instance same_caller_preorder : PreOrder same_caller.
Proof. split; [by intros q|]. intros a b c [] []. split; [congruence|congruence|tauto]. Qed.

Lemma set_field_same k v q : same_caller q (set_field k v q).
Proof. split; [done|done|]. simpl. by rewrite fmap_is_Some. Qed.

Lemma field_set_eq k v q : is_Some (q_data q) → field k (set_field k v q) = Some (JStr v).
Proof. intros [fs Hfs]. unfold field. simpl. rewrite Hfs. simpl. by rewrite map_get_set_eq. Qed.

Lemma field_set_ne k k' v q : k ≠ k' → field k' (set_field k v q) = field k' q.
Proof. intros Hk. unfold field. simpl. destruct (q_data q); simpl; [by rewrite map_get_set_ne|done]. Qed.

Lemma own_usage_passed id event q q' :
  own_usage id event q = inr q' →
  same_caller q q' ∧ q_where q' = q_where q ∧
  (event = "getGrantUsage" → is_Some (q_data q) → json_to_string (nullish (field "grantId" q') JNull) = id) ∧
  ∀ k, k ≠ "grantId" → field k q' = field k q.
Proof.
  unfold own_usage. intros Hq. case_bool_decide as He; [|injection Hq as <-; by split_and!].
  destruct (negb (truthy _)); [injection Hq as <-; split_and!; [apply set_field_same|done| |]|].
  - intros _ Hd. by rewrite field_set_eq.
  - intros k Hk. by rewrite field_set_ne.
  - destruct (bool_decide _) eqn:Hid in Hq; [|done]. injection Hq as <-. apply bool_decide_eq_true_1 in Hid. by split_and!.
Qed.

Lemma check_event_passed grant event listed :
  check_event grant event = inr listed →
  if listed then event ∈ parseJsonStringList (Some (g_allowedActions grant)) ∧ event ∉ AGENT_ALWAYS_ALLOWED_EVENTS
  else event ∈ AGENT_ALWAYS_ALLOWED_EVENTS.
Proof.
  unfold check_event, alwaysAllowed. destruct (mem event AGENT_ALWAYS_ALLOWED_EVENTS) eqn:Ha.
  - intros [= <-]. by apply mem_true.
  - destruct (mem event (parseJsonStringList _)) eqn:Hm; [|done]. intros [= <-]. apply mem_true in Hm.
    split; [done|]. apply not_true_iff_false in Ha. by rewrite mem_true in Ha.
Qed.

(** The condition a read of the entity is narrowed by. *)
Definition read_condition (id : string) (grant : Grant) (entity : string) : list (string * string) :=
  if mem entity ["WalletSessions"; "PendingSubmissions"; "Documents"] then [("sessionId", g_sessionId grant)]
  else if bool_decide (entity = "AgentGrants") then [("ID", id)] else [].

Lemma check_read_passed id grant event q q' :
  check_read id grant event q = inr q' →
  same_caller q q' ∧ q_data q' = q_data q ∧
  if bool_decide (event = "READ") then
    let entity := entity_of (nullish (q_target q) EmptyString) in
    entity ∈ AGENT_READABLE_ENTITIES ∧ q_where q' = (λ w, w ++ read_condition id grant entity)%list <$> q_where q
  else q_where q' = q_where q.
Proof.
  unfold check_read, read_condition. case_bool_decide; [|by intros [= <-]]. cbv zeta.
  set (entity := entity_of _). destruct (mem entity AGENT_READABLE_ENTITIES) eqn:Hr; [|done]. apply mem_true in Hr. cbn [negb].
  assert (∀ o : option (list (string * string)), o = (λ w, w ++ [])%list <$> o) as Hnil.
  { intros [w|]; simpl; [by rewrite app_nil_r|done]. }
  destruct (mem entity ["WalletSessions"; "PendingSubmissions"; "Documents"]); [by intros [= <-]|]. case_bool_decide; intros [= <-]; [done|]. split_and!; [done|done|done|apply Hnil].
Qed.

Lemma other_than_false v s : other_than v s = false → v = None ∨ v = Some JNull ∨ v = Some (JStr s).
Proof. destruct v as [[]|]; simpl; try done; auto. intros Hs%negb_false_iff%bool_decide_eq_true_1. subst. auto. Qed.

Lemma same_text_true v s : same_text v s = true ↔ v = Some (JStr s).
Proof.
  split; [|by intros ->; simpl; apply bool_decide_eq_true].
  destruct v as [[]|]; simpl; try done. by intros ->%bool_decide_eq_true_1.
Qed.

(** The sessions a request may name. *)
Definition bound_session (grant : Grant) (event : string) (v : option json) : Prop :=
  v = Some (JStr (g_sessionId grant)) ∨
  event = "getJobStatus" ∧ (v = Some (JStr PLATFORM_POOL_SENTINEL) ∨ ∃ pin, pin_of grant = Some pin ∧ v = Some (JStr pin)).

Lemma bind_session_passed grant event q q' :
  bind_session cfg grant event q = inr q' → is_Some (q_data q) →
  same_caller q q' ∧ q_where q' = q_where q ∧ bound_session grant event (field "sessionId" q') ∧
  ∀ k, k ≠ "sessionId" → field k q' = field k q.
Proof.
  unfold bind_session. intros Hq Hd. destruct (poolPoll cfg grant event q) eqn:Hpool.
  - rewrite orb_true_r in Hq. cbn [negb] in Hq. rewrite andb_false_r in Hq. injection Hq as <-.
    unfold poolPoll in Hpool. rewrite !andb_true_iff in Hpool. destruct Hpool as (((He%bool_decide_eq_true_1 & _) & _) & _).
    split_and!; [apply set_field_same|done|right|intros; by rewrite field_set_ne]. split; [done|]. left. by apply field_set_eq.
  - rewrite orb_false_r in Hq. destruct (pinnedPoll grant event q) eqn:Hpin.
    + cbn [negb] in Hq. rewrite andb_false_r in Hq. injection Hq as <-. split_and!; [done|done| |done]. right.
      unfold pinnedPoll in Hpin. rewrite !andb_true_iff in Hpin. destruct Hpin as ((He%bool_decide_eq_true_1 & _) & Hp).
      split; [done|]. right. destruct (pin_of grant) as [pin|]; [|done]. apply andb_true_iff in Hp as [_ Hp].
      exists pin. split; [done|]. by apply same_text_true.
    + destruct (other_than _ _) in Hq; [done|]. injection Hq as <-.
      split_and!; [apply set_field_same|done|left; by apply field_set_eq|intros; by rewrite field_set_ne].
Qed.

(** The sponsor a listed action may name. *)
Definition bound_sponsor (grant : Grant) (v : option json) : Prop :=
  match pin_of grant with
  | Some pin => v = Some (JStr pin)
  | None => v = None ∨ v = Some JNull ∨ v = Some (JStr EmptyString)
  end.

Lemma bind_sponsor_passed grant listed event q q' :
  bind_sponsor grant listed event q = inr q' → is_Some (q_data q) →
  same_caller q q' ∧ q_where q' = q_where q ∧
  (listed = true → event ∉ SPONSOR_PHASE2_ACTIONS → bound_sponsor grant (field "sponsorSessionId" q')) ∧
  ∀ k, k ≠ "sponsorSessionId" → field k q' = field k q.
Proof.
  unfold bind_sponsor, bound_sponsor. intros Hq Hd. destruct (listed && _) eqn:Hb.
  - destruct (pin_of grant) as [pin|]; (destruct (other_than _ _) eqn:Ho in Hq; [done|]); injection Hq as <-.
    + split_and!; [apply set_field_same|done|by rewrite field_set_eq|intros; by rewrite field_set_ne].
    + apply other_than_false in Ho. by split_and!.
  - injection Hq as <-. split_and!; [done|done| |done]. intros -> Hs. exfalso. apply Hs, mem_true.
    by apply negb_false_iff.
Qed.

Lemma check_bind_inr {A B} (m : check A) (k : A → check B) b : check_bind A B k m = inr b → ∃ a, m = inr a ∧ k a = inr b.
Proof. destruct m; simpl; [done|eauto]. Qed.

Lemma bind_data_passed grant listed event q q' :
  bind_data cfg grant listed event q = inr q' →
  same_caller q q' ∧ q_where q' = q_where q ∧
  (∀ k, k ≠ "sessionId" → k ≠ "sponsorSessionId" → field k q' = field k q) ∧
  (event ≠ "READ" → is_Some (q_data q) → bound_session grant event (field "sessionId" q') ∧
     (listed = true → event ∉ SPONSOR_PHASE2_ACTIONS → bound_sponsor grant (field "sponsorSessionId" q'))).
Proof.
  unfold bind_data. intros Hq. case_bool_decide as Hd; cbn [andb] in Hq; [|injection Hq as <-; by split_and!].
  case_bool_decide as He; cbn [negb] in Hq; [by injection Hq as <-|].
  apply check_bind_inr in Hq as (q1 & H1 & H2). apply bind_session_passed in H1 as (Hs1 & Hw1 & Hb1 & Hf1); [|done].
  apply bind_sponsor_passed in H2 as (Hs2 & Hw2 & Hb2 & Hf2); [|by apply Hs1].
  split; [by etrans|]. split; [congruence|]. split.
  - intros k Hk1 Hk2. by rewrite Hf2, Hf1.
  - intros _ _. split; [by rewrite Hf2|done].
Qed.

Lemma check_scope_passed grant event q u :
  check_scope parse grant true event q = inr u → event ∉ SPONSOR_PHASE2_ACTIONS →
  grantScopeViolation parse (g_allowedContracts grant) (g_allowedCircuits grant) (json_of_data q) event = None.
Proof.
  unfold check_scope. intros H1 H2. destruct (mem event SPONSOR_PHASE2_ACTIONS) eqn:Hm; [by apply mem_true in Hm|].
  simpl in H1. by destruct (grantScopeViolation _ _ _ _ _).
Qed.

(** What the whole check lets through, as a relation between the request and
    what goes on. *)
Record admitted (id : string) (grant : Grant) (event : string) (q q' : Request) (listed : bool) : Prop := MkAdmitted {
  ad_listed : if listed then event ∈ parseJsonStringList (Some (g_allowedActions grant)) ∧ event ∉ AGENT_ALWAYS_ALLOWED_EVENTS
              else event ∈ AGENT_ALWAYS_ALLOWED_EVENTS;
  ad_scope : listed = true → event ∉ SPONSOR_PHASE2_ACTIONS →
             grantScopeViolation parse (g_allowedContracts grant) (g_allowedCircuits grant) (json_of_data q) event = None;
  ad_read : event = "READ" → let entity := entity_of (nullish (q_target q) EmptyString) in
            entity ∈ AGENT_READABLE_ENTITIES ∧ q_where q' = (λ w, w ++ read_condition id grant entity)%list <$> q_where q;
  ad_usage : event = "getGrantUsage" → is_Some (q_data q) → json_to_string (nullish (field "grantId" q') JNull) = id;
  ad_session : event ≠ "READ" → is_Some (q_data q) → bound_session grant event (field "sessionId" q');
  ad_sponsor : listed = true → event ∉ SPONSOR_PHASE2_ACTIONS → is_Some (q_data q) → bound_sponsor grant (field "sponsorSessionId" q');
  ad_rest : ∀ k, k ∉ ["grantId"; "sessionId"; "sponsorSessionId"] → field k q' = field k q }.

Lemma read_not_listed : "READ" ∈ AGENT_ALWAYS_ALLOWED_EVENTS.
Proof. apply mem_true. by vm_compute. Qed.

Lemma own_usage_other id event q q' : own_usage id event q = inr q' → event ≠ "getGrantUsage" → q' = q.
Proof. unfold own_usage. intros Hq Hne. rewrite bool_decide_eq_false_2 in Hq by done. by injection Hq. Qed.

Lemma admit_request_admitted id grant q q' listed :
  admit_request parse cfg id grant q = inr (q', listed) →
  admitted id grant (nullish (q_event q) EmptyString) q q' listed.
Proof.
  unfold admit_request. set (event := nullish (q_event q) EmptyString). intros Hq.
  apply check_bind_inr in Hq as (q1 & H1 & Hq). apply check_bind_inr in Hq as (l & H2 & Hq).
  apply check_bind_inr in Hq as (q2 & H3 & Hq). apply check_bind_inr in Hq as (u & H4 & Hq).
  apply check_bind_inr in Hq as (q3 & H5 & [= <- <-]).
  pose proof (own_usage_other _ _ _ _ H1) as Hq1. apply own_usage_passed in H1 as (Hs1 & Hw1 & Hu1 & Hf1).
  apply check_event_passed in H2. apply check_read_passed in H3 as (Hs2 & Hd2 & Hr).
  assert (is_Some (q_data q) → is_Some (q_data q2)) as Hd2'. { rewrite Hd2. apply Hs1. }
  apply bind_data_passed in H5 as (Hs3 & Hw3 & Hf3 & Hb3).
  assert (∀ k, field k q2 = field k q1) as Hf2 by (intros k; unfold field; by rewrite Hd2).
  assert (l = true → event ≠ "READ") as Hread by (intros -> He; apply H2; rewrite He; apply read_not_listed).
  assert (event = "getGrantUsage" → l = false) as Husage.
  { intros He. destruct l; [|done]. exfalso. destruct H2 as [_ H2]. apply H2. rewrite He. apply mem_true. by vm_compute. }
  split.
  - done.
  - intros -> Hsp. eapply check_scope_passed in H4; [|done]. rewrite <- H4. unfold json_of_data. rewrite Hd2.
    destruct (decide (event = "getGrantUsage")) as [He|He]; [by specialize (Husage He)|]. by rewrite (Hq1 He).
  - intros He. rewrite bool_decide_eq_true_2 in Hr by done. rewrite (same_target _ _ Hs1) in Hr. cbv zeta in *.
    destruct Hr as [? Hr]. split; [done|]. by rewrite Hw3, Hr, Hw1.
  - intros He Hd. rewrite Hf3 by done. rewrite Hf2. by apply Hu1.
  - intros He Hd. apply Hb3; auto.
  - intros Hl Hsp Hd. apply Hb3; auto.
  - intros k Hk. rewrite !not_elem_of_cons in Hk. destruct Hk as (?&?&?&_). by rewrite Hf3, Hf2, Hf1.
Qed.

Lemma take_budgets_refuses id grant bs l d d' a :
  take_budgets now id grant bs l d = (Ret (inl a), d') → ∃ s m, a = Rejected s m.
Proof.
  revert l d. induction bs as [|b bs IH]; intros l d; simpl; [by intros [=]|].
  destruct (maxField b grant) as [n|]; [|apply IH]. intros Hr. apply bind_ret_inv in Hr as (ok & d1 & _ & Hr).
  destruct ok; [by eapply IH|]. apply bind_ret_inv in Hr as (? & ? & _ & [= <- _]). unfold rejectRateLimited. eauto.
Qed.

(** A token's request that goes on went through all checks. *)
Lemma enforce_passed q d q' taken d' token :
  token_of q = Some token → enforceAgentGrant hashAgentToken parse cfg now q d = (Ret (Passed q' taken), d') →
  ∃ id grant q1 listed,
    starts_with TOKEN_PREFIX token = true ∧ grants d !! id = Some grant ∧ g_tokenHash grant = hashAgentToken token ∧
    g_isActive grant = Some true ∧ grantExpired grant now = false ∧
    admit_request parse cfg id grant q = inr (q1, listed) ∧
    (q_event q = Some "getGrantUsage" → is_Some (q_data q)) ∧
    q' = as_agent (g_userId grant) (request_grant id grant) q1 ∧
    (if listed then take_budgets now id grant GRANT_BUDGETS [] else mret (inr [])) d = (Ret (inr taken), d').
Proof.
  unfold enforceAgentGrant. intros ->. destruct (starts_with _ _) eqn:Hp; [|done]. cbn [negb].
  destruct (grant_by_token _ _ _) as [[id grant]|] eqn:Hg; [|done]. apply head_Some_elem_of in Hg.
  apply elem_of_select in Hg as [Hg Hw]. apply andb_true_iff in Hw as [Hh%bool_decide_eq_true_1 Ha%bool_decide_eq_true_1].
  destruct (grantExpired grant now) eqn:He; [done|]. case_bool_decide as Hu; [done|].
  destruct (admit_request _ _ _ _ _) as [[]|[q1 listed]] eqn:Hadm; [done|]. intros H1.
  apply bind_ret_inv in H1 as (r & d1 & H1 & [= Hr <-]). destruct r as [refused|tk]; simplify_eq.
  - exfalso. destruct listed; [|by injection H1].
    by apply take_budgets_refuses in H1 as (? & ? & ?).
  - exists id, grant, q1, listed. split_and!; try done. intros Hev. destruct (q_data q) eqn:Hd; [by eexists|]. exfalso. by apply Hu.
Qed.

(** A token's request is refused before the budget, or its grant admits it and
    the budget decides. *)
Lemma enforce_cases q d a d' token :
  token_of q = Some token → enforceAgentGrant hashAgentToken parse cfg now q d = (Ret a, d') →
  (∃ s m, a = Rejected s m ∧ d' = d) ∨
  ∃ id grant q1 listed r, grants d !! id = Some grant ∧ admit_request parse cfg id grant q = inr (q1, listed) ∧
    (if listed then take_budgets now id grant GRANT_BUDGETS [] else mret (inr [])) d = (Ret r, d') ∧
    a = match r with inl refused => refused | inr taken => Passed (as_agent (g_userId grant) (request_grant id grant) q1) taken end.
Proof.
  unfold enforceAgentGrant. intros ->. destruct (starts_with _ _); cbn [negb]; [|intros [= <- <-]; left; eauto].
  destruct (grant_by_token _ _ _) as [[id grant]|] eqn:Hg; [|intros [= <- <-]; left; eauto].
  apply head_Some_elem_of, elem_of_select in Hg as [Hg _]. destruct (grantExpired grant now); [intros [= <- <-]; left; eauto|].
  case_bool_decide; [done|]. destruct (admit_request _ _ _ _ _) as [[s m]|[q1 listed]] eqn:Hadm; [intros [= <- <-]; left; eauto|].
  intros H1. apply bind_ret_inv in H1 as (r & d1 & H1 & [= <- <-]). right. exists id, grant, q1, listed, r. by split_and!.
Qed.
End Checks.

(** C23. An agent token is confined to its grant. A request that goes on under
    a token belongs to an active, unexpired grant with that token; it runs as
    the grant's owner under that grant; its event is always allowed or listed
    by the grant; a read is of a readable entity and narrowed to the grant's
    session or row; a usage query is of the own grant; the data name the
    grant's session, or for a status poll the pool or the pinned sponsor; a
    listed action is in scope and names no sponsor but the pinned one; and no
    other field of the data changes. *)
Theorem token_confined hash parse cfg now `{ScanOrder} q d q' taken d' token :
  token_of q = Some token → enforceAgentGrant hash parse cfg now q d = (Ret (Passed q' taken), d') →
  starts_with TOKEN_PREFIX token = true ∧
  ∃ id grant listed, grants d !! id = Some grant ∧ g_tokenHash grant = hash token ∧ g_isActive grant = Some true ∧
    grantExpired grant now = false ∧ q_user q' = Some (g_userId grant) ∧ q_agentGrant q' = Some (request_grant id grant) ∧
    admitted parse id grant (nullish (q_event q) EmptyString) q q' listed.
Proof.
  intros Ht Hq. destruct (enforce_passed _ _ _ _ _ _ _ _ _ _ Ht Hq) as (id & grant & q1 & listed & Hp & Hg & Hh & Ha & He & Hadm & _ & -> & _).
  split; [done|]. exists id, grant, listed. split_and!; [done..|].
  apply admit_request_admitted in Hadm. by destruct Hadm.
Qed.

(** ** The budgets a request costs *)

Section Cost.
Context (now : Z) (id : string).

(** [d'] is [d] with the row of the grant, [g], replaced by [g']. *)
Definition row_becomes (d d' : Database) (g g' : Grant) : Prop :=
  grants d !! id = Some g ∧ d' = with_grants (<[id := g']> (grants d)) d.

Lemma row_becomes_same d g : grants d !! id = Some g → row_becomes d d g g.
Proof. intros Hg. split; [done|]. rewrite insert_id by done. by destruct d. Qed.

Lemma row_becomes_row d d' g g' : row_becomes d d' g g' → grants d' !! id = Some g'.
Proof. intros [_ ->]. simpl. by rewrite lookup_insert_eq. Qed.

Lemma row_becomes_trans d1 d2 d3 g1 g2 g3 : row_becomes d1 d2 g1 g2 → row_becomes d2 d3 g2 g3 → row_becomes d1 d3 g1 g3.
Proof. intros [Hg ->] [_ ->]. split; [done|]. unfold with_grants. simpl. by rewrite insert_insert_eq. Qed.

(** One budget of the row. *)
Definition budget_same (b : GrantBudget) (g g' : Grant) : Prop :=
  windowField b g' = windowField b g ∧ usedField b g' = usedField b g.

Lemma budget_same_used b g g' : budget_same b g g' → usedInWindow g' b now = usedInWindow g b now.
Proof. intros [Hw Hu]. unfold usedInWindow. by rewrite Hw, Hu. Qed.

(** A unit taken in the current window. *)
Definition holds_unit (b : GrantBudget) (g : Grant) : Prop :=
  windowField b g = Some (current b now) ∧ ∃ u, usedField b g = Some u ∧ (0 < u)%Z.

Definition others_same (b : GrantBudget) (g g' : Grant) : Prop := ∀ b', b' ≠ b → budget_same b' g g'.

Lemma used_now b g u : windowField b g = Some (current b now) → usedField b g = Some u → usedInWindow g b now = u.
Proof. intros Hw Hu. unfold usedInWindow. by rewrite bool_decide_eq_true_2, Hu. Qed.

Lemma patch_used b v g : windowField b (patch_grant [set_used b v] g) = windowField b g ∧
  usedField b (patch_grant [set_used b v] g) = v ∧ others_same b g (patch_grant [set_used b v] g).
Proof. destruct b; split_and!; try done; by intros []. Qed.

Lemma patch_window b w v g : let g' := patch_grant [set_window b w; set_used b v] g in
  windowField b g' = w ∧ usedField b g' = v ∧ others_same b g g'.
Proof. destruct b; split_and!; try done; by intros []. Qed.

(** [g0] is the row as the request read it. *)
Lemma consume_cost g0 g b d r d' :
  grants d !! id = Some g → windowField b g = windowField b g0 → (0 ≤ nullish (usedField b g) 0)%Z →
  consumeBudget now id g0 b d = (Ret r, d') →
  if r then ∃ g', row_becomes d d' g g' ∧ holds_unit b g' ∧ others_same b g g' ∧
                  usedInWindow g' b now = (usedInWindow g b now + 1)%Z
  else d' = d.
Proof.
  intros Hg Hw Hu. unfold consumeBudget. rewrite <- Hw. case_bool_decide as Hc; intros Hr; apply bind_ret_inv in Hr as (n & d1 & H1 & H2).
  - injection H1 as <- <-. cbn in H2. apply bind_ret_inv in H2 as (k & d2 & H2 & [= <- <-]). unfold take_unit in H2.
    apply update_grant_cases in H2 as [(g1 & Hg1 & Hk & [= ->] & ->)|([= ->] & -> & _)]; [|done]. simplify_eq.
    apply andb_true_iff in Hk as [_ Hlt]. unfold column_lt in Hlt. destruct (usedField b g) as [u|] eqn:Eu; [|done].
    simpl in Hu. cbn [plus fmap option_fmap option_map]. destruct (patch_used b (Some (u + 1)%Z) g) as (Pw & Pu & Po).
    eexists. split; [by split|]. split; [split; [by rewrite Pw|]; exists (u + 1)%Z; split; [done|lia]|]. split; [done|].
    rewrite (used_now b g u), (used_now b _ (u + 1)%Z); [lia|by rewrite Pw|done..].
  - unfold reset_window in H1.
    apply update_grant_cases in H1 as [(g1 & Hg1 & Hk & [= ->] & ->)|([= ->] & -> & Hno)]; simplify_eq.
    + cbn in H2. injection H2 as <- <-. destruct (patch_window b (Some (current b now)) (Some 1%Z) g) as (Pw & Pu & Po).
      eexists. split; [by split|]. split; [split; [done|]; by exists 1%Z|]. split; [done|].
      erewrite (used_now _ _ 1) by done. unfold usedInWindow. by rewrite bool_decide_eq_false_2.
    + specialize (Hno g Hg). by rewrite bool_decide_eq_true_2 in Hno.
Qed.

Lemma refund_cost g b d n d' :
  grants d !! id = Some g → holds_unit b g → refundBudget now id b d = (Ret n, d') →
  ∃ g', row_becomes d d' g g' ∧ others_same b g g' ∧ usedInWindow g' b now = (usedInWindow g b now - 1)%Z.
Proof.
  intros Hg [Hw (u & Hu & Hpos)] Hr. unfold refundBudget in Hr.
  apply update_grant_cases in Hr as [(g1 & Hg1 & Hk & [= ->] & ->)|([= ->] & -> & Hno)]; simplify_eq.
  - rewrite Hu. cbn [plus fmap option_fmap option_map]. destruct (patch_used b (Some (u + -1)%Z) g) as (Pw & Pu & Po).
    eexists. split; [by split|]. split; [done|]. rewrite (used_now b g u), (used_now b _ (u + -1)%Z); [lia|by rewrite Pw|done..].
  - exfalso. specialize (Hno g Hg). rewrite Hw, Hu in Hno. unfold column_le in Hno. rewrite (bool_decide_eq_false_2 (u ≤ 0)%Z) in Hno by lia.
    rewrite !bool_decide_eq_true_2 in Hno by done. done.
Qed.

(** The state of the row while the request takes: a unit of each budget in
    [taken] counted, the others as they were. *)
Definition charged (taken : list GrantBudget) (g g' : Grant) : Prop :=
  ∀ b, usedInWindow g' b now = (usedInWindow g b now + (if bool_decide (b ∈ taken) then 1 else 0))%Z.

Definition taking (taken : list GrantBudget) (g g' : Grant) : Prop :=
  charged taken g g' ∧ (∀ b, b ∈ taken → holds_unit b g') ∧ ∀ b, b ∉ taken → budget_same b g g'.

Lemma charged_none g g' : charged [] g g' ↔ ∀ b, usedInWindow g' b now = usedInWindow g b now.
Proof. split; intros Hc b; specialize (Hc b); rewrite bool_decide_eq_false_2 in * by (apply not_elem_of_nil); lia. Qed.

Lemma taking_more taken b g g1 g2 :
  taking taken g g1 → b ∉ taken → holds_unit b g2 → others_same b g1 g2 →
  usedInWindow g2 b now = (usedInWindow g1 b now + 1)%Z → taking (taken ++ [b])%list g g2.
Proof.
  intros (Hc & Hh & Hs) Hb Hu Ho Hn. split_and!.
  - intros b'. destruct (decide (b' = b)) as [->|Hne].
    + rewrite bool_decide_eq_true_2 by set_solver. rewrite Hn, Hc, bool_decide_eq_false_2 by done. lia.
    + rewrite (budget_same_used _ _ _ (Ho b' Hne)), Hc. f_equal. by rewrite (bool_decide_ext (b' ∈ (taken ++ [b])%list) (b' ∈ taken)) by set_solver.
  - intros b' [Hin| ->%list_elem_of_singleton]%elem_of_app; [|done]. destruct (decide (b' = b)) as [->|Hne]; [done|].
    destruct (Ho b' Hne) as [Hw' Hu']. unfold holds_unit. rewrite Hw', Hu'. by apply Hh.
  - intros b' Hnot. rewrite not_elem_of_app, not_elem_of_cons in Hnot. destruct Hnot as (Hn1 & Hne & _).
    destruct (Hs b' Hn1), (Ho b' Hne). unfold budget_same. by split; etrans.
Qed.

Lemma refund_all_cost taken g g1 d d' :
  NoDup taken → charged taken g g1 → (∀ b, b ∈ taken → holds_unit b g1) → grants d !! id = Some g1 → refund_all now id taken d = (Ret tt, d') →
  ∃ g', row_becomes d d' g1 g' ∧ charged [] g g'.
Proof.
  revert g1 d. induction taken as [|b taken IH]; intros g1 d Hd Hc Hh Hg; simpl.
  - intros [= <-]. exists g1. split; [by apply row_becomes_same|done].
  - intros Hr. apply bind_ret_inv in Hr as (n & d1 & H1 & H2). apply NoDup_cons in Hd as [Hb Hd].
    apply (refund_cost g1) in H1 as (g2 & Hrow & Ho & Hu); [|done|apply Hh; set_solver].
    destruct (IH g2 d1) as (g' & Hrow' & Hc'); [done| | |by eapply row_becomes_row|done|].
    + intros b'. specialize (Hc b'). destruct (decide (b' = b)) as [->|Hne].
      * rewrite bool_decide_eq_true_2 in Hc by set_solver. rewrite bool_decide_eq_false_2 by done. lia.
      * rewrite (budget_same_used _ _ _ (Ho b' Hne)), Hc. f_equal. by rewrite (bool_decide_ext (b' ∈ b :: taken) (b' ∈ taken)) by set_solver.
    + intros b' Hin. assert (b' ≠ b) as Hne by (intros ->; done). destruct (Ho b' Hne) as [Hw' Hu']. unfold holds_unit. rewrite Hw', Hu'. apply Hh. set_solver.
    + exists g'. split; [by eapply row_becomes_trans|done].
Qed.

(** The budgets the grant limits. *)
Definition limited (g : Grant) (bs : list GrantBudget) : list GrantBudget := keep (λ b, bool_decide (is_Some (maxField b g))) bs.

Lemma take_budgets_cost bs taken g g1 d r d' :
  NoDup (taken ++ bs)%list → taking taken g g1 → (∀ b, 0 ≤ nullish (usedField b g) 0)%Z →
  grants d !! id = Some g1 → take_budgets now id g bs taken d = (Ret r, d') →
  ∃ g', row_becomes d d' g1 g' ∧
    match r with
    | inl _ => charged [] g g'
    | inr all => charged all g g' ∧ all = (taken ++ limited g bs)%list
    end.
Proof.
  revert taken g1 d. induction bs as [|b bs IH]; intros taken g1 d Hd Ht Hpos Hg; simpl.
  { intros [= <- <-]. exists g1. split; [by apply row_becomes_same|]. unfold limited. split; [apply Ht|by rewrite app_nil_r]. }
  assert (b ∉ taken) as Hb. { intros Hin. apply NoDup_app in Hd as (_ & Hd & _). by apply (Hd b Hin), list_elem_of_here. }
  unfold limited, keep. rewrite filter_cons. rewrite (cons_middle b taken bs) in Hd. rewrite (assoc_L app) in Hd.
  destruct (maxField b g) as [m|] eqn:Em.
  - intros Hr. rewrite decide_True by (by rewrite bool_decide_eq_true_2; [|eexists]).
    apply bind_ret_inv in Hr as (ok & d1 & H1 & H2). pose proof Ht as (Hc & Hh & Hs). destruct (Hs b Hb) as [Hw Hu].
    apply (consume_cost g g1) in H1; [|done|done|by rewrite Hu]. destruct ok.
    + destruct H1 as (g2 & Hrow & Hunit & Ho & Hn). eapply (IH _ g2) in H2 as (g' & Hrow' & Hres);
        [|done|by eapply taking_more|done|by eapply row_becomes_row].
      exists g'. split; [by eapply row_becomes_trans|]. destruct r; [done|]. destruct Hres as [? ->]. split; [done|]. by rewrite <- (assoc_L app).
    + subst d1. apply bind_ret_inv in H2 as ([] & d2 & H2 & [= <- <-]).
      apply (refund_all_cost taken g g1) in H2 as (g' & Hrow & Hc'); [by eauto| |done|done|done].
      apply NoDup_app in Hd as (Hd & _ & _). by apply NoDup_app in Hd as (Hd & _).
  - rewrite decide_False by (by rewrite bool_decide_eq_true; intros [? ?]). intros Hr. eapply IH; [|done..].
    rewrite <- (assoc_L app) in Hd. eapply sublist_NoDup; [exact Hd|]. apply sublist_app; [done|]. by apply sublist_cons.
Qed.
End Cost.

(** The units a request's answer stands for. *)
Definition cost_of (a : Answer) (id : string) (b : GrantBudget) : Z :=
  match a with
  | Passed q taken =>
      if bool_decide ((ra_ID <$> q_agentGrant q) = Some id ∧ b ∈ taken) then 1 else 0
  | Rejected _ _ => 0
  end%Z.

(** A request costs one unit of each budget its grant limits, or nothing:
    a refused request leaves every grant's use of the current hour and day as
    it was, also when the day's budget refuses after the hour's was taken; a
    request that goes on under a listed action counts one unit in each limited
    window of its own grant, and nothing of any other grant or budget. *)
Theorem request_takes_one_or_none hash parse cfg now `{ScanOrder} q d a d' :
  (∀ id g b, grants d !! id = Some g → 0 ≤ nullish (usedField b g) 0)%Z →
  enforceAgentGrant hash parse cfg now q d = (Ret a, d') →
  (∀ id g, grants d !! id = Some g → ∃ g', grants d' !! id = Some g' ∧
     ∀ b, usedInWindow g' b now = (usedInWindow g b now + (if token_of q then cost_of a id b else 0))%Z) ∧
  (∀ token q' taken, token_of q = Some token → a = Passed q' taken →
     ∃ id g, grants d !! id = Some g ∧ (ra_ID <$> q_agentGrant q') = Some id ∧
       taken = if alwaysAllowed (nullish (q_event q) EmptyString) then [] else limited g GRANT_BUDGETS).
Proof.
  intros Hpos Hq. destruct (token_of q) as [token|] eqn:Ht.
  2:{ unfold enforceAgentGrant in Hq. rewrite Ht in Hq. injection Hq as <- <-. split; [|done].
      intros id g Hg. exists g. split; [done|]. intros b. lia. }
  destruct (enforce_cases _ _ _ _ _ _ _ _ _ Ht Hq) as [(s & m & -> & ->)|(id & g & q1 & listed & r & Hg & Hadm & Htake & ->)].
  - split; [|done]. intros id g Hg. exists g. split; [done|]. intros b. simpl. lia.
  - apply admit_request_admitted in Hadm as [Hl _ _ _ _ _ _].
    assert (∃ g', row_becomes id d d' g g' ∧ match r with inl _ => charged now [] g g' | inr all => charged now all g g' ∧
      all = if listed then limited g GRANT_BUDGETS else [] end) as (g' & Hrow & Hres).
    { destruct listed; [|injection Htake as <- <-; exists g; split; [by apply row_becomes_same|split; [by apply charged_none|done]]].
      eapply take_budgets_cost in Htake; [exact Htake|by apply (bool_decide_unpack (NoDup _))| |by intros b; apply (Hpos id)|done].
      split_and!; [by apply charged_none|by intros b ?%not_elem_of_nil|done]. }
    assert (∀ x, r = inl x → ∃ s m, x = Rejected s m) as Href.
    { intros x ->. destruct listed; [by eapply take_budgets_refuses|]. by injection Htake. }
    split.
    + intros i gi Hgi. destruct (decide (i = id)) as [->|Hne].
      * exists g'. split; [by eapply row_becomes_row|]. simplify_eq. intros b. destruct r as [x|all]; simpl.
        -- destruct (Href x eq_refl) as (s & m & ->). simpl. rewrite (proj1 (charged_none _ _ _) Hres). lia.
        -- rewrite (proj1 Hres b). f_equal. by rewrite (bool_decide_ext (Some id = Some id ∧ b ∈ all) (b ∈ all)) by tauto.
      * exists gi. split; [destruct Hrow as [_ ->]; simpl; by rewrite lookup_insert_ne|]. intros b.
        destruct r as [x|all]; simpl; [destruct (Href x eq_refl) as (s & m & ->); simpl; lia|].
        rewrite bool_decide_eq_false_2; [lia|]. intros [[= ?] _]. congruence.
    + intros token' q' taken [= <-] Ha. destruct r as [x|all]; [destruct (Href x eq_refl) as (s & m & ->); done|].
      injection Ha as <- <-. exists id, g. split; [done|]. split; [done|]. destruct Hres as [_ ->]. unfold alwaysAllowed.
      destruct listed.
      * destruct (mem _ AGENT_ALWAYS_ALLOWED_EVENTS) eqn:Hm; [|done]. apply mem_true in Hm. tauto.
      * by rewrite (proj2 (mem_true _ _) Hl).
Qed.

(** *** Concrete requests *)

(** A grant for two actions, one job per hour and per day, on one session. *)
Definition agent_grant : Grant :=
  patch_grant [GSetAllowedActions (json_strings ["grantDisclosure"; "sponsorSwap"]); GSetMaxJobsPerDay (Some 1%Z);
               GSetTokenHash "hash of ngat_1"] (hour_grant 2).

Definition agent_db : Database := MkDatabase ∅ ∅ {[ "g1" := agent_grant ]} None.

Definition sample_hash (token : string) : string := "hash of " ++ token.
Definition no_parse (_ : string) : json_text := Malformed.
Definition no_sponsors : SponsorConfig := MkSponsorConfig [] None.

Definition agent_request (event : string) (data : list (string * json)) : Request :=
  MkRequest [(AGENT_TOKEN_HEADER, JStr "ngat_1")] [] None (Some event) None (Some data) None None.

Definition enforce (event : string) (data : list (string * json)) : M Database Answer :=
  @enforceAgentGrant sample_hash no_parse no_sponsors (minute 660) key_order (agent_request event data).

Definition agent_passed (data : list (string * json)) (event : string) (taken : list GrantBudget) : Answer :=
  Passed (as_agent "alice" (request_grant "g1" agent_grant) (agent_request event data)) taken.

Definition once : Database := (enforce "grantDisclosure" [] agent_db).2.

Example enforce_ex :
  (enforce "grantDisclosure" [("contractAddress", JStr "0x1")] agent_db).1 =
    Ret (agent_passed [("contractAddress", JStr "0x1"); ("sessionId", JStr "session-1")] "grantDisclosure" [HOUR_BUDGET; DAY_BUDGET]) ∧
  (enforce "grantDisclosure" [("sessionId", JStr "session-2")] agent_db).1 = Ret (Rejected 403 "sessionId does not match this agent grant") ∧
  (enforce "revokeDisclosure" [] agent_db).1 = Ret (Rejected 403 "action 'revokeDisclosure' is not allowed for this agent grant") ∧
  (enforce "grantDisclosure" [] once).1 = Ret (Rejected 429 "Rate limited (grant-day: 1 per day). Retry after 46800s").
Proof. vm_compute. auto. Qed.

Lemma token_confined_witness :
  ∃ id grant listed, grants agent_db !! id = Some grant ∧
    admitted no_parse id grant "grantDisclosure" (agent_request "grantDisclosure" [])
      (as_agent "alice" (request_grant "g1" agent_grant) (agent_request "grantDisclosure" [("sessionId", JStr "session-1")])) listed.
Proof.
  destruct (@token_confined sample_hash no_parse no_sponsors (minute 660) key_order (agent_request "grantDisclosure" []) agent_db
    (as_agent "alice" (request_grant "g1" agent_grant) (agent_request "grantDisclosure" [("sessionId", JStr "session-1")]))
    [HOUR_BUDGET; DAY_BUDGET] once "ngat_1" eq_refl) as (_ & id & grant & listed & H1 & _ & _ & _ & _ & _ & H2).
  - vm_compute. reflexivity.
  - exists id, grant, listed. split; [exact H1|exact H2].
Defined.

Lemma request_takes_one_or_none_witness :
  ∃ g', grants (enforce "grantDisclosure" [] once).2 !! "g1" = Some g' ∧
    ∀ b, usedInWindow g' b (minute 660) = (usedInWindow (row_of once) b (minute 660) + 0)%Z.
Proof.
  refine (proj1 (@request_takes_one_or_none sample_hash no_parse no_sponsors (minute 660) key_order
    (agent_request "grantDisclosure" []) once (Rejected 429 "Rate limited (grant-day: 1 per day). Retry after 46800s")
    (enforce "grantDisclosure" [] once).2 _ _) "g1" (row_of once) _).
  - intros id g b Hg. destruct (decide (id = "g1")) as [->|Hne].
    + vm_compute in Hg. injection Hg as <-. by destruct b.
    + exfalso. revert Hg. unfold once, enforce. assert (grants (enforce "grantDisclosure" [] agent_db).2 = {[ "g1" := row_of once ]}) as E by (vm_compute; reflexivity).
      unfold enforce in E. rewrite E. by rewrite lookup_singleton_ne.
  - vm_compute. reflexivity.
  - vm_compute. reflexivity.
Defined.
