(* ===== verification/RateLimiter.v ===== *)
(** The in-memory sliding-window limiter of every rate class
    (srv/utils/rate-limiter.ts): at most the limit per window and key, in a
    table that no caller can fill alone. *)
From Stdlib Require Import Ascii.
From S2P Require Import Prelude Json Numbers AgentAccess.

Set Warnings "-register-all".

Local Open Scope string_scope.

(** ** Keys *)

(** The key up to its first colon. *)
Fixpoint groupOf (key : string) : string :=
  match key with
  | EmptyString => EmptyString
  | String a s => if Ascii.eqb a ":"%char then EmptyString else String a (groupOf s)
  end.

Fixpoint colons_to_dots (s : string) : string :=
  match s with
  | EmptyString => EmptyString
  | String a s' => String (if Ascii.eqb a ":"%char then "."%char else a) (colons_to_dots s')
  end.

Definition MARKER_PRINCIPALS : list string := [AGENT_TOKEN_TRANSPORT_USER; PUBLIC_VERIFY_TRANSPORT_USER; "anonymous"].

Definition grantRateKey (grantId scope : string) : string := "grant=" ++ grantId ++ ":" ++ scope.

(** The caller: the agent grant, else the user, else the address. *)
Definition principalRateKey (grant user ip : option string) (scope : string) : string :=
  let given (v : option string) := match v with Some s => if is_empty s then None else v | None => None end in
  let user := match user with Some u => if mem u MARKER_PRINCIPALS then None else Some u | None => None end in
  match given grant, given user, given ip with
  | Some g, _, _ => grantRateKey g scope
  | None, Some u, _ => "user=" ++ u ++ ":" ++ scope
  | None, None, Some ip => "ip=" ++ colons_to_dots ip ++ ":" ++ scope
  | None, None, None => "anonymous:" ++ scope
  end.

(** ** The table *)

Record RateCheckResult := MkResult { allowed : bool; retryAfterMs : Z; limit_of : Z; remaining : Z; resetMs : Z }.

(** Both maps in insertion order. *)
Record RateLimiter := MkLimiter { hits : list (string * list Z); groupCounts : list (string * Z) }.

Section Limiter.
Context (windowMs maxKeys maxKeysPerGroup : Z).

Definition group_count (group : string) (l : RateLimiter) : Z := nullish (map_get group (groupCounts l)) 0%Z.

Definition in_window (now : Z) (ts : list Z) : list Z := keep (λ t, bool_decide (now - windowMs < t)%Z) ts.

Definition oldest (ts : list Z) : option Z :=
  match ts with [] => None | t :: ts' => Some (foldr Z.min t ts') end.

Definition length_z {A} (l : list A) : Z := Z.of_nat (length l).

Definition dropKey (key : string) (l : RateLimiter) : RateLimiter :=
  if negb (map_has key (hits l)) then l
  else
    let group := groupOf key in
    let n := (nullish (map_get group (groupCounts l)) 1 - 1)%Z in
    MkLimiter (map_del key (hits l))
      (if bool_decide (n ≤ 0)%Z then map_del group (groupCounts l) else map_set group n (groupCounts l)).

(** The least recently used key makes room. *)
Definition make_room (l : RateLimiter) : RateLimiter :=
  if bool_decide (maxKeys ≤ length_z (hits l))%Z then
    match hits l with (key, _) :: _ => dropKey key l | [] => l end
  else l.

Definition add_group (group : string) (l : RateLimiter) : RateLimiter :=
  MkLimiter (hits l) (map_set group (group_count group l + 1)%Z (groupCounts l)).

(** [hits.delete(key)] and [hits.set(key, ts)]: the key becomes the most recently used. *)
Definition put (key : string) (ts : list Z) (l : RateLimiter) : RateLimiter :=
  MkLimiter (map_del key (hits l) ++ [(key, ts)])%list (groupCounts l).

(** The check of a key the table has, or was made room for. *)
Definition check_known (key : string) (count limit now : Z) (l : RateLimiter) : RateCheckResult * RateLimiter :=
  let ts := in_window now (nullish (map_get key (hits l)) []) in
  if bool_decide (limit < length_z ts + count)%Z then
    let retryAfterMs := match oldest ts with None => windowMs | Some t => Z.max (t + windowMs - now) 0 end in
    (MkResult false retryAfterMs limit (Z.max (limit - length_z ts) 0) retryAfterMs, put key ts l)
  else
    let first := nullish (oldest ts) now in
    let ts' := (ts ++ replicate (Z.to_nat count) now)%list in
    (MkResult true 0 limit (limit - length_z ts') (Z.max (first + windowMs - now) 0), put key ts' l).

Definition group_full (key : string) (l : RateLimiter) : bool :=
  negb (map_has key (hits l)) && bool_decide (maxKeysPerGroup ≤ group_count (groupOf key) l)%Z.

Definition admit_key (key : string) (l : RateLimiter) : RateLimiter :=
  if map_has key (hits l) then l else add_group (groupOf key) (make_room l).

(** [limit] is the count in force at the call. *)
Definition checkMany (key : string) (count limit now : Z) (l : RateLimiter) : RateCheckResult * RateLimiter :=
  if bool_decide (count ≤ 0)%Z then (MkResult true 0 limit limit 0, l)
  else if group_full key l then (MkResult false windowMs limit 0 windowMs, l)
  else check_known key count limit now (admit_key key l).

Definition peek (key : string) (limit now : Z) (l : RateLimiter) : RateCheckResult :=
  let ts := in_window now (nullish (map_get key (hits l)) []) in
  let resetMs := match oldest ts with None => 0%Z | Some t => Z.max (t + windowMs - now) 0 end in
  if bool_decide (length_z ts < limit)%Z then MkResult true 0 limit (limit - length_z ts) resetMs
  else MkResult false resetMs limit 0 resetMs.

(** Drops every key without a request in the window. *)
Definition sweep (now : Z) (l : RateLimiter) : RateLimiter :=
  foldl (λ l e, if bool_decide (in_window now e.2 = []) then dropKey e.1 l else l) l (hits l).
End Limiter.

(** ** Facts *)

Section Facts.
Context (w maxKeys maxKeysPerGroup L : Z).
Hypothesis w_pos : (0 < w)%Z.

(** ** The specification: a log of units, one per admitted request *)

Notation Log := (list (string * Z)).

Definition times (key : string) (log : Log) : list Z := (filter (λ e, e.1 = key) log).*2.

Definition units (key : string) (now : Z) (log : Log) : Z := length_z (in_window w now (times key log)).

Definition log_allows (key : string) (count limit now : Z) (log : Log) : bool :=
  bool_decide (units key now log + count ≤ limit)%Z.

Definition log_add (key : string) (count now : Z) (log : Log) : Log :=
  (log ++ replicate (Z.to_nat count) (key, now))%list.

(** ** Windows *)

Lemma in_window_app now l1 l2 : in_window w now (l1 ++ l2)%list = (in_window w now l1 ++ in_window w now l2)%list.
Proof. apply filter_app. Qed.

Lemma in_window_later now now' l : (now ≤ now')%Z → in_window w now' (in_window w now l) = in_window w now' l.
Proof.
  intros Hle. unfold in_window, keep. apply list_filter_filter_l.
  intros t. rewrite !bool_decide_eq_true. lia.
Qed.

Lemma in_window_now now n : in_window w now (replicate n now) = replicate n now.
Proof.
  unfold in_window, keep. apply list_filter_all. intros x [-> _]%elem_of_replicate. apply bool_decide_eq_true. lia.
Qed.

Lemma times_app key l1 l2 : times key (l1 ++ l2)%list = (times key l1 ++ times key l2)%list.
Proof. unfold times. by rewrite filter_app, fmap_app. Qed.

Lemma times_replicate key k n t : times key (replicate n (k, t)) = if bool_decide (k = key) then replicate n t else [].
Proof.
  unfold times. case_bool_decide as Hk.
  - rewrite list_filter_all by (by intros x [-> _]%elem_of_replicate). by rewrite fmap_replicate.
  - rewrite list_filter_none; [done|]. by intros x [-> _]%elem_of_replicate.
Qed.

(** What the table holds for a key. *)
Definition stored (key : string) (l : RateLimiter) : list Z := nullish (map_get key (hits l)) [].

Definition keys (l : RateLimiter) : list string := (hits l).*1.

Lemma stored_put key k ts l : NoDup (keys l) → stored key (put k ts l) = if bool_decide (k = key) then ts else stored key l.
Proof.
  intros Hd. unfold stored, put. simpl. rewrite <- map_set_absent by (by apply map_get_del_eq).
  case_bool_decide as Hk; subst; [by rewrite map_get_set_eq|]. by rewrite map_get_set_ne, map_get_del_ne.
Qed.

Lemma stored_drop key k l : NoDup (keys l) → stored key (dropKey k l) = if bool_decide (k = key) then [] else stored key l.
Proof.
  intros Hd. unfold stored, dropKey, map_has. destruct (map_get k (hits l)) as [ts|] eqn:E; simpl.
  - case_bool_decide as Hk; subst; [by rewrite map_get_del_eq|by rewrite map_get_del_ne].
  - case_bool_decide as Hk; subst; [by rewrite E|done].
Qed.

Lemma keys_put k ts l : NoDup (keys l) → NoDup (keys (put k ts l)).
Proof.
  intros Hd. unfold keys, put. simpl. rewrite <- map_set_absent by (by apply map_get_del_eq).
  by apply map_set_NoDup, map_del_NoDup.
Qed.

Lemma keys_drop k l : NoDup (keys l) → NoDup (keys (dropKey k l)).
Proof. intros Hd. unfold dropKey. case_match; [done|]. unfold keys. simpl. by apply map_del_NoDup. Qed.

(** ** Steps *)

(** The key a check of [key] evicts. *)
Definition victim (key : string) (l : RateLimiter) : list string :=
  if map_has key (hits l) || bool_decide (length_z (hits l) < maxKeys)%Z then [] else take 1 (keys l).

(** The limiter, its clock, the log of all admitted units and the keys evicted
    so far, whose requests the table has forgotten. *)
Record LimiterWorld := MkLimiterWorld {
  w_limiter : RateLimiter; w_time : Z; w_units : Log; w_lost : list string }.

Inductive limiter_step : LimiterWorld → LimiterWorld → Prop :=
| limiter_check l t log lost key count limit now r l' :
    (t ≤ now)%Z → checkMany w maxKeys maxKeysPerGroup key count limit now l = (r, l') → (0 < count)%Z → (limit ≤ L)%Z →
    limiter_step (MkLimiterWorld l t log lost)
      (MkLimiterWorld l' now (if allowed r then log_add key count now log else log)
        (if group_full maxKeysPerGroup key l then lost else lost ++ victim key l)%list)
| limiter_sweep l t log lost now :
    (t ≤ now)%Z → limiter_step (MkLimiterWorld l t log lost) (MkLimiterWorld (sweep w now l) now log lost).

(** For a key that was not evicted, the table holds the window of the log. *)
Definition tracks (now : Z) (l : RateLimiter) (log : Log) (lost : list string) : Prop :=
  ∀ key, key ∉ lost → in_window w now (stored key l) = in_window w now (times key log).

Definition limiter_ok (s : LimiterWorld) : Prop :=
  NoDup (keys (w_limiter s)) ∧ tracks (w_time s) (w_limiter s) (w_units s) (w_lost s) ∧
  ∀ e, e ∈ w_units s → (e.2 ≤ w_time s)%Z.

Lemma tracks_later now now' l log lost : (now ≤ now')%Z → tracks now l log lost → tracks now' l log lost.
Proof. intros Hle Ht key Hk. by rewrite <- (in_window_later now now' (stored _ _)), (Ht key Hk), in_window_later. Qed.

Lemma map_has_keys {V} key (m : list (string * V)) : map_has key m = true ↔ key ∈ m.*1.
Proof.
  unfold map_has. destruct (map_get key m) as [v|] eqn:E.
  - split; [|done]. intros _. apply map_get_In in E. by apply (list_elem_of_fmap_2 fst) in E.
  - split; [done|]. by apply map_get_None in E.
Qed.

Lemma stored_absent key l : map_has key (hits l) = false → stored key l = [].
Proof. unfold map_has, stored. by destruct (map_get key (hits l)). Qed.

(** Making room for a key forgets its victim and nothing else. *)
Lemma admit_key_keeps key l :
  NoDup (keys l) → NoDup (keys (admit_key maxKeys key l)) ∧
  ∀ k, k ∉ victim key l → stored k (admit_key maxKeys key l) = stored k l.
Proof.
  intros Hd. unfold admit_key, victim, make_room. destruct (map_has key (hits l)) eqn:Hk; [done|]. cbn [orb].
  destruct (bool_decide (length_z (hits l) < maxKeys)%Z) eqn:Hb.
  - apply bool_decide_eq_true_1 in Hb. by rewrite bool_decide_eq_false_2 by lia.
  - apply bool_decide_eq_false_1 in Hb. rewrite bool_decide_eq_true_2 by lia.
    destruct (hits l) as [|[v ts] hs] eqn:E; [by split|].
    split; [by apply (keys_drop v)|]. intros k Hnot. change (stored k (dropKey v l) = stored k l).
    rewrite stored_drop by done. rewrite bool_decide_eq_false_2; [done|]. intros ->. apply Hnot. unfold keys. rewrite E. apply list_elem_of_here.
Qed.

(** A check of a known key: the decision, and what the table holds after it. *)
Lemma check_known_cases key count limit now l r l' :
  NoDup (keys l) → (0 < count)%Z → check_known w key count limit now l = (r, l') →
  let ts := in_window w now (stored key l) in
  allowed r = bool_decide (length_z ts + count ≤ limit)%Z ∧ NoDup (keys l') ∧
  ∀ k, stored k l' = if bool_decide (key = k) then (if allowed r then ts ++ replicate (Z.to_nat count) now else ts)%list else stored k l.
Proof.
  intros Hd Hc. unfold check_known. fold (stored key l). set (ts := in_window w now (stored key l)).
  case_bool_decide as Hl; intros [= <- <-]; cbv zeta; cbn [allowed]; (split; [symmetry|split; [by apply keys_put|]]).
  - apply bool_decide_eq_false. lia.
  - intros k. by rewrite stored_put.
  - apply bool_decide_eq_true. lia.
  - intros k. by rewrite stored_put.
Qed.

Lemma not_group_full_key key l : group_full maxKeysPerGroup key l = true → map_has key (hits l) = false.
Proof. unfold group_full. by destruct (map_has key (hits l)). Qed.

Lemma victim_not_self key l : key ∉ victim key l.
Proof.
  unfold victim. destruct (map_has key (hits l)) eqn:Hk; cbn [orb]; [by intros ?%not_elem_of_nil|].
  case_bool_decide; [by intros ?%not_elem_of_nil|]. intros Hin. apply not_true_iff_false in Hk. apply Hk, map_has_keys.
  unfold keys in Hin. destruct (hits l) as [|e hs]; [by apply not_elem_of_nil in Hin|]. simpl in Hin.
  apply list_elem_of_singleton in Hin as ->. apply list_elem_of_here.
Qed.

Lemma check_step_ok l t log lost key count limit now r l' :
  limiter_ok (MkLimiterWorld l t log lost) → (t ≤ now)%Z → (0 < count)%Z →
  checkMany w maxKeys maxKeysPerGroup key count limit now l = (r, l') →
  limiter_ok (MkLimiterWorld l' now (if allowed r then log_add key count now log else log)
    (if group_full maxKeysPerGroup key l then lost else lost ++ victim key l)%list).
Proof.
  intros (Hd & Ht & Hlog) Hle Hc Hr. cbn [w_limiter w_time w_units w_lost] in *. unfold checkMany in Hr.
  rewrite bool_decide_eq_false_2 in Hr by lia. apply (tracks_later _ now) in Ht; [|done].
  destruct (group_full maxKeysPerGroup key l) eqn:Hf.
  { injection Hr as <- <-. split_and!; [done|done|]. intros e He. specialize (Hlog e He). simpl. lia. }
  destruct (admit_key_keeps key l Hd) as [Hd1 Hk1]. apply check_known_cases in Hr as (Ha & Hd' & Hst); [|done..].
  split_and!; cbn [w_limiter w_time w_units w_lost]; [done| |].
  - intros k [Hlost Hv]%not_elem_of_app. rewrite Hst. destruct (bool_decide (key = k)) eqn:Ek.
    + apply bool_decide_eq_true_1 in Ek as <-. rewrite (Hk1 key (victim_not_self key l)). destruct (allowed r).
      * unfold log_add. rewrite times_app, times_replicate, bool_decide_eq_true_2 by done.
        rewrite !in_window_app, in_window_later by lia. by rewrite (Ht key Hlost).
      * rewrite in_window_later by lia. by apply Ht.
    + rewrite (Hk1 k Hv), (Ht k Hlost). destruct (allowed r); [|done]. unfold log_add.
      rewrite times_app, times_replicate, Ek. by rewrite app_nil_r.
  - intros e He. destruct (allowed r); [|specialize (Hlog e He); lia]. unfold log_add in He.
    apply elem_of_app in He as [He|[-> _]%elem_of_replicate]; [specialize (Hlog e He); lia|simpl; lia].
Qed.

(** Sweeping drops only keys without a request in the window. *)
Lemma sweep_fold now l0 es l :
  NoDup (keys l0) → (∀ e, e ∈ es → e ∈ hits l0) → NoDup (keys l) →
  (∀ k, in_window w now (stored k l) = in_window w now (stored k l0)) →
  let l' := foldl (λ l e, if bool_decide (in_window w now e.2 = []) then dropKey e.1 l else l) l es in
  NoDup (keys l') ∧ ∀ k, in_window w now (stored k l') = in_window w now (stored k l0).
Proof.
  intros Hd0. revert l. induction es as [|e es IH]; intros l Hes Hd Hk; simpl; [by split|].
  apply IH; [intros; apply Hes; by apply list_elem_of_further|by case_bool_decide; [apply keys_drop|]|].
  case_bool_decide as He; [|done]. intros k. rewrite stored_drop by done. case_bool_decide as Hek; [|apply Hk].
  subst k. unfold stored. destruct e as [k ts]. rewrite (map_get_Some_NoDup k ts); [simpl in *; by rewrite He|done|]. apply Hes, list_elem_of_here.
Qed.

Lemma sweep_step_ok l t log lost now :
  limiter_ok (MkLimiterWorld l t log lost) → (t ≤ now)%Z → limiter_ok (MkLimiterWorld (sweep w now l) now log lost).
Proof.
  intros (Hd & Ht & Hlog) Hle. cbn [w_limiter w_time w_units w_lost] in *. apply (tracks_later _ now) in Ht; [|done].
  destruct (sweep_fold now l (hits l) l) as [Hd' Hk]; [done..|]. fold (sweep w now l) in Hd', Hk.
  split_and!; cbn [w_limiter w_time w_units w_lost]; [done| |].
  - intros k Hlost. rewrite Hk. by apply Ht.
  - intros e He. specialize (Hlog e He). lia.
Qed.

Lemma limiter_step_ok s s' : limiter_step s s' → limiter_ok s → limiter_ok s'.
Proof. intros [l t log lost key count limit now r l' Hle Hr Hc _|l t log lost now Hle] Hok; [by eapply check_step_ok|by eapply sweep_step_ok]. Qed.

(** *** The window bound *)

(** Units of a key with a time in [(t - w, t]], whenever [t] is. *)
Definition burst (key : string) (t : Z) (log : Log) : Z :=
  length_z (keep (λ x, bool_decide (x ≤ t)%Z) (in_window w t (times key log))).

Definition bounded (s : LimiterWorld) : Prop := ∀ key t, key ∉ w_lost s → (burst key t (w_units s) ≤ L)%Z.

Lemma burst_le_units key t log now : (now ≤ t)%Z → (burst key t log ≤ units key now log)%Z.
Proof.
  intros Hle. unfold burst, units. trans (length_z (in_window w t (times key log))).
  - apply inj_le, sublist_length, sublist_filter.
  - rewrite <- (in_window_later now t) by done. apply inj_le, sublist_length, sublist_filter.
Qed.

Lemma burst_add key k count now log t :
  burst key t (log_add k count now log) =
  (burst key t log + if bool_decide (k = key ∧ now ≤ t < now + w) then Z.of_nat (Z.to_nat count) else 0)%Z.
Proof.
  unfold burst, log_add, length_z. rewrite times_app, times_replicate, in_window_app. unfold keep at 1. rewrite filter_app, length_app, Nat2Z.inj_add.
  f_equal. destruct (bool_decide (k = key)) eqn:Hk.
  - apply bool_decide_eq_true_1 in Hk as ->. case_bool_decide as Ht.
    + unfold in_window, keep. rewrite !list_filter_all; [by rewrite length_replicate|..];
        [|rewrite list_filter_all]; intros x [-> _]%elem_of_replicate; apply bool_decide_eq_true; lia.
    + rewrite list_filter_none; [done|]. intros x [Hx [-> _]%elem_of_replicate]%elem_of_keep. apply bool_decide_eq_true_1 in Hx.
      rewrite bool_decide_eq_true. intros Hle. apply Ht. split; [done|lia].
  - rewrite bool_decide_eq_false_2; [done|]. apply bool_decide_eq_false_1 in Hk. by intros [].
Qed.

(** The table decides as the log does. *)
Lemma decides_as_log l t log lost key count limit now :
  limiter_ok (MkLimiterWorld l t log lost) → key ∉ lost → (t ≤ now)%Z → (0 < count)%Z →
  allowed (checkMany w maxKeys maxKeysPerGroup key count limit now l).1 =
  negb (group_full maxKeysPerGroup key l) && log_allows key count limit now log.
Proof.
  intros (Hd & Ht & _) Hlost Hle Hc. cbn [w_limiter w_time w_units w_lost] in *. apply (tracks_later _ now) in Ht; [|done].
  unfold checkMany. rewrite bool_decide_eq_false_2 by lia. destruct (group_full maxKeysPerGroup key l); [done|].
  destruct (admit_key_keeps key l Hd) as [Hd1 Hk1]. destruct (check_known _ _ _ _ _ _) as [r l'] eqn:Hr.
  apply check_known_cases in Hr as (Ha & _); [|done..]. simpl. rewrite Ha, (Hk1 key (victim_not_self key l)), (Ht key Hlost). done.
Qed.

Lemma limiter_step_bounded s s' : (0 ≤ L)%Z → limiter_step s s' → limiter_ok s → bounded s → bounded s'.
Proof using w_pos.
  intros HL [l t log lost key count limit now r l' Hle Hr Hc Hlim|l t log lost now Hle] Hok Hb; [|done].
  intros k x. cbn [w_units w_lost]. intros Hk.
  assert (k ∉ lost) as Hlost by (destruct (group_full _ _ _); [done|]; by apply not_elem_of_app in Hk as []).
  specialize (Hb k x Hlost). cbn [w_units] in Hb. destruct (allowed r) eqn:Ha; [|done].
  rewrite burst_add. case_bool_decide as Hx; [|lia]. destruct Hx as [-> Hx].
  pose proof (decides_as_log l t log lost k count limit now Hok Hlost Hle Hc) as Hdec. rewrite Hr in Hdec. simpl in Hdec.
  rewrite Ha in Hdec. symmetry in Hdec. apply andb_true_iff in Hdec as [_ Hu%bool_decide_eq_true_1].
  pose proof (burst_le_units k x log now). lia.
Qed.
End Facts.

(** C30. The limiter implements the specification that remembers every request:
    whatever checks and sweeps went before, at any times and limits, a check of
    a key that the table never evicted is allowed exactly if the caller's group
    has room for the key and the requests admitted for it in the window, plus
    the ones asked, fit the limit; so no window of any position ever holds more
    admitted requests of such a key than the greatest limit that was in force. *)
Theorem limiter_refines_log w maxKeys maxKeysPerGroup L t0 s key :
  (0 < w)%Z → (0 ≤ L)%Z →
  rtc (limiter_step w maxKeys maxKeysPerGroup L) (MkLimiterWorld (MkLimiter [] []) t0 [] []) s → key ∉ w_lost s →
  (∀ count limit now, (w_time s ≤ now)%Z → (0 < count)%Z →
     allowed (checkMany w maxKeys maxKeysPerGroup key count limit now (w_limiter s)).1 =
     negb (group_full maxKeysPerGroup key (w_limiter s)) && log_allows w key count limit now (w_units s)) ∧
  ∀ t, (burst w key t (w_units s) ≤ L)%Z.
Proof.
  intros Hw HL Hs Hkey.
  assert (limiter_ok w s ∧ bounded w L s) as [Hok Hb].
  { assert (limiter_ok w (MkLimiterWorld (MkLimiter [] []) t0 [] [])) as H0.
    { split_and!; [constructor|done|]. by intros e ?%not_elem_of_nil. }
    assert (bounded w L (MkLimiterWorld (MkLimiter [] []) t0 [] [])) as H1 by (intros k t _; unfold burst, length_z; simpl; lia).
    clear Hkey. induction Hs as [|s1 s2 s3 H12 H23 IH]; [done|]. apply IH; [by eapply limiter_step_ok|by eapply limiter_step_bounded]. }
  destruct s as [l t log lost]. split; [|by intros; apply Hb].
  intros count limit now Hle Hc. by eapply decides_as_log.
Qed.

(** *** A concrete run: two requests a minute. *)

Definition two_a_minute (key : string) (now : Z) (l : RateLimiter) : RateCheckResult * RateLimiter :=
  checkMany 60000 10000 64 key 1 2 now l.

Definition run_keys (times : list Z) : list bool * RateLimiter :=
  foldl (λ acc t, let '(r, l) := two_a_minute "user=a:prove" t acc.2 in (acc.1 ++ [allowed r], l)%list) ([], MkLimiter [] []) times.

Example limiter_ex : (run_keys [0; 10; 20; 60000; 60005; 60010]%Z).1 = [true; true; false; true; false; true].
Proof. vm_compute. reflexivity. Qed.

Definition after_one : RateLimiter := (two_a_minute "user=a:prove" 5 (MkLimiter [] [])).2.

Lemma limiter_refines_log_witness :
  allowed (checkMany 60000 10000 64 "user=a:prove" 2 2 10 after_one).1 = false ∧
  allowed (checkMany 60000 10000 64 "user=a:prove" 2 2 10 after_one).1 =
    negb (group_full 64 "user=a:prove" after_one) && log_allows 60000 "user=a:prove" 2 2 10 [("user=a:prove", 5%Z)].
Proof.
  split; [vm_compute; reflexivity|].
  refine (proj1 (limiter_refines_log 60000 10000 64 2 0 (MkLimiterWorld after_one 5 [("user=a:prove", 5%Z)] []) "user=a:prove" _ _ _ _) 2%Z 2%Z 10%Z _ _);
    [lia|lia| |apply not_elem_of_nil|simpl; lia|lia].
  eapply rtc_l; [|apply rtc_refl].
  refine (limiter_check 60000 10000 64 2 (MkLimiter [] []) 0 [] [] "user=a:prove" 1 2 5 (MkResult true 0 2 1 60000) after_one _ _ _ _);
    [lia|vm_compute; reflexivity|lia|lia].
Defined.

(** ** The table *)

Section Table.
Context (w maxKeys maxKeysPerGroup L : Z).

(** The keys of a group. *)
Definition group_size (g : string) (ks : list string) : Z := length_z (filter (λ k, groupOf k = g) ks).

Lemma group_size_app g ks ks' : group_size g (ks ++ ks')%list = (group_size g ks + group_size g ks')%Z.
Proof. unfold group_size, length_z. rewrite filter_app, length_app. lia. Qed.

Lemma group_size_one g k : group_size g [k] = if bool_decide (groupOf k = g) then 1%Z else 0%Z.
Proof. unfold group_size. rewrite filter_cons. case_bool_decide; [by rewrite decide_True|by rewrite decide_False]. Qed.

Lemma group_size_cons g k ks : group_size g (k :: ks) = ((if bool_decide (groupOf k = g) then 1 else 0) + group_size g ks)%Z.
Proof. rewrite <- group_size_one. apply (group_size_app g [k]). Qed.

Lemma group_size_nonneg g ks : (0 ≤ group_size g ks)%Z.
Proof. unfold group_size, length_z. lia. Qed.

(** The keys without one of them. *)
Lemma group_size_del {V} g key (m : list (string * V)) :
  map_has key m = true → group_size g m.*1 = (group_size g (map_del key m).*1 + if bool_decide (groupOf key = g) then 1 else 0)%Z.
Proof.
  unfold map_has. induction m as [|[k v] m IH]; csimpl; [done|]. destruct (decide (k = key)) as [->|Hne].
  - intros _. rewrite group_size_cons. lia.
  - intros Hk. csimpl. rewrite !group_size_cons, IH by done. lia.
Qed.

(** [pending]: the key whose group is counted and that is about to be put. *)
Record table_ok (pending : option string) (l : RateLimiter) : Prop := MkTableOk {
  t_keys : NoDup (keys l);
  t_groups : NoDup (groupCounts l).*1;
  t_counts : ∀ g, group_count g l = (group_size g (keys l) + from_option (λ k, group_size g [k]) 0 pending)%Z;
  t_group_bound : ∀ g, (group_count g l ≤ maxKeysPerGroup)%Z;
  t_size : (length_z (hits l) + from_option (λ _, 1) 0 pending ≤ maxKeys)%Z }.

Lemma group_count_set g g' n l : group_count g' (MkLimiter (hits l) (map_set g n (groupCounts l))) =
  if bool_decide (g = g') then n else group_count g' l.
Proof. unfold group_count. simpl. case_bool_decide; subst; [by rewrite map_get_set_eq|by rewrite map_get_set_ne]. Qed.

(** Dropping a key takes one off its group. *)
Lemma drop_count key l :
  NoDup (groupCounts l).*1 → map_has key (hits l) = true → (1 ≤ group_count (groupOf key) l)%Z →
  NoDup (groupCounts (dropKey key l)).*1 ∧
  ∀ g, group_count g (dropKey key l) = (group_count g l - if bool_decide (groupOf key = g) then 1 else 0)%Z.
Proof.
  intros Hd Hk Hc. unfold dropKey. rewrite Hk. cbn [negb groupCounts]. unfold group_count in *.
  destruct (map_get (groupOf key) (groupCounts l)) as [c|] eqn:Ec; [|simpl in Hc; lia]. cbn [nullish] in *.
  case_bool_decide as Hn; (split; [by (apply map_del_NoDup || apply map_set_NoDup)|]); intros g; cbn [groupCounts]; case_bool_decide as Hg.
  - subst g. rewrite map_get_del_eq, Ec by done. simpl. lia.
  - rewrite map_get_del_ne by done. lia.
  - subst g. rewrite map_get_set_eq, Ec. simpl. lia.
  - rewrite map_get_set_ne by done. lia.
Qed.

Lemma drop_ok key l : table_ok None l → table_ok None (dropKey key l) ∧
  (map_has key (hits l) = true → length_z (hits (dropKey key l)) = (length_z (hits l) - 1)%Z).
Proof.
  intros [Hk Hg Hc Hb Hs]. destruct (map_has key (hits l)) eqn:Ek.
  2:{ unfold dropKey. by rewrite Ek. }
  pose proof (group_size_del (groupOf key) key (hits l) Ek) as Hself. rewrite bool_decide_eq_true_2 in Hself by done.
  pose proof (group_size_nonneg (groupOf key) (map_del key (hits l)).*1).
  destruct (drop_count key l Hg Ek) as [Hg' Hc']; [rewrite Hc; unfold keys; simpl; lia|].
  assert (length_z (hits (dropKey key l)) = (length_z (hits l) - 1)%Z) as Hlen.
  { unfold dropKey, length_z. rewrite Ek. simpl. pose proof (map_del_length key (hits l) Ek). lia. }
  split; [|done]. split.
  - by apply keys_drop.
  - done.
  - intros g. rewrite Hc', Hc. unfold dropKey, keys. rewrite Ek. simpl. rewrite (group_size_del g key (hits l) Ek). lia.
  - intros g. rewrite Hc'. specialize (Hb g). case_bool_decide; lia.
  - simpl in *. lia.
Qed.

Lemma make_room_ok l : (1 ≤ maxKeys)%Z → table_ok None l →
  table_ok None (make_room maxKeys l) ∧ (length_z (hits (make_room maxKeys l)) < maxKeys)%Z.
Proof.
  intros Hpos Hok. unfold make_room. case_bool_decide as Hb; [|split; [done|lia]].
  destruct (hits l) as [|[v ts] hs] eqn:E; [unfold length_z in Hb; simpl in Hb; lia|].
  destruct (drop_ok v l Hok) as [Hok' Hlen]. split; [done|].
  rewrite Hlen; [destruct Hok as [_ _ _ _ Hs]; simpl in Hs; rewrite E in *; lia|]. rewrite E. unfold map_has. simpl. by rewrite decide_True.
Qed.

Lemma make_room_has key l : map_has key (hits l) = false → map_has key (hits (make_room maxKeys l)) = false.
Proof.
  intros Hk. unfold make_room. case_bool_decide; [|done]. destruct (hits l) as [|[v ts] hs] eqn:E; [by rewrite E|].
  unfold dropKey. case_match; [by rewrite E|]. simpl. rewrite E. unfold map_has in *.
  destruct (decide (v = key)) as [->|Hne]; [by simpl in Hk; rewrite decide_True in Hk|]. by rewrite map_get_del_ne.
Qed.

Lemma make_room_mono g l : table_ok None l → (group_count g (make_room maxKeys l) ≤ group_count g l)%Z.
Proof.
  intros Hok. unfold make_room. case_bool_decide; [|done]. destruct (hits l) as [|[v ts] hs] eqn:E; [done|].
  assert (map_has v (hits l) = true) as Hv by (rewrite E; unfold map_has; simpl; by rewrite decide_True).
  destruct (drop_count v l) as [_ Hc]; [apply Hok|done| |rewrite Hc; case_bool_decide; lia].
  rewrite (t_counts _ _ Hok). unfold keys. rewrite (group_size_del _ v) by done. rewrite bool_decide_eq_true_2 by done.
  pose proof (group_size_nonneg (groupOf v) (map_del v (hits l)).*1). simpl. lia.
Qed.

Lemma admit_key_ok key l :
  (1 ≤ maxKeys)%Z → table_ok None l → group_full maxKeysPerGroup key l = false →
  table_ok (if map_has key (hits l) then None else Some key) (admit_key maxKeys key l).
Proof.
  intros Hpos Hok Hf. unfold admit_key. destruct (map_has key (hits l)) eqn:Ek; [done|].
  destruct (make_room_ok l Hpos Hok) as [[Hk Hg Hc Hb Hs] Hlen]. unfold group_full in Hf. rewrite Ek in Hf. simpl in Hf.
  apply bool_decide_eq_false_1 in Hf. split; unfold add_group; cbn [hits groupCounts keys].
  - done.
  - by apply map_set_NoDup.
  - intros g. rewrite group_count_set. cbn [from_option]. rewrite group_size_one. specialize (Hc g). simpl in Hc.
    case_bool_decide as Hgr; [subst g|]; unfold keys in *; simpl; lia.
  - intros g. rewrite group_count_set. case_bool_decide as Hgr; [|apply Hb]. pose proof (make_room_mono (groupOf key) l Hok). lia.
  - simpl. lia.
Qed.

(** Putting the key settles its group's count. *)
Lemma put_ok key ts l :
  table_ok (if map_has key (hits l) then None else Some key) l → table_ok None (put key ts l).
Proof.
  intros [Hk Hg Hc Hb Hs].
  assert (∀ g, group_size g (keys (put key ts l)) =
    (group_size g (keys l) + from_option (λ k, group_size g [k]) 0 (if map_has key (hits l) then None else Some key))%Z) as Hsize.
  { intros g. unfold keys, put. simpl. rewrite fmap_app, group_size_app. csimpl. rewrite group_size_one. destruct (map_has key (hits l)) eqn:E; simpl.
    - rewrite (group_size_del g key (hits l)) by done. lia.
    - rewrite map_del_absent, group_size_one; [lia|]. unfold map_has in E. by destruct (map_get key (hits l)). }
  assert (length_z (hits (put key ts l)) = (length_z (hits l) + if map_has key (hits l) then 0 else 1)%Z) as Hlen.
  { unfold put, length_z. simpl. rewrite length_app. simpl. destruct (map_has key (hits l)) eqn:E.
    - pose proof (map_del_length key (hits l) E). lia.
    - rewrite map_del_absent; [lia|]. unfold map_has in E. by destruct (map_get key (hits l)). }
  split.
  - by apply keys_put.
  - done.
  - intros g. specialize (Hc g). rewrite Hsize. simpl. unfold group_count in *. simpl. destruct (map_has key (hits l)); simpl in *; lia.
  - done.
  - rewrite Hlen. destruct (map_has key (hits l)); simpl in *; lia.
Qed.

Lemma admit_key_has key l : map_has key (hits (admit_key maxKeys key l)) = map_has key (hits l).
Proof.
  unfold admit_key. destruct (map_has key (hits l)) eqn:E; [done|]. simpl. by apply make_room_has.
Qed.

Lemma check_table_ok key count limit now l :
  (1 ≤ maxKeys)%Z → table_ok None l → table_ok None (checkMany w maxKeys maxKeysPerGroup key count limit now l).2.
Proof.
  intros Hpos Hok. unfold checkMany. case_bool_decide; [done|]. destruct (group_full maxKeysPerGroup key l) eqn:Hf; [done|].
  pose proof (admit_key_ok key l Hpos Hok Hf) as Hadm. rewrite <- (admit_key_has key l) in Hadm.
  unfold check_known. case_bool_decide; by apply put_ok.
Qed.

Lemma sweep_table_ok now l : table_ok None l → table_ok None (sweep w now l).
Proof.
  unfold sweep. generalize (hits l) as es. intros es. revert l. induction es as [|e es IH]; intros l Hok; simpl; [done|].
  apply IH. case_bool_decide; [by apply drop_ok|done].
Qed.
End Table.

(** C31. The table is bounded whatever keys are asked for: it never holds more
    keys than its maximum, nor more of one caller than the caller's share; no
    key is held twice; and the count kept for a caller is the number of its
    keys, so a caller's count never leaks and never locks the caller out. *)
Theorem limiter_table_bounded w maxKeys maxKeysPerGroup L t0 s :
  (1 ≤ maxKeys)%Z → (0 ≤ maxKeysPerGroup)%Z →
  rtc (limiter_step w maxKeys maxKeysPerGroup L) (MkLimiterWorld (MkLimiter [] []) t0 [] []) s →
  let ks := keys (w_limiter s) in
  NoDup ks ∧ (length_z ks ≤ maxKeys)%Z ∧
  ∀ g, group_count g (w_limiter s) = group_size g ks ∧ (group_size g ks ≤ maxKeysPerGroup)%Z.
Proof.
  intros Hpos Hgr Hs.
  assert (table_ok maxKeys maxKeysPerGroup None (w_limiter s)) as [Hk Hg Hc Hb Hsz].
  { assert (table_ok maxKeys maxKeysPerGroup None (MkLimiter [] [])) as H0.
    { split; try constructor; unfold group_count, length_z; simpl; lia. }
    change (MkLimiter [] []) with (w_limiter (MkLimiterWorld (MkLimiter [] []) t0 [] [])) in H0.
    induction Hs as [|s1 s2 s3 H12 H23 IH]; [done|]. apply IH.
    destruct H12 as [l t log lost key count limit now r l' _ Hr _ _|l t log lost now _]; cbn [w_limiter] in *.
    - replace l' with (checkMany w maxKeys maxKeysPerGroup key count limit now l).2 by (by rewrite Hr). by apply check_table_ok.
    - by apply sweep_table_ok. }
  cbv zeta. simpl in *. split; [done|]. split; [unfold keys, length_z in *; rewrite length_fmap; lia|].
  intros g. specialize (Hc g). specialize (Hb g). split; lia.
Qed.

Lemma limiter_table_bounded_witness :
  length_z (keys (checkMany 60000 1 64 "user=b:prove" 1 2 6 after_one).2) = 1%Z ∧
  (length_z (keys (checkMany 60000 1 64 "user=b:prove" 1 2 6 after_one).2) ≤ 1)%Z.
Proof.
  split; [vm_compute; reflexivity|].
  refine (proj1 (proj2 (limiter_table_bounded 60000 1 64 2 0
    (MkLimiterWorld (checkMany 60000 1 64 "user=b:prove" 1 2 6 after_one).2 6 [("user=a:prove", 5%Z); ("user=b:prove", 6%Z)] ["user=a:prove"]) _ _ _)));
    [lia|lia|].
  eapply rtc_l; [|eapply rtc_l; [|apply rtc_refl]].
  - refine (limiter_check 60000 1 64 2 (MkLimiter [] []) 0 [] [] "user=a:prove" 1 2 5 (MkResult true 0 2 1 60000) after_one _ _ _ _);
      [lia|vm_compute; reflexivity|lia|lia].
  - refine (limiter_check 60000 1 64 2 after_one 5 [("user=a:prove", 5%Z)] [] "user=b:prove" 1 2 6 (MkResult true 0 2 1 60000) _ _ _ _ _);
      [lia|vm_compute; reflexivity|lia|lia].
Defined.

(** A user id with a colon gives its caller part up: all users whose ids share
    the part before it count as one caller. *)
Theorem colon_users_share_a_group :
  groupOf (principalRateKey None (Some "did:alice") None "prove") = "user=did" ∧
  groupOf (principalRateKey None (Some "did:bob") None "prove") = "user=did".
Proof. split; reflexivity. Qed.
