(* ===== verification/Retry.v ===== *)
(** Errors of the database (srv/utils/db-errors.ts) and the retry of short
    writes that lost a lock (srv/submission/db-write-retry.ts). *)
From S2P Require Import Prelude.

Definition isUniqueViolation (err : exn) : bool :=
  if bool_decide (ex_code err ∈ ["23505"; "UNIQUE_CONSTRAINT_VIOLATION"; "ENTITY_ALREADY_EXISTS"]%string) then true
  else existsb (λ p, includes_ci p (ex_msg err))
         ["UNIQUE constraint failed"; "duplicate key value"; "violates unique constraint";
          "unique constraint violated"]%string.

(** What the database raises on a duplicate key. *)
Definition unique_violation : exn := Exn "Error"%string "UNIQUE_CONSTRAINT_VIOLATION"%string "UNIQUE constraint failed"%string.

Definition LOCK_CONTENTION_ATTEMPTS : nat := 5.

(** Serialization failure, deadlock, lock not available, timeout cancel. *)
Definition PG_RETRY_SQLSTATES : list string := ["40001"; "40P01"; "55P03"; "57014"]%string.

(** The alternatives of the message pattern, all tested case-insensitively. *)
Definition lock_messages : list string :=
  [ "database is locked"; "SQLITE_BUSY"; "could not serialize access"; "deadlock detected";
    "lock timeout"; "canceling statement due to lock timeout"; "ResourceRequest timed out" ]%string.

Definition isLockContention (err : exn) : bool :=
  if bool_decide (ex_code err ∈ PG_RETRY_SQLSTATES) || bool_decide (ex_code err = "SQLITE_BUSY"%string)
  then true
  else existsb (λ p, includes_ci p (ex_msg err)) lock_messages.

Section Retry.
Context {S A : Type}.

(** The for loop from attempt [attempt] on, [left] attempts left; [lastErr]
    is what the loop throws when none is left. *)
Fixpoint retry_from (left attempt : nat) (lastErr : exn) (write : nat → M S A) : M S A := λ s,
  match left with
  | O => (Throw lastErr, s)
  | Datatypes.S left' =>
      match write attempt s with
      | (Ret a, s') => (Ret a, s')
      | (Throw err, s') =>
          if isLockContention err then retry_from left' (Datatypes.S attempt) err write s'
          else (Throw err, s')
      end
  end.

(** [write i] is the write as attempt [i] runs it: the database decides each
    time whether it raises. *)
Definition withLockContentionRetry (write : nat → M S A) : M S A :=
  retry_from LOCK_CONTENTION_ATTEMPTS 0 (js_error "undefined") write.

(** ** Reasoning *)

(** Any relation that a single attempt keeps, whatever its outcome, is kept
    by the loop. *)
Lemma retry_from_preserves (R : S → S → Prop) `{!PreOrder R} (write : nat → M S A) :
  (∀ i s o s', write i s = (o, s') → R s s') →
  ∀ left att lastErr s o s', retry_from left att lastErr write s = (o, s') → R s s'.
Proof.
  intros Hw left. induction left as [|left IH]; intros att lastErr s o s' Hr; simpl in Hr.
  { simplify_eq. reflexivity. }
  destruct (write att s) as [[a|e] s1] eqn:E; [simplify_eq; eauto|].
  destruct (isLockContention e); [|simplify_eq; eauto].
  transitivity s1; eauto.
Qed.

(** A write that changes nothing when it throws: the loop's result is one
    successful attempt on the initial state, or a throw that changed nothing. *)
Lemma retry_from_atomic (write : nat → M S A) :
  (∀ i s e s', write i s = (Throw e, s') → s' = s) →
  ∀ left att lastErr s o s', retry_from left att lastErr write s = (o, s') →
  (∃ i a, o = Ret a ∧ att ≤ i < att + left ∧ write i s = (Ret a, s')) ∨
  (∃ e, o = Throw e ∧ s' = s).
Proof.
  intros Hw left. induction left as [|left IH]; intros att lastErr s o s' Hr; simpl in Hr.
  { simplify_eq. right. eauto. }
  destruct (write att s) as [[a|e] s1] eqn:E.
  { simplify_eq. left. exists att, a. split_and!; [done|lia|lia|done]. }
  apply Hw in E as E'. subst s1.
  destruct (isLockContention e); [|simplify_eq; eauto].
  destruct (IH _ _ _ _ _ Hr) as [(i & a & -> & Hi & Ha)|?]; [|by right].
  left. exists i, a. split_and!; [done|lia|lia|done].
Qed.

(** Writes that keep [R] when they throw: a result comes from one write on a
    state that the thrown ones kept in [R]. *)
Lemma retry_from_result (R : S → S → Prop) `{!PreOrder R} (write : nat → M S A) :
  (∀ i s x s', write i s = (Throw x, s') → R s s') →
  ∀ left att lastErr s o s', retry_from left att lastErr write s = (o, s') →
  (∃ i a s1, o = Ret a ∧ R s s1 ∧ write i s1 = (Ret a, s')) ∨ (∃ x, o = Throw x ∧ R s s').
Proof.
  intros Hw left. induction left as [|left IH]; intros att lastErr s o s' Hr; simpl in Hr.
  { simplify_eq. right. by eexists. }
  destruct (write att s) as [[a|x] s1] eqn:E.
  { simplify_eq. left. by exists att, a, s. }
  apply Hw in E. destruct (isLockContention x); [|simplify_eq; right; by eexists].
  destruct (IH _ _ _ _ _ Hr) as [(i & a & s2 & -> & H2 & Ha)|(y & -> & H2)].
  - left. exists i, a, s2. split_and!; [done|by transitivity s1|done].
  - right. exists y. split; [done|by transitivity s1].
Qed.

Lemma withLockContentionRetry_atomic (write : nat → M S A) s o s' :
  (∀ i s e s', write i s = (Throw e, s') → s' = s) →
  withLockContentionRetry write s = (o, s') →
  (∃ i a, o = Ret a ∧ i < LOCK_CONTENTION_ATTEMPTS ∧ write i s = (Ret a, s')) ∨
  (∃ e, o = Throw e ∧ s' = s).
Proof.
  intros Hw Hr. destruct (retry_from_atomic write Hw _ _ _ _ _ _ Hr) as [(i & a & -> & Hi & Ha)|]; [|by right].
  left. exists i, a. split_and!; [done|lia|done].
Qed.

(** ** What the retry promises *)

(** The error attempt [i] ends with on state [s], if it throws. *)
Definition attempt_throws (write : nat → M S A) (i : nat) (s : S) (e : exn) : Prop :=
  ∃ s', write i s = (Throw e, s').

Lemma retry_from_first_success (write : nat → M S A) s a s' :
  ∀ k left att lastErr,
  (∀ i, att ≤ i < att + k → ∃ e, write i s = (Throw e, s) ∧ isLockContention e = true) →
  k < left → write (att + k) s = (Ret a, s') →
  retry_from left att lastErr write s = (Ret a, s').
Proof.
  intros k. induction k as [|k IH]; intros left att lastErr Hfail Hlt Hok.
  - destruct left; [lia|]. simpl. rewrite Nat.add_0_r in Hok. by rewrite Hok.
  - destruct left as [|left]; [lia|]. simpl.
    destruct (Hfail att) as (e & -> & ->); [lia|].
    apply IH; [intros i Hi; apply Hfail; lia|lia|].
    by replace (Datatypes.S att + k) with (att + Datatypes.S k) by lia.
Qed.

Lemma retry_from_exhausted (write : nat → M S A) s :
  ∀ left att lastErr,
  (∀ i, att ≤ i < att + left → ∃ e, write i s = (Throw e, s) ∧ isLockContention e = true) →
  ∃ e, retry_from left att lastErr write s = (Throw e, s) ∧
       (left = 0 → e = lastErr) ∧ (0 < left → write (att + left - 1) s = (Throw e, s)).
Proof.
  intros left. induction left as [|left IH]; intros att lastErr Hfail; simpl.
  { exists lastErr. split_and!; [done|done|lia]. }
  destruct (Hfail att) as (e & He & Hc); [lia|]. rewrite He, Hc.
  destruct (IH (Datatypes.S att) e) as (e' & -> & H0 & H1); [intros i Hi; apply Hfail; lia|].
  exists e'. split_and!; [done|done|]. intros _. destruct left as [|left].
  - rewrite (H0 eq_refl). by replace (att + 1 - 1) with att by lia.
  - replace (att + Datatypes.S (Datatypes.S left) - 1) with (Datatypes.S att + Datatypes.S left - 1) by lia.
    apply H1. lia.
Qed.
End Retry.

(** ** The loop in closed form *)

Section RetryOutcome.
Context {S A : Type} (write : nat → M S A) (s : S).

(** Attempt [i] lost a lock. *)
Definition lock_lost (i : nat) : bool :=
  match (write i s).1 with Throw e => isLockContention e | Ret _ => false end.

(** The attempt that decides: the first that did not lose a lock, else the last. *)
Definition deciding_attempt : nat :=
  nullish (head (filter (λ i, lock_lost i = false) (seq 0 LOCK_CONTENTION_ATTEMPTS)))
    (LOCK_CONTENTION_ATTEMPTS - 1).

Hypothesis rolls_back : ∀ i e s', write i s = (Throw e, s') → s' = s.

Lemma retry_from_deciding left att lastErr :
  0 < left →
  retry_from left att lastErr write s =
  write (nullish (head (filter (λ i, lock_lost i = false) (seq att left))) (att + left - 1)) s.
Proof using rolls_back.
  revert att lastErr. induction left as [|left IH]; intros att lastErr Hlt; [lia|].
  cbn [seq retry_from]. rewrite filter_cons. destruct (write att s) as [[a|e] s'] eqn:E.
  - assert (lock_lost att = false) as Hl by (unfold lock_lost; by rewrite E). by rewrite decide_True.
  - pose proof (rolls_back _ _ _ E) as ->. destruct (isLockContention e) eqn:Ec.
    + assert (lock_lost att = true) as Hl by (unfold lock_lost; by rewrite E). rewrite decide_False by congruence.
      destruct left as [|left].
      * simpl. replace (att + 1 - 1) with att by lia. by rewrite E.
      * rewrite IH by lia. by replace (Datatypes.S att + Datatypes.S left - 1) with (att + Datatypes.S (Datatypes.S left) - 1) by lia.
    + assert (lock_lost att = false) as Hl by (unfold lock_lost; by rewrite E). rewrite decide_True by done. simpl. by rewrite E.
Qed.

(** The retried write has the outcome of its first attempt that did not
    lose a lock, and of the fifth when all do: a success is returned once, an
    error that is no lock conflict is thrown at once, and the last lock error
    is thrown after five attempts. Each attempt starts from the same state,
    because a failed one is rolled back. *)
Theorem lock_retry_decides : withLockContentionRetry write s = write deciding_attempt s.
Proof using rolls_back. unfold withLockContentionRetry. rewrite retry_from_deciding; [done|unfold LOCK_CONTENTION_ATTEMPTS; lia]. Qed.
End RetryOutcome.

(** Two lost locks, then a success: the third attempt's result. *)
Definition busy_twice (i : nat) : M nat string := λ s,
  if (i <? 2)%nat then (Throw (Exn "Error" "SQLITE_BUSY" "database is locked"), s)
  else (Ret "done"%string, Datatypes.S s).

Lemma lock_retry_decides_witness :
  (∀ i e s', busy_twice i 7 = (Throw e, s') → s' = 7) ∧
  withLockContentionRetry busy_twice 7 = (Ret "done"%string, 8) ∧ deciding_attempt busy_twice 7 = 2.
Proof.
  assert (∀ i e s', busy_twice i 7 = (Throw e, s') → s' = 7) as Hr.
  { intros i e s'. unfold busy_twice. destruct (i <? 2)%nat; congruence. }
  split; [exact Hr|]. split; [|vm_compute; reflexivity].
  rewrite (lock_retry_decides busy_twice 7 Hr). vm_compute. reflexivity.
Defined.
