(* ===== verification/InstanceLease.v ===== *)
(** The lease that lets one process per database run the background work
    (srv/utils/instance-lease.ts).

    The table InstanceLeases holds a row per role. Processes share it, so
    between two statements of one process the others may have run any of
    theirs. *)
From S2P Require Import Prelude Db Retry.

Local Open Scope string_scope.

Definition BACKGROUND_LEASE_ROLE : string := "background".

Record LeaseRow := MkLease { l_instanceId : string; l_acquiredAt : Z; l_heartbeatAt : option Z }.
Notation Leases := (gmap string LeaseRow).

(** What a process remembers: the lease it holds, as role and holder, and
    whether it lost it. *)
Record LeaseProc := MkProc { activeLease : option (string * string); fenced : bool }.

(** Several processes, known by their holder names, on one table. *)
Record LeaseWorld := MkLeaseWorld { lw_rows : Leases; lw_procs : gmap string LeaseProc }.

Inductive LeaseAttempt := Acquired | HeldBy (holder : string) (heartbeatAgeMs : Z).

Definition no_proc : LeaseProc := MkProc None false.

(** ** Statements *)

(** [UPDATE .. SET heartbeatAt = now WHERE role AND instanceId = holder] *)
Definition refresh_row (role holder : string) (now : Z) : M Leases nat := λ t,
  let '(t', n) := sql_update_key role (λ r, bool_decide (l_instanceId r = holder))
                    (λ r, MkLease (l_instanceId r) (l_acquiredAt r) (Some now)) t in (Ret n, t').

(** The takeover matches a row whose heartbeat lies before [now - ttlMs]. *)
Definition is_stale (staleBefore : Z) (r : LeaseRow) : bool :=
  match l_heartbeatAt r with Some h => bool_decide (h < staleBefore)%Z | None => false end.

Definition take_over_row (role holder : string) (now ttlMs : Z) : M Leases nat := λ t,
  let '(t', n) := sql_update_key role (is_stale (now - ttlMs)) (λ _, MkLease holder now (Some now)) t in
  (Ret n, t').

Definition read_row (role : string) : M Leases (option LeaseRow) := λ t, (Ret (t !! role), t).

Definition insert_row (role holder : string) (now : Z) : M Leases unit := λ t,
  match t !! role with
  | Some _ => (Throw unique_violation, t)
  | None => (Ret tt, <[role := MkLease holder now (Some now)]> t)
  end.

Definition renewInstanceLease (role holder : string) (now : Z) : M Leases bool :=
  n ← refresh_row role holder now; mret (bool_decide (0 < n)).

(** [DELETE .. WHERE role AND instanceId = holder] *)
Definition releaseInstanceLease (role holder : string) : M Leases unit := λ t,
  (Ret tt, sql_delete (λ k r, bool_decide (k = role) && bool_decide (l_instanceId r = holder)) t).

(** ** The process's own view *)

Definition setActiveLease (role holder : string) (p : LeaseProc) : LeaseProc := MkProc (Some (role, holder)) false.
Definition clearActiveLease (p : LeaseProc) : LeaseProc := MkProc None (fenced p).
Definition fenceBackgroundWork (p : LeaseProc) : LeaseProc := MkProc (activeLease p) true.

Definition leaseLostError : exn :=
  Exn "NightgateError" "INSTANCE_LEASE_HELD"
    "this process lost the instance lease to another NIGHTGATE process on the same database; nothing was broadcast".

(** Called right before a transaction is sent: [inr] is the answer of a
    process that still holds the lease, or never had one. *)
Definition assertLeaseHeld (t : Leases) (p : LeaseProc) : (exn + unit) * LeaseProc :=
  if fenced p then (inl leaseLostError, p)
  else match activeLease p with
       | None => (inr tt, p)
       | Some (role, holder) =>
           if bool_decide (l_instanceId <$> t !! role = Some holder) then (inr tt, p)
           else (inl leaseLostError, fenceBackgroundWork p)
       end.

(** ** Taking the lease *)

Section Acquire.
(** [others n]: what the other processes do to the table before statement [n]
    of this one; [fault n]: the error the database raises for it, if any. *)
Context (others : nat → Leases → Leases) (fault : nat → option exn).

Definition statement {A} (n : nat) (m : M Leases A) : M Leases A := λ t,
  match fault n with Some x => (Throw x, others n t) | None => m (others n t) end.

(** One pass of the statements from number [n]; [again err] is what an insert
    that met a row of another process comes to. *)
Definition lease_pass (n : nat) (role holder : string) (ttlMs now : Z)
    (again : exn → M Leases LeaseAttempt) : M Leases LeaseAttempt :=
  mine ← statement n (refresh_row role holder now);
  if bool_decide (0 < mine) then mret Acquired else
  takeover ← statement (n + 1) (take_over_row role holder now ttlMs);
  if bool_decide (0 < takeover) then mret Acquired else
  row ← statement (n + 2) (read_row role);
  match row with
  | None =>
      try_catch (_ ← statement (n + 3) (insert_row role holder now); mret Acquired)
        (λ err, if isUniqueViolation err then again err else throw err)
  | Some r =>
      let age := match l_heartbeatAt r with Some h => Z.max 0 (now - h) | None => 0%Z end in
      mret (HeldBy (l_instanceId r) age)
  end.

(** [tryAcquireInstanceLease]: after an insert lost to another process, one
    more pass reports who holds the lease. *)
Definition tryAcquireInstanceLease (n : nat) (role holder : string) (ttlMs now : Z) : M Leases LeaseAttempt :=
  lease_pass n role holder ttlMs now (λ _, lease_pass (n + 4) role holder ttlMs now throw).

Definition poll_ms (pollMs : option Z) (ttlMs : Z) : Z := nullish pollMs (Z.max 1000 (ttlMs / 6)).

Definition InstanceLeaseHeldError (holder : string) (heartbeatAgeMs : Z) : exn :=
  Exn "InstanceLeaseHeldError" "INSTANCE_LEASE_HELD"
    ("another NIGHTGATE instance (" ++ holder ++ ") runs the background work on this database (heartbeat " ++
     pretty ((heartbeatAgeMs + 500) / 1000)%Z ++ " s ago); one database serves one instance").

(** The clock as try [i] reads it before and after its statements. *)
Context (c_try c_now : nat → Z).

(** The loop from try [i]; [None] is a loop that did not end within [fuel]
    tries. Each try uses at most eight statements. *)
Fixpoint acquire_from (fuel i : nat) (role holder : string) (ttlMs : Z) (deadline : option Z) :
    M Leases (option unit) :=
  match fuel with
  | O => mret None
  | S fuel' =>
      attempt ← tryAcquireInstanceLease (8 * i) role holder ttlMs (c_try i);
      match attempt with
      | Acquired => mret (Some tt)
      | HeldBy other age =>
          let limit := nullish deadline (c_now i + ttlMs)%Z in
          if bool_decide (limit ≤ c_now i)%Z then throw (InstanceLeaseHeldError other age)
          else acquire_from fuel' (S i) role holder ttlMs (Some limit)
      end
  end.

Definition acquireInstanceLease (fuel : nat) (role holder : string) (ttlMs : Z) : M Leases (option unit) :=
  acquire_from fuel 0 role holder ttlMs None.

(** What the clock and [sleep] promise: a try takes time, and the sleep before
    the next lasts [min(pollMs, deadline - now)] at least. *)
Definition sleeps (pollMs ttlMs : Z) : Prop :=
  ∀ i, (c_try i ≤ c_now i)%Z ∧
       (c_now i < c_now 0 + ttlMs → c_now i + Z.min pollMs (c_now 0 + ttlMs - c_now i) ≤ c_try (S i))%Z.

(** ** The loop ends *)

Lemma acquire_ends role holder ttlMs t :
  (0 < ttlMs)%Z → sleeps (poll_ms None ttlMs) ttlMs →
  ∀ fuel i deadline, deadline = (if bool_decide (i = 0) then None else Some (c_now 0 + ttlMs)%Z) →
    (Z.min (c_now 0 + ttlMs) (c_now 0 + Z.of_nat i * poll_ms None ttlMs) ≤ c_now i)%Z →
    (8 ≤ fuel + i)%nat → (0 < fuel)%nat → (acquire_from fuel i role holder ttlMs deadline t).1 ≠ Ret None.
Proof.
  intros Httl Hs fuel. revert t. induction fuel as [|fuel IH]; intros t i deadline Hd Hi Hf Hf0; [lia|].
  cbn [acquire_from]. unfold mbind, M_bind, mret, M_ret, throw.
  destruct (tryAcquireInstanceLease _ _ _ _ _ t) as [[a|x] t1]; [|done].
  destruct a as [|other age]; [done|].
  assert (nullish deadline (c_now i + ttlMs)%Z = (c_now 0 + ttlMs)%Z) as ->.
  { rewrite Hd. case_bool_decide as Hz; [by rewrite Hz|done]. }
  clear Hd. case_bool_decide as Hl; [done|]. destruct (Hs i) as [_ Hn]. specialize (Hn ltac:(lia)). destruct (Hs (S i)) as [Ht _].
  assert (i < 7)%nat as Hi7.
  { apply Nat.nle_gt. intros H7. assert (ttlMs ≤ Z.of_nat i * poll_ms None ttlMs)%Z; [|lia].
    trans (7 * poll_ms None ttlMs)%Z; [unfold poll_ms; simpl; pose proof (Z.div_mod ttlMs 6); pose proof (Z.mod_pos_bound ttlMs 6); lia|].
    apply Z.mul_le_mono_nonneg_r; [unfold poll_ms; simpl; lia|lia]. }
  apply IH; [by rewrite bool_decide_eq_false_2| |lia|lia].
  rewrite Nat2Z.inj_succ, Z.mul_succ_l. lia.
Qed.
End Acquire.

(** ** Facts *)

Local Close Scope string_scope.

Section Acquire.
Context (others : nat → Leases → Leases) (fault : nat → option exn) (c_try c_now : nat → Z).

Lemma wait_ends role holder ttlMs t :
  (0 < ttlMs)%Z → sleeps c_try c_now (poll_ms None ttlMs) ttlMs →
  (acquireInstanceLease others fault c_try c_now 8 role holder ttlMs t).1 ≠ Ret None.
Proof.
  intros Httl Hs. unfold acquireInstanceLease. apply acquire_ends; [done|done|done| |lia|lia].
  rewrite Z.mul_0_l. lia.
Qed.

Context (quiet : ∀ n, fault n = None) (role : string) (untouched : ∀ n t, others n t !! role = t !! role).

Lemma statement_quiet {A} n (m : M Leases A) t : statement others fault n m t = m (others n t).
Proof. unfold statement. by rewrite quiet. Qed.

(** A try on a row that no other process touches: it takes the lease, or finds
    a row of another process that is not stale and leaves it. *)
Lemma quiet_try n holder ttlMs now t r :
  t !! role = Some r →
  ∃ t', tryAcquireInstanceLease others fault n role holder ttlMs now t =
          (Ret (if bool_decide (l_instanceId r = holder) || is_stale (now - ttlMs) r then Acquired
                else HeldBy (l_instanceId r) (match l_heartbeatAt r with Some h => Z.max 0 (now - h) | None => 0%Z end)), t') ∧
        (if bool_decide (l_instanceId r = holder) || is_stale (now - ttlMs) r
         then l_instanceId <$> t' !! role = Some holder else t' !! role = Some r).
Proof.
  intros Hr. unfold tryAcquireInstanceLease, lease_pass, mbind, M_bind, mret, M_ret.
  rewrite statement_quiet. unfold refresh_row at 1, sql_update_key. rewrite untouched, Hr.
  destruct (decide (l_instanceId r = holder)) as [Hh|Hh].
  { rewrite (bool_decide_eq_true_2 _ Hh). eexists. split; [done|]. cbn. by rewrite lookup_insert_eq, <- Hh. }
  rewrite (bool_decide_eq_false_2 _ Hh). cbn [orb]. rewrite bool_decide_eq_false_2 by lia.
  rewrite statement_quiet. unfold take_over_row at 1, sql_update_key. rewrite !untouched, Hr.
  destruct (is_stale _ r).
  { eexists. split; [done|]. by rewrite lookup_insert_eq. }
  rewrite bool_decide_eq_false_2 by lia. rewrite statement_quiet. unfold read_row. rewrite !untouched, Hr.
  eexists. split; [done|]. by rewrite !untouched.
Qed.

(** The loop on the row of a holder that stopped refreshing at [h]. *)
Lemma dead_loop holder ttlMs r h :
  l_heartbeatAt r = Some h → (∀ i, c_now i - c_try i < c_now 0 - h)%Z →
  ∀ fuel i t deadline, t !! role = Some r → nullish deadline (c_now i + ttlMs)%Z = (c_now 0 + ttlMs)%Z →
  ∃ o t', acquire_from others fault c_try c_now fuel i role holder ttlMs deadline t = (Ret o, t') ∧
          (o = None ∨ l_instanceId <$> t' !! role = Some holder).
Proof.
  intros Hh Hfast fuel. induction fuel as [|fuel IH]; intros i t deadline Hr Hd; cbn [acquire_from]; m_unfold; [eauto|].
  destruct (quiet_try (8 * i) holder ttlMs (c_try i) t r Hr) as (t' & -> & Ht').
  destruct (bool_decide _ || _) eqn:E; [eauto|]. apply orb_false_iff in E as [_ E].
  rewrite Hd. rewrite bool_decide_eq_false_2; [by apply IH|].
  unfold is_stale in E. rewrite Hh in E. apply bool_decide_eq_false_1 in E. specialize (Hfast i). lia.
Qed.
End Acquire.

(** Starting the background work never hangs on the lease: whatever other
    processes do to the row meanwhile and whatever the database raises, eight
    tries with the default pause are enough for the loop to take the lease or
    to refuse with an error. *)
Theorem lease_wait_ends (others : nat → Leases → Leases) (fault : nat → option exn) (c_try c_now : nat → Z) role holder ttlMs t :
  (0 < ttlMs)%Z → sleeps c_try c_now (poll_ms None ttlMs) ttlMs →
  (acquireInstanceLease others fault c_try c_now 8 role holder ttlMs t).1 ≠ Ret None.
Proof. apply wait_ends. Qed.

(** A lease left behind by a killed process is taken over: when the row's
    last refresh lies before the start of the wait by more than a try takes,
    nobody else touches the row and the database answers, eight tries end with
    the lease in the caller's name. *)
Theorem dead_holder_is_succeeded (others : nat → Leases → Leases) (fault : nat → option exn) (c_try c_now : nat → Z) role holder ttlMs t r h :
  (∀ n, fault n = None) → (∀ n t, others n t !! role = t !! role) →
  (0 < ttlMs)%Z → sleeps c_try c_now (poll_ms None ttlMs) ttlMs →
  t !! role = Some r → l_heartbeatAt r = Some h → (∀ i, c_now i - c_try i < c_now 0%nat - h)%Z →
  ∃ t', acquireInstanceLease others fault c_try c_now 8 role holder ttlMs t = (Ret (Some tt), t') ∧
        l_instanceId <$> t' !! role = Some holder.
Proof.
  intros Hq Hu Httl Hs Hr Hh Hfast. pose proof (wait_ends others fault c_try c_now role holder ttlMs t Httl Hs) as He.
  destruct (dead_loop others fault c_try c_now Hq role Hu holder ttlMs r h Hh Hfast 8 0 t None Hr eq_refl) as (o & t' & E & Ho).
  unfold acquireInstanceLease in *. rewrite E in *. destruct o as [[]|]; [|done]. exists t'. split; [done|]. by destruct Ho.
Qed.

(** ** Several processes *)

(** The statements and the memory writes of a process that touch the lease. *)
Inductive LeaseAct :=
| ActRefresh | ActTakeOver | ActInsert | ActRelease | ActActivate | ActAssert | ActFence | ActClear.

Section World.
Context (role : string) (ttlMs : Z).

Definition act_rows (who : string) (now : Z) (a : LeaseAct) (t : Leases) : Leases :=
  match a with
  | ActRefresh => (refresh_row role who now t).2
  | ActTakeOver => (take_over_row role who now ttlMs t).2
  | ActInsert => (insert_row role who now t).2
  | ActRelease => (releaseInstanceLease role who t).2
  | _ => t
  end.

Definition act_proc (who : string) (a : LeaseAct) (t : Leases) (p : LeaseProc) : LeaseProc :=
  match a with
  | ActActivate => setActiveLease role who p
  | ActAssert => (assertLeaseHeld t p).2
  | ActFence => fenceBackgroundWork p
  | ActClear => clearActiveLease p
  | _ => p
  end.

Definition run_act (w : LeaseWorld) (x : string * Z * LeaseAct) : LeaseWorld :=
  let '(who, now, a) := x in
  MkLeaseWorld (act_rows who now a (lw_rows w))
    (<[who := act_proc who a (lw_rows w) (nullish (lw_procs w !! who) no_proc)]> (lw_procs w)).

Definition run_acts (w : LeaseWorld) (l : list (string * Z * LeaseAct)) : LeaseWorld := foldl run_act w l.

(** The row names [h], refreshed at [b]. *)
Definition named (h : string) (b : Z) (t : Leases) : Prop :=
  ∃ r, t !! role = Some r ∧ l_instanceId r = h ∧ l_heartbeatAt r = Some b.

(** [h] is prompt at an act: it does not release the row, and its last refresh
    is no older than the lease lasts. *)
Definition prompt (h : string) (t : Leases) (x : string * Z * LeaseAct) : Prop :=
  let '(who, now, a) := x in (who = h → a ≠ ActRelease) ∧ ∀ b, named h b t → (now ≤ b + ttlMs)%Z.

Fixpoint prompt_along (h : string) (w : LeaseWorld) (l : list (string * Z * LeaseAct)) : Prop :=
  match l with
  | [] => True
  | x :: l' => prompt h (lw_rows w) x ∧ prompt_along h (run_act w x) l'
  end.

Lemma prompt_act_named h b w x :
  named h b (lw_rows w) → prompt h (lw_rows w) x → ∃ b', named h b' (lw_rows (run_act w x)).
Proof.
  destruct x as [[who now] a]. intros (r & Hr & Hh & Hb) [Hrel Hp]. specialize (Hp b (ex_intro _ r (conj Hr (conj Hh Hb)))).
  simpl. destruct a; simpl; try (exists b, r; done).
  - unfold refresh_row, sql_update_key. rewrite Hr. case_bool_decide; [|exists b, r; done].
    exists now, (MkLease (l_instanceId r) (l_acquiredAt r) (Some now)). simpl. by rewrite lookup_insert_eq.
  - unfold take_over_row, sql_update_key, is_stale. rewrite Hr, Hb. rewrite bool_decide_eq_false_2 by lia. exists b, r. done.
  - unfold insert_row. rewrite Hr. exists b, r. done.
  - exists b, r. split_and!; [|done|done]. apply lookup_sql_delete. split; [done|]. rewrite (bool_decide_eq_true_2 (role = role)) by done.
    apply bool_decide_eq_false_2. rewrite Hh. intros ->. by apply Hrel.
Qed.

Lemma prompt_run_named h l : ∀ b w, named h b (lw_rows w) → prompt_along h w l → ∃ b', named h b' (lw_rows (run_acts w l)).
Proof.
  induction l as [|x l IH]; intros b w Hn Hp; [by eexists|]. destruct Hp as [Hx Hp].
  destruct (prompt_act_named h b w x Hn Hx) as [b' Hn']. by eapply IH.
Qed.

(** A try of a process, with acts of the others between its statements, is a
    run of acts. *)
Definition own (who : string) (now : Z) (x : string * Z * LeaseAct) : Prop :=
  x.1 = (who, now) ∧ (x.2 = ActRefresh ∨ x.2 = ActTakeOver ∨ x.2 = ActInsert).

Definition rows_after (t : Leases) (l : list (string * Z * LeaseAct)) : Leases :=
  foldl (λ t x, act_rows x.1.1 x.1.2 x.2 t) t l.

Lemma run_acts_rows w l : lw_rows (run_acts w l) = rows_after (lw_rows w) l.
Proof. revert w. induction l as [|[[who now] a] l IH]; intros w; [done|]. simpl. by rewrite IH. Qed.

(** A computation whose writes are acts that satisfy [P]. *)
Definition acts_of {A} (P : string * Z * LeaseAct → Prop) (m : M Leases A) : Prop :=
  ∀ t, ∃ l, (m t).2 = rows_after t l ∧ Forall P l.

Lemma acts_of_id {A} P (m : M Leases A) : (∀ t, (m t).2 = t) → acts_of P m.
Proof. intros Hm t. exists []. split; [by rewrite Hm|constructor]. Qed.

Lemma acts_of_bind {A B} P (m : M Leases A) (k : A → M Leases B) :
  acts_of P m → (∀ a, acts_of P (k a)) → acts_of P (m ≫= k).
Proof.
  intros Hm Hk t. destruct (Hm t) as (l & E & Hl). unfold mbind, M_bind. destruct (m t) as [[a|x] t1]; simpl in E; subst; [|eauto].
  destruct (Hk a (rows_after t l)) as (l' & E & Hl'). exists (l ++ l'). rewrite E. split; [|by apply Forall_app_2].
  unfold rows_after. by rewrite foldl_app.
Qed.

Lemma acts_of_catch {A} P (m : M Leases A) k : acts_of P m → (∀ x, acts_of P (k x)) → acts_of P (try_catch m k).
Proof.
  intros Hm Hk t. destruct (Hm t) as (l & E & Hl). unfold try_catch. destruct (m t) as [[a|x] t1]; simpl in E; subst; [eauto|].
  destruct (Hk x (rows_after t l)) as (l' & E & Hl'). exists (l ++ l'). rewrite E. split; [|by apply Forall_app_2].
  unfold rows_after. by rewrite foldl_app.
Qed.

Lemma acts_of_statement {A} P ls fault n (m : M Leases A) :
  (∀ n x, x ∈ ls n → P x) → acts_of P m → acts_of P (statement (λ n t, rows_after t (ls n)) fault n m).
Proof.
  intros Hls Hm t. assert (Forall P (ls n)) as Hn by (apply Forall_forall; eauto). unfold statement.
  destruct (fault n); [by eexists|]. destruct (Hm (rows_after t (ls n))) as (l & E & Hl). exists (ls n ++ l).
  rewrite E. split; [|by apply Forall_app_2]. unfold rows_after. by rewrite foldl_app.
Qed.

Lemma acts_of_own {A} P who now a (m : M Leases A) :
  P (who, now, a) → (∀ t, (m t).2 = act_rows who now a t) → acts_of P m.
Proof. intros HP Hm t. exists [(who, now, a)]. split; [by rewrite Hm|by repeat constructor]. Qed.

Lemma try_is_run ls fault n who now :
  acts_of (λ x, own who now x ∨ ∃ n, x ∈ ls n) (tryAcquireInstanceLease (λ n t, rows_after t (ls n)) fault n role who ttlMs now).
Proof.
  assert (∀ n again, (∀ x, acts_of (λ x, own who now x ∨ ∃ n, x ∈ ls n) (again x)) →
    acts_of (λ x, own who now x ∨ ∃ n, x ∈ ls n) (lease_pass (λ n t, rows_after t (ls n)) fault n role who ttlMs now again)) as Hpass.
  { intros n0 again Ha. unfold lease_pass. apply acts_of_bind; [|intros mine].
    { apply acts_of_statement; [eauto|]. apply (acts_of_own _ who now ActRefresh); [unfold own; auto|done]. }
    case_bool_decide; [by apply acts_of_id|]. apply acts_of_bind; [|intros takeover].
    { apply acts_of_statement; [eauto|]. apply (acts_of_own _ who now ActTakeOver); [unfold own; auto|done]. }
    case_bool_decide; [by apply acts_of_id|]. apply acts_of_bind; [|intros [r|]].
    { apply acts_of_statement; [eauto|]. by apply acts_of_id. }
    { by apply acts_of_id. }
    apply acts_of_catch; [|intros x; destruct (isUniqueViolation x); [done|by apply acts_of_id]].
    apply acts_of_bind; [|intros []; by apply acts_of_id]. apply acts_of_statement; [eauto|].
    apply (acts_of_own _ who now ActInsert); [unfold own; auto|done]. }
  unfold tryAcquireInstanceLease. apply Hpass. intros x. apply Hpass. intros x'. by apply acts_of_id.
Qed.
End World.

(** C40. One process at a time: while the process that the row names refreshes
    it before it gets older than the lease lasts and does not release it, every
    interleaving with the statements of other processes, their tries to take
    the lease included, leaves the row in its name; any other process that
    believes to hold the lease is refused right before it sends a transaction
    and remembers that it is fenced. *)
Theorem prompt_holder_is_alone role ttlMs h b w l :
  named role h b (lw_rows w) → prompt_along role ttlMs h w l →
  l_instanceId <$> lw_rows (run_acts role ttlMs w l) !! role = Some h ∧
  ∀ who p, who ≠ h → activeLease p = Some (role, who) →
    assertLeaseHeld (lw_rows (run_acts role ttlMs w l)) p = (inl leaseLostError, fenceBackgroundWork p).
Proof.
  intros Hn Hp. destruct (prompt_run_named role ttlMs h l b w Hn Hp) as (b' & r & Hr & Hh & _).
  rewrite Hr. simpl. split; [congruence|]. intros who p Hne Ha. unfold assertLeaseHeld.
  destruct (fenced p) eqn:Ef; [unfold fenceBackgroundWork; destruct p; simpl in *; by subst|].
  rewrite Ha, Hr. simpl. rewrite bool_decide_eq_false_2 by congruence. done.
Qed.

(** ** Examples *)


Definition two_second_clock (i : nat) : Z := 10000 + 2000 * Z.of_nat i.
Definition left_behind : Leases := {[ BACKGROUND_LEASE_ROLE := MkLease "a/1" 100 (Some 5000)%Z ]}.

Lemma two_second_sleeps : sleeps two_second_clock two_second_clock (poll_ms None 9000) 9000.
Proof. intros i. unfold two_second_clock, poll_ms. simpl nullish. change (Z.max 1000 (9000 / 6)) with 1500%Z. lia. Qed.

Lemma lease_wait_ends_witness :
  (acquireInstanceLease (λ _ t, t) (λ _, None) two_second_clock two_second_clock 8 BACKGROUND_LEASE_ROLE "b/2" 9000
     {[ BACKGROUND_LEASE_ROLE := MkLease "a/1" 100 None ]}).1 ≠ Ret None.
Proof. apply lease_wait_ends; [lia|apply two_second_sleeps]. Defined.

Lemma dead_holder_is_succeeded_witness :
  ∃ t', acquireInstanceLease (λ _ t, t) (λ _, None) two_second_clock two_second_clock 8 BACKGROUND_LEASE_ROLE "b/2" 9000 left_behind
          = (Ret (Some tt), t') ∧ l_instanceId <$> t' !! BACKGROUND_LEASE_ROLE = Some "b/2".
Proof.
  apply (dead_holder_is_succeeded (λ _ t, t) (λ _, None) two_second_clock two_second_clock BACKGROUND_LEASE_ROLE "b/2" 9000 left_behind
           (MkLease "a/1" 100 (Some 5000)%Z) 5000); try done; [apply two_second_sleeps|]. intros i. unfold two_second_clock. lia.
Defined.

(** Process a refreshes; b tries to take over and, believing it did, asserts. *)
Definition contest : list (string * Z * LeaseAct) :=
  [("a/1", 8000%Z, ActRefresh); ("b/2", 9000%Z, ActTakeOver); ("b/2", 9001%Z, ActActivate);
   ("b/2", 9002%Z, ActAssert); ("a/1", 11000%Z, ActRefresh); ("b/2", 13000%Z, ActTakeOver)].

Lemma contest_prompt : prompt_along BACKGROUND_LEASE_ROLE 9000 "a/1" (MkLeaseWorld left_behind ∅) contest.
Proof. repeat split; try done; intros b (r & Hr & _ & Hb); vm_compute in Hr; injection Hr as <-; simpl in Hb; injection Hb as <-; lia. Qed.

Lemma prompt_holder_is_alone_witness :
  assertLeaseHeld (lw_rows (run_acts BACKGROUND_LEASE_ROLE 9000 (MkLeaseWorld left_behind ∅) contest))
    (MkProc (Some (BACKGROUND_LEASE_ROLE, "b/2")) false) = (inl leaseLostError, MkProc (Some (BACKGROUND_LEASE_ROLE, "b/2")) true).
Proof.
  refine (proj2 (prompt_holder_is_alone BACKGROUND_LEASE_ROLE 9000 "a/1" 5000 (MkLeaseWorld left_behind ∅) contest _ contest_prompt)
            "b/2" (MkProc (Some (BACKGROUND_LEASE_ROLE, "b/2")) false) _ eq_refl); [|done].
  exists (MkLease "a/1" 100 (Some 5000)%Z). done.
Defined.
