(* ===== verification/JobKinds.v ===== *)
(** Background job kinds and their registry
    (srv/submission/job-kinds.ts, srv/submission/job-registry.ts). *)
From S2P Require Import Prelude Db Schema.

Local Open Scope string_scope.

Record JobKindTraits := MkTraits {
  heavy : bool; workflowParent : bool; identifierKeyed : bool;
  serial : option bool; sessionBound : option bool }.

Inductive JobExecutor :=
| ExWallet | ExContract | ExMintShieldedTestToken | ExMintFactoryToken
| ExSponsorFinalized | ExSponsorUnbound | ExReindexDisclosures.

Inductive JobFinalizer := FinContractProjection | FinSponsoredSubmission | FinFactoryMint.

Record JobKindDefinition := MkKindDef {
  traits : JobKindTraits; executor : JobExecutor; op : option string;
  finalizer : option JobFinalizer }.

#[export] Instance JobKindTraits_eq_dec : EqDecision JobKindTraits.
Proof. solve_decision. Defined.
#[export] Instance JobExecutor_eq_dec : EqDecision JobExecutor.
Proof. solve_decision. Defined.

Definition LIGHT_KIND : JobKindTraits := MkTraits false false false None None.
Definition HEAVY_KIND : JobKindTraits := MkTraits true false false None None.
Definition WORKFLOW_PARENT_KIND : JobKindTraits := MkTraits true true false None None.

Definition contract (o : string) (t : JobKindTraits) (f : option JobFinalizer) : JobKindDefinition :=
  MkKindDef t ExContract (Some o) f.

(** The one table of all kinds, in source order. *)
Definition JOB_KINDS : list (string * JobKindDefinition) :=
  [ ("connectWalletForSigning",
     MkKindDef (MkTraits false false false (Some true) (Some true)) ExWallet (Some "prewarm") None);
    ("registerForDustGeneration", MkKindDef HEAVY_KIND ExWallet (Some "registerDust") None);
    ("deregisterFromDustGeneration", MkKindDef HEAVY_KIND ExWallet (Some "deregisterDust") None);
    ("sendNight", MkKindDef HEAVY_KIND ExWallet (Some "sendNight") None);
    ("deployContract", contract "deploy" HEAVY_KIND None);
    ("submitContractCall", contract "call" HEAVY_KIND None);
    ("submitContractCallBatch", contract "callBatch" HEAVY_KIND (Some FinContractProjection));
    ("mintShieldedTestToken", MkKindDef HEAVY_KIND ExMintShieldedTestToken (Some "call") None);
    ("mintFactoryToken", MkKindDef HEAVY_KIND ExMintFactoryToken (Some "call") (Some FinFactoryMint));
    ("anchorDocument", contract "anchorDocument" HEAVY_KIND (Some FinContractProjection));
    ("grantDisclosure", contract "grantDisclosure" HEAVY_KIND (Some FinContractProjection));
    ("revokeDisclosure", contract "revokeDisclosure" HEAVY_KIND (Some FinContractProjection));
    ("registerPassport", contract "registerPassport" HEAVY_KIND (Some FinContractProjection));
    ("retract", contract "retract" HEAVY_KIND (Some FinContractProjection));
    ("reindexDisclosures",
     MkKindDef LIGHT_KIND ExReindexDisclosures (Some "reindexDisclosures") None);
    ("issueFieldPredicateAttestation", contract "fieldPredicateWorkflow" WORKFLOW_PARENT_KIND None);
    ("issueFieldPredicateAttestationBatch",
     contract "fieldPredicateBatchWorkflow" WORKFLOW_PARENT_KIND None);
    ("issueFieldEqualityAttestation", contract "fieldEqualityWorkflow" WORKFLOW_PARENT_KIND None);
    ("issueFieldMembershipAttestation", contract "fieldMembershipWorkflow" WORKFLOW_PARENT_KIND None);
    ("issueDocumentIntegrityAttestation",
     contract "documentIntegrityWorkflow" WORKFLOW_PARENT_KIND None);
    ("issueDocumentDiffAttestation", contract "documentDiffWorkflow" WORKFLOW_PARENT_KIND None);
    ("fieldAnchorRoot", contract "call" HEAVY_KIND None);
    ("fieldPredicateProof", contract "call" HEAVY_KIND None);
    ("fieldPredicateBatchProof", contract "callBatch" HEAVY_KIND (Some FinContractProjection));
    ("fieldEqualityProof", contract "call" HEAVY_KIND None);
    ("fieldMembershipProof", contract "call" HEAVY_KIND None);
    ("documentIntegrityProof", contract "call" HEAVY_KIND None);
    ("documentDiffProof", contract "call" HEAVY_KIND None);
    ("buildSponsorableTx", contract "buildSponsorable" HEAVY_KIND None);
    ("sponsorFinalizedTransaction",
     MkKindDef (MkTraits false false true None None) ExSponsorFinalized None (Some FinSponsoredSubmission));
    ("sponsorUnboundTransaction",
     MkKindDef (MkTraits true false true None None) ExSponsorUnbound None (Some FinSponsoredSubmission));
    ("sponsorSwap",
     MkKindDef (MkTraits true false true None None) ExSponsorUnbound None (Some FinSponsoredSubmission));
    ("sponsorTransfer",
     MkKindDef (MkTraits true false true None None) ExSponsorUnbound None (Some FinSponsoredSubmission));
    ("burnFactoryToken", contract "call" HEAVY_KIND None) ].

Definition JOB_KIND_TRAITS : list (string * JobKindTraits) :=
  (λ '(k, d), (k, traits d)) <$> JOB_KINDS.

Definition jobKindsOf (e : JobExecutor) : list string :=
  (filter (λ kd, executor kd.2 = e) JOB_KINDS).*1.

Definition jobKindOp (k : string) : option string :=
  match map_get k JOB_KINDS with Some d => op d | None => None end.

(** Throws for an undeclared kind. *)
Definition declaredJobKindTraits (k : string) : outcome JobKindTraits :=
  match map_get k JOB_KIND_TRAITS with
  | Some t => Ret t
  | None => Throw (js_error ("job kind '" ++ k ++ "' is not declared in srv/submission/job-kinds.ts"))
  end.

(** ** The registry *)

(** [`${kind}\0${version}`] *)
Definition NUL : Ascii.ascii := Ascii.zero.
Definition processorKey (k : string) (version : Z) : string := k ++ String NUL (pretty version).

(** [s.split('\0')[0]] *)
Fixpoint before_nul (s : string) : string :=
  match s with
  | EmptyString => EmptyString
  | String a s' => if Ascii.eqb a NUL then EmptyString else String a (before_nul s')
  end.

(** Module state of job-registry.ts: the declared traits and the keys of the
    registered processors, in insertion order. What a processor does is the
    executors' code; the registry only stores it. *)
Record Registry := MkRegistry {
  kindTraits : list (string * JobKindTraits);
  processors : list string }.

Definition declareJobKind (k : string) (t : JobKindTraits) (r : Registry) : outcome Registry :=
  if bool_decide (k = EmptyString) then
    Throw (js_error ("declareJobKind(" ++ k ++ "): heavy, workflowParent and identifierKeyed must be booleans"))
  else Ret (MkRegistry (map_set k t (kindTraits r)) (processors r)).

(** An unknown kind counts as light. *)
Definition jobKindTraits (r : Registry) (k : string) : JobKindTraits :=
  nullish (map_get k (kindTraits r)) LIGHT_KIND.

Definition kindsWithTrait (r : Registry) (trait : JobKindTraits → bool) : list string :=
  (filter (λ kt, trait kt.2 = true) (kindTraits r)).*1.

(** [t[trait] === true] on an optional trait. *)
Definition is_true_opt (o : option bool) : bool := match o with Some b => b | None => false end.
Definition serial_trait (t : JobKindTraits) : bool := is_true_opt (serial t).
Definition sessionBound_trait (t : JobKindTraits) : bool := is_true_opt (sessionBound t).

Definition registerBackgroundJobProcessor (k : string) (version : Z) (t : JobKindTraits)
    (r : Registry) : outcome Registry :=
  if bool_decide (k = EmptyString) || bool_decide (version < 1)%Z then
    Throw (js_error "registerBackgroundJobProcessor: kind, positive version, traits and processor are required")
  else
    match declareJobKind k t r with
    | Throw e => Throw e
    | Ret r' =>
        let key := processorKey k version in
        Ret (MkRegistry (kindTraits r')
               (if bool_decide (key ∈ processors r') then processors r' else processors r' ++ [key]))
    end.

(** Declared kinds without a processor; the runner refuses to start on any. *)
Definition undeclaredOrUnregisteredJobKinds (r : Registry) : list string :=
  filter (λ k, k ∉ (before_nul <$> processors r)) (JOB_KIND_TRAITS.*1).

(** ** Facts *)

(** No kind name of a registered processor contains the separator. *)
Fixpoint no_nul (s : string) : bool :=
  match s with
  | EmptyString => true
  | String a s' => negb (Ascii.eqb a NUL) && no_nul s'
  end.

Lemma before_nul_key k v : no_nul k = true → before_nul (processorKey k v) = k.
Proof.
  unfold processorKey. induction k as [|a k IH]; intros Hn; [done|].
  simpl in *. apply andb_prop in Hn as [Ha Hk]. destruct (Ascii.eqb a NUL); [done|].
  by rewrite IH.
Qed.

(** The key determines kind and version, so a processor is never run for a
    command of another version or kind. *)
Lemma processorKey_inj k v k' v' :
  no_nul k = true → no_nul k' = true → processorKey k v = processorKey k' v' → k = k' ∧ v = v'.
Proof.
  intros Hk Hk' Heq. assert (k = k') as <-.
  { rewrite <- (before_nul_key k v Hk), Heq. by apply before_nul_key. }
  split; [done|]. unfold processorKey in Heq.
  induction k as [|a k IH]; simpl in *.
  - injection Heq as Heq. by apply (inj pretty) in Heq.
  - injection Heq as Heq. apply andb_prop in Hk as [_ Hk]. auto.
Qed.

Lemma JOB_KINDS_no_nul : forallb (λ kd, no_nul kd.1) JOB_KINDS = true.
Proof. by vm_compute. Qed.

Lemma JOB_KINDS_NoDup : NoDup JOB_KINDS.*1.
Proof. by apply (bool_decide_eq_true_1 (NoDup JOB_KINDS.*1)); vm_compute. Qed.

Lemma registered_processor_in (r r' : Registry) k v t :
  registerBackgroundJobProcessor k v t r = Ret r' → processorKey k v ∈ processors r'.
Proof.
  unfold registerBackgroundJobProcessor, declareJobKind. intros H.
  repeat (case_match; simplify_eq/=); case_bool_decide; set_solver.
Qed.

Lemma registered_processor_mono (r r' : Registry) k v t :
  registerBackgroundJobProcessor k v t r = Ret r' → processors r ⊆ processors r'.
Proof.
  unfold registerBackgroundJobProcessor, declareJobKind. intros H.
  repeat (case_match; simplify_eq/=); case_bool_decide; set_solver.
Qed.

(** ** The start-up check *)

(** Every processor key stands for a kind without a separator in its name. *)
Definition keys_ok (r : Registry) : Prop :=
  ∀ key, key ∈ processors r → ∃ k v, no_nul k = true ∧ key = processorKey k v.

Lemma JOB_KIND_TRAITS_no_nul k : k ∈ JOB_KIND_TRAITS.*1 → no_nul k = true.
Proof.
  intros Hk.
  apply list_elem_of_fmap in Hk as ([k' t] & -> & Hk). unfold JOB_KIND_TRAITS in Hk.
  apply list_elem_of_fmap in Hk as ([k2 d] & Heq & Hin). simplify_eq/=.
  apply (proj1 (forallb_forall _ _) JOB_KINDS_no_nul (k2, d)). by apply list_elem_of_In.
Qed.

(** The start-up check passes exactly when every kind of the one table has
    a registered processor: a runner never starts with a kind it could accept
    but not run. *)
Theorem startup_check_complete r :
  keys_ok r →
  undeclaredOrUnregisteredJobKinds r = [] ↔
  ∀ k, k ∈ JOB_KINDS.*1 → ∃ v, processorKey k v ∈ processors r.
Proof.
  intros Hok. assert (JOB_KIND_TRAITS.*1 = JOB_KINDS.*1) as Hkeys by (vm_compute; reflexivity).
  assert (∀ k, no_nul k = true → k ∈ before_nul <$> processors r ↔ ∃ v, processorKey k v ∈ processors r) as Hreg.
  { intros k Hk. rewrite list_elem_of_fmap. split.
    - intros (key & Heq & Hin). destruct (Hok _ Hin) as (k' & v & Hk' & ->). rewrite before_nul_key in Heq by done.
      subst k'. eauto.
    - intros [v Hv]. exists (processorKey k v). by rewrite before_nul_key. }
  unfold undeclaredOrUnregisteredJobKinds. split.
  - intros Hnil k Hk. rewrite <- Hkeys in Hk. apply Hreg; [by apply JOB_KIND_TRAITS_no_nul|].
    destruct (decide (k ∈ before_nul <$> processors r)) as [|Hn]; [done|]. exfalso.
    apply (not_elem_of_nil k). rewrite <- Hnil. by apply list_elem_of_filter.
  - intros Hall. destruct (filter _ _) as [|k l] eqn:E; [done|]. exfalso.
    assert (k ∈ filter (λ k, k ∉ before_nul <$> processors r) JOB_KIND_TRAITS.*1) as Hin by (rewrite E; apply list_elem_of_here).
    apply list_elem_of_filter in Hin as [Hn Hin]. apply Hn, Hreg; [by apply JOB_KIND_TRAITS_no_nul|].
    apply Hall. by rewrite <- Hkeys.
Qed.

(** All kinds registered, with version 1. *)
Definition full_registry : Registry :=
  foldl (λ r kd, match registerBackgroundJobProcessor kd.1 1 (traits kd.2) r with Ret r' => r' | Throw _ => r end)
    (MkRegistry [] []) JOB_KINDS.

Definition keys_okb (r : Registry) : bool :=
  forallb (λ key, bool_decide (key ∈ ((λ kd, processorKey kd.1 1) <$> JOB_KINDS))) (processors r).

Lemma keys_okb_ok r : keys_okb r = true → keys_ok r.
Proof.
  unfold keys_okb. rewrite forallb_forall. intros Hall key Hin.
  specialize (Hall key). rewrite <- list_elem_of_In in Hall. specialize (Hall Hin).
  apply bool_decide_eq_true_1, list_elem_of_fmap in Hall as ([k d] & -> & Hk). exists k, 1%Z. split; [|done].
  apply JOB_KIND_TRAITS_no_nul. assert (JOB_KIND_TRAITS.*1 = JOB_KINDS.*1) as -> by (vm_compute; reflexivity).
  apply list_elem_of_fmap. by exists (k, d).
Qed.

Lemma startup_check_complete_witness :
  undeclaredOrUnregisteredJobKinds full_registry = [] ∧
  ∃ v, processorKey "sendNight" v ∈ processors full_registry.
Proof.
  assert (keys_ok full_registry) as Hok by (apply keys_okb_ok; vm_compute; reflexivity).
  assert (undeclaredOrUnregisteredJobKinds full_registry = []) as Hn by (vm_compute; reflexivity).
  split; [exact Hn|]. apply (proj1 (startup_check_complete full_registry Hok) Hn).
  apply (bool_decide_eq_true_1 ("sendNight" ∈ JOB_KINDS.*1)). vm_compute. reflexivity.
Defined.
