(* ===== verification/JobStore.v ===== *)
(** Status changes and leases of background jobs (srv/submission/job-store.ts).

    A job row is written only through conditional UPDATEs: each names in its
    WHERE clause the status, and past the claim the lease owner, it expects, and
    a changed-row count other than one is an error or a lost race. *)
From S2P Require Import Prelude Db Json Retry Schema.

Local Open Scope string_scope.

(** What the operations read from their surroundings: the clock and the
    database's failures as retry attempt [i] meets them, the process's worker
    ID, NIGHTGATE_JOB_LEASE_TTL_MS and NIGHTGATE_BROADCAST_EXPIRY_MARGIN_MS. [fault op i n] is the error statement [n] of
    attempt [i] of operation [op] raises instead of running, if any. *)
Record Env := MkEnv {
  clock : nat → Z;
  workerId : string;
  jobLeaseTtlMs : Z;
  broadcastExpiryMarginMs : Z;
  fault : string → nat → nat → option exn }.

Definition stmt {A} (e : Env) (o : string) (i n : nat) (m : M Database A) : M Database A :=
  match fault e o i n with Some x => throw x | None => m end.

(** [getRuntimeWorkerId()] *)
Definition getRuntimeWorkerId (e : Env) : string := workerId e.

Definition leaseExpiry (e : Env) (i : nat) : Z := (clock e i + jobLeaseTtlMs e)%Z.

Definition in_flight : list JobStatus := [Running; ExternalExecution; Submitted].

(** [{ ID, leaseOwner: me, status: { in: in_flight } }] *)
Definition held (e : Env) (r : Job) : bool := owned_by (getRuntimeWorkerId e) r && status_in in_flight r.

Definition release_lease : list job_set :=
  [SetLeaseOwner None; SetLeaseExpiresAt None; SetHeartbeatAt None].

Definition renew_lease (e : Env) (i : nat) : list job_set :=
  [SetHeartbeatAt (Some (clock e i)); SetLeaseExpiresAt (Some (leaseExpiry e i))].

Definition lease_lost (before : string) (jobId : string) : exn :=
  js_error ("Lease lost before " ++ before ++ "(" ++ jobId ++ ")").

(** An UPDATE that must change exactly one row. *)
Definition must_change_one (err : exn) (m : M Database nat) : M Database unit :=
  n ← m; if bool_decide (n = 1) then mret () else throw err.

Definition getJobById (e : Env) (jobId : string) : M Database (option Job) :=
  if bool_decide (jobId = EmptyString) then mret None
  else stmt e "getJobById" 0 0 (select_job jobId).

(** The WHERE clause of a job's attempt row: by its ID when recorded, else by
    the transaction hash. *)
Definition attemptRowOf (submissionId txHash : option string) : string → Submission → bool :=
  match submissionId with
  | Some sid => if bool_decide (sid = EmptyString) then λ _ s, bool_decide (s_txHash s = txHash)
                else λ k _, bool_decide (k = sid)
  | None => λ _ s, bool_decide (s_txHash s = txHash)
  end.

(** Why a workflow fails with its child. *)
Definition childFailedMessage (failed : string * Job) (siblings : list (string * Job)) : string :=
  let landed := (λ c : string * Job, nullish (workflowStep (j_spec c.2)) c.1) <$>
                filter (λ c : string * Job, j_status c.2 = Succeeded) siblings in
  "Child job " ++ failed.1 ++ " (workflow step '" ++ nullish (workflowStep (j_spec failed.2)) "?" ++
  "') failed [" ++ nullish (j_errorCode failed.2) "UNKNOWN" ++ "]: " ++
  slice0 1500 (nullish (j_errorMessage failed.2) "unknown error") ++
  (match landed with
   | [] => " No step of this workflow is on chain."
   | _ => " Steps already on chain: " ++ String.concat ", " landed ++ "."
   end) ++ " A new attempt needs a new idempotencyKey.".

Definition session_closed_message : string :=
  "Dropped on restart: the wallet session this job signs with was closed by the restart cleanup, so a replay could no longer decrypt its signing material. Reconnect and submit the action again if it is still wanted.".

Definition drop_chunk (e : Env) (i n : nat) (ids : list string) : M Database nat :=
  stmt e "dropPendingJobsForClosedSessions" i n
    (update_jobs (λ _ r, status_in [Pending] r && bool_decide (sessionId (j_spec r) ∈ ids))
       ([SetStatus Failed; SetErrorCode (Some "PROCESS_RESTART_SESSION_CLOSED");
         SetErrorMessage (Some session_closed_message);
         SetFinishedAt (Some (clock e i))] ++ release_lease)).

Fixpoint drop_chunks (e : Env) (i n : nat) (dropped : nat) (cs : list (list string)) : M Database nat :=
  match cs with
  | [] => mret dropped
  | c :: cs' => k ← drop_chunk e i n c; drop_chunks e i (S n) (dropped + k) cs'
  end.

Definition dropPendingJobsForClosedSessions (e : Env) (sessionIds : list string) : M Database nat :=
  match sessionIds with
  | [] => mret 0
  | _ => withLockContentionRetry (λ i, drop_chunks e i 0 0 (chunks 200 sessionIds))
  end.

Definition superseded_message : string :=
  "Superseded by a newer job of the same kind for this session; the successor job carries the live status.".

(** [in_request]: whether [cds.context] is set. Inside a request the sweep runs
    under a savepoint of the request's transaction; outside it retries. *)
Definition supersedeQueuedJobs (e : Env) (in_request : bool) (k sid : string)
    (excludeJobId : option string) : M Database nat :=
  let w id r := bool_decide (kind (j_spec r) = k) && bool_decide (sessionId (j_spec r) = sid) &&
                status_in [Pending; Running] r &&
                match excludeJobId with Some x => negb (bool_decide (id = x)) | None => true end in
  let buildUpdate i :=
    stmt e "supersedeQueuedJobs" i 0
      (update_jobs w ([SetStatus Failed; SetErrorCode (Some "SUPERSEDED");
                       SetErrorMessage (Some superseded_message);
                       SetFinishedAt (Some (clock e i))] ++ release_lease)) in
  if in_request then tx (buildUpdate 0) else withLockContentionRetry buildUpdate.

Definition IDEMPOTENCY_KEY_MAX_LENGTH : nat := 128.

(** The SET clauses of the status changes. *)
Definition claim_patch (e : Env) (i : nat) : list job_set :=
  [SetStatus Running; SetStartedAt (Some (clock e i)); SetLeaseOwner (Some (getRuntimeWorkerId e));
   SetHeartbeatAt (Some (clock e i)); SetLeaseExpiresAt (Some (leaseExpiry e i))].

Definition succeed_patch (e : Env) (result : json) (i : nat) : list job_set :=
  [SetStatus Succeeded; SetResult (Some result); SetFinishedAt (Some (clock e i))] ++ release_lease.

Record Classification := MkClassification { cl_code : string; cl_message : string }.

Definition fail_patch (e : Env) (c : Classification) (i : nat) : list job_set :=
  [SetStatus Failed; SetErrorCode (Some (slice0 64 (cl_code c)));
   SetErrorMessage (Some (slice0 4000 (cl_message c))); SetFinishedAt (Some (clock e i))] ++
  release_lease.

Definition park_patch (c : Classification) : list job_set :=
  [SetStatus ReconciliationRequired; SetErrorCode (Some (slice0 64 (cl_code c)));
   SetErrorMessage (Some (slice0 4000 (cl_message c)))] ++ release_lease.

(** [ExternalSubmissionHandle] *)
Record Handle := MkHandle {
  h_submissionId : option string; h_txHash : option string; h_firstBoundary : option bool }.

Definition cross_patch (e : Env) (h : Handle) (i : nat) : list job_set :=
  [SetStatus ExternalExecution; SetSubmissionId (h_submissionId h);
   SetExternalExecutionAt (Some (clock e i))] ++ renew_lease e i.

Definition broadcast_patch (e : Env) (first : bool) (h : Handle) : list job_set :=
  [SetStatus Submitted; SetSubmissionId (h_submissionId h); SetTxHash (h_txHash h);
   SetChainStatus (Some ChainPending)] ++
  (if first then [SetExternalExecutionAt (Some (clock e 0))] else []) ++
  [SetSubmittedAt (Some (clock e 0)); SetHeartbeatAt (Some (clock e 0));
   SetLeaseExpiresAt (Some (leaseExpiry e 0))].

Definition reject_patch (e : Env) (h : Handle) : list job_set :=
  [SetStatus ExternalExecution; SetTxHash None; SetChainStatus None;
   SetSubmissionId (h_submissionId h)] ++ renew_lease e 0.

Definition submit_patch (e : Env) (h : Handle) (i : nat) : list job_set :=
  [SetStatus Submitted; SetSubmissionId (h_submissionId h); SetTxHash (h_txHash h);
   SetChainStatus (Some ChainPending); SetSubmittedAt (Some (clock e i))] ++ renew_lease e i.

(** Their WHERE clauses, besides the ID. *)
Definition running_mine (e : Env) (r : Job) : bool :=
  status_in [Running] r && owned_by (getRuntimeWorkerId e) r.
Definition crossed_mine (e : Env) (r : Job) : bool :=
  status_in [ExternalExecution; Submitted] r && owned_by (getRuntimeWorkerId e) r.
(** [...(submission.txHash ? { txHash } : {})] *)
Definition hash_unchanged (h : Handle) (r : Job) : bool :=
  match h_txHash h with
  | Some x => bool_decide (x = EmptyString) || bool_decide (j_txHash r = Some x)
  | None => true
  end.

(** [pending -> running], answering whether this call claimed the job. *)
Definition markRunning (e : Env) (jobId : string) : M Database bool :=
  n ← withLockContentionRetry (λ i, tx (stmt e "markRunning" i 0
        (update_job jobId (status_in [Pending]) (claim_patch e i))));
  mret (bool_decide (n = 1)).

Definition markSucceeded (e : Env) (jobId : string) (result : json) : M Database unit :=
  withLockContentionRetry (λ i, tx (must_change_one (lease_lost "markSucceeded" jobId)
    (stmt e "markSucceeded" i 0 (update_job jobId (held e) (succeed_patch e result i))))).

(** A failure to persist is logged and swallowed. *)
Definition markFailed (e : Env) (jobId : string) (c : Classification) : M Database unit :=
  try_catch
    (withLockContentionRetry (λ i, tx (must_change_one (lease_lost "markFailed" jobId)
      (stmt e "markFailed" i 0 (update_job jobId (held e) (fail_patch e c i))))))
    (λ _, mret ()).

Definition markReconciliationRequired (e : Env) (jobId : string) (c : Classification) :
    M Database unit :=
  try_catch
    (withLockContentionRetry (λ i, tx (must_change_one (lease_lost "parent reconciliation update " jobId)
      (stmt e "markReconciliationRequired" i 0 (update_job jobId (held e) (park_patch c))))))
    (λ _, mret ()).

(** One tick of the timer [startLeaseHeartbeat] installs; errors are logged. *)
Definition leaseHeartbeatTick (e : Env) (jobId : string) : M Database unit :=
  try_catch
    (_ ← stmt e "heartbeat" 0 0 (update_job jobId (held e) (renew_lease e 0)); mret ())
    (λ _, mret ()).

Definition markJobExternalExecution (e : Env) (jobId : string) (h : Handle) : M Database unit :=
  n ← withLockContentionRetry (λ i, stmt e "markJobExternalExecution" i 0
        (update_job jobId (running_mine e) (cross_patch e h i)));
  if bool_decide (n = 1) then mret () else
  current ← getJobById e jobId;
  match current with
  | Some r =>
      if owned_by (getRuntimeWorkerId e) r && status_in [ExternalExecution; Submitted] r
      then throw (js_error ("markJobExternalExecution(" ++ jobId ++ "): job already crossed the external-effect boundary; a background job may perform at most one external submission."))
      else throw (lease_lost "markJobExternalExecution" jobId)
  | None => throw (lease_lost "markJobExternalExecution" jobId)
  end.

(** Runs inside the caller's transaction. *)
Definition markJobBroadcastOn (e : Env) (jobId : string) (h : Handle) : M Database unit :=
  let first := negb (bool_decide (h_firstBoundary h = Some false)) in
  n ← stmt e "markJobBroadcastOn" 0 0
        (update_job jobId (if first then running_mine e else crossed_mine e)
           (broadcast_patch e first h));
  if bool_decide (n = 1) then mret () else
  throw (js_error ("Lease lost before markJobBroadcastOn(" ++ jobId ++ ")" ++
                   (if first then EmptyString else " (rebuild attempt)"))).

(** Runs inside the caller's transaction. *)
Definition markJobSubmissionRejectedOn (e : Env) (jobId : string) (h : Handle) : M Database unit :=
  n ← stmt e "markJobSubmissionRejectedOn" 0 0
        (update_job jobId (λ r, crossed_mine e r && hash_unchanged h r) (reject_patch e h));
  if bool_decide (n = 1) then mret () else
  throw (js_error ("Lease lost (or hash already moved) before markJobSubmissionRejectedOn(" ++ jobId ++ ")")).

Definition markJobSubmitted (e : Env) (jobId : string) (h : Handle) : M Database unit :=
  n ← withLockContentionRetry (λ i, stmt e "markJobSubmitted" i 0
        (update_job jobId (crossed_mine e) (submit_patch e h i)));
  if bool_decide (n = 1) then mret () else throw (lease_lost "markJobSubmitted" jobId).

(** ** Compare-and-swap reasoning

    [cas k c p m]: [m] either changes the row of job [k] by a patch [p i], found
    to satisfy [c], and answers one row, or leaves the database as it was; it
    answers zero rows only when the row does not satisfy [c]. *)
Definition cas (k : string) (c : Job → bool) (p : nat → list job_set) (m : M Database nat) : Prop :=
  ∀ d o d', m d = (o, d') →
    (∃ i r, jobs d !! k = Some r ∧ c r = true ∧ o = Ret 1 ∧
            d' = with_jobs (<[k := patch_job (p i) r]> (jobs d)) d) ∨
    (d' = d ∧ o ≠ Ret 1 ∧ (o = Ret 0 → ∀ r, jobs d !! k = Some r → c r = false)).

Lemma cas_stmt e o i n k c p :
  cas k c p (stmt e o i n (update_job k c (p i))).
Proof.
  intros d out d' H. unfold stmt, throw in H.
  case_match; [injection H as <- <-; by right; split_and!|].
  apply update_job_cases in H as [(r & Hr & Hc & -> & ->)|(-> & -> & Hc)].
  - left. eauto 6.
  - right. split_and!; [done|congruence|auto].
Qed.

Lemma cas_throw k c p m d x d' : cas k c p m → m d = (Throw x, d') → d' = d.
Proof. intros Hm H. by destruct (Hm _ _ _ H) as [(i & r & _ & _ & ? & _)|(? & _)]. Qed.

Lemma cas_tx k c p m : cas k c p m → cas k c p (tx m).
Proof.
  intros Hm d o d' H. unfold tx in H. destruct (m d) as [[a|x] s] eqn:E; simplify_eq.
  - by apply Hm.
  - right. by split_and!.
Qed.

Lemma cas_retry k c p (w : nat → M Database nat) :
  (∀ i, cas k c p (w i)) → cas k c p (withLockContentionRetry w).
Proof.
  intros Hw d o d' H. apply withLockContentionRetry_atomic in H.
  - destruct H as [(i & a & -> & _ & Hi)|(x & -> & ->)]; [by apply (Hw i)|right; by split_and!].
  - intros i s x s' Hx. by eapply cas_throw.
Qed.

#[export] Hint Resolve cas_stmt cas_tx cas_retry : ng.

(** [cas1]: the same for an operation that must change one row. *)
Definition cas1 {A} (k : string) (c : Job → bool) (p : nat → list job_set) (m : M Database A) : Prop :=
  ∀ d o d', m d = (o, d') →
    (∃ i r, jobs d !! k = Some r ∧ c r = true ∧
            d' = with_jobs (<[k := patch_job (p i) r]> (jobs d)) d) ∨ d' = d.

(** [cas1_ret]: it returns normally only after changing the row. *)
Definition cas1_ret {A} (k : string) (c : Job → bool) (p : nat → list job_set) (m : M Database A) : Prop :=
  ∀ d a d', m d = (Ret a, d') →
    ∃ i r, jobs d !! k = Some r ∧ c r = true ∧
           d' = with_jobs (<[k := patch_job (p i) r]> (jobs d)) d.

Lemma must_change_one_cas err k c p m :
  cas k c p m → cas1 k c p (must_change_one err m) ∧ cas1_ret k c p (must_change_one err m).
Proof.
  intros Hm. unfold must_change_one, mbind, M_bind, mret, M_ret, throw. split.
  - intros d o d' H. destruct (m d) as [[a|x] s] eqn:E; [|right; simplify_eq; by eapply cas_throw].
    apply Hm in E as [(i & r & Hr & Hc & ? & ->)|(-> & _)]; simplify_eq/=.
    + left. exists i, r. by repeat case_bool_decide; simplify_eq/=.
    + right. by repeat case_bool_decide; simplify_eq/=.
  - intros d o d' H. destruct (m d) as [[a|x] s] eqn:E; [|done].
    apply Hm in E as [(i & r & Hr & Hc & ? & ->)|(-> & Hne & _)]; simplify_eq/=.
    + exists i, r. by repeat case_bool_decide; simplify_eq/=.
    + repeat case_bool_decide; simplify_eq/=; done.
Qed.

Lemma cas1_tx {A} k c p (m : M Database A) :
  cas1 k c p m ∧ cas1_ret k c p m → cas1 k c p (tx m) ∧ cas1_ret k c p (tx m).
Proof.
  intros [H1 H2]. unfold tx. split; intros d o d' H; destruct (m d) as [[a|x] s] eqn:E; simplify_eq; eauto.
Qed.

Lemma cas1_retry {A} k c p (w : nat → M Database A) :
  (∀ i s x s', w i s = (Throw x, s') → s' = s) →
  (∀ i, cas1 k c p (w i) ∧ cas1_ret k c p (w i)) →
  cas1 k c p (withLockContentionRetry w) ∧ cas1_ret k c p (withLockContentionRetry w).
Proof.
  intros Ht Hw. split; intros d o d' H; apply withLockContentionRetry_atomic in H; try done.
  - destruct H as [(i & a & -> & _ & Hi)|(x & -> & ->)]; [by eapply Hw|by right].
  - destruct H as [(i & a & ? & _ & Hi)|(x & ? & ->)]; simplify_eq. by eapply Hw.
Qed.

Lemma try_swallow_cas {A} k c p (m : M Database A) (a : A) :
  cas1 k c p m → cas1 k c p (try_catch m (λ _, mret a)).
Proof.
  intros Hm d o d' H. unfold try_catch, mret, M_ret in H. destruct (m d) as [[b|x] s] eqn:E; simplify_eq/=; by eapply Hm.
Qed.

(** A [cas] followed by code that writes nothing. *)
Lemma cas_then {A} k c p (m : M Database nat) (f : nat → M Database A) :
  cas k c p m → (∀ n d o d', f n d = (o, d') → d' = d) → cas1 k c p (n ← m; f n).
Proof.
  intros Hm Hf d o d' H. unfold mbind, M_bind in H. destruct (m d) as [[a|x] s] eqn:E.
  - apply Hf in H as ->. apply Hm in E as [(i & r & Hr & Hc & _ & ->)|(-> & _)]; [left; eauto 6|by right].
  - simplify_eq. right. by eapply cas_throw.
Qed.

Lemma cas_then_ret {A} k c p (m : M Database nat) (f : nat → M Database A) :
  cas k c p m → (∀ n d a d', f n d = (Ret a, d') → n = 1 ∧ d' = d) → cas1_ret k c p (n ← m; f n).
Proof.
  intros Hm Hf d o d' H. unfold mbind, M_bind in H. destruct (m d) as [[a|x] s] eqn:E; [|done].
  apply Hf in H as [-> ->]. apply Hm in E as [(i & r & Hr & Hc & _ & ->)|(-> & ? & _)]; [eauto 6|done].
Qed.


Lemma or_throw_ret (n : nat) (x : exn) d a d' :
  (if bool_decide (n = 1) then mret () else throw x : M Database unit) d = (Ret a, d') → n = 1 ∧ d' = d.
Proof. m_unfold. case_bool_decide; by intros; simplify_eq. Qed.

Lemma or_throw_same (n : nat) (x : exn) d o d' :
  (if bool_decide (n = 1) then mret () else throw x : M Database unit) d = (o, d') → d' = d.
Proof. m_unfold. case_bool_decide; by intros; simplify_eq. Qed.

(** ** The operations as compare-and-swaps *)

Lemma markRunning_cas e k d o d' :
  markRunning e k d = (o, d') →
  (∃ i r, jobs d !! k = Some r ∧ j_status r = Pending ∧ o = Ret true ∧
          d' = with_jobs (<[k := patch_job (claim_patch e i) r]> (jobs d)) d) ∨
  (d' = d ∧ o ≠ Ret true).
Proof.
  unfold markRunning. intros H. m_unfold.
  destruct (withLockContentionRetry _ d) as [o1 d1] eqn:E.
  eapply (cas_retry k (status_in [Pending]) (claim_patch e)) in E;
    [|intros i; apply cas_tx, cas_stmt].
  destruct E as [(i & r & Hr & Hc & -> & ->)|(-> & Hne & _)].
  - left. exists i, r. unfold status_in in Hc. apply bool_decide_eq_true_1 in Hc.
    rewrite list_elem_of_singleton in Hc. case_bool_decide; by simplify_eq.
  - right. destruct o1; [|by simplify_eq]. case_bool_decide; by simplify_eq.
Qed.

Lemma markSucceeded_cas e k v :
  cas1 k (held e) (succeed_patch e v) (markSucceeded e k v) ∧
  cas1_ret k (held e) (succeed_patch e v) (markSucceeded e k v).
Proof.
  unfold markSucceeded. apply cas1_retry; [intros i s x s'; apply tx_throw|].
  intros i. apply cas1_tx, must_change_one_cas, cas_stmt.
Qed.

Lemma markFailed_cas e k c : cas1 k (held e) (fail_patch e c) (markFailed e k c).
Proof.
  unfold markFailed. apply try_swallow_cas.
  apply (cas1_retry k (held e) (fail_patch e c)); [intros i s x s'; apply tx_throw|].
  intros i. apply cas1_tx, must_change_one_cas, cas_stmt.
Qed.

Lemma markReconciliationRequired_cas e k c :
  cas1 k (held e) (λ _, park_patch c) (markReconciliationRequired e k c).
Proof.
  unfold markReconciliationRequired. apply try_swallow_cas.
  apply (cas1_retry k (held e) (λ _, park_patch c)); [intros i s x s'; apply tx_throw|].
  intros i. apply cas1_tx, must_change_one_cas, (cas_stmt e _ i 0 k _ (λ _, park_patch c)).
Qed.

Lemma leaseHeartbeatTick_cas e k : cas1 k (held e) (renew_lease e) (leaseHeartbeatTick e k).
Proof.
  unfold leaseHeartbeatTick. apply try_swallow_cas, cas_then; [apply cas_stmt|].
  intros n d o d' H. m_unfold. by simplify_eq.
Qed.

Lemma getJobById_same e k d o d' : getJobById e k d = (o, d') → d' = d.
Proof.
  unfold getJobById, stmt, select_job. m_unfold. case_bool_decide; [by intros; simplify_eq|].
  case_match; by intros; simplify_eq.
Qed.

Lemma markJobExternalExecution_cas e k h :
  cas1 k (running_mine e) (cross_patch e h) (markJobExternalExecution e k h) ∧
  cas1_ret k (running_mine e) (cross_patch e h) (markJobExternalExecution e k h).
Proof.
  unfold markJobExternalExecution. split.
  - apply cas_then; [apply cas_retry; intros i; apply cas_stmt|].
    intros n d o d' H. case_bool_decide; [m_unfold; by simplify_eq|].
    unfold mbind, M_bind in H. destruct (getJobById e k d) as [[c|x] s] eqn:E; [|by simplify_eq; eapply getJobById_same].
    apply getJobById_same in E as ->. m_unfold. repeat case_match; by simplify_eq.
  - apply cas_then_ret; [apply cas_retry; intros i; apply cas_stmt|].
    intros n d o d' H. case_bool_decide; [m_unfold; by simplify_eq|].
    unfold mbind, M_bind in H. destruct (getJobById e k d) as [[c|x] s] eqn:E; [|done].
    m_unfold. repeat case_match; by simplify_eq.
Qed.

Lemma markJobBroadcastOn_cas e k h :
  let first := negb (bool_decide (h_firstBoundary h = Some false)) in
  let c := if first then running_mine e else crossed_mine e in
  cas1 k c (λ _, broadcast_patch e first h) (markJobBroadcastOn e k h) ∧
  cas1_ret k c (λ _, broadcast_patch e first h) (markJobBroadcastOn e k h).
Proof.
  intros first c. unfold markJobBroadcastOn. fold first. fold c. split.
  - apply cas_then; [apply (cas_stmt e _ 0 0 k c (λ _, broadcast_patch e first h))|].
    intros n d o d'. apply or_throw_same.
  - apply cas_then_ret; [apply (cas_stmt e _ 0 0 k c (λ _, broadcast_patch e first h))|].
    intros n d o d'. apply or_throw_ret.
Qed.

Lemma markJobSubmissionRejectedOn_cas e k h :
  cas1 k (λ r, crossed_mine e r && hash_unchanged h r) (λ _, reject_patch e h)
    (markJobSubmissionRejectedOn e k h).
Proof.
  unfold markJobSubmissionRejectedOn. apply cas_then;
    [apply (cas_stmt e _ 0 0 k _ (λ _, reject_patch e h))|].
  intros n d o d'. apply or_throw_same.
Qed.

Lemma markJobSubmitted_cas e k h :
  cas1 k (crossed_mine e) (submit_patch e h) (markJobSubmitted e k h).
Proof.
  unfold markJobSubmitted. apply cas_then; [apply cas_retry; intros i; apply cas_stmt|].
  intros n d o d'. apply or_throw_same.
Qed.

(** ** What the leases guarantee *)

(** The row is not held by the worker of [e]. *)
Definition not_mine (e : Env) (k : string) (d : Database) : Prop :=
  ∀ r, jobs d !! k = Some r → owned_by (getRuntimeWorkerId e) r = false.

Lemma cas1_not_mine {A} e k c p (m : M Database A) d o d' :
  cas1 k c p m → (∀ r, c r = true → owned_by (getRuntimeWorkerId e) r = true) → not_mine e k d →
  m d = (o, d') → d' = d.
Proof.
  intros Hm Hc Hn H. apply Hm in H as [(i & r & Hr & Hcr & _)|]; [|done].
  apply Hc in Hcr. by rewrite (Hn r Hr) in Hcr.
Qed.

(** The operations a worker runs on a job after its claim. *)
Definition leased_ops (e : Env) (k : string) (v : json) (c : Classification) (h : Handle) : list (M Database unit) :=
  [markSucceeded e k v; markFailed e k c; markReconciliationRequired e k c; leaseHeartbeatTick e k;
   markJobExternalExecution e k h; tx (markJobBroadcastOn e k h); tx (markJobSubmissionRejectedOn e k h);
   markJobSubmitted e k h].

(** C3. Fencing: a worker that lost its lease, because the job was reclaimed,
    requeued or taken by another worker, writes nothing more: no status change,
    no heartbeat, no broadcast by it touches the row or anything else. *)
Theorem lost_lease_writes_nothing e k v c h d :
  not_mine e k d → Forall (λ m, (m d).2 = d) (leased_ops e k v c h).
Proof.
  intros Hn.
  assert (∀ cc p (m : M Database unit), cas1 k cc p m → (∀ r, cc r = true → owned_by (getRuntimeWorkerId e) r = true) → (m d).2 = d) as Hm.
  { intros cc p m H1 H2. destruct (m d) as [o d'] eqn:E. by eapply cas1_not_mine. }
  assert (∀ r, held e r = true → owned_by (getRuntimeWorkerId e) r = true) as Hh by (intros r [? ?]%andb_prop; done).
  assert (∀ r, crossed_mine e r = true → owned_by (getRuntimeWorkerId e) r = true) as Hcr by (intros r [? ?]%andb_prop; done).
  assert (∀ r, running_mine e r = true → owned_by (getRuntimeWorkerId e) r = true) as Hru by (intros r [? ?]%andb_prop; done).
  repeat apply Forall_cons_2; [| | | | | | | |apply Forall_nil_2].
  - by eapply Hm; [apply markSucceeded_cas|].
  - by eapply Hm; [apply markFailed_cas|].
  - by eapply Hm; [apply markReconciliationRequired_cas|].
  - by eapply Hm; [apply leaseHeartbeatTick_cas|].
  - by eapply Hm; [apply markJobExternalExecution_cas|].
  - eapply Hm; [apply cas1_tx, markJobBroadcastOn_cas|]. intros r. destruct (negb _); auto.
  - eapply Hm.
    + intros d0 o d1 Ht. unfold tx in Ht. destruct (markJobSubmissionRejectedOn e k h d0) as [[a|x] d2] eqn:E; simplify_eq.
      * by eapply markJobSubmissionRejectedOn_cas.
      * by right.
    + intros r [? ?]%andb_prop. auto.
  - by eapply Hm; [apply markJobSubmitted_cas|].
Qed.

(** The claim: it answers true exactly when it moved the row from pending to
    running under the caller's own lease; from then on no other claim succeeds
    or writes anything, so a pending job is run by one worker. *)
Theorem claim_is_exclusive e k d d' :
  markRunning e k d = (Ret true, d') →
  ∃ i r, jobs d !! k = Some r ∧ j_status r = Pending ∧
    d' = with_jobs (<[k := patch_job (claim_patch e i) r]> (jobs d)) d ∧
    (∀ r', jobs d' !! k = Some r' → j_status r' = Running ∧ owned_by (workerId e) r' = true ∧
       j_leaseExpiresAt r' = Some (clock e i + jobLeaseTtlMs e)%Z) ∧
    ∀ e2, (markRunning e2 k d').1 ≠ Ret true ∧ (markRunning e2 k d').2 = d'.
Proof.
  intros H. apply markRunning_cas in H as [(i & r & Hr & Hp & _ & ->)|[_ ?]]; [|done].
  exists i, r. split_and!; [done|done|done| |].
  - simpl. rewrite lookup_insert_eq. intros r' [= <-]. simpl. split_and!; [done|by apply bool_decide_eq_true_2|done].
  - intros e2. destruct (markRunning e2 k _) as [o2 d2] eqn:E.
    apply markRunning_cas in E as [(i2 & r2 & Hr2 & Hp2 & _)|[-> ?]]; [|done].
    simpl in Hr2. rewrite lookup_insert_eq in Hr2. by simplify_eq.
Qed.

(** ** Examples *)

Definition sample_env (w : string) : Env := MkEnv (λ i, 5000 + Z.of_nat i)%Z w 60000 600000 (λ _ _ _, None).

(** Worker b holds the job; worker a, which held it before, changes nothing. *)
Lemma lost_lease_writes_nothing_witness :
  Forall (λ m, (m (one_job_db (sample_job "sendNight" Submitted (Some "b") None))).2 =
               one_job_db (sample_job "sendNight" Submitted (Some "b") None))
    (leased_ops (sample_env "a") "job-1" JNull (MkClassification "E" "m")
       (MkHandle (Some "sub-1") (Some "0xaa") None)).
Proof.
  apply (lost_lease_writes_nothing (sample_env "a") "job-1" JNull (MkClassification "E" "m")
           (MkHandle (Some "sub-1") (Some "0xaa") None) (one_job_db (sample_job "sendNight" Submitted (Some "b") None))).
  intros r Hr. vm_compute in Hr. injection Hr as <-. vm_compute. reflexivity.
Defined.

Lemma claim_is_exclusive_witness :
  let d := one_job_db (sample_job "sendNight" Pending None None) in
  let d' := (markRunning (sample_env "a") "job-1" d).2 in
  (markRunning (sample_env "b") "job-1" d').2 = d'.
Proof.
  intros d d'. assert (markRunning (sample_env "a") "job-1" d = (Ret true, d')) as H by (vm_compute; reflexivity).
  destruct (claim_is_exclusive _ _ _ _ H) as (i & r & _ & _ & _ & _ & Hx). exact (proj2 (Hx (sample_env "b"))).
Defined.
