(* ===== verification/SubmitFailure.v ===== *)
(** How a failed submission is sorted into a code
    (srv/midnight/submit-error-classification.ts, srv/submission/dust-race.ts,
    srv/midnight/wallet-worker-protocol.ts and the parts of srv/utils/errors.ts
    and srv/utils/format-error.ts they use).

    Errors are objects that may name one another as cause, in a loop even, so
    they live in a store and are passed by their place in it. *)
From Stdlib Require Import Ascii.
From S2P Require Import Prelude Json Numbers.

Set Warnings "-register-all".

Local Open Scope string_scope.

(** ** Text patterns *)

Definition word_char (a : ascii) : bool :=
  is_digit a || char_in "a" "z" a || char_in "A" "Z" a || Ascii.eqb a "_".

Definition is_line_end (a : ascii) : bool := Ascii.eqb a "010" || Ascii.eqb a "013".

(** [\b] between two neighbours. *)
Definition word_edge (before after : option ascii) : bool :=
  xorb (match before with Some a => word_char a | None => false end)
       (match after with Some a => word_char a | None => false end).

Definition first_char (s : string) : option ascii := match s with String a _ => Some a | EmptyString => None end.

(** The first place of [s] where [p] finds a match, with the character before it. *)
Fixpoint scan_match {A} (p : option ascii → string → option A) (before : option ascii) (s : string) : option A :=
  match p before s with
  | Some x => Some x
  | None => match s with EmptyString => None | String a s' => scan_match p (Some a) s' end
  end.

Definition drop_chars (n : nat) (s : string) : string := String.substring n (String.length s - n) s.

(** [s] after the prefix [p], without regard to case. *)
Definition after_ci (p s : string) : option string :=
  if starts_with (lower p) (lower s) then Some (drop_chars (String.length p) s) else None.

(** [\d*] off the front. *)
Fixpoint span_digits (s : string) : string * string :=
  match s with
  | String a s' => if is_digit a then let '(d, r) := span_digits s' in (String a d, r) else (EmptyString, s)
  | EmptyString => (EmptyString, EmptyString)
  end.

(** [/\bN\s*:/i.test(s)] for a word [N]. *)
Definition coded (n s : string) : bool :=
  bool_decide (is_Some (scan_match (λ before t,
    r ← after_ci n t;
    if word_edge before (first_char t) && starts_with ":" (trim_start r) then Some tt else None) None s)).

(** What is left of the line. *)
Fixpoint rest_of_line (s : string) : string :=
  match s with
  | String a s' => if is_line_end a then EmptyString else String a (rest_of_line s')
  | EmptyString => EmptyString
  end.

(** [/head.*(alt|alt)/i.test(s)] *)
Definition on_line_after (head : string) (alts : list string) (s : string) : bool :=
  bool_decide (is_Some (scan_match (λ _ t,
    r ← after_ci head t;
    if existsb (λ x, includes_ci x (rest_of_line r)) alts then Some tt else None) None s)).

Definition any_ci (ps : list string) (s : string) : bool := existsb (λ p, includes_ci p s) ps.

(** [ledgerErrorCode]: [/custom error:?\s*(\d+)/i.exec(haystack)?.[1]]. *)
Definition ledgerErrorCode (haystack : string) : option string :=
  scan_match (λ _ t,
    r ← after_ci "custom error" t;
    let r := match r with String ":" r' => r' | _ => r end in
    let d := (span_digits (trim_start r)).1 in
    if is_empty d then None else Some d) None haystack.

(** [classificationHaystack] on the rendered error: stack frames and
    [:line:col] are removed. [at_start]: the place is the start of a line. *)
Fixpoint drop_frames (fuel : nat) (at_start : bool) (s : string) : string :=
  match fuel, s with
  | O, _ | _, EmptyString => s
  | S fuel', String a s' =>
      let r := trim_start s in
      if at_start && starts_with "at " r
      then let line := rest_of_line r in drop_frames fuel' false (drop_chars (String.length line) r)
      else String a (drop_frames fuel' (is_line_end a) s')
  end.

Fixpoint mask_positions (fuel : nat) (s : string) : string :=
  match fuel, s with
  | O, _ | _, EmptyString => s
  | S fuel', String a s' =>
      let '(d1, r1) := span_digits s' in
      match r1 with
      | String ":" r1' =>
          let '(d2, r2) := span_digits r1' in
          if Ascii.eqb a ":" && negb (is_empty d1) && negb (is_empty d2) && word_edge (Some "0"%char) (first_char r2)
          then ":L:C" ++ mask_positions fuel' r2
          else String a (mask_positions fuel' s')
      | _ => String a (mask_positions fuel' s')
      end
  end.

Definition classification_text (rendered : string) : string :=
  let s := drop_frames (S (String.length rendered)) true rendered in mask_positions (String.length s) s.

(** ** Errors *)

Inductive SubmitFailureCode :=
| PreMempoolReject | DustRace | Transport | Ambiguous | LandedNotApplied | Policy | Causality | GasBudget | Internal.

#[export] Instance SubmitFailureCode_eq_dec : EqDecision SubmitFailureCode.
Proof. solve_decision. Defined.

Definition SUBMIT_FAILURE_CODES : list (string * SubmitFailureCode) :=
  [("pre-mempool-reject", PreMempoolReject); ("dust-race", DustRace); ("transport", Transport);
   ("ambiguous", Ambiguous); ("landed-not-applied", LandedNotApplied); ("policy", Policy);
   ("causality", Causality); ("gas-budget", GasBudget); ("internal", Internal)].

Definition submit_code_of (s : string) : option SubmitFailureCode := map_get s SUBMIT_FAILURE_CODES.
Definition submit_code_text (c : SubmitFailureCode) : string :=
  match c with
  | PreMempoolReject => "pre-mempool-reject" | DustRace => "dust-race" | Transport => "transport"
  | Ambiguous => "ambiguous" | LandedNotApplied => "landed-not-applied" | Policy => "policy"
  | Causality => "causality" | GasBudget => "gas-budget" | Internal => "internal"
  end.

Record BatchCallStageInfo := MkStage { cs_name : string; cs_segId : Z; cs_stages : string }.

Record SubmitFailureInfo := MkFailure {
  fi_code : SubmitFailureCode; fi_ledgerCode : option string; fi_retryable : bool;
  fi_calls : option (list BatchCallStageInfo); fi_blockHeight : option Z }.

(** What the code looks at of a thrown value: whether it is an object and an
    [Error], its string fields, its integer block height, its text as JSON and
    as [String(err)], and its cause. *)
Record ErrObj := MkErr {
  eo_object : bool; eo_error : bool; eo_nightgate : bool;
  eo_name : option string; eo_code : option string; eo_message : option string;
  eo_json : string; eo_string : string;
  eo_phase : option string; eo_ledgerCode : option string; eo_retryable : bool;
  eo_calls : option (list BatchCallStageInfo); eo_blockHeight : option Z; eo_cause : option nat }.

Definition cause_of (o : ErrObj) : option nat := if eo_object o then eo_cause o else None.
Definition nameOf (o : ErrObj) : string := nullish (eo_name o) EmptyString.

Definition errorMessage (o : ErrObj) : string :=
  if eo_error o then nullish (eo_message o) EmptyString
  else if eo_object o then nullish (eo_message o) (eo_json o) else eo_string o.

Section Classify.
(** The error objects, and what node's [inspect] renders of each. *)
Context (errs : nat → ErrObj) (inspect : nat → string).

Definition MAX_CHAIN : nat := 8.

Fixpoint chain_from (left : nat) (seen : list nat) (cur : option nat) : list nat :=
  match left, cur with
  | O, _ | _, None => []
  | S left', Some a => if bool_decide (a ∈ seen) then [] else a :: chain_from left' (a :: seen) (cause_of (errs a))
  end.
Definition errorChain (err : nat) : list nat := chain_from MAX_CHAIN [] (Some err).

(** [e.code === code] for some error of the chain; [nameOf(e) === name]. *)
Definition chain_code (code : string) (err : nat) : bool :=
  existsb (λ a, bool_decide (eo_code (errs a) = Some code)) (errorChain err).
Definition chain_name (name : string) (err : nat) : bool :=
  existsb (λ a, bool_decide (nameOf (errs a) = name)) (errorChain err).

Definition isNightgateError (o : ErrObj) : bool :=
  eo_object o && eo_nightgate o && bool_decide (is_Some (eo_code o)).

Fixpoint nightgate_from (left : nat) (seen : list nat) (cur : option nat) : option nat :=
  match left, cur with
  | O, _ | _, None => None
  | S left', Some a =>
      if bool_decide (a ∈ seen) then None
      else if isNightgateError (errs a) then Some a
      else nightgate_from left' (a :: seen) (cause_of (errs a))
  end.

(** [findNightgateError(err)], with [i <= depth] for depth 8. *)
Definition findNightgateError (err : nat) : option nat := nightgate_from 9 [] (Some err).
Definition nightgate_code (err : nat) : option string := a ← findNightgateError err; eo_code (errs a).

Definition classificationHaystack (err : nat) : string := classification_text (inspect err).

(** [parseBatchCallStages] *)
Fixpoint split_spaces (word : string) (s : string) : list string :=
  match s with
  | EmptyString => [word]
  | String a s' =>
      if is_space a then word :: split_spaces EmptyString s'
      else split_spaces (word ++ String a EmptyString) s'
  end.

(** A word [name=number[stages]]: the name ends at the first [=] that a number
    and one bracket follow. *)
Definition stage_tail (s : string) : option (Z * string) :=
  let '(d, r) := span_digits s in
  n ← parse_digits d;
  match r with
  | String "[" r' =>
      let stages := String.substring 0 (String.length r' - 1) r' in
      if bool_decide (r' = stages ++ "]") && all_chars (λ a, negb (Ascii.eqb a "]")) stages then Some (n, stages) else None
  | _ => None
  end.

Fixpoint stage_of (name : string) (s : string) : option BatchCallStageInfo :=
  match s with
  | EmptyString => None
  | String a s' =>
      let next := stage_of (name ++ String a EmptyString) s' in
      if Ascii.eqb a "=" && negb (is_empty name)
      then match stage_tail s' with Some (n, st) => Some (MkStage name n st) | None => next end
      else next
  end.

Fixpoint stages_of (words : list string) : list BatchCallStageInfo :=
  match words with
  | [] => []
  | w :: ws => match stage_of EmptyString w with Some c => c :: stages_of ws | None => [] end
  end.

(** Runs of spaces make no words. *)
Definition dedup_spaces (words : list string) : list string := filter (λ w, w ≠ EmptyString) words.

Definition parseBatchCallStages (text : string) : list BatchCallStageInfo :=
  let marker := "Stages in apply order:" in
  match scan_match (λ _ t, if starts_with marker t then Some (drop_chars (String.length marker) t) else None) None text with
  | Some r => stages_of (dedup_spaces (split_spaces EmptyString (trim r)))
  | None => []
  end.

(** ** Classification *)

Definition failure (c : SubmitFailureCode) (ledgerCode : option string) (retryable : bool) : SubmitFailureInfo :=
  MkFailure c ledgerCode retryable None None.

(** [carriedSubmitFailure] *)
Definition carriedSubmitFailure (err : nat) : option SubmitFailureInfo :=
  let o := errs err in
  c ← (if eo_object o then eo_code o ≫= submit_code_of else None);
  Some (MkFailure c (eo_ledgerCode o) (eo_retryable o) (eo_calls o) (eo_blockHeight o)).

Definition codedSubmitFailure (code : option string) : option SubmitFailureInfo :=
  match code with
  | Some "WALLET_NOT_SYNCED" => Some (failure Transport (Some "wallet-not-synced") true)
  | Some "SUBMIT_INTENT_TIMEOUT" => Some (failure PreMempoolReject (Some "intent-timeout") false)
  | Some "SUBMIT_INTENT_REJECTED" => Some (failure PreMempoolReject (Some "intent-rejected") false)
  | Some "SPONSOR_REFUSED" => Some (failure Policy None false)
  | _ => None
  end.

Definition DUST_RACE_LEDGER_CODES : list string := ["170"; "171"; "196"].

Definition dustRaceLedgerCode (err : nat) : option string :=
  let o := errs err in
  let message := if eo_error o then nullish (eo_message o) EmptyString else eo_string o in
  let haystack := message ++ " " ++ classificationHaystack err in
  let own := scan_match (λ before t,
    r ← after_ci "1010/" t;
    if negb (word_edge before (first_char t)) then None
    else List.find (λ c, starts_with c r && word_edge (Some "0"%char) (first_char (drop_chars 3 r))) DUST_RACE_LEDGER_CODES) None haystack in
  match own with
  | Some c => Some ("1010/" ++ c)
  | None =>
      if includes_ci "priority is too low" haystack then None
      else if negb (coded "1010" haystack || includes_ci "invalid transaction" haystack) then None
      else custom ← ledgerErrorCode haystack;
           if mem custom DUST_RACE_LEDGER_CODES then Some ("1010/" ++ custom) else None
  end.

Definition TRANSPORT_RE : list string :=
  ["disconnected from"; "Normal Closure"; "Abnormal Closure"; "WebSocket is not connected"; "ECONNRESET"; "ECONNREFUSED";
   "ETIMEDOUT"; "EPIPE"; "socket hang up"; "Unable to connect"].

(** [timed? ?out] stands for four texts. *)
Definition NO_REPLY_RE : list string :=
  ["TimeoutError"; "TimeoutException"; "timed out"; "timedout"; "time out"; "timeout"; "no reply"; "no response"; "request timeout"].

Definition phase_error (err : nat) : option string :=
  a ← List.find (λ a, bool_decide (nameOf (errs a) = "SubmitPhaseError") && bool_decide (is_Some (eo_phase (errs a)))) (errorChain err);
  eo_phase (errs a).

Definition landed_height (err : nat) : option Z :=
  head (filter (λ h, (0 ≤ h)%Z) (omap (λ a, eo_blockHeight (errs a)) (errorChain err))).

(** What the text alone says, once no error of the chain decides. *)
Definition classify_text (err : nat) (haystack : string) : SubmitFailureInfo :=
  if chain_name "SponsorRefusalError" err || includes_ci "refusing to sponsor" haystack then failure Policy None false
  else if includes_ci "submit-intent was not acknowledged" haystack then failure PreMempoolReject (Some "intent-timeout") false
  else if includes_ci "submit-intent rejected" haystack then failure PreMempoolReject (Some "intent-rejected") false
  else match dustRaceLedgerCode err with Some c => failure DustRace (Some c) true | None =>
  if includes_ci "InvalidDustSpendProof" haystack then failure DustRace (Some "1010/170") true
  else if any_ci ["TransactionInvalidError"; "Transaction is invalid and was rejected by the node"] haystack
  then failure DustRace (Some "pool-invalid") true
  else if includes_ci "closing socket" haystack then failure Transport (Some "closing-socket") true
  else if includes_ci "priority is too low" haystack || coded "1014" haystack then failure PreMempoolReject (Some "1014") false
  else if coded "1016" haystack || includes_ci "immediately dropped" haystack then failure PreMempoolReject (Some "1016") true
  else if coded "1010" haystack || includes_ci "invalid transaction" haystack
  then failure PreMempoolReject (Some (match ledgerErrorCode haystack with Some c => "1010/" ++ c | None => "1010" end)) false
  else if any_ci TRANSPORT_RE haystack then failure Transport None true
  else if any_ci NO_REPLY_RE haystack then failure Ambiguous (Some "no-reply") false
  else failure Internal None false
  end.

(** First match wins. *)
Definition classifySubmitFailure (err : nat) : SubmitFailureInfo :=
  match carriedSubmitFailure err with Some info => info | None =>
  let haystack := errorMessage (errs err) ++ " " ++ classificationHaystack err in
  let causality := List.find (λ a, bool_decide (eo_code (errs a) = Some "BatchCausalityViolation") ||
                                   bool_decide (nameOf (errs a) = "BatchCausalityError")) (errorChain err) in
  if bool_decide (is_Some causality) || includes "violates the ledger's causality constraint" haystack then
    let own := a ← causality; eo_calls (errs a) in
    MkFailure Causality None false
      (Some (match own with Some (c :: cs) => c :: cs | _ => parseBatchCallStages haystack end)) None
  else if chain_code "BatchGasBudgetExceeded" err || includes "runs out of gas on the ledger" haystack
  then failure GasBudget None false
  else if chain_name "SubmitOutcomeUnknownError" err then failure Ambiguous (Some "unresolved-send") false
  else match codedSubmitFailure (nightgate_code err) with Some info => info | None =>
  match phase_error err with
  | Some phase =>
      if bool_decide (phase = "connect") then failure Transport (Some "not-sent") true
      else if bool_decide (phase = "request") then failure Ambiguous (Some "no-reply") false
      else failure Ambiguous None false
  | None =>
  if chain_name "SubmitWatchTimeoutError" err || includes_ci "submit watch timed out" haystack then failure Ambiguous None false
  else if chain_name "TxFailedError" err || includes_ci "did NOT apply" haystack || includes_ci "but did not apply" haystack
  then MkFailure LandedNotApplied None false None (landed_height err)
  else classify_text err haystack
  end end end.

Definition isPreMempoolFailure (info : SubmitFailureInfo) : bool :=
  match fi_code info with
  | PreMempoolReject => negb (bool_decide (fi_ledgerCode info = Some "intent-rejected")) &&
                        negb (bool_decide (fi_ledgerCode info = Some "intent-timeout"))
  | DustRace => negb (bool_decide (fi_ledgerCode info = Some "pool-invalid"))
  | _ => false
  end.
End Classify.

(** ** Examples *)

(** A chain of errors, each the cause of the one before. *)
Definition plain_error (name message : string) (cause : option nat) : ErrObj :=
  MkErr true true false (Some name) None (Some message) EmptyString EmptyString None None false None None cause.

Definition chain_store (l : list ErrObj) (a : nat) : ErrObj := nullish (l !! a) (plain_error "Error" EmptyString None).

(** [inspect] prints the messages of the chain. *)
Definition rendered (l : list ErrObj) (a : nat) : string :=
  String.concat "
  [cause]: " (errorMessage <$> drop a l).

Definition sdk_wrapped (inner : string) : list ErrObj :=
  [plain_error "(FiberFailure) SubmissionError" "Transaction submission error" (Some 1);
   plain_error "SubmissionError" "Transaction submission failed" (Some 2); plain_error "Error" inner None].

Definition classify_chain (l : list ErrObj) : SubmitFailureInfo := classifySubmitFailure (chain_store l) (rendered l) 0.

Example node_codes :
  (classify_chain ∘ sdk_wrapped) <$>
    ["1010: Invalid Transaction: Custom error: 170"; "1010: Invalid Transaction: Custom error: 117";
     "1014: Priority is too low: (31 vs 31)"; "1016: Immediately Dropped"; "disconnected from ws://x: 1000:: Normal Closure";
     "request timed out"; "wallet.js:1010:27 broke"] =
  [failure DustRace (Some "1010/170") true; failure PreMempoolReject (Some "1010/117") false;
   failure PreMempoolReject (Some "1014") false; failure PreMempoolReject (Some "1016") true; failure Transport None true;
   failure Ambiguous (Some "no-reply") false; failure Internal None false].
Proof. vm_compute. reflexivity. Qed.

Example causality_text :
  classify_chain [plain_error "Error" "batch violates the ledger's causality constraint: x. Stages in apply order: attest=1158[f:6.04G] anchor=1159[g:5.3G] end" None] =
  MkFailure Causality None false (Some [MkStage "attest" 1158 "f:6.04G"; MkStage "anchor" 1159 "g:5.3G"]) None.
Proof. vm_compute. reflexivity. Qed.

Example frames_dropped :
  classification_text "Error: boom
    at f (wallet.js:1010:27)
  x.js:12:3) end" = "Error: boom

  x.js:L:C) end".
Proof. vm_compute. reflexivity. Qed.
