(* ===== verification/WorkerProtocol.v ===== *)
(** What crosses between the wallet worker and the main thread when a
    submission is announced or fails (srv/midnight/worker/rpc.ts,
    srv/midnight/wallet-worker-client.ts, srv/midnight/wallet-worker-protocol.ts,
    srv/utils/errors.ts, srv/utils/format-error.ts). *)
From Stdlib Require Import Ascii.
From S2P Require Import Prelude Json Numbers SubmitFailure.

Set Warnings "-register-all".

Local Open Scope string_scope.

(** ** Error codes *)

Definition ERROR_CODES : list (string * Z) :=
  [("INVALID_ARGUMENT", 400); ("UNAUTHENTICATED", 401); ("FORBIDDEN", 403); ("NOT_FOUND", 404); ("CONFLICT", 409); ("GONE", 410);
   ("PRECONDITION_FAILED", 412); ("PAYLOAD_TOO_LARGE", 413); ("RATE_LIMITED", 429); ("INTERNAL", 500); ("NOT_IMPLEMENTED", 501);
   ("BAD_GATEWAY", 502); ("UNAVAILABLE", 503); ("ACCOUNT_KEY_UNAVAILABLE", 503); ("AGENT_GRANT_REVOKED", 403);
   ("ARG_COERCION_FAILED", 400); ("BATCH_CAUSALITY_VIOLATION", 409); ("CONTRACT_NOT_REGISTERED", 404);
   ("CONTRACT_REGISTRATION_REJECTED", 400); ("ENCRYPTION_KEY_UNKNOWN", 500); ("FEE_SPONSOR_UNUSABLE", 400); ("GRANT_REVOKED", 409);
   ("IDEMPOTENCY_KEY_CONFLICT", 409); ("IDEMPOTENCY_KEY_INVALID", 400); ("INSTANCE_LEASE_HELD", 503); ("JOB_ADMISSION_BUSY", 503);
   ("PRIVATE_STATE_EXPORT_INVALID", 400); ("PRIVATE_STATE_EXPORT_UNREADABLE", 400); ("PRIVATE_STATE_IMPORT_CONFLICT", 409);
   ("PROVER_KEYS_UNAVAILABLE", 503); ("RUNTIME_TOPOLOGY_UNSUPPORTED", 503); ("PUBLIC_VERIFY_DISABLED", 404);
   ("PURE_CIRCUITS_UNAVAILABLE", 404); ("TOKEN_FACTORY_UNAVAILABLE", 404); ("RUNTIME_UNAVAILABLE", 503); ("SCHEMA_NOT_DEPLOYED", 503);
   ("SESSION_NOT_FOUND", 401); ("SIGNING_KEY_EXPORT_REJECTED", 400); ("SPONSOR_POLICY_EMPTY", 403); ("SPONSOR_POLICY_UNAVAILABLE", 503);
   ("SPONSOR_REFUSED", 403); ("SWAP_OFFER_INVALID", 400); ("SPONSORED_CALL_NOT_APPLIED", 409); ("SUBMIT_INTENT_REJECTED", 409);
   ("SUBMIT_INTENT_TIMEOUT", 503); ("SUBMIT_PHASE_FAILED", 502); ("SUBMIT_WATCH_TIMEOUT", 504); ("SYNC_STATE_NETWORK_MISMATCH", 503);
   ("TOKEN_TYPE_INVALID", 400); ("TX_FAILED", 409); ("WALLET_MATERIAL_UNAVAILABLE", 501); ("WALLET_NOT_SYNCED", 503);
   ("WALLET_SIGNING_NOT_AVAILABLE", 409); ("WALLET_SYNCING", 503); ("WORKER_ROTATING", 503)]%Z.

Definition STATUS_CLASS_CODES : list (Z * string) :=
  [(400, "INVALID_ARGUMENT"); (401, "UNAUTHENTICATED"); (403, "FORBIDDEN"); (404, "NOT_FOUND"); (409, "CONFLICT"); (410, "GONE");
   (412, "PRECONDITION_FAILED"); (413, "PAYLOAD_TOO_LARGE"); (429, "RATE_LIMITED"); (500, "INTERNAL"); (501, "NOT_IMPLEMENTED");
   (502, "BAD_GATEWAY"); (503, "UNAVAILABLE")]%Z.

Definition statusClassCode (status : Z) : string :=
  nullish (map_get status STATUS_CLASS_CODES) (if bool_decide (500 ≤ status)%Z then "INTERNAL" else "INVALID_ARGUMENT").

(** ** Texts of an error *)

Section Texts.
Context (errs : nat → ErrObj) (inspect : nat → string).

Definition errorName (err : nat) : string := nullish (eo_name (errs err)) "Error".

Definition causeMessages (err : nat) : list string :=
  filter (λ m, m ≠ EmptyString) ((λ a, errorMessage (errs a)) <$> tail (errorChain errs err)).

(** [push] of formatErrWithCauses. *)
Definition push_part (hd : string) (parts : list string) (msg : string) : list string :=
  let m := trim msg in
  if is_empty m || bool_decide (m = hd) || mem m parts || bool_decide (6 ≤ length parts)%nat then parts else (parts ++ [m])%list.

Fixpoint cause_parts (left : nat) (hd : string) (seen : list nat) (cur : option nat) (parts : list string) : list string :=
  match left, cur with
  | O, _ | _, None => parts
  | S left', Some a =>
      if bool_decide (a ∈ seen) then parts
      else cause_parts left' hd (a :: seen) (cause_of (errs a)) (push_part hd parts (errorMessage (errs a)))
  end.

(** At most [n] characters off the front that satisfy [p]. *)
Fixpoint take_while (n : nat) (p : ascii → bool) (s : string) : string :=
  match n, s with
  | S n', String a s' => if p a then String a (take_while n' p s') else EmptyString
  | _, _ => EmptyString
  end.

(** The texts that follow [[cause]:] in the rendered error. *)
Fixpoint rendered_causes (s : string) : list string :=
  match s with
  | EmptyString => []
  | String _ s' =>
      match after_ci "[cause]:" s with
      | Some r => take_while 200 (λ a, negb (Ascii.eqb a "010") && negb (Ascii.eqb a "{")) (trim_start r) :: rendered_causes s'
      | None => rendered_causes s'
      end
  end.

(** A node's code 10xx with its text. *)
Definition node_line (before : option ascii) (s : string) : option string :=
  match s with
  | String "1" (String "0" (String a (String b (String ":" r)))) =>
      if word_edge before (Some "1"%char) && is_digit a && is_digit b
      then let blank := String.substring 0 (String.length r - String.length (trim_start r)) r in
           Some ("10" ++ String a (String b ":") ++ blank ++
                 take_while 120 (λ c, negb (Ascii.eqb c "010") && negb (Ascii.eqb c "034") && negb (Ascii.eqb c "'")) (trim_start r))
      else None
  | _ => None
  end.

Definition formatErrWithCauses (err : nat) : string :=
  let hd := errorMessage (errs err) in
  let parts := cause_parts 6 hd [err] (cause_of (errs err)) [] in
  let parts := match parts with
               | [] =>
                   let rendered := classificationHaystack inspect err in
                   match foldl (push_part hd) [] (rendered_causes rendered) with
                   | [] => match scan_match node_line None rendered with
                           | Some m => if includes m hd then [] else push_part hd [] m
                           | None => []
                           end
                   | ps => ps
                   end
               | _ => parts
               end in
  match parts with [] => hd | _ => hd ++ " <- " ++ String.concat " <- " parts end.
End Texts.

(** ** The error reply *)

Record RpcErrorPayload := MkPayload {
  pl_name : string; pl_message : string; pl_causes : list string;
  pl_code : option string; pl_ledgerCode : option string; pl_retryable : option bool;
  pl_calls : option (list BatchCallStageInfo); pl_blockHeight : option Z;
  pl_nightgate : option string }.

(** The catch of [dispatch] in the worker. *)
Definition dispatch_error (errs : nat → ErrObj) (inspect : nat → string) (submitting : bool) (err : nat) : RpcErrorPayload :=
  let info := classifySubmitFailure errs inspect err in
  MkPayload (errorName errs err) (formatErrWithCauses errs inspect err) (causeMessages errs err)
    (if submitting then Some (submit_code_text (fi_code info)) else None)
    (if submitting then c ← fi_ledgerCode info; if is_empty c then None else Some c else None)
    (if submitting then Some (fi_retryable info) else None)
    (if submitting then l ← fi_calls info; match l with [] => None | _ => Some l end else None)
    (if submitting then fi_blockHeight info else None)
    (nightgate_code errs err).

(** [nightgateErrorFromPayload]; [status] is the status the payload carries. *)
Definition nightgateErrorFromPayload (status : Z) (name message code : string) : ErrObj :=
  let code := if map_has code ERROR_CODES then code else statusClassCode status in
  MkErr true true true (Some name) (Some code) (Some message) EmptyString EmptyString None None false None None None.

(** [new WorkerSubmitError(payload)], whose cause is set afterwards. *)
Definition WorkerSubmitError (p : RpcErrorPayload) (code : string) (cause : option nat) : ErrObj :=
  MkErr true true false (Some (if is_empty (pl_name p) then "Error" else pl_name p)) (Some code) (Some (pl_message p))
    EmptyString EmptyString None (pl_ledgerCode p) (bool_decide (pl_retryable p = Some true)) (pl_calls p) (pl_blockHeight p) cause.

(** What the call rejects with on the main thread: the error at place 0, its
    cause at place 1. *)
Definition client_error (status : Z) (p : RpcErrorPayload) : list ErrObj :=
  let coded := nightgateErrorFromPayload status (pl_name p) (pl_message p) <$> pl_nightgate p in
  match pl_code p with
  | Some c =>
      if bool_decide (is_Some (submit_code_of c))
      then match coded with
           | Some n => [WorkerSubmitError p c (Some 1); n]
           | None => [WorkerSubmitError p c None]
           end
      else match coded with
           | Some n => [n]
           | None => [plain_error (if is_empty (pl_name p) then "Error" else pl_name p) (pl_message p) None]
           end
  | None => match coded with
            | Some n => [n]
            | None => [plain_error (if is_empty (pl_name p) then "Error" else pl_name p) (pl_message p) None]
            end
  end.

(** ** The announcement of a transaction *)

(** [SubmitIntent]; the parts that are objects are JSON. *)
Record SubmitIntent := MkIntent {
  in_txHash : string; in_contractAddress : option string; in_circuits : option (list string); in_note : option string;
  in_sponsorAccountId : option string; in_deployed : option (list string); in_ttl : option string; in_segments : option json;
  in_minted : option (list string); in_nullifiers : option (list string); in_unshielded : option json; in_transfer : option json }.

(** What the main thread makes of the worker's message before it stores it. *)
Definition received_intent (msg : SubmitIntent) : SubmitIntent :=
  MkIntent (in_txHash msg) (in_contractAddress msg) (in_circuits msg) (in_note msg) (in_sponsorAccountId msg)
    (in_deployed msg) (in_ttl msg) None (match in_minted msg with Some [] => None | m => m end) None None None.

(** ** Facts *)

Lemma submit_code_roundtrip c : submit_code_of (submit_code_text c) = Some c.
Proof. by destruct c. Qed.

(** Nothing empty is sent. *)
Definition sent_info (info : SubmitFailureInfo) : SubmitFailureInfo :=
  MkFailure (fi_code info) (c ← fi_ledgerCode info; if is_empty c then None else Some c) (fi_retryable info)
    (l ← fi_calls info; match l with [] => None | _ => Some l end) (fi_blockHeight info).

(** The main thread reads what the worker read. *)
Lemma received_classification errs inspect err received inspect' a cause :
  let info := classifySubmitFailure errs inspect err in
  received a = WorkerSubmitError (dispatch_error errs inspect true err) (submit_code_text (fi_code info)) cause →
  classifySubmitFailure received inspect' a = sent_info info.
Proof.
  intros info Ha. unfold classifySubmitFailure at 1, carriedSubmitFailure. rewrite Ha.
  unfold dispatch_error. fold info. cbn -[submit_code_of submit_code_text causeMessages formatErrWithCauses nightgate_code].
  rewrite submit_code_roundtrip. cbn. unfold sent_info. by destruct (fi_retryable info).
Qed.

(** C38. A failed submission keeps its meaning across threads: whatever error
    the worker's call ended with, the error the main thread is rejected with is
    classified there as it was in the worker, code, ledger code, retryable
    flag, calls and block height, however its texts read; and a NIGHTGATE error
    in the chain arrives with its code. *)
Theorem failure_survives_thread errs inspect inspect' status err :
  let received := chain_store (client_error status (dispatch_error errs inspect true err)) in
  classifySubmitFailure received inspect' 0 = sent_info (classifySubmitFailure errs inspect err) ∧
  (∀ c, nightgate_code errs err = Some c → map_has c ERROR_CODES = true → nightgate_code received 0 = Some c).
Proof.
  unfold client_error, dispatch_error. cbn -[classifySubmitFailure nightgate_code map_has ERROR_CODES formatErrWithCauses causeMessages submit_code_of submit_code_text].
  set (info := classifySubmitFailure errs inspect err). rewrite (bool_decide_eq_true_2 (is_Some (submit_code_of _))) by (rewrite submit_code_roundtrip; eauto).
  split.
  - destruct (nightgateErrorFromPayload _ _ _ <$> _); by eapply received_classification.
  - intros c Hc Hin. rewrite Hc. cbn -[map_has ERROR_CODES submit_code_text]. unfold nightgate_code, findNightgateError, chain_store. cbn -[map_has ERROR_CODES submit_code_text].
    rewrite !bool_decide_eq_false_2 by set_solver. unfold nightgateErrorFromPayload. rewrite Hin. done.
Qed.

(** The facts of a sponsored transaction that the worker announces and the main
    thread does not take over: they are lost before they can be stored. *)
Theorem announced_facts_lost msg :
  in_segments (received_intent msg) = None ∧ in_nullifiers (received_intent msg) = None ∧
  in_unshielded (received_intent msg) = None ∧ in_transfer (received_intent msg) = None.
Proof. done. Qed.

(** ** Examples *)

Definition not_synced : list ErrObj :=
  [plain_error "Error" "sponsor wallet" (Some 1);
   MkErr true true true (Some "NightgateError") (Some "WALLET_NOT_SYNCED") (Some "timed out") EmptyString EmptyString None None false None None None].

Lemma failure_survives_thread_witness :
  let received := chain_store (client_error 503 (dispatch_error (chain_store not_synced) (rendered not_synced) true 0)) in
  classifySubmitFailure received (λ _, "other text: 1010: Invalid Transaction") 0 = failure Transport (Some "wallet-not-synced") true ∧
  nightgate_code received 0 = Some "WALLET_NOT_SYNCED".
Proof.
  destruct (failure_survives_thread (chain_store not_synced) (rendered not_synced) (λ _, "other text: 1010: Invalid Transaction") 503 0) as [H1 H2].
  split; [rewrite H1; vm_compute; reflexivity|apply H2; vm_compute; reflexivity].
Defined.

Example formatted : formatErrWithCauses (chain_store (sdk_wrapped "1014: Priority is too low")) (rendered (sdk_wrapped "1014: Priority is too low")) 0 =
  "Transaction submission error <- Transaction submission failed <- 1014: Priority is too low".
Proof. vm_compute. reflexivity. Qed.
