(* ===== verification/Scheduler.v ===== *)
(** Starting background jobs: concurrency classes, the dispatch set, lease
    reclaim and the poller (srv/submission/job-scheduler.ts). *)
From S2P Require Import Prelude Db Json Schema Retry JobKinds JobStore.

Section Semaphore.
Local Open Scope Z_scope.
Context {W : Type}.

Record Semaphore := MkSemaphore { max : Z; inFlight : Z; waiters : list W }.

Definition new_semaphore (m : Z) : Semaphore := MkSemaphore m 0 [].

Definition acquire (w : W) (s : Semaphore) : bool * Semaphore :=
  if bool_decide (inFlight s < max s)
  then (true, MkSemaphore (max s) (inFlight s + 1) (waiters s))
  else (false, MkSemaphore (max s) (inFlight s) (waiters s ++ [w])).

Definition release (s : Semaphore) : option W * Semaphore :=
  match waiters s with
  | next :: ws => (Some next, MkSemaphore (max s) (inFlight s) ws)
  | [] => (None, MkSemaphore (max s) (Z.max 0 (inFlight s - 1)) [])
  end.

Definition available (s : Semaphore) : Z :=
  Z.max 0 (max s - inFlight s - Z.of_nat (length (waiters s))).

(** ** Executions: who holds a slot

    [holders] is the list of those that went on and have not released. *)
Inductive sem_step : Semaphore * list W → Semaphore * list W → Prop :=
| step_acquire_now w s s' hs : acquire w s = (true, s') → sem_step (s, hs) (s', w :: hs)
| step_acquire_wait w s s' hs : acquire w s = (false, s') → sem_step (s, hs) (s', hs)
| step_release_hand h s s' hs1 hs2 next :
    release s = (Some next, s') → sem_step (s, hs1 ++ h :: hs2) (s', next :: hs1 ++ hs2)
| step_release_free h s s' hs1 hs2 :
    release s = (None, s') → sem_step (s, hs1 ++ h :: hs2) (s', hs1 ++ hs2).

Definition reachable (m : Z) (c : Semaphore * list W) : Prop := rtc sem_step (new_semaphore m, []) c.

Record sem_inv (m : Z) (c : Semaphore * list W) : Prop := {
  inv_max : max c.1 = m;
  inv_count : Z.of_nat (length c.2) = inFlight c.1;
  inv_bound : inFlight c.1 ≤ Z.max 0 m;
  inv_busy : waiters c.1 ≠ [] → m ≤ inFlight c.1 }.

Lemma sem_step_inv m c c' : sem_inv m c → sem_step c c' → sem_inv m c'.
Proof.
  intros [Hm Hc Hb Hw] Hs.
  destruct Hs as [w s s' hs Ha|w s s' hs Ha|h s s' hs1 hs2 nx Hr|h s s' hs1 hs2 Hr]; simpl in *.
  - unfold acquire in Ha. case_bool_decide; simplify_eq/=. split; simpl; [done|lia|lia|].
    intros Hne. specialize (Hw Hne). lia.
  - unfold acquire in Ha. case_bool_decide; simplify_eq/=. split; simpl; [done|lia|lia|]. intros _. lia.
  - unfold release in Hr. destruct (waiters s) eqn:Ew; simplify_eq/=.
    rewrite length_app in Hc. simpl in Hc. split; simpl; [done|rewrite length_app; lia|lia|].
    intros _. apply Hw. done.
  - unfold release in Hr. destruct (waiters s) eqn:Ew; simplify_eq/=.
    rewrite length_app in Hc. simpl in Hc. split; simpl; [done|rewrite length_app; lia|lia|done].
Qed.

Lemma reachable_inv m c : reachable m c → sem_inv m c.
Proof.
  unfold reachable. intros Hr.
  assert (sem_inv m (new_semaphore m, [])) as H0 by (split; simpl; [done|done|lia|done]).
  induction Hr as [|x y z Hs Hr IH]; [done|]. apply IH. by eapply sem_step_inv.
Qed.

(** [n] releases in a row hand their slots to the first [n] waiters, in order. *)
Fixpoint releases (n : nat) (s : Semaphore) : list W * Semaphore :=
  match n with
  | O => ([], s)
  | S n' => let '(o, s') := release s in
            let '(l, s'') := releases n' s' in
            (match o with Some w => w :: l | None => l end, s'')
  end.

Lemma releases_fifo n s :
  (n ≤ length (waiters s))%nat → (releases n s).1 = take n (waiters s) ∧
  waiters (releases n s).2 = drop n (waiters s).
Proof.
  revert s. induction n as [|n IH]; intros s Hn; simpl; [done|].
  unfold release. destruct (waiters s) as [|w ws] eqn:Ew; simpl in *; [lia|].
  specialize (IH (MkSemaphore (max s) (inFlight s) ws)).
  destruct (releases n _) as [l s'] eqn:E. simpl in *.
  destruct IH as [-> IH2]; [lia|]. done.
Qed.
End Semaphore.
Arguments Semaphore : clear implicits.

Section SemaphoreProperties.
Local Open Scope Z_scope.
Context {W : Type}.

(** At every reachable point at most [max] callers hold a slot, the
    counter is the number of holders, a caller waits only while every slot is
    held, and whenever [available] is positive an [acquire] goes on at once: no
    slot is lost and none is granted twice. *)
Theorem semaphore_bounds (m : Z) (s : Semaphore W) (hs : list W) (w : W) :
  reachable m (s, hs) →
  Z.of_nat (length hs) ≤ Z.max 0 m ∧ inFlight s = Z.of_nat (length hs) ∧
  (waiters s ≠ [] → m ≤ Z.of_nat (length hs)) ∧
  (0 < available s → (acquire w s).1 = true).
Proof.
  intros Hr. destruct (reachable_inv _ _ Hr) as [Hm Hc Hb Hw]. simpl in *. split_and!; [lia|done| |].
  - intros Hne. specialize (Hw Hne). lia.
  - unfold available, acquire. intros Ha. rewrite bool_decide_eq_true_2; [done|]. lia.
Qed.

(** Slots are handed over in the order the callers came: [n] releases go
    on with exactly the first [n] waiters, in their order. *)
Theorem semaphore_fifo (n : nat) (s : Semaphore W) (ws : list W) :
  waiters s = ws → (n ≤ length ws)%nat →
  (releases n s).1 = take n ws ∧ waiters (releases n s).2 = drop n ws ∧
  ∀ w, waiters (acquire w s).2 = ws ∨ waiters (acquire w s).2 = (ws ++ [w])%list.
Proof.
  intros <- Hn. destruct (releases_fifo n s Hn) as [-> ->]. split_and!; [done|done|].
  intros w. unfold acquire. case_bool_decide; [by left|by right].
Qed.
End SemaphoreProperties.

(** Two slots, four callers: the third and fourth wait. *)
Definition crowded : Semaphore nat :=
  (acquire 4%nat (acquire 3%nat (acquire 2%nat (acquire 1%nat (new_semaphore 2)).2).2).2).2.

Lemma semaphore_fifo_witness : (releases 1 crowded).1 = [3]%nat.
Proof.
  assert (waiters crowded = [3; 4]%nat) as H by (vm_compute; reflexivity).
  exact (proj1 (semaphore_fifo 1 crowded [3; 4]%nat H ltac:(simpl; lia))).
Defined.

(** ** The scheduler *)

Local Open Scope string_scope.

(** ** Concurrency classes *)

Inductive Cap := CapHeavy | CapLight | CapSerial.
#[export] Instance Cap_eq_dec : EqDecision Cap.
Proof. solve_decision. Defined.

Definition DEFAULT_CONCURRENCY (c : Cap) : Z :=
  match c with CapHeavy => 4 | CapLight => 16 | CapSerial => 1 end.

(** All heavy jobs share one limit; workflow parents have their own, because a
    parent waits for heavy child jobs. *)
Definition concurrencyClass (r : Registry) (k : string) : string * Cap :=
  let t := jobKindTraits r k in
  if serial_trait t then ("serial:" ++ k, CapSerial)
  else if workflowParent t then ("workflow", CapHeavy)
  else if heavy t then ("heavy", CapHeavy)
  else ("light:" ++ k, CapLight).

(** ** The scheduler's memory *)

Record Scheduler := MkScheduler {
  semaphores : list (string * Semaphore string);
  dispatching : list string;
  (** jobs handed to setImmediate, with their kind, oldest first *)
  immediate : list (string * string);
  fenced : bool }.

(** [jobs.concurrency] of the configuration. *)
Definition Caps := Cap → option Z.

Definition getSemaphore (r : Registry) (caps : Caps) (k : string) (s : Scheduler) :
    Semaphore string * Scheduler :=
  let '(key, cap) := concurrencyClass r k in
  match map_get key (semaphores s) with
  | Some sem => (sem, s)
  | None =>
      let sem := new_semaphore (nullish (caps cap) (DEFAULT_CONCURRENCY cap)) in
      (sem, MkScheduler (map_set key sem (semaphores s)) (dispatching s) (immediate s) (fenced s))
  end.

(** The synchronous part of dispatchJob: the rest runs from setImmediate. *)
Definition dispatchJob (r : Registry) (caps : Caps) (jobId k : string) (s : Scheduler) : Scheduler :=
  if bool_decide (jobId ∈ dispatching s) then s
  else if fenced s then s
  else
    let s1 := MkScheduler (semaphores s) (dispatching s ++ [jobId]) (immediate s) (fenced s) in
    let s2 := (getSemaphore r caps k s1).2 in
    MkScheduler (semaphores s2) (dispatching s2) (immediate s2 ++ [(jobId, k)]) (fenced s2).

(** ** Lease reclaim *)

Definition MAX_LEASE_RECLAIMS : Z := 3.
Definition SCAN_PAGE_SIZE : nat := 100.

Definition lt_opt (a : option Z) (b : Z) : bool :=
  match a with Some x => bool_decide (x < b)%Z | None => false end.

(** [!row.commandVersion] *)
Definition no_command_version (s : JobSpec) : bool :=
  match commandVersion s with Some v => bool_decide (v = 0%Z) | None => true end.

Definition reclaim_terminal (r : Job) (attempt : Z) : option string :=
  if no_command_version (j_spec r)
  then Some "its work was an in-process closure that died with the lease owner"
  else if bool_decide (attempt > MAX_LEASE_RECLAIMS + 1)%Z
  then Some ("its lease expired " ++ pretty (attempt - 1)%Z ++ " times")
  else None.

Definition reclaim_patch (e : Env) (i : nat) (r : Job) : list job_set :=
  let attempt := (nullish (j_attempt r) 1 + 1)%Z in
  match reclaim_terminal r attempt with
  | Some terminal =>
      [SetStatus Failed; SetErrorCode (Some "LEASE_EXPIRED");
       SetErrorMessage (Some (slice0 4000 ("no heartbeat from " ++ nullish (j_leaseOwner r) "unknown owner" ++
         " for more than " ++ pretty (jobLeaseTtlMs e) ++ " ms; " ++ terminal)));
       SetFinishedAt (Some (clock e i)); SetLeaseOwner None; SetLeaseExpiresAt None; SetHeartbeatAt None]
  | None =>
      [SetStatus Pending; SetAttempt (Some attempt); SetStartedAt None; SetLeaseOwner None;
       SetLeaseExpiresAt None; SetHeartbeatAt None]
  end.

(** The guard compares status, owner and heartbeat with what was read, so a
    heartbeat that arrives meanwhile keeps the job. *)
Definition reclaim_guard (read : Job) (r : Job) : bool :=
  status_in [Running] r && bool_decide (j_leaseOwner r = j_leaseOwner read) &&
  bool_decide (j_heartbeatAt r = j_heartbeatAt read).

Definition reclaim_row (e : Env) (row : string * Job) : M Database nat :=
  withLockContentionRetry (λ i, stmt e ("reclaimLease " ++ row.1) i 0
    (update_job row.1 (reclaim_guard row.2) (reclaim_patch e 0 row.2))).

Fixpoint reclaim_rows (e : Env) (reclaimed : nat) (rows : list (string * Job)) : M Database nat :=
  match rows with
  | [] => mret reclaimed
  | row :: rows' =>
      affected ← reclaim_row e row;
      reclaim_rows e (if bool_decide (affected = 1) then S reclaimed else reclaimed) rows'
  end.

Section Reclaim.
Context `{ScanOrder}.

Definition silent_rows (cutoff : Z) (t : gmap string Job) : list (string * Job) :=
  take SCAN_PAGE_SIZE (sql_select (λ _ r, status_in [Running] r && lt_opt (j_heartbeatAt r) cutoff) t).
Definition never_beat_rows (cutoff : Z) (t : gmap string Job) : list (string * Job) :=
  take SCAN_PAGE_SIZE (sql_select (λ _ r, status_in [Running] r && bool_decide (j_heartbeatAt r = None) &&
                                          lt_opt (j_startedAt r) cutoff) t).

Definition reclaimExpiredLeases (e : Env) : M Database nat :=
  let cutoff := (clock e 0 - jobLeaseTtlMs e)%Z in
  d ← get;
  silent ← stmt e "reclaimExpiredLeases" 0 0 (mret (silent_rows cutoff (jobs d)));
  neverBeat ← stmt e "reclaimExpiredLeases" 0 1 (mret (never_beat_rows cutoff (jobs d)));
  reclaim_rows e 0 (silent ++ neverBeat).

(** ** The poller *)

Definition created_le : relation (string * Job) := λ a b, (createdAt (j_spec a.2) ≤ createdAt (j_spec b.2))%Z.
#[export] Instance created_le_dec : RelDecision created_le.
Proof. intros a b. unfold created_le. apply _. Defined.

(** The pending rows with a command, oldest first, 100 at most. *)
Definition poll_rows (t : gmap string Job) : list (string * Job) :=
  take 100 (merge_sort created_le
    (sql_select (λ _ r, status_in [Pending] r && bool_decide (is_Some (commandVersion (j_spec r)))) t)).

(** The loop body over one row: [budget] is keyed by semaphore, that is by
    the class key it is stored under. *)
Definition poll_row (r : Registry) (caps : Caps) (row : string * Job)
    (st : list (string * Z) * Scheduler) : list (string * Z) * Scheduler :=
  let '(budget, s) := st in
  let k := kind (j_spec row.2) in
  if bool_decide (row.1 ∈ dispatching s) then st
  else if negb (bool_decide (processorKey k (nullish (commandVersion (j_spec row.2)) 0%Z) ∈ processors r)) then st
  else
    let '(sem, s1) := getSemaphore r caps k s in
    let key := (concurrencyClass r k).1 in
    let free := nullish (map_get key budget) (available sem) in
    if bool_decide (free ≤ 0)%Z then (budget, s1)
    else (map_set key (free - 1)%Z budget, dispatchJob r caps row.1 k s1).

Definition poll_select (r : Registry) (caps : Caps) (rows : list (string * Job)) (s : Scheduler) : Scheduler :=
  (foldl (λ st row, poll_row r caps row st) ([], s) rows).2.
End Reclaim.

(** ** Facts about the classes *)

(** A class key is used with one cap only: the cached semaphore's limit does not
    depend on which kind created it. *)
Lemma concurrencyClass_cap r k1 k2 :
  (concurrencyClass r k1).1 = (concurrencyClass r k2).1 →
  (concurrencyClass r k1).2 = (concurrencyClass r k2).2.
Proof. unfold concurrencyClass. repeat case_match; simpl; intros; first [done|discriminate]. Qed.

Lemma workflow_key r k :
  serial_trait (jobKindTraits r k) = false → workflowParent (jobKindTraits r k) = true →
  (concurrencyClass r k).1 = "workflow".
Proof. unfold concurrencyClass. by intros -> ->. Qed.

Lemma step_key r k :
  workflowParent (jobKindTraits r k) = false → (concurrencyClass r k).1 ≠ "workflow".
Proof. unfold concurrencyClass. intros ->. by repeat case_match. Qed.

(** ** Facts about reclaim *)

Lemma reclaim_row_cas e row :
  cas row.1 (reclaim_guard row.2) (λ _, reclaim_patch e 0 row.2) (reclaim_row e row).
Proof.
  apply cas_retry. intros i.
  apply (cas_stmt e _ i 0 row.1 (reclaim_guard row.2) (λ _, reclaim_patch e 0 row.2)).
Qed.

(** ** Facts about the poller *)

Section Poll.
Context (r : Registry) (caps : Caps).
Implicit Types s : Scheduler.

Definition sem_of (k : string) (s : Scheduler) : Semaphore string := (getSemaphore r caps k s).1.
Definition class_of (k : string) : string := (concurrencyClass r k).1.

Lemma sem_of_ext k s s' : semaphores s = semaphores s' → sem_of k s = sem_of k s'.
Proof.
  unfold sem_of, getSemaphore. intros ->. destruct (concurrencyClass r k). by destruct (map_get _ _).
Qed.

Lemma getSemaphore_sem_of k k' s : sem_of k (getSemaphore r caps k' s).2 = sem_of k s.
Proof.
  unfold sem_of, getSemaphore. pose proof (concurrencyClass_cap r k k') as Hcap.
  destruct (concurrencyClass r k) as [key cap], (concurrencyClass r k') as [key' cap']. simpl in Hcap.
  destruct (map_get key' (semaphores s)) as [sem'|] eqn:E'; [done|]. simpl.
  destruct (decide (key = key')) as [->|Hne].
  - rewrite map_get_set_eq, E'. by rewrite Hcap.
  - rewrite map_get_set_ne by congruence. by destruct (map_get key (semaphores s)).
Qed.

Lemma getSemaphore_frame k s :
  dispatching (getSemaphore r caps k s).2 = dispatching s ∧
  immediate (getSemaphore r caps k s).2 = immediate s ∧ fenced (getSemaphore r caps k s).2 = fenced s.
Proof. unfold getSemaphore. destruct (concurrencyClass r k). by destruct (map_get _ _). Qed.

Lemma dispatchJob_fresh id k s :
  id ∉ dispatching s → fenced s = false →
  dispatching (dispatchJob r caps id k s) = (dispatching s ++ [id])%list ∧
  immediate (dispatchJob r caps id k s) = (immediate s ++ [(id, k)])%list ∧
  fenced (dispatchJob r caps id k s) = false ∧
  ∀ k', sem_of k' (dispatchJob r caps id k s) = sem_of k' s.
Proof.
  intros Hid Hf. unfold dispatchJob. rewrite bool_decide_eq_false_2, Hf by done.
  set (s1 := MkScheduler (semaphores s) (dispatching s ++ [id])%list (immediate s) false).
  destruct (getSemaphore_frame k s1) as (Hd & Hi & Hfe). simpl. rewrite Hd, Hi, Hfe.
  split_and!; [done|done|done|]. intros k'.
  transitivity (sem_of k' (getSemaphore r caps k s1).2); [by apply sem_of_ext|].
  rewrite getSemaphore_sem_of. by apply sem_of_ext.
Qed.

(** The jobs of a class among those handed over. *)
Definition count_class (key : string) (l : list (string * string)) : Z :=
  Z.of_nat (length (filter (λ ik : string * string, class_of ik.2 = key) l)).

Lemma count_class_snoc key l id k :
  count_class key (l ++ [(id, k)]) = (count_class key l + if bool_decide (class_of k = key) then 1 else 0)%Z.
Proof.
  unfold count_class. rewrite filter_app, length_app, filter_cons. simpl.
  case_bool_decide as Hk; [rewrite decide_True by done|rewrite decide_False by done]; simpl; lia.
Qed.

Record poll_inv (s0 : Scheduler) (rows : list (string * Job)) (st : list (string * Z) * Scheduler)
    (new : list (string * string)) : Prop := {
  pi_fenced : fenced st.2 = false;
  pi_immediate : immediate st.2 = (immediate s0 ++ new)%list;
  pi_dispatching : dispatching st.2 = (dispatching s0 ++ new.*1)%list;
  pi_sem : ∀ k, sem_of k st.2 = sem_of k s0;
  pi_budget : ∀ k, match map_get (class_of k) st.1 with
                   | Some f => (0 ≤ f)%Z ∧ f = (available (sem_of k s0) - count_class (class_of k) new)%Z
                   | None => count_class (class_of k) new = 0%Z
                   end;
  pi_new : Forall (λ ik, ik.1 ∉ dispatching s0 ∧ ∃ row, row ∈ rows ∧ ik = (row.1, kind (j_spec row.2)) ∧
             processorKey ik.2 (nullish (commandVersion (j_spec row.2)) 0%Z) ∈ processors r) new;
  pi_NoDup : NoDup new.*1 }.

Lemma available_nonneg (sem : Semaphore string) : (0 ≤ available sem)%Z.
Proof. unfold available. lia. Qed.

Lemma poll_row_inv s0 rows row st new :
  row ∈ rows → poll_inv s0 rows st new → ∃ new', poll_inv s0 rows (poll_row r caps row st) new'.
Proof.
  intros Hrow Hinv. destruct st as [budget s]. unfold poll_row.
  case_bool_decide as Hd; [by exists new|]. case_bool_decide as Hp; simpl; [|by exists new].
  set (k := kind (j_spec row.2)) in *. pose proof Hinv as [Hf Hi Hdi Hs Hb Hn Hnd]. simpl in *.
  destruct (getSemaphore r caps k s) as [sem s1] eqn:Eg.
  assert (s1 = (getSemaphore r caps k s).2) as Hs1 by (by rewrite Eg).
  assert (sem = sem_of k s0) as -> by (rewrite <- Hs; unfold sem_of; by rewrite Eg).
  destruct (getSemaphore_frame k s) as (Hd1 & Hi1 & Hf1). rewrite <- Hs1 in Hd1, Hi1, Hf1.
  assert (∀ k', sem_of k' s1 = sem_of k' s0) as Hsem1 by (intros k'; by rewrite Hs1, getSemaphore_sem_of, Hs).
  fold (class_of k). case_bool_decide as Hfree.
  - exists new. split; simpl; try congruence; eauto.
  - destruct (dispatchJob_fresh row.1 k s1) as (Hd2 & Hi2 & Hf2 & Hs2); [congruence|congruence|].
    exists (new ++ [(row.1, k)])%list. split; simpl.
    + done.
    + by rewrite Hi2, Hi1, Hi, app_assoc.
    + by rewrite Hd2, Hd1, Hdi, fmap_app, app_assoc.
    + intros k'. by rewrite Hs2.
    + intros k'. rewrite count_class_snoc. specialize (Hb k'). destruct (decide (class_of k' = class_of k)) as [He|Hne].
      * rewrite <- He, map_get_set_eq, bool_decide_eq_true_2 by done. rewrite <- He in Hfree.
        assert (sem_of k' s0 = sem_of k s0) as Hsame.
        { unfold sem_of, getSemaphore. pose proof (concurrencyClass_cap r k' k) as Hcap. unfold class_of in He.
          destruct (concurrencyClass r k') as [key' cap'], (concurrencyClass r k) as [key cap]. simpl in *. subst key'.
          rewrite Hcap by done. by destruct (map_get key (semaphores s0)). }
        rewrite Hsame in Hb |- *. destruct (map_get (class_of k') budget) as [f|]; simpl in *; lia.
      * rewrite map_get_set_ne by done. rewrite bool_decide_eq_false_2 by congruence.
        rewrite Z.add_0_r. exact Hb.
    + apply Forall_app. split; [done|]. apply Forall_singleton. simpl. split; [|eauto].
      rewrite Hdi in Hd. set_solver.
    + rewrite fmap_app. apply NoDup_app. split_and!; [done| |apply NoDup_singleton]. rewrite Hdi in Hd. simpl. set_solver.
Qed.

(** One poll hands over only jobs that are not already being dispatched,
    each once, each with a registered processor, and of every concurrency class
    at most as many as its semaphore has free, so no job waits behind the
    semaphore while its row still looks pending. *)
Theorem poll_within_free_slots rows s :
  fenced s = false →
  ∃ new, immediate (poll_select r caps rows s) = (immediate s ++ new)%list ∧
    NoDup new.*1 ∧
    (∀ id k, (id, k) ∈ new → id ∉ dispatching s ∧ ∃ j, (id, j) ∈ rows ∧ kind (j_spec j) = k ∧
       processorKey k (nullish (commandVersion (j_spec j)) 0%Z) ∈ processors r) ∧
    ∀ k, (count_class (class_of k) new ≤ available (sem_of k s))%Z.
Proof.
  intros Hf. assert (∀ rest st new, (∀ row, row ∈ rest → row ∈ rows) → poll_inv s rows st new →
    ∃ new', poll_inv s rows (foldl (λ st row, poll_row r caps row st) st rest) new') as Hfold.
  { intros rest. induction rest as [|row rest IH]; intros st new Hsub Hinv; simpl; [eauto|].
    destruct (poll_row_inv s rows row st new) as [new' Hinv']; [apply Hsub; set_solver|done|].
    eapply IH; [|done]. intros row' Hrow'. apply Hsub. set_solver. }
  destruct (Hfold rows ([], s) [] (λ _ H, H)) as [new [Hf' Hi Hd Hs Hb Hn Hnd]].
  { split; simpl; [done|by rewrite app_nil_r|by rewrite app_nil_r|done|done|by constructor|constructor]. }
  exists new. split_and!; [done|done| |].
  - intros id k Hin. rewrite Forall_forall in Hn. destruct (Hn _ Hin) as (Hnin & row & Hrow & Heq & Hp).
    destruct row as [id' j]. simpl in *. simplify_eq. eauto 6.
  - intros k. specialize (Hb k). pose proof (available_nonneg (sem_of k s)). destruct (map_get (class_of k) _); lia.
Qed.
End Poll.

(** ** Facts about reclaiming *)

(** The lease of a running row ran out: its heartbeat, or its start when it never
    beat, is older than one TTL. *)
Definition silent (e : Env) (j : Job) : Prop :=
  let cutoff := (clock e 0 - jobLeaseTtlMs e)%Z in
  match j_heartbeatAt j with
  | Some h => (h < cutoff)%Z
  | None => ∃ s, j_startedAt j = Some s ∧ (s < cutoff)%Z
  end.

Lemma lt_opt_true a b : lt_opt a b = true → ∃ x, a = Some x ∧ (x < b)%Z.
Proof. unfold lt_opt. destruct a; [|done]. intros H%bool_decide_eq_true_1. eauto. Qed.

Lemma reclaim_rows_spec e rows n d o d' :
  NoDup rows.*1 → (∀ k j, (k, j) ∈ rows → jobs d !! k = Some j) →
  reclaim_rows e n rows d = (o, d') →
  ∀ k, jobs d' !! k = jobs d !! k ∨
       ∃ j, (k, j) ∈ rows ∧ j_status j = Running ∧ jobs d' !! k = Some (patch_job (reclaim_patch e 0 j) j).
Proof.
  revert n d. induction rows as [|[k1 j1] rows IH]; intros n d Hnd Hrows Hr k; simpl in Hr.
  { m_unfold. simplify_eq. by left. }
  apply NoDup_cons in Hnd as [Hnin Hnd]. simpl in Hnin. m_unfold.
  destruct (reclaim_row e (k1, j1) d) as [[a|x] d1] eqn:E; pose proof (reclaim_row_cas e (k1, j1) _ _ _ E) as Hcas; simpl in Hcas.
  - assert (∀ k' j', (k', j') ∈ rows → jobs d1 !! k' = Some j') as Hrows1.
    { intros k' j' Hin. assert (k' ≠ k1) as Hne by (intros ->; apply Hnin, list_elem_of_fmap; by exists (k1, j')).
      destruct Hcas as [(_ & r & _ & _ & _ & ->)|(-> & _)]; [simpl; rewrite lookup_insert_ne by done|]; apply Hrows; set_solver. }
    destruct (IH _ d1 Hnd Hrows1 Hr k) as [->|(j & Hin & Hst & ->)]; [|right; exists j; split_and!; [set_solver|done|done]].
    destruct Hcas as [(_ & r & Hr1 & Hc & _ & ->)|(-> & _)]; [|by left]. simpl.
    destruct (decide (k = k1)) as [->|Hne]; [|left; by rewrite lookup_insert_ne]. right. exists j1.
    rewrite (Hrows k1 j1) in Hr1 by set_solver. simplify_eq. rewrite lookup_insert_eq.
    unfold reclaim_guard, status_in in Hc. apply andb_prop in Hc as [[Hc%bool_decide_eq_true_1 _]%andb_prop _].
    apply list_elem_of_singleton in Hc. split_and!; [set_solver|done|done].
  - simplify_eq. left. destruct Hcas as [(_ & r & _ & _ & ? & _)|(-> & _)]; done.
Qed.

Section ReclaimProperties.
Context `{ScanOrder}.

Lemma silent_rows_elem cutoff t k j :
  (k, j) ∈ silent_rows cutoff t → t !! k = Some j ∧ ∃ h, j_heartbeatAt j = Some h ∧ (h < cutoff)%Z.
Proof.
  unfold silent_rows. intros Hin%elem_of_take. destruct Hin as (i & Hin & _).
  apply list_elem_of_lookup_2, elem_of_select in Hin as [Ht Hw]. split; [done|].
  apply andb_prop in Hw as [_ Hw]. by apply lt_opt_true.
Qed.

Lemma never_beat_rows_elem cutoff t k j :
  (k, j) ∈ never_beat_rows cutoff t →
  t !! k = Some j ∧ j_heartbeatAt j = None ∧ ∃ s, j_startedAt j = Some s ∧ (s < cutoff)%Z.
Proof.
  unfold never_beat_rows. intros Hin%elem_of_take. destruct Hin as (i & Hin & _).
  apply list_elem_of_lookup_2, elem_of_select in Hin as [Ht Hw]. split; [done|].
  apply andb_prop in Hw as [[_ Hb]%andb_prop Hs]. split; [by apply bool_decide_eq_true_1 in Hb|by apply lt_opt_true].
Qed.

Lemma take_fst_NoDup {A} n (l : list (string * A)) : NoDup l.*1 → NoDup (take n l).*1.
Proof. intros Hl. eapply sublist_NoDup; [done|]. apply sublist_fmap_mono, sublist_take. Qed.

(** Reclaiming touches a row only if it is running and its worker has been
    silent for more than one lease TTL; it then either returns the job to the
    queue without a lease, at most three times in its life, or fails it with
    LEASE_EXPIRED. Every other row keeps its value. *)
Theorem reclaim_only_silent e d o d' :
  reclaimExpiredLeases e d = (o, d') →
  ∀ k, jobs d' !! k = jobs d !! k ∨
    ∃ j j', jobs d !! k = Some j ∧ j_status j = Running ∧ silent e j ∧ jobs d' !! k = Some j' ∧
      j_leaseOwner j' = None ∧
      ((j_status j' = Pending ∧ j_attempt j' = Some (nullish (j_attempt j) 1 + 1)%Z ∧
        (nullish (j_attempt j') 1 ≤ MAX_LEASE_RECLAIMS + 1)%Z) ∨
       (j_status j' = Failed ∧ j_errorCode j' = Some "LEASE_EXPIRED")).
Proof.
  unfold reclaimExpiredLeases, stmt, get. intros Hr k. m_unfold.
  destruct (fault e _ 0 0); [simplify_eq; by left|]. destruct (fault e _ 0 1); [simplify_eq; by left|].
  set (cutoff := (clock e 0 - jobLeaseTtlMs e)%Z) in *.
  assert (∀ k j, (k, j) ∈ (silent_rows cutoff (jobs d) ++ never_beat_rows cutoff (jobs d))%list →
    jobs d !! k = Some j ∧ silent e j) as Hrows.
  { intros k' j [Hin|Hin]%elem_of_app.
    - apply silent_rows_elem in Hin as (Ht & h & Hh & Hlt). split; [done|]. unfold silent. by rewrite Hh.
    - apply never_beat_rows_elem in Hin as (Ht & Hh & s & Hs & Hlt). split; [done|]. unfold silent. rewrite Hh. eauto. }
  apply reclaim_rows_spec with (k := k) in Hr.
  - destruct Hr as [?|(j & Hin & Hst & Hj)]; [by left|]. right. destruct (Hrows _ _ Hin) as [Hk Hsil].
    exists j, (patch_job (reclaim_patch e 0 j) j). split_and!; [done|done|done|done| |].
    + unfold reclaim_patch. by case_match.
    + unfold reclaim_patch. destruct (reclaim_terminal j _) eqn:Et; [by right|left]. simpl. split_and!; [done|done|].
      unfold reclaim_terminal in Et. destruct (no_command_version _); [done|]. case_bool_decide; [done|]. simpl. lia.
  - rewrite fmap_app. apply NoDup_app. split_and!.
    + apply take_fst_NoDup, select_NoDup.
    + intros k' Hin1 Hin2. apply list_elem_of_fmap in Hin1 as ([k1 j1] & -> & Hin1).
      apply list_elem_of_fmap in Hin2 as ([k2 j2] & Hk2 & Hin2). simpl in *. subst k2.
      apply silent_rows_elem in Hin1 as (H1 & h & Hh & _). apply never_beat_rows_elem in Hin2 as (H2 & Hn & _).
      congruence.
    + apply take_fst_NoDup, select_NoDup.
  - intros k' j Hin. by apply Hrows.
Qed.

(** Between the read and the write the worker may have beaten again: the
    reclaim of a row read earlier changes it only if it is still running under
    the owner and the heartbeat that were read. *)
Theorem reclaim_respects_heartbeat e k read d o d' :
  reclaim_row e (k, read) d = (o, d') → d' ≠ d →
  ∃ j, jobs d !! k = Some j ∧ j_status j = Running ∧ j_leaseOwner j = j_leaseOwner read ∧
       j_heartbeatAt j = j_heartbeatAt read.
Proof.
  intros Hr Hne. apply (reclaim_row_cas e (k, read)) in Hr as [(_ & j & Hj & Hc & _)|[? _]]; [|done].
  exists j. unfold reclaim_guard, status_in in Hc. simpl in *.
  apply andb_prop in Hc as [[H1%bool_decide_eq_true_1 H2%bool_decide_eq_true_1]%andb_prop H3%bool_decide_eq_true_1].
  by apply list_elem_of_singleton in H1.
Qed.
End ReclaimProperties.

(** ** A parent and its steps never compete *)

(** Workflow parents have a semaphore of their own: whatever kinds are
    registered, a job that is not a parent, such as the steps a parent waits for,
    never takes a slot from the parents' semaphore, so waiting parents cannot
    starve the steps they wait for. All heavy steps share one semaphore. *)
Theorem parents_have_own_slots r parent child :
  workflowParent (jobKindTraits r parent) = true → serial_trait (jobKindTraits r parent) = false →
  workflowParent (jobKindTraits r child) = false →
  class_of r parent ≠ class_of r child ∧
  (serial_trait (jobKindTraits r child) = false → heavy (jobKindTraits r child) = true →
   class_of r child = "heavy").
Proof.
  intros Hp Hs Hc. unfold class_of. rewrite workflow_key by done. split.
  - intros Heq. by apply (step_key r child).
  - intros Hsc Hh. unfold concurrencyClass. by rewrite Hsc, Hc, Hh.
Qed.

(** ** Examples *)

#[local] Existing Instance key_order.

Definition pending_rows : list (string * Job) :=
  [("j1", sample_job "sendNight" Pending None None); ("j2", sample_job "sendNight" Pending None None)].

Definition idle : Scheduler := MkScheduler [] [] [] false.

(** One free heavy slot: of two pending rows the first is handed over. *)
Lemma poll_within_free_slots_witness :
  ∃ new, immediate (poll_select full_registry (λ _, Some 1%Z) pending_rows idle) = new ∧ NoDup new.*1.
Proof.
  destruct (poll_within_free_slots full_registry (λ _, Some 1%Z) pending_rows idle eq_refl) as (new & H1 & H2 & _).
  exists new. split; [exact H1|exact H2].
Defined.

Example one_of_two : immediate (poll_select full_registry (λ _, Some 1%Z) pending_rows idle) = [("j1", "sendNight")].
Proof. vm_compute. reflexivity. Qed.

Definition silent_job : Job :=
  patch_job [SetHeartbeatAt (Some (-100000)%Z)] (sample_job "sendNight" Running (Some "w") None).

Lemma reclaim_only_silent_witness :
  ∃ j', jobs (reclaimExpiredLeases (sample_env "a") (one_job_db silent_job)).2 !! "job-1" = Some j' ∧
        silent (sample_env "a") silent_job ∧ j_status j' = Pending ∧ j_leaseOwner j' = None.
Proof.
  assert (jobs (one_job_db silent_job) !! "job-1" = Some silent_job) as Hj by reflexivity.
  destruct (reclaim_only_silent (sample_env "a") (one_job_db silent_job)
    (reclaimExpiredLeases (sample_env "a") (one_job_db silent_job)).1 _ (surjective_pairing _) "job-1")
    as [H|(j & j' & H1 & H2 & H3 & H4 & H5 & _)].
  - apply (f_equal (fmap j_status)) in H. vm_compute in H. discriminate H.
  - rewrite Hj in H1. injection H1 as <-. exists j'. split_and!; [exact H4|exact H3| |exact H5].
    apply (f_equal (fmap j_status)) in H4. vm_compute in H4. injection H4 as H4. symmetry. exact H4.
Defined.

Example silent_requeued :
  (λ j, (j_status j, j_attempt j)) <$>
    jobs (reclaimExpiredLeases (sample_env "a") (one_job_db silent_job)).2 !! "job-1" = Some (Pending, Some 2%Z).
Proof. vm_compute. reflexivity. Qed.

Lemma reclaim_respects_heartbeat_witness :
  ∃ j, jobs (one_job_db silent_job) !! "job-1" = Some j ∧ j_heartbeatAt j = j_heartbeatAt silent_job.
Proof.
  destruct (reclaim_respects_heartbeat (sample_env "a") "job-1" silent_job (one_job_db silent_job)
    (reclaim_row (sample_env "a") ("job-1", silent_job) (one_job_db silent_job)).1 _ (surjective_pairing _))
    as (j & H1 & _ & _ & H2).
  - intros H. apply (f_equal (λ d, j_status <$> jobs d !! "job-1")) in H. vm_compute in H. discriminate H.
  - exists j. split; assumption.
Defined.

Lemma parents_have_own_slots_witness :
  class_of full_registry "issueFieldPredicateAttestation" ≠ class_of full_registry "fieldAnchorRoot".
Proof.
  apply (parents_have_own_slots full_registry "issueFieldPredicateAttestation" "fieldAnchorRoot"); vm_compute; reflexivity.
Defined.
