(* ===== verification/ChainOutcome.v ===== *)
(** What the indexer says about a submitted transaction
    (srv/submission/chain-outcome-confirmer.ts, srv/submission/submit-intent.ts,
    srv/utils/indexer-graphql.ts: indexerTimestampMs). *)
From S2P Require Import Prelude Json Numbers.

Local Open Scope string_scope.

Inductive OutcomeStatus := OutSuccess | OutFailure.
#[export] Instance OutcomeStatus_eq_dec : EqDecision OutcomeStatus.
Proof. solve_decision. Defined.

Record ChainOutcome := MkOutcome {
  o_status : OutcomeStatus; o_blockHeight : Z; o_blockHash : option string;
  o_indexerTxHash : option string; o_result : option string; o_failedSegments : option (list Z) }.

(** [ChainOutcome | ChainAbsent | null]; [asOfMs] is the indexer's block time. *)
Inductive ChainLookup := LookupOutcome (o : ChainOutcome) | LookupAbsent (asOfMs : option Z) | LookupNull.

Definition mapIndexerStatus (status : string) : option OutcomeStatus :=
  if bool_decide (status = "SUCCESS") then Some OutSuccess
  else if bool_decide (status = "FAILURE") || bool_decide (status = "PARTIAL_SUCCESS") then Some OutFailure
  else None.

(** ** Numbers out of JSON *)

(** [Number.isSafeInteger(n)] of a digit string's value; the conversion to a
    double rounds above [MAX_SAFE_INTEGER] but never to a safe integer. *)
Definition nonNegativeInteger (raw : option json) : option Z :=
  match raw with
  | Some (JInt n) => if bool_decide (0 ≤ n)%Z then Some n else None
  | Some (JStr s) =>
      n ← parse_digits (trim s); if bool_decide (n ≤ MAX_SAFE_INTEGER)%Z then Some n else None
  | _ => None
  end.

(** A block timestamp in ms: values below 1e12 are seconds. The indexer sends
    an integer or a string of digits; a fractional number is not modelled. *)
Definition indexerTimestampMs (raw : option json) : option Z :=
  let n := match raw with
           | Some (JInt n) => Some n
           | Some (JStr s) => parse_digits (trim s)
           | _ => None
           end in
  match n with
  | Some n => if bool_decide (n ≤ 0)%Z then None
              else Some (if bool_decide (1000000000000 ≤ n)%Z then n else n * 1000)%Z
  | None => None
  end.

(** ** The lookup *)

Record IndexedTxSlice := MkSlice {
  sl_status : string; sl_hash : option string; sl_blockHash : option string;
  sl_blockHeight : Z; sl_failedSegments : list Z }.

Inductive Lookup :=
| NotPresent (asOfMs : option Z) (keyInvalid : bool)
| Present (slice : option IndexedTxSlice).

(** [data?.a?.b] *)
Definition field2 (a b : string) (v : json) : option json := json_get a v ≫= json_get b.

Definition as_string (v : option json) : option string :=
  match v with Some (JStr s) => Some s | _ => None end.

(** [transactions?.[0]] *)
Definition first_elem (v : option json) : option json :=
  match v with Some (JArr (x :: _)) => Some x | _ => None end.

(** [typeof tx === 'object'] of a truthy value. *)
Definition is_object (v : json) : bool :=
  match v with JObj _ | JArr _ => true | _ => false end.

(** [segments.filter(s => s?.success === false).map(s => Number(s.id)).filter(Number.isInteger)]:
    [Number] of an integer, of a string of digits, of null, false and true. *)
Definition number_of (v : option json) : option Z :=
  match v with
  | Some (JInt n) => Some n
  | Some (JStr s) => if bool_decide (trim s = EmptyString) then Some 0%Z else parse_digits (trim s)
  | Some JNull | Some (JBool false) => Some 0%Z
  | Some (JBool true) => Some 1%Z
  | _ => None
  end.

Definition failed_segments (v : option json) : list Z :=
  match v with
  | Some (JArr l) =>
      omap (λ s, match json_get "success" s with
                 | Some (JBool false) => number_of (json_get "id" s)
                 | _ => None
                 end) l
  | _ => []
  end.

(** Reading one answer of the indexer ([data] is the query's data). *)
Definition lookup_answer (data : json) : Lookup :=
  match first_elem (json_get "transactions" data) with
  | Some tx =>
      if negb (is_object tx) then
        NotPresent (indexerTimestampMs (field2 "block" "timestamp" data)) false
      else
      match field2 "transactionResult" "status" tx with
      | Some (JStr status) =>
          match nonNegativeInteger (field2 "block" "height" tx) with
          | Some height =>
              Present (Some (MkSlice status (as_string (json_get "hash" tx))
                               (as_string (field2 "block" "hash" tx)) height
                               (failed_segments (field2 "transactionResult" "segments" tx))))
          | None => Present None
          end
      | _ => Present None
      end
  | None => NotPresent (indexerTimestampMs (field2 "block" "timestamp" data)) false
  end.

(** [messages[0]] of an IndexerQueryError is the exception's message here. *)
Definition key_invalid_error (e : exn) : bool :=
  bool_decide (ex_name e = "IndexerQueryError") &&
  (includes_ci "invalid transaction hash" (ex_msg e) ||
   includes_ci "invalid transaction identifier" (ex_msg e) ||
   includes_ci "cannot convert" (ex_msg e)).

Definition outcomeOf (slice : option IndexedTxSlice) : ChainLookup :=
  match slice with
  | None => LookupNull
  | Some s =>
      match mapIndexerStatus (sl_status s) with
      | None => LookupNull
      | Some st => LookupOutcome (MkOutcome st (sl_blockHeight s) (sl_blockHash s) (sl_hash s)
                                    (Some (sl_status s)) (Some (sl_failedSegments s)))
      end
  end.

Inductive OffsetKind := ByIdentifier | ByHash.

Definition min_list (l : list Z) : option Z :=
  match l with [] => None | x :: l' => Some (foldl Z.min x l') end.

(** The asOfMs of an absence: the older of the answers' block times, none when a
    time is missing or no lookup was well-formed. *)
Definition absent_as_of (tips : list (option Z)) : option Z :=
  match tips with
  | [] => None
  | _ => if bool_decide (None ∈ tips) then None else min_list (omap id tips)
  end.

Section Confirmer.
(** The indexer's GraphQL endpoint: its answer to the status query at an
    offset, or the error the request ends with (network, HTTP, GraphQL). *)
Variable indexerQuery : OffsetKind → string → outcome json.

Definition lookup (k : OffsetKind) (txHash : string) : outcome Lookup :=
  match indexerQuery k txHash with
  | Ret data => Ret (lookup_answer data)
  | Throw e => if key_invalid_error e then Ret (NotPresent None true) else Throw e
  end.

Definition tip_of (l : Lookup) : list (option Z) :=
  match l with NotPresent t false => [t] | _ => [] end.

(** The confirmer [createHttpTxConfirmer] returns. *)
Definition confirmTx (txHash : string) : outcome ChainLookup :=
  match lookup ByIdentifier txHash with
  | Throw e => Throw e
  | Ret (Present slice) => Ret (outcomeOf slice)
  | Ret byId =>
      match lookup ByHash txHash with
      | Throw e => Throw e
      | Ret (Present slice) => Ret (outcomeOf slice)
      | Ret byHash => Ret (LookupAbsent (absent_as_of (tip_of byId ++ tip_of byHash)))
      end
  end.
End Confirmer.

(** ** The submit intent *)

(** A row's [submitIntentData]: missing or malformed data, or anything but an
    object, reads as no coordinates. *)
Definition parseSubmitIntent (data : option json_text) : json :=
  match data with
  | Some (Text (JObj fs)) => JObj fs
  | _ => JObj []
  end.

(** ** Facts *)

Lemma min_list_le l x m : min_list l = Some m → x ∈ l → (m ≤ x)%Z.
Proof.
  destruct l as [|y l]; [done|]. simpl. intros [= <-].
  assert (∀ l y, (foldl Z.min y l ≤ y)%Z ∧ ∀ x, x ∈ l → (foldl Z.min y l ≤ x)%Z) as Hf.
  { clear. intros l. induction l as [|z l IH]; intros y; simpl; [split; [lia|set_solver]|].
    destruct (IH (Z.min y z)) as [H1 H2]. split; [lia|].
    intros x [->|Hx]%elem_of_cons; [lia|auto]. }
  destruct (Hf l y) as [H1 H2]. intros [->|Hx]%elem_of_cons; auto.
Qed.

Lemma absent_as_of_le tips t m :
  absent_as_of tips = Some m → t ∈ tips → ∃ x, t = Some x ∧ (m ≤ x)%Z.
Proof.
  unfold absent_as_of. destruct tips as [|t0 tips']; [done|]. case_bool_decide as Hn; [done|].
  intros Hm Ht. destruct t as [x|]; [|done]. exists x. split; [done|].
  eapply min_list_le; [done|]. apply list_elem_of_omap. by exists (Some x).
Qed.

(** A settled outcome comes from a status the indexer names as final and a
    block height: nothing else is ever read as success or failure. *)
Lemma outcomeOf_outcome s o :
  outcomeOf s = LookupOutcome o →
  ∃ sl, s = Some sl ∧ mapIndexerStatus (sl_status sl) = Some (o_status o) ∧
        o_blockHeight o = sl_blockHeight sl.
Proof.
  destruct s as [sl|]; simpl; [|done]. destruct (mapIndexerStatus (sl_status sl)) eqn:E; [|done].
  intros [= <-]. simpl. eauto.
Qed.

Lemma nonNegativeInteger_bound raw n : nonNegativeInteger raw = Some n → (0 ≤ n)%Z.
Proof.
  assert (Hd : ∀ s acc v, (0 ≤ acc)%Z → digits_val acc s = Some v → (0 ≤ v)%Z).
  { intros s. induction s as [|a s IH]; intros acc v Hacc; simpl; [intros; by simplify_eq|].
    destruct (digit_val a) as [x|] eqn:E; simpl; [|done]. apply IH.
    unfold digit_val in E. case_match eqn:Hb; [|done]. simplify_eq. lia. }
  destruct raw as [[]|]; simpl; try done.
  - case_bool_decide; intros; by simplify_eq.
  - intros H. destruct (parse_digits (trim s)) as [v|] eqn:E; simpl in H; [|done].
    case_bool_decide; simplify_eq. unfold parse_digits in E. case_bool_decide; [done|]. by eapply Hd.
Qed.

(** ** What an answer of the confirmer rests on *)

Section ConfirmerFacts.
Variable indexerQuery : OffsetKind → string → outcome json.

(** The indexer answered a query for the hash with this transaction. *)
Definition indexer_says (txHash : string) (sl : IndexedTxSlice) : Prop :=
  ∃ k data, indexerQuery k txHash = Ret data ∧ lookup_answer data = Present (Some sl).

Lemma lookup_present k txHash s :
  lookup indexerQuery k txHash = Ret (Present s) → ∃ data, indexerQuery k txHash = Ret data ∧ lookup_answer data = Present s.
Proof.
  unfold lookup. destruct (indexerQuery k txHash) as [data|e]; [|by destruct (key_invalid_error e)].
  intros [= H]. eauto.
Qed.

Lemma confirmTx_outcome txHash o :
  confirmTx indexerQuery txHash = Ret (LookupOutcome o) →
  ∃ sl, indexer_says txHash sl ∧ mapIndexerStatus (sl_status sl) = Some (o_status o) ∧
        o_blockHeight o = sl_blockHeight sl.
Proof.
  unfold confirmTx. intros H.
  assert (∀ k s, lookup indexerQuery k txHash = Ret (Present s) → outcomeOf s = LookupOutcome o →
    ∃ sl, indexer_says txHash sl ∧ mapIndexerStatus (sl_status sl) = Some (o_status o) ∧ o_blockHeight o = sl_blockHeight sl) as Hk.
  { intros k s Hl Ho. apply outcomeOf_outcome in Ho as (sl & -> & Hm & Hh). apply lookup_present in Hl as (data & Hq & Ha).
    exists sl. split_and!; [|done|done]. exists k, data. done. }
  destruct (lookup indexerQuery ByIdentifier txHash) as [[t b|s]|x] eqn:E1; simplify_eq; [|naive_solver].
  destruct (lookup indexerQuery ByHash txHash) as [[t' b'|s]|x] eqn:E2; simplify_eq. naive_solver.
Qed.

Lemma lookup_not_present k txHash t b :
  lookup indexerQuery k txHash = Ret (NotPresent t b) →
  (∃ data, indexerQuery k txHash = Ret data ∧ lookup_answer data = NotPresent t false ∧ b = false) ∨
  (∃ e, indexerQuery k txHash = Throw e ∧ key_invalid_error e = true ∧ b = true).
Proof.
  unfold lookup. destruct (indexerQuery k txHash) as [data|e] eqn:Eq.
  - intros [= H]. left. exists data. unfold lookup_answer in *.
    destruct (first_elem _) as [tx|]; [|naive_solver]. destruct (is_object tx); [|naive_solver]. simpl in *.
    destruct (field2 _ _ tx) as [[]|]; try done. by destruct (nonNegativeInteger _).
  - destruct (key_invalid_error e) eqn:Ek; [|done]. intros [= <- <-]. right. eauto.
Qed.

(** The block time attached to an absence is never later than the time of
    any index state that was asked: when the confirmer reports a hash absent as
    of [m], each of the two lookups either found the key to be no valid key of
    its kind or was answered, without the transaction, by an index whose newest
    block is at [m] or later, and at least one was answered. *)
Theorem absence_is_as_of txHash m :
  confirmTx indexerQuery txHash = Ret (LookupAbsent (Some m)) →
  (∀ k, (∃ data t, indexerQuery k txHash = Ret data ∧ lookup_answer data = NotPresent (Some t) false ∧ (m ≤ t)%Z) ∨
        (∃ e, indexerQuery k txHash = Throw e ∧ key_invalid_error e = true)) ∧
  ∃ k data, indexerQuery k txHash = Ret data.
Proof.
  unfold confirmTx. intros H.
  destruct (lookup indexerQuery ByIdentifier txHash) as [[t1 b1|s]|x] eqn:E1; simplify_eq; [|by destruct s as [sl|]; simpl in H; repeat case_match].
  destruct (lookup indexerQuery ByHash txHash) as [[t2 b2|s]|x] eqn:E2; simplify_eq; [|by destruct s as [sl|]; simpl in H; repeat case_match].
  apply lookup_not_present in E1, E2.
  assert (∀ t, t ∈ (tip_of (NotPresent t1 b1) ++ tip_of (NotPresent t2 b2))%list → ∃ x, t = Some x ∧ (m ≤ x)%Z) as Htip
    by (intros t; by apply absent_as_of_le).
  split.
  - intros [].
    + destruct E1 as [(data & Hq & Ha & ->)|(e & Hq & Hk & ->)]; [left|right; eauto].
      destruct (Htip t1) as (x & -> & Hx); [simpl; set_solver|]. eauto.
    + destruct E2 as [(data & Hq & Ha & ->)|(e & Hq & Hk & ->)]; [left|right; eauto].
      destruct (Htip t2) as (x & -> & Hx); [simpl; set_solver|]. eauto.
  - destruct E1 as [(data & ? & _)|(e & _ & _ & ->)]; [eauto|].
    destruct E2 as [(data & ? & _)|(e2 & _ & _ & ->)]; [eauto|]. by simpl in H.
Qed.
End ConfirmerFacts.

(** The identifier query reaches an older replica than the hash query. *)
Definition two_replicas (k : OffsetKind) (_ : string) : outcome json :=
  Ret (JObj [("transactions", JArr []);
             ("block", JObj [("timestamp", JInt (match k with ByIdentifier => 1700000000 | ByHash => 1700000060 end))])]).

Lemma absence_is_as_of_witness :
  confirmTx two_replicas "aa" = Ret (LookupAbsent (Some 1700000000000%Z)) ∧ ∃ k data, two_replicas k "aa" = Ret data.
Proof.
  assert (confirmTx two_replicas "aa" = Ret (LookupAbsent (Some 1700000000000%Z))) as H by (vm_compute; reflexivity).
  split; [exact H|]. exact (proj2 (absence_is_as_of two_replicas "aa" 1700000000000 H)).
Defined.
