(* ===== verification/Reconciliation.v ===== *)
(** Settling jobs with an open outcome (srv/submission/job-reconciliation.ts,
    srv/submission/reorg-generation.ts, srv/sessions/deploy-refund.ts). *)
From S2P Require Import Prelude Db Json Retry Schema JobKinds JobStore Scheduler ChainOutcome.

Local Open Scope string_scope.

(** ** Recovery at startup *)

Definition session_job_dropped_message : string :=
  "Dropped on restart: this job only warms in-process session state, and the caller that requested it did not survive the restart. Call the action again if a warm session is still wanted.".
Definition before_execution_message : string :=
  "The process restarted before the job crossed the external-effect boundary. A new idempotency key may be used for an intentional retry.".
Definition before_broadcast_message : string :=
  "The process restarted before this job announced a transaction for broadcast (or after its last attempt was rejected); nothing of it is on chain. A new idempotency key may be used for an intentional retry.".
Definition restart_reconcile_message : string :=
  "Execution was interrupted after an external effect may have occurred. Verify submission/chain state before retrying.".

(** The five UPDATEs, as WHERE clause and SET clause, in the order they run. *)
Definition recover_stmts (r : Registry) (now : Z) : list ((string → Job → bool) * list job_set) :=
  [ (λ _ j, status_in [Pending; Running] j &&
            bool_decide (kind (j_spec j) ∈ kindsWithTrait r sessionBound_trait),
     ([SetStatus Failed; SetErrorCode (Some "PROCESS_RESTART_SESSION_JOB_DROPPED");
      SetErrorMessage (Some session_job_dropped_message); SetFinishedAt (Some now)] ++ release_lease)%list);
    (λ _ j, status_in [Running] j && bool_decide (is_Some (commandVersion (j_spec j))),
     ([SetStatus Pending; SetErrorCode None; SetErrorMessage None; SetStartedAt None] ++ release_lease)%list);
    (λ _ j, status_in [Pending; Running] j && bool_decide (commandVersion (j_spec j) = None),
     ([SetStatus Failed; SetErrorCode (Some "PROCESS_RESTART_BEFORE_EXECUTION");
      SetErrorMessage (Some before_execution_message); SetFinishedAt (Some now)])%list);
    (λ _ j, status_in [ExternalExecution] j && bool_decide (j_txHash j = None),
     ([SetStatus Failed; SetErrorCode (Some "PROCESS_RESTART_BEFORE_BROADCAST");
      SetErrorMessage (Some before_broadcast_message); SetFinishedAt (Some now)] ++ release_lease)%list);
    (λ _ j, status_in [ExternalExecution; Submitted] j,
     ([SetStatus ReconciliationRequired; SetErrorCode (Some "PROCESS_RESTART_RECONCILE");
      SetErrorMessage (Some restart_reconcile_message)] ++ release_lease)%list) ].

Fixpoint run_updates (e : Env) (o : string) (i n : nat)
    (l : list ((string → Job → bool) * list job_set)) : M Database unit :=
  match l with
  | [] => mret ()
  | (w, p) :: l' => _ ← stmt e o i n (update_jobs w p); run_updates e o i (S n) l'
  end.

Definition open_statuses : list JobStatus := [Pending; Running; ExternalExecution; Submitted].

(** Not a transaction: each UPDATE commits on its own, and a lock conflict runs
    the list again from the first one. *)
Definition recoverInterruptedJobs (e : Env) (r : Registry) : M Database nat :=
  d ← get;
  let count := length (sql_select_by_id (λ _ j, status_in open_statuses j) (jobs d)) in
  if bool_decide (count = 0) then mret 0
  else
    _ ← withLockContentionRetry (λ i,
          run_updates e "recoverInterruptedJobs" i 0 (recover_stmts r (clock e i)));
    mret count.

(** ** Paging *)

(** One page of the rows matching [w] after the cursor, in ID order; past the
    last row the scan wraps around. *)
Definition page_from (w : string → Job → bool) (after : option string) (t : gmap string Job) :
    list (string * Job) :=
  take SCAN_PAGE_SIZE
    (sql_select_by_id (λ k r, w k r && match after with
                                       | Some a => negb (String.leb k a) | None => true end) t).

Definition scanBackgroundJobPage (w : string → Job → bool) (cursor : option string)
    (t : gmap string Job) : list (string * Job) * option string :=
  let rows := page_from w cursor t in
  let rows := match rows, cursor with [], Some _ => page_from w None t | _, _ => rows end in
  (rows, fst <$> last rows).

(** ** The rollback counter *)

(** [Number(row?.reorgGeneration ?? 0)] *)
Definition generation_of (d : Database) : Z :=
  match reorgGeneration d with Some (Some n) => n | _ => 0 end.

Definition readReorgGeneration : M Database Z := λ d, (Ret (generation_of d), d).

Definition lockReorgGeneration : M Database Z := λ d,
  let d' := with_reorgGeneration ((λ g, Some (nullish g 0%Z)) <$> reorgGeneration d) d in
  (Ret (generation_of d'), d').

Definition bumpReorgGeneration : M Database Z := λ d,
  let d' := with_reorgGeneration ((λ g, Some (nullish g 0 + 1)%Z) <$> reorgGeneration d) d in
  (Ret (generation_of d'), d').

(** ** Deploy reservations *)

(** [deployRefund(grantId, count)] run: the counter never drops below zero. *)
Definition deployRefund (grant : string) (count : Z) : M Database nat := λ d,
  let '(t, n) := sql_update_key grant
                   (λ g, match g_deploysUsed g with Some used => bool_decide (count ≤ used)%Z | None => false end)
                   (λ g, patch_grant [GSetDeploysUsed ((λ used, used - count)%Z <$> g_deploysUsed g)] g)
                   (grants d) in
  (Ret n, with_grants t d).

(** [reservation?.grantId && Number.isInteger(reservation.count) && count > 0] *)
Definition reservation_of (coordinates : json) : option (string * Z) :=
  match json_get "deployReservation" coordinates with
  | Some res =>
      match json_get "grantId" res, json_get "count" res with
      | Some (JStr g), Some (JInt n) =>
          if negb (bool_decide (g = EmptyString)) && bool_decide (0 < n)%Z then Some (g, n) else None
      | _, _ => None
      end
  | None => None
  end.

Definition refund_reservation (coordinates : json) : M Database unit :=
  match reservation_of coordinates with
  | Some (g, n) => _ ← deployRefund g n; mret ()
  | None => mret ()
  end.

(** ** Evidence *)

Definition REJECTED_ATTEMPT_BOOKKEEPING_PENDING : string := "REJECTED_ATTEMPT_BOOKKEEPING_PENDING".
Definition BROADCAST_UNCONFIRMED : string := "BROADCAST_UNCONFIRMED".
Definition BROADCAST_NOT_INCLUDED : string := "BROADCAST_NOT_INCLUDED".
Definition LEGACY_BROADCAST_TTL_MS : Z := 60 * 60 * 1000.

Definition chainEvidencePatch (o : ChainOutcome) : list job_set :=
  [SetChainBlockHeight (Some (o_blockHeight o)); SetChainBlockHash (o_blockHash o);
   SetIndexerTxHash (o_indexerTxHash o)].

Definition chainEvidenceSubPatch (o : ChainOutcome) : list sub_set :=
  [SSetChainBlockHeight (Some (o_blockHeight o)); SSetChainBlockHash (o_blockHash o);
   SSetIndexerTxHash (o_indexerTxHash o)].

(** Whether the calls of a segment applied, as the indexer reports it. *)
Definition segment_applied (o : ChainOutcome) (segment : Z) : bool :=
  if bool_decide (o_result o = Some "SUCCESS") ||
     (bool_decide (o_result o = None) && bool_decide (o_status o = OutSuccess))
  then true
  else if bool_decide (o_result o = Some "PARTIAL_SUCCESS")
  then negb (bool_decide (segment ∈ nullish (o_failedSegments o) []))
  else false.

Definition segment_entry (o : ChainOutcome) (s : json) : option json :=
  match json_get "segment" s, json_get "calls" s with
  | Some (JInt n), Some (JArr calls) =>
      Some (JObj [("segment", JInt n);
                  ("calls", JArr (JStr ∘ json_to_string <$> calls));
                  ("applied", JBool (segment_applied o n))])
  | _, _ => None
  end.

Definition chainSegmentsOf (data : option json_text) (o : ChainOutcome) : option json :=
  match json_get "segments" (parseSubmitIntent data) with
  | Some (JArr (s :: l)) => Some (JArr (omap (segment_entry o) (s :: l)))
  | _ => None
  end.

Definition segments_patch (s : option json) : list job_set :=
  match s with Some v => [SetChainSegments (Some v)] | None => [] end.

Definition chainStatusOf (s : OutcomeStatus) : ChainStatus :=
  match s with OutSuccess => ChainSuccess | OutFailure => ChainFailure end.

Definition not_applied_message : string := "contract call did not apply (ledger result failure)".

(** The job's attempt row, if the SELECT finds one. *)
Section Settle.
Context `{ScanOrder}.

Definition attempt_row (submissionId txHash : option string) (t : gmap string Submission) :
    option (string * Submission) :=
  head (sql_select (attemptRowOf submissionId txHash) t).

Definition intent_of (sub : option (string * Submission)) : json :=
  parseSubmitIntent (sub ≫= λ s, s_submitIntentData s.2).

(** The instant the transaction's validity window ends, and whether it was
    recorded: the stored ttl, else the submit time plus one hour. *)
Definition broadcast_ttl (job : Job) (sub : option (string * Submission)) : option (Z * bool) :=
  let recorded := match json_get "ttl" (intent_of sub) with
                  | Some (JStr s) => dateParse s | _ => None end in
  let submittedAt := match sub with Some s => Some (s_submittedAt s.2) | None => j_submittedAt job end in
  match recorded, submittedAt with
  | Some t, _ => Some (t, true)
  | None, Some s => Some ((s + LEGACY_BROADCAST_TTL_MS)%Z, false)
  | None, None => None
  end.

Definition lost_message (job : Job) (tipMs ttlMs : Z) (recorded : bool) : string :=
  "Transaction " ++ nullish (j_txHash job) "null" ++ " was broadcast but never included: the indexer tip (" ++
  toISOString tipMs ++ ") is past its validity window (ttl " ++ toISOString ttlMs ++
  (if recorded then EmptyString else ", assumed from the submit time") ++
  ") and the indexer does not know it. Nothing of it is on chain; a new attempt needs a new idempotencyKey.".

(** [s ? x : y] on an optional string. *)
Definition truthy_str (s : option string) : bool :=
  match s with Some x => negb (bool_decide (x = EmptyString)) | None => false end.

Definition earlier_error (job : Job) : string :=
  if truthy_str (j_errorCode job) then
    " Earlier: " ++ nullish (j_errorCode job) EmptyString ++
    (if truthy_str (j_errorMessage job)
     then ": " ++ slice0 1000 (nullish (j_errorMessage job) EmptyString) else EmptyString)
  else EmptyString.

Definition lost_patch (e : Env) (job : Job) (tipMs ttlMs : Z) (recorded : bool) : list job_set :=
  [SetStatus Failed; SetChainStatus (Some ChainDropped); SetFinishedAt (Some (clock e 0));
   SetErrorCode (Some BROADCAST_NOT_INCLUDED);
   SetErrorMessage (Some (slice0 4000 (lost_message job tipMs ttlMs recorded ++ earlier_error job)))].

Definition sub_pending (s : Submission) : bool := bool_decide (s_status s = SubPending).

(** The transaction of finalizeLostBroadcast. *)
Definition finalizeLostTx (e : Env) (jobId : string) (job : Job) (sub : option (string * Submission))
    (tipMs ttlMs : Z) (recorded : bool) (generation : Z) : M Database nat :=
  g ← lockReorgGeneration;
  if negb (bool_decide (g = generation)) then mret 0 else
  affected ← update_job jobId (status_in [ReconciliationRequired]) (lost_patch e job tipMs ttlMs recorded);
  rowClosed ← match sub with
              | Some (sid, _) =>
                  if bool_decide (affected = 1) then
                    update_submission sid sub_pending
                      [SSetStatus SubFailed; SSetFinalizedAt (Some (clock e 0));
                       SSetErrorCode (Some BROADCAST_NOT_INCLUDED);
                       SSetErrorMessage (Some ("not included before ttl " ++ toISOString ttlMs))]
                  else mret 0
              | None => mret 0
              end;
  _ ← (if bool_decide (rowClosed = 1) then refund_reservation (intent_of sub) else mret ());
  mret affected.

Definition finalizeLostBroadcast (e : Env) (r : Registry) (row : string * Job) (tipMs : option Z)
    (generation : Z) : M Database nat :=
  let '(jobId, job) := row in
  match tipMs with
  | None => mret 0
  | Some tip =>
      if bool_decide (j_errorCode job = Some REJECTED_ATTEMPT_BOOKKEEPING_PENDING) ||
         workflowParent (jobKindTraits r (kind (j_spec job))) then mret 0 else
      d ← stmt e "finalizeLostBroadcast select" 0 0 get;
      let sub := attempt_row (j_submissionId job) (j_txHash job) (submissions d) in
      match broadcast_ttl job sub with
      | None => mret 0
      | Some (ttlMs, recorded) =>
          if bool_decide (tip ≤ ttlMs + broadcastExpiryMarginMs e)%Z then mret 0 else
          withLockContentionRetry (λ i, tx (stmt e "finalizeLostBroadcast" i 0
            (finalizeLostTx e jobId job sub tip ttlMs recorded generation)))
      end
  end.
End Settle.

(** ** Finishing a job from the indexer's answer *)

Inductive FromStatus := FromReconciliation | FromInFlight | FromSucceeded (chainStatusWas : option ChainStatus).

(** What a reconciliation finalizer is told. *)
Record ReconciliationEvidence := MkEvidence {
  ev_submissionId : option string; ev_txHash : string; ev_contractAddress : option string;
  ev_finalizedAt : option Z; ev_blockHeight : Z }.

Definition merge_objects (a b : json) : json :=
  match a, b with
  | JObj fa, JObj fb => JObj (foldl (λ m kv, map_set kv.1 kv.2 m) fa fb)
  | _, _ => a
  end.

Section Finalize.
Context `{ScanOrder}.

(** [runReconciliationFinalizer]: the finalizer registered for the job's kind
    and version, if any. It belongs to the executors (srv/submission/
    finalizers/reconciliation.ts) and runs inside the confirming transaction;
    it answers a result object, or nothing. *)
Variable finalizer_run : string * Job → ReconciliationEvidence → M Database (option json).

Definition canonical_result (job : Job) (sub : option (string * Submission)) : json :=
  let c := intent_of sub in
  let circuits := match json_get "circuits" c with
                  | Some (JArr (x :: l)) => JArr (x :: l)
                  | _ => match sub ≫= λ s, s_circuitName s.2 with
                         | Some n => if bool_decide (n = EmptyString) then JArr [] else JArr [JStr n]
                         | None => JArr []
                         end
                  end in
  let address := nullish (json_nullish (json_get "contractAddress" c)
                            (JStr <$> (sub ≫= λ s, s_contractAddress s.2))) (JStr EmptyString) in
  JObj ([("txHash", json_of_string (j_txHash job)); ("circuits", circuits);
         ("contractAddress", address)] ++
        (if truthy (json_get "note" c) then [("note", nullish (json_get "note" c) JNull)] else []) ++
        [("feeSponsor", nullish (json_nullish (json_get "feeSponsor" c) None) (JStr (sessionId (j_spec job))));
         ("reconciled", JBool true)])%list.

Definition terminal_from (f : FromStatus) : bool :=
  match f with FromSucceeded _ => false | _ => true end.

Definition execution_failed_message (job : Job) : string :=
  "Transaction " ++ nullish (j_txHash job) "null" ++
  " is on-chain but its contract call did not apply (ledger result failure)".

Definition finalize_patch (e : Env) (job : Job) (o : ChainOutcome) (f : FromStatus)
    (segments : option json) (result : json) : list job_set :=
  let now := clock e 0 in
  ((if terminal_from f then
      match o_status o with
      | OutSuccess =>
          [SetStatus Succeeded; SetChainStatus (Some ChainSuccess); SetChainFinalizedAt (Some now);
           SetErrorCode None; SetErrorMessage None; SetFinishedAt (Some now); SetResult (Some result)]
      | OutFailure =>
          [SetStatus Failed; SetChainStatus (Some ChainFailure); SetChainFinalizedAt (Some now);
           SetFinishedAt (Some now); SetErrorCode (Some "CHAIN_EXECUTION_FAILED");
           SetErrorMessage (Some (execution_failed_message job))]
      end
    else [SetChainStatus (Some (chainStatusOf (o_status o))); SetChainFinalizedAt (Some now)]) ++
   chainEvidencePatch o ++ segments_patch segments ++
   match f with FromInFlight => release_lease | _ => [] end)%list.

Definition finalize_where (e : Env) (f : FromStatus) (r : Job) : bool :=
  match f with
  | FromReconciliation => status_in [ReconciliationRequired] r
  | FromInFlight => held e r
  | FromSucceeded was => status_in [Succeeded] r && bool_decide (j_chainStatus r = was)
  end.

Definition finalize_sub_patch (e : Env) (o : ChainOutcome) : list sub_set :=
  ([SSetStatus (match o_status o with OutSuccess => SubFinalized | OutFailure => SubFailed end);
    SSetFinalizedAt (Some (clock e 0))] ++ chainEvidenceSubPatch o ++
   match o_status o with
   | OutFailure => [SSetErrorCode (Some "CHAIN_EXECUTION_FAILED"); SSetErrorMessage (Some not_applied_message)]
   | OutSuccess => []
   end)%list.

(** The transaction of finalizeIdentifierKeyedJob. *)
Definition finalizeTx (e : Env) (row : string * Job) (sub : option (string * Submission))
    (o : ChainOutcome) (f : FromStatus) (generation : Z) : M Database nat :=
  let '(jobId, job) := row in
  let canonical := canonical_result job sub in
  let evidence := MkEvidence (match sub with Some s => Some s.1 | None => j_submissionId job end)
                    (nullish (j_txHash job) EmptyString) (sub ≫= λ s, s_contractAddress s.2)
                    (sub ≫= λ s, s_finalizedAt s.2) (o_blockHeight o) in
  g ← lockReorgGeneration;
  if negb (bool_decide (g = generation)) then mret 0 else
  result ← match f, o_status o with
           | FromReconciliation, OutSuccess =>
               fin ← finalizer_run row evidence;
               mret (match fin with Some v => merge_objects canonical v | None => canonical end)
           | _, _ => mret canonical
           end;
  changed ← update_job jobId (finalize_where e f)
              (finalize_patch e job o f (chainSegmentsOf (sub ≫= λ s, s_submitIntentData s.2) o) result);
  _ ← match sub with
      | Some (sid, _) => if bool_decide (changed = 1)
                         then update_submission sid (λ _, true) (finalize_sub_patch e o) else mret 0
      | None => mret 0
      end;
  mret changed.

Definition finalizeIdentifierKeyedJob (e : Env) (row : string * Job) (o : ChainOutcome)
    (f : FromStatus) (generation : Z) : M Database nat :=
  d ← stmt e "finalizeIdentifierKeyedJob select" 0 0 get;
  let sub := attempt_row (j_submissionId row.2) (j_txHash row.2) (submissions d) in
  withLockContentionRetry (λ i, tx (stmt e "finalizeIdentifierKeyedJob" i 0
    (finalizeTx e row sub o f generation))).

(** ** Rejected attempts whose bookkeeping failed *)

Definition settle_where (r : Job) : bool :=
  status_in [ReconciliationRequired] r &&
  bool_decide (j_errorCode r = Some REJECTED_ATTEMPT_BOOKKEEPING_PENDING).

Definition settle_sub (job : Job) (d : Database) : option (string * Submission) :=
  if truthy_str (j_submissionId job) then
    let sid := nullish (j_submissionId job) EmptyString in (λ s, (sid, s)) <$> submissions d !! sid
  else if truthy_str (j_txHash job) then
    head (sql_select (λ _ s, bool_decide (s_txHash s = j_txHash job) && sub_pending s) (submissions d))
  else None.

Definition settle_patch (e : Env) (job : Job) : list job_set :=
  [SetStatus Failed; SetTxHash None; SetChainStatus None; SetFinishedAt (Some (clock e 0));
   SetErrorCode (Some "SPONSOR_ATTEMPT_REJECTED");
   SetErrorMessage (Some ("The sponsoring attempt was rejected before inclusion (nothing is on chain) and its bookkeeping was settled by the reconciler. " ++
      slice0 1500 (nullish (j_errorMessage job) EmptyString)))].

Definition settleTx (e : Env) (row : string * Job) (sub : option (string * Submission)) : M Database nat :=
  rowClosed ← match sub with
              | Some (sid, _) =>
                  update_submission sid sub_pending
                    [SSetStatus SubFailed; SSetErrorCode (Some "REJECTED");
                     SSetErrorMessage (Some "rejected before inclusion; bookkeeping settled by the reconciler")]
              | None => mret 0
              end;
  _ ← (if bool_decide (rowClosed = 1) then refund_reservation (intent_of sub) else mret ());
  update_job row.1 settle_where (settle_patch e row.2).

(** The loop body; an error skips the job until the next tick. *)
Definition settle_row (e : Env) (row : string * Job) : M Database nat :=
  try_catch
    (d ← stmt e ("settle select " ++ row.1) 0 0 get;
     affected ← withLockContentionRetry (λ i, tx (stmt e ("settleRejectedSponsorAttempt " ++ row.1) i 0
                  (settleTx e row (settle_sub row.2 d))));
     mret (if bool_decide (affected = 1) then 1 else 0))
    (λ _, mret 0).

Fixpoint sum_rows (f : string * Job → M Database nat) (acc : nat) (rows : list (string * Job)) : M Database nat :=
  match rows with
  | [] => mret acc
  | row :: rows' => n ← f row; sum_rows f (acc + n) rows'
  end.

Definition settleRejectedSponsorAttempts (e : Env) (cursor : option string) : M Database (nat * option string) :=
  d ← stmt e "settleRejectedSponsorAttempts" 0 0 get;
  let '(rows, cursor') := scanBackgroundJobPage (λ _ r, settle_where r) cursor (jobs d) in
  settled ← sum_rows (settle_row e) 0 rows;
  mret (settled, cursor').

(** ** Parked workflow parents *)

Definition children_of (parent : string) (t : gmap string Job) : list (string * Job) :=
  sql_select (λ _ r, bool_decide (parentJobId (j_spec r) = Some parent)) t.

Definition requeue_parent_patch : list job_set :=
  ([SetStatus Pending; SetErrorCode None; SetErrorMessage None; SetStartedAt None] ++ release_lease)%list.

Definition fail_parent_patch (e : Env) (failed : string * Job) (children : list (string * Job)) : list job_set :=
  [SetStatus Failed; SetErrorCode (Some "CHILD_FAILED"); SetFinishedAt (Some (clock e 0));
   SetErrorMessage (Some (childFailedMessage failed children))].

Definition all_succeeded (children : list (string * Job)) : bool :=
  negb (bool_decide (children = [])) && forallb (λ c, status_in [Succeeded] c.2) children.

Definition first_failed (children : list (string * Job)) : option (string * Job) :=
  head (filter (λ c : string * Job, j_status c.2 = Failed) children).

Definition reconcile_parent (e : Env) (row : string * Job) : M Database nat :=
  d ← stmt e ("children " ++ row.1) 0 0 get;
  let children := children_of row.1 (jobs d) in
  if all_succeeded children then
    withLockContentionRetry (λ i, stmt e ("requeueReconciledParent " ++ row.1) i 0
      (update_job row.1 (status_in [ReconciliationRequired]) requeue_parent_patch))
  else
    match first_failed children with
    | Some failed =>
        withLockContentionRetry (λ i, stmt e ("failReconciledParent " ++ row.1) i 0
          (update_job row.1 (status_in [ReconciliationRequired]) (fail_parent_patch e failed children)))
    | None => mret 0
    end.

Definition parked_parent (r : Registry) (_ : string) (j : Job) : bool :=
  status_in [ReconciliationRequired] j && bool_decide (kind (j_spec j) ∈ kindsWithTrait r workflowParent).

Definition reconcileBackgroundJobs (e : Env) (r : Registry) (cursor : option string) :
    M Database (nat * option string) :=
  d ← stmt e "reconcileBackgroundJobs" 0 0 get;
  let '(rows, cursor') := scanBackgroundJobPage (parked_parent r) cursor (jobs d) in
  resolved ← sum_rows (reconcile_parent e) 0 rows;
  mret (resolved, cursor').

(** ** Chain status of succeeded parents *)

Definition aggregate_status (children : list (string * Job)) : ChainStatus :=
  if existsb (λ c, bool_decide (j_chainStatus c.2 = Some ChainFailure)) children then ChainFailure
  else if forallb (λ c, bool_decide (j_chainStatus c.2 = Some ChainSuccess)) children then ChainSuccess
  else ChainPending.

Definition refresh_parent (e : Env) (row : string * Job) : M Database nat :=
  d ← stmt e ("children " ++ row.1) 0 0 get;
  let children := children_of row.1 (jobs d) in
  match children with
  | [] => mret 0
  | _ =>
      let aggregate := aggregate_status children in
      if bool_decide (j_chainStatus row.2 = Some aggregate) then mret 0 else
      withLockContentionRetry (λ i, stmt e ("refreshParentChainOutcome " ++ row.1) i 0
        (update_job row.1 (status_in [Succeeded])
           [SetChainStatus (Some aggregate);
            SetChainFinalizedAt (if bool_decide (aggregate = ChainPending) then None else Some (clock e i))]))
  end.

Definition succeeded_parent (r : Registry) (cs : option ChainStatus) (_ : string) (j : Job) : bool :=
  status_in [Succeeded] j && bool_decide (kind (j_spec j) ∈ kindsWithTrait r workflowParent) &&
  bool_decide (j_chainStatus j = cs).

Definition refreshSucceededChainOutcomes (e : Env) (r : Registry) (pendingCursor legacyCursor : option string) :
    M Database (nat * (option string * option string)) :=
  d ← stmt e "refreshSucceededChainOutcomes" 0 0 get;
  let '(rows1, c1) := scanBackgroundJobPage (succeeded_parent r (Some ChainPending)) pendingCursor (jobs d) in
  let '(rows2, c2) := scanBackgroundJobPage (succeeded_parent r None) legacyCursor (jobs d) in
  updated ← sum_rows (refresh_parent e) 0 (rows1 ++ rows2)%list;
  mret (updated, (c1, c2)).

(** ** The confirm pass *)

Variable confirmer : string → outcome ChainLookup.

Definition has_hash (j : Job) : bool := bool_decide (is_Some (j_txHash j)).

(** A parked job: success and failure settle it; only a clear absence past the
    validity window fails it. Errors defer it. *)
Definition confirm_parked (e : Env) (r : Registry) (generation : Z) (row : string * Job) : M Database nat :=
  match confirmer (nullish (j_txHash row.2) EmptyString) with
  | Throw _ => mret 0
  | Ret (LookupOutcome o) =>
      try_catch (finalizeIdentifierKeyedJob e row o FromReconciliation generation) (λ _, mret 0)
  | Ret (LookupAbsent asOfMs) =>
      try_catch (finalizeLostBroadcast e r row asOfMs generation) (λ _, mret 0)
  | Ret LookupNull => mret 0
  end.

Definition confirm_patch (e : Env) (o : ChainOutcome) (segments : option json) : list job_set :=
  ([SetChainStatus (Some (chainStatusOf (o_status o))); SetChainFinalizedAt (Some (clock e 0))] ++
   chainEvidencePatch o ++ segments_patch segments)%list.

Definition included_attempt (job : Job) : string → Submission → bool :=
  λ k s, (if truthy_str (j_submissionId job) then bool_decide (Some k = j_submissionId job)
          else bool_decide (s_txHash s = j_txHash job)) &&
         bool_decide (s_status s ∈ [SubPending; SubIncluded]).

Definition confirmTxOf (e : Env) (row : string * Job) (sub : option (string * Submission))
    (o : ChainOutcome) (generation : Z) : M Database nat :=
  g ← lockReorgGeneration;
  if negb (bool_decide (g = generation)) then mret 0 else
  affected ← update_job row.1 (λ r, status_in [Succeeded] r && bool_decide (j_chainStatus r = j_chainStatus row.2))
               (confirm_patch e o (chainSegmentsOf (sub ≫= λ s, s_submitIntentData s.2) o));
  _ ← (if bool_decide (affected = 1)
       then update_submissions (included_attempt row.2) (finalize_sub_patch e o) else mret 0);
  mret affected.

Definition confirm_succeeded (e : Env) (r : Registry) (generation : Z) (row : string * Job) : M Database nat :=
  match confirmer (nullish (j_txHash row.2) EmptyString) with
  | Throw _ => mret 0
  | Ret (LookupOutcome o) =>
      try_catch
        (if identifierKeyed (jobKindTraits r (kind (j_spec row.2)))
         then finalizeIdentifierKeyedJob e row o (FromSucceeded (j_chainStatus row.2)) generation
         else
           d ← stmt e ("attempt " ++ row.1) 0 0 get;
           withLockContentionRetry (λ i, tx (stmt e ("confirmChainOutcome " ++ row.1) i 0
             (confirmTxOf e row (attempt_row (j_submissionId row.2) (j_txHash row.2) (submissions d)) o generation))))
        (λ _, mret 0)
  | Ret _ => mret 0
  end.

Definition succeeded_with_hash (cs : option ChainStatus) (_ : string) (j : Job) : bool :=
  status_in [Succeeded] j && has_hash j && bool_decide (j_chainStatus j = cs).
Definition parked_with_hash (_ : string) (j : Job) : bool :=
  status_in [ReconciliationRequired] j && has_hash j.

Record ConfirmCursors := MkConfirmCursors {
  cc_pending : option string; cc_legacy : option string; cc_reconcile : option string }.

(** The parked jobs one after the other, then the succeeded ones. The latter
    run up to eight at a time in the program; each is one transaction, taken
    here in list order. *)
Definition confirmChainOutcomesViaIndexer (e : Env) (r : Registry) (c : ConfirmCursors) :
    M Database (nat * ConfirmCursors) :=
  d ← stmt e "confirmChainOutcomesViaIndexer" 0 0 get;
  let '(rows1, c1) := scanBackgroundJobPage (succeeded_with_hash (Some ChainPending)) (cc_pending c) (jobs d) in
  let '(rows2, c2) := scanBackgroundJobPage (succeeded_with_hash None) (cc_legacy c) (jobs d) in
  let '(rows3, c3) := scanBackgroundJobPage parked_with_hash (cc_reconcile c) (jobs d) in
  generation1 ← readReorgGeneration;
  n1 ← sum_rows (confirm_parked e r generation1) 0 rows3;
  generation2 ← readReorgGeneration;
  n2 ← sum_rows (confirm_succeeded e r generation2) n1
         (filter (λ row : string * Job, workflowParent (jobKindTraits r (kind (j_spec row.2))) = false)
            (rows1 ++ rows2)%list);
  mret (n2, MkConfirmCursors c1 c2 c3).

(** ** A failure the worker saw on chain *)

Definition unconfirmed_message (txHash : string) (blockHeight : option Z) : string :=
  "Transaction " ++ txHash ++ " is on-chain and its contract call did not apply" ++
  (match blockHeight with Some h => " (worker saw block " ++ pretty h ++ ")" | None => EmptyString end) ++
  "; the indexer confirmer finalizes it with generation-checked coordinates".

Definition markChainFailureAfterBroadcast (e : Env) (row : string * Job) (carried : option Z) : M Database unit :=
  let txHash := nullish (j_txHash row.2) EmptyString in
  generation ← readReorgGeneration;
  match confirmer txHash with
  | Ret (LookupOutcome o) =>
      try_catch
        (affected ← finalizeIdentifierKeyedJob e row o FromInFlight generation;
         if bool_decide (affected = 1) then mret () else
         markReconciliationRequired e row.1
           (MkClassification "CHAIN_EXECUTION_FAILED_UNCONFIRMED"
              ("Transaction " ++ txHash ++ ": terminal chain-failure write refused (lease or reorg generation changed); the reconciliation pass finalizes it")))
        (λ _, mret ())
  | _ => markReconciliationRequired e row.1
           (MkClassification "CHAIN_EXECUTION_FAILED_UNCONFIRMED" (unconfirmed_message txHash carried))
  end.
End Finalize.
