(* ===== verification/Paging.v ===== *)
(** Fairness of the bounded scans: no row is passed over for ever. *)
From Stdlib Require Import ZifyNat.
From S2P Require Import Prelude Db Json Retry Schema JobKinds JobStore Scheduler ChainOutcome.
From S2P Require Import Reconciliation.

Local Ltac Zify.zify_post_hook ::= Z.div_mod_to_equations.

Section Paging.
Context (w : string → Job → bool) (t : gmap string Job).

Let L : list (string * Job) := sql_select_by_id w t.

(** [n] scans in a row, each from where the one before stopped. *)
Fixpoint scan_many (n : nat) (cursor : option string) : list (string * Job) :=
  match n with
  | O => []
  | S n' => let '(rows, cursor') := scanBackgroundJobPage w cursor t in rows ++ scan_many n' cursor'
  end.

(** How many matching rows lie at or before the cursor. *)
Definition pos (a : string) : nat := length (filter (λ kr : string * Job, String.leb kr.1 a = true) L).
Definition cpos (c : option string) : nat := match c with None => 0 | Some a => pos a end.

Lemma leb_trans_le a (x y : string * Job) : key_le x y → String.leb y.1 a = true → String.leb x.1 a = true.
Proof.
  unfold key_le. intros H1 H2. apply Is_true_true. apply Is_true_true in H2. change (String.le x.1 a).
  transitivity y.1; done.
Qed.

Lemma filter_after a (l : list (string * Job)) :
  StronglySorted key_le l →
  filter (λ kr : string * Job, negb (String.leb kr.1 a) = true) l =
  drop (length (filter (λ kr : string * Job, String.leb kr.1 a = true) l)) l.
Proof.
  induction 1 as [|x l Hs IH Hall]; [done|]. rewrite !filter_cons.
  destruct (String.leb x.1 a) eqn:E; simpl; [done|].
  rewrite IH. rewrite (list_filter_none (λ kr : string * Job, String.leb kr.1 a = true)); [done|].
  intros y Hin Hy. eapply Forall_forall in Hall; [|done]. by rewrite (leb_trans_le a x y Hall Hy) in E.
Qed.

Lemma page_from_spec c : page_from w c t = take SCAN_PAGE_SIZE (drop (cpos c) L).
Proof.
  unfold page_from. f_equal. destruct c as [a|]; simpl.
  - rewrite (sql_select_and w (λ k, negb (String.leb k a))). apply filter_after, sql_select_sorted.
  - rewrite drop_0. unfold L, sql_select_by_id. f_equal. apply list_filter_iff.
    intros [k r]. simpl. by rewrite andb_true_r.
Qed.

Lemma pos_lookup i k j : L !! i = Some (k, j) → pos k = S i.
Proof.
  intros Hi. unfold pos. pose proof (sql_select_sorted w t) as Hs. pose proof (sql_select_NoDup w t) as Hnd. fold L in Hs, Hnd.
  rewrite <- (take_drop_middle L i (k, j) Hi), filter_app, filter_cons, decide_True by (by apply Is_true_true, (reflexivity (R:=String.le))).
  rewrite <- (take_drop_middle L i (k, j) Hi) in Hs, Hnd.
  rewrite length_app. simpl.
  assert (filter (λ kr : string * Job, String.leb kr.1 k = true) (take i L) = take i L) as ->.
  { apply list_filter_all. intros y Hy. apply Is_true_true.
    apply (StronglySorted_app_1_elem_of key_le _ _ y (k, j) Hs Hy), list_elem_of_here. }
  assert (filter (λ kr : string * Job, String.leb kr.1 k = true) (drop (S i) L) = []) as ->.
  { apply list_filter_none. intros [k' j'] Hin Hle. simpl in Hle. apply Is_true_true in Hle.
    apply StronglySorted_app_1_r, StronglySorted_inv in Hs as [_ Hall].
    eapply Forall_forall in Hall; [|done]. unfold key_le in Hall. simpl in Hall.
    assert (k = k') as <- by (by apply (anti_symm String.le)).
    rewrite fmap_app in Hnd. apply NoDup_app in Hnd as (_ & _ & Hnd). apply NoDup_cons in Hnd as [Hn _].
    apply Hn, list_elem_of_fmap. by exists (k, j'). }
  simpl. rewrite length_take. apply lookup_lt_Some in Hi. lia.
Qed.

Lemma cpos_le c : cpos c ≤ length L.
Proof. destruct c as [a|]; simpl; [|lia]. apply length_filter. Qed.

(** Where a scan from [c] starts in the list of matching rows. *)
Definition start (c : option string) : nat := if decide (cpos c < length L) then cpos c else 0.

Lemma last_take_drop p : p < length L →
  cpos (fst <$> last (take SCAN_PAGE_SIZE (drop p L))) = min (p + SCAN_PAGE_SIZE) (length L).
Proof.
  intros Hp. rewrite last_lookup, length_take, length_drop.
  assert (SCAN_PAGE_SIZE = 100) as -> by done.
  rewrite lookup_take_lt by lia. rewrite lookup_drop.
  destruct (lookup_lt_is_Some_2 L (p + Nat.pred (min 100 (length L - p)))) as [[k j] Hkj]; [lia|].
  rewrite Hkj. simpl. rewrite (pos_lookup _ _ _ Hkj). lia.
Qed.

Lemma scan_spec c : 0 < length L →
  (scanBackgroundJobPage w c t).1 = take SCAN_PAGE_SIZE (drop (start c) L) ∧
  cpos (scanBackgroundJobPage w c t).2 = min (start c + SCAN_PAGE_SIZE) (length L).
Proof.
  intros HL. unfold scanBackgroundJobPage. rewrite !page_from_spec. unfold start.
  pose proof (cpos_le c) as Hle. assert (SCAN_PAGE_SIZE = 100) as Hsz by done.
  case_decide as Hlt.
  - destruct (take SCAN_PAGE_SIZE (drop (cpos c) L)) as [|x l] eqn:E.
    { apply (f_equal length) in E. rewrite length_take, length_drop, Hsz in E. cbn [length] in E. lia. }
    split; [done|]. rewrite <- E. cbn [snd]. rewrite <- (last_take_drop (cpos c)) by done. by rewrite E.
  - assert (cpos c = length L) as Heq by lia. destruct c as [a|]; [|simpl in Heq; lia].
    rewrite Heq, drop_all, take_nil. cbn [fst snd]. split; [done|]. by apply last_take_drop.
Qed.

Lemma scan_many_S n c :
  scan_many (S n) c = (scanBackgroundJobPage w c t).1 ++ scan_many n (scanBackgroundJobPage w c t).2.
Proof. simpl. by destruct (scanBackgroundJobPage w c t). Qed.

Lemma scan_many_mono x n m c : x ∈ scan_many n c → n ≤ m → x ∈ scan_many m c.
Proof.
  revert m c. induction n as [|n IH]; intros m c Hx Hm; [by apply not_elem_of_nil in Hx|].
  destruct m as [|m]; [lia|]. rewrite scan_many_S in *. apply elem_of_app in Hx as [Hx|Hx]; apply elem_of_app; [by left|right].
  apply IH; [done|lia].
Qed.

(** A row ahead of the start is met within the pages that reach it. *)
Lemma scan_ahead m c i x :
  L !! i = Some x → start c ≤ i → i < start c + SCAN_PAGE_SIZE * m → x ∈ scan_many m c.
Proof.
  revert c. induction m as [|m IH]; intros c Hi Hge Hlt; [lia|].
  pose proof (lookup_lt_Some _ _ _ Hi) as HiL. destruct (scan_spec c) as [H1 H2]; [lia|].
  assert (SCAN_PAGE_SIZE = 100) as Hsz by done. rewrite scan_many_S, H1. apply elem_of_app.
  destruct (decide (i < start c + SCAN_PAGE_SIZE)) as [Hin|Hout].
  - left. apply list_elem_of_lookup_2 with (i - start c). rewrite lookup_take_lt by lia. rewrite lookup_drop.
    by replace (start c + (i - start c)) with i by lia.
  - right. assert (start (scanBackgroundJobPage w c t).2 = start c + SCAN_PAGE_SIZE) as Hst.
    { unfold start at 1. rewrite H2, decide_True by lia. lia. }
    apply IH; [done|lia|lia].
Qed.

(** A row behind it is met after the scan wraps around. *)
Lemma scan_behind n m c i x :
  L !! i = Some x → i < SCAN_PAGE_SIZE * m → length L ≤ cpos c + SCAN_PAGE_SIZE * n → x ∈ scan_many (n + m) c.
Proof.
  revert c. induction n as [|n IH]; intros c Hi Hm Hn.
  - apply scan_ahead with i; [done| |]; unfold start; case_decide; try lia.
  - pose proof (lookup_lt_Some _ _ _ Hi) as HiL. destruct (scan_spec c) as [H1 H2]; [lia|].
    simpl plus. rewrite scan_many_S. apply elem_of_app.
    destruct (decide (cpos c < length L)) as [Hlt|Hge].
    + right. apply IH; [done|done|]. rewrite H2. unfold start. rewrite decide_True by done.
      assert (SCAN_PAGE_SIZE = 100) as Hsz by done. rewrite Hsz in *. lia.
    + apply elem_of_app. rewrite <- scan_many_S. apply scan_many_mono with m; [|lia].
      apply scan_ahead with i; [done| |]; unfold start; rewrite decide_False by lia; lia.
Qed.
End Paging.

(** C5. The reconcilers read bounded pages with a cursor that wraps around:
    wherever the cursor stands, every row that keeps matching is read within
    [N / 100 + 2] passes over [N] matching rows, so no parked job, rejected
    attempt or pending outcome is starved by the rows before it. *)
Theorem page_scan_is_fair w t cursor k j :
  t !! k = Some j → w k j = true →
  (k, j) ∈ scan_many w t (length (sql_select_by_id w t) / 100 + 2) cursor.
Proof.
  intros Hk Hw. assert ((k, j) ∈ sql_select_by_id w t) as Hin by (by apply elem_of_sql_select).
  apply list_elem_of_lookup in Hin as [i Hi]. pose proof (lookup_lt_Some _ _ _ Hi) as HiL.
  pose proof (cpos_le w t cursor) as Hle. set (N := length (sql_select_by_id w t)) in *.
  assert (SCAN_PAGE_SIZE = 100) as Hsz by done. destruct (decide (cpos w t cursor ≤ i)) as [Hge|Hlt].
  - apply scan_many_mono with ((i - cpos w t cursor) / 100 + 1); [|lia].
    apply scan_ahead with i; [done| |]; unfold start; rewrite decide_True, ?Hsz by (fold N; lia); lia.
  - apply scan_many_mono with ((N - cpos w t cursor) / 100 + 1 + (i / 100 + 1)); [|lia].
    apply scan_behind with i; [done|rewrite Hsz; lia|]. fold N. rewrite Hsz. lia.
Qed.

(** A wrapped scan: the cursor stands past the only row. *)
Lemma page_scan_is_fair_witness :
  ("job-1", sample_job "sendNight" ReconciliationRequired None None)%string ∈
  scan_many (λ _ r, status_in [ReconciliationRequired] r)
    (jobs (one_job_db (sample_job "sendNight" ReconciliationRequired None None))) 2 (Some "zzz"%string).
Proof.
  apply (page_scan_is_fair (λ _ r, status_in [ReconciliationRequired] r)
    (jobs (one_job_db (sample_job "sendNight" ReconciliationRequired None None))) (Some "zzz"%string)); vm_compute; reflexivity.
Defined.
