(* ===== verification/StartJob.v ===== *)
(** Admission of background jobs and workflow steps
    (srv/submission/background-jobs.ts, srv/utils/db-errors.ts). *)
From S2P Require Import Prelude Db Json Retry Schema JobKinds JobStore Scheduler Reconciliation.

Local Open Scope string_scope.

(** ** INSERT under the unique key (sessionId, kind, idempotencyKey) *)

(** Rows of the same (sessionId, kind, idempotencyKey); null keys never clash. *)
Definition same_key (a b : JobSpec) : bool :=
  bool_decide (is_Some (idempotencyKey a)) && bool_decide (idempotencyKey a = idempotencyKey b) &&
  bool_decide (sessionId a = sessionId b) && bool_decide (kind a = kind b).

Definition insert_job (k : string) (row : Job) : M Database unit := λ d,
  if bool_decide (is_Some (jobs d !! k)) ||
     negb (bool_decide (filter (λ kr : string * Job, same_key (j_spec row) (j_spec kr.2) = true) (jobs d) = ∅))
  then (Throw unique_violation, d)
  else (Ret tt, with_jobs (<[k := row]> (jobs d)) d).

Definition new_job (spec : JobSpec) : Job :=
  MkJob spec Pending (Some 1%Z) None None None None None None None None None None None None None None None
        None None None.

(** ** startJob *)

Record StartJobArgs := MkStartArgs {
  a_kind : string; a_sessionId : string; a_idempotencyKey : option string; a_request : json;
  a_idempotencyPayload : option json; a_requestedBy : option string; a_grantId : option string;
  a_command : option json; a_commandVersion : option Z; a_encryptCommand : bool;
  a_parentJobId : option string; a_workflowStep : option string; a_work : bool }.

Record StartJobResult := MkStartResult {
  r_jobId : string; r_status : JobStatus; r_result : option json; r_deduplicated : bool;
  r_originalRequest : option json }.

Definition IdempotencyKeyInvalidError : exn :=
  Exn "IdempotencyKeyInvalidError" "IDEMPOTENCY_KEY_INVALID" "idempotencyKey must be at most 128 characters".
Definition IdempotencyConflictError (key : string) : exn :=
  Exn "IdempotencyConflictError" "IDEMPOTENCY_KEY_CONFLICT"
    ("Idempotency key '" ++ key ++ "' was already used with a different request payload.").
Definition JobAdmissionBusyError (k : string) : exn :=
  Exn "JobAdmissionBusyError" "JOB_ADMISSION_BUSY"
    ("the server is busy writing another job and could not admit this " ++ k ++
     " request; nothing was submitted, retry in a moment").

Definition nonempty (s : option string) : bool := truthy_str s.

(** The argument checks, in order; [None] when all pass. *)
Definition start_args_error (r : Registry) (a : StartJobArgs) : option exn :=
  let replayable := bool_decide (is_Some (a_command a)) in
  let version := nullish (a_commandVersion a) 0%Z in
  if bool_decide (a_kind a = EmptyString) then Some (js_error "startJob: kind is required")
  else if bool_decide (a_sessionId a = EmptyString) then Some (js_error "startJob: sessionId is required")
  else if negb replayable && negb (a_work a) then Some (js_error "startJob: work or command is required")
  else if replayable && bool_decide (version < 1)%Z
  then Some (js_error "startJob: commandVersion must be a positive integer for replayable commands")
  else if replayable && negb (nonempty (a_requestedBy a))
  then Some (js_error "startJob: requestedBy is required for replayable commands")
  else if replayable && negb (bool_decide (processorKey (a_kind a) version ∈ processors r))
  then Some (js_error ("startJob: no command processor registered for '" ++ a_kind a ++ "' v" ++ pretty version))
  else None.

Section StartJob.
Context `{ScanOrder}.
(** SHA-256 in hex (node:crypto), the at-rest encryption of a command under
    its binding to the job (srv/utils/crypto.ts), the digest of the artifact
    generation a reference names now (contract-registry.ts). *)
Variable sha256 : string → string.
Variable encryptAtRest : string → string → string.
Variable getArtifactGenerationDigest : string → string.

Definition fingerprint (a : StartJobArgs) : string :=
  sha256 (a_kind a ++ chr 0 ++ a_sessionId a ++ chr 0 ++
          stringify (nullish (a_idempotencyPayload a) (a_request a))).

(** A command that names an artifact pins the generation's digest. *)
Definition effectiveCommand (c : json) : json :=
  match json_get "compiledArtifactRef" c, json_get "artifactDigest" c with
  | Some (JStr ref), None => merge_objects c (JObj [("artifactDigest", JStr (getArtifactGenerationDigest ref))])
  | _, _ => c
  end.

Definition job_spec_of (a : StartJobArgs) (jobId : string) (now : Z) : JobSpec :=
  let serialized := stringify ∘ effectiveCommand <$> a_command a in
  MkJobSpec (a_kind a) (a_sessionId a) (if nonempty (a_idempotencyKey a) then a_idempotencyKey a else None)
    (a_request a) (fingerprint a)
    (if bool_decide (is_Some (a_command a)) then a_commandVersion a else None)
    (if a_encryptCommand a then (λ s, encryptAtRest s jobId) <$> serialized else serialized)
    (if bool_decide (is_Some (a_command a)) then Some (if a_encryptCommand a then AesGcmV1 else JsonV1) else None)
    (a_requestedBy a) (a_grantId a) (a_parentJobId a) (a_workflowStep a) now now 1.

(** The existing job of an idempotency key: the newest row of the key. *)
Definition newest (l : list (string * Job)) : option (string * Job) :=
  foldl (λ best row, match best with
                     | Some b => if bool_decide (createdAt (j_spec b.2) < createdAt (j_spec row.2))%Z
                                 then Some row else best
                     | None => Some row
                     end) None l.

Definition dedupExisting (a : StartJobArgs) (key fp : string) : M Database (option StartJobResult) := λ d,
  let rows := sql_select (λ _ r, bool_decide (sessionId (j_spec r) = a_sessionId a) &&
                                 bool_decide (kind (j_spec r) = a_kind a) &&
                                 bool_decide (idempotencyKey (j_spec r) = Some key)) (jobs d) in
  match newest rows with
  | None => (Ret None, d)
  | Some (id, existing) =>
      if negb (bool_decide (payloadFingerprint (j_spec existing) = EmptyString)) &&
         negb (bool_decide (payloadFingerprint (j_spec existing) = fp))
      then (Throw (IdempotencyConflictError key), d)
      else (Ret (Some (MkStartResult id (j_status existing)
                         (if bool_decide (j_status existing = Succeeded) then j_result existing else None)
                         true (Some (request (j_spec existing))))), d)
  end.

(** The insert inside the request's transaction, [left] attempts left after
    this one: a savepoint per attempt. *)
Fixpoint pinned_insert (e : Env) (left attempt : nat) (k : string) (insert : M Database unit)
    (on_duplicate : exn → M Database StartJobResult) (admitted : StartJobResult) :
    M Database StartJobResult := λ d,
  match tx (stmt e "startJob insert" attempt 0 insert) d with
  | (Ret _, d') => (Ret admitted, d')
  | (Throw err, d') =>
      if isLockContention err then
        match left with
        | S left' => pinned_insert e left' (S attempt) k insert on_duplicate admitted d'
        | O => (Throw (JobAdmissionBusyError k), d')
        end
      else if negb (isUniqueViolation err) then (Throw err, d')
      else on_duplicate err d'
  end.

Definition on_duplicate (a : StartJobArgs) (key fp : string) (err : exn) : M Database StartJobResult :=
  dup ← dedupExisting a key fp;
  match dup with Some r => mret r | None => throw err end.

(** [between]: what other requests commit between the quick duplicate check
    and the insert. [in_request]: whether [cds.context] is set. The second
    component of the result tells whether the job was handed to the scheduler. *)
Definition startJob (e : Env) (r : Registry) (in_request : bool) (between : Database → Database)
    (jobId : string) (a : StartJobArgs) : M Database (StartJobResult * bool) :=
  match start_args_error r a with
  | Some err => throw err
  | None =>
      let fp := fingerprint a in
      let row := new_job (job_spec_of a jobId (clock e 0)) in
      let admitted := MkStartResult jobId Pending None false None in
      if nonempty (a_idempotencyKey a) then
        let key := nullish (a_idempotencyKey a) EmptyString in
        if bool_decide (IDEMPOTENCY_KEY_MAX_LENGTH < String.length key) then throw IdempotencyKeyInvalidError else
        dup ← dedupExisting a key fp;
        match dup with
        | Some r => mret (r, false)
        | None =>
            _ ← (λ d, (Ret (), between d));
            if in_request then
              res ← pinned_insert e (LOCK_CONTENTION_ATTEMPTS - 1) 0 (a_kind a) (insert_job jobId row)
                      (on_duplicate a key fp) admitted;
              mret (res, negb (r_deduplicated res))
            else
              res ← try_catch
                (_ ← withLockContentionRetry (λ i, stmt e "startJob insert" i 0 (insert_job jobId row));
                 mret admitted)
                (λ err, if isLockContention err then throw (JobAdmissionBusyError (a_kind a))
                        else if negb (isUniqueViolation err) then throw err
                        else on_duplicate a key fp err);
              mret (res, negb (r_deduplicated res))
        end
      else
        _ ← (λ d, (Ret (), between d));
        _ ← try_catch (withLockContentionRetry (λ i, stmt e "startJob insert" i 0 (insert_job jobId row)))
              (λ err, if isLockContention err then throw (JobAdmissionBusyError (a_kind a)) else throw err);
        mret (admitted, true)
  end.
End StartJob.

(** ** Workflow steps *)

Definition WorkflowReconciliationRequiredError (msg : string) : exn :=
  Exn "WorkflowReconciliationRequiredError" EmptyString msg.
Definition ChildReconciliationRequiredError (child step : string) : exn :=
  Exn "ChildReconciliationRequiredError" EmptyString
    ("Child job " ++ child ++ " for workflow step '" ++ step ++ "' requires reconciliation").

(** NIGHTGATE_CHILD_JOB_WAIT_TIMEOUT_MS, else the worker RPC timeout plus five minutes. *)
Definition childWaitTimeoutMs (explicit : option Z) (workerRpcTimeoutMs : Z) : Z :=
  nullish explicit (workerRpcTimeoutMs + 5 * 60000)%Z.

Section Children.
Context `{ScanOrder}.

(** A failed read counts as completed. *)
Definition hasCompletedChild (e : Env) (parent : string) (d : Database) : bool :=
  match stmt e "hasCompletedChild" 0 0 get d with
  | (Ret d, _) =>
      existsb (λ c, status_in [Succeeded; ReconciliationRequired] c.2 || truthy_str (j_txHash c.2))
        (children_of parent (jobs d))
  | (Throw _, _) => true
  end.

(** What a refused admission of a step becomes. *)
Definition child_admission_error (e : Env) (parent step : string) (err : exn) (d : Database) : exn :=
  if bool_decide (ex_name err = "JobAdmissionBusyError") && hasCompletedChild e parent d
  then WorkflowReconciliationRequiredError
         ("Could not admit workflow step '" ++ step ++ "' (" ++ ex_msg err ++ "), and an earlier step of job " ++
          parent ++ " already completed; verify chain state before retrying")
  else err.

Definition status_name (s : JobStatus) : string :=
  match s with
  | Pending => "pending" | Running => "running" | ExternalExecution => "external_execution"
  | Submitted => "submitted" | ReconciliationRequired => "reconciliation_required"
  | Succeeded => "succeeded" | Failed => "failed"
  end.

(** One look at the child: the parent goes on with a result, fails, or waits. *)
Definition child_look (parent step child : string) (deadline : Z) (d : Database) (now : Z) :
    option (outcome (option json)) :=
  match jobs d !! child with
  | None => Some (Throw (js_error ("Child job " ++ child ++ " disappeared")))
  | Some row =>
      match j_status row with
      | Succeeded => Some (Ret (j_result row))
      | ReconciliationRequired => Some (Throw (ChildReconciliationRequiredError child step))
      | Failed => Some (Throw (Exn "Error" "CHILD_FAILED"
                          (childFailedMessage (child, row) (children_of parent (jobs d)))))
      | st =>
          if bool_decide (deadline ≤ now)%Z
          then Some (Throw (WorkflowReconciliationRequiredError
                 ("Timed out waiting for child job " ++ child ++ " at workflow step '" ++ step ++
                  "' while it remained " ++ status_name st ++
                  "; the child may still cross the external-effect boundary")))
          else None
      end
  end.

(** The wait loop over the databases and instants it meets, one per 500 ms
    poll; [None] while it still waits. *)
Fixpoint wait_child (parent step child : string) (deadline : Z) (looks : list (Database * Z)) :
    option (outcome (option json)) :=
  match looks with
  | [] => None
  | (d, now) :: looks' =>
      match child_look parent step child deadline d now with
      | Some o => Some o
      | None => wait_child parent step child deadline looks'
      end
  end.
End Children.

Definition child_idempotency_key (parent step : string) : string := "workflow:" ++ parent ++ ":" ++ step.

(** ** Facts about the insert *)

Lemma insert_job_cases k row d o d' :
  insert_job k row d = (o, d') →
  (o = Ret () ∧ d' = with_jobs (<[k := row]> (jobs d)) d ∧ jobs d !! k = None ∧
   ∀ k' r', jobs d !! k' = Some r' → same_key (j_spec row) (j_spec r') = false) ∨
  (o = Throw unique_violation ∧ d' = d).
Proof.
  unfold insert_job. destruct (bool_decide (is_Some _)) eqn:E; cbn [orb]; [intros [= <- <-]; by right|].
  destruct (bool_decide (filter _ _ = ∅)) eqn:Hf; cbn [negb]; [|intros Hr; simplify_eq; by right].
  apply bool_decide_eq_true_1 in Hf. intros Hr. simplify_eq. left.
  apply bool_decide_eq_false_1, eq_None_not_Some in E. split_and!; [done|done|done|].
  intros k' r' Hr. destruct (same_key _ _) eqn:Ek; [|done]. exfalso.
  assert (filter (λ kr : string * Job, same_key (j_spec row) (j_spec kr.2) = true) (jobs d) !! k' = Some r') as Hx
    by (by apply map_lookup_filter_Some).
  by rewrite Hf, lookup_empty in Hx.
Qed.

Lemma insert_stmt_cases e s i n k row d o d' :
  stmt e s i n (insert_job k row) d = (o, d') →
  (o = Ret () ∧ d' = with_jobs (<[k := row]> (jobs d)) d) ∨ ((∃ x, o = Throw x) ∧ d' = d).
Proof.
  unfold stmt, throw. case_match; [intros [= <- <-]; right; eauto|]. intros Hi.
  apply insert_job_cases in Hi as [(-> & -> & _)|(-> & ->)]; eauto.
Qed.

Lemma retried_insert_cases e s k row d o d' :
  withLockContentionRetry (λ i, stmt e s i 0 (insert_job k row)) d = (o, d') →
  (o = Ret () ∧ d' = with_jobs (<[k := row]> (jobs d)) d) ∨ ((∃ x, o = Throw x) ∧ d' = d).
Proof.
  intros Hr. apply withLockContentionRetry_atomic in Hr.
  - destruct Hr as [(i & [] & -> & _ & Hi)|(x & -> & ->)]; [|right; eauto].
    apply insert_stmt_cases in Hi as [[_ ->]|[[? ?] _]]; [by left|done].
  - intros i s0 x s' Hi. by apply insert_stmt_cases in Hi as [[? _]|[_ ->]].
Qed.

(** Two rows never share session, kind and idempotency key. *)
Definition keys_unique (d : Database) : Prop :=
  ∀ k1 k2 j1 j2, jobs d !! k1 = Some j1 → jobs d !! k2 = Some j2 →
    same_key (j_spec j1) (j_spec j2) = true → k1 = k2.

Lemma same_key_sym a b : same_key a b = same_key b a.
Proof.
  unfold same_key. destruct (idempotencyKey a) as [x|] eqn:Ea, (idempotencyKey b) as [y|] eqn:Eb; simpl;
    repeat case_bool_decide; try congruence; naive_solver.
Qed.

Lemma insert_keys_unique k row d o d' : keys_unique d → insert_job k row d = (o, d') → keys_unique d'.
Proof.
  intros Hu Hi. apply insert_job_cases in Hi as [(_ & -> & Hk & Hs)|(_ & ->)]; [|done].
  intros k1 k2 j1 j2. simpl. destruct (decide (k1 = k)) as [->|H1], (decide (k2 = k)) as [->|H2];
    rewrite ?lookup_insert_eq, ?(lookup_insert_ne _ k) by done; [done| | |by apply Hu].
  - intros [= <-] Hj2 Hsame. by rewrite (Hs _ _ Hj2) in Hsame.
  - intros Hj1 [= <-] Hsame. rewrite same_key_sym in Hsame. by rewrite (Hs _ _ Hj1) in Hsame.
Qed.

Section StartJobFacts.
Context `{ScanOrder}.
Variables (sha256 : string → string) (encryptAtRest : string → string → string)
  (getArtifactGenerationDigest : string → string).

Lemma on_duplicate_same a key fp x d o d' :
  on_duplicate a key fp x d = (o, d') →
  d' = d ∧ (∀ res, o = Ret res → r_deduplicated res = true).
Proof.
  unfold on_duplicate, dedupExisting. m_unfold. destruct (newest _) as [[id j]|]; [|intros; by simplify_eq].
  destruct (_ && _); intros; simplify_eq; split; [done|done|done|]. by intros res [= <-].
Qed.

(** The insert under a savepoint: the row is there exactly when the job counts
    as admitted. *)
Lemma pinned_insert_cases e left att k jobId row dup adm d o d' :
  r_deduplicated adm = false →
  (∀ x d o d', dup x d = (o, d') → d' = d ∧ (∀ res, o = Ret res → r_deduplicated res = true)) →
  pinned_insert e left att k (insert_job jobId row) dup adm d = (o, d') →
  (o = Ret adm ∧ d' = with_jobs (<[jobId := row]> (jobs d)) d) ∨
  (d' = d ∧ ∀ res, o = Ret res → r_deduplicated res = true).
Proof.
  intros Ha Hdup. revert att d. induction left as [|left IH]; intros att d; cbn [pinned_insert];
    destruct (tx _ d) as [[[]|x] d1] eqn:E.
  1,3: apply tx_ret, insert_stmt_cases in E as [[_ ->]|[[? ?] _]]; [intros [= <- <-]; by left|done].
  all: apply tx_throw in E as ->; destruct (isLockContention x).
  - intros [= <- <-]. by right.
  - destruct (negb _); [intros [= <- <-]; by right|]. intros Hd. right. by eapply Hdup.
  - by apply IH.
  - destruct (negb _); [intros [= <- <-]; by right|]. intros Hd. right. by eapply Hdup.
Qed.

Notation start := (startJob sha256 encryptAtRest getArtifactGenerationDigest).

(** The row a start inserts. *)
Definition start_row (e : Env) (jobId : string) (a : StartJobArgs) : Job :=
  new_job (job_spec_of sha256 encryptAtRest getArtifactGenerationDigest a jobId (clock e 0)).

(** A start hands a job to the scheduler exactly when it inserted its row:
    on every path, with or without an idempotency key, inside or outside a
    request, whatever other requests commit meanwhile and whatever the database
    fails, it either adds the one pending row and schedules it, or adds nothing
    and schedules nothing, throwing or answering with the job of the key. *)
Theorem start_inserts_iff_scheduled e r in_request between jobId a d o d' :
  start e r in_request between jobId a d = (o, d') →
  (∃ res, o = Ret (res, true) ∧ r_jobId res = jobId ∧ r_deduplicated res = false ∧
     d' = with_jobs (<[jobId := start_row e jobId a]> (jobs (between d))) (between d)) ∨
  ((d' = d ∨ d' = between d) ∧
   ∀ res scheduled, o = Ret (res, scheduled) → scheduled = false ∧ r_deduplicated res = true).
Proof.
  unfold startJob. fold (start_row e jobId a). intros Hs.
  destruct (start_args_error r a) as [x|]; [m_unfold; simplify_eq; right; split; [by left|done]|]. cbv zeta in Hs.
  set (adm := MkStartResult jobId Pending None false None) in *. destruct (nonempty _).
  2:{ m_unfold. unfold try_catch in Hs.
      destruct (withLockContentionRetry _ (between d)) as [[[]|x] d1] eqn:E; apply retried_insert_cases in E as [[? ->]|[[? ?] ->]]; try done.
      - simplify_eq. left. by exists (MkStartResult jobId Pending None false None).
      - right. destruct (isLockContention x); simplify_eq; (split; [by right|done]). }
  case_bool_decide; [m_unfold; simplify_eq; right; split; [by left|done]|].
  apply bind_cases in Hs as [(dup & d1 & E & Hs)|(x & E & ->)].
  2:{ right. unfold dedupExisting in E. repeat case_match; simplify_eq; (split; [by left|done]). }
  assert (d1 = d ∧ ∀ res, dup = Some res → r_deduplicated res = true) as [-> Hdup].
  { unfold dedupExisting in E. repeat case_match; simplify_eq; (split; [done|]; intros res ?; simplify_eq; done). }
  destruct dup as [res|].
  { m_unfold. simplify_eq. right. split; [by left|]. intros ? ? [= <- <-]. split; [done|by apply Hdup]. }
  set (key := nullish (a_idempotencyKey a) EmptyString) in *. set (fp := fingerprint sha256 a) in *.
  apply bind_cases in Hs as [([] & d1 & E1 & Hs)|(x & E1 & _)]; [|done]. injection E1 as <-.
  destruct in_request.
  - apply bind_cases in Hs as [(res & d2 & E2 & Hs)|(x & E2 & ->)];
      eapply pinned_insert_cases in E2 as [[Ho ->]|[-> Hd]]; try done; try (intros; by eapply on_duplicate_same).
    + injection Ho as ->. m_unfold. simplify_eq. left. by exists (MkStartResult jobId Pending None false None).
    + m_unfold. simplify_eq. right. split; [by right|]. intros ? ? [= <- <-]. by rewrite (Hd res eq_refl).
    + right. split; [by right|done].
  - apply bind_cases in Hs as [(res & d2 & E2 & Hs)|(x & E2 & ->)]; unfold try_catch in E2; unfold mbind, M_bind in E2;
      destruct (withLockContentionRetry _ (between d)) as [[[]|y] d3] eqn:E3; apply retried_insert_cases in E3 as [[? ->]|[[? ?] ->]]; try done;
      m_unfold; simplify_eq.
    + left. by exists (MkStartResult jobId Pending None false None).
    + destruct (isLockContention _); [done|]. destruct (negb _); [done|].
      apply on_duplicate_same in E2 as [-> Hd]. right. split; [by right|]. intros ? ? [= <- <-]. by rewrite (Hd res eq_refl).
    + right. split; [|done]. destruct (isLockContention _); [simplify_eq; by right|]. destruct (negb _); [simplify_eq; by right|].
      apply on_duplicate_same in E2 as [-> _]. by right.
Qed.
End StartJobFacts.

Section Reuse.
Context `{ScanOrder}.
Variables (sha256 : string → string) (encryptAtRest : string → string → string)
  (getArtifactGenerationDigest : string → string).

(** The row [id] was started with the session, kind and key of [a]. *)
Definition started_with (a : StartJobArgs) (key : string) (j : Job) : Prop :=
  sessionId (j_spec j) = a_sessionId a ∧ kind (j_spec j) = a_kind a ∧ idempotencyKey (j_spec j) = Some key.

Lemma select_started a key id j d :
  keys_unique d → jobs d !! id = Some j → started_with a key j →
  sql_select (λ _ r, bool_decide (sessionId (j_spec r) = a_sessionId a) && bool_decide (kind (j_spec r) = a_kind a) &&
                     bool_decide (idempotencyKey (j_spec r) = Some key)) (jobs d) = [(id, j)].
Proof.
  intros Hu Hj (Hs & Hk & Hi). set (w := λ (_ : string) (r : Job), _).
  assert (∀ k r, (k, r) ∈ sql_select w (jobs d) ↔ k = id ∧ r = j) as Hel.
  { intros k r. rewrite elem_of_select. unfold w. split.
    - intros [Hr [[H1%bool_decide_eq_true_1 H2%bool_decide_eq_true_1]%andb_prop H3%bool_decide_eq_true_1]%andb_prop].
      assert (k = id) as -> by (eapply Hu; [done|done|]; unfold same_key; rewrite H3, Hi, H1, H2, Hs, Hk; by rewrite !bool_decide_eq_true_2).
      by simplify_eq.
    - intros [-> ->]. split; [done|]. by rewrite Hs, Hk, Hi, !bool_decide_eq_true_2. }
  pose proof (select_NoDup w (jobs d)) as Hnd. destruct (sql_select w (jobs d)) as [|[k1 r1] l].
  - exfalso. apply (not_elem_of_nil (id, j)). by apply Hel.
  - destruct (proj1 (Hel k1 r1)) as [-> ->]; [apply list_elem_of_here|]. destruct l as [|[k2 r2] l]; [done|].
    exfalso. destruct (proj1 (Hel k2 r2)) as [-> ->]; [apply list_elem_of_further, list_elem_of_here|].
    apply NoDup_cons in Hnd as [Hn _]. apply Hn, list_elem_of_here.
Qed.

(** A repeated request never starts a second job and writes nothing: with
    the same payload it is answered with the job of its key, the result
    included once that job succeeded; with another payload it is refused. *)
Theorem reused_key_is_answered e r in_request between jobId a key id j d :
  keys_unique d → start_args_error r a = None → a_idempotencyKey a = Some key → key ≠ EmptyString →
  (String.length key ≤ IDEMPOTENCY_KEY_MAX_LENGTH)%nat →
  jobs d !! id = Some j → started_with a key j → payloadFingerprint (j_spec j) ≠ EmptyString →
  startJob sha256 encryptAtRest getArtifactGenerationDigest e r in_request between jobId a d =
  (if bool_decide (payloadFingerprint (j_spec j) = fingerprint sha256 a)
   then Ret (MkStartResult id (j_status j) (if bool_decide (j_status j = Succeeded) then j_result j else None)
               true (Some (request (j_spec j))), false)
   else Throw (IdempotencyConflictError key), d).
Proof.
  intros Hu Ha Hkey Hne Hlen Hj Hst Hfp. unfold startJob. rewrite Ha, Hkey. cbv zeta. unfold nonempty, truthy_str. cbn [nullish].
  rewrite (bool_decide_eq_false_2 (key = EmptyString)) by done. cbn [negb].
  rewrite (bool_decide_eq_false_2 (IDEMPOTENCY_KEY_MAX_LENGTH < String.length key)%nat) by lia.
  m_unfold. unfold dedupExisting. rewrite (select_started a key id j d) by done. cbn [newest foldl].
  rewrite (bool_decide_eq_false_2 (payloadFingerprint (j_spec j) = EmptyString)) by done. cbn [negb andb].
  by case_bool_decide.
Qed.
End Reuse.

Section Waiting.
Context `{ScanOrder}.

(** A parent waiting for a step fails closed: it goes on only with the
    result of a child found succeeded, after looks that all found the child
    unfinished before the deadline; a child that vanished, failed, needs
    reconciliation or is still open past the deadline ends the wait with an
    error, and never with a result. *)
Theorem wait_child_fails_closed parent step child deadline looks v :
  wait_child parent step child deadline looks = Some (Ret v) →
  ∃ before d now after row, looks = (before ++ (d, now) :: after)%list ∧
    jobs d !! child = Some row ∧ j_status row = Succeeded ∧ v = j_result row ∧
    Forall (λ dn : Database * Z, (dn.2 < deadline)%Z ∧ ∃ row', jobs dn.1 !! child = Some row' ∧
              status_in open_statuses row' = true) before.
Proof.
  induction looks as [|[d now] looks IH]; cbn [wait_child]; [done|].
  destruct (child_look parent step child deadline d now) as [o|] eqn:E.
  - intros [= ->]. unfold child_look in E. destruct (jobs d !! child) as [row|] eqn:Er; [|done].
    exists [], d, now, looks, row. destruct (j_status row) eqn:Es; simplify_eq; repeat case_bool_decide; simplify_eq.
    split_and!; try done.
  - intros Hw. destruct (IH Hw) as (before & d1 & now1 & after & row & -> & Hr & Hs & Hv & Hb).
    exists ((d, now) :: before), d1, now1, after, row. split_and!; [done|done|done|done|]. constructor; [|done].
    unfold child_look in E. simpl. destruct (jobs d !! child) as [row'|] eqn:Er'; [|done].
    assert (now < deadline)%Z by (destruct (j_status row') eqn:Es; simplify_eq; case_bool_decide; simplify_eq; lia).
    split; [done|]. exists row'. split; [done|]. unfold status_in, open_statuses.
    by destruct (j_status row') eqn:Es; simplify_eq.
Qed.
End Waiting.

(** ** Examples *)

#[local] Existing Instance key_order.

Definition sample_start (payload : json) : StartJobArgs :=
  MkStartArgs "sendNight" "session-1" (Some "key-1") payload None (Some "alice") None (Some (JObj [("v", JInt 1)]))
    (Some 1%Z) false None None false.

(** A stand-in for the digest: the text itself. *)
Definition plain_digest (s : string) : string := s.
Definition no_encryption (s _ : string) : string := s.
Definition no_digest (s : string) : string := s.

Definition sample_run (between : Database → Database) (d : Database) : outcome (StartJobResult * bool) * Database :=
  startJob plain_digest no_encryption no_digest (sample_env "a") full_registry true between "job-2" (sample_start (JInt 5)) d.

Definition empty_db : Database := MkDatabase ∅ ∅ ∅ None.

Lemma start_inserts_iff_scheduled_witness :
  jobs (sample_run id empty_db).2 !! "job-2" =
    Some (start_row plain_digest no_encryption no_digest (sample_env "a") "job-2" (sample_start (JInt 5))).
Proof.
  destruct (start_inserts_iff_scheduled plain_digest no_encryption no_digest (sample_env "a") full_registry true id "job-2"
    (sample_start (JInt 5)) empty_db (sample_run id empty_db).1 (sample_run id empty_db).2 (surjective_pairing _))
    as [(res & _ & _ & _ & ->)|[_ Hbad]].
  - vm_compute. reflexivity.
  - assert (∃ res, (sample_run id empty_db).1 = Ret (res, true)) as [res Hres] by (eexists; vm_compute; reflexivity).
    destruct (Hbad res true Hres) as [Hf _]. discriminate Hf.
Defined.

(** The same request again: answered with the first job. *)
Definition started_db : Database := (sample_run id empty_db).2.
Definition started_job : Job :=
  start_row plain_digest no_encryption no_digest (sample_env "a") "job-2" (sample_start (JInt 5)).

Lemma one_row_keys_unique k j : keys_unique (with_jobs {[ k := j ]} empty_db).
Proof.
  intros k1 k2 j1 j2 H1 H2 _. simpl in *. apply lookup_singleton_Some in H1 as [<- _].
  by apply lookup_singleton_Some in H2 as [<- _].
Qed.

Lemma reused_key_is_answered_witness :
  (startJob plain_digest no_encryption no_digest (sample_env "a") full_registry true id "job-3" (sample_start (JInt 5))
     (with_jobs {[ "job-2" := started_job ]} empty_db)).2 = with_jobs {[ "job-2" := started_job ]} empty_db.
Proof.
  rewrite (reused_key_is_answered plain_digest no_encryption no_digest (sample_env "a") full_registry true id "job-3"
    (sample_start (JInt 5)) "key-1" "job-2" started_job (with_jobs {[ "job-2" := started_job ]} empty_db)).
  - reflexivity.
  - apply one_row_keys_unique.
  - vm_compute. reflexivity.
  - reflexivity.
  - discriminate.
  - vm_compute. lia.
  - vm_compute. reflexivity.
  - split_and!; vm_compute; reflexivity.
  - vm_compute. discriminate.
Defined.

Lemma wait_child_fails_closed_witness :
  ∃ before d now after row,
    [(one_job_db (sample_job "fieldAnchorRoot" Running (Some "w") None), 10%Z);
     (one_job_db (sample_job "fieldAnchorRoot" Succeeded None None), 20%Z)] = (before ++ (d, now) :: after)%list ∧
    jobs d !! "job-1" = Some row ∧ j_status row = Succeeded.
Proof.
  destruct (wait_child_fails_closed "p" "anchor" "job-1" 100
    [(one_job_db (sample_job "fieldAnchorRoot" Running (Some "w") None), 10%Z);
     (one_job_db (sample_job "fieldAnchorRoot" Succeeded None None), 20%Z)] None)
    as (before & d & now & after & row & H1 & H2 & H3 & _); [vm_compute; reflexivity|].
  exists before, d, now, after, row. split; [exact H1|]. split; [exact H2|exact H3].
Defined.
