(* ===== verification/GrantAdmin.v ===== *)
(** The handlers by which the owner of a wallet session creates, changes,
    revokes and rotates its agent grants (registerAgentGrantHandlers of
    srv/sessions/agent-grants.ts). *)
From Stdlib Require Import Ascii.
From S2P Require Import Prelude Db Retry Json Numbers Schema SponsorPolicy GrantScope GrantBudgets GrantShape AgentAccess RateLimiter Reconciliation StartJob.

Set Warnings "-register-all".

Local Open Scope string_scope.

(** ** What the handlers read *)

(** A row of WalletSessions; the key columns only as present or not. *)
Record WalletSession := MkSession {
  ws_sessionId : string; ws_userId : option string; ws_isActive : option bool; ws_expiresAt : option Z;
  ws_viewingKey : bool; ws_seedKey : bool }.

(** The settings, the policy files, the wallet sessions and the clock as a
    request finds them. [opens] is whether the session's key envelopes open
    (AES-GCM of node's crypto). *)
Record AdminEnv := MkAdminEnv {
  ae_now : Z; ae_settings : Settings; ae_files : string → FileView; ae_shared : list string;
  ae_sponsors : SponsorConfig; ae_sessions : list WalletSession; ae_opens : WalletSession → bool;
  ae_jobsPerDay : option Z; ae_jobsPerHour : option Z; ae_adminLimit : Z }.

Record AdminState := MkAdminState { a_db : Database; a_cache : option FileCache; a_limiter : RateLimiter }.

(** Who calls. *)
Record Caller := MkCaller { c_user : option string; c_grant : option string; c_ip : option string }.

Inductive AdminAnswer (A : Type) := Refuse (status : Z) (code : option string) (message : string) | Answer (a : A).
Arguments Refuse {A}.
Arguments Answer {A}.

Definition on_db {A} (m : M Database A) : M AdminState A := λ s,
  let '(o, d) := m (a_db s) in (o, MkAdminState d (a_cache s) (a_limiter s)).
Definition on_cache {A} (m : M (option FileCache) A) : M AdminState A := λ s,
  let '(o, c) := m (a_cache s) in (o, MkAdminState (a_db s) c (a_limiter s)).

(** Each check answers the caller or hands a value on. *)
Notation step A := (M AdminState (AdminAnswer A)).
Definition refused {A} (status : Z) (message : string) : step A := mret (Refuse status None message).
Definition and_then {A B} (m : step A) (k : A → step B) : step B :=
  r ← m; match r with Refuse status code message => mret (Refuse status code message) | Answer a => k a end.
Notation "x <~ m ; k" := (and_then m (λ x, k)) (at level 100, m at next level, right associativity).

(** [releaseDeployBudget]: gives back a reservation whose transaction was
    rejected; a failure is logged. *)
Definition releaseDeployBudget (grantId : string) (count : Z) : M Database unit :=
  if is_empty grantId || bool_decide (count < 1)%Z then mret tt
  else _ ← deployRefund grantId count; mret tt.

Section Handlers.
Context (hash : string → string) (e : AdminEnv) (caller : Caller).

(** ** Checks *)

Definition ADMIN_WINDOW : Z := 3600000.
Definition MAX_KEYS : Z := 10000.
Definition MAX_KEYS_PER_GROUP : Z := 64.

(** [rateClassLimit('admin')] *)
Definition rateClassLimit : M AdminState Z :=
  limits ← on_cache (policyFileRateLimits (ae_settings e) (ae_files e) (ae_now e));
  mret (nullish (map_get "admin" limits) (ae_adminLimit e)).

Definition rate_limited (r : RateCheckResult) : string :=
  "Rate limited (admin: " ++ pretty (limit_of r) ++ " per hour). Retry after " ++
  pretty (Z.max 1 (seconds_up (retryAfterMs r))) ++ "s".

(** [checkRateClass('admin', 'admin', req)] *)
Definition checkGrantAdminRate : step unit :=
  limit ← rateClassLimit;
  (λ s, let '(r, l) := checkMany ADMIN_WINDOW MAX_KEYS MAX_KEYS_PER_GROUP
                         (principalRateKey (c_grant caller) (c_user caller) (c_ip caller) "admin") 1 limit (ae_now e) (a_limiter s) in
        (Ret (if allowed r then Answer tt else Refuse 429 None (rate_limited r)), MkAdminState (a_db s) (a_cache s) l)) : step unit.

Definition requireUserId : step string :=
  match c_user caller with
  | Some u => if is_empty u then refused 401 "authentication required" else mret (Answer u)
  | None => refused 401 "authentication required"
  end.

Definition isSessionExpired (sessionId : string) (expiresAt : option Z) : bool :=
  session_expired (ae_sponsors e) (ae_now e) sessionId expiresAt.

Definition find_session (sessionId : string) (user : option string) : option WalletSession :=
  head (keep (λ s, bool_decide (ws_sessionId s = sessionId) && is_true (ws_isActive s) &&
                   match user with Some u => bool_decide (ws_userId s = Some u) | None => true end) (ae_sessions e)).

(** The checks of [resolveFeeSponsor]: the status and message of a [FeeSponsorError]. *)
Definition resolveFeeSponsor (sponsorSessionId user : string) : option (Z * string) :=
  let platform := mem sponsorSessionId (getConfiguredFeeSponsorSessions (ae_sponsors e)) in
  if negb platform && is_empty user then Some (403%Z, "sponsorSessionId requires an authenticated caller")
  else match find_session sponsorSessionId (if platform then None else Some user) with
  | None => Some (404%Z, "Sponsor session not found, inactive, or not usable by this caller. " ++
                         "Use one of your own sessions, or a session listed in NIGHTGATE_FEE_SPONSOR_SESSION.")
  | Some s =>
      if isSessionExpired sponsorSessionId (ws_expiresAt s) then Some (410%Z, "Sponsor session expired")
      else if negb (ws_viewingKey s) then Some (404%Z, "Sponsor session has no viewing key")
      else if negb (ws_seedKey s) then
        Some (412%Z, "Sponsor session has no signing key. Call connectWalletForSigning for the sponsor session first.")
      else if negb (ae_opens e s) then Some (500%Z, "Failed to decrypt sponsor session keys (ENCRYPTION_KEY mismatch?)")
      else None
  end.

(** Rejects when the platform policy allows nothing from the grant's lists. *)
Definition policyReject (v : GrantShapeValues) (deployed : list string) : step unit :=
  if bool_decide (v_allowedContracts v = [] ∧ v_allowedCircuits v = [] ∧ v_allowedTokenTypes v = [] ∧
                  v_allowedUnshieldedTokenTypes v = []) then mret (Answer tt)
  else
    try_catch
      (floor ← on_cache (getGlobalSponsorPolicy (ae_settings e) (ae_files e) (ae_now e));
       conflict ← (λ s, (grantPolicyConflict floor
         (MkGrantPolicy (Some (v_allowedContracts v)) (Some (v_allowedCircuits v)) (Some (v_allowDeploy v)) (Some deployed)
            (Some (v_allowedTokenTypes v)) None None None (Some (v_allowUnshieldedOffers v)) (Some (v_allowedUnshieldedTokenTypes v)))
         (ae_shared e), s)) : M AdminState (option string);
       match (conflict : option string) with Some message => refused 400 message | None => mret (Answer tt) end)
      (λ x, if is_unavailable x then mret (Refuse 503 (Some (ex_code x)) (ex_msg x)) else throw x).

(** ** Creation *)

(** A budget the creation leaves out takes the configured default. *)
Definition applyBudgetDefaults (data : list (string * json)) : list (string * json) :=
  let default k d data := if map_has k data then data else match d with Some n => map_set k (JInt n) data | None => data end in
  default "maxJobsPerHour" (ae_jobsPerHour e) (default "maxJobsPerDay" (ae_jobsPerDay e) data).

Definition pool_compatible (a : string) : bool :=
  mem a SPONSOR_PHASE2_ACTIONS || mem a POOL_NEUTRAL_ACTIONS || mem a POOL_PAID_SESSION_ACTIONS.

Definition check_sponsor (sponsor : option string) (userId : string) (actions : list string) : step unit :=
  match sponsor with
  | None => mret (Answer tt)
  | Some s =>
      if bool_decide (s = PLATFORM_POOL_SENTINEL) then
        if bool_decide (getConfiguredFeeSponsorSessions (ae_sponsors e) = []) then
          refused 412 ("sponsorSessionId: '" ++ PLATFORM_POOL_SENTINEL ++ "' requires a configured NIGHTGATE_FEE_SPONSOR_SESSION pool")
        else match keep (λ a, negb (pool_compatible a)) actions with
        | [] => mret (Answer tt)
        | incompatible => refused 400
            ("a platform-pool grant may only allow 'sponsorFinalizedTransaction' / 'sponsorUnboundTransaction' / 'sponsorSwap' / " ++
             "'sponsorTransfer' / 'mintFactoryToken' / 'postSwapOffer' / 'retireSwapOffer'; " ++
             "these actions resolve the sponsor directly and cannot use the pool: " ++ String.concat ", " incompatible)
        end
      else if is_empty s then mret (Answer tt)
      else match resolveFeeSponsor s userId with
      | Some (status, message) => refused status ("sponsorSessionId: " ++ message)
      | None => mret (Answer tt)
      end
  end.

(** All checks before a grant is created. *)
Definition prepareGrantCreation (data : list (string * json)) (userId : string) : step (GrantShapeValues * list string * string) :=
  let sessionId := nullish (text_field data "sessionId") EmptyString in
  if is_empty sessionId then refused 400 "sessionId is required"
  else match validateGrantShape (ae_now e) (applyBudgetDefaults data) None with
  | inl message => refused 400 message
  | inr values =>
      let actions := nullish (v_allowedActions values) [] in
      _ <~ policyReject values [];
      match find_session sessionId (Some userId) with
      | None => refused 404 "Session not found or inactive"
      | Some session =>
          if isSessionExpired sessionId (ws_expiresAt session) then refused 410 "Session expired"
          else _ <~ check_sponsor (text_field data "sponsorSessionId") userId actions; mret (Answer (values, actions, sessionId))
      end
  end.

(** [l.length ? JSON.stringify(l) : null] *)
Definition list_text (l : list string) : option json_text := if bool_decide (l = []) then None else Some (json_strings l).
Definition value_text (m : ValueBudgetMap) : option json_text := if bool_decide (m = []) then None else Some (value_map_text m).
Definition instant (text : option string) : option Z := text ≫= dateParse.

(** [random] is the hex of [crypto.randomBytes(32)]. *)
Definition newGrantRow (userId sessionId : string) (data : list (string * json)) (v : GrantShapeValues) (actions : list string)
    (agentLabel : option string) (random : string) : Grant * string :=
  let token := TOKEN_PREFIX ++ random in
  (MkGrant userId sessionId (text_field data "sponsorSessionId") agentLabel (hash token) (json_strings actions)
     (nullish (v_maxJobsPerDay v) None) (Some 0%Z) None (nullish (v_maxJobsPerHour v) None) (Some 0%Z) None
     (list_text (v_allowedContracts v)) (list_text (v_allowedCircuits v)) (Some (v_allowDeploy v)) (v_maxDeploys v) (Some 0%Z)
     None (list_text (v_allowedTokenTypes v)) None (Some (v_allowUnshieldedOffers v)) (list_text (v_allowedUnshieldedTokenTypes v))
     (value_text (v_maxValuePerDay v)) None None (instant (text_field data "validUntil")) (Some true) None, token).

(** [INSERT], with the unique keys of the entity. *)
Definition insert_grant (id : string) (g : Grant) : M Database unit := λ d,
  if bool_decide (is_Some (grants d !! id)) ||
     negb (bool_decide (filter (λ kr : string * Grant, g_tokenHash kr.2 = g_tokenHash g) (grants d) = ∅))
  then (Throw unique_violation, d)
  else (Ret tt, with_grants (<[id := g]> (grants d)) d).

(** [id] is the fresh [cds.utils.uuid()]; the answer is the grant and its token. *)
Definition createAgentGrant (data : list (string * json)) (id random : string) : step (string * string) :=
  _ <~ checkGrantAdminRate;
  userId <~ requireUserId;
  p <~ prepareGrantCreation data userId;
  let '(values, actions, sessionId) := p in
  let '(grant, token) := newGrantRow userId sessionId data values actions (text_field data "agentLabel") random in
  _ ← on_db (insert_grant id grant);
  mret (Answer (id, token)).

(** *** Several at once *)

Definition MAX_GRANTS_PER_CALL : nat := 50.

Definition label_text (v : json) : option string :=
  match v with JStr s => if is_empty (trim s) then None else Some (trim s) | _ => None end.

(** The labels given, or numbered ones. *)
Definition grant_labels (data : list (string * json)) (count : nat) : (Z * string) + list string :=
  match value_of data "labels" with
  | Some labels =>
      match (match labels with JArr l => if (length l =? count)%nat then mapM label_text l else None | _ => None end) with
      | None => inl (400%Z, "labels must be an array of count non-empty strings")
      | Some l => if existsb (λ s, (100 <? String.length s)%nat) l then inl (400%Z, "labels: each at most 100 characters") else inr l
      end
  | None =>
      let stem := trim (nullish (text_field data "agentLabel") "agent") in
      let stem := if is_empty stem then "agent" else stem in
      inr ((λ i, slice0 100 (stem ++ "-" ++ pretty (i + 1))) <$> seq 0 count)
  end.

(** The rows of one INSERT: all or none, in the request's transaction. *)
Fixpoint insert_grants (rows : list (string * Grant)) : M Database unit :=
  match rows with
  | [] => mret tt
  | (id, g) :: rows' => _ ← insert_grant id g; insert_grants rows'
  end.

(** [fresh] holds an id and random bytes per grant. *)
Definition createAgentGrants (data : list (string * json)) (fresh : list (string * string)) : step (list (string * string)) :=
  _ <~ checkGrantAdminRate;
  userId <~ requireUserId;
  match map_get "count" data with
  | Some (JInt n) =>
      if bool_decide (n < 1 ∨ Z.of_nat MAX_GRANTS_PER_CALL < n)%Z then refused 400 "count must be an integer from 1 to 50"
      else match grant_labels data (Z.to_nat n) with
      | inl (status, message) => refused status message
      | inr labels =>
          p <~ prepareGrantCreation data userId;
          let '(values, actions, sessionId) := p in
          let rows := zip_with (λ label f, (f.1, newGrantRow userId sessionId data values actions (Some label) f.2)) labels fresh in
          _ ← on_db (tx (insert_grants ((λ r, (r.1, r.2.1)) <$> rows)));
          mret (Answer ((λ r, (r.1, r.2.2)) <$> rows))
      end
  | _ => refused 400 "count must be an integer from 1 to 50"
  end.

(** ** Change, revocation, rotation *)

Definition owned_active (userId : string) (g : Grant) : bool := bool_decide (g_userId g = userId) && is_true (g_isActive g).

Definition grant_id (data : list (string * json)) : string := nullish (text_field data "grantId") EmptyString.

Definition revokeAgentGrant (data : list (string * json)) : step unit :=
  _ <~ checkGrantAdminRate;
  userId <~ requireUserId;
  let id := grant_id data in
  if is_empty id then refused 400 "grantId is required"
  else
    affected ← on_db (update_grant id (owned_active userId) (λ _, [GSetIsActive (Some false); GSetRevokedAt (Some (ae_now e))]));
    if bool_decide (affected = 0) then refused 404 "Grant not found" else mret (Answer tt).

Definition GRANT_IMMUTABLE_FIELDS : list string := ["sessionId"; "sponsorSessionId"; "userId"; "tokenHash"].

Definition loadOwnGrant (id userId : string) : M Database (option Grant) := λ d,
  (Ret (g ← grants d !! id; if bool_decide (g_userId g = userId) then Some g else None), d).

Definition given_set {A} (v : option A) (f : A → grant_set) : list grant_set := match v with Some x => [f x] | None => [] end.

Definition update_patch (v : GrantShapeValues) : list grant_set :=
  [ GSetAllowedContracts (list_text (v_allowedContracts v)); GSetAllowedCircuits (list_text (v_allowedCircuits v));
    GSetAllowedTokenTypes (list_text (v_allowedTokenTypes v)); GSetAllowDeploy (Some (v_allowDeploy v));
    GSetMaxDeploys (v_maxDeploys v); GSetAllowUnshieldedOffers (Some (v_allowUnshieldedOffers v));
    GSetAllowedUnshieldedTokenTypes (list_text (v_allowedUnshieldedTokenTypes v));
    GSetMaxValuePerDay (value_text (v_maxValuePerDay v)) ] ++
  given_set (v_allowedActions v) (λ l, GSetAllowedActions (json_strings l)) ++
  given_set (v_maxJobsPerDay v) GSetMaxJobsPerDay ++ given_set (v_maxJobsPerHour v) GSetMaxJobsPerHour ++
  given_set (v_validUntil v) (λ t, GSetValidUntil (instant t)) ++ given_set (v_agentLabel v) GSetAgentLabel.

Definition revoked_answer {A} : step A := mret (Refuse 409 (Some "GRANT_REVOKED") "Grant is revoked").

(** Up to the write: who asks, and the settings to write, checked against the row
    as it is read here. *)
Definition update_checks (data : list (string * json)) : step (string * GrantShapeValues) :=
  _ <~ checkGrantAdminRate;
  userId <~ requireUserId;
  let id := grant_id data in
  if is_empty id then refused 400 "grantId is required"
  else match keep (λ f, map_has f data) GRANT_IMMUTABLE_FIELDS with
  | (_ :: _) as immutable =>
      refused 400 (String.concat ", " immutable ++ " cannot be changed; issue a new grant for a different binding")
  | [] =>
      existing ← on_db (loadOwnGrant id userId);
      match existing with
      | None => refused 404 "Grant not found"
      | Some g =>
          if negb (is_true (g_isActive g)) then revoked_answer
          else match validateGrantShape (ae_now e) data (Some g) with
          | inl message => refused 400 message
          | inr v => _ <~ policyReject v (parseJsonStringList (g_deployedContracts g)); mret (Answer (userId, v))
          end
      end
  end.

(** The write asks only whether the grant is still active. *)
Definition update_write (data : list (string * json)) (userId : string) (v : GrantShapeValues) : step (list string) :=
  affected ← on_db (update_grant (grant_id data) (owned_active userId) (λ _, update_patch v));
  if bool_decide (affected = 0) then revoked_answer
  else mret (Answer (keep (λ k, negb (bool_decide (k = "grantId"))) data.*1)).

(** The read is a statement of its own, outside any transaction: [meanwhile] is
    what other requests do before the write. *)
Definition updateAgentGrant (meanwhile : M AdminState unit) (data : list (string * json)) : step (list string) :=
  p <~ update_checks data;
  _ ← meanwhile;
  update_write data p.1 p.2.

Definition rotateAgentGrantToken (data : list (string * json)) (random : string) : step (string * string) :=
  _ <~ checkGrantAdminRate;
  userId <~ requireUserId;
  let id := grant_id data in
  if is_empty id then refused 400 "grantId is required"
  else
    let token := TOKEN_PREFIX ++ random in
    affected ← on_db (λ d,
      if match grants d !! id with Some g => owned_active userId g | None => false end &&
         negb (bool_decide (filter (λ kr : string * Grant, kr.1 ≠ id ∧ g_tokenHash kr.2 = hash token) (grants d) = ∅))
      then (Throw unique_violation, d)
      else update_grant id (owned_active userId) (λ _, [GSetTokenHash (hash token)]) d);
    if bool_decide (affected = 0) then refused 404 "Grant not found" else mret (Answer (id, token)).
End Handlers.
