(* ===== verification/GrantLifecycle.v ===== *)
(** The life of an agent grant as an abstract machine on its row, and the
    handlers and the budget code as an implementation of it. *)
From Stdlib Require Import Ascii.
From S2P Require Import Prelude Db Json Numbers Schema SponsorPolicy GrantScope GrantBudgets BudgetFacts GrantShape AgentAccess RateLimiter Reconciliation StartJob GrantAdmin.

Set Warnings "-register-all".

Local Open Scope string_scope.

(** ** The machine *)

(** Everything a usage does not touch. *)
Definition settings_of (g : Grant) :=
  (g_userId g, g_sessionId g, g_sponsorSessionId g, g_agentLabel g, g_tokenHash g, g_allowedActions g,
   (g_maxJobsPerDay g, g_maxJobsPerHour g, g_allowedContracts g, g_allowedCircuits g, g_allowDeploy g, g_maxDeploys g),
   (g_allowedTokenTypes g, g_allowUnshieldedOffers g, g_allowedUnshieldedTokenTypes g, g_maxValuePerDay g, g_validUntil g),
   (g_isActive g, g_revokedAt g)).

Definition grant_actions (g : Grant) : list string := parseJsonStringList (Some (g_allowedActions g)).

(** A row as it is created: from validated settings, active, with nothing used. *)
Inductive created (g : Grant) : Prop :=
| created_from hash user session data v label random now input :
    validateGrantShape now input None = inr v →
    g = (newGrantRow hash user session data v (nullish (v_allowedActions v) []) label random).1 → created g.

(** One change of a row. *)
Inductive changed (g : Grant) : Grant → Prop :=
| changed_update now data v :
    g_isActive g = Some true → validateGrantShape now data (Some g) = inr v → changed g (patch_grant (update_patch v) g)
| changed_revoke now : g_isActive g = Some true → changed g (patch_grant [GSetIsActive (Some false); GSetRevokedAt (Some now)] g)
| changed_rotate h : g_isActive g = Some true → changed g (patch_grant [GSetTokenHash h] g)
| changed_reserve n u :
    g_isActive g = Some true → g_allowDeploy g = Some true → g_deploysUsed g = Some u → (1 ≤ n)%Z →
    (u + n ≤ nullish (g_maxDeploys g) 1)%Z → changed g (patch_grant [GSetDeploysUsed (Some (u + n)%Z)] g)
| changed_refund n u :
    g_deploysUsed g = Some u → (1 ≤ n ≤ u)%Z → changed g (patch_grant [GSetDeploysUsed (Some (u - n)%Z)] g)
| changed_usage g' : settings_of g' = settings_of g → g_deploysUsed g' = g_deploysUsed g → changed g g'.

Inductive grant_move (t : gmap string Grant) : gmap string Grant → Prop :=
| move_create id g : t !! id = None → created g → grant_move t (<[id := g]> t)
| move_change id g g' : t !! id = Some g → changed g g' → grant_move t (<[id := g']> t).

(** ** The operations move rows only so *)

Definition moves (d d' : Database) : Prop := rtc grant_move (grants d) (grants d').

#[export] Instance moves_preorder : PreOrder moves.
Proof. split; [intros d; apply rtc_refl|intros d1 d2 d3 H1 H2; unfold moves in *; by etrans]. Qed.

Definition db_moves {A} (m : M Database A) : Prop := ∀ d o d', m d = (o, d') → moves d d'.
Definition admin_moves {A} (m : M AdminState A) : Prop := ∀ s o s', m s = (o, s') → moves (a_db s) (a_db s').
Definition keeps_db {A} (m : M AdminState A) : Prop := ∀ s o s', m s = (o, s') → a_db s' = a_db s.

Lemma db_moves_ret {A} (a : A) : db_moves (mret a).
Proof. by intros d o d' [= <- <-]. Qed.

Lemma db_moves_bind {A B} (m : M Database A) (k : A → M Database B) : db_moves m → (∀ a, db_moves (k a)) → db_moves (m ≫= k).
Proof.
  intros Hm Hk d o d' [(a & d1 & H1 & H2)|(e & H1 & ->)]%bind_cases; [|by eapply Hm].
  trans d1; [by eapply Hm|by eapply Hk].
Qed.

Lemma db_moves_tx {A} (m : M Database A) : db_moves m → db_moves (tx m).
Proof.
  intros Hm d o d' Ht. unfold tx in Ht. destruct (m d) as [[a|e] d1] eqn:E; injection Ht as <- <-; [by eapply Hm|done].
Qed.

Lemma db_moves_update id c p : (∀ g, c g = true → changed g (patch_grant (p g) g)) → db_moves (update_grant id c p).
Proof.
  intros Hc d o d' [(g & Hg & Hw & _ & ->)|(_ & -> & _)]%update_grant_cases; [|done].
  apply rtc_once. simpl. eapply move_change; [exact Hg|by apply Hc].
Qed.

Lemma db_moves_row now id : db_moves (currentGrantRow now id).
Proof. by intros d o d' [= <- <-]. Qed.

Lemma db_moves_select id : db_moves (select_grant id).
Proof. by intros d o d' [= <- <-]. Qed.

#[local] Hint Resolve db_moves_ret db_moves_row db_moves_select : core.

(** A patch of usage columns. *)
Lemma db_moves_usage id c p :
  (∀ g, settings_of (patch_grant (p g) g) = settings_of g ∧ g_deploysUsed (patch_grant (p g) g) = g_deploysUsed g) →
  db_moves (update_grant id c p).
Proof. intros Hp. apply db_moves_update. intros g _. apply changed_usage; apply Hp. Qed.

Lemma consumeBudget_moves now id g b : db_moves (consumeBudget now id g b).
Proof.
  unfold consumeBudget. apply db_moves_bind; [case_bool_decide; [done|apply db_moves_usage; by destruct b]|].
  intros n. case_bool_decide; [done|]. apply db_moves_bind; [apply db_moves_usage; by destruct b|done].
Qed.

Lemma refundBudget_moves now id b : db_moves (refundBudget now id b).
Proof. apply db_moves_usage. by destruct b. Qed.

Lemma consumeValueBudget_moves now id ty a : db_moves (consumeValueBudget now id ty a).
Proof.
  unfold consumeValueBudget. case_bool_decide; [done|]. apply db_moves_bind; [|done]. unfold take_value.
  apply db_moves_bind; [done|]. intros [g|]; [|done]. case_match; [|done]. case_bool_decide; [done|].
  apply db_moves_bind; [by apply db_moves_usage|done].
Qed.

Lemma refundValueBudget_moves now id ty a : db_moves (refundValueBudget now id ty a).
Proof.
  unfold refundValueBudget. apply db_moves_bind; [done|]. intros [g|]; [|done]. case_match; [done|].
  apply db_moves_bind; [by apply db_moves_usage|done].
Qed.

Lemma recordDeployedContracts_moves id l : db_moves (recordDeployedContracts id l).
Proof.
  unfold recordDeployedContracts. destruct (_ || _); [done|]. apply db_moves_bind; [done|]. intros [g|]; [|done].
  destruct (bool_decide _); [done|]. apply db_moves_bind; [by apply db_moves_usage|done].
Qed.

Lemma recordMintedTokenTypes_moves id l : db_moves (recordMintedTokenTypes id l).
Proof.
  unfold recordMintedTokenTypes. destruct (_ || _); [done|]. apply db_moves_bind; [done|]. intros [g|]; [|done].
  destruct (_ || _); [done|]. apply db_moves_bind; [by apply db_moves_usage|done].
Qed.

Lemma reserveDeployBudget_moves id n : db_moves (reserveDeployBudget id n).
Proof.
  intros d o d'. unfold reserveDeployBudget. destruct (is_empty id); cbn [orb]; [by intros [= <- <-]|].
  case_bool_decide as Hn; [by intros [= <- <-]|]. unfold select_grant.
  intros [(g & d1 & [= <- <-] & H2)|(e & [=] & _)]%bind_cases. destruct (grants d !! id) as [g|] eqn:Hg; [|by injection H2 as <- <-].
  case_match; [by injection H2 as <- <-|]. apply bind_cases in H2 as [(u & d2 & H2 & [= <- <-])|(e & H2 & ->)].
  - apply update_grant_cases in H2 as [(g' & Hg' & Hw & _ & ->)|(_ & -> & _)]; [|done]. simplify_eq.
    apply andb_true_iff in Hw as [[Ha%bool_decide_eq_true_1 Hd%bool_decide_eq_true_1]%andb_true_iff Hle].
    unfold column_le in Hle. destruct (g_deploysUsed g) as [u0|] eqn:Hu; [|done]. apply bool_decide_eq_true_1 in Hle.
    apply rtc_once. simpl. eapply move_change; [exact Hg|]. simpl. apply changed_reserve; [done|done|done|lia|lia].
  - by apply update_grant_cases in H2 as [(? & _ & _ & [=] & _)|([=] & _)].
Qed.

Lemma releaseDeployBudget_moves id n : db_moves (releaseDeployBudget id n).
Proof.
  unfold releaseDeployBudget. destruct (is_empty id); cbn [orb]; [done|]. case_bool_decide as Hn; [done|].
  apply db_moves_bind; [|done]. intros d o d'. unfold deployRefund. destruct (sql_update_key _ _ _ _) as [t m] eqn:E. intros [= <- <-].
  apply sql_update_key_cases in E as [(-> & g & Hg & Hc & ->)|(-> & -> & _)]; [|by destruct d].
  destruct (g_deploysUsed g) as [u|] eqn:Hu; [|done]. apply bool_decide_eq_true_1 in Hc.
  apply rtc_once. simpl. eapply move_change; [exact Hg|]. simpl. apply changed_refund; [done|lia].
Qed.

(** ** The handlers *)

Lemma keeps_db_moves {A} (m : M AdminState A) : keeps_db m → admin_moves m.
Proof. intros Hm s o s' H. by rewrite (Hm _ _ _ H). Qed.

Lemma admin_moves_ret {A} (a : A) : admin_moves (mret a).
Proof. by intros s o s' [= <- <-]. Qed.

Lemma admin_moves_bind {A B} (m : M AdminState A) (k : A → M AdminState B) :
  admin_moves m → (∀ a, admin_moves (k a)) → admin_moves (m ≫= k).
Proof.
  intros Hm Hk s o s' [(a & s1 & H1 & H2)|(e & H1 & ->)]%bind_cases; [|by eapply Hm].
  trans (a_db s1); [by eapply Hm|by eapply Hk].
Qed.

Lemma admin_moves_then {A B} (m : step A) (k : A → step B) :
  admin_moves m → (∀ a, admin_moves (k a)) → admin_moves (and_then m k).
Proof. intros Hm Hk. apply admin_moves_bind; [done|]. intros []; [apply admin_moves_ret|apply Hk]. Qed.

Lemma admin_moves_db {A} (m : M Database A) : db_moves m → admin_moves (on_db m).
Proof.
  intros Hm s o s' H. unfold on_db in H. destruct (m (a_db s)) as [r d] eqn:E. injection H as <- <-. by eapply Hm.
Qed.

Lemma keeps_db_ret {A} (a : A) : keeps_db (mret a).
Proof. by intros s o s' [= <- <-]. Qed.

Lemma keeps_db_bind {A B} (m : M AdminState A) (k : A → M AdminState B) : keeps_db m → (∀ a, keeps_db (k a)) → keeps_db (m ≫= k).
Proof.
  intros Hm Hk s o s' [(a & s1 & H1 & H2)|(e & H1 & ->)]%bind_cases; [|by eapply Hm].
  rewrite (Hk _ _ _ _ H2). by eapply Hm.
Qed.

Lemma keeps_db_then {A B} (m : step A) (k : A → step B) : keeps_db m → (∀ a, keeps_db (k a)) → keeps_db (and_then m k).
Proof. intros Hm Hk. apply keeps_db_bind; [done|]. intros []; [apply keeps_db_ret|apply Hk]. Qed.

Lemma keeps_db_cache {A} (m : M (option FileCache) A) : keeps_db (on_cache m).
Proof. intros s o s' H. unfold on_cache in H. destruct (m (a_cache s)) as [r c]. by injection H as <- <-. Qed.

Lemma keeps_db_try {A} (m : M AdminState A) (h : exn → M AdminState A) : keeps_db m → (∀ x, keeps_db (h x)) → keeps_db (try_catch m h).
Proof.
  intros Hm Hh s o s' H. unfold try_catch in H. destruct (m s) as [[a|x] s1] eqn:E.
  - injection H as <- <-. by eapply Hm.
  - rewrite (Hh _ _ _ _ H). by eapply Hm.
Qed.

#[local] Hint Resolve keeps_db_ret keeps_db_cache admin_moves_ret : core.

Section Handlers.
Context (hash : string → string) (e : AdminEnv) (caller : Caller).

Lemma rate_keeps_db : keeps_db (checkGrantAdminRate e caller).
Proof.
  apply keeps_db_bind; [by apply keeps_db_bind|]. intros limit s o s' H. cbv beta in H.
  destruct (checkMany _ _ _ _ _ _ _ _) as [r l]. by injection H as <- <-.
Qed.

Lemma user_keeps_db : keeps_db (requireUserId caller).
Proof. unfold requireUserId, refused. repeat case_match; done. Qed.

Lemma policy_keeps_db v l : keeps_db (policyReject e v l).
Proof.
  unfold policyReject. case_bool_decide; [done|]. apply keeps_db_try.
  - apply keeps_db_bind; [done|]. intros floor. apply keeps_db_bind; [by intros s o s' [= <- <-]|].
    intros [message|]; unfold refused; done.
  - intros x. destruct (is_unavailable x); [done|]. by intros s o s' [= <- <-].
Qed.

Lemma sponsor_keeps_db sponsor user actions : keeps_db (check_sponsor e sponsor user actions).
Proof. unfold check_sponsor, refused. repeat case_match; done. Qed.

Lemma prepare_keeps_db data user : keeps_db (prepareGrantCreation e data user).
Proof.
  unfold prepareGrantCreation, refused. case_match; [done|]. case_match; [done|]. apply keeps_db_then; [apply policy_keeps_db|]. intros _.
  repeat case_match; try done. apply keeps_db_then; [apply sponsor_keeps_db|done].
Qed.

(** Settings a creation goes on with were validated as such. *)
Lemma prepare_validated data user s v actions sid s' :
  prepareGrantCreation e data user s = (Ret (Answer (v, actions, sid)), s') →
  validateGrantShape (ae_now e) (applyBudgetDefaults e data) None = inr v ∧ actions = nullish (v_allowedActions v) [].
Proof.
  unfold prepareGrantCreation, refused. case_match; [by intros [=]|]. destruct (validateGrantShape _ _ _) as [m|v0]; [by intros [=]|].
  intros (r & s1 & _ & H1)%bind_ret_inv. destruct r; [by injection H1|]. case_match; [|by injection H1]. case_match; [by injection H1|].
  apply bind_ret_inv in H1 as (r & s2 & _ & Hr). destruct r; [by injection Hr|]. by injection Hr as <- <- <- <-.
Qed.

Lemma insert_moves id g : created g → db_moves (insert_grant id g).
Proof.
  intros Hc d o d'. unfold insert_grant. case_match eqn:E; intros [= <- <-]; [done|]. apply orb_false_iff in E as [E _].
  apply bool_decide_eq_false_1, eq_None_not_Some in E. by apply rtc_once, move_create.
Qed.

Lemma createAgentGrant_moves data id random : admin_moves (createAgentGrant hash e caller data id random).
Proof.
  apply admin_moves_then; [apply keeps_db_moves, rate_keeps_db|]. intros _. apply admin_moves_then; [apply keeps_db_moves, user_keeps_db|].
  intros user s o s' H. apply bind_cases in H as [(r & s1 & H1 & H2)|(x & H1 & ->)]; [|by apply prepare_keeps_db in H1 as ->].
  pose proof (prepare_keeps_db _ _ _ _ _ H1) as <-. destruct r as [st c m|[[v actions] sid]]; [by injection H2 as <- <-|].
  apply prepare_validated in H1 as [Hv ->]. revert H2. cbv beta iota zeta. apply admin_moves_bind; [|done].
  apply admin_moves_db, insert_moves. by eapply created_from.
Qed.

Lemma insert_grants_moves rows : Forall (λ r : string * Grant, created r.2) rows → db_moves (insert_grants rows).
Proof.
  induction 1 as [|[id g] rows Hg Hrows IH]; simpl; [apply db_moves_ret|]. apply db_moves_bind; [by apply insert_moves|done].
Qed.

Lemma createAgentGrants_moves data fresh : admin_moves (createAgentGrants hash e caller data fresh).
Proof.
  apply admin_moves_then; [apply keeps_db_moves, rate_keeps_db|]. intros _. apply admin_moves_then; [apply keeps_db_moves, user_keeps_db|].
  intros user. unfold refused. destruct (map_get "count" data) as [[]|]; try done. case_bool_decide; [done|].
  destruct (grant_labels _ _) as [[]|labels]; [done|]. intros s o s' H0.
  apply bind_cases in H0 as [(r & s1 & H1 & H2)|(x & H1 & ->)]; [|by apply prepare_keeps_db in H1 as ->].
  pose proof (prepare_keeps_db _ _ _ _ _ H1) as <-. destruct r as [st c m|[[v actions] sid]]; [by injection H2 as <- <-|].
  apply prepare_validated in H1 as [Hv ->]. revert H2. cbv beta iota zeta. apply admin_moves_bind; [|done].
  apply admin_moves_db, db_moves_tx, insert_grants_moves. apply Forall_forall. intros [id g] Hin.
  apply list_elem_of_fmap in Hin as ([id' [g' t']] & [= -> ->] & Hin).
  apply elem_of_lookup_zip_with in Hin as (i & label & f & Hrow & _ & _).
  apply (f_equal (λ r : string * (Grant * string), r.2.1)) in Hrow. simpl in Hrow. eapply created_from; [exact Hv|exact Hrow].
Qed.

Lemma revokeAgentGrant_moves data : admin_moves (revokeAgentGrant e caller data).
Proof.
  apply admin_moves_then; [apply keeps_db_moves, rate_keeps_db|]. intros _. apply admin_moves_then; [apply keeps_db_moves, user_keeps_db|].
  intros user. unfold refused. cbv zeta. destruct (is_empty _); [done|]. apply admin_moves_bind; [|intros n; by case_bool_decide].
  apply admin_moves_db, db_moves_update. intros g [_ Ha%bool_decide_eq_true_1]%andb_true_iff. by apply changed_revoke.
Qed.

Lemma rotateAgentGrantToken_moves data random : admin_moves (rotateAgentGrantToken hash e caller data random).
Proof.
  apply admin_moves_then; [apply keeps_db_moves, rate_keeps_db|]. intros _. apply admin_moves_then; [apply keeps_db_moves, user_keeps_db|].
  intros user. unfold refused. cbv zeta. destruct (is_empty _); [done|]. apply admin_moves_bind; [|intros n; by case_bool_decide].
  apply admin_moves_db. intros d o d' H. cbv beta in H. destruct (_ && _); [by injection H as <- <-|]. revert H. apply db_moves_update.
  intros g [_ Ha%bool_decide_eq_true_1]%andb_true_iff. by apply changed_rotate.
Qed.

(** What the checks let through was validated against the row they read. *)
Lemma update_checks_spec data s r s' : update_checks e caller data s = (r, s') → a_db s' = a_db s ∧ ∀ user v, r = Ret (Answer (user, v)) →
  ∃ g, grants (a_db s) !! grant_id data = Some g ∧ g_isActive g = Some true ∧ validateGrantShape (ae_now e) data (Some g) = inr v.
Proof.
  unfold update_checks, and_then. intros [(a & s1 & H1 & H2)|(x & H1 & ->)]%bind_cases; apply rate_keeps_db in H1; [|done].
  destruct a; [by injection H2 as <- <-|]. apply bind_cases in H2 as [(a2 & s2 & H2 & H3)|(x & H2 & ->)]; apply user_keeps_db in H2; [|split; [congruence|done]].
  rewrite <- H1, <- H2. clear H1 H2. destruct a2 as [|user]; [by injection H3 as <- <-|]. unfold refused, revoked_answer in H3. cbv zeta in H3.
  destruct (is_empty _); [by injection H3 as <- <-|]. destruct (keep _ GRANT_IMMUTABLE_FIELDS); [|by injection H3 as <- <-].
  apply bind_cases in H3 as [(o & s3 & H1 & H2)|(x & [=] & _)]. unfold on_db, loadOwnGrant in H1. injection H1 as <- <-.
  destruct (grants (a_db s2) !! grant_id data) as [g|]; [|by injection H2 as <- <-]. cbn [mbind option_bind] in H2.
  case_bool_decide; [|by injection H2 as <- <-]. destruct (is_true (g_isActive g)) eqn:Ha; cbn [negb] in H2; [|by injection H2 as <- <-].
  destruct (validateGrantShape _ _ _) as [m|v] eqn:Hv; [by injection H2 as <- <-|].
  apply bind_cases in H2 as [(r1 & s4 & H3 & H4)|(x & H3 & ->)]; apply policy_keeps_db in H3 as Hdb; [|done].
  destruct r1 as [st c m|[]]; injection H4 as <- <-; (split; [done|]); intros user1 v1 [=]; subst. exists g. by apply bool_decide_eq_true_1 in Ha.
Qed.

Lemma updateAgentGrant_moves data : admin_moves (updateAgentGrant e caller (mret tt) data).
Proof.
  unfold updateAgentGrant, and_then. intros s o s' [(r & s1 & H1 & H2)|(x & H1 & ->)]%bind_cases;
    apply update_checks_spec in H1 as [Hdb Hok]; [|by rewrite Hdb]. rewrite <- Hdb in Hok |- *.
  destruct r as [st c m|[user v]]; [by injection H2 as <- <-|]. destruct (Hok _ _ eq_refl) as (g & Hg & Ha & Hv).
  apply bind_cases in H2 as [([] & s2 & [= <-] & H2)|(x & [=] & _)]. unfold update_write in H2.
  apply bind_cases in H2 as [(n & s2 & H1 & H2)|(x & H1 & ->)];
    unfold on_db in H1; destruct (update_grant _ _ _ _) as [r d] eqn:Hu; injection H1 as -> <-.
  - trans d; [|revert H2; unfold revoked_answer; case_bool_decide; by intros [= <- <-]].
    apply update_grant_cases in Hu as [(g' & Hg' & _ & _ & ->)|(_ & -> & _)]; [|done]. assert (g' = g) as -> by congruence.
    apply rtc_once. simpl. eapply move_change; [exact Hg|by eapply changed_update].
  - by apply update_grant_cases in Hu as [(? & _ & _ & [=] & _)|([=] & _)].
Qed.
End Handlers.
