(* ===== verification/ShapeFacts.v ===== *)
(** What validated grant settings satisfy, and that every row of the grant
    table does. *)
From Stdlib Require Import Ascii.
From S2P Require Import Prelude Db Json Numbers Schema SponsorPolicy GrantScope GrantBudgets BudgetFacts GrantShape AgentAccess RateLimiter Reconciliation StartJob GrantAdmin GrantLifecycle.

Set Warnings "-register-all".

Local Open Scope string_scope.

(** ** Validated lists *)

Lemma validated_all (P : string → Prop) name check l out r :
  (∀ s v, check s = Ret v → P v) → Forall P out → validated name check l out = Ret r → Forall P r.
Proof.
  intros Hc. revert out. induction l as [|x l IH]; intros out Hout; simpl; [by intros [= <-]|]. destruct x; try done.
  intros (v & Hv & Hr)%outcome_bind_ret. eapply IH; [|exact Hr]. unfold set_add. case_decide; [done|].
  apply Forall_app. split; [done|]. apply Forall_singleton. by eapply Hc.
Qed.

Lemma validate_list_all (P : string → Prop) name check raw r :
  (∀ s v, check s = Ret v → P v) → validate_list name check raw = Ret r → Forall P r.
Proof.
  intros Hc. unfold validate_list. destruct raw as [[]|]; try done; try (by intros [= <-]; apply Forall_nil_2).
  case_match; [done|]. intros Hr. eapply validated_all; [exact Hc|apply Forall_nil_2|exact Hr].
Qed.

Lemma token_types_hex name raw r : validateTokenTypeList name raw = Ret r → Forall (λ t, HEX64_RE t = true) r.
Proof.
  apply validate_list_all. intros s v. unfold token_type_entry. destruct (HEX64_RE _) eqn:E; [|done]. by intros [= <-].
Qed.

(** A contract address or circuit name. *)
Definition policy_word (v : string) : Prop :=
  v ≠ EmptyString ∧ (String.length v ≤ MAX_ENTRY_LENGTH)%nat ∧ all_chars is_word v = true.

Lemma policy_list_words name raw r : validatePolicyList name raw = Ret r → Forall policy_word r.
Proof.
  apply validate_list_all. intros s v. unfold policy_entry, is_empty. set (x := trim s). case_bool_decide as He; [done|].
  destruct (MAX_ENTRY_LENGTH <? String.length x)%nat eqn:El; [done|]. apply Nat.ltb_ge in El.
  destruct (all_chars is_word x) eqn:Ew; [|done]. by intros [= <-].
Qed.

(** ** Value limits *)

Definition limit_ok (e : string * string) : Prop := HEX64_RE e.1 = true ∧ positive_text e.2 = true.

Lemma value_entries_ok l out r :
  Forall limit_ok out → NoDup out.*1 → value_entries l out = Ret r → Forall limit_ok r ∧ NoDup r.*1.
Proof.
  revert out. induction l as [|x l IH]; intros out Ho Hd; simpl; [by intros [= <-]|].
  destruct (HEX64_RE (value_type x)) eqn:E1; [|done]. destruct (positive_text (value_amount x)) eqn:E2; [|done].
  destruct (map_has (value_type x) out) eqn:E3; [done|]. cbn [negb]. apply IH; [|by apply map_set_NoDup].
  rewrite map_set_absent by (unfold map_has in E3; by destruct (map_get _ out)). apply Forall_app. split; [done|]. by apply Forall_singleton.
Qed.

Lemma validate_value_ok raw r : validateValueBudget raw = Ret r → Forall limit_ok r ∧ NoDup r.*1.
Proof.
  assert (Forall limit_ok [] ∧ NoDup ([] : ValueBudgetMap).*1) as H0 by (split; [apply Forall_nil_2|apply NoDup_nil_2]).
  unfold validateValueBudget. destruct raw as [[]|]; try done; try (by intros [= <-]). case_match; [done|].
  apply value_entries_ok; apply H0.
Qed.

Lemma positive_digits s : positive_text s = true → all_digits_text s = true.
Proof.
  destruct s as [|a s]; [done|]. simpl. intros [Ha Hs]%andb_true_iff. unfold all_digits_text, non_empty, is_empty.
  simpl. rewrite Hs, andb_true_r. clear Hs. revert Ha. by destruct a as [[] [] [] [] [] [] [] []].
Qed.

(** What is stored reads back. *)
Lemma parse_list_text l : parseJsonStringList (list_text l) = l.
Proof. unfold list_text. case_bool_decide as H; [by rewrite H|]. apply parse_json_strings. Qed.

Lemma parse_value_limits m : Forall limit_ok m → parseValueBudgetMap (value_text m) = m.
Proof.
  intros H. unfold value_text. case_bool_decide as Hm; [by rewrite Hm|]. apply parse_value_text.
  eapply Forall_impl; [exact H|]. intros e [H1 H2]. split; [done|]. by apply positive_digits.
Qed.

(** ** The row *)

Lemma update_row v g :
  patch_grant (update_patch v) g =
  MkGrant (g_userId g) (g_sessionId g) (g_sponsorSessionId g) (nullish (v_agentLabel v) (g_agentLabel g)) (g_tokenHash g)
    (match v_allowedActions v with Some l => json_strings l | None => g_allowedActions g end)
    (nullish (v_maxJobsPerDay v) (g_maxJobsPerDay g)) (g_jobsUsedToday g) (g_budgetWindow g)
    (nullish (v_maxJobsPerHour v) (g_maxJobsPerHour g)) (g_jobsUsedThisHour g) (g_hourWindow g)
    (list_text (v_allowedContracts v)) (list_text (v_allowedCircuits v)) (Some (v_allowDeploy v)) (v_maxDeploys v)
    (g_deploysUsed g) (g_deployedContracts g) (list_text (v_allowedTokenTypes v)) (g_mintedTokenTypes g)
    (Some (v_allowUnshieldedOffers v)) (list_text (v_allowedUnshieldedTokenTypes v)) (value_text (v_maxValuePerDay v))
    (g_valueUsedToday g) (g_valueWindow g)
    (match v_validUntil v with Some t => instant t | None => g_validUntil g end) (g_isActive g) (g_revokedAt g).
Proof.
  destruct v as [[|] [|] [|] [|] [|]]; reflexivity.
Qed.

(** A stored grant, column by column and within what one write sets together. *)
Record grant_sound (g : Grant) : Prop := MkGrantSound {
  go_some : grant_actions g ≠ [];
  go_actions : Forall (λ a, a ∈ AGENT_ALLOWLISTABLE_ACTIONS) (grant_actions g);
  go_deploys : if is_true (g_allowDeploy g) then ∃ m, g_maxDeploys g = Some m ∧ (1 ≤ m ≤ 100)%Z else g_maxDeploys g = None;
  go_used : ∃ u, g_deploysUsed g = Some u ∧ (0 ≤ u)%Z;
  go_unshielded : parseJsonStringList (g_allowedUnshieldedTokenTypes g) ≠ [] → is_true (g_allowUnshieldedOffers g) = true;
  go_types : Forall (λ t, HEX64_RE t = true) (parseJsonStringList (g_allowedTokenTypes g) ++ parseJsonStringList (g_allowedUnshieldedTokenTypes g))%list;
  go_words : Forall policy_word (parseJsonStringList (g_allowedContracts g) ++ parseJsonStringList (g_allowedCircuits g))%list;
  go_budgets : ∀ b n, maxField b g = Some n → (1 ≤ n)%Z;
  go_values : Forall limit_ok (parseValueBudgetMap (g_maxValuePerDay g)) ∧ NoDup (parseValueBudgetMap (g_maxValuePerDay g)).*1;
  go_revoked : g_isActive g = Some (bool_decide (g_revokedAt g = None)) }.

(** What ties columns of different writes together. *)
Record grant_linked (g : Grant) : Prop := MkGrantLinked {
  gl_deploys : is_true (g_allowDeploy g) = true → sponsors_transactions (grant_actions g) = true;
  gl_offers : is_true (g_allowUnshieldedOffers g) = true → sponsors_transactions (grant_actions g) = true;
  gl_within : ∀ m, g_maxDeploys g = Some m → (nullish (g_deploysUsed g) 0 ≤ m)%Z }.

(** A stored grant as its owner may rely on it. *)
Definition grant_ok (g : Grant) : Prop := grant_sound g ∧ grant_linked g.

(** The same of settings, against the row they change. *)
Record values_ok (existing : option Grant) (v : GrantShapeValues) : Prop := MkValuesOk {
  vo_actions : match v_allowedActions v with
    | Some l => l ≠ [] ∧ Forall (λ a, a ∈ AGENT_ALLOWLISTABLE_ACTIONS) l
    | None => is_Some existing end;
  vo_deploys : if v_allowDeploy v
    then sponsors_transactions (effective_actions existing (v_allowedActions v)) = true ∧
         ∃ m, v_maxDeploys v = Some m ∧ (1 ≤ m ≤ 100)%Z ∧ (nullish (existing ≫= g_deploysUsed) 0 ≤ m)%Z
    else v_maxDeploys v = None;
  vo_offers : v_allowUnshieldedOffers v = true → sponsors_transactions (effective_actions existing (v_allowedActions v)) = true;
  vo_unshielded : v_allowedUnshieldedTokenTypes v ≠ [] → v_allowUnshieldedOffers v = true;
  vo_types : Forall (λ t, HEX64_RE t = true) (v_allowedTokenTypes v ++ v_allowedUnshieldedTokenTypes v)%list;
  vo_words : Forall policy_word (v_allowedContracts v ++ v_allowedCircuits v)%list;
  vo_budgets : ∀ n, v_maxJobsPerDay v = Some (Some n) ∨ v_maxJobsPerHour v = Some (Some n) → (1 ≤ n)%Z;
  vo_values : Forall limit_ok (v_maxValuePerDay v) ∧ NoDup (v_maxValuePerDay v).*1 }.

Section Validate.
Context (now : Z) (input : list (string * json)) (existing : option Grant).
Hypothesis existing_ok : ∀ g, existing = Some g → grant_sound g.

Lemma grantable_strings l :
  keep (λ a, negb (grantable a)) l = [] → Forall (λ a, a ∈ AGENT_ALLOWLISTABLE_ACTIONS) (strings_of l) ∧ length (strings_of l) = length l.
Proof.
  unfold keep, strings_of. induction l as [|x l IH]; [by split; [apply Forall_nil_2|]|]. rewrite filter_cons.
  destruct (grantable x) eqn:Ex; cbn [negb]; [|by rewrite decide_True]. rewrite decide_False by done. intros Hl.
  destruct (IH Hl) as [H1 H2]. destruct x; try done. simpl. split; [|by rewrite <- H2]. apply Forall_cons. split; [|done]. by apply mem_true.
Qed.

Lemma shape_actions_ok a : shape_actions input existing = inr a →
  match a with Some l => l ≠ [] ∧ Forall (λ a, a ∈ AGENT_ALLOWLISTABLE_ACTIONS) l | None => is_Some existing end.
Proof.
  unfold shape_actions, given. destruct (has input "allowedActions") eqn:Eh; cbn [orb].
  - destruct (map_get "allowedActions" input) as [[]|]; try done. destruct l as [|x l]; [done|].
    destruct (keep _ (x :: l)) eqn:Ek; [|done]. intros [= <-]. apply grantable_strings in Ek as [Hg Hl]. split; [|done].
    intros Hn. assert (strings_of (x :: l) = []) as Hn' by exact Hn. by rewrite Hn' in Hl.
  - case_bool_decide as He.
    + destruct (map_get "allowedActions" input) as [[]|]; try done. destruct l as [|x l]; [done|].
      destruct (keep _ (x :: l)) eqn:Ek; [|done]. intros [= <-]. apply grantable_strings in Ek as [Hg Hl]. split; [|done].
      intros Hn. assert (strings_of (x :: l) = []) as Hn' by exact Hn. by rewrite Hn' in Hl.
    + intros [= <-]. by apply not_eq_None_Some.
Qed.

Lemma shape_deploys_ok allow m : shape_deploys input existing allow = inr m →
  if allow then ∃ n, m = Some n ∧ (1 ≤ n ≤ 100)%Z ∧ (nullish (existing ≫= g_deploysUsed) 0 ≤ n)%Z else m = None.
Proof.
  unfold shape_deploys. destruct allow; [|case_bool_decide; [done|by intros [= <-]]].
  destruct (match deploys_raw input existing with None => Some 1%Z | Some raw => integer_of raw end) as [n|]; [|done].
  case_bool_decide as Hn; [done|]. destruct existing as [g|]; [case_bool_decide; [done|]|]; intros [= <-]; exists n; simpl; split_and!; try done; lia.
Qed.

Lemma shape_list_ok {A} (P : A → Prop) k validate (stored : Grant → A) r :
  (∀ raw r, validate raw = Ret r → P r) → (∀ g, existing = Some g → P (stored g)) →
  shape_list input existing k validate stored = inr r → P r.
Proof.
  intros Hv Hs. unfold shape_list, caught.
  destruct existing as [g|]; [destruct (has input k)|]; try (intros [= <-]; by apply Hs);
    destruct (validate (map_get k input)) eqn:E; try done; intros [= <-]; by eapply Hv.
Qed.

Lemma shape_budget_ok field b : shape_budget input existing field = inr b → ∀ n, b = Some (Some n) → (1 ≤ n)%Z.
Proof.
  unfold shape_budget. destruct (_ && _); [by intros [= <-]|]. destruct (value_of input field) as [v|]; [|by intros [= <-]].
  destruct (integer_of v) as [n0|]; [|done]. case_bool_decide; [done|]. intros [= <-] n [= <-]. lia.
Qed.

Lemma fail_if_inr c m u : fail_if c m = inr u → c = false.
Proof. by destruct c. Qed.

Lemma validate_ok v : validateGrantShape now input existing = inr v → values_ok existing v.
Proof using existing_ok.
  unfold validateGrantShape. intros H.
  apply shape_bind_inr in H as (actions & Ha%shape_actions_ok & H). apply shape_bind_inr in H as (? & Hd%fail_if_inr & H).
  apply shape_bind_inr in H as (maxDeploys & Hm%shape_deploys_ok & H). apply shape_bind_inr in H as (? & Ho%fail_if_inr & H).
  apply shape_bind_inr in H as (contracts & H1 & H). apply shape_bind_inr in H as (circuits & H2 & H).
  apply shape_bind_inr in H as (types & H3 & H). apply shape_bind_inr in H as (unshielded & H4 & H).
  apply shape_bind_inr in H as (values & H5 & H). apply shape_bind_inr in H as (? & Hu%fail_if_inr & H).
  apply shape_bind_inr in H as (perDay & Hb1 & H). apply shape_bind_inr in H as (perHour & Hb2 & H).
  apply shape_bind_inr in H as (until & _ & H). apply shape_bind_inr in H as (label & _ & [= <-]).
  split; simpl.
  - done.
  - destruct (flag_of _ _ "allowDeploy" _); [|done]. split; [|done]. cbn [andb] in Hd. by apply negb_false_iff in Hd.
  - intros Hoff. rewrite Hoff in Ho. cbn [andb] in Ho. by apply negb_false_iff in Ho.
  - intros Hne. apply andb_false_iff in Hu as [Hu|Hu]; [|by apply negb_false_iff in Hu].
    by apply negb_false_iff, bool_decide_eq_true_1 in Hu.
  - apply Forall_app. split; (eapply (shape_list_ok (Forall (λ t, HEX64_RE t = true))); [apply token_types_hex| |first [exact H3|exact H4]]); intros g Hg;
      pose proof (go_types _ (existing_ok g Hg)) as Hg2; apply Forall_app in Hg2; apply Hg2.
  - apply Forall_app. split; (eapply (shape_list_ok (Forall policy_word)); [apply policy_list_words| |first [exact H1|exact H2]]); intros g Hg;
      pose proof (go_words _ (existing_ok g Hg)) as Hg2; apply Forall_app in Hg2; apply Hg2.
  - intros n [Hn|Hn]; [by apply (shape_budget_ok _ _ Hb1)|by apply (shape_budget_ok _ _ Hb2)].
  - eapply (shape_list_ok (λ r, Forall limit_ok r ∧ NoDup r.*1)); [| |exact H5]; [apply validate_value_ok|].
    intros g Hg. apply (go_values _ (existing_ok g Hg)).
Qed.
End Validate.

(** ** Every row stays well-formed *)

(** The settings of a row, from validated values. *)
Lemma row_sound g existing v :
  values_ok existing v →
  match v_allowedActions v with
  | Some l => grant_actions g = l
  | None => grant_actions g ≠ [] ∧ Forall (λ a, a ∈ AGENT_ALLOWLISTABLE_ACTIONS) (grant_actions g) end →
  g_allowDeploy g = Some (v_allowDeploy v) → g_maxDeploys g = v_maxDeploys v → (∃ u, g_deploysUsed g = Some u ∧ 0 ≤ u)%Z →
  g_allowUnshieldedOffers g = Some (v_allowUnshieldedOffers v) →
  g_allowedContracts g = list_text (v_allowedContracts v) → g_allowedCircuits g = list_text (v_allowedCircuits v) →
  g_allowedTokenTypes g = list_text (v_allowedTokenTypes v) →
  g_allowedUnshieldedTokenTypes g = list_text (v_allowedUnshieldedTokenTypes v) →
  g_maxValuePerDay g = value_text (v_maxValuePerDay v) →
  (∀ b n, maxField b g = Some n → (1 ≤ n)%Z) → g_isActive g = Some (bool_decide (g_revokedAt g = None)) → grant_sound g.
Proof.
  intros [Ha Hd Ho Hu Ht Hw Hb Hv] Eact E1 E2 Hused E3 E4 E5 E6 E7 E8 Hbud Hrev.
  assert (grant_actions g ≠ [] ∧ Forall (λ a, a ∈ AGENT_ALLOWLISTABLE_ACTIONS) (grant_actions g)) as [Hne Hall].
  { destruct (v_allowedActions v) as [l|]; [by rewrite Eact|done]. }
  split; rewrite ?E1, ?E2, ?E3, ?E4, ?E5, ?E6, ?E7, ?E8, ?parse_list_text, ?(parse_value_limits _ (proj1 Hv)); try done.
  - unfold is_true. destruct (v_allowDeploy v); [|done]. destruct Hd as (_ & m & ? & ? & _). by exists m.
  - unfold is_true. intros Hne'. by rewrite (Hu Hne').
Qed.

(** The links, when the row is the one the settings were checked against. *)
Lemma row_linked g existing v :
  values_ok existing v → grant_actions g = effective_actions existing (v_allowedActions v) →
  g_allowDeploy g = Some (v_allowDeploy v) → g_maxDeploys g = v_maxDeploys v →
  nullish (g_deploysUsed g) 0%Z = nullish (existing ≫= g_deploysUsed) 0%Z →
  g_allowUnshieldedOffers g = Some (v_allowUnshieldedOffers v) → grant_linked g.
Proof.
  intros [Ha Hd Ho _ _ _ _ _] Eact E1 E2 Eu E3. split; rewrite ?E1, ?E2, ?E3, ?Eact, ?Eu.
  - intros Hx%bool_decide_eq_true_1. injection Hx as Hx. rewrite Hx in Hd. apply Hd.
  - intros Hx%bool_decide_eq_true_1. injection Hx as Hx. by apply Ho.
  - destruct (v_allowDeploy v); [|by rewrite Hd]. destruct Hd as (_ & m & -> & _ & Hm). by intros ? [= <-].
Qed.

Lemma created_ok g : created g → grant_ok g.
Proof.
  intros [hash user session data v label random now input Hv ->]. apply validate_ok in Hv; [|done].
  pose proof Hv as [Ha _ _ _ _ _ Hb _].
  destruct (v_allowedActions v) as [l|] eqn:El; [|by destruct Ha].
  assert (∀ r, grant_actions (newGrantRow hash user session data v r label random).1 = r) as Hr.
  { intros r. unfold grant_actions, newGrantRow. cbn [g_allowedActions fst]. by rewrite parse_json_strings. }
  split.
  - eapply row_sound; try done; rewrite ?El; try done; [by exists 0%Z|].
    intros [] n; simpl; intros Hn; apply Hb; [right|left]; (destruct (v_maxJobsPerHour v), (v_maxJobsPerDay v); simpl in *; congruence).
  - eapply row_linked; try done. rewrite El, Hr. done.
Qed.

(** Settings checked against any earlier row, written over a sound one. *)
Lemma stale_update_sound existing v g : values_ok existing v → grant_sound g → grant_sound (patch_grant (update_patch v) g).
Proof.
  intros Hv Hok. pose proof Hv as [Ha _ _ _ _ _ Hb _]. rewrite update_row. destruct (go_used g Hok) as (u & Hu & Hu0).
  eapply row_sound; try done; cbn.
  - unfold grant_actions. cbn. destruct (v_allowedActions v) as [l|]; [apply (parse_json_strings l)|]. split; [apply (go_some g Hok)|apply (go_actions g Hok)].
  - by exists u.
  - intros b n Hn. destruct b; simpl in Hn.
    + destruct (v_maxJobsPerHour v) as [o|] eqn:E; [simpl in Hn; subst o; apply Hb; auto|by apply (go_budgets g Hok HOUR_BUDGET)].
    + destruct (v_maxJobsPerDay v) as [o|] eqn:E; [simpl in Hn; subst o; apply Hb; auto|by apply (go_budgets g Hok DAY_BUDGET)].
  - apply (go_revoked g Hok).
Qed.

Lemma updated_ok now data v g :
  grant_ok g → validateGrantShape now data (Some g) = inr v → grant_ok (patch_grant (update_patch v) g).
Proof.
  intros [Hok _] Hv. apply validate_ok in Hv; [|by intros ? [= <-]]. split; [by eapply stale_update_sound|].
  rewrite update_row. eapply row_linked; try done. unfold grant_actions. cbn. destruct (v_allowedActions v) as [l|]; [apply (parse_json_strings l)|done].
Qed.

Lemma used_sound u g : (0 ≤ u)%Z → grant_sound g → grant_sound (patch_grant [GSetDeploysUsed (Some u)] g).
Proof. intros Hu []. split; try done. by exists u. Qed.

Lemma changed_sound g g' : changed g g' → grant_sound g → grant_sound g'.
Proof.
  intros [now data v Ha Hv|now Ha|h Ha|n u Ha Hd Hu Hn Hm|n u Hu Hn|g'' Hs Hu] Hok.
  - eapply stale_update_sound; [|done]. eapply validate_ok; [|exact Hv]. by intros ? [= <-].
  - destruct Hok. by split.
  - destruct Hok. by split.
  - apply used_sound; [|done]. destruct (go_used g Hok) as (u0 & Hu0 & ?). rewrite Hu in Hu0. injection Hu0 as <-. lia.
  - apply used_sound; [lia|done].
  - unfold settings_of in Hs. injection Hs as _ _ _ _ _ E1 E2 E3 E4 E5 E6 E7 E8 E9 E10 E11 _ E12 E13.
    destruct Hok as [? ? ? ? ? ? ? ? ? ?].
    split; unfold grant_actions in *; rewrite ?E1, ?E4, ?E5, ?E6, ?E7, ?E8, ?E9, ?E10, ?E11, ?E12, ?E13, ?Hu; try done.
    intros b n. destruct b; simpl; [rewrite E3; apply (go_budgets0 HOUR_BUDGET)|rewrite E2; apply (go_budgets0 DAY_BUDGET)].
Qed.

Lemma changed_ok g g' : changed g g' → grant_ok g → grant_ok g'.
Proof.
  intros Hc Hok. split; [eapply changed_sound; [exact Hc|apply Hok]|]. destruct Hok as [Hok [L1 L2 L3]].
  destruct Hc as [now data v Ha Hv|now Ha|h Ha|n u Ha Hd Hu Hn Hm|n u Hu Hn|g'' Hs Hu].
  - by eapply (updated_ok _ _ _ _ (conj Hok (MkGrantLinked _ L1 L2 L3))).
  - by split.
  - by split.
  - split; [done|done|]. cbn. intros m Em. rewrite Em in Hm. exact Hm.
  - split; [done|done|]. cbn. intros m Em. specialize (L3 m Em). rewrite Hu in L3. simpl in L3. lia.
  - unfold settings_of in Hs. injection Hs as _ _ _ _ _ E1 E2 E3 E4 E5 E6 E7 E8 E9 E10 E11 _ E12 E13.
    split; unfold grant_actions in *; rewrite ?E1, ?E6, ?E7, ?E9, ?Hu; done.
Qed.

Lemma moves_ok d d' : moves d d' → map_Forall (λ _, grant_ok) (grants d) → map_Forall (λ _, grant_ok) (grants d').
Proof.
  unfold moves. intros H. induction H as [|t1 t2 t3 Hm _ IH]; [done|]. intros Hok. apply IH.
  destruct Hm as [id g Hid Hc|id g g' Hg Hc]; apply map_Forall_insert_2; try done; [by apply created_ok|].
  eapply changed_ok; [exact Hc|]. by apply (Hok id).
Qed.

Lemma moves_sound d d' : moves d d' → map_Forall (λ _, grant_sound) (grants d) → map_Forall (λ _, grant_sound) (grants d').
Proof.
  unfold moves. intros H. induction H as [|t1 t2 t3 Hm _ IH]; [done|]. intros Hok. apply IH.
  destruct Hm as [id g Hid Hc|id g g' Hg Hc]; apply map_Forall_insert_2; try done; [by apply created_ok|].
  eapply changed_sound; [exact Hc|]. by apply (Hok id).
Qed.
