(* ===== verification/GrantMachine.v ===== *)
(** The grant table under all the code that writes it: the handlers of the
    owner and the budgets of the token's requests implement the abstract
    lifecycle, so its invariants are theirs. Each operation runs undisturbed by
    the others, except that an owner's update may read the row long before it
    writes it ([overlap_step]); the interleaving of the budgets' statements is in
    BudgetFacts.v. *)
From Stdlib Require Import Ascii.
From S2P Require Import Prelude Db Json Numbers Schema SponsorPolicy GrantScope GrantBudgets BudgetFacts GrantShape AgentAccess AccessFacts RateLimiter Reconciliation StartJob GrantAdmin GrantLifecycle ShapeFacts.

Set Warnings "-register-all".

Local Open Scope string_scope.

(** ** The operations *)

Definition on_rows {A} (m : M Database A) (s s' : AdminState) : Prop := ∃ o, on_db m s = (o, s').

Inductive grant_op (s : AdminState) : AdminState → Prop :=
| op_create hash e caller data id random o s' : createAgentGrant hash e caller data id random s = (o, s') → grant_op s s'
| op_create_many hash e caller data fresh o s' : createAgentGrants hash e caller data fresh s = (o, s') → grant_op s s'
| op_update e caller data o s' : updateAgentGrant e caller (mret tt) data s = (o, s') → grant_op s s'
| op_revoke e caller data o s' : revokeAgentGrant e caller data s = (o, s') → grant_op s s'
| op_rotate hash e caller data random o s' : rotateAgentGrantToken hash e caller data random s = (o, s') → grant_op s s'
| op_enforce `{ScanOrder} hash parse cfg now q s' : on_rows (enforceAgentGrant hash parse cfg now q) s s' → grant_op s s'
| op_refund now id b s' : on_rows (refundBudget now id b) s s' → grant_op s s'
| op_value now id ty a s' : on_rows (consumeValueBudget now id ty a) s s' → grant_op s s'
| op_value_refund now id ty a s' : on_rows (refundValueBudget now id ty a) s s' → grant_op s s'
| op_reserve id n s' : on_rows (reserveDeployBudget id n) s s' → grant_op s s'
| op_release id n s' : on_rows (releaseDeployBudget id n) s s' → grant_op s s'
| op_deployed id l s' : on_rows (recordDeployedContracts id l) s s' → grant_op s s'
| op_minted id l s' : on_rows (recordMintedTokenTypes id l) s s' → grant_op s s'.

Lemma on_rows_moves {A} (m : M Database A) s s' : db_moves m → on_rows m s s' → moves (a_db s) (a_db s').
Proof. intros Hm [o Ho]. by apply (admin_moves_db m Hm s o). Qed.

Lemma refund_all_moves now id taken : db_moves (refund_all now id taken).
Proof.
  induction taken as [|b taken IH]; simpl; [apply db_moves_ret|]. apply db_moves_bind; [apply refundBudget_moves|done].
Qed.

Lemma take_budgets_moves now id g bs taken : db_moves (take_budgets now id g bs taken).
Proof.
  revert taken. induction bs as [|b bs IH]; intros taken; simpl; [apply db_moves_ret|]. destruct (maxField b g); [|apply IH].
  apply db_moves_bind; [apply consumeBudget_moves|]. intros []; [apply IH|].
  apply db_moves_bind; [apply refund_all_moves|]. intros. apply db_moves_ret.
Qed.

Lemma enforce_moves `{ScanOrder} hash parse cfg now q : db_moves (enforceAgentGrant hash parse cfg now q).
Proof.
  intros d o d'. unfold enforceAgentGrant. destruct (token_of q); [|by intros [= <- <-]]. destruct (negb _); [by intros [= <- <-]|].
  destruct (grant_by_token _ _ _) as [[id g]|]; [|by intros [= <- <-]]. destruct (grantExpired g now); [by intros [= <- <-]|].
  case_bool_decide; [by intros [= <- <-]|]. destruct (admit_request _ _ _ _ _) as [[st m]|[q1 listed]]; [by intros [= <- <-]|].
  apply db_moves_bind; [|intros r; destruct r; apply db_moves_ret]. destruct listed; [apply take_budgets_moves|apply db_moves_ret].
Qed.

Lemma grant_op_moves s s' : grant_op s s' → moves (a_db s) (a_db s').
Proof.
  intros [hash e caller data id random o t H|hash e caller data fresh o t H|e caller data o t H|e caller data o t H|hash e caller data random o t H
         |? hash parse cfg now q t H|now id b t H|now id ty a t H|now id ty a t H|id n t H|id n t H|id l t H|id l t H].
  - by eapply createAgentGrant_moves.
  - by eapply createAgentGrants_moves.
  - by eapply updateAgentGrant_moves.
  - by eapply revokeAgentGrant_moves.
  - by eapply rotateAgentGrantToken_moves.
  - by eapply on_rows_moves; [apply enforce_moves|].
  - by eapply on_rows_moves; [apply refundBudget_moves|].
  - by eapply on_rows_moves; [apply consumeValueBudget_moves|].
  - by eapply on_rows_moves; [apply refundValueBudget_moves|].
  - by eapply on_rows_moves; [apply reserveDeployBudget_moves|].
  - by eapply on_rows_moves; [apply releaseDeployBudget_moves|].
  - by eapply on_rows_moves; [apply recordDeployedContracts_moves|].
  - by eapply on_rows_moves; [apply recordMintedTokenTypes_moves|].
Qed.

Lemma grant_ops_moves s s' : rtc grant_op s s' → moves (a_db s) (a_db s').
Proof. induction 1 as [s|s1 s2 s3 H _ IH]; [done|]. trans (a_db s2); [by apply grant_op_moves|done]. Qed.

(** ** What holds of them all *)

(** C27. The handlers and the budget code implement the lifecycle of a grant:
    however they follow one another, one after the other, with any arguments and at any times, the
    grant table moves only by its transitions: a row is created from validated
    settings, changed by validated settings while active, revoked once,
    re-keyed while active, and its deploys are reserved within its limit and
    given back within what was used; every other write touches usage alone. *)
Theorem handlers_refine_lifecycle s s' : rtc grant_op s s' → rtc grant_move (grants (a_db s)) (grants (a_db s')).
Proof. apply grant_ops_moves. Qed.

(** *** Updates that overlap *)

(** An update between its read and its write: its request, its user, its settings. *)
Definition Pending : Type := list (string * json) * string * GrantShapeValues.

Inductive overlap_step : AdminState * list Pending → AdminState * list Pending → Prop :=
| ov_op s s' p : grant_op s s' → overlap_step (s, p) (s', p)
| ov_read e caller data user v s s' p : update_checks e caller data s = (Ret (Answer (user, v)), s') → overlap_step (s, p) (s', (data, user, v) :: p)
| ov_write p1 data user v p2 s o s' : update_write data user v s = (o, s') →
    overlap_step (s, (p1 ++ (data, user, v) :: p2)%list) (s', (p1 ++ p2)%list).

Definition pending_ok (p : Pending) : Prop := ∃ existing, values_ok existing p.2.

Definition rows_sound (c : AdminState * list Pending) : Prop := map_Forall (λ _, grant_sound) (grants (a_db c.1)) ∧ Forall pending_ok c.2.

Lemma write_sound data user v s o s' : pending_ok (data, user, v) → update_write data user v s = (o, s') →
  map_Forall (λ _, grant_sound) (grants (a_db s)) → map_Forall (λ _, grant_sound) (grants (a_db s')).
Proof.
  intros [existing Hv] Hw Hs. unfold update_write in Hw. apply bind_cases in Hw as [(n & s1 & H1 & H2)|(x & H1 & ->)];
    unfold on_db in H1; destruct (update_grant _ _ _ _) as [r d] eqn:Hu; injection H1 as -> <-.
  - assert (a_db s' = d) as -> by (revert H2; unfold revoked_answer; case_bool_decide; by intros [= <- <-]).
    apply update_grant_cases in Hu as [(g & Hg & _ & _ & ->)|(_ & -> & _)]; [|done].
    apply map_Forall_insert_2; [|done]. eapply stale_update_sound; [exact Hv|]. by apply (Hs (grant_id data)).
  - by apply update_grant_cases in Hu as [(? & _ & _ & [=] & _)|([=] & _)].
Qed.

Lemma overlap_sound c c' : overlap_step c c' → rows_sound c → rows_sound c'.
Proof.
  intros [s s' p Hop|e caller data user v s s' p Hr|p1 data user v p2 s o s' Hw] [Hs Hp]; simpl in *.
  - split; [|done]. by eapply moves_sound, Hs; apply grant_op_moves.
  - apply update_checks_spec in Hr as [Hdb Hok]. destruct (Hok _ _ eq_refl) as (g & Hg & _ & Hv). split; simpl; [by rewrite Hdb|].
    apply Forall_cons. split; [|done]. exists (Some g). eapply validate_ok; [|exact Hv]. intros ? [= <-]. by apply (Hs (grant_id data)).
  - apply Forall_app in Hp as [Hp1 [Hp Hp2]%Forall_cons]. split; [|by apply Forall_app]. by eapply write_sound.
Qed.

(** C28. Every stored grant stays well-formed. Run one after the other, the
    handlers and the budget code keep it whole: its actions are grantable and at
    least one; the right to deploy or to move unshielded tokens comes with a
    sponsoring action; its deploys stay within a limit of 1 to 100 that exists
    exactly while deploying is allowed; its budgets are positive, its token
    types, contracts and value limits well-formed; and it is active exactly until it
    is revoked. When updates overlap, so that any number of them read the row and
    write it after other operations and other updates, all of this stays but for
    two ties between columns that different writes set: that those rights come with
    a sponsoring action, and that the deploys used stay within the limit. *)
Theorem grants_stay_well_formed s :
  map_Forall (λ _, grant_ok) (grants (a_db s)) →
  (∀ s', rtc grant_op s s' → map_Forall (λ _, grant_ok) (grants (a_db s'))) ∧
  (∀ s' pending, rtc overlap_step (s, []) (s', pending) → map_Forall (λ _, grant_sound) (grants (a_db s'))).
Proof.
  intros Hok. split.
  - intros s' Hs. exact (moves_ok _ _ (grant_ops_moves _ _ Hs) Hok).
  - intros s' pending Hs. assert (rows_sound (s, [])) as Hsound.
    { split; [|constructor]. intros id g Hg. by destruct (Hok id g Hg). }
    assert (rows_sound (s', pending)) as [H _]; [|exact H]. revert Hsound. generalize (s, [] : list Pending) (s', pending) Hs.
    induction 1 as [c|c1 c2 c3 Hc _ IH]; [done|]. intros H. by eapply IH, overlap_sound.
Qed.

Lemma changed_revoked g g' : changed g g' → g_isActive g = Some false → settings_of g' = settings_of g.
Proof.
  intros [now data v Ha Hv|now Ha|h Ha|n u Ha Hd Hu Hn Hm|n u Hu Hn|g'' Hs Hu] Hr; try congruence. done.
Qed.

(** A revoked grant is revoked for good: whatever follows, its row stays,
    inactive and with the settings it had, and no token opens it. *)
Theorem revoked_grant_is_final s s' id g :
  grants (a_db s) !! id = Some g → g_isActive g = Some false → rtc grant_op s s' →
  (∃ g', grants (a_db s') !! id = Some g' ∧ settings_of g' = settings_of g) ∧
  ∀ `{ScanOrder} hash token, (fst <$> grant_by_token hash token (a_db s')) ≠ Some id.
Proof.
  intros Hg Hr Hs%grant_ops_moves.
  assert (∃ g', grants (a_db s') !! id = Some g' ∧ settings_of g' = settings_of g) as (g' & Hg' & Hset).
  { unfold moves in Hs. revert g Hg Hr. induction Hs as [t|t1 t2 t3 Hm _ IH]; intros g Hg Hr; [by exists g|].
    destruct Hm as [id' g' Hid Hc|id' g1 g2 Hg1 Hc].
    - apply IH; [|done]. by rewrite lookup_insert_ne by congruence.
    - destruct (decide (id' = id)) as [->|Hne]; [|apply IH; [by rewrite lookup_insert_ne|done]]. simplify_eq.
      pose proof (changed_revoked _ _ Hc Hr) as Hset. destruct (IH g2) as (g3 & Hg3 & Hs3); [by rewrite lookup_insert_eq| |].
      + unfold settings_of in Hset. congruence.
      + exists g3. split; [done|congruence]. }
  split; [eauto|]. intros ? hash token Hf. apply fmap_Some in Hf as ([i g2] & Hf & ->).
  apply head_Some_elem_of, elem_of_select in Hf as [Hg2 Hw]. simpl in *. simplify_eq.
  apply andb_true_iff in Hw as [_ Hw%bool_decide_eq_true_1]. unfold settings_of in Hset. congruence.
Qed.

(** *** A concrete grant: created, narrowed, revoked *)

Definition no_settings : Settings := MkSettings (λ _, []) (λ _, false) (λ _, None).
Definition alice_session : WalletSession := MkSession "session-1" (Some "alice") (Some true) None true true.
Definition admin_env : AdminEnv :=
  MkAdminEnv (minute 660) no_settings (λ _, MkFile None None) [] (MkSponsorConfig [] None) [alice_session] (λ _, true) None (Some 5%Z) 10.
Definition alice : Caller := MkCaller (Some "alice") None None.

Definition empty_state : AdminState := MkAdminState (MkDatabase ∅ ∅ ∅ None) None (MkLimiter [] []).

Definition creation : list (string * json) := [
  ("sessionId", JStr "session-1"); ("allowedActions", JArr [JStr "sponsorUnboundTransaction"; JStr "mintFactoryToken"]);
  ("allowDeploy", JBool true); ("maxDeploys", JInt 2); ("maxJobsPerDay", JInt 10) ].

Definition created_state : AdminState := (createAgentGrant sample_hash admin_env alice creation "g1" "00ff" empty_state).2.
Definition narrowed_state : AdminState :=
  (updateAgentGrant admin_env alice (mret tt) [("grantId", JStr "g1"); ("allowDeploy", JBool false); ("allowedActions", JArr [JStr "mintFactoryToken"])] created_state).2.
Definition revoked_state : AdminState := (revokeAgentGrant admin_env alice [("grantId", JStr "g1")] narrowed_state).2.

Example grant_life :
  (createAgentGrant sample_hash admin_env alice creation "g1" "00ff" empty_state).1 = Ret (Answer ("g1", "ngat_00ff")) ∧
  (updateAgentGrant admin_env alice (mret tt) [("grantId", JStr "g1"); ("allowedActions", JArr [JStr "mintFactoryToken"])] created_state).1 =
    Ret (Refuse 400 None deploy_needs_sponsoring) ∧
  (g_maxDeploys <$> grants (a_db narrowed_state) !! "g1") = Some None ∧
  (updateAgentGrant admin_env alice (mret tt) [("grantId", JStr "g1"); ("maxJobsPerDay", JNull)] revoked_state).1 =
    Ret (Refuse 409 (Some "GRANT_REVOKED") "Grant is revoked").
Proof. vm_compute. auto. Qed.

Lemma created_run : rtc grant_op empty_state created_state.
Proof. apply rtc_once. eapply (op_create _ sample_hash admin_env alice creation "g1" "00ff"). apply surjective_pairing. Qed.

Lemma handlers_refine_lifecycle_witness :
  (g_tokenHash <$> grants (a_db created_state) !! "g1") = Some "hash of ngat_00ff" ∧
  rtc grant_move (grants (a_db empty_state)) (grants (a_db created_state)).
Proof. split; [vm_compute; reflexivity|]. apply (handlers_refine_lifecycle empty_state created_state created_run). Defined.

Definition g1_of (s : AdminState) : Grant := nullish (grants (a_db s) !! "g1") (hour_grant 0).

Lemma grants_stay_well_formed_witness : grant_ok (g1_of created_state) ∧ g_maxDeploys (g1_of created_state) = Some 2%Z.
Proof.
  split; [|vm_compute; reflexivity].
  refine (proj1 (grants_stay_well_formed empty_state (map_Forall_empty _)) created_state created_run "g1" _ _). vm_compute. reflexivity.
Defined.

(** The owner takes away the right to deploy and its sponsoring action while
    another of their requests, which edits the label alone, is between its read
    and its write: the label's write puts the right to deploy back. *)
Definition narrow : M AdminState unit :=
  _ ← updateAgentGrant admin_env alice (mret tt)
        [("grantId", JStr "g1"); ("allowDeploy", JBool false); ("allowedActions", JArr [JStr "mintFactoryToken"])];
  mret tt.
Definition relabelled : outcome (AdminAnswer (list string)) * AdminState :=
  updateAgentGrant admin_env alice narrow [("grantId", JStr "g1"); ("agentLabel", JStr "printer")] created_state.

Example label_edit_restores_deploys :
  relabelled.1 = Ret (Answer ["agentLabel"]) ∧ g_allowDeploy (g1_of relabelled.2) = Some true ∧
  g_maxDeploys (g1_of relabelled.2) = Some 2%Z ∧ grant_actions (g1_of relabelled.2) = ["mintFactoryToken"] ∧
  ¬ grant_ok (g1_of relabelled.2).
Proof.
  split_and!; [vm_compute; reflexivity..|]. intros [_ [Hd _ _]]. vm_compute in Hd. specialize (Hd eq_refl). discriminate Hd.
Qed.

Lemma revoked_grant_is_final_witness :
  (rotateAgentGrantToken sample_hash admin_env alice [("grantId", JStr "g1")] "11" revoked_state).1 = Ret (Refuse 404 None "Grant not found") ∧
  ∃ g', grants (a_db (rotateAgentGrantToken sample_hash admin_env alice [("grantId", JStr "g1")] "11" revoked_state).2) !! "g1" = Some g' ∧
        settings_of g' = settings_of (g1_of revoked_state).
Proof.
  split; [vm_compute; reflexivity|].
  refine (proj1 (revoked_grant_is_final revoked_state
    (rotateAgentGrantToken sample_hash admin_env alice [("grantId", JStr "g1")] "11" revoked_state).2 "g1" (g1_of revoked_state) _ _ _)).
  - vm_compute. reflexivity.
  - vm_compute. reflexivity.
  - apply rtc_once. eapply (op_rotate _ sample_hash admin_env alice [("grantId", JStr "g1")] "11"). apply surjective_pairing.
Defined.
