(* ===== verification/Rollback.v ===== *)
(** Removing indexed blocks from a height upwards (srv/crawler/rollback.ts).

    The whole runs in the caller's transaction: when the database fails a
    statement, nothing of it stays.

    The first part holds the tables of the index (db/schema.cds) as the crawler
    writes them. A row's ID is its key. Columns that neither a rollback nor the
    balance bookkeeping reads or writes are left out. A table whose rows matter only
    through the row they belong to is a table of references. A BigInt or Decimal
    column holds the integer; CAP hands it over as decimal text ([column]). *)
From S2P Require Import Prelude Db Json Numbers Schema Reconciliation.

Local Open Scope string_scope.

(** srv/crawler/block-events.ts *)
Definition NIGHT_RAW_TOKEN_TYPE : string :=
  "0000000000000000000000000000000000000000000000000000000000000000".

Record BlockRow := MkBlock {
  b_hash : string; b_height : Z; b_protocolVersion : Z; b_timestamp : Z; b_author : option string;
  b_slot : option Z; b_stateRoot : option string; b_parent : option string }.

Inductive PayloadDecodeState := Decoded | Absent | FailedDecode.
#[export] Instance PayloadDecodeState_eq_dec : EqDecision PayloadDecodeState.
Proof. solve_decision. Defined.

(** The columns of a transaction that come from its decoded payload. *)
Record PayloadCols := MkPayloadCols {
  py_decode : option PayloadDecodeState; py_identifiers : option json_text; py_zswapInputCount : option Z;
  py_zswapOutputCount : option Z; py_zswapTransientCount : option Z; py_dustSpendCount : option Z;
  py_dustRegistrationCount : option Z; py_dustConsumed : option Z }.

Definition no_payload : PayloadCols := MkPayloadCols None None None None None None None None.

Record TxRow := MkTx {
  t_transactionId : Z; t_hash : string; t_ledgerTxHash : option string; t_protocolVersion : Z;
  t_raw : option string; t_transactionType : string; t_txType : string; t_isShielded : option bool;
  t_senderAddress : option string; t_receiverAddress : option string; t_nightAmount : option Z;
  t_hasProof : option bool; t_contractAddress : option string; t_circuitName : option string;
  t_size : Z; t_block : string; t_payload : PayloadCols }.

Record UtxoRow := MkUtxo {
  u_owner : string; u_tokenType : string; u_value : Z; u_intentHash : string; u_outputIndex : Z;
  u_ctime : option Z; u_initialNonce : string;
  u_createdAtTransaction : string; u_spentAtTransaction : option string }.

Definition set_spent (s : option string) (u : UtxoRow) : UtxoRow :=
  MkUtxo (u_owner u) (u_tokenType u) (u_value u) (u_intentHash u) (u_outputIndex u) (u_ctime u)
    (u_initialNonce u) (u_createdAtTransaction u) s.

Record ActionRow := MkAction {
  ca_actionIndex : Z; ca_address : option string; ca_actionType : string; ca_entryPoint : option string;
  ca_transaction : option string }.

Record ResultRow := MkTxResult {
  tr_status : string; tr_outcomeSource : option string; tr_transaction : option string }.

Record FeeRow := MkFee { tf_paidFees : Z; tf_estimatedFees : Z; tf_transaction : option string }.

(** A lookup row; its key is the pair of its columns ([identifier_key]). *)
Record IdentifierRow := MkIdentifier { id_identifier : string; id_transaction : string }.

Definition identifier_key (r : IdentifierRow) : string :=
  (pretty (String.length (id_identifier r)) ++ ":" ++ id_identifier r ++ id_transaction r)%string.

Record NightBalance := MkNightBalance {
  nb_balance : Z; nb_utxoCount : Z; nb_txSentCount : Z; nb_txReceivedCount : Z;
  nb_totalSent : Z; nb_totalReceived : Z; nb_firstSeenHeight : option Z; nb_firstSeenAt : option Z;
  nb_lastActivityHeight : option Z; nb_lastActivityAt : option Z; nb_dustAddress : option string;
  nb_isDustRegistered : option bool; nb_lastUpdatedHeight : option Z; nb_lastUpdatedAt : option Z }.

(** Rows that only belong to another row: their reference column. *)
Definition Refs : Type := gmap string (option string).

(** The row another row belongs to. *)
Class Ref (R : Type) := ref : R → option string.
#[export] Instance Ref_column : Ref (option string) := λ r, r.
#[export] Instance Ref_action : Ref ActionRow := ca_transaction.
#[export] Instance Ref_result : Ref ResultRow := tr_transaction.
#[export] Instance Ref_identifier : Ref IdentifierRow := λ r, Some (id_transaction r).
#[export] Instance Ref_fee : Ref FeeRow := tf_transaction.

(** The SyncState row, besides [reorgGeneration]. *)
Record SyncCols := MkSync {
  sy_lastIndexedHeight : option Z; sy_lastIndexedHash : option string; sy_lastIndexedAt : option Z;
  sy_lastDecodedHeight : option Z; sy_lastSupplementedHeight : option Z; sy_syncStatus : string;
  sy_syncProgress : option Z }.

(** [ix_main] holds the tables of the job system and the rollback counter; the
    SyncState row exists when the counter's column does. *)
Record IndexDb := MkIndexDb {
  ix_blocks : gmap string BlockRow; ix_transactions : gmap string TxRow;
  ix_contractActions : gmap string ActionRow;
  ix_contractBalances : Refs; (** contractAction *)
  ix_contractStates : gmap string Z; (** address to height *)
  ix_utxos : gmap string UtxoRow;
  ix_zswapEvents : Refs; ix_dustEvents : Refs; (** transaction *)
  ix_fees : gmap string FeeRow; ix_results : gmap string ResultRow;
  ix_segments : Refs; (** transactionResult *)
  ix_identifiers : gmap string IdentifierRow;
  ix_nightBalances : gmap string NightBalance; ix_sync : SyncCols; ix_main : Database }.

Definition with_nightBalances (t : gmap string NightBalance) (d : IndexDb) : IndexDb :=
  MkIndexDb (ix_blocks d) (ix_transactions d) (ix_contractActions d) (ix_contractBalances d)
    (ix_contractStates d) (ix_utxos d) (ix_zswapEvents d) (ix_dustEvents d) (ix_fees d)
    (ix_results d) (ix_segments d) (ix_identifiers d) t (ix_sync d) (ix_main d).

Definition with_sync (s : SyncCols) (d : IndexDb) : IndexDb :=
  MkIndexDb (ix_blocks d) (ix_transactions d) (ix_contractActions d) (ix_contractBalances d)
    (ix_contractStates d) (ix_utxos d) (ix_zswapEvents d) (ix_dustEvents d) (ix_fees d)
    (ix_results d) (ix_segments d) (ix_identifiers d) (ix_nightBalances d) s (ix_main d).

Definition with_main (m : Database) (d : IndexDb) : IndexDb :=
  MkIndexDb (ix_blocks d) (ix_transactions d) (ix_contractActions d) (ix_contractBalances d)
    (ix_contractStates d) (ix_utxos d) (ix_zswapEvents d) (ix_dustEvents d) (ix_fees d)
    (ix_results d) (ix_segments d) (ix_identifiers d) (ix_nightBalances d) (ix_sync d) m.

Definition with_utxos (t : gmap string UtxoRow) (d : IndexDb) : IndexDb :=
  MkIndexDb (ix_blocks d) (ix_transactions d) (ix_contractActions d) (ix_contractBalances d)
    (ix_contractStates d) t (ix_zswapEvents d) (ix_dustEvents d) (ix_fees d) (ix_results d)
    (ix_segments d) (ix_identifiers d) (ix_nightBalances d) (ix_sync d) (ix_main d).

(** A BigInt or Decimal column as the database answers it. *)
Definition column (v : option Z) : json :=
  match v with Some n => JStr (pretty n) | None => JNull end.

Lemma toBigInt_column v : toBigInt (column v) = nullish v 0%Z.
Proof. destruct v as [n|]; [apply toBigInt_pretty|done]. Qed.

#[export] Hint Rewrite toBigInt_column : ng.

(** ** Rollback *)

(** ** Inclusion evidence *)

Definition ge_opt (a : option Z) (b : Z) : bool :=
  match a with Some x => bool_decide (b ≤ x)%Z | None => false end.

Definition clearedEvidence : list job_set :=
  [SetChainBlockHeight None; SetChainBlockHash None; SetIndexerTxHash None].
Definition clearedSubEvidence : list sub_set :=
  [SSetChainBlockHeight None; SSetChainBlockHash None; SSetIndexerTxHash None].

Definition failed_on_chain (fromHeight : Z) (j : Job) : bool :=
  ge_opt (j_chainBlockHeight j) fromHeight && status_in [Failed] j &&
  bool_decide (j_errorCode j = Some "CHAIN_EXECUTION_FAILED").

Definition revert_failed_patch : list job_set :=
  ([SetStatus ReconciliationRequired; SetChainStatus (Some ChainPending); SetChainFinalizedAt None;
    SetErrorCode None; SetErrorMessage None; SetFinishedAt None; SetChainSegments None] ++
   clearedEvidence)%list.

Definition has_outcome (fromHeight : Z) (j : Job) : bool :=
  ge_opt (j_chainBlockHeight j) fromHeight &&
  bool_decide (j_chainStatus j ∈ [Some ChainSuccess; Some ChainFailure]).

Definition revert_outcome_patch : list job_set :=
  ([SetChainStatus (Some ChainPending); SetChainFinalizedAt None; SetChainSegments None] ++
   clearedEvidence)%list.

(** (submissions reverted, jobs reverted) *)
Definition revertSubmissionEvidence (fromHeight : Z) : M Database (nat * nat) :=
  submissionsReverted ← update_submissions
    (λ _ s, ge_opt (s_chainBlockHeight s) fromHeight && bool_decide (s_status s ∈ [SubIncluded; SubFinalized]))
    ([SSetStatus SubPending; SSetFinalizedAt None; SSetFinalizedTxData None] ++ clearedSubEvidence)%list;
  failedAttemptsReverted ← update_submissions
    (λ _ s, ge_opt (s_chainBlockHeight s) fromHeight && bool_decide (s_status s = SubFailed) &&
            bool_decide (s_errorCode s = Some "CHAIN_EXECUTION_FAILED"))
    ([SSetStatus SubPending; SSetFinalizedAt None; SSetFinalizedTxData None; SSetErrorCode None;
      SSetErrorMessage None] ++ clearedSubEvidence)%list;
  failedReverted ← update_jobs (λ _ j, failed_on_chain fromHeight j) revert_failed_patch;
  outcomesReverted ← update_jobs (λ _ j, has_outcome fromHeight j) revert_outcome_patch;
  mret (submissionsReverted + failedAttemptsReverted, failedReverted + outcomesReverted).

(** ** Chunked statements *)

(** PostgreSQL allows 65535 parameters, so long ID lists are split. *)
Definition IN_CHUNK : nat := 5000.

Definition chunked {A} (ids : list string) (query : list string → list A) : list A :=
  concat (query <$> chunks IN_CHUNK ids).

Definition chunked_write (ids : list string) (f : list string → IndexDb → IndexDb) (d : IndexDb) : IndexDb :=
  foldl (λ d c, f c d) d (chunks IN_CHUNK ids).

(** [{ column: { in: ids } }] on a nullable column. *)
Definition refs_in (ids : list string) (r : option string) : bool :=
  match r with Some x => bool_decide (x ∈ ids) | None => false end.

Definition delete_balances (ids : list string) (d : IndexDb) : IndexDb :=
  MkIndexDb (ix_blocks d) (ix_transactions d) (ix_contractActions d)
    (sql_delete (λ _ r, refs_in ids r) (ix_contractBalances d)) (ix_contractStates d)
    (ix_utxos d) (ix_zswapEvents d) (ix_dustEvents d) (ix_fees d) (ix_results d)
    (ix_segments d) (ix_identifiers d) (ix_nightBalances d) (ix_sync d) (ix_main d).

Definition delete_segments (ids : list string) (d : IndexDb) : IndexDb :=
  MkIndexDb (ix_blocks d) (ix_transactions d) (ix_contractActions d) (ix_contractBalances d)
    (ix_contractStates d) (ix_utxos d) (ix_zswapEvents d) (ix_dustEvents d) (ix_fees d)
    (ix_results d) (sql_delete (λ _ r, refs_in ids r) (ix_segments d)) (ix_identifiers d)
    (ix_nightBalances d) (ix_sync d) (ix_main d).

Definition delete_tx_children (ids : list string) (d : IndexDb) : IndexDb :=
  MkIndexDb (ix_blocks d) (ix_transactions d)
    (sql_delete (λ _ r, refs_in ids (ref r)) (ix_contractActions d)) (ix_contractBalances d)
    (ix_contractStates d)
    (sql_delete (λ _ u, bool_decide (u_createdAtTransaction u ∈ ids)) (ix_utxos d))
    (sql_delete (λ _ r, refs_in ids r) (ix_zswapEvents d))
    (sql_delete (λ _ r, refs_in ids r) (ix_dustEvents d))
    (sql_delete (λ _ r, refs_in ids (ref r)) (ix_fees d))
    (sql_delete (λ _ r, refs_in ids (ref r)) (ix_results d)) (ix_segments d)
    (sql_delete (λ _ r, refs_in ids (ref r)) (ix_identifiers d)) (ix_nightBalances d) (ix_sync d)
    (ix_main d).

Definition delete_blocks (ids : list string) (d : IndexDb) : IndexDb :=
  MkIndexDb (sql_delete (λ k _, bool_decide (k ∈ ids)) (ix_blocks d))
    (sql_delete (λ _ t, bool_decide (t_block t ∈ ids)) (ix_transactions d))
    (ix_contractActions d) (ix_contractBalances d) (ix_contractStates d) (ix_utxos d)
    (ix_zswapEvents d) (ix_dustEvents d) (ix_fees d) (ix_results d) (ix_segments d)
    (ix_identifiers d) (ix_nightBalances d) (ix_sync d) (ix_main d).

Definition delete_states (fromHeight : Z) (d : IndexDb) : IndexDb :=
  MkIndexDb (ix_blocks d) (ix_transactions d) (ix_contractActions d) (ix_contractBalances d)
    (sql_delete (λ _ h, bool_decide (fromHeight ≤ h)%Z) (ix_contractStates d)) (ix_utxos d)
    (ix_zswapEvents d) (ix_dustEvents d) (ix_fees d) (ix_results d) (ix_segments d)
    (ix_identifiers d) (ix_nightBalances d) (ix_sync d) (ix_main d).

Definition unspend (ids : list string) (d : IndexDb) : IndexDb :=
  with_utxos (sql_update (λ _ u, refs_in ids (u_spentAtTransaction u))
                (set_spent None) (ix_utxos d)).1 d.

Record NightBalanceFigures := MkFigures {
  f_balance : Z; f_utxoCount : Z; f_txSentCount : Z; f_txReceivedCount : Z;
  f_totalSent : Z; f_totalReceived : Z; f_firstSeenHeight : option Z; f_lastActivityHeight : option Z }.

#[export] Instance NightBalanceFigures_eq_dec : EqDecision NightBalanceFigures.
Proof. solve_decision. Defined.

Section Rollback.
Context `{ScanOrder}.

(** ** Night balances *)

(** [l.length ? l.reduce(f) : null] *)
Definition reduce (f : Z → Z → Z) (l : list Z) : option Z :=
  match l with [] => None | x :: l' => Some (foldl f x l') end.

Definition sum (l : list Z) : Z := foldr Z.add 0%Z l.

Definition utxos_of (d : IndexDb) (address : string) : list (string * UtxoRow) :=
  sql_select (λ _ u, bool_decide (u_owner u = address) && bool_decide (u_tokenType u = NIGHT_RAW_TOKEN_TYPE))
    (ix_utxos d).

Definition counts_as_sent (address : string) (t : TxRow) : bool :=
  match present (t_receiverAddress t) with
  | Some receiver => negb (bool_decide (receiver = address)) && bool_decide (0 < toBigInt (column (t_nightAmount t)))%Z
  | None => false
  end.

Definition sentTxs_of (d : IndexDb) (address : string) : list (string * TxRow) :=
  filter (λ t, counts_as_sent address t.2 = true)
    (sql_select (λ _ t, bool_decide (t_senderAddress t = Some address)) (ix_transactions d)).

(** The IDs of the transactions and blocks an address was active in. *)
Definition activity_txs (utxos : list (string * UtxoRow)) : list string :=
  js_set (omap present (((λ u, Some (u_createdAtTransaction u.2)) <$> utxos) ++
                        ((λ u, u_spentAtTransaction u.2) <$> utxos))%list).

Definition select_ids {R} (ids : list string) (t : gmap string R) : list (string * R) :=
  sql_select (λ k _, bool_decide (k ∈ ids)) t.

Definition activity_heights (d : IndexDb) (utxos : list (string * UtxoRow)) (sent : list (string * TxRow)) : list Z :=
  let activityTxs := chunked (activity_txs utxos) (λ ids, select_ids ids (ix_transactions d)) in
  let blockIds := js_set (omap present (((λ t, Some (t_block t.2)) <$> activityTxs) ++
                                        ((λ t, Some (t_block t.2)) <$> sent))%list) in
  (λ b, b_height b.2) <$> chunked blockIds (λ ids, select_ids ids (ix_blocks d)).

Definition unspent (u : string * UtxoRow) : bool := bool_decide (present (u_spentAtTransaction u.2) = None).

Definition utxo_value (u : string * UtxoRow) : Z := toBigInt (column (Some (u_value u.2))).
Definition tx_amount (t : string * TxRow) : Z := toBigInt (column (t_nightAmount t.2)).

Definition computeNightBalance (d : IndexDb) (address : string) : option NightBalanceFigures :=
  let utxos := utxos_of d address in
  let sent := sentTxs_of d address in
  if bool_decide (utxos = []) && bool_decide (sent = []) then None else
  let heights := activity_heights d utxos sent in
  let left := filter (λ u, unspent u = true) utxos in
  Some (MkFigures (sum (utxo_value <$> left)) (Z.of_nat (length left)) (Z.of_nat (length sent))
          (Z.of_nat (length utxos)) (sum (tx_amount <$> sent)) (sum (utxo_value <$> utxos))
          (reduce Z.min heights) (reduce Z.max heights)).

Definition zeroed_balance (now : Z) (b : NightBalance) : NightBalance :=
  MkNightBalance 0 0 0 0 0 0 None (nb_firstSeenAt b) None (nb_lastActivityAt b) (nb_dustAddress b)
    (nb_isDustRegistered b) (nb_lastUpdatedHeight b) (Some now).

Definition computed_balance (now : Z) (f : NightBalanceFigures) (firstSeenAt : option Z)
    (dustAddress : option string) (isDustRegistered : option bool) : NightBalance :=
  MkNightBalance (f_balance f) (f_utxoCount f) (f_txSentCount f) (f_txReceivedCount f) (f_totalSent f)
    (f_totalReceived f) (f_firstSeenHeight f) firstSeenAt (f_lastActivityHeight f) (Some now) dustAddress
    isDustRegistered (f_lastActivityHeight f) (Some now).

(** [existing.dustAddress || existing.isDustRegistered] *)
Definition dust_known (b : NightBalance) : bool :=
  bool_decide (is_Some (present (nb_dustAddress b))) || bool_decide (nb_isDustRegistered b = Some true).

Definition recomputeNightBalance (now : Z) (address : string) (d : IndexDb) : IndexDb :=
  match computeNightBalance d address, ix_nightBalances d !! address with
  | None, None => d
  | None, Some existing =>
      if dust_known existing
      then with_nightBalances (<[address := zeroed_balance now existing]> (ix_nightBalances d)) d
      else with_nightBalances (delete address (ix_nightBalances d)) d
  | Some f, Some existing =>
      with_nightBalances (<[address := computed_balance now f (nb_firstSeenAt existing)
                              (nb_dustAddress existing) (nb_isDustRegistered existing)]> (ix_nightBalances d)) d
  | Some f, None =>
      with_nightBalances (<[address := computed_balance now f (Some now) None (Some false)]> (ix_nightBalances d)) d
  end.

(** ** The rollback *)

(** The highest block below the height, if any. *)
Definition selectForkBlock (fromHeight : Z) (d : IndexDb) : option (string * BlockRow) :=
  foldl (λ best row, match best with
                     | Some b => if bool_decide (b_height b.2 < b_height row.2)%Z then Some row else best
                     | None => Some row
                     end) None
    (sql_select (λ _ b, bool_decide (b_height b < fromHeight)%Z) (ix_blocks d)).

Definition rolled_blocks (d : IndexDb) (fromHeight : Z) : list string :=
  omap (λ b, present (Some b.1)) (sql_select (λ _ b, bool_decide (fromHeight ≤ b_height b)%Z) (ix_blocks d)).

Definition rolled_txs (d : IndexDb) (blockIds : list string) : list (string * TxRow) :=
  chunked blockIds (λ ids, sql_select (λ _ t, bool_decide (t_block t ∈ ids)) (ix_transactions d)).

Definition tx_ids (txs : list (string * TxRow)) : list string := omap (λ t, present (Some t.1)) txs.

(** Whose balance the removed transactions touch. *)
Definition affected_addresses (d : IndexDb) (txs : list (string * TxRow)) : list string :=
  let txIds := tx_ids txs in
  let utxoOwners := chunked txIds (λ ids,
    sql_select (λ _ u, bool_decide (u_createdAtTransaction u ∈ ids)) (ix_utxos d)) in
  let spentOwners := chunked txIds (λ ids,
    sql_select (λ _ u, refs_in ids (u_spentAtTransaction u)) (ix_utxos d)) in
  js_set (omap present
    (concat ((λ t, [t_senderAddress t.2; t_receiverAddress t.2]) <$> txs) ++
     ((λ u, Some (u_owner u.2)) <$> utxoOwners) ++ ((λ u, Some (u_owner u.2)) <$> spentOwners))%list).

Definition delete_transactions (txIds : list string) (d : IndexDb) : IndexDb :=
  let actionIds := (chunked txIds (λ ids, sql_select (λ _ r, refs_in ids (ref r)) (ix_contractActions d))).*1 in
  let d := chunked_write actionIds delete_balances d in
  let resultIds := (chunked txIds (λ ids, sql_select (λ _ r, refs_in ids (ref r)) (ix_results d))).*1 in
  let d := chunked_write resultIds delete_segments d in
  let d := chunked_write txIds delete_tx_children d in
  chunked_write txIds unspend d.

(** The row deletions, then the balances of the affected addresses. *)
Definition remove_rows (fromHeight : Z) (d : IndexDb) : IndexDb :=
  let blockIds := rolled_blocks d fromHeight in
  let txIds := tx_ids (rolled_txs d blockIds) in
  let d := if bool_decide (txIds = []) then d else delete_transactions txIds d in
  delete_states fromHeight (chunked_write blockIds delete_blocks d).

Record RollbackResult := MkRollbackResult {
  rb_reorgGeneration : Z; rb_blocksRolledBack : nat; rb_transactionsRolledBack : nat;
  rb_forkBlock : option (string * BlockRow); rb_affectedAddresses : list string;
  rb_submissionsReverted : nat; rb_jobsReverted : nat }.

(** What a rollback leaves in SyncState: [now], [options.syncStatus], and the
    progress when [options.extraSyncState] names it. *)
Definition rolled_sync (now : Z) (fork : option (string * BlockRow)) (syncStatus : string)
    (extra : option Z) (s : SyncCols) : SyncCols :=
  let forkHeight := match fork with Some b => b_height b.2 | None => 0%Z end in
  let clampCursor v := (λ x, Z.min x forkHeight) <$> v in
  MkSync (Some forkHeight) ((λ b : string * BlockRow, b_hash b.2) <$> fork) (Some now)
    (clampCursor (sy_lastDecodedHeight s)) (clampCursor (sy_lastSupplementedHeight s)) syncStatus
    (match extra with Some p => Some p | None => sy_syncProgress s end).

Definition on_main {A} (m : M Database A) : M IndexDb A := λ d,
  let '(o, t) := m (ix_main d) in (o, with_main t d).

Definition rollbackIndexedDataFromHeight (now fromHeight : Z) (syncStatus : string) (extra : option Z) :
    M IndexDb RollbackResult :=
  reorgGeneration ← on_main bumpReorgGeneration;
  d ← get;
  let blockIds := rolled_blocks d fromHeight in
  match blockIds with
  | [] =>
      evidence ← on_main (revertSubmissionEvidence fromHeight);
      mret (MkRollbackResult reorgGeneration 0 0 (selectForkBlock fromHeight d) [] evidence.1 evidence.2)
  | _ =>
      let txs := rolled_txs d blockIds in
      let affected := affected_addresses d txs in
      _ ← put (foldl (λ d address, recomputeNightBalance now address d) (remove_rows fromHeight d) affected);
      evidence ← on_main (revertSubmissionEvidence fromHeight);
      d ← get;
      let forkBlock := selectForkBlock fromHeight d in
      _ ← put (if bool_decide (is_Some (Schema.reorgGeneration (ix_main d)))
               then with_sync (rolled_sync now forkBlock syncStatus extra (ix_sync d)) d else d);
      mret (MkRollbackResult reorgGeneration (length blockIds) (length (tx_ids txs)) forkBlock affected
              evidence.1 evidence.2)
  end.
End Rollback.
