(* ===== verification/RollbackFacts.v ===== *)
(** What a rollback leaves in the index. *)
From S2P Require Import Prelude Db Json Numbers Schema Reconciliation Rollback.

(** ** Chunked statements do what one statement would *)

Lemma elem_of_concat_chunks ids (x : string) :
  x ∈ ids ↔ ∃ c, c ∈ chunks IN_CHUNK ids ∧ x ∈ c.
Proof.
  rewrite <- (chunks_concat IN_CHUNK ids) at 1 by (unfold IN_CHUNK; lia).
  rewrite list_elem_of_In, in_concat. split; intros (c & H1 & H2); exists c; rewrite ?list_elem_of_In in *; done.
Qed.

Lemma elem_of_chunked {A} (P : A → Prop) (f : A → string → Prop) ids (q : list string → list A) y :
  (∀ c, y ∈ q c ↔ P y ∧ ∃ x, f y x ∧ x ∈ c) →
  y ∈ chunked ids q ↔ P y ∧ ∃ x, f y x ∧ x ∈ ids.
Proof.
  intros Hq. unfold chunked. rewrite list_elem_of_In, in_concat. split.
  - intros (l & Hl & Hy). apply list_elem_of_In, list_elem_of_fmap in Hl as (c & -> & Hc).
    apply list_elem_of_In, Hq in Hy as (HP & x & Hf & Hx). split; [done|]. exists x. split; [done|].
    apply elem_of_concat_chunks. eauto.
  - intros (HP & x & Hf & Hx). apply elem_of_concat_chunks in Hx as (c & Hc & Hx).
    exists (q c). split; [apply list_elem_of_In, list_elem_of_fmap; eauto|]. apply list_elem_of_In, Hq. eauto.
Qed.

Lemma chunked_write_proj {T} (π : IndexDb → T) (op : list string → T → T) f ids d :
  (∀ c d, π (f c d) = op c (π d)) →
  π (chunked_write ids f d) = foldl (λ t c, op c t) (π d) (chunks IN_CHUNK ids).
Proof.
  intros Hf. unfold chunked_write. revert d. induction (chunks IN_CHUNK ids) as [|c cs IH]; intros d; simpl; [done|].
  by rewrite IH, Hf.
Qed.

Lemma chunked_write_frame {T} (π : IndexDb → T) f ids d :
  (∀ c d, π (f c d) = π d) → π (chunked_write ids f d) = π d.
Proof.
  intros Hf. unfold chunked_write. revert d. induction (chunks IN_CHUNK ids) as [|c cs IH]; intros d; simpl; [done|].
  by rewrite IH, Hf.
Qed.

Lemma foldl_sql_delete {R} (w : list string → string → R → bool) cs t k r :
  foldl (λ t c, sql_delete (w c) t) t cs !! k = Some r ↔ t !! k = Some r ∧ ∀ c, c ∈ cs → w c k r = false.
Proof.
  revert t. induction cs as [|c cs IH]; intros t; simpl; [set_solver|].
  rewrite IH, lookup_sql_delete. set_solver.
Qed.

Lemma refs_in_true ids r : refs_in ids r = true ↔ ∃ x, r = Some x ∧ x ∈ ids.
Proof. destruct r as [x|]; simpl; [rewrite bool_decide_eq_true|]; naive_solver. Qed.

Lemma refs_in_chunks ids r : (∀ c, c ∈ chunks IN_CHUNK ids → refs_in c r = false) ↔ refs_in ids r = false.
Proof.
  rewrite <- not_true_iff_false, refs_in_true. split.
  - intros Hc (x & -> & Hx). apply elem_of_concat_chunks in Hx as (c & Hc' & Hx). specialize (Hc c Hc').
    simpl in Hc. by apply bool_decide_eq_false_1 in Hc.
  - intros Hn c Hc. apply not_true_iff_false. rewrite refs_in_true. intros (x & -> & Hx). apply Hn. exists x.
    split; [done|]. apply elem_of_concat_chunks. eauto.
Qed.

Lemma in_chunks_false ids (x : string) :
  (∀ c, c ∈ chunks IN_CHUNK ids → bool_decide (x ∈ c) = false) ↔ x ∉ ids.
Proof.
  rewrite elem_of_concat_chunks. split.
  - intros Hc (c & H1 & H2). specialize (Hc c H1). by apply bool_decide_eq_false_1 in Hc.
  - intros Hn c Hc. apply bool_decide_eq_false_2. naive_solver.
Qed.

(** A table of references after a chunked delete. *)
Lemma chunked_delete_refs {R} `{Ref R} (π : IndexDb → gmap string R) f ids d k r :
  (∀ c d, π (f c d) = sql_delete (λ _ r, refs_in c (ref r)) (π d)) →
  π (chunked_write ids f d) !! k = Some r ↔ π d !! k = Some r ∧ refs_in ids (ref r) = false.
Proof.
  intros Hf. rewrite (chunked_write_proj π (λ c, sql_delete (λ _ r, refs_in c (ref r)))) by done.
  by rewrite (foldl_sql_delete (λ c _ r, refs_in c (ref r))), refs_in_chunks.
Qed.

(** ** The rows a rollback removes *)

Section Facts.
Context `{ScanOrder}.

Lemma elem_of_rolled_blocks d h x :
  x ∈ rolled_blocks d h ↔ x ≠ EmptyString ∧ ∃ b, ix_blocks d !! x = Some b ∧ (h ≤ b_height b)%Z.
Proof.
  unfold rolled_blocks. rewrite list_elem_of_omap. split.
  - intros ([k b] & Hin & Hp). apply elem_of_select in Hin as [Hb Hh%bool_decide_eq_true_1].
    apply present_Some in Hp as [[= ->] Hne]. eauto.
  - intros (Hne & b & Hb & Hh). exists (x, b). split; [|by apply present_Some].
    apply elem_of_select. split; [done|]. by apply bool_decide_eq_true_2.
Qed.

Lemma elem_of_rolled_txs d bs k t :
  (k, t) ∈ rolled_txs d bs ↔ ix_transactions d !! k = Some t ∧ t_block t ∈ bs.
Proof.
  unfold rolled_txs. rewrite (elem_of_chunked (λ kt, ix_transactions d !! kt.1 = Some kt.2) (λ kt x, x = t_block kt.2)).
  - simpl. naive_solver.
  - intros c. rewrite elem_of_select, bool_decide_eq_true. simpl. naive_solver.
Qed.

Lemma elem_of_tx_ids d bs x :
  x ∈ tx_ids (rolled_txs d bs) ↔ x ≠ EmptyString ∧ ∃ t, ix_transactions d !! x = Some t ∧ t_block t ∈ bs.
Proof.
  unfold tx_ids. rewrite list_elem_of_omap. split.
  - intros ([k t] & Hin & Hp). apply elem_of_rolled_txs in Hin as [Ht Hb]. apply present_Some in Hp as [[= ->] ?]. eauto.
  - intros (Hne & t & Ht & Hb). exists (x, t). split; [by apply elem_of_rolled_txs|by apply present_Some].
Qed.

Lemma elem_of_ref_ids {R} `{Ref R} (t : gmap string R) ids k :
  k ∈ (chunked ids (λ c, sql_select (λ _ r, refs_in c (ref r)) t)).*1 ↔ ∃ r, t !! k = Some r ∧ refs_in ids (ref r) = true.
Proof.
  rewrite list_elem_of_fmap. split.
  - intros ([k' r] & -> & Hin). apply (elem_of_chunked (λ kr, t !! kr.1 = Some kr.2) (λ kr x, ref kr.2 = Some x)) in Hin as [Hr (x & Hx & Hin)].
    + exists r. split; [done|]. apply refs_in_true. eauto.
    + intros c. by rewrite elem_of_select, refs_in_true.
  - intros (r & Hr & Hin). exists (k, r). split; [done|].
    apply (elem_of_chunked (λ kr, t !! kr.1 = Some kr.2) (λ kr x, ref kr.2 = Some x)).
    + intros c. by rewrite elem_of_select, refs_in_true.
    + apply refs_in_true in Hin as (x & Hr' & Hx). simpl. eauto.
Qed.

(** A UTXO whose spending transaction was removed is unspent again. *)
Definition freed (ids : list string) (u : UtxoRow) : UtxoRow :=
  if refs_in ids (u_spentAtTransaction u)
  then set_spent None u else u.

Lemma unspend_chunks ids d :
  ix_utxos (chunked_write ids unspend d) = freed ids <$> ix_utxos d.
Proof.
  rewrite (chunked_write_proj ix_utxos (λ c, fmap (freed c))).
  - assert (∀ cs t, foldl (λ (t : gmap string UtxoRow) c, freed c <$> t) t cs = freed (concat cs) <$> t) as Hf.
    { intros cs. induction cs as [|c cs IH]; intros t; simpl.
      - apply map_eq. intros k. rewrite lookup_fmap. destruct (t !! k) as [u|]; simpl; [|done].
        unfold freed. by destruct (u_spentAtTransaction u).
      - rewrite IH. apply map_eq. intros k. rewrite !lookup_fmap. destruct (t !! k) as [u|]; simpl; [|done]. f_equal.
        unfold freed. destruct (u_spentAtTransaction u) as [x|] eqn:Eu; simpl; [|by rewrite Eu].
        destruct (decide (x ∈ c)) as [Hc|Hc].
        + rewrite !bool_decide_eq_true_2 by set_solver. done.
        + rewrite (bool_decide_eq_false_2 (x ∈ c)), Eu by done. simpl.
          by rewrite (bool_decide_ext (x ∈ concat cs) (x ∈ c ++ concat cs)) by set_solver. }
    rewrite Hf, chunks_concat by (unfold IN_CHUNK; lia). done.
  - intros c d1. apply map_eq. intros k. unfold unspend. cbn [ix_utxos with_utxos].
    rewrite lookup_sql_update, lookup_fmap. done.
Qed.

(** ** The tables after the deletions *)

Section Removed.
Context (d : IndexDb) (h : Z).

Let B := rolled_blocks d h.
Let T := tx_ids (rolled_txs d B).
Let d1 := remove_rows h d.

Lemma remove_rows_eq :
  d1 = delete_states h (chunked_write B delete_blocks (delete_transactions T d)).
Proof.
  unfold d1, remove_rows. fold B. fold T. case_bool_decide as HT; [|done].
  rewrite HT. unfold delete_transactions, chunked, chunked_write. done.
Qed.

Ltac frames := repeat (rewrite chunked_write_frame by done).

Lemma removed_blocks k b : ix_blocks d1 !! k = Some b ↔ ix_blocks d !! k = Some b ∧ k ∉ B.
Proof.
  rewrite remove_rows_eq. cbn [ix_blocks delete_states].
  rewrite (chunked_write_proj ix_blocks (λ c, sql_delete (λ k _, bool_decide (k ∈ c)))) by done.
  rewrite (foldl_sql_delete (λ c k _, bool_decide (k ∈ c))), in_chunks_false.
  unfold delete_transactions. by frames.
Qed.

Lemma removed_txs k t : ix_transactions d1 !! k = Some t ↔ ix_transactions d !! k = Some t ∧ t_block t ∉ B.
Proof.
  rewrite remove_rows_eq. cbn [ix_transactions delete_states].
  rewrite (chunked_write_proj ix_transactions (λ c, sql_delete (λ _ t, bool_decide (t_block t ∈ c)))) by done.
  rewrite (foldl_sql_delete (λ c _ t, bool_decide (t_block t ∈ c))), in_chunks_false.
  unfold delete_transactions. by frames.
Qed.

Lemma removed_utxos k u :
  ix_utxos d1 !! k = Some u ↔ ∃ u0, ix_utxos d !! k = Some u0 ∧ u_createdAtTransaction u0 ∉ T ∧ u = freed T u0.
Proof.
  rewrite remove_rows_eq. cbn [ix_utxos delete_states]. frames. unfold delete_transactions.
  rewrite unspend_chunks, lookup_fmap, fmap_Some.
  rewrite (chunked_write_proj ix_utxos (λ c, sql_delete (λ _ u, bool_decide (u_createdAtTransaction u ∈ c)))) by done.
  setoid_rewrite (foldl_sql_delete (λ c _ u, bool_decide (u_createdAtTransaction u ∈ c))).
  setoid_rewrite in_chunks_false. frames. naive_solver.
Qed.

(** A table whose rows belong to transactions. *)
Lemma removed_refs {R} `{Ref R} (π : IndexDb → gmap string R) k r :
  (∀ c d, π (delete_tx_children c d) = sql_delete (λ _ r, refs_in c (ref r)) (π d)) →
  (∀ c d, π (delete_balances c d) = π d) → (∀ c d, π (delete_segments c d) = π d) →
  (∀ c d, π (unspend c d) = π d) → (∀ c d, π (delete_blocks c d) = π d) → (∀ d, π (delete_states h d) = π d) →
  π d1 !! k = Some r ↔ π d !! k = Some r ∧ refs_in T (ref r) = false.
Proof.
  intros H1 H2 H3 H4 H5 H6. rewrite remove_rows_eq, H6, (chunked_write_frame π delete_blocks) by done.
  unfold delete_transactions. rewrite (chunked_write_frame π unspend) by done.
  rewrite (chunked_delete_refs π delete_tx_children) by done.
  by rewrite (chunked_write_frame π delete_segments), (chunked_write_frame π delete_balances) by done.
Qed.

Lemma removed_balances k r :
  ix_contractBalances d1 !! k = Some r ↔
  ix_contractBalances d !! k = Some r ∧
  ∀ x r', r = Some x → ix_contractActions d !! x = Some r' → refs_in T (ref r') = false.
Proof.
  rewrite remove_rows_eq. cbn [ix_contractBalances delete_states]. frames. unfold delete_transactions. frames.
  rewrite (chunked_delete_refs (R:=option string) ix_contractBalances delete_balances) by done.
  rewrite <- not_true_iff_false, refs_in_true. setoid_rewrite elem_of_ref_ids.
  split; intros [Hr Hn]; (split; [done|]).
  - intros x r' -> Ha. apply not_true_iff_false. intros Hin. apply Hn. exists x. split; [done|]. eauto.
  - intros (x & Hx & r' & Ha & Hin). specialize (Hn x r' Hx Ha). congruence.
Qed.

Lemma removed_segments k r :
  ix_segments d1 !! k = Some r ↔
  ix_segments d !! k = Some r ∧
  ∀ x r', r = Some x → ix_results d !! x = Some r' → refs_in T (ref r') = false.
Proof.
  rewrite remove_rows_eq. cbn [ix_segments delete_states]. frames. unfold delete_transactions. frames.
  rewrite (chunked_delete_refs (R:=option string) ix_segments delete_segments) by done.
  assert (∀ l, ix_results (chunked_write l delete_balances d) = ix_results d) as Hres by (intros; by apply chunked_write_frame).
  rewrite Hres. frames.
  rewrite <- not_true_iff_false, refs_in_true. setoid_rewrite elem_of_ref_ids.
  split; intros [Hr Hn]; (split; [done|]).
  - intros x r' -> Ha. apply not_true_iff_false. intros Hin. apply Hn. exists x. split; [done|]. eauto.
  - intros (x & Hx & r' & Ha & Hin). specialize (Hn x r' Hx Ha). congruence.
Qed.

Lemma removed_states k n : ix_contractStates d1 !! k = Some n ↔ ix_contractStates d !! k = Some n ∧ (n < h)%Z.
Proof.
  rewrite remove_rows_eq. cbn [ix_contractStates delete_states]. rewrite lookup_sql_delete, bool_decide_eq_false.
  unfold delete_transactions. frames. rewrite Z.nle_gt. done.
Qed.

Lemma removed_frame : ix_nightBalances d1 = ix_nightBalances d ∧ ix_sync d1 = ix_sync d ∧ ix_main d1 = ix_main d.
Proof. rewrite remove_rows_eq. unfold delete_transactions. cbn. by frames. Qed.
End Removed.
End Facts.

(** ** Referential integrity *)

Definition linked_to {R} (t : gmap string R) (r : option string) : Prop :=
  match r with Some x => is_Some (t !! x) | None => True end.

(** Every reference of the index names a row that is there; IDs are not empty. *)
Record linked (d : IndexDb) : Prop := {
  lk_block_ids : ix_blocks d !! EmptyString = None;
  lk_tx_ids : ix_transactions d !! EmptyString = None;
  lk_tx : ∀ k t, ix_transactions d !! k = Some t → is_Some (ix_blocks d !! t_block t);
  lk_utxo : ∀ k u, ix_utxos d !! k = Some u →
    is_Some (ix_transactions d !! u_createdAtTransaction u) ∧ linked_to (ix_transactions d) (u_spentAtTransaction u);
  lk_actions : ∀ k r, ix_contractActions d !! k = Some r → linked_to (ix_transactions d) (ref r);
  lk_zswap : ∀ k r, ix_zswapEvents d !! k = Some r → linked_to (ix_transactions d) r;
  lk_dust : ∀ k r, ix_dustEvents d !! k = Some r → linked_to (ix_transactions d) r;
  lk_fees : ∀ k r, ix_fees d !! k = Some r → linked_to (ix_transactions d) (ref r);
  lk_results : ∀ k r, ix_results d !! k = Some r → linked_to (ix_transactions d) (ref r);
  lk_identifiers : ∀ k r, ix_identifiers d !! k = Some r → linked_to (ix_transactions d) (ref r);
  lk_balances : ∀ k r, ix_contractBalances d !! k = Some r → linked_to (ix_contractActions d) r;
  lk_segments : ∀ k r, ix_segments d !! k = Some r → linked_to (ix_results d) r }.

(** Of these, what the blocks and transactions alone say. *)
Record rooted (d : IndexDb) : Prop := {
  rt_block_ids : ix_blocks d !! EmptyString = None;
  rt_tx_ids : ix_transactions d !! EmptyString = None;
  rt_tx : ∀ k t, ix_transactions d !! k = Some t → is_Some (ix_blocks d !! t_block t) }.

Lemma linked_rooted d : linked d → rooted d.
Proof. intros Hl. by split; apply Hl. Qed.

#[export] Hint Resolve linked_rooted : ng.

(** The chain tables, without the derived ones. *)
Definition chain_of (d : IndexDb) :=
  (ix_blocks d, ix_transactions d, ix_contractActions d, ix_contractBalances d, ix_contractStates d, ix_utxos d,
   (ix_zswapEvents d, ix_dustEvents d, ix_fees d, ix_results d, ix_segments d, ix_identifiers d)).

Lemma linked_chain d d' : chain_of d' = chain_of d → linked d → linked d'.
Proof.
  unfold chain_of. intros Hc [????????????]. simplify_eq.
  split; repeat match goal with Hx : ?a d' = ?a d |- _ => rewrite Hx in *; clear Hx end; done.
Qed.

Section RollbackTheorems.
Context `{ScanOrder}.

Lemma rolled_iff d h x :
  rooted d → x ∈ rolled_blocks d h ↔ ∃ b, ix_blocks d !! x = Some b ∧ (h ≤ b_height b)%Z.
Proof.
  intros Hl. rewrite elem_of_rolled_blocks. split; [naive_solver|]. intros (b & Hb & Hh). split; [|eauto].
  intros ->. by rewrite (rt_block_ids _ Hl) in Hb.
Qed.

Lemma removed_tx_iff d h x :
  rooted d → x ∈ tx_ids (rolled_txs d (rolled_blocks d h)) ↔
  ∃ t, ix_transactions d !! x = Some t ∧ t_block t ∈ rolled_blocks d h.
Proof.
  intros Hl. rewrite elem_of_tx_ids. split; [naive_solver|]. intros (t & Ht & Hb). split; [|eauto].
  intros ->. by rewrite (rt_tx_ids _ Hl) in Ht.
Qed.

(** A reference that was not removed still names a transaction. *)
Lemma kept_ref d h r :
  linked d → linked_to (ix_transactions d) r →
  refs_in (tx_ids (rolled_txs d (rolled_blocks d h))) r = false → linked_to (ix_transactions (remove_rows h d)) r.
Proof.
  intros Hl Hr Hn. destruct r as [x|]; [|done]. simpl in *. destruct Hr as [t Ht]. exists t.
  apply removed_txs. split; [done|]. intros Hb. apply bool_decide_eq_false_1 in Hn. apply Hn, removed_tx_iff; eauto with ng.
Qed.

Lemma remove_rows_linked d h : linked d → linked (remove_rows h d).
Proof.
  intros Hl. assert (∀ {R} `{Ref R} (π : IndexDb → gmap string R), (∀ k r, π d !! k = Some r → linked_to (ix_transactions d) (ref r)) →
    (∀ k r, π (remove_rows h d) !! k = Some r → π d !! k = Some r ∧ refs_in (tx_ids (rolled_txs d (rolled_blocks d h))) (ref r) = false) →
    ∀ k r, π (remove_rows h d) !! k = Some r → linked_to (ix_transactions (remove_rows h d)) (ref r)) as Hrefs.
  { intros R HR π Hd Hk k r Hr. apply Hk in Hr as [Hr Hn]. eapply kept_ref; [done|by eapply Hd|done]. }
  split.
  - destruct (ix_blocks (remove_rows h d) !! EmptyString) as [b|] eqn:E; [|done].
    apply removed_blocks in E as [E _]. by rewrite (lk_block_ids _ Hl) in E.
  - destruct (ix_transactions (remove_rows h d) !! EmptyString) as [b|] eqn:E; [|done].
    apply removed_txs in E as [E _]. by rewrite (lk_tx_ids _ Hl) in E.
  - intros k t Ht. apply removed_txs in Ht as [Ht Hn]. destruct (lk_tx _ Hl _ _ Ht) as [b Hb]. exists b.
    by apply removed_blocks.
  - intros k u Hu. apply removed_utxos in Hu as (u0 & Hu & Hc & ->). destruct (lk_utxo _ Hl _ _ Hu) as [[t Ht] Hs]. split.
    + assert (u_createdAtTransaction (freed (tx_ids (rolled_txs d (rolled_blocks d h))) u0) = u_createdAtTransaction u0) as ->
        by (unfold freed; by case_match).
      exists t. apply removed_txs. split; [done|]. intros Hb. apply Hc, removed_tx_iff; eauto with ng.
    + unfold freed. destruct (refs_in _ _) eqn:E; [done|]. by eapply kept_ref.
  - apply (Hrefs _ _ ix_contractActions); [apply (lk_actions _ Hl)|intros k r; by apply removed_refs].
  - apply (Hrefs _ _ ix_zswapEvents); [apply (lk_zswap _ Hl)|intros k r; by apply removed_refs].
  - apply (Hrefs _ _ ix_dustEvents); [apply (lk_dust _ Hl)|intros k r; by apply removed_refs].
  - apply (Hrefs _ _ ix_fees); [apply (lk_fees _ Hl)|intros k r; by apply removed_refs].
  - apply (Hrefs _ _ ix_results); [apply (lk_results _ Hl)|intros k r; by apply removed_refs].
  - apply (Hrefs _ _ ix_identifiers); [apply (lk_identifiers _ Hl)|intros k r; by apply removed_refs].
  - intros k r Hr. apply removed_balances in Hr as [Hr Hn]. apply (lk_balances _ Hl) in Hr. destruct r as [x|]; [|done].
    destruct Hr as [r' Hr']. exists r'. apply (removed_refs d h ix_contractActions); try done. split; [done|]. by eapply Hn.
  - intros k r Hr. apply removed_segments in Hr as [Hr Hn]. apply (lk_segments _ Hl) in Hr. destruct r as [x|]; [|done].
    destruct Hr as [r' Hr']. exists r'. apply (removed_refs d h ix_results); try done. split; [done|]. by eapply Hn.
Qed.

Lemma recompute_chain now a d : chain_of (recomputeNightBalance now a d) = chain_of d.
Proof. unfold recomputeNightBalance. repeat case_match; done. Qed.

Lemma recompute_all_chain now l d : chain_of (foldl (λ d a, recomputeNightBalance now a d) d l) = chain_of d.
Proof. revert d. induction l as [|a l IH]; intros d; simpl; [done|]. by rewrite IH, recompute_chain. Qed.

(** The state a rollback leaves, before evidence and cursors. *)
Definition rolled (now h : Z) (d : IndexDb) : IndexDb :=
  match rolled_blocks d h with
  | [] => d
  | _ => foldl (λ d a, recomputeNightBalance now a d) (remove_rows h d)
           (affected_addresses d (rolled_txs d (rolled_blocks d h)))
  end.

Lemma chain_same d d' :
  chain_of d = chain_of d' →
  ix_blocks d = ix_blocks d' ∧ ix_transactions d = ix_transactions d' ∧ ix_utxos d = ix_utxos d'.
Proof. unfold chain_of. intros. by simplify_eq. Qed.

Lemma revert_returns h t : ∃ e t', revertSubmissionEvidence h t = (Ret e, t').
Proof. by eexists _, _. Qed.

(** Blocks, transactions, UTXOs and balances depend on the chain tables only. *)
Lemma rollback_result now h st extra d o d' :
  rollbackIndexedDataFromHeight now h st extra d = (o, d') →
  ∃ d0, chain_of d0 = chain_of d ∧ ix_nightBalances d0 = ix_nightBalances d ∧
    chain_of d' = chain_of (rolled now h d0) ∧ ix_nightBalances d' = ix_nightBalances (rolled now h d0) ∧ ∃ res, o = Ret res.
Proof.
  unfold rollbackIndexedDataFromHeight. intros Hr.
  apply bind_cases in Hr as [(g & d0 & E & Hr)|(x & E & _)].
  2:{ unfold on_main in E. by destruct (bumpReorgGeneration _) eqn:E2; unfold bumpReorgGeneration in E2; simplify_eq. }
  assert (chain_of d0 = chain_of d ∧ ix_nightBalances d0 = ix_nightBalances d) as [Hc Hn].
  { unfold on_main in E. destruct (bumpReorgGeneration _). by simplify_eq. }
  exists d0. split; [done|]. split; [done|]. unfold rolled.
  apply bind_cases in Hr as [(d1 & d2 & E1 & Hr)|(x & E1 & _)]; [|done]. injection E1 as <- <-. cbv zeta in Hr.
  assert (∀ da oa db, on_main (revertSubmissionEvidence h) da = (oa, db) →
    chain_of db = chain_of da ∧ ix_nightBalances db = ix_nightBalances da ∧ ∃ e, oa = Ret e) as Hrev.
  { intros da oa db E3. unfold on_main in E3. destruct (revert_returns h (ix_main da)) as (e & t & Ht).
    rewrite Ht in E3. injection E3 as <- <-. eauto. }
  destruct (rolled_blocks d0 h) as [|b bs] eqn:Eb.
  - apply bind_cases in Hr as [(ev & d3 & E3 & Hr)|(x & E3 & ->)]; destruct (Hrev _ _ _ E3) as (H1 & H2 & ev' & H3); [|done].
    injection Hr as <- <-. eauto.
  - rewrite <- Eb in *.
    apply bind_cases in Hr as [([] & d3 & E3 & Hr)|(x & E3 & _)]; [|done]. injection E3 as <-.
    apply bind_cases in Hr as [(ev & d4 & E4 & Hr)|(x & E4 & ->)]; destruct (Hrev _ _ _ E4) as (Hc4 & Hn4 & ev' & H3); [|done].
    apply bind_cases in Hr as [(d5 & d6 & E5 & Hr)|(x & E5 & _)]; [|done]. injection E5 as <- <-.
    apply bind_cases in Hr as [([] & d7 & E7 & Hr)|(x & E7 & _)]; [|done]. injection E7 as <-.
    injection Hr as <- <-. rewrite <- Hc4, <- Hn4. case_bool_decide; split_and!; eauto.
Qed.
End RollbackTheorems.

(** ** Evidence from the removed branch *)

Local Open Scope string_scope.

(** Recorded at a height of the removed branch. *)
Definition from_branch (h : Z) (height : option Z) : Prop := ∃ n, height = Some n ∧ (h ≤ n)%Z.

Lemma ge_opt_true a b : ge_opt a b = true ↔ from_branch b a.
Proof. unfold ge_opt, from_branch. destruct a; [rewrite bool_decide_eq_true|]; naive_solver. Qed.

Definition reverted_job (h : Z) (j : Job) : Job :=
  let j1 := if failed_on_chain h j then patch_job revert_failed_patch j else j in
  if has_outcome h j1 then patch_job revert_outcome_patch j1 else j1.

Lemma revert_jobs h d o d' k :
  revertSubmissionEvidence h d = (o, d') → jobs d' !! k = reverted_job h <$> jobs d !! k.
Proof.
  intros Hr. assert (jobs d' = (sql_update (λ _ j, has_outcome h j) (patch_job revert_outcome_patch)
    (sql_update (λ _ j, failed_on_chain h j) (patch_job revert_failed_patch) (jobs d)).1).1) as ->.
  { apply (f_equal snd) in Hr. cbn [snd] in Hr. by subst d'. }
  rewrite !lookup_sql_update. by destruct (jobs d !! k).
Qed.

(** After a rollback no job counts a removed block as its outcome: a job
    whose success or failure was read from a block at or above the height is
    pending again, one that had failed only because of it is parked to be checked
    anew, no job keeps coordinates of a settled outcome there, and a job without
    such evidence keeps its row. *)
Theorem rollback_reverts_outcomes h d o d' :
  revertSubmissionEvidence h d = (o, d') →
  ∀ k j, jobs d !! k = Some j → ∃ j', jobs d' !! k = Some j' ∧
    (¬ from_branch h (j_chainBlockHeight j) → j' = j) ∧
    (j_chainStatus j' ∈ [Some ChainSuccess; Some ChainFailure] → ¬ from_branch h (j_chainBlockHeight j')) ∧
    (from_branch h (j_chainBlockHeight j) → j_chainStatus j ∈ [Some ChainSuccess; Some ChainFailure] →
       j_chainStatus j' = Some ChainPending ∧ j_chainBlockHeight j' = None ∧ j_chainFinalizedAt j' = None ∧
       j_status j' = if bool_decide (j_status j = Failed ∧ j_errorCode j = Some "CHAIN_EXECUTION_FAILED")
                     then ReconciliationRequired else j_status j).
Proof.
  intros Hr k j Hj. exists (reverted_job h j). rewrite (revert_jobs h d o d' k Hr), Hj. split; [done|].
  unfold reverted_job, failed_on_chain, status_in.
  destruct (ge_opt (j_chainBlockHeight j) h) eqn:Eg.
  - apply ge_opt_true in Eg as Hb. cbn [andb]. split; [done|].
    case_bool_decide as Hf; cbn [andb].
    + apply list_elem_of_singleton in Hf. case_bool_decide as Hc; cbn [andb].
      * assert (has_outcome h (patch_job revert_failed_patch j) = false) as -> by done. split; [by intros _ (? & ? & ?)|]. intros _ _. simpl. by rewrite bool_decide_eq_true_2.
      * unfold has_outcome. rewrite Eg. cbn [andb]. case_bool_decide as Ho; [|by split]. split; [by intros _ (? & ? & ?)|]. intros _ _.
        simpl. rewrite bool_decide_eq_false_2; [done|]. naive_solver.
    + unfold has_outcome. rewrite Eg. cbn [andb]. case_bool_decide as Ho; [|by split]. split; [by intros _ (? & ? & ?)|]. intros _ _.
      simpl. rewrite bool_decide_eq_false_2; [done|]. intros [Hs _]. apply Hf. rewrite Hs. apply list_elem_of_here.
  - assert (¬ from_branch h (j_chainBlockHeight j)) as Hn by (rewrite <- ge_opt_true, Eg; done). cbn [andb].
    unfold has_outcome. rewrite Eg. cbn [andb]. split_and!; [done|done|done].
Qed.

Definition failed_in_block_7 : Job :=
  patch_job [SetChainStatus (Some ChainFailure); SetChainBlockHeight (Some 7%Z)]
    (sample_job "sendNight" Failed None (Some "CHAIN_EXECUTION_FAILED")).

Lemma rollback_reverts_outcomes_witness :
  ∃ j', jobs (revertSubmissionEvidence 5 (one_job_db failed_in_block_7)).2 !! "job-1" = Some j' ∧
        j_status j' = ReconciliationRequired ∧ j_chainStatus j' = Some ChainPending.
Proof.
  destruct (rollback_reverts_outcomes 5 (one_job_db failed_in_block_7) _ _ (surjective_pairing _) "job-1" failed_in_block_7)
    as (j' & H1 & _ & _ & H2); [vm_compute; reflexivity|].
  destruct H2 as (H3 & _ & _ & H4).
  - exists 7%Z. split; [reflexivity|lia].
  - apply (bool_decide_eq_true_1 (j_chainStatus failed_in_block_7 ∈ [Some ChainSuccess; Some ChainFailure])). vm_compute. reflexivity.
  - exists j'. split; [exact H1|]. split; [|exact H3]. rewrite H4. vm_compute. reflexivity.
Defined.
