(* ===== verification/BalanceCheck.v ===== *)
(** The check of stored NIGHT balances against the indexed rows
    (srv/crawler/night-balance-reconcile.ts). It writes nothing. *)
From S2P Require Import Prelude Db Json Numbers Schema Reconciliation Rollback.
From S2P Require Import RollbackFacts.

Local Open Scope string_scope.

Definition RECONCILE_MAX_PAGE : Z := 500.

Record NightBalanceDrift := MkDrift {
  dr_address : string; dr_field : string; dr_stored : option string; dr_computed : option string }.

(** [text(v)] of the FIELDS of a stored row and of computed figures, in order. *)
Definition fields (balance utxoCount txSentCount txReceivedCount totalSent totalReceived : Z)
    (firstSeenHeight lastActivityHeight : option Z) : list (string * option string) :=
  [("balance", Some (pretty balance)); ("utxoCount", Some (pretty utxoCount));
   ("txSentCount", Some (pretty txSentCount)); ("txReceivedCount", Some (pretty txReceivedCount));
   ("totalSent", Some (pretty totalSent)); ("totalReceived", Some (pretty totalReceived));
   ("firstSeenHeight", pretty <$> firstSeenHeight); ("lastActivityHeight", pretty <$> lastActivityHeight)].

Definition row_fields (b : NightBalance) : list (string * option string) :=
  fields (nb_balance b) (nb_utxoCount b) (nb_txSentCount b) (nb_txReceivedCount b) (nb_totalSent b)
    (nb_totalReceived b) (nb_firstSeenHeight b) (nb_lastActivityHeight b).

Definition figure_fields (f : NightBalanceFigures) : list (string * option string) :=
  fields (f_balance f) (f_utxoCount f) (f_txSentCount f) (f_txReceivedCount f) (f_totalSent f)
    (f_totalReceived f) (f_firstSeenHeight f) (f_lastActivityHeight f).

(** [row[f] !== null && row[f] !== undefined && String(row[f]) !== '0'] *)
Definition non_zero (v : option string) : bool :=
  match v with Some s => negb (bool_decide (s = "0")) | None => false end.

Section Check.
Context `{ScanOrder}.

Definition reconcileNightBalance (d : IndexDb) (address : string) : list NightBalanceDrift :=
  match computeNightBalance d address, ix_nightBalances d !! address with
  | None, None => []
  | None, Some row =>
      (λ fv, MkDrift address fv.1 fv.2 None) <$> filter (λ fv, non_zero fv.2 = true) (row_fields row)
  | Some f, None => [MkDrift address "row" None (Some (pretty (f_balance f)))]
  | Some f, Some row =>
      (λ sc : (string * option string) * (string * option string), MkDrift address sc.1.1 sc.1.2 sc.2.2) <$>
      filter (λ sc : (string * option string) * (string * option string), sc.1.2 ≠ sc.2.2)
        (zip (row_fields row) (figure_fields f))
  end.

(** The figures a stored row holds. *)
Definition stored_figures (b : NightBalance) : NightBalanceFigures :=
  MkFigures (nb_balance b) (nb_utxoCount b) (nb_txSentCount b) (nb_txReceivedCount b) (nb_totalSent b)
    (nb_totalReceived b) (nb_firstSeenHeight b) (nb_lastActivityHeight b).

Lemma pretty_opt_inj (a b : option Z) : pretty <$> a = pretty <$> b → a = b.
Proof. destruct a as [x|], b as [y|]; simpl; intros Hp; simplify_eq; done. Qed.

(** A stored row shows no drift exactly when it holds the computed figures. *)
Lemma no_drift_row d a f row :
  computeNightBalance d a = Some f → ix_nightBalances d !! a = Some row →
  reconcileNightBalance d a = [] ↔ stored_figures row = f.
Proof.
  intros Hf Hr. unfold reconcileNightBalance. rewrite Hf, Hr. split.
  - intros Hn. apply fmap_nil_inv in Hn.
    assert (∀ sc : (string * option string) * (string * option string),
      sc ∈ zip (row_fields row) (figure_fields f) → sc.1.2 = sc.2.2) as Hall.
    { intros sc Hin. destruct (decide (sc.1.2 = sc.2.2)) as [|Hne]; [done|]. exfalso.
      apply (not_elem_of_nil sc). rewrite <- Hn. by apply list_elem_of_filter. }
    unfold row_fields, figure_fields, fields, stored_figures in *. destruct row, f. simpl in *.
    repeat match type of Hall with
    | ∀ sc, sc ∈ ?x :: ?l → _ =>
        pose proof (Hall x (list_elem_of_here _ _)) as ?;
        assert (∀ sc : (string * option string) * (string * option string), sc ∈ l → sc.1.2 = sc.2.2) as Hall'
          by (intros; by apply Hall, list_elem_of_further);
        clear Hall; rename Hall' into Hall
    end. simpl in *.
    repeat match goal with
    | Hx : Some (pretty _) = Some (pretty _) |- _ => injection Hx as Hx; apply (inj pretty) in Hx
    | Hx : pretty <$> _ = pretty <$> _ |- _ => apply pretty_opt_inj in Hx
    end. by subst.
  - intros <-. unfold row_fields, figure_fields, stored_figures. simpl.
    rewrite (list_filter_none (λ sc : (string * option string) * (string * option string), sc.1.2 ≠ sc.2.2)); [done|].
    intros sc Hin Hne. apply Hne.
    repeat (apply elem_of_cons in Hin as [->|Hin]; [done|]). by apply not_elem_of_nil in Hin.
Qed.
End Check.

(** ** The figures depend on the rows, not on the order they are read in *)

Lemma foldl_min_spec x l : (foldl Z.min x l = x ∨ foldl Z.min x l ∈ l) ∧ (foldl Z.min x l ≤ x)%Z ∧ ∀ y, y ∈ l → (foldl Z.min x l ≤ y)%Z.
Proof.
  revert x. induction l as [|z l IH]; intros x; simpl; [split_and!; [by left|lia|set_solver]|].
  destruct (IH (Z.min x z)) as (H1 & H2 & H3). split_and!; [|lia|].
  - destruct H1 as [->|H1]; [|right; by apply list_elem_of_further].
    destruct (Z.min_spec x z) as [[_ ->]|[_ ->]]; [by left|right; apply list_elem_of_here].
  - intros y [->|Hy]%elem_of_cons; [lia|auto].
Qed.

Lemma foldl_max_spec x l : (foldl Z.max x l = x ∨ foldl Z.max x l ∈ l) ∧ (x ≤ foldl Z.max x l)%Z ∧ ∀ y, y ∈ l → (y ≤ foldl Z.max x l)%Z.
Proof.
  revert x. induction l as [|z l IH]; intros x; simpl; [split_and!; [by left|lia|set_solver]|].
  destruct (IH (Z.max x z)) as (H1 & H2 & H3). split_and!; [|lia|].
  - destruct H1 as [->|H1]; [|right; by apply list_elem_of_further].
    destruct (Z.max_spec x z) as [[_ ->]|[_ ->]]; [right; apply list_elem_of_here|by left].
  - intros y [->|Hy]%elem_of_cons; [lia|auto].
Qed.

(** The least and the greatest element depend on the elements only. *)
Lemma reduce_ext l l' : (∀ x, x ∈ l ↔ x ∈ l') → reduce Z.min l = reduce Z.min l' ∧ reduce Z.max l = reduce Z.max l'.
Proof.
  intros Hl. destruct l as [|x l], l' as [|x' l']; simpl.
  - done.
  - exfalso. apply (not_elem_of_nil x'). apply Hl, list_elem_of_here.
  - exfalso. apply (not_elem_of_nil x). apply Hl, list_elem_of_here.
  - split; f_equal.
    + destruct (foldl_min_spec x l) as (H1 & H2 & H3), (foldl_min_spec x' l') as (H1' & H2' & H3').
      set (m := foldl Z.min x l) in *. set (m' := foldl Z.min x' l') in *.
      assert (m ∈ x' :: l') as Hm by (apply Hl; destruct H1 as [->|?]; [apply list_elem_of_here|by apply list_elem_of_further]).
      assert (m' ∈ x :: l) as Hm' by (apply Hl; destruct H1' as [->|?]; [apply list_elem_of_here|by apply list_elem_of_further]).
      apply elem_of_cons in Hm as [->|Hm], Hm' as [->|Hm']; try (pose proof (H3 _ Hm')); try (pose proof (H3' _ Hm)); lia.
    + destruct (foldl_max_spec x l) as (H1 & H2 & H3), (foldl_max_spec x' l') as (H1' & H2' & H3').
      set (m := foldl Z.max x l) in *. set (m' := foldl Z.max x' l') in *.
      assert (m ∈ x' :: l') as Hm by (apply Hl; destruct H1 as [->|?]; [apply list_elem_of_here|by apply list_elem_of_further]).
      assert (m' ∈ x :: l) as Hm' by (apply Hl; destruct H1' as [->|?]; [apply list_elem_of_here|by apply list_elem_of_further]).
      apply elem_of_cons in Hm as [->|Hm], Hm' as [->|Hm']; try (pose proof (H3 _ Hm')); try (pose proof (H3' _ Hm)); lia.
Qed.

#[export] Instance sum_perm : Proper ((≡ₚ) ==> (=)) sum.
Proof. intros l l' Hp. unfold sum. induction Hp; simpl; lia. Qed.

#[export] Instance filter_perm {A} (P : A → Prop) `{∀ x, Decision (P x)} :
  Proper ((≡ₚ) ==> (≡ₚ)) (filter P : list A → list A).
Proof. apply _. Qed.

Section Invariance.
Context `{ScanOrder}.

Lemma select_NoDup_pairs {R} w (t : gmap string R) : NoDup (sql_select w t).
Proof. eapply NoDup_fmap_1, select_NoDup. Qed.

(** Two selections with the same rows are the same up to order. *)
Lemma select_perm {R} w w' (t t' : gmap string R) :
  (∀ k r, (t !! k = Some r ∧ w k r = true) ↔ (t' !! k = Some r ∧ w' k r = true)) →
  sql_select w t ≡ₚ sql_select w' t'.
Proof.
  intros Hw. apply NoDup_Permutation; [apply select_NoDup_pairs|apply select_NoDup_pairs|].
  intros [k r]. by rewrite !elem_of_select.
Qed.

Lemma elem_of_select_ids {R} ids (t : gmap string R) k r :
  (k, r) ∈ chunked ids (λ c, select_ids c t) ↔ t !! k = Some r ∧ k ∈ ids.
Proof.
  rewrite (elem_of_chunked (λ kr, t !! kr.1 = Some kr.2) (λ kr x, x = kr.1)).
  - simpl. naive_solver.
  - intros c. unfold select_ids. rewrite elem_of_select, bool_decide_eq_true. simpl. naive_solver.
Qed.

(** The transactions of an address's UTXOs. *)
Definition touches (us : list (string * UtxoRow)) (x : string) : Prop :=
  x ≠ EmptyString ∧ ∃ u, u ∈ us ∧ (u_createdAtTransaction u.2 = x ∨ u_spentAtTransaction u.2 = Some x).

Lemma elem_of_activity_txs us x : x ∈ activity_txs us ↔ touches us x.
Proof.
  unfold activity_txs, touches. rewrite elem_of_js_set, list_elem_of_omap. split.
  - intros (o & Ho & [-> Hne]%present_Some). split; [done|].
    apply elem_of_app in Ho as [Ho|Ho]; apply list_elem_of_fmap in Ho as (u & Hu & Hin); exists u; naive_solver.
  - intros (Hne & u & Hin & [Hc|Hs]).
    + exists (Some x). split; [|by apply present_Some]. apply elem_of_app. left. apply list_elem_of_fmap. exists u. by rewrite Hc.
    + exists (Some x). split; [|by apply present_Some]. apply elem_of_app. right. apply list_elem_of_fmap. exists u. by rewrite Hs.
Qed.

Lemma elem_of_heights d us sent x :
  x ∈ activity_heights d us sent ↔
  ∃ bid b, bid ≠ EmptyString ∧ ix_blocks d !! bid = Some b ∧ b_height b = x ∧
    ((∃ k t, touches us k ∧ ix_transactions d !! k = Some t ∧ t_block t = bid) ∨ (∃ kt, kt ∈ sent ∧ t_block kt.2 = bid)).
Proof.
  unfold activity_heights. rewrite list_elem_of_fmap. split.
  - intros ([bid b] & -> & Hin). apply elem_of_select_ids in Hin as [Hb Hin].
    apply elem_of_js_set, list_elem_of_omap in Hin as (o & Ho & [-> Hne]%present_Some). exists bid, b. split_and!; try done.
    apply elem_of_app in Ho as [Ho|Ho]; apply list_elem_of_fmap in Ho as ([k t] & Hk & Hin); simplify_eq/=.
    + left. apply elem_of_select_ids in Hin as [Ht Hin]. apply elem_of_activity_txs in Hin. eauto.
    + right. eauto.
  - intros (bid & b & Hne & Hb & <- & Hact). exists (bid, b). split; [done|]. apply elem_of_select_ids. split; [done|].
    apply elem_of_js_set, list_elem_of_omap. exists (Some bid). split; [|by apply present_Some]. apply elem_of_app.
    destruct Hact as [(k & t & Ht & Hk & <-)|(kt & Hin & <-)].
    + left. apply list_elem_of_fmap. exists (k, t). split; [done|]. apply elem_of_select_ids. split; [done|]. by apply elem_of_activity_txs.
    + right. apply list_elem_of_fmap. by exists kt.
Qed.

(** Figures agree when the rows of the address and the heights of its activity do. *)
Lemma compute_ext d d' a :
  utxos_of d a ≡ₚ utxos_of d' a → sentTxs_of d a ≡ₚ sentTxs_of d' a →
  (∀ x, x ∈ activity_heights d (utxos_of d a) (sentTxs_of d a) ↔ x ∈ activity_heights d' (utxos_of d' a) (sentTxs_of d' a)) →
  computeNightBalance d a = computeNightBalance d' a.
Proof.
  intros Hu Hs Hh. unfold computeNightBalance. destruct (reduce_ext _ _ Hh) as [Hmin Hmax].
  rewrite Hmin, Hmax. clear Hmin Hmax Hh.
  assert (∀ l l' : list (string * UtxoRow), l ≡ₚ l' → bool_decide (l = []) = bool_decide (l' = [])) as Hnil1.
  { intros l l' Hp. apply bool_decide_ext. split; intros ->; [by apply Permutation_nil|by apply Permutation_nil_r]. }
  assert (∀ l l' : list (string * TxRow), l ≡ₚ l' → bool_decide (l = []) = bool_decide (l' = [])) as Hnil2.
  { intros l l' Hp. apply bool_decide_ext. split; intros ->; [by apply Permutation_nil|by apply Permutation_nil_r]. }
  rewrite (Hnil1 _ _ Hu), (Hnil2 _ _ Hs). destruct (_ && _); [done|]. f_equal.
  assert (filter (λ u, unspent u = true) (utxos_of d a) ≡ₚ filter (λ u, unspent u = true) (utxos_of d' a)) as Hf by (by rewrite Hu).
  f_equal; try (f_equal; by apply Permutation_length); try (apply sum_perm; by apply fmap_Permutation).
Qed.
End Invariance.

(** ** Balances through a rollback *)

Section NoDrift.
Context `{ScanOrder}.

Lemma compute_chain d d' a : chain_of d = chain_of d' → computeNightBalance d a = computeNightBalance d' a.
Proof.
  intros Hc. destruct (chain_same _ _ Hc) as (Hb & Ht & Hu).
  unfold computeNightBalance, activity_heights, utxos_of, sentTxs_of. by rewrite Hb, Ht, Hu.
Qed.

Lemma drift_same d d' a :
  chain_of d = chain_of d' → ix_nightBalances d !! a = ix_nightBalances d' !! a →
  reconcileNightBalance d a = reconcileNightBalance d' a.
Proof. intros Hc Hn. unfold reconcileNightBalance. by rewrite (compute_chain d d') by done; rewrite Hn. Qed.

Lemma recompute_no_drift now a d : reconcileNightBalance (recomputeNightBalance now a d) a = [].
Proof.
  pose proof (recompute_chain now a d) as Hc. pose proof (compute_chain _ _ a Hc) as Hf.
  destruct (computeNightBalance d a) as [f|] eqn:Ef.
  - assert (∃ row, ix_nightBalances (recomputeNightBalance now a d) !! a = Some row ∧ stored_figures row = f) as (row & Hr & Hs).
    { unfold recomputeNightBalance. rewrite Ef. destruct f. case_match; simpl; rewrite lookup_insert_eq; by eexists. }
    by apply (no_drift_row _ _ f row).
  - unfold reconcileNightBalance. rewrite Hf. unfold recomputeNightBalance. rewrite Ef.
    destruct (ix_nightBalances d !! a) as [row|] eqn:En; [|by rewrite En].
    destruct (dust_known row); cbn [ix_nightBalances with_nightBalances];
      [by rewrite lookup_insert_eq|by rewrite lookup_delete_eq].
Qed.

Lemma recompute_other now a b d : a ≠ b → ix_nightBalances (recomputeNightBalance now b d) !! a = ix_nightBalances d !! a.
Proof.
  intros Hne. unfold recomputeNightBalance.
  repeat case_match; simpl; rewrite ?lookup_insert_ne, ?lookup_delete_ne by done; done.
Qed.

Lemma recompute_all now l d a :
  (a ∈ l → reconcileNightBalance (foldl (λ d a, recomputeNightBalance now a d) d l) a = []) ∧
  (a ∉ l → reconcileNightBalance (foldl (λ d a, recomputeNightBalance now a d) d l) a = reconcileNightBalance d a).
Proof.
  revert d. induction l as [|b l IH]; intros d; simpl; [set_solver|].
  destruct (IH (recomputeNightBalance now b d)) as [IH1 IH2].
  destruct (decide (a ∈ l)) as [Hin|Hnin]; [split; [auto|set_solver]|]. rewrite IH2 by done. split.
  - intros [<-|?]%elem_of_cons; [apply recompute_no_drift|done].
  - intros Hn. apply drift_same; [apply recompute_chain|]. apply recompute_other. set_solver.
Qed.

Lemma elem_of_affected d txs y :
  y ∈ affected_addresses d txs ↔ y ≠ EmptyString ∧
    ((∃ kt, kt ∈ txs ∧ (t_senderAddress kt.2 = Some y ∨ t_receiverAddress kt.2 = Some y)) ∨
     (∃ k u, ix_utxos d !! k = Some u ∧ u_owner u = y ∧
        (u_createdAtTransaction u ∈ tx_ids txs ∨ refs_in (tx_ids txs) (u_spentAtTransaction u) = true))).
Proof.
  unfold affected_addresses. cbv zeta. rewrite elem_of_js_set, list_elem_of_omap.
  assert (∀ k u, (k, u) ∈ chunked (tx_ids txs) (λ ids, sql_select (λ _ u, bool_decide (u_createdAtTransaction u ∈ ids)) (ix_utxos d)) ↔
    ix_utxos d !! k = Some u ∧ u_createdAtTransaction u ∈ tx_ids txs) as Hcr.
  { intros k u. rewrite (elem_of_chunked (λ ku, ix_utxos d !! ku.1 = Some ku.2) (λ ku x, x = u_createdAtTransaction ku.2)).
    - simpl. naive_solver.
    - intros c. rewrite elem_of_select, bool_decide_eq_true. simpl. naive_solver. }
  assert (∀ k u, (k, u) ∈ chunked (tx_ids txs) (λ ids, sql_select (λ _ u, refs_in ids (u_spentAtTransaction u)) (ix_utxos d)) ↔
    ix_utxos d !! k = Some u ∧ refs_in (tx_ids txs) (u_spentAtTransaction u) = true) as Hsp.
  { intros k u. rewrite (elem_of_chunked (λ ku, ix_utxos d !! ku.1 = Some ku.2) (λ ku x, u_spentAtTransaction ku.2 = Some x)).
    - by rewrite refs_in_true.
    - intros c. by rewrite elem_of_select, refs_in_true. }
  split.
  - intros (o & Ho & [-> Hne]%present_Some). split; [done|]. apply elem_of_app in Ho as [Ho|[Ho|Ho]%elem_of_app].
    + left. apply list_elem_of_In, in_concat in Ho as (l & Hl & Ho). apply list_elem_of_In, list_elem_of_fmap in Hl as (kt & -> & Hkt).
      exists kt. split; [done|]. apply list_elem_of_In in Ho. set_solver.
    + right. apply list_elem_of_fmap in Ho as ([k u] & ? & Hin). simplify_eq/=. apply Hcr in Hin as [? ?]. eauto 6.
    + right. apply list_elem_of_fmap in Ho as ([k u] & ? & Hin). simplify_eq/=. apply Hsp in Hin as [? ?]. eauto 6.
  - intros (Hne & Hact). exists (Some y). split; [|by apply present_Some]. rewrite !elem_of_app.
    destruct Hact as [(kt & Hkt & Hsr)|(k & u & Hu & <- & [Hc|Hs])].
    + left. apply list_elem_of_In, in_concat. exists [t_senderAddress kt.2; t_receiverAddress kt.2]. split.
      * apply list_elem_of_In, list_elem_of_fmap. by exists kt.
      * apply list_elem_of_In. destruct Hsr as [->| ->]; set_solver.
    + right. left. apply list_elem_of_fmap. exists (k, u). split; [done|]. by apply Hcr.
    + right. right. apply list_elem_of_fmap. exists (k, u). split; [done|]. by apply Hsp.
Qed.

(** An address no removed transaction touches keeps its figures. *)
Lemma unaffected_figures d h a :
  linked d → a ≠ EmptyString → a ∉ affected_addresses d (rolled_txs d (rolled_blocks d h)) →
  computeNightBalance (remove_rows h d) a = computeNightBalance d a.
Proof.
  intros Hl Hne Hna. set (B := rolled_blocks d h) in *. set (T := tx_ids (rolled_txs d B)) in *.
  assert (∀ k u, ix_utxos d !! k = Some u → u_owner u = a → u_createdAtTransaction u ∉ T ∧ refs_in T (u_spentAtTransaction u) = false) as Hown.
  { intros k u Hu Ho. split.
    - intros Hc. apply Hna, elem_of_affected. split; [done|]. right. eauto 6.
    - apply not_true_iff_false. intros Hc. apply Hna, elem_of_affected. split; [done|]. right. eauto 6. }
  assert (∀ k t, ix_transactions d !! k = Some t → t_senderAddress t = Some a → t_block t ∉ B) as Hsend.
  { intros k t Ht Hs Hb. apply Hna, elem_of_affected. split; [done|]. left. exists (k, t). split; [|by left].
    by apply elem_of_rolled_txs. }
  assert (∀ k u, u_owner u = a → ix_utxos (remove_rows h d) !! k = Some u ↔ ix_utxos d !! k = Some u) as Hu.
  { intros k u Ho. rewrite removed_utxos. fold B. fold T. split.
    - intros (u0 & Hu0 & Hc & ->). assert (u_owner u0 = a) as Ho0 by (revert Ho; unfold freed; by case_match).
      destruct (Hown _ _ Hu0 Ho0) as [_ Hs]. unfold freed. by rewrite Hs.
    - intros Hu. destruct (Hown _ _ Hu Ho) as [Hc Hs]. exists u. unfold freed. by rewrite Hs. }
  assert (∀ k t, t_senderAddress t = Some a → ix_transactions (remove_rows h d) !! k = Some t ↔ ix_transactions d !! k = Some t) as Ht.
  { intros k t Hs. rewrite removed_txs. fold B. split; [by intros [? _]|]. intros Ht. split; [done|]. by eapply Hsend. }
  assert (utxos_of (remove_rows h d) a ≡ₚ utxos_of d a) as HU.
  { apply select_perm. intros k u. rewrite andb_true_iff, !bool_decide_eq_true. naive_solver. }
  assert (sentTxs_of (remove_rows h d) a ≡ₚ sentTxs_of d a) as HS.
  { unfold sentTxs_of. apply filter_perm, select_perm. intros k t. rewrite !bool_decide_eq_true. naive_solver. }
  apply compute_ext; [done|done|]. intros x. rewrite !elem_of_heights.
  assert (∀ k, touches (utxos_of (remove_rows h d) a) k ↔ touches (utxos_of d a) k) as Htouch.
  { intros k. unfold touches. by setoid_rewrite HU. }
  setoid_rewrite Htouch. setoid_rewrite HS.
  assert (∀ k, touches (utxos_of d a) k → k ∉ T) as HnT.
  { intros k (_ & [ku u] & Hin & Hk). unfold utxos_of in Hin. apply elem_of_select in Hin as [Hu0 Ho].
    apply andb_prop in Ho as [Ho%bool_decide_eq_true_1 _]. destruct (Hown _ _ Hu0 Ho) as [Hc Hs].
    destruct Hk as [<-|Hk]; [done|]. intros HT. simpl in Hk. rewrite Hk in Hs. simpl in Hs. by apply bool_decide_eq_false_1 in Hs. }
  assert (∀ kt, kt ∈ sentTxs_of d a → t_block kt.2 ∉ B) as HsB.
  { intros [k t] Hin. unfold sentTxs_of in Hin. apply list_elem_of_filter in Hin as [_ Hin].
    apply elem_of_select in Hin as [Hk Hs%bool_decide_eq_true_1]. by eapply Hsend. }
  assert (∀ k t, k ∉ T → ix_transactions d !! k = Some t → t_block t ∉ B) as HtB.
  { intros k t HT Hk Hb. apply HT, removed_tx_iff; eauto with ng. }
  split.
  - intros (bid & b & Hb0 & Hb & Hx & Hact). apply removed_blocks in Hb as [Hb _]. exists bid, b. split_and!; try done.
    destruct Hact as [(k & t & Hk & Hkt & <-)|?]; [left|by right]. apply removed_txs in Hkt as [Hkt _]. eauto.
  - intros (bid & b & Hb0 & Hb & Hx & Hact). exists bid, b. split; [done|]. rewrite removed_blocks. fold B.
    destruct Hact as [(k & t & Hk & Hkt & <-)|(kt & Hin & <-)].
    + split_and!; [done|eauto|done|]. left. exists k, t. rewrite removed_txs. fold B. eauto 6.
    + split_and!; [done|eauto|done|]. right. eauto.
Qed.
End NoDrift.

(** ** The rollback theorems *)

Section RollbackProperties.
Context `{ScanOrder}.

Lemma chain_lookups d d' :
  chain_of d = chain_of d' →
  ix_blocks d = ix_blocks d' ∧ ix_transactions d = ix_transactions d' ∧ ix_utxos d = ix_utxos d'.
Proof. apply chain_same. Qed.

Lemma rolled_cases now h d :
  (rolled_blocks d h = [] ∧ rolled now h d = d) ∨
  rolled now h d = foldl (λ d a, recomputeNightBalance now a d) (remove_rows h d)
    (affected_addresses d (rolled_txs d (rolled_blocks d h))).
Proof. unfold rolled. destruct (rolled_blocks d h); [by left|by right]. Qed.

(** The blocks, transactions and outputs a rollback leaves. *)
Lemma rollback_rows now h st extra d o d' :
  rooted d → rollbackIndexedDataFromHeight now h st extra d = (o, d') →
  (∀ k b, ix_blocks d' !! k = Some b ↔ ix_blocks d !! k = Some b ∧ (b_height b < h)%Z) ∧
  (∀ k t, ix_transactions d' !! k = Some t ↔ ix_transactions d !! k = Some t ∧ t_block t ∉ rolled_blocks d h) ∧
  (∀ k u, ix_utxos d' !! k = Some u ↔ ∃ u0, ix_utxos d !! k = Some u0 ∧
     u_createdAtTransaction u0 ∉ tx_ids (rolled_txs d (rolled_blocks d h)) ∧
     u = freed (tx_ids (rolled_txs d (rolled_blocks d h))) u0).
Proof.
  intros Hl Hr. apply rollback_result in Hr as (d0 & Hc0 & _ & Hc & _ & _).
  destruct (chain_lookups _ _ Hc0) as (Hb0 & Ht0 & Hu0).
  assert (rooted d0) as Hl0 by (destruct Hl; split; by rewrite ?Hb0, ?Ht0).
  assert (rolled_blocks d h = rolled_blocks d0 h) as HBe by (unfold rolled_blocks; by rewrite Hb0).
  assert (∀ bs, rolled_txs d bs = rolled_txs d0 bs) as HTe by (intros bs; unfold rolled_txs; by rewrite Ht0).
  rewrite HTe, HBe, <- Hb0, <- Ht0, <- Hu0. clear d Hl Hc0 Hb0 Ht0 Hu0 HBe HTe.
  set (B := rolled_blocks d0 h). set (T := tx_ids (rolled_txs d0 B)).
  assert (∀ k b, ix_blocks d0 !! k = Some b → k ∉ B ↔ (b_height b < h)%Z) as HB.
  { intros k b Hk. unfold B. rewrite rolled_iff by done. rewrite Hk. split.
    - intros Hn. apply Z.nle_gt. intros Hh. apply Hn. eauto.
    - intros Hh (b' & Hb' & Hh'). simplify_eq. lia. }
  destruct (rolled_cases now h d0) as [[HBn Hro]|Hro]; rewrite Hro in Hc.
  - fold B in HBn. assert (T = []) as ->.
    { unfold T. destruct (tx_ids _) as [|x l] eqn:ET; [done|]. exfalso.
      assert (x ∈ tx_ids (rolled_txs d0 B)) as Hx by (rewrite ET; apply list_elem_of_here).
      apply elem_of_tx_ids in Hx as (_ & t & _ & Hx). rewrite HBn in Hx. by apply not_elem_of_nil in Hx. }
    destruct (chain_lookups _ _ Hc) as (-> & -> & ->). rewrite HBn in *.
    split_and!; [intros k b; split; [intros Hk; split; [done|]; apply (HB k b Hk); set_solver|by intros [? _]]|set_solver|]. intros k u.
    assert (∀ u, freed [] u = u) as Hfr by (intros u'; unfold freed; by destruct (u_spentAtTransaction u')).
    setoid_rewrite Hfr. set_solver.
  - rewrite recompute_all_chain in Hc. destruct (chain_lookups _ _ Hc) as (-> & -> & ->).
    split_and!; [|apply removed_txs|intros k u; apply removed_utxos]. intros k b. rewrite removed_blocks. fold B.
    split; intros [Hk Hn]; (split; [done|]); by apply (HB k b Hk).
Qed.

Lemma rollback_linked now h st extra d o d' :
  linked d → rollbackIndexedDataFromHeight now h st extra d = (o, d') → linked d'.
Proof.
  intros Hl Hr. apply rollback_result in Hr as (d0 & Hc0 & _ & Hc & _ & _). eapply linked_chain; [exact Hc|].
  pose proof (linked_chain _ _ Hc0 Hl) as Hl0. destruct (rolled_cases now h d0) as [[_ ->]| ->]; [done|].
  eapply linked_chain; [apply recompute_all_chain|]. by apply remove_rows_linked.
Qed.

(** The same with every reference. *)
Lemma rollback_tables now h st extra d o d' :
  linked d → rollbackIndexedDataFromHeight now h st extra d = (o, d') →
  linked d' ∧
  (∀ k b, ix_blocks d' !! k = Some b ↔ ix_blocks d !! k = Some b ∧ (b_height b < h)%Z) ∧
  (∀ k t, ix_transactions d' !! k = Some t ↔ ix_transactions d !! k = Some t ∧ t_block t ∉ rolled_blocks d h) ∧
  (∀ k u, ix_utxos d' !! k = Some u ↔ ∃ u0, ix_utxos d !! k = Some u0 ∧
     u_createdAtTransaction u0 ∉ tx_ids (rolled_txs d (rolled_blocks d h)) ∧
     u = freed (tx_ids (rolled_txs d (rolled_blocks d h))) u0).
Proof. intros Hl Hr. split; [by eapply rollback_linked|]. eapply rollback_rows; [by apply linked_rooted|exact Hr]. Qed.

(** A rollback removes exactly the blocks from the height upwards with
    their transactions, and leaves no dangling row: every reference of the
    remaining tables names a row that is still there, each UTXO created on the
    kept chain stays, and one spent by a removed transaction is unspent again. *)
Theorem rollback_removes_the_branch now h st extra d o d' :
  linked d → rollbackIndexedDataFromHeight now h st extra d = (o, d') →
  linked d' ∧
  (∀ k b, ix_blocks d' !! k = Some b ↔ ix_blocks d !! k = Some b ∧ (b_height b < h)%Z) ∧
  (∀ k t, ix_transactions d' !! k = Some t ↔ ix_transactions d !! k = Some t ∧ is_Some (ix_blocks d' !! t_block t)) ∧
  (∀ k u, ix_utxos d' !! k = Some u ↔ ∃ u0, ix_utxos d !! k = Some u0 ∧
     is_Some (ix_transactions d' !! u_createdAtTransaction u0) ∧
     u = set_spent (x ← u_spentAtTransaction u0; if bool_decide (is_Some (ix_transactions d' !! x)) then Some x else None) u0).
Proof.
  intros Hl Hr. destruct (rollback_tables _ _ _ _ _ _ _ Hl Hr) as (Hl' & Hb & Ht & Hu).
  set (B := rolled_blocks d h) in *. set (T := tx_ids (rolled_txs d B)) in *.
  assert (∀ x t, ix_transactions d !! x = Some t → x ∉ T ↔ t_block t ∉ B) as HT.
  { intros x t Hx. pose proof (removed_tx_iff d h x (linked_rooted _ Hl)) as Hi. fold B in Hi. fold T in Hi. rewrite Hi, Hx. naive_solver. }
  assert (∀ x, is_Some (ix_transactions d !! x) → x ∉ T ↔ is_Some (ix_transactions d' !! x)) as Hkept.
  { intros x [t Hx]. rewrite (HT _ _ Hx). split.
    - intros Hn. exists t. by apply Ht.
    - intros [t' Ht']. apply Ht in Ht' as [Hx' Hn]. by simplify_eq. }
  split_and!; [done|done| |].
  - intros k t. rewrite Ht. split; intros [Hk Hn]; (split; [done|]).
    + apply (lk_tx _ Hl' k). by apply Ht.
    + destruct Hn as [b Hn]. apply Hb in Hn as [Hb0 Hh]. unfold B. rewrite rolled_iff by eauto with ng. intros (b' & Hb' & Hh'). simplify_eq. lia.
  - intros k u. rewrite Hu. split; intros (u0 & Hk & Hc1 & ->); exists u0; destruct (lk_utxo _ Hl _ _ Hk) as [Hcr Hsp].
    all: split_and!; [done|by apply Hkept|]; unfold freed; destruct u0 as [ow tt va ih oi ct nc cr [x|]]; simpl in *; try done.
    all: rewrite (bool_decide_ext (is_Some (ix_transactions d' !! x)) (x ∉ T)) by (by rewrite Hkept).
    all: destruct (decide (x ∈ T)); [rewrite (bool_decide_eq_true_2 (x ∈ T)), (bool_decide_eq_false_2 (x ∉ T)) by (done || tauto)
                                    |rewrite (bool_decide_eq_false_2 (x ∈ T)), (bool_decide_eq_true_2 (x ∉ T)) by done]; done.
Qed.

(** Night balances survive a rollback: if before it no address drifted from
    what the indexed rows say, none does after it, although only the addresses
    the removed transactions touched are recomputed. *)
Theorem rollback_keeps_balances_exact now h st extra d o d' :
  linked d → (∀ a, a ≠ EmptyString → reconcileNightBalance d a = []) →
  rollbackIndexedDataFromHeight now h st extra d = (o, d') →
  ∀ a, a ≠ EmptyString → reconcileNightBalance d' a = [].
Proof.
  intros Hl Hd Hr a Ha. apply rollback_result in Hr as (d0 & Hc0 & Hn0 & Hc & Hn & _).
  rewrite (drift_same d' (rolled now h d0)) by (done || by rewrite Hn).
  specialize (Hd a Ha). rewrite <- (drift_same d0 d) in Hd by (done || by rewrite Hn0).
  pose proof (linked_chain _ _ Hc0 Hl) as Hl0. destruct (rolled_cases now h d0) as [[_ ->]| ->]; [done|]. set (A := affected_addresses d0 _).
  destruct (recompute_all now A (remove_rows h d0) a) as [H1 H2]. destruct (decide (a ∈ A)) as [Hin|Hnin]; [auto|].
  rewrite H2 by done. unfold reconcileNightBalance in *. rewrite unaffected_figures by done.
  by destruct (removed_frame d0 h) as (-> & _ & _).
Qed.
End RollbackProperties.

(** ** Example: the block that spent a UTXO is rolled back *)

#[local] Existing Instance key_order.

Lemma map_check {R} (P : string → R → bool) (t : gmap string R) :
  forallb (λ kr, P kr.1 kr.2) (map_to_list t) = true → ∀ k r, t !! k = Some r → P k r = true.
Proof.
  intros Hall k r Hk. apply (proj1 (forallb_forall _ _) Hall (k, r)). by apply list_elem_of_In, elem_of_map_to_list.
Qed.

#[export] Instance linked_to_dec {R} (t : gmap string R) r : Decision (linked_to t r).
Proof. unfold linked_to. destruct r; apply _. Defined.

Definition plain_block (hash : string) (height : Z) (parent : option string) : BlockRow :=
  MkBlock hash height 1 0 None None None parent.
Definition plain_tx (sender receiver : option string) (amount : option Z) (block : string) : TxRow :=
  MkTx 0 "0x" None 1 None "REGULAR" "night_transfer" None sender receiver amount None None None 0 block no_payload.
Definition night_utxo (owner : string) (value : Z) (intent created : string) (spent : option string) : UtxoRow :=
  MkUtxo owner NIGHT_RAW_TOKEN_TYPE value intent 0 None "nonce" created spent.

Definition two_blocks : IndexDb :=
  let row b n s r ts tr h1 h2 := MkNightBalance b n s r ts tr (Some h1) None (Some h2) None None None None None in
  MkIndexDb {[ "b1" := plain_block "0x1" 1 None; "b2" := plain_block "0x2" 2 (Some "b1") ]}
    {[ "t1" := plain_tx None (Some "alice") None "b1"; "t2" := plain_tx (Some "alice") (Some "bob") (Some 5%Z) "b2" ]}
    ∅ ∅ ∅
    {[ "u1" := night_utxo "alice" 5 "i1" "t1" (Some "t2"); "u2" := night_utxo "bob" 5 "i2" "t2" None ]}
    ∅ ∅ {[ "f1" := MkFee 0 0 (Some "t1"); "f2" := MkFee 0 0 (Some "t2") ]} ∅ ∅ ∅
    {[ "alice" := row 0 0 1 1 5 5 1 2; "bob" := row 5 1 0 1 0 5 2 2 ]}%Z
    (MkSync (Some 2%Z) None None None None "syncing" None) (MkDatabase ∅ ∅ ∅ (Some (Some 0%Z))).

Lemma two_blocks_linked : linked two_blocks.
Proof.
  split; [reflexivity|reflexivity|..].
  - intros k t Ht. apply (bool_decide_eq_true_1 (is_Some (ix_blocks two_blocks !! t_block t))). revert k t Ht. apply map_check. vm_compute. reflexivity.
  - intros k u Hu. apply (bool_decide_eq_true_1 (is_Some (ix_transactions two_blocks !! u_createdAtTransaction u) ∧
      linked_to (ix_transactions two_blocks) (u_spentAtTransaction u))). revert k u Hu. apply map_check. vm_compute. reflexivity.
  - intros k r Hr. vm_compute in Hr. discriminate Hr.
  - intros k r Hr. vm_compute in Hr. discriminate Hr.
  - intros k r Hr. vm_compute in Hr. discriminate Hr.
  - intros k r Hr. apply (bool_decide_eq_true_1 (linked_to (ix_transactions two_blocks) (ref r))). revert k r Hr. apply map_check. vm_compute. reflexivity.
  - intros k r Hr. vm_compute in Hr. discriminate Hr.
  - intros k r Hr. vm_compute in Hr. discriminate Hr.
  - intros k r Hr. vm_compute in Hr. discriminate Hr.
  - intros k r Hr. vm_compute in Hr. discriminate Hr.
Qed.

Definition after_rollback : IndexDb := (rollbackIndexedDataFromHeight 99 2 "syncing" None two_blocks).2.

Lemma rollback_removes_the_branch_witness :
  linked after_rollback ∧
  (∀ k b, ix_blocks after_rollback !! k = Some b ↔ ix_blocks two_blocks !! k = Some b ∧ (b_height b < 2)%Z).
Proof.
  destruct (rollback_removes_the_branch 99 2 "syncing" None two_blocks _ after_rollback two_blocks_linked (surjective_pairing _))
    as (H1 & H2 & _). split; [exact H1|exact H2].
Defined.

Lemma two_blocks_exact a : reconcileNightBalance two_blocks a = [].
Proof.
  destruct (decide (a = "alice")) as [->|Hal]; [vm_compute; reflexivity|].
  destruct (decide (a = "bob")) as [->|Hbob]; [vm_compute; reflexivity|].
  assert (∀ o, o ∈ ["alice"; "bob"] → o ≠ a) as Hne by (intros o Ho; repeat (apply elem_of_cons in Ho as [->|Ho]; [congruence|]); by apply not_elem_of_nil in Ho).
  unfold reconcileNightBalance. assert (ix_nightBalances two_blocks !! a = None) as ->.
  { cbn [two_blocks ix_nightBalances]. rewrite lookup_insert_ne by congruence. by rewrite lookup_singleton_ne by congruence. }
  assert (computeNightBalance two_blocks a = None) as ->; [|done].
  unfold computeNightBalance. rewrite (bool_decide_eq_true_2 (utxos_of _ _ = [])), (bool_decide_eq_true_2 (sentTxs_of _ _ = [])); [done| |].
  - unfold sentTxs_of, sql_select. rewrite (list_filter_none (λ kr : string * TxRow, bool_decide (t_senderAddress kr.2 = Some a) = true)); [done|].
    intros kt Hin Hs. apply bool_decide_eq_true_1 in Hs. vm_compute in Hin.
    repeat (apply elem_of_cons in Hin as [->|Hin]; [simpl in Hs; congruence|]). by apply not_elem_of_nil in Hin.
  - unfold utxos_of, sql_select. apply list_filter_none. intros ku Hin [Hs%bool_decide_eq_true_1 _]%andb_prop. vm_compute in Hin.
    repeat (apply elem_of_cons in Hin as [->|Hin]; [simpl in Hs; congruence|]). by apply not_elem_of_nil in Hin.
Qed.

Lemma rollback_keeps_balances_exact_witness :
  reconcileNightBalance after_rollback "alice" = [] ∧
  (λ b, (nb_balance b, nb_lastActivityHeight b)) <$> ix_nightBalances after_rollback !! "alice" = Some (5%Z, Some 1%Z).
Proof.
  split; [|vm_compute; reflexivity].
  apply (rollback_keeps_balances_exact 99 2 "syncing" None two_blocks _ after_rollback two_blocks_linked
    (λ a _, two_blocks_exact a) (surjective_pairing _)). discriminate.
Defined.
