(* ===== verification/BalanceScan.v ===== *)
(** The check of all stored NIGHT balances, page by page
    (reconcileNightBalances of srv/crawler/night-balance-reconcile.ts): whoever
    follows its pages checks every address once. *)
From S2P Require Import Prelude Db Json Numbers Schema Reconciliation Rollback BalanceCheck.

Local Open Scope string_scope.
Local Open Scope list_scope.

(** ** One page *)

(** [address > after], in the order of the column's text. *)
Definition beyond (after : string) (a : string) : bool := negb (bool_decide (String.le a after)).

(** [WHERE col > after ORDER BY col LIMIT limit] of a column's values. *)
Definition column_page (after : string) (limit : nat) (l : list string) : list string :=
  take limit (merge_sort String.le (keep (beyond after) l)).

Definition balance_addresses (d : IndexDb) : list string := (map_to_list (ix_nightBalances d)).*1.

(** [SELECT DISTINCT owner]: an owner counts once. *)
Definition night_owners (d : IndexDb) : list string :=
  remove_dups (u_owner <$> keep (λ u, bool_decide (u_tokenType u = NIGHT_RAW_TOKEN_TYPE)) (map_to_list (ix_utxos d)).*2).

Definition page_limit (limit : option Z) : nat := Z.to_nat (Z.min (Z.max 1 (nullish limit RECONCILE_MAX_PAGE)) RECONCILE_MAX_PAGE).

Record BalanceReport := MkReport { br_checked : nat; br_next : option string; br_drifted : list NightBalanceDrift }.

Section Scan.
Context `{ScanOrder}.

Definition reconcileNightBalances (d : IndexDb) (address after : option string) (limit : option Z) : BalanceReport :=
  match present address with
  | Some a => MkReport 1 None (reconcileNightBalance d a)
  | None =>
      let limit := page_limit limit in
      let after := nullish after EmptyString in
      let rows := column_page after limit (balance_addresses d) in
      let owners := column_page after limit (night_owners d) in
      let merged := merge_sort String.le (js_set (rows ++ owners)) in
      let page := take limit merged in
      let more := (limit <? length merged)%nat || (length rows =? limit)%nat || (length owners =? limit)%nat in
      MkReport (length page) (if more then last page else None) (mjoin (reconcileNightBalance d <$> page))
  end.

(** A reader that passes [next] as [after] until it is null. *)
Fixpoint follow (fuel : nat) (d : IndexDb) (limit : option Z) (after : option string) : option (nat * list NightBalanceDrift) :=
  match fuel with
  | O => None
  | S fuel' =>
      let r := reconcileNightBalances d None after limit in
      match br_next r with
      | None => Some (br_checked r, br_drifted r)
      | Some next =>
          rest ← follow fuel' d limit (Some next);
          Some ((br_checked r + rest.1)%nat, br_drifted r ++ rest.2)
      end
  end.

(** ** Sorted lists *)

Abbreviation sorted := (StronglySorted String.le).
Implicit Types (l : list string) (P : string → bool).

Lemma sorted_keep (P : string → bool) l : sorted l → sorted (keep P l).
Proof.
  induction 1 as [|a l Hs IH Hf]; [constructor|]. unfold keep in *. rewrite filter_cons. case_decide; [|done]. constructor; [done|].
  apply Forall_forall. intros x [_ Hx]%list_elem_of_filter. by eapply Forall_forall in Hf.
Qed.

Lemma sorted_sort l : sorted (merge_sort String.le l).
Proof. apply (StronglySorted_merge_sort String.le). Qed.

(** Two duplicate-free sorted lists of the same elements are equal. *)
Lemma sorted_eq l1 l2 : sorted l1 → sorted l2 → NoDup l1 → NoDup l2 → (∀ x, x ∈ l1 ↔ x ∈ l2) → l1 = l2.
Proof. intros H1 H2 N1 N2 Hx. by apply (StronglySorted_unique String.le); [..|apply NoDup_Permutation]. Qed.

Lemma NoDup_keep (P : string → bool) l : NoDup l → NoDup (keep P l).
Proof. by apply NoDup_filter. Qed.

Lemma NoDup_sort l : NoDup l → NoDup (merge_sort String.le l).
Proof. by rewrite merge_sort_Permutation. Qed.

Lemma keep_cons P a l : keep P (a :: l) = if P a then a :: keep P l else keep P l.
Proof. unfold keep. rewrite filter_cons. by destruct (P a). Qed.

Lemma keep_all (P : string → bool) l : (∀ x, x ∈ l → P x = true) → keep P l = l.
Proof. apply list_filter_all. Qed.

Lemma take_keep (P : string → bool) n l :
  (∀ x, x ∈ take n l → P x = true) → take n (keep P l) = take n l.
Proof.
  revert n. induction l as [|a l IH]; intros [|n] Hp; try done.
  rewrite keep_cons, Hp by apply list_elem_of_here. simpl. f_equal. apply IH. intros x Hx. by apply Hp, list_elem_of_further.
Qed.

Lemma elem_take_keep (P : string → bool) n l x : x ∈ take n l → P x = true → x ∈ take n (keep P l).
Proof.
  revert n. induction l as [|a l IH]; intros [|n] Hx Hp; try by apply not_elem_of_nil in Hx.
  rewrite keep_cons. apply elem_of_cons in Hx as [->|Hx].
  - rewrite Hp. apply list_elem_of_here.
  - destruct (P a); [by apply list_elem_of_further, IH|]. apply IH; [|done].
    rewrite <- (take_drop n l), take_app, elem_of_app. left. by rewrite take_ge by (rewrite length_take; lia).
Qed.

(** What follows the last element of a prefix. *)
Lemma beyond_prefix n l x : sorted l → NoDup l → last (take n l) = Some x → keep (beyond x) l = drop n l.
Proof.
  revert n. induction l as [|a l IH]; intros [|n] Hs Hn Hx; try done.
  apply StronglySorted_inv in Hs as [Hs Ha]. apply NoDup_cons in Hn as [Hna Hn]. rewrite keep_cons. simpl in Hx. simpl.
  rewrite Forall_forall in Ha. destruct (take n l) as [|b l'] eqn:Et.
  - injection Hx as <-. unfold beyond at 1. rewrite bool_decide_eq_true_2 by done. simpl.
    assert (drop n l = l) as -> by (destruct n; [done|by destruct l]).
    apply keep_all. intros y Hy. unfold beyond. apply negb_true_iff, bool_decide_eq_false_2. intros Hle.
    assert (y = a) as -> by (apply (anti_symm String.le); auto). done.
  - rewrite last_cons_cons, <- Et in Hx. assert (x ∈ l) as Hin.
    { apply last_Some_elem_of in Hx. by apply (subseteq_take n). }
    unfold beyond at 1. rewrite bool_decide_eq_true_2 by auto. simpl. by apply IH.
Qed.

(** ** The pages *)

(** Every address with a stored row or a NIGHT output beyond [after], once and in
    order. *)
Definition addresses (after : string) (d : IndexDb) : list string :=
  merge_sort String.le (keep (beyond after) (remove_dups (balance_addresses d ++ night_owners d))).

Lemma addresses_sorted after d : sorted (addresses after d) ∧ NoDup (addresses after d).
Proof. split; [apply sorted_sort|]. apply NoDup_sort, NoDup_keep, NoDup_remove_dups. Qed.

Lemma elem_of_addresses after d a :
  a ∈ addresses after d ↔ beyond after a = true ∧ (a ∈ balance_addresses d ∨ a ∈ night_owners d).
Proof.
  unfold addresses. rewrite merge_sort_Permutation, elem_of_keep, elem_of_remove_dups, elem_of_app. done.
Qed.

(** A column's rows are those addresses it holds. *)
Lemma column_rows after d l : NoDup l → (∀ a, a ∈ l → a ∈ balance_addresses d ∨ a ∈ night_owners d) →
  merge_sort String.le (keep (beyond after) l) = keep (λ a, bool_decide (a ∈ l)) (addresses after d).
Proof.
  intros Hn Hl. destruct (addresses_sorted after d). apply sorted_eq.
  - apply sorted_sort.
  - by apply sorted_keep.
  - by apply NoDup_sort, NoDup_keep.
  - by apply NoDup_keep.
  - intros x. rewrite merge_sort_Permutation, !elem_of_keep, bool_decide_eq_true, elem_of_addresses. naive_solver.
Qed.

Lemma balance_addresses_NoDup d : NoDup (balance_addresses d).
Proof. apply NoDup_fst_map_to_list. Qed.

Lemma night_owners_NoDup d : NoDup (night_owners d).
Proof. apply NoDup_remove_dups. Qed.

Lemma rows_page after d n : column_page after n (balance_addresses d) = take n (keep (λ a, bool_decide (a ∈ balance_addresses d)) (addresses after d)).
Proof. unfold column_page. rewrite (column_rows after d); [done|apply balance_addresses_NoDup|auto]. Qed.

Lemma owners_page after d n : column_page after n (night_owners d) = take n (keep (λ a, bool_decide (a ∈ night_owners d)) (addresses after d)).
Proof. unfold column_page. rewrite (column_rows after d); [done|apply night_owners_NoDup|auto]. Qed.

(** The merged page: a part of the addresses, in order. *)
Definition merged_page (after : string) (n : nat) (d : IndexDb) : list string :=
  merge_sort String.le (js_set (column_page after n (balance_addresses d) ++ column_page after n (night_owners d))).

Lemma merged_part after n d :
  merged_page after n d =
  keep (λ a, bool_decide (a ∈ column_page after n (balance_addresses d) ++ column_page after n (night_owners d))) (addresses after d).
Proof.
  destruct (addresses_sorted after d). apply sorted_eq.
  - apply sorted_sort.
  - by apply sorted_keep.
  - apply NoDup_sort, js_set_NoDup.
  - by apply NoDup_keep.
  - intros x. unfold merged_page. rewrite merge_sort_Permutation, elem_of_js_set, elem_of_keep, bool_decide_eq_true.
    split; [|by intros [? _]]. intros Hx. split; [done|]. rewrite rows_page, owners_page in Hx.
    apply elem_of_app in Hx as [Hx|Hx]; apply subseteq_take, elem_of_keep in Hx as [_ Hx]; done.
Qed.

(** Its first [n] are the first [n] addresses. *)
Lemma page_first after n d : take n (merged_page after n d) = take n (addresses after d).
Proof.
  rewrite merged_part. apply take_keep. intros x Hx. apply bool_decide_eq_true_2, elem_of_app. rewrite rows_page, owners_page.
  pose proof (subseteq_take _ _ _ Hx) as Ha. apply elem_of_addresses in Ha as [_ [Ha|Ha]]; [left|right]; apply elem_take_keep; try done;
    by apply bool_decide_eq_true_2.
Qed.

(** When no page is full, the addresses end here. *)
Lemma page_last after n d :
  (n <? length (merged_page after n d))%nat || (length (column_page after n (balance_addresses d)) =? n)%nat
    || (length (column_page after n (night_owners d)) =? n)%nat = false →
  drop n (addresses after d) = [].
Proof.
  intros [[H1%Nat.ltb_ge H2%Nat.eqb_neq]%orb_false_iff H3%Nat.eqb_neq]%orb_false_iff. apply drop_ge.
  rewrite rows_page, length_take in H2. rewrite owners_page, length_take in H3.
  assert (merged_page after n d = addresses after d) as <-; [|done].
  rewrite merged_part. apply keep_all. intros x Hx. apply bool_decide_eq_true_2, elem_of_app. rewrite rows_page, owners_page.
  rewrite !take_ge by lia. rewrite !elem_of_keep, !bool_decide_eq_true. apply elem_of_addresses in Hx as Hx'. tauto.
Qed.

Lemma addresses_beyond after next n d :
  last (take n (addresses after d)) = Some next → addresses next d = drop n (addresses after d).
Proof.
  intros Hl. destruct (addresses_sorted after d) as [Hs Hn]. rewrite <- (beyond_prefix n _ next) by done.
  destruct (addresses_sorted next d). apply sorted_eq; [done|by apply sorted_keep|done|by apply NoDup_keep|].
  intros x. rewrite elem_of_keep, !elem_of_addresses. split; [|tauto]. intros [Hx Ha]. split_and!; [done| |done].
  apply last_Some_elem_of, subseteq_take, elem_of_addresses in Hl as [Hb _].
  unfold beyond in *. apply negb_true_iff, bool_decide_eq_false_1 in Hb, Hx. apply negb_true_iff, bool_decide_eq_false_2.
  intros Hle. destruct (total String.le next x) as [Hnx|]; [|done]. apply Hb. by etrans.
Qed.

Lemma page_limit_positive limit : (0 < page_limit limit)%nat.
Proof. unfold page_limit, RECONCILE_MAX_PAGE. lia. Qed.

Lemma follow_spec fuel d limit after : (length (addresses (nullish after EmptyString) d) < fuel)%nat →
  follow fuel d limit after =
  Some (length (addresses (nullish after EmptyString) d), mjoin (reconcileNightBalance d <$> addresses (nullish after EmptyString) d)).
Proof.
  revert after. induction fuel as [|fuel IH]; intros after Hf; [lia|].
  cbn [follow]. unfold reconcileNightBalances. cbn [present br_next br_checked br_drifted]. set (n := page_limit limit).
  set (a := nullish after EmptyString) in *. fold (merged_page a n d). rewrite page_first.
  pose proof (page_limit_positive limit) as Hn. fold n in Hn. pose proof (take_drop n (addresses a d)) as Hsplit.
  destruct (_ || _) eqn:Em; [|apply page_last in Em; by rewrite Em, app_nil_r in Hsplit; rewrite Hsplit].
  destruct (last (take n (addresses a d))) as [next|] eqn:El.
  - pose proof (addresses_beyond a next n d El) as Hnext. rewrite IH; cbn [nullish]; rewrite Hnext.
    + cbn. set (l := addresses a d) in *. set (f := reconcileNightBalance d).
      transitivity (Some (length (take n l ++ drop n l), mjoin (f <$> (take n l ++ drop n l)))); [|by rewrite Hsplit].
      by rewrite length_app, fmap_app, join_app.
    + rewrite length_drop. assert (addresses a d ≠ []) as Hne by (intros E; by rewrite E, take_nil in El).
      destruct (addresses a d); [done|]. simpl in *. lia.
  - apply last_None in El. assert (addresses a d = []) as ->; [|by rewrite take_nil].
    apply length_zero_iff_nil. apply (f_equal length) in El. rewrite length_take in El. simpl in El. lia.
Qed.

(** C10. The paged check of an index that does not change meanwhile is the check
    of all its addresses at once, and misses none. Whoever starts without [after],
    with any limit, and passes [next] on until it is null gets, after finitely many
    pages, the drift of every address that has a stored row or owns a NIGHT output
    - each once, in the order of the addresses. *)
Theorem balance_scan_checks_all d limit :
  follow (S (length (addresses EmptyString d))) d limit None =
    Some (length (addresses EmptyString d), mjoin (reconcileNightBalance d <$> addresses EmptyString d)) ∧
  NoDup (addresses EmptyString d) ∧
  ∀ a, a ∈ addresses EmptyString d ↔
    a ≠ EmptyString ∧ (is_Some (ix_nightBalances d !! a) ∨
      ∃ k u, ix_utxos d !! k = Some u ∧ u_owner u = a ∧ u_tokenType u = NIGHT_RAW_TOKEN_TYPE).
Proof.
  split_and!; [apply (follow_spec _ _ _ None); simpl; lia|apply addresses_sorted|]. intros a.
  rewrite elem_of_addresses. f_equiv.
  - unfold beyond. rewrite negb_true_iff, bool_decide_eq_false. split; [by intros H1 ->; apply H1|]. intros Hne Hle. by destruct a.
  - f_equiv.
    + unfold balance_addresses. rewrite list_elem_of_fmap. split; [intros ([k r] & -> & Hk%elem_of_map_to_list); eauto|].
      intros [r Hr]. exists (a, r). by rewrite elem_of_map_to_list.
    + unfold night_owners. rewrite elem_of_remove_dups, list_elem_of_fmap. setoid_rewrite elem_of_keep. setoid_rewrite bool_decide_eq_true.
      setoid_rewrite list_elem_of_fmap. split.
      * intros (u & -> & Ht & [k u'] & -> & Hk%elem_of_map_to_list). eauto 6.
      * intros (k & u & Hk & <- & Ht). exists u. split_and!; [done|done|]. exists (k, u). by rewrite elem_of_map_to_list.
Qed.
End Scan.
