(* ===== verification/Scale.v ===== *)
(** Bytes, and the SCALE encoding of extrinsics (srv/utils/scale.ts, hexToBase64
    of srv/crawler/cap-binary.ts).

    A buffer is the list of its bytes, each between 0 and 255. *)
From Stdlib Require Import Ascii.
From S2P Require Import Prelude Json Numbers.

Set Warnings "-register-all".

Local Open Scope string_scope.

(** ** Hex and base64 *)

Definition hex_val (a : Ascii.ascii) : option Z :=
  if is_digit a then Some (Z.of_nat (nat_of_ascii a) - 48)%Z
  else if char_in "a" "f" a then Some (Z.of_nat (nat_of_ascii a) - 87)%Z
  else if char_in "A" "F" a then Some (Z.of_nat (nat_of_ascii a) - 55)%Z
  else None.

(** [Buffer.from(s, 'hex')]: the bytes before the first pair that is not hex. *)
Fixpoint hex_bytes (s : string) : list Z :=
  match s with
  | String a (String b s') =>
      match hex_val a, hex_val b with
      | Some x, Some y => (16 * x + y)%Z :: hex_bytes s'
      | _, _ => []
      end
  | _ => []
  end.

Definition hex_byte (x : Z) : string :=
  String (hex_digit (Z.to_nat (x / 16))) (String (hex_digit (Z.to_nat (x mod 16))) EmptyString).

(** [bytes.toString('hex')] *)
Fixpoint to_hex (l : list Z) : string :=
  match l with [] => EmptyString | x :: l' => hex_byte x ++ to_hex l' end.

Definition base64_char (x : Z) : string :=
  let n := Z.to_nat x in
  chr (if (n <? 26)%nat then 65 + n
       else if (n <? 52)%nat then 71 + n
       else if (n <? 62)%nat then n - 4
       else if (n =? 62)%nat then 43 else 47)%nat.

(** [bytes.toString('base64')] *)
Fixpoint base64 (l : list Z) : string :=
  match l with
  | a :: b :: c :: l' =>
      base64_char (a / 4) ++ base64_char (a mod 4 * 16 + b / 16) ++
      base64_char (b mod 16 * 4 + c / 64) ++ base64_char (c mod 64) ++ base64 l'
  | [a; b] =>
      base64_char (a / 4) ++ base64_char (a mod 4 * 16 + b / 16) ++ base64_char (b mod 16 * 4) ++ "="
  | [a] => base64_char (a / 4) ++ base64_char (a mod 4 * 16) ++ "=="
  | [] => EmptyString
  end.

Definition base64_val (a : Ascii.ascii) : option Z :=
  let n := Z.of_nat (nat_of_ascii a) in
  if char_in "A" "Z" a then Some (n - 65)%Z
  else if char_in "a" "z" a then Some (n - 71)%Z
  else if is_digit a then Some (n + 4)%Z
  else if bool_decide (a ∈ ["+"; "-"]%char) then Some 62%Z
  else if bool_decide (a ∈ ["/"; "_"]%char) then Some 63%Z
  else None.

(** Six bits per character; others are skipped. *)
Fixpoint base64_digits (s : string) : list Z :=
  match s with
  | EmptyString => []
  | String a s' => match base64_val a with Some x => x :: base64_digits s' | None => base64_digits s' end
  end.

Fixpoint join_digits (l : list Z) : list Z :=
  match l with
  | a :: b :: c :: d :: l' => (a * 4 + b / 16)%Z :: (b mod 16 * 16 + c / 4)%Z :: (c mod 4 * 64 + d)%Z :: join_digits l'
  | [a; b; c] => [a * 4 + b / 16; b mod 16 * 16 + c / 4]%Z
  | [a; b] => [a * 4 + b / 16]%Z
  | _ => []
  end.

(** [Buffer.from(s, 'base64')] *)
Definition from_base64 (s : string) : list Z := join_digits (base64_digits s).

Definition hexToBase64 (value : string) : option string :=
  let clean := bareHex (Some (JStr value)) in
  if is_empty clean || negb (String.length clean mod 2 =? 0)%nat then None
  else Some (base64 (hex_bytes clean)).

(** ** Little-endian integers *)

Fixpoint from_le (l : list Z) : Z :=
  match l with [] => 0 | x :: l' => x + Z.shiftl (from_le l') 8 end%Z.

(** The [n] bytes at an offset, when they are all there. *)
Definition bytes_at (buf : list Z) (offset n : nat) : option (list Z) :=
  if (offset + n <=? length buf)%nat then Some (take n (drop offset buf)) else None.

(** ** Compact integers *)

Definition decodeCompactBigInt (buf : list Z) (offset : nat) : option (Z * nat) :=
  first ← buf !! offset;
  match Z.land first 3 with
  | 0%Z => Some (Z.shiftr first 2, 1)
  | 1%Z => b ← bytes_at buf offset 2; Some (Z.shiftr (from_le b) 2, 2)
  | 2%Z => b ← bytes_at buf offset 4; Some (Z.shiftr (from_le b) 2, 4)
  | _ =>
      let byteLength := Z.to_nat (Z.shiftr first 2) + 4 in
      b ← bytes_at buf (offset + 1) byteLength;
      Some (from_le b, 1 + byteLength)
  end.

Definition decodeCompact (buf : list Z) (offset : nat) : option (Z * nat) :=
  '(value, consumed) ← decodeCompactBigInt buf offset;
  Some (if bool_decide (MAX_SAFE_INTEGER < value)%Z then 0%Z else value, consumed).

(** ** Extrinsics *)

Record ParsedAddress := MkParsedAddress { pa_address : string; pa_nextOffset : nat }.

Definition fixed_address (buf : list Z) (cursor n : nat) : option ParsedAddress :=
  bytes ← bytes_at buf cursor n;
  Some (MkParsedAddress ("0x" ++ to_hex bytes) (cursor + n)).

Definition parseAddress (buf : list Z) (offset : nat) : option ParsedAddress :=
  type ← buf !! offset;
  let cursor := offset + 1 in
  if bool_decide (type ∈ [0; 255; 3])%Z then fixed_address buf cursor 32
  else if bool_decide (type = 4%Z) then fixed_address buf cursor 20
  else if bool_decide (type = 1%Z) then
    '(index, consumed) ← decodeCompactBigInt buf cursor;
    Some (MkParsedAddress ("index:" ++ pretty index) (cursor + consumed))
  else if bool_decide (type = 2%Z) then
    '(len, consumed) ← decodeCompactBigInt buf cursor;
    if bool_decide (MAX_SAFE_INTEGER < len)%Z then None
    else if bool_decide (Z.of_nat (length buf) < Z.of_nat (cursor + consumed) + len)%Z then None
    else fixed_address buf (cursor + consumed) (Z.to_nat len)
  else None.

Record ParsedExtrinsicCore := MkCore {
  pc_buf : list Z; pc_isSigned : bool; pc_palletIndex : Z; pc_callIndex : Z; pc_argsOffset : nat;
  pc_senderAddress : option string }.

(** What a signed extrinsic holds before its call: the signer, the signature, the
    era, nonce and tip. Answers the signer and the offset of the call. *)
Definition parse_signature (buf : list Z) (offset : nat) : option (string * nat) :=
  signer ← parseAddress buf offset;
  let offset := pa_nextOffset signer in
  sigType ← buf !! offset;
  let offset := offset + 1 in
  if negb (bool_decide (sigType ∈ [0; 1; 2]%Z)) then None
  else
    let sigLength := if bool_decide (sigType = 2%Z) then 65 else 64 in
    if (length buf <? offset + sigLength)%nat then None
    else
      let offset := offset + sigLength in
      era ← buf !! offset;
      offset ← (if bool_decide (era = 0%Z) then Some (offset + 1)
                else if (length buf <=? offset + 1)%nat then None else Some (offset + 2));
      nonce ← decodeCompact buf offset;
      let offset := offset + nonce.2 in
      tip ← decodeCompact buf offset;
      Some (pa_address signer, offset + tip.2).

Definition parseExtrinsicCore (hex : string) : option ParsedExtrinsicCore :=
  if (String.length hex <? 8)%nat then None
  else
    let cleanHex := bareHex (Some (JStr hex)) in
    if (String.length cleanHex <? 8)%nat then None
    else
      let buf := hex_bytes cleanHex in
      if (length buf <? 4)%nat then None
      else
        lenResult ← decodeCompact buf 0;
        let offset := lenResult.2 in
        version ← buf !! offset;
        let offset := offset + 1 in
        let isSigned := negb (bool_decide (Z.land version 128 = 0%Z)) in
        '(sender, offset) ← (if isSigned then '(a, o) ← parse_signature buf offset; Some (Some a, o)
                             else Some (None, offset));
        pallet ← buf !! offset;
        call ← buf !! (offset + 1);
        Some (MkCore buf isSigned pallet call (offset + 2) sender).

Record ExtrinsicCall := MkExtrinsicCall {
  ec_buf : list Z; ec_palletIndex : Z; ec_callIndex : Z; ec_argsOffset : nat }.

Definition parseExtrinsicCall (hex : string) : option ExtrinsicCall :=
  core ← parseExtrinsicCore hex;
  Some (MkExtrinsicCall (pc_buf core) (pc_palletIndex core) (pc_callIndex core) (pc_argsOffset core)).

Definition parseExtrinsicCallIndices (hex : string) : option (Z * Z) :=
  core ← parseExtrinsicCore hex; Some (pc_palletIndex core, pc_callIndex core).
