(* ===== verification/ScaleFacts.v ===== *)
(** The parser of srv/utils/scale.ts finds the call of every extrinsic that is
    encoded as the SCALE format says. *)
From Stdlib Require Import Ascii.
From S2P Require Import Prelude Json Numbers Scale.

Set Warnings "-register-all".

Local Open Scope string_scope.
Local Open Scope list_scope.

(** ** Hex text *)

Definition is_byte (x : Z) : Prop := (0 ≤ x < 256)%Z.

(** A statement on every byte is checked on each. *)
Lemma for_bytes (p : Z → bool) : forallb p (Z.of_nat <$> seq 0 256) = true → ∀ x, is_byte x → p x = true.
Proof.
  intros Hp x Hx. apply (proj1 (forallb_forall _ _) Hp), list_elem_of_In, list_elem_of_fmap.
  exists (Z.to_nat x). unfold is_byte in Hx. split; [lia|]. apply elem_of_seq. lia.
Qed.

(** Instantiates a check of every byte at one. *)
Ltac by_bytes p x H :=
  let Hall := fresh in
  assert (forallb p (Z.of_nat <$> seq 0 256) = true) as Hall by (vm_compute; reflexivity);
  pose proof (for_bytes p Hall x) as H; cbv beta in H; clear Hall.

Lemma hex_byte_reads x s : is_byte x → hex_bytes (hex_byte x ++ s)%string = x :: hex_bytes s.
Proof.
  intros Hx. unfold hex_byte.
  change (hex_bytes (String (hex_digit (Z.to_nat (x / 16))) (String (hex_digit (Z.to_nat (x mod 16))) s)) = x :: hex_bytes s).
  cbn [hex_bytes].
  by_bytes (λ x, bool_decide (hex_val (hex_digit (Z.to_nat (x / 16))) = Some (x / 16)%Z ∧
                              hex_val (hex_digit (Z.to_nat (x mod 16))) = Some (x mod 16)%Z)) x Hb.
  specialize (Hb Hx). apply bool_decide_eq_true_1 in Hb as [-> ->]. f_equal. pose proof (Z.div_mod x 16). lia.
Qed.

Lemma hex_roundtrip l : Forall is_byte l → hex_bytes (to_hex l) = l.
Proof.
  induction 1 as [|x l Hx Hl IH]; [done|]. change (to_hex (x :: l)) with (hex_byte x ++ to_hex l)%string.
  by rewrite hex_byte_reads, IH.
Qed.

Lemma to_hex_length l : String.length (to_hex l) = 2 * length l.
Proof.
  induction l as [|x l IH]; [done|]. change (String.length (to_hex (x :: l))) with (S (S (String.length (to_hex l)))).
  rewrite IH. simpl. lia.
Qed.

Lemma char_nat a : nat_of_ascii a < 256.
Proof. apply nat_ascii_bounded. Qed.

(** Hex digits are not white space, and lower case. *)
Lemma hex_lower_char a : is_hex_lower a = true → is_space a = false ∧ ascii_lower a = a.
Proof.
  assert (forallb (λ n, implb (is_hex_lower (ascii_of_nat n))
    (negb (is_space (ascii_of_nat n)) && Ascii.eqb (ascii_lower (ascii_of_nat n)) (ascii_of_nat n))) (seq 0 256) = true) as Hall
    by (vm_compute; reflexivity).
  intros Ha. apply (proj1 (forallb_forall _ _)) with (x := nat_of_ascii a) in Hall.
  - rewrite ascii_nat_embedding, Ha in Hall. simpl in Hall. apply andb_prop in Hall as [H1 H2].
    apply negb_true_iff in H1. apply Ascii.eqb_eq in H2. done.
  - apply in_seq. pose proof (char_nat a). lia.
Qed.

Definition no_space (a : Ascii.ascii) : bool := negb (is_space a).

Lemma trim_id s : all_chars no_space s = true → trim s = s.
Proof.
  assert (∀ s, all_chars no_space s = true → trim_end s = s) as Hend.
  { clear s. induction s as [|a s IH]; [done|]. intros [Ha Hs]%andb_prop. apply negb_true_iff in Ha.
    change ((if is_space a && all_spaces s then EmptyString else String a (trim_end s)) = String a s).
    by rewrite Ha, IH. }
  intros Hs. unfold trim. destruct s as [|a s]; [done|]. pose proof Hs as [Ha _]%andb_prop. apply negb_true_iff in Ha.
  change (trim_start (String a s)) with (if is_space a then trim_start s else String a s). rewrite Ha. by apply Hend.
Qed.

Lemma hex_text_clean s : all_chars is_hex_lower s = true → all_chars no_space s = true ∧ lower s = s.
Proof.
  induction s as [|a s IH]; [done|]. intros [Ha Hs]%andb_prop. destruct (hex_lower_char a Ha) as [Hsp Hlo].
  destruct (IH Hs) as (IH1 & IH2). split.
  - change (no_space a && all_chars no_space s = true). by rewrite IH1; unfold no_space; rewrite Hsp.
  - change (String (ascii_lower a) (lower s) = String a s). by rewrite Hlo, IH2.
Qed.

(** ** Base64 reads back *)

Lemma base64_char_reads x s : (0 ≤ x < 64)%Z → base64_digits (base64_char x ++ s)%string = x :: base64_digits s.
Proof.
  intros Hx.
  assert (forallb (λ x, match base64_char x with
                        | String a EmptyString => bool_decide (base64_val a = Some x)
                        | _ => false
                        end) (Z.of_nat <$> seq 0 64) = true) as Hall by (vm_compute; reflexivity).
  apply (proj1 (forallb_forall _ _)) with (x := x) in Hall.
  - destruct (base64_char x) as [|a [|? ?]]; [done| |done]. apply bool_decide_eq_true_1 in Hall.
    change (base64_digits (String a s) = x :: base64_digits s). cbn [base64_digits]. by rewrite Hall.
  - apply list_elem_of_In, list_elem_of_fmap. exists (Z.to_nat x). split; [lia|]. apply elem_of_seq. lia.
Qed.

Lemma app_assoc_s (a b c : string) : ((a ++ b) ++ c = a ++ (b ++ c))%string.
Proof. induction a as [|x a IH]; [done|]. change (String x ((a ++ b) ++ c)%string = String x (a ++ (b ++ c))%string). by rewrite IH. Qed.

Lemma base64_reads l : Forall is_byte l → from_base64 (base64 l) = l.
Proof.
  unfold from_base64, is_byte. remember (length l) as n eqn:En. revert l En.
  induction (lt_wf n) as [n _ IH]. intros l -> Hl. destruct l as [|a [|b [|c l]]]; [done|..].
  - apply Forall_cons in Hl as [Ha _]. cbn [base64]. rewrite !base64_char_reads by (Z.to_euclidean_division_equations; lia).
    cbn. f_equal. Z.to_euclidean_division_equations; lia.
  - apply Forall_cons in Hl as [Ha [Hb _]%Forall_cons]. cbn [base64]. rewrite !base64_char_reads by (Z.to_euclidean_division_equations; lia).
    cbn. repeat f_equal; Z.to_euclidean_division_equations; lia.
  - apply Forall_cons in Hl as [Ha [Hb [Hc Hl]%Forall_cons]%Forall_cons]. cbn [base64].
    rewrite !base64_char_reads by (Z.to_euclidean_division_equations; lia). cbn [join_digits].
    rewrite (IH (length l)) by (done || simpl; lia). repeat f_equal; Z.to_euclidean_division_equations; lia.
Qed.

Lemma to_hex_lower l : Forall is_byte l → all_chars is_hex_lower (to_hex l) = true.
Proof.
  induction 1 as [|x l Hx Hl IH]; [done|].
  change (is_hex_lower (hex_digit (Z.to_nat (x / 16))) && (is_hex_lower (hex_digit (Z.to_nat (x mod 16))) && all_chars is_hex_lower (to_hex l)) = true).
  by_bytes (λ x, is_hex_lower (hex_digit (Z.to_nat (x / 16))) && is_hex_lower (hex_digit (Z.to_nat (x mod 16)))) x Hb.
  specialize (Hb Hx). apply andb_prop in Hb as [-> ->]. exact IH.
Qed.

(** A hex text the node hands over loses its prefix and nothing else. *)
Lemma bareHex_prefixed l : Forall is_byte l → bareHex (Some (JStr ("0x" ++ to_hex l)%string)) = to_hex l.
Proof.
  intros Hl. destruct (hex_text_clean _ (to_hex_lower _ Hl)) as (H1 & H2). unfold bareHex.
  change (string_or_empty (Some (JStr ("0x" ++ to_hex l)%string))) with (String "0" (String "x" (to_hex l))).
  rewrite trim_id by exact H1. exact H2.
Qed.

(** ** Compact integers *)

Definition le (n : nat) (v : Z) : list Z := (λ i, (v / 256 ^ Z.of_nat i) mod 256)%Z <$> seq 0 n.

(** How many bytes an integer takes. *)
Definition byte_size (v : Z) : nat := Z.to_nat (Z.log2 v / 8 + 1).

(** The SCALE encoding of a compact integer below 2^536. *)
Definition encodeCompact (v : Z) : list Z :=
  (if bool_decide (v < 64) then [4 * v]
   else if bool_decide (v < 2 ^ 14) then le 2 (4 * v + 1)
   else if bool_decide (v < 2 ^ 30) then le 4 (4 * v + 2)
   else let n := Nat.max 4 (byte_size v) in (4 * Z.of_nat (n - 4) + 3) :: le n v)%Z.

Lemma le_S n v : le (S n) v = (v mod 256)%Z :: le n (v / 256).
Proof.
  unfold le. cbn [seq fmap list_fmap]. f_equal; [by rewrite Z.pow_0_r, Z.div_1_r|].
  rewrite <- fmap_S_seq, <- list_fmap_compose. apply list_fmap_ext. intros i x _. simpl.
  rewrite Z.div_div by lia. f_equal. f_equal. rewrite <- Z.pow_succ_r by lia. f_equal. lia.
Qed.

Lemma le_length n v : length (le n v) = n.
Proof. unfold le. by rewrite length_fmap, length_seq. Qed.

Lemma from_le_le n v : (0 ≤ v < 256 ^ Z.of_nat n)%Z → from_le (le n v) = v.
Proof.
  revert v. induction n as [|n IH]; intros v Hv; [simpl in *; lia|].
  rewrite le_S. cbn [from_le]. rewrite IH.
  - rewrite Z.shiftl_mul_pow2 by lia. change (2 ^ 8)%Z with 256%Z. pose proof (Z.div_mod v 256). lia.
  - rewrite Nat2Z.inj_succ, Z.pow_succ_r in Hv by lia. split; [apply Z.div_pos; lia|]. apply Z.div_lt_upper_bound; lia.
Qed.

Lemma le_bytes n v : Forall is_byte (le n v).
Proof. apply Forall_fmap, Forall_true. intros i. unfold is_byte. simpl. apply Z.mod_pos_bound. lia. Qed.

Lemma bytes_at_middle (pre l post : list Z) : bytes_at (pre ++ l ++ post) (length pre) (length l) = Some l.
Proof.
  unfold bytes_at. rewrite !length_app. replace (length pre + length l <=? _)%nat with true by (symmetry; apply Nat.leb_le; lia).
  by rewrite drop_app_length, take_app_length.
Qed.

Lemma byte_size_bound v : (0 < v)%Z → (v < 256 ^ Z.of_nat (byte_size v))%Z.
Proof.
  intros Hv. unfold byte_size. pose proof (Z.log2_nonneg v). assert (0 ≤ Z.log2 v / 8)%Z by (apply Z.div_pos; lia).
  rewrite Z2Nat.id by lia. change 256%Z with (2 ^ 8)%Z. rewrite <- Z.pow_mul_r by lia.
  pose proof (Z.log2_spec v Hv) as [_ Hu]. eapply Z.lt_le_trans; [exact Hu|]. apply Z.pow_le_mono_r; [lia|].
  pose proof (Z.div_mod (Z.log2 v) 8). pose proof (Z.mod_pos_bound (Z.log2 v) 8). lia.
Qed.

Lemma byte_size_max v : (0 ≤ v < 2 ^ 536)%Z → (byte_size v ≤ 67)%nat.
Proof.
  intros Hv. unfold byte_size. assert (Z.log2 v < 536)%Z.
  { destruct (decide (v = 0)%Z) as [->|]; [done|]. apply Z.log2_lt_pow2; lia. }
  assert (Z.log2 v / 8 < 67)%Z by (apply Z.div_lt_upper_bound; lia). pose proof (Z.log2_nonneg v).
  assert (0 ≤ Z.log2 v / 8)%Z by (apply Z.div_pos; lia). lia.
Qed.

Lemma low_bits v k : (0 ≤ k < 4)%Z → Z.land (4 * v + k) 3 = k ∧ Z.shiftr (4 * v + k) 2 = v.
Proof.
  intros Hk. change 3%Z with (Z.ones 2). rewrite Z.land_ones, Z.shiftr_div_pow2 by lia. change (2 ^ 2)%Z with 4%Z.
  rewrite (Z.mul_comm 4), Z.add_comm. split; [rewrite Z.mod_add by lia; by apply Z.mod_small|].
  rewrite Z.div_add by lia. rewrite Z.div_small by lia. lia.
Qed.

Lemma land_byte x : Z.land (x mod 256) 3 = Z.land x 3.
Proof.
  change 3%Z with (Z.ones 2). rewrite !Z.land_ones by lia. change 256%Z with (2 ^ 2 * 64)%Z.
  rewrite Z.rem_mul_r by lia. rewrite Z.mul_comm, Z.mod_add by lia. by rewrite Z.mod_mod.
Qed.

Lemma lookup_middle (pre : list Z) x l post : (pre ++ (x :: l) ++ post) !! length pre = Some x.
Proof. rewrite lookup_app_r by lia. by rewrite Nat.sub_diag. Qed.

Lemma le_first n v (pre post : list Z) : (pre ++ le (S n) v ++ post) !! length pre = Some (v mod 256)%Z.
Proof. rewrite le_S. apply lookup_middle. Qed.

Lemma bytes_at_le n v pre post : bytes_at (pre ++ le n v ++ post) (length pre) n = Some (le n v).
Proof. pose proof (bytes_at_middle pre (le n v) post) as Hm. by rewrite le_length in Hm. Qed.

(** The modes of the encoding, each decoded. *)
Lemma decode_single pre v post : (0 ≤ v < 64)%Z →
  decodeCompactBigInt (pre ++ [4 * v]%Z ++ post) (length pre) = Some (v, 1).
Proof.
  intros Hv. unfold decodeCompactBigInt. rewrite lookup_middle. cbn [mbind option_bind].
  destruct (low_bits v 0) as [H1 H2]; [lia|]. rewrite Z.add_0_r in H1, H2. by rewrite H1, H2.
Qed.

Lemma decode_two pre v post : (0 ≤ v < 2 ^ 14)%Z →
  decodeCompactBigInt (pre ++ le 2 (4 * v + 1) ++ post) (length pre) = Some (v, 2).
Proof.
  intros Hv. unfold decodeCompactBigInt. rewrite le_first. cbn [mbind option_bind].
  destruct (low_bits v 1) as [H1 H2]; [lia|]. rewrite land_byte, H1, bytes_at_le. cbn [mbind option_bind].
  rewrite from_le_le by (simpl; lia). by rewrite H2.
Qed.

Lemma decode_four pre v post : (0 ≤ v < 2 ^ 30)%Z →
  decodeCompactBigInt (pre ++ le 4 (4 * v + 2) ++ post) (length pre) = Some (v, 4).
Proof.
  intros Hv. unfold decodeCompactBigInt. rewrite le_first. cbn [mbind option_bind].
  destruct (low_bits v 2) as [H1 H2]; [lia|]. rewrite land_byte, H1, bytes_at_le. cbn [mbind option_bind].
  rewrite from_le_le by (simpl; lia). by rewrite H2.
Qed.

Lemma decode_big pre n v post : (4 ≤ n < 68)%nat → (0 ≤ v < 256 ^ Z.of_nat n)%Z →
  decodeCompactBigInt (pre ++ ((4 * Z.of_nat (n - 4) + 3)%Z :: le n v) ++ post) (length pre) = Some (v, S n).
Proof.
  intros Hn Hv. unfold decodeCompactBigInt. rewrite lookup_middle. cbn [mbind option_bind].
  destruct (low_bits (Z.of_nat (n - 4)) 3) as [H1 H2]; [lia|]. rewrite H1, H2, Nat2Z.id.
  replace (n - 4 + 4)%nat with n by lia.
  replace (pre ++ ((4 * Z.of_nat (n - 4) + 3)%Z :: le n v) ++ post)
    with ((pre ++ [(4 * Z.of_nat (n - 4) + 3)%Z]) ++ le n v ++ post) by (by rewrite <- app_assoc).
  replace (length pre + 1)%nat with (length (pre ++ [(4 * Z.of_nat (n - 4) + 3)%Z])) by (rewrite length_app; simpl; lia).
  rewrite bytes_at_le. cbn [mbind option_bind]. by rewrite from_le_le by lia.
Qed.

(** Decoding reads back what the format encodes, wherever it stands. *)
Lemma compact_roundtrip pre v post : (0 ≤ v < 2 ^ 536)%Z →
  decodeCompactBigInt (pre ++ encodeCompact v ++ post) (length pre) = Some (v, length (encodeCompact v)).
Proof.
  intros Hv. unfold encodeCompact. case_bool_decide; [apply (decode_single pre v post); lia|].
  case_bool_decide; [rewrite le_length; apply decode_two; lia|].
  case_bool_decide; [rewrite le_length; apply decode_four; lia|].
  pose proof (byte_size_max v Hv). cbn [length]. rewrite le_length. apply decode_big; [lia|].
  split; [lia|]. eapply Z.lt_le_trans; [apply byte_size_bound; lia|]. apply Z.pow_le_mono_r; lia.
Qed.

Lemma compact_consumed pre v post : (0 ≤ v < 2 ^ 536)%Z →
  ∃ x, decodeCompact (pre ++ encodeCompact v ++ post) (length pre) = Some (x, length (encodeCompact v)).
Proof. intros Hv. unfold decodeCompact. rewrite compact_roundtrip by done. by eexists. Qed.

Lemma encodeCompact_bytes v : (0 ≤ v < 2 ^ 536)%Z → Forall is_byte (encodeCompact v).
Proof.
  intros Hv. unfold encodeCompact. repeat case_bool_decide; try apply le_bytes.
  - constructor; [unfold is_byte; lia|apply Forall_nil_2].
  - pose proof (byte_size_max v Hv). constructor; [unfold is_byte; lia|apply le_bytes].
Qed.

(** ** Extrinsics *)

(** A signer as a MultiAddress. *)
Inductive Signer :=
| ById (kind : Z) (account : list Z) | ByIndex (index : Z) | ByRaw (bytes : list Z) | By20 (account : list Z).

Definition encodeSigner (s : Signer) : list Z :=
  match s with
  | ById kind account => kind :: account
  | ByIndex i => 1%Z :: encodeCompact i
  | ByRaw bytes => 2%Z :: encodeCompact (Z.of_nat (length bytes)) ++ bytes
  | By20 account => 4%Z :: account
  end.

Definition signer_ok (s : Signer) : Prop :=
  match s with
  | ById kind account => kind ∈ [0; 255; 3]%Z ∧ length account = 32 ∧ Forall is_byte account
  | ByIndex i => (0 ≤ i < 2 ^ 536)%Z
  | ByRaw bytes => (Z.of_nat (length bytes) ≤ MAX_SAFE_INTEGER)%Z ∧ Forall is_byte bytes
  | By20 account => length account = 20 ∧ Forall is_byte account
  end.

(** The name the parser gives a signer. *)
Definition signer_text (s : Signer) : string :=
  match s with
  | ByIndex i => ("index:" ++ pretty i)%string
  | ById _ l | ByRaw l | By20 l => ("0x" ++ to_hex l)%string
  end.

Lemma fixed_address_middle pre l post n : length l = n →
  fixed_address (pre ++ l ++ post) (length pre) n = Some (MkParsedAddress ("0x" ++ to_hex l)%string (length pre + n)).
Proof. intros <-. unfold fixed_address. by rewrite bytes_at_middle. Qed.

Lemma app_one {A} (pre : list A) x l post : pre ++ (x :: l) ++ post = (pre ++ [x]) ++ l ++ post.
Proof. by rewrite <- app_assoc. Qed.

Lemma length_snoc {A} (pre : list A) x : length (pre ++ [x]) = length pre + 1.
Proof. by rewrite length_app. Qed.

Ltac not_listed x :=
  rewrite (bool_decide_eq_false_2 (x ∈ _)) by (rewrite !not_elem_of_cons; split_and!; [lia|lia|lia|apply not_elem_of_nil]).

Lemma parse_signer pre s post : signer_ok s →
  parseAddress (pre ++ encodeSigner s ++ post) (length pre) =
  Some (MkParsedAddress (signer_text s) (length pre + length (encodeSigner s))).
Proof.
  intros Hs. destruct s as [kind l|i|l|l]; simpl in Hs; unfold parseAddress; cbn [encodeSigner]; rewrite lookup_middle; cbn [mbind option_bind].
  - destruct Hs as (Hk & Hl & _). rewrite bool_decide_eq_true_2 by done. rewrite app_one, <- (length_snoc pre kind).
    rewrite fixed_address_middle by done. rewrite length_snoc. cbn [length]. rewrite Hl. do 2 f_equal; lia.
  - not_listed 1%Z.
    rewrite app_one, <- (length_snoc pre 1%Z), compact_roundtrip by done.
    cbn -[Nat.add length Z.of_nat app]. rewrite length_snoc. cbn [length]. do 2 f_equal; lia.
  - destruct Hs as [Hmax _]. not_listed 2%Z.
    set (c := encodeCompact (Z.of_nat (length l))).
    replace (pre ++ (2%Z :: c ++ l) ++ post) with ((pre ++ [2%Z]) ++ c ++ (l ++ post))
      by (rewrite <- !app_assoc; simpl; by rewrite <- !app_assoc).
    rewrite <- (length_snoc pre 2%Z). unfold c. rewrite compact_roundtrip by (unfold MAX_SAFE_INTEGER in Hmax; lia).
    fold c. cbn -[Nat.add length Z.of_nat app parseAddress fixed_address MAX_SAFE_INTEGER Z.add Z.lt].
    rewrite (bool_decide_eq_false_2 (MAX_SAFE_INTEGER < _)%Z) by lia.
    rewrite (bool_decide_eq_false_2 (2 = 4)%Z), (bool_decide_eq_false_2 (2 = 1)%Z), (bool_decide_eq_true_2 (2 = 2)%Z) by lia.
    rewrite bool_decide_eq_false_2 by (rewrite !length_app; simpl; lia). rewrite Nat2Z.id.
    replace ((pre ++ [2%Z]) ++ c ++ l ++ post) with (((pre ++ [2%Z]) ++ c) ++ l ++ post) by (by rewrite <- !app_assoc).
    rewrite <- (length_app (pre ++ [2%Z]) c), fixed_address_middle by lia.
    rewrite !length_app. cbn [length]. rewrite length_app. do 2 f_equal; lia.
  - destruct Hs as [Hl _]. not_listed 4%Z.
    rewrite app_one, <- (length_snoc pre 4%Z). cbn -[fixed_address app length Nat.add].
    rewrite fixed_address_middle by done. rewrite length_snoc. cbn [length]. rewrite Hl. do 2 f_equal; lia.
Qed.

(** What stands before the call of a signed extrinsic. *)
Record Signed := MkSigned {
  sg_signer : Signer; sg_sigType : Z; sg_signature : list Z; sg_era : list Z; sg_nonce : Z; sg_tip : Z }.

Definition encodeSigned (s : Signed) : list Z :=
  encodeSigner (sg_signer s) ++ (sg_sigType s :: sg_signature s) ++ sg_era s ++
  encodeCompact (sg_nonce s) ++ encodeCompact (sg_tip s).

(** An era is one zero byte, or two bytes of which the first is not zero. *)
Definition era_ok (era : list Z) : Prop :=
  era = [0%Z] ∨ ∃ a b, era = [a; b] ∧ (0 < a < 256)%Z ∧ is_byte b.

Record signed_ok (s : Signed) : Prop := {
  so_signer : signer_ok (sg_signer s);
  so_type : sg_sigType s ∈ [0; 1; 2]%Z;
  so_signature : length (sg_signature s) = (if bool_decide (sg_sigType s = 2%Z) then 65 else 64);
  so_bytes : Forall is_byte (sg_signature s);
  so_era : era_ok (sg_era s);
  so_nonce : (0 ≤ sg_nonce s < 2 ^ 536)%Z;
  so_tip : (0 ≤ sg_tip s < 2 ^ 536)%Z }.

Lemma lookup_at {A} (pre : list A) x post n : n = length pre → (pre ++ x :: post) !! n = Some x.
Proof. intros ->. rewrite lookup_app_r by lia. by rewrite Nat.sub_diag. Qed.

Lemma compact_at pre v post n : n = length pre → (0 ≤ v < 2 ^ 536)%Z →
  ∃ x, decodeCompact (pre ++ encodeCompact v ++ post) n = Some (x, length (encodeCompact v)).
Proof. intros -> Hv. by apply compact_consumed. Qed.

(** The era, the nonce and the tip. *)
Lemma parse_era pre era post n : n = length pre → era_ok era →
  ∃ b, (pre ++ era ++ post) !! n = Some b ∧
    (if bool_decide (b = 0%Z) then Some (n + 1)
     else if (length (pre ++ era ++ post) <=? n + 1)%nat then None else Some (n + 2)) = Some (n + length era).
Proof.
  intros -> [->|(a & b & -> & Ha & _)].
  - exists 0%Z. cbn [app]. by rewrite lookup_at.
  - exists a. cbn [app]. rewrite lookup_at by done. split; [done|]. rewrite bool_decide_eq_false_2 by lia.
    rewrite (proj2 (Nat.leb_gt _ _)); [done|]. rewrite length_app. simpl. lia.
Qed.

Lemma parse_signed_part pre s post : signed_ok s →
  parse_signature (pre ++ encodeSigned s ++ post) (length pre) =
  Some (signer_text (sg_signer s), length pre + length (encodeSigned s)).
Proof.
  intros [Hsi Hty Hlen _ Hera Hno Hti]. unfold parse_signature, encodeSigned.
  destruct s as [signer ty sig era nonce tip]. simpl in *.
  set (es := encodeSigner signer). set (en := encodeCompact nonce). set (et := encodeCompact tip).
  assert (pre ++ (es ++ ty :: sig ++ era ++ en ++ et) ++ post = pre ++ es ++ (ty :: sig ++ era ++ en ++ et ++ post)) as ->
    by (rewrite <- !app_assoc; simpl; by rewrite <- !app_assoc).
  pose proof (parse_signer pre signer (ty :: sig ++ era ++ en ++ et ++ post) Hsi) as Hp. fold es in Hp. rewrite Hp. clear Hp.
  cbn [mbind option_bind pa_nextOffset pa_address].
  rewrite (app_assoc pre es), lookup_at by (by rewrite length_app). cbn [mbind option_bind].
  rewrite bool_decide_eq_true_2 by done. cbn [negb]. rewrite <- Hlen.
  rewrite (proj2 (Nat.ltb_ge _ _)) by (rewrite !length_app; simpl; rewrite !length_app; lia).
  set (p2 := (pre ++ es) ++ ty :: sig).
  assert ((pre ++ es) ++ ty :: sig ++ era ++ en ++ et ++ post = p2 ++ era ++ en ++ et ++ post) as ->
    by (unfold p2; by rewrite <- !app_assoc).
  assert (length pre + length es + 1 + length sig = length p2) as -> by (unfold p2; rewrite !length_app; simpl; lia).
  destruct (parse_era p2 era (en ++ et ++ post) _ eq_refl Hera) as (b & Hb & Ho). rewrite Hb. cbn [mbind option_bind].
  rewrite Ho. cbn [mbind option_bind]. rewrite (app_assoc p2 era).
  destruct (compact_at (p2 ++ era) nonce (et ++ post) (length p2 + length era)) as [x Hx]; [by rewrite length_app|done|].
  fold en in Hx. rewrite Hx. cbn [mbind option_bind snd]. rewrite (app_assoc (p2 ++ era) en).
  destruct (compact_at ((p2 ++ era) ++ en) tip post (length p2 + length era + length en)) as [y Hy]; [by rewrite !length_app|done|].
  fold et in Hy. rewrite Hy. cbn [mbind option_bind snd]. do 2 f_equal.
  unfold p2. rewrite !length_app. simpl. rewrite !length_app. lia.
Qed.

(** An extrinsic: its format version, what signs it, the call and its arguments. *)
Record Extrinsic := MkExtrinsic {
  xt_version : Z; xt_signed : option Signed; xt_pallet : Z; xt_call : Z; xt_args : list Z }.

Definition body (x : Extrinsic) : list Z :=
  match xt_signed x with
  | Some s => (128 + xt_version x)%Z :: encodeSigned s
  | None => [xt_version x]
  end ++ xt_pallet x :: xt_call x :: xt_args x.

Definition encodeExtrinsic (x : Extrinsic) : list Z := encodeCompact (Z.of_nat (length (body x))) ++ body x.

Record extrinsic_ok (x : Extrinsic) : Prop := {
  xo_version : (0 ≤ xt_version x < 128)%Z;
  xo_signed : ∀ s, xt_signed x = Some s → signed_ok s;
  xo_pallet : is_byte (xt_pallet x);
  xo_call : is_byte (xt_call x);
  xo_args : Forall is_byte (xt_args x);
  xo_length : (Z.of_nat (length (body x)) < 2 ^ 536)%Z }.

Lemma signer_bytes s : signer_ok s → Forall is_byte (encodeSigner s).
Proof.
  destruct s as [kind l|i|l|l]; simpl; intros Hs.
  - destruct Hs as (Hk & _ & Hl). constructor; [|done]. unfold is_byte.
    repeat (apply elem_of_cons in Hk as [->|Hk]; [lia|]). by apply not_elem_of_nil in Hk.
  - constructor; [done|]. by apply encodeCompact_bytes.
  - destruct Hs as [Hm Hl]. constructor; [done|]. apply Forall_app. split; [|done].
    apply encodeCompact_bytes. unfold MAX_SAFE_INTEGER in Hm. lia.
  - destruct Hs as [_ Hl]. by constructor.
Qed.

Lemma signed_bytes s : signed_ok s → Forall is_byte (encodeSigned s).
Proof.
  intros [Hsi Hty _ Hby Hera Hno Hti]. unfold encodeSigned. repeat (apply Forall_app; split).
  - by apply signer_bytes.
  - constructor; [|done]. unfold is_byte. repeat (apply elem_of_cons in Hty as [->|Hty]; [lia|]). by apply not_elem_of_nil in Hty.
  - destruct Hera as [->|(a & b & -> & Ha & Hb)]; [by repeat constructor|].
    repeat constructor; unfold is_byte in *; lia.
  - by apply encodeCompact_bytes.
  - by apply encodeCompact_bytes.
Qed.

Lemma encodeCompact_nonempty v : (1 ≤ length (encodeCompact v))%nat.
Proof. unfold encodeCompact. repeat case_bool_decide; simpl; rewrite ?le_length; lia. Qed.

Lemma encoded_bytes x : extrinsic_ok x → Forall is_byte (encodeExtrinsic x).
Proof.
  intros [Hv Hs Hp Hc Ha Hl]. unfold encodeExtrinsic. apply Forall_app. split; [apply encodeCompact_bytes; lia|].
  unfold body. apply Forall_app. split; [|constructor; [done|by constructor]].
  destruct (xt_signed x) as [s|]; constructor; try done; unfold is_byte; try lia. by apply signed_bytes, Hs.
Qed.

Lemma sign_bit v : (0 ≤ v < 128)%Z → Z.land v 128 = 0%Z ∧ Z.land (128 + v) 128 ≠ 0%Z.
Proof.
  intros Hv. assert (forallb (λ n, bool_decide (Z.land n 128 = 0%Z) && negb (bool_decide (Z.land (128 + n) 128 = 0%Z)))
    (Z.of_nat <$> seq 0 128) = true) as Hall by (vm_compute; reflexivity).
  apply (proj1 (forallb_forall _ _)) with (x := v) in Hall.
  - apply andb_prop in Hall as [H1%bool_decide_eq_true_1 H2%negb_true_iff]. apply bool_decide_eq_false_1 in H2. done.
  - apply list_elem_of_In, list_elem_of_fmap. exists (Z.to_nat v). split; [lia|]. apply elem_of_seq. lia.
Qed.

(** C22. The parser finds the call of every extrinsic encoded as the SCALE format
    says, signed or not, with every kind of signer: it answers the pallet and
    call index of the encoded call, the signer it names, and the offset at which
    exactly the call's arguments start. *)
Theorem extrinsic_parses_back x : extrinsic_ok x →
  ∃ argsOffset,
    parseExtrinsicCore ("0x" ++ to_hex (encodeExtrinsic x))%string =
      Some (MkCore (encodeExtrinsic x) (bool_decide (is_Some (xt_signed x))) (xt_pallet x) (xt_call x) argsOffset
              ((λ s, signer_text (sg_signer s)) <$> xt_signed x)) ∧
    drop argsOffset (encodeExtrinsic x) = xt_args x.
Proof.
  intros Hok. pose proof (encoded_bytes x Hok) as Hby. destruct Hok as [Hv Hs Hp Hc Ha Hl].
  set (len := encodeCompact (Z.of_nat (length (body x)))).
  set (call := xt_pallet x :: xt_call x :: xt_args x).
  pose proof (encodeCompact_nonempty (Z.of_nat (length (body x)))) as Hne. fold len in Hne.
  assert (4 ≤ length (encodeExtrinsic x))%nat as H4.
  { unfold encodeExtrinsic. fold len. unfold body. rewrite !length_app. simpl. destruct (xt_signed x); simpl; lia. }
  unfold parseExtrinsicCore. rewrite bareHex_prefixed, hex_roundtrip by done.
  change (String.length ("0x" ++ to_hex (encodeExtrinsic x))) with (S (S (String.length (to_hex (encodeExtrinsic x))))).
  rewrite to_hex_length. rewrite !(proj2 (Nat.ltb_ge _ _)) by lia.
  destruct (compact_at [] (Z.of_nat (length (body x))) (body x) 0 eq_refl) as [n Hn]; [lia|].
  cbn [app] in Hn. fold (encodeExtrinsic x) in Hn. rewrite Hn. fold len. cbn [mbind option_bind snd].
  assert (∃ ver sgn, encodeExtrinsic x = len ++ ver :: sgn ++ call ∧
    negb (bool_decide (Z.land ver 128 = 0%Z)) = bool_decide (is_Some (xt_signed x)) ∧
    (if bool_decide (is_Some (xt_signed x))
     then '(a, o) ← parse_signature (encodeExtrinsic x) (length len + 1); Some (Some a, o)
     else Some (None, length len + 1)) = Some ((λ s, signer_text (sg_signer s)) <$> xt_signed x, length len + 1 + length sgn))
    as (ver & sgn & Heq & Hbit & Hsig).
  { destruct (sign_bit _ Hv) as [Hb0 Hb1]. unfold encodeExtrinsic. fold len. unfold body. destruct (xt_signed x) as [s|] eqn:Ex.
    - exists (128 + xt_version x)%Z, (encodeSigned s). split; [done|]. split; [by rewrite bool_decide_eq_false_2|].
      rewrite bool_decide_eq_true_2 by done.
      pose proof (parse_signed_part (len ++ [(128 + xt_version x)%Z]) s call (Hs s eq_refl)) as Hpp. rewrite length_snoc in Hpp.
      rewrite <- app_assoc in Hpp. cbn [app] in *. fold call. rewrite Hpp. done.
    - exists (xt_version x), []. split; [done|]. split; [by rewrite bool_decide_eq_true_2|].
      rewrite bool_decide_eq_false_2 by (intros [? ?]; done). do 2 f_equal. simpl. lia. }
  assert (encodeExtrinsic x !! length len = Some ver) as -> by (rewrite Heq; by apply lookup_at).
  cbn [mbind option_bind]. rewrite Hbit, Hsig. cbn [mbind option_bind].
  assert (∀ k, encodeExtrinsic x !! (length len + 1 + length sgn + k) = call !! k) as Hcall.
  { intros k. rewrite Heq. change (ver :: sgn ++ call) with ([ver] ++ sgn ++ call).
    rewrite !lookup_app_r by (simpl; lia). f_equal. simpl. lia. }
  pose proof (Hcall 0) as Hc0. rewrite Nat.add_0_r in Hc0. rewrite Hc0, (Hcall 1). unfold call. cbn [lookup list_lookup mbind option_bind].
  exists (length len + 1 + length sgn + 2). split; [done|]. rewrite Heq. unfold call.
  change (ver :: sgn ++ xt_pallet x :: xt_call x :: xt_args x) with ([ver] ++ sgn ++ [xt_pallet x; xt_call x] ++ xt_args x).
  rewrite !app_assoc. apply drop_app_length'. rewrite !length_app. simpl. lia.
Qed.

Definition signed_transfer : Extrinsic :=
  MkExtrinsic 4 (Some (MkSigned (ById 0 (replicate 32 7%Z)) 1 (replicate 64 9%Z) [21; 3]%Z 5 70000)) 10 3 [1; 2; 3]%Z.

Ltac all_bytes := repeat first [apply Forall_nil_2 | apply Forall_cons_2; [unfold is_byte; lia|]].

Lemma signed_transfer_ok : extrinsic_ok signed_transfer.
Proof.
  split; [simpl; lia| |unfold is_byte; simpl; lia|unfold is_byte; simpl; lia| |vm_compute; reflexivity].
  - intros s Hs. assert (s = MkSigned (ById 0 (replicate 32 7%Z)) 1 (replicate 64 9%Z) [21; 3]%Z 5 70000) as ->
      by (symmetry; by injection Hs). split; simpl.
    + split; [apply list_elem_of_here|]. split; [done|]. all_bytes.
    + apply list_elem_of_further, list_elem_of_here.
    + reflexivity.
    + all_bytes.
    + right. exists 21%Z, 3%Z. split; [done|]. unfold is_byte. lia.
    + lia.
    + lia.
  - all_bytes.
Qed.

Lemma extrinsic_parses_back_witness :
  ∃ argsOffset, drop argsOffset (encodeExtrinsic signed_transfer) = [1; 2; 3]%Z.
Proof.
  destruct (extrinsic_parses_back signed_transfer signed_transfer_ok) as (argsOffset & _ & Hd). exists argsOffset. exact Hd.
Defined.
