(* ===== verification/BlockEvents.v ===== *)
(** What the events of a block say each extrinsic did
    (srv/crawler/block-events.ts), and the address text of a UTXO's owner
    (srv/crawler/utxo-identity.ts).

    The library that decodes the events is not modelled: a record is what the
    program reads of a decoded one, its payload in JSON form. *)
From Stdlib Require Import Ascii.
From S2P Require Import Prelude Json Numbers Rollback Scale.

Set Warnings "-register-all".

Local Open Scope string_scope.

(** ** Event records *)

(** [er_index] is the extrinsic of an ApplyExtrinsic phase; [er_payload] is
    [event.data.toHuman()?.[0]], which may throw. *)
Record EventRecord := MkEventRecord {
  er_index : option Z; er_section : string; er_method : string; er_payload : outcome (option json) }.

Record UtxoEvent := MkUtxoEvent {
  ue_address : string; ue_tokenType : string; ue_intentHash : string; ue_value : Z; ue_outputNo : Z }.

Inductive ActionType := DEPLOY | CALL | UPDATE.
#[export] Instance ActionType_eq_dec : EqDecision ActionType.
Proof. solve_decision. Defined.

Record ContractEvent := MkContractEvent { ce_actionType : ActionType; ce_address : string }.

Inductive EventOutcome := OutcomeSuccess | OutcomeFailure.
#[export] Instance EventOutcome_eq_dec : EqDecision EventOutcome.
Proof. solve_decision. Defined.

Record ExtrinsicEvents := MkEvents {
  ev_outcome : option EventOutcome; ev_ledgerTxHash : option string; ev_applied : bool; ev_partialSuccess : bool;
  ev_created : list UtxoEvent; ev_spent : list UtxoEvent; ev_contracts : list ContractEvent }.

Definition emptyEvents : ExtrinsicEvents := MkEvents None None false false [] [] [].

Definition contract_action (method : string) : option ActionType :=
  if bool_decide (method = "ContractDeploy") then Some DEPLOY
  else if bool_decide (method = "ContractCall") then Some CALL
  else if bool_decide (method = "ContractMaintain") then Some UPDATE
  else None.

(** [/^[\x20-\x7e]+:$/.test(prefix)] on the Latin-1 text of the bytes. *)
Definition is_label (prefix : list Z) : bool :=
  (2 <=? length prefix)%nat && bool_decide (last prefix = Some 58%Z) &&
  forallb (λ b, (32 <=? b)%Z && (b <=? 126)%Z) prefix.

Definition stripContractAddressPrefix (rawHex : option json) : string :=
  let clean := bareHex rawHex in
  let n := String.length clean in
  if (n <=? 64)%nat || negb (n mod 2 =? 0)%nat then clean
  else if negb (is_label (hex_bytes (slice0 (n - 64) clean))) then clean
  else String.substring (n - 64) 64 clean.

Definition read_utxo (entry : json) : option UtxoEvent :=
  match entry with
  | JObj _ | JArr _ =>
      let intentHash := bareHex (json_get "intentHash" entry) in
      let address := bareHex (json_get "address" entry) in
      if is_empty intentHash || is_empty address then None
      else Some (MkUtxoEvent address (bareHex (json_get "tokenType" entry)) intentHash
                   (toBigInt (nullish (json_get "value" entry) JNull))
                   (toInt (nullish (json_get "outputNo" entry) JNull)))
  | _ => None
  end.

Definition readUtxoList (value : option json) : list UtxoEvent :=
  match value with Some (JArr l) => omap read_utxo l | _ => [] end.

Definition EventMap : Type := list (Z * ExtrinsicEvents).

(** [at(index)] with a change of the entry. *)
Definition change_at (index : Z) (f : ExtrinsicEvents → ExtrinsicEvents) (m : EventMap) : EventMap :=
  map_set index (f (nullish (map_get index m) emptyEvents)) m.

Definition set_outcome (o : EventOutcome) (e : ExtrinsicEvents) : ExtrinsicEvents :=
  MkEvents (Some o) (ev_ledgerTxHash e) (ev_applied e) (ev_partialSuccess e) (ev_created e) (ev_spent e) (ev_contracts e).
Definition set_ledgerTxHash (h : string) (e : ExtrinsicEvents) : ExtrinsicEvents :=
  MkEvents (ev_outcome e) (Some h) (ev_applied e) (ev_partialSuccess e) (ev_created e) (ev_spent e) (ev_contracts e).
Definition set_applied (partial : bool) (e : ExtrinsicEvents) : ExtrinsicEvents :=
  MkEvents (ev_outcome e) (ev_ledgerTxHash e) true (ev_partialSuccess e || partial) (ev_created e) (ev_spent e) (ev_contracts e).
Definition add_utxos (created spent : list UtxoEvent) (e : ExtrinsicEvents) : ExtrinsicEvents :=
  MkEvents (ev_outcome e) (ev_ledgerTxHash e) (ev_applied e) (ev_partialSuccess e) (ev_created e ++ created)%list
    (ev_spent e ++ spent)%list (ev_contracts e).
Definition add_contract (c : ContractEvent) (e : ExtrinsicEvents) : ExtrinsicEvents :=
  MkEvents (ev_outcome e) (ev_ledgerTxHash e) (ev_applied e) (ev_partialSuccess e) (ev_created e) (ev_spent e)
    (ev_contracts e ++ [c])%list.

(** A failure always wins. *)
Definition system_event (index : Z) (method : string) (m : EventMap) : EventMap :=
  if bool_decide (method = "ExtrinsicFailed") then change_at index (set_outcome OutcomeFailure) m
  else if bool_decide (method = "ExtrinsicSuccess") then
    change_at index (λ e, if bool_decide (ev_outcome e = Some OutcomeFailure) then e else set_outcome OutcomeSuccess e) m
  else m.

Definition midnight_event (index : Z) (method : string) (payload : json) (m : EventMap) : EventMap :=
  let txHash := bareHex (json_get "txHash" payload) in
  let m := if is_empty txHash then m else change_at index (set_ledgerTxHash txHash) m in
  if bool_decide (method = "UnshieldedTokens") then
    change_at index (add_utxos (readUtxoList (json_get "created" payload)) (readUtxoList (json_get "spent" payload))) m
  else match contract_action method with
  | Some actionType =>
      let address := stripContractAddressPrefix (json_get "contractAddress" payload) in
      if is_empty address then m else change_at index (add_contract (MkContractEvent actionType address)) m
  | None =>
      if bool_decide (method = "TxApplied") then change_at index (set_applied false) m
      else if bool_decide (method = "TxPartialSuccess") then change_at index (set_applied true) m
      else m
  end.

Definition read_record (m : EventMap) (record : EventRecord) : EventMap :=
  match er_index record with
  | None => m
  | Some index =>
      let section := lower (er_section record) in
      if bool_decide (section = "system") then system_event index (er_method record) m
      else if negb (bool_decide (section = "midnight")) then m
      else match er_payload record with
      | Throw _ | Ret None | Ret (Some JNull) => m
      | Ret (Some payload) => midnight_event index (er_method record) payload m
      end
  end.

Definition readBlockEvents (records : list EventRecord) : EventMap := foldl read_record [] records.

Definition txTypeFromEvents (events : option ExtrinsicEvents) : option string :=
  match events with
  | None => None
  | Some e =>
      if existsb (λ c, bool_decide (ce_actionType c = DEPLOY)) (ev_contracts e) then Some "contract_deploy"
      else if existsb (λ c, bool_decide (ce_actionType c = UPDATE)) (ev_contracts e) then Some "contract_update"
      else if negb (length (ev_contracts e) =? 0)%nat then Some "contract_call"
      else if negb (length (ev_created e) =? 0)%nat || negb (length (ev_spent e) =? 0)%nat then Some "night_transfer"
      else None
  end.

Record TransferProjection := MkTransfer {
  tp_senderAddress : option string; tp_receiverAddress : option string; tp_nightAmount : option Z }.

Definition no_transfer : TransferProjection := MkTransfer None None None.

(** What the created outputs of a receiver hold in NIGHT. *)
Definition night_paid (receiver : string) (created : list UtxoEvent) : Z :=
  foldl (λ sum u, if bool_decide (ue_address u = receiver) && bool_decide (ue_tokenType u = NIGHT_RAW_TOKEN_TYPE)
                  then (sum + ue_value u)%Z else sum) 0%Z created.

Definition projectTransfer (events : option ExtrinsicEvents) : TransferProjection :=
  match events with
  | None => no_transfer
  | Some e =>
      match js_set (ue_address <$> ev_spent e) with
      | [sender] =>
          match js_set (ue_address <$> keep (λ u, negb (bool_decide (ue_address u = sender))) (ev_created e)) with
          | [] => MkTransfer (Some sender) None None
          | [receiver] => MkTransfer (Some sender) (Some receiver) (Some (night_paid receiver (ev_created e)))
          | _ => no_transfer
          end
      | _ => no_transfer
      end
  end.

(** ** Owners *)

Section Owner.
(** [MidnightBech32m.encode(network, new UnshieldedAddress(bytes))] of the wallet
    SDK, which refuses bytes of the wrong length, and [ledger.dustInitialNonce]. *)
Variable bech32m : string → list Z → outcome string.
Variable dustInitialNonce : Z → string → outcome (string + list Z).

Definition MAX_CACHED_ADDRESSES : nat := 20000.

(** The cache is the state: addresses by network and raw owner. *)
Definition encodeUnshieldedOwner (rawHex network : string) : M (list (string * string)) string :=
  let key := network ++ ":" ++ rawHex in
  addressCache ← get;
  match present (map_get key addressCache) with
  | Some hit => mret hit
  | None =>
      match bech32m network (hex_bytes rawHex) with
      | Throw e => throw e
      | Ret encoded =>
          _ ← put (map_set key encoded (if (MAX_CACHED_ADDRESSES <=? length addressCache)%nat then [] else addressCache));
          mret encoded
      end
  end.

Definition computeInitialNonce (outputNo : Z) (intentHash : string) : outcome string :=
  match dustInitialNonce outputNo intentHash with
  | Throw e => Throw e
  | Ret (inl nonce) => Ret (bareHex (Some (JStr nonce)))
  | Ret (inr bytes) => Ret (to_hex bytes)
  end.

End Owner.

(** * Extrinsics

    How an extrinsic is classified by its pallet, and what the storage of a block
    says about its time (srv/crawler/BlockProcessor.ts). *)

(** ** Pallets *)

Record PalletMapping := MkPallet {
  pm_name : string; pm_txType : string; pm_isShielded : bool; pm_isSystem : bool }.

#[export] Instance PalletMapping_eq_dec : EqDecision PalletMapping.
Proof. solve_decision. Defined.

Definition VALID_TX_TYPES : list string :=
  ["night_transfer"; "shielded_transfer"; "contract_deploy"; "contract_call"; "contract_update"; "dust_registration";
   "dust_generation"; "governance"; "system"; "unknown"].

Definition system_pallet (name : string) : PalletMapping := MkPallet name "system" false true.
Definition pallet (name txType : string) : PalletMapping := MkPallet name txType false false.

Definition PalletMap : Type := list (Z * PalletMapping).

Definition DEFAULT_PALLET_MAP : PalletMap :=
  [(0, system_pallet "System"); (1, system_pallet "Timestamp"); (2, system_pallet "Aura"); (3, system_pallet "Grandpa");
   (4, system_pallet "Sidechain"); (5, pallet "Midnight" "contract_call"); (6, system_pallet "MidnightSystem");
   (8, system_pallet "SessionCommitteeManagement"); (11, system_pallet "NodeVersion");
   (13, system_pallet "CNightObservation"); (15, system_pallet "Preimage"); (16, system_pallet "MultiBlockMigrations");
   (17, system_pallet "PalletSession"); (18, system_pallet "Scheduler"); (19, system_pallet "TxPause");
   (21, system_pallet "Beefy"); (22, system_pallet "Mmr"); (23, system_pallet "BeefyMmrLeaf"); (30, system_pallet "Session");
   (32, pallet "Bridge" "night_transfer"); (40, pallet "Council" "governance");
   (41, pallet "CouncilMembership" "governance"); (42, pallet "TechnicalCommittee" "governance");
   (43, pallet "TechnicalCommitteeMembership" "governance"); (44, pallet "FederatedAuthority" "governance");
   (45, system_pallet "FederatedAuthorityObservation"); (50, system_pallet "SystemParameters"); (51, system_pallet "Throttle")]%Z.

Definition set_all (m entries : PalletMap) : PalletMap := foldl (λ m e, map_set e.1 e.2 m) m entries.

(** The entries of [palletMap] in the settings; an unknown type becomes
    'unknown'. *)
Definition configPalletOverrides (configMap : option PalletMap) : PalletMap :=
  set_all [] ((λ e : Z * PalletMapping, (e.1, if mem (pm_txType e.2) VALID_TX_TYPES then e.2
                      else MkPallet (pm_name e.2) "unknown" (pm_isShielded e.2) (pm_isSystem e.2))) <$> nullish configMap []).

Definition buildPalletMap (configMap : option PalletMap) : PalletMap :=
  set_all (set_all [] DEFAULT_PALLET_MAP) (configPalletOverrides configMap).

(** The default entry of a pallet name; of two with a name the later. *)
Definition default_by_name (name : string) : option PalletMapping :=
  map_get name (foldl (λ m (e : Z * PalletMapping), map_set (pm_name e.2) e.2 m) [] DEFAULT_PALLET_MAP).

Definition at_text (name : string) (index : Z) : string := name ++ "@" ++ pretty index.

(** One pallet of the runtime's metadata: [None] is an index that is no integer. *)
Definition resolve_pallet (acc : PalletMap * list string * list string) (p : string * option Z) :
    PalletMap * list string * list string :=
  let '(map, moved, unmapped) := acc in
  match p.2 with
  | None => acc
  | Some index =>
      match default_by_name p.1 with
      | None => (map, moved, unmapped ++ [at_text p.1 index])%list
      | Some mapping =>
          (map_set index mapping map,
           if bool_decide ((pm_name <$> map_get index DEFAULT_PALLET_MAP) = Some p.1) then moved
           else (moved ++ [at_text p.1 index])%list, unmapped)
      end
  end.

Definition resolvePalletMapFromMetadata (pallets : list (string * option Z)) (overrides : PalletMap) :
    PalletMap * list string * list string :=
  let '(map, moved, unmapped) := foldl resolve_pallet ([], [], []) pallets in
  (set_all map overrides, moved, unmapped).

(** ** Extrinsics *)

Record ExtrinsicClassification := MkClassification {
  cl_txType : string; cl_isShielded : bool; cl_isSystem : bool; cl_indices : option (Z * Z) }.

Definition mapPalletCall (palletIndex callIndex : Z) (palletMap : PalletMap) : string * bool * bool :=
  match map_get palletIndex palletMap with
  | None => ("unknown", false, false)
  | Some entry =>
      let txType :=
        if bool_decide (pm_name entry = "Contracts") then
          if bool_decide (callIndex = 0%Z) then "contract_call"
          else if bool_decide (callIndex = 1%Z) then "contract_deploy"
          else if bool_decide (callIndex = 2%Z) then "contract_update"
          else pm_txType entry
        else pm_txType entry in
      (txType, pm_isShielded entry, pm_isSystem entry)
  end.

Definition classifyExtrinsic (hex : string) (palletMap : PalletMap) : ExtrinsicClassification :=
  if (String.length hex <? 10)%nat then MkClassification "system" false true None
  else match parseExtrinsicCallIndices hex with
  | Some (palletIndex, callIndex) =>
      let '(txType, isShielded, isSystem) := mapPalletCall palletIndex callIndex palletMap in
      MkClassification txType isShielded isSystem (Some (palletIndex, callIndex))
  | None =>
      if (String.length hex <? 100)%nat then MkClassification "system" false true None
      else MkClassification "unknown" false false None
  end.

Definition extrinsicSize (hex : string) : Z :=
  let n := Z.of_nat (String.length (bareHex (Some (JStr hex)))) in ((n + 1) / 2)%Z.

Definition toContractActionType (txType : string) : option ActionType :=
  if bool_decide (txType = "contract_deploy") then Some DEPLOY
  else if bool_decide (txType = "contract_call") then Some CALL
  else if bool_decide (txType = "contract_update") then Some UPDATE
  else None.

Definition buildCircuitName (c : ExtrinsicClassification) : option string :=
  (λ pc : Z * Z, pretty pc.1 ++ ":" ++ pretty pc.2) <$> cl_indices c.

Inductive TxOutcome := TxSUCCESS | TxPARTIAL_SUCCESS | TxFAILURE.

Definition outcomeFor (events : option ExtrinsicEvents) : option TxOutcome :=
  match events with
  | None => None
  | Some e =>
      match ev_outcome e with
      | None => None
      | Some OutcomeFailure => Some TxFAILURE
      | Some OutcomeSuccess => Some (if ev_partialSuccess e then TxPARTIAL_SUCCESS else TxSUCCESS)
      end
  end.

(** Action type and address; a guessed action has none. *)
Definition contractActionsFor (events : option ExtrinsicEvents) (c : ExtrinsicClassification) :
    list (ActionType * option string) :=
  match events with
  | Some (MkEvents _ _ applied _ _ _ contracts) =>
      match contracts with
      | _ :: _ => (λ c, (ce_actionType c, Some (ce_address c))) <$> contracts
      | [] => if applied then [] else
          match toContractActionType (cl_txType c) with Some t => [(t, None)] | None => [] end
      end
  | None => match toContractActionType (cl_txType c) with Some t => [(t, None)] | None => [] end
  end.

(** ** The time of a block *)

(** A little-endian u64 of milliseconds, as seconds. *)
Definition parseTimestampHex (hex : option string) : option Z :=
  match hex with
  | None | Some EmptyString => None
  | Some h => b ← bytes_at (hex_bytes (bareHex (Some (JStr h)))) 0 8; Some (from_le b / 1000)%Z
  end.

Definition decodeTimestampInherent (extrinsics : list string) (palletMap : PalletMap) : option Z :=
  match extrinsics with
  | [] | EmptyString :: _ => None
  | first :: _ =>
      call ← parseExtrinsicCall first;
      if bool_decide ((pm_name <$> map_get (ec_palletIndex call) palletMap) = Some "Timestamp") &&
         bool_decide (ec_callIndex call = 0%Z)
      then '(v, _) ← decodeCompactBigInt (ec_buf call) (ec_argsOffset call); Some (v / 1000)%Z
      else None
  end.

Definition resolveTimestamp (storageHex : option string) (extrinsics : list string) (where_ : string)
    (palletMap : PalletMap) : outcome Z :=
  match parseTimestampHex storageHex with
  | Some t => Ret t
  | None =>
      match decodeTimestampInherent extrinsics palletMap with
      | Some t => Ret t
      | None => Throw (js_error ("No timestamp for " ++ where_ ++
                  ": Timestamp storage empty and no Timestamp.set inherent (pruned or racing node)"))
      end
  end.

(** [spec_version] of a SCALE LastRuntimeUpgradeInfo. *)
Definition decodeLastRuntimeUpgrade (hex : string) : option Z :=
  let bytes := hex_bytes (bareHex (Some (JStr hex))) in
  first ← head bytes;
  match Z.land first 3 with
  | 0%Z => Some (Z.shiftr first 2)
  | 1%Z => b ← bytes_at bytes 0 2; Some (Z.shiftr (from_le b) 2)
  | 2%Z => b ← bytes_at bytes 0 4; Some (Z.shiftr (from_le b) 2)
  | _ => None
  end.

(** The decoded version is that of the compact decoder, which reads wider
    integers too. *)
Lemma upgrade_version_compact hex v :
  decodeLastRuntimeUpgrade hex = Some v →
  fst <$> decodeCompactBigInt (hex_bytes (bareHex (Some (JStr hex)))) 0 = Some v.
Proof.
  unfold decodeLastRuntimeUpgrade, decodeCompactBigInt. destruct (hex_bytes _) as [|x l]; [done|].
  cbn [head mbind option_bind lookup list_lookup]. destruct (Z.land x 3) as [|[p|[p|p|]|]|]; simpl; try done.
  - by destruct (bytes_at _ _ _).
  - by destruct (bytes_at _ _ _).
Qed.
