(* ===== verification/NodeRpc.v ===== *)
(** What the crawler asks the node (srv/providers/MidnightNodeProvider.ts), and
    who produced a block (srv/crawler/block-author.ts).

    The node is outside the program: each answer may be anything, or an error.
    The library that decodes headers and the seal check are outside too. *)
From Stdlib Require Import Ascii.
From S2P Require Import Prelude Json Numbers Rollback Scale BlockEvents.

Set Warnings "-register-all".

Local Open Scope string_scope.

Record BlockHeader := MkHeader {
  hd_parentHash : string; hd_number : string; hd_stateRoot : string; hd_logs : list string }.

Record SignedBlock := MkSignedBlock { sb_header : BlockHeader; sb_extrinsics : list string }.

(** The JSON-RPC methods; a block without body answers [None]. *)
Record Node := MkNode {
  n_getBlockHash : Z → outcome (option string);
  n_getFinalizedHead : outcome string;
  n_getHeader : string → outcome (option BlockHeader);
  n_getBlock : string → outcome (option SignedBlock);
  n_getStorage : string → string → outcome (option string);
  n_getRuntimeVersion : string → outcome (option json);
  n_getMetadata : string → outcome json }.

(** ** Block numbers *)

(** The value of the leading hex digits; [None] when there is none. *)
Fixpoint leading_hex (acc : option Z) (s : string) : option Z :=
  match s with
  | String a s' =>
      match hex_val a with Some x => leading_hex (Some (16 * nullish acc 0 + x)%Z) s' | None => acc end
  | EmptyString => acc
  end.

(** [parseInt(s, 16)]; [None] is NaN. *)
Definition parseInt16 (s : string) : option Z :=
  match trim_start s with
  | String "-"%char s' => Z.opp <$> leading_hex None (drop_0x_ci s')
  | String "+"%char s' => leading_hex None (drop_0x_ci s')
  | s' => leading_hex None (drop_0x_ci s')
  end.

Definition parseBlockNumber (hex : string) : outcome Z :=
  match parseInt16 hex with
  | Some n => Ret n
  | None => Throw (js_error ("Invalid block number hex: " ++ chr 34 ++ hex ++ chr 34))
  end.

(** ** Block authors *)

(** A log of a decoded header digest: whether its engine is AURA, and its bytes. *)
Inductive DigestItem :=
| PreRuntime (isAura : bool) (data : list Z) | Consensus (isAura : bool) (data : list Z)
| Seal (isAura : bool) (data : list Z) | OtherItem.

Record AuraHeaderFacts := MkAura {
  au_slot : option Z; au_nextAuthorities : option (list string); au_seal : option (list Z);
  au_sealedHash : option (list Z) }.

Definition NO_AURA : AuraHeaderFacts := MkAura None None None None.

Definition AUTHORITIES_CHANGE : Z := 1.

Definition AURA_AUTHORITIES_STORAGE_KEY : string :=
  "0x57f8dc2f5ab09467896f47300f0424385e0621c4869aa60c02be9adcc98a0d1d".

Section Author.
(** The decoded digest and the hash of a header; a list of 32-byte keys; the
    check of a seal against a hash and a key. *)
Variable decode_digest : BlockHeader → outcome (list DigestItem).
Variable header_hash : BlockHeader → outcome (list Z).
Variable decodeAuthorities : list Z → outcome (list string).
Variable sr25519Verify : list Z → list Z → string → bool.

(** One item; [is_last] is [index === items.length - 1]. *)
Definition read_item (facts : outcome AuraHeaderFacts) (item : DigestItem * bool) : outcome AuraHeaderFacts :=
  f ← facts;
  match item with
  | (PreRuntime true data, _) => Ret (MkAura (Some (from_le (take 8 data))) (au_nextAuthorities f) (au_seal f) (au_sealedHash f))
  | (Consensus true (b :: data), _) =>
      if bool_decide (b = AUTHORITIES_CHANGE) then
        l ← decodeAuthorities data; Ret (MkAura (au_slot f) (Some l) (au_seal f) (au_sealedHash f))
      else Ret f
  | (Seal true data, true) => Ret (MkAura (au_slot f) (au_nextAuthorities f) (Some data) (au_sealedHash f))
  | _ => Ret f
  end.

(** [logs.slice(0, -1)] *)
Definition unsealed (h : BlockHeader) : BlockHeader :=
  MkHeader (hd_parentHash h) (hd_number h) (hd_stateRoot h) (take (length (hd_logs h) - 1) (hd_logs h)).

Definition readAuraHeader (header : BlockHeader) : AuraHeaderFacts :=
  match hd_logs header with
  | [] => NO_AURA
  | _ =>
      match (items ← decode_digest header;
             facts ← foldl read_item (Ret NO_AURA)
                       (imap (λ i item, (item, bool_decide (i = length items - 1))) items);
             match au_seal facts with
             | None => Ret facts
             | Some _ => h ← header_hash (unsealed header);
                 Ret (MkAura (au_slot facts) (au_nextAuthorities facts) (au_seal facts) (Some h))
             end) with
      | Ret facts => facts
      | Throw _ => NO_AURA
      end
  end.

Record BlockProducer := MkProducer { bp_author : option string; bp_slot : option Z }.

(** [next]: the authorities that sign the child of a block. *)
Record NextAuthorities := MkNext { na_parentHash : string; na_authorities : list string }.

(** The list a storage value holds; an absent or empty one holds none. *)
Definition stored_authorities (encoded : option string) : outcome (list string) :=
  match encoded with
  | None | Some EmptyString => Ret []
  | Some hex => decodeAuthorities (hex_bytes (bareHex (Some (JStr hex))))
  end.

Definition readAuthorities (node : Node) (atBlockHash : string) : outcome (list string) :=
  encoded ← n_getStorage node AURA_AUTHORITIES_STORAGE_KEY atBlockHash; stored_authorities encoded.

(** [authorities[slot mod length]] *)
Definition authority_of (authorities : list string) (slot : Z) : option string :=
  authorities !! Z.to_nat (slot mod Z.of_nat (length authorities)).

Definition resolve_author (node : Node) (blockHash : string) (header : BlockHeader) :
    M (option NextAuthorities) BlockProducer :=
  let facts := readAuraHeader header in
  match au_slot facts with
  | None => mret (MkProducer None None)
  | Some slot =>
      next ← get;
      let known := match next with
                   | Some n => if bool_decide (na_parentHash n = hd_parentHash header) then Some (na_authorities n) else None
                   | None => None
                   end in
      match (match known with Some l => Ret l | None => readAuthorities node (hd_parentHash header) end) with
      | Throw e => throw e
      | Ret authorities =>
          _ ← put (Some (MkNext blockHash (nullish (au_nextAuthorities facts) authorities)));
          mret (match authority_of authorities slot with
                | None => MkProducer None (Some slot)
                | Some author =>
                    match au_seal facts, au_sealedHash facts with
                    | Some seal, Some hash => MkProducer (if sr25519Verify seal hash author then Some author else None) (Some slot)
                    | _, _ => MkProducer None (Some slot)
                    end
                end)
      end
  end.

(** ** The authority list *)

(** The list that signs the block after [hash]: the chain's rule, of which the
    node's storage is a view. *)
Definition lists_agree (signers : string → list string) (node : Node) (next : option NextAuthorities) : Prop :=
  (∀ h l, readAuthorities node h = Ret l → l = signers h) ∧
  (∀ n, next = Some n → na_authorities n = signers (na_parentHash n)).

(** The list kept from the last block is the one its state holds, so a block that
    follows it needs no storage read; and a validator is named only when the
    header's seal is its signature. *)
Lemma resolve_author_proven signers node blockHash header next p next' :
  lists_agree signers node next →
  signers blockHash = nullish (au_nextAuthorities (readAuraHeader header)) (signers (hd_parentHash header)) →
  resolve_author node blockHash header next = (Ret p, next') →
  lists_agree signers node next' ∧
  ∀ author, bp_author p = Some author →
    ∃ slot seal hash, au_slot (readAuraHeader header) = Some slot ∧
      authority_of (signers (hd_parentHash header)) slot = Some author ∧
      au_seal (readAuraHeader header) = Some seal ∧ au_sealedHash (readAuraHeader header) = Some hash ∧
      sr25519Verify seal hash author = true.
Proof.
  intros [Hn Hk] Hs Hr. unfold resolve_author, get, put in Hr. m_unfold. destruct (au_slot _) as [slot|] eqn:Es; [|by simplify_eq].
  set (known := match next with Some _ => _ | None => _ end) in Hr.
  assert (∀ l, (match known with Some l => Ret l | None => readAuthorities node (hd_parentHash header) end) = Ret l →
    l = signers (hd_parentHash header)) as Hl.
  { intros l. unfold known. destruct next as [n|]; [case_bool_decide as Hp|]; intros Hl; simplify_eq; try by apply Hn in Hl.
    rewrite <- Hp. by apply Hk. }
  destruct (match known with Some l => _ | None => _ end) as [l|e]; [|done]. specialize (Hl l eq_refl) as ->.
  simplify_eq/=. split.
  - split; [done|]. intros n [= <-]. simpl. by rewrite Hs.
  - intros author Ha. destruct (authority_of _ slot) as [a|] eqn:Ea; [|done].
    destruct (au_seal _) as [seal|], (au_sealedHash _) as [hash|]; simpl in Ha; try done.
    destruct (sr25519Verify seal hash a) eqn:Ev; [|done]. simplify_eq. eauto 10.
Qed.

End Author.

(** * The runtime of a block

    Its version and the pallets of its metadata (the lookups of
    srv/crawler/BlockProcessor.ts and their caches). *)

Definition TIMESTAMP_STORAGE_KEY : string :=
  "0xf0c365c3cf59d671eb72da0e7a4113c49f1f0515f462cdcf84e0f1d6045dfcbb".
Definition SYSTEM_EVENTS_STORAGE_KEY : string :=
  "0x26aa394eea5630e07c48ae0c9558cef780d41e5e16056765bc8461851072c9d7".
Definition LAST_RUNTIME_UPGRADE_STORAGE_KEY : string :=
  "0x26aa394eea5630e07c48ae0c9558cef7f9cce9c888469bb1a0dceaa129672ef8".

(** ** The version *)

(** [agreed]: the node's answer is not contradicted by the stored value. *)
Record SpecVersionLookup := MkSpecLookup { sv_blockHash : string; sv_specVersion : Z; sv_agreed : bool }.

Definition SpecCache : Type := list (string * SpecVersionLookup).

Definition specVersionFromBatch (rv : option json) (where_ : string) : outcome Z :=
  let v := match rv with
           | Some rv =>
               match json_get "specVersion" rv with
               | Some (JInt n) => Some n
               | Some (JStr s) => parse_digits s
               | _ => None
               end
           | None => None
           end in
  match v with
  | Some n => if bool_decide (0 ≤ n)%Z then Ret n
              else Throw (js_error ("No runtime version for " ++ where_ ++ " (pruned or racing node)"))
  | None => Throw (js_error ("No runtime version for " ++ where_ ++ " (pruned or racing node)"))
  end.

Definition getProtocolVersion (node : Node) (blockHash where_ : string) : outcome Z :=
  match n_getRuntimeVersion node blockHash with
  | Throw e => Throw (js_error ("No runtime version for " ++ where_ ++ ": " ++ ex_msg e))
  | Ret rv => specVersionFromBatch rv where_
  end.

(** [/^0x[0-9a-fA-F]{2,}$/] *)
Definition is_upgrade_hex (s : string) : bool :=
  match s with
  | String "0"%char (String "x"%char s') =>
      (2 <=? String.length s')%nat && all_chars (λ a, bool_decide (is_Some (hex_val a))) s'
  | _ => false
  end.

(** The lookup for a new value: kept unless it failed or the node disagrees. *)
Definition fresh_lookup (node : Node) (upgradeHex blockHash where_ : string) : M SpecCache SpecVersionLookup :=
  match getProtocolVersion node blockHash where_ with
  | Throw e => throw e
  | Ret specVersion =>
      let agreed := match decodeLastRuntimeUpgrade upgradeHex with
                    | Some decoded => bool_decide (decoded = specVersion)
                    | None => true
                    end in
      let l := MkSpecLookup blockHash specVersion agreed in
      if agreed then cache ← get; _ ← put (map_set upgradeHex l cache); mret l else mret l
  end.

(** A caller that joined another block's lookup asks for itself when the node
    disagreed. *)
Definition use_lookup (node : Node) (l : SpecVersionLookup) (blockHash where_ : string) : outcome Z :=
  if sv_agreed l || bool_decide (sv_blockHash l = blockHash) then Ret (sv_specVersion l)
  else getProtocolVersion node blockHash where_.

(** [joined] is the lookup of another block that is still under way for the same
    value, if there is one; it may fail. *)
Definition resolveSpecVersion (node : Node) (joined : option (outcome SpecVersionLookup)) (upgradeHex : option string)
    (blockHash where_ : string) : M SpecCache Z :=
  match upgradeHex with
  | Some hex =>
      if is_upgrade_hex hex then
        cache ← get;
        l ← match map_get hex cache with
            | Some l => mret l
            | None => match joined with Some o => lift o | None => fresh_lookup node hex blockHash where_ end
            end;
        lift (use_lookup node l blockHash where_)
      else lift (getProtocolVersion node blockHash where_)
  | None => lift (getProtocolVersion node blockHash where_)
  end.

(** Every kept lookup agreed with the value it is kept under. *)
Definition cache_agrees (cache : SpecCache) : Prop :=
  ∀ hex l, map_get hex cache = Some l →
    sv_agreed l = true ∧ ∀ v, decodeLastRuntimeUpgrade hex = Some v → v = sv_specVersion l.

(** The answer is the node's own for this block, or the version the block's stored
    value names. *)
Lemma resolve_spec_version node upgradeHex blockHash where_ cache v cache' :
  cache_agrees cache →
  resolveSpecVersion node None upgradeHex blockHash where_ cache = (Ret v, cache') →
  cache_agrees cache' ∧
  (getProtocolVersion node blockHash where_ = Ret v ∨
   ∃ hex l, upgradeHex = Some hex ∧ map_get hex cache = Some l ∧ v = sv_specVersion l ∧
     ∀ d, decodeLastRuntimeUpgrade hex = Some d → v = d).
Proof.
  intros Hc Hr. unfold resolveSpecVersion, lift, get in Hr. m_unfold.
  destruct upgradeHex as [hex|]; [destruct (is_upgrade_hex hex)|]; simplify_eq; try (by split; [|left]).
  destruct (map_get hex cache) as [l|] eqn:El.
  - destruct (Hc hex l El) as [Ha Hd]. unfold use_lookup in Hr. rewrite Ha in Hr. simplify_eq/=. split; [done|]. right.
    exists hex, l. split_and!; try done. intros d Hde. symmetry. by apply Hd.
  - unfold fresh_lookup in Hr. destruct (getProtocolVersion node blockHash where_) as [sv|] eqn:Eg; [|done].
    set (agreed := match decodeLastRuntimeUpgrade hex with Some _ => _ | None => _ end) in Hr.
    assert (agreed = true → ∀ d, decodeLastRuntimeUpgrade hex = Some d → d = sv) as Hag.
    { unfold agreed. intros Ha d Hd. rewrite Hd in Ha. by apply bool_decide_eq_true_1 in Ha. }
    unfold use_lookup, get, put in Hr. m_unfold. destruct agreed; simpl in Hr.
    + simplify_eq. split; [|by left]. intros h l. destruct (decide (h = hex)) as [->|Hne].
      * rewrite map_get_set_eq. intros [= <-]. simpl. auto.
      * rewrite map_get_set_ne by done. apply Hc.
    + rewrite bool_decide_eq_true_2 in Hr by done. simplify_eq. split; [done|by left].
Qed.

(** ** The metadata *)

Section Registry.
(** A type registry of the decoding library: made from metadata, with the pallets
    it lists, and the events it reads. *)
Context {Registry : Type}.
Variable decode_metadata : string → outcome Registry.
Variable registry_pallets : Registry → outcome (list (string * option Z)).
Variable decode_events : Registry → string → outcome (list EventRecord).

Record RuntimeContext := MkRuntime { rc_registry : Registry; rc_palletMap : PalletMap }.

Definition RuntimeCache : Type := list (Z * RuntimeContext).

Definition palletMapFor (runtimes : RuntimeCache) (defaultPalletMap : PalletMap) (specVersion : Z) : PalletMap :=
  nullish (rc_palletMap <$> map_get specVersion runtimes) defaultPalletMap.

Definition palletMapFromMetadata (overrides : PalletMap) (registry : Registry) (specVersion : Z) : outcome PalletMap :=
  match registry_pallets registry with
  | Throw e => Throw (js_error ("Runtime metadata for specVersion " ++ pretty specVersion ++
                 " exposes no readable pallet list (unsupported metadata representation): " ++ ex_msg e))
  | Ret [] => Throw (js_error ("Runtime metadata for specVersion " ++ pretty specVersion ++
                 " lists no pallets (unsupported metadata representation); refusing to classify with the default pallet indices"))
  | Ret pallets => Ret (resolvePalletMapFromMetadata pallets overrides).1.1
  end.

Definition metadata_text (v : json) : option string :=
  match v with
  | JStr s => if starts_with "0x" s && (4 <=? String.length s)%nat then Some s else None
  | _ => None
  end.

Definition getEventRegistry (node : Node) (overrides : PalletMap) (blockHash : string) (specVersion : Z) :
    M RuntimeCache Registry :=
  let at_block := "block " ++ blockHash ++ " (specVersion " ++ pretty specVersion ++ ")" in
  if bool_decide (specVersion < 0)%Z then
    throw (js_error ("Invalid runtime specVersion " ++ pretty specVersion ++ " for block " ++ blockHash))
  else
    runtimes ← get;
    match map_get specVersion runtimes with
    | Some cached => mret (rc_registry cached)
    | None =>
        match n_getMetadata node blockHash with
        | Throw e => throw (js_error ("Runtime metadata unavailable for " ++ at_block ++ ": " ++ ex_msg e))
        | Ret metadataHex =>
            match metadata_text metadataHex with
            | None => throw (js_error ("No runtime metadata for " ++ at_block ++ ": pruned or racing node"))
            | Some hex =>
                match decode_metadata hex with
                | Throw e => throw (js_error ("Runtime metadata for " ++ at_block ++ " does not decode: " ++ ex_msg e))
                | Ret registry =>
                    palletMap ← lift (palletMapFromMetadata overrides registry specVersion);
                    _ ← put (map_set specVersion (MkRuntime registry palletMap) runtimes);
                    mret registry
                end
            end
        end
    end.

(** A block with extrinsics has readable events, or is not stored. *)
Definition decodeBlockEvents (rawEvents : option string) (registry : option Registry) (where_ : string)
    (extrinsicCount : nat) : outcome (option EventMap) :=
  let block := if is_empty where_ then "block" else where_ in
  match present rawEvents, registry with
  | Some raw, Some registry =>
      match decode_events registry raw with
      | Ret records => Ret (Some (readBlockEvents records))
      | Throw e => Throw (js_error ("System.Events of " ++ block ++ " do not decode: " ++ ex_msg e))
      end
  | raw, _ =>
      if (extrinsicCount =? 0)%nat then Ret None
      else match raw with
      | None => Throw (js_error ("No System.Events for " ++ block ++ " with " ++ pretty (Z.of_nat extrinsicCount) ++
                  " extrinsic(s) (pruned or racing node)"))
      | Some _ => Throw (js_error ("No runtime metadata registry to decode System.Events for " ++ block))
      end
  end.

End Registry.

Arguments RuntimeContext : clear implicits.
Arguments RuntimeCache : clear implicits.
