(* ===== verification/BlockProcessor.v ===== *)
(** Storing a block with its transactions, UTXOs and balances
    (srv/crawler/BlockProcessor.ts). *)
From Stdlib Require Import Ascii.
From S2P Require Import Prelude Db Json Retry Numbers Schema Scale Rollback.
From S2P Require Import BlockEvents NodeRpc.

Set Warnings "-register-all".

Local Open Scope string_scope.

(** ** What a block's events mean for the index *)

Record PreparedUtxo := MkPrepared {
  pu_owner : string; pu_tokenType : string; pu_value : Z; pu_intentHash : string; pu_outputIndex : Z;
  pu_initialNonce : string; pu_ctime : Z }.

Record EventProjection := MkProjection {
  pj_created : list PreparedUtxo; pj_spent : list (string * Z);
  pj_senderAddress : option string; pj_receiverAddress : option string; pj_nightAmount : option Z }.

Section Project.
Variable bech32m : string → list Z → outcome string.
Variable dustInitialNonce : Z → string → outcome (string + list Z).
Variable network : string.

Definition Addresses : Type := list (string * string).

(** One created output; one that cannot be derived is left out. *)
Definition project_utxo (timestamp : Z) (u : UtxoEvent) : M Addresses (option PreparedUtxo) :=
  try_catch
    (owner ← encodeUnshieldedOwner bech32m (ue_address u) network;
     nonce ← lift (computeInitialNonce dustInitialNonce (ue_outputNo u) (ue_intentHash u));
     mret (Some (MkPrepared owner (ue_tokenType u) (ue_value u) (ue_intentHash u) (ue_outputNo u) nonce timestamp)))
    (λ _, mret None).

Fixpoint project_utxos (timestamp : Z) (l : list UtxoEvent) : M Addresses (list PreparedUtxo) :=
  match l with
  | [] => mret []
  | u :: l' =>
      p ← project_utxo timestamp u;
      rest ← project_utxos timestamp l';
      mret (match p with Some p => p :: rest | None => rest end)
  end.

(** An optional address, encoded; an empty text counts as none. *)
Definition encode_optional (address : option string) : M Addresses (option string) :=
  match present address with
  | Some a => text ← encodeUnshieldedOwner bech32m a network; mret (Some text)
  | None => mret None
  end.

Definition project_extrinsic (timestamp : Z) (e : ExtrinsicEvents) : M Addresses EventProjection :=
  created ← project_utxos timestamp (ev_created e);
  let transfer := projectTransfer (Some e) in
  participants ← try_catch
    (senderAddress ← encode_optional (tp_senderAddress transfer);
     receiverAddress ← encode_optional (tp_receiverAddress transfer);
     mret (senderAddress, receiverAddress))
    (λ _, mret (None, None));
  mret (MkProjection created ((λ u, (ue_intentHash u, ue_outputNo u)) <$> ev_spent e)
          participants.1 participants.2
          (if bool_decide (is_Some (present participants.2)) then tp_nightAmount transfer else None)).

Fixpoint project_entries (timestamp : Z) (l : EventMap) : M Addresses (list (Z * EventProjection)) :=
  match l with
  | [] => mret []
  | (index, e) :: l' =>
      if (length (ev_created e) =? 0)%nat && (length (ev_spent e) =? 0)%nat then project_entries timestamp l'
      else
        p ← project_extrinsic timestamp e;
        rest ← project_entries timestamp l';
        mret ((index, p) :: rest)
  end.

Definition projectEvents (extrinsicEvents : option EventMap) (timestamp : Z) : M Addresses (list (Z * EventProjection)) :=
  match extrinsicEvents with None => mret [] | Some m => project_entries timestamp m end.
End Project.

(** ** Balance deltas *)

Record BalanceDelta := MkDelta {
  dl_balance : Z; dl_utxoCount : Z; dl_totalReceived : Z; dl_txReceivedCount : Z; dl_totalSent : Z; dl_txSentCount : Z }.

Definition emptyBalanceDelta : BalanceDelta := MkDelta 0 0 0 0 0 0.

Definition Deltas : Type := list (string * BalanceDelta).

(** [deltaFor(address)] with a change of the delta. *)
Definition change_delta (address : string) (f : BalanceDelta → BalanceDelta) (m : Deltas) : Deltas :=
  map_set address (f (nullish (map_get address m) emptyBalanceDelta)) m.

Definition received (value : Z) (d : BalanceDelta) : BalanceDelta :=
  MkDelta (dl_balance d + value) (dl_utxoCount d + 1) (dl_totalReceived d + value) (dl_txReceivedCount d + 1)
    (dl_totalSent d) (dl_txSentCount d).
Definition spent_utxo (value : Z) (d : BalanceDelta) : BalanceDelta :=
  MkDelta (dl_balance d - value) (dl_utxoCount d - 1) (dl_totalReceived d) (dl_txReceivedCount d)
    (dl_totalSent d) (dl_txSentCount d).
Definition sent (amount : Z) (d : BalanceDelta) : BalanceDelta :=
  MkDelta (dl_balance d) (dl_utxoCount d) (dl_totalReceived d) (dl_txReceivedCount d)
    (dl_totalSent d + amount) (dl_txSentCount d + 1).

(** ** The rows of a block *)

Record PreparedBlock := MkFetched {
  pb_blockHash : string; pb_height : Z; pb_signedBlock : SignedBlock; pb_protocolVersion : Z;
  pb_palletMap : PalletMap; pb_timestamp : Z; pb_extrinsicEvents : option EventMap }.

(** The identifiers of the rows: [cds.utils.uuid()], named by what they are for. *)
Inductive RowName :=
| BlockName | TxName (i : nat) | ResultName (i : nat) | FeeName (i : nat) | ActionName (i k : nat) | UtxoName (i k : nat).

#[export] Instance RowName_eq_dec : EqDecision RowName.
Proof. solve_decision. Defined.

Record SpendRequest := MkSpend { sp_intentHash : string; sp_outputIndex : Z; sp_txId : string }.

Record BlockRows := MkRows {
  br_txs : list (string * TxRow); br_results : list (string * ResultRow); br_fees : list (string * FeeRow);
  br_actions : list (string * ActionRow); br_utxos : list (string * UtxoRow); br_spends : list SpendRequest;
  br_deltas : Deltas }.

Definition no_rows : BlockRows := MkRows [] [] [] [] [] [] [].

Definition action_text (t : ActionType) : string :=
  match t with DEPLOY => "DEPLOY" | CALL => "CALL" | UPDATE => "UPDATE" end.
Definition outcome_text (o : TxOutcome) : string :=
  match o with TxSUCCESS => "SUCCESS" | TxPARTIAL_SUCCESS => "PARTIAL_SUCCESS" | TxFAILURE => "FAILURE" end.

Section Persist.
(** [hash_hex]: the hex of a BLAKE2b-256 hash; [uuid]: a fresh identifier per
    row; [now]: the clock; [fault]: what the database raises at a statement. *)
Variable blake2b : list Z → list Z.
Variable uuid : RowName → string.
Variable now : Z.
Variable fault : string → option exn.
Context `{ScanOrder}.

Definition hashExtrinsic (hex : string) : string :=
  "0x" ++ to_hex (blake2b (hex_bytes (bareHex (Some (JStr hex))))).

Definition statement {A} (label : string) (m : M IndexDb A) : M IndexDb A :=
  match fault label with Some e => throw e | None => m end.

(** A participant text that is there and not empty. *)
Definition counts_sent (sender receiver : option string) (amount : option Z) : option (string * Z) :=
  match present sender, present receiver with
  | Some s, Some r =>
      if negb (bool_decide (r = s)) && bool_decide (0 < nullish amount 0)%Z then Some (s, nullish amount 0%Z) else None
  | _, _ => None
  end.

Definition utxo_row (txId : string) (u : PreparedUtxo) : UtxoRow :=
  MkUtxo (pu_owner u) (pu_tokenType u) (pu_value u) (pu_intentHash u) (pu_outputIndex u) (Some (pu_ctime u))
    (pu_initialNonce u) txId None.

(** Only NIGHT counts towards NightBalances. *)
Definition credit (m : Deltas) (u : PreparedUtxo) : Deltas :=
  if bool_decide (pu_tokenType u = NIGHT_RAW_TOKEN_TYPE) then change_delta (pu_owner u) (received (pu_value u)) m else m.

Definition tx_row (prep : PreparedBlock) (i : nat) (hex : string) (c : ExtrinsicClassification)
    (events : option ExtrinsicEvents) (pj : option EventProjection) : TxRow :=
  let shielded := if cl_isSystem c then Some false else if cl_isShielded c then Some true else None in
  MkTx (Z.of_nat i) (hashExtrinsic hex) (events ≫= ev_ledgerTxHash) (pb_protocolVersion prep) (hexToBase64 hex)
    (if cl_isSystem c then "SYSTEM" else "REGULAR") (nullish (txTypeFromEvents events) (cl_txType c)) shielded
    (pj ≫= pj_senderAddress) (pj ≫= pj_receiverAddress) (pj ≫= pj_nightAmount) shielded
    (ce_address <$> (events ≫= λ e, head (ev_contracts e))) (buildCircuitName c) (extrinsicSize hex) (uuid BlockName) no_payload.

(** One extrinsic of the loop. *)
Definition add_extrinsic (prep : PreparedBlock) (projections : list (Z * EventProjection)) (acc : BlockRows)
    (ih : nat * string) : BlockRows :=
  let '(i, hex) := ih in
  let txId := uuid (TxName i) in
  let c := classifyExtrinsic hex (pb_palletMap prep) in
  let events := pb_extrinsicEvents prep ≫= map_get (Z.of_nat i) in
  let pj := map_get (Z.of_nat i) projections in
  let row := tx_row prep i hex c events pj in
  let created := match pj with Some p => pj_created p | None => [] end in
  let spent := match pj with Some p => pj_spent p | None => [] end in
  let deltas := foldl credit (br_deltas acc) created in
  let deltas := match counts_sent (t_senderAddress row) (t_receiverAddress row) (t_nightAmount row) with
                | Some (s, amount) => change_delta s (sent amount) deltas
                | None => deltas
                end in
  MkRows (br_txs acc ++ [(txId, row)])
    (br_results acc ++ match outcomeFor events with
                       | Some o => [(uuid (ResultName i), MkTxResult (outcome_text o) (Some "substrate-system-events") (Some txId))]
                       | None => []
                       end)
    (br_fees acc ++ [(uuid (FeeName i), MkFee 0 0 (Some txId))])
    (br_actions acc ++ imap (λ k a, (uuid (ActionName i k),
       MkAction (Z.of_nat k) a.2 (action_text a.1) (buildCircuitName c) (Some txId))) (contractActionsFor events c))
    (br_utxos acc ++ imap (λ k u, (uuid (UtxoName i k), utxo_row txId u)) created)
    (br_spends acc ++ ((λ s : string * Z, MkSpend s.1 s.2 txId) <$> spent))
    deltas.

Definition block_rows (prep : PreparedBlock) (projections : list (Z * EventProjection)) : BlockRows :=
  foldl (add_extrinsic prep projections) no_rows (imap pair (sb_extrinsics (pb_signedBlock prep))).

(** ** Statements *)

(** [INSERT.into(t).entries(rows)] *)
Definition sql_insert {R} (rows : list (string * R)) (t : gmap string R) : gmap string R :=
  foldl (λ t (kr : string * R), <[kr.1 := kr.2]> t) t rows.

Definition with_blocks (t : gmap string BlockRow) (d : IndexDb) : IndexDb :=
  MkIndexDb t (ix_transactions d) (ix_contractActions d) (ix_contractBalances d) (ix_contractStates d) (ix_utxos d)
    (ix_zswapEvents d) (ix_dustEvents d) (ix_fees d) (ix_results d) (ix_segments d) (ix_identifiers d)
    (ix_nightBalances d) (ix_sync d) (ix_main d).

(** The rows of the block's transactions and what belongs to them. *)
Definition insert_rows (r : BlockRows) (d : IndexDb) : IndexDb :=
  MkIndexDb (ix_blocks d) (sql_insert (br_txs r) (ix_transactions d)) (sql_insert (br_actions r) (ix_contractActions d))
    (ix_contractBalances d) (ix_contractStates d) (sql_insert (br_utxos r) (ix_utxos d)) (ix_zswapEvents d)
    (ix_dustEvents d) (sql_insert (br_fees r) (ix_fees d)) (sql_insert (br_results r) (ix_results d)) (ix_segments d)
    (ix_identifiers d) (ix_nightBalances d) (ix_sync d) (ix_main d).

Definition utxo_key (u : UtxoRow) : string * Z := (u_intentHash u, u_outputIndex u).

(** The ledger's name of a created output is unique in the table. *)
Definition utxos_clash (rows : list (string * UtxoRow)) (t : gmap string UtxoRow) : bool :=
  negb (bool_decide (NoDup ((λ r, utxo_key r.2) <$> rows))) ||
  existsb (λ r, bool_decide (utxo_key r.2 ∈ (λ kr, utxo_key kr.2) <$> map_to_list t)) rows.

Definition insert_all (r : BlockRows) : M IndexDb unit :=
  statement "INSERT Transactions" (statement "INSERT TransactionResults" (statement "INSERT TransactionFees"
    (statement "INSERT ContractActions" (statement "INSERT UnshieldedUtxos" (λ d,
      if utxos_clash (br_utxos r) (ix_utxos d) then (Throw unique_violation, d) else (Ret tt, insert_rows r d)))))).

(** ** Spends *)

Definition SPEND_LOOKUP_CHUNK : nat := 500.

Definition spend_key (intentHash : string) (outputIndex : Z) : string := intentHash ++ "#" ++ pretty outputIndex.

(** The outputs a block may spend, by their name. *)
Definition spendable (spends : list SpendRequest) (d : IndexDb) : list (string * (string * UtxoRow)) :=
  let hashes := js_set (sp_intentHash <$> spends) in
  let rows := concat ((λ c, sql_select (λ _ u, bool_decide (u_intentHash u ∈ c)) (ix_utxos d)) <$>
                      chunks SPEND_LOOKUP_CHUNK hashes) in
  foldl (λ m (r : string * UtxoRow), map_set (spend_key (u_intentHash r.2) (u_outputIndex r.2)) r m) [] rows.

Record Spending := MkSpending {
  ss_byKey : list (string * (string * UtxoRow)); ss_spentBy : list (string * list string); ss_deltas : Deltas }.

Definition apply_spend (s : Spending) (spend : SpendRequest) : Spending :=
  let key := spend_key (sp_intentHash spend) (sp_outputIndex spend) in
  match map_get key (ss_byKey s) with
  | None => s
  | Some (id, row) =>
      match present (u_spentAtTransaction row) with
      | Some _ => s
      | None =>
          MkSpending (map_set key (id, set_spent (Some (sp_txId spend)) row) (ss_byKey s))
            (map_set (sp_txId spend) (nullish (map_get (sp_txId spend) (ss_spentBy s)) [] ++ [id])%list (ss_spentBy s))
            (if bool_decide (u_tokenType row = NIGHT_RAW_TOKEN_TYPE)
             then change_delta (u_owner row) (spent_utxo (toBigInt (column (Some (u_value row))))) (ss_deltas s)
             else ss_deltas s)
      end
  end.

Definition mark_spent (d : IndexDb) (e : string * list string) : IndexDb :=
  with_utxos (sql_update (λ k _, bool_decide (k ∈ e.2)) (set_spent (Some e.1)) (ix_utxos d)).1 d.

Definition spending (spends : list SpendRequest) (deltas : Deltas) (d : IndexDb) : Spending :=
  foldl apply_spend (MkSpending (spendable spends d) [] deltas) spends.

Definition applySpends (spends : list SpendRequest) (deltas : Deltas) : M IndexDb Deltas :=
  match spends with
  | [] => mret deltas
  | _ => statement "SELECT UnshieldedUtxos" (statement "UPDATE UnshieldedUtxos" (λ d,
           let s := spending spends deltas d in (Ret (ss_deltas s), foldl mark_spent d (ss_spentBy s))))
  end.

(** ** Balances *)

Definition fresh_balance (delta : BalanceDelta) (height : Z) : NightBalance :=
  MkNightBalance (dl_balance delta) (dl_utxoCount delta) (dl_txSentCount delta) (dl_txReceivedCount delta)
    (dl_totalSent delta) (dl_totalReceived delta) (Some height) (Some now) (Some height) (Some now) None (Some false)
    (Some height) (Some now).

(** [Number(null)] is 0, which is finite. *)
Definition moved_balance (b : NightBalance) (delta : BalanceDelta) (height : Z) : NightBalance :=
  MkNightBalance (toBigInt (column (Some (nb_balance b))) + dl_balance delta)
    (toInt (JInt (nb_utxoCount b)) + dl_utxoCount delta)
    (toInt (JInt (nb_txSentCount b)) + dl_txSentCount delta)
    (toInt (JInt (nb_txReceivedCount b)) + dl_txReceivedCount delta)
    (toBigInt (column (Some (nb_totalSent b))) + dl_totalSent delta)
    (toBigInt (column (Some (nb_totalReceived b))) + dl_totalReceived delta)
    (Some (Z.min (nullish (nb_firstSeenHeight b) 0%Z) height)) (nb_firstSeenAt b) (Some height) (Some now)
    (nb_dustAddress b) (nb_isDustRegistered b) (Some height) (Some now).

Definition applyBalanceDelta (address : string) (delta : BalanceDelta) (height : Z) (d : IndexDb) : IndexDb :=
  with_nightBalances
    (<[address := match ix_nightBalances d !! address with
                  | None => fresh_balance delta height
                  | Some existing => moved_balance existing delta height
                  end]> (ix_nightBalances d)) d.

Definition apply_deltas (deltas : Deltas) (height : Z) (d : IndexDb) : IndexDb :=
  foldl (λ d (e : string * BalanceDelta), applyBalanceDelta e.1 e.2 height d) d deltas.

(** ** The block *)

Definition ProducerOf : Type := option string * option Z.

Definition indexed_sync (height : Z) (hash : string) (s : SyncCols) : SyncCols :=
  MkSync (Some height) (Some hash) (Some now) (sy_lastDecodedHeight s) (sy_lastSupplementedHeight s) "syncing"
    (sy_syncProgress s).

(** [SELECT.one.from(Blocks).where({ hash })]: the hash is unique. *)
Definition block_by_hash (hash : string) (d : IndexDb) : option string :=
  fst <$> head (sql_select (λ _ b, bool_decide (b_hash b = hash)) (ix_blocks d)).

Definition orphan (parentHash : string) (height : Z) : exn :=
  js_error ("Parent block " ++ parentHash ++ " of block " ++ pretty height ++
            " is not indexed; refusing to persist an orphan (index gap)").

Definition blockExists (hash : string) : M IndexDb bool :=
  statement "SELECT Blocks" (λ d, (Ret (bool_decide (is_Some (block_by_hash hash d))), d)).

Definition block_row (prep : PreparedBlock) (producer : ProducerOf) (parent : option string) : BlockRow :=
  MkBlock (pb_blockHash prep) (pb_height prep) (pb_protocolVersion prep) (pb_timestamp prep) producer.1 producer.2
    (Some (hd_stateRoot (sb_header (pb_signedBlock prep)))) (present parent).

(** The body of the transaction. *)
Definition persist_tx (prep : PreparedBlock) (projections : list (Z * EventProjection)) (producer : ProducerOf)
    (requireParent : bool) : M IndexDb unit :=
  let header := sb_header (pb_signedBlock prep) in
  let height := pb_height prep in
  parentBlock ← statement "SELECT parent" (λ d, (Ret (block_by_hash (hd_parentHash header) d), d));
  if requireParent && bool_decide (0 < height)%Z && bool_decide (parentBlock = None)
  then throw (orphan (hd_parentHash header) height)
  else
    _ ← statement "INSERT Blocks" (λ d,
          if bool_decide (is_Some (block_by_hash (pb_blockHash prep) d)) then (Throw unique_violation, d)
          else (Ret tt, with_blocks (<[uuid BlockName := block_row prep producer parentBlock]> (ix_blocks d)) d));
    let rows := block_rows prep projections in
    _ ← insert_all rows;
    deltas ← applySpends (br_spends rows) (br_deltas rows);
    _ ← statement "UPDATE NightBalances" (λ d, (Ret tt, apply_deltas deltas height d));
    statement "UPDATE SyncState" (λ d,
      (Ret tt, if bool_decide (is_Some (Schema.reorgGeneration (ix_main d)))
               then with_sync (indexed_sync height (pb_blockHash prep) (ix_sync d)) d else d)).

Record ProcessResult := MkResult {
  ps_blockHeight : Z; ps_blockHash : string; ps_transactionCount : nat; ps_contractActionCount : nat }.

Definition persistFromNode (prep : PreparedBlock) (projections : list (Z * EventProjection)) (producer : ProducerOf)
    (requireParent : bool) : M IndexDb ProcessResult :=
  written ← try_catch (_ ← tx (persist_tx prep projections producer requireParent); mret true)
    (λ err, if isUniqueViolation err
            then exists_ ← blockExists (pb_blockHash prep); if exists_ : bool then mret false else throw err
            else throw err);
  let rows := block_rows prep projections in
  mret (if written : bool
        then MkResult (pb_height prep) (pb_blockHash prep) (length (br_txs rows)) (length (br_actions rows))
        else MkResult (pb_height prep) (pb_blockHash prep) 0 0).

End Persist.
