(* ===== verification/PersistFacts.v ===== *)
(** The tables after a block is stored. *)
From Stdlib Require Import Ascii.
From S2P Require Import Prelude Db Json Retry Numbers Schema Scale Reconciliation Rollback RollbackFacts BalanceCheck.
From S2P Require Import BlockEvents NodeRpc BlockProcessor.

Set Warnings "-register-all".

Local Open Scope string_scope.
Local Open Scope list_scope.

(** ** Inserted rows *)

Lemma lookup_sql_insert {R} (rows : list (string * R)) t k :
  NoDup rows.*1 → sql_insert rows t !! k = match map_get k rows with Some r => Some r | None => t !! k end.
Proof.
  revert t. induction rows as [|[k' r] rows IH]; intros t Hnd; [done|]. cbn [fmap list_fmap fst] in Hnd.
  apply NoDup_cons in Hnd as [Hn Hnd]. cbn [sql_insert foldl fst snd]. fold (sql_insert rows (<[k' := r]> t)).
  rewrite IH by done. cbn [map_get]. case_decide as Hk.
  - subst k'. rewrite (proj2 (map_get_None k rows)) by done. apply lookup_insert_eq.
  - destruct (map_get k rows); [done|]. by apply lookup_insert_ne.
Qed.

Lemma sql_insert_Some {R} (rows : list (string * R)) t k r :
  NoDup rows.*1 → (∀ k r, (k, r) ∈ rows → t !! k = None) →
  sql_insert rows t !! k = Some r ↔ t !! k = Some r ∨ (k, r) ∈ rows.
Proof.
  intros Hnd Hf. rewrite lookup_sql_insert by done. destruct (map_get k rows) as [r'|] eqn:E.
  - apply map_get_In in E as Hin. split.
    + intros [= <-]. by right.
    + intros [Ht|Hr]; [by rewrite (Hf _ _ Hin) in Ht|]. apply map_get_Some_NoDup in Hr; [congruence|done].
  - split; [by left|]. intros [?|Hin]; [done|]. apply map_get_Some_NoDup in Hin; [congruence|done].
Qed.

(** ** Sums over tables *)

Definition sum_of {A} (f : A → Z) (l : list A) : Z := sum (f <$> l).

Lemma sum_of_nil {A} (f : A → Z) : sum_of f [] = 0%Z.
Proof. done. Qed.

Lemma sum_of_cons {A} (f : A → Z) x l : sum_of f (x :: l) = (f x + sum_of f l)%Z.
Proof. done. Qed.

Lemma sum_app l l' : sum (l ++ l') = (sum l + sum l')%Z.
Proof. unfold sum. induction l as [|x l IH]; simpl; [done|]. rewrite IH. lia. Qed.

Lemma sum_of_app {A} (f : A → Z) l l' : sum_of f (l ++ l') = (sum_of f l + sum_of f l')%Z.
Proof. unfold sum_of. by rewrite fmap_app, sum_app. Qed.

#[export] Instance sum_of_perm {A} (f : A → Z) : Proper ((≡ₚ) ==> (=)) (sum_of f).
Proof. intros l l' Hp. unfold sum_of. apply sum_perm. by apply fmap_Permutation. Qed.

Lemma sum_of_filter {A} (P : A → Prop) `{∀ x, Decision (P x)} (f : A → Z) l :
  sum_of f (filter P l) = sum_of (λ x, if bool_decide (P x) then f x else 0%Z) l.
Proof.
  induction l as [|x l IH]; [done|]. rewrite filter_cons, (sum_of_cons _ x l). destruct (decide (P x)) as [Hx|Hx].
  - rewrite bool_decide_eq_true_2 by done. by rewrite sum_of_cons, IH.
  - rewrite bool_decide_eq_false_2 by done. by rewrite IH.
Qed.

Lemma sum_of_ext {A} (f g : A → Z) l : (∀ x, x ∈ l → f x = g x) → sum_of f l = sum_of g l.
Proof.
  induction l as [|x l IH]; intros Hfg; [done|]. rewrite !sum_of_cons.
  rewrite (Hfg x) by apply list_elem_of_here. rewrite IH; [done|]. intros y Hy. by apply Hfg, list_elem_of_further.
Qed.

Lemma length_sum {A} (l : list A) : Z.of_nat (length l) = sum_of (λ _, 1%Z) l.
Proof. induction l as [|x l IH]; [done|]. rewrite sum_of_cons, <- IH. cbn [length]. lia. Qed.

(** What a table adds up to. *)
Definition total {R} (f : string * R → Z) (t : gmap string R) : Z := sum_of f (map_to_list t).

Lemma total_insert {R} (f : string * R → Z) (t : gmap string R) k r :
  t !! k = None → total f (<[k := r]> t) = (f (k, r) + total f t)%Z.
Proof. intros Hk. unfold total. rewrite map_to_list_insert by done. reflexivity. Qed.

Lemma total_change {R} (f : string * R → Z) (t : gmap string R) k r r' :
  t !! k = Some r → total f (<[k := r']> t) = (total f t - f (k, r) + f (k, r'))%Z.
Proof.
  intros Hk. rewrite <- (insert_delete_id t k r) at 2 by done. rewrite <- (insert_delete_eq t).
  rewrite !total_insert by apply lookup_delete_eq. lia.
Qed.

Lemma total_sql_insert {R} (f : string * R → Z) rows (t : gmap string R) :
  NoDup rows.*1 → (∀ k r, (k, r) ∈ rows → t !! k = None) →
  total f (sql_insert rows t) = (total f t + sum_of f rows)%Z.
Proof.
  revert t. induction rows as [|[k r] rows IH]; intros t Hnd Hf; [unfold sum_of; simpl; lia|].
  cbn [fmap list_fmap fst] in Hnd. apply NoDup_cons in Hnd as [Hn Hnd].
  change (sql_insert ((k, r) :: rows) t) with (sql_insert rows (<[k := r]> t)). rewrite IH; [|done|].
  - rewrite total_insert by (eapply Hf, list_elem_of_here). rewrite sum_of_cons. lia.
  - intros k' r' Hin. rewrite lookup_insert_ne; [by eapply Hf, list_elem_of_further|].
    intros <-. apply Hn, list_elem_of_fmap. by exists (k, r').
Qed.

Section Select.
Context `{ScanOrder}.

Lemma sum_select {R} (w : string → R → bool) (f : string * R → Z) (t : gmap string R) :
  sum_of f (sql_select w t) = total (λ kr, if w kr.1 kr.2 then f kr else 0%Z) t.
Proof.
  unfold sql_select, total. rewrite sum_of_filter, (scan_perm t). apply sum_of_ext. intros kr _.
  by destruct (w kr.1 kr.2).
Qed.
End Select.

(** ** The rows of a block *)

Section Rows.
Variable blake2b : list Z → list Z.
Variable uuid : RowName → string.
Context (uuid_inj : Inj (=) (=) uuid).

(** The extrinsic a row belongs to. *)
Definition row_index (n : RowName) : nat :=
  match n with BlockName => 0 | TxName i | ResultName i | FeeName i | ActionName i _ | UtxoName i _ => i end.

(** Keys made from names of different extrinsics do not repeat. *)
Lemma NoDup_keys {A R} (idx : A → nat) (f : A → list (string * R)) (names : A → list RowName) l :
  (∀ x, (f x).*1 = uuid <$> names x) → (∀ x, NoDup (names x)) → (∀ x n, n ∈ names x → row_index n = idx x) →
  NoDup (idx <$> l) → NoDup (concat (f <$> l)).*1.
Proof.
  intros Hf Hn Hi Hl. induction l as [|x l IH]; [constructor|]. cbn [fmap list_fmap] in Hl. apply NoDup_cons in Hl as [Hx Hl].
  cbn [fmap list_fmap concat]. rewrite fmap_app. apply NoDup_app. split_and!.
  - rewrite Hf. apply NoDup_fmap_2; [done|apply Hn].
  - intros k Hk Hk'. rewrite Hf in Hk. apply list_elem_of_fmap in Hk as (n & -> & Hnx).
    apply list_elem_of_fmap in Hk' as (kr & Hk & Hin). apply list_elem_of_In, in_concat in Hin as (piece & Hp & Hin).
    apply list_elem_of_In, list_elem_of_fmap in Hp as (y & -> & Hy). apply list_elem_of_In in Hin.
    assert (uuid n ∈ (f y).*1) as Hky by (rewrite Hk; apply list_elem_of_fmap; by exists kr).
    rewrite Hf in Hky. apply list_elem_of_fmap in Hky as (m & Hm & Hmy). apply uuid_inj in Hm as ->.
    apply Hx, list_elem_of_fmap. exists y. split; [|done]. rewrite <- (Hi _ _ Hnx). by apply Hi.
  - by apply IH.
Qed.

Lemma elem_of_concat_fmap {A B} (f : A → list B) l b : b ∈ concat (f <$> l) ↔ ∃ x, x ∈ l ∧ b ∈ f x.
Proof.
  rewrite list_elem_of_In, in_concat. split.
  - intros (p & Hp & Hb). apply list_elem_of_In, list_elem_of_fmap in Hp as (x & -> & Hx). apply list_elem_of_In in Hb. by exists x.
  - intros (x & Hx & Hb). exists (f x). split; [|by apply list_elem_of_In]. apply list_elem_of_In, list_elem_of_fmap. by exists x.
Qed.

Section Block.
Context (prep : PreparedBlock) (projections : list (Z * EventProjection)).

Let add := add_extrinsic blake2b uuid prep projections.
(** What one extrinsic adds. *)
Let one (x : nat * string) : BlockRows := add no_rows x.

Lemma add_one acc x :
  br_txs (add acc x) = br_txs acc ++ br_txs (one x) ∧ br_results (add acc x) = br_results acc ++ br_results (one x) ∧
  br_fees (add acc x) = br_fees acc ++ br_fees (one x) ∧ br_actions (add acc x) = br_actions acc ++ br_actions (one x) ∧
  br_utxos (add acc x) = br_utxos acc ++ br_utxos (one x) ∧ br_spends (add acc x) = br_spends acc ++ br_spends (one x).
Proof. destruct x as [i hex]. done. Qed.

Lemma rows_concat l acc :
  let r := foldl add acc l in
  br_txs r = br_txs acc ++ concat ((λ x, br_txs (one x)) <$> l) ∧
  br_results r = br_results acc ++ concat ((λ x, br_results (one x)) <$> l) ∧
  br_fees r = br_fees acc ++ concat ((λ x, br_fees (one x)) <$> l) ∧
  br_actions r = br_actions acc ++ concat ((λ x, br_actions (one x)) <$> l) ∧
  br_utxos r = br_utxos acc ++ concat ((λ x, br_utxos (one x)) <$> l) ∧
  br_spends r = br_spends acc ++ concat ((λ x, br_spends (one x)) <$> l).
Proof.
  revert acc. induction l as [|x l IH]; intros acc; cbn zeta; [split_and!; symmetry; apply app_nil_r|].
  destruct (add_one acc x) as (H1 & H2 & H3 & H4 & H5 & H6).
  destruct (IH (add acc x)) as (I1 & I2 & I3 & I4 & I5 & I6). cbn [foldl fmap list_fmap concat].
  by rewrite I1, I2, I3, I4, I5, I6, H1, H2, H3, H4, H5, H6, <- !app_assoc.
Qed.

Let exts := imap pair (sb_extrinsics (pb_signedBlock prep)).
Let rows := block_rows blake2b uuid prep projections.

Lemma rows_pieces :
  br_txs rows = concat ((λ x, br_txs (one x)) <$> exts) ∧ br_results rows = concat ((λ x, br_results (one x)) <$> exts) ∧
  br_fees rows = concat ((λ x, br_fees (one x)) <$> exts) ∧ br_actions rows = concat ((λ x, br_actions (one x)) <$> exts) ∧
  br_utxos rows = concat ((λ x, br_utxos (one x)) <$> exts) ∧ br_spends rows = concat ((λ x, br_spends (one x)) <$> exts).
Proof. apply (rows_concat exts no_rows). Qed.

Lemma exts_NoDup : NoDup (fst <$> exts).
Proof.
  unfold exts. assert (∀ {A} (l : list A), fst <$> imap pair l = seq 0 (length l)) as ->.
  { intros A l. apply list_eq. intros i. rewrite list_lookup_fmap, list_lookup_imap.
    destruct (l !! i) as [x|] eqn:El; simpl.
    - symmetry. apply lookup_seq. split; [lia|]. by eapply lookup_lt_Some.
    - symmetry. apply lookup_seq_ge. by apply lookup_ge_None. }
  apply NoDup_seq.
Qed.

Lemma one_txs x : (br_txs (one x)).*1 = uuid <$> [TxName x.1].
Proof. by destruct x. Qed.

Lemma one_utxos x : (br_utxos (one x)).*1 = uuid <$> imap (λ k _, UtxoName x.1 k)
  (match map_get (Z.of_nat x.1) projections with Some p => pj_created p | None => [] end).
Proof. destruct x as [i hex]. cbn [one add add_extrinsic br_utxos no_rows app fst]. by rewrite !fmap_imap. Qed.

Lemma block_keys :
  NoDup (br_txs rows).*1 ∧ NoDup (br_results rows).*1 ∧ NoDup (br_fees rows).*1 ∧ NoDup (br_actions rows).*1 ∧
  NoDup (br_utxos rows).*1.
Proof.
  destruct rows_pieces as (-> & -> & -> & -> & -> & _). pose proof exts_NoDup.
  assert (∀ {A} (f : nat → RowName) (l : list A), Inj (=) (=) f → NoDup (imap (λ k _, f k) l)) as Hnd.
  { intros A f l Hf. apply NoDup_alt. intros i j n. rewrite !list_lookup_imap.
    destruct (l !! i), (l !! j); simpl; [|done|done|done]. intros [= <-] [= Hij]. by apply Hf in Hij. }
  split_and!.
  - apply (NoDup_keys fst _ (λ x, [TxName x.1])); [apply one_txs|intros; apply NoDup_singleton|set_solver|done].
  - apply (NoDup_keys fst _ (λ x, match outcomeFor (pb_extrinsicEvents prep ≫= map_get (Z.of_nat x.1)) with
                                   Some _ => [ResultName x.1] | None => [] end)); [| | |done].
    + intros [i hex]. unfold one, add, add_extrinsic. cbn [br_results no_rows app fst]. by destruct (outcomeFor _).
    + intros x. destruct (outcomeFor _); [apply NoDup_singleton|constructor].
    + intros x n. destruct (outcomeFor _); set_solver.
  - apply (NoDup_keys fst _ (λ x, [FeeName x.1])); [by intros []|intros; apply NoDup_singleton|set_solver|done].
  - apply (NoDup_keys fst _ (λ x, imap (λ k _, ActionName x.1 k)
      (contractActionsFor (pb_extrinsicEvents prep ≫= map_get (Z.of_nat x.1)) (classifyExtrinsic x.2 (pb_palletMap prep))))); [| | |done].
    + intros [i hex]. unfold one, add, add_extrinsic. cbn [br_actions no_rows app fst snd]. by rewrite !fmap_imap.
    + intros x. apply Hnd. by intros ? ? [= ->].
    + intros x n Hin. apply elem_of_lookup_imap in Hin as (k & y & -> & _). done.
  - apply (NoDup_keys fst _ (λ x, imap (λ k _, UtxoName x.1 k)
      (match map_get (Z.of_nat x.1) projections with Some p => pj_created p | None => [] end))); [apply one_utxos| | |done].
    + intros x. apply Hnd. by intros ? ? [= ->].
    + intros x n Hin. apply elem_of_lookup_imap in Hin as (k & y & -> & _). done.
Qed.

(** What the rows of the block refer to. *)
Lemma block_txs k t : (k, t) ∈ br_txs rows → ∃ i, k = uuid (TxName i) ∧ t_block t = uuid BlockName.
Proof.
  destruct rows_pieces as (-> & _). intros Hin. apply elem_of_concat_fmap in Hin as ([i hex] & _ & Hin).
  cbn [one add add_extrinsic br_txs no_rows app] in Hin. apply list_elem_of_singleton in Hin. simplify_eq. eauto.
Qed.

Lemma block_tx_listed i hex : (i, hex) ∈ exts → ∃ t, (uuid (TxName i), t) ∈ br_txs rows.
Proof.
  intros Hin. destruct rows_pieces as (-> & _). eexists. apply elem_of_concat_fmap. exists (i, hex). split; [done|].
  cbn [one add add_extrinsic br_txs no_rows app]. apply list_elem_of_here.
Qed.

Definition new_tx (k : string) : Prop := ∃ t, (k, t) ∈ br_txs rows.

Lemma block_utxos k u : (k, u) ∈ br_utxos rows →
  ∃ i j, k = uuid (UtxoName i j) ∧ new_tx (u_createdAtTransaction u) ∧ u_spentAtTransaction u = None.
Proof.
  destruct rows_pieces as (_ & _ & _ & _ & -> & _). intros Hin. apply elem_of_concat_fmap in Hin as ([i hex] & Hx & Hin).
  cbn [one add add_extrinsic br_utxos no_rows app] in Hin. apply elem_of_lookup_imap in Hin as (j & p & [= -> ->] & _).
  exists i, j. split_and!; [done| |done]. by apply (block_tx_listed i hex).
Qed.

Lemma block_refs :
  (∀ k r, (k, r) ∈ br_results rows → ∃ i x, k = uuid (ResultName i) ∧ ref r = Some x ∧ new_tx x) ∧
  (∀ k r, (k, r) ∈ br_fees rows → ∃ i x, k = uuid (FeeName i) ∧ ref r = Some x ∧ new_tx x) ∧
  (∀ k r, (k, r) ∈ br_actions rows → ∃ i j x, k = uuid (ActionName i j) ∧ ref r = Some x ∧ new_tx x) ∧
  (∀ s, s ∈ br_spends rows → new_tx (sp_txId s)).
Proof.
  destruct rows_pieces as (_ & -> & -> & -> & _ & ->). split_and!; intros.
  all: match goal with Hin : _ ∈ _ |- _ => apply elem_of_concat_fmap in Hin as ([i hex] & Hx & Hin) end.
  all: pose proof (block_tx_listed i hex Hx) as Hn; fold (new_tx (uuid (TxName i))) in Hn.
  - cbn [one add add_extrinsic br_results no_rows app] in *. destruct (outcomeFor _); [|set_solver].
    exists i, (uuid (TxName i)). match goal with Hin : _ ∈ _ |- _ => apply list_elem_of_singleton in Hin; simplify_eq end. done.
  - cbn [one add add_extrinsic br_fees no_rows app] in *.
    exists i, (uuid (TxName i)). match goal with Hin : _ ∈ [_] |- _ => apply list_elem_of_singleton in Hin; simplify_eq end. done.
  - cbn [one add add_extrinsic br_actions no_rows app] in *.
    match goal with Hin : _ ∈ imap _ _ |- _ => apply elem_of_lookup_imap in Hin as (j & a & ? & _); simplify_eq end.
    exists i, j, (uuid (TxName i)). done.
  - cbn [one add add_extrinsic br_spends no_rows app] in *.
    match goal with Hin : _ ∈ _ <$> _ |- _ => apply list_elem_of_fmap in Hin as (? & -> & _) end. done.
Qed.
End Block.
End Rows.
