(* ===== verification/BalanceUpdates.v ===== *)
(** Storing a block moves every balance to what the index then says: the deltas
    of BlockProcessor add up to what rollback.ts would compute from the rows. *)
From Stdlib Require Import Ascii.
From S2P Require Import Prelude Db Json Retry Numbers Schema Scale Reconciliation Rollback RollbackFacts BalanceCheck.
From S2P Require Import BlockEvents NodeRpc BlockProcessor PersistFacts.

Set Warnings "-register-all".

Local Open Scope string_scope.
Local Open Scope list_scope.

(** ** Deltas *)

Definition delta_of (a : string) (m : Deltas) : BalanceDelta := nullish (map_get a m) emptyBalanceDelta.
Definition in_deltas (a : string) (m : Deltas) : Prop := is_Some (map_get a m).

Lemma delta_change a b f m : delta_of a (change_delta b f m) = if decide (b = a) then f (delta_of a m) else delta_of a m.
Proof.
  unfold delta_of, change_delta. destruct (decide (b = a)) as [->|Hne]; [by rewrite map_get_set_eq|by rewrite map_get_set_ne].
Qed.

Lemma in_deltas_change a b f m : in_deltas a (change_delta b f m) ↔ b = a ∨ in_deltas a m.
Proof.
  unfold in_deltas, change_delta. destruct (decide (b = a)) as [->|Hne].
  - rewrite map_get_set_eq. split; [by left|done].
  - rewrite map_get_set_ne by done. naive_solver.
Qed.

(** A NIGHT output of an address, and a transaction that counts as sent by it. *)
Definition mine (a : string) (u : UtxoRow) : bool :=
  bool_decide (u_owner u = a) && bool_decide (u_tokenType u = NIGHT_RAW_TOKEN_TYPE).
Definition sent_by (a : string) (t : TxRow) : bool :=
  bool_decide (t_senderAddress t = Some a) && counts_as_sent a t.
Definition free (u : UtxoRow) : bool := bool_decide (present (u_spentAtTransaction u) = None).

Definition when (b : bool) (x : Z) : Z := if b then x else 0%Z.

(** What a row adds to the figures of an address. *)
Definition fval a (ku : string * UtxoRow) : Z := when (mine a ku.2) (u_value ku.2).
Definition fone a (ku : string * UtxoRow) : Z := when (mine a ku.2) 1.
Definition gval a (ku : string * UtxoRow) : Z := when (mine a ku.2 && free ku.2) (u_value ku.2).
Definition gone a (ku : string * UtxoRow) : Z := when (mine a ku.2 && free ku.2) 1.
Definition sval a (kt : string * TxRow) : Z := when (sent_by a kt.2) (nullish (t_nightAmount kt.2) 0%Z).
Definition sone a (kt : string * TxRow) : Z := when (sent_by a kt.2) 1.

Lemma sum_of_imap {A B} (f : B → Z) (g : nat → A → B) (h : A → Z) l :
  (∀ k x, f (g k x) = h x) → sum_of f (imap g l) = sum_of h l.
Proof.
  revert g. induction l as [|x l IH]; intros g Hg; [done|]. cbn [imap]. rewrite !sum_of_cons, Hg. f_equal.
  apply IH. intros k y. apply Hg.
Qed.

Lemma sum_nonneg {A} (f : A → Z) l : (∀ x, (0 ≤ f x)%Z) → (0 ≤ sum_of f l)%Z.
Proof. intros Hf. induction l as [|x l IH]; [done|]. rewrite sum_of_cons. specialize (Hf x). lia. Qed.

Section Credit.
Variable a : string.

Definition pval (p : PreparedUtxo) : Z :=
  when (bool_decide (pu_owner p = a) && bool_decide (pu_tokenType p = NIGHT_RAW_TOKEN_TYPE)) (pu_value p).
Definition pone (p : PreparedUtxo) : Z :=
  when (bool_decide (pu_owner p = a) && bool_decide (pu_tokenType p = NIGHT_RAW_TOKEN_TYPE)) 1.

Definition add_received (v n : Z) (d : BalanceDelta) : BalanceDelta :=
  MkDelta (dl_balance d + v) (dl_utxoCount d + n) (dl_totalReceived d + v) (dl_txReceivedCount d + n)
    (dl_totalSent d) (dl_txSentCount d).

Lemma credit_one m p : delta_of a (credit m p) = add_received (pval p) (pone p) (delta_of a m).
Proof.
  unfold credit, pval, pone. case_bool_decide as Ht.
  - rewrite delta_change. destruct (decide (pu_owner p = a)) as [->|Hne].
    + by rewrite bool_decide_eq_true_2.
    + rewrite bool_decide_eq_false_2 by done. destruct (delta_of a m). unfold add_received. simpl. f_equal; lia.
  - rewrite andb_false_r. destruct (delta_of a m). unfold add_received. simpl. f_equal; lia.
Qed.

Lemma credit_all l m : delta_of a (foldl credit m l) = add_received (sum_of pval l) (sum_of pone l) (delta_of a m).
Proof.
  revert m. induction l as [|p l IH]; intros m.
  - cbn [foldl]. rewrite !sum_of_nil. destruct (delta_of a m). unfold add_received. simpl. f_equal; lia.
  - cbn [foldl]. rewrite IH, credit_one, !sum_of_cons. unfold add_received. simpl. f_equal; lia.
Qed.

Lemma credited l m : in_deltas a (foldl credit m l) ↔
  in_deltas a m ∨ ∃ p, p ∈ l ∧ pu_owner p = a ∧ pu_tokenType p = NIGHT_RAW_TOKEN_TYPE.
Proof.
  revert m. induction l as [|p l IH]; intros m; cbn [foldl].
  - split; [by left|]. intros [?|(p & Hp & _)]; [done|]. by apply not_elem_of_nil in Hp.
  - rewrite IH. unfold credit. case_bool_decide as Ht.
    + rewrite in_deltas_change. setoid_rewrite elem_of_cons. naive_solver.
    + setoid_rewrite elem_of_cons. naive_solver.
Qed.
End Credit.

Lemma sent_counted a t s amount : a ≠ EmptyString →
  counts_sent (t_senderAddress t) (t_receiverAddress t) (t_nightAmount t) = Some (s, amount) →
  sent_by a t = bool_decide (s = a) ∧ amount = nullish (t_nightAmount t) 0%Z.
Proof.
  intros Ha. unfold counts_sent, sent_by, counts_as_sent.
  destruct (present (t_senderAddress t)) as [s'|] eqn:Es; [|done]. destruct (present (t_receiverAddress t)) as [r|]; [|done].
  apply present_Some in Es as [-> _]. rewrite toBigInt_column.
  destruct (negb (bool_decide (r = s')) && _) eqn:Ec; [|done]. intros [= <- <-]. split; [|done].
  destruct (decide (s' = a)) as [->|Hne].
  - rewrite (bool_decide_eq_true_2 (Some a = Some a)), (bool_decide_eq_true_2 (a = a)) by done. exact Ec.
  - rewrite (bool_decide_eq_false_2 (Some s' = Some a)), (bool_decide_eq_false_2 (s' = a)) by congruence. done.
Qed.

Lemma not_sent_counted a t : a ≠ EmptyString →
  counts_sent (t_senderAddress t) (t_receiverAddress t) (t_nightAmount t) = None → sent_by a t = false.
Proof.
  intros Ha. unfold counts_sent, sent_by, counts_as_sent. destruct (decide (t_senderAddress t = Some a)) as [Hs|Hs]; [|by rewrite (bool_decide_eq_false_2 (t_senderAddress t = Some a))].
  rewrite (bool_decide_eq_true_2 (t_senderAddress t = Some a)), Hs by done.
  assert (present (Some a) = Some a) as -> by (by apply present_Some).
  destruct (present (t_receiverAddress t)) as [r|]; [|done]. rewrite toBigInt_column. by destruct (negb _ && _).
Qed.

Section Deltas.
Variable blake2b : list Z → list Z.
Variable uuid : RowName → string.
Context (prep : PreparedBlock) (projections : list (Z * EventProjection)) (a : string) (Ha : a ≠ EmptyString).

(** The deltas of the rows collected so far. *)
Definition accounted (r : BlockRows) : Prop :=
  delta_of a (br_deltas r) =
    MkDelta (sum_of (fval a) (br_utxos r)) (sum_of (fone a) (br_utxos r)) (sum_of (fval a) (br_utxos r))
      (sum_of (fone a) (br_utxos r)) (sum_of (sval a) (br_txs r)) (sum_of (sone a) (br_txs r)) ∧
  (in_deltas a (br_deltas r) ↔
     (∃ ku, ku ∈ br_utxos r ∧ mine a ku.2 = true) ∨ (∃ kt, kt ∈ br_txs r ∧ sent_by a kt.2 = true)).

Lemma add_accounted acc x : accounted acc → accounted (add_extrinsic blake2b uuid prep projections acc x).
Proof.
  intros [Hd Hi]. destruct x as [i hex]. unfold add_extrinsic.
  set (c := classifyExtrinsic hex (pb_palletMap prep)).
  set (row := tx_row blake2b uuid prep i hex c _ _).
  set (created := match map_get (Z.of_nat i) projections with Some p => pj_created p | None => [] end).
  unfold accounted. cbn [br_deltas br_utxos br_txs]. rewrite !sum_of_app.
  rewrite (sum_of_imap (fval a) _ (pval a)), (sum_of_imap (fone a) _ (pone a)) by done.
  set (m := foldl credit (br_deltas acc) created).
  assert (delta_of a m = add_received (sum_of (pval a) created) (sum_of (pone a) created) (delta_of a (br_deltas acc))) as Hm
    by apply credit_all.
  assert (in_deltas a m ↔ (∃ ku, ku ∈ br_utxos acc ++ imap (λ k u, (uuid (UtxoName i k), utxo_row (uuid (TxName i)) u)) created
      ∧ mine a ku.2 = true) ∨ (∃ kt, kt ∈ br_txs acc ∧ sent_by a kt.2 = true)) as Him.
  { unfold m. rewrite credited, Hi. setoid_rewrite elem_of_app. split.
    - intros [[(ku & Hku & Hmi)|?]|(p & Hp & Ho & Ht)]; [left; eauto|by right|left].
      apply list_elem_of_lookup in Hp as (k & Hp). exists (uuid (UtxoName i k), utxo_row (uuid (TxName i)) p). split.
      + right. apply elem_of_lookup_imap. eauto.
      + unfold mine. simpl. by rewrite !bool_decide_eq_true_2.
    - intros [(ku & [Hku|Hku] & Hmi)|?]; [left; left; eauto| |left; by right]. right.
      apply elem_of_lookup_imap in Hku as (k & p & -> & Hp). exists p. split; [by eapply list_elem_of_lookup_2|].
      unfold mine in Hmi. simpl in Hmi. apply andb_prop in Hmi as [H1%bool_decide_eq_true_1 H2%bool_decide_eq_true_1]. done. }
  assert (∀ f, sum_of f [(uuid (TxName i), row)] = f (uuid (TxName i), row)) as Hs1 by (intros f; rewrite sum_of_cons, sum_of_nil; lia).
  rewrite !Hs1. unfold sval at 2. unfold sone at 2. cbn [snd].
  destruct (counts_sent _ _ _) as [[s amount]|] eqn:Ec.
  - destruct (sent_counted a _ _ _ Ha Ec) as [Hsb ->]. rewrite Hsb, delta_change, in_deltas_change, Hm, Hd, Him.
    setoid_rewrite (elem_of_app (br_txs acc)). setoid_rewrite list_elem_of_singleton. split.
    + destruct (decide (s = a)) as [->|Hne].
      * rewrite bool_decide_eq_true_2 by done. unfold sent, add_received. simpl. reflexivity.
      * rewrite bool_decide_eq_false_2 by done. unfold add_received. simpl. f_equal; lia.
    + split.
      * intros [->|[?|(kt & ? & ?)]]; [right|by left|right; eauto].
        exists (uuid (TxName i), row). split; [by right|]. simpl. rewrite Hsb. by apply bool_decide_eq_true_2.
      * intros [?|(kt & [?| ->] & Hsk)]; [right; by left|right; right; eauto|left]. simpl in Hsk. rewrite Hsb in Hsk.
        by apply bool_decide_eq_true_1 in Hsk.
  - pose proof (not_sent_counted a _ Ha Ec) as Hsb. rewrite Hsb, Hm, Hd, Him. split.
    + unfold add_received. simpl. f_equal; lia.
    + setoid_rewrite (elem_of_app (br_txs acc)). setoid_rewrite list_elem_of_singleton. split.
      * intros [?|(kt & ? & ?)]; [by left|right; eauto].
      * intros [?|(kt & [?| ->] & Hsk)]; [by left|right; eauto|]. simpl in Hsk. congruence.
Qed.

Lemma block_accounted : accounted (block_rows blake2b uuid prep projections).
Proof.
  unfold block_rows. set (l := imap pair _). assert (accounted no_rows) as Hn.
  { split; [done|]. split; [by intros [? ?]|]. intros [(ku & Hk & _)|(kt & Hk & _)]; by apply not_elem_of_nil in Hk. }
  revert Hn. generalize no_rows. induction l as [|x l IH]; intros acc Hacc; [done|]. apply IH. by apply add_accounted.
Qed.
End Deltas.

(** ** Spends *)

Section Marks.

(** The transaction a list of updates marks an output with; a later one wins. *)
Fixpoint marked (l : list (string * list string)) (k : string) : option string :=
  match l with
  | [] => None
  | e :: l' => match marked l' k with
               | Some x => Some x
               | None => if bool_decide (k ∈ e.2) then Some e.1 else None
               end
  end.

Definition mark (x : option string) (u : UtxoRow) : UtxoRow :=
  match x with Some tx => set_spent (Some tx) u | None => u end.

Lemma mark_lookup l d k :
  ix_utxos (foldl mark_spent d l) !! k = mark (marked l k) <$> ix_utxos d !! k.
Proof.
  revert d. induction l as [|e l IH]; intros d; cbn [foldl marked].
  - by destruct (ix_utxos d !! k).
  - rewrite IH. unfold mark_spent. cbn [ix_utxos with_utxos]. rewrite lookup_sql_update.
    destruct (ix_utxos d !! k) as [u|]; [|done]. cbn [fmap option_fmap option_map]. f_equal.
    by destruct (marked l k), (bool_decide (k ∈ e.2)).
Qed.

Lemma marked_set_ne l tx id k :
  k ≠ id → marked (map_set tx (nullish (map_get tx l) [] ++ [id]) l) k = marked l k.
Proof.
  intros Hne. induction l as [|[tx0 ids] l IH]; cbn [map_set map_get].
  - cbn [marked fst snd nullish app]. by rewrite bool_decide_eq_false_2 by set_solver.
  - destruct (decide (tx0 = tx)) as [->|Hx].
    + cbn [marked fst snd nullish]. destruct (marked l k); [done|].
      by rewrite (bool_decide_ext (k ∈ ids ++ [id]) (k ∈ ids)) by set_solver.
    + cbn [marked fst snd]. by rewrite IH.
Qed.

Lemma marked_set_eq l tx id :
  marked l id = None → marked (map_set tx (nullish (map_get tx l) [] ++ [id]) l) id = Some tx.
Proof.
  induction l as [|[tx0 ids] l IH]; cbn [map_set map_get].
  - intros _. cbn [marked fst snd nullish app]. by rewrite bool_decide_eq_true_2 by set_solver.
  - cbn [marked fst snd]. destruct (marked l id) eqn:El; [done|]. intros Hids. destruct (decide (tx0 = tx)) as [->|Hx].
    + cbn [marked fst snd nullish]. rewrite El. by rewrite bool_decide_eq_true_2 by set_solver.
    + cbn [marked fst snd]. by rewrite IH.
Qed.
End Marks.

Section Spends.
(** [Tx]: the transactions that spend. *)
Context `{ScanOrder} (d0 : IndexDb) (a : string) (deltas0 : Deltas).
Context (Tx : string → Prop) (Tx_id : ∀ x, Tx x → x ≠ EmptyString).

Let t0 := ix_utxos d0.

Definition tab (s : Spending) : gmap string UtxoRow :=
  map_imap (λ k u, Some (mark (marked (ss_spentBy s) k) u)) t0.

Lemma lookup_tab s k : tab s !! k = mark (marked (ss_spentBy s) k) <$> t0 !! k.
Proof. unfold tab. rewrite map_lookup_imap. by destruct (t0 !! k). Qed.

Lemma spendable_ok spends key id row :
  map_get key (spendable spends d0) = Some (id, row) →
  t0 !! id = Some row ∧ spend_key (u_intentHash row) (u_outputIndex row) = key.
Proof.
  unfold spendable. set (rows := concat _).
  assert (∀ r, r ∈ rows → t0 !! r.1 = Some r.2) as Hrows.
  { intros r Hr. unfold rows in Hr. apply elem_of_concat_fmap in Hr as (c & _ & Hr). destruct r as [k u].
    by apply elem_of_select in Hr as [Hr _]. }
  assert (∀ m, (∀ k r, map_get k m = Some r → t0 !! r.1 = Some r.2 ∧ spend_key (u_intentHash r.2) (u_outputIndex r.2) = k) →
    ∀ k r, map_get k (foldl (λ m (r : string * UtxoRow), map_set (spend_key (u_intentHash r.2) (u_outputIndex r.2)) r m) m rows) = Some r →
      t0 !! r.1 = Some r.2 ∧ spend_key (u_intentHash r.2) (u_outputIndex r.2) = k) as Hfold.
  { induction rows as [|r rows IH]; intros m Hm; [done|]. cbn [foldl]. apply IH.
    - intros r' Hr'. by apply Hrows, list_elem_of_further.
    - intros k r'. set (key' := spend_key (u_intentHash r.2) (u_outputIndex r.2)). destruct (decide (k = key')) as [->|Hne].
      + rewrite map_get_set_eq. intros [= <-]. split; [apply Hrows, list_elem_of_here|done].
      + rewrite map_get_set_ne by done. apply Hm. }
  intros Hg. by apply (Hfold [] ltac:(done) key (id, row)).
Qed.

(** What the loop over the spends keeps: [s] names the rows as they would be. *)
Record spending_inv (s : Spending) : Prop := {
  si_rows : ∀ key id row, map_get key (ss_byKey s) = Some (id, row) →
    tab s !! id = Some row ∧ spend_key (u_intentHash row) (u_outputIndex row) = key;
  si_marked : ∀ k x, marked (ss_spentBy s) k = Some x →
    Tx x ∧ ∃ u, t0 !! k = Some u ∧ present (u_spentAtTransaction u) = None;
  si_delta : delta_of a (ss_deltas s) =
    MkDelta (dl_balance (delta_of a deltas0) + (total (gval a) (tab s) - total (gval a) t0))
      (dl_utxoCount (delta_of a deltas0) + (total (gone a) (tab s) - total (gone a) t0))
      (dl_totalReceived (delta_of a deltas0)) (dl_txReceivedCount (delta_of a deltas0))
      (dl_totalSent (delta_of a deltas0)) (dl_txSentCount (delta_of a deltas0));
  si_in : in_deltas a (ss_deltas s) ↔
    in_deltas a deltas0 ∨ ∃ k u x, marked (ss_spentBy s) k = Some x ∧ t0 !! k = Some u ∧ mine a u = true }.

Lemma spending_start spends : spending_inv (MkSpending (spendable spends d0) [] deltas0).
Proof.
  assert (tab (MkSpending (spendable spends d0) [] deltas0) = t0) as Ht.
  { apply map_eq. intros k. rewrite lookup_tab. cbn [ss_spentBy marked mark]. by destruct (t0 !! k). }
  split; cbn [ss_byKey ss_spentBy ss_deltas].
  - intros key id row Hg. rewrite Ht. by eapply spendable_ok.
  - done.
  - rewrite Ht. destruct (delta_of a deltas0). simpl. f_equal; lia.
  - split; [by left|]. intros [?|(k & u & x & Hk & _)]; [done|]. done.
Qed.

Lemma apply_spend_inv s spend : Tx (sp_txId spend) → spending_inv s → spending_inv (apply_spend s spend).
Proof.
  intros Htx Hs. pose proof Hs as [Hr Hm Hd Hi]. unfold apply_spend.
  destruct (map_get _ (ss_byKey s)) as [[id row]|] eqn:Eg; [|done]. destruct (present (u_spentAtTransaction row)) eqn:Ep; [done|].
  destruct (Hr _ _ _ Eg) as [Hrow Hkey]. set (tx := sp_txId spend) in *.
  assert (marked (ss_spentBy s) id = None) as Hun.
  { destruct (marked (ss_spentBy s) id) as [x|] eqn:Em; [|done]. rewrite lookup_tab, Em in Hrow.
    destruct (Hm _ _ Em) as (Hx & u & Hu & _). rewrite Hu in Hrow. simplify_eq/=. unfold set_spent in Ep. simpl in Ep.
    assert (present (Some x) = Some x) as Hpx by (apply present_Some; auto). simpl in Hpx. congruence. }
  assert (t0 !! id = Some row) as Hid by (rewrite lookup_tab, Hun in Hrow; destruct (t0 !! id); naive_solver).
  set (s' := MkSpending _ _ _).
  assert (tab s' = <[id := set_spent (Some tx) row]> (tab s)) as Htab.
  { apply map_eq. intros k. rewrite lookup_tab. unfold s'. cbn [ss_spentBy]. destruct (decide (k = id)) as [->|Hne].
    - rewrite marked_set_eq by done. rewrite lookup_insert_eq, Hid. done.
    - rewrite marked_set_ne by done. rewrite lookup_insert_ne by done. by rewrite lookup_tab. }
  assert (free row = true) as Hfree by (by apply bool_decide_eq_true_2).
  assert (free (set_spent (Some tx) row) = false) as Hnfree.
  { apply bool_decide_eq_false_2. simpl. rewrite bool_decide_eq_false_2 by auto. done. }
  assert (mine a (set_spent (Some tx) row) = mine a row) as Hmine by done.
  split.
  - intros key id' row' Hg. rewrite Htab. unfold s' in Hg. cbn [ss_byKey] in Hg.
    set (key0 := spend_key (sp_intentHash spend) (sp_outputIndex spend)) in *. destruct (decide (key = key0)) as [->|Hne].
    + rewrite map_get_set_eq in Hg. simplify_eq. rewrite lookup_insert_eq. done.
    + rewrite map_get_set_ne in Hg by done. destruct (Hr _ _ _ Hg) as [Hrow' Hkey']. split; [|done].
      rewrite lookup_insert_ne; [done|]. intros <-. simplify_eq.
  - intros k x. unfold s'. cbn [ss_spentBy]. destruct (decide (k = id)) as [->|Hne].
    + rewrite marked_set_eq by done. intros [= <-]. eauto.
    + rewrite marked_set_ne by done. apply Hm.
  - rewrite Htab, !(total_change _ _ id row) by done.
    assert (gval a (id, row) = when (mine a row) (u_value row) ∧ gone a (id, row) = when (mine a row) 1 ∧
      gval a (id, set_spent (Some tx) row) = 0%Z ∧ gone a (id, set_spent (Some tx) row) = 0%Z) as (-> & -> & -> & ->).
    { unfold gval, gone. cbn [snd]. by rewrite Hmine, Hfree, Hnfree, andb_true_r, andb_false_r. }
    unfold s'. cbn [ss_deltas]. rewrite toBigInt_column. cbn [nullish].
    unfold mine, when. case_bool_decide as Ht.
    + rewrite delta_change. destruct (decide (u_owner row = a)) as [->|Hne].
      * rewrite bool_decide_eq_true_2 by done. rewrite Hd. unfold spent_utxo. simpl. f_equal; lia.
      * rewrite bool_decide_eq_false_2 by done. rewrite Hd. simpl. f_equal; lia.
    + rewrite andb_false_r, Hd. simpl. f_equal; lia.
  - unfold s'. cbn [ss_deltas ss_spentBy].
    assert ((∃ k u x, marked (map_set tx (nullish (map_get tx (ss_spentBy s)) [] ++ [id]) (ss_spentBy s)) k = Some x ∧
      t0 !! k = Some u ∧ mine a u = true) ↔ mine a row = true ∨ ∃ k u x, marked (ss_spentBy s) k = Some x ∧ t0 !! k = Some u ∧ mine a u = true) as ->.
    { split.
      - intros (k & u & x & Hk & Hu & Hmu). destruct (decide (k = id)) as [->|Hne].
        + left. simplify_eq. done.
        + rewrite marked_set_ne in Hk by done. right. eauto 6.
      - intros [Hmr|(k & u & x & Hk & Hu & Hmu)].
        + exists id, row, tx. by rewrite marked_set_eq.
        + exists k, u, x. split_and!; [|done|done]. rewrite marked_set_ne; [done|]. intros ->. congruence. }
    unfold mine at 1. case_bool_decide as Ht.
    + rewrite in_deltas_change, Hi, andb_true_r, bool_decide_eq_true. tauto.
    + rewrite andb_false_r, Hi. naive_solver.
Qed.

Lemma spending_ok spends :
  (∀ s, s ∈ spends → Tx (sp_txId s)) → spending_inv (spending spends deltas0 d0).
Proof.
  intros Hs. unfold spending. generalize (spending_start spends).
  generalize (MkSpending (spendable spends d0) [] deltas0). induction spends as [|sp spends IH]; intros s Hi; [done|].
  cbn [foldl]. apply IH; [|apply apply_spend_inv; [|done]].
  - intros s' Hs'. by apply Hs, list_elem_of_further.
  - apply Hs, list_elem_of_here.
Qed.

End Spends.
