(* ===== verification/StoredBalances.v ===== *)
(** The index after a block is stored, table by table; balances stay exact. *)
From Stdlib Require Import Ascii.
From S2P Require Import Prelude Db Json Numbers Schema Retry Reconciliation Rollback RollbackFacts BalanceCheck.
From S2P Require Import Scale BlockEvents NodeRpc BlockProcessor PersistFacts BalanceUpdates.

Set Warnings "-register-all".

Local Open Scope string_scope.
Local Open Scope list_scope.

Section Stored.
Variable blake2b : list Z → list Z.
Variable uuid : RowName → string.
Variable now : Z.
Context `{ScanOrder}.
Context (prep : PreparedBlock) (projections : list (Z * EventProjection)) (producer : ProducerOf).

(** [cds.utils.uuid()] answers a new identifier each time. *)
Record fresh_ids (d : IndexDb) : Prop := {
  fi_inj : Inj (=) (=) uuid;
  fi_set : ∀ n, uuid n ≠ EmptyString;
  fi_blocks : ∀ n, ix_blocks d !! uuid n = None;
  fi_txs : ∀ n, ix_transactions d !! uuid n = None;
  fi_actions : ∀ n, ix_contractActions d !! uuid n = None;
  fi_utxos : ∀ n, ix_utxos d !! uuid n = None;
  fi_fees : ∀ n, ix_fees d !! uuid n = None;
  fi_results : ∀ n, ix_results d !! uuid n = None }.

Let rows := block_rows blake2b uuid prep projections.
Let height := pb_height prep.

(** The index with the rows of the block inserted. *)
Definition with_rows (parent : option string) (d : IndexDb) : IndexDb :=
  insert_rows rows (with_blocks (<[uuid BlockName := block_row prep producer parent]> (ix_blocks d)) d).

Definition block_spending (parent : option string) (d : IndexDb) : Spending :=
  spending (br_spends rows) (br_deltas rows) (with_rows parent d).

(** The index the transaction leaves. *)
Definition stored (parent : option string) (d : IndexDb) : IndexDb :=
  let s := block_spending parent d in
  let d' := apply_deltas now (ss_deltas s) height (foldl mark_spent (with_rows parent d) (ss_spentBy s)) in
  if bool_decide (is_Some (Schema.reorgGeneration (ix_main d)))
  then with_sync (indexed_sync now height (pb_blockHash prep) (ix_sync d)) d' else d'.

Lemma statement_ret {A} fault label (m : M IndexDb A) d a d' :
  statement fault label m d = (Ret a, d') → m d = (Ret a, d').
Proof. unfold statement, throw. by destruct (fault label). Qed.

Lemma mark_frame l d :
  ix_blocks (foldl mark_spent d l) = ix_blocks d ∧ ix_transactions (foldl mark_spent d l) = ix_transactions d ∧
  ix_nightBalances (foldl mark_spent d l) = ix_nightBalances d ∧ ix_sync (foldl mark_spent d l) = ix_sync d ∧
  ix_main (foldl mark_spent d l) = ix_main d ∧ ix_contractActions (foldl mark_spent d l) = ix_contractActions d ∧
  ix_contractBalances (foldl mark_spent d l) = ix_contractBalances d ∧
  ix_contractStates (foldl mark_spent d l) = ix_contractStates d ∧ ix_zswapEvents (foldl mark_spent d l) = ix_zswapEvents d ∧
  ix_dustEvents (foldl mark_spent d l) = ix_dustEvents d ∧ ix_fees (foldl mark_spent d l) = ix_fees d ∧
  ix_results (foldl mark_spent d l) = ix_results d ∧ ix_segments (foldl mark_spent d l) = ix_segments d ∧
  ix_identifiers (foldl mark_spent d l) = ix_identifiers d.
Proof. revert d. induction l as [|e l IH]; intros d; [done|]. exact (IH (mark_spent d e)). Qed.

Lemma deltas_frame m d :
  chain_of (apply_deltas now m height d) = chain_of d ∧ ix_sync (apply_deltas now m height d) = ix_sync d ∧
  ix_main (apply_deltas now m height d) = ix_main d.
Proof. revert d. induction m as [|e m IH]; intros d; [done|]. exact (IH (applyBalanceDelta now e.1 e.2 height d)). Qed.

(** What a successful call leaves: the block was there already and nothing
    changed, or it was not and is stored whole. *)
Lemma persist_stores fault requireParent d r d' :
  persistFromNode blake2b uuid now fault prep projections producer requireParent d = (Ret r, d') →
  (d' = d ∧ is_Some (block_by_hash (pb_blockHash prep) d)) ∨
  (block_by_hash (pb_blockHash prep) d = None ∧
   (requireParent = true → (0 < height)%Z →
     is_Some (block_by_hash (hd_parentHash (sb_header (pb_signedBlock prep))) d)) ∧
   utxos_clash (br_utxos rows) (ix_utxos d) = false ∧
   d' = stored (block_by_hash (hd_parentHash (sb_header (pb_signedBlock prep))) d) d).
Proof.
  intros Hp. unfold persistFromNode in Hp. m_unfold. unfold try_catch, tx in Hp.
  destruct (persist_tx _ _ _ _ _ _ _ _ d) as [[u|e] d1] eqn:Ep.
  - right. simplify_eq. unfold persist_tx in Ep. m_unfold.
    destruct (statement _ "SELECT parent" _ d) as [[parent|e] d2] eqn:E1; [|done]. apply statement_ret in E1. simplify_eq.
    destruct (requireParent && _ && _) eqn:Eo; [done|].
    destruct (statement _ "INSERT Blocks" _ d2) as [[u1|e] d3] eqn:E2; [|done]. apply statement_ret in E2.
    case_bool_decide as Hb; [done|]. simplify_eq.
    destruct (insert_all _ _ _) as [[u2|e] d4] eqn:E3; [|done]. unfold insert_all in E3.
    do 5 (apply statement_ret in E3). destruct (utxos_clash _ _) eqn:Ec; [done|]. simplify_eq.
    set (d1 := insert_rows _ _) in Ep. destruct (applySpends _ _ _ _) as [[deltas|e] d5] eqn:E4; [|done].
    assert (deltas = ss_deltas (spending (br_spends rows) (br_deltas rows) d1) ∧
      d5 = foldl mark_spent d1 (ss_spentBy (spending (br_spends rows) (br_deltas rows) d1))) as [-> ->].
    { unfold applySpends in E4. fold rows in E4. m_unfold. destruct (br_spends rows) as [|sp l]; [by simplify_eq|].
      do 2 (apply statement_ret in E4). by simplify_eq. }
    destruct (statement _ "UPDATE NightBalances" _ _) as [[u3|e] d6] eqn:E5; [|done]. apply statement_ret in E5. simplify_eq.
    apply statement_ret in Ep. simplify_eq. split_and!.
    + by apply eq_None_not_Some.
    + intros Hreq Hh. rewrite Hreq, (bool_decide_eq_true_2 (0 < pb_height prep)%Z) in Eo by done.
      apply bool_decide_eq_false_1 in Eo. by apply not_eq_None_Some.
    + done.
    + unfold stored. fold d1. set (s := spending _ _ d1). change (block_spending _ d2) with s.
      set (dm := foldl mark_spent d1 (ss_spentBy s)). destruct (deltas_frame (ss_deltas s) dm) as (_ & Hs & Hm).
      destruct (mark_frame (ss_spentBy s) d1) as (_ & _ & _ & Hms & Hmm & _). fold dm in Hms, Hmm.
      unfold height in *. rewrite Hm, Hmm, Hs, Hms. done.
  - destruct (isUniqueViolation e); [|done]. unfold blockExists in Hp.
    destruct (statement _ "SELECT Blocks" _ d) as [[b|e'] d2] eqn:E1; [|done]. apply statement_ret in E1. simplify_eq.
    case_bool_decide as Hb; simplify_eq. by left.
Qed.

(** ** The tables *)

Section Tables.
Context (parent : option string) (d : IndexDb) (Hl : linked d) (Hf : fresh_ids d).

Let d1 := with_rows parent d.
Let s := block_spending parent d.
Let d' := stored parent d.

(** The transactions of the block. *)
Definition Tx (x : string) : Prop := new_tx blake2b uuid prep projections x.

Lemma Tx_ids x : Tx x → x ≠ EmptyString ∧ ix_transactions d !! x = None.
Proof.
  intros (t & Ht). apply block_txs in Ht as (i & -> & _). split; [by apply fi_set with (d := d)|by apply fi_txs].
Qed.

Lemma stored_frame :
  chain_of d' = chain_of (foldl mark_spent d1 (ss_spentBy s)) ∧ ix_main d' = ix_main d ∧
  ix_nightBalances d' = ix_nightBalances (apply_deltas now (ss_deltas s) height (foldl mark_spent d1 (ss_spentBy s))) ∧
  ix_sync d' = (if bool_decide (is_Some (Schema.reorgGeneration (ix_main d)))
                then indexed_sync now height (pb_blockHash prep) (ix_sync d) else ix_sync d).
Proof.
  destruct (deltas_frame (ss_deltas s) (foldl mark_spent d1 (ss_spentBy s))) as (Hc & Hs & Hm).
  destruct (mark_frame (ss_spentBy s) d1) as (_ & _ & _ & Hms & Hmm & _).
  unfold d', stored. fold s. fold d1. case_bool_decide; rewrite <- Hc; cbn [ix_sync ix_main ix_nightBalances with_sync].
  - split_and!; try done. by rewrite Hm, Hmm.
  - split_and!; [done|by rewrite Hm, Hmm|done|by rewrite Hs, Hms].
Qed.

Lemma stored_tables :
  ix_blocks d' = ix_blocks d1 ∧ ix_transactions d' = ix_transactions d1 ∧
  ix_utxos d' = ix_utxos (foldl mark_spent d1 (ss_spentBy s)) ∧ ix_contractActions d' = ix_contractActions d1 ∧
  ix_contractBalances d' = ix_contractBalances d ∧ ix_contractStates d' = ix_contractStates d ∧
  ix_zswapEvents d' = ix_zswapEvents d ∧ ix_dustEvents d' = ix_dustEvents d ∧ ix_fees d' = ix_fees d1 ∧
  ix_results d' = ix_results d1 ∧ ix_segments d' = ix_segments d ∧ ix_identifiers d' = ix_identifiers d.
Proof.
  destruct stored_frame as (Hc & _). unfold chain_of in Hc. simplify_eq.
  destruct (mark_frame (ss_spentBy s) d1) as (M1 & M2 & _ & _ & _ & M3 & M4 & M5 & M6 & M7 & M8 & M9 & M10 & M11).
  repeat match goal with Hx : ?f d' = _ |- _ => rewrite Hx; clear Hx end.
  rewrite M1, M2, M3, M4, M5, M6, M7, M8, M9, M10, M11. done.
Qed.

Lemma stored_blocks k b :
  ix_blocks d' !! k = Some b ↔ ix_blocks d !! k = Some b ∨ (k = uuid BlockName ∧ b = block_row prep producer parent).
Proof.
  destruct stored_tables as (-> & _). unfold d1. cbn [with_rows insert_rows ix_blocks with_blocks].
  rewrite lookup_insert_Some. pose proof (fi_blocks d Hf BlockName) as Hn. split.
  - intros [[<- <-]|[_ ?]]; [by right|by left].
  - intros [Hk|[-> ->]]; [right|by left]. split; [|done]. intros <-. congruence.
Qed.

Lemma stored_txs k t :
  ix_transactions d' !! k = Some t ↔ ix_transactions d !! k = Some t ∨ (k, t) ∈ br_txs rows.
Proof.
  destruct stored_tables as (_ & -> & _). unfold d1. cbn [with_rows insert_rows ix_transactions with_blocks].
  destruct Hf. apply sql_insert_Some; [by apply block_keys|]. intros k0 t0 Hin. apply block_txs in Hin as (i & -> & _). auto.
Qed.

Lemma inserted_utxos k u :
  ix_utxos d1 !! k = Some u ↔ ix_utxos d !! k = Some u ∨ (k, u) ∈ br_utxos rows.
Proof.
  unfold d1. cbn [with_rows insert_rows ix_utxos with_blocks]. destruct Hf.
  apply sql_insert_Some; [by apply block_keys|]. intros k0 u0 Hin. apply block_utxos in Hin as (i & j & -> & _). auto.
Qed.

Lemma stored_refs :
  (∀ k r, ix_contractActions d' !! k = Some r ↔ ix_contractActions d !! k = Some r ∨ (k, r) ∈ br_actions rows) ∧
  (∀ k r, ix_fees d' !! k = Some r ↔ ix_fees d !! k = Some r ∨ (k, r) ∈ br_fees rows) ∧
  (∀ k r, ix_results d' !! k = Some r ↔ ix_results d !! k = Some r ∨ (k, r) ∈ br_results rows).
Proof.
  destruct stored_tables as (_ & _ & _ & -> & _ & _ & _ & _ & -> & -> & _). pose proof Hf as [].
  destruct (block_refs blake2b uuid (fi_inj d Hf) prep projections) as (R1 & R2 & R3 & _).
  destruct (block_keys blake2b uuid (fi_inj d Hf) prep projections) as (_ & K1 & K2 & K3 & _).
  unfold d1. cbn [with_rows insert_rows ix_contractActions ix_fees ix_results with_blocks].
  split_and!; intros k r; apply sql_insert_Some; try done; intros k0 r0 Hin.
  - apply R3 in Hin as (i & j & x & -> & _). auto.
  - apply R2 in Hin as (i & x & -> & _). auto.
  - apply R1 in Hin as (i & x & -> & _). auto.
Qed.

Lemma spends_inv a : spending_inv d1 a (br_deltas rows) Tx s.
Proof.
  apply spending_ok; [intros x Hx; by apply Tx_ids|]. intros sp Hsp. unfold Tx.
  destruct (block_refs blake2b uuid (fi_inj d Hf) prep projections) as (_ & _ & _ & Hs). by apply Hs.
Qed.

(** Every output after the block: an old or a new one, perhaps spent by it. *)
Lemma stored_utxos k u :
  ix_utxos d' !! k = Some u ↔
  ∃ u0, (ix_utxos d !! k = Some u0 ∨ (k, u0) ∈ br_utxos rows) ∧ u = mark (marked (ss_spentBy s) k) u0.
Proof.
  destruct stored_tables as (_ & _ & -> & _). rewrite mark_lookup, fmap_Some. setoid_rewrite inserted_utxos. naive_solver.
Qed.

Lemma marks k x : marked (ss_spentBy s) k = Some x → Tx x ∧ ∃ u, ix_utxos d1 !! k = Some u ∧ present (u_spentAtTransaction u) = None.
Proof. intros Hm. by apply (si_marked _ EmptyString _ _ _ (spends_inv EmptyString)) in Hm. Qed.

(** References still name rows that are there. *)
Lemma stored_linked : linked d'.
Proof.
  assert (∀ x, is_Some (ix_transactions d !! x) → is_Some (ix_transactions d' !! x)) as Hold.
  { intros x [t Ht]. exists t. apply stored_txs. by left. }
  assert (∀ x, Tx x → is_Some (ix_transactions d' !! x)) as Hnew.
  { intros x [t Ht]. exists t. apply stored_txs. by right. }
  assert (∀ r, linked_to (ix_transactions d) r → linked_to (ix_transactions d') r) as Hlink.
  { intros [x|]; [|done]. apply Hold. }
  destruct (block_refs blake2b uuid (fi_inj d Hf) prep projections) as (R1 & R2 & R3 & _).
  assert (∀ x r, r = Some x → Tx x → linked_to (ix_transactions d') r) as Hrow by (intros x r -> Hx; by apply Hnew).
  destruct stored_refs as (Sa & Sf & Sr). destruct stored_tables as (_ & _ & _ & _ & T1 & _ & T2 & T3 & _ & _ & T4 & T5).
  assert (∀ k r, ix_contractActions d !! k = Some r → ix_contractActions d' !! k = Some r) as Ha by (intros; apply Sa; by left).
  assert (∀ k r, ix_results d !! k = Some r → ix_results d' !! k = Some r) as Hr by (intros; apply Sr; by left).
  split.
  - destruct (ix_blocks d' !! _) as [b|] eqn:E; [|done]. apply stored_blocks in E as [E|[E _]].
    + by rewrite (lk_block_ids _ Hl) in E.
    + exfalso. by apply (fi_set d Hf BlockName).
  - destruct (ix_transactions d' !! _) as [t|] eqn:E; [|done]. apply stored_txs in E as [E|E].
    + by rewrite (lk_tx_ids _ Hl) in E.
    + exfalso. apply block_txs in E as (i & E & _). by apply (fi_set d Hf (TxName i)).
  - intros k t [Ht|Ht]%stored_txs.
    + destruct (lk_tx _ Hl _ _ Ht) as [b Hb]. exists b. apply stored_blocks. by left.
    + apply block_txs in Ht as (i & _ & ->). eexists. apply stored_blocks. by right.
  - intros k u Hu. apply stored_utxos in Hu as (u0 & Hu0 & ->).
    assert (is_Some (ix_transactions d' !! u_createdAtTransaction u0) ∧ linked_to (ix_transactions d') (u_spentAtTransaction u0)) as [Hc Hs].
    { destruct Hu0 as [Hu0|Hu0].
      - destruct (lk_utxo _ Hl _ _ Hu0) as [H1 H2]. auto.
      - apply block_utxos in Hu0 as (i & j & _ & Ht & ->). split; [by apply Hnew|done]. }
    destruct (marked (ss_spentBy s) k) as [x|] eqn:Em; cbn [mark]; [|done]. split; [done|]. apply marks in Em as [Hx _]. by apply Hnew.
  - intros k r [Hk|Hk]%Sa; [by eapply Hlink, lk_actions|]. apply R3 in Hk as (i & j & x & _ & Hx & Hn). by apply (Hrow x).
  - rewrite T2. intros k r Hk. by eapply Hlink, lk_zswap.
  - rewrite T3. intros k r Hk. by eapply Hlink, lk_dust.
  - intros k r [Hk|Hk]%Sf; [by eapply Hlink, lk_fees|]. apply R2 in Hk as (i & x & _ & Hx & Hn). by apply (Hrow x).
  - intros k r [Hk|Hk]%Sr; [by eapply Hlink, lk_results|]. apply R1 in Hk as (i & x & _ & Hx & Hn). by apply (Hrow x).
  - rewrite T5. intros k r Hk. by eapply Hlink, lk_identifiers.
  - rewrite T1. intros k r Hk. apply (lk_balances _ Hl) in Hk. destruct r as [x|]; [|done]. destruct Hk as [r' Hk]. exists r'. auto.
  - rewrite T4. intros k r Hk. apply (lk_segments _ Hl) in Hk. destruct r as [x|]; [|done]. destruct Hk as [r' Hk]. exists r'. auto.
Qed.
End Tables.
End Stored.

(** * Balances stay exact *)

(** ** Figures as sums over the tables *)

Lemma total_ext {R} (f f' : string * R → Z) (t t' : gmap string R) :
  (∀ k, f <$> (pair k <$> t !! k) = f' <$> (pair k <$> t' !! k)) → total f t = total f' t'.
Proof.
  revert t'. induction t as [|k r t Hk Hfst IH] using map_first_key_ind; intros t' Hall.
  - assert (t' = ∅) as ->; [|done]. apply map_empty. intros k. specialize (Hall k). rewrite lookup_empty in Hall.
    by destruct (t' !! k).
  - pose proof (Hall k) as Hh. rewrite lookup_insert_eq in Hh. destruct (t' !! k) as [r'|] eqn:Er; [|done].
    rewrite <- (insert_delete_id t' k r') by done. rewrite !total_insert by (done || apply lookup_delete_eq).
    simpl in Hh. injection Hh as Hh. rewrite Hh. f_equal. apply IH. intros k'. destruct (decide (k' = k)) as [->|Hne].
    + by rewrite Hk, lookup_delete_eq.
    + specialize (Hall k'). rewrite lookup_insert_ne in Hall by done. by rewrite lookup_delete_ne.
Qed.

Section Figures.
Context `{ScanOrder}.

Lemma utxos_of_total d a (f : string * UtxoRow → Z) :
  sum_of f (utxos_of d a) = total (λ ku, when (mine a ku.2) (f ku)) (ix_utxos d).
Proof. unfold utxos_of. rewrite sum_select. reflexivity. Qed.

Lemma unspent_total d a (f : string * UtxoRow → Z) :
  sum_of f (filter (λ u, unspent u = true) (utxos_of d a)) = total (λ ku, when (mine a ku.2 && free ku.2) (f ku)) (ix_utxos d).
Proof.
  rewrite sum_of_filter, utxos_of_total. apply total_ext. intros k. destruct (ix_utxos d !! k) as [u|]; [|done]. simpl. f_equal.
  unfold when, unspent, free. simpl. destruct (mine a u); [|done]. simpl.
  destruct (bool_decide (present (u_spentAtTransaction u) = None)) eqn:E; by rewrite ?bool_decide_eq_true_2, ?bool_decide_eq_false_2 by done.
Qed.

Lemma sent_total d a (f : string * TxRow → Z) :
  sum_of f (sentTxs_of d a) = total (λ kt, when (sent_by a kt.2) (f kt)) (ix_transactions d).
Proof.
  unfold sentTxs_of. rewrite sum_of_filter, sum_select. apply total_ext. intros k. destruct (ix_transactions d !! k) as [t|]; [|done].
  simpl. f_equal. unfold when, sent_by. simpl. destruct (bool_decide (t_senderAddress t = Some a)); [|done]. simpl.
  destruct (counts_as_sent a t) eqn:E; by rewrite ?bool_decide_eq_true_2, ?bool_decide_eq_false_2 by congruence.
Qed.

(** The figures of an address with activity. *)
Definition figures_of (d : IndexDb) (a : string) : NightBalanceFigures :=
  let heights := activity_heights d (utxos_of d a) (sentTxs_of d a) in
  MkFigures (total (gval a) (ix_utxos d)) (total (gone a) (ix_utxos d)) (total (sone a) (ix_transactions d))
    (total (fone a) (ix_utxos d)) (total (sval a) (ix_transactions d)) (total (fval a) (ix_utxos d))
    (reduce Z.min heights) (reduce Z.max heights).

Lemma compute_figures d a :
  computeNightBalance d a =
    if bool_decide (utxos_of d a = []) && bool_decide (sentTxs_of d a = []) then None else Some (figures_of d a).
Proof.
  unfold computeNightBalance. destruct (_ && _); [done|]. f_equal. unfold figures_of. rewrite !length_sum.
  change (sum (utxo_value <$> ?l)) with (sum_of utxo_value l). change (sum (tx_amount <$> ?l)) with (sum_of tx_amount l).
  rewrite !unspent_total, !utxos_of_total, !sent_total. f_equal; try reflexivity; apply total_ext; intros k.
  - destruct (ix_utxos d !! k); [|done]. simpl. unfold utxo_value, gval. by rewrite toBigInt_column.
  - destruct (ix_transactions d !! k); [|done]. simpl. unfold tx_amount, sval. by rewrite toBigInt_column.
  - destruct (ix_utxos d !! k); [|done]. simpl. unfold utxo_value, fval. by rewrite toBigInt_column.
Qed.

(** Counts of rows fit the column. *)
Definition counts_fit (d : IndexDb) : Prop :=
  (Z.of_nat (size (ix_utxos d)) ≤ MAX_SAFE_INTEGER)%Z ∧ (Z.of_nat (size (ix_transactions d)) ≤ MAX_SAFE_INTEGER)%Z.

Lemma total_bounds {R} (f : string * R → Z) (t : gmap string R) :
  (∀ x, (0 ≤ f x ≤ 1)%Z) → (0 ≤ total f t ≤ Z.of_nat (size t))%Z.
Proof.
  intros Hf. unfold total. rewrite <- length_map_to_list. induction (map_to_list t) as [|x l IH]; [rewrite sum_of_nil; simpl; lia|].
  rewrite sum_of_cons. cbn [length]. specialize (Hf x). lia.
Qed.

Lemma safe_int n : (0 ≤ n ≤ MAX_SAFE_INTEGER)%Z → toInt (JInt n) = n.
Proof.
  intros Hn. unfold toInt. rewrite toBigInt_int, !bool_decide_eq_true_2; [done| |lia]. unfold MIN_SAFE_INTEGER. lia.
Qed.

Lemma counts_safe d a : counts_fit d →
  toInt (JInt (f_utxoCount (figures_of d a))) = f_utxoCount (figures_of d a) ∧
  toInt (JInt (f_txSentCount (figures_of d a))) = f_txSentCount (figures_of d a) ∧
  toInt (JInt (f_txReceivedCount (figures_of d a))) = f_txReceivedCount (figures_of d a).
Proof.
  intros [Hu Ht]. cbn [figures_of f_utxoCount f_txSentCount f_txReceivedCount].
  assert (∀ b, (0 ≤ when b 1 ≤ 1)%Z) as Hw by (intros []; simpl; lia).
  pose proof (total_bounds (gone a) (ix_utxos d) ltac:(intros; apply Hw)).
  pose proof (total_bounds (fone a) (ix_utxos d) ltac:(intros; apply Hw)).
  pose proof (total_bounds (sone a) (ix_transactions d) ltac:(intros; apply Hw)).
  split_and!; apply safe_int; lia.
Qed.

(** ** The heights an address was active at *)

Lemma no_activity d x : x ∉ activity_heights d [] [].
Proof. rewrite elem_of_heights. intros (bid & b & _ & _ & _ & [(k & t & (_ & u & Hu & _) & _)|(kt & Hkt & _)]); set_solver. Qed.

Lemma foldl_min x y l : foldl Z.min (Z.min x y) l = Z.min x (foldl Z.min y l).
Proof. revert y. induction l as [|z l IH]; intros y; [done|]. cbn [foldl]. by rewrite <- Z.min_assoc, IH. Qed.
Lemma foldl_max x y l : foldl Z.max (Z.max x y) l = Z.max x (foldl Z.max y l).
Proof. revert y. induction l as [|z l IH]; intros y; [done|]. cbn [foldl]. by rewrite <- Z.max_assoc, IH. Qed.

(** One more height, above the others. *)
Lemma reduce_more x l m : reduce Z.min l = Some m → (∀ y, y ∈ l → (y ≤ x)%Z) →
  reduce Z.min (x :: l) = Some (Z.min m x) ∧ reduce Z.max (x :: l) = Some x.
Proof.
  destruct l as [|y l]; [done|]. cbn [reduce foldl]. intros [= <-] Hle. rewrite foldl_min, foldl_max. split.
  - by rewrite Z.min_comm.
  - f_equal. apply Z.max_l. destruct (foldl_max_spec y l) as ([->|Hin] & _); apply Hle; [apply list_elem_of_here|by apply list_elem_of_further].
Qed.

(** A transaction that created or spent an output of the address, or that it sent. *)
Definition active (d : IndexDb) (a k : string) (t : TxRow) : Prop :=
  (∃ id u, ix_utxos d !! id = Some u ∧ mine a u = true ∧ (u_createdAtTransaction u = k ∨ u_spentAtTransaction u = Some k)) ∨
  sent_by a t = true.

Lemma elem_of_utxos_of d a id u : (id, u) ∈ utxos_of d a ↔ ix_utxos d !! id = Some u ∧ mine a u = true.
Proof. unfold utxos_of. by rewrite elem_of_select. Qed.

Lemma elem_of_sentTxs_of d a k t : (k, t) ∈ sentTxs_of d a ↔ ix_transactions d !! k = Some t ∧ sent_by a t = true.
Proof. unfold sentTxs_of, sent_by. rewrite list_elem_of_filter, elem_of_select, andb_true_iff. simpl. naive_solver. Qed.

Lemma elem_of_activity d a x : linked d →
  x ∈ activity_heights d (utxos_of d a) (sentTxs_of d a) ↔
  ∃ k t b, ix_transactions d !! k = Some t ∧ ix_blocks d !! t_block t = Some b ∧ b_height b = x ∧ active d a k t.
Proof.
  intros Hl. rewrite elem_of_heights. split.
  - intros (bid & b & Hbid & Hb & Hx & [(k & t & (Hk & [id u] & Hin & Hku) & Ht & <-)|([k t] & Hin & <-)]).
    + apply elem_of_utxos_of in Hin as [Hu Hm]. exists k, t, b. split_and!; try done. left. eauto 6.
    + apply elem_of_sentTxs_of in Hin as [Ht Hs]. exists k, t, b. split_and!; try done. by right.
  - intros (k & t & b & Ht & Hb & Hx & Ha). exists (t_block t), b. split_and!; try done.
    + intros E. rewrite E, (lk_block_ids _ Hl) in Hb. done.
    + destruct Ha as [(id & u & Hu & Hm & Hk)|Hs].
      * left. exists k, t. split; [split|done].
        -- intros ->. by rewrite (lk_tx_ids _ Hl) in Ht.
        -- exists (id, u). by rewrite elem_of_utxos_of.
      * right. exists (k, t). by rewrite elem_of_sentTxs_of.
Qed.

(** An address with figures was active at some height. *)
Lemma some_activity d a : linked d → ¬ (utxos_of d a = [] ∧ sentTxs_of d a = []) →
  ∃ x, x ∈ activity_heights d (utxos_of d a) (sentTxs_of d a).
Proof.
  intros Hl Hne. destruct (utxos_of d a) as [|[id u] us] eqn:Eu; [destruct (sentTxs_of d a) as [|[k t] ts] eqn:Es|]; [tauto| |].
  - assert ((k, t) ∈ sentTxs_of d a) as Hin by (rewrite Es; apply list_elem_of_here). apply elem_of_sentTxs_of in Hin as [Ht Hs].
    destruct (lk_tx _ Hl _ _ Ht) as [b Hb]. exists (b_height b). rewrite <- Eu, <- Es. apply elem_of_activity; [done|].
    exists k, t, b. split_and!; try done. by right.
  - assert ((id, u) ∈ utxos_of d a) as Hin by (rewrite Eu; apply list_elem_of_here). apply elem_of_utxos_of in Hin as [Hu Hm].
    destruct (lk_utxo _ Hl _ _ Hu) as [[t Ht] _]. destruct (lk_tx _ Hl _ _ Ht) as [b Hb]. exists (b_height b).
    rewrite <- Eu. apply elem_of_activity; [done|]. exists (u_createdAtTransaction u), t, b. split_and!; try done. left. eauto 6.
Qed.
End Figures.

(** ** Deltas by address *)

Lemma change_delta_keys a f m : NoDup m.*1 → NoDup (change_delta a f m).*1.
Proof. apply map_set_NoDup. Qed.

Lemma credit_keys l m : NoDup m.*1 → NoDup (foldl credit m l).*1.
Proof.
  revert m. induction l as [|p l IH]; intros m Hm; [done|]. cbn [foldl]. apply IH. unfold credit.
  case_bool_decide; [by apply change_delta_keys|done].
Qed.

Section Stored.
Variable blake2b : list Z → list Z.
Variable uuid : RowName → string.
Variable now : Z.
Context `{ScanOrder}.
Context (prep : PreparedBlock) (projections : list (Z * EventProjection)) (producer : ProducerOf).
Context (parent : option string) (d : IndexDb) (Hl : linked d) (Hf : fresh_ids uuid d).

Let rows := block_rows blake2b uuid prep projections.
Let height := pb_height prep.
Let d1 := with_rows blake2b uuid prep projections producer parent d.
Let s := block_spending blake2b uuid prep projections producer parent d.
Let d' := stored blake2b uuid now prep projections producer parent d.

Lemma block_delta_keys : NoDup (br_deltas rows).*1.
Proof.
  unfold rows, block_rows. set (l := imap pair _). assert (NoDup (br_deltas no_rows).*1) as Hn by constructor.
  revert Hn. generalize no_rows. induction l as [|[i hex] l IH]; intros acc Hacc; [done|]. cbn [foldl]. apply IH.
  unfold add_extrinsic. cbn [br_deltas]. destruct (counts_sent _ _ _) as [[x amount]|]; [apply change_delta_keys|]; by apply credit_keys.
Qed.

Lemma spending_keys : NoDup (ss_deltas s).*1.
Proof.
  unfold s, block_spending, spending. fold rows. assert (∀ l sp, NoDup (ss_deltas sp).*1 → NoDup (ss_deltas (foldl apply_spend sp l)).*1) as Hall.
  { induction l as [|x l IH]; intros sp Hsp; [done|]. cbn [foldl]. apply IH. unfold apply_spend.
    destruct (map_get _ _) as [[id row]|]; [|done]. destruct (present _); [done|]. cbn [ss_deltas].
    case_bool_decide; [by apply change_delta_keys|done]. }
  apply Hall, block_delta_keys.
Qed.

Lemma apply_deltas_lookup m d0 a : NoDup m.*1 →
  ix_nightBalances (apply_deltas now m height d0) !! a =
  match map_get a m with
  | Some delta => Some (match ix_nightBalances d0 !! a with
                        | None => fresh_balance now delta height
                        | Some existing => moved_balance now existing delta height
                        end)
  | None => ix_nightBalances d0 !! a
  end.
Proof.
  revert d0. induction m as [|[b delta] m IH]; intros d0 Hnd; [done|]. cbn [fmap list_fmap fst] in Hnd. apply NoDup_cons in Hnd as [Hb Hnd].
  change (apply_deltas now ((b, delta) :: m) height d0) with (apply_deltas now m height (applyBalanceDelta now b delta height d0)).
  rewrite IH by done. unfold applyBalanceDelta. cbn [ix_nightBalances with_nightBalances map_get]. destruct (decide (b = a)) as [->|Hne].
  - rewrite (proj2 (map_get_None a m)) by done. by rewrite lookup_insert_eq.
  - by rewrite lookup_insert_ne by done.
Qed.

Lemma stored_balance a :
  ix_nightBalances d' !! a =
  match map_get a (ss_deltas s) with
  | Some delta => Some (match ix_nightBalances d !! a with
                        | None => fresh_balance now delta height
                        | Some existing => moved_balance now existing delta height
                        end)
  | None => ix_nightBalances d !! a
  end.
Proof.
  destruct (stored_frame blake2b uuid now prep projections producer parent d) as (_ & _ & Hn & _). fold d' in Hn. rewrite Hn.
  rewrite apply_deltas_lookup by apply spending_keys.
  destruct (mark_frame (ss_spentBy s) d1) as (_ & _ & Hm & _). fold s d1. by rewrite Hm.
Qed.

Let st_linked := stored_linked blake2b uuid now prep projections producer parent d Hl Hf.
Let st_txs := stored_txs blake2b uuid now prep projections producer parent d Hf.
Let st_blocks := stored_blocks blake2b uuid now prep projections producer parent d Hf.
Let st_utxos := stored_utxos blake2b uuid now prep projections producer parent d Hf.
Let st_inserted := inserted_utxos blake2b uuid prep projections producer parent d Hf.
Let st_marks := marks blake2b uuid prep projections producer parent d Hf.
Let st_ids := Tx_ids blake2b uuid prep projections d Hf.

Ltac fold_s H1 H2 := change (block_spending blake2b uuid prep projections producer parent d) with s in H1, H2 |- *.

Section Address.
Context (a : string) (Ha : a ≠ EmptyString).

Let inv := spends_inv blake2b uuid prep projections producer parent d Hf a.
Let acc := block_accounted blake2b uuid prep projections a Ha.

(** What makes the address part of the block. *)
Lemma in_block : in_deltas a (ss_deltas s) ↔
  (∃ ku, ku ∈ br_utxos rows ∧ mine a ku.2 = true) ∨ (∃ kt, kt ∈ br_txs rows ∧ sent_by a kt.2 = true) ∨
  ∃ k u x, marked (ss_spentBy s) k = Some x ∧ ix_utxos d1 !! k = Some u ∧ mine a u = true.
Proof.
  pose proof (si_in _ _ _ _ _ inv) as Hi. pose proof (proj2 acc) as Hacc.
  unfold s, d1, rows. rewrite Hi, Hacc. tauto.
Qed.

(** A transaction of the new index is active for the address as before, or it is
    of the block and makes the address part of it. *)
Lemma stored_activity x :
  x ∈ activity_heights d' (utxos_of d' a) (sentTxs_of d' a) →
  x ∈ activity_heights d (utxos_of d a) (sentTxs_of d a) ∨ (x = height ∧ in_deltas a (ss_deltas s)).
Proof.
  pose proof st_linked as Hl'. fold d' in Hl'.
  rewrite !elem_of_activity by done. intros (k & t & b & Ht & Hb & Hx & Hact). apply st_txs in Ht as [Ht|Ht].
  - left. exists k, t, b. split; [done|]. destruct (lk_tx _ Hl _ _ Ht) as [b' Hb'].
    assert (ix_blocks d' !! t_block t = Some b') as Hb2 by (apply st_blocks; by left). simplify_eq. split_and!; try done.
    destruct Hact as [(id & u & Hu & Hm & Hk)|?]; [left|by right].
    apply st_utxos in Hu as (u0 & Hu0 & ->). fold_s Hm Hk.
    assert (∀ u0 x, (id, u0) ∈ br_utxos rows → u_createdAtTransaction u0 = x → ix_transactions d !! x = None) as Hnew.
    { intros u1 y Hin <-. apply block_utxos in Hin as (i & j & _ & Hc & _). by apply st_ids. }
    destruct (marked (ss_spentBy s) id) as [y|] eqn:Em; cbn [mark] in *.
    + apply st_marks in Em as [Hy _]. apply st_ids in Hy as [_ Hy].
      destruct Hk as [Hk|Hk]; simpl in Hk; [|naive_solver].
      destruct Hu0 as [Hu0|Hu0]; [|by rewrite (Hnew _ _ Hu0 Hk) in Ht]. exists id, u0. auto.
    + destruct Hu0 as [Hu0|Hu0]; [exists id, u0; auto|]. destruct Hk as [Hk|Hk]; [by rewrite (Hnew _ _ Hu0 Hk) in Ht|].
      apply block_utxos in Hu0 as (i & j & _ & _ & Hs). congruence.
  - right. assert (Tx blake2b uuid prep projections k) as Hk by (by exists t). pose proof (st_ids k Hk) as [_ Hkn].
    split.
    { apply block_txs in Ht as (i & -> & Htb). rewrite Htb in Hb. apply st_blocks in Hb as [Hb|[_ ->]]; [by rewrite (fi_blocks _ _ Hf) in Hb|].
      by rewrite <- Hx. }
    apply in_block. destruct Hact as [(id & u & Hu & Hm & Hku)|Hs]; [|right; left; by exists (k, t)].
    apply st_utxos in Hu as (u0 & Hu0 & ->). fold_s Hm Hku.
    assert (mine a u0 = true) as Hm0 by (destruct (marked (ss_spentBy s) id); done).
    destruct Hu0 as [Hu0|Hu0]; [|left; by exists (id, u0)].
    destruct (lk_utxo _ Hl _ _ Hu0) as [[tc Htc] Hsp]. destruct (marked (ss_spentBy s) id) as [y|] eqn:Em; cbn [mark] in *.
    + right. right. exists id, u0, y. split_and!; try done. apply st_inserted. by left.
    + destruct Hku as [Hku|Hku]; [congruence|]. rewrite Hku in Hsp. destruct Hsp as [t0 Ht0]. congruence.
Qed.

Lemma old_activity x :
  x ∈ activity_heights d (utxos_of d a) (sentTxs_of d a) → x ∈ activity_heights d' (utxos_of d' a) (sentTxs_of d' a).
Proof.
  pose proof st_linked as Hl'. fold d' in Hl'.
  rewrite !elem_of_activity by done. intros (k & t & b & Ht & Hb & Hx & Hact). exists k, t, b. split_and!; try done.
  - apply st_txs. by left.
  - apply st_blocks. by left.
  - destruct Hact as [(id & u & Hu & Hm & Hk)|?]; [left|by right]. exists id, (mark (marked (ss_spentBy s) id) u). split_and!.
    + apply st_utxos. exists u. split; [by left|done].
    + by destruct (marked (ss_spentBy s) id).
    + destruct (marked (ss_spentBy s) id) as [y|] eqn:Em; [|done]. destruct Hk as [Hk|Hk]; [by left|].
      apply st_marks in Em as [_ (u1 & Hu1 & Hp)]. apply st_inserted in Hu1 as [Hu1|Hu1].
      * simplify_eq. rewrite Hk in Hp. destruct (lk_utxo _ Hl _ _ Hu) as [_ Hs]. rewrite Hk in Hs. destruct Hs as [t0 Ht0].
        exfalso. assert (present (Some k) = Some k) as Hpk; [|congruence]. apply present_Some. split; [done|]. intros ->.
        by rewrite (lk_tx_ids _ Hl) in Ht0.
      * apply block_utxos in Hu1 as (i & j & -> & _). by rewrite (fi_utxos _ _ Hf) in Hu.
Qed.

Lemma block_activity : in_deltas a (ss_deltas s) → height ∈ activity_heights d' (utxos_of d' a) (sentTxs_of d' a).
Proof.
  pose proof st_linked as Hl'. fold d' in Hl'.
  rewrite in_block, elem_of_activity by done. intros Hin.
  assert (∃ k t, (k, t) ∈ br_txs rows ∧ active d' a k t) as (k & t & Ht & Hact).
  { destruct Hin as [([k u] & Hu & Hm)|[([k t] & Ht & Hs)|(id & u & x & Hk & Hu & Hm)]].
    - pose proof Hu as Hu'. apply block_utxos in Hu' as (i & j & _ & [t Ht] & _). exists (u_createdAtTransaction u), t. split; [done|]. left.
      exists k, (mark (marked (ss_spentBy s) k) u). split_and!.
      + apply st_utxos. exists u. split; [by right|done].
      + by destruct (marked (ss_spentBy s) k).
      + left. by destruct (marked (ss_spentBy s) k).
    - exists k, t. split; [done|by right].
    - pose proof Hk as Hk'. apply st_marks in Hk' as [[t Ht] _]. exists x, t. split; [done|]. left.
      exists id, (mark (Some x) u). split_and!; [|done|by right]. apply st_utxos. exists u. fold s. rewrite Hk.
      split; [|done]. by apply st_inserted in Hu. }
  exists k, t, (block_row prep producer parent). split_and!; [apply st_txs; by right| |done|done].
  apply block_txs in Ht as (i & _ & ->). apply st_blocks; by right.
Qed.

(** ** The figures after the block *)

Lemma totals_received (f : string * UtxoRow → Z) :
  (∀ k x u, f (k, mark x u) = f (k, u)) →
  total f (ix_utxos d') = (total f (ix_utxos d) + sum_of f (br_utxos rows))%Z.
Proof.
  intros Hfm. transitivity (total f (ix_utxos d1)).
  - destruct (stored_tables blake2b uuid now prep projections producer parent d) as (_ & _ & Hu & _). fold d' in Hu. rewrite Hu.
    apply total_ext. intros k. rewrite mark_lookup. fold d1 s. destruct (ix_utxos d1 !! k); [|done]. simpl. by rewrite Hfm.
  - unfold d1. cbn [with_rows insert_rows ix_utxos with_blocks]. apply total_sql_insert.
    + by apply (block_keys blake2b uuid (fi_inj _ _ Hf)).
    + intros k u Hin. apply block_utxos in Hin as (i & j & -> & _). apply (fi_utxos _ _ Hf).
Qed.

Lemma totals_sent (f : string * TxRow → Z) :
  total f (ix_transactions d') = (total f (ix_transactions d) + sum_of f (br_txs rows))%Z.
Proof.
  destruct (stored_tables blake2b uuid now prep projections producer parent d) as (_ & Ht & _). fold d' in Ht. rewrite Ht.
  cbn [with_rows insert_rows ix_transactions with_blocks]. apply total_sql_insert.
  - by apply (block_keys blake2b uuid (fi_inj _ _ Hf)).
  - intros k u Hin. apply block_txs in Hin as (i & -> & _). apply (fi_txs _ _ Hf).
Qed.

Lemma totals_unspent (g f : string * UtxoRow → Z) (get : BalanceDelta → Z) :
  (∀ k u, u_spentAtTransaction u = None → g (k, u) = f (k, u)) →
  get (delta_of a (ss_deltas s)) = (get (delta_of a (br_deltas rows)) + (total g (tab d1 s) - total g (ix_utxos d1)))%Z →
  get (delta_of a (br_deltas rows)) = sum_of f (br_utxos rows) →
  total g (ix_utxos d') = (total g (ix_utxos d) + get (delta_of a (ss_deltas s)))%Z.
Proof.
  intros Hgf Hd Hb. assert (ix_utxos d' = tab d1 s) as ->.
  { destruct (stored_tables blake2b uuid now prep projections producer parent d) as (_ & _ & Hu & _). fold d' in Hu. rewrite Hu.
    apply map_eq. intros k. by rewrite mark_lookup, lookup_tab. }
  assert (total g (ix_utxos d1) = (total g (ix_utxos d) + sum_of f (br_utxos rows))%Z) as H1; [|lia].
  unfold d1. cbn [with_rows insert_rows ix_utxos with_blocks]. rewrite total_sql_insert.
  - f_equal. apply sum_of_ext. intros [k u] Hin. apply Hgf. by apply block_utxos in Hin as (i & j & _ & _ & Hs).
  - by apply (block_keys blake2b uuid (fi_inj _ _ Hf)).
  - intros k u Hin. apply block_utxos in Hin as (i & j & -> & _). apply (fi_utxos _ _ Hf).
Qed.

(** What the deltas of the block say of the address is how its figures change. *)
Lemma figures_change :
  let delta := delta_of a (ss_deltas s) in
  total (gval a) (ix_utxos d') = (total (gval a) (ix_utxos d) + dl_balance delta)%Z ∧
  total (gone a) (ix_utxos d') = (total (gone a) (ix_utxos d) + dl_utxoCount delta)%Z ∧
  total (fval a) (ix_utxos d') = (total (fval a) (ix_utxos d) + dl_totalReceived delta)%Z ∧
  total (fone a) (ix_utxos d') = (total (fone a) (ix_utxos d) + dl_txReceivedCount delta)%Z ∧
  total (sval a) (ix_transactions d') = (total (sval a) (ix_transactions d) + dl_totalSent delta)%Z ∧
  total (sone a) (ix_transactions d') = (total (sone a) (ix_transactions d) + dl_txSentCount delta)%Z.
Proof.
  pose proof (si_delta _ _ _ _ _ inv) as Hd. pose proof (proj1 acc) as Hacc. fold rows in Hacc, Hd. fold d1 s in Hd.
  assert (∀ k x u, fval a (k, mark x u) = fval a (k, u) ∧ fone a (k, mark x u) = fone a (k, u)) as Hm by (by intros k [x|] u).
  assert (∀ u, u_spentAtTransaction u = None → free u = true) as Hfree by (intros u Hu; unfold free; by rewrite Hu).
  cbn zeta. split_and!.
  - apply (totals_unspent (gval a) (fval a) dl_balance); [|by rewrite Hd|by rewrite Hacc].
    intros k u Hu. unfold gval, fval. simpl. by rewrite Hfree, andb_true_r.
  - apply (totals_unspent (gone a) (fone a) dl_utxoCount); [|by rewrite Hd|by rewrite Hacc].
    intros k u Hu. unfold gone, fone. simpl. by rewrite Hfree, andb_true_r.
  - rewrite totals_received by (intros; apply Hm). by rewrite Hd, Hacc.
  - rewrite totals_received by (intros; apply Hm). by rewrite Hd, Hacc.
  - rewrite totals_sent. by rewrite Hd, Hacc.
  - rewrite totals_sent. by rewrite Hd, Hacc.
Qed.


(** A block the address has no part in leaves its figures as they are. *)
Lemma untouched_figures : ¬ in_deltas a (ss_deltas s) → computeNightBalance d' a = computeNightBalance d a.
Proof.
  intros Hn. assert (utxos_of d' a ≡ₚ utxos_of d a) as HU.
  { apply NoDup_Permutation; [apply select_NoDup_pairs|apply select_NoDup_pairs|]. intros [id u].
    rewrite !elem_of_utxos_of. split; intros [Hu Hm].
    - apply st_utxos in Hu as (u0 & Hu0 & ->). fold_s Hm Hu0.
      assert (mine a u0 = true) as Hm0 by (by destruct (marked (ss_spentBy s) id)).
      destruct (marked (ss_spentBy s) id) as [x|] eqn:Em; cbn [mark].
      + exfalso. apply Hn, in_block. right. right. exists id, u0, x. split_and!; try done. by apply st_inserted.
      + destruct Hu0 as [Hu0|Hu0]; [done|]. exfalso. apply Hn, in_block. left. by exists (id, u0).
    - destruct (marked (ss_spentBy s) id) as [x|] eqn:Em.
      + exfalso. apply Hn, in_block. right. right. exists id, u, x. split_and!; try done. apply st_inserted. by left.
      + split; [|done]. apply st_utxos. exists u. split; [by left|]. fold s. by rewrite Em. }
  assert (sentTxs_of d' a ≡ₚ sentTxs_of d a) as HS.
  { apply NoDup_Permutation; [apply NoDup_filter, select_NoDup_pairs|apply NoDup_filter, select_NoDup_pairs|]. intros [k t].
    rewrite !elem_of_sentTxs_of. split; intros [Ht Hs].
    - apply st_txs in Ht as [Ht|Ht]; [done|]. exfalso. apply Hn, in_block. right. left. by exists (k, t).
    - split; [|done]. apply st_txs. by left. }
  apply compute_ext; [done|done|]. intros x. split; [|apply old_activity].
  intros Hx. apply stored_activity in Hx as [?|[_ ?]]; [done|by destruct Hn].
Qed.

(** The row of the address agrees with its figures after the block if it did
    before; only a row without activity has to be absent. *)
Lemma stored_exact :
  (∀ k b, ix_blocks d !! k = Some b → (b_height b ≤ height)%Z) → counts_fit d →
  reconcileNightBalance d a = [] → (computeNightBalance d a = None → ix_nightBalances d !! a = None) →
  reconcileNightBalance d' a = [] ∧ (computeNightBalance d' a = None → ix_nightBalances d' !! a = None).
Proof.
  intros Hh Hfit Hex Hnone. pose proof st_linked as Hl'. fold d' in Hl'. pose proof (stored_balance a) as Hrow.
  destruct (map_get a (ss_deltas s)) as [delta|] eqn:Ed.
  2: { assert (¬ in_deltas a (ss_deltas s)) as Hn by (intros [? ?]; congruence). pose proof (untouched_figures Hn) as Hc. rewrite Hc, Hrow.
       split; [|done]. unfold reconcileNightBalance in *. by rewrite Hc, Hrow. }
  assert (in_deltas a (ss_deltas s)) as Hin by (by exists delta).
  assert (delta_of a (ss_deltas s) = delta) as Hdelta by (unfold delta_of; by rewrite Ed).
  pose proof (block_activity Hin) as Hact.
  assert (computeNightBalance d' a = Some (figures_of d' a)) as Hc'.
  { rewrite compute_figures. destruct (bool_decide (utxos_of d' a = []) && bool_decide (sentTxs_of d' a = [])) eqn:E; [|done].
    apply andb_prop in E as [E1%bool_decide_eq_true_1 E2%bool_decide_eq_true_1]. rewrite E1, E2 in Hact. by apply no_activity in Hact. }
  split; [|by rewrite Hc']. destruct figures_change as (F1 & F2 & F3 & F4 & F5 & F6). rewrite Hdelta in *.
  assert (∀ x, x ∈ activity_heights d' (utxos_of d' a) (sentTxs_of d' a) ↔
    x ∈ height :: activity_heights d (utxos_of d a) (sentTxs_of d a)) as Hheights.
  { intros x. rewrite elem_of_cons. split.
    - intros Hx. apply stored_activity in Hx as [?|[? _]]; [by right|by left].
    - intros [->|Hx]; [done|by apply old_activity]. }
  destruct (reduce_ext _ _ Hheights) as [Hmin Hmax].
  eapply no_drift_row; [exact Hc'|rewrite Hrow; reflexivity|].
  unfold figures_of. rewrite Hmin, Hmax, F1, F2, F3, F4, F5, F6.
  rewrite compute_figures in Hnone. destruct (bool_decide (utxos_of d a = []) && bool_decide (sentTxs_of d a = [])) eqn:E.
  - apply andb_prop in E as [E1%bool_decide_eq_true_1 E2%bool_decide_eq_true_1]. rewrite (Hnone eq_refl).
    assert (activity_heights d (utxos_of d a) (sentTxs_of d a) = []) as ->.
    { rewrite E1, E2. destruct (activity_heights d [] []) as [|x l] eqn:Eh; [done|].
      exfalso. apply (no_activity d x). rewrite Eh. apply list_elem_of_here. }
    assert (∀ f, sum_of f (utxos_of d a) = 0%Z) as Hu by (intros f; by rewrite E1).
    assert (∀ f, sum_of f (sentTxs_of d a) = 0%Z) as Hs by (intros f; by rewrite E2).
    assert (total (gval a) (ix_utxos d) = 0%Z ∧ total (gone a) (ix_utxos d) = 0%Z) as [-> ->].
    { unfold gval, gone. rewrite <- (unspent_total d a (λ ku, u_value ku.2)), <- (unspent_total d a (λ _, 1%Z)). by rewrite E1. }
    assert (total (fval a) (ix_utxos d) = 0%Z ∧ total (fone a) (ix_utxos d) = 0%Z) as [-> ->].
    { unfold fval, fone. rewrite <- (utxos_of_total d a (λ ku, u_value ku.2)), <- (utxos_of_total d a (λ _, 1%Z)). by rewrite E1. }
    assert (total (sval a) (ix_transactions d) = 0%Z ∧ total (sone a) (ix_transactions d) = 0%Z) as [-> ->].
    { unfold sval, sone. rewrite <- (sent_total d a (λ kt, nullish (t_nightAmount kt.2) 0%Z)), <- (sent_total d a (λ _, 1%Z)). by rewrite E2. }
    reflexivity.
  - assert (computeNightBalance d a = Some (figures_of d a)) as Hc by (by rewrite compute_figures, E).
    destruct (ix_nightBalances d !! a) as [row|] eqn:Er.
    2: { unfold reconcileNightBalance in Hex. rewrite Hc, Er in Hex. done. }
    pose proof (proj1 (no_drift_row _ _ _ _ Hc Er) Hex) as Hst.
    destruct (some_activity d a Hl) as [x0 Hx0].
    { intros [E1 E2]. by rewrite E1, E2 in E. }
    destruct (reduce Z.min (activity_heights d (utxos_of d a) (sentTxs_of d a))) as [m|] eqn:Em.
    2: { destruct (activity_heights d (utxos_of d a) (sentTxs_of d a)); [by apply not_elem_of_nil in Hx0|done]. }
    destruct (reduce_more height _ m Em) as [Hrm HrM].
    { intros y Hy. apply elem_of_activity in Hy as (k & t & b & _ & Hb & <- & _); [|done]. by apply (Hh _ _ Hb). }
    rewrite Hrm, HrM. destruct (counts_safe d a Hfit) as (S1 & S2 & S3).
    assert (nb_balance row = total (gval a) (ix_utxos d) ∧ nb_utxoCount row = f_utxoCount (figures_of d a) ∧
      nb_txSentCount row = f_txSentCount (figures_of d a) ∧ nb_txReceivedCount row = f_txReceivedCount (figures_of d a) ∧
      nb_totalSent row = total (sval a) (ix_transactions d) ∧ nb_totalReceived row = total (fval a) (ix_utxos d) ∧
      nb_firstSeenHeight row = Some m) as (R1 & R2 & R3 & R4 & R5 & R6 & R7).
    { unfold stored_figures, figures_of in Hst. rewrite Em in Hst. injection Hst as ? ? ? ? ? ? ? ?. done. }
    unfold stored_figures, moved_balance.
    cbn [nb_balance nb_utxoCount nb_txSentCount nb_txReceivedCount nb_totalSent nb_totalReceived nb_firstSeenHeight nb_lastActivityHeight].
    rewrite !toBigInt_column. cbn [nullish]. rewrite R1, R2, R3, R4, R5, R6, R7, S1, S2, S3. reflexivity.
Qed.

End Address.
End Stored.
