(* ===== verification/IndexMachine.v ===== *)
(** The chain index under the crawler's writes: blocks stored and branches rolled
    back. Its balances stay what its rows say, and its blocks stay one chain. *)
From Stdlib Require Import Ascii.
From S2P Require Import Prelude Db Json Retry Numbers Schema Scale Reconciliation Rollback RollbackFacts BalanceCheck.
From S2P Require Import BlockEvents NodeRpc BlockProcessor PersistFacts BalanceUpdates StoredBalances.

Set Warnings "-register-all".

Local Open Scope string_scope.
Local Open Scope list_scope.

Section Machine.
Context `{ScanOrder}.

(** The stored figures of every address are those its rows give; an address
    without activity has no row. *)
Definition exact (d : IndexDb) : Prop :=
  ∀ a, a ≠ EmptyString → stored_figures <$> ix_nightBalances d !! a = computeNightBalance d a.

Lemma exact_at d a :
  stored_figures <$> ix_nightBalances d !! a = computeNightBalance d a ↔
  reconcileNightBalance d a = [] ∧ (computeNightBalance d a = None → ix_nightBalances d !! a = None).
Proof.
  destruct (computeNightBalance d a) as [f|] eqn:Ec, (ix_nightBalances d !! a) as [row|] eqn:Er; simpl.
  - rewrite (no_drift_row _ _ _ _ Ec Er). naive_solver.
  - unfold reconcileNightBalance. rewrite Ec, Er. naive_solver.
  - naive_solver.
  - unfold reconcileNightBalance. rewrite Ec, Er. naive_solver.
Qed.

(** ** A failed call changes nothing *)

Lemma persist_throws blake2b uuid now fault prep projections producer requireParent d e d' :
  persistFromNode blake2b uuid now fault prep projections producer requireParent d = (Throw e, d') → d' = d.
Proof.
  unfold persistFromNode. m_unfold. unfold try_catch, tx. destruct (persist_tx _ _ _ _ _ _ _ _ d) as [[u|x] d1]; [done|].
  destruct (isUniqueViolation x); [|by intros [= _ <-]]. unfold blockExists, statement, throw.
  destruct (fault "SELECT Blocks"); [by intros [= _ <-]|]. simpl.
  destruct (bool_decide _); [done|by intros [= _ <-]].
Qed.

(** ** Cursors after a rollback *)

Definition best (b : option (string * BlockRow)) (row : string * BlockRow) : option (string * BlockRow) :=
  match b with
  | Some x => if bool_decide (b_height x.2 < b_height row.2)%Z then Some row else b
  | None => Some row
  end.

Lemma foldl_best l b0 :
  match foldl best b0 l with
  | None => l = [] ∧ b0 = None
  | Some x => (x ∈ l ∨ b0 = Some x) ∧ (∀ y, y ∈ l → (b_height y.2 ≤ b_height x.2)%Z) ∧
              ∀ y, b0 = Some y → (b_height y.2 ≤ b_height x.2)%Z
  end.
Proof.
  revert b0. induction l as [|r l IH]; intros b0; cbn [foldl].
  - destruct b0; [|done]. split_and!; [by right|set_solver|]. intros y [= <-]. lia.
  - specialize (IH (best b0 r)). destruct (foldl best (best b0 r) l) as [x|].
    + destruct IH as (Hin & Hle & Hb). unfold best in Hin, Hb. destruct b0 as [y|].
      * case_bool_decide as Hlt.
        -- specialize (Hb r eq_refl). split_and!.
           ++ left. destruct Hin as [?|[= ->]]; [by apply list_elem_of_further|apply list_elem_of_here].
           ++ intros z [->|Hz]%elem_of_cons; [done|auto].
           ++ intros z [= <-]. lia.
        -- specialize (Hb y eq_refl). split_and!.
           ++ destruct Hin as [?|[= ->]]; [left; by apply list_elem_of_further|by right].
           ++ intros z [->|Hz]%elem_of_cons; [lia|auto].
           ++ intros z [= <-]. lia.
      * specialize (Hb r eq_refl). split_and!; [|intros z [->|Hz]%elem_of_cons; [done|auto]|done].
        left. destruct Hin as [?|[= ->]]; [by apply list_elem_of_further|apply list_elem_of_here].
    + destruct IH as [_ Hb]. unfold best in Hb. destruct b0; [by case_bool_decide|done].
Qed.

(** The fork block is the highest one below the height. *)
Lemma selectForkBlock_spec h d :
  match selectForkBlock h d with
  | None => ∀ k b, ix_blocks d !! k = Some b → (h ≤ b_height b)%Z
  | Some (k, b) => ix_blocks d !! k = Some b ∧ (b_height b < h)%Z ∧
      ∀ k' b', ix_blocks d !! k' = Some b' → (b_height b' < h)%Z → (b_height b' ≤ b_height b)%Z
  end.
Proof.
  unfold selectForkBlock. set (l := sql_select _ (ix_blocks d)).
  assert (∀ k b, (k, b) ∈ l ↔ ix_blocks d !! k = Some b ∧ (b_height b < h)%Z) as Hl.
  { intros k b. unfold l. by rewrite elem_of_select, bool_decide_eq_true. }
  pose proof (foldl_best l None) as Hb. fold best. change (foldl _ None l) with (foldl best None l).
  destruct (foldl best None l) as [[k b]|].
  - destruct Hb as ([Hin|?] & Hle & _); [|done]. apply Hl in Hin as [Hk Hlt]. split_and!; [done|done|].
    intros k' b' Hk' Hlt'. apply (Hle (k', b')). by apply Hl.
  - destruct Hb as [Hnil _]. intros k b Hk. destruct (decide (b_height b < h)%Z) as [Hlt|?]; [|lia].
    assert ((k, b) ∈ l) as Hin by (by apply Hl). rewrite Hnil in Hin. by apply not_elem_of_nil in Hin.
Qed.

Lemma revert_generation h t o t' :
  revertSubmissionEvidence h t = (o, t') → Schema.reorgGeneration t' = Schema.reorgGeneration t.
Proof. intros Hr. apply (f_equal snd) in Hr. simpl in Hr. by subst t'. Qed.

(** The rollback counter goes up by one, and the cursors point at the fork block,
    unless no block was removed. *)
Lemma rollback_counts now h st extra d o d' g :
  rollbackIndexedDataFromHeight now h st extra d = (o, d') → Schema.reorgGeneration (ix_main d) = Some g →
  Schema.reorgGeneration (ix_main d') = Some (Some (nullish g 0 + 1)%Z) ∧
  ix_sync d' = (if bool_decide (rolled_blocks d h = []) then ix_sync d
                else rolled_sync now (selectForkBlock h d') st extra (ix_sync d)).
Proof.
  unfold rollbackIndexedDataFromHeight. intros Hr Hg.
  apply bind_cases in Hr as [(g0 & d0 & E & Hr)|(x & E & _)].
  2:{ unfold on_main in E. by destruct (bumpReorgGeneration _) eqn:E2; unfold bumpReorgGeneration in E2; simplify_eq. }
  assert (Schema.reorgGeneration (ix_main d0) = Some (Some (nullish g 0 + 1)%Z) ∧ ix_blocks d0 = ix_blocks d ∧ ix_sync d0 = ix_sync d) as (Hg0 & Hb0 & Hs0).
  { unfold on_main in E. destruct (bumpReorgGeneration (ix_main d)) as [o0 m0] eqn:Eb. unfold bumpReorgGeneration in Eb. simplify_eq.
    split_and!; [|done|done]. cbn. by rewrite Hg. }
  assert (rolled_blocks d0 h = rolled_blocks d h) as Hrb by (unfold rolled_blocks; by rewrite Hb0).
  apply bind_cases in Hr as [(d1 & d2 & E1 & Hr)|(x & E1 & _)]; [|done]. injection E1 as <- <-. cbv zeta in Hr. rewrite Hrb in Hr.
  assert (∀ da oa db, on_main (revertSubmissionEvidence h) da = (oa, db) →
    Schema.reorgGeneration (ix_main db) = Schema.reorgGeneration (ix_main da) ∧ ix_sync db = ix_sync da ∧
    ∃ e, oa = Ret e) as Hrev.
  { intros da oa db E3. unfold on_main in E3. destruct (revert_returns h (ix_main da)) as (e & t & Ht).
    pose proof (revert_generation _ _ _ _ Ht) as Hgt. rewrite Ht in E3. injection E3 as <- <-. split_and!; [done|done|eauto]. }
  destruct (rolled_blocks d h) as [|b bs] eqn:Eb.
  - apply bind_cases in Hr as [(ev & d3 & E3 & Hr)|(x & E3 & ->)]; destruct (Hrev _ _ _ E3) as (H1 & H2 & ev' & H3); [|done].
    injection Hr as <- <-. rewrite bool_decide_eq_true_2 by done. rewrite H1, H2. auto.
  - apply bind_cases in Hr as [([] & d3 & E3 & Hr)|(x & E3 & _)]; [|done]. injection E3 as <-.
    apply bind_cases in Hr as [(ev & d4 & E4 & Hr)|(x & E4 & ->)]; destruct (Hrev _ _ _ E4) as (Hc4 & Hn4 & ev' & H3); [|done].
    apply bind_cases in Hr as [(d5 & d6 & E5 & Hr)|(x & E5 & _)]; [|done]. injection E5 as <- <-.
    apply bind_cases in Hr as [([] & d7 & E7 & Hr)|(x & E7 & _)]; [|done]. injection E7 as <-.
    injection Hr as <- <-. set (da := foldl _ _ _) in *.
    assert (ix_main da = ix_main d0 ∧ ix_sync da = ix_sync d0) as [Hma Hsa].
    { unfold da. destruct (removed_frame d0 h) as (_ & Hs & Hm). generalize (affected_addresses d0 (rolled_txs d0 (b :: bs))). intros l.
      rewrite <- Hs, <- Hm. generalize (remove_rows h d0). induction l as [|a l IH]; intros dx; [done|]. cbn [foldl].
      destruct (IH (recomputeNightBalance now a dx)) as [-> ->]. unfold recomputeNightBalance. repeat case_match; done. }
    rewrite Hma in Hc4. rewrite (bool_decide_eq_true_2 (is_Some _)) by (rewrite Hc4, Hg0; by eexists).
    rewrite bool_decide_eq_false_2 by done. cbn [ix_main ix_sync with_sync]. rewrite Hc4, Hn4, Hsa, Hs0. done.
Qed.

Lemma rollback_sync now h st extra d o d' :
  rollbackIndexedDataFromHeight now h st extra d = (o, d') → is_Some (Schema.reorgGeneration (ix_main d)) →
  is_Some (Schema.reorgGeneration (ix_main d')) ∧
  ix_sync d' = (if bool_decide (rolled_blocks d h = []) then ix_sync d
                else rolled_sync now (selectForkBlock h d') st extra (ix_sync d)).
Proof. intros Hr [g Hg]. destruct (rollback_counts _ _ _ _ _ _ _ _ Hr Hg) as [-> Hs]. split; [by eexists|done]. Qed.

(** ** Balances *)

(** No row has a DUST registration: no code sets one. *)
Definition no_dust (d : IndexDb) : Prop :=
  ∀ a row, ix_nightBalances d !! a = Some row → dust_known row = false.

Lemma no_dust_insert a row d :
  dust_known row = false → no_dust d → no_dust (with_nightBalances (<[a := row]> (ix_nightBalances d)) d).
Proof.
  intros Hr Hd b row'. cbn [ix_nightBalances with_nightBalances]. rewrite lookup_insert_Some.
  intros [[_ <-]|[_ Hb]]; [done|by eapply Hd].
Qed.

Lemma recompute_no_dust now a d : no_dust d → no_dust (recomputeNightBalance now a d).
Proof.
  intros Hd. unfold recomputeNightBalance. destruct (computeNightBalance d a) as [f|], (ix_nightBalances d !! a) as [row|] eqn:E; [..|done].
  - apply no_dust_insert; [|done]. exact (Hd a row E).
  - by apply no_dust_insert.
  - rewrite (Hd _ _ E). intros b row'. cbn [ix_nightBalances with_nightBalances]. rewrite lookup_delete_Some. intros [_ Hb]. by apply (Hd b).
Qed.

Lemma recompute_self now a d : no_dust d →
  stored_figures <$> ix_nightBalances (recomputeNightBalance now a d) !! a = computeNightBalance d a.
Proof.
  intros Hd. unfold recomputeNightBalance. destruct (computeNightBalance d a) as [f|] eqn:Ef, (ix_nightBalances d !! a) as [row|] eqn:E.
  1,2: cbn [ix_nightBalances with_nightBalances]; rewrite lookup_insert_eq; simpl; by destruct f.
  - rewrite (Hd _ _ E). cbn [ix_nightBalances with_nightBalances]. by rewrite lookup_delete_eq.
  - by rewrite E.
Qed.

Lemma recompute_exact now l d a : no_dust d →
  let d' := foldl (λ d a, recomputeNightBalance now a d) d l in
  no_dust d' ∧
  (a ∈ l ∨ stored_figures <$> ix_nightBalances d !! a = computeNightBalance d a →
   stored_figures <$> ix_nightBalances d' !! a = computeNightBalance d a).
Proof.
  revert d. induction l as [|b l IH]; intros d Hd; cbn [foldl]; [split; [done|set_solver]|].
  assert (computeNightBalance (recomputeNightBalance now b d) a = computeNightBalance d a) as Hc by (apply compute_chain, recompute_chain).
  destruct (IH (recomputeNightBalance now b d)) as [H1 H2]; [by apply recompute_no_dust|]. rewrite Hc in H2. split; [done|].
  intros Hor. apply H2. destruct (decide (a = b)) as [->|Hne]; [right; by apply recompute_self|].
  rewrite recompute_other by done. set_solver.
Qed.

Lemma rollback_exact now h st extra d o d' :
  linked d → no_dust d → exact d → rollbackIndexedDataFromHeight now h st extra d = (o, d') → no_dust d' ∧ exact d'.
Proof.
  intros Hl Hd He Hr. apply rollback_result in Hr as (d0 & Hc0 & Hn0 & Hc & Hn & _).
  pose proof (linked_chain _ _ Hc0 Hl) as Hl0.
  assert (no_dust d0 ∧ exact d0) as [Hd0 He0].
  { split; [intros a row; rewrite Hn0; apply Hd|]. intros a Ha. rewrite Hn0, (compute_chain d0 d) by done. by apply He. }
  assert (no_dust (rolled now h d0) ∧ exact (rolled now h d0)) as [Hd1 He1].
  { destruct (rolled_cases now h d0) as [[_ ->]| ->]; [done|]. set (A := affected_addresses d0 _).
    destruct (removed_frame d0 h) as (Hf & _ & _).
    assert (no_dust (remove_rows h d0)) as Hdr by (intros a row; rewrite Hf; apply Hd0).
    split; [by apply (recompute_exact now A _ EmptyString)|]. intros a Ha.
    destruct (recompute_exact now A _ a Hdr) as [_ Hex]. rewrite (compute_chain (foldl _ _ A) (remove_rows h d0)) by apply recompute_all_chain.
    apply Hex. destruct (decide (a ∈ A)) as [Hin|Hnin]; [by left|right]. rewrite Hf, unaffected_figures by done. by apply He0. }
  split; [intros a row; rewrite Hn; apply Hd1|]. intros a Ha. rewrite Hn, (compute_chain d' (rolled now h d0)) by done. by apply He1.
Qed.

(** ** One chain *)

(** A block's height, as its hash commits to it. *)
Variable height_of : string → Z.

(** What the node hands out as a block is one: its header commits to its height,
    and its parent's hash to the height below. *)
Record from_node (prep : PreparedBlock) : Prop := {
  fn_hash : pb_blockHash prep ≠ EmptyString;
  fn_height : pb_height prep = height_of (pb_blockHash prep);
  fn_positive : (0 ≤ pb_height prep)%Z;
  fn_parent : height_of (hd_parentHash (sb_header (pb_signedBlock prep))) = (pb_height prep - 1)%Z }.

Definition tip (d : IndexDb) : option Z * option string := (sy_lastIndexedHeight (ix_sync d), sy_lastIndexedHash (ix_sync d)).

(** The indexed blocks are a stretch of one chain, and SyncState names its end. *)
Record one_chain (d : IndexDb) : Prop := {
  oc_height : ∀ k b, ix_blocks d !! k = Some b →
    b_height b = height_of (b_hash b) ∧ (0 ≤ b_height b)%Z ∧ b_hash b ≠ EmptyString;
  oc_unique : ∀ k k' b b', ix_blocks d !! k = Some b → ix_blocks d !! k' = Some b' → b_height b = b_height b' → k = k';
  oc_parent : ∀ k b p, ix_blocks d !! k = Some b → b_parent b = Some p →
    ∃ pb, ix_blocks d !! p = Some pb ∧ (b_height pb + 1 = b_height b)%Z;
  oc_bottom : ∀ k b k' b', ix_blocks d !! k = Some b → b_parent b = None → ix_blocks d !! k' = Some b' → (b_height b ≤ b_height b')%Z;
  oc_tip : match sy_lastIndexedHash (ix_sync d) with
           | None => ix_blocks d = ∅
           | Some hash => ∃ k b, ix_blocks d !! k = Some b ∧ b_hash b = hash ∧
               sy_lastIndexedHeight (ix_sync d) = Some (b_height b) ∧
               ∀ k' b', ix_blocks d !! k' = Some b' → (b_height b' ≤ b_height b)%Z
           end }.

Lemma one_chain_same d d' : ix_blocks d' = ix_blocks d → tip d' = tip d → one_chain d → one_chain d'.
Proof. intros Hb Ht [H1 H2 H3 H4 H5]. unfold tip in Ht. injection Ht as Ht1 Ht2. split; rewrite ?Hb, ?Ht1, ?Ht2; done. Qed.

Lemma by_hash hash d k : block_by_hash hash d = Some k → ∃ b, ix_blocks d !! k = Some b ∧ b_hash b = hash.
Proof.
  unfold block_by_hash. destruct (sql_select _ _) as [|[k0 b] l] eqn:E; [done|]. intros [= <-].
  assert ((k0, b) ∈ sql_select (λ _ b, bool_decide (b_hash b = hash)) (ix_blocks d)) as Hin by (rewrite E; apply list_elem_of_here).
  apply elem_of_select in Hin as [Hk Hh%bool_decide_eq_true_1]. eauto.
Qed.

Lemma not_by_hash hash d k b : block_by_hash hash d = None → ix_blocks d !! k = Some b → b_hash b ≠ hash.
Proof.
  unfold block_by_hash. intros Hn Hk <-. destruct (sql_select _ _) as [|x l] eqn:E; [|done].
  assert ((k, b) ∈ sql_select (λ _ b', bool_decide (b_hash b' = b_hash b)) (ix_blocks d)) as Hin.
  { apply elem_of_select. by rewrite bool_decide_eq_true. }
  rewrite E in Hin. by apply not_elem_of_nil in Hin.
Qed.

(** The block is already indexed, or the first of the index, or above every
    indexed block and refused without its parent. *)
Definition next_block (requireParent : bool) (prep : PreparedBlock) (d : IndexDb) : Prop :=
  ix_blocks d = ∅ ∨ is_Some (block_by_hash (pb_blockHash prep) d) ∨
  (requireParent = true ∧ ∀ k b, ix_blocks d !! k = Some b → (b_height b < pb_height prep)%Z).

(** A rollback cuts the chain at a height. *)
Lemma rollback_chain now h st extra d o d' :
  rooted d → is_Some (Schema.reorgGeneration (ix_main d)) → one_chain d →
  rollbackIndexedDataFromHeight now h st extra d = (o, d') → one_chain d'.
Proof.
  intros Hl Hg Hc Hr. destruct (rollback_rows _ _ _ _ _ _ _ Hl Hr) as (Hb & _ & _).
  destruct (rollback_sync _ _ _ _ _ _ _ Hr Hg) as [_ Hs]. pose proof Hc as [H1 H2 H3 H4 H5]. split.
  - intros k b [Hk _]%Hb. eauto.
  - intros k k' b b' [Hk _]%Hb [Hk' _]%Hb. eauto.
  - intros k b p [Hk Hh]%Hb Hp. destruct (H3 _ _ _ Hk Hp) as (pb & Hpb & Heq). exists pb. rewrite Hb. split; [|done]. split; [done|lia].
  - intros k b k' b' [Hk _]%Hb Hp [Hk' _]%Hb. eauto.
  - rewrite Hs. destruct (decide (rolled_blocks d h = [])) as [He|He].
    + rewrite bool_decide_eq_true_2 by done. assert (ix_blocks d' = ix_blocks d) as ->; [|done].
      apply map_eq. intros k. apply option_eq. intros b. rewrite Hb. split; [by intros [? _]|]. intros Hk. split; [done|].
      apply Z.nle_gt. intros Hh. assert (k ∈ rolled_blocks d h) as Hin by (apply rolled_iff; eauto). rewrite He in Hin. by apply not_elem_of_nil in Hin.
    + rewrite bool_decide_eq_false_2 by done. pose proof (selectForkBlock_spec h d') as Hf.
      destruct (selectForkBlock h d') as [[k b]|]; cbn [rolled_sync sy_lastIndexedHash sy_lastIndexedHeight fmap option_fmap option_map snd].
      * destruct Hf as (Hk & Hlt & Hmax). exists k, b. split_and!; [done|done|done|]. intros k' b' Hk'. apply (Hmax _ _ Hk'). by apply Hb in Hk' as [_ ?].
      * apply map_empty. intros k. destruct (ix_blocks d' !! k) as [b|] eqn:E; [|done]. pose proof (Hf _ _ E). apply Hb in E as [_ ?]. lia.
Qed.

(** A block that is not indexed yet lies above the indexed ones, right on the tip. *)
Lemma next_above requireParent prep d :
  one_chain d → next_block requireParent prep d → block_by_hash (pb_blockHash prep) d = None →
  (∀ k b, ix_blocks d !! k = Some b → (b_height b < pb_height prep)%Z) ∧
  (∀ k b, ix_blocks d !! k = Some b → requireParent = true ∧ (0 < pb_height prep)%Z).
Proof.
  intros [H1 H2 H3 H4 H5] Hn Hb. destruct Hn as [He|[[x Hx]|(Hreq & Habove)]].
  - rewrite He. split; intros k b Hk; by rewrite lookup_empty in Hk.
  - congruence.
  - split; [done|]. intros k b Hk. split; [done|]. pose proof (Habove _ _ Hk). destruct (H1 _ _ Hk) as (_ & ? & _). lia.
Qed.

Section Persist.
Context (blake2b : list Z → list Z) (uuid : RowName → string) (now : Z) (prep : PreparedBlock).
Context (projections : list (Z * EventProjection)) (producer : ProducerOf) (requireParent : bool) (d : IndexDb).

Hypothesis Hroot : rooted d.
Hypothesis Hl : linked d.
Hypothesis Hf : fresh_ids uuid d.
Hypothesis Hg : is_Some (Schema.reorgGeneration (ix_main d)).
Hypothesis Hn : from_node prep.
Hypothesis Hnext : next_block requireParent prep d.
Hypothesis Hnew : block_by_hash (pb_blockHash prep) d = None.

Let parentHash := hd_parentHash (sb_header (pb_signedBlock prep)).
Let parent := block_by_hash parentHash d.
Let d' := stored blake2b uuid now prep projections producer parent d.

Lemma stored_tip : tip d' = (Some (pb_height prep), Some (pb_blockHash prep)).
Proof.
  destruct (stored_frame blake2b uuid now prep projections producer parent d) as (_ & _ & _ & Hs).
  unfold tip, d'. by rewrite Hs, bool_decide_eq_true_2 by done.
Qed.

Lemma stored_chain :
  one_chain d → (requireParent = true → (0 < pb_height prep)%Z → is_Some parent) → one_chain d'.
Proof.
  intros Hc Hp. destruct (next_above _ _ _ Hc Hnext Hnew) as [Habove Hreq]. pose proof stored_tip as Ht. injection Ht as Ht1 Ht2.
  pose proof Hc as [H1 H2 H3 H4 H5]. destruct Hn as [N0 N1 N2 N3].
  set (nb := block_row prep producer parent).
  assert (∀ k b, ix_blocks d' !! k = Some b ↔ ix_blocks d !! k = Some b ∨ (k = uuid BlockName ∧ b = nb)) as Hb by (intros; by apply stored_blocks).
  assert (b_height nb = pb_height prep) as Hnb by done.
  split.
  - intros k b [Hk|[_ ->]]%Hb; [by apply (H1 k)|done].
  - intros k k' b b' [Hk|[-> ->]]%Hb [Hk'|[-> ->]]%Hb Heq; [by eapply H2|apply Habove in Hk; lia|apply Habove in Hk'; lia|done].
  - intros k b p [Hk|[_ ->]]%Hb Hpp.
    + destruct (H3 _ _ _ Hk Hpp) as (pb & Hpb & Heq). exists pb. rewrite Hb. auto.
    + apply present_Some in Hpp as [Hpp _]. apply by_hash in Hpp as (pb & Hpb & Hh). exists pb. rewrite Hb. split; [by left|].
      rewrite Hnb. destruct (H1 _ _ Hpb) as (-> & _). rewrite Hh. unfold parentHash. lia.
  - intros k b k' b' [Hk|[_ ->]]%Hb Hpn [Hk'|[_ ->]]%Hb; [by eapply H4|apply Habove in Hk; lia| |done].
    exfalso. destruct (Hreq _ _ Hk') as [Hr Hpos]. destruct (Hp Hr Hpos) as [p Hpp]. change (b_parent nb) with (present parent) in Hpn.
    assert (present parent = Some p); [|congruence]. apply present_Some. split; [done|]. intros ->.
    apply by_hash in Hpp as (pb & Hpb & _). by rewrite (rt_block_ids _ Hroot) in Hpb.
  - rewrite Ht1, Ht2. exists (uuid BlockName), nb. split_and!; [apply Hb; by right|done|done|].
    intros k' b' [Hk'|[_ ->]]%Hb; [apply Habove in Hk'; lia|lia].
Qed.

Lemma stored_all_exact : counts_fit d → one_chain d → exact d → exact d'.
Proof.
  intros Hfit Hc He a Ha. destruct (next_above _ _ _ Hc Hnext Hnew) as [Habove _]. apply exact_at.
  destruct (proj1 (exact_at d a) (He a Ha)) as [E1 E2]. apply stored_exact; try done.
  intros k b Hk. apply Habove in Hk. lia.
Qed.

Lemma stored_no_dust : no_dust d → no_dust d'.
Proof.
  intros Hd a row. unfold d'. rewrite stored_balance. destruct (map_get a _) as [delta|]; [|apply Hd].
  intros [= <-]. destruct (ix_nightBalances d !! a) as [old|] eqn:E; [exact (Hd a old E)|done].
Qed.
End Persist.

End Machine.
