(* ===== verification/IndexProperties.v ===== *)
(** The chain index stays consistent under the crawler's writes: every block it
    stores and every branch it rolls back. *)
From Stdlib Require Import Ascii.
From S2P Require Import Prelude Db Json Numbers Schema Retry Reconciliation Rollback RollbackFacts.
From S2P Require Import BalanceCheck Scale BlockEvents NodeRpc BlockProcessor PersistFacts.
From S2P Require Import BalanceUpdates StoredBalances IndexMachine.

Set Warnings "-register-all".

Local Open Scope string_scope.
Local Open Scope list_scope.

(** The row [ensureSyncStateSingleton] inserts, and no block yet. *)
Definition new_sync : SyncCols := MkSync (Some 0%Z) None None None None "stopped" (Some 0%Z).
Definition new_index (main : Database) : IndexDb := MkIndexDb ∅ ∅ ∅ ∅ ∅ ∅ ∅ ∅ ∅ ∅ ∅ ∅ ∅ new_sync main.

Section Index.
Context `{ScanOrder}.
Variable height_of : string → Z.

Record consistent (d : IndexDb) : Prop := {
  cs_linked : linked d;
  cs_sync : is_Some (Schema.reorgGeneration (ix_main d));
  cs_chain : one_chain height_of d;
  cs_exact : exact d;
  cs_dust : no_dust d }.

(** One transaction of the crawler, whatever its outcome; or one of the job
    system, which writes its own tables. *)
Inductive index_step : IndexDb → IndexDb → Prop :=
| step_persist blake2b uuid now fault prep projections producer requireParent d o d' :
    fresh_ids uuid d → from_node height_of prep → counts_fit d → next_block requireParent prep d →
    persistFromNode blake2b uuid now fault prep projections producer requireParent d = (o, d') →
    index_step d d'
| step_rollback now h st extra d o d' :
    rollbackIndexedDataFromHeight now h st extra d = (o, d') → index_step d d'
| step_jobs d m : is_Some (Schema.reorgGeneration m) → index_step d (with_main m d).

(** The balances [persistFromNode] adds up block by block are those a full
    recomputation from the rows gives, per address, when they were before. *)
Lemma persist_consistent blake2b uuid now fault prep projections producer requireParent d o d' :
  fresh_ids uuid d → from_node height_of prep → counts_fit d → next_block requireParent prep d → consistent d →
  persistFromNode blake2b uuid now fault prep projections producer requireParent d = (o, d') → consistent d'.
Proof.
  intros Hf Hn Hfit Hnext Hc Hp. destruct o as [r|e].
  2:{ by apply persist_throws in Hp as ->. }
  apply persist_stores in Hp as [[-> _]|(Hnew & Hpar & _ & ->)]; [done|]. pose proof Hc as [Hl Hg Hch He Hd]. split.
  - by apply stored_linked.
  - destruct (stored_frame blake2b uuid now prep projections producer
      (block_by_hash (hd_parentHash (sb_header (pb_signedBlock prep))) d) d) as (_ & -> & _). done.
  - eapply stored_chain; by eauto with ng.
  - by eapply stored_all_exact.
  - by apply stored_no_dust.
Qed.

Lemma rollback_consistent now h st extra d o d' :
  consistent d → rollbackIndexedDataFromHeight now h st extra d = (o, d') → consistent d'.
Proof.
  intros [Hl Hg Hch He Hd] Hr. destruct (rollback_exact _ _ _ _ _ _ _ Hl Hd He Hr) as [Hd' He'].
  destruct (rollback_tables _ _ _ _ _ _ _ Hl Hr) as (Hl' & _). destruct (rollback_sync _ _ _ _ _ _ _ Hr Hg) as [Hg' _].
  split; [done|done| |done|done]. exact (rollback_chain _ _ _ _ _ _ _ _ (linked_rooted _ Hl) Hg Hch Hr).
Qed.

Lemma new_index_consistent m : is_Some (Schema.reorgGeneration m) → consistent (new_index m).
Proof.
  intros Hm. split; [by split|done|by split| |by intros a row Hrow]. intros a _. rewrite compute_figures.
  assert (utxos_of (new_index m) a = []) as ->.
  { destruct (utxos_of _ a) as [|[k u] l] eqn:E; [done|]. assert ((k, u) ∈ utxos_of (new_index m) a) as Hin by (rewrite E; apply list_elem_of_here).
    by apply elem_of_utxos_of in Hin as [? _]. }
  assert (sentTxs_of (new_index m) a = []) as ->; [|done].
  destruct (sentTxs_of _ a) as [|[k t] l] eqn:E; [done|]. assert ((k, t) ∈ sentTxs_of (new_index m) a) as Hin by (rewrite E; apply list_elem_of_here).
  by apply elem_of_sentTxs_of in Hin as [? _].
Qed.

(** C8. From an empty index on, whatever blocks the crawler stores and whatever
    branches it rolls back, interleaved with the job system's writes and with
    failing statements: references name rows that are there, the blocks are a
    gapless stretch of one chain with one block per height, SyncState names its
    tip, and the stored Night balance of every address is what recomputing it
    from the indexed rows gives. The blocks come from the node, whose heights
    follow its hashes, each the first, or indexed already, or stored with its
    parent required and above the indexed ones; their figures fit the columns, and
    their row identifiers are new. *)
Theorem index_stays_consistent m d :
  is_Some (Schema.reorgGeneration m) → rtc index_step (new_index m) d → consistent d.
Proof.
  intros Hm Hr. pose proof (new_index_consistent m Hm) as Hc. revert Hc.
  induction Hr as [d|d d1 d2 Hs _ IH]; intros Hc; [done|]. apply IH. inversion Hs; subst; clear Hs.
  - by eapply persist_consistent.
  - by eapply rollback_consistent.
  - destruct Hc as [Hl Hg Hch He Hd]. split; [exact (linked_chain d (with_main m0 d) eq_refl Hl)|done|exact (one_chain_same height_of d (with_main m0 d) eq_refl eq_refl Hch)| |done].
    intros a Ha. rewrite (compute_chain (with_main m0 d) d) by done. by apply He.
Qed.

End Index.

(** ** Every outcome of storing a block *)

Section Outcomes.
Context `{ScanOrder}.
Variable blake2b : list Z → list Z.
Variable uuid : RowName → string.
Variable now : Z.

(** What storing a block comes to when the database works: in this order. *)
Definition persist_spec (prep : PreparedBlock) (projections : list (Z * EventProjection)) (producer : ProducerOf)
    (requireParent : bool) (d : IndexDb) : outcome ProcessResult * IndexDb :=
  let parentHash := hd_parentHash (sb_header (pb_signedBlock prep)) in
  let parent := block_by_hash parentHash d in
  let rows := block_rows blake2b uuid prep projections in
  if requireParent && bool_decide (0 < pb_height prep)%Z && bool_decide (parent = None)
  then (Throw (orphan parentHash (pb_height prep)), d)
  else if bool_decide (is_Some (block_by_hash (pb_blockHash prep) d))
  then (Ret (MkResult (pb_height prep) (pb_blockHash prep) 0 0), d)
  else if utxos_clash (br_utxos rows) (ix_utxos d)
  then (Throw unique_violation, d)
  else (Ret (MkResult (pb_height prep) (pb_blockHash prep) (length (br_txs rows)) (length (br_actions rows))),
        stored blake2b uuid now prep projections producer parent d).

Lemma applySpends_writes spends deltas d :
  applySpends (λ _, None) spends deltas d =
  (Ret (ss_deltas (spending spends deltas d)), foldl mark_spent d (ss_spentBy (spending spends deltas d))).
Proof. by destruct spends. Qed.

Lemma persist_tx_writes prep projections producer requireParent d :
  let parentHash := hd_parentHash (sb_header (pb_signedBlock prep)) in
  let parent := block_by_hash parentHash d in
  let rows := block_rows blake2b uuid prep projections in
  persist_tx blake2b uuid now (λ _, None) prep projections producer requireParent d =
  if requireParent && bool_decide (0 < pb_height prep)%Z && bool_decide (parent = None)
  then (Throw (orphan parentHash (pb_height prep)), d)
  else if bool_decide (is_Some (block_by_hash (pb_blockHash prep) d)) then (Throw unique_violation, d)
  else if utxos_clash (br_utxos rows) (ix_utxos d)
  then (Throw unique_violation, with_blocks (<[uuid BlockName := block_row prep producer parent]> (ix_blocks d)) d)
  else (Ret tt, stored blake2b uuid now prep projections producer parent d).
Proof.
  cbv zeta. unfold persist_tx, statement. m_unfold. destruct (_ && _ && _); [done|]. case_bool_decide; [done|].
  unfold insert_all, statement. cbn [ix_utxos with_blocks]. destruct (utxos_clash _ _); [done|].
  rewrite applySpends_writes. unfold stored, block_spending, with_rows. set (rows := block_rows _ _ _ _).
  set (d1 := insert_rows _ _). set (s := spending _ _ d1). destruct (deltas_frame now prep (ss_deltas s) (foldl mark_spent d1 (ss_spentBy s))) as (_ & Hs & Hm).
  destruct (mark_frame (ss_spentBy s) d1) as (_ & _ & _ & Hms & Hmm & _). by rewrite Hm, Hmm, Hs, Hms.
Qed.

(** C13. Storing a block has exactly these outcomes: a block whose parent is not
    indexed is refused; a block that is there already is left alone and counts
    nothing; a block that would create an output the index already has is
    refused; any other block is stored whole with the counts of its rows. A
    refused block leaves nothing behind. (The hypothesis: the refusal's text,
    which quotes the parent's hash, is not one of the database's texts for a
    duplicate key.) *)
Theorem persist_decides prep projections producer requireParent d :
  isUniqueViolation (orphan (hd_parentHash (sb_header (pb_signedBlock prep))) (pb_height prep)) = false →
  persistFromNode blake2b uuid now (λ _, None) prep projections producer requireParent d =
  persist_spec prep projections producer requireParent d.
Proof.
  intros Horphan. unfold persistFromNode, persist_spec. m_unfold. unfold try_catch, tx. rewrite persist_tx_writes. cbv zeta.
  destruct (_ && _ && _); [by rewrite Horphan|]. case_bool_decide as Hb.
  - unfold blockExists, statement. simpl. by rewrite bool_decide_eq_true_2.
  - destruct (utxos_clash _ _); [|done]. unfold blockExists, statement. simpl. by rewrite bool_decide_eq_false_2.
Qed.
End Outcomes.

(** ** A rollback undoes a block *)

Section Undo.
Context `{ScanOrder}.
Context (blake2b : list Z → list Z) (uuid : RowName → string) (now : Z) (prep : PreparedBlock).
Context (projections : list (Z * EventProjection)) (producer : ProducerOf) (parent : option string) (d : IndexDb).

Hypothesis Hl : linked d.
Hypothesis Hf : fresh_ids uuid d.
Hypothesis Habove : ∀ k b, ix_blocks d !! k = Some b → (b_height b < pb_height prep)%Z.

Let rows := block_rows blake2b uuid prep projections.
Let h := pb_height prep.

(** The index as a rollback finds it: its chain tables are those of the block
    just stored. *)
Context (d1 : IndexDb).
Hypothesis Hd1 : chain_of d1 = chain_of (stored blake2b uuid now prep projections producer parent d).

Let B := rolled_blocks d1 h.
Let T := tx_ids (rolled_txs d1 B).
Let new := Tx blake2b uuid prep projections.

Lemma found_linked : linked d1.
Proof. eapply linked_chain; [exact Hd1|]. by apply stored_linked. Qed.

Lemma found_blocks k b :
  ix_blocks d1 !! k = Some b ↔ ix_blocks d !! k = Some b ∨ (k = uuid BlockName ∧ b = block_row prep producer parent).
Proof. destruct (chain_same _ _ Hd1) as (-> & _). by apply stored_blocks. Qed.

Lemma found_txs k t : ix_transactions d1 !! k = Some t ↔ ix_transactions d !! k = Some t ∨ (k, t) ∈ br_txs rows.
Proof. destruct (chain_same _ _ Hd1) as (_ & -> & _). by apply stored_txs. Qed.

Lemma in_B x : x ∈ B ↔ x = uuid BlockName.
Proof.
  unfold B. rewrite rolled_iff by apply linked_rooted, found_linked. setoid_rewrite found_blocks. split.
  - intros (b & [Hb|[-> _]] & Hh); [|done]. apply Habove in Hb. unfold h in Hh. lia.
  - intros ->. eexists. split; [by right|]. unfold h. simpl. lia.
Qed.

Lemma in_T x : x ∈ T ↔ new x.
Proof.
  unfold T, B. rewrite removed_tx_iff by apply linked_rooted, found_linked. fold B. setoid_rewrite found_txs. setoid_rewrite in_B. split.
  - intros (t & [Ht|Ht] & Hb); [|by exists t]. destruct (lk_tx _ Hl _ _ Ht) as [b Hbl]. rewrite Hb, (fi_blocks _ _ Hf) in Hbl. done.
  - intros [t Ht]. exists t. split; [by right|]. by apply block_txs in Ht as (i & _ & ?).
Qed.

Lemma new_not_old x : new x → ix_transactions d !! x = None.
Proof. intros Hx. by apply (Tx_ids _ _ _ _ _ Hf) in Hx as [_ ?]. Qed.

(** A reference to an old transaction is not removed, one of the block is. *)
Lemma old_ref r : linked_to (ix_transactions d) r → refs_in T r = false.
Proof.
  destruct r as [x|]; [|done]. intros [t Ht]. apply bool_decide_eq_false_2. rewrite in_T. intros Hx%new_not_old. congruence.
Qed.

Lemma new_ref x : new x → refs_in T (Some x) = true.
Proof. intros Hx. apply bool_decide_eq_true_2. by rewrite in_T. Qed.

(** A table whose old rows are linked and whose new rows are the block's. *)
Lemma refs_undone {R} (r : Ref R) (t t1 t2 : gmap string R) (l : list (string * R)) :
  (∀ k x, t2 !! k = Some x ↔ t1 !! k = Some x ∧ refs_in T (ref x) = false) →
  (∀ k x, t1 !! k = Some x ↔ t !! k = Some x ∨ (k, x) ∈ l) →
  (∀ k x, t !! k = Some x → linked_to (ix_transactions d) (ref x)) →
  (∀ k x, (k, x) ∈ l → ∃ y, new y ∧ ref x = Some y) → t2 = t.
Proof.
  intros H2 H1 Hold Hnew. apply map_eq. intros k. apply option_eq. intros x. rewrite H2, H1. split.
  - intros [[?|Hx] Hr]; [done|]. apply Hnew in Hx as (y & Hy & Hxy). rewrite Hxy, new_ref in Hr by done. done.
  - intros Hx. split; [by left|]. by eapply old_ref, Hold.
Qed.

Lemma undone_utxos : ix_utxos (remove_rows h d1) = ix_utxos d.
Proof.
  apply map_eq. intros k. apply option_eq. intros u. rewrite removed_utxos. fold B. fold T.
  destruct (chain_same _ _ Hd1) as (_ & _ & ->). setoid_rewrite stored_utxos; [|done].
  set (m := marked _ k). assert (∀ u0, u_createdAtTransaction (mark m u0) = u_createdAtTransaction u0) as Hcr by (by destruct m).
  assert (∀ u0, ix_utxos d !! k = Some u0 → freed T (mark m u0) = u0) as Hfr.
  { intros u0 Hu0. destruct (lk_utxo _ Hl _ _ Hu0) as [_ Hs]. unfold m. destruct (marked _ k) as [x|] eqn:Em; cbn [mark].
    - apply marks in Em as [Hx (u1 & Hu1 & Hp)]; [|done]. apply inserted_utxos in Hu1; [|done].
      unfold freed. cbn [set_spent u_spentAtTransaction]. rewrite new_ref by done.
      assert (u1 = u0) as ->.
      { destruct Hu1 as [Hu1|Hu1]; [congruence|]. apply block_utxos in Hu1 as (i & j & -> & _). by rewrite (fi_utxos _ _ Hf) in Hu0. }
      assert (u_spentAtTransaction u0 = None) as Hn; [|by destruct u0; simpl in Hn; subst].
      destruct (u_spentAtTransaction u0) as [y|] eqn:Ey; [|done]. exfalso. destruct Hs as [t Ht].
      assert (present (Some y) = Some y) as Hpy; [|congruence]. apply present_Some. split; [done|]. intros ->. by rewrite (lk_tx_ids _ Hl) in Ht.
    - unfold freed. by rewrite old_ref. }
  split.
  - intros (u0 & (u00 & [Hu|Hu] & ->) & Hc & ->); [by rewrite Hfr|]. exfalso. apply Hc. rewrite Hcr.
    apply block_utxos in Hu as (i & j & _ & Hx & _). by apply in_T.
  - intros Hu. exists (mark m u). rewrite Hfr by done. split_and!; [eauto|rewrite Hcr, in_T|done].
    intros Hx%new_not_old. destruct (lk_utxo _ Hl _ _ Hu) as [[t Ht] _]. congruence.
Qed.

Hypothesis Hstates : ∀ k n, ix_contractStates d !! k = Some n → (n < h)%Z.

Lemma undone_chain : chain_of (remove_rows h d1) = chain_of d.
Proof.
  destruct (block_refs blake2b uuid (fi_inj _ d Hf) prep projections) as (R1 & R2 & R3 & _).
  destruct (stored_refs blake2b uuid now prep projections producer parent d Hf) as (Sa & Sf & Sr).
  destruct (stored_tables blake2b uuid now prep projections producer parent d) as (_ & _ & _ & _ & T1 & T2 & T3 & T4 & _ & _ & T5 & T6).
  pose proof Hd1 as Hc. unfold chain_of in Hc. injection Hc as _ _ Ca Cb Cs _ Cz Cd Cf Cr Cg Ci.
  assert (∀ R k (x : R) (t t1 : gmap string R), t1 = t → t1 !! k = Some x ↔ t !! k = Some x ∨ (k, x) ∈ []) as Hsame.
  { intros R k x t t1 ->. split; [by left|]. by intros [?|?%not_elem_of_nil]. }
  assert (ix_contractActions (remove_rows h d1) = ix_contractActions d) as Ea.
  { eapply refs_undone; [intros; by apply (removed_refs d1 h ix_contractActions)|rewrite Ca; apply Sa|apply Hl|].
    intros k x Hx. apply R3 in Hx as (i & j & y & _ & ? & ?). eauto. }
  assert (ix_fees (remove_rows h d1) = ix_fees d) as Ef.
  { eapply refs_undone; [intros; by apply (removed_refs d1 h ix_fees)|rewrite Cf; apply Sf|apply Hl|].
    intros k x Hx. apply R2 in Hx as (i & y & _ & ? & ?). eauto. }
  assert (ix_results (remove_rows h d1) = ix_results d) as Er.
  { eapply refs_undone; [intros; by apply (removed_refs d1 h ix_results)|rewrite Cr; apply Sr|apply Hl|].
    intros k x Hx. apply R1 in Hx as (i & y & _ & ? & ?). eauto. }
  unfold chain_of.
  assert (ix_blocks (remove_rows h d1) = ix_blocks d) as ->.
  { apply map_eq. intros k. apply option_eq. intros b. rewrite removed_blocks. fold B. rewrite in_B, found_blocks.
    split; [by intros [[?|[-> _]] Hn]|]. intros Hk. split; [by left|]. intros ->. by rewrite (fi_blocks _ _ Hf) in Hk. }
  assert (ix_transactions (remove_rows h d1) = ix_transactions d) as ->.
  { apply map_eq. intros k. apply option_eq. intros t. rewrite removed_txs. fold B. rewrite in_B, found_txs. split.
    - intros [[?|Ht] Hb]; [done|]. by apply block_txs in Ht as (i & _ & ?).
    - intros Ht. split; [by left|]. intros Hb. destruct (lk_tx _ Hl _ _ Ht) as [b Hbl]. rewrite Hb, (fi_blocks _ _ Hf) in Hbl. done. }
  assert (ix_contractStates (remove_rows h d1) = ix_contractStates d) as ->.
  { apply map_eq. intros k. apply option_eq. intros n. rewrite removed_states, Cs, T2. split; [by intros [? _]|]. eauto. }
  assert (ix_zswapEvents (remove_rows h d1) = ix_zswapEvents d) as ->.
  { eapply (refs_undone _ _ _ _ []); [intros; by apply (removed_refs (R:=option string) d1 h ix_zswapEvents)|intros; by apply Hsame; rewrite Cz|apply Hl|set_solver]. }
  assert (ix_dustEvents (remove_rows h d1) = ix_dustEvents d) as ->.
  { eapply (refs_undone _ _ _ _ []); [intros; by apply (removed_refs (R:=option string) d1 h ix_dustEvents)|intros; by apply Hsame; rewrite Cd|apply Hl|set_solver]. }
  assert (ix_identifiers (remove_rows h d1) = ix_identifiers d) as ->.
  { eapply (refs_undone _ _ _ _ []); [intros; by apply (removed_refs d1 h ix_identifiers)|intros; by apply Hsame; rewrite Ci|apply Hl|set_solver]. }
  assert (ix_contractBalances (remove_rows h d1) = ix_contractBalances d) as ->.
  { apply map_eq. intros k. apply option_eq. intros r. rewrite removed_balances, Cb, T1, Ca. fold B. fold T. split; [by intros [? _]|].
    intros Hr. split; [done|]. intros x r' -> Hx. apply (lk_balances _ Hl) in Hr as [r0 Hr0].
    assert (r' = r0) as ->.
    { apply Sa in Hx as [Hx|Hx]; [congruence|]. apply R3 in Hx as (i & j & y & -> & _). by rewrite (fi_actions _ _ Hf) in Hr0. }
    by eapply old_ref, lk_actions. }
  assert (ix_segments (remove_rows h d1) = ix_segments d) as ->; [|by rewrite Ea, Ef, Er, undone_utxos].
  apply map_eq. intros k. apply option_eq. intros r. rewrite removed_segments, Cg, T5, Cr. fold B. fold T. split; [by intros [? _]|].
  intros Hr. split; [done|]. intros x r' -> Hx. apply (lk_segments _ Hl) in Hr as [r0 Hr0].
  assert (r' = r0) as ->.
  { apply Sr in Hx as [Hx|Hx]; [congruence|]. apply R1 in Hx as (i & y & -> & _). by rewrite (fi_results _ _ Hf) in Hr0. }
  by eapply old_ref, lk_results.
Qed.
End Undo.

Section Roundtrip.
Context `{ScanOrder}.
Variable height_of : string → Z.

(** The fork block a rollback finds on an unchanged chain is its tip. *)
Lemma fork_is_tip h d d2 : one_chain height_of d → ix_blocks d2 = ix_blocks d → ix_blocks d ≠ ∅ →
  (∀ k b, ix_blocks d !! k = Some b → (b_height b < h)%Z) →
  (∀ now st extra s, tip (with_sync (rolled_sync now (selectForkBlock h d2) st extra s) d2) = tip d).
Proof.
  intros [_ Hu _ _ Ht] Hb Hne Hh now st extra s. pose proof (selectForkBlock_spec h d2) as Hf. rewrite Hb in Hf.
  unfold tip. destruct (sy_lastIndexedHash (ix_sync d)) as [hash|]; [|done]. destruct Ht as (k0 & b0 & Hk0 & <- & -> & Hmax).
  destruct (selectForkBlock h d2) as [[k b]|]; [|by specialize (Hf _ _ Hk0); specialize (Hh _ _ Hk0); lia].
  destruct Hf as (Hk & _ & Hle). specialize (Hle _ _ Hk0 (Hh _ _ Hk0)). specialize (Hmax _ _ Hk).
  assert (k = k0) as -> by (eapply Hu; [done|done|lia]). by simplify_eq/=.
Qed.

(** C12. Storing a block and rolling back from its height is the identity on the
    index: every chain table, the figures of every address and the tip are what
    they were, whatever the block created, spent or moved. *)
Theorem persist_rollback_roundtrip blake2b uuid now fault prep projections producer requireParent d r d1 now' st extra o d2 :
  consistent height_of d → fresh_ids uuid d → from_node height_of prep → counts_fit d → next_block requireParent prep d →
  (∀ k n, ix_contractStates d !! k = Some n → (n < pb_height prep)%Z) → block_by_hash (pb_blockHash prep) d = None →
  persistFromNode blake2b uuid now fault prep projections producer requireParent d = (Ret r, d1) →
  rollbackIndexedDataFromHeight now' (pb_height prep) st extra d1 = (o, d2) →
  chain_of d2 = chain_of d ∧
  (∀ a, a ≠ EmptyString → stored_figures <$> ix_nightBalances d2 !! a = stored_figures <$> ix_nightBalances d !! a) ∧
  (ix_blocks d ≠ ∅ → tip d2 = tip d).
Proof.
  intros Hc Hf Hn Hfit Hnext Hst Hnew Hp Hr.
  pose proof (persist_consistent _ _ _ _ _ _ _ _ _ _ _ _ Hf Hn Hfit Hnext Hc Hp) as Hc1.
  pose proof (rollback_consistent _ _ _ _ _ _ _ _ Hc1 Hr) as Hc2.
  destruct (next_above _ _ _ _ (cs_chain _ _ Hc) Hnext Hnew) as [Habove _].
  apply persist_stores in Hp as [[_ [x Hx]]|(_ & _ & _ & ->)]; [congruence|].
  set (d1 := stored _ _ _ _ _ _ _ d) in *.
  pose proof (rollback_result _ _ _ _ _ _ _ Hr) as (d0 & Hc0 & _ & Hce & _).
  assert (chain_of d2 = chain_of d) as Hch.
  { rewrite Hce. destruct (rolled_cases now' (pb_height prep) d0) as [[HB _]| ->].
    - exfalso. assert (uuid BlockName ∈ rolled_blocks d0 (pb_height prep)) as Hin.
      { apply (in_B blake2b uuid now prep projections producer _ d (cs_linked _ _ Hc) Hf Habove d0 Hc0). done. }
      rewrite HB in Hin. by apply not_elem_of_nil in Hin.
    - rewrite recompute_all_chain. exact (undone_chain blake2b uuid now prep projections producer _ d (cs_linked _ _ Hc) Hf Habove d0 Hc0 Hst). }
  split; [done|]. split.
  - intros a Ha. rewrite (cs_exact _ _ Hc2 a Ha), (cs_exact _ _ Hc a Ha). by apply compute_chain.
  - intros Hne. destruct (rollback_sync _ _ _ _ _ _ _ Hr (cs_sync _ _ Hc1)) as [_ Hs].
    rewrite bool_decide_eq_false_2 in Hs.
    + rewrite <- (fork_is_tip (pb_height prep) d d2 (cs_chain _ _ Hc) (proj1 (chain_same _ _ Hch)) Hne Habove now' st extra (ix_sync d1)).
      unfold tip. by rewrite Hs.
    + intros HB. assert (uuid BlockName ∈ rolled_blocks d1 (pb_height prep)) as Hin.
      { eapply (in_B blake2b uuid now prep projections producer _ d (cs_linked _ _ Hc) Hf Habove d1 eq_refl). done. }
      rewrite HB in Hin. by apply not_elem_of_nil in Hin.
Qed.
End Roundtrip.
