(* ===== verification/IndexExamples.v ===== *)
(** The theorems on the chain index at concrete blocks: a genesis block that pays
    an address, a block that spends the output, and its rollback. *)
From Stdlib Require Import Ascii.
From stdpp Require Import countable.
From S2P Require Import Prelude Db Json Retry Numbers Schema Scale Reconciliation Rollback RollbackFacts BalanceCheck.
From S2P Require Import BlockEvents NodeRpc BlockProcessor PersistFacts BalanceUpdates StoredBalances IndexMachine IndexProperties.

Set Warnings "-register-all".

Local Open Scope string_scope.
Local Open Scope list_scope.

#[local] Existing Instance key_order.

(** ** Identifiers *)

#[export] Instance RowName_countable : Countable RowName.
Proof.
  apply (inj_countable'
    (λ n, match n with
          | BlockName => inl (inl ()) | TxName i => inl (inr (inl i)) | ResultName i => inl (inr (inr i))
          | FeeName i => inr (inl i) | ActionName i k => inr (inr (inl (i, k))) | UtxoName i k => inr (inr (inr (i, k)))
          end)
    (λ c, match c with
          | inl (inl ()) => BlockName | inl (inr (inl i)) => TxName i | inl (inr (inr i)) => ResultName i
          | inr (inl i) => FeeName i | inr (inr (inl (i, k))) => ActionName i k | inr (inr (inr (i, k))) => UtxoName i k
          end)).
  by intros [].
Defined.

(** Identifiers of one block start with its letter. *)
Definition ids (c : ascii) (n : RowName) : string := String c (pretty (Npos (encode n))).

Definition lettered (cs : list ascii) (k : string) : bool := match k with String a _ => bool_decide (a ∈ cs) | EmptyString => false end.

Lemma other_letter {R} cs (c : ascii) (t : gmap string R) :
  forallb (λ kr, lettered cs kr.1) (map_to_list t) = true → c ∉ cs → ∀ x, t !! String c x = None.
Proof.
  intros Ht Hne x. destruct (t !! String c x) as [r|] eqn:E; [|done].
  pose proof (map_check (λ k _, lettered cs k) t Ht _ _ E) as Hl. by apply bool_decide_eq_true_1 in Hl.
Qed.

Definition all_lettered (cs : list ascii) (d : IndexDb) : bool :=
  let ok {R} (t : gmap string R) := forallb (λ kr, lettered cs kr.1) (map_to_list t) in
  ok (ix_blocks d) && ok (ix_transactions d) && ok (ix_contractActions d) && ok (ix_utxos d) && ok (ix_fees d) && ok (ix_results d).

Lemma ids_fresh cs c d : all_lettered cs d = true → c ∉ cs → fresh_ids (ids c) d.
Proof.
  unfold all_lettered. intros [[[[[H1 H2]%andb_prop H3]%andb_prop H4]%andb_prop H5]%andb_prop H6]%andb_prop Hne. split.
  2: by intros n. 2-7: intros n; by eapply other_letter.
  intros n n' [= Hp]. apply (inj pretty) in Hp. injection Hp as Hp. by apply (inj encode) in Hp.
Qed.

Ltac other_letters := intros Hin; repeat (apply elem_of_cons in Hin as [Hin|Hin]; [done|]); by apply not_elem_of_nil in Hin.

(** ** Two blocks *)

Definition example_height (hash : string) : Z :=
  if bool_decide (hash = "0xa") then 0 else if bool_decide (hash = "0xb") then 1
  else if bool_decide (hash ∈ ["0xc"; "0xg"]) then 2 else -1.

(** A block with one extrinsic, and what its events created and spent. *)
Definition example_block (hash parent : string) (height : Z) : PreparedBlock :=
  MkFetched hash height (MkSignedBlock (MkHeader parent "0x0" "0xroot" []) ["0x040500"]) 1 (buildPalletMap None) height None.

Definition pays_alice : list (Z * EventProjection) :=
  [(0%Z, MkProjection [MkPrepared "alice" NIGHT_RAW_TOKEN_TYPE 5 "0xi1" 0 "nonce" 0] [] None None None)].
Definition alice_pays_bob : list (Z * EventProjection) :=
  [(0%Z, MkProjection [MkPrepared "bob" NIGHT_RAW_TOKEN_TYPE 5 "0xi2" 0 "nonce" 1] [("0xi1", 0%Z)] (Some "alice") (Some "bob") (Some 5%Z))].

Definition example_main : Database := MkDatabase ∅ ∅ ∅ (Some (Some 0%Z)).

Definition store (c : ascii) (prep : PreparedBlock) (projections : list (Z * EventProjection)) (d : IndexDb) : outcome ProcessResult * IndexDb :=
  persistFromNode (λ _, []) (ids c) 99 (λ _, None) prep projections (None, None) true d.

Definition block_a : PreparedBlock := example_block "0xa" "0x0" 0.
Definition block_b : PreparedBlock := example_block "0xb" "0xa" 1.

Definition after_a : IndexDb := (store "a" block_a pays_alice (new_index example_main)).2.
Definition after_b : IndexDb := (store "b" block_b alice_pays_bob after_a).2.
Definition after_undo : IndexDb := (rollbackIndexedDataFromHeight 99 1 "syncing" None after_b).2.

Definition balance_of (a : string) (d : IndexDb) : option (Z * Z * option Z) :=
  (λ b, (nb_balance b, nb_totalSent b, nb_lastActivityHeight b)) <$> ix_nightBalances d !! a.

Example balances_move :
  (balance_of "alice" after_a, balance_of "alice" after_b, balance_of "bob" after_b, balance_of "alice" after_undo, balance_of "bob" after_undo) =
  (Some (5, 0, Some 0), Some (0, 5, Some 1), Some (5, 0, Some 1), Some (5, 0, Some 0), None)%Z.
Proof. vm_compute. reflexivity. Qed.

Lemma block_a_from_node : from_node example_height block_a.
Proof. by split. Qed.
Lemma block_b_from_node : from_node example_height block_b.
Proof. by split. Qed.

Lemma fits_small d : (size (ix_utxos d) <=? 9)%nat && (size (ix_transactions d) <=? 9)%nat = true → counts_fit d.
Proof. intros [Hu%Nat.leb_le Ht%Nat.leb_le]%andb_prop. unfold counts_fit, MAX_SAFE_INTEGER. lia. Qed.

Lemma step_a : index_step example_height (new_index example_main) after_a.
Proof.
  eapply (step_persist example_height (λ _, []) (ids "a") 99 (λ _, None) block_a pays_alice (None, None) true); [..|apply surjective_pairing].
  - by apply (ids_fresh []); [|apply not_elem_of_nil].
  - apply block_a_from_node.
  - by apply fits_small.
  - by left.
Qed.

Lemma ids_b_fresh : fresh_ids (ids "b") after_a.
Proof. apply (ids_fresh ["a"%char]); [vm_compute; reflexivity|]. other_letters. Qed.

Lemma after_a_fits : counts_fit after_a.
Proof. apply fits_small. vm_compute. reflexivity. Qed.

Lemma block_b_next : next_block true block_b after_a.
Proof.
  right. right. split; [done|]. intros k b Hk. apply (bool_decide_eq_true_1 (b_height b < 1)%Z). revert k b Hk. apply map_check.
  vm_compute. reflexivity.
Qed.

Lemma step_b : index_step example_height after_a after_b.
Proof.
  eapply (step_persist example_height (λ _, []) (ids "b") 99 (λ _, None) block_b alice_pays_bob (None, None) true); [..|apply surjective_pairing].
  - apply ids_b_fresh.
  - apply block_b_from_node.
  - apply after_a_fits.
  - apply block_b_next.
Qed.

Lemma index_stays_consistent_witness : consistent example_height after_undo ∧ balance_of "alice" after_undo = Some (5, 0, Some 0)%Z.
Proof.
  split; [|vm_compute; reflexivity].
  apply (index_stays_consistent example_height example_main after_undo); [by eexists|].
  eapply rtc_l; [apply step_a|]. eapply rtc_l; [apply step_b|]. eapply rtc_l; [|apply rtc_refl].
  eapply (step_rollback example_height 99 1 "syncing" None). apply surjective_pairing.
Defined.

Lemma after_a_consistent : consistent example_height after_a.
Proof.
  eapply persist_consistent; [| | | | |apply surjective_pairing].
  - by apply (ids_fresh []); [|apply not_elem_of_nil].
  - apply block_a_from_node.
  - by apply fits_small.
  - by left.
  - apply new_index_consistent. by eexists.
Qed.

Lemma after_b_stored : store "b" block_b alice_pays_bob after_a = (Ret (MkResult 1 "0xb" 1 0), after_b).
Proof. rewrite (surjective_pairing (store _ _ _ _)). apply (f_equal (λ x, (x, after_b))). vm_compute. reflexivity. Qed.

Lemma persist_rollback_roundtrip_witness : chain_of after_undo = chain_of after_a.
Proof.
  refine (proj1 (persist_rollback_roundtrip example_height (λ _, []) (ids "b") 99 (λ _, None) block_b alice_pays_bob (None, None) true after_a
    (MkResult 1 "0xb" 1 0) after_b 99 "syncing" None (rollbackIndexedDataFromHeight 99 1 "syncing" None after_b).1 after_undo
    after_a_consistent ids_b_fresh block_b_from_node after_a_fits block_b_next _ _ after_b_stored _)).
  - intros k n Hk. vm_compute in Hk. discriminate Hk.
  - vm_compute. reflexivity.
  - apply surjective_pairing.
Defined.

(** A block whose parent is missing leaves the index as it was. *)
Definition block_gap : PreparedBlock := example_block "0xd" "0xc" 3.

Lemma persist_decides_witness : store "d" block_gap [] after_b = (Throw (orphan "0xc" 3), after_b).
Proof.
  unfold store. rewrite (persist_decides (λ _, []) (ids "d") 99 block_gap [] (None, None) true after_b) by (vm_compute; reflexivity).
  vm_compute. reflexivity.
Defined.

(** A row a rollback zeroed for its DUST registration has no first height; the
    next block makes it 0, not the block's height. *)
Definition zeroed_alice : IndexDb :=
  with_nightBalances {[ "alice" := MkNightBalance 0 0 0 0 0 0 None (Some 1%Z) None None (Some "dust1") (Some true) (Some 3%Z) (Some 9%Z) ]}
    (new_index example_main).

Example dust_row_first_seen_zero :
  reconcileNightBalance zeroed_alice "alice" = [] ∧
  reconcileNightBalance (persistFromNode (λ _, []) (ids "a") 99 (λ _, None) (example_block "0xa" "0x0" 7) pays_alice (None, None) false
    zeroed_alice).2 "alice" = [MkDrift "alice" "firstSeenHeight" (Some "0") (Some "7")].
Proof. split; vm_compute; reflexivity. Qed.
