(* ===== verification/PayloadDecoder.v ===== *)
(** The ledger transaction inside a stored extrinsic: where it lies
    (srv/crawler/ledger-payload.ts), how the stored bytes are read back
    (readCapBinary of srv/crawler/cap-binary.ts), and what its decoded form says;
    the ledger library decodes it in a worker, whose answer is a
    [LedgerPayloadFacts]. Then the pass that decodes the stored transactions
    (srv/crawler/LedgerPayloadDecoder.ts, srv/crawler/transaction-identifiers.ts), and
    the cursor every trailing pass shares (srv/crawler/cursor-pass.ts,
    srv/crawler/redecode.ts).

    Between any two of its statements the crawler, a rollback or a reset of the
    cursor may run. *)
From Stdlib Require Import Ascii.
From S2P Require Import Prelude Db Json Numbers Schema Reconciliation Rollback Scale ScaleFacts.

Set Warnings "-register-all".

Local Open Scope string_scope.

(** A binary column holds its bytes in base64. *)
Definition readCapBinary (value : option string) : option (list Z) := from_base64 <$> value.

(** ** The payload *)

Definition extractLedgerPayload (buf : list Z) (argsOffset : nat) : option (list Z) :=
  '(len, prefixSize) ← decodeCompact buf argsOffset;
  let start := argsOffset + prefixSize in
  if bool_decide (len ≤ 0)%Z || bool_decide (Z.of_nat (length buf) < Z.of_nat start + len)%Z then None
  else Some (take (Z.to_nat len) (drop start buf)).

Record DeclaredContractAction := MkDeclared { dc_address : string; dc_entryPoint : option string }.

Record LedgerPayloadFacts := MkPayloadFacts {
  lf_identifiers : list string; lf_contractActions : list DeclaredContractAction;
  lf_zswapInputCount : Z; lf_zswapOutputCount : Z; lf_zswapTransientCount : Z;
  lf_dustSpendCount : Z; lf_dustRegistrationCount : Z; lf_dustSpendValue : Z }.

Definition carriesShieldedCoins (facts : LedgerPayloadFacts) : bool :=
  bool_decide (0 < lf_zswapInputCount facts + lf_zswapOutputCount facts + lf_zswapTransientCount facts)%Z.

Definition carriesProof (facts : LedgerPayloadFacts) : bool :=
  carriesShieldedCoins facts || existsb (λ a, bool_decide (is_Some (dc_entryPoint a))) (lf_contractActions facts).

Definition callFreeTxType (facts : LedgerPayloadFacts) : option string :=
  match lf_contractActions facts with
  | _ :: _ => None
  | [] =>
      if carriesShieldedCoins facts then Some "shielded_transfer"
      else if bool_decide (0 < lf_dustRegistrationCount facts)%Z then Some "dust_registration"
      else None
  end.

(** ** What the index stores of an extrinsic *)

(** The payload the decode pass finds in the raw column of a transaction. *)
Definition stored_payload (raw : option string) : option (list Z) :=
  buf ← readCapBinary raw;
  call ← parseExtrinsicCall ("0x" ++ to_hex buf);
  extractLedgerPayload (ec_buf call) (ec_argsOffset call).

Lemma bareHex_stored l : Forall is_byte l → hexToBase64 ("0x" ++ to_hex l) = if bool_decide (l = []) then None else Some (base64 l).
Proof.
  intros Hl. unfold hexToBase64. rewrite bareHex_prefixed, to_hex_length, Nat.mul_comm, Nat.Div0.mod_mul, hex_roundtrip by done.
  destruct l as [|x l]; [done|]. rewrite bool_decide_eq_false_2 by done. by rewrite orb_false_r.
Qed.

Lemma payload_found buf offset p rest :
  drop offset buf = (encodeCompact (Z.of_nat (length p)) ++ p ++ rest)%list →
  (0 < Z.of_nat (length p) ≤ MAX_SAFE_INTEGER)%Z → extractLedgerPayload buf offset = Some p.
Proof.
  intros Hd Hp. set (len := encodeCompact (Z.of_nat (length p))) in *.
  assert (offset < length buf) as Hlt.
  { apply Nat.nle_gt. intros Hle. rewrite drop_ge in Hd by done. pose proof (encodeCompact_nonempty (Z.of_nat (length p))).
    apply (f_equal length) in Hd. rewrite length_app in Hd. fold len in H. simpl in Hd. lia. }
  assert (∃ pre, buf = (pre ++ len ++ p ++ rest)%list ∧ offset = length pre) as (pre & -> & ->).
  { exists (take offset buf). rewrite <- Hd, take_drop, length_take. split; [done|lia]. }
  clear Hd Hlt. unfold extractLedgerPayload, decodeCompact, len. rewrite compact_roundtrip by (unfold MAX_SAFE_INTEGER in Hp; lia).
  fold len. cbn -[length Z.of_nat MAX_SAFE_INTEGER app take drop].
  rewrite (bool_decide_eq_false_2 (MAX_SAFE_INTEGER < _)%Z) by lia.
  rewrite (bool_decide_eq_false_2 (_ ≤ 0)%Z) by lia. rewrite bool_decide_eq_false_2 by (rewrite !length_app; lia). cbn [orb].
  by rewrite Nat2Z.id, app_assoc, <- length_app, drop_app_length, take_app_length.
Qed.

(** * The pass *)

(** ** The window *)

Inductive PassCursorColumn := lastDecodedHeight | lastSupplementedHeight.

Definition cursor_of (column : PassCursorColumn) (s : SyncCols) : option Z :=
  match column with lastDecodedHeight => sy_lastDecodedHeight s | lastSupplementedHeight => sy_lastSupplementedHeight s end.

Definition set_cursor (column : PassCursorColumn) (v : option Z) (s : SyncCols) : SyncCols :=
  match column with
  | lastDecodedHeight =>
      MkSync (sy_lastIndexedHeight s) (sy_lastIndexedHash s) (sy_lastIndexedAt s) v (sy_lastSupplementedHeight s)
        (sy_syncStatus s) (sy_syncProgress s)
  | lastSupplementedHeight =>
      MkSync (sy_lastIndexedHeight s) (sy_lastIndexedHash s) (sy_lastIndexedAt s) (sy_lastDecodedHeight s) v
        (sy_syncStatus s) (sy_syncProgress s)
  end.

(** The SyncState row is there. *)
Definition has_sync (d : IndexDb) : bool := bool_decide (is_Some (reorgGeneration (ix_main d))).

Record PassPosition := MkPosition { pp_cursor : option Z; pp_generation : Z }.

Record PassWindow := MkWindow { pw_start : PassPosition; pw_from : Z; pw_ceiling : Z }.

(** Cursor and rollback counter are read together. *)
Definition readPassWindow (column : PassCursorColumn) (lagBlocks : Z) (d : IndexDb) : option PassWindow :=
  if has_sync d then
    let cursor := cursor_of column (ix_sync d) in
    Some (MkWindow (MkPosition cursor (generation_of (ix_main d)))
            (match cursor with None => 0 | Some c => c + 1 end)%Z
            (nullish (sy_lastIndexedHeight (ix_sync d)) 0 - lagBlocks)%Z)
  else None.

Definition windowIsEmpty (w : PassWindow) : bool := bool_decide (pw_ceiling w < pw_from w)%Z.

Section Pass.
Context `{ScanOrder}.

Definition height_le : relation (string * BlockRow) := λ a b, (b_height a.2 ≤ b_height b.2)%Z.
#[export] Instance height_le_dec : RelDecision height_le.
Proof. intros a b. unfold height_le. apply _. Defined.
#[export] Instance height_le_total : Total height_le.
Proof. intros a b. unfold height_le. lia. Qed.
#[export] Instance height_le_trans : Transitive height_le.
Proof. intros a b c. unfold height_le. lia. Qed.

(** [.orderBy('height asc').limit(limit)]: ID and height of each row. *)
Definition blocksInRange (from ceiling : Z) (limit : nat) (d : IndexDb) : list (string * Z) :=
  (λ kb, (kb.1, b_height kb.2)) <$>
  take limit (merge_sort height_le
    (sql_select (λ _ b, bool_decide (from ≤ b_height b)%Z && bool_decide (b_height b ≤ ceiling)%Z) (ix_blocks d))).

(** The transaction that saves the cursor. *)
Definition advancePassCursor (column : PassCursorColumn) (expected : PassPosition) (height : Z) : M IndexDb bool :=
  generation ← on_main lockReorgGeneration;
  d ← get;
  let now := cursor_of column (ix_sync d) in
  if negb (bool_decide (generation = pp_generation expected)) || negb (bool_decide (now = pp_cursor expected)) then mret false
  else
    _ ← put (if has_sync d then with_sync (set_cursor column (Some height) (ix_sync d)) d else d);
    mret true.

(** ** Decoding again *)

Record RedecodeResult := MkRedecode {
  rd_fromHeight : Z; rd_previousDecodedHeight : option Z; rd_blocks : nat; rd_changed : bool }.

Definition redecode_error (message : string) : exn := Exn "RedecodeError" EmptyString message.

(** A number, or a text of decimal digits. (A double rounds a text beyond 2^53;
    every such height is far above any block.) *)
Definition redecode_height (height : json) : option Z :=
  match height with
  | JInt n => Some n
  | JStr s => if negb (is_empty s) && all_chars is_digit s then Some (toBigInt (JStr s)) else None
  | _ => None
  end.

Definition redecode_tx (from : Z) : M IndexDb RedecodeResult :=
  _ ← on_main lockReorgGeneration;
  d ← get;
  if negb (has_sync d) then throw (redecode_error "the index has no sync state yet")
  else
    let cursor := sy_lastDecodedHeight (ix_sync d) in
    let indexed := nullish (sy_lastIndexedHeight (ix_sync d)) 0%Z in
    let blocks := length (sql_select (λ _ b, bool_decide (from ≤ b_height b)%Z && bool_decide (b_height b ≤ indexed)%Z) (ix_blocks d)) in
    if match cursor with None => true | Some c => bool_decide (c < from)%Z end then mret (MkRedecode from cursor blocks false)
    else
      _ ← put (with_sync (set_cursor lastDecodedHeight (if bool_decide (from = 0%Z) then None else Some (from - 1)%Z) (ix_sync d)) d);
      mret (MkRedecode from cursor blocks true).

Definition redecodeFromHeight (height : json) : M IndexDb RedecodeResult :=
  match redecode_height height with
  | Some from => if bool_decide (from < 0)%Z then throw (redecode_error "height must be a non-negative integer") else tx (redecode_tx from)
  | None => throw (redecode_error "height must be a non-negative integer")
  end.
End Pass.

(** ** The decode pass *)

(** ** What else runs *)

(** At each moment: what the others do to the index before the pass's next
    statement, what the database raises at it, and what the decode worker makes
    of a payload. *)
Record PassWorld := MkPassWorld {
  w_others : nat → IndexDb → IndexDb; w_fault : nat → option exn; w_decode : nat → list Z → outcome LedgerPayloadFacts }.

Record PassState := MkPass { ps_clock : nat; ps_db : IndexDb }.

(** ** Identifiers *)

Definition normalizeIdentifier (raw : string) : string := bareHex (Some (JStr raw)).

Definition with_identifiers (t : gmap string IdentifierRow) (d : IndexDb) : IndexDb :=
  MkIndexDb (ix_blocks d) (ix_transactions d) (ix_contractActions d) (ix_contractBalances d) (ix_contractStates d)
    (ix_utxos d) (ix_zswapEvents d) (ix_dustEvents d) (ix_fees d) (ix_results d) (ix_segments d) t
    (ix_nightBalances d) (ix_sync d) (ix_main d).

Definition identifier_rows (transactionId : string) (identifiers : list string) : list IdentifierRow :=
  (λ i, MkIdentifier i transactionId) <$> keep (λ i, negb (is_empty i)) (js_set (normalizeIdentifier <$> identifiers)).

(** The rows of one transaction, replaced. *)
Definition replaceTransactionIdentifiers (transactionId : string) (identifiers : list string) (d : IndexDb) : IndexDb :=
  let kept := sql_delete (λ _ r, bool_decide (id_transaction r = transactionId)) (ix_identifiers d) in
  with_identifiers (foldl (λ t r, <[identifier_key r := r]> t) kept (identifier_rows transactionId identifiers)) d.

(** ** The columns of one transaction *)

Definition with_transactions (t : gmap string TxRow) (d : IndexDb) : IndexDb :=
  MkIndexDb (ix_blocks d) t (ix_contractActions d) (ix_contractBalances d) (ix_contractStates d)
    (ix_utxos d) (ix_zswapEvents d) (ix_dustEvents d) (ix_fees d) (ix_results d) (ix_segments d) (ix_identifiers d)
    (ix_nightBalances d) (ix_sync d) (ix_main d).

Definition with_contractActions (t : gmap string ActionRow) (d : IndexDb) : IndexDb :=
  MkIndexDb (ix_blocks d) (ix_transactions d) t (ix_contractBalances d) (ix_contractStates d)
    (ix_utxos d) (ix_zswapEvents d) (ix_dustEvents d) (ix_fees d) (ix_results d) (ix_segments d) (ix_identifiers d)
    (ix_nightBalances d) (ix_sync d) (ix_main d).

(** A transaction without facts: only its state, and unknown flags become null. *)
Definition without_facts (state : PayloadDecodeState) (unknownFlags : bool) (t : TxRow) : TxRow :=
  let p := t_payload t in
  MkTx (t_transactionId t) (t_hash t) (t_ledgerTxHash t) (t_protocolVersion t) (t_raw t) (t_transactionType t) (t_txType t)
    (if unknownFlags then None else t_isShielded t) (t_senderAddress t) (t_receiverAddress t) (t_nightAmount t)
    (if unknownFlags then None else t_hasProof t) (t_contractAddress t) (t_circuitName t) (t_size t) (t_block t)
    (MkPayloadCols (Some state) (py_identifiers p) (py_zswapInputCount p) (py_zswapOutputCount p) (py_zswapTransientCount p)
       (py_dustSpendCount p) (py_dustRegistrationCount p) (py_dustConsumed p)).

Definition facts_payload (state : PayloadDecodeState) (facts : LedgerPayloadFacts) : PayloadCols :=
  MkPayloadCols (Some state)
    (match lf_identifiers facts with [] => None | l => Some (json_strings l) end)
    (Some (lf_zswapInputCount facts)) (Some (lf_zswapOutputCount facts)) (Some (lf_zswapTransientCount facts))
    (Some (lf_dustSpendCount facts)) (Some (lf_dustRegistrationCount facts)) (Some (lf_dustSpendValue facts)).

(** An entry point that is there and not empty. *)
Definition entry_point (a : DeclaredContractAction) : option string := present (dc_entryPoint a).

Definition with_facts (state : PayloadDecodeState) (facts : LedgerPayloadFacts) (txType : option string) (t : TxRow) : TxRow :=
  MkTx (t_transactionId t) (t_hash t) (t_ledgerTxHash t) (t_protocolVersion t) (t_raw t) (t_transactionType t)
    (nullish txType (t_txType t)) (Some (carriesShieldedCoins facts)) (t_senderAddress t) (t_receiverAddress t)
    (t_nightAmount t) (Some (carriesProof facts)) (t_contractAddress t) (head (omap entry_point (lf_contractActions facts)))
    (t_size t) (t_block t) (facts_payload state facts).

(** ** Circuit names *)

Definition action_le : relation (string * ActionRow) := λ a b, (ca_actionIndex a.2 ≤ ca_actionIndex b.2)%Z.
#[export] Instance action_le_dec : RelDecision action_le.
Proof. intros a b. unfold action_le. apply _. Defined.

(** Appends to the list a map holds under a key. *)
Definition push_to {K V} `{EqDecision K} (k : K) (v : V) (m : list (K * list V)) : list (K * list V) :=
  map_set k (nullish (map_get k m) [] ++ [v])%list m.

Definition set_entryPoint (name : string) (a : ActionRow) : ActionRow :=
  MkAction (ca_actionIndex a) (ca_address a) (ca_actionType a) (Some name) (ca_transaction a).

(** The names of the calls on one contract, in order, when there are as many. *)
Definition name_calls (declared : list (string * list string)) (t : gmap string ActionRow)
    (group : option string * list string) : gmap string ActionRow :=
  match group.1 ≫= λ address, map_get address declared with
  | Some names =>
      if (length names =? length group.2)%nat
      then foldl (λ t (kn : string * string), (sql_update_key kn.1 (λ _, true) (set_entryPoint kn.2) t).1) t (zip group.2 names)
      else t
  | None => t
  end.

Section Decoder.
Context `{ScanOrder}.
Variable world : PassWorld.
Variables batchSize : nat.
Variable lagBlocks : Z.

Definition declared_calls (facts : LedgerPayloadFacts) : list (string * list string) :=
  foldl (λ m a, match entry_point a with Some name => push_to (dc_address a) name m | None => m end) [] (lf_contractActions facts).

(** The transaction's calls by contract; each list holds the IDs in order. *)
Definition indexed_calls (transactionId : string) (d : IndexDb) : list (option string * list string) :=
  foldl (λ m (a : string * ActionRow), push_to (ca_address a.2) a.1 m) []
    (merge_sort action_le
       (sql_select (λ _ a, bool_decide (ca_transaction a = Some transactionId) && bool_decide (ca_actionType a = "CALL"))
          (ix_contractActions d))).

Definition assign_names (transactionId : string) (facts : LedgerPayloadFacts) (d : IndexDb) : IndexDb :=
  with_contractActions (foldl (name_calls (declared_calls facts)) (ix_contractActions d) (indexed_calls transactionId d)) d.

Record Update := MkUpdate {
  up_id : string; up_facts : option LedgerPayloadFacts; up_state : PayloadDecodeState; up_txType : option string;
  up_unknownFlags : bool }.

Definition update_tx (id : string) (f : TxRow → TxRow) (d : IndexDb) : IndexDb :=
  with_transactions (sql_update_key id (λ _, true) f (ix_transactions d)).1 d.

Definition applyFacts (u : Update) (d : IndexDb) : IndexDb :=
  match up_facts u with
  | None => update_tx (up_id u) (without_facts (up_state u) (up_unknownFlags u)) d
  | Some facts =>
      let txType := if bool_decide (up_txType u = Some "contract_call") then callFreeTxType facts else None in
      let d := update_tx (up_id u) (with_facts (up_state u) facts txType) d in
      let d := replaceTransactionIdentifiers (up_id u) (lf_identifiers facts) d in
      assign_names (up_id u) facts d
  end.

(** ** One block *)

(** A statement or transaction of the pass. *)
Definition statement {A} (m : M IndexDb A) : M PassState A := λ s,
  let d := w_others world (ps_clock s) (ps_db s) in
  match w_fault world (ps_clock s) with
  | Some e => (Throw e, MkPass (S (ps_clock s)) d)
  | None => let '(o, d') := m d in (o, MkPass (S (ps_clock s)) d')
  end.

(** The decode worker's answer. *)
Definition decode (payload : list Z) : M PassState (outcome LedgerPayloadFacts) := λ s,
  (Ret (w_decode world (ps_clock s) payload), MkPass (S (ps_clock s)) (ps_db s)).

Definition stored_payload_of (t : TxRow) : option (list Z) := stored_payload (t_raw t).

Definition decode_row (row : string * TxRow) : M PassState Update :=
  let '(id, t) := row in
  if bool_decide (t_transactionType t = "SYSTEM") then mret (MkUpdate id None Absent None false)
  else
    let unknownFlags := bool_decide (is_Some (t_isShielded t)) || bool_decide (is_Some (t_hasProof t)) in
    match stored_payload_of t with
    | None => mret (MkUpdate id None Absent None unknownFlags)
    | Some payload =>
        answer ← decode payload;
        mret (match answer with
              | Ret facts => MkUpdate id (Some facts) Decoded (Some (t_txType t)) false
              | Throw _ => MkUpdate id None FailedDecode None unknownFlags
              end)
    end.

Fixpoint decode_rows (rows : list (string * TxRow)) : M PassState (list Update) :=
  match rows with
  | [] => mret []
  | r :: rows' => u ← decode_row r; l ← decode_rows rows'; mret (u :: l)
  end.

Record DecodeRunResult := MkRun { dr_blocks : nat; dr_transactions : nat; dr_decoded : nat; dr_absent : nat; dr_failed : nat }.

Definition EMPTY_RUN : DecodeRunResult := MkRun 0 0 0 0 0.

Definition count_state (state : PayloadDecodeState) (l : list Update) : nat := length (keep (λ u, bool_decide (up_state u = state)) l).

(** Everything is decoded first and written afterwards, in one transaction. *)
Definition decodeBlock (blockId : string) : M PassState DecodeRunResult :=
  rows ← statement (λ d, (Ret (sql_select (λ _ t, bool_decide (t_block t = blockId)) (ix_transactions d)), d));
  match rows with
  | [] => mret EMPTY_RUN
  | _ =>
      updates ← decode_rows rows;
      _ ← statement (λ d, (Ret tt, foldl (λ d u, applyFacts u d) d updates));
      mret (MkRun 0 (length rows) (count_state Decoded updates) (count_state Absent updates) (count_state FailedDecode updates))
  end.

Definition add_run (a b : DecodeRunResult) : DecodeRunResult :=
  MkRun (dr_blocks a) (dr_transactions a + dr_transactions b) (dr_decoded a + dr_decoded b) (dr_absent a + dr_absent b)
    (dr_failed a + dr_failed b).

Fixpoint decode_blocks (result : DecodeRunResult) (blocks : list (string * Z)) : M PassState DecodeRunResult :=
  match blocks with
  | [] => mret result
  | (id, _) :: blocks' => perBlock ← decodeBlock id; decode_blocks (add_run result perBlock) blocks'
  end.

(** ** One pass *)

Definition setCursor (expected : PassPosition) (height : Z) : M PassState bool :=
  statement (tx (advancePassCursor lastDecodedHeight expected height)).

Definition runOnce : M PassState DecodeRunResult :=
  window ← statement (λ d, (Ret (readPassWindow lastDecodedHeight lagBlocks d), d));
  match window with
  | None => mret EMPTY_RUN
  | Some w =>
      if windowIsEmpty w then mret EMPTY_RUN
      else
        blocks ← statement (λ d, (Ret (blocksInRange (pw_from w) (pw_ceiling w) batchSize d), d));
        match last blocks with
        | None =>
            _ ← setCursor (pw_start w) (Z.min (pw_from w + Z.of_nat batchSize - 1) (pw_ceiling w));
            mret EMPTY_RUN
        | Some (_, height) =>
            result ← decode_blocks (MkRun (length blocks) 0 0 0 0) blocks;
            advanced ← setCursor (pw_start w) height;
            mret (if advanced : bool then result else EMPTY_RUN)
        end
  end.
End Decoder.
