(* ===== verification/PassFacts.v ===== *)
(** What the crawler, a rollback or a reset of the cursor leave of the index while
    a trailing pass works on it. *)
From Stdlib Require Import Ascii.
From S2P Require Import Prelude Threads Db Json Retry Numbers Schema Scale Reconciliation Rollback.
From S2P Require Import RollbackFacts BalanceCheck BlockEvents NodeRpc BlockProcessor PersistFacts BalanceUpdates.
From S2P Require Import StoredBalances IndexMachine IndexProperties PayloadDecoder.

Set Warnings "-register-all".

Local Open Scope string_scope.
Local Open Scope list_scope.

Section Facts.
Context `{ScanOrder}.
Variable height_of : string → Z.

(** ** The index and its decode cursor *)

Definition generation (d : IndexDb) : Z := generation_of (ix_main d).
Definition tip_of (d : IndexDb) : Z := nullish (sy_lastIndexedHeight (ix_sync d)) 0%Z.
Definition cursor (d : IndexDb) : option Z := sy_lastDecodedHeight (ix_sync d).
Definition is_decoded (t : TxRow) : Prop := py_decode (t_payload t) ≠ None.

(** Every transaction of an indexed block above genesis and up to the cursor has
    been through the pass. *)
Definition decoded_up_to (c : option Z) (d : IndexDb) : Prop :=
  ∀ n k b i t, c = Some n → ix_blocks d !! k = Some b → (0 < b_height b ≤ n)%Z →
    ix_transactions d !! i = Some t → t_block t = k → is_decoded t.

Record tracked (d : IndexDb) : Prop := {
  tr_rooted : rooted d;
  tr_sync : is_Some (Schema.reorgGeneration (ix_main d));
  tr_chain : one_chain height_of d;
  tr_empty : ix_blocks d = ∅ → (tip_of d ≤ 0)%Z;
  tr_cursor : ∀ n, cursor d = Some n → (n ≤ tip_of d)%Z;
  tr_decoded : decoded_up_to (cursor d) d }.

(** What holds of a later index: the rollback counter does not go down; while it
    stays, no block is lost, new blocks are above the old tip or the first one, and the
    transactions of old blocks are there already and stay decoded. *)
Record kept (d0 d : IndexDb) : Prop := {
  kp_tip : (tip_of d0 ≤ tip_of d)%Z;
  kp_blocks : ∀ k b, ix_blocks d0 !! k = Some b → ix_blocks d !! k = Some b;
  kp_new : ∀ k b, ix_blocks d !! k = Some b → ix_blocks d0 !! k = Some b ∨ (tip_of d0 < b_height b)%Z ∨ b_height b = 0%Z;
  kp_txs : ∀ i t, ix_transactions d !! i = Some t → is_Some (ix_blocks d0 !! t_block t) →
    ∃ t0, ix_transactions d0 !! i = Some t0 ∧ t_block t0 = t_block t ∧ (is_decoded t0 → is_decoded t) }.

Definition since (d0 d : IndexDb) : Prop :=
  (generation d0 ≤ generation d)%Z ∧ (generation d0 = generation d → kept d0 d).

#[export] Instance since_preorder : PreOrder since.
Proof.
  split.
  - intros d. split; [lia|]. intros _. split; [lia|done|by left|]. intros i t Ht _. eauto.
  - intros d0 d1 d2 [G1 K1] [G2 K2]. split; [lia|]. intros He. destruct K1 as [T1 B1 N1 X1]; [lia|]. destruct K2 as [T2 B2 N2 X2]; [lia|].
    split; [lia|auto| |].
    + intros k b Hb. destruct (N2 k b Hb) as [Hb1|[?|?]]; [|right; left; lia|right; by right]. by apply N1.
    + intros i t Ht [b Hb]. destruct (X2 i t Ht) as (t1 & Ht1 & E1 & D1); [eauto|].
      destruct (X1 i t1 Ht1) as (t0 & Ht0 & E0 & D0); [rewrite E1; eauto|]. exists t0. split_and!; [done|congruence|auto].
Qed.

(** ** Statements that leave the blocks and transactions alone *)

Lemma tracked_same d d' :
  ix_blocks d' = ix_blocks d → ix_transactions d' = ix_transactions d → tip d' = tip d →
  is_Some (Schema.reorgGeneration (ix_main d')) →
  (∀ n, cursor d' = Some n → ∃ n', cursor d = Some n' ∧ (n ≤ n')%Z) → tracked d → tracked d'.
Proof.
  intros Hb Ht Htip Hg Hc [R S C E K D]. pose proof Htip as Htip'. unfold tip in Htip'. injection Htip' as Hh _.
  assert (tip_of d' = tip_of d) as Hto by (unfold tip_of; by rewrite Hh).
  split.
  - destruct R. split; by rewrite ?Hb, ?Ht.
  - done.
  - by eapply one_chain_same.
  - rewrite Hb, Hto. done.
  - intros n Hn. destruct (Hc _ Hn) as (n' & Hn' & Hle). rewrite Hto. apply K in Hn'. lia.
  - intros n k b i t Hn Hk Hr Hi Hbl. rewrite Hb in Hk. rewrite Ht in Hi. destruct (Hc _ Hn) as (n' & Hn' & Hle).
    eapply D; [done|done|lia|done|done].
Qed.

Lemma since_same d d' :
  ix_blocks d' = ix_blocks d → ix_transactions d' = ix_transactions d → tip d' = tip d → generation d' = generation d → since d d'.
Proof.
  intros Hb Ht Htip Hg. unfold tip in Htip. injection Htip as Hh _. split; [lia|]. intros _.
  split; rewrite ?Hb, ?Ht; [unfold tip_of; rewrite Hh; lia|done|by left|]. intros i t Hi _. eauto.
Qed.

(** ** A stored block *)

Lemma next_tip requireParent prep d :
  tracked d → from_node height_of prep → next_block requireParent prep d → block_by_hash (pb_blockHash prep) d = None →
  (tip_of d ≤ pb_height prep ∧ (tip_of d < pb_height prep ∨ pb_height prep = 0))%Z.
Proof.
  intros [_ _ C E _ _] Hn Hnext Hnew. destruct (next_above _ _ _ _ C Hnext Hnew) as [Habove _]. pose proof (fn_positive _ _ Hn) as Hpos.
  destruct C as [Ch _ _ _ Ct]. destruct (sy_lastIndexedHash (ix_sync d)) as [hash|]; [|specialize (E Ct); lia].
  destruct Ct as (k & b & Hk & _ & Hh & _). unfold tip_of. rewrite Hh. simpl. apply Habove in Hk as Hlt. lia.
Qed.

Lemma stored_rooted blake2b uuid now prep projections producer parent d :
  rooted d → fresh_ids uuid d → rooted (stored blake2b uuid now prep projections producer parent d).
Proof.
  intros [R1 R2 R3] Hf. pose proof (stored_blocks blake2b uuid now prep projections producer parent d Hf) as HB.
  pose proof (stored_txs blake2b uuid now prep projections producer parent d Hf) as HT. set (d' := stored _ _ _ _ _ _ _ d) in *. split.
  - destruct (ix_blocks d' !! EmptyString) as [b|] eqn:Eb; [|done]. apply HB in Eb as [?|[Eb _]]; [congruence|].
    by destruct (fi_set _ _ Hf BlockName).
  - destruct (ix_transactions d' !! EmptyString) as [t|] eqn:Et; [|done]. apply HT in Et as [?|Et]; [congruence|].
    apply block_txs in Et as (j & Et & _). by destruct (fi_set _ _ Hf (TxName j)).
  - intros k t [Hk|Hk]%HT; [destruct (R3 _ _ Hk) as [b Hb]; exists b; apply HB; auto|].
    apply block_txs in Hk as (j & _ & ->). eexists. apply HB. by right.
Qed.

Lemma persist_tracked blake2b uuid now fault prep projections producer requireParent d o d' :
  fresh_ids uuid d → from_node height_of prep → next_block requireParent prep d → tracked d →
  persistFromNode blake2b uuid now fault prep projections producer requireParent d = (o, d') → tracked d' ∧ since d d'.
Proof.
  intros Hf Hn Hnext Ht Hp. destruct o as [r|e]; [|by apply persist_throws in Hp as ->].
  apply persist_stores in Hp as [[-> _]|(Hnew & Hpar & _ & ->)]; [done|]. pose proof Ht as [R G C E K D].
  set (parent := block_by_hash (hd_parentHash _) d) in *. set (d' := stored _ _ _ _ _ _ _ d).
  destruct (next_tip _ _ _ Ht Hn Hnext Hnew) as [Hle Hab].
  assert (tip_of d' = pb_height prep) as Hto.
  { pose proof (stored_tip blake2b uuid now prep projections producer d G) as Htip. unfold tip in Htip. injection Htip as Hh _.
    unfold tip_of, d', parent. by rewrite Hh. }
  assert (∀ k b, ix_blocks d' !! k = Some b ↔ ix_blocks d !! k = Some b ∨ (k = uuid BlockName ∧ b = block_row prep producer parent)) as HB
    by (intros; by apply stored_blocks).
  assert (∀ k t, ix_transactions d' !! k = Some t ↔ ix_transactions d !! k = Some t ∨ (k, t) ∈ br_txs (block_rows blake2b uuid prep projections)) as HT
    by (intros; by apply stored_txs).
  destruct (stored_frame blake2b uuid now prep projections producer parent d) as (_ & Hmain & _ & Hsync). fold d' in Hmain, Hsync.
  assert (cursor d' = cursor d) as Hcur by (unfold cursor; rewrite Hsync; by case_bool_decide).
  assert (∀ i t, (i, t) ∈ br_txs (block_rows blake2b uuid prep projections) → t_block t = uuid BlockName) as Hblock
    by (intros i t Hin; by apply block_txs in Hin as (j & _ & ?)).
  assert (ix_blocks d !! uuid BlockName = None) as Hfresh by (by apply fi_blocks).
  split; [split|split].
  - by apply stored_rooted.
  - by rewrite Hmain.
  - by eapply stored_chain.
  - intros He. assert (ix_blocks d' !! uuid BlockName = Some (block_row prep producer parent)) as Hy by (apply HB; by right).
    by rewrite He, lookup_empty in Hy.
  - intros n Hcn. rewrite Hcur in Hcn. apply K in Hcn. rewrite Hto. lia.
  - intros n k b i t Hcn Hk Hr Hi Hbl. rewrite Hcur in Hcn. apply HB in Hk as [Hk|[-> ->]].
    + apply HT in Hi as [Hi|Hi]; [by eapply D|]. apply Hblock in Hi. congruence.
    + apply K in Hcn. simpl in Hr. lia.
  - unfold generation. rewrite Hmain. lia.
  - intros _. split; [lia|intros k b Hk; apply HB; by left| |].
    + intros k b [Hk|[_ ->]]%HB; [by left|right]. done.
    + intros i t [Hi|Hi]%HT [b Hb]; [eauto|]. rewrite (Hblock _ _ Hi) in Hb. congruence.
Qed.

(** ** A rollback *)

Lemma rollback_generation now h st extra d o d' :
  rollbackIndexedDataFromHeight now h st extra d = (o, d') → is_Some (Schema.reorgGeneration (ix_main d)) →
  generation d' = (generation d + 1)%Z.
Proof.
  intros Hr [g Hg]. destruct (rollback_counts _ _ _ _ _ _ _ _ Hr Hg) as [Hg' _]. unfold generation, generation_of.
  rewrite Hg, Hg'. by destruct g.
Qed.

Lemma rollback_tracked now h st extra d o d' :
  tracked d → rollbackIndexedDataFromHeight now h st extra d = (o, d') → tracked d' ∧ since d d'.
Proof.
  intros [R G C E K D] Hr. destruct (rollback_rows _ _ _ _ _ _ _ R Hr) as (Hb & Ht & _).
  destruct (rollback_sync _ _ _ _ _ _ _ Hr G) as [Hg Hs]. pose proof (rollback_chain _ _ _ _ _ _ _ _ R G C Hr) as C'.
  pose proof (rollback_generation _ _ _ _ _ _ _ Hr G) as Hgen. split; [|split; lia].
  assert (∀ n, cursor d' = Some n → (n ≤ tip_of d')%Z ∧ ∃ n', cursor d = Some n' ∧ (n ≤ n')%Z) as Hcur.
  { intros n. unfold cursor, tip_of. rewrite Hs. case_bool_decide; [intros Hn; split; [by apply K|exists n; split; [done|lia]]|].
    cbn [rolled_sync sy_lastDecodedHeight sy_lastIndexedHeight nullish]. fold (cursor d).
    destruct (cursor d) as [n'|]; [|done]. simpl. intros [= <-]. split; [|exists n'; split; [done|]]; lia. }
  split; [|done|done| |intros n Hn; by apply Hcur|].
  - destruct R as [R1 R2 R3]. split.
    + destruct (ix_blocks d' !! EmptyString) as [b|] eqn:Eb; [|done]. apply Hb in Eb as [? _]. congruence.
    + destruct (ix_transactions d' !! EmptyString) as [t|] eqn:Et; [|done]. apply Ht in Et as [? _]. congruence.
    + intros k t [Hk Hn]%Ht. destruct (R3 _ _ Hk) as [b Hbk]. exists b. apply Hb. split; [done|].
      apply Z.nle_gt. intros Hle. apply Hn, rolled_iff; [by split|]. eauto.
  - intros He. unfold tip_of. rewrite Hs. case_bool_decide as Hrb.
    + apply E. apply map_empty. intros k. destruct (ix_blocks d !! k) as [b|] eqn:Ek; [|done].
      assert (ix_blocks d' !! k = Some b) as Hk; [|by rewrite He, lookup_empty in Hk]. apply Hb. split; [done|].
      apply Z.nle_gt. intros Hle. assert (k ∈ rolled_blocks d h) as Hin by (apply rolled_iff; eauto). rewrite Hrb in Hin. by apply not_elem_of_nil in Hin.
    + pose proof (selectForkBlock_spec h d') as Hf. destruct (selectForkBlock h d') as [[k b]|]; [|done].
      destruct Hf as (Hk & _). by rewrite He, lookup_empty in Hk.
  - intros n k b i t Hn [Hk _]%Hb Hr' [Hi _]%Ht Hbl. destruct (Hcur _ Hn) as (_ & n' & Hn' & Hle). eapply D; [done|done|lia|done|done].
Qed.

(** ** A reset of the cursor *)

Lemma lock_keeps_generation m : (lockReorgGeneration m).2 = with_reorgGeneration ((λ g, Some (nullish g 0%Z)) <$> Schema.reorgGeneration m) m ∧
  generation_of (lockReorgGeneration m).2 = generation_of m.
Proof. split; [done|]. unfold lockReorgGeneration, generation_of. simpl. by destruct (Schema.reorgGeneration m) as [[g|]|]. Qed.

Lemma redecode_tracked height d o d' :
  tracked d → redecodeFromHeight height d = (o, d') → tracked d' ∧ since d d'.
Proof.
  intros Ht Hr. unfold redecodeFromHeight in Hr. destruct (redecode_height height) as [from|]; [|by injection Hr as _ <-].
  case_bool_decide; [by injection Hr as _ <-|].
  assert (is_Some (Schema.reorgGeneration (ix_main d))) as [g Hg] by apply Ht.
  unfold tx, redecode_tx in Hr. m_unfold. unfold on_main, get, put, has_sync in Hr.
  unfold lockReorgGeneration in Hr. rewrite Hg in Hr. cbn in Hr. fold (cursor d) in Hr. set (m := with_reorgGeneration _ _) in *.
  assert (generation_of m = generation_of (ix_main d)) as Hgen by (unfold m, generation_of; simpl; by rewrite Hg; destruct g).
  assert (∃ s', d' = with_sync s' (with_main m d) ∧ tip (with_sync s' d) = tip d ∧
    ∀ n, sy_lastDecodedHeight s' = Some n → ∃ n', cursor d = Some n' ∧ (n ≤ n')%Z) as (s' & -> & Htip & Hcur).
  { destruct (cursor d) as [c|] eqn:Ec; [case_bool_decide|]; injection Hr as _ <-.
    - exists (ix_sync d). split_and!; [done|done|]. fold (cursor d). rewrite Ec. intros n [= <-]. exists c. split; [done|lia].
    - eexists. split_and!; [done|done|]. simpl. case_bool_decide; [done|]. intros n [= <-]. exists c. split; [done|lia].
    - exists (ix_sync d). split_and!; [done|done|]. fold (cursor d). by rewrite Ec. }
  split; [eapply tracked_same; [..|exact Ht]|apply since_same]; done.
Qed.

(** ** What runs beside a pass *)

(** A block is stored, a branch rolled back, the cursor reset, or the job system
    writes its tables. *)
Inductive crawl_step : IndexDb → IndexDb → Prop :=
| crawl_persist blake2b uuid now fault prep projections producer requireParent d o d' :
    fresh_ids uuid d → from_node height_of prep → next_block requireParent prep d →
    persistFromNode blake2b uuid now fault prep projections producer requireParent d = (o, d') →
    crawl_step d d'
| crawl_rollback now h st extra d o d' :
    rollbackIndexedDataFromHeight now h st extra d = (o, d') → crawl_step d d'
| crawl_redecode height d o d' :
    redecodeFromHeight height d = (o, d') → crawl_step d d'
| crawl_jobs d m :
    is_Some (Schema.reorgGeneration m) → generation_of m = generation_of (ix_main d) → crawl_step d (with_main m d).

Lemma crawl_tracked d d' : rtc crawl_step d d' → tracked d → tracked d' ∧ since d d'.
Proof.
  induction 1 as [d|d d1 d2 Hs _ IH]; intros Ht; [done|].
  assert (tracked d1 ∧ since d d1) as [Ht1 Hs1]; [|destruct (IH Ht1); split; [done|by etrans]]. inversion Hs; subst.
  - by eapply persist_tracked.
  - by eapply rollback_tracked.
  - by eapply redecode_tracked.
  - split; [eapply tracked_same; [..|exact Ht]|apply since_same]; try done. intros n Hn. exists n. split; [done|lia].
Qed.

Lemma new_index_tracked m : is_Some (Schema.reorgGeneration m) → tracked (new_index m).
Proof. intros Hm. by repeat split. Qed.

(** ** What the pass writes *)

(** The rows' other columns and the other tables the pass never reads aside, a
    write changes columns of transactions that are there. *)
Definition columns_changed (d d' : IndexDb) : Prop :=
  ix_blocks d' = ix_blocks d ∧ ix_sync d' = ix_sync d ∧ ix_main d' = ix_main d ∧
  ∀ i t', ix_transactions d' !! i = Some t' →
    ∃ t, ix_transactions d !! i = Some t ∧ t_block t' = t_block t ∧ (is_decoded t → is_decoded t').

Lemma columns_tracked d d' : columns_changed d d' → tracked d → tracked d' ∧ since d d'.
Proof.
  intros (Hb & Hs & Hm & Ht) [[R1 R2 R3] G C E K D].
  assert (tip_of d' = tip_of d) as Hto by (unfold tip_of; by rewrite Hs). split; [split|split].
  - split; [by rewrite Hb| |].
    + destruct (ix_transactions d' !! EmptyString) as [t'|] eqn:Et; [|done]. apply Ht in Et as (t & Ht0 & _). congruence.
    + intros i t' (t & Hi & -> & _)%Ht. rewrite Hb. by eapply R3.
  - by rewrite Hm.
  - eapply one_chain_same; [done| |done]. unfold tip. by rewrite Hs.
  - by rewrite Hb, Hto.
  - unfold cursor. by rewrite Hto, Hs.
  - intros n k b i t' Hn Hk Hr (t & Hi & Hbt & Hd)%Ht Hbl. unfold cursor in Hn. rewrite Hs in Hn. rewrite Hb in Hk.
    apply Hd. eapply D; [done|done|done|done|congruence].
  - unfold generation. by rewrite Hm.
  - intros _. split; rewrite ?Hto, ?Hb; [lia|done|by left|]. intros i t' (t & Hi & Hbt & Hd)%Ht _. eauto.
Qed.

Lemma update_tx_lookup id f d i t' :
  ix_transactions (update_tx id f d) !! i = Some t' ↔
  ∃ t, ix_transactions d !! i = Some t ∧ t' = if bool_decide (i = id) then f t else t.
Proof.
  unfold update_tx. cbn [ix_transactions with_transactions]. rewrite sql_update_key_eq, lookup_sql_update, fmap_Some.
  by setoid_rewrite andb_true_r.
Qed.

Lemma applyFacts_changes u d :
  columns_changed d (applyFacts u d) ∧ ∀ t', ix_transactions (applyFacts u d) !! up_id u = Some t' → is_decoded t'.
Proof.
  assert (∃ f, ix_blocks (applyFacts u d) = ix_blocks d ∧ ix_sync (applyFacts u d) = ix_sync d ∧ ix_main (applyFacts u d) = ix_main d ∧
    ix_transactions (applyFacts u d) = ix_transactions (update_tx (up_id u) f d) ∧
    ∀ t, t_block (f t) = t_block t ∧ is_decoded (f t)) as (f & Hb & Hs & Hm & Ht & Hf).
  { unfold applyFacts. destruct (up_facts u) as [facts|].
    - eexists (with_facts _ _ _). split_and!; [done..|]. intros t. by split.
    - eexists (without_facts _ _). split_and!; [done..|]. intros t. by split. }
  unfold columns_changed. rewrite Ht. setoid_rewrite update_tx_lookup. split_and!; [done|done|done| |].
  - intros i t' (t & Hi & ->). exists t. split; [done|]. destruct (Hf t). case_bool_decide; auto.
  - intros t' (t & Hi & ->). rewrite bool_decide_eq_true_2 by done. apply Hf.
Qed.

#[export] Instance columns_preorder : PreOrder columns_changed.
Proof.
  split.
  - intros d. split_and!; [done..|]. eauto.
  - intros d0 d1 d2 (B1 & S1 & M1 & T1) (B2 & S2 & M2 & T2). split_and!; [congruence..|].
    intros i t2 (t1 & H1 & E1 & D1)%T2. apply T1 in H1 as (t & H0 & E0 & D0). exists t. split_and!; [done|congruence|auto].
Qed.

Lemma apply_updates l d :
  columns_changed d (foldl (λ d u, applyFacts u d) d l) ∧
  ∀ i t', i ∈ up_id <$> l → ix_transactions (foldl (λ d u, applyFacts u d) d l) !! i = Some t' → is_decoded t'.
Proof.
  revert d. induction l as [|u l IH]; intros d; cbn [foldl fmap list_fmap].
  { split; [reflexivity|]. intros i t' Hi. by apply not_elem_of_nil in Hi. }
  destruct (applyFacts_changes u d) as [Hc Hd]. destruct (IH (applyFacts u d)) as [Hcl Hdl]. split; [by etrans|].
  intros i t' [->|Hi]%elem_of_cons Ht; [|by eapply Hdl]. destruct Hcl as (_ & _ & _ & Hx). apply Hx in Ht as (t & Ht & _ & Hmono).
  by apply Hmono, Hd.
Qed.
End Facts.
