(* ===== verification/PassSafety.v ===== *)
(** The decode pass leaves no block behind, whatever runs beside it; and the pass
    at concrete blocks. *)
From Stdlib Require Import Ascii.
From S2P Require Import Prelude Threads Db Json Numbers Schema Retry Reconciliation Rollback RollbackFacts.
From S2P Require Import BalanceCheck Scale BlockEvents NodeRpc BlockProcessor PersistFacts BalanceUpdates.
From S2P Require Import StoredBalances IndexMachine IndexProperties IndexExamples PayloadDecoder PassFacts.

Set Warnings "-register-all".

Local Open Scope string_scope.
Local Open Scope list_scope.

(** ** The blocks of a window *)

Section Range.
Context `{ScanOrder}.
Variable height_of : string → Z.

Lemma in_range from ceiling limit d k h :
  (k, h) ∈ blocksInRange from ceiling limit d → ∃ b, ix_blocks d !! k = Some b ∧ b_height b = h ∧ (from ≤ h ≤ ceiling)%Z.
Proof.
  unfold blocksInRange. intros ([k' b] & [= -> ->] & Hin)%list_elem_of_fmap. apply (subseteq_take limit) in Hin.
  rewrite merge_sort_Permutation in Hin. apply elem_of_select in Hin as [Hk [H1%bool_decide_eq_true_1 H2%bool_decide_eq_true_1]%andb_prop]. eauto.
Qed.

(** No indexed block of the range lies between the selected ones. *)
Lemma range_complete from ceiling limit d k0 h0 k b :
  one_chain height_of d → last (blocksInRange from ceiling limit d) = Some (k0, h0) →
  ix_blocks d !! k = Some b → (from ≤ b_height b ≤ h0)%Z → k ∈ (blocksInRange from ceiling limit d).*1.
Proof.
  intros Hc Hl Hk Hb. pose proof (last_Some_elem_of _ _ Hl) as Hin. destruct (in_range _ _ _ _ _ _ Hin) as (b0 & Hk0 & Hh0 & Hr0).
  unfold blocksInRange in *. set (l := merge_sort height_le _) in *.
  assert ((k, b) ∈ l) as Hkl.
  { unfold l. rewrite merge_sort_Permutation. apply elem_of_select. split; [done|]. rewrite !bool_decide_eq_true_2 by lia. done. }
  rewrite <- (take_drop limit l) in Hkl. apply elem_of_app in Hkl as [Ht|Hd].
  - apply list_elem_of_fmap. exists (k, b_height b). split; [done|]. apply list_elem_of_fmap. by exists (k, b).
  - apply list_elem_of_fmap in Hin as ([k1 b1] & [= -> ->] & Hin).
    assert (height_le (k1, b1) (k, b)) as Hle.
    { eapply StronglySorted_app_1_elem_of; [|exact Hin|exact Hd]. rewrite take_drop. apply (StronglySorted_merge_sort height_le); apply _. }
    unfold height_le in Hle. simpl in Hle.
    assert (k = k1) as ->; [|apply list_elem_of_fmap; exists (k1, b_height b1); split; [done|]; apply list_elem_of_fmap; by exists (k1, b1)].
    apply (subseteq_take limit) in Hin. unfold l in Hin. rewrite merge_sort_Permutation in Hin. apply elem_of_select in Hin as [Hk1 _].
    eapply (oc_unique _ _ Hc); [done|done|lia].
Qed.

Lemma range_empty from ceiling limit d k b :
  last (blocksInRange from ceiling limit d) = None → (0 < limit)%nat → ix_blocks d !! k = Some b → ¬ (from ≤ b_height b ≤ ceiling)%Z.
Proof.
  intros Hl Hn Hk Hb. apply last_None in Hl. unfold blocksInRange in Hl. apply fmap_nil_inv in Hl.
  set (l := merge_sort height_le _) in *.
  assert ((k, b) ∈ l) as Hkl.
  { unfold l. rewrite merge_sort_Permutation. apply elem_of_select. split; [done|]. rewrite !bool_decide_eq_true_2 by lia. done. }
  destruct l as [|x l]; [by apply not_elem_of_nil in Hkl|]. by destruct limit; [lia|].
Qed.
End Range.

(** ** The facts a pass relies on *)

Section Safety.
Context `{ScanOrder}.
Variable height_of : string → Z.
Variable world : PassWorld.
Variable batchSize : nat.
Variable lagBlocks : Z.
Hypothesis Hlag : (0 ≤ lagBlocks)%Z.
Hypothesis Hothers : ∀ n d, rtc (crawl_step height_of) d (w_others world n d).

Definition pass_inv (s : PassState) : Prop := tracked height_of (ps_db s).
Definition pass_ext (s s' : PassState) : Prop := since (ps_db s) (ps_db s').

#[export] Instance pass_ext_preorder : PreOrder pass_ext.
Proof. split; [intros s; unfold pass_ext; reflexivity|]. intros s1 s2 s3 H1 H2. unfold pass_ext in *. by etrans. Qed.

Abbreviation runs := (triple pass_inv pass_ext).

(** What stays true of a later index. *)
Definition lasting (P : IndexDb → Prop) : Prop := ∀ d d', since d d' → P d → P d'.

Lemma statement_runs {A} (P : IndexDb → Prop) (m : M IndexDb A) (Q : A → IndexDb → Prop) :
  lasting P →
  (∀ d o d', tracked height_of d → P d → m d = (o, d') →
     tracked height_of d' ∧ since d d' ∧ ∀ a, o = Ret a → Q a d') →
  runs (λ s, P (ps_db s)) (statement world m) (λ a s, Q a (ps_db s)).
Proof.
  intros HP Hm s o s' Hi Hps E. unfold statement in E.
  destruct (crawl_tracked height_of _ _ (Hothers (ps_clock s) (ps_db s)) Hi) as [Ht Hs].
  destruct (w_fault world (ps_clock s)) as [x|]; [by injection E as <- <-|].
  destruct (m _) as [o1 d1] eqn:Em. injection E as <- <-.
  destruct (Hm _ _ _ Ht (HP _ _ Hs Hps) Em) as (H1 & H2 & H3). split_and!; [done|unfold pass_ext; by etrans|done].
Qed.

(** A read. *)
Lemma read_runs {A} (P : IndexDb → Prop) (f : IndexDb → A) (Q : A → IndexDb → Prop) :
  lasting P → (∀ d, tracked height_of d → P d → Q (f d) d) →
  runs (λ s, P (ps_db s)) (statement world (λ d, (Ret (f d), d))) (λ a s, Q a (ps_db s)).
Proof. intros HP HQ. apply statement_runs; [done|]. intros d o d' Ht Hd [= <- <-]. split_and!; [done|reflexivity|]. intros a [= <-]. auto. Qed.

(** While no rollback ran since [d0], the transactions of the blocks [ids] of it
    are decoded. *)
Definition after (d0 : IndexDb) (ids : list string) (d : IndexDb) : Prop :=
  since d0 d ∧ (∀ id, id ∈ ids → is_Some (ix_blocks d0 !! id)) ∧
  (generation d = generation d0 → ∀ i t, ix_transactions d !! i = Some t → t_block t ∈ ids → is_decoded t).

(** The transactions of the block [id] are among the [rows]. *)
Definition covers (d0 : IndexDb) (id : string) (rows : list string) (d : IndexDb) : Prop :=
  generation d = generation d0 → ∀ i t, ix_transactions d !! i = Some t → t_block t = id → i ∈ rows.

Lemma later_row d0 d d' i t :
  since d0 d → since d d' → generation d' = generation d0 → ix_transactions d' !! i = Some t → is_Some (ix_blocks d0 !! t_block t) →
  generation d = generation d0 ∧ ∃ t0, ix_transactions d !! i = Some t0 ∧ t_block t0 = t_block t ∧ (is_decoded t0 → is_decoded t).
Proof.
  intros [G1 K1] [G2 K2] Hg Hi [b Hb]. split; [lia|]. destruct K2 as [_ _ _ X]; [lia|]. apply X; [done|].
  exists b. apply (kp_blocks d0 d); [apply K1; lia|done].
Qed.

Lemma after_lasting d0 ids : lasting (after d0 ids).
Proof.
  intros d d' Hs (H0 & Hids & Hd). split_and!; [by etrans|done|]. intros Hg i t Hi Hin.
  destruct (later_row d0 d d' i t) as (Hg' & t0 & Hi0 & Hb & Hmono); [done|done|done|done|by apply Hids|].
  apply Hmono, (Hd Hg' i t0 Hi0). by rewrite Hb.
Qed.

Lemma covers_lasting d0 ids id rows : is_Some (ix_blocks d0 !! id) → lasting (λ d, after d0 ids d ∧ covers d0 id rows d).
Proof.
  intros Hid d d' Hs [Ha Hc]. split; [by eapply after_lasting|]. intros Hg i t Hi Hb. destruct Ha as (H0 & _ & _).
  destruct (later_row d0 d d' i t) as (Hg' & t0 & Hi0 & Hb0 & _); [done|done|done|done|by rewrite Hb|].
  apply (Hc Hg' i t0 Hi0). congruence.
Qed.

Lemma decode_rows_ids rows s : ∃ l s', decode_rows world rows s = (Ret l, s') ∧ ps_db s' = ps_db s ∧ up_id <$> l = rows.*1.
Proof.
  revert s. induction rows as [|[id t] rows IH]; intros s; [by eexists _, _|].
  cbn [decode_rows]. unfold mbind, M_bind.
  assert (∃ u s1, decode_row world (id, t) s = (Ret u, s1) ∧ ps_db s1 = ps_db s ∧ up_id u = id) as (u & s1 & -> & Hs1 & Hu).
  { unfold decode_row. case_bool_decide; [by eexists _, _|]. destruct (stored_payload_of t) as [p|]; [|by eexists _, _].
    unfold mbind, M_bind, decode, mret, M_ret. eexists _, _. split; [done|]. split; [done|]. by destruct (w_decode _ _ _). }
  destruct (IH s1) as (l & s' & -> & Hs' & Hl). eexists _, _. split; [done|]. split; [congruence|]. cbn. by rewrite Hu, Hl.
Qed.

Lemma decodeBlock_runs d0 ids id : is_Some (ix_blocks d0 !! id) →
  runs (λ s, after d0 ids (ps_db s)) (decodeBlock world id) (λ _ s, after d0 (id :: ids) (ps_db s)).
Proof.
  intros Hid. assert (∀ rows d, after d0 ids d → covers d0 id rows d →
    (∀ i t, i ∈ rows → ix_transactions d !! i = Some t → is_decoded t) → after d0 (id :: ids) d) as Hdone.
  { intros rows d (H0 & Hids & Hd) Hc Hr. split_and!; [done|by intros x [->|?]%elem_of_cons; auto|].
    intros Hg i t Hi [Hb|Hb]%elem_of_cons; [|by eapply Hd]. eapply Hr; [by eapply Hc|done]. }
  unfold decodeBlock. eapply (triple_bind pass_inv pass_ext).
  - apply (read_runs _ _ (λ rows d, after d0 ids d ∧ covers d0 id rows.*1 d)); [apply after_lasting|].
    intros d _ Ha. split; [done|]. intros _ i t Hi Hb. apply list_elem_of_fmap. exists (i, t). split; [done|].
    apply elem_of_select. split; [done|]. by apply bool_decide_eq_true_2.
  - intros [|r rows].
    + apply (triple_ret pass_inv pass_ext). intros s [Ha Hc]. eapply Hdone; [done..|]. intros i t Hi. by apply not_elem_of_nil in Hi.
    + set (l := (r :: rows).*1) in *.
      eapply (triple_bind pass_inv pass_ext _ _ (λ us s, up_id <$> us = l ∧ (after d0 ids (ps_db s) ∧ covers d0 id l (ps_db s)))).
      { intros s o s' Hi HP E. destruct (decode_rows_ids (r :: rows) s) as (us & s1 & E1 & Hdb & Hus). rewrite E1 in E. injection E as <- <-.
        unfold pass_inv, pass_ext. rewrite Hdb. split_and!; [done|reflexivity|]. by intros a [= <-]. }
      intros us. apply triple_pure. intros Hus. eapply (triple_bind pass_inv pass_ext _ _ (λ _ s, after d0 (id :: ids) (ps_db s))); [|intros ?; by apply (triple_ret pass_inv pass_ext)].
      apply (statement_runs (λ d, after d0 ids d ∧ covers d0 id l d) _ (λ _, after d0 (id :: ids))); [by apply covers_lasting|].
      intros d o d' Ht [Ha Hc] [= <- <-]. destruct (apply_updates us d) as [Hch Hde].
      destruct (columns_tracked height_of _ _ Hch Ht) as [Ht' Hs']. split_and!; [done|done|]. intros _ _.
      destruct (covers_lasting d0 ids id l Hid _ _ Hs' (conj Ha Hc)) as [Ha' Hc']. eapply Hdone; [done|done|].
      intros i t Hi. apply Hde. by rewrite Hus.
Qed.

Lemma decode_blocks_runs d0 blocks result ids : (∀ id, id ∈ blocks.*1 → is_Some (ix_blocks d0 !! id)) →
  runs (λ s, after d0 ids (ps_db s)) (decode_blocks world result blocks)
    (λ _ s, after d0 (blocks.*1 ++ ids) (ps_db s)).
Proof.
  revert result ids. induction blocks as [|[id h] blocks IH]; intros result ids Hids; cbn [decode_blocks].
  - apply (triple_ret pass_inv pass_ext). by intros s Hs.
  - eapply (triple_bind pass_inv pass_ext); [apply decodeBlock_runs, Hids, list_elem_of_here|]. intros r. cbv beta.
    eapply triple_weaken; [apply (IH _ (id :: ids)); intros x Hx; apply Hids; by apply list_elem_of_further|done|].
    intros r' s (H0 & H1 & H2). split_and!; [done| |].
    + intros x Hx. apply H1. cbn in Hx. set_solver.
    + intros Hg i t Hi Hin. apply (H2 Hg i t Hi). cbn in Hin. set_solver.
Qed.

(** ** The window and the cursor *)

(** The window was read at the counter [pp_generation]; while it stands, the tip
    is not below the ceiling. *)
Definition window_ok (w : PassWindow) (d : IndexDb) : Prop :=
  (pp_generation (pw_start w) ≤ generation d)%Z ∧
  (generation d = pp_generation (pw_start w) → (pw_ceiling w ≤ tip_of d)%Z) ∧
  pw_from w = match pp_cursor (pw_start w) with None => 0%Z | Some c => (c + 1)%Z end.

Lemma window_lasting w : lasting (window_ok w).
Proof.
  intros d d' [G K] (W1 & W2 & W3). split_and!; [lia| |done]. intros Hg. destruct K as [Ht _ _ _]; [lia|].
  assert (pw_ceiling w ≤ tip_of d)%Z by (apply W2; lia). lia.
Qed.

Lemma read_window d w : readPassWindow lastDecodedHeight lagBlocks d = Some w → window_ok w d.
Proof.
  unfold readPassWindow. destruct (has_sync d); [|done]. intros [= <-]. split_and!; [unfold generation; cbn [pw_start pp_generation]; lia| |done].
  intros _. unfold tip_of. cbn [pw_ceiling]. lia.
Qed.

(** [height] may become the cursor: no block up to it is left. *)
Definition may_advance (w : PassWindow) (height : Z) (d : IndexDb) : Prop :=
  generation d = pp_generation (pw_start w) → cursor d = pp_cursor (pw_start w) →
  (height ≤ tip_of d)%Z ∧ decoded_up_to (Some height) d.

Lemma advance_tracked w height d o d' :
  tracked height_of d → may_advance w height d →
  tx (advancePassCursor lastDecodedHeight (pw_start w) height) d = (o, d') → tracked height_of d' ∧ since d d'.
Proof.
  intros Ht Hm E. assert (is_Some (Schema.reorgGeneration (ix_main d))) as [g Hg] by apply Ht.
  unfold tx, advancePassCursor in E. m_unfold. unfold on_main, get, put, has_sync, lockReorgGeneration in E. rewrite Hg in E. cbn in E.
  set (m := with_reorgGeneration _ _) in *. fold (cursor d) in E.
  assert (generation_of m = generation d) as Hgen by (unfold m, generation, generation_of; simpl; rewrite Hg; by destruct g).
  assert (tracked height_of (with_main m d) ∧ since d (with_main m d)) as [Htm Hsm].
  { split; [eapply tracked_same; [..|exact Ht]|apply since_same]; try done. intros n Hn. exists n. split; [done|lia]. }
  assert (nullish g 0%Z = generation d) as Hgn by (unfold generation, generation_of; rewrite Hg; by destruct g). rewrite Hgn in E.
  destruct (negb _ || negb _) eqn:Eb; cbn in E; injection E as _ <-; [done|].
  apply orb_false_iff in Eb as [H1%negb_false_iff H2%negb_false_iff].
  apply bool_decide_eq_true_1 in H1, H2.
  destruct (Hm H1 H2) as [Hle Hdec]. split; [|by apply since_same].
  destruct Htm as [R G C Em K D]. split; [by destruct R|done|by apply (one_chain_same _ (with_main m d))|done| |done]. by intros n [= <-].
Qed.

(** At the end of a pass over the blocks selected in [d0]. *)
Lemma ready d0 w ids height d :
  tracked height_of d0 → window_ok w d0 → (height ≤ pw_ceiling w)%Z → after d0 ids d →
  (∀ k b, ix_blocks d0 !! k = Some b → (pw_from w ≤ b_height b ≤ height)%Z → k ∈ ids) →
  tracked height_of d → may_advance w height d.
Proof.
  intros Ht0 (W1 & W2 & W3) Hh ((G & K) & _ & Ha) Hids Ht Hg Hc. destruct K as [Kt Kb Kn Kx]; [lia|].
  assert (pw_ceiling w ≤ tip_of d0)%Z as Hce by (apply W2; lia). split; [lia|].
  intros n k b i t [= <-] Hk Hb Hi Hbt. destruct (Kn _ _ Hk) as [Hk0|[?|?]]; [|lia|lia].
  destruct (decide (pw_from w ≤ b_height b)%Z) as [Hf|Hf].
  - apply (Ha ltac:(lia) i t Hi). rewrite Hbt. apply (Hids k b Hk0). lia.
  - rewrite W3 in Hf. rewrite <- Hc in Hf. destruct (cursor d) as [c|] eqn:Ec.
    + eapply (tr_decoded _ _ Ht c); [done|done|lia|done|done].
    + lia.
Qed.

Lemma setCursor_runs w height (P : IndexDb → Prop) :
  lasting P → (∀ d, tracked height_of d → P d → may_advance w height d) →
  runs (λ s, P (ps_db s)) (setCursor world (pw_start w) height) anything.
Proof.
  intros HP Hm. unfold setCursor. apply (statement_runs P _ (λ _ _, True)); [done|]. intros d o d' Ht Hd E.
  destruct (advance_tracked w height d o d' Ht (Hm d Ht Hd) E). done.
Qed.

(** What the selection of the blocks leaves: the index it read. *)
Definition selected (w : PassWindow) (blocks : list (string * Z)) (d : IndexDb) : Prop :=
  ∃ d0, (tracked height_of d0 ∧ window_ok w d0 ∧ blocks = blocksInRange (pw_from w) (pw_ceiling w) batchSize d0) ∧ since d0 d.

Lemma run_tracked : runs anywhere (runOnce world batchSize lagBlocks) anything.
Proof using All.
  assert (∀ d0, lasting (since d0)) as Hsince by (intros d0 d d' H1 H2; by etrans).
  unfold runOnce. eapply (triple_bind pass_inv pass_ext).
  { apply (read_runs (λ _, True) _ (λ w d, ∀ w', w = Some w' → window_ok w' d)); [done|]. intros d _ _ w' Hw. by apply read_window. }
  intros [w|]; [|by apply (triple_ret pass_inv pass_ext)].
  destruct (windowIsEmpty w); [by apply (triple_ret pass_inv pass_ext)|].
  eapply (triple_bind pass_inv pass_ext).
  { eapply triple_weaken; [apply (read_runs (window_ok w) _ (selected w)); [apply window_lasting|]| |]; cycle 1.
    - intros s Hs. by apply Hs.
    - intros blocks s Hs. exact Hs.
    - intros d Ht Hw. exists d. split; [done|reflexivity]. }
  intros blocks. apply triple_exists. intros d0. apply triple_pure. intros (Ht0 & Hw0 & Hbl).
  destruct (last blocks) as [[k0 h0]|] eqn:El.
  - rewrite Hbl in El. assert (h0 ≤ pw_ceiling w)%Z as Hh0 by (apply last_Some_elem_of, in_range in El as (? & ? & ? & ?); lia).
    eapply (triple_bind pass_inv pass_ext _ _ (λ _ s, after d0 (blocks.*1 ++ []) (ps_db s))).
    + eapply triple_weaken; [apply (decode_blocks_runs d0 blocks _ [])| |done].
      * intros id ([k h] & -> & Hin)%list_elem_of_fmap. rewrite Hbl in Hin. apply in_range in Hin as (b & Hb & _). by exists b.
      * intros s Hs. split_and!; [done|intros x Hx; by apply not_elem_of_nil in Hx|intros _ i t _ Hx; by apply not_elem_of_nil in Hx].
    + intros r. eapply (triple_bind pass_inv pass_ext _ _ (λ _ _, True)); [|intros a; by apply (triple_ret pass_inv pass_ext)].
      apply (setCursor_runs w h0 (after d0 (blocks.*1 ++ []))); [apply after_lasting|]. intros d Ht Ha.
      eapply ready; [exact Ht0|exact Hw0|done|exact Ha| |done]. intros k b Hk Hb. rewrite app_nil_r, Hbl. by eapply range_complete; [apply Ht0|..].
  - eapply (triple_bind pass_inv pass_ext _ _ (λ _ _, True)); [|intros a; by apply (triple_ret pass_inv pass_ext)].
    apply (setCursor_runs w _ (since d0)); [apply Hsince|]. intros d Ht Hs.
    eapply (ready d0 w []); [done|done|lia| | |done].
    + split_and!; [done|intros x Hx; by apply not_elem_of_nil in Hx|intros _ i t _ Hx; by apply not_elem_of_nil in Hx].
    + intros k b Hk Hb. exfalso. destruct (decide (0 < batchSize)%nat) as [Hn|?]; [|lia]. rewrite Hbl in El.
      apply (range_empty _ _ _ _ _ _ El Hn Hk). lia.
Qed.
End Safety.

(** ** Any history *)

Section History.
Context `{ScanOrder}.
Variable height_of : string → Z.

(** A step of the index: of the crawler and its like, or a whole decode pass with
    such steps between its statements. *)
Inductive trail_step : IndexDb → IndexDb → Prop :=
| trail_crawl d d' : crawl_step height_of d d' → trail_step d d'
| trail_pass world batchSize lagBlocks clock d o s' :
    (0 ≤ lagBlocks)%Z → (∀ n d, rtc (crawl_step height_of) d (w_others world n d)) →
    runOnce world batchSize lagBlocks (MkPass clock d) = (o, s') → trail_step d (ps_db s').

Lemma trail_tracked m d : is_Some (Schema.reorgGeneration m) → rtc trail_step (new_index m) d → tracked height_of d.
Proof.
  intros Hm Hr. pose proof (new_index_tracked height_of m Hm) as Ht. revert Ht.
  induction Hr as [d|d d1 d2 Hs _ IH]; intros Ht; [done|]. apply IH. inversion Hs; subst.
  - eapply crawl_tracked; [by apply rtc_once|done].
  - by eapply (run_tracked height_of world batchSize lagBlocks) in H2 as (Ht' & _).
Qed.

(** C14. The decode pass skips no block. From an empty index on, with blocks
    stored, branches rolled back and the cursor reset before, between and within
    passes, with failing statements and a failing decoder: every transaction of an
    indexed block above genesis that is not above the cursor has its decode state
    set, and the cursor is not above the tip. *)
Theorem decode_pass_skips_nothing m d :
  is_Some (Schema.reorgGeneration m) → rtc trail_step (new_index m) d →
  ∀ n, sy_lastDecodedHeight (ix_sync d) = Some n →
    (n ≤ nullish (sy_lastIndexedHeight (ix_sync d)) 0)%Z ∧
    ∀ k b i t, ix_blocks d !! k = Some b → (0 < b_height b ≤ n)%Z → ix_transactions d !! i = Some t → t_block t = k →
      py_decode (t_payload t) ≠ None.
Proof.
  intros Hm Hr n Hn. destruct (trail_tracked m d Hm Hr) as [_ _ _ _ K D].
  split; [by apply K|]. intros k b i t Hk Hb Hi Hbt. by eapply D.
Qed.

(** ** Undisturbed passes *)

(** Nothing runs between the statements, and none fails. *)
Definition quiet (world : PassWorld) : Prop := (∀ n d, w_others world n d = d) ∧ ∀ n, w_fault world n = None.

Section Quiet.
Variable world : PassWorld.
Hypothesis Hquiet : quiet world.

Lemma quiet_statement {A} (m : M IndexDb A) s :
  PayloadDecoder.statement world m s = ((m (ps_db s)).1, MkPass (S (ps_clock s)) (m (ps_db s)).2).
Proof. destruct Hquiet as [H1 H2]. unfold PayloadDecoder.statement. rewrite H1, H2. by destruct (m (ps_db s)). Qed.

Lemma quiet_block id s : ∃ r s', decodeBlock world id s = (Ret r, s') ∧ columns_changed (ps_db s) (ps_db s').
Proof.
  unfold decodeBlock. unfold mbind at 1, M_bind at 1. rewrite quiet_statement. cbn [fst snd].
  destruct (sql_select _ _) as [|r rows] eqn:E; [eexists _, _; split; [done|reflexivity]|].
  unfold mbind at 1, M_bind at 1. set (s1 := MkPass _ _). destruct (decode_rows_ids world (r :: rows) s1) as (us & s2 & -> & Hdb & _).
  unfold mbind, M_bind. rewrite quiet_statement. cbn [fst snd]. eexists _, _. split; [done|]. cbn [ps_db]. rewrite Hdb. apply (apply_updates us (ps_db s)).
Qed.

Lemma quiet_blocks blocks result s : ∃ r s', decode_blocks world result blocks s = (Ret r, s') ∧ columns_changed (ps_db s) (ps_db s').
Proof.
  revert result s. induction blocks as [|[id h] blocks IH]; intros result s; cbn [decode_blocks]; [eexists _, _; split; [done|reflexivity]|].
  unfold mbind, M_bind. destruct (quiet_block id s) as (r1 & s1 & -> & H1).
  destruct (IH (add_run result r1) s1) as (r2 & s2 & -> & H2). eexists _, _. split; [done|by etrans].
Qed.

(** The height a pass saves. *)
Definition reached (d : IndexDb) : Z := match cursor d with None => -1 | Some c => c end.

Lemma quiet_cursor start height s :
  has_sync (ps_db s) = true → generation (ps_db s) = pp_generation start → cursor (ps_db s) = pp_cursor start →
  ∃ s', setCursor world start height s = (Ret true, s') ∧ cursor (ps_db s') = Some height ∧
    sy_lastIndexedHeight (ix_sync (ps_db s')) = sy_lastIndexedHeight (ix_sync (ps_db s)) ∧ has_sync (ps_db s') = true.
Proof.
  intros [g Hg]%bool_decide_eq_true_1 Hgen Hcur. unfold setCursor. rewrite quiet_statement. unfold tx, advancePassCursor. m_unfold.
  unfold on_main, get, put, has_sync, lockReorgGeneration. rewrite Hg. cbn. fold (cursor (ps_db s)).
  assert (nullish g 0%Z = generation (ps_db s)) as -> by (unfold generation, generation_of; rewrite Hg; by destruct g).
  rewrite !bool_decide_eq_true_2 by done. cbn. by eexists.
Qed.

(** A pass over a window with something in it moves the cursor up. *)
Lemma quiet_pass batchSize lagBlocks s :
  (0 < batchSize)%nat → has_sync (ps_db s) = true → (reached (ps_db s) < tip_of (ps_db s) - lagBlocks)%Z →
  ∃ r s', runOnce world batchSize lagBlocks s = (Ret r, s') ∧ has_sync (ps_db s') = true ∧ tip_of (ps_db s') = tip_of (ps_db s) ∧
    (reached (ps_db s) < reached (ps_db s') ≤ tip_of (ps_db s) - lagBlocks)%Z.
Proof.
  intros Hb Hsync Hlt. unfold runOnce. unfold mbind at 1, M_bind at 1. rewrite quiet_statement. cbn [fst snd].
  unfold readPassWindow. rewrite Hsync. cbn [fst snd cursor_of]. fold (cursor (ps_db s)) (generation (ps_db s)) (tip_of (ps_db s)). set (w := MkWindow _ _ _).
  assert (pw_from w = (reached (ps_db s) + 1)%Z) as Hfrom by (unfold w, reached; cbn [pw_from]; by destruct (cursor (ps_db s))).
  unfold windowIsEmpty. rewrite bool_decide_eq_false_2 by (rewrite Hfrom; cbn [pw_ceiling w]; lia).
  unfold mbind at 1, M_bind at 1. rewrite quiet_statement. cbn [fst snd]. set (blocks := blocksInRange _ _ _ _). cbn [ps_db] in blocks. set (s2 := MkPass _ _).
  assert (∀ h s3, columns_changed (ps_db s) (ps_db s3) → (reached (ps_db s) < h ≤ tip_of (ps_db s) - lagBlocks)%Z →
    ∃ s', setCursor world (pw_start w) h s3 = (Ret true, s') ∧ has_sync (ps_db s') = true ∧ tip_of (ps_db s') = tip_of (ps_db s) ∧
      (reached (ps_db s) < reached (ps_db s') ≤ tip_of (ps_db s) - lagBlocks)%Z) as Hset.
  { intros h s3 (_ & Hs & Hm & _) Hh. destruct (quiet_cursor (pw_start w) h s3) as (s' & Hrun & Hc & Ht & Hy).
    - unfold has_sync. by rewrite Hm.
    - unfold generation. by rewrite Hm.
    - unfold cursor. by rewrite Hs.
    - exists s'. assert (reached (ps_db s') = h) as -> by (unfold reached; by rewrite Hc).
      split_and!; [done|done|unfold tip_of; by rewrite Ht, Hs|lia|lia]. }
  destruct (last blocks) as [[k h]|] eqn:El.
  - apply last_Some_elem_of, in_range in El as (_ & _ & _ & Hh). rewrite Hfrom in Hh. cbn [pw_ceiling w] in Hh.
    unfold mbind, M_bind. destruct (quiet_blocks blocks (MkRun (length blocks) 0 0 0 0) s2) as (r & s3 & -> & Hc).
    destruct (Hset h s3 Hc) as (s' & -> & Hs'); [lia|]. by eexists _, _.
  - unfold mbind, M_bind. set (h := Z.min _ _). destruct (Hset h s2) as (s' & -> & Hs'); [done| |by eexists _, _].
    unfold h. rewrite Hfrom. cbn [pw_ceiling w]. lia.
Qed.
End Quiet.

Lemma decoded_reach d : tracked height_of d →
  ∀ k b i t, ix_blocks d !! k = Some b → (0 < b_height b ≤ reached d)%Z → ix_transactions d !! i = Some t → t_block t = k → is_decoded t.
Proof.
  intros Ht k b i t Hk Hb Hi Hbt. unfold reached in Hb. destruct (cursor d) as [c|] eqn:Ec; [|lia].
  eapply (tr_decoded _ _ Ht c); [done|exact Hk|lia|done|done].
Qed.

Definition pass (world : PassWorld) (batchSize : nat) (lagBlocks : Z) (s : PassState) : PassState := (runOnce world batchSize lagBlocks s).2.

Lemma passes_tracked world batchSize lagBlocks n s : quiet world → (0 ≤ lagBlocks)%Z → tracked height_of (ps_db s) →
  tracked height_of (ps_db (Nat.iter n (pass world batchSize lagBlocks) s)).
Proof.
  intros Hq Hl Ht. induction n as [|n IH]; [done|]. rewrite Nat.iter_succ. unfold pass at 1.
  destruct (runOnce world batchSize lagBlocks (Nat.iter n (pass world batchSize lagBlocks) s)) as [o s'] eqn:E.
  eapply (run_tracked height_of world batchSize lagBlocks) in E as (Ht' & _); [done|done| |done|done].
  intros k d. destruct Hq as [-> _]. apply rtc_refl.
Qed.

(** C15. Left alone, the decode pass catches up: whatever happened before, finitely
    many passes with a positive batch size leave the tip where it is and decode
    every transaction of the indexed blocks above genesis that the lag allows. *)
Theorem decode_pass_catches_up m d world batchSize lagBlocks clock :
  is_Some (Schema.reorgGeneration m) → rtc trail_step (new_index m) d → quiet world → (0 < batchSize)%nat → (0 ≤ lagBlocks)%Z →
  ∃ n, let d' := ps_db (Nat.iter n (λ s, (runOnce world batchSize lagBlocks s).2) (MkPass clock d)) in
    tip_of d' = tip_of d ∧
    ∀ k b i t, ix_blocks d' !! k = Some b → (0 < b_height b ≤ tip_of d - lagBlocks)%Z → ix_transactions d' !! i = Some t → t_block t = k →
      py_decode (t_payload t) ≠ None.
Proof.
  intros Hm Hr Hq Hb Hl. change (λ s, (runOnce world batchSize lagBlocks s).2) with (pass world batchSize lagBlocks). pose proof (trail_tracked m d Hm Hr) as Ht.
  assert (∃ n, let d' := ps_db (Nat.iter n (pass world batchSize lagBlocks) (MkPass clock d)) in
    tip_of d' = tip_of d ∧ (tip_of d - lagBlocks ≤ reached d')%Z) as (n & Htip & Hn).
  { assert (∀ left s, has_sync (ps_db s) = true → (tip_of (ps_db s) - lagBlocks - reached (ps_db s) ≤ Z.of_nat left)%Z →
      ∃ n, let d' := ps_db (Nat.iter n (pass world batchSize lagBlocks) s) in
        tip_of d' = tip_of (ps_db s) ∧ (tip_of (ps_db s) - lagBlocks ≤ reached d')%Z) as Hall.
    { induction left as [|left IH]; intros s Hs Hle; [exists 0%nat; split; [done|cbn; lia]|].
      destruct (decide (tip_of (ps_db s) - lagBlocks ≤ reached (ps_db s))%Z) as [?|Hgt]; [by exists 0%nat|].
      destruct (quiet_pass world Hq batchSize lagBlocks s) as (r & s' & E & Hs' & Htip & Hlt); [done|done|lia|].
      destruct (IH s') as (n & H1 & H2); [done|lia|]. exists (S n). rewrite Nat.iter_succ_r.
      assert (pass world batchSize lagBlocks s = s') as -> by (unfold pass; by rewrite E).
      split; [congruence|]. by rewrite <- Htip. }
    apply (Hall (Z.to_nat (tip_of d - lagBlocks - reached d)) (MkPass clock d)); [|cbn; lia]. apply bool_decide_eq_true_2, Ht. }
  exists n. split; [done|]. intros k b i t Hk Hh Hi Hbt.
  eapply (decoded_reach _ (passes_tracked world batchSize lagBlocks n (MkPass clock d) Hq Hl Ht)); [done|lia|done|done].
Qed.
End History.

(** * The pass at concrete blocks

    A run with a block stored in between, and two runs after which the index is not
    what the pass means to leave. *)

#[local] Existing Instance key_order.

Lemma crawl_a : crawl_step example_height (new_index example_main) after_a.
Proof.
  eapply (crawl_persist example_height (λ _, []) (ids "a") 99 (λ _, None) block_a pays_alice (None, None) true); [..|apply surjective_pairing].
  - by apply (ids_fresh []); [|apply not_elem_of_nil].
  - apply block_a_from_node.
  - by left.
Qed.

Lemma crawl_b : crawl_step example_height after_a after_b.
Proof.
  eapply (crawl_persist example_height (λ _, []) (ids "b") 99 (λ _, None) block_b alice_pays_bob (None, None) true); [..|apply surjective_pairing].
  - apply ids_b_fresh.
  - apply block_b_from_node.
  - apply block_b_next.
Qed.

(** The decode worker finds nothing in any payload. *)
Definition no_answer : nat → list Z → outcome LedgerPayloadFacts := λ _ _, Throw (Exn "Error" EmptyString "undecodable").

Definition alone : PassWorld := MkPassWorld (λ _ d, d) (λ _, None) no_answer.

(** The branch from height 1 is rolled back before the pass saves its cursor. *)
Definition rolled_back : PassWorld :=
  MkPassWorld (λ n d, if (n =? 6)%nat then (rollbackIndexedDataFromHeight 99 1 "syncing" None d).2 else d) (λ _, None) no_answer.

Definition disturbed : IndexDb := ps_db (runOnce rolled_back 10 0 (MkPass 0 after_b)).2.
Definition stored_again : IndexDb := (store "c" block_b alice_pays_bob disturbed).2.
Definition decoded_again : IndexDb := ps_db (runOnce alone 10 0 (MkPass 0 stored_again)).2.

Definition decode_states (d : IndexDb) : list (option PayloadDecodeState) :=
  (λ t : string * TxRow, py_decode (t_payload t.2)) <$> map_to_list (ix_transactions d).

(** The disturbed pass leaves the cursor where it was; the next one decodes the
    block stored in place of the lost one. *)
Example disturbed_pass_waits :
  (cursor disturbed, tip_of disturbed, decode_states stored_again) = (None, 0%Z, [None; Some Absent]) ∧
  (cursor decoded_again, tip_of decoded_again, decode_states decoded_again) = (Some 1%Z, 1%Z, [Some Absent; Some Absent]).
Proof. split; vm_compute; reflexivity. Qed.

Lemma trail_disturbed : trail_step example_height after_b disturbed.
Proof.
  eapply (trail_pass example_height rolled_back 10 0 0); [done| |apply surjective_pairing].
  intros n d. unfold rolled_back. cbn [w_others]. destruct (n =? 6)%nat; [|apply rtc_refl]. apply rtc_once.
  eapply (crawl_rollback example_height 99 1 "syncing" None). apply surjective_pairing.
Qed.

Lemma trail_again : trail_step example_height disturbed stored_again.
Proof.
  apply trail_crawl.
  eapply (crawl_persist example_height (λ _, []) (ids "c") 99 (λ _, None) block_b alice_pays_bob (None, None) true); [..|apply surjective_pairing].
  - apply (ids_fresh ["a"%char; "b"%char]); [vm_compute; reflexivity|]. other_letters.
  - apply block_b_from_node.
  - right. right. split; [done|]. intros k b Hk. apply (bool_decide_eq_true_1 (b_height b < 1)%Z). revert k b Hk. apply map_check.
    vm_compute. reflexivity.
Qed.

Lemma trail_stored_again : rtc (trail_step example_height) (new_index example_main) stored_again.
Proof.
  eapply rtc_l; [apply trail_crawl, crawl_a|]. eapply rtc_l; [apply trail_crawl, crawl_b|].
  eapply rtc_l; [apply trail_disturbed|]. apply rtc_once, trail_again.
Qed.

Lemma alone_quiet : quiet alone.
Proof. by split. Qed.

Lemma decoded_row : (t_block <$> ix_transactions decoded_again !! "c10", b_height <$> ix_blocks decoded_again !! "c4") = (Some "c4", Some 1%Z).
Proof. vm_compute. reflexivity. Qed.

Lemma trail_decoded_again : rtc (trail_step example_height) (new_index example_main) decoded_again.
Proof.
  eapply rtc_r; [apply trail_stored_again|]. eapply (trail_pass example_height alone 10 0 0); [done| |apply surjective_pairing].
  intros n d. apply rtc_refl.
Qed.

Lemma cursor_decoded_again : sy_lastDecodedHeight (ix_sync decoded_again) = Some 1%Z.
Proof. vm_compute. reflexivity. Qed.

#[local] Opaque decoded_again.

Lemma decode_pass_skips_nothing_witness :
  (t_block <$> ix_transactions decoded_again !! "c10", b_height <$> ix_blocks decoded_again !! "c4") = (Some "c4", Some 1%Z) ∧
  (py_decode ∘ t_payload <$> ix_transactions decoded_again !! "c10") ≠ Some None.
Proof.
  pose proof decoded_row as H0. split; [exact H0|].
  destruct (ix_transactions decoded_again !! "c10") as [t|] eqn:Ht; [|discriminate].
  destruct (ix_blocks decoded_again !! "c4") as [b|] eqn:Hb; [|discriminate]. simpl in H0. injection H0 as Hbt Hh.
  simpl. intros H. injection H. refine (proj2 (decode_pass_skips_nothing example_height example_main decoded_again _ trail_decoded_again 1%Z cursor_decoded_again) "c4" b "c10" t Hb _ Ht Hbt).
  - by eexists.
  - rewrite Hh. clear. lia.
Defined.

#[local] Transparent decoded_again.

Lemma decode_pass_catches_up_witness : ∃ n, let d' := ps_db (Nat.iter n (λ s, (runOnce alone 1 0 s).2) (MkPass 0 stored_again)) in
  tip_of d' = tip_of stored_again ∧
  ∀ k b i t, ix_blocks d' !! k = Some b → (0 < b_height b ≤ tip_of stored_again - 0)%Z → ix_transactions d' !! i = Some t → t_block t = k →
    py_decode (t_payload t) ≠ None.
Proof.
  apply (decode_pass_catches_up example_height example_main stored_again alone 1 0 0 ltac:(by eexists) trail_stored_again alone_quiet);
  [apply Nat.lt_0_succ|done].
Defined.

(** ** A pass over an empty index *)

(** The window of an empty index is the height 0: the pass finds no block and
    saves the cursor 0. The genesis block, indexed next, is never decoded. *)
Definition passed_empty : IndexDb := ps_db (runOnce alone 10 0 (MkPass 0 (new_index example_main))).2.
Definition genesis_later : IndexDb := (store "a" block_a pays_alice passed_empty).2.
Definition passed_genesis : IndexDb := ps_db (runOnce alone 10 0 (MkPass 0 genesis_later)).2.

Example genesis_left_undecoded :
  (cursor passed_empty, tip_of genesis_later) = (Some 0%Z, 0%Z) ∧
  (cursor passed_genesis, decode_states passed_genesis) = (Some 0%Z, [None]).
Proof. split; vm_compute; reflexivity. Qed.

(** ** A rollback before a block's write *)

(** A block with a ledger transaction, and a worker that finds an identifier in it. *)
Definition block_p : PreparedBlock :=
  MkFetched "0xb" 1 (MkSignedBlock (MkHeader "0xa" "0x0" "0xroot" []) ["0x140405000407"]) 1 (buildPalletMap None) 1 None.

Definition one_identifier : LedgerPayloadFacts := MkPayloadFacts ["0xAB"] [] 0 0 0 0 0 0.

Definition after_p : IndexDb := (store "p" block_p [] after_a).2.

(** The rollback comes after the block's rows are read and decoded. *)
Definition rolled_back_early : PassWorld :=
  MkPassWorld (λ n d, if (n =? 6)%nat then (rollbackIndexedDataFromHeight 99 1 "syncing" None d).2 else d) (λ _, None)
    (λ _ _, Ret one_identifier).

Definition dangling : IndexDb := ps_db (runOnce rolled_back_early 10 0 (MkPass 0 after_p)).2.

(** The write finds no transaction to update, and still adds its lookup row. *)
Example identifier_of_no_transaction :
  (map_to_list (ix_identifiers dangling)).*2 = [MkIdentifier "ab" "p10"] ∧ ix_transactions dangling !! "p10" = None.
Proof. split; vm_compute; reflexivity. Qed.
