(* ===== verification/BlockFetch.v ===== *)
(** Fetching blocks from the node and handing them to the index
    (srv/crawler/BlockProcessor.ts).

    The processor keeps caches between blocks: runtime versions and contexts, the
    authority list that signs the next block, encoded addresses. *)
From Stdlib Require Import Ascii.
From S2P Require Import Prelude Db Json Numbers Schema Scale Rollback.
From S2P Require Import BlockEvents NodeRpc BlockProcessor.

Set Warnings "-register-all".

Local Open Scope string_scope.

(** [PreparedBlock]: a block that is indexed already is not fetched. *)
Inductive Prepared := Skipped (blockHash : string) (height : Z) | Fetched (prep : PreparedBlock).

Definition prepared_height (p : Prepared) : Z := match p with Skipped _ h => h | Fetched prep => pb_height prep end.
Definition prepared_hash (p : Prepared) : string := match p with Skipped hash _ => hash | Fetched prep => pb_blockHash prep end.

(** What the outside answers while one block is written: the identifiers, the
    clock, and what the database raises at a statement. *)
Record Call := MkCall { ca_uuid : RowName → string; ca_now : Z; ca_fault : string → option exn }.

Section Fetch.
Context {Registry : Type}.
(** The decoding library. *)
Variable decode_metadata : string → outcome Registry.
Variable registry_pallets : Registry → outcome (list (string * option Z)).
Variable decode_events : Registry → string → outcome (list EventRecord).
Variable decode_digest : BlockHeader → outcome (list DigestItem).
Variable header_hash : BlockHeader → outcome (list Z).
Variable decodeAuthorities : list Z → outcome (list string).
Variable sr25519Verify : list Z → list Z → string → bool.
Variable bech32m : string → list Z → outcome string.
Variable dustInitialNonce : Z → string → outcome (string + list Z).
Variable blake2b : list Z → list Z.
(** The configuration. *)
Variable network : string.
Variable palletConfig : option PalletMap.
Context `{ScanOrder}.

(** [palletOverrides] and [defaultPalletMap] of the processor. *)
Definition palletOverrides : PalletMap := configPalletOverrides palletConfig.
Definition defaultPalletMap : PalletMap := buildPalletMap palletConfig.

Record Processor := MkProcessor {
  pr_spec : SpecCache; pr_runtimes : RuntimeCache Registry; pr_next : option NextAuthorities;
  pr_addresses : Addresses; pr_db : IndexDb }.

(** A computation on a part of the processor. *)
Definition on_spec {A} (m : M SpecCache A) : M Processor A := λ p,
  let '(o, s) := m (pr_spec p) in (o, MkProcessor s (pr_runtimes p) (pr_next p) (pr_addresses p) (pr_db p)).
Definition on_runtimes {A} (m : M (RuntimeCache Registry) A) : M Processor A := λ p,
  let '(o, r) := m (pr_runtimes p) in (o, MkProcessor (pr_spec p) r (pr_next p) (pr_addresses p) (pr_db p)).
Definition on_next {A} (m : M (option NextAuthorities) A) : M Processor A := λ p,
  let '(o, n) := m (pr_next p) in (o, MkProcessor (pr_spec p) (pr_runtimes p) n (pr_addresses p) (pr_db p)).
Definition on_addresses {A} (m : M Addresses A) : M Processor A := λ p,
  let '(o, a) := m (pr_addresses p) in (o, MkProcessor (pr_spec p) (pr_runtimes p) (pr_next p) a (pr_db p)).
Definition on_db {A} (m : M IndexDb A) : M Processor A := λ p,
  let '(o, d) := m (pr_db p) in (o, MkProcessor (pr_spec p) (pr_runtimes p) (pr_next p) (pr_addresses p) d).

(** ** One block *)

(** The answers of the node for a block that is not indexed. *)
Record Answers := MkAnswers {
  an_block : option SignedBlock; an_timestamp : option string; an_events : option string; an_upgrade : option string }.

(** The version lookup another batch has under way for the same value, if any. *)
Definition Joined : Type := option (outcome SpecVersionLookup).

(** A signed block with what the node says of it. *)
Definition prepare (node : Node) (joined : Joined) (blockHash where_ : string) (height_of : BlockHeader → outcome Z)
    (signedBlock : SignedBlock) (a : Answers) : M Processor PreparedBlock :=
  protocolVersion ← on_spec (resolveSpecVersion node joined (an_upgrade a) blockHash where_);
  height ← lift (height_of (sb_header signedBlock));
  eventRegistry ← on_runtimes (getEventRegistry decode_metadata registry_pallets node palletOverrides blockHash protocolVersion);
  p ← get;
  let palletMap := palletMapFor (pr_runtimes p) defaultPalletMap protocolVersion in
  timestamp ← lift (resolveTimestamp (an_timestamp a) (sb_extrinsics signedBlock) where_ palletMap);
  extrinsicEvents ← lift (decodeBlockEvents decode_events (an_events a) (Some eventRegistry) where_
                            (length (sb_extrinsics signedBlock)));
  mret (MkFetched blockHash height signedBlock protocolVersion palletMap timestamp extrinsicEvents).

(** ** A range of heights *)

Definition at_height (height : Z) : string := "height " ++ pretty height.
Definition no_block_at (height : Z) : exn := js_error ("No block at height " ++ pretty height).
Definition no_body (where_ : string) : exn := js_error ("No block body returned for " ++ where_ ++ " (pruned or racing node)").

(** [rpcBatch]: the answers in order, or the error of one of them. *)
Fixpoint rpcBatch {A} (calls : list (outcome A)) : outcome (list A) :=
  match calls with
  | [] => Ret []
  | c :: calls' => a ← c; l ← rpcBatch calls'; Ret (a :: l)
  end.

Definition ask_block (node : Node) (hash : string) : outcome Answers :=
  block ← n_getBlock node hash;
  ts ← n_getStorage node TIMESTAMP_STORAGE_KEY hash;
  events ← n_getStorage node SYSTEM_EVENTS_STORAGE_KEY hash;
  upgrade ← n_getStorage node LAST_RUNTIME_UPGRADE_STORAGE_KEY hash;
  Ret (MkAnswers block ts events upgrade).

(** The loop over the heights; the answers are those of the heights whose block
    is not indexed. *)
Fixpoint prepare_all (node : Node) (joined : Z → Joined) (existing : string → bool)
    (heights : list (Z * option string)) (answers : list Answers) : M Processor (list Prepared) :=
  match heights with
  | [] => mret []
  | (height, hash) :: heights' =>
      match present hash with
      | None => throw (no_block_at height)
      | Some blockHash =>
          if existing blockHash then
            out ← prepare_all node joined existing heights' answers; mret (Skipped blockHash height :: out)
          else
            match answers with
            | MkAnswers (Some signedBlock) ts events upgrade :: answers' =>
                prep ← prepare node (joined height) blockHash (at_height height) (λ _, Ret height) signedBlock
                         (MkAnswers (Some signedBlock) ts events upgrade);
                out ← prepare_all node joined existing heights' answers';
                mret (Fetched prep :: out)
            | _ => throw (no_body (at_height height))
            end
      end
  end.

Definition fetchBlockBatch (node : Node) (joined : Z → Joined) (heights : list Z) : M Processor (list Prepared) :=
  match heights with
  | [] => mret []
  | _ =>
      hashes ← lift (rpcBatch (n_getBlockHash node <$> heights));
      p ← get;
      let existing hash := bool_decide (is_Some (block_by_hash hash (pr_db p))) in
      let fresh := filter (λ hash, existing hash = false) (omap present hashes) in
      answers ← lift (rpcBatch (ask_block node <$> fresh));
      prepare_all node joined existing (zip heights hashes) answers
  end.

(** ** Storing *)

(** The events are projected and the producer resolved before the transaction. *)
Definition persist_fetched (c : Call) (node : Node) (prep : PreparedBlock) (requireParent : bool) : M Processor ProcessResult :=
  projections ← on_addresses (projectEvents bech32m dustInitialNonce network (pb_extrinsicEvents prep) (pb_timestamp prep));
  producer ← on_next (resolve_author decode_digest header_hash decodeAuthorities sr25519Verify node (pb_blockHash prep)
                        (sb_header (pb_signedBlock prep)));
  on_db (persistFromNode blake2b (ca_uuid c) (ca_now c) (ca_fault c) prep projections (bp_author producer, bp_slot producer) requireParent).

Definition persistPreparedBlock (c : Call) (node : Node) (p : Prepared) : M Processor ProcessResult :=
  match p with
  | Skipped blockHash height => mret (MkResult height blockHash 0 0)
  | Fetched prep => persist_fetched c node prep true
  end.

(** A failed read counts as no value. *)
Definition soft_storage (node : Node) (key hash : string) : option string :=
  match n_getStorage node key hash with Ret v => v | Throw _ => None end.

Definition undefined_header : exn := Exn "TypeError" EmptyString "Cannot read properties of null (reading 'number')".

Definition processFromNode (c : Call) (node : Node) (joined : Joined) (blockHash : string) (requireParent : bool) :
    M Processor ProcessResult :=
  exists_ ← on_db (blockExists (ca_fault c) blockHash);
  if exists_ : bool then
    header ← lift (n_getHeader node blockHash);
    match header with
    | None => throw undefined_header
    | Some header => height ← lift (parseBlockNumber (hd_number header)); mret (MkResult height blockHash 0 0)
    end
  else
    signedBlock ← lift (n_getBlock node blockHash);
    rawEvents ← lift (n_getStorage node SYSTEM_EVENTS_STORAGE_KEY blockHash);
    match signedBlock with
    | None => throw (no_body blockHash)
    | Some signedBlock =>
        prep ← prepare node joined blockHash ("block " ++ blockHash) (λ header, parseBlockNumber (hd_number header)) signedBlock
                 (MkAnswers (Some signedBlock) (soft_storage node TIMESTAMP_STORAGE_KEY blockHash) rawEvents
                    (soft_storage node LAST_RUNTIME_UPGRADE_STORAGE_KEY blockHash));
        persist_fetched c node prep requireParent
    end.

Definition processBlockByHash (c : Call) (node : Node) (joined : Joined) (blockHash : string) : M Processor ProcessResult :=
  processFromNode c node joined blockHash false.

Definition processBlockByHeight (c : Call) (node : Node) (joined : Joined) (height : Z) : M Processor ProcessResult :=
  hash ← lift (n_getBlockHash node height);
  match present hash with
  | None => throw (no_block_at height)
  | Some hash => processFromNode c node joined hash true
  end.

End Fetch.
