(* ===== verification/Crawler.v ===== *)
(** The crawler: catching up with the finalized chain, following new heads, and
    leaving a fork (srv/crawler/Crawler.ts, srv/utils/retry.ts).

    Timers, log lines and the figures of progress (rates, percentages, times) are
    not modelled. Every statement of the crawler can fail, its reads and writes of
    SyncState too; the reads of a fork search fail before the first of them. *)
From Stdlib Require Import Ascii.
From S2P Require Import Prelude Db Json Numbers Schema Reconciliation Rollback NodeRpc BlockProcessor BlockFetch.

Set Warnings "-register-all".

Local Open Scope string_scope.

(** ** Errors that a retry can fix *)

Definition NODE_TRANSPORT_PATTERNS : list string :=
  ["econnreset"; "econnrefused"; "enotfound"; "etimedout"; "ehostunreach"; "epipe"; "socket hang up";
   "connection closed"; "connection lost"; "closed before"; "disconnect"; "not connected"; "websocket"; "rpc timeout"].

Definition TRANSIENT_PATTERNS : list string :=
  ["timeout"; "network"; "no block body"; "no block at height"; "no timestamp for"; "no runtime metadata for";
   "no runtime version for"; "no system.events for"].

Definition isNodeTransportError (err : exn) : bool := existsb (λ p, includes p (lower (ex_msg err))) NODE_TRANSPORT_PATTERNS.
Definition isTransientError (err : exn) : bool :=
  isNodeTransportError err || existsb (λ p, includes p (lower (ex_msg err))) TRANSIENT_PATTERNS.

(** The attempts of [withRetry], [left] of them; [run i] is attempt [i]. *)
Fixpoint with_retry {S A} (left attempt : nat) (lastError : exn) (run : nat → M S A) : M S A := λ s,
  match left with
  | O => (Throw lastError, s)
  | Datatypes.S left' =>
      match run attempt s with
      | (Ret a, s') => (Ret a, s')
      | (Throw err, s') =>
          if isTransientError err then with_retry left' (Datatypes.S attempt) err run s' else (Throw err, s')
      end
  end.

Definition withRetry {S A} (maxRetries : nat) (label : string) (run : nat → M S A) : M S A :=
  with_retry maxRetries 1%nat (js_error (label ++ " failed")) run.

(** ** Where to go on *)

(** Nothing is indexed without a hash. *)
Definition getCatchUpStartHeight (s : SyncCols) : Z :=
  match present (sy_lastIndexedHash s) with
  | None => 0%Z
  | Some _ => (nullish (sy_lastIndexedHeight s) (-1) + 1)%Z
  end.

(** ** Forks *)

Record ReorgInfo := MkReorg { ro_forkHeight : Z; ro_oldTipHash : string; ro_newTipHash : string }.

Definition deep_fork (number : string) : exn :=
  js_error ("Reorg deeper than 100 blocks below " ++ number ++
            ": no common ancestor found, refusing to roll back to an unverified height").

Definition no_header (hash : string) : exn :=
  js_error ("No header for " ++ hash ++ " during fork search (pruned or racing node)").

Section Forks.
Context `{ScanOrder}.
Variable node : Node.

(** The loop of the fork search at [height]. *)
Fixpoint find_fork (d : IndexDb) (header : BlockHeader) (number : Z) (height : nat) (currentHash : string) : outcome Z :=
  match height with
  | O => Ret 0%Z
  | S height' =>
      if bool_decide (is_Some (block_by_hash currentHash d)) then Ret (Z.of_nat height + 1)%Z
      else
        prevHeader ← n_getHeader node currentHash;
        match prevHeader with
        | None => Throw (no_header currentHash)
        | Some prev =>
            if is_empty (hd_parentHash prev) then Throw (no_header currentHash)
            else if bool_decide (100 < number - Z.of_nat height')%Z then Throw (deep_fork (hd_number header))
            else find_fork d header number height' (hd_parentHash prev)
        end
  end.

Definition findForkPoint (header : BlockHeader) (d : IndexDb) : outcome Z :=
  number ← parseBlockNumber (hd_number header);
  find_fork d header number (Z.to_nat (number - 1)) (hd_parentHash header).

(** [SELECT.one.from(Blocks).where({ height })] *)
Definition block_at (height : Z) (d : IndexDb) : option BlockRow :=
  snd <$> head (sql_select (λ _ b, bool_decide (b_height b = height)) (ix_blocks d)).

Definition fork_from (header : BlockHeader) (lastIndexedHash : string) (d : IndexDb) : outcome (option ReorgInfo) :=
  forkHeight ← findForkPoint header d; Ret (Some (MkReorg forkHeight lastIndexedHash (hd_parentHash header))).

Definition checkForReorg (header : BlockHeader) (d : IndexDb) : outcome (option ReorgInfo) :=
  match present (sy_lastIndexedHash (ix_sync d)) with
  | None => Ret None
  | Some lastIndexedHash =>
      if bool_decide (hd_parentHash header = lastIndexedHash) then Ret None
      else
        newHeight ← parseBlockNumber (hd_number header);
        let lastIndexedHeight := nullish (sy_lastIndexedHeight (ix_sync d)) 0%Z in
        if bool_decide (lastIndexedHeight + 1 < newHeight)%Z then Ret None
        else if bool_decide (newHeight ≤ lastIndexedHeight)%Z then
          if bool_decide (newHeight = 0%Z) then Ret None
          else if bool_decide (b_hash <$> block_at (newHeight - 1) d = Some (hd_parentHash header)) then
            match block_at newHeight d with
            | None => Ret None
            | Some local =>
                canonical ← n_getBlockHash node newHeight;
                match present canonical with
                | None => Ret None
                | Some canonical =>
                    if bool_decide (b_hash local = canonical) then Ret None
                    else Ret (Some (MkReorg newHeight lastIndexedHash canonical))
                end
            end
          else fork_from header lastIndexedHash d
        else fork_from header lastIndexedHash d
  end.
End Forks.

Record ReorgLogRow := MkReorgLog {
  rg_detectedAt : Z; rg_forkHeight : Z; rg_oldTipHash : string; rg_newTipHash : string; rg_blocksRolledBack : nat;
  rg_blocksReIndexed : Z; rg_status : string }.

(** What the outside answers at a moment: the node, the database and clock of a
    write, lookups other batches have under way, whether the crawler still runs. *)
Record Outside := MkOutside {
  ou_node : Node; ou_call : Call; ou_joined : Z → Joined; ou_running : bool; ou_uuid : string }.

Record CrawlerConfig := MkConfig {
  cf_batchSize : Z; cf_maxRetries : nat; cf_fetchConcurrency : nat; cf_rpcBatchSize : Z; cf_startHeight : Z }.

(** Runs a computation and hands over how it ended. *)
Definition attempt {S A} (m : M S A) : M S (outcome A) := λ s, let '(o, s') := m s in (Ret o, s').

(** [for (let h = from; h <= to; h++) heights.push(h)] *)
Definition heights_between (from to : Z) : list Z := seqZ from (to - from + 1)%Z.

Section Crawl.
Context {Registry : Type}.
Variable decode_metadata : string → outcome Registry.
Variable registry_pallets : Registry → outcome (list (string * option Z)).
Variable decode_events : Registry → string → outcome (list BlockEvents.EventRecord).
Variable decode_digest : BlockHeader → outcome (list DigestItem).
Variable header_hash : BlockHeader → outcome (list Z).
Variable decodeAuthorities : list Z → outcome (list string).
Variable sr25519Verify : list Z → list Z → string → bool.
Variable bech32m : string → list Z → outcome string.
Variable dustInitialNonce : Z → string → outcome (string + list Z).
Variable blake2b : list Z → list Z.
Variable network : string.
Variable palletConfig : option BlockEvents.PalletMap.
Variable config : CrawlerConfig.
(** The outside at each look, over time. *)
Variable outside : nat → Outside.
Context `{ScanOrder}.

(** [cw_chainHeight] to [cw_lastError] are columns of SyncState besides those of
    [ix_sync]. *)
Record Crawler := MkCrawler {
  cw_clock : nat; cw_processor : Processor (Registry:=Registry); cw_reorgLog : list (string * ReorgLogRow); cw_isCatchingUp : bool;
  cw_poisonBlock : option (Z * string); cw_chainHeight : Z; cw_lastFinalized : option (Z * string);
  cw_consecutiveErrors : Z; cw_lastError : option string }.

Definition cw_db (c : Crawler) : IndexDb := pr_db (cw_processor c).

Definition with_processor (p : Processor) (c : Crawler) : Crawler :=
  MkCrawler (cw_clock c) p (cw_reorgLog c) (cw_isCatchingUp c) (cw_poisonBlock c) (cw_chainHeight c) (cw_lastFinalized c)
    (cw_consecutiveErrors c) (cw_lastError c).
Definition with_flags (catching : bool) (poison : option (Z * string)) (c : Crawler) : Crawler :=
  MkCrawler (cw_clock c) (cw_processor c) (cw_reorgLog c) catching poison (cw_chainHeight c) (cw_lastFinalized c)
    (cw_consecutiveErrors c) (cw_lastError c).
Definition with_chain (height : Z) (finalized : option (Z * string)) (c : Crawler) : Crawler :=
  MkCrawler (cw_clock c) (cw_processor c) (cw_reorgLog c) (cw_isCatchingUp c) (cw_poisonBlock c) height finalized
    (cw_consecutiveErrors c) (cw_lastError c).
Definition with_errors (n : Z) (last : option string) (c : Crawler) : Crawler :=
  MkCrawler (cw_clock c) (cw_processor c) (cw_reorgLog c) (cw_isCatchingUp c) (cw_poisonBlock c) (cw_chainHeight c)
    (cw_lastFinalized c) n last.
Definition with_log (l : list (string * ReorgLogRow)) (c : Crawler) : Crawler :=
  MkCrawler (cw_clock c) (cw_processor c) l (cw_isCatchingUp c) (cw_poisonBlock c) (cw_chainHeight c) (cw_lastFinalized c)
    (cw_consecutiveErrors c) (cw_lastError c).

(** [syncStatus] alone. *)
Definition set_status (status : string) (d : IndexDb) : IndexDb :=
  let s := ix_sync d in
  with_sync (MkSync (sy_lastIndexedHeight s) (sy_lastIndexedHash s) (sy_lastIndexedAt s) (sy_lastDecodedHeight s)
    (sy_lastSupplementedHeight s) status (sy_syncProgress s)) d.

Definition with_db (f : IndexDb → IndexDb) (c : Crawler) : Crawler :=
  let p := cw_processor c in
  with_processor (MkProcessor (pr_spec p) (pr_runtimes p) (pr_next p) (pr_addresses p) (f (pr_db p))) c.

Definition modify {S} (f : S → S) : M S unit := λ s, (Ret tt, f s).

(** The outside now; time goes on. *)
Definition look : M Crawler Outside := λ c,
  (Ret (outside (cw_clock c)),
   MkCrawler (S (cw_clock c)) (cw_processor c) (cw_reorgLog c) (cw_isCatchingUp c) (cw_poisonBlock c) (cw_chainHeight c)
     (cw_lastFinalized c) (cw_consecutiveErrors c) (cw_lastError c)).

Definition on_processor {A} (m : M Processor A) : M Crawler A := λ c,
  let '(o, p) := m (cw_processor c) in (o, with_processor p c).

(** A statement of the crawler's own: the database refuses it, or goes on. *)
Definition sync_statement (name : string) : M Crawler unit :=
  o ← look; match ca_fault (ou_call o) name with Some e => throw e | None => mret tt end.

(** The row of SyncState as it is now. *)
Definition getSyncState : M Crawler Crawler := _ ← sync_statement "SELECT SyncState"; get.

(** Counted inside the statement; a statement that fails changes nothing and is
    not reported. *)
Definition recordError (message : string) (markErrored : bool) : M Crawler unit :=
  try_catch
    (_ ← sync_statement "UPDATE SyncState lastError";
     modify (λ c, with_db (if markErrored then set_status "error" else λ d, d)
                   (with_errors (cw_consecutiveErrors c + 1)%Z (Some (slice0 500 message)) c)))
    (λ _, mret tt).

Definition mark_status (status : string) : M Crawler unit :=
  _ ← sync_statement "UPDATE SyncState syncStatus"; modify (with_db (set_status status)).

Definition haltAt (height : Z) (message : string) : M Crawler unit :=
  modify (λ c, with_flags (cw_isCatchingUp c) (Some (height, message)) c).

(** ** The catch-up pipeline *)

(** A batch being fetched; [bt_data] is what the fetch comes to. *)
Record Batch := MkBatch { bt_from : Z; bt_to : Z; bt_data : outcome (list Prepared); bt_retried : bool }.

Record Pipeline := MkPipeline {
  pl_crawler : Crawler; pl_queue : list Batch; pl_nextHeightToFetch : Z; pl_nextHeightToPersist : Z; pl_processed : Z }.

Definition on_crawler {A} (m : M Crawler A) : M Pipeline A := λ s,
  let '(o, c) := m (pl_crawler s) in
  (o, MkPipeline c (pl_queue s) (pl_nextHeightToFetch s) (pl_nextHeightToPersist s) (pl_processed s)).

Definition set_queue (q : list Batch) : M Pipeline unit := modify (λ s,
  MkPipeline (pl_crawler s) q (pl_nextHeightToFetch s) (pl_nextHeightToPersist s) (pl_processed s)).

Definition push_batch (b : Batch) : M Pipeline unit := modify (λ s,
  MkPipeline (pl_crawler s) (pl_queue s ++ [b])%list (bt_to b + 1)%Z (pl_nextHeightToPersist s) (pl_processed s)).

Definition count_block (height : Z) : M Pipeline unit := modify (λ s,
  MkPipeline (pl_crawler s) (pl_queue s) (pl_nextHeightToFetch s) (height + 1)%Z (pl_processed s + 1)%Z).

Definition isRunning : M Pipeline bool := o ← on_crawler look; mret (ou_running o).

Definition fetchBlockBatchWithRetry (heights : list Z) : M Crawler (list Prepared) :=
  withRetry (cf_maxRetries config) "Batch" (λ _,
    o ← look;
    on_processor (fetchBlockBatch decode_metadata registry_pallets decode_events palletConfig (ou_node o) (ou_joined o) heights)).

Definition prefetch (from to : Z) (retried : bool) : M Crawler Batch :=
  data ← attempt (fetchBlockBatchWithRetry (heights_between from to)); mret (MkBatch from to data retried).

Section Range.
Variable tipHeight : Z.

(** [pumpFetches] with room for [room] batches. *)
Fixpoint pump (room : nat) : M Pipeline unit :=
  match room with
  | O => mret tt
  | S room' =>
      s ← get;
      if bool_decide (pl_nextHeightToFetch s ≤ tipHeight)%Z then
        running ← isRunning;
        if running : bool then
          let from := pl_nextHeightToFetch s in
          batch ← on_crawler (prefetch from (Z.min (from + Z.max 1 (cf_rpcBatchSize config) - 1) tipHeight)%Z false);
          _ ← push_batch batch;
          pump room'
        else mret tt
      else mret tt
  end.

Definition pumpFetches : M Pipeline unit :=
  s ← get; pump (Nat.max 1 (cf_fetchConcurrency config) - length (pl_queue s)).

(** The figures of a batch, and the end of a run of errors. *)
Definition write_progress (c : Call) : M Pipeline unit :=
  match ca_fault c "UPDATE SyncState progress" with
  | Some e => throw e
  | None => on_crawler (modify (λ c, with_errors 0%Z (cw_lastError c) c))
  end.

Fixpoint persist_preps (preps : list Prepared) : M Pipeline unit :=
  match preps with
  | [] => mret tt
  | prep :: preps' =>
      running ← isRunning;
      if running : bool then
        o ← on_crawler look;
        _ ← on_crawler (on_processor (persistPreparedBlock decode_digest header_hash decodeAuthorities sr25519Verify
                                        bech32m dustInitialNonce blake2b network (ou_call o) (ou_node o) prep));
        _ ← count_block (prepared_height prep);
        s ← get;
        _ ← (if bool_decide (pl_processed s mod cf_batchSize config = 0)%Z || bool_decide (prepared_height prep = tipHeight)
             then write_progress (ou_call o) else mret tt);
        persist_preps preps'
      else mret tt
  end.

(** One batch; how its try block ended. *)
Definition persist_head (head : Batch) : M Pipeline (outcome unit) :=
  attempt (preps ← lift (bt_data head); persist_preps preps).

(** The loop over the queue. [false]: out of fuel. *)
Fixpoint drain (fuel : nat) : M Pipeline bool :=
  match fuel with
  | O => mret false
  | S fuel' =>
      s ← get;
      if bool_decide (pl_nextHeightToPersist s ≤ tipHeight)%Z then
        running ← isRunning;
        if running : bool then
          match pl_queue s with
          | [] => mret true
          | head :: rest =>
              _ ← set_queue rest;
              ended ← persist_head head;
              match ended with
              | Ret _ => _ ← pumpFetches; drain fuel'
              | Throw err =>
                  _ ← on_crawler (recordError (ex_msg err) true);
                  state ← on_crawler getSyncState;
                  if bool_decide (10 < cw_consecutiveErrors state)%Z then mret true
                  else if bt_retried head then
                    s ← get;
                    _ ← (if isTransientError err then mret tt
                         else on_crawler (haltAt (pl_nextHeightToPersist s) (ex_msg err)));
                    _ ← on_crawler (mark_status "error");
                    mret true
                  else
                    again ← on_crawler (prefetch (bt_from head) (bt_to head) true);
                    s ← get;
                    _ ← set_queue (again :: pl_queue s);
                    _ ← pumpFetches;
                    drain fuel'
              end
          end
        else mret true
      else mret true
  end.

End Range.

(** Enough for every batch and its second try. *)
Definition pipeline_fuel (startHeight tipHeight : Z) : nat := (2 * Z.to_nat (tipHeight + 1 - startHeight) + 1)%nat.

Definition start_pipeline (c : Crawler) (startHeight : Z) : Pipeline := MkPipeline c [] startHeight startHeight 0%Z.

Definition pipeline (startHeight tipHeight : Z) : M Pipeline bool :=
  _ ← pumpFetches tipHeight; drain tipHeight (pipeline_fuel startHeight tipHeight).

Definition runCatchUpPipeline (startHeight tipHeight : Z) : M Crawler Z := λ c,
  let '(o, s) := pipeline startHeight tipHeight (start_pipeline c startHeight) in
  (match o with Ret _ => Ret (pl_processed s) | Throw e => Throw e end, pl_crawler s).

(** ** Catching up *)

Inductive Seeded := AlreadyIndexed | Unfinalized | SeededAt (height : Z).

Abbreviation by_hash := (processBlockByHash decode_metadata registry_pallets decode_events decode_digest header_hash decodeAuthorities
  sr25519Verify bech32m dustInitialNonce blake2b network palletConfig).
Abbreviation by_height := (processBlockByHeight decode_metadata registry_pallets decode_events decode_digest header_hash decodeAuthorities
  sr25519Verify bech32m dustInitialNonce blake2b network palletConfig).

(** The anchor of an empty index: the only block stored without its parent. *)
Definition seedStartHeight (tipHeight : Z) : M Crawler Seeded :=
  _ ← sync_statement "SELECT Blocks";
  c ← get;
  if negb (bool_decide (ix_blocks (cw_db c) = ∅)) then mret AlreadyIndexed
  else
    let anchorHeight := (cf_startHeight config - 1)%Z in
    if bool_decide (tipHeight < anchorHeight)%Z then mret Unfinalized
    else
      anchorHash ← withRetry (cf_maxRetries config) ("Anchor hash " ++ pretty anchorHeight) (λ _,
        o ← look;
        hash ← lift (n_getBlockHash (ou_node o) anchorHeight);
        match present hash with Some h => mret h | None => throw (no_block_at anchorHeight) end);
      _ ← withRetry (cf_maxRetries config) ("Anchor block " ++ pretty anchorHeight) (λ _,
        o ← look; on_processor (by_hash (ou_call o) (ou_node o) (ou_joined o anchorHeight) anchorHash));
      mret (SeededAt (cf_startHeight config)).

Definition catch_up_to_head : M Crawler Z :=
  c ← getSyncState;
  let startHeight := getCatchUpStartHeight (ix_sync (cw_db c)) in
  finalizedHash ← withRetry (cf_maxRetries config) "Finalized head" (λ _, o ← look; lift (n_getFinalizedHead (ou_node o)));
  finalizedHeader ← withRetry (cf_maxRetries config) "Finalized header" (λ _, o ← look; lift (n_getHeader (ou_node o) finalizedHash));
  match finalizedHeader with
  | None => throw undefined_header
  | Some finalizedHeader =>
      tipHeight ← lift (parseBlockNumber (hd_number finalizedHeader));
      seeded ← (if bool_decide (startHeight = 0%Z) && bool_decide (0 < cf_startHeight config)%Z
                then seedStartHeight tipHeight else mret AlreadyIndexed);
      match seeded with
      | Unfinalized => mret 0%Z
      | _ =>
          let startHeight := match seeded with SeededAt h => h | _ => startHeight end in
          if bool_decide (tipHeight < startHeight)%Z then mret 0%Z
          else
            _ ← sync_statement "UPDATE SyncState syncing";
            _ ← modify (λ c, with_db (set_status "syncing") (with_chain tipHeight (Some (tipHeight, finalizedHash)) c));
            runCatchUpPipeline startHeight tipHeight
      end
  end.

(** One catch-up at a time: a second caller waits for the running one. *)
Definition runCatchUp : M Crawler Z :=
  c ← get;
  match cw_poisonBlock c with
  | Some _ => mret 0%Z
  | None =>
      _ ← modify (λ c, with_flags true (cw_poisonBlock c) c);
      ended ← attempt catch_up_to_head;
      _ ← modify (λ c, with_flags false (cw_poisonBlock c) c);
      lift ended
  end.

(** ** Live heads *)

(** The rollback and its log row in one transaction; the row's ID when blocks
    were removed. *)
Definition reorg_tx (o : Outside) (reorg : ReorgInfo) : M Crawler (option string) := λ c,
    match ca_fault (ou_call o) "rollback", rollbackIndexedDataFromHeight (ca_now (ou_call o)) (ro_forkHeight reorg) "syncing" None (cw_db c) with
    | Some e, _ | None, (Throw e, _) => (Throw e, c)
    | None, (Ret result, d) =>
        if (rb_blocksRolledBack result =? 0)%nat then (Ret None, with_db (λ _, d) c)
        else match ca_fault (ou_call o) "INSERT ReorgLog" with
        | Some e => (Throw e, c)
        | None =>
            let row := MkReorgLog (ca_now (ou_call o)) (ro_forkHeight reorg) (ro_oldTipHash reorg) (ro_newTipHash reorg)
                         (rb_blocksRolledBack result) 0 "in_progress" in
            (Ret (Some (ou_uuid o)), with_db (λ _, d) (with_log (cw_reorgLog c ++ [(ou_uuid o, row)])%list c))
        end
    end.

Definition handleReorg (reorg : ReorgInfo) : M Crawler (option string) := o ← look; reorg_tx o reorg.

(** [UPDATE ReorgLog] once the branch is indexed again. *)
Definition close_log (id : string) (count : Z) (l : list (string * ReorgLogRow)) : list (string * ReorgLogRow) :=
  (λ kr, if bool_decide (kr.1 = id)
         then (kr.1, MkReorgLog (rg_detectedAt kr.2) (rg_forkHeight kr.2) (rg_oldTipHash kr.2) (rg_newTipHash kr.2)
                       (rg_blocksRolledBack kr.2) count "completed")
         else kr) <$> l.

Definition processBlockWithRetry (height : Z) : M Crawler ProcessResult :=
  withRetry (cf_maxRetries config) ("Block " ++ pretty height) (λ _,
    o ← look; on_processor (by_height (ou_call o) (ou_node o) (ou_joined o height) height)).

(** The try block of [processLiveBlock]. *)
Definition live_block (header : BlockHeader) (height : Z) : M Crawler unit :=
  tipState ← getSyncState;
  _ ← (if bool_decide (cw_chainHeight tipState < height)%Z then
         _ ← sync_statement "UPDATE SyncState chainHeight"; modify (λ c, with_chain height (cw_lastFinalized c) c)
       else mret tt);
  match cw_poisonBlock tipState with
  | Some _ => mret tt
  | None =>
      match present (sy_lastIndexedHash (ix_sync (cw_db tipState))) with
      | None => _ ← runCatchUp; mret tt
      | Some _ =>
          if bool_decide (nullish (sy_lastIndexedHeight (ix_sync (cw_db tipState))) 0 + 1 < height)%Z then _ ← runCatchUp; mret tt
          else
            _ ← sync_statement "SELECT Blocks";
            o ← look;
            c ← get;
            reorg ← lift (checkForReorg (ou_node o) header (cw_db c));
            match reorg with
            | Some reorg =>
                reorgLogId ← handleReorg reorg;
                reIndexedCount ← runCatchUp;
                match reorgLogId with
                | Some id => _ ← sync_statement "UPDATE ReorgLog"; modify (λ c, with_log (close_log id reIndexedCount (cw_reorgLog c)) c)
                | None => mret tt
                end
            | None =>
                result ← processBlockWithRetry height;
                _ ← getSyncState;
                _ ← sync_statement "UPDATE SyncState synced";
                modify (λ c, with_db (set_status "synced") (with_errors 0%Z (cw_lastError c)
                  (with_chain (cw_chainHeight c)
                    (Some (height, nullish (present (sy_lastIndexedHash (ix_sync (cw_db c)))) (ps_blockHash result))) c)))
            end
      end
  end.

Definition processLiveBlock (header : BlockHeader) (height : Z) : M Crawler unit :=
  try_catch (live_block header height) (λ error,
    _ ← recordError (ex_msg error) true;
    state ← getSyncState;
    if bool_decide (10 < cw_consecutiveErrors state)%Z && negb (isTransientError error)
    then haltAt height (ex_msg error) else mret tt).

End Crawl.
