(* ===== verification/CatchUp.v ===== *)
(** Catching up follows the node's finalized chain without a gap, and ends. *)
From Stdlib Require Import Ascii.
From S2P Require Import Prelude Threads Db Json Numbers Schema Retry Reconciliation Rollback.
From S2P Require Import RollbackFacts BalanceCheck Scale BlockEvents NodeRpc BlockProcessor.
From S2P Require Import PersistFacts BalanceUpdates StoredBalances IndexMachine BlockFetch Crawler.

Set Warnings "-register-all".

Local Open Scope string_scope.
Local Open Scope list_scope.

Section Facts.
Context {Registry : Type}.
Variable decode_metadata : string → outcome Registry.
Variable registry_pallets : Registry → outcome (list (string * option Z)).
Variable decode_events : Registry → string → outcome (list EventRecord).
Variable palletConfig : option PalletMap.
Context `{ScanOrder}.

Abbreviation Proc := (Processor (Registry:=Registry)).
Abbreviation prep_block := (prepare decode_metadata registry_pallets decode_events palletConfig).

(** ** The index is only read *)

Definition keeps_db {A} (m : M Proc A) : Prop := ∀ p o p', m p = (o, p') → pr_db p' = pr_db p.

Lemma leaves_db_bind {A B} (m : M Proc A) (k : A → M Proc B) : keeps_db m → (∀ a, keeps_db (k a)) → keeps_db (m ≫= k).
Proof.
  intros Hm Hk p o p' [(a & p1 & E1 & E2)|(e & E1 & _)]%bind_cases.
  - apply Hm in E1. apply Hk in E2. congruence.
  - by eapply Hm.
Qed.

Lemma keeps_db_lift {A} (x : outcome A) : keeps_db (lift x).
Proof. intros p o p' [= _ <-]. done. Qed.
Lemma keeps_db_throw {A} e : keeps_db (A:=A) (throw e).
Proof. intros p o p' [= _ <-]. done. Qed.
Lemma leaves_db_ret {A} (a : A) : keeps_db (mret a).
Proof. intros p o p' [= _ <-]. done. Qed.
Lemma keeps_db_get : keeps_db get.
Proof. intros p o p' [= _ <-]. done. Qed.
Lemma keeps_db_spec {A} (m : M SpecCache A) : keeps_db (on_spec m).
Proof. intros p o p'. unfold on_spec. destruct (m _) as [o1 s]. by intros [= _ <-]. Qed.
Lemma keeps_db_runtimes {A} (m : M (RuntimeCache Registry) A) : keeps_db (on_runtimes m).
Proof. intros p o p'. unfold on_runtimes. destruct (m _) as [o1 s]. by intros [= _ <-]. Qed.
Lemma keeps_db_next {A} (m : M (option NextAuthorities) A) : keeps_db (on_next m).
Proof. intros p o p'. unfold on_next. destruct (m _) as [o1 s]. by intros [= _ <-]. Qed.
Lemma keeps_db_addresses {A} (m : M Addresses A) : keeps_db (on_addresses m).
Proof. intros p o p'. unfold on_addresses. destruct (m _) as [o1 s]. by intros [= _ <-]. Qed.

#[local] Hint Resolve leaves_db_bind keeps_db_lift keeps_db_throw leaves_db_ret keeps_db_get keeps_db_spec keeps_db_runtimes
  keeps_db_next keeps_db_addresses : keeps.

Lemma prepare_keeps node joined hash where_ height_of sb a : keeps_db (prep_block node joined hash where_ height_of sb a).
Proof. unfold prepare. repeat (apply leaves_db_bind; [auto with keeps|intros ?]). auto with keeps. Qed.

#[local] Hint Resolve prepare_keeps : keeps.

Abbreviation prepare_list := (prepare_all decode_metadata registry_pallets decode_events palletConfig).

Lemma prepare_all_keeps node joined existing heights answers : keeps_db (prepare_list node joined existing heights answers).
Proof.
  revert answers. induction heights as [|[h hash] heights IH]; intros answers; cbn [prepare_all]; [auto with keeps|].
  destruct (present hash) as [x|]; [|auto with keeps]. destruct (existing x); [apply leaves_db_bind; [done|auto with keeps]|].
  destruct answers as [|[[sb|] ts ev up] answers]; [auto with keeps| |auto with keeps].
  apply leaves_db_bind; [auto with keeps|]. intros prep. apply leaves_db_bind; auto with keeps.
Qed.

Abbreviation fetch := (fetchBlockBatch decode_metadata registry_pallets decode_events palletConfig).

Lemma fetch_keeps node joined heights : keeps_db (fetch node joined heights).
Proof.
  unfold fetchBlockBatch. destruct heights as [|h hs]; [auto with keeps|]. apply leaves_db_bind; [auto with keeps|]. intros hashes.
  apply leaves_db_bind; [auto with keeps|]. intros p. apply leaves_db_bind; [auto with keeps|]. intros answers. apply prepare_all_keeps.
Qed.

(** ** What is fetched *)

(** The block the node has at a height, read when the index was [d]. *)
Definition fetched_from (node : Node) (d : IndexDb) (height : Z) (x : Prepared) : Prop :=
  prepared_height x = height ∧ n_getBlockHash node height = Ret (Some (prepared_hash x)) ∧
  match x with
  | Skipped hash _ => is_Some (block_by_hash hash d)
  | Fetched prep => n_getBlock node (pb_blockHash prep) = Ret (Some (pb_signedBlock prep))
  end.

Lemma rpcBatch_Ret {A} (calls : list (outcome A)) l : rpcBatch calls = Ret l → calls = Ret <$> l.
Proof.
  revert l. induction calls as [|[a|e] calls IH]; intros l; cbn [rpcBatch]; [by intros [= <-]| |done].
  cbn [mbind outcome_bind]. destruct (rpcBatch calls) as [l'|e]; [|done]. intros [= <-]. cbn [fmap list_fmap]. f_equal. by apply IH.
Qed.

Lemma prepare_spec node joined hash where_ height_of sb a p prep p' :
  prep_block node joined hash where_ height_of sb a p = (Ret prep, p') →
  pb_blockHash prep = hash ∧ pb_signedBlock prep = sb ∧ height_of (sb_header sb) = Ret (pb_height prep).
Proof.
  unfold prepare. intros Hp. apply bind_ret_inv in Hp as (v & p1 & _ & Hp). apply bind_ret_inv in Hp as (h & p2 & Eh & Hp).
  apply bind_ret_inv in Hp as (r & p3 & _ & Hp). apply bind_ret_inv in Hp as (q & p4 & _ & Hp). apply bind_ret_inv in Hp as (t & p5 & _ & Hp).
  apply bind_ret_inv in Hp as (ev & p6 & _ & Hp). injection Hp as <- <-. injection Eh as -> _. done.
Qed.

Lemma lift_Ret {S A} (x : outcome A) (s s' : S) a : lift x s = (Ret a, s') → x = Ret a ∧ s' = s.
Proof. unfold lift. intros E. split; congruence. Qed.

Lemma ask_block_block node hash a : ask_block node hash = Ret a → n_getBlock node hash = Ret (an_block a).
Proof.
  unfold ask_block. intros (b & -> & (ts & _ & (ev & _ & (up & _ & [= <-])%outcome_bind_ret)%outcome_bind_ret)%outcome_bind_ret)%outcome_bind_ret.
  done.
Qed.

Lemma prepare_all_spec node joined d heights : ∀ (hashes : list (option string)) answers p out p',
  let existing hash := bool_decide (is_Some (block_by_hash hash d)) in
  n_getBlockHash node <$> heights = Ret <$> hashes →
  ask_block node <$> filter (λ hash, existing hash = false) (omap present hashes) = Ret <$> answers →
  prepare_list node joined existing (zip heights hashes) answers p = (Ret out, p') →
  Forall2 (fetched_from node d) heights out.
Proof.
  induction heights as [|h heights IH]; intros [|hash hashes] answers p out p' existing Hh Ha Hp; try done.
  { injection Hp as <- <-. constructor. }
  injection Hh as Hh1 Hh. cbn [zip_with] in Hp. cbn [prepare_all] in Hp. destruct (present hash) as [x|] eqn:Ex; [|done].
  pose proof (proj1 (present_Some _ _) Ex) as [-> Hx]. destruct (existing x) eqn:Ee.
  - apply bind_ret_inv in Hp as (out1 & p1 & Hp & Hr). injection Hr as <- <-. constructor.
    + split_and!; [done|done|]. by apply bool_decide_eq_true_1 in Ee.
    + eapply IH; [done| |exact Hp]. cbn [omap list_omap] in Ha. rewrite Ex in Ha. rewrite filter_cons_False in Ha by congruence. done.
  - destruct answers as [|[[sb|] ts ev up] answers]; [done| |done].
    apply bind_ret_inv in Hp as (prep & p1 & Hprep & Hp). apply bind_ret_inv in Hp as (out1 & p2 & Hp & Hr). injection Hr as <- <-.
    cbn [omap list_omap] in Ha. rewrite Ex in Ha. rewrite filter_cons_True in Ha by done. cbn [fmap list_fmap] in Ha. injection Ha as Ha1 Ha.
    apply prepare_spec in Hprep as (Hp1 & Hp2 & Hp3). injection Hp3 as Hp3. constructor; [|by eapply IH].
    split_and!; simpl; [done|by rewrite Hp1|]. apply ask_block_block in Ha1. rewrite Hp1, Hp2. done.
Qed.

(** The batch holds one entry per height, in order: the block the node has
    there, or a note that it is indexed. *)
Lemma fetch_spec node joined heights p out p' :
  fetch node joined heights p = (Ret out, p') → Forall2 (fetched_from node (pr_db p)) heights out.
Proof.
  unfold fetchBlockBatch. destruct heights as [|h hs]; [by intros [= <- <-]|]. intros Hp.
  apply bind_ret_inv in Hp as (hashes & p1 & E1 & Hp). apply lift_Ret in E1 as [E1%rpcBatch_Ret ->].
  apply bind_ret_inv in Hp as (q & p2 & E2 & Hp). injection E2 as <- <-.
  apply bind_ret_inv in Hp as (answers & p3 & E3 & Hp). apply lift_Ret in E3 as [E3%rpcBatch_Ret ->].
  by eapply prepare_all_spec.
Qed.

(** ** An honest node *)

(** The finalized chain: the block of each height up to [finalized]. *)
Context (height_of : string → Z) (canon : Z → string) (finalized : Z).

Record honest (node : Node) : Prop := {
  hn_named : ∀ h, canon h ≠ EmptyString;
  hn_hash : ∀ h hash, n_getBlockHash node h = Ret (Some hash) → (h ≤ finalized)%Z → hash = canon h;
  hn_height : ∀ h, (0 ≤ h)%Z → height_of (canon h) = h;
  hn_parent : ∀ hash sb, n_getBlock node hash = Ret (Some sb) →
    height_of (hd_parentHash (sb_header sb)) = (height_of hash - 1)%Z }.

Lemma fetched_honest node d h x : honest node → fetched_from node d h x → (0 ≤ h ≤ finalized)%Z →
  prepared_hash x = canon h ∧ match x with Skipped hash _ => True | Fetched prep => from_node height_of prep end.
Proof.
  intros [H0 H1 H2 H3] (Hh & Hhash & Hx) Hf. apply H1 in Hhash; [|lia]. split; [done|].
  destruct x as [hash h'|prep]; simpl in *; [done|]. split; rewrite ?Hhash, ?H2; try lia; [apply H0|].
  rewrite (H3 _ _ Hx), Hhash, H2 by lia. lia.
Qed.
End Facts.

(** ** Growing along the chain *)

(** ** The next height *)

Section Chained.
Context `{ScanOrder}.
Variable height_of : string → Z.

(** The index without what is said of balances. *)
Record chained (d : IndexDb) : Prop := {
  ch_linked : linked d; ch_sync : is_Some (Schema.reorgGeneration (ix_main d)); ch_chain : one_chain height_of d }.

Definition next_height (d : IndexDb) : Z := getCatchUpStartHeight (ix_sync d).

Lemma next_height_spec d : chained d →
  (0 ≤ next_height d)%Z ∧ (∀ k b, ix_blocks d !! k = Some b → (b_height b < next_height d)%Z) ∧
  (ix_blocks d = ∅ ∧ next_height d = 0%Z ∨ ∃ k b, ix_blocks d !! k = Some b ∧ next_height d = (b_height b + 1)%Z).
Proof.
  intros [Hl _ [H1 H2 H3 H4 H5]]. unfold next_height, getCatchUpStartHeight. destruct (sy_lastIndexedHash _) as [hash|]; simpl.
  - destruct H5 as (k & b & Hk & <- & -> & Hmax). destruct (H1 _ _ Hk) as (_ & Hpos & Hne). rewrite bool_decide_eq_false_2 by done. simpl.
    split_and!; [lia| |right; eauto]. intros k' b' Hk'. specialize (Hmax _ _ Hk'). lia.
  - rewrite H5. split_and!; [done|intros k b Hk; by rewrite lookup_empty in Hk|by left].
Qed.

Definition has_block (hash : string) (d : IndexDb) : Prop := is_Some (block_by_hash hash d).

Lemma has_block_iff hash d : has_block hash d ↔ ∃ k b, ix_blocks d !! k = Some b ∧ b_hash b = hash.
Proof.
  unfold has_block. split.
  - intros [k Hk]. apply by_hash in Hk as (b & ? & ?). eauto.
  - intros (k & b & Hk & Hh). apply not_eq_None_Some. intros Hn. by apply (not_by_hash _ _ _ _ Hn Hk).
Qed.

Lemma has_block_below hash d : chained d → has_block hash d → (height_of hash < next_height d)%Z.
Proof.
  intros Hc (k & b & Hk & <-)%has_block_iff. destruct (next_height_spec d Hc) as (_ & Hlt & _).
  destruct (oc_height _ _ (ch_chain _ Hc) _ _ Hk) as (<- & _). by eapply Hlt.
Qed.

(** The index grew: no block went away, the next height did not fall. *)
Definition grew (d d' : IndexDb) : Prop := (∀ hash, has_block hash d → has_block hash d') ∧ (next_height d ≤ next_height d')%Z.

#[export] Instance grew_preorder : PreOrder grew.
Proof. split; [by split|]. intros d1 d2 d3 [H1 H2] [H3 H4]. split; [eauto|lia]. Qed.

(** Writes of other columns of SyncState. *)
Lemma set_status_same st d : chained d → chained (set_status st d) ∧ grew d (set_status st d).
Proof.
  intros [Hl Hs Hc]. split; [|by split]. split; [exact (linked_chain d (set_status st d) eq_refl Hl)|done|].
  exact (one_chain_same height_of d (set_status st d) eq_refl eq_refl Hc).
Qed.

(** ** Row identifiers *)

Definition is_key (d : IndexDb) (k : string) : Prop :=
  is_Some (ix_blocks d !! k) ∨ is_Some (ix_transactions d !! k) ∨ is_Some (ix_contractActions d !! k) ∨
  is_Some (ix_utxos d !! k) ∨ is_Some (ix_fees d !! k) ∨ is_Some (ix_results d !! k).

Lemma unused_fresh uuid d :
  Inj (=) (=) uuid → (∀ n, uuid n ≠ EmptyString) → (∀ n, ¬ is_key d (uuid n)) → fresh_ids uuid d.
Proof.
  intros Hi Hne Hk. unfold is_key in Hk. split; [done|done|..]; intros n; apply eq_None_not_Some; intros Hs; apply (Hk n); tauto.
Qed.

Lemma stored_keys blake2b uuid now prep projections producer parent d k :
  fresh_ids uuid d → is_key (stored blake2b uuid now prep projections producer parent d) k → is_key d k ∨ ∃ n, k = uuid n.
Proof.
  intros Hf. unfold is_key. destruct (stored_refs blake2b uuid now prep projections producer parent d Hf) as (Sa & Sf & Sr).
  destruct (block_refs blake2b uuid (fi_inj _ _ Hf) prep projections) as (R1 & R2 & R3 & _).
  intros [[r Hr]|[[r Hr]|[[r Hr]|[[r Hr]|[[r Hr]|[r Hr]]]]]].
  - apply (stored_blocks _ _ _ _ _ _ _ _ Hf) in Hr as [Hr|[-> _]]; [left; left; by eexists|by right; eexists].
  - apply (stored_txs _ _ _ _ _ _ _ _ Hf) in Hr as [Hr|Hr]; [left; right; left; by eexists|].
    apply block_txs in Hr as (i & -> & _). by right; eexists.
  - apply Sa in Hr as [Hr|Hr]; [left; do 2 right; left; by eexists|]. apply R3 in Hr as (i & j & x & -> & _). by right; eexists.
  - apply (stored_utxos _ _ _ _ _ _ _ _ Hf) in Hr as (u0 & [Hr|Hr] & _); [left; do 3 right; left; by eexists|].
    apply block_utxos in Hr as (i & j & -> & _). by right; eexists.
  - apply Sf in Hr as [Hr|Hr]; [left; do 4 right; left; by eexists|]. apply R2 in Hr as (i & x & -> & _). by right; eexists.
  - apply Sr in Hr as [Hr|Hr]; [left; do 5 right; by eexists|]. apply R1 in Hr as (i & x & -> & _). by right; eexists.
Qed.

(** ** Storing the block of a height *)

(** A block of the node's chain that is stored or refused keeps the index
    chained; one that is stored, or was, is there afterwards. *)
Lemma persist_chained blake2b uuid now fault prep projections producer requireParent d o d' :
  fresh_ids uuid d → from_node height_of prep → next_block requireParent prep d → chained d →
  persistFromNode blake2b uuid now fault prep projections producer requireParent d = (o, d') →
  chained d' ∧ grew d d' ∧ (∀ r, o = Ret r → has_block (pb_blockHash prep) d') ∧
  (∀ k, is_key d' k → is_key d k ∨ ∃ n, k = uuid n) ∧
  (d' = d ∨ next_height d' = (pb_height prep + 1)%Z ∧ (requireParent = true → (pb_height prep ≤ next_height d)%Z)).
Proof.
  intros Hf Hn Hnext Hc Hp. destruct o as [r|e].
  2:{ apply persist_throws in Hp as ->. split_and!; [done|done|done|auto|by left]. }
  apply persist_stores in Hp as [[-> Hb]|(Hnew & Hpar & _ & ->)]; [split_and!; [done|done|done|auto|by left]|].
  pose proof Hc as [Hl Hs Hch]. set (parent := block_by_hash _ d). set (d1 := stored _ _ _ _ _ _ parent d).
  destruct (next_above _ _ _ _ Hch Hnext Hnew) as [Habove _].
  assert (∀ hash, has_block hash d1 ↔ has_block hash d ∨ hash = pb_blockHash prep) as Hhas.
  { intros hash. rewrite !has_block_iff. unfold d1. setoid_rewrite stored_blocks; [|done]. split.
    - intros (k & b & [Hk|[-> ->]] & <-); [left; eauto|by right].
    - intros [(k & b & Hk & <-)| ->]; [eauto|]. eexists _, _. split; [by right|done]. }
  assert (next_height d1 = (pb_height prep + 1)%Z) as Hnh.
  { pose proof (stored_tip blake2b uuid now prep projections producer d Hs) as Ht. unfold tip in Ht. injection Ht as Ht1 Ht2.
    unfold next_height, getCatchUpStartHeight, d1, parent. rewrite Ht1, Ht2. simpl. rewrite bool_decide_eq_false_2 by apply (fn_hash _ _ Hn). done. }
  split_and!.
  - split; [by apply stored_linked| |eapply stored_chain; by eauto with ng].
    destruct (stored_frame blake2b uuid now prep projections producer parent d) as (_ & Hm & _). unfold d1. by rewrite Hm.
  - split; [intros hash Hh; apply Hhas; by left|]. rewrite Hnh. pose proof (fn_positive _ _ Hn).
    destruct (next_height_spec d Hc) as (_ & _ & [[_ ->]|(k & b & Hk & ->)]); [lia|]. apply Habove in Hk. lia.
  - intros _ _. apply Hhas. by right.
  - intros k. by apply stored_keys.
  - right. split; [done|]. intros Hreq. destruct (next_height_spec d Hc) as (Hpos & _). destruct (decide (0 < pb_height prep)%Z) as [Hh|?]; [|lia].
    pose proof (has_block_below _ d Hc (Hpar Hreq Hh)) as Hbelow. rewrite (fn_parent _ _ Hn) in Hbelow. lia.
Qed.
End Chained.
