(* ===== verification/FollowChain.v ===== *)
(** Catching up follows the node's finalized chain, whatever fails on the way and
    whenever it is stopped: the pipeline over a range, then the whole of
    [runCatchUp] with its lookups and the anchor of an empty index. *)
From Stdlib Require Import Ascii.
From S2P Require Import Prelude Threads Db Json Numbers Schema Scale Rollback RollbackFacts.
From S2P Require Import BlockEvents NodeRpc BlockProcessor StoredBalances IndexMachine BlockFetch Crawler CatchUp.

Set Warnings "-register-all".

Local Open Scope string_scope.
Local Open Scope list_scope.

(** ** Looking outside *)

Section Looks.
Context {Registry : Type} (outside : nat → Outside) (before : string → Prop).
Context `{ScanOrder}.

Abbreviation Crawl := (Crawler (Registry:=Registry)).

(** Identifiers in use at a time. *)
Definition used (t : nat) (k : string) : Prop := before k ∨ ∃ n x, (n < t)%nat ∧ k = ca_uuid (ou_call (outside n)) x.

Lemma used_mono (t t' : nat) k : (t ≤ t')%nat → used t k → used t' k.
Proof. intros Ht [?|(n & x & Hn & ->)]; [by left|]. right. exists n, x. split; [lia|done]. Qed.

Definition later (c c' : Crawl) : Prop := grew (cw_db c) (cw_db c') ∧ (cw_clock c ≤ cw_clock c')%nat.

#[export] Instance later_preorder : PreOrder later.
Proof. split; [by intros c|]. intros c1 c2 c3 [H1 H2] [H3 H4]. split; [by transitivity (cw_db c2)|lia]. Qed.

(** The call just looked up: its identifiers are not in the index yet. *)
Definition pending (o : Outside) (c : Crawl) : Prop :=
  ∃ n, o = outside n ∧ cw_clock c = S n ∧ ∀ k, is_key (cw_db c) k → used n k.

(** Of any invariant that a step keeps which leaves the index. *)
Context (inv : Crawl → Prop).
Hypothesis inv_same : ∀ c c', cw_db c' = cw_db c → (cw_clock c ≤ cw_clock c')%nat → inv c → inv c'.
Hypothesis inv_keys : ∀ c, inv c → ∀ k, is_key (cw_db c) k → used (cw_clock c) k.

Abbreviation runs := (triple inv later).
Abbreviation of_index P := (∀ c c' : Crawl, cw_db c' = cw_db c → P c → P c').

Lemma look_triple P : of_index P → runs P (look outside) (λ o c, P c ∧ pending o c).
Proof using All.
  intros HP c o c' Hf Hp [= <- <-]. split_and!; [apply (inv_same c); [done|simpl; lia|done]|split; [reflexivity|simpl; lia]|].
  intros a [= <-]. split; [by apply (HP c)|]. exists (cw_clock c). split_and!; [done|done|]. exact (inv_keys c Hf).
Qed.

(** The crawler's own statements leave the index. *)
Lemma statement_triple name P : of_index P → runs P (sync_statement outside name) (λ _ c, P c).
Proof using All.
  intros HP. unfold sync_statement. eapply triple_bind; [apply _|by apply (look_triple P)|]. intros o. cbv beta.
  destruct (ca_fault _ _); [apply triple_throw; apply _|]. apply triple_ret; [apply _|]. by intros c [Hc _].
Qed.

Lemma state_triple P : of_index P → runs P (getSyncState outside) (λ a c, P c ∧ a = c).
Proof using All.
  intros HP. eapply triple_bind; [apply _|by apply (statement_triple _ P)|]. intros []. intros c o c' Hf Hp [= <- <-].
  split_and!; [done|reflexivity|]. by intros a [= <-].
Qed.

Lemma retry_triple {A} (P : Crawl → Prop) (Q : A → Crawl → Prop) run :
  stable later P → (∀ i, runs P (run i) Q) → ∀ left i e, runs P (with_retry left i e run) Q.
Proof using Type.
  intros HP Hrun left. induction left as [|left IH]; intros i e c o c' Hf Hp Hr; cbn [with_retry] in Hr.
  { injection Hr as <- <-. split_and!; [done|reflexivity|done]. }
  destruct (run i c) as [[a|err] c1] eqn:E; destruct (Hrun i _ _ _ Hf Hp E) as (H1 & H2 & H3).
  - injection Hr as <- <-. done.
  - destruct (isTransientError err); [|by injection Hr as <- <-]. destruct (IH _ _ _ _ _ H1 (HP _ _ H2 Hp) Hr) as (H4 & H5 & H6).
    split_and!; [done|by transitivity c1|done].
Qed.
End Looks.

(** Identifiers are new: within a call, between calls, and in the index. *)
Section Fresh.
Context {Registry : Type} (outside : nat → Outside) (before : string → Prop).
Context `{ScanOrder}.
Let uuid (n : nat) : RowName → string := ca_uuid (ou_call (outside n)).
Hypothesis Hids : ∀ n, Inj (=) (=) (uuid n) ∧ ∀ x, uuid n x ≠ EmptyString ∧ ¬ before (uuid n x).
Hypothesis Hapart : ∀ n m x y, uuid n x = uuid m y → n = m.

Lemma pending_fresh o (c : Crawler (Registry:=Registry)) : pending outside before o c → fresh_ids (ca_uuid (ou_call o)) (cw_db c).
Proof using Hids Hapart.
  intros (n & -> & _ & Hkeys). destruct (Hids n) as [Hinj Hnew]. apply unused_fresh; [done|by intros y; apply Hnew|].
  intros y Hk. destruct (Hkeys _ Hk) as [Hb|(m & z & Hm & Hz)]; [by apply (Hnew y)|]. apply Hapart in Hz. lia.
Qed.

Lemma stored_used o (c : Crawler (Registry:=Registry)) d' : pending outside before o c →
  (∀ k, is_key d' k → is_key (cw_db c) k ∨ ∃ y, k = ca_uuid (ou_call o) y) → ∀ k, is_key d' k → used outside before (cw_clock c) k.
Proof using Type.
  intros (n & -> & -> & Hkeys) Hd k Hk. destruct (Hd _ Hk) as [Hold|[y ->]].
  - eapply used_mono; [|by apply Hkeys]. lia.
  - right. exists n, y. split; [lia|done].
Qed.
End Fresh.

(** ** Storing one block *)

Section Storing.
Context {Registry : Type}.
Context (decode_digest : BlockHeader → outcome (list DigestItem)) (header_hash : BlockHeader → outcome (list Z))
  (decodeAuthorities : list Z → outcome (list string)) (sr25519Verify : list Z → list Z → string → bool)
  (bech32m : string → list Z → outcome string) (dustInitialNonce : Z → string → outcome (string + list Z)) (blake2b : list Z → list Z)
  (network : string).
Context `{ScanOrder}.

(** Only the transaction at the end touches the index. *)
Lemma persist_fetched_cases c node prep rp (p : Processor (Registry:=Registry)) o p' :
  persist_fetched decode_digest header_hash decodeAuthorities sr25519Verify bech32m dustInitialNonce blake2b network c node prep rp p = (o, p') →
  (pr_db p' = pr_db p ∧ ∃ e, o = Throw e) ∨
  ∃ projections producer, persistFromNode blake2b (ca_uuid c) (ca_now c) (ca_fault c) prep projections producer rp (pr_db p) = (o, pr_db p').
Proof.
  unfold persist_fetched. intros E.
  apply bind_cases in E as [(pj & p1 & E1 & E)|(e & E1 & ->)]; apply keeps_db_addresses in E1; [|left; eauto].
  apply bind_cases in E as [(pr & p2 & E2 & E)|(e & E2 & ->)]; apply keeps_db_next in E2; [|left; split; [congruence|eauto]].
  right. unfold on_db in E. destruct (persistFromNode _ _ _ _ _ _ _ _ _) as [r2 d'] eqn:Ep. injection E as <- <-.
  rewrite E2, E1 in Ep. exists pj. eexists. exact Ep.
Qed.

Lemma block_exists fault hash (p : Processor (Registry:=Registry)) o p' : on_db (blockExists fault hash) p = (o, p') →
  pr_db p' = pr_db p ∧ ∀ b, o = Ret b → b = bool_decide (has_block hash (pr_db p)).
Proof. unfold on_db, blockExists, statement, throw. destruct (fault _); intros [= <- <-]; (split; [done|]); [done|]. by intros b [= <-]. Qed.
End Storing.

Section Follow.
Context {Registry : Type}.
Context (decode_metadata : string → outcome Registry) (registry_pallets : Registry → outcome (list (string * option Z)))
  (decode_events : Registry → string → outcome (list EventRecord)) (decode_digest : BlockHeader → outcome (list DigestItem))
  (header_hash : BlockHeader → outcome (list Z)) (decodeAuthorities : list Z → outcome (list string))
  (sr25519Verify : list Z → list Z → string → bool) (bech32m : string → list Z → outcome string)
  (dustInitialNonce : Z → string → outcome (string + list Z)) (blake2b : list Z → list Z) (network : string)
  (palletConfig : option PalletMap) (config : CrawlerConfig) (outside : nat → Outside).
Context `{ScanOrder}.

Abbreviation Crawl := (Crawler (Registry:=Registry)).
Abbreviation Pipe := (Pipeline (Registry:=Registry)).
Abbreviation fetching := (fetchBlockBatchWithRetry decode_metadata registry_pallets decode_events palletConfig config outside).
Abbreviation fetch_ahead := (prefetch decode_metadata registry_pallets decode_events palletConfig config outside).
Abbreviation persisting := (persistPreparedBlock decode_digest header_hash decodeAuthorities sr25519Verify bech32m dustInitialNonce blake2b network).
Abbreviation pumping := (pump decode_metadata registry_pallets decode_events palletConfig config outside).
Abbreviation pumps := (pumpFetches decode_metadata registry_pallets decode_events palletConfig config outside).
Abbreviation storing := (persist_preps decode_digest header_hash decodeAuthorities sr25519Verify bech32m dustInitialNonce blake2b network config outside).
Abbreviation storing_head := (persist_head decode_digest header_hash decodeAuthorities sr25519Verify bech32m dustInitialNonce blake2b network config outside).
Abbreviation draining := (drain decode_metadata registry_pallets decode_events decode_digest header_hash decodeAuthorities sr25519Verify bech32m dustInitialNonce blake2b network palletConfig config outside).
Abbreviation looking := (look (Registry:=Registry) outside).

(** The finalized chain, and the range to catch up with. *)
Context (height_of : string → Z) (canon : Z → string) (startHeight tipHeight : Z).
Hypothesis Hrange : (0 ≤ startHeight)%Z.
Hypothesis Hhonest : ∀ n, honest height_of canon tipHeight (ou_node (outside n)).

(** Identifiers are new: within a call, between calls, and in the index. *)
Context (before : string → Prop).
Let uuid (n : nat) : RowName → string := ca_uuid (ou_call (outside n)).
Hypothesis Hids : ∀ n, Inj (=) (=) (uuid n) ∧ ∀ x, uuid n x ≠ EmptyString ∧ ¬ before (uuid n x).
Hypothesis Hapart : ∀ n m x y, uuid n x = uuid m y → n = m.

Abbreviation pending := (pending (Registry:=Registry) outside before).
Abbreviation used := (used outside before).

(** What the crawler keeps while it catches up. *)
Record following (c : Crawl) : Prop := {
  fo_chained : chained height_of (cw_db c);
  fo_keys : ∀ k, is_key (cw_db c) k → used (cw_clock c) k;
  fo_start : (startHeight ≤ next_height (cw_db c))%Z;
  fo_canon : ∀ h, (startHeight ≤ h < next_height (cw_db c))%Z → has_block (canon h) (cw_db c) }.

Abbreviation runs := (triple following later).

(** A step that leaves the index and may let time pass. *)
Lemma following_same c c' :
  cw_db c' = cw_db c → (cw_clock c ≤ cw_clock c')%nat → following c → following c' ∧ later c c'.
Proof.
  intros Hd Ht [F1 F2 F3 F4]. split; [|split; [by rewrite Hd|done]]. split; rewrite Hd; try done.
  intros k Hk. by eapply used_mono, F2.
Qed.

Lemma following_keeps c c' : cw_db c' = cw_db c → (cw_clock c ≤ cw_clock c')%nat → following c → following c'.
Proof. intros. by eapply following_same. Qed.

Abbreviation look_runs := (look_triple outside before following following_keeps fo_keys).
Abbreviation statement_runs := (statement_triple outside before following following_keeps fo_keys).

(** ** Fetching *)

Definition entry_ok (d : IndexDb) (x : Prepared) : Prop :=
  (startHeight ≤ prepared_height x ≤ tipHeight)%Z ∧ prepared_hash x = canon (prepared_height x) ∧
  match x with Skipped hash _ => has_block hash d | Fetched prep => from_node height_of prep end.

Lemma entry_ok_grew d d' x : grew d d' → entry_ok d x → entry_ok d' x.
Proof. intros [Hg _] (H1 & H2 & H3). split_and!; [lia|lia|done|]. destruct x; [by apply Hg|done]. Qed.

Definition entries_ok (l : list Prepared) (c : Crawl) : Prop := Forall (entry_ok (cw_db c)) l.

Lemma entries_ok_stable l : stable later (entries_ok l).
Proof. intros c c' [Hl _] Hf. eapply Forall_impl; [exact Hf|]. intros x. by apply entry_ok_grew. Qed.

Lemma fetch_once x from to :
  (startHeight ≤ from)%Z → (to ≤ tipHeight)%Z →
  runs (pending x) (on_processor (fetchBlockBatch decode_metadata registry_pallets decode_events palletConfig (ou_node x) (ou_joined x)
    (heights_between from to))) entries_ok.
Proof.
  intros Hfrom Hto c o c' Hf (n & -> & _ & _) Hr. unfold on_processor in Hr. destruct (fetchBlockBatch _ _ _ _ _ _ _ _) as [o1 p] eqn:E. injection Hr as <- <-.
  pose proof (fetch_keeps _ _ _ _ _ _ _ _ _ _ E) as Hk. destruct (following_same c (with_processor p c)) as [Hf' Hl]; [exact Hk|done|done|].
  split_and!; [done|done|]. intros out ->. apply fetch_spec in E. unfold entries_ok. change (cw_db (with_processor p c)) with (pr_db p). rewrite Hk.
  apply Forall_lookup. intros i y Hy. destruct (Forall2_lookup_r _ _ _ _ _ E Hy) as (h & Hh & Hfx).
  apply list_elem_of_lookup_2 in Hh. apply elem_of_seqZ in Hh.
  destruct (fetched_honest height_of canon tipHeight _ _ _ _ (Hhonest n) Hfx) as [H1 H2]; [lia|]. destruct Hfx as (Hht & _ & H3).
  unfold entry_ok. rewrite Hht. split_and!; [lia|lia|done|]. by destruct y.
Qed.

Definition batch_ok (b : Batch) (c : Crawl) : Prop :=
  (startHeight ≤ bt_from b)%Z ∧ (bt_to b ≤ tipHeight)%Z ∧ ∀ l, bt_data b = Ret l → entries_ok l c.

Lemma batch_ok_stable b : stable later (batch_ok b).
Proof. intros c c' Hl (H1 & H2 & H3). split_and!; [done|done|]. intros l Hb. by apply (entries_ok_stable l c), H3. Qed.

Lemma prefetch_runs from to retried :
  (startHeight ≤ from)%Z → (to ≤ tipHeight)%Z →
  runs anywhere (fetch_ahead from to retried) (λ b c, batch_ok b c ∧ bt_from b = from ∧ bt_to b = to).
Proof.
  intros Hfrom Hto c o c' Hf _ Hr. unfold prefetch, attempt in Hr. m_unfold.
  destruct (fetchBlockBatchWithRetry _ _ _ _ _ _ _ c) as [o1 c1] eqn:E. injection Hr as <- <-.
  assert (runs anywhere (fetching (heights_between from to)) entries_ok) as Hfetch.
  { unfold fetchBlockBatchWithRetry, withRetry. apply (retry_triple following); [done|]. intros i. eapply (triple_bind following later); [apply (look_runs anywhere); done|].
    intros x. eapply triple_weaken; [by apply (fetch_once x from to)|by intros ? [_ ?]|done]. }
  destruct (Hfetch _ _ _ Hf I E) as (H1 & H2 & H3). split_and!; [done|done|]. intros b [= <-]. split; [|done].
  split; [done|]. split; [done|]. intros l Hl. by apply H3.
Qed.

(** ** Storing *)

Lemma persist_runs x (o : Outside) :
  runs (λ c, entry_ok (cw_db c) x ∧ pending o c) (on_processor (persisting (ou_call o) (ou_node o) x))
    (λ _ c, has_block (prepared_hash x) (cw_db c)).
Proof.
  intros c r c' Hf [Hx Hpend] Hr. unfold on_processor in Hr.
  destruct (persistPreparedBlock _ _ _ _ _ _ _ _ _ _ _ _) as [r1 p] eqn:E. injection Hr as <- <-.
  destruct x as [hash h|prep]; cbn [persistPreparedBlock] in E.
  { injection E as <- <-. destruct (following_same c (with_processor (cw_processor c) c)) as [Hf' Hl]; [done|done|done|].
    split_and!; [done|done|]. intros _ _. apply Hx. }
  apply persist_fetched_cases in E as [[Hp [e ->]]|(pj & pr & Ep)]; [by destruct (following_same c (with_processor p c) Hp)|].
  change (pr_db (cw_processor c)) with (cw_db c) in Ep. change (pr_db p) with (cw_db (with_processor p c)) in Ep.
  set (d' := cw_db (with_processor p c)) in *.
  destruct Hx as ([Hx1 Hx2] & Hhash & Hnode). simpl in Hx1, Hx2, Hhash.
  pose proof Hf as [F1 F2 F3 F4]. destruct (next_height_spec height_of _ F1) as (Hpos & Hbelow & _).
  pose proof (pending_fresh outside before Hids Hapart _ _ Hpend) as Hfresh.
  assert (next_block true prep (cw_db c)) as Hnext.
  { destruct (decide (pb_height prep < next_height (cw_db c))%Z) as [Hlt|Hge].
    - right. left. rewrite Hhash. apply F4. lia.
    - right. right. split; [done|]. intros k b Hk. specialize (Hbelow _ _ Hk). lia. }
  destruct (persist_chained height_of _ _ _ _ _ _ _ _ _ _ _ Hfresh Hnode Hnext F1 Ep) as (C1 & C2 & C3 & C4 & C5).
  split_and!; [|by split|intros a ->; by eapply C3]. split.
  - exact C1.
  - exact (stored_used outside before _ _ _ Hpend C4).
  - etransitivity; [apply F3|apply C2].
  - intros h Hh. fold d' in Hh |- *. destruct (decide (h < next_height (cw_db c))%Z) as [Hlt|Hge].
    + apply C2, F4. lia.
    + destruct C5 as [Hd|[Hn Hle]]; [rewrite Hd in Hh; lia|]. specialize (Hle eq_refl). assert (h = pb_height prep) as -> by lia. rewrite <- Hhash.
      destruct r1 as [r1|e]; [by eapply C3|]. apply persist_throws in Ep. rewrite Ep in Hh. lia.
Qed.

(** ** The pipeline *)

Record pipe_ok (s : Pipe) : Prop := {
  po_following : following (pl_crawler s);
  po_persist : (pl_nextHeightToPersist s ≤ next_height (cw_db (pl_crawler s)))%Z;
  po_fetch : (startHeight ≤ pl_nextHeightToFetch s)%Z;
  po_queue : Forall (λ b, batch_ok b (pl_crawler s)) (pl_queue s) }.

Definition on_later (s s' : Pipe) : Prop := later (pl_crawler s) (pl_crawler s').

#[export] Instance on_later_preorder : PreOrder on_later.
Proof. split; [intros s; unfold on_later; reflexivity|]. intros s1 s2 s3 H1 H2. unfold on_later. by transitivity (pl_crawler s2). Qed.

Abbreviation pipes := (triple pipe_ok on_later).

Lemma crawler_pipes {A} P (m : M Crawl A) Q :
  runs P m Q → pipes (λ s, P (pl_crawler s)) (on_crawler m) (λ a s, Q a (pl_crawler s)).
Proof.
  intros Hm s o s' [F1 F2 F3 F4] HP Hr. unfold on_crawler in Hr. destruct (m (pl_crawler s)) as [o1 c] eqn:E. injection Hr as <- <-.
  destruct (Hm _ _ _ F1 HP E) as (H1 & H2 & H3). split_and!; [|exact H2|done]. split; simpl; [done| |done|].
  - etransitivity; [exact F2|]. apply H2.
  - eapply Forall_impl; [exact F4|]. intros b. by apply batch_ok_stable.
Qed.

(** Changes of the crawler that leave the index chained. *)
Lemma modify_runs (f : Crawl → Crawl) P :
  (∀ c : Crawl, cw_clock (f c) = cw_clock c ∧ (cw_db (f c) = cw_db c ∨ ∃ st, cw_db (f c) = set_status st (cw_db c))) →
  runs P (modify f) (λ _ _, True).
Proof.
  intros Hm c o c' Hf _ [= <- <-]. destruct (Hm c) as [Ht [Hd|[st Hd]]].
  - destruct (following_same c (f c) Hd) as [H1 H2]; [lia|done|]. done.
  - destruct Hf as [F1 F2 F3 F4]. destruct (set_status_same height_of st _ F1) as [C1 C2]. split_and!; [|split; [by rewrite Hd|lia]|done].
    split; rewrite Hd; [done| |done|done]. rewrite Ht. exact F2.
Qed.

Lemma mark_runs st : runs anywhere (mark_status (Registry:=Registry) outside st) (λ _ _, True).
Proof.
  eapply (triple_bind following later); [by apply (statement_runs _ anywhere)|]. intros []. apply modify_runs. intros c. split; [done|right; by eexists].
Qed.

Lemma record_runs message mark : runs anywhere (recordError (Registry:=Registry) outside message mark) (λ _ _, True).
Proof.
  intros c o c' Hf _ Hr. unfold recordError, try_catch in Hr. match type of Hr with match ?m c with _ => _ end = _ => set (write := m) in Hr end.
  assert (runs anywhere write (λ _ _, True)) as Hm.
  { eapply (triple_bind following later); [by apply (statement_runs _ anywhere)|]. intros []. apply modify_runs. intros c1. split; [done|]. destruct mark; [right; by eexists|by left]. }
  destruct (write c) as [[[]|e] c1] eqn:E; destruct (Hm _ _ _ Hf I E) as (H1 & H2 & _); injection Hr as <- <-; done.
Qed.

Lemma running_pipes P : (∀ s s' : Pipe, cw_db (pl_crawler s') = cw_db (pl_crawler s) → pl_queue s' = pl_queue s → P s → P s') →
  pipes P (isRunning outside) (λ _ s, P s).
Proof.
  intros HP s o s' Hs Hp [= <- <-].
  destruct (crawler_pipes anywhere looking _ (look_runs anywhere (λ _ _ _ Hc, Hc)) s _ _ Hs I eq_refl) as (H1 & H2 & _).
  split_and!; [exact H1|exact H2|]. intros _ _. by apply (HP s).
Qed.

Lemma queue_pipes q : pipes (λ s, Forall (λ b, batch_ok b (pl_crawler s)) q) (set_queue q) (λ _ _, True).
Proof. intros s o s' [F1 F2 F3 F4] Hq [= <- <-]. split_and!; [by split|unfold on_later; simpl; reflexivity|done]. Qed.

Lemma push_pipes b : pipes (λ s, batch_ok b (pl_crawler s) ∧ (startHeight ≤ bt_to b + 1)%Z) (push_batch b) (λ _ _, True).
Proof.
  intros s o s' [F1 F2 F3 F4] [Hb Hto] [= <- <-]. split_and!; [|unfold on_later; simpl; reflexivity|done].
  split; simpl; [done|done|done|]. apply Forall_app. split; [done|]. by apply Forall_singleton.
Qed.

Lemma count_pipes h P : (∀ s s' : Pipe, pl_crawler s' = pl_crawler s → P s → P s') →
  pipes (λ s, (h < next_height (cw_db (pl_crawler s)))%Z ∧ P s) (count_block h) (λ _ s, P s).
Proof.
  intros HP s o s' [F1 F2 F3 F4] [Hh Hs] [= <- <-]. split_and!; [|unfold on_later; simpl; reflexivity|intros _ _; by apply (HP s)].
  split; simpl; [done|lia|done|done].
Qed.

Definition goes {A} (m : M Pipe A) : Prop := ∀ s o s', pipe_ok s → m s = (o, s') → pipe_ok s' ∧ on_later s s'.

Lemma prefetch_pipes from to retried :
  (startHeight ≤ from)%Z → (to ≤ tipHeight)%Z →
  pipes anywhere (on_crawler (fetch_ahead from to retried)) (λ b s, batch_ok b (pl_crawler s) ∧ bt_from b = from ∧ bt_to b = to).
Proof. intros H1 H2. exact (crawler_pipes _ _ _ (prefetch_runs from to retried H1 H2)). Qed.

Lemma running_goes : goes (isRunning outside).
Proof. intros s o s' Hs Hr. by destruct (running_pipes anywhere (λ _ _ _ _ Hc, Hc) _ _ _ Hs I Hr) as (H1 & H2 & _). Qed.

Lemma pump_goes room : goes (pumping tipHeight room).
Proof.
  induction room as [|room IH]; intros s o s' Hs Hr; cbn [pump] in Hr; [by injection Hr as <- <-|].
  apply bind_cases in Hr as [(s0 & s1 & E & Hr)|(e & E & _)]; [|done]. injection E as <- <-.
  case_bool_decide as Htip; [|by injection Hr as <- <-].
  apply bind_cases in Hr as [(r & s2 & E & Hr)|(e & E & _)]; [|done]. destruct (running_goes _ _ _ Hs E) as [Hs2 Hl2].
  destruct r; [|by injection Hr as <- <-]. assert (startHeight ≤ pl_nextHeightToFetch s)%Z as Hstart by apply Hs.
  remember (Z.min _ _) as to eqn:Eto in Hr. assert (to ≤ tipHeight ∧ pl_nextHeightToFetch s ≤ to)%Z as [Hto Hfrom] by lia.
  apply bind_cases in Hr as [(b & s3 & E3 & Hr)|(e & E3 & ->)];
    destruct (prefetch_pipes _ _ _ Hstart Hto _ _ _ Hs2 I E3) as (Hs3 & Hl3 & Hb); [|split; [done|by transitivity s2]].
  destruct (Hb _ eq_refl) as (Hbok & _ & Hbto).
  apply bind_cases in Hr as [([] & s4 & E4 & Hr)|(e & E4 & _)]; [|done].
  assert (startHeight ≤ bt_to b + 1)%Z as Hb1 by lia.
  destruct (push_pipes b _ _ _ Hs3 (conj Hbok Hb1) E4) as (Hs4 & Hl4 & _).
  destruct (IH _ _ _ Hs4 Hr) as [Hs5 Hl5]. split; [done|]. transitivity s2; [done|]. transitivity s3; [done|]. by transitivity s4.
Qed.

Lemma pumps_goes : goes (pumps tipHeight).
Proof. intros s o s' Hs Hr. by apply (pump_goes _ _ _ _ Hs Hr). Qed.

Lemma progress_goes c : goes (write_progress c).
Proof.
  intros s o s' Hs Hr. unfold write_progress in Hr. destruct (ca_fault c _); [by injection Hr as <- <-|].
  edestruct (crawler_pipes anywhere _ _ (modify_runs (λ c, with_errors 0 (cw_lastError c) c) anywhere ltac:(intros; split; [done|by left])) s) as (H1 & H2 & _);
    [done|done|exact Hr|done].
Qed.

Lemma entry_below c x : following c → entry_ok (cw_db c) x → has_block (prepared_hash x) (cw_db c) →
  (prepared_height x < next_height (cw_db c))%Z.
Proof.
  intros Hf ([Hx1 Hx2] & Hhash & _) Hb. pose proof (has_block_below height_of _ _ (fo_chained _ Hf) Hb) as Hlt.
  rewrite Hhash in Hlt. rewrite (hn_height _ _ _ _ (Hhonest 0)) in Hlt by lia. done.
Qed.

Lemma store_goes preps s o s' : pipe_ok s → entries_ok preps (pl_crawler s) → storing tipHeight preps s = (o, s') → pipe_ok s' ∧ on_later s s'.
Proof.
  revert s o s'. induction preps as [|x preps IH]; intros s o s' Hs He Hr; cbn [persist_preps] in Hr; [by injection Hr as <- <-|].
  apply bind_cases in Hr as [(r & s1 & E & Hr)|(e & E & _)]; [|done]. destruct (running_goes _ _ _ Hs E) as [Hs1 Hl1].
  destruct r; [|by injection Hr as <- <-]. apply (entries_ok_stable _ _ _ Hl1) in He.
  apply bind_cases in Hr as [(out & s2 & E2 & Hr)|(e & E2 & _)]; [|done].
  destruct (crawler_pipes _ _ _ (look_runs (entries_ok (x :: preps)) ltac:(intros c c' Hd; unfold entries_ok; by rewrite Hd)) _ _ _ Hs1 He E2)
    as (Hs2 & Hl2 & Hp). destruct (Hp _ eq_refl) as [He2 Hpend]. clear Hp. apply Forall_cons in He2 as [Hx He2].
  assert (on_later s s2) as Hl02 by (by transitivity s1).
  apply bind_cases in Hr as [(res & s3 & E3 & Hr)|(e & E3 & ->)];
    destruct (crawler_pipes _ _ _ (persist_runs x out) _ _ _ Hs2 (conj Hx Hpend) E3) as (Hs3 & Hl3 & Hb); [|split; [done|by transitivity s2]].
  specialize (Hb _ eq_refl). apply (entries_ok_stable _ _ _ Hl3) in He2.
  assert (entry_ok (cw_db (pl_crawler s3)) x) as Hx3 by (eapply entry_ok_grew; [apply Hl3|done]).
  apply bind_cases in Hr as [([] & s4 & E4 & Hr)|(e & E4 & _)]; [|done].
  destruct (count_pipes (prepared_height x) (λ s, entries_ok preps (pl_crawler s)) ltac:(intros ? ? Hc; cbn beta; by rewrite Hc) _ _ _ Hs3
    (conj (entry_below _ _ (po_following _ Hs3) Hx3 Hb) He2) E4) as (Hs4 & Hl4 & He4). specialize (He4 _ eq_refl).
  apply bind_cases in Hr as [(s5 & s6 & E5 & Hr)|(e & E5 & _)]; [|done]. injection E5 as <- <-.
  assert (on_later s s4) as Hl04 by (transitivity s2; [done|]; by transitivity s3).
  apply bind_cases in Hr as [([] & s7 & E7 & Hr)|(e & E7 & ->)].
  - assert (pipe_ok s7 ∧ on_later s4 s7) as [Hs7 Hl7] by (destruct (_ || _); [by eapply progress_goes|by injection E7 as <-]).
    destruct (IH _ _ _ Hs7 (entries_ok_stable _ _ _ Hl7 He4) Hr) as [Hs8 Hl8]. split; [done|]. transitivity s4; [done|]. by transitivity s7.
  - destruct (_ || _); [|done]. destruct (progress_goes _ _ _ _ Hs4 E7) as [Hs7 Hl7]. split; [done|by transitivity s4].
Qed.

Lemma head_goes head s o s' : pipe_ok s → batch_ok head (pl_crawler s) → storing_head tipHeight head s = (o, s') → pipe_ok s' ∧ on_later s s'.
Proof.
  intros Hs Hb Hr. unfold persist_head, attempt in Hr. destruct ((lift (bt_data head) ≫= _) s) as [o1 s1] eqn:E. injection Hr as _ <-.
  apply bind_cases in E as [(l & s2 & E1 & E)|(e & E1 & _)]; apply (f_equal snd) in E1 as Hs2; simpl in Hs2; subst; [|done].
  destruct Hb as (_ & _ & Hb). apply lift_Ret in E1 as [E1 _]. by apply (store_goes l _ _ _ Hs (Hb _ E1) E).
Qed.

Lemma crawler_goes {A} (m : M Crawl A) Q : runs anywhere m Q → goes (on_crawler m).
Proof. intros Hm s o s' Hs Hr. by destruct (crawler_pipes anywhere _ _ Hm _ _ _ Hs I Hr) as (H1 & H2 & _). Qed.

Lemma change_goes f : (∀ c : Crawl, cw_clock (f c) = cw_clock c ∧ (cw_db (f c) = cw_db c ∨ ∃ st, cw_db (f c) = set_status st (cw_db c))) →
  goes (on_crawler (modify f)).
Proof. intros Hm. apply (crawler_goes _ _ (modify_runs f anywhere Hm)). Qed.

Lemma drain_goes fuel : goes (draining tipHeight fuel).
Proof.
  induction fuel as [|fuel IH]; intros s o s' Hs Hr; cbn [drain] in Hr; [by injection Hr as <- <-|].
  apply bind_cases in Hr as [(s0 & s1 & E & Hr)|(e & E & _)]; [|done]. injection E as <- <-.
  case_bool_decide as Htip; [|by injection Hr as <- <-].
  apply bind_cases in Hr as [(r & s2 & E & Hr)|(e & E & _)]; [|done]. destruct (running_goes _ _ _ Hs E) as [Hs2 Hl2].
  destruct r; [|by injection Hr as <- <-]. destruct (pl_queue s) as [|head rest] eqn:Eq; [by injection Hr as <- <-|].
  assert (Forall (λ b, batch_ok b (pl_crawler s2)) (head :: rest)) as [Hhead Hrest]%Forall_cons.
  { rewrite <- Eq. eapply Forall_impl; [apply Hs|]. intros b. by apply batch_ok_stable. }
  apply bind_cases in Hr as [([] & s3 & E3 & Hr)|(e & E3 & _)]; [|done].
  destruct (queue_pipes rest _ _ _ Hs2 Hrest E3) as (Hs3 & Hl3 & _).
  apply bind_cases in Hr as [(ended & s4 & E4 & Hr)|(e & E4 & _)].
  2:{ unfold persist_head, attempt in E4. by destruct ((lift (bt_data head) ≫= _) s3). }
  apply (batch_ok_stable _ _ _ Hl3) in Hhead. destruct (head_goes _ _ _ _ Hs3 Hhead E4) as [Hs4 Hl4].
  assert (on_later s s4) as Hl04 by (transitivity s2; [done|]; by transitivity s3).
  destruct ended as [[]|err].
  - apply bind_cases in Hr as [([] & s5 & E5 & Hr)|(e & E5 & ->)]; destruct (pumps_goes _ _ _ Hs4 E5) as [Hs5 Hl5]; [|split; [done|by transitivity s4]].
    destruct (IH _ _ _ Hs5 Hr) as [Hs6 Hl6]. split; [done|]. transitivity s4; [done|]. by transitivity s5.
  - apply bind_cases in Hr as [([] & s5' & E5 & Hr)|(e & E5 & ->)];
      destruct (crawler_goes _ _ (record_runs _ _) _ _ _ Hs4 E5) as [Hs5' Hl5']; [|split; [done|by transitivity s4]].
    apply bind_cases in Hr as [(state & s5 & E6 & Hr)|(e & E6 & ->)];
      destruct (crawler_goes _ _ (state_triple outside before following following_keeps fo_keys anywhere ltac:(done)) _ _ _ Hs5' E6) as [Hs5 Hl5];
      [|split; [done|transitivity s5'; [by transitivity s4|done]]].
    assert (on_later s s5) as Hl05 by (transitivity s5'; [by transitivity s4|done]).
    case_bool_decide; [by injection Hr as <- <-|]. destruct (bt_retried head).
    + apply bind_cases in Hr as [(s6 & s6' & E6' & Hr)|(e & E6' & _)]; [|done]. injection E6' as <- <-.
      apply bind_cases in Hr as [([] & s7 & E7 & Hr)|(e & E7 & _)]; [|by destruct (isTransientError err)].
      assert (pipe_ok s7 ∧ on_later s5 s7) as [Hs7 Hl7].
      { destruct (isTransientError err); [by injection E7 as <-|].
        refine (change_goes _ _ _ _ _ Hs5 E7). intros c. split; [done|by left]. }
      apply bind_cases in Hr as [([] & s8 & E8 & Hr)|(e & E8 & ->)]; destruct (crawler_goes _ _ (mark_runs _) _ _ _ Hs7 E8) as [Hs8 Hl8].
      * injection Hr as <- <-. split; [done|]. transitivity s5; [done|]. by transitivity s7.
      * split; [done|]. transitivity s5; [done|]. by transitivity s7.
    + apply bind_cases in Hr as [(again & s7 & E7 & Hr)|(e & E7 & ->)];
        destruct (prefetch_pipes _ _ _ (proj1 Hhead) (proj1 (proj2 Hhead)) _ _ _ Hs5 I E7) as (Hs7 & Hl7 & Hb); [|split; [done|by transitivity s5]].
      destruct (Hb _ eq_refl) as (Hbok & _). assert (on_later s s7) as Hl07 by (by transitivity s5).
      apply bind_cases in Hr as [(s8 & s8' & E8 & Hr)|(e & E8 & _)]; [|done]. injection E8 as <- <-.
      apply bind_cases in Hr as [([] & s9 & E9 & Hr)|(e & E9 & _)]; [|done].
      assert (Forall (λ b, batch_ok b (pl_crawler s7)) (again :: pl_queue s7)) as Hq by (apply Forall_cons; split; [done|apply Hs7]).
      destruct (queue_pipes (again :: pl_queue s7) _ _ _ Hs7 Hq E9) as (Hs9 & Hl9 & _).
      apply bind_cases in Hr as [([] & s10 & E10 & Hr)|(e & E10 & ->)]; destruct (pumps_goes _ _ _ Hs9 E10) as [Hs10 Hl10].
      * destruct (IH _ _ _ Hs10 Hr) as [Hs11 Hl11]. split; [done|]. transitivity s7; [done|]. transitivity s9; [done|]. by transitivity s10.
      * split; [done|]. transitivity s7; [done|]. by transitivity s9.
Qed.

(** The pipeline from a crawler at the start height. *)
Lemma pipeline_goes c o s' :
  chained height_of (cw_db c) → (∀ k, is_key (cw_db c) k → used (cw_clock c) k) → startHeight = next_height (cw_db c) →
  pipeline decode_metadata registry_pallets decode_events decode_digest header_hash decodeAuthorities sr25519Verify bech32m dustInitialNonce
    blake2b network palletConfig config outside startHeight tipHeight (start_pipeline c startHeight) = (o, s') →
  pipe_ok s' ∧ later c (pl_crawler s').
Proof.
  intros Hc Hk Hs Hr. assert (pipe_ok (start_pipeline c startHeight)) as H0.
  { split; simpl; [|lia|lia|constructor]. split; [done|done|lia|lia]. }
  apply bind_cases in Hr as [([] & s1 & E & Hr)|(e & E & ->)]; destruct (pumps_goes _ _ _ H0 E) as [H1 H2]; [|done].
  destruct (drain_goes _ _ _ _ H1 Hr) as [H3 H4]. split; [done|]. by transitivity (pl_crawler s1).
Qed.

Lemma run_pipeline_goes c r c' :
  chained height_of (cw_db c) → (∀ k, is_key (cw_db c) k → used (cw_clock c) k) → startHeight = next_height (cw_db c) →
  runCatchUpPipeline decode_metadata registry_pallets decode_events decode_digest header_hash decodeAuthorities sr25519Verify bech32m
    dustInitialNonce blake2b network palletConfig config outside startHeight tipHeight c = (r, c') →
  following c' ∧ later c c'.
Proof.
  intros Hc Hk Hs Hr. unfold runCatchUpPipeline in Hr. destruct (pipeline _ _ _ _ _ _ _ _ _ _ _ _ _ _ _ _ _) as [o s'] eqn:E. injection Hr as _ <-.
  destruct (pipeline_goes _ _ _ Hc Hk Hs E) as [[F _ _ _] G]. done.
Qed.
End Follow.

(** ** All of [runCatchUp] *)

Lemma honest_below height_of canon finalized tip node :
  (tip ≤ finalized)%Z → honest height_of canon finalized node → honest height_of canon tip node.
Proof. intros Hle [H0 H1 H2 H3]. split; [done| |done|done]. intros h hash Hn Hh. apply (H1 h); [done|lia]. Qed.

Section Whole.
Context {Registry : Type}.
Context (decode_metadata : string → outcome Registry) (registry_pallets : Registry → outcome (list (string * option Z)))
  (decode_events : Registry → string → outcome (list EventRecord)) (decode_digest : BlockHeader → outcome (list DigestItem))
  (header_hash : BlockHeader → outcome (list Z)) (decodeAuthorities : list Z → outcome (list string))
  (sr25519Verify : list Z → list Z → string → bool) (bech32m : string → list Z → outcome string)
  (dustInitialNonce : Z → string → outcome (string + list Z)) (blake2b : list Z → list Z) (network : string)
  (palletConfig : option PalletMap) (config : CrawlerConfig) (outside : nat → Outside).
Context `{ScanOrder}.

Abbreviation Crawl := (Crawler (Registry:=Registry)).
Abbreviation by_hash := (processBlockByHash decode_metadata registry_pallets decode_events decode_digest header_hash decodeAuthorities
  sr25519Verify bech32m dustInitialNonce blake2b network palletConfig).
Abbreviation seeding := (seedStartHeight decode_metadata registry_pallets decode_events decode_digest header_hash decodeAuthorities
  sr25519Verify bech32m dustInitialNonce blake2b network palletConfig config outside).
Abbreviation pipeline_from := (runCatchUpPipeline decode_metadata registry_pallets decode_events decode_digest header_hash decodeAuthorities
  sr25519Verify bech32m dustInitialNonce blake2b network palletConfig config outside).
Abbreviation to_head := (catch_up_to_head decode_metadata registry_pallets decode_events decode_digest header_hash decodeAuthorities
  sr25519Verify bech32m dustInitialNonce blake2b network palletConfig config outside).
Abbreviation catching_up := (runCatchUp decode_metadata registry_pallets decode_events decode_digest header_hash decodeAuthorities
  sr25519Verify bech32m dustInitialNonce blake2b network palletConfig config outside).

(** The finalized chain; the node names heights as the chain does, and a
    finalized head on it. *)
Context (height_of : string → Z) (canon : Z → string) (finalized : Z) (before : string → Prop).

Record honest_headers (node : Node) : Prop := {
  hh_header : ∀ hash hd t, n_getHeader node hash = Ret (Some hd) → parseBlockNumber (hd_number hd) = Ret t → height_of hash = t;
  hh_block : ∀ hash sb t, n_getBlock node hash = Ret (Some sb) → parseBlockNumber (hd_number (sb_header sb)) = Ret t → height_of hash = t;
  hh_final : ∀ hash, n_getFinalizedHead node = Ret hash → (height_of hash ≤ finalized)%Z }.

Hypothesis Hhonest : ∀ n, honest height_of canon finalized (ou_node (outside n)).
Hypothesis Hheaders : ∀ n, honest_headers (ou_node (outside n)).
Let uuid (n : nat) : RowName → string := ca_uuid (ou_call (outside n)).
Hypothesis Hids : ∀ n, Inj (=) (=) (uuid n) ∧ ∀ x, uuid n x ≠ EmptyString ∧ ¬ before (uuid n x).
Hypothesis Hapart : ∀ n m x y, uuid n x = uuid m y → n = m.

(** The first height a catch-up indexes, when [next] is the next one: an empty
    index begins with the anchor below [startHeight]. *)
Definition anchors (next : Z) : Prop := next = 0%Z ∧ (0 < cf_startHeight config)%Z.
#[export] Instance anchors_dec next : Decision (anchors next).
Proof. unfold anchors. apply _. Defined.
Definition first_height (next : Z) : Z := if decide (anchors next) then (cf_startHeight config - 1)%Z else next.

Section Ready.
Variable next : Z.

(** Before the pipeline runs the index is as it was, or holds the anchor. *)
Definition anchored (c : Crawl) : Prop :=
  anchors next ∧ next_height (cw_db c) = cf_startHeight config ∧ has_block (canon (cf_startHeight config - 1)) (cw_db c).

Record ready (c : Crawl) : Prop := {
  rd_chained : chained height_of (cw_db c);
  rd_keys : ∀ k, is_key (cw_db c) k → used outside before (cw_clock c) k;
  rd_where : next_height (cw_db c) = next ∨ anchored c }.

Abbreviation runs := (triple ready later).
Definition unmoved (c : Crawl) : Prop := next_height (cw_db c) = next.

Lemma ready_keeps c c' : cw_db c' = cw_db c → (cw_clock c ≤ cw_clock c')%nat → ready c → ready c'.
Proof.
  intros Hd Ht [F1 F2 F3]. unfold anchored in *. split; unfold anchored; rewrite Hd; [done| |done].
  intros k Hk. by eapply used_mono, F2.
Qed.

Lemma unmoved_same c c' : cw_db c' = cw_db c → unmoved c → unmoved c'.
Proof. unfold unmoved. by intros ->. Qed.

Abbreviation look_ready := (look_triple outside before ready ready_keeps rd_keys).
Abbreviation statement_ready := (statement_triple outside before ready ready_keeps rd_keys).
Abbreviation state_ready := (state_triple outside before ready ready_keeps rd_keys).

Lemma empty_index c : ready c → next_height (cw_db c) = 0%Z → ix_blocks (cw_db c) = ∅.
Proof.
  intros Hr Hn. destruct (next_height_spec height_of _ (rd_chained _ Hr)) as (_ & _ & [[He _]|(k & b & Hk & Hb)]); [done|].
  destruct (oc_height _ _ (ch_chain _ _ (rd_chained _ Hr)) _ _ Hk) as (_ & Hpos & _). lia.
Qed.

(** The anchor is stored without its parent, in an empty index; a second try
    finds it. *)
Lemma anchor_ready (o : Outside) joined :
  anchors next → (cf_startHeight config - 1 ≤ finalized)%Z →
  runs (pending outside before o) (on_processor (by_hash (ou_call o) (ou_node o) joined (canon (cf_startHeight config - 1)))) (λ _ c, anchored c).
Proof using Hhonest Hheaders Hids Hapart.
  intros Ha Hfin c r c' Hr Hpend Hrun. unfold on_processor in Hrun. destruct (by_hash _ _ _ _ _) as [o1 p] eqn:E. injection Hrun as <- <-.
  set (hash := canon (cf_startHeight config - 1)) in *. pose proof Ha as [Hn0 Hcf].
  assert (pr_db p = cw_db c → (∀ a, o1 = Ret a → anchored c) →
    ready (with_processor p c) ∧ later c (with_processor p c) ∧ ∀ a, o1 = Ret a → anchored (with_processor p c)) as Hsame.
  { intros Hp Hret. split; [by apply (ready_keeps c)|]. split; [split; [change (cw_db (with_processor p c)) with (pr_db p); by rewrite Hp|done]|].
    unfold anchored in *. change (cw_db (with_processor p c)) with (pr_db p). rewrite Hp. exact Hret. }
  unfold processBlockByHash, processFromNode in E.
  apply bind_cases in E as [(b & p1 & E1 & E)|(e & E1 & ->)]; apply block_exists in E1 as [D1 Hb]; [|by apply Hsame].
  specialize (Hb _ eq_refl). change (pr_db (cw_processor c)) with (cw_db c) in D1, Hb. destruct b.
  - apply eq_sym, bool_decide_eq_true_1 in Hb. apply bind_cases in E as [(h & p2 & E2 & E)|(e & E2 & ->)]; apply keeps_db_lift in E2; [|apply Hsame; [congruence|done]].
    assert (pr_db p = cw_db c) as Hp.
    { destruct h as [h|]; [|injection E as _ <-; congruence]. apply bind_cases in E as [(t & p3 & E3 & E)|(e & E3 & ->)]; apply keeps_db_lift in E3; [|congruence].
      injection E as _ <-. congruence. }
    apply Hsame; [done|]. intros _ _. destruct (rd_where _ Hr) as [Hn|?]; [|done]. exfalso. rewrite Hn0 in Hn.
    pose proof (empty_index _ Hr Hn) as He. apply has_block_iff in Hb as (k & b & Hk & _). by rewrite He, lookup_empty in Hk.
  - apply eq_sym, bool_decide_eq_false_1 in Hb.
    apply bind_cases in E as [(sb & p2 & E2 & E)|(e & E2 & ->)]; [apply lift_Ret in E2 as [E2 ->]|apply keeps_db_lift in E2; apply Hsame; [congruence|done]].
    apply bind_cases in E as [(ev & p3 & E3 & E)|(e & E3 & ->)]; apply keeps_db_lift in E3; [|apply Hsame; [congruence|done]].
    destruct sb as [sb|]; [|injection E as <- <-; apply Hsame; [congruence|done]].
    apply bind_cases in E as [(prep & p4 & E4 & E)|(e & E4 & ->)]; [apply prepare_spec in E4 as Hprep|]; apply prepare_keeps in E4; [|apply Hsame; [congruence|done]].
    apply persist_fetched_cases in E as [[Hp [e ->]]|(pj & pr & Ep)]; [apply Hsame; [congruence|done]|].
    assert (pr_db p4 = cw_db c) as Hd by congruence. rewrite Hd in Ep.
    pose proof Hpend as (n & -> & _). destruct Hprep as (P1 & <- & P3). pose proof (Hhonest n) as Hh. pose proof (hn_height _ _ _ _ Hh (cf_startHeight config - 1) ltac:(lia)) as Hht.
    pose proof (hh_block _ (Hheaders n) _ _ _ E2 P3) as Hpb. fold hash in Hht.
    assert (from_node height_of prep) as Hnode.
    { split; rewrite ?P1; [apply (hn_named _ _ _ _ Hh)|congruence|lia|]. rewrite (hn_parent _ _ _ _ Hh _ _ E2). lia. }
    assert (next_height (cw_db c) = 0%Z) as Hnext.
    { destruct (rd_where _ Hr) as [->|(_ & _ & Hhas)]; [done|]. by destruct Hb. }
    pose proof (empty_index _ Hr Hnext) as He.
    destruct (persist_chained height_of _ _ _ _ _ _ _ _ _ _ _ (pending_fresh outside before Hids Hapart _ _ Hpend) Hnode (or_introl He) (rd_chained _ Hr) Ep)
      as (C1 & C2 & C3 & C4 & C5). change (pr_db p) with (cw_db (with_processor p c)) in *. rewrite P1 in C3.
    destruct o1 as [r1|e]; [|apply persist_throws in Ep; by apply Hsame].
    specialize (C3 _ eq_refl). assert (anchored (with_processor p c)) as Hanch.
    { split; [done|]. split; [|exact C3]. destruct C5 as [Heq|[-> _]]; [|lia]. rewrite Heq in C3. by destruct Hb. }
    split_and!; [|by split|done]. split; [exact C1|exact (stored_used outside before _ _ _ Hpend C4)|by right].
Qed.

Definition seed_post (tip : Z) (r : Seeded) (c : Crawl) : Prop :=
  match r with
  | SeededAt h => h = cf_startHeight config ∧ anchored c
  | AlreadyIndexed => unmoved c
  | Unfinalized => (tip < cf_startHeight config - 1)%Z
  end.

Lemma seed_ready tip : (tip ≤ finalized)%Z → anchors next → runs unmoved (seeding tip) (seed_post tip).
Proof using Hhonest Hheaders Hids Hapart.
  intros Htip Ha. unfold seedStartHeight. eapply triple_bind; [apply _|exact (statement_ready _ unmoved unmoved_same)|]. intros [].
  eapply triple_bind; [apply _|apply triple_get; apply _|]. intros c0.
  destruct (negb _); [apply triple_ret; [apply _|]; by intros c [_ ?]|].
  case_bool_decide as Hlt; [apply triple_ret; [apply _|intros c _; exact Hlt]|].
  eapply (triple_bind _ _ _ _ (λ hash c, hash = canon (cf_startHeight config - 1))).
  { eapply (triple_weaken _ _ anywhere _ _ (λ hash _, hash = canon (cf_startHeight config - 1))); [|by intros c _; exact I|done]. apply (retry_triple ready); [done|]. intros _.
    eapply triple_bind; [apply _|by apply (look_ready anywhere)|]. intros o.
    eapply (triple_bind _ _ _ _ (λ hash c, ∀ x, present hash = Some x → x = canon (cf_startHeight config - 1))).
    { intros c r c' Hr [_ (n & -> & _)] [= <- <-]. split_and!; [done|reflexivity|]. intros a Hhash x Hx. apply present_Some in Hx as [-> _].
      apply (hn_hash _ _ _ _ (Hhonest n) _ _ Hhash). lia. }
    intros hash. destruct (present hash) as [x|]; [|apply triple_throw; apply _]. apply triple_ret; [apply _|]. intros c Hx. by apply Hx. }
  intros hash c r c' Hr -> Hrun.
  assert (runs anywhere (
    _ ← withRetry (cf_maxRetries config) ("Anchor block " +:+ pretty (cf_startHeight config - 1)%Z) (λ _,
        o ← look outside; on_processor (by_hash (ou_call o) (ou_node o) (ou_joined o (cf_startHeight config - 1)) (canon (cf_startHeight config - 1))));
    mret (SeededAt (cf_startHeight config))) (seed_post tip)) as Hseed; [|by apply (Hseed _ _ _ Hr I Hrun)].
  eapply (triple_bind _ _ _ _ (λ _ c, anchored c)).
  - apply (retry_triple ready); [done|]. intros _. eapply triple_bind; [apply _|by apply (look_ready anywhere)|]. intros o.
    eapply triple_weaken; [apply anchor_ready; [done|lia]|by intros ? [_ ?]|done].
  - intros _. apply triple_ret; [apply _|]. intros c1 Hc. by split.
Qed.
End Ready.

(** An index that is not empty, or begins at genesis, has no anchor. *)
Lemma seeded_ready next tip c o c' : (tip ≤ finalized)%Z → ready next c → unmoved next c →
  (if bool_decide (next = 0%Z) && bool_decide (0 < cf_startHeight config)%Z then seeding tip else mret AlreadyIndexed) c = (o, c') →
  ready next c' ∧ later c c' ∧ ∀ r, o = Ret r →
    match r with SeededAt h => h = cf_startHeight config ∧ anchored next c' | AlreadyIndexed => unmoved next c'
    | Unfinalized => anchors next ∧ (tip < cf_startHeight config - 1)%Z end.
Proof using Hhonest Hheaders Hids Hapart.
  intros Hfin Hr Hu. case_bool_decide as Hn; [|intros [= <- <-]; split_and!; [done|reflexivity|by intros r [= <-]]].
  case_bool_decide as Hc; [|intros [= <- <-]; split_and!; [done|reflexivity|by intros r [= <-]]]. intros Hs.
  destruct (seed_ready next tip Hfin (conj Hn Hc) _ _ _ Hr Hu Hs) as (H1 & H2 & H3). split_and!; [done|done|].
  intros r Hret. specialize (H3 _ Hret). by destruct r.
Qed.

(** Writes of other columns of SyncState. *)
Lemma status_ready next st c c' : cw_db c' = set_status st (cw_db c) → cw_clock c' = cw_clock c → ready next c → ready next c' ∧ later c c'.
Proof using Type.
  intros Hd Ht [F1 F2 F3]. destruct (set_status_same height_of st _ F1) as [C1 C2]. split; [|split; [by rewrite Hd|lia]].
  unfold anchored in *. split; unfold anchored; rewrite Hd; [done| |done]. rewrite Ht. exact F2.
Qed.

(** ** The lookups *)

(** Nothing of the index has changed since [c0]. *)
Definition idle (c0 c : Crawl) : Prop := cw_db c = cw_db c0 ∧ (cw_clock c0 ≤ cw_clock c)%nat.

(** A finalized head the node reported in between. *)
Definition reported (c c' : Crawl) (hash : string) : Prop :=
  ∃ m, (cw_clock c ≤ m < cw_clock c')%nat ∧ n_getFinalizedHead (ou_node (outside m)) = Ret hash.

Lemma reported_later c c1 c2 hash : later c1 c2 → reported c c1 hash → reported c c2 hash.
Proof. intros [_ Hle] (m & Hm & Hr). exists m. split; [lia|done]. Qed.

Section Lookups.
Variable c0 : Crawl.
Hypothesis Hchained : chained height_of (cw_db c0).
Hypothesis Hkeys : ∀ k, is_key (cw_db c0) k → used outside before (cw_clock c0) k.

Lemma idle_keeps c c' : cw_db c' = cw_db c → (cw_clock c ≤ cw_clock c')%nat → idle c0 c → idle c0 c'.
Proof. intros Hd Ht [H1 H2]. split; [congruence|lia]. Qed.

Lemma idle_keys c : idle c0 c → ∀ k, is_key (cw_db c) k → used outside before (cw_clock c) k.
Proof using Hkeys. intros [-> Ht] k Hk. by eapply used_mono, Hkeys. Qed.

Lemma idle_ready c : idle c0 c → ready (next_height (cw_db c0)) c ∧ later c0 c.
Proof using Hchained Hkeys.
  intros Hi. pose proof (idle_keys _ Hi). destruct Hi as [Hd Ht]. split; [|split; [by rewrite Hd|done]].
  split; [by rewrite Hd|done|left; by rewrite Hd].
Qed.

Abbreviation looks := (triple (idle c0) later).
Abbreviation look_idle := (look_triple outside before (idle c0) idle_keeps idle_keys).

Lemma final_head label : looks anywhere
  (withRetry (cf_maxRetries config) label (λ _, o ← look outside; lift (n_getFinalizedHead (ou_node o))))
  (λ hash c, reported c0 c hash).
Proof using Hkeys.
  apply (retry_triple (idle c0)); [done|]. intros _ c o c' Hi _ [(x & c1 & E1 & E2)|(e & E1 & ->)]%bind_cases; [|done].
  destruct (look_idle anywhere ltac:(done) c (Ret x) c1 Hi I E1) as (Hi1 & Hl & _). injection E1 as <- <-. injection E2 as <- <-.
  split_and!; [done|done|]. intros hash Hh. exists (cw_clock c). destruct Hi as [_ Ht]. split; [simpl; lia|done].
Qed.

Lemma final_header label hash : looks (λ c, reported c0 c hash)
  (withRetry (cf_maxRetries config) label (λ _, o ← look outside; lift (n_getHeader (ou_node o) hash)))
  (λ hd c, reported c0 c hash ∧ ∃ m, n_getHeader (ou_node (outside m)) hash = Ret hd).
Proof using Hkeys.
  assert (stable later (λ c, reported c0 c hash)) as Hst by (intros c c'; apply reported_later).
  apply (retry_triple (idle c0)); [done|]. intros _ c o c' Hi Hrep [(x & c1 & E1 & E2)|(e & E1 & ->)]%bind_cases; [|done].
  destruct (look_idle anywhere ltac:(done) c (Ret x) c1 Hi I E1) as (Hi1 & Hl & _). injection E1 as <- <-. injection E2 as <- <-.
  split_and!; [done|done|]. intros hd Hh. split; [by apply (Hst c)|eauto].
Qed.

(** Where the pipeline starts, and at which state; without a run of it every
    height up to the finalized head is indexed, or the lookups failed. *)
Definition starts (start : Z) (hash : string) (c : Crawl) : Prop :=
  ready (next_height (cw_db c0)) c ∧ later c0 c ∧ reported c0 c hash ∧ next_height (cw_db c) = start ∧ (start ≤ height_of hash ≤ finalized)%Z ∧
  ((start ≤ first_height (next_height (cw_db c0)))%Z ∨ start = cf_startHeight config ∧ anchored (next_height (cw_db c0)) c).

Definition no_run (o : outcome Z) (c : Crawl) : Prop :=
  ready (next_height (cw_db c0)) c ∧ later c0 c ∧
  ∀ n, o = Ret n → ∃ hash, reported c0 c hash ∧
    ∀ h, (first_height (next_height (cw_db c0)) ≤ h ≤ height_of hash)%Z → has_block (canon h) (cw_db c).

Lemma start_below next : (0 ≤ next)%Z → (next ≤ first_height next)%Z.
Proof using Type. intros Hn. unfold first_height. destruct (decide (anchors next)) as [[Hz Hc]|]; [|done]. lia. Qed.

(** After the lookups. *)
Lemma from_tip next hash (tip : Z) seeded c1 o c' :
  next = next_height (cw_db c0) → height_of hash = tip → (tip ≤ finalized)%Z → ready next c1 → later c0 c1 → reported c0 c1 hash →
  match seeded with SeededAt h => h = cf_startHeight config ∧ anchored next c1 | AlreadyIndexed => unmoved next c1
  | Unfinalized => anchors next ∧ (tip < cf_startHeight config - 1)%Z end →
  match seeded with
  | Unfinalized => mret 0%Z
  | _ =>
      let start := match seeded with SeededAt h => h | _ => next end in
      if bool_decide (tip < start)%Z then mret 0%Z
      else
        _ ← sync_statement outside "UPDATE SyncState syncing";
        _ ← modify (λ c, with_db (set_status "syncing") (with_chain tip (Some (tip, hash)) c));
        pipeline_from start tip
  end c1 = (o, c') →
  no_run o c' ∨ ∃ start c2, starts start hash c2 ∧ pipeline_from start tip c2 = (o, c').
Proof using Hchained Hkeys.
  intros -> <- Hfin Hr Hl Hrep Hseed Hrun. set (next := next_height (cw_db c0)) in *.
  pose proof (next_height_spec height_of _ Hchained) as [Hpos _]. fold next in Hpos. pose proof (start_below _ Hpos) as Hsb.
  assert (∀ start, next_height (cw_db c1) = start → ((start ≤ first_height next)%Z ∨ start = cf_startHeight config ∧ anchored next c1) →
    (if bool_decide (height_of hash < start)%Z then mret 0%Z
     else _ ← sync_statement outside "UPDATE SyncState syncing";
       _ ← modify (λ c, with_db (set_status "syncing") (with_chain (height_of hash) (Some (height_of hash, hash)) c));
       pipeline_from start (height_of hash)) c1 = (o, c') →
    no_run o c' ∨ ∃ start c2, starts start hash c2 ∧ pipeline_from start (height_of hash) c2 = (o, c')) as Hgo.
  { intros start Hst Hfirst Hr2. case_bool_decide as Htip.
    - left. injection Hr2 as <- <-. split_and!; [done|done|]. intros _ _. exists hash. split; [done|]. intros h Hh. fold next in Hh.
      destruct Hfirst as [?|[-> (Ha & _ & Hhas)]]; [lia|]. unfold first_height in Hh. rewrite decide_True in Hh by done.
      by replace h with (cf_startHeight config - 1)%Z by lia.
    - apply bind_cases in Hr2 as [([] & c2 & E2 & Hr2)|(e & E2 & ->)];
        destruct (statement_triple outside before (ready next) (ready_keeps next) (rd_keys next) _ (λ c, cw_db c = cw_db c1) ltac:(intros c3 c4 Hq Hw; cbv beta in *; congruence)
          _ _ _ Hr eq_refl E2) as (Hr' & Hl' & Hd); [|left; split_and!; [done|by transitivity c1|done]].
      specialize (Hd _ eq_refl). apply bind_cases in Hr2 as [([] & c3 & E3 & Hr2)|(e & E3 & _)]; [|done]. injection E3 as <-.
      set (c3 := with_db _ _) in Hr2. right. exists start, c3. split; [|done].
      destruct (status_ready next "syncing" c2 c3 eq_refl eq_refl Hr') as [Hr3 Hl3].
      assert (later c1 c3) as Hl13 by (by transitivity c2). assert (next_height (cw_db c3) = start) as Hst3 by (change (next_height (cw_db c2) = start); by rewrite Hd).
      split_and!; [done|by transitivity c1|by eapply reported_later|done|lia|lia|].
      destruct Hfirst as [?|[-> (Ha & Hn & Hhas)]]; [by left|right]. split; [done|]. split_and!; [done|done|]. by apply Hl13. }
  destruct seeded as [| |h].
  - apply (Hgo next); [done|by left|done].
  - left. injection Hrun as <- <-. split_and!; [done|done|]. intros _ _. exists hash. split; [done|]. intros h Hh. fold next in Hh.
    destruct Hseed as [Ha Hlt]. unfold first_height in Hh. rewrite decide_True in Hh by done. lia.
  - destruct Hseed as [-> Hanch]. apply (Hgo (cf_startHeight config)); [apply Hanch|by right|done].
Qed.

Lemma head_start o c' : to_head c0 = (o, c') →
  no_run o c' ∨ ∃ start hash c2, starts start hash c2 ∧ pipeline_from start (height_of hash) c2 = (o, c').
Proof using Hhonest Hheaders Hids Hapart Hchained Hkeys.
  intros Hrun. set (next := next_height (cw_db c0)). assert (idle c0 c0) as Hi0 by done.
  assert (∀ o c, idle c0 c → (∀ n, o ≠ Ret n) → no_run o c) as Hfail.
  { intros o1 c Hi Ho. destruct (idle_ready _ Hi) as [H1 H2]. split_and!; [done|done|]. intros n ->. by destruct (Ho n). }
  apply bind_cases in Hrun as [(c1 & c1' & E1 & Hrun)|(e & E1 & ->)];
    destruct (state_triple outside before (idle c0) idle_keeps idle_keys anywhere ltac:(done) _ _ _ Hi0 I E1) as (Hi1 & _ & Hc1);
    [|left; by apply Hfail].
  destruct (Hc1 _ eq_refl) as [_ ->]. clear Hc1.
  apply bind_cases in Hrun as [(hash & c2 & E2 & Hrun)|(e & E2 & ->)]; destruct (final_head _ _ _ _ Hi1 I E2) as (Hi2 & _ & Hrep);
    [|left; by apply Hfail]. specialize (Hrep _ eq_refl).
  apply bind_cases in Hrun as [(hd & c3 & E3 & Hrun)|(e & E3 & ->)]; destruct (final_header _ _ _ _ _ Hi2 Hrep E3) as (Hi3 & _ & Hhd);
    [|left; by apply Hfail]. destruct (Hhd _ eq_refl) as (Hrep3 & m & Hm).
  destruct hd as [hd|]; [|left; injection Hrun as <- <-; by apply Hfail].
  apply bind_cases in Hrun as [(tip & c4 & E4 & Hrun)|(e & E4 & ->)]; [|injection E4 as _ <-; left; by apply Hfail].
  injection E4 as E4 <-. pose proof (hh_header _ (Hheaders m) _ _ _ Hm E4) as Htip.
  assert (tip ≤ finalized)%Z as Hfin by (rewrite <- Htip; destruct Hrep3 as (m' & _ & Hm'); by apply (hh_final _ (Hheaders m'))).
  assert (getCatchUpStartHeight (ix_sync (cw_db c1')) = next) as Hn by (unfold next, next_height; by rewrite (proj1 Hi1)).
  rewrite Hn in Hrun. destruct (idle_ready _ Hi3) as [Hr3 Hl3]. fold next in Hr3.
  apply bind_cases in Hrun as [(seeded & c4 & E5 & Hrun)|(e & E5 & ->)];
    destruct (seeded_ready next tip c3 _ _ Hfin Hr3 (f_equal next_height (proj1 Hi3)) E5) as (Hr4 & Hl4 & Hseed).
  - specialize (Hseed _ eq_refl). destruct (from_tip next hash tip seeded c4 o c') as [?|(start & c5 & Hs & Hp)];
      [done|done|done|done|by transitivity c3|by eapply reported_later|done|exact Hrun|by left|]. right. exists start, hash, c5. by rewrite Htip.
  - left. split_and!; [done|by transitivity c3|done].
Qed.

Lemma ready_gapless c : ready (next_height (cw_db c0)) c →
  ∀ h, (first_height (next_height (cw_db c0)) ≤ h < next_height (cw_db c))%Z → has_block (canon h) (cw_db c).
Proof using Hchained.
  intros Hr h Hh. pose proof (next_height_spec height_of _ Hchained) as [Hpos _]. pose proof (start_below _ Hpos) as Hsb.
  destruct (rd_where _ _ Hr) as [Hn|(Ha & Hn & Hhas)]; [lia|]. unfold first_height in Hh. rewrite decide_True in Hh by done.
  by replace h with (cf_startHeight config - 1)%Z by lia.
Qed.

Lemma head_follows o c' : to_head c0 = (o, c') → chained height_of (cw_db c') ∧ later c0 c' ∧
  ∀ h, (first_height (next_height (cw_db c0)) ≤ h < next_height (cw_db c'))%Z → has_block (canon h) (cw_db c').
Proof using Hhonest Hheaders Hids Hapart Hchained Hkeys.
  intros [(Hr & Hl & _)|(start & hash & c & (Hr & Hl & _ & Hn & Hle & Hf) & Hp)]%head_start.
  { split_and!; [apply Hr|done|by apply ready_gapless]. }
  pose proof (next_height_spec height_of _ (rd_chained _ _ Hr)) as [Hpos _]. rewrite Hn in Hpos.
  edestruct (run_pipeline_goes decode_metadata registry_pallets decode_events decode_digest header_hash decodeAuthorities sr25519Verify bech32m
    dustInitialNonce blake2b network palletConfig config outside height_of canon start (height_of hash) Hpos
    (λ n, honest_below _ _ _ _ _ (proj2 Hle) (Hhonest n)) before Hids Hapart c o c' (rd_chained _ _ Hr) (rd_keys _ _ Hr) (eq_sym Hn) Hp)
    as [[F1 _ _ F4] Hl']. split_and!; [done|by transitivity c|]. intros h Hh. destruct (decide (start ≤ h)%Z) as [?|Hlt]; [apply F4; lia|].
  apply Hl', (ready_gapless _ Hr). lia.
Qed.
End Lookups.

Lemma run_cases c r c' : catching_up c = (r, c') →
  (r = Ret 0%Z ∧ c' = c ∧ is_Some (cw_poisonBlock c)) ∨
  ∃ c2, to_head (with_flags true None c) = (r, c2) ∧ c' = with_flags false (cw_poisonBlock c2) c2 ∧ cw_poisonBlock c = None.
Proof using Type.
  unfold runCatchUp. m_unfold. unfold get, modify, attempt, lift. cbv beta iota. destruct (cw_poisonBlock c) as [x|] eqn:Ep.
  { intros [= <- <-]. left. split_and!; [done|done|by eexists]. }
  intros Hr. right. rewrite Ep in Hr. destruct (to_head (with_flags true None c)) as [o c2] eqn:E. exists c2. injection Hr as <- <-. done.
Qed.

(** C9. Catching up leaves no gap, whatever fails and whenever it is stopped, as
    long as nothing else writes the index meanwhile: the lookups of the start and
    of the finalized head, fetches and writes may fail at any point, batches be
    fetched again, and the run may return or throw. The index stays a gapless
    stretch of one chain, keeps every block it had, and every height from where it
    ended before (from the anchor below the configured start height, when it was
    empty) to its new tip holds the block the finalized chain has there. *)
Theorem catch_up_leaves_no_gap c r c' :
  chained height_of (cw_db c) → (∀ k, is_key (cw_db c) k → before k) → catching_up c = (r, c') →
  chained height_of (cw_db c') ∧ (next_height (cw_db c) ≤ next_height (cw_db c'))%Z ∧
  (∀ hash, has_block hash (cw_db c) → has_block hash (cw_db c')) ∧
  (∀ h, (first_height (next_height (cw_db c)) ≤ h < next_height (cw_db c'))%Z → has_block (canon h) (cw_db c')).
Proof using Hhonest Hheaders Hids Hapart.
  intros Hc Hk [(_ & -> & _)|(c2 & Hr & -> & _)]%run_cases.
  - split_and!; [done|done|done|]. intros h Hh. pose proof (next_height_spec height_of _ Hc) as [Hpos _]. pose proof (start_below _ Hpos). lia.
  - destruct (head_follows (with_flags true None c) Hc ltac:(intros k ?; left; auto) _ _ Hr) as (H1 & [[H2 H3] _] & H4). done.
Qed.
End Whole.
