(* ===== verification/CatchUpEnds.v ===== *)
(** Catching up ends, and reaches the finalized head unless an error stops it. *)
From Stdlib Require Import Ascii.
From stdpp Require Import countable.
From S2P Require Import Prelude Threads Db Json Numbers Schema Rollback RollbackFacts Scale.
From S2P Require Import BlockEvents NodeRpc BlockProcessor StoredBalances.
From S2P Require Import IndexMachine IndexProperties IndexExamples BlockFetch Crawler CatchUp FollowChain.

Set Warnings "-register-all".

Local Open Scope string_scope.
Local Open Scope list_scope.

Section Ends.
Context {Registry : Type}.
Context (decode_metadata : string → outcome Registry) (registry_pallets : Registry → outcome (list (string * option Z)))
  (decode_events : Registry → string → outcome (list EventRecord)) (decode_digest : BlockHeader → outcome (list DigestItem))
  (header_hash : BlockHeader → outcome (list Z)) (decodeAuthorities : list Z → outcome (list string))
  (sr25519Verify : list Z → list Z → string → bool) (bech32m : string → list Z → outcome string)
  (dustInitialNonce : Z → string → outcome (string + list Z)) (blake2b : list Z → list Z) (network : string)
  (palletConfig : option PalletMap) (config : CrawlerConfig) (outside : nat → Outside).
Context `{ScanOrder}.

Abbreviation Crawl := (Crawler (Registry:=Registry)).
Abbreviation Pipe := (Pipeline (Registry:=Registry)).
Abbreviation fetch_ahead := (prefetch decode_metadata registry_pallets decode_events palletConfig config outside).
Abbreviation pumping := (pump decode_metadata registry_pallets decode_events palletConfig config outside).
Abbreviation pumps := (pumpFetches decode_metadata registry_pallets decode_events palletConfig config outside).
Abbreviation storing := (persist_preps decode_digest header_hash decodeAuthorities sr25519Verify bech32m dustInitialNonce blake2b network config outside).
Abbreviation storing_head := (persist_head decode_digest header_hash decodeAuthorities sr25519Verify bech32m dustInitialNonce blake2b network config outside).
Abbreviation draining := (drain decode_metadata registry_pallets decode_events decode_digest header_hash decodeAuthorities sr25519Verify bech32m dustInitialNonce blake2b network palletConfig config outside).
Abbreviation pipelining := (pipeline decode_metadata registry_pallets decode_events decode_digest header_hash decodeAuthorities sr25519Verify bech32m dustInitialNonce blake2b network palletConfig config outside).

Variable tipHeight : Z.

(** ** The queue *)

(** What the loop's progress depends on. *)
Definition view (s : Pipe) : list Batch * Z * Z := (pl_queue s, pl_nextHeightToFetch s, pl_nextHeightToPersist s).

Lemma crawler_view {A} (m : M Crawl A) s o s' : on_crawler m s = (o, s') → view s' = view s.
Proof. unfold on_crawler. destruct (m _). by intros [= _ <-]. Qed.

Lemma running_view s : ∃ r s', isRunning outside s = (Ret r, s') ∧ view s' = view s ∧ ((∀ n, ou_running (outside n) = true) → r = true).
Proof. unfold isRunning. m_unfold. eexists _, _. split; [reflexivity|]. split; [done|]. intros Hr. apply Hr. Qed.

(** A fetched batch holds every height of its range, in order. *)
Definition whole (b : Batch) : Prop := ∀ l, bt_data b = Ret l → prepared_height <$> l = heights_between (bt_from b) (bt_to b).

Lemma Forall2_heights node d hs l : Forall2 (fetched_from node d) hs l → prepared_height <$> l = hs.
Proof. induction 1 as [|h x hs l (Hh & _) _ IH]; [done|]. cbn [fmap list_fmap]. by rewrite Hh, IH. Qed.

(** A retried result is the result of one attempt. *)
Lemma retry_run {S A} (run : nat → M S A) left i e s a s' :
  with_retry left i e run s = (Ret a, s') → ∃ j s1, run j s1 = (Ret a, s').
Proof.
  revert i e s. induction left as [|left IH]; intros i e s Hr; cbn [with_retry] in Hr; [done|].
  destruct (run i s) as [[b|err] s1] eqn:E; [injection Hr as -> ->; eauto|]. destruct (isTransientError err); [|done]. by eapply IH.
Qed.

Lemma prefetch_whole from to retried c : ∃ b c', fetch_ahead from to retried c = (Ret b, c') ∧
  bt_from b = from ∧ bt_to b = to ∧ bt_retried b = retried ∧ whole b.
Proof.
  unfold prefetch, attempt. m_unfold. destruct (fetchBlockBatchWithRetry _ _ _ _ _ _ _ c) as [o c'] eqn:E.
  eexists _, _. split; [reflexivity|]. split_and!; [done|done|done|]. unfold whole. cbn [bt_data bt_from bt_to]. intros l ->.
  apply retry_run in E as (i & c1 & E). apply bind_ret_inv in E as (o & c2 & _ & E). unfold on_processor in E.
  destruct (fetchBlockBatch _ _ _ _ _ _ _ _) as [o1 p] eqn:Ef. injection E as -> _. apply fetch_spec in Ef. by eapply Forall2_heights.
Qed.

(** The queue holds the ranges from [a] up to [b], without holes. *)
Fixpoint batches (a : Z) (q : list Batch) (b : Z) : Prop :=
  match q with
  | [] => a = b
  | x :: q' => bt_from x = a ∧ (a ≤ bt_to x)%Z ∧ whole x ∧ batches (bt_to x + 1) q' b
  end.

Lemma batches_app a q b q' c : batches a q b → batches b q' c → batches a (q ++ q') c.
Proof. revert a. induction q as [|x q IH]; intros a; simpl; [by intros ->|]. intros (-> & ? & ? & ?) ?. auto. Qed.

(** A batch may still be tried twice, a second try once. *)
Definition cost (q : list Batch) : nat := sum_list ((λ b, if bt_retried b then 1 else 2)%nat <$> q).
Definition left_to_do (s : Pipe) : nat := (cost (pl_queue s) + 2 * Z.to_nat (tipHeight + 1 - pl_nextHeightToFetch s))%nat.

Lemma cost_app q q' : cost (q ++ q') = (cost q + cost q')%nat.
Proof. unfold cost. by rewrite fmap_app, sum_list_with_app. Qed.

Lemma pump_ends room s : ∃ s' more, pumping tipHeight room s = (Ret tt, s') ∧ pl_queue s' = pl_queue s ++ more ∧
  pl_nextHeightToPersist s' = pl_nextHeightToPersist s ∧ batches (pl_nextHeightToFetch s) more (pl_nextHeightToFetch s') ∧
  (left_to_do s' ≤ left_to_do s)%nat ∧
  ((∀ n, ou_running (outside n) = true) → (pl_nextHeightToFetch s ≤ tipHeight)%Z → (0 < room)%nat → more ≠ []).
Proof.
  revert s. induction room as [|room IH]; intros s; cbn [pump].
  { exists s, []. split_and!; [done|by rewrite app_nil_r|done|done|done|lia]. }
  m_unfold. unfold get at 1. case_bool_decide as Htip.
  2:{ exists s, []. split_and!; [done|by rewrite app_nil_r|done|done|done|done]. }
  destruct (running_view s) as (r & s1 & -> & Hv & Hrun). injection Hv as V1 V2 V3. destruct r.
  2:{ exists s1, []. rewrite V1, V2, V3, app_nil_r. split_and!; [done..|unfold left_to_do; by rewrite V1, V2|]. intros Hr. by specialize (Hrun Hr). }
  set (to := Z.min _ _). assert (pl_nextHeightToFetch s ≤ to ≤ tipHeight)%Z as Hto by (unfold to; lia).
  destruct (prefetch_whole (pl_nextHeightToFetch s) to false (pl_crawler s1)) as (b & c & Hb & B1 & B2 & B3 & B4).
  unfold on_crawler at 1. rewrite Hb. set (s2 := MkPipeline c _ _ _ _). unfold push_batch, modify at 1.
  set (s3 := MkPipeline _ _ _ _ _). destruct (IH s3) as (s' & more & Hr & Q & P & Bs & Hl & _).
  exists s', (b :: more). split_and!; [done| | | | |done].
  - rewrite Q. unfold s3, s2. cbn [pl_queue]. by rewrite V1, <- app_assoc.
  - rewrite P. unfold s3, s2. cbn [pl_nextHeightToPersist]. done.
  - cbn [batches]. unfold s3, s2 in Bs. cbn [pl_nextHeightToFetch] in Bs. split_and!; [done|lia|done|done].
  - etransitivity; [exact Hl|]. unfold left_to_do, s3, s2. cbn [pl_queue pl_nextHeightToFetch]. rewrite cost_app, V1, B2.
    unfold cost at 2. cbn [fmap list_fmap sum_list]. rewrite B3. cbn [id]. lia.
Qed.

Lemma pumps_ends s : ∃ s' more, pumps tipHeight s = (Ret tt, s') ∧ pl_queue s' = pl_queue s ++ more ∧
  pl_nextHeightToPersist s' = pl_nextHeightToPersist s ∧ batches (pl_nextHeightToFetch s) more (pl_nextHeightToFetch s') ∧
  (left_to_do s' ≤ left_to_do s)%nat ∧
  ((∀ n, ou_running (outside n) = true) → pl_queue s' = [] → (tipHeight < pl_nextHeightToFetch s')%Z).
Proof.
  unfold pumpFetches. m_unfold. unfold get at 1.
  destruct (pump_ends (Nat.max 1 (cf_fetchConcurrency config) - length (pl_queue s)) s) as (s' & more & Hr & Q & P & B & L & Hmore).
  exists s', more. split_and!; [done..|]. intros Hrun Hq. rewrite Q in Hq. apply app_nil in Hq as [Hq Hm]. rewrite Hm in B. simpl in B. rewrite <- B.
  apply Z.nle_gt. intros Hle. apply (Hmore Hrun Hle); [|done]. rewrite Hq. simpl. lia.
Qed.

(** ** The loop *)

Lemma store_ends preps (s : Pipe) o (s' : Pipe) : storing tipHeight preps s = (o, s') →
  pl_queue s' = pl_queue s ∧ pl_nextHeightToFetch s' = pl_nextHeightToFetch s ∧
  (∀ a, (a ≤ pl_nextHeightToPersist s)%Z → Forall (λ x, (a ≤ prepared_height x)%Z) preps → (a ≤ pl_nextHeightToPersist s')%Z) ∧
  ((∀ n, ou_running (outside n) = true) → o = Ret tt →
   pl_nextHeightToPersist s' = match last (prepared_height <$> preps) with Some h => (h + 1)%Z | None => pl_nextHeightToPersist s end).
Proof.
  revert s. induction preps as [|x preps IH]; intros s Hr; cbn [persist_preps] in Hr; [by injection Hr as <- <-|].
  apply bind_cases in Hr as [(r & s1 & E & Hr)|(e & E & _)]; [|done].
  destruct (running_view s) as (r' & s1' & E' & Hv & Hrun). rewrite E' in E. injection E as -> ->. injection Hv as V1 V2 V3.
  destruct r; [|injection Hr as <- <-; rewrite V1, V2, V3; split_and!; [done..|]; intros Ht; by specialize (Hrun Ht)].
  apply bind_cases in Hr as [(out & s2 & E2 & Hr)|(e & E2 & _)]; [|done]. apply crawler_view in E2 as Hv. injection Hv as W1 W2 W3.
  apply bind_cases in Hr as [(res & s3 & E3 & Hr)|(e & E3 & ->)]; apply crawler_view in E3 as Hv; injection Hv as X1 X2 X3.
  2:{ split_and!; [congruence|congruence|intros a Ha _; by rewrite X3, W3, V3|done]. }
  apply bind_cases in Hr as [([] & s4 & E4 & Hr)|(e & E4 & _)]; [|done]. injection E4 as <-.
  apply bind_cases in Hr as [(s5 & s6 & E5 & Hr)|(e & E5 & _)]; [|done]. injection E5 as <- <-.
  set (s4 := MkPipeline _ _ _ _ _) in Hr.
  assert (∀ o7 s7, (if bool_decide (pl_processed s4 mod cf_batchSize config = 0)%Z || bool_decide (prepared_height x = tipHeight)
    then write_progress (ou_call out) else mret tt) s4 = (o7, s7) → view s7 = view s4) as Hprog.
  { intros o7 s7. destruct (_ || _); [|by intros [= _ <-]]. unfold write_progress. destruct (ca_fault _ _); [by intros [= _ <-]|].
    apply crawler_view. }
  apply bind_cases in Hr as [([] & s7 & E7 & Hr)|(e & E7 & ->)]; apply Hprog in E7; injection E7 as Y1 Y2 Y3.
  - destruct (IH _ Hr) as (I1 & I2 & I3 & I4). split_and!.
    + rewrite I1, Y1. simpl. congruence.
    + rewrite I2, Y2. simpl. congruence.
    + intros a Ha [Hx Hall]%Forall_cons. apply I3; [|done]. rewrite Y3. simpl. lia.
    + intros Hrn Ho. rewrite (I4 Hrn Ho), Y3. cbn [fmap list_fmap]. rewrite last_cons. by destruct (last _).
  - split_and!; [rewrite Y1; simpl; congruence|rewrite Y2; simpl; congruence| |done]. intros a Ha [Hx _]%Forall_cons. rewrite Y3. simpl. lia.
Qed.

Lemma heights_last from to : (from ≤ to)%Z → last (heights_between from to) = Some to.
Proof.
  intros Hle. unfold heights_between. rewrite last_lookup, length_seqZ. apply lookup_seqZ. split; [lia|]. lia.
Qed.

Lemma head_ends head (s : Pipe) : ∃ o (s' : Pipe), storing_head tipHeight head s = (Ret o, s') ∧
  pl_queue s' = pl_queue s ∧ pl_nextHeightToFetch s' = pl_nextHeightToFetch s ∧
  (whole head → (bt_from head ≤ pl_nextHeightToPersist s)%Z → (bt_from head ≤ bt_to head)%Z →
    (bt_from head ≤ pl_nextHeightToPersist s')%Z ∧
    ((∀ n, ou_running (outside n) = true) → o = Ret tt → pl_nextHeightToPersist s' = (bt_to head + 1)%Z)).
Proof.
  unfold persist_head, attempt. destruct ((lift (bt_data head) ≫= _) s) as [o s'] eqn:E. exists o, s'. split; [done|].
  apply bind_cases in E as [(l & s1 & E1 & E)|(e & E1 & ->)].
  - apply lift_Ret in E1 as [E1 ->]. destruct (store_ends _ _ _ _ E) as (H1 & H2 & H3 & H4). split_and!; [done|done|].
    intros Hw Hle Hft. specialize (Hw _ E1). split.
    + apply H3; [done|]. apply Forall_forall. intros x Hx.
      assert (prepared_height x ∈ heights_between (bt_from head) (bt_to head)) as Hin by (rewrite <- Hw; by apply list_elem_of_fmap_2).
      apply elem_of_seqZ in Hin. lia.
    + intros Hr Ho. by rewrite (H4 Hr Ho), Hw, heights_last.
  - injection E1 as _ <-. done.
Qed.

(** How the loop says that it did not get through: the row of SyncState, or an
    error of one of the crawler's own statements. *)
Definition in_error (c : Crawl) : Prop := sy_syncStatus (ix_sync (cw_db c)) = "error" ∨ (10 < cw_consecutiveErrors c)%Z.
Definition refused (e : exn) : Prop := ∃ n name, ca_fault (ou_call (outside n)) name = Some e.

Lemma statement_ends name (c : Crawl) : ∃ o c', sync_statement outside name c = (o, c') ∧ (o = Ret tt ∨ ∃ e, o = Throw e ∧ refused e).
Proof.
  unfold sync_statement. m_unfold. unfold look. cbv beta iota. destruct (ca_fault _ _) as [e|] eqn:E.
  - eexists _, _. split; [reflexivity|]. right. exists e. split; [done|by eexists _, _].
  - eexists _, _. split; [reflexivity|by left].
Qed.

Lemma state_ends (c : Crawl) : ∃ o c', getSyncState outside c = (o, c') ∧ (o = Ret c' ∨ ∃ e, o = Throw e ∧ refused e).
Proof.
  unfold getSyncState. m_unfold. destruct (statement_ends "SELECT SyncState" c) as (o & c' & -> & [->|(e & -> & He)]).
  - eexists _, _. split; [reflexivity|by left].
  - eexists _, _. split; [reflexivity|eauto].
Qed.

Lemma mark_ends (c : Crawl) : ∃ o c', mark_status outside "error" c = (o, c') ∧ (o = Ret tt ∧ in_error c' ∨ ∃ e, o = Throw e ∧ refused e).
Proof.
  unfold mark_status. m_unfold. destruct (statement_ends "UPDATE SyncState syncStatus" c) as (o & c' & -> & [->|(e & -> & He)]).
  - eexists _, _. split; [reflexivity|]. left. split; [done|by left].
  - eexists _, _. split; [reflexivity|eauto].
Qed.

Lemma record_ends message mark (c : Crawl) : ∃ c', recordError outside message mark c = (Ret tt, c').
Proof.
  unfold recordError, try_catch. m_unfold. destruct (statement_ends "UPDATE SyncState lastError" c) as (o & c' & -> & [->|(e & -> & He)]); by eexists.
Qed.

Definition on_track (s : Pipe) : Prop :=
  (∃ a, batches a (pl_queue s) (pl_nextHeightToFetch s) ∧ (a ≤ pl_nextHeightToPersist s)%Z) ∧
  (pl_queue s = [] → (tipHeight < pl_nextHeightToFetch s)%Z).

(** The loop gets through, or says that it did not. *)
Definition ends (tracked : Prop) (o : outcome bool) (s : Pipe) : Prop :=
  o = Ret true ∧ ((∀ n, ou_running (outside n) = true) → tracked → (tipHeight < pl_nextHeightToPersist s)%Z ∨ in_error (pl_crawler s)) ∨
  ∃ e, o = Throw e ∧ refused e.

Lemma ends_from (P Q : Prop) o s : ends P o s → ((∀ n, ou_running (outside n) = true) → Q → P) → ends Q o s.
Proof. intros [[-> H1]|?] Hi; [left|by right]. split; [done|]. intros Ht Hq. apply (H1 Ht), (Hi Ht Hq). Qed.

Lemma drain_ends fuel s : (left_to_do s < fuel)%nat → ∃ o s', draining tipHeight fuel s = (o, s') ∧ ends (on_track s) o s'.
Proof.
  revert s. induction fuel as [|fuel IH]; intros s Hfuel; [lia|]. cbn [drain]. m_unfold. unfold get at 1.
  case_bool_decide as Htip; [|eexists _, s; split; [done|]; left; split; [done|]; intros _ _; left; lia].
  destruct (running_view s) as (r & s1 & -> & Hv & Hrun). injection Hv as V1 V2 V3.
  destruct r; [|eexists _, s1; split; [done|]; left; split; [done|]; intros Ht; by specialize (Hrun Ht)].
  destruct (pl_queue s) as [|head rest] eqn:Eq.
  { eexists _, s1. split; [done|]. left. split; [done|]. intros _ [(a & Hb & Ha) Hq]. rewrite Eq in Hb, Hq. simpl in Hb. specialize (Hq eq_refl). lia. }
  unfold set_queue at 1, modify at 1. set (s2 := MkPipeline _ _ _ _ _).
  destruct (head_ends head s2) as (ended & s3 & -> & Q3 & F3 & P3). simpl in Q3, F3, P3. rewrite V3 in P3. rewrite V2 in F3.
  assert (left_to_do s = (if bt_retried head then 1 else 2) + (cost rest + 2 * Z.to_nat (tipHeight + 1 - pl_nextHeightToFetch s)))%nat as Hcost.
  { unfold left_to_do. rewrite Eq. unfold cost at 1. cbn [fmap list_fmap sum_list]. change (sum_list_with id) with sum_list.
    change (sum_list ((λ b, if bt_retried b then 1 else 2)%nat <$> rest)) with (cost rest). cbn [id]. lia. }
  destruct ended as [[]|err].
  - destruct (pumps_ends s3) as (s4 & more & -> & Q4 & P4 & B4 & L4 & M4).
    assert (left_to_do s3 < fuel)%nat as Hs3.
    { unfold left_to_do. rewrite Q3, F3. destruct (bt_retried head); lia. }
    destruct (IH s4) as (o & s' & Hr & Hgood); [lia|]. exists o, s'. split; [exact Hr|]. eapply ends_from; [exact Hgood|]. intros Ht [(a & Hb & Ha) Hq].
    rewrite Eq in Hb. simpl in Hb. destruct Hb as (<- & Hft & Hw & Hb). destruct (P3 Hw Ha Hft) as [_ Hto]. specialize (Hto Ht eq_refl).
    split; [|by apply M4]. exists (bt_to head + 1)%Z. rewrite P4, Hto. split; [|done]. rewrite Q4, Q3.
    eapply batches_app; [exact Hb|]. by rewrite <- F3.
  - unfold on_crawler at 1. destruct (record_ends (ex_msg err) true (pl_crawler s3)) as [c1 ->]. unfold on_crawler at 1. cbn [pl_crawler].
    destruct (state_ends c1) as (o2 & c2 & -> & [->|(e & -> & He)]); [|eexists _, _; split; [reflexivity|right; eauto]].
    set (s4 := MkPipeline _ _ _ _ _). case_bool_decide as Hten; [eexists _, s4; split; [done|]; left; split; [done|]; intros _ _; right; by right|].
    assert (pl_queue s4 = rest ∧ pl_nextHeightToFetch s4 = pl_nextHeightToFetch s ∧ pl_nextHeightToPersist s4 = pl_nextHeightToPersist s3)
      as (Q4 & F4 & P4) by (unfold s4; simpl; by rewrite Q3, F3). destruct (bt_retried head).
    + unfold get at 1. unfold haltAt, on_crawler, modify. cbn [pl_crawler pl_nextHeightToPersist].
      destruct (isTransientError err); cbv beta iota; cbn [pl_crawler];
        match goal with |- context [mark_status _ _ ?c] => destruct (mark_ends c) as (o5 & c5 & -> & [[-> Hin]|(e & -> & He)]) end;
        (eexists _, _; split; [reflexivity|]); [left; by split; [|right]|right; eauto|left; by split; [|right]|right; eauto].
    + destruct (prefetch_whole (bt_from head) (bt_to head) true (pl_crawler s4)) as (b & c & Hb & B1 & B2 & B3 & B4).
      unfold on_crawler at 1. rewrite Hb. unfold get at 1, set_queue at 1, modify at 1. cbn [pl_crawler pl_queue pl_nextHeightToFetch pl_nextHeightToPersist].
      set (s5 := MkPipeline _ _ _ _ _). destruct (pumps_ends s5) as (s6 & more & -> & Q6 & P6 & B6 & L6 & M6).
      assert (left_to_do s5 < fuel)%nat as Hs5.
      { unfold left_to_do, s5. cbn [pl_queue pl_nextHeightToFetch]. rewrite Q4, F4. unfold cost at 1. cbn [fmap list_fmap sum_list]. rewrite B3.
        change (sum_list ((λ b, if bt_retried b then 1 else 2)%nat <$> rest)) with (cost rest). cbn [id]. lia. }
      destruct (IH s6) as (o & s' & Hr & Hgood); [lia|]. exists o, s'. split; [exact Hr|]. eapply ends_from; [exact Hgood|]. intros Ht [(a & Hba & Ha) Hq].
      rewrite Eq in Hba. simpl in Hba. destruct Hba as (<- & Hft & Hw & Hba). destruct (P3 Hw Ha Hft) as [Hfrom _].
      split; [|by apply M6]. exists (bt_from head). rewrite P6. unfold s5. cbn [pl_nextHeightToPersist]. rewrite P4. split; [|done].
      rewrite Q6. eapply batches_app; [|exact B6]. unfold s5. cbn [pl_queue pl_nextHeightToFetch batches]. rewrite B1, B2, Q4, F4. done.
Qed.

Lemma pipeline_ends startHeight (c : Crawl) : ∃ o s', pipelining startHeight tipHeight (start_pipeline c startHeight) = (o, s') ∧ ends True o s'.
Proof.
  unfold pipeline. m_unfold. destruct (pumps_ends (start_pipeline c startHeight)) as (s1 & more & -> & Q & P & B & L & Mq).
  destruct (drain_ends (pipeline_fuel startHeight tipHeight) s1) as (o & s' & Hr & Hgood).
  { eapply Nat.le_lt_trans; [exact L|]. unfold left_to_do, pipeline_fuel. simpl. lia. }
  exists o, s'. split; [exact Hr|]. eapply ends_from; [exact Hgood|]. intros Ht _. split; [|by apply Mq]. exists startHeight. rewrite Q, P. split; [exact B|done].
Qed.

(** Catching up ends: each batch is fetched at most twice, so whatever the
    node and the database answer the loop comes to its end within the fuel of
    two passes per height, and the catch-up returns the number of blocks, or
    throws the error of a statement on SyncState. *)
Theorem catch_up_ends startHeight (c : Crawl) :
  ∃ o s', pipelining startHeight tipHeight (start_pipeline c startHeight) = (o, s') ∧ o ≠ Ret false ∧
    ∃ r, runCatchUpPipeline decode_metadata registry_pallets decode_events decode_digest header_hash decodeAuthorities sr25519Verify bech32m
      dustInitialNonce blake2b network palletConfig config outside startHeight tipHeight c = (r, pl_crawler s') ∧
      (r = Ret (pl_processed s') ∨ ∃ e, r = Throw e ∧ refused e).
Proof.
  destruct (pipeline_ends startHeight c) as (o & s' & Hr & Hends). exists o, s'. split; [done|].
  unfold runCatchUpPipeline. rewrite Hr. destruct Hends as [[-> _]|(e & -> & He)]; (split; [done|]); eexists; (split; [reflexivity|]); eauto.
Qed.

End Ends.

(** ** The finalized head *)

Section Reaches.
Context {Registry : Type}.
Context (decode_metadata : string → outcome Registry) (registry_pallets : Registry → outcome (list (string * option Z)))
  (decode_events : Registry → string → outcome (list EventRecord)) (decode_digest : BlockHeader → outcome (list DigestItem))
  (header_hash : BlockHeader → outcome (list Z)) (decodeAuthorities : list Z → outcome (list string))
  (sr25519Verify : list Z → list Z → string → bool) (bech32m : string → list Z → outcome string)
  (dustInitialNonce : Z → string → outcome (string + list Z)) (blake2b : list Z → list Z) (network : string)
  (palletConfig : option PalletMap) (config : CrawlerConfig) (outside : nat → Outside).
Context `{ScanOrder}.

Abbreviation Crawl := (Crawler (Registry:=Registry)).
Abbreviation pipelining := (pipeline decode_metadata registry_pallets decode_events decode_digest header_hash decodeAuthorities sr25519Verify bech32m dustInitialNonce blake2b network palletConfig config outside).
Abbreviation pipeline_from := (runCatchUpPipeline decode_metadata registry_pallets decode_events decode_digest header_hash decodeAuthorities
  sr25519Verify bech32m dustInitialNonce blake2b network palletConfig config outside).
Abbreviation to_head := (catch_up_to_head decode_metadata registry_pallets decode_events decode_digest header_hash decodeAuthorities
  sr25519Verify bech32m dustInitialNonce blake2b network palletConfig config outside).
Abbreviation catching_up := (runCatchUp decode_metadata registry_pallets decode_events decode_digest header_hash decodeAuthorities
  sr25519Verify bech32m dustInitialNonce blake2b network palletConfig config outside).
Abbreviation refused := (refused outside).
Abbreviation anchors := (anchors config).

(** The node did not name a finalized head with a readable number. *)
Definition asked_in_vain (e : exn) : Prop := ∃ n,
  n_getFinalizedHead (ou_node (outside n)) = Throw e ∨ ∃ hash,
  n_getHeader (ou_node (outside n)) hash = Throw e ∨ n_getHeader (ou_node (outside n)) hash = Ret None ∧ e = undefined_header ∨
  ∃ hd, n_getHeader (ou_node (outside n)) hash = Ret (Some hd) ∧ parseBlockNumber (hd_number hd) = Throw e.

Lemma retry_throws {S A} (run : nat → M S A) left i e0 s e s' :
  with_retry left i e0 run s = (Throw e, s') → left = 0%nat ∨ ∃ j s1 s2, run j s1 = (Throw e, s2).
Proof.
  revert i e0 s. induction left as [|left IH]; intros i e0 s Hr; [by left|right]. cbn [with_retry] in Hr.
  destruct (run i s) as [[b|err] s1] eqn:E; [done|]. destruct (isTransientError err); [|injection Hr as -> ->; eauto].
  destruct left as [|left]; [injection Hr as -> ->; eauto|]. by destruct (IH _ _ _ Hr) as [?|?].
Qed.

Lemma ask_throws {A} (ask : Node → outcome A) label (c : Crawl) e c' : (0 < cf_maxRetries config)%nat →
  withRetry (cf_maxRetries config) label (λ _, o ← look outside; lift (ask (ou_node o))) c = (Throw e, c') →
  ∃ n, ask (ou_node (outside n)) = Throw e.
Proof.
  intros Hmax [?|(j & c1 & c2 & [(o & c3 & E1 & E2)|(e1 & E1 & _)]%bind_cases)]%retry_throws; [lia| |done].
  injection E1 as <- _. injection E2 as E2 _. eauto.
Qed.

Lemma ask_answers {A} (ask : Node → outcome A) label (c : Crawl) a c' :
  withRetry (cf_maxRetries config) label (λ _, o ← look outside; lift (ask (ou_node o))) c = (Ret a, c') →
  ∃ n, ask (ou_node (outside n)) = Ret a.
Proof. intros (j & c1 & (o & c3 & E1 & E2)%bind_ret_inv)%retry_run. injection E1 as <- _. injection E2 as E2 _. eauto. Qed.

Lemma state_db (c a c' : Crawl) : getSyncState outside c = (Ret a, c') → cw_db a = cw_db c.
Proof. unfold getSyncState, sync_statement. m_unfold. unfold look, get. cbv beta iota. destruct (ca_fault _ _); [done|]. by intros [= <- _]. Qed.

(** What a catch-up throws: the error of a statement, or of a lookup. *)
Lemma head_throws (c : Crawl) e c' : (0 < cf_maxRetries config)%nat → to_head c = (Throw e, c') →
  refused e ∨ asked_in_vain e ∨ anchors (next_height (cw_db c)).
Proof.
  intros Hmax Hr. apply bind_cases in Hr as [(a & c1 & E1 & Hr)|(e1 & E1 & [= <-])].
  2:{ left. destruct (state_ends outside c) as (o & c2 & E & [->|(e1 & -> & He)]); rewrite E in E1; [done|by injection E1 as -> _]. }
  apply state_db in E1.
  apply bind_cases in Hr as [(hash & c2 & E2 & Hr)|(e2 & E2 & [= <-])].
  2:{ apply ask_throws in E2 as [n Hn]; [|done]. right; left. exists n. by left. }
  apply bind_cases in Hr as [(hd & c3 & E3 & Hr)|(e3 & E3 & [= <-])].
  2:{ apply (ask_throws (λ node, n_getHeader node hash)) in E3 as [n Hn]; [|done]. right; left. exists n. right. exists hash. by left. }
  apply (ask_answers (λ node, n_getHeader node hash)) in E3 as [n Hn].
  destruct hd as [hd|]; [|injection Hr as <- _; right; left; exists n; right; exists hash; right; by left].
  apply bind_cases in Hr as [(tip & c4 & E4 & Hr)|(e4 & E4 & [= <-])].
  2:{ injection E4 as E4 _. right; left. exists n. right. exists hash. right; right. eauto. }
  change (getCatchUpStartHeight (ix_sync (cw_db a))) with (next_height (cw_db a)) in Hr. rewrite E1 in Hr.
  destruct (decide (anchors (next_height (cw_db c)))) as [|Hno]; [by right; right|left].
  assert (bool_decide (next_height (cw_db c) = 0%Z) && bool_decide (0 < cf_startHeight config)%Z = false) as Hb.
  { apply andb_false_iff. rewrite !bool_decide_eq_false. apply not_and_l. exact Hno. }
  rewrite Hb in Hr. apply bind_cases in Hr as [(seeded & c5 & E5 & Hr)|(e5 & E5 & _)]; [|done]. injection E5 as <- <-.
  clear Hb. cbv beta zeta iota in Hr. case_bool_decide; [done|]. apply bind_cases in Hr as [([] & c6 & E6 & Hr)|(e6 & E6 & [= <-])].
  2:{ destruct (statement_ends outside "UPDATE SyncState syncing" c4) as (o & c7 & E & [->|(e7 & -> & He)]); rewrite E in E6; [done|]. by injection E6 as -> _. }
  apply bind_cases in Hr as [([] & c7 & E7 & Hr)|(e7 & E7 & _)]; [|done].
  destruct (catch_up_ends decode_metadata registry_pallets decode_events decode_digest header_hash decodeAuthorities sr25519Verify bech32m
    dustInitialNonce blake2b network palletConfig config outside tip (next_height (cw_db c)) c7) as (o & s & _ & _ & r & E & [->|(e8 & -> & He)]);
    rewrite E in Hr; [done|]. by injection Hr as -> _.
Qed.

Context (height_of : string → Z) (canon : Z → string) (finalized : Z) (before : string → Prop).
Hypothesis Hhonest : ∀ n, honest height_of canon finalized (ou_node (outside n)).
Hypothesis Hheaders : ∀ n, honest_headers height_of finalized (ou_node (outside n)).
Let uuid (n : nat) : RowName → string := ca_uuid (ou_call (outside n)).
Hypothesis Hids : ∀ n, Inj (=) (=) (uuid n) ∧ ∀ x, uuid n x ≠ EmptyString ∧ ¬ before (uuid n x).
Hypothesis Hapart : ∀ n m x y, uuid n x = uuid m y → n = m.

(** A run of the pipeline that returns is past the tip, or in error. *)
Lemma pipeline_reaches start tip (c : Crawl) n c' : (0 ≤ start)%Z → (tip ≤ finalized)%Z →
  (∀ n, ou_running (outside n) = true) → chained height_of (cw_db c) → (∀ k, is_key (cw_db c) k → used outside before (cw_clock c) k) →
  start = next_height (cw_db c) → pipeline_from start tip c = (Ret n, c') →
  later c c' ∧ ((tip < next_height (cw_db c'))%Z ∨ in_error c').
Proof using Hhonest Hids Hapart.
  intros Hstart Htip Ht Hc Hk Hs Hr. unfold runCatchUpPipeline in Hr.
  destruct (pipeline_ends decode_metadata registry_pallets decode_events decode_digest header_hash decodeAuthorities sr25519Verify bech32m
    dustInitialNonce blake2b network palletConfig config outside tip start c) as (o & s & Hp & Hends). rewrite Hp in Hr. injection Hr as Ho <-.
  edestruct (pipeline_goes decode_metadata registry_pallets decode_events decode_digest header_hash decodeAuthorities sr25519Verify bech32m
    dustInitialNonce blake2b network palletConfig config outside height_of canon start tip Hstart
    (λ n, honest_below _ _ _ _ _ Htip (Hhonest n)) before Hids Hapart c o s Hc Hk Hs Hp) as [[_ Hper _ _] Hl].
  split; [done|]. destruct Hends as [[-> Hend]|(e & -> & _)]; [|done]. destruct (Hend Ht I) as [Hlt|?]; [left; lia|by right].
Qed.

(** C11. A catch-up that nobody stops reaches the finalized head: when it
    returns, every height from where the index ended up to a finalized head that
    the node reported during the run is indexed, or SyncState says that it is not
    (status error, or more than ten errors in a row). When it throws, the error is
    that of a refused statement of the database or of a lookup of the finalized
    head, or the index was empty and is to begin at an anchor. A batch that failed
    once is not skipped, and the loop does not run out of its fuel. No block has
    been found to be poisoned, and nothing else writes the index meanwhile. *)
Theorem catch_up_reaches_the_head c r c' :
  (∀ n, ou_running (outside n) = true) → (0 < cf_maxRetries config)%nat → cw_poisonBlock c = None →
  chained height_of (cw_db c) → (∀ k, is_key (cw_db c) k → before k) → catching_up c = (r, c') →
  match r with
  | Ret _ => (∃ hash, reported outside c c' hash ∧
      ∀ h, (first_height config (next_height (cw_db c)) ≤ h ≤ height_of hash)%Z → has_block (canon h) (cw_db c')) ∨ in_error c'
  | Throw e => refused e ∨ asked_in_vain e ∨ anchors (next_height (cw_db c))
  end.
Proof using Hhonest Hheaders Hids Hapart.
  intros Ht Hmax Hpoison Hc Hk [(_ & _ & Hp)|(c2 & Hr & -> & _)]%run_cases; [by rewrite Hpoison in Hp; destruct Hp|].
  destruct r as [n|e]; [|by apply (head_throws (with_flags true None c)) in Hr].
  set (c0 := with_flags true None c) in *. assert (∀ k, is_key (cw_db c0) k → used outside before (cw_clock c0) k) as Hk0 by (intros k ?; left; auto).
  pose proof (head_follows decode_metadata registry_pallets decode_events decode_digest header_hash decodeAuthorities sr25519Verify bech32m
    dustInitialNonce blake2b network palletConfig config outside height_of canon finalized before Hhonest Hheaders Hids Hapart c0 Hc Hk0 _ _ Hr) as (_ & _ & Hfrom).
  destruct (head_start decode_metadata registry_pallets decode_events decode_digest header_hash decodeAuthorities sr25519Verify bech32m
    dustInitialNonce blake2b network palletConfig config outside height_of canon finalized before Hhonest Hheaders Hids Hapart c0 Hc Hk0 _ _ Hr)
    as [(_ & _ & Hno)|(start & hash & c1 & (Hready & _ & Hrep & Hn & Hle & _) & Hp)].
  { left. exact (Hno _ eq_refl). }
  pose proof (next_height_spec height_of _ (rd_chained _ _ _ _ _ _ _ Hready)) as [Hpos _]. rewrite Hn in Hpos.
  destruct (pipeline_reaches start (height_of hash) c1 n c2 Hpos (proj2 Hle) Ht (rd_chained _ _ _ _ _ _ _ Hready) (rd_keys _ _ _ _ _ _ _ Hready) (eq_sym Hn) Hp)
    as [Hl [Hlt|Herr]]; [left|by right].
  exists hash. split; [by eapply (reported_later outside c0 c1 c2)|]. intros h Hh. apply Hfrom. change (cw_db c0) with (cw_db c). lia.
Qed.
End Reaches.

(** ** Concrete runs *)

#[local] Existing Instance key_order.

(** The chain: the hash of a block is its height's text. *)
Definition chain_hash (h : Z) : string := "0x" +:+ pretty h.
Definition chain_height (hash : string) : Z :=
  match hash with String _ (String _ digits) => toBigInt (JStr digits) | _ => (-1)%Z end.

Lemma chain_height_hash h : chain_height (chain_hash h) = h.
Proof. unfold chain_height, chain_hash. simpl. apply toBigInt_pretty. Qed.

Definition chain_tip : Z := 3.

(** Heights the node knows, in its headers' notation. *)
Definition chain_number (h : Z) : string :=
  if bool_decide (0 ≤ h)%Z then default "none" (["0x0"; "0x1"; "0x2"; "0x3"] !! Z.to_nat h) else "none".

Lemma chain_number_parses h t : parseBlockNumber (chain_number h) = Ret t → h = t.
Proof.
  unfold chain_number. case_bool_decide as Hh; [|by vm_compute]. rewrite <- (Z2Nat.id h Hh) at 2.
  destruct (Z.to_nat h) as [|[|[|[|n]]]]; [intros [= <-]; reflexivity..|]. by vm_compute.
Qed.

Definition chain_block (hash : string) : SignedBlock :=
  MkSignedBlock (MkHeader (chain_hash (chain_height hash - 1)) (chain_number (chain_height hash)) "0xroot" []) [].

Definition chain_node : Node :=
  MkNode (λ h, Ret (if bool_decide (h ≤ chain_tip)%Z then Some (chain_hash h) else None)) (Ret (chain_hash chain_tip))
    (λ hash, Ret (Some (sb_header (chain_block hash)))) (λ hash, Ret (Some (chain_block hash)))
    (λ key _, Ret (if bool_decide (key = TIMESTAMP_STORAGE_KEY) then Some "0x00e40b5402000000" else None))
    (λ _, Ret (Some (JObj [("specVersion", JInt 1)]))) (λ _, Ret (JStr "0x6d65")).

Lemma chain_honest : honest chain_height chain_hash chain_tip chain_node.
Proof.
  split.
  - done.
  - intros h hash. simpl. case_bool_decide; congruence.
  - intros h _. apply chain_height_hash.
  - intros hash sb [= <-]. apply chain_height_hash.
Qed.

Lemma chain_headers : honest_headers chain_height chain_tip chain_node.
Proof.
  split.
  - intros hash hd t [= <-]. apply chain_number_parses.
  - intros hash sb t [= <-]. apply chain_number_parses.
  - intros hash [= <-]. rewrite chain_height_hash. done.
Qed.

(** A new identifier per moment and row. *)
Definition moment_id (n : nat) (x : RowName) : string := String "m" (pretty (Npos (encode (n, x)))).

Definition chain_outside (n : nat) : Outside :=
  MkOutside chain_node (MkCall (moment_id n) 99 (λ _, None)) (λ _, None) true "r".

Lemma moment_id_inj n m x y : moment_id n x = moment_id m y → (n, x) = (m, y).
Proof. intros [= Hp]. apply (inj pretty) in Hp. injection Hp as Hp. by apply (inj encode) in Hp. Qed.

Definition no_decoder {A B} (_ : A) : outcome (list B) := Ret [].

Definition chain_config (startHeight : Z) : CrawlerConfig := MkConfig 2 1 2 2 startHeight.

Definition new_crawler : Crawler (Registry:=unit) :=
  MkCrawler 0 (MkProcessor [] [] None [] (new_index example_main)) [] false None 0 None 0 None.

Definition run_catch_up (startHeight : Z) (outside : nat → Outside) : outcome Z * Crawler :=
  runCatchUp (λ _, Ret tt) (λ _, Ret [("System", Some 0%Z)]) (λ _ _, Ret []) no_decoder no_decoder no_decoder (λ _ _ _, false)
    (λ _ _, Throw (js_error "no address")) (λ _ _, Throw (js_error "no nonce")) (λ _, []) "test" None (chain_config startHeight) outside
    new_crawler.
Definition from_genesis : outcome Z * Crawler := run_catch_up 0 chain_outside.

Example four_blocks_indexed :
  from_genesis.1 = Ret 4%Z ∧ next_height (cw_db from_genesis.2) = 4%Z ∧ size (ix_blocks (cw_db from_genesis.2)) = 4.
Proof. vm_compute. done. Qed.

(** From height 2: the anchor is block 1. *)
Example anchored_at_one :
  (run_catch_up 2 chain_outside).1 = Ret 2%Z ∧ next_height (cw_db (run_catch_up 2 chain_outside).2) = 4%Z ∧
  size (ix_blocks (cw_db (run_catch_up 2 chain_outside).2)) = 3.
Proof. vm_compute. done. Qed.

(** The database refuses to store blocks and to record errors: nothing is
    recorded, and the last write of the status makes the run throw. *)
Definition refusing (n : nat) : Outside :=
  MkOutside chain_node (MkCall (moment_id n) 99 (λ name,
    if bool_decide (name ∈ ["SELECT SyncState"; "UPDATE SyncState syncing"]) then None else Some (js_error "disk full")))
    (λ _, None) true "r".

Example unrecorded_error_is_thrown :
  let run := run_catch_up 0 refusing in
  run.1 = Throw (js_error "disk full") ∧ cw_consecutiveErrors run.2 = 0%Z ∧ sy_syncStatus (ix_sync (cw_db run.2)) = "syncing".
Proof. vm_compute. done. Qed.

Lemma new_crawler_chained : chained chain_height (cw_db new_crawler).
Proof. destruct (new_index_consistent chain_height example_main) as [? ? ? _ _]; [by eexists|done]. Qed.

Lemma new_crawler_keys k : is_key (cw_db new_crawler) k → False.
Proof. unfold is_key, new_crawler, cw_db. simpl. rewrite !lookup_empty. by intros [[]|[[]|[[]|[[]|[[]|[]]]]]]. Qed.

Lemma moment_ids n : Inj (=) (=) (ca_uuid (ou_call (chain_outside n))) ∧
  ∀ x, ca_uuid (ou_call (chain_outside n)) x ≠ EmptyString ∧ ¬ False.
Proof. split; [|intros x; by split; [|intros []]]. intros x y He. by apply moment_id_inj in He as [= ->]. Qed.

Lemma moments_apart n m x y : ca_uuid (ou_call (chain_outside n)) x = ca_uuid (ou_call (chain_outside m)) y → n = m.
Proof. intros He. by apply moment_id_inj in He as [= -> _]. Qed.

Lemma catch_up_leaves_no_gap_witness :
  next_height (cw_db from_genesis.2) = 4%Z ∧ ∀ h, (0 ≤ h < next_height (cw_db from_genesis.2))%Z → has_block (chain_hash h) (cw_db from_genesis.2).
Proof.
  split; [vm_compute; reflexivity|].
  refine (proj2 (proj2 (proj2 (catch_up_leaves_no_gap (λ _, Ret tt) (λ _, Ret [("System", Some 0%Z)]) (λ _ _, Ret []) no_decoder no_decoder no_decoder (λ _ _ _, false)
    (λ _ _, Throw (js_error "no address")) (λ _ _, Throw (js_error "no nonce")) (λ _, []) "test" None (chain_config 0) chain_outside
    chain_height chain_hash chain_tip (λ _, False) (λ _, chain_honest) (λ _, chain_headers) moment_ids moments_apart
    new_crawler from_genesis.1 from_genesis.2 new_crawler_chained new_crawler_keys (surjective_pairing from_genesis))))).
Defined.

Lemma catch_up_reaches_the_head_witness :
  (∀ h, (0 ≤ h ≤ chain_tip)%Z → has_block (chain_hash h) (cw_db from_genesis.2)) ∧ sy_syncStatus (ix_sync (cw_db from_genesis.2)) = "syncing".
Proof.
  split; [|vm_compute; reflexivity].
  assert (from_genesis.1 = Ret 4%Z) as Hr by (vm_compute; reflexivity).
  destruct (catch_up_reaches_the_head (λ _, Ret tt) (λ _, Ret [("System", Some 0%Z)]) (λ _ _, Ret []) no_decoder no_decoder no_decoder (λ _ _ _, false)
    (λ _ _, Throw (js_error "no address")) (λ _ _, Throw (js_error "no nonce")) (λ _, []) "test" None (chain_config 0) chain_outside
    chain_height chain_hash chain_tip (λ _, False) (λ _, chain_honest) (λ _, chain_headers) moment_ids moments_apart
    new_crawler (Ret 4%Z) from_genesis.2 (λ _, eq_refl) ltac:(apply Nat.lt_0_1) eq_refl new_crawler_chained new_crawler_keys
    ltac:(rewrite <- Hr; exact (surjective_pairing from_genesis))) as [(hash & (m & _ & Hm) & Hall)|Herr].
  - injection Hm as <-. exact Hall.
  - exfalso. vm_compute in Herr. destruct Herr as [Herr|Herr]; discriminate Herr.
Defined.
