(* ===== verification/Forks.v ===== *)
(** Leaving a fork: the search for the common ancestor, and what the rollback
    keeps of the node's chain. *)
From Stdlib Require Import Ascii.
From S2P Require Import Prelude Db Json Numbers Schema Scale Reconciliation Rollback RollbackFacts BalanceCheck.
From S2P Require Import BlockEvents NodeRpc BlockProcessor StoredBalances IndexMachine IndexProperties BlockFetch Crawler CatchUp IndexExamples.

Set Warnings "-register-all".

Local Open Scope string_scope.
Local Open Scope list_scope.

Section Forks.
Context `{ScanOrder}.
Variable node : Node.
Variable header : BlockHeader.

(** The chain below the new head, as the node's headers link it. *)
Inductive branch (number : Z) : Z → string → Prop :=
| branch_top : branch number (number - 1) (hd_parentHash header)
| branch_down i hash prev : branch number i hash → n_getHeader node hash = Ret (Some prev) →
    branch number (i - 1) (hd_parentHash prev).

Lemma branch_inv number i hash : branch number i hash →
  (i = number - 1)%Z ∧ hash = hd_parentHash header ∨
  ∃ below prev, branch number (i + 1) below ∧ n_getHeader node below = Ret (Some prev) ∧ hash = hd_parentHash prev.
Proof.
  destruct 1 as [|i hash prev Hb Hn]; [by left|]. right. exists hash, prev. by replace (i - 1 + 1)%Z with i by lia.
Qed.

Lemma branch_below number i hash : branch number i hash → (i ≤ number - 1)%Z.
Proof. induction 1; lia. Qed.

Lemma branch_det number i hash hash' : branch number i hash → branch number i hash' → hash = hash'.
Proof.
  intros Hb. revert hash'. induction Hb as [|i hash prev Hb IH Hn]; intros hash' [[Hi ->]|(b & p & Hb' & Hn' & ->)]%branch_inv.
  - done.
  - apply branch_below in Hb'. lia.
  - apply branch_below in Hb. lia.
  - replace (i - 1 + 1)%Z with i in Hb' by lia. apply IH in Hb' as <-. congruence.
Qed.

(** The search stops at the highest block of the branch that is indexed, at most
    100 blocks down. *)
Lemma find_fork_spec d number height hash h :
  branch number (Z.of_nat height) hash → (∀ i hash', branch number i hash' → (Z.of_nat height < i)%Z → ¬ has_block hash' d) →
  (number - Z.of_nat height ≤ 100)%Z → find_fork node d header number height hash = Ret h →
  (0 ≤ h)%Z ∧ (number - h ≤ 100)%Z ∧ (h = 0%Z ∨ (0 < h)%Z ∧ ∃ hash', branch number (h - 1) hash' ∧ has_block hash' d) ∧
  (∀ i hash', branch number i hash' → (Z.max h 1 ≤ i)%Z → ¬ has_block hash' d).
Proof.
  revert hash. induction height as [|height IH]; intros hash Hb Hnone Hdeep Hf; cbn [find_fork] in Hf.
  { injection Hf as <-. split_and!; [done|lia|by left|]. intros i hash' Hi Hle. apply (Hnone i); [done|lia]. }
  case_bool_decide as Hhas.
  - injection Hf as <-. split_and!; [lia|lia| |].
    + right. split; [lia|]. exists hash. split; [|done]. by replace (Z.of_nat (S height) + 1 - 1)%Z with (Z.of_nat (S height)) by lia.
    + intros i hash' Hi Hle. apply (Hnone i); [done|lia].
  - destruct (n_getHeader node hash) as [[prev|]|e] eqn:En; [|done|done]. cbn [mbind outcome_bind] in Hf.
    destruct (is_empty _); [done|]. case_bool_decide as Hd; [done|].
    assert (branch number (Z.of_nat height) (hd_parentHash prev)) as Hb'.
    { replace (Z.of_nat height) with (Z.of_nat (S height) - 1)%Z by lia. by eapply branch_down. }
    apply (IH _ Hb'); [|lia|done]. intros i hash' Hi Hlt. destruct (decide (i = Z.of_nat (S height))) as [->|Hne].
    + by rewrite <- (branch_det _ _ _ _ Hb Hi).
    + apply (Hnone i); [done|lia].
Qed.

Lemma find_fork_point d number h :
  parseBlockNumber (hd_number header) = Ret number → (0 < number)%Z → findForkPoint node header d = Ret h →
  (0 ≤ h)%Z ∧ (number - h ≤ 100)%Z ∧ (h = 0%Z ∨ (0 < h)%Z ∧ ∃ hash, branch number (h - 1) hash ∧ has_block hash d) ∧
  (∀ i hash, branch number i hash → (Z.max h 1 ≤ i)%Z → ¬ has_block hash d).
Proof.
  unfold findForkPoint. intros -> Hpos. cbn [mbind outcome_bind]. intros Hf. eapply find_fork_spec; [..|exact Hf].
  - rewrite Z2Nat.id by lia. constructor.
  - intros i hash Hi. apply branch_below in Hi. lia.
  - lia.
Qed.

(** ** The rollback *)

Variable height_of : string → Z.

Lemma block_at_spec h d b : block_at h d = Some b → ∃ k, ix_blocks d !! k = Some b ∧ b_height b = h.
Proof.
  unfold block_at. destruct (sql_select _ _) as [|[k b0] l] eqn:E; [done|]. intros [= <-].
  assert ((k, b0) ∈ sql_select (λ _ b, bool_decide (b_height b = h)) (ix_blocks d)) as Hin by (rewrite E; apply list_elem_of_here).
  apply elem_of_select in Hin as [Hk Hh%bool_decide_eq_true_1]. eauto.
Qed.

(** A detected fork: blocks of the branch from the fork height on are not
    indexed, and the tip lies at or above it. *)
Lemma reorg_found d r number :
  chained height_of d → parseBlockNumber (hd_number header) = Ret number → (∀ i hash, branch number i hash → height_of hash = i) →
  checkForReorg node header d = Ret (Some r) → (0 < number)%Z →
  (∀ i hash, branch number i hash → (Z.max (ro_forkHeight r) 1 ≤ i)%Z → ¬ has_block hash d) ∧
  (ro_forkHeight r ≤ height_of (ro_oldTipHash r))%Z ∧ sy_lastIndexedHash (ix_sync d) = Some (ro_oldTipHash r).
Proof.
  intros Hc Hnum Hbr Hr Hpos. unfold checkForReorg in Hr.
  destruct (present (sy_lastIndexedHash (ix_sync d))) as [tiphash|] eqn:Et; [|done]. apply present_Some in Et as [Et Hne].
  pose proof (oc_tip _ _ (ch_chain _ _ Hc)) as Htip. rewrite Et in Htip. destruct Htip as (k & b & Hk & <- & Hlast & Hmax).
  pose proof (oc_height _ _ (ch_chain _ _ Hc) _ _ Hk) as (Hbh & _ & _). rewrite Hlast in Hr. cbn [nullish] in Hr.
  case_bool_decide as Hp; [done|]. rewrite Hnum in Hr. cbn [mbind outcome_bind] in Hr. case_bool_decide as Hgap; [done|].
  assert (∀ i hash, branch number i hash → has_block hash d → (i ≤ b_height b)%Z) as Hbelow.
  { intros i hash Hi (k' & b' & Hk' & Hh)%has_block_iff. specialize (Hmax _ _ Hk').
    destruct (oc_height _ _ (ch_chain _ _ Hc) _ _ Hk') as (Hb' & _). rewrite Hh, (Hbr _ _ Hi) in Hb'. lia. }
  assert (∀ r, fork_from node header (b_hash b) d = Ret (Some r) → (number = b_height b + 1 ∨ number ≤ b_height b)%Z →
    (∀ i hash, branch number i hash → (Z.max (ro_forkHeight r) 1 ≤ i)%Z → ¬ has_block hash d) ∧
    (ro_forkHeight r ≤ height_of (ro_oldTipHash r))%Z ∧ Some (b_hash b) = Some (ro_oldTipHash r)) as Hfork.
  { intros r0 Hr0 Hnb. unfold fork_from in Hr0. destruct (findForkPoint node header d) as [h|e] eqn:Ef; [|done]. injection Hr0 as <-. simpl.
    destruct (find_fork_point _ _ _ Hnum Hpos Ef) as (Hh0 & _ & Hanc & Hnone). split_and!; [done| |done]. rewrite <- Hbh.
    destruct Hanc as [->|(Hh & hash & Hi & Hhas)]; [lia|]. pose proof (Hbelow _ _ Hi Hhas). pose proof (branch_below _ _ _ Hi).
    destruct (decide (h - 1 = b_height b)%Z) as [He|]; [|lia]. exfalso.
    assert (number = b_height b + 1)%Z as Hn by lia.
    apply has_block_iff in Hhas as (k' & b' & Hk' & Hh'). destruct (oc_height _ _ (ch_chain _ _ Hc) _ _ Hk') as (Hb' & _).
    rewrite Hh', (Hbr _ _ Hi) in Hb'. assert (k' = k) as -> by (eapply (oc_unique _ _ (ch_chain _ _ Hc)); [done|done|lia]). assert (b' = b) as -> by congruence.
    apply Hp. rewrite Hh'. eapply branch_det; [constructor|]. by replace (number - 1)%Z with (h - 1)%Z by lia. }
  rewrite Et. case_bool_decide as Hle; [|apply Hfork; [done|lia]]. case_bool_decide; [done|]. case_bool_decide as Hpar; [|apply Hfork; [done|lia]].
  destruct (block_at number d) as [local|] eqn:El; [|done].
  destruct (n_getBlockHash node number) as [canonical|]; [|done]. cbn [mbind outcome_bind] in Hr. destruct (present canonical) as [c|]; [|done].
  case_bool_decide; [done|]. injection Hr as <-. simpl. split_and!; [|lia|done].
  intros i hash Hi Hmaxi. apply branch_below in Hi. lia.
Qed.

(** Leaving a fork removes the fork and nothing else: when the crawler finds
    one and rolls back, the old tip is gone, every block of the new head's chain
    that was indexed stays, and what is left lies below the fork height. *)
Theorem reorg_keeps_the_branch now st extra d r number o d' :
  chained height_of d → parseBlockNumber (hd_number header) = Ret number → (0 < number)%Z →
  (∀ i hash, branch number i hash → height_of hash = i) →
  checkForReorg node header d = Ret (Some r) → (0 < ro_forkHeight r)%Z →
  rollbackIndexedDataFromHeight now (ro_forkHeight r) st extra d = (o, d') →
  chained height_of d' ∧ ¬ has_block (ro_oldTipHash r) d' ∧
  (∀ i hash, branch number i hash → has_block hash d → has_block hash d') ∧
  (∀ hash, has_block hash d' → (height_of hash < ro_forkHeight r)%Z).
Proof.
  intros Hc Hnum Hpos Hbr Hr Hh Hroll. destruct (reorg_found d r number Hc Hnum Hbr Hr Hpos) as (Hnone & Hold & _).
  pose proof Hc as [Hl Hg Hch]. destruct (rollback_tables _ _ _ _ _ _ _ Hl Hroll) as (Hl' & Hb & _).
  assert (∀ hash, has_block hash d' → has_block hash d ∧ (height_of hash < ro_forkHeight r)%Z) as Hkept.
  { intros hash (k & b & [Hk Hlt]%Hb & <-)%has_block_iff. split; [apply has_block_iff; eauto|].
    by destruct (oc_height _ _ Hch _ _ Hk) as (<- & _). }
  split_and!.
  - destruct (rollback_sync _ _ _ _ _ _ _ Hroll Hg) as [Hg' _]. split; [done|done|]. exact (rollback_chain _ _ _ _ _ _ _ _ (linked_rooted _ Hl) Hg Hch Hroll).
  - intros [_ Hlt]%Hkept. lia.
  - intros i hash Hi Hhas. assert (i < ro_forkHeight r)%Z as Hlt.
    { apply Z.nle_gt. intros Hle. apply (Hnone _ _ Hi); [lia|done]. }
    apply has_block_iff in Hhas as (k & b & Hk & <-). apply has_block_iff. exists k, b. split; [|done]. apply Hb. split; [done|].
    destruct (oc_height _ _ Hch _ _ Hk) as (-> & _). by rewrite (Hbr _ _ Hi).
  - intros hash Hhas. by apply Hkept.
Qed.
End Forks.

(** ** A fork at height 1 *)

#[local] Existing Instance key_order.

Definition closed_node (headers : list (string * BlockHeader)) : Node :=
  MkNode (λ _, Ret None) (Ret EmptyString) (λ hash, Ret (map_get hash headers)) (λ _, Ret None) (λ _ _, Ret None) (λ _, Ret None) (λ _, Ret JNull).

(** The node's block 1 is not the indexed one; its genesis is. *)
Definition fork_header : BlockHeader := MkHeader "0xf" "0x2" "0xroot" [].
Definition fork_node : Node := closed_node [("0xf", MkHeader "0xa" "0x1" "0xroot" [])].

(** The search ends before it looks at the genesis block, so the rollback removes
    the whole index although the genesis block is common. *)
Example fork_at_one_removes_genesis :
  checkForReorg fork_node fork_header after_b = Ret (Some (MkReorg 0 "0xb" "0xf")) ∧
  block_by_hash "0xa" after_b ≠ None ∧
  block_by_hash "0xa" (rollbackIndexedDataFromHeight 99 0 "syncing" None after_b).2 = None.
Proof. split_and!; [vm_compute; reflexivity|by vm_compute|vm_compute; reflexivity]. Qed.

(** A fork at height 2: the crawler has 0xc where the node has 0xg. *)
Definition block_c : PreparedBlock := example_block "0xc" "0xb" 2.
Definition after_c : IndexDb := (store "c" block_c [] after_b).2.

Definition fork_header_3 : BlockHeader := MkHeader "0xg" "0x3" "0xroot" [].
Definition fork_node_3 : Node := closed_node [("0xg", MkHeader "0xb" "0x2" "0xroot" [])].

Lemma all_below (t : gmap string BlockRow) h :
  forallb (λ kr, bool_decide (b_height kr.2 < h)%Z) (map_to_list t) = true → ∀ k b, t !! k = Some b → (b_height b < h)%Z.
Proof. intros Ht k b Hk. pose proof (map_check (λ _ b, bool_decide (b_height b < h)%Z) t Ht k b Hk) as Hb. by apply bool_decide_eq_true_1 in Hb. Qed.

Lemma after_c_chained : chained example_height after_c.
Proof.
  assert (consistent example_height after_c) as [? ? ? _ _]; [|done].
  eapply (persist_consistent example_height (λ _, []) (ids "c") 99 (λ _, None) block_c [] (None, None) true after_b); [..|apply surjective_pairing].
  - apply (ids_fresh ["a"%char; "b"%char]); [vm_compute; reflexivity|]. other_letters.
  - by split.
  - apply fits_small. vm_compute. reflexivity.
  - right. right. split; [done|]. apply all_below. vm_compute. reflexivity.
  - eapply persist_consistent; [apply ids_b_fresh|apply block_b_from_node|apply after_a_fits|apply block_b_next|apply after_a_consistent|apply surjective_pairing].
Qed.

Lemma fork_branch i hash : branch fork_node_3 fork_header_3 3 i hash → example_height hash = i.
Proof.
  assert (∀ i hash, branch fork_node_3 fork_header_3 3 i hash → (i, hash) = (2%Z, "0xg") ∨ (i, hash) = (1%Z, "0xb")) as Hb.
  { induction 1 as [|j h prev _ [[= -> ->]|[= -> ->]] Hn]; [by left|right|]; vm_compute in Hn; by simplify_eq/=. }
  intros [[= -> ->]|[= -> ->]]%Hb; reflexivity.
Qed.

Lemma fork_found : checkForReorg fork_node_3 fork_header_3 after_c = Ret (Some (MkReorg 2 "0xc" "0xg")).
Proof. vm_compute. reflexivity. Qed.

Lemma reorg_keeps_the_branch_witness :
  has_block "0xb" (rollbackIndexedDataFromHeight 99 2 "syncing" None after_c).2 ∧
  ¬ has_block "0xc" (rollbackIndexedDataFromHeight 99 2 "syncing" None after_c).2.
Proof.
  destruct (reorg_keeps_the_branch fork_node_3 fork_header_3 example_height 99 "syncing" None after_c (MkReorg 2 "0xc" "0xg") 3
    (rollbackIndexedDataFromHeight 99 2 "syncing" None after_c).1 (rollbackIndexedDataFromHeight 99 2 "syncing" None after_c).2
    after_c_chained eq_refl eq_refl fork_branch fork_found eq_refl (surjective_pairing _)) as (_ & H2 & H3 & _).
  split; [|exact H2]. apply (H3 1%Z).
  - apply (branch_down fork_node_3 fork_header_3 3 2 "0xg" (MkHeader "0xb" "0x2" "0xroot" []) (branch_top _ _ 3) eq_refl).
  - vm_compute. by eexists.
Defined.
