(* ===== verification/JobMachine.v ===== *)
(** The life of a background job under every operation that writes its row.

    The job system is a step relation over the database and the rows read so
    far: handlers act on rows they read earlier, so an operation may use any
    snapshot the history holds, however stale. Each step runs one operation of
    the components with an arbitrary environment (clock, worker, database
    faults) to any outcome; the tables of attempt rows and grants and the
    rollback counter may change between steps in any way. *)
From S2P Require Import Prelude Db Json Retry Schema JobKinds JobStore Scheduler ChainOutcome.
From S2P Require Import Reconciliation StartJob Rollback.

Local Open Scope string_scope.

(** ** What an operation may do to the rows *)

Definition evolves (R : relation Job) (d d' : Database) : Prop :=
  ∀ k, option_Forall2 R (jobs d !! k) (jobs d' !! k).

Definition keeps {A} (R : relation Job) (m : M Database A) : Prop :=
  ∀ d o d', m d = (o, d') → evolves R d d'.

Section Keeps.
Context (R : relation Job) `{!PreOrder R}.

#[export] Instance evolves_preorder : PreOrder (evolves R).
Proof.
  split.
  - intros d k. apply reflexivity.
  - intros d1 d2 d3 H12 H23 k. by transitivity (jobs d2 !! k).
Qed.

Lemma evolves_same d d' : jobs d' = jobs d → evolves R d d'.
Proof. intros Hj k. rewrite Hj. apply reflexivity. Qed.

Lemma keeps_same {A} (m : M Database A) : (∀ d o d', m d = (o, d') → jobs d' = jobs d) → keeps R m.
Proof. intros Hm d o d' H. eapply evolves_same, Hm, H. Qed.

Lemma keeps_ret {A} (a : A) : keeps R (mret a).
Proof. apply keeps_same. intros d o d' H. m_unfold. by simplify_eq. Qed.

Lemma keeps_throw {A} x : keeps R (throw x : M Database A).
Proof. apply keeps_same. intros d o d' H. m_unfold. by simplify_eq. Qed.

Lemma keeps_get : keeps R get.
Proof. apply keeps_same. unfold get. intros. by simplify_eq. Qed.

Lemma job_keeps_bind {A B} (m : M Database A) (f : A → M Database B) :
  keeps R m → (∀ a, keeps R (f a)) → keeps R (m ≫= f).
Proof.
  intros Hm Hf d o d' H. m_unfold. destruct (m d) as [[a|x] d1] eqn:E.
  - transitivity d1; [by eapply Hm|by eapply Hf].
  - simplify_eq. by eapply Hm.
Qed.

Lemma keeps_catch {A} (m : M Database A) h : keeps R m → (∀ x, keeps R (h x)) → keeps R (try_catch m h).
Proof.
  intros Hm Hh d o d' H. unfold try_catch in H. destruct (m d) as [[a|x] d1] eqn:E.
  - simplify_eq. by eapply Hm.
  - transitivity d1; [by eapply Hm|by eapply Hh].
Qed.

Lemma keeps_tx {A} (m : M Database A) : keeps R m → keeps R (tx m).
Proof.
  intros Hm d o d' H. unfold tx in H. destruct (m d) as [[a|x] d1] eqn:E; simplify_eq.
  - by eapply Hm.
  - reflexivity.
Qed.

Lemma job_keeps_stmt {A} e s i n (m : M Database A) : keeps R m → keeps R (stmt e s i n m).
Proof. intros Hm. unfold stmt. case_match; [apply keeps_throw|done]. Qed.

Lemma keeps_retry {A} (w : nat → M Database A) : (∀ i, keeps R (w i)) → keeps R (withLockContentionRetry w).
Proof. intros Hw d o d' H. eapply retry_from_preserves in H; [done|apply _|intros; by eapply Hw]. Qed.

Lemma keeps_update_job k c p : (∀ j, c j = true → R j (patch_job p j)) → keeps R (update_job k c p).
Proof.
  intros Hc d o d' H. apply update_job_cases in H as [(j & Hj & Hcj & _ & ->)|(_ & -> & _)]; [|reflexivity].
  intros k'. simpl. destruct (decide (k' = k)) as [->|Hne].
  - rewrite lookup_insert_eq, Hj. constructor. auto.
  - rewrite lookup_insert_ne by done. reflexivity.
Qed.

Lemma keeps_update_jobs w p : (∀ k j, w k j = true → R j (patch_job p j)) → keeps R (update_jobs w p).
Proof.
  intros Hw d o d' H. unfold update_jobs in H.
  destruct (sql_update w (patch_job p) (jobs d)) as [t n] eqn:E. simplify_eq. intros k. simpl.
  pose proof (lookup_sql_update w (patch_job p) (jobs d) k) as Hl. rewrite E in Hl. simpl in Hl. rewrite Hl.
  destruct (jobs d !! k) as [j|]; simpl; [|constructor]. constructor.
  destruct (w k j) eqn:Ew; [eauto|reflexivity].
Qed.

Lemma keeps_update_submission k c p : keeps R (update_submission k c p).
Proof. apply keeps_same. intros d o d' H. unfold update_submission in H. case_match; by simplify_eq. Qed.

Lemma keeps_update_submissions w p : keeps R (update_submissions w p).
Proof. apply keeps_same. intros d o d' H. unfold update_submissions in H. case_match; by simplify_eq. Qed.

Lemma keeps_deployRefund g n : keeps R (deployRefund g n).
Proof. apply keeps_same. intros d o d' H. unfold deployRefund in H. case_match; by simplify_eq. Qed.

Lemma keeps_refund c : keeps R (refund_reservation c).
Proof.
  unfold refund_reservation. repeat case_match; [|apply keeps_ret].
  apply job_keeps_bind; [apply keeps_deployRefund|intros; apply keeps_ret].
Qed.

Lemma keeps_lock : keeps R lockReorgGeneration.
Proof. apply keeps_same. unfold lockReorgGeneration. intros. by simplify_eq. Qed.

Lemma keeps_bump : keeps R bumpReorgGeneration.
Proof. apply keeps_same. unfold bumpReorgGeneration. intros. by simplify_eq. Qed.

Lemma keeps_cas1 {A} k c p (m : M Database A) :
  cas1 k c p m → (∀ i j, c j = true → R j (patch_job (p i) j)) → keeps R m.
Proof.
  intros Hm Hc d o d' H. apply Hm in H as [(i & j & Hj & Hcj & ->)| ->]; [|reflexivity].
  intros k'. simpl. destruct (decide (k' = k)) as [->|Hne].
  - rewrite lookup_insert_eq, Hj. constructor. auto.
  - rewrite lookup_insert_ne by done. reflexivity.
Qed.

(** A compare-and-swap whose condition is joined with what the row is known
    to be now. *)
Lemma evolves_cas k c p (m : M Database nat) d o d' :
  cas k c p m → (∀ i j, jobs d !! k = Some j → c j = true → R j (patch_job (p i) j)) →
  m d = (o, d') → evolves R d d'.
Proof.
  intros Hm Hc H. apply Hm in H as [(i & j & Hj & Hcj & _ & ->)|(-> & _)]; [|reflexivity].
  intros k'. simpl. destruct (decide (k' = k)) as [->|Hne].
  - rewrite lookup_insert_eq, Hj. constructor. auto.
  - rewrite lookup_insert_ne by done. reflexivity.
Qed.
End Keeps.

#[export] Hint Resolve keeps_ret keeps_throw keeps_get job_keeps_bind keeps_catch keeps_tx job_keeps_stmt keeps_retry
  keeps_update_submission keeps_update_submissions keeps_refund keeps_lock keeps_bump : keeps.

(** Composes what the parts of an operation keep; what remains are the row
    updates, each with its WHERE clause. *)
Ltac keeps :=
  repeat lazymatch goal with
  | |- keeps _ (_ ≫= _) => apply job_keeps_bind; [apply _| |intros ?]
  | |- keeps _ (try_catch _ _) => apply keeps_catch; [apply _| |intros ?]
  | |- keeps _ (tx _) => apply keeps_tx; [apply _|]
  | |- keeps _ (stmt _ _ _ _ _) => apply job_keeps_stmt; [apply _|]
  | |- keeps _ (withLockContentionRetry _) => apply keeps_retry; [apply _|intros ?]
  | |- keeps _ (must_change_one _ _) => unfold must_change_one
  | |- keeps _ (if ?b then _ else _) => destruct b eqn:?
  | |- keeps _ (match ?x with _ => _ end) => destruct x eqn:?
  | |- keeps _ (update_job _ _ _) => apply keeps_update_job; [apply _|intros ? ?]
  | |- keeps _ (update_jobs _ _) => apply keeps_update_jobs; [apply _|intros ? ? ?]
  | |- keeps _ (select_job _) => apply keeps_same; [apply _|unfold select_job; by intros; simplify_eq]
  | |- keeps _ _ => first
      [ apply keeps_ret; apply _ | apply keeps_throw; apply _ | apply keeps_get; apply _
      | apply keeps_update_submission; apply _ | apply keeps_update_submissions; apply _
      | apply keeps_refund; apply _ | apply keeps_lock; apply _ | apply keeps_bump; apply _ ]
  end.

(** Splits a WHERE clause into what it says of the row. *)
Ltac where_clause :=
  unfold held, running_mine, crossed_mine, reclaim_guard, settle_where, finalize_where, failed_on_chain,
    has_outcome, status_in, owned_by, in_flight, open_statuses in *;
  repeat match goal with
  | H : _ && _ = true |- _ => apply andb_prop in H as [? ?]
  | H : bool_decide _ = true |- _ => apply bool_decide_eq_true_1 in H
  | H : ?s ∈ [_] |- _ => apply list_elem_of_singleton in H
  end.

(** ** The status automaton *)

Definition is_parent (r : Registry) (j : Job) : bool := workflowParent (jobKindTraits r (kind (j_spec j))).

(** Where a status can go. Only a workflow parent returns to the queue once its
    outcome is open; a failure is reopened only by a rollback of the block it
    was read from. *)
Definition successors (parent : bool) (s : JobStatus) : list JobStatus :=
  match s with
  | Pending => [Running; Failed]
  | Running => [Pending; ExternalExecution; Submitted; ReconciliationRequired; Succeeded; Failed]
  | ExternalExecution => [Submitted; ReconciliationRequired; Succeeded; Failed]
  | Submitted => [ExternalExecution; ReconciliationRequired; Succeeded; Failed]
  | ReconciliationRequired => if parent then [Pending; Succeeded; Failed] else [Succeeded; Failed]
  | Succeeded => []
  | Failed => [ReconciliationRequired]
  end.

Definition CHAIN_EXECUTION_FAILED : string := "CHAIN_EXECUTION_FAILED".

(** A queued job has no lease, a job in flight has an owner. *)
Definition lease_ok (j : Job) : Prop :=
  match j_status j with
  | Pending => j_leaseOwner j = None
  | Running | ExternalExecution | Submitted => is_Some (j_leaseOwner j)
  | _ => True
  end.

Record edge (r : Registry) (j j' : Job) : Prop := {
  edge_spec : j_spec j' = j_spec j;
  edge_status : j_status j' = j_status j ∨ j_status j' ∈ successors (is_parent r j) (j_status j);
  edge_failed : j_status j = Failed →
    (j_status j' = Failed ∧ j_errorCode j' = j_errorCode j) ∨ j_errorCode j = Some CHAIN_EXECUTION_FAILED;
  edge_succeeded : j_status j = Succeeded → j_result j' = j_result j ∧ j_txHash j' = j_txHash j;
  edge_lease : lease_ok j → lease_ok j' }.

Definition path (r : Registry) : relation Job := rtc (edge r).

Lemma edge_path r j j' : edge r j j' → path r j j'.
Proof. apply rtc_once. Qed.

(** Membership in an explicit list. *)
Ltac in_list := solve [repeat first [apply list_elem_of_here | apply list_elem_of_further]].

(** A row update whose new status follows from the WHERE clause's status. *)
Ltac status_edge :=
  apply edge_path; where_clause;
  repeat match goal with
  | H : j_status _ ∈ _ :: _ |- _ => apply elem_of_cons in H as [H|H]
  | H : j_status _ ∈ [] |- _ => by apply not_elem_of_nil in H
  end;
  (split; [by autorewrite with ng| | | |]; unfold lease_ok; simpl in *;
   repeat match goal with H : j_status _ = _ |- _ => rewrite H in * end;
   try done; try (right; in_list);
   try (right; destruct (is_parent _ _); in_list); try (intros; simplify_eq; by eauto)).

Section Automaton.
Context `{ScanOrder} (r : Registry).

Lemma markRunning_path e k : keeps (path r) (markRunning e k).
Proof. unfold markRunning. keeps. status_edge. Qed.

Lemma markSucceeded_path e k v : keeps (path r) (markSucceeded e k v).
Proof. unfold markSucceeded. keeps. status_edge. Qed.

Lemma markFailed_path e k c : keeps (path r) (markFailed e k c).
Proof. unfold markFailed. keeps. status_edge. Qed.

Lemma markReconciliationRequired_path e k c : keeps (path r) (markReconciliationRequired e k c).
Proof. unfold markReconciliationRequired. keeps. status_edge. Qed.

Lemma leaseHeartbeatTick_path e k : keeps (path r) (leaseHeartbeatTick e k).
Proof. unfold leaseHeartbeatTick. keeps. status_edge. Qed.

Lemma markJobExternalExecution_path e k h : keeps (path r) (markJobExternalExecution e k h).
Proof. unfold markJobExternalExecution, getJobById. keeps. status_edge. Qed.

Lemma markJobBroadcastOn_path e k h : keeps (path r) (markJobBroadcastOn e k h).
Proof.
  unfold markJobBroadcastOn. keeps. destruct (negb _); [status_edge|status_edge].
Qed.

Lemma markJobSubmissionRejectedOn_path e k h : keeps (path r) (markJobSubmissionRejectedOn e k h).
Proof. unfold markJobSubmissionRejectedOn. keeps. status_edge. Qed.

Lemma markJobSubmitted_path e k h : keeps (path r) (markJobSubmitted e k h).
Proof. unfold markJobSubmitted. keeps. status_edge. Qed.

Lemma supersedeQueuedJobs_path e b k sid x : keeps (path r) (supersedeQueuedJobs e b k sid x).
Proof. unfold supersedeQueuedJobs. keeps; status_edge. Qed.

Lemma drop_chunks_path e i n m cs : keeps (path r) (drop_chunks e i n m cs).
Proof.
  revert n m. induction cs as [|c cs IH]; intros n m; simpl; unfold drop_chunk; keeps; [status_edge|].
  apply IH.
Qed.

Lemma dropPendingJobsForClosedSessions_path e ids : keeps (path r) (dropPendingJobsForClosedSessions e ids).
Proof. unfold dropPendingJobsForClosedSessions. keeps. apply drop_chunks_path. Qed.

Lemma reclaim_row_path e row : keeps (path r) (reclaim_row e row).
Proof. unfold reclaim_row. keeps. unfold reclaim_patch. case_match; [status_edge|status_edge]. Qed.

Lemma run_updates_path e o i n l :
  Forall (λ wp, ∀ k j, wp.1 k j = true → path r j (patch_job wp.2 j)) l → keeps (path r) (run_updates e o i n l).
Proof.
  intros Hl. revert n. induction Hl as [|[w p] l Hwp Hl IH]; intros n; simpl; keeps; [by eapply Hwp|done].
Qed.

Lemma recoverInterruptedJobs_path e : keeps (path r) (recoverInterruptedJobs e r).
Proof.
  unfold recoverInterruptedJobs. keeps. apply run_updates_path.
  repeat constructor; simpl; intros; status_edge.
Qed.

Lemma settle_row_path e row : keeps (path r) (settle_row e row).
Proof. unfold settle_row, settleTx. keeps. status_edge. Qed.

Lemma refresh_parent_path e row : keeps (path r) (refresh_parent e row).
Proof. unfold refresh_parent. keeps. status_edge. Qed.

(** What the confirming transaction may write into a job. *)
Lemma finalize_patch_path e job o f segs res j :
  finalize_where e f j = true → path r j (patch_job (finalize_patch e job o f segs res) j).
Proof.
  intros Hw. unfold finalize_patch. destruct f, (o_status o), segs; simpl in Hw |- *; status_edge.
Qed.

Lemma finalizeIdentifierKeyedJob_path finalizer_run e row o f g :
  (∀ row ev, keeps (path r) (finalizer_run row ev)) →
  keeps (path r) (finalizeIdentifierKeyedJob finalizer_run e row o f g).
Proof.
  intros Hfin. unfold finalizeIdentifierKeyedJob, finalizeTx. keeps; try apply Hfin; by apply finalize_patch_path.
Qed.

Lemma finalizeLostBroadcast_path e row tip g : keeps (path r) (finalizeLostBroadcast e r row tip g).
Proof. unfold finalizeLostBroadcast, finalizeLostTx. keeps. all: status_edge. Qed.

Lemma confirmTxOf_path e row sub o g : keeps (path r) (confirmTxOf e row sub o g).
Proof.
  unfold confirmTxOf, confirm_patch. keeps. unfold segments_patch. case_match; status_edge.
Qed.

Lemma revertSubmissionEvidence_path h : keeps (path r) (revertSubmissionEvidence h).
Proof. unfold revertSubmissionEvidence. keeps; status_edge. Qed.

(** A parked parent is requeued or failed by its children's outcome; only a
    workflow parent's row is ever read for it. *)
Lemma reconcile_parent_path e row d o d' :
  (∀ j, jobs d !! row.1 = Some j → is_parent r j = true) →
  reconcile_parent e row d = (o, d') → evolves (path r) d d'.
Proof.
  intros Hp H'. unfold reconcile_parent, mbind, M_bind in H'.
  destruct (stmt e _ 0 0 get d) as [[d0|x] d1] eqn:E.
  2:{ simplify_eq. eapply (job_keeps_stmt _ e _ 0 0 get); [|done]. apply keeps_get, _. }
  unfold stmt, get, throw in E. destruct (fault e _ 0 0); simplify_eq.
  destruct (all_succeeded _); [|destruct (first_failed _) as [failed|]; [|m_unfold; by simplify_eq]].
  - eapply (evolves_cas (path r) row.1 (status_in [ReconciliationRequired]) (λ _, requeue_parent_patch)); [| |done].
    + apply cas_retry. intros i. apply (cas_stmt e _ i 0 _ _ (λ _, requeue_parent_patch)).
    + intros _ j Hj Hc. pose proof (Hp j Hj) as Hpar. status_edge. right. rewrite Hpar. in_list.
  - eapply (evolves_cas (path r) row.1 (status_in [ReconciliationRequired]) (λ _, fail_parent_patch e failed _)); [| |done].
    + apply cas_retry. intros i. apply (cas_stmt e _ i 0 _ _ (λ _, fail_parent_patch e failed _)).
    + intros _ j Hj Hc. status_edge.
Qed.
End Automaton.

(** ** Executions *)

(** A configuration: the database, and every job row any handler has read. *)
Definition config : Type := Database * list (string * Job).

Definition runs {A} (m : M Database A) (d d' : Database) : Prop := ∃ o, m d = (o, d').

(** A reconciliation finalizer writes documents, grants and offers, never a job. *)
Definition leaves_jobs (fin : string * Job → ReconciliationEvidence → M Database (option json)) : Prop :=
  ∀ row ev d o d', fin row ev d = (o, d') → jobs d' = jobs d.

Section Machine.
Context `{ScanOrder} (r : Registry).

(** One operation on the database, given the rows read so far. *)
Inductive db_step (seen : list (string * Job)) : Database → Database → Prop :=
| step_insert k spec d d' : runs (insert_job k (new_job spec)) d d' → db_step seen d d'
| step_markRunning e k d d' : runs (markRunning e k) d d' → db_step seen d d'
| step_markSucceeded e k v d d' : runs (markSucceeded e k v) d d' → db_step seen d d'
| step_markFailed e k c d d' : runs (markFailed e k c) d d' → db_step seen d d'
| step_markReconciliationRequired e k c d d' : runs (markReconciliationRequired e k c) d d' → db_step seen d d'
| step_heartbeat e k d d' : runs (leaseHeartbeatTick e k) d d' → db_step seen d d'
| step_markJobExternalExecution e k h d d' : runs (markJobExternalExecution e k h) d d' → db_step seen d d'
| step_markJobBroadcastOn e k h d d' : runs (tx (markJobBroadcastOn e k h)) d d' → db_step seen d d'
| step_markJobSubmissionRejectedOn e k h d d' :
    runs (tx (markJobSubmissionRejectedOn e k h)) d d' → db_step seen d d'
| step_markJobSubmitted e k h d d' : runs (markJobSubmitted e k h) d d' → db_step seen d d'
| step_supersedeQueuedJobs e b k sid x d d' : runs (supersedeQueuedJobs e b k sid x) d d' → db_step seen d d'
| step_dropPendingJobs e ids d d' : runs (dropPendingJobsForClosedSessions e ids) d d' → db_step seen d d'
| step_reclaim e row d d' : row ∈ seen → runs (reclaim_row e row) d d' → db_step seen d d'
| step_recoverInterruptedJobs e d d' : runs (recoverInterruptedJobs e r) d d' → db_step seen d d'
| step_settle e row d d' : row ∈ seen → runs (settle_row e row) d d' → db_step seen d d'
| step_reconcile_parent e row d d' :
    row ∈ seen → parked_parent r row.1 row.2 = true → runs (reconcile_parent e row) d d' → db_step seen d d'
| step_refresh_parent e row d d' : row ∈ seen → runs (refresh_parent e row) d d' → db_step seen d d'
| step_finalize fin e row o f g d d' :
    row ∈ seen → leaves_jobs fin → runs (finalizeIdentifierKeyedJob fin e row o f g) d d' → db_step seen d d'
| step_finalizeLostBroadcast e row tip g d d' :
    row ∈ seen → runs (finalizeLostBroadcast e r row tip g) d d' → db_step seen d d'
| step_confirm e row sub o g d d' : row ∈ seen → runs (tx (confirmTxOf e row sub o g)) d d' → db_step seen d d'
| step_rollback h d d' :
    runs (_ ← bumpReorgGeneration; revertSubmissionEvidence h) d d' → db_step seen d d'
| step_other d d' : jobs d' = jobs d → db_step seen d d'.

Inductive step : config → config → Prop :=
| step_read d seen k j : jobs d !! k = Some j → step (d, seen) (d, (k, j) :: seen)
| step_run d d' seen : db_step seen d d' → step (d, seen) (d', seen).

(** Every row read is still there, with the columns of its insertion. *)
Definition reads_ok (c : config) : Prop :=
  ∀ k j, (k, j) ∈ c.2 → ∃ j', jobs c.1 !! k = Some j' ∧ j_spec j' = j_spec j.

Lemma path_spec j j' : path r j j' → j_spec j' = j_spec j.
Proof. induction 1 as [|j j1 j2 He _ IH]; [done|]. rewrite IH. by apply (edge_spec r). Qed.

(** The rows present evolve along the automaton; a row that appears is new. *)
Definition grows (d d' : Database) : Prop :=
  ∀ k, match jobs d !! k, jobs d' !! k with
       | Some j, Some j' => path r j j'
       | None, Some j' => ∃ spec, j' = new_job spec
       | None, None => True
       | Some _, None => False
       end.

Lemma evolves_grows d d' : evolves (path r) d d' → grows d d'.
Proof. intros He k. by destruct (He k). Qed.

Lemma keeps_evolves {A} (m : M Database A) d d' : keeps (path r) m → runs m d d' → evolves (path r) d d'.
Proof. intros Hm [o Ho]. by eapply Hm. Qed.

Lemma insert_grows k spec d d' : runs (insert_job k (new_job spec)) d d' → grows d d'.
Proof.
  intros [o Ho]. unfold insert_job in Ho. destruct (bool_decide (is_Some (jobs d !! k))) eqn:E; simpl in Ho.
  { simplify_eq. by apply evolves_grows. }
  case_match; simplify_eq; [by apply evolves_grows|]. apply bool_decide_eq_false_1 in E.
  apply eq_None_not_Some in E. intros k'. simpl. destruct (decide (k' = k)) as [->|Hne].
  - rewrite E, lookup_insert_eq. eauto.
  - rewrite lookup_insert_ne by done. destruct (jobs d !! k'); [apply rtc_refl|done].
Qed.

Lemma parked_parent_is_parent k j : parked_parent r k j = true → NoDup (kindTraits r).*1 → is_parent r j = true.
Proof.
  unfold parked_parent, kindsWithTrait, is_parent, jobKindTraits. intros [_ Hk]%andb_prop Hnd.
  apply bool_decide_eq_true_1, list_elem_of_fmap in Hk as ([k' t] & Hk & Hin).
  apply list_elem_of_filter in Hin as [Ht Hin]. simpl in *. subst k'.
  by rewrite (map_get_Some_NoDup _ t).
Qed.

(** A step is an insert, or moves the rows that are there. *)
Lemma db_step_cases seen d d' :
  NoDup (kindTraits r).*1 → reads_ok (d, seen) → db_step seen d d' →
  (∃ k spec, runs (insert_job k (new_job spec)) d d') ∨ evolves (path r) d d'.
Proof.
  intros Hnd Hok Hs. destruct Hs; [left; by eauto|..]; right; try (eapply keeps_evolves; [|done]; solve
    [ apply markRunning_path | apply markSucceeded_path | apply markFailed_path
    | apply markReconciliationRequired_path | apply leaseHeartbeatTick_path
    | apply markJobExternalExecution_path | apply keeps_tx, markJobBroadcastOn_path; apply _
    | apply keeps_tx, markJobSubmissionRejectedOn_path; apply _ | apply markJobSubmitted_path
    | apply supersedeQueuedJobs_path | apply dropPendingJobsForClosedSessions_path
    | apply reclaim_row_path | apply recoverInterruptedJobs_path | apply settle_row_path
    | apply refresh_parent_path | apply finalizeLostBroadcast_path
    | apply keeps_tx, confirmTxOf_path; apply _
    | apply job_keeps_bind; [apply _|apply keeps_bump; apply _|intros; apply revertSubmissionEvidence_path]
    | apply finalizeIdentifierKeyedJob_path; intros; apply keeps_same; [apply _|naive_solver] ]).
  - destruct row as [k j]. destruct (Hok k j) as (j1 & Hj1 & Hspec); [done|].
    match goal with Hr : runs _ _ _ |- _ => destruct Hr as [o Ho] end.
    eapply reconcile_parent_path; [|done].
    intros j2 Hj2. simpl in *. simplify_eq. unfold is_parent. rewrite Hspec.
    by eapply parked_parent_is_parent.
  - by apply evolves_same; [apply _|].
Qed.

Lemma db_step_grows seen d d' :
  NoDup (kindTraits r).*1 → reads_ok (d, seen) → db_step seen d d' → grows d d'.
Proof.
  intros Hnd Hok Hs. destruct (db_step_cases seen d d' Hnd Hok Hs) as [(k & spec & Hi)|He].
  - by eapply insert_grows.
  - by apply evolves_grows.
Qed.

(** Along any execution: rows stay, move along the automaton, and what was
    read stays consistent with what is there. *)
Lemma step_grows c c' :
  NoDup (kindTraits r).*1 → reads_ok c → step c c' → grows c.1 c'.1 ∧ reads_ok c'.
Proof.
  intros Hnd Hok Hst. revert Hok. destruct Hst as [d seen k j Hj|d d' seen Hs]; simpl; intros Hok.
  - split; [by apply evolves_grows|]. intros k' j' [[= -> ->]|Hin]%elem_of_cons; [eauto|by apply Hok].
  - pose proof (db_step_grows _ _ _ Hnd Hok Hs) as Hg. split; [done|]. intros k j Hin.
    destruct (Hok k j Hin) as (j1 & Hj1 & Hspec). specialize (Hg k). simpl in *. rewrite Hj1 in Hg.
    destruct (jobs d' !! k) as [j2|]; [|done]. exists j2. split; [done|].
    rewrite (path_spec _ _ Hg). done.
Qed.

(** Only an insert adds a row, and it adds one whose key is free. *)
Lemma same_dom_keys d d' :
  keys_unique d →
  (∀ k j', jobs d' !! k = Some j' → ∃ j, jobs d !! k = Some j ∧ j_spec j' = j_spec j) → keys_unique d'.
Proof.
  intros Hu Hd k1 k2 j1 j2 H1 H2 Hs. apply Hd in H1 as (j1' & H1 & E1). apply Hd in H2 as (j2' & H2 & E2).
  eapply Hu; [done|done|]. by rewrite <- E1, <- E2.
Qed.

Lemma evolves_keys d d' : keys_unique d → evolves (path r) d d' → keys_unique d'.
Proof.
  intros Hu He. eapply same_dom_keys; [done|]. intros k j' Hj'. specialize (He k). rewrite Hj' in He.
  inversion He as [j ? Hp Hj|]; subst. exists j. split; [done|]. by apply path_spec.
Qed.

Lemma db_step_keys seen d d' :
  NoDup (kindTraits r).*1 → reads_ok (d, seen) → db_step seen d d' → keys_unique d → keys_unique d'.
Proof.
  intros Hnd Hok Hs Hu. destruct (db_step_cases seen d d' Hnd Hok Hs) as [(k & spec & o & Hi)|He].
  - by eapply insert_keys_unique.
  - by eapply evolves_keys.
Qed.

Lemma execution_keys c c' :
  NoDup (kindTraits r).*1 → reads_ok c → rtc step c c' → keys_unique c.1 → keys_unique c'.1.
Proof.
  intros Hnd Hok Hr. induction Hr as [c|c c1 c2 Hs Hr IH]; [done|]. intros Hu.
  destruct (step_grows _ _ Hnd Hok Hs) as [_ Hok1]. apply IH; [done|]. revert Hok Hu.
  destruct Hs as [|d1 d2 seen1 Hs]; [done|]. intros Hok Hu. by eapply db_step_keys.
Qed.

(** What happened to one row during an execution. *)
Lemma execution_path c c' k j :
  NoDup (kindTraits r).*1 → reads_ok c → rtc step c c' → jobs c.1 !! k = Some j →
  ∃ j', jobs c'.1 !! k = Some j' ∧ path r j j'.
Proof.
  intros Hnd Hok Hr. revert j. induction Hr as [c|c c1 c2 Hs Hr IH]; intros j Hj; [by exists j; split; [|constructor]|].
  destruct (step_grows _ _ Hnd Hok Hs) as [Hg Hok1]. specialize (Hg k). rewrite Hj in Hg.
  destruct (jobs c1.1 !! k) as [j1|] eqn:E; [|done].
  destruct (IH Hok1 j1 eq_refl) as (j2 & Hj2 & Hp). exists j2. split; [done|]. by etrans.
Qed.
End Machine.

(** ** What follows along a path *)

Definition crossed (j : Job) : bool := negb (status_in [Pending; Running] j).

Lemma edge_parent r j j' : edge r j j' → is_parent r j' = is_parent r j.
Proof. intros He. unfold is_parent. by rewrite (edge_spec r _ _ He). Qed.

Lemma edge_crossed r j j' : is_parent r j = false → crossed j = true → edge r j j' → crossed j' = true.
Proof.
  intros Hp Hc He. pose proof (edge_status r _ _ He) as Hst. rewrite Hp in Hst. unfold crossed, status_in in *.
  destruct Hst as [->|Hin]; [done|]. destruct (j_status j); simpl in *; try done;
    repeat (apply elem_of_cons in Hin as [->|Hin]; [done|]); by apply not_elem_of_nil in Hin.
Qed.

Lemma path_crossed r j j' : path r j j' → is_parent r j = false → crossed j = true → crossed j' = true.
Proof.
  induction 1 as [|j j1 j2 He _ IH]; [done|]. intros Hp Hc. apply IH; [by rewrite (edge_parent _ _ _ He)|].
  by eapply edge_crossed.
Qed.

Definition failed_for_good (code : option string) (j : Job) : Prop := j_status j = Failed ∧ j_errorCode j = code.

Lemma path_failed r code j j' :
  path r j j' → code ≠ Some CHAIN_EXECUTION_FAILED → failed_for_good code j → failed_for_good code j'.
Proof.
  induction 1 as [|j j1 j2 He _ IH]; [done|]. intros Hc [Hs Hcode]. apply IH; [done|].
  destruct (edge_failed r _ _ He Hs) as [[? ?]|?]; [split; congruence|congruence].
Qed.

Lemma path_succeeded r j j' :
  path r j j' → j_status j = Succeeded →
  j_status j' = Succeeded ∧ j_result j' = j_result j ∧ j_txHash j' = j_txHash j.
Proof.
  induction 1 as [|j j1 j2 He _ IH]; [done|]. intros Hs.
  destruct (edge_succeeded r _ _ He Hs) as [Hr Ht].
  assert (j_status j1 = Succeeded) as Hs1.
  { destruct (edge_status r _ _ He) as [->|Hin]; [done|]. rewrite Hs in Hin. by apply not_elem_of_nil in Hin. }
  destruct (IH Hs1) as (? & -> & ->). by rewrite Hr, Ht.
Qed.

Lemma path_lease r j j' : path r j j' → lease_ok j → lease_ok j'.
Proof. induction 1 as [|j j1 j2 He _ IH]; [done|]. intros Hl. by apply IH, (edge_lease r _ _ He). Qed.

(** ** Operations that can only fail *)

(** The operation throws and changes nothing. *)
Definition refused {A} (m : M Database A) (d : Database) : Prop := ∃ x, m d = (Throw x, d).

Lemma cas1_refused {A} k c p (m : M Database A) d :
  cas1 k c p m → cas1_ret k c p m → (∀ j, jobs d !! k = Some j → c j = false) → refused m d.
Proof.
  intros H1 H2 Hc. unfold refused. destruct (m d) as [[a|x] d'] eqn:E.
  - destruct (H2 _ _ _ E) as (i & j & Hj & Hcj & _). by rewrite (Hc _ Hj) in Hcj.
  - exists x. destruct (H1 _ _ _ E) as [(i & j & Hj & Hcj & _)| ->]; [by rewrite (Hc _ Hj) in Hcj|done].
Qed.

Definition first_broadcast (h : Handle) : Prop := h_firstBoundary h ≠ Some false.

(** The calls by which a worker first steps over the boundary. *)
Definition boundary_refused (d : Database) (k : string) : Prop :=
  ∀ e h, refused (markJobExternalExecution e k h) d ∧
         (first_broadcast h → refused (tx (markJobBroadcastOn e k h)) d).

Lemma tx_refused {A} (m : M Database A) d : refused m d → refused (tx m) d.
Proof. intros [x Hx]. exists x. unfold tx. by rewrite Hx. Qed.

Lemma markJobBroadcastOn_refused e k h d :
  (∀ j, jobs d !! k = Some j → (if bool_decide (h_firstBoundary h = Some false) then crossed_mine e j else running_mine e j) = false) →
  refused (tx (markJobBroadcastOn e k h)) d.
Proof.
  intros Hc. apply tx_refused. destruct (markJobBroadcastOn_cas e k h) as [H1 H2].
  eapply cas1_refused; [done|done|]. intros j Hj. specialize (Hc j Hj). by destruct (bool_decide _).
Qed.

Lemma boundary_refused_crossed d k j : jobs d !! k = Some j → crossed j = true → boundary_refused d k.
Proof.
  intros Hj Hc e h.
  assert (∀ j', jobs d !! k = Some j' → running_mine e j' = false) as Hr.
  { intros j' Hj'. assert (j' = j) as -> by congruence.
    unfold crossed, running_mine, status_in in *. by destruct (j_status j), (owned_by _ _). }
  split.
  - destruct (markJobExternalExecution_cas e k h) as [H1 H2]. by eapply cas1_refused.
  - intros Hf. apply markJobBroadcastOn_refused. intros j' Hj'. by rewrite bool_decide_eq_false_2, Hr.
Qed.

(** A worker stepped over the boundary with this call. *)
Definition crosses (e : Env) (k : string) (h : Handle) (d d' : Database) : Prop :=
  markJobExternalExecution e k h d = (Ret (), d') ∨
  (first_broadcast h ∧ tx (markJobBroadcastOn e k h) d = (Ret (), d')).

Lemma crosses_row e k h d d' :
  crosses e k h d d' →
  ∃ j j', jobs d !! k = Some j ∧ j_status j = Running ∧ jobs d' !! k = Some j' ∧ crossed j' = true ∧ j_spec j' = j_spec j.
Proof.
  intros [Hx|[Hf Hx]].
  - destruct (markJobExternalExecution_cas e k h) as [_ H2]. apply H2 in Hx as (i & j & Hj & Hc & ->).
    unfold running_mine, status_in in Hc. apply andb_prop in Hc as [Hc%bool_decide_eq_true_1 _].
    apply list_elem_of_singleton in Hc. exists j, (patch_job (cross_patch e h i) j). simpl.
    split_and!; [done|done|by rewrite lookup_insert_eq|done|by autorewrite with ng].
  - apply tx_ret in Hx. destruct (markJobBroadcastOn_cas e k h) as [_ H2]. apply H2 in Hx as (i & j & Hj & Hc & ->).
    unfold first_broadcast in Hf. rewrite bool_decide_eq_false_2 in Hc by done. simpl in Hc.
    unfold running_mine, status_in in Hc. apply andb_prop in Hc as [Hc%bool_decide_eq_true_1 _].
    apply list_elem_of_singleton in Hc. eexists j, _. simpl.
    split_and!; [done|done|by rewrite lookup_insert_eq|by destruct (negb _)|by autorewrite with ng].
Qed.

(** ** The properties of the machine *)

Section Properties.
Context `{ScanOrder} (r : Registry) (kinds_distinct : NoDup (kindTraits r).*1).

(** The history starts with nothing read. *)
Lemma history_ok d0 d seen : rtc (step r) (d0, []) (d, seen) → reads_ok (d, seen).
Proof.
  intros Hr. assert (reads_ok (d0, [])) as Hok by (intros k j Hin; by apply not_elem_of_nil in Hin).
  revert Hok. generalize dependent (d0, [] : list (string * Job)). intros c Hr.
  induction Hr as [|c c1 c2 Hs Hr IH]; [done|]. intros Hok. apply IH. by eapply step_grows.
Qed.

(** C1. A job of a kind that is not a workflow parent steps over the
    external-effect boundary at most once: after a first crossing, whatever
    any workers, reconcilers, restarts and rollbacks do, acting on however
    stale snapshots, every later first crossing throws and changes nothing. *)
Theorem external_boundary_once d0 d1 d2 d3 seen seen' e h k j :
  rtc (step r) (d0, []) (d1, seen) →
  jobs d1 !! k = Some j → workflowParent (jobKindTraits r (kind (j_spec j))) = false →
  crosses e k h d1 d2 →
  rtc (step r) (d2, seen) (d3, seen') →
  boundary_refused d3 k.
Proof.
  intros Hhist Hj Hp Hx Hexec. destruct (crosses_row _ _ _ _ _ Hx) as (j1 & j2 & Hj1 & _ & Hj2 & Hc & Hspec).
  simplify_eq. assert (reads_ok (d2, seen)) as Hok.
  { destruct Hx as [Hx|[Hf Hx]].
    - eapply (step_grows r (d1, seen)); [done|by eapply history_ok|]. apply step_run.
      eapply step_markJobExternalExecution. by eexists.
    - eapply (step_grows r (d1, seen)); [done|by eapply history_ok|]. apply step_run.
      eapply step_markJobBroadcastOn. by eexists. }
  destruct (execution_path r _ _ k j2 kinds_distinct Hok Hexec Hj2) as (j3 & Hj3 & Hpath).
  eapply boundary_refused_crossed; [done|]. eapply path_crossed; [done| |done].
  unfold is_parent. by rewrite Hspec.
Qed.

(** C2. A failure other than a failure on chain is final: a job that was
    superseded, dropped, lost its lease for good or failed by its own error
    stays failed with that code, and no worker can broadcast for it again. *)
Theorem failure_is_final d0 d1 d2 seen seen' k j :
  rtc (step r) (d0, []) (d1, seen) → jobs d1 !! k = Some j →
  j_status j = Failed → j_errorCode j ≠ Some CHAIN_EXECUTION_FAILED →
  rtc (step r) (d1, seen) (d2, seen') →
  (∃ j', jobs d2 !! k = Some j' ∧ j_status j' = Failed ∧ j_errorCode j' = j_errorCode j) ∧
  ∀ e h, refused (markJobExternalExecution e k h) d2 ∧ refused (tx (markJobBroadcastOn e k h)) d2.
Proof.
  intros Hhist Hj Hs Hc Hexec.
  destruct (execution_path r _ _ k j kinds_distinct (history_ok _ _ _ Hhist) Hexec Hj) as (j' & Hj' & Hpath).
  destruct (path_failed r (j_errorCode j) _ _ Hpath Hc) as [Hs' Hc']; [done|]. split; [by exists j'|].
  intros e h. split.
  - eapply boundary_refused_crossed; [done|]. unfold crossed, status_in. by rewrite Hs'.
  - apply markJobBroadcastOn_refused. intros j2 Hj2. simpl in *. simplify_eq.
    unfold crossed_mine, running_mine, status_in. rewrite Hs'. by destruct (bool_decide _).
Qed.

(** A succeeded job stays succeeded with its result and its transaction:
    a rollback or a late outcome moves only its chain status. *)
Theorem success_is_final d0 d1 d2 seen seen' k j :
  rtc (step r) (d0, []) (d1, seen) → jobs d1 !! k = Some j → j_status j = Succeeded →
  rtc (step r) (d1, seen) (d2, seen') →
  ∃ j', jobs d2 !! k = Some j' ∧ j_status j' = Succeeded ∧ j_result j' = j_result j ∧
        j_txHash j' = j_txHash j ∧ j_spec j' = j_spec j.
Proof.
  intros Hhist Hj Hs Hexec.
  destruct (execution_path r _ _ k j kinds_distinct (history_ok _ _ _ Hhist) Hexec Hj) as (j' & Hj' & Hpath).
  exists j'. destruct (path_succeeded r _ _ Hpath Hs) as (? & ? & ?). by rewrite (path_spec r _ _ Hpath).
Qed.

(** In every reachable database a queued job holds no lease and a job in
    flight has an owner, so each row in flight is fenced to one worker. *)
Theorem leases_reachable d0 d seen :
  (∀ k j, jobs d0 !! k = Some j → lease_ok j) →
  rtc (step r) (d0, []) (d, seen) →
  ∀ k j, jobs d !! k = Some j → lease_ok j.
Proof.
  intros H0 Hr. assert (∀ c c', rtc (step r) c c' → reads_ok c → (∀ k j, jobs c.1 !! k = Some j → lease_ok j) →
    ∀ k j, jobs c'.1 !! k = Some j → lease_ok j) as Hgen.
  { clear d0 d seen H0 Hr. intros c c' Hr. induction Hr as [|c c1 c2 Hs Hr IH]; [done|]. intros Hok Hl.
    destruct (step_grows r _ _ kinds_distinct Hok Hs) as [Hg Hok1]. apply IH; [done|]. intros k j Hj.
    specialize (Hg k). rewrite Hj in Hg. destruct (jobs c.1 !! k) as [j0|] eqn:E.
    - eapply path_lease; [done|by eapply Hl].
    - destruct Hg as [spec ->]. done. }
  apply (Hgen _ _ Hr); [|done]. intros k j Hin. by apply not_elem_of_nil in Hin.
Qed.

(** In every reachable database no two jobs share session, kind and
    idempotency key, so a key names one job for ever; rows are never deleted and
    the columns of their insertion never change. *)
Theorem idempotency_keys_stay_unique d0 d seen :
  keys_unique d0 → rtc (step r) (d0, []) (d, seen) →
  keys_unique d ∧
  ∀ k j, jobs d0 !! k = Some j → ∃ j', jobs d !! k = Some j' ∧ j_spec j' = j_spec j.
Proof.
  intros Hu Hr. assert (reads_ok (d0, [])) as Hok by (intros k j Hin; by apply not_elem_of_nil in Hin). split.
  - by apply (execution_keys r _ _ kinds_distinct Hok Hr).
  - intros k j Hj. destruct (execution_path r _ _ k j kinds_distinct Hok Hr Hj) as (j' & Hj' & Hp).
    exists j'. split; [done|]. by eapply path_spec.
Qed.
End Properties.

(** ** Examples *)

#[local] Existing Instance key_order.

Lemma full_registry_distinct : NoDup (kindTraits full_registry).*1.
Proof. apply (bool_decide_eq_true_1 (NoDup (kindTraits full_registry).*1)). vm_compute. reflexivity. Qed.

Definition running_db : Database := one_job_db (sample_job "sendNight" Running (Some "a") None).
Definition sample_handle : Handle := MkHandle (Some "sub-1") (Some "0xaa") None.
Definition crossed_db : Database := (markJobExternalExecution (sample_env "a") "job-1" sample_handle running_db).2.
Definition restarted_db : Database := (recoverInterruptedJobs (sample_env "b") full_registry crossed_db).2.

(** A crossing, then a restart of the process: the boundary stays closed. *)
Lemma external_boundary_once_witness : boundary_refused restarted_db "job-1".
Proof.
  apply (external_boundary_once full_registry full_registry_distinct running_db running_db crossed_db restarted_db [] []
    (sample_env "a") sample_handle "job-1" (sample_job "sendNight" Running (Some "a") None)).
  - apply rtc_refl.
  - vm_compute. reflexivity.
  - vm_compute. reflexivity.
  - left. vm_compute. reflexivity.
  - apply rtc_once, step_run, step_recoverInterruptedJobs with (e := sample_env "b"). eexists. apply surjective_pairing.
Defined.

Definition superseded_db : Database :=
  (supersedeQueuedJobs (sample_env "b") false "sendNight" "session-1" None running_db).2.

(** A running job is superseded; its worker can no longer broadcast. *)
Lemma failure_is_final_witness :
  refused (tx (markJobBroadcastOn (sample_env "a") "job-1" sample_handle)) superseded_db.
Proof.
  apply (failure_is_final full_registry full_registry_distinct running_db superseded_db superseded_db [] [] "job-1"
    (patch_job ([SetStatus Failed; SetErrorCode (Some "SUPERSEDED"); SetErrorMessage (Some superseded_message);
       SetFinishedAt (Some 5000%Z)] ++ release_lease)%list (sample_job "sendNight" Running (Some "a") None))).
  - apply rtc_once, step_run, (step_supersedeQueuedJobs _ _ (sample_env "b") false "sendNight" "session-1" None).
    eexists. apply surjective_pairing.
  - vm_compute. reflexivity.
  - vm_compute. reflexivity.
  - vm_compute. discriminate.
  - apply rtc_refl.
Defined.

Definition done_db : Database := (markSucceeded (sample_env "a") "job-1" (JInt 7) running_db).2.
Definition done_job : Job := patch_job (succeed_patch (sample_env "a") (JInt 7) 0) (sample_job "sendNight" Running (Some "a") None).

Lemma success_is_final_witness :
  ∃ j', jobs (recoverInterruptedJobs (sample_env "b") full_registry done_db).2 !! "job-1" = Some j' ∧ j_result j' = Some (JInt 7).
Proof.
  destruct (success_is_final full_registry full_registry_distinct running_db done_db
    (recoverInterruptedJobs (sample_env "b") full_registry done_db).2 [] [] "job-1" done_job)
    as (j' & H1 & _ & H2 & _).
  - apply rtc_once, step_run, (step_markSucceeded _ _ (sample_env "a") "job-1" (JInt 7)). eexists. apply surjective_pairing.
  - vm_compute. reflexivity.
  - vm_compute. reflexivity.
  - apply rtc_once, step_run, step_recoverInterruptedJobs with (e := sample_env "b"). eexists. apply surjective_pairing.
  - exists j'. split; [exact H1|exact H2].
Defined.

Definition pending_db : Database := one_job_db (sample_job "sendNight" Pending None None).

Lemma leases_reachable_witness :
  ∃ j, jobs (markRunning (sample_env "a") "job-1" pending_db).2 !! "job-1" = Some j ∧
       j_status j = Running ∧ lease_ok j.
Proof.
  eexists. split; [vm_compute; reflexivity|]. split; [reflexivity|].
  apply (leases_reachable full_registry full_registry_distinct pending_db
    (markRunning (sample_env "a") "job-1" pending_db).2 []) with (k := "job-1").
  - intros k j Hj. apply one_job_lookup in Hj as [_ ->]. vm_compute. reflexivity.
  - apply rtc_once, step_run, (step_markRunning _ _ (sample_env "a") "job-1"). eexists. apply surjective_pairing.
  - vm_compute. reflexivity.
Defined.

Lemma idempotency_keys_stay_unique_witness :
  keys_unique (markRunning (sample_env "a") "job-1" pending_db).2.
Proof.
  apply (idempotency_keys_stay_unique full_registry full_registry_distinct pending_db _ []).
  - intros k1 k2 j1 j2 H1 H2 _. apply one_job_lookup in H1 as [-> _]. by apply one_job_lookup in H2 as [-> _].
  - apply rtc_once, step_run, (step_markRunning _ _ (sample_env "a") "job-1"). eexists. apply surjective_pairing.
Defined.
