(* ===== verification/Settlement.v ===== *)
(** What start-up recovery and the reconciliation passes promise. *)
From S2P Require Import Prelude Db Json Schema Retry JobKinds JobStore Scheduler ChainOutcome Reconciliation.
From S2P Require Import StartJob Rollback JobMachine.

Local Open Scope string_scope.

(** ** Recovery *)

Section Recovery.
Context (r : Registry).

(** Where a restart leaves a job of the previous process. *)
Definition recovered_status (j : Job) : JobStatus :=
  match j_status j with
  | Pending | Running =>
      if bool_decide (kind (j_spec j) ∈ kindsWithTrait r sessionBound_trait) then Failed
      else if bool_decide (is_Some (commandVersion (j_spec j))) then Pending else Failed
  | ExternalExecution => if bool_decide (j_txHash j = None) then Failed else ReconciliationRequired
  | Submitted => ReconciliationRequired
  | st => st
  end.

(** A partial recovery keeps what the job will be recovered to, its columns of
    insertion and what may be on chain. *)
Definition recovering (j j' : Job) : Prop :=
  j_spec j' = j_spec j ∧ recovered_status j' = recovered_status j ∧ j_txHash j' = j_txHash j ∧
  j_submissionId j' = j_submissionId j ∧ j_attempt j' = j_attempt j ∧ j_result j' = j_result j.

#[export] Instance recovering_preorder : PreOrder recovering.
Proof. split; [intros j; by split_and!|]. unfold recovering. intros j1 j2 j3. intuition congruence. Qed.

(** The statements on one row. *)
Definition apply_stmts (l : list ((string → Job → bool) * list job_set)) (k : string) (j : Job) : Job :=
  foldl (λ (j : Job) (wp : (string → Job → bool) * list job_set), if wp.1 k j then patch_job wp.2 j else j) j l.

Lemma run_updates_rows e o i n l d out d' :
  run_updates e o i n l d = (out, d') →
  ∃ m, (m ≤ length l)%nat ∧ (∀ k, jobs d' !! k = apply_stmts (take m l) k <$> jobs d !! k) ∧
       (out = Ret () → m = length l).
Proof.
  revert n d. induction l as [|[w p] l IH]; intros n d; simpl; m_unfold.
  { intros [= <- <-]. exists 0. split_and!; [lia| |done]. intros k. by destruct (jobs d !! k). }
  unfold stmt, update_jobs, throw. destruct (fault e o i n).
  { intros [= <- <-]. exists 0. split_and!; [lia| |done]. intros k. by destruct (jobs d !! k). }
  destruct (sql_update w (patch_job p) (jobs d)) as [t c] eqn:E. intros Hr.
  destruct (IH _ _ Hr) as (m & Hm & Hrows & Hret). exists (S m). split_and!; [lia| |intros; by rewrite Hret].
  intros k. rewrite Hrows. simpl. pose proof (lookup_sql_update w (patch_job p) (jobs d) k) as Hl.
  rewrite E in Hl. simpl in Hl. rewrite Hl. by destruct (jobs d !! k).
Qed.

(** What the [i]-th statement does to a status, given whether the kind is bound
    to a session, whether the job has a command and whether it has no hash. *)
Definition stmt_status (session command nohash : bool) (st : JobStatus) (i : nat) : JobStatus :=
  match i, st with
  | 0, (Pending | Running) => if session then Failed else st
  | 1, Running => if command then Pending else st
  | 2, (Pending | Running) => if command then st else Failed
  | 3, ExternalExecution => if nohash then Failed else st
  | 4, (ExternalExecution | Submitted) => ReconciliationRequired
  | _, _ => st
  end.

Definition is_session (j : Job) : bool := bool_decide (kind (j_spec j) ∈ kindsWithTrait r sessionBound_trait).
Definition has_command (j : Job) : bool := bool_decide (is_Some (commandVersion (j_spec j))).
Definition no_hash (j : Job) : bool := bool_decide (j_txHash j = None).

Definition kept (j j' : Job) : Prop :=
  j_spec j' = j_spec j ∧ j_txHash j' = j_txHash j ∧ j_submissionId j' = j_submissionId j ∧
  j_attempt j' = j_attempt j ∧ j_result j' = j_result j.

Lemma no_command j : bool_decide (commandVersion (j_spec j) = None) = negb (has_command j).
Proof. unfold has_command. by destruct (commandVersion (j_spec j)). Qed.

Lemma recover_stmt now i (wp : (string → Job → bool) * list job_set) k j :
  recover_stmts r now !! i = Some wp →
  let j' := if wp.1 k j then patch_job wp.2 j else j in
  kept j j' ∧ j_status j' = stmt_status (is_session j) (has_command j) (no_hash j) (j_status j) i.
Proof.
  intros Hi. destruct i as [|[|[|[|[|i]]]]]; [| | | | |done]; injection Hi as <-; cbn [fst snd];
    rewrite ?no_command; fold (is_session j) (has_command j) (no_hash j); unfold status_in;
    destruct (j_status j) eqn:Hst;
    repeat match goal with
    | |- context [bool_decide (?s ∈ ?l)] =>
        lazymatch type of s with
        | JobStatus => let b := eval vm_compute in (bool_decide (s ∈ l)) in change (bool_decide (s ∈ l)) with b
        end
    end; cbn [andb negb];
    destruct (is_session j), (has_command j), (no_hash j); cbn [andb negb]; unfold kept;
    rewrite ?patch_job_spec; split_and!; try done.
Qed.

Lemma kept_flags j j' :
  kept j j' → is_session j' = is_session j ∧ has_command j' = has_command j ∧ no_hash j' = no_hash j.
Proof. intros (Hs & Ht & _). unfold is_session, has_command, no_hash. by rewrite Hs, Ht. Qed.

Lemma apply_stmts_status now k j m :
  let j' := apply_stmts (take m (recover_stmts r now)) k j in
  kept j j' ∧
  j_status j' = foldl (stmt_status (is_session j) (has_command j) (no_hash j)) (j_status j) (seq 0 (min m 5)).
Proof.
  induction m as [|m [IHk IHs]]; [by split_and!|]. destruct (decide (m < 5)%nat) as [Hlt|Hge].
  - destruct (lookup_lt_is_Some_2 (recover_stmts r now) m) as [wp Hwp]; [done|].
    rewrite (take_S_r _ _ wp) by done. unfold apply_stmts in *. rewrite foldl_app. cbn [foldl].
    set (j1 := foldl _ j _) in *. destruct (recover_stmt now m wp k j1 Hwp) as [Hk2 Hs2].
    destruct (kept_flags _ _ IHk) as (H1 & H2 & H3). split.
    + unfold kept in *. intuition congruence.
    + rewrite Hs2, IHs, H1, H2, H3. replace (min (S m) 5) with (S (min m 5)) by lia. rewrite seq_S, foldl_app.
      by replace (min m 5) with m by lia.
  - rewrite !take_ge in * by (simpl; lia). by replace (min (S m) 5) with (min m 5) by lia.
Qed.

(** Every prefix of the statements keeps what the row will be recovered to, and
    all of them recover it. *)
Lemma recover_prefix now k j m :
  recovering j (apply_stmts (take m (recover_stmts r now)) k j) ∧
  (m = 5 → j_status (apply_stmts (take m (recover_stmts r now)) k j) = recovered_status j).
Proof.
  destruct (apply_stmts_status now k j m) as [Hk Hs]. set (j' := apply_stmts _ k j) in *.
  destruct (kept_flags _ _ Hk) as (H1 & H2 & H3). destruct Hk as (? & ? & ? & ? & ?).
  unfold recovering, recovered_status. fold (is_session j') (has_command j') (no_hash j') (is_session j) (has_command j) (no_hash j).
  rewrite H1, H2, H3, Hs. split.
  - split_and!; try done. pose proof (Nat.le_min_r m 5) as Hle.
    destruct (min m 5) as [|[|[|[|[|[|?]]]]]]; [| | | | | |lia];
      by destruct (j_status j), (is_session j), (has_command j), (no_hash j).
  - intros ->. by destruct (j_status j), (is_session j), (has_command j), (no_hash j).
Qed.

Lemma recover_attempt_recovering e o i now d out d' :
  run_updates e o i 0 (recover_stmts r now) d = (out, d') → evolves recovering d d'.
Proof.
  intros Hr. apply run_updates_rows in Hr as (m & _ & Hrows & _). intros k. rewrite Hrows.
  destruct (jobs d !! k) as [j|]; constructor. apply recover_prefix.
Qed.

Lemma recover_retry_rows e left att last d d' :
  retry_from left att last (λ i, run_updates e "recoverInterruptedJobs" i 0 (recover_stmts r (clock e i))) d = (Ret (), d') →
  ∀ k j, jobs d !! k = Some j → ∃ j', jobs d' !! k = Some j' ∧ recovering j j' ∧ j_status j' = recovered_status j.
Proof.
  revert att last d. induction left as [|left IH]; intros att last d Hr k j Hj; cbn [retry_from] in Hr; [done|].
  destruct (run_updates e "recoverInterruptedJobs" att 0 (recover_stmts r (clock e att)) d) as [[[]|x] d1] eqn:E.
  - simplify_eq. apply run_updates_rows in E as (m & _ & Hrows & Hm). specialize (Hm eq_refl). simpl in Hm. subst m.
    specialize (Hrows k). rewrite Hj in Hrows. destruct (recover_prefix (clock e att) k j 5) as [H1 H2].
    eexists. split; [exact Hrows|]. auto.
  - destruct (isLockContention x); [|done]. pose proof (recover_attempt_recovering _ _ _ _ _ _ _ E k) as He.
    rewrite Hj in He. destruct (jobs d1 !! k) as [j1|] eqn:E1; inversion_clear He as [? ? Hrec|].
    destruct (IH _ _ _ Hr k j1 E1) as (j' & Hj' & Hrec' & Hs'). exists j'. split_and!; [done|by transitivity j1|].
    rewrite Hs'. apply Hrec.
Qed.

(** C4. When start-up recovery returns, every job of the dead process is where
    its evidence puts it, although the five updates are not one transaction and
    run again after a lock conflict: session-bound jobs and jobs without a
    command fail, replayable ones are queued, a job whose attempt announced no
    transaction fails, and one that may have a transaction on chain is parked
    for reconciliation, never rerun. Nothing stays running, and the transaction
    hash, attempt row, attempt count and result are kept. *)
Theorem recovery_classifies e d n d' :
  recoverInterruptedJobs e r d = (Ret n, d') →
  ∀ k j, jobs d !! k = Some j →
  ∃ j', jobs d' !! k = Some j' ∧ j_status j' = recovered_status j ∧ j_spec j' = j_spec j ∧
    j_txHash j' = j_txHash j ∧ j_submissionId j' = j_submissionId j ∧ j_attempt j' = j_attempt j ∧
    j_result j' = j_result j ∧ status_in [Running; ExternalExecution; Submitted] j' = false.
Proof.
  unfold recoverInterruptedJobs, get. intros Hr k j Hj. m_unfold.
  assert (∀ j', recovering j j' → j_status j' = recovered_status j →
    status_in [Running; ExternalExecution; Submitted] j' = false) as Hopen.
  { intros j' _ Hs. unfold status_in. rewrite Hs. unfold recovered_status.
    destruct (j_status j); repeat match goal with |- context [if bool_decide ?P then _ else _] => destruct (bool_decide P) end;
      reflexivity. }
  assert (∃ j', jobs d' !! k = Some j' ∧ recovering j j' ∧ j_status j' = recovered_status j) as (j' & Hj' & Hrec & Hs).
  - case_bool_decide as Hc.
    + injection Hr as _ <-. exists j. split_and!; [done|done|].
      apply length_zero_iff_nil in Hc.
      assert (status_in open_statuses j = false) as Hno.
      { destruct (status_in open_statuses j) eqn:E; [|done]. exfalso. apply (not_elem_of_nil (k, j)). rewrite <- Hc.
        by apply elem_of_sql_select. }
      unfold status_in, open_statuses in Hno. unfold recovered_status. by destruct (j_status j).
    + destruct (withLockContentionRetry _ d) as [[[]|x] d1] eqn:E; simplify_eq. by eapply recover_retry_rows.
  - exists j'. unfold recovering in Hrec. destruct Hrec as (H1 & H2 & H3 & H4 & H5 & H6).
    split_and!; try done. by apply Hopen; [unfold recovering|].
Qed.
End Recovery.

(** A restart finds a broadcast job and a replayable running one; the second
    statement list run is needed because the first loses a lock half way. *)
Definition restart_env : Env :=
  MkEnv (λ i, 9000)%Z "w" 60000 600000
    (λ o i n, if bool_decide (i = 0 ∧ n = 3) then Some (Exn "Error" "SQLITE_BUSY" "database is locked") else None).

Definition restart_db : Database :=
  MkDatabase {[ "a" := patch_job [SetTxHash (Some "0x1")] (sample_job "sendNight" Submitted (Some "old") None);
                "b" := sample_job "sendNight" Running (Some "old") None ]} ∅ ∅ None.

Lemma recovery_classifies_witness :
  ∃ j', jobs (recoverInterruptedJobs restart_env full_registry restart_db).2 !! "a" = Some j' ∧
        j_status j' = ReconciliationRequired ∧ j_txHash j' = Some "0x1".
Proof.
  assert (recoverInterruptedJobs restart_env full_registry restart_db =
    (Ret 2, (recoverInterruptedJobs restart_env full_registry restart_db).2)) as H by (vm_compute; reflexivity).
  destruct (recovery_classifies full_registry restart_env restart_db 2 _ H "a"
    (patch_job [SetTxHash (Some "0x1")] (sample_job "sendNight" Submitted (Some "old") None)))
    as (j' & H1 & H2 & _ & H4 & _); [vm_compute; reflexivity|].
  exists j'. split; [exact H1|]. split; [rewrite H2; vm_compute; reflexivity|exact H4].
Defined.

(** ** Frames *)

(** What leaves the jobs as they are. *)
Lemma evolves_eq d d' : evolves eq d d' → jobs d' = jobs d.
Proof. intros He. apply map_eq. intros k. specialize (He k). by destruct He; subst. Qed.

Lemma keeps_eq {A} (m : M Database A) d o d' : keeps eq m → m d = (o, d') → jobs d' = jobs d.
Proof. intros Hm Ho. eapply evolves_eq, Hm, Ho. Qed.

Lemma lock_generation d o d' :
  lockReorgGeneration d = (o, d') →
  o = Ret (generation_of d) ∧ jobs d' = jobs d ∧ submissions d' = submissions d ∧ grants d' = grants d ∧
  generation_of d' = generation_of d.
Proof.
  unfold lockReorgGeneration, generation_of. intros Hl. simplify_eq. simpl. split_and!; try done;
    destruct (reorgGeneration d) as [[n|]|]; done.
Qed.

(** Reading the database first: the read fails, or the rest runs on what is there. *)
Lemma read_then {A} e s i n (f : Database → M Database A) d o d' :
  (stmt e s i n get ≫= f) d = (o, d') → (d' = d ∧ ∃ x, o = Throw x) ∨ f d d = (o, d').
Proof. unfold stmt, get. m_unfold. destruct (fault e s i n); intros; simplify_eq; eauto. Qed.

(** A row update under the generation lock, followed by statements that leave
    the jobs alone: it changes nothing unless the generation is still the one of
    the lookup, and then only the row it names. *)
Lemma locked_update (g : Z) (k : string) (c : Job → bool) (p : list job_set) (rest : nat → M Database nat) d o d' :
  (∀ n, keeps eq (rest n)) →
  (g' ← lockReorgGeneration; if negb (bool_decide (g' = g)) then mret 0 else n ← update_job k c p; rest n) d = (o, d') →
  jobs d' = jobs d ∨
  (generation_of d = g ∧ ∃ j, jobs d !! k = Some j ∧ c j = true ∧ jobs d' = <[k := patch_job p j]> (jobs d)).
Proof.
  intros Hrest Hr. unfold mbind, M_bind in Hr. destruct (lockReorgGeneration d) as [o1 d1] eqn:E.
  apply lock_generation in E as (-> & Hj & _ & _ & Hg). case_bool_decide as Hgen; simpl in Hr.
  - destruct (update_job k c p d1) as [o2 d2] eqn:Eu.
    apply update_job_cases in Eu as [(j & Hk & Hc & -> & ->)|(-> & -> & _)].
    + right. split; [done|]. exists j. rewrite <- Hj. split_and!; [done|done|].
      apply (keeps_eq _ _ _ _ (Hrest 1)) in Hr. by rewrite Hr.
    + left. apply (keeps_eq _ _ _ _ (Hrest 0)) in Hr. congruence.
  - m_unfold. simplify_eq. by left.
Qed.

Section SettlementFacts.
Context `{ScanOrder}.

Lemma finalizeLostTx_jobs e k job sub tip ttl rec g d o d' :
  finalizeLostTx e k job sub tip ttl rec g d = (o, d') →
  jobs d' = jobs d ∨
  (generation_of d = g ∧ ∃ j, jobs d !! k = Some j ∧ j_status j = ReconciliationRequired ∧
     jobs d' = <[k := patch_job (lost_patch e job tip ttl rec) j]> (jobs d)).
Proof.
  intros Hr. unfold finalizeLostTx in Hr. eapply locked_update in Hr as [?|(Hg & j & Hj & Hc & ->)].
  - by left.
  - right. split; [done|]. exists j. split_and!; [done| |done]. by where_clause.
  - intros n. keeps.
Qed.

Lemma finalizeLostBroadcast_jobs e r k job tip g d o d' :
  finalizeLostBroadcast e r (k, job) tip g d = (o, d') →
  jobs d' = jobs d ∨
  (generation_of d = g ∧ ∃ t ttl rec j, tip = Some t ∧
     broadcast_ttl job (attempt_row (j_submissionId job) (j_txHash job) (submissions d)) = Some (ttl, rec) ∧
     (ttl + broadcastExpiryMarginMs e < t)%Z ∧
     j_errorCode job ≠ Some REJECTED_ATTEMPT_BOOKKEEPING_PENDING ∧ is_parent r job = false ∧
     jobs d !! k = Some j ∧ j_status j = ReconciliationRequired ∧
     jobs d' = <[k := patch_job (lost_patch e job t ttl rec) j]> (jobs d)).
Proof.
  unfold finalizeLostBroadcast. intros Hr. destruct tip as [t|]; [|m_unfold; simplify_eq; by left].
  destruct (bool_decide (j_errorCode job = _)) eqn:Ec; [cbn [orb] in Hr; m_unfold; simplify_eq; by left|].
  destruct (workflowParent _) eqn:Ep; cbn [orb] in Hr; [m_unfold; simplify_eq; by left|].
  apply read_then in Hr as [[-> _]|Hr]; [by left|].
  destruct (broadcast_ttl job _) as [[ttl rec]|] eqn:Et; [|m_unfold; simplify_eq; by left].
  case_bool_decide as Hm; [m_unfold; simplify_eq; by left|].
  apply withLockContentionRetry_atomic in Hr; [|intros; by eapply tx_throw].
  destruct Hr as [(i & a & -> & _ & Hr)|(x & -> & ->)]; [|by left]. apply tx_ret in Hr.
  unfold stmt in Hr. case_match; [done|].
  apply finalizeLostTx_jobs in Hr as [?|(Hg & j & Hj & Hs & ->)]; [by left|right].
  apply bool_decide_eq_false_1 in Ec. split; [done|]. exists t, ttl, rec, j. split_and!; try done. lia.
Qed.

Context (fin : string * Job → ReconciliationEvidence → M Database (option json)) (fin_jobs : leaves_jobs fin).

Lemma finalizeTx_jobs e k job sub oc f g d o d' :
  finalizeTx fin e (k, job) sub oc f g d = (o, d') →
  jobs d' = jobs d ∨
  (generation_of d = g ∧ ∃ j segs res, jobs d !! k = Some j ∧ finalize_where e f j = true ∧
     jobs d' = <[k := patch_job (finalize_patch e job oc f segs res) j]> (jobs d)).
Proof using fin_jobs.
  intros Hr. unfold finalizeTx in Hr. cbv zeta in Hr.
  apply bind_cases in Hr as [(g' & d1 & E & Hr)|(x & E & ->)]; apply lock_generation in E as (? & Hj & _ & _ & Hg); simplify_eq.
  case_bool_decide as Hgen; cbn [negb] in Hr; [|m_unfold; simplify_eq; by left].
  match type of Hr with (?m ≫= _) _ = _ => assert (keeps eq m) as Hk end.
  { destruct f, (o_status oc); keeps. apply keeps_same; [apply _|]. intros. by eapply fin_jobs. }
  apply bind_cases in Hr as [(res & d2 & Ef & Hr)|(x & Ef & ->)]; apply (keeps_eq _ _ _ _ Hk) in Ef; [|left; congruence].
  apply bind_cases in Hr as [(n & d3 & Eu & Hr)|(x & Eu & ->)].
  2:{ apply update_job_cases in Eu as [(? & _ & _ & ? & _)|[? _]]; done. }
  match type of Hr with ?m _ = _ => assert (keeps eq m) as Hk2 by keeps end.
  apply (keeps_eq _ _ _ _ Hk2) in Hr.
  apply update_job_cases in Eu as [(j & Hjk & Hc & _ & ->)|(_ & -> & _)]; [right|left; congruence].
  split; [done|]. exists j, (chainSegmentsOf (sub ≫= λ s, s_submitIntentData s.2) oc), res.
  rewrite <- Hj, <- Ef. done.
Qed.

Lemma finalizeIdentifierKeyedJob_jobs e k job oc f g d o d' :
  finalizeIdentifierKeyedJob fin e (k, job) oc f g d = (o, d') →
  jobs d' = jobs d ∨
  (generation_of d = g ∧ ∃ j segs res, jobs d !! k = Some j ∧ finalize_where e f j = true ∧
     jobs d' = <[k := patch_job (finalize_patch e job oc f segs res) j]> (jobs d)).
Proof using fin_jobs.
  unfold finalizeIdentifierKeyedJob. intros Hr.
  apply read_then in Hr as [[-> _]|Hr]; [by left|]. cbv zeta in Hr.
  apply withLockContentionRetry_atomic in Hr; [|intros; by eapply tx_throw].
  destruct Hr as [(i & a & -> & _ & Hr)|(x & -> & ->)]; [|by left]. apply tx_ret in Hr.
  unfold stmt in Hr. case_match; [done|]. by eapply finalizeTx_jobs.
Qed.

(** ** A rollback between lookup and write *)

Definition same_tables (d d' : Database) : Prop :=
  jobs d' = jobs d ∧ submissions d' = submissions d ∧ grants d' = grants d.

Lemma stale_locked {A} (g : Z) (a : A) (m : M Database A) d o d' :
  generation_of d ≠ g →
  (g' ← lockReorgGeneration; if negb (bool_decide (g' = g)) then mret a else m) d = (o, d') → same_tables d d'.
Proof.
  intros Hg Hr. apply bind_cases in Hr as [(g' & d1 & E & Hr)|(x & E & ->)]; apply lock_generation in E as (? & ? & ? & ? & ?); simplify_eq.
  rewrite bool_decide_eq_false_2 in Hr by done. cbn [negb] in Hr. m_unfold. by simplify_eq.
Qed.

Lemma stale_retried {A} e s g (a : A) (m : M Database A) d o d' :
  generation_of d ≠ g →
  withLockContentionRetry (λ i, tx (stmt e s i 0
    (g' ← lockReorgGeneration; if negb (bool_decide (g' = g)) then mret a else m))) d = (o, d') → same_tables d d'.
Proof.
  intros Hg Hr. apply withLockContentionRetry_atomic in Hr; [|intros; by eapply tx_throw].
  destruct Hr as [(i & b & -> & _ & Hr)|(x & -> & ->)]; [|done]. apply tx_ret in Hr.
  unfold stmt in Hr. case_match; [done|]. by eapply stale_locked.
Qed.

(** Indexer lookups run outside the transaction that stores their result.
    If a chain rollback bumped the generation in between, none of the writers
    of chain outcomes stores anything: no job, attempt row or budget changes on
    evidence from the abandoned fork. *)
Theorem stale_generation_writes_nothing e r row oc f tip g d :
  generation_of d ≠ g →
  same_tables d (finalizeIdentifierKeyedJob fin e row oc f g d).2 ∧
  same_tables d (finalizeLostBroadcast e r row tip g d).2 ∧
  (∀ sub, same_tables d (tx (confirmTxOf e row sub oc g) d).2).
Proof using Type.
  intros Hg. split_and!.
  - destruct (finalizeIdentifierKeyedJob _ _ _ _ _ _ d) as [o d'] eqn:E. unfold finalizeIdentifierKeyedJob in E.
    apply read_then in E as [[-> _]|E]; [done|]. destruct row as [k job]. by eapply stale_retried in E.
  - destruct (finalizeLostBroadcast _ _ _ _ _ d) as [o d'] eqn:E. unfold finalizeLostBroadcast in E. destruct row as [k job].
    destruct tip; [|m_unfold; by simplify_eq]. destruct (_ || _); [m_unfold; by simplify_eq|].
    apply read_then in E as [[-> _]|E]; [done|]. cbv zeta in E. destruct (broadcast_ttl _ _) as [[ttl rec]|]; [|m_unfold; by simplify_eq].
    case_bool_decide; [m_unfold; by simplify_eq|]. by eapply stale_retried in E.
  - intros sub. unfold tx. destruct (confirmTxOf e row sub oc g d) as [[a|x] d'] eqn:E; [|done].
    by eapply stale_locked in E.
Qed.

(** ** What settles a parked job *)

Section Parked.
Variable indexerQuery : OffsetKind → string → outcome json.

(** A parked job's row after its settlement, with the evidence for it. *)
Inductive settled (e : Env) (job : Job) (d : Database) (j' : Job) : Prop :=
| settled_success sl :
    indexer_says indexerQuery (nullish (j_txHash job) EmptyString) sl → sl_status sl = "SUCCESS" →
    j_status j' = Succeeded → j_chainStatus j' = Some ChainSuccess →
    j_chainBlockHeight j' = Some (sl_blockHeight sl) → settled e job d j'
| settled_failure sl :
    indexer_says indexerQuery (nullish (j_txHash job) EmptyString) sl →
    sl_status sl = "FAILURE" ∨ sl_status sl = "PARTIAL_SUCCESS" →
    j_status j' = Failed → j_chainStatus j' = Some ChainFailure →
    j_errorCode j' = Some CHAIN_EXECUTION_FAILED →
    j_chainBlockHeight j' = Some (sl_blockHeight sl) → settled e job d j'
| settled_lost t ttl rec :
    confirmTx indexerQuery (nullish (j_txHash job) EmptyString) = Ret (LookupAbsent (Some t)) →
    broadcast_ttl job (attempt_row (j_submissionId job) (j_txHash job) (submissions d)) = Some (ttl, rec) →
    (ttl + broadcastExpiryMarginMs e < t)%Z →
    j_status j' = Failed → j_chainStatus j' = Some ChainDropped →
    j_errorCode j' = Some BROADCAST_NOT_INCLUDED → settled e job d j'.

Lemma mapIndexerStatus_success s : mapIndexerStatus s = Some OutSuccess → s = "SUCCESS".
Proof. unfold mapIndexerStatus. case_bool_decide; [done|]. by destruct (_ || _). Qed.

Lemma mapIndexerStatus_failure s : mapIndexerStatus s = Some OutFailure → s = "FAILURE" ∨ s = "PARTIAL_SUCCESS".
Proof. unfold mapIndexerStatus. case_bool_decide; [done|]. repeat case_bool_decide; naive_solver. Qed.

Lemma catch_zero (m : M Database nat) d o d' :
  try_catch m (λ _, mret 0) d = (o, d') → ∃ o1, m d = (o1, d').
Proof. unfold try_catch. destruct (m d) as [[a|x] d1]; m_unfold; intros; simplify_eq; eauto. Qed.

(** C6. One confirmer pass over a parked job changes at most that job, only
    while it is still parked and the chain was not rolled back since the
    lookup, and only on final evidence: it succeeds only if the indexer
    reported SUCCESS for its transaction, fails on chain only if the indexer
    reported FAILURE or PARTIAL_SUCCESS, and is declared lost only if the
    index, known to be past the transaction's validity window plus the margin,
    does not have it. Errors and unclear answers leave the job parked. *)
Theorem parked_job_needs_final_evidence e r g k job d o d' :
  confirm_parked fin (confirmTx indexerQuery) e r g (k, job) d = (o, d') →
  jobs d' = jobs d ∨
  (generation_of d = g ∧ ∃ j j', jobs d !! k = Some j ∧ j_status j = ReconciliationRequired ∧
     jobs d' = <[k := j']> (jobs d) ∧ j_spec j' = j_spec j ∧ settled e job d j').
Proof using fin_jobs.
  unfold confirm_parked. cbn [snd]. intros Hr.
  destruct (confirmTx indexerQuery _) as [[oc|asof|]|x] eqn:Ec; [| |m_unfold; simplify_eq; by left|m_unfold; simplify_eq; by left];
    apply catch_zero in Hr as [o1 Hr].
  - apply finalizeIdentifierKeyedJob_jobs in Hr as [?|(Hg & j & segs & res & Hj & Hw & ->)]; [by left|right].
    split; [done|]. exists j, (patch_job (finalize_patch e job oc FromReconciliation segs res) j).
    apply confirmTx_outcome in Ec as (sl & Hsay & Hmap & Hh).
    unfold finalize_where, status_in in Hw. apply bool_decide_eq_true_1, list_elem_of_singleton in Hw.
    split_and!; [done|done|done|by autorewrite with ng|].
    unfold finalize_patch. destruct (o_status oc) eqn:Eo.
    + eapply settled_success; [done|by apply mapIndexerStatus_success| | |]; destruct segs; simpl; congruence.
    + eapply settled_failure; [done|by apply mapIndexerStatus_failure| | | |]; destruct segs; simpl; first [done|congruence].
  - apply finalizeLostBroadcast_jobs in Hr as [?|(Hg & t & ttl & rec & j & -> & Httl & Hm & _ & _ & Hj & Hs & ->)]; [by left|right].
    split; [done|]. exists j, (patch_job (lost_patch e job t ttl rec) j).
    split_and!; [done|done|done|by autorewrite with ng|]. by eapply settled_lost.
Qed.
End Parked.
End SettlementFacts.

(** ** Examples: one parked job, and an index *)

#[local] Existing Instance key_order.

Definition no_finalizer (_ : string * Job) (_ : ReconciliationEvidence) : M Database (option json) := mret None.

Lemma no_finalizer_jobs : leaves_jobs no_finalizer.
Proof. intros row ev d o d'. unfold no_finalizer. m_unfold. congruence. Qed.

Definition parked_job : Job :=
  patch_job [SetTxHash (Some "0xaa"); SetSubmittedAt (Some 1000%Z)] (sample_job "sendNight" ReconciliationRequired None None).

(** The index knows the transaction as succeeded in block 12. *)
Definition indexed_success (_ : OffsetKind) (_ : string) : outcome json :=
  Ret (JObj [("transactions", JArr [JObj [("hash", JStr "0xaa"); ("transactionResult", JObj [("status", JStr "SUCCESS")]);
    ("block", JObj [("height", JInt 12); ("hash", JStr "0xbb")])]])]).

Lemma parked_job_needs_final_evidence_witness :
  ∃ j', jobs (confirm_parked no_finalizer (confirmTx indexed_success) (sample_env "a") full_registry 0 ("job-1", parked_job)
          (one_job_db parked_job)).2 = <["job-1" := j']> (jobs (one_job_db parked_job)) ∧
        settled indexed_success (sample_env "a") parked_job (one_job_db parked_job) j'.
Proof.
  destruct (parked_job_needs_final_evidence no_finalizer no_finalizer_jobs indexed_success (sample_env "a") full_registry 0 "job-1"
    parked_job (one_job_db parked_job) _ _ (surjective_pairing _)) as [Hbad|(_ & j & j' & _ & _ & Hd & _ & Hs)].
  - apply (f_equal (λ t, j_status <$> t !! "job-1")) in Hbad. vm_compute in Hbad. discriminate Hbad.
  - exists j'. split; [exact Hd|exact Hs].
Defined.

Lemma stale_generation_writes_nothing_witness :
  same_tables (one_job_db parked_job) (finalizeLostBroadcast (sample_env "a") full_registry ("job-1", parked_job) (Some 99999999%Z) 1
    (one_job_db parked_job)).2.
Proof.
  apply (stale_generation_writes_nothing no_finalizer (sample_env "a") full_registry ("job-1", parked_job)
    (MkOutcome OutSuccess 1 None None None None) FromReconciliation (Some 99999999%Z) 1 (one_job_db parked_job)).
  vm_compute. discriminate.
Defined.

(** ** Deploy slots *)

(** The grants after the reserved slots of [coordinates] went back: [n] off the
    used counter of the named grant, if it holds that many. *)
Definition give_back (coordinates : json) (t : gmap string Grant) : gmap string Grant :=
  match reservation_of coordinates with
  | Some (g, n) =>
      match t !! g with
      | Some gr =>
          match g_deploysUsed gr with
          | Some used => if bool_decide (n ≤ used)%Z
                         then <[g := patch_grant [GSetDeploysUsed (Some (used - n)%Z)] gr]> t else t
          | None => t
          end
      | None => t
      end
  | None => t
  end.

Lemma refund_reservation_spec coordinates d o d' :
  refund_reservation coordinates d = (o, d') →
  o = Ret () ∧ grants d' = give_back coordinates (grants d) ∧ submissions d' = submissions d ∧ jobs d' = jobs d.
Proof.
  unfold refund_reservation, give_back, deployRefund, sql_update_key. destruct (reservation_of coordinates) as [[g n]|].
  - m_unfold. destruct (grants d !! g) as [gr|]; [|by intros; simplify_eq]. destruct (g_deploysUsed gr) as [used|] eqn:E; [|by intros; simplify_eq].
    case_bool_decide; intros; simplify_eq; by rewrite ?E.
  - m_unfold. by intros; simplify_eq.
Qed.

Section Reservations.
Context (sid : string) (coordinates : json).

(** The attempt row's status. *)
Definition attempt_status (d : Database) : option SubmissionStatus := s_status <$> submissions d !! sid.

(** Either the row is untouched and nothing was given back, or the pending row
    was closed and its slots given back, together. *)
Definition closes (d d' : Database) : Prop :=
  (grants d' = grants d ∧ attempt_status d' = attempt_status d) ∨
  (attempt_status d = Some SubPending ∧ attempt_status d' = Some SubFailed ∧
   grants d' = give_back coordinates (grants d)).

(** Closing the row and giving back, as both transactions do it. *)
Lemma close_and_refund p d n d1 o d2 :
  (∀ s, s_status (patch_sub p s) = SubFailed) →
  update_submission sid sub_pending p d = (Ret n, d1) →
  (if bool_decide (n = 1) then refund_reservation coordinates else mret ()) d1 = (o, d2) →
  closes d d2.
Proof.
  intros Hp Hu Hr. unfold update_submission in Hu.
  destruct (sql_update_key sid sub_pending (patch_sub p) (submissions d)) as [t m] eqn:E. simplify_eq.
  apply sql_update_key_cases in E as [(-> & s & Hs & Hc & ->)|(-> & -> & _)].
  - rewrite bool_decide_eq_true_2 in Hr by done. apply refund_reservation_spec in Hr as (_ & Hg & Hsub & _).
    right. unfold attempt_status. rewrite Hs, Hsub. simpl. rewrite lookup_insert_eq. simpl. rewrite Hp.
    apply bool_decide_eq_true_1 in Hc. split_and!; [congruence|done|done].
  - rewrite bool_decide_eq_false_2 in Hr by done. m_unfold. simplify_eq. by left.
Qed.

Lemma closes_jobs d d1 d2 :
  closes d d1 → grants d2 = grants d1 → submissions d2 = submissions d1 → closes d d2.
Proof. unfold closes, attempt_status. intros Hc -> ->. done. Qed.

Lemma jobs_only k c p d o d' :
  update_job k c p d = (o, d') → grants d' = grants d ∧ submissions d' = submissions d.
Proof. intros Hu. by apply update_job_cases in Hu as [(? & _ & _ & _ & ->)|(_ & -> & _)]. Qed.

Lemma settleTx_closes e row s d o d' :
  intent_of (Some (sid, s)) = coordinates → settleTx e row (Some (sid, s)) d = (o, d') → closes d d'.
Proof.
  intros Hi Hr. unfold settleTx in Hr. rewrite Hi in Hr.
  apply bind_cases in Hr as [(n & d1 & E1 & Hr)|(x & E1 & _)]; [|unfold update_submission in E1; by case_match].
  apply bind_cases in Hr as [([] & d2 & E2 & Hr)|(x & E2 & _)]; [|by eapply close_and_refund in E1].
  eapply close_and_refund in E1; [|done|done]. apply jobs_only in Hr as [? ?]. by eapply closes_jobs.
Qed.

Lemma finalizeLostTx_closes e k job s tip ttl rec g d o d' :
  intent_of (Some (sid, s)) = coordinates →
  finalizeLostTx e k job (Some (sid, s)) tip ttl rec g d = (o, d') → closes d d'.
Proof.
  intros Hi Hr. unfold finalizeLostTx in Hr. rewrite Hi in Hr.
  apply bind_cases in Hr as [(g' & d1 & E & Hr)|(x & E & _)]; apply lock_generation in E as (? & _ & Hs & Hg & _); [|done].
  assert (∀ d2, closes d1 d2 → closes d d2) as Hlift.
  { intros d2. unfold closes, attempt_status. by rewrite Hs, Hg. }
  apply Hlift. clear Hlift. destruct (negb _); [m_unfold; simplify_eq; by left|].
  apply bind_cases in Hr as [(a & d2 & E1 & Hr)|(x & E1 & _)]; apply jobs_only in E1 as [Hg2 Hs2].
  2:{ left. unfold attempt_status. by rewrite Hg2, Hs2. }
  assert (∀ d3, closes d2 d3 → closes d1 d3) as Hlift.
  { intros d3. unfold closes, attempt_status. by rewrite Hs2, Hg2. }
  apply Hlift. clear Hlift. case_bool_decide as Ha.
  - apply bind_cases in Hr as [(n & d3 & E2 & Hr)|(x & E2 & _)]; [|unfold update_submission in E2; by case_match].
    apply bind_cases in Hr as [([] & d4 & E3 & Hr)|(x & E3 & _)]; [|by eapply close_and_refund in E2].
    m_unfold. simplify_eq. by eapply close_and_refund in E2.
  - m_unfold. change (bool_decide (0 = 1)) with false in Hr. cbn iota beta in Hr. simplify_eq. by left.
Qed.

(** The two transactions that close an unlanded attempt of this row, run by any
    reconciler with any snapshot of the job. *)
Inductive closing_step (d d' : Database) : Prop :=
| closing_rejected e row s o :
    intent_of (Some (sid, s)) = coordinates → tx (settleTx e row (Some (sid, s))) d = (o, d') → closing_step d d'
| closing_lost e k job s tip ttl rec g o :
    intent_of (Some (sid, s)) = coordinates →
    tx (finalizeLostTx e k job (Some (sid, s)) tip ttl rec g) d = (o, d') → closing_step d d'.

Lemma tx_closes {A} (m : M Database A) d o d' :
  (∀ o d', m d = (o, d') → closes d d') → tx m d = (o, d') → closes d d'.
Proof. intros Hm Ht. unfold tx in Ht. destruct (m d) as [[a|x] d1] eqn:E; simplify_eq; [by eapply Hm|by left]. Qed.

Lemma closing_step_closes d d' : closing_step d d' → closes d d'.
Proof.
  intros [e row s o Hi Ht|e k job s tip ttl rec g o Hi Ht]; (eapply tx_closes; [|done]); intros.
  - by eapply settleTx_closes.
  - by eapply finalizeLostTx_closes.
Qed.

(** C7. A deploy reservation is given back exactly when its attempt row is
    closed, and at most once: however many reconcilers and crash retries close
    the same attempt, in whatever order, the used counter drops by the reserved
    number of slots once, in the transaction that moves the row from pending to
    failed, and never below zero. *)
Theorem reservation_given_back_once d d' :
  rtc closing_step d d' →
  (grants d' = grants d ∧ attempt_status d' = attempt_status d) ∨
  (attempt_status d = Some SubPending ∧ attempt_status d' = Some SubFailed ∧
   grants d' = give_back coordinates (grants d)).
Proof.
  induction 1 as [d|d d1 d2 Hs _ IH]; [by left|]. apply closing_step_closes in Hs as [[Hg Ha]|(Hp & Hf & Hg)].
  - rewrite <- Hg, <- Ha. done.
  - right. destruct IH as [[-> ->]|(Hbad & _)]; [done|congruence].
Qed.
End Reservations.

(** ** Example: a reservation of two slots of five used *)

Definition reserving_intent : json :=
  JObj [("deployReservation", JObj [("grantId", JStr "g1"); ("count", JInt 2)])].

Definition sample_submission : Submission :=
  MkSubmission SubPending (Some "0xaa") None None 1000 None None None None None (Some (Text reserving_intent)) None None.

Definition sample_grant : Grant :=
  MkGrant "alice" "session-1" None None "hash" (Text (JArr [])) None None None None None None None None (Some true) (Some 9%Z)
    (Some 5%Z) None None None None None None None None None (Some true) None.

Definition reserving_db : Database :=
  MkDatabase {[ "job-1" := sample_job "sponsorUnboundTransaction" ReconciliationRequired None
                             (Some REJECTED_ATTEMPT_BOOKKEEPING_PENDING) ]}
    {[ "sub-1" := sample_submission ]} {[ "g1" := sample_grant ]} (Some (Some 0%Z)).

Definition settle_once (d : Database) : Database :=
  (tx (settleTx (sample_env "a") ("job-1", sample_job "sponsorUnboundTransaction" ReconciliationRequired None
     (Some REJECTED_ATTEMPT_BOOKKEEPING_PENDING)) (Some ("sub-1", sample_submission))) d).2.

Lemma reservation_given_back_once_witness :
  (λ g, g_deploysUsed g) <$> grants (settle_once (settle_once reserving_db)) !! "g1" = Some (Some 3%Z) ∧
  grants (settle_once (settle_once reserving_db)) = give_back reserving_intent (grants reserving_db).
Proof.
  assert (∀ d, closing_step "sub-1" reserving_intent d (settle_once d)) as Hs.
  { intros d. eapply closing_rejected with (s := sample_submission) (e := sample_env "a"); [reflexivity|apply surjective_pairing]. }
  assert (rtc (closing_step "sub-1" reserving_intent) reserving_db (settle_once (settle_once reserving_db))) as Hr.
  { eapply rtc_l; [apply Hs|]. apply rtc_once, Hs. }
  split; [vm_compute; reflexivity|].
  destruct (reservation_given_back_once "sub-1" reserving_intent _ _ Hr) as [[_ Hbad]|(_ & _ & Hg)]; [|exact Hg].
  vm_compute in Hbad. discriminate Hbad.
Defined.
