(* ===== verification/BatchOrder.v ===== *)
(** The order of the calls in a batch (srv/midnight/batch-segment-order.ts).

    The SDK numbers the segment of each call at random and the ledger applies calls
    by ascending number. Before a batch is proved its segments are renumbered, so
    that its calls apply in call order, or grouped by stage. Log lines, and the gas
    figures in messages, are left out. *)
From S2P Require Import Prelude.

Local Open Scope string_scope.

(** ** Transactions *)

(** A contract call; its entry point as text. *)
Record Action := MkAction { entryPoint : option string; guaranteedTranscript : bool; fallibleTranscript : bool }.

(** An intent is an object of the SDK; [object] is its identity. [action] is
    [actions?.[0]]. *)
Record Intent := MkIntent { object : nat; action : option Action }.

#[export] Instance Intent_eq_dec : EqDecision Intent.
Proof. assert (EqDecision Action) by solve_decision. solve_decision. Defined.

(** [tx.intents]; [None] when it is not a map. *)
Abbreviation Intents := (list (Z * Intent)).
Abbreviation Tx := (option Intents).

Definition entryPointName (i : Intent) : string :=
  nullish (a ← action i; entryPoint a) EmptyString.

Definition is_guaranteed (i : Intent) : bool := match action i with Some a => guaranteedTranscript a | None => false end.
Definition is_fallible (i : Intent) : bool := match action i with Some a => fallibleTranscript a | None => false end.

(** ** Reading the calls *)

Record BatchCall := MkBatchCall { c_name : string; c_segId : Z; c_guaranteed : bool; c_fallible : bool }.

Definition call_of (e : Z * Intent) : option BatchCall :=
  if bool_decide (entryPointName e.2 = EmptyString) then None
  else Some (MkBatchCall (entryPointName e.2) e.1 (is_guaranteed e.2) (is_fallible e.2)).

Definition seg_le (a b : BatchCall) : Prop := (c_segId a ≤ c_segId b)%Z.
#[export] Instance seg_le_dec a b : Decision (seg_le a b).
Proof. unfold seg_le. apply _. Defined.

#[export] Instance seg_le_total : Total seg_le.
Proof. intros a b. unfold seg_le. lia. Qed.
#[export] Instance seg_le_trans : Transitive seg_le.
Proof. intros a b c. unfold seg_le. lia. Qed.

Definition orderedCalls (tx : Tx) : list BatchCall :=
  match tx with None => [] | Some intents => merge_sort seg_le (omap call_of intents) end.

Definition callSegments (tx : Tx) : option (list (Z * list string)) :=
  let calls := orderedCalls tx in
  if (length calls <? 2)%nat then None
  else Some (foldl (λ bySegment c, map_set (c_segId c) (nullish (map_get (c_segId c) bySegment) [] ++ [c_name c])%list bySegment) [] calls).

(** The first fallible call with a guaranteed one behind it, and that one. *)
Fixpoint find_violation (calls : list BatchCall) : option (BatchCall * BatchCall) :=
  match calls with
  | [] => None
  | c :: rest =>
      if c_fallible c then
        match List.find c_guaranteed rest with
        | Some later => Some (c, later)
        | None => find_violation rest
        end
      else find_violation rest
  end.

Definition findCausalityViolation (tx : Tx) : option (BatchCall * BatchCall) := find_violation (orderedCalls tx).

(** The calls with their stages, for the error. *)
Definition batchCallStages (tx : Tx) : list BatchCall := orderedCalls tx.

(** ** Ordering *)

(** [segmentIds]: an id is NaN, here [None], when the call was not found. *)
Record BatchOrderOptions := MkBatchOptions {
  independentCalls : bool; orderedPrefix : option Z; segmentIds : option (list (option Z)) }.

(** One entry per id; [None] on a mismatch. A circuit has a name, so an absent
    intent fits none. *)
Fixpoint pick_ids (intents : Intents) (circuits : list string) (ids : list (option Z)) : option Intents :=
  match circuits, ids with
  | circuit :: circuits', id :: ids' =>
      match (k ← id; i ← map_get k intents; Some (k, i)) with
      | Some e => if bool_decide (entryPointName e.2 = circuit) then cons e <$> pick_ids intents circuits' ids' else None
      | None => None
      end
  | _, _ => Some []
  end.

Definition pickBySegmentIds (intents : Intents) (circuitsInOrder : list string) (ids : option (list (option Z))) : option Intents :=
  match ids with
  | None => None
  | Some ids =>
      if negb (length ids =? length circuitsInOrder)%nat then None
      else if negb (length (js_set ids) =? length ids)%nat then None
      else pick_ids intents circuitsInOrder ids
  end.

(** [pools]: the entries by name, in the order of the map. *)
Definition pools_of (intents : Intents) : list (string * Intents) :=
  foldl (λ pools e, let name := entryPointName e.2 in map_set name (nullish (map_get name pools) [] ++ [e])%list pools) [] intents.

Fixpoint shift_pools (pools : list (string * Intents)) (circuits : list string) : option Intents :=
  match circuits with
  | [] => Some []
  | circuit :: circuits' =>
      match map_get circuit pools with
      | Some (e :: pool) => cons e <$> shift_pools (map_set circuit pool pools) circuits'
      | _ => None
      end
  end.

(** The place of a call among independent ones: the prefix, calls without a
    fallible part, the others. *)
Definition rank (prefix : nat) (x : nat * (Z * Intent)) : nat :=
  if (x.1 <? prefix)%nat then 0%nat else if is_fallible x.2.2 then 2%nat else 1%nat.

Definition rank_le (prefix : nat) (a b : nat * (Z * Intent)) : Prop :=
  (rank prefix a < rank prefix b ∨ rank prefix a = rank prefix b ∧ a.1 ≤ b.1)%nat.
#[export] Instance rank_le_dec prefix a b : Decision (rank_le prefix a b).
Proof. unfold rank_le. apply _. Defined.

Definition prefix_of (opts : BatchOrderOptions) (n : nat) : nat :=
  Z.to_nat (Z.max 0 (Z.min (nullish (orderedPrefix opts) 0%Z) (Z.of_nat n))).

Definition group_calls (opts : BatchOrderOptions) (picked : Intents) : Intents :=
  if independentCalls opts then
    let prefix := prefix_of opts (length picked) in
    (merge_sort (rank_le prefix) (imap pair picked)).*2
  else picked.

(** [orderBatchSegments]: whether it could, and the transaction after it. *)
Definition orderBatchSegments (tx : Tx) (circuitsInOrder : list string) (opts : BatchOrderOptions) : bool * Tx :=
  match tx with
  | None => (false, tx)
  | Some intents =>
      if (length circuitsInOrder <? 2)%nat || (length intents <? 2)%nat then (false, tx)
      else
        match (match pickBySegmentIds intents circuitsInOrder (segmentIds opts) with
               | Some picked => Some picked
               | None => shift_pools (pools_of intents) circuitsInOrder
               end) with
        | None => (false, tx)
        | Some picked =>
            let picked := group_calls opts picked in
            let pickedIntents := object <$> picked.*2 in
            let pickedIdsAsc := merge_sort Z.le picked.*1 in
            let next := filter (λ e : Z * Intent, object e.2 ∉ pickedIntents) intents in
            let next := foldl (λ next x, map_set x.1 x.2 next) next (zip pickedIdsAsc picked.*2) in
            if (length next =? length intents)%nat then (true, Some next) else (false, tx)
        end
  end.

(** ** Before proving *)

Inductive BatchRefusal := Unmatched | Causality (calls : list BatchCall) | Preflight (e : exn).

(** What [proveTx] of the wrapped provider does before it proves: the transaction
    it proves. [preflight] applies it to a local copy of the ledger. *)
Definition withOrderedBatchSegments (preflight : option (Tx → option exn)) (circuitsInOrder : list string) (opts : BatchOrderOptions)
    (tx : Tx) : BatchRefusal + Tx :=
  if (length circuitsInOrder <? 2)%nat then inr tx
  else
    match orderBatchSegments tx circuitsInOrder opts with
    | (false, _) => inl Unmatched
    | (true, tx) =>
        match findCausalityViolation tx with
        | Some _ => inl (Causality (batchCallStages tx))
        | None => match (f ← preflight; f tx) with Some e => inl (Preflight e) | None => inr tx end
        end
    end.

Definition call (object : nat) (name : string) (g f : bool) : Intent := MkIntent object (Some (MkAction (Some name) g f)).

Example batch_reordered :
  orderBatchSegments (Some [(70, call 0 "b" true false); (5, MkIntent 1 None); (20, call 2 "a" true true); (30, call 3 "a" true false)]%Z)
    ["a"; "b"; "a"] (MkBatchOptions false None None) =
  (true, Some [(5, MkIntent 1 None); (20, call 2 "a" true true); (30, call 0 "b" true false); (70, call 3 "a" true false)]%Z).
Proof. vm_compute. reflexivity. Qed.

(** ** What is picked *)

Definition pool (pools : list (string * Intents)) (name : string) : Intents := nullish (map_get name pools) [].

Lemma pool_set pools name q n : pool (map_set name q pools) n = if decide (name = n) then q else pool pools n.
Proof.
  unfold pool. case_decide as Hd; [subst; by rewrite map_get_set_eq|by rewrite map_get_set_ne].
Qed.

Lemma pool_of intents name : pool (pools_of intents) name = filter (λ e : Z * Intent, entryPointName e.2 = name) intents.
Proof.
  unfold pools_of. enough (∀ pools, pool (foldl (λ pools e, let name := entryPointName e.2 in
    map_set name (nullish (map_get name pools) [] ++ [e])%list pools) pools intents) name =
    (pool pools name ++ filter (λ e : Z * Intent, entryPointName e.2 = name) intents)%list) as H.
  { exact (H []). }
  induction intents as [|e intents IH]; intros pools; simpl.
  { rewrite app_nil_r. reflexivity. }
  rewrite IH, pool_set, filter_cons.
  fold (pool pools (entryPointName e.2)). case_decide as Hd; [|done]. by rewrite Hd, <- app_assoc.
Qed.

Lemma shifted pools circuits picked :
  (∀ n, NoDup (pool pools n)) → (∀ n e, e ∈ pool pools n → entryPointName e.2 = n) → shift_pools pools circuits = Some picked →
  entryPointName <$> picked.*2 = circuits ∧ NoDup picked ∧ ∀ e, e ∈ picked → e ∈ pool pools (entryPointName e.2).
Proof.
  revert pools picked. induction circuits as [|c cs IH]; intros pools picked Hnd Hname; simpl.
  { intros [= <-]. split_and!; [done|constructor|]. intros e He. by apply not_elem_of_nil in He. }
  destruct (map_get c pools) as [[|e q]|] eqn:Ec; try done. intros (rest & Hrest & ->)%fmap_Some.
  assert (pool pools c = e :: q) as Hp by (unfold pool; by rewrite Ec).
  assert (NoDup (e :: q)) as [Heq Hq]%NoDup_cons by (rewrite <- Hp; apply Hnd).
  assert (∀ n x, x ∈ pool (map_set c q pools) n → x ∈ pool pools n) as Hsub.
  { intros n x. rewrite pool_set. case_decide as Hd; [subst; rewrite Hp; apply list_elem_of_further|done]. }
  assert (entryPointName e.2 = c) as He by (apply Hname; rewrite Hp; apply list_elem_of_here).
  destruct (IH (map_set c q pools) rest) as (IH1 & IH2 & IH3); [|by eauto|done|].
  { intros n. rewrite pool_set. case_decide; auto. }
  split_and!; [by csimpl; rewrite IH1, He| |].
  - constructor; [|done]. intros Hin. apply IH3 in Hin. rewrite He, pool_set, decide_True in Hin by done. done.
  - intros x [->|Hx]%elem_of_cons; [rewrite He, Hp; apply list_elem_of_here|by apply Hsub, IH3].
Qed.

Lemma picked_ids intents circuits ids picked : pick_ids intents circuits ids = Some picked → length ids = length circuits →
  entryPointName <$> picked.*2 = circuits ∧ Some <$> picked.*1 = ids ∧ ∀ e, e ∈ picked → e ∈ intents.
Proof.
  revert ids picked. induction circuits as [|c cs IH]; intros [|id ids] picked; simpl; try done.
  { intros [= <-] _. split_and!; try done. intros e He. by apply not_elem_of_nil in He. }
  destruct id as [k|]; [|done]. simpl. destruct (map_get k intents) as [i|] eqn:Ei; [|done]. simpl. case_bool_decide as Hc; [|done].
  intros (rest & Hrest & ->)%fmap_Some [= Hl]. destruct (IH _ _ Hrest Hl) as (H1 & H2 & H3). csimpl.
  split_and!; [by rewrite H1, Hc|by rewrite H2|]. intros e [->|He]%elem_of_cons; [by apply map_get_In|auto].
Qed.

Lemma set_adds_length {A} `{EqDecision A} (l s : list A) : (length (foldl set_add s l) ≤ length s + length l)%nat.
Proof.
  revert s. induction l as [|x l IH]; intros s; simpl; [lia|]. etrans; [apply IH|]. unfold set_add. case_decide; [lia|].
  rewrite length_app. simpl. lia.
Qed.

(** [new Set(l).size === l.length] *)
Lemma js_set_full {A} `{EqDecision A} (l : list A) : length (js_set l) = length l → NoDup l.
Proof.
  unfold js_set. enough (∀ s, NoDup s → length (foldl set_add s l) = (length s + length l)%nat → NoDup (s ++ l)%list) as H.
  { intros Hl. apply (H []); [constructor|done]. }
  induction l as [|x l IH]; intros s Hs; simpl; intros Hl; [by rewrite app_nil_r|].
  revert Hl. unfold set_add at 2. case_decide as Hx; intros Hl; [pose proof (set_adds_length l s); lia|].
  rewrite (cons_middle x s l), app_assoc. apply IH; [|rewrite length_app; simpl; lia].
  apply NoDup_app. split_and!; [done| |apply NoDup_singleton]. intros y Hy ->%list_elem_of_singleton. done.
Qed.

(** The entries a batch is made of, one per call. *)
Definition picks (intents : Intents) (circuitsInOrder : list string) (opts : BatchOrderOptions) (picked : Intents) : Prop :=
  entryPointName <$> picked.*2 = circuitsInOrder ∧ picked ⊆+ intents ∧
  (is_Some (pickBySegmentIds intents circuitsInOrder (segmentIds opts)) → Some (Some <$> picked.*1) = segmentIds opts).

Lemma picks_found intents circuits opts picked :
  NoDup intents.*1 →
  (match pickBySegmentIds intents circuits (segmentIds opts) with
   | Some picked => Some picked
   | None => shift_pools (pools_of intents) circuits
   end) = Some picked → picks intents circuits opts picked.
Proof.
  intros Hnd. unfold picks. assert (NoDup intents) as Hn by (by apply NoDup_fmap_1 in Hnd).
  destruct (pickBySegmentIds intents circuits (segmentIds opts)) as [l|] eqn:Ep.
  - intros [= ->]. unfold pickBySegmentIds in Ep. destruct (segmentIds opts) as [ids|]; [|done].
    destruct (length ids =? length circuits)%nat eqn:E1; [apply Nat.eqb_eq in E1|done]. simpl in Ep.
    destruct (length (js_set ids) =? length ids)%nat eqn:E2; [apply Nat.eqb_eq in E2|done]. simpl in Ep.
    destruct (picked_ids _ _ _ _ Ep E1) as (H1 & H2 & H3). split_and!; [done| |by rewrite H2].
    apply NoDup_submseteq; [|done]. apply js_set_full in E2. rewrite <- H2 in E2. by apply NoDup_fmap_1, NoDup_fmap_1 in E2.
  - intros Hs. destruct (shifted (pools_of intents) circuits picked) as (H1 & H2 & H3); [| |done|].
    + intros n. rewrite pool_of. by apply NoDup_filter.
    + intros n e. rewrite pool_of. by intros [? _]%list_elem_of_filter.
    + split_and!; [done| |by intros [? [=]]]. apply NoDup_submseteq; [done|]. intros e He%H3. rewrite pool_of in He.
      by apply list_elem_of_filter in He as [_ ?].
Qed.

Lemma group_permutes opts picked : group_calls opts picked ≡ₚ picked.
Proof.
  unfold group_calls. destruct (independentCalls opts); [|done]. cbv zeta. rewrite merge_sort_Permutation. clear.
  rewrite fmap_imap. assert (imap (λ n, snd ∘ pair n) picked = picked) as ->; [|done].
  etrans; [exact (imap_const id picked)|apply list_fmap_id].
Qed.

(** ** The renumbered segments *)

Lemma set_fresh (l next : Intents) : NoDup (next.*1 ++ l.*1)%list → foldl (λ next x, map_set x.1 x.2 next) next l = (next ++ l)%list.
Proof.
  revert next. induction l as [|[k i] l IH]; intros next Hn; simpl; [by rewrite app_nil_r|].
  assert (map_get k next = None) as Hk.
  { apply map_get_None. apply NoDup_app in Hn as (_ & Hn & _). intros Hin. apply (Hn _ Hin), list_elem_of_here. }
  rewrite map_set_absent, IH by (done || by rewrite fmap_app, <- app_assoc). by rewrite <- app_assoc.
Qed.

Lemma filter_keeps_all {A} (P : A → Prop) `{∀ x, Decision (P x)} (l : list A) : length (filter P l) = length l → filter P l = l.
Proof.
  induction l as [|x l IH]; [done|]. rewrite filter_cons. case_decide; simpl; intros Hl; [by rewrite IH by lia|].
  pose proof (length_filter P l). lia.
Qed.

Definition key_le (a b : Z * Intent) : Prop := (a.1 ≤ b.1)%Z.
#[export] Instance key_le_dec a b : Decision (key_le a b).
Proof. unfold key_le. apply _. Defined.
#[export] Instance key_le_total : Total key_le.
Proof. intros a b. unfold key_le. lia. Qed.
#[export] Instance key_le_trans : Transitive key_le.
Proof. intros a b c. unfold key_le. lia. Qed.

(** The order in which the ledger applies the segments. *)
Definition apply_order (intents : Intents) : Intents := merge_sort key_le intents.

Lemma renumbered intents picked picked' :
  NoDup intents.*1 → picked ≡ₚ picked' → picked ⊆+ intents →
  let next := filter (λ e : Z * Intent, object e.2 ∉ object <$> picked'.*2) intents in
  let new := zip (merge_sort Z.le picked'.*1) picked'.*2 in
  length (foldl (λ next x, map_set x.1 x.2 next) next new) = length intents →
  ∃ rest, intents ≡ₚ (picked ++ rest)%list ∧ foldl (λ next x, map_set x.1 x.2 next) next new ≡ₚ (rest ++ new)%list.
Proof.
  intros Hnd Hp [rest Hr]%submseteq_Permutation next new Hl. exists rest. split; [done|].
  assert (next ≡ₚ filter (λ e : Z * Intent, object e.2 ∉ object <$> picked'.*2) rest) as Hnext.
  { unfold next. rewrite Hr, filter_app, (list_filter_none _ picked); [done|]. intros e He Hn. apply Hn.
    rewrite <- Hp. by apply list_elem_of_fmap_2, list_elem_of_fmap_2. }
  assert (new.*1 ≡ₚ picked.*1) as Hk.
  { unfold new. rewrite fst_zip, merge_sort_Permutation, Hp; [done|]. by rewrite merge_sort_Permutation, !length_fmap. }
  assert (NoDup (next.*1 ++ new.*1)%list) as Hfresh.
  { rewrite Hnext, Hk. rewrite Hr, fmap_app in Hnd. apply NoDup_app in Hnd as (H1 & H2 & H3).
    rewrite (Permutation_app_comm _ _). apply NoDup_app. split_and!; [done| |].
    - intros k Hk1 Hk2. apply (H2 k Hk1). eapply elem_of_submseteq; [exact Hk2|].
      apply sublist_submseteq, sublist_fmap_mono, sublist_filter.
    - eapply sublist_NoDup; [exact H3|]. apply sublist_fmap_mono, sublist_filter. }
  rewrite set_fresh in Hl |- * by done. f_equiv. rewrite Hnext.
  rewrite length_app, Hr, length_app, Hnext in Hl.
  assert (length new = length picked) as Hln by (rewrite <- (length_fmap fst), Hk; by rewrite length_fmap).
  rewrite filter_keeps_all; [done|]. lia.
Qed.

Lemma keys_apart (m : Intents) a b : NoDup m.*1 → a ∈ m → b ∈ m → a.1 = b.1 → a = b.
Proof.
  destruct a as [k i], b as [k' j]. simpl. intros Hn Ha Hb ->. f_equal.
  apply map_get_Some_NoDup in Ha, Hb; [|done..]. congruence.
Qed.

(** Sorted entries apply in their order. *)
Lemma applied_in_order (l m : Intents) : NoDup m.*1 → StronglySorted key_le l → l ⊆+ m → l `sublist_of` apply_order m.
Proof.
  intros Hn Hs Hsub. assert (filter (λ e, e ∈ l) (apply_order m) = l) as <-; [|apply sublist_filter].
  assert (NoDup m) as Hm by (by apply NoDup_fmap_1 in Hn).
  apply (StronglySorted_unique_strong key_le).
  - intros a b [_ Ha]%list_elem_of_filter Hb Hab Hba. unfold apply_order in Ha. rewrite merge_sort_Permutation in Ha.
    apply (keys_apart m); [done|done|by eapply elem_of_submseteq|]. unfold key_le in *. lia.
  - apply StronglySorted_filter, StronglySorted_merge_sort; apply _.
  - done.
  - unfold apply_order. rewrite merge_sort_Permutation. apply NoDup_Permutation; [by apply NoDup_filter|pose proof Hsub as [k Hk]%submseteq_Permutation; rewrite Hk in Hm; by apply NoDup_app in Hm as [? _]|].
    intros e. rewrite list_elem_of_filter. split; [by intros [? _]|]. intros He. split; [done|by eapply elem_of_submseteq].
Qed.

Lemma numbered_sorted (l : Intents) : StronglySorted key_le (zip (merge_sort Z.le l.*1) l.*2).
Proof.
  assert (StronglySorted Z.le (merge_sort Z.le l.*1)) as Hs by (apply StronglySorted_merge_sort; apply _).
  revert Hs. generalize (merge_sort Z.le l.*1) l.*2. intros ks. induction ks as [|k ks IH]; intros [|i xs] Hs; try constructor.
  - apply IH. by inversion Hs.
  - apply Forall_forall. intros [k' j] Hin. apply elem_of_zip_l in Hin. inversion Hs as [|? ? _ Hf]. by eapply Forall_forall in Hf.
Qed.

Lemma call_seg e c : call_of e = Some c → c_segId c = e.1.
Proof. unfold call_of. case_bool_decide; [done|]. by intros [= <-]. Qed.

Lemma omap_sorted (l : Intents) : StronglySorted key_le l → StronglySorted seg_le (omap call_of l).
Proof.
  induction 1 as [|e l Hs IH Hf]; [constructor|]. simpl. destruct (call_of e) as [c|] eqn:Ec; [|done]. constructor; [done|].
  apply Forall_forall. intros c' (e' & He' & Hc')%list_elem_of_omap. eapply Forall_forall in Hf; [|done].
  unfold seg_le. by rewrite (call_seg _ _ Ec), (call_seg _ _ Hc').
Qed.

(** The calls the ledger sees, in its order. *)
Lemma sorted_calls (l m : Intents) : NoDup m.*1 → StronglySorted key_le l → omap call_of l ≡ₚ omap call_of m → l ⊆+ m →
  orderedCalls (Some m) = omap call_of l.
Proof.
  intros Hn Hs Hp Hsub. unfold orderedCalls. apply (StronglySorted_unique_strong seg_le).
  - intros a b Ha Hb Hab Hba. rewrite merge_sort_Permutation in Ha. apply list_elem_of_omap in Ha as (e & He & Ea), Hb as (e' & He' & Eb).
    assert (e = e') as ->; [|congruence]. apply (keys_apart m); [done|done|by eapply elem_of_submseteq|].
    unfold seg_le in *. rewrite (call_seg _ _ Ea), (call_seg _ _ Eb) in *. lia.
  - apply StronglySorted_merge_sort; apply _.
  - by apply omap_sorted.
  - by rewrite merge_sort_Permutation, Hp.
Qed.

Lemma ordered_calls m : NoDup m.*1 → orderedCalls (Some m) = omap call_of (apply_order m).
Proof.
  intros Hn. apply sorted_calls; [done|apply StronglySorted_merge_sort; apply _| |]; unfold apply_order; by rewrite merge_sort_Permutation.
Qed.

(** No fallible call is before a guaranteed one. *)
Definition causal (calls : list BatchCall) : Prop :=
  ∀ i j c c', (i < j)%nat → calls !! i = Some c → calls !! j = Some c' → c_fallible c = true → c_guaranteed c' = false.

Lemma causal_cons c calls : causal (c :: calls) ↔ (c_fallible c = true → ∀ c', c' ∈ calls → c_guaranteed c' = false) ∧ causal calls.
Proof.
  split.
  - intros H. split; [|intros i j a b Hij Ha Hb; apply (H (S i) (S j) a b); [lia|done..]].
    intros Hc c' [j Hj]%list_elem_of_lookup. apply (H 0%nat (S j) c c'); [lia|done|done|done].
  - intros [H1 H2] [|i] [|j] a b Hij Ha Hb Hf; try lia; simpl in *.
    + injection Ha as ->. apply H1; [done|]. by eapply list_elem_of_lookup_2.
    + eapply (H2 i j a b); [lia|done..].
Qed.

Lemma violation_none calls : find_violation calls = None ↔ causal calls.
Proof.
  induction calls as [|c calls IH]; simpl; [split; [intros _ i j a b _ Ha; by rewrite lookup_nil in Ha|done]|].
  rewrite causal_cons, <- IH. destruct (c_fallible c); [|naive_solver]. destruct (List.find c_guaranteed calls) as [c'|] eqn:Ef.
  - apply List.find_some in Ef as [Hin%list_elem_of_In Hg]. split; [done|]. intros [H _]. rewrite H in Hg; done.
  - split; [|naive_solver]. intros H. split; [|done]. intros _ c' Hin. eapply List.find_none in Ef; [exact Ef|]. by apply list_elem_of_In.
Qed.

(** ** Ordering succeeds or changes nothing *)

Lemma ordering_result intents circuits opts tx' :
  NoDup intents.*1 → orderBatchSegments (Some intents) circuits opts = (true, tx') →
  ∃ intents' picked rest, tx' = Some intents' ∧ NoDup intents'.*1 ∧ picks intents circuits opts picked ∧ intents ≡ₚ (picked ++ rest)%list ∧
    intents' ≡ₚ (rest ++ zip (merge_sort Z.le (group_calls opts picked).*1) (group_calls opts picked).*2)%list.
Proof.
  intros Hn. unfold orderBatchSegments. destruct (_ || _); [done|]. destruct (match pickBySegmentIds _ _ _ with Some _ => _ | None => _ end) as [picked|] eqn:Ep; [|done].
  apply picks_found in Ep; [|done]. cbv zeta. pose proof (group_permutes opts picked) as Hg.
  destruct (_ =? _)%nat eqn:El; [|done]. apply Nat.eqb_eq in El. intros [= <-].
  destruct (renumbered intents picked (group_calls opts picked)) as (rest & Hr & Hr'); [done|by rewrite Hg|apply Ep|done|].
  eexists _, picked, rest. split; [done|]. split; [|done]. rewrite Hr', fmap_app, fst_zip, merge_sort_Permutation, Hg.
  - rewrite (Permutation_app_comm _ _), <- fmap_app, <- Hr. done.
  - by rewrite merge_sort_Permutation, !length_fmap.
Qed.

Lemma renumbered_calls (l : Intents) ks : length ks = length l →
  c_name <$> omap call_of (zip ks l.*2) = c_name <$> omap call_of l ∧
  (λ c, (c_guaranteed c, c_fallible c)) <$> omap call_of (zip ks l.*2) = (λ c, (c_guaranteed c, c_fallible c)) <$> omap call_of l.
Proof.
  revert ks. induction l as [|[k' i] l IH]; intros [|k ks] Hl; try done. injection Hl as Hl. destruct (IH ks Hl) as [IH1 IH2].
  change (zip (k :: ks) ((k', i) :: l).*2) with ((k, i) :: zip ks l.*2). cbn [omap list_omap].
  assert (call_of (k, i) = (λ c, MkBatchCall (c_name c) k (c_guaranteed c) (c_fallible c)) <$> call_of (k', i)) as ->
    by (unfold call_of; simpl; by case_bool_decide).
  destruct (call_of (k', i)); [|done]. cbn. split; by f_equal.
Qed.

Lemma all_named (l : Intents) : EmptyString ∉ entryPointName <$> l.*2 → c_name <$> omap call_of l = entryPointName <$> l.*2.
Proof.
  induction l as [|[k i] l IH]; [done|]. csimpl. intros [Hi Hl]%not_elem_of_cons. unfold call_of at 1. simpl.
  rewrite bool_decide_eq_false_2 by congruence. csimpl. by rewrite IH.
Qed.

Lemma no_calls (l : Intents) : length (omap call_of l) = 0%nat → omap call_of l = [].
Proof. apply length_zero_iff_nil. Qed.

(** When the batch holds every contract call, the ledger sees the batch. *)
Lemma batch_calls intents circuits opts intents' picked rest :
  NoDup intents'.*1 → picks intents circuits opts picked → intents ≡ₚ (picked ++ rest)%list →
  intents' ≡ₚ (rest ++ zip (merge_sort Z.le (group_calls opts picked).*1) (group_calls opts picked).*2)%list →
  length (orderedCalls (Some intents)) = length circuits → EmptyString ∉ circuits →
  c_name <$> orderedCalls (Some intents') = c_name <$> omap call_of (group_calls opts picked) ∧
  (λ c, (c_guaranteed c, c_fallible c)) <$> orderedCalls (Some intents') = (λ c, (c_guaranteed c, c_fallible c)) <$> omap call_of (group_calls opts picked).
Proof.
  intros Hn (Hnames & _ & _) Hr Hr' Hl He. set (g := group_calls opts picked) in *. assert (g ≡ₚ picked) as Hg by apply group_permutes.
  assert (omap call_of rest = []) as Hrest.
  { unfold orderedCalls in Hl. rewrite merge_sort_Permutation, Hr, omap_app, length_app in Hl. apply no_calls.
    assert (length (omap call_of picked) = length circuits) as Hp; [|lia].
    rewrite <- (length_fmap c_name), all_named, Hnames; [done|]. by rewrite Hnames. }
  rewrite (sorted_calls (zip (merge_sort Z.le g.*1) g.*2) intents' Hn (numbered_sorted g)).
  - apply renumbered_calls. by rewrite merge_sort_Permutation, length_fmap.
  - by rewrite Hr', omap_app, Hrest.
  - rewrite Hr'. apply submseteq_inserts_l. done.
Qed.

Lemma causal_flags l l' : (λ c, (c_guaranteed c, c_fallible c)) <$> l = (λ c, (c_guaranteed c, c_fallible c)) <$> l' → causal l → causal l'.
Proof.
  intros E H i j a b Hij Ha Hb Hf. assert (∀ n, (λ c, (c_guaranteed c, c_fallible c)) <$> (l !! n) = (λ c, (c_guaranteed c, c_fallible c)) <$> (l' !! n)) as El.
  { intros n. by rewrite <- !list_lookup_fmap, E. }
  pose proof (El i) as Ei. pose proof (El j) as Ej. rewrite Ha in Ei. rewrite Hb in Ej.
  destruct (l !! i) as [x|] eqn:Ex, (l !! j) as [y|] eqn:Ey; simplify_eq/=.
  assert (c_guaranteed y = false) by (eapply (H i j x y); [done..|congruence]). congruence.
Qed.

(** C29. What is proved of a batch applies in its order. When the wrapped provider
    goes on to prove, the transaction is the given one with its segment ids dealt
    out anew: the ids and the intents are the same, what is not a call of the batch
    keeps its id, the calls of the batch apply in call order (or, when independent,
    grouped), and no call with a fallible part is before one with a guaranteed
    part. A batch of all contract calls applies exactly as listed. *)
Theorem proved_batch_applies_in_order preflight circuits opts intents tx' :
  NoDup intents.*1 → (2 ≤ length circuits)%nat → withOrderedBatchSegments preflight circuits opts (Some intents) = inr tx' →
  ∃ intents' picked, tx' = Some intents' ∧ picks intents circuits opts picked ∧
    intents'.*1 ≡ₚ intents.*1 ∧ intents'.*2 ≡ₚ intents.*2 ∧ (∀ e, e ∈ intents → e ∉ picked → e ∈ intents') ∧
    (group_calls opts picked).*2 `sublist_of` (apply_order intents').*2 ∧
    causal (orderedCalls (Some intents')) ∧
    (independentCalls opts = false → length (orderedCalls (Some intents)) = length circuits → EmptyString ∉ circuits →
      c_name <$> orderedCalls (Some intents') = circuits).
Proof.
  intros Hn Hc. unfold withOrderedBatchSegments. destruct (Nat.ltb_spec (length circuits) 2) as [|_]; [lia|].
  destruct (orderBatchSegments _ _ _) as [[|] tx1] eqn:Eo; [|done]. apply ordering_result in Eo as (m & picked & rest & -> & Hm & Hp & Hr & Hr'); [|done].
  destruct (findCausalityViolation (Some m)) eqn:Ev; [done|]. apply violation_none in Ev.
  destruct (f ← preflight; _); intros [= <-]. exists m, picked. set (g := group_calls opts picked) in *.
  assert (g ≡ₚ picked) as Hg by apply group_permutes.
  assert (length (merge_sort Z.le g.*1) = length g) as Hlen by (by rewrite merge_sort_Permutation, length_fmap).
  assert ((zip (merge_sort Z.le g.*1) g.*2).*2 = g.*2) as H2 by (apply snd_zip; rewrite length_fmap; lia).
  split_and!; [done|done| | | | |done|].
  - rewrite Hr', Hr, !fmap_app, fst_zip, merge_sort_Permutation, Hg by (rewrite length_fmap; lia). apply Permutation_app_comm.
  - rewrite Hr', Hr, !fmap_app, H2, Hg. apply Permutation_app_comm.
  - intros e He Hnp. rewrite Hr' . apply elem_of_app. left. rewrite Hr in He. by apply elem_of_app in He as [|].
  - rewrite <- H2. apply sublist_fmap_mono, applied_in_order; [done|apply numbered_sorted|]. rewrite Hr'. by apply submseteq_inserts_l.
  - intros Hi Hl He. destruct (batch_calls intents circuits opts m picked rest) as [-> _]; [done..|].
    destruct Hp as (Hnames & _). unfold group_calls. rewrite Hi, all_named; [done|]. by rewrite Hnames.
Qed.

(** ** Independent calls *)

Lemma causal_sorted calls : causal calls ↔ StronglySorted (λ c c', c_fallible c = true → c_guaranteed c' = false) calls.
Proof.
  induction calls as [|c calls IH]; [split; [constructor|intros _ i j a b _ Ha; by rewrite lookup_nil in Ha]|].
  rewrite causal_cons, IH. split.
  - intros [H1 H2]. constructor; [done|]. apply Forall_forall. eauto.
  - intros H. inversion H as [|? ? H2 H1]. rewrite Forall_forall in H1. eauto.
Qed.

Lemma sorted_filter_iff {A} (R : relation A) (P : A → Prop) `{∀ x, Decision (P x)} (l : list A) :
  StronglySorted R (filter P l) ↔ StronglySorted (λ x y, P x → P y → R x y) l.
Proof.
  induction l as [|x l IH]; [split; constructor|]. rewrite filter_cons. case_decide as Hx.
  - split; intros Hs; inversion Hs as [|? ? H1 H2]; constructor; try (by apply IH).
    + apply Forall_forall. intros y Hy _ HPy. eapply Forall_forall in H2; [exact H2|]. by apply list_elem_of_filter.
    + apply Forall_forall. intros y [HPy Hy]%list_elem_of_filter. eapply Forall_forall in H2; [|exact Hy]. auto.
  - rewrite IH. split; [intros Hs; constructor; [done|]; by apply Forall_forall|by inversion 1].
Qed.

Lemma imap_sorted {A} (l : list A) : StronglySorted (λ a b : nat * A, (a.1 < b.1)%nat) (imap pair l).
Proof.
  enough (∀ n, StronglySorted (λ a b : nat * A, (a.1 < b.1)%nat) (imap (λ i, pair (n + i)%nat) l)) as H by exact (H 0%nat).
  induction l as [|x l IH]; intros n; [constructor|]. simpl. constructor.
  - assert (imap ((λ i, pair (n + i)%nat) ∘ S) l = imap (λ i, pair (S n + i)%nat) l) as ->; [|apply IH].
    apply imap_ext. intros i y _. simpl. by rewrite Nat.add_succ_r.
  - apply Forall_forall. intros [i y] Hin. apply elem_of_lookup_imap in Hin as (j & z & [= -> ->] & _). simpl. lia.
Qed.

Lemma filter_image {A B} (f : A → B) (P : B → Prop) `{∀ x, Decision (P x)} (l : list A) : filter P (f <$> l) = f <$> filter (λ x, P (f x)) l.
Proof. induction l as [|x l IH]; [done|]. csimpl. rewrite !filter_cons, IH. by case_decide. Qed.

Lemma rank_none x : rank 0 x = if is_fallible x.2.2 then 2%nat else 1%nat.
Proof. done. Qed.

Lemma rank_sorted (b : bool) (ps : list (nat * (Z * Intent))) :
  StronglySorted (λ x y : nat * (Z * Intent), (x.1 < y.1)%nat) ps → StronglySorted (rank_le 0) (filter (λ x, is_fallible x.2.2 = b) ps).
Proof.
  intros Hs. apply sorted_filter_iff. induction Hs as [|x l Hs IH Hf]; constructor; [done|].
  eapply Forall_impl; [exact Hf|]. intros y Hxy Hx Hy. simpl in Hxy. unfold rank_le. rewrite !rank_none, Hx, Hy. destruct b; lia.
Qed.

Lemma grouped_by_stage (picked : Intents) :
  (merge_sort (rank_le 0) (imap pair picked)).*2 =
  (filter (λ e : Z * Intent, is_fallible e.2 = false) picked ++ filter (λ e : Z * Intent, is_fallible e.2 = true) picked)%list.
Proof.
  set (ps := imap pair picked). pose proof (imap_sorted picked) as Hs. fold ps in Hs.
  assert (ps.*2 = picked) as Hp by (unfold ps; rewrite fmap_imap; etrans; [exact (imap_const id picked)|apply list_fmap_id]).
  assert (merge_sort (rank_le 0) ps = filter (λ x, is_fallible x.2.2 = false) ps ++ filter (λ x, is_fallible x.2.2 = true) ps)%list as ->.
  - apply (StronglySorted_unique_strong (rank_le 0)).
    + intros a b Ha Hb Hab Hba. rewrite merge_sort_Permutation in Ha.
      assert (b ∈ ps) as Hb' by (apply elem_of_app in Hb as [Hb|Hb]; by apply list_elem_of_filter in Hb as [_ ?]).
      apply elem_of_lookup_imap in Ha as (i & x & -> & Hx), Hb' as (j & y & -> & Hy).
      unfold rank_le in *. simpl in *. assert (i = j) as -> by lia. by simplify_eq.
    + apply @StronglySorted_merge_sort; [intros a b c; unfold rank_le; lia|intros a b; unfold rank_le; lia].
    + apply StronglySorted_app. split_and!; [|by apply rank_sorted|by apply rank_sorted].
      intros x y [Hx _]%list_elem_of_filter [Hy _]%list_elem_of_filter. unfold rank_le. rewrite !rank_none, Hx, Hy. lia.
    + rewrite merge_sort_Permutation, <- (filter_app_complement (λ x : nat * (Z * Intent), is_fallible x.2.2 = false) ps) at 1. f_equiv.
      rewrite (list_filter_iff (λ x, ¬ is_fallible x.2.2 = false) (λ x, is_fallible x.2.2 = true)); [done|].
      intros x. by destruct (is_fallible x.2.2).
  - by rewrite <- Hp, !filter_image, fmap_app.
Qed.

Lemma causal_entries (l : Intents) : EmptyString ∉ entryPointName <$> l.*2 →
  causal (omap call_of l) ↔ StronglySorted (λ e e' : Z * Intent, is_fallible e.2 = true → is_guaranteed e'.2 = false) l.
Proof.
  rewrite causal_sorted. induction l as [|[k i] l IH]; [split; constructor|]. csimpl. intros [Hi Hl]%not_elem_of_cons.
  unfold call_of at 1. simpl. rewrite bool_decide_eq_false_2 by congruence. csimpl. specialize (IH Hl). rewrite !StronglySorted_cons, IH.
  f_equiv. rewrite !Forall_forall. simpl. split; intros H.
  - intros [k' j] Hin Hf. simpl. eapply (H (MkBatchCall _ k' (is_guaranteed j) (is_fallible j))); [|exact Hf].
    apply list_elem_of_omap. exists (k', j). split; [done|]. unfold call_of. simpl. rewrite bool_decide_eq_false_2; [done|]. intros E.
    apply Hl. rewrite <- E. by apply list_elem_of_fmap_2, (list_elem_of_fmap_2 snd _ (k', j)).
  - intros c (e & He & Ec)%list_elem_of_omap Hf. unfold call_of in Ec. case_bool_decide; [done|]. injection Ec as <-. by apply (H e).
Qed.

Lemma sorted_weaken {A} (R R' : relation A) l : (∀ x y, R x y → R' x y) → StronglySorted R l → StronglySorted R' l.
Proof.
  intros HR. induction 1 as [|x l _ IH Hf]; constructor; [done|]. eapply Forall_impl; [exact Hf|]. intros y. apply HR.
Qed.

(** A call with both parts behind one with a fallible part. *)
Definition clash (e e' : Z * Intent) : bool := is_fallible e.2 && is_guaranteed e'.2 && is_fallible e'.2.

Lemma grouped_causal (picked : Intents) :
  StronglySorted (λ e e' : Z * Intent, is_fallible e.2 = true → is_guaranteed e'.2 = false)
    (merge_sort (rank_le 0) (imap pair picked)).*2 ↔
  StronglySorted (λ e e', clash e e' = false) picked.
Proof.
  rewrite grouped_by_stage, StronglySorted_app, !sorted_filter_iff. split.
  - intros (_ & _ & H). eapply sorted_weaken; [|exact H]. intros e e' H'. simpl in H'. unfold clash.
    destruct (is_fallible e.2), (is_fallible e'.2); simpl; try done; rewrite ?andb_false_r; try done. by rewrite H'.
  - intros H. split_and!.
    + intros x y [Hx _]%list_elem_of_filter _ Hf. congruence.
    + eapply sorted_weaken; [|exact H]. congruence.
    + eapply sorted_weaken; [|exact H]. unfold clash. intros e e' H' Hf Hf' _. rewrite Hf, Hf' in H'. by rewrite andb_true_r in H'.
Qed.

Lemma sorted_by_index {A} (R : relation A) l :
  StronglySorted R l ↔ ∀ i j x y, (i < j)%nat → l !! i = Some x → l !! j = Some y → R x y.
Proof.
  induction l as [|z l IH]; [split; [intros _ i j x y _ Hi; by rewrite lookup_nil in Hi|constructor]|].
  rewrite StronglySorted_cons, IH, Forall_forall. split.
  - intros [H1 H2] [|i] [|j] x y Hij Hi Hj; try lia; simpl in *; [|apply (H2 i j); [lia|done..]].
    injection Hi as ->. apply H1. by eapply list_elem_of_lookup_2.
  - intros H. split; [|intros i j x y Hij Hi Hj; apply (H (S i) (S j)); [lia|done..]].
    intros y [j Hj]%list_elem_of_lookup. apply (H 0%nat (S j)); [lia|done|done].
Qed.

(** Independent calls are refused exactly when a call with both parts is listed
    behind a call with a fallible part: a batch that holds every contract call and
    could be matched is proved unless there is such a pair, or the preflight refuses
    it. *)
Theorem independent_calls_refused_exactly intents circuits ids tx' :
  NoDup intents.*1 → EmptyString ∉ circuits → length (orderedCalls (Some intents)) = length circuits → (2 ≤ length circuits)%nat →
  orderBatchSegments (Some intents) circuits (MkBatchOptions true None ids) = (true, tx') →
  ∃ picked, picks intents circuits (MkBatchOptions true None ids) picked ∧
    (withOrderedBatchSegments None circuits (MkBatchOptions true None ids) (Some intents) = inr tx' ↔
     ∀ i j e e', (i < j)%nat → picked !! i = Some e → picked !! j = Some e' → clash e e' = false).
Proof.
  intros Hn He Hl Hc Ho. pose proof Ho as (m & picked & rest & -> & Hm & Hp & Hr & Hr')%ordering_result; [|done]. exists picked. split; [done|].
  assert (EmptyString ∉ entryPointName <$> picked.*2) as Hne by (destruct Hp as (-> & _); done).
  destruct (batch_calls intents circuits _ m picked rest Hm Hp Hr Hr' Hl He) as [_ Hflags].
  assert (withOrderedBatchSegments None circuits (MkBatchOptions true None ids) (Some intents) = inr (Some m) ↔ causal (orderedCalls (Some m))) as ->.
  { unfold withOrderedBatchSegments. destruct (Nat.ltb_spec (length circuits) 2) as [|_]; [lia|]. rewrite Ho. rewrite <- violation_none.
    unfold findCausalityViolation. destruct (find_violation _); by split. }
  assert (causal (orderedCalls (Some m)) ↔ causal (omap call_of (group_calls (MkBatchOptions true None ids) picked))) as ->.
  { split; apply causal_flags; [exact Hflags|by symmetry]. }
  rewrite causal_entries, <- sorted_by_index, <- grouped_causal.
  - assert (group_calls (MkBatchOptions true None ids) picked = (merge_sort (rank_le 0) (imap pair picked)).*2) as ->; [|done].
    unfold group_calls. simpl. assert (prefix_of (MkBatchOptions true None ids) (length picked) = 0%nat) as ->; [|done].
    unfold prefix_of. simpl. lia.
  - intros Hin. apply Hne. revert Hin. by rewrite group_permutes.
Qed.

(** Two calls that do not depend on each other: the wrapper keeps a fallible call
    before one with both parts, and refuses; listed the other way round they pass. *)
Example stage_grouping_misses_an_order :
  let opts := MkBatchOptions true None None in
  withOrderedBatchSegments None ["a"; "b"] opts (Some [(1, call 0 "a" false true); (2, call 1 "b" true true)]%Z) =
    inl (Causality [MkBatchCall "a" 1 false true; MkBatchCall "b" 2 true true]) ∧
  withOrderedBatchSegments None ["b"; "a"] opts (Some [(1, call 0 "a" false true); (2, call 1 "b" true true)]%Z) =
    inr (Some [(1, call 1 "b" true true); (2, call 0 "a" false true)]%Z).
Proof. split; vm_compute; reflexivity. Qed.

(** ** Witnesses *)

Definition sample_batch : Intents := [(70, call 0 "b" true false); (5, MkIntent 1 None); (20, call 2 "a" true true); (30, call 3 "a" true false)]%Z.

Lemma sample_batch_map : NoDup sample_batch.*1.
Proof. apply (bool_decide_unpack (NoDup sample_batch.*1)). vm_compute. done. Qed.

Lemma proved_batch_applies_in_order_witness : ∃ intents', c_name <$> orderedCalls (Some intents') = ["b"; "a"; "a"] ∧ intents'.*1 ≡ₚ sample_batch.*1.
Proof.
  destruct (proved_batch_applies_in_order None ["b"; "a"; "a"] (MkBatchOptions false None (Some [Some 70; Some 30; Some 20]%Z)) sample_batch
    (Some [(5, MkIntent 1 None); (20, call 0 "b" true false); (30, call 3 "a" true false); (70, call 2 "a" true true)]%Z))
    as (m & picked & _ & _ & Hk & _ & _ & _ & _ & Hc).
  - exact sample_batch_map.
  - simpl. lia.
  - vm_compute. reflexivity.
  - exists m. split; [|exact Hk]. apply Hc; [reflexivity|reflexivity|]. apply (bool_decide_unpack (EmptyString ∉ ["b"; "a"; "a"])). vm_compute. exact I.
Defined.

Lemma independent_calls_refused_exactly_witness :
  withOrderedBatchSegments None ["a"; "b"; "a"] (MkBatchOptions true None None) (Some sample_batch) =
  inr (Some [(5, MkIntent 1 None); (20, call 0 "b" true false); (30, call 3 "a" true false); (70, call 2 "a" true true)]%Z).
Proof.
  destruct (independent_calls_refused_exactly sample_batch ["a"; "b"; "a"] None
    (Some [(5, MkIntent 1 None); (20, call 0 "b" true false); (30, call 3 "a" true false); (70, call 2 "a" true true)]%Z))
    as (picked & (Hnames & Hsub & _) & Hiff).
  - exact sample_batch_map.
  - apply (bool_decide_unpack (EmptyString ∉ ["a"; "b"; "a"])). vm_compute. exact I.
  - reflexivity.
  - simpl. lia.
  - vm_compute. reflexivity.
  - apply Hiff. intros i j e e' Hij Hi Hj. destruct (clash e e') eqn:Ec; [exfalso|reflexivity].
    apply andb_true_iff in Ec as [[Hf _]%andb_true_iff Hf'].
    assert (∀ x, x ∈ picked → is_fallible x.2 = true → x = (20, call 2 "a" true true)%Z) as Hone.
    { intros x Hx Hxf. eapply elem_of_submseteq in Hx; [|exact Hsub]. unfold sample_batch in Hx.
      repeat (apply elem_of_cons in Hx as [->|Hx]; [first [reflexivity|discriminate]|]). by apply not_elem_of_nil in Hx. }
    assert (NoDup picked) as Hnd.
    { apply submseteq_Permutation in Hsub as [k Hk]. pose proof sample_batch_map as Hm. apply NoDup_fmap_1 in Hm. rewrite Hk in Hm.
      by apply NoDup_app in Hm as [? _]. }
    assert (i = j) as ->; [|lia]. eapply NoDup_lookup; [exact Hnd|exact Hi|]. rewrite Hj. f_equal.
    rewrite (Hone e), (Hone e'); [reflexivity|by eapply list_elem_of_lookup_2|exact Hf'|by eapply list_elem_of_lookup_2|exact Hf].
Defined.
