(* ===== verification/SponsorJobs.v ===== *)
(** The jobs that pay the fees of a caller's transaction
    (srv/submission/executors/sponsor.ts, reportBroadcastOn and
    reportSubmissionRejectedOn of srv/submission/job-execution-context.ts) and the
    pool of wallets they take (srv/submission/sponsor-pool.ts).

    A job tries sponsor wallets in turn. Each attempt may announce a
    transaction, whose attempt row, deploy reservation and job status are
    written in one transaction before the worker may broadcast. *)
From S2P Require Import Prelude Db Json Numbers Schema SponsorPolicy GrantScope GrantBudgets AgentAccess Retry.
From S2P Require Import InstanceLease JobStore SubmitFailure WorkerProtocol Reconciliation GrantAdmin.

Local Open Scope string_scope.

Record SponsorLane := MkLane { l_busy : bool; l_lastUsed : Z; l_cooldownUntil : Z }.
Notation Lanes := (gmap string SponsorLane).

Definition new_lane : SponsorLane := MkLane false 0 0.

(** [lane(id)]. A lane that is asked for the first time is added as a new one;
    adding it is not told apart from leaving it out. *)
Definition lane (id : string) (ls : Lanes) : SponsorLane := nullish (ls !! id) new_lane.

Definition gateRank (atGate : option (string → bool)) (id : string) : Z :=
  match atGate with Some g => if g id then 0 else 1 | None => 0 end.

(** The wallet found so far with its rank and last use; none compares as
    infinite. *)
Definition better (rank used : Z) (best : option (string * Z * Z)) : bool :=
  match best with
  | None => true
  | Some (_, r, u) => bool_decide (rank < r)%Z || (bool_decide (rank = r) && bool_decide (used < u)%Z)
  end.

Definition usable (now : Z) (s : SponsorLane) : bool := negb (l_busy s || bool_decide (now < l_cooldownUntil s)%Z).

Definition pick_step (now : Z) (atGate : option (string → bool)) (ls : Lanes) (best : option (string * Z * Z)) (id : string) :
    option (string * Z * Z) :=
  let s := lane id ls in
  if usable now s && better (gateRank atGate id) (l_lastUsed s) best then Some (id, gateRank atGate id, l_lastUsed s) else best.

Definition pickFreeSponsor (poolIds : list string) (now : Z) (atGate : option (string → bool)) (ls : Lanes) : option string :=
  (λ b, b.1.1) <$> foldl (pick_step now atGate ls) None poolIds.

Definition releaseSponsor (id : string) (ls : Lanes) : Lanes :=
  <[id := MkLane false (l_lastUsed (lane id ls)) (l_cooldownUntil (lane id ls))]> ls.

Definition benchSponsor (id : string) (cooldownMs now : Z) (ls : Lanes) : Lanes :=
  <[id := MkLane false (l_lastUsed (lane id ls)) (now + cooldownMs)]> ls.

Definition touchSponsor (id : string) (now : Z) (ls : Lanes) : Lanes :=
  <[id := MkLane (l_busy (lane id ls)) now (l_cooldownUntil (lane id ls))]> ls.

Definition hold_lane (id : string) (now : Z) (ls : Lanes) : Lanes :=
  <[id := MkLane true now (l_cooldownUntil (lane id ls))]> ls.

Definition pool_empty : exn := js_error "sponsor pool is empty (NIGHTGATE_FEE_SPONSOR_SESSION)".
Definition pool_busy (n : nat) : exn :=
  js_error ("all " ++ pretty (Z.of_nat n) ++ " pool sponsors are busy or cooling down; resubmit shortly").

(** The loop of [acquireSponsor]. [others i]: what other jobs do to the lanes
    during the pause before look [i]; [clock i]: the time of look [i]. A loop
    that does not end within [fuel] looks answers none. *)
Fixpoint acquire_lane (fuel i : nat) (others : nat → Lanes → Lanes) (clock : nat → Z) (poolIds : list string) (deadline : Z)
    (atGate : option (string → bool)) : M Lanes (option string) := λ ls,
  match fuel with
  | O => (Ret None, ls)
  | S fuel' =>
      let ls := others i ls in
      match pickFreeSponsor poolIds (clock i) atGate ls with
      | Some id => (Ret (Some id), hold_lane id (clock i) ls)
      | None =>
          if bool_decide (deadline ≤ clock i)%Z then (Throw (pool_busy (length poolIds)), ls)
          else acquire_lane fuel' (S i) others clock poolIds deadline atGate ls
      end
  end.

Definition acquireSponsor (fuel : nat) (others : nat → Lanes → Lanes) (clock : nat → Z) (poolIds : list string) (waitMs : Z)
    (atGate : option (string → bool)) : M Lanes (option string) :=
  if bool_decide (poolIds = []) then throw pool_empty
  else acquire_lane fuel 0 others clock poolIds (clock 0 + waitMs) atGate.

(** [.sort((a, b) => a.rank - b.rank || a.lastUsed - b.lastUsed)], stable. *)
Definition lane_le (ls : Lanes) (atGate : option (string → bool)) : relation string := λ a b,
  (gateRank atGate a < gateRank atGate b)%Z ∨
  (gateRank atGate a = gateRank atGate b ∧ (l_lastUsed (lane a ls) ≤ l_lastUsed (lane b ls))%Z).
#[export] Instance lane_le_dec ls atGate : RelDecision (lane_le ls atGate).
Proof. intros a b. unfold lane_le. apply _. Defined.

Definition sponsorCandidatesNonExclusive (poolIds : list string) (now : Z) (atGate : option (string → bool)) (ls : Lanes) : list string :=
  merge_sort (lane_le ls atGate) (keep (λ id, bool_decide (l_cooldownUntil (lane id ls) ≤ now)%Z) poolIds).

(** ** What a failed attempt means *)

Section Failures.
Context (errs : nat → ErrObj) (inspect : nat → string).
Implicit Types (err : nat).

Definition retry_text (msg : string) : bool :=
  includes_ci "genuine sync" msg || includes_ci "genuinely sync" msg || includes_ci "not caught up" msg ||
  on_line_after "sync" ["timeout"; "timed out"; "stalled"] msg || includes_ci "not synced to tip" msg ||
  includes_ci "No facade for sponsorSessionId" msg || on_line_after "dust" ["stale"; "validity"] msg ||
  includes_ci "WALLET_SYNCING" msg || includes_ci "Sponsor session" msg.

Definition isRetryableSponsorFailure (err : nat) : bool :=
  let info := classifySubmitFailure errs inspect err in
  let code := nightgate_code errs err in
  if bool_decide (code = Some "WALLET_NOT_SYNCED") || bool_decide (code = Some "FEE_SPONSOR_UNUSABLE") then true
  else if bool_decide (eo_name (errs err) = Some "FeeSponsorError") then true
  else match fi_code info with
       | DustRace => negb (bool_decide (fi_ledgerCode info = Some "pool-invalid"))
       | Internal => retry_text (nullish (eo_message (errs err)) (eo_string (errs err)))
       | _ => false
       end.

Definition isDustRaceFailure err : bool := bool_decide (fi_code (classifySubmitFailure errs inspect err) = DustRace).
Definition isCallNotAppliedFailure err : bool := bool_decide (fi_code (classifySubmitFailure errs inspect err) = LandedNotApplied).
Definition isAmbiguousSubmitOutcome err : bool := bool_decide (fi_code (classifySubmitFailure errs inspect err) = Ambiguous).
Definition isGenericInvalidFailure err : bool :=
  let info := classifySubmitFailure errs inspect err in
  bool_decide (fi_code info = DustRace) && bool_decide (fi_ledgerCode info = Some "pool-invalid").

Definition isPreInclusionReject err : bool :=
  let info := classifySubmitFailure errs inspect err in
  match fi_code info with
  | PreMempoolReject | DustRace => true
  | Transport => mem (nullish (fi_ledgerCode info) EmptyString) ["closing-socket"; "not-sent"; "wallet-not-synced"]
  | _ => false
  end.

Inductive SponsorFailureDecision := DecideAmbiguous | DecideLanded | DecideRebuild | DecideFailover | DecideFail.

Record SponsorVerdict := MkVerdict { v_decision : SponsorFailureDecision; v_generic : bool; v_preInclusion : bool }.

Definition decideSponsorFailure (err : nat) : SponsorVerdict :=
  let info := classifySubmitFailure errs inspect err in
  let preInclusion := isPreInclusionReject err in
  match fi_code info with
  | Ambiguous => MkVerdict DecideAmbiguous false false
  | LandedNotApplied => MkVerdict DecideLanded false false
  | DustRace => MkVerdict DecideRebuild (bool_decide (fi_ledgerCode info = Some "pool-invalid")) preInclusion
  | _ => if isRetryableSponsorFailure err then MkVerdict DecideFailover false preInclusion
         else MkVerdict DecideFail false preInclusion
  end.
End Failures.

#[export] Instance SponsorFailureDecision_eq_dec : EqDecision SponsorFailureDecision.
Proof. solve_decision. Defined.

(** * The jobs *)

(** ** State *)

(** What jobs and processes share: the database, the instance lease and the
    pool's lanes; and this process's view of the lease. *)
Record Shared := MkShared { sh_db : Database; sh_leases : Leases; sh_proc : LeaseProc; sh_lanes : Lanes }.

(** The variables of [sponsorAttemptLedger]. *)
Record Ledger := MkLedger {
  boundaryCrossed : bool; currentSubmissionId : option string; currentTxHash : option string; reservedDeploys : Z }.

(** [s_acked]: the attempts whose announcement was acknowledged so far, by
    number and row, so that the worker may have broadcast them. The code does
    not keep it. *)
Record JobState := MkJobState { s_shared : Shared; s_ledger : Ledger; s_active : string; s_acked : list (nat * string) }.

Definition with_db (d : Database) (s : Shared) : Shared := MkShared d (sh_leases s) (sh_proc s) (sh_lanes s).
Definition with_proc (p : LeaseProc) (s : Shared) : Shared := MkShared (sh_db s) (sh_leases s) p (sh_lanes s).
Definition with_lanes (l : Lanes) (s : Shared) : Shared := MkShared (sh_db s) (sh_leases s) (sh_proc s) l.
Definition with_shared (x : Shared) (s : JobState) : JobState := MkJobState x (s_ledger s) (s_active s) (s_acked s).
Definition with_ledger (l : Ledger) (s : JobState) : JobState := MkJobState (s_shared s) l (s_active s) (s_acked s).

Definition new_ledger : Ledger := MkLedger false None None 0.

(** A statement of the database, within the shared state. *)
Definition on_database {A} (m : M Database A) : M Shared A := λ s,
  let '(o, d) := m (sh_db s) in (o, with_db d s).

(** [runInOneTransaction]: a throw undoes the database, not the process's view
    of its lease. *)
Definition in_one_transaction {A} (m : M Shared A) : M Shared A := λ s,
  match m s with
  | (Ret a, s') => (Ret a, s')
  | (Throw x, s') => (Throw x, with_db (sh_db s) s')
  end.

Definition on_shared {A} (m : M Shared A) : M JobState A := λ s,
  let '(o, x) := m (s_shared s) in (o, with_shared x s).

(** ** Reports to the job *)

Definition lease_check : M Shared unit := λ s,
  let '(r, p) := assertLeaseHeld (sh_leases s) (sh_proc s) in
  (match r with inl x => Throw x | inr u => Ret u end, with_proc p s).

Definition reportBroadcastOn (e : Env) (jobId : string) (h : Handle) : M Shared unit :=
  _ ← lease_check; on_database (markJobBroadcastOn e jobId h).

Definition reportSubmissionRejectedOn (e : Env) (jobId : string) (h : Handle) : M Shared unit :=
  on_database (markJobSubmissionRejectedOn e jobId h).

(** ** Attempt rows *)

(** [SponsorJobCommand], as far as the executor reads it; [sc_offerId] is
    [swap?.offerId]. *)
Record SponsorCommand := MkSponsorCommand {
  sc_sponsorSessionId : string; sc_grantId : option string; sc_swap : bool; sc_transfer : bool; sc_offerId : option string }.

(** [command?.grantId ? .. : null] *)
Definition grant_of (c : SponsorCommand) : option string :=
  g ← sc_grantId c; if is_empty g then None else Some g.

Definition insert_submission (k : string) (r : Submission) : M Database unit := λ d,
  match submissions d !! k with
  | Some _ => (Throw unique_violation, d)
  | None => (Ret tt, with_submissions (<[k := r]> (submissions d)) d)
  end.

(** [{ ..., ...(cond ? { k: v } : {}) }] *)
Definition field_if (k : string) (v : option json) : list (string * json) :=
  match v with Some x => [(k, x)] | None => [] end.
Definition nonempty_list (l : option (list string)) : option json :=
  match l with Some (x :: xs) => Some (JArr (JStr <$> x :: xs)) | _ => None end.
Definition nonempty_text (t : option string) : option json :=
  x ← t; if is_empty x then None else Some (JStr x).
Definition nonempty_array (j : option json) : option json :=
  match j with Some (JArr (x :: xs)) => j | _ => None end.

Definition deployed_of (it : SubmitIntent) : list string := keep (λ x, negb (is_empty x)) (nullish (in_deployed it) []).

Definition coordinates (feeSponsor : string) (command : SponsorCommand) (it : SubmitIntent) : json :=
  let deployed := deployed_of it in
  JObj ([("feeSponsor", JStr feeSponsor); ("sponsorAccountId", json_of_string (in_sponsorAccountId it));
         ("circuits", JArr (JStr <$> nullish (in_circuits it) [])); ("contractAddress", json_of_string (in_contractAddress it))] ++
        field_if "note" (nonempty_text (in_note it)) ++ field_if "ttl" (nonempty_text (in_ttl it)) ++
        field_if "segments" (nonempty_array (in_segments it)) ++ field_if "deployed" (nonempty_list (Some deployed)) ++
        field_if "minted" (nonempty_list (in_minted it)) ++ field_if "nullifiers" (nonempty_list (in_nullifiers it)) ++
        field_if "unshielded" (nonempty_array (in_unshielded it)) ++ field_if "transfer" (in_transfer it) ++
        field_if "offerId" (nonempty_text (sc_offerId command)) ++
        field_if "deployReservation"
          (match grant_of command, deployed with
           | Some g, _ :: _ => Some (JObj [("grantId", JStr g); ("count", JInt (Z.of_nat (length deployed)))])
           | _, _ => None
           end))%list.

Definition sponsor_row (now : Z) (feeSponsor : string) (command : SponsorCommand) (it : SubmitIntent) : Submission :=
  MkSubmission SubPending (Some (in_txHash it)) (in_contractAddress it) (head (nullish (in_circuits it) [])) now
    None None None None None (Some (Text (coordinates feeSponsor command it))) None None.

Definition budget_exhausted (n : nat) : exn :=
  js_error ("deploy budget of the grant is exhausted or the grant no longer allows deploys (" ++ pretty (Z.of_nat n) ++
            " deploy(s) in this transaction); not broadcasting").

Section Executor.
(** [errs], [inspect]: the errors the worker and the wallets throw. [e]: the
    clock, the worker id and the faults of the database. *)
Context (errs : nat → ErrObj) (inspect : nat → string) (e : Env) (jobId : string) (command : SponsorCommand).

(** The deploys that still need a reservation. *)
Definition deploys_needed (l : Ledger) (it : SubmitIntent) : Z :=
  match grant_of command with
  | Some _ => Z.max 0 (Z.of_nat (length (deployed_of it)) - reservedDeploys l)
  | None => 0
  end.

(** The transaction of [onSubmitIntent], as retry attempt [i] runs it. *)
Definition intent_tx (i : nat) (l : Ledger) (submissionId feeSponsor : string) (it : SubmitIntent) : M Shared unit :=
  in_one_transaction
    (_ ← on_database (stmt e "sponsorAttempt" i 0 (insert_submission submissionId (sponsor_row (clock e i) feeSponsor command it)));
     let need := deploys_needed l it in
     _ ← (if bool_decide (0 < need)%Z
          then ok ← on_database (stmt e "sponsorAttempt" i 1 (reserveDeployBudget (nullish (grant_of command) EmptyString) need));
               if (ok : bool) then mret tt else throw (budget_exhausted (length (deployed_of it)))
          else mret tt);
     reportBroadcastOn e jobId (MkHandle (Some submissionId) (Some (in_txHash it)) (Some (negb (boundaryCrossed l))))).

(** [onSubmitIntent]: acknowledged when it returns. *)
Definition onSubmitIntent (n : nat) (submissionId : string) (it : SubmitIntent) : M JobState unit := λ s,
  let l := s_ledger s in
  match withLockContentionRetry (λ i, intent_tx i l submissionId (s_active s) it) (s_shared s) with
  | (Throw x, x') => (Throw x, with_shared x' s)
  | (Ret _, x') =>
      let reserved := match grant_of command, deployed_of it with
                      | Some _, _ :: _ => Z.of_nat (length (deployed_of it))
                      | _, _ => reservedDeploys l
                      end in
      (Ret tt, MkJobState x' (MkLedger true (Some submissionId) (Some (in_txHash it)) reserved) (s_active s)
                 (s_acked s ++ [(n, submissionId)])%list)
  end.

Definition bookkeeping_pending (rowId why : string) (x : exn) : exn :=
  Exn "SponsorAttemptBookkeepingPendingError" REJECTED_ATTEMPT_BOOKKEEPING_PENDING
    ("sponsoring attempt " ++ rowId ++ " was rejected before inclusion but its bookkeeping (close, refund, hash) could not be committed: " ++
     ex_msg x ++ ". Settled by the reconciler. Original failure: " ++ slice0 200 why).

Definition attempt_not_closed (why : string) (x : exn) : exn :=
  js_error ("sponsoring attempt could not be closed (" ++ ex_msg x ++
            "); the job stops here for reconciliation instead of rebuilding on an open attempt. Original failure: " ++ slice0 200 why).

Definition close_patch (preInclusion : bool) (why : string) : list sub_set :=
  [SSetStatus SubFailed; SSetErrorCode (Some (if preInclusion then "REJECTED" else "REBUILT")); SSetErrorMessage (Some (slice0 500 why))].

Definition refund_due (l : Ledger) (preInclusion : bool) : Z :=
  match grant_of command with
  | Some _ => if preInclusion && bool_decide (0 < reservedDeploys l)%Z then reservedDeploys l else 0
  | None => 0
  end.

Definition close_tx (i : nat) (l : Ledger) (rowId why : string) (preInclusion : bool) : M Shared unit :=
  let refund := refund_due l preInclusion in
  in_one_transaction
    (_ ← on_database (stmt e "failSponsorAttempt" i 0 (update_submission rowId (λ _, true) (close_patch preInclusion why)));
     _ ← (if bool_decide (0 < refund)%Z
          then on_database (stmt e "failSponsorAttempt" i 1 (releaseDeployBudget (nullish (grant_of command) EmptyString) refund))
          else mret tt);
     if preInclusion then reportSubmissionRejectedOn e jobId (MkHandle (Some rowId) (currentTxHash l) None) else mret tt).

Definition failPreviousAttempt (why : string) (preInclusion : bool) : M JobState unit := λ s,
  let l := s_ledger s in
  match currentSubmissionId l with
  | None => (Ret tt, s)
  | Some rowId =>
      match withLockContentionRetry (λ i, close_tx i l rowId why preInclusion) (s_shared s) with
      | (Throw x, x') => (Throw (if preInclusion then bookkeeping_pending rowId why x else attempt_not_closed why x), with_shared x' s)
      | (Ret _, x') =>
          (Ret tt, MkJobState x' (MkLedger (boundaryCrossed l) None None
                                    (if bool_decide (0 < refund_due l preInclusion)%Z then 0 else reservedDeploys l))
                     (s_active s) (s_acked s))
      end
  end.

(** What a landed transaction answers. *)
Record SponsorOut := MkOut {
  so_txHash : string; so_contractAddress : option string; so_circuits : list string; so_deployed : list string; so_minted : list string }.

Definition markIncluded (out : SponsorOut) : M JobState unit := λ s,
  match currentSubmissionId (s_ledger s) with
  | None => (Ret tt, s)
  | Some rowId =>
      on_shared (try_catch (_ ← on_database (stmt e "markIncluded" 0 0 (update_submission rowId (λ _, true)
        [SSetStatus SubIncluded; SSetContractAddress (so_contractAddress out); SSetCircuitName (head (so_circuits out))])); mret tt)
        (λ _, mret tt)) s
  end.

(** [recordOnGrant]: the learned token types and the swap offers are tables the
    model leaves out; recording the former may throw. *)
Definition recordOnGrant (out : SponsorOut) : M Shared unit :=
  _ ← (match so_minted out with
       | [] => mret tt
       | _ => _ ← on_database (stmt e "recordLearnedTokenTypes" 0 0 (mret tt));
              match grant_of command with
              | Some g => try_catch (on_database (stmt e "recordMintedTokenTypes" 0 0 (recordMintedTokenTypes g (so_minted out)))) (λ _, mret tt)
              | None => mret tt
              end
       end);
  match grant_of command, so_deployed out with
  | Some g, _ :: _ => on_database (stmt e "recordDeployedContracts" 0 0 (recordDeployedContracts g (so_deployed out)))
  | _, _ => mret tt
  end.

(** ** Attempts *)

(** How attempt [n] goes: the sponsor cannot be used, the policy refuses, the
    worker announces a transaction or not, and answers. [w_nacked] is the
    worker's error when the announcement was refused; [w_others n k] what other
    jobs and processes do to the shared state before step [k]. *)
Record AttemptWorld := MkAttemptWorld {
  w_resolve : nat → option nat; w_policy : nat → option nat; w_intent : nat → option SubmitIntent;
  w_nacked : nat → nat; w_result : nat → nat + SponsorOut; w_ids : nat → string;
  w_others : nat → nat → Shared → Shared; w_now : nat → Z }.

Context (w : AttemptWorld).

(** What ended an attempt: an object of the worker's or wallets', or an error
    of the server's own code. *)
Inductive Thrown := Foreign (err : nat) | Own (x : exn).

Definition own_object (x : exn) : ErrObj :=
  MkErr true true false (Some (ex_name x)) (if is_empty (ex_code x) then None else Some (ex_code x)) (Some (ex_msg x))
    EmptyString EmptyString None None false None None None.

Definition verdict_of (t : Thrown) : SponsorVerdict :=
  match t with
  | Foreign a => decideSponsorFailure errs inspect a
  | Own x => decideSponsorFailure (λ _, own_object x) (λ _, ex_msg x) 0
  end.

Definition message_of (t : Thrown) : string :=
  match t with Foreign a => errorMessage (errs a) | Own x => ex_msg x end.

Definition others_act (n k : nat) (s : JobState) : JobState := with_shared (w_others w n k (s_shared s)) s.

(** [sponsorAttempt] with the worker's call. *)
Definition sponsorAttempt (n : nat) (sessionId : string) (s : JobState) : (Thrown + SponsorOut) * JobState :=
  let s := others_act n 0 s in
  match w_resolve w n with
  | Some a => (inl (Foreign a), s)
  | None =>
      let s := MkJobState (s_shared s) (s_ledger s) sessionId (s_acked s) in
      match w_policy w n with
      | Some a => (inl (Foreign a), s)
      | None =>
          let s := others_act n 1 s in
          let '(refused, s) :=
            match w_intent w n with
            | None => (false, s)
            | Some msg =>
                match onSubmitIntent n (w_ids w n) (received_intent msg) s with
                | (Ret _, s') => (false, s')
                | (Throw _, s') => (true, s')
                end
            end in
          let s := others_act n 2 s in
          if (refused : bool) then (inl (Foreign (w_nacked w n)), s)
          else match w_result w n with
               | inl a => (inl (Foreign a), s)
               | inr out => let '(_, s) := markIncluded out s in (inr out, s)
               end
      end
  end.

(** How the job ends. [OutOfLooks]: the wait for a lane did not end within its
    looks. *)
Inductive SponsorEnd := Sponsored (out : SponsorOut) | Failed (t : Thrown) | OutOfLooks.

Definition on_lanes (f : Lanes → Lanes) (s : JobState) : JobState := with_shared (with_lanes (f (sh_lanes (s_shared s))) (s_shared s)) s.

(** [Math.min(1, dustRetries)] for a generic rejection. *)
Definition rebuild_budget (v : SponsorVerdict) (dustRetries : nat) : nat := if v_generic v then min 1 dustRetries else dustRetries.

Context (dustRetries : nat) (cooldownMs : Z).

(** The attempts on one wallet of [executeSponsorUnbound], from attempt
    [attempt] on with [left] more allowed; [n] numbers the attempts of the job.
    [inl]: the job ends; [inr]: the next wallet, with the error so far. *)
Fixpoint unbound_attempts (left attempt n : nat) (sessionId : string) (s : JobState) : (SponsorEnd + Thrown) * nat * JobState :=
  let '(r, s) := sponsorAttempt n sessionId s in
  let caught (t : Thrown) (s : JobState) : (SponsorEnd + Thrown) * nat * JobState :=
    let v := verdict_of t in
    match v_decision v with
    | DecideAmbiguous | DecideLanded => (inl (Failed t), S n, s)
    | _ =>
        match failPreviousAttempt (message_of t) (v_preInclusion v) s with
        | (Throw x, s) => (inl (Failed (Own x)), S n, s)
        | (Ret _, s) =>
            match v_decision v with
            | DecideRebuild =>
                if bool_decide (attempt < rebuild_budget v dustRetries)%nat
                then match left with
                     | O => (inr t, S n, s)
                     | S left' => unbound_attempts left' (S attempt) (S n) sessionId s
                     end
                else (inl (Failed t), S n, s)
            | DecideFail => (inl (Failed t), S n, s)
            | _ => (inr t, S n, on_lanes (benchSponsor sessionId cooldownMs (w_now w n)) s)
            end
        end
    end in
  match r with
  | inl t => caught t s
  | inr out =>
      match on_shared (recordOnGrant out) s with
      | (Ret _, s) => (inl (Sponsored out), S n, s)
      | (Throw x, s) => caught (Own x) s
      end
  end.

Definition no_candidate : exn := js_error "no sponsor candidate available".

Fixpoint unbound_candidates (candidates : list string) (lastErr : Thrown) (n : nat) (s : JobState) : SponsorEnd * nat * JobState :=
  match candidates with
  | [] => (Failed lastErr, n, s)
  | sessionId :: rest =>
      let s := on_lanes (touchSponsor sessionId (w_now w n)) s in
      match unbound_attempts dustRetries 0 n sessionId s with
      | (inl r, n, s) => (r, n, s)
      | (inr t, n, s) => unbound_candidates rest t n s
      end
  end.

(** [sponsorCandidates]: a named sponsor is never swapped for another. *)
Definition pool_not_configured : exn := js_error "platform sponsor pool is empty (NIGHTGATE_FEE_SPONSOR_SESSION)".
Definition sponsorCandidates (pool : list string) (fromPool : list string → list string) : exn + list string :=
  if negb (bool_decide (sc_sponsorSessionId command = PLATFORM_POOL_SENTINEL)) then inr [sc_sponsorSessionId command]
  else if bool_decide (pool = []) then inl pool_not_configured else inr (fromPool pool).

Definition executeSponsorUnbound (pool : list string) (start : Z) (atGate : option (string → bool)) (x : Shared) : SponsorEnd * nat * JobState :=
  let s := MkJobState x new_ledger (sc_sponsorSessionId command) [] in
  match sponsorCandidates pool (λ p, sponsorCandidatesNonExclusive p start atGate (sh_lanes x)) with
  | inl err => (Failed (Own err), 0%nat, s)
  | inr candidates => unbound_candidates candidates (Own no_candidate) 0 s
  end.

(** ** Bound transactions: one job at a time on a wallet *)

(** The attempts of [executeSponsorFinalized] on the wallet it holds. *)
Fixpoint finalized_attempts (left attempt n : nat) (sessionId : string) (s : JobState) : (SponsorEnd + Thrown) * nat * JobState :=
  let '(r, s) := sponsorAttempt n sessionId s in
  let release := on_lanes (releaseSponsor sessionId) in
  let caught (t : Thrown) (s : JobState) : (SponsorEnd + Thrown) * nat * JobState :=
    let v := verdict_of t in
    match v_decision v with
    | DecideAmbiguous | DecideLanded => (inl (Failed t), S n, release s)
    | _ =>
        match failPreviousAttempt (message_of t) (v_preInclusion v) s with
        | (Throw x, s) => (inl (Failed (Own x)), S n, release s)
        | (Ret _, s) =>
            let bench s := on_lanes (benchSponsor sessionId cooldownMs (w_now w n)) s in
            match v_decision v with
            | DecideRebuild =>
                if bool_decide (attempt < rebuild_budget v dustRetries)%nat
                then match left with
                     | O => (inr t, S n, s)
                     | S left' => finalized_attempts left' (S attempt) (S n) sessionId s
                     end
                else if v_generic v then (inl (Failed t), S n, release s)
                else (inr t, S n, bench s)
            | DecideFail => (inl (Failed t), S n, release s)
            | _ => (inr t, S n, bench s)
            end
        end
    end in
  match r with
  | inl t => caught t s
  | inr out =>
      let s := others_act n 3 (release s) in
      match on_shared (recordOnGrant out) s with
      | (Ret _, s) => (inl (Sponsored out), S n, s)
      | (Throw x, s) => caught (Own x) s
      end
  end.

(** The waits for a lane: looks and pauses of wait [j], and how many looks are
    counted before the model gives up. *)
Context (looks : nat) (lane_others : nat → nat → Lanes → Lanes) (look_clock : nat → nat → Z) (atGate : option (string → bool)).

(** [while (candidates.length > 0)], with the last error if there is one. *)
Fixpoint finalized_candidates (fuel j : nat) (candidates : list string) (deadline : Z) (lastErr : option Thrown) (n : nat) (s : JobState) :
    SponsorEnd * nat * JobState :=
  match fuel, candidates with
  | _, [] => (Failed (nullish lastErr (Own no_candidate)), n, s)
  | O, _ => (OutOfLooks, n, s)
  | S fuel', _ =>
      let waitMs := Z.max 0 (deadline - look_clock j 0) in
      match acquireSponsor looks (lane_others j) (look_clock j) candidates waitMs atGate (sh_lanes (s_shared s)) with
      | (Throw x, ls) => (Failed (nullish lastErr (Own x)), n, on_lanes (λ _, ls) s)
      | (Ret None, ls) => (OutOfLooks, n, on_lanes (λ _, ls) s)
      | (Ret (Some sessionId), ls) =>
          match finalized_attempts dustRetries 0 n sessionId (on_lanes (λ _, ls) s) with
          | (inl r, n, s) => (r, n, s)
          | (inr t, n, s) =>
              finalized_candidates fuel' (S j) (keep (λ c, negb (bool_decide (c = sessionId))) candidates) deadline (Some t) n s
          end
      end
  end.

Definition executeSponsorFinalized (pool : list string) (waitMs start : Z) (x : Shared) : SponsorEnd * nat * JobState :=
  let s := MkJobState x new_ledger (sc_sponsorSessionId command) [] in
  match sponsorCandidates pool (λ p, p) with
  | inl err => (Failed (Own err), 0%nat, s)
  | inr candidates => finalized_candidates (length candidates) 0 candidates (start + waitMs) None 0 s
  end.
End Executor.
