(* ===== verification/SponsorSafety.v ===== *)
(** What the sponsoring jobs guarantee: they end, and on what evidence they leave
    an announced transaction behind and build another. *)
From S2P Require Import Prelude Db Json Numbers Schema SponsorPolicy GrantScope GrantBudgets AgentAccess Retry.
From S2P Require Import InstanceLease JobStore SubmitFailure WorkerProtocol Reconciliation GrantAdmin.
From S2P Require Import SponsorJobs.

Local Open Scope string_scope.

(** ** The loops end *)

Section Ends.
Context (errs : nat → ErrObj) (inspect : nat → string) (e : Env) (jobId : string) (command : SponsorCommand).
Context (w : AttemptWorld) (dustRetries : nat) (cooldownMs : Z).

Lemma unbound_attempts_count left : ∀ attempt n id s r n' s',
  unbound_attempts errs inspect e jobId command w dustRetries cooldownMs left attempt n id s = (r, n', s') →
  (n' ≤ n + S left)%nat ∧ r ≠ inl OutOfLooks.
Proof.
  induction left as [|left IH]; intros attempt n id s r n' s' H; cbn [unbound_attempts] in H;
    walk; try (split; [lia|done]); apply IH in H as [? ?]; (split; [lia|done]).
Qed.

Lemma finalized_attempts_count left : ∀ attempt n id s r n' s',
  finalized_attempts errs inspect e jobId command w dustRetries cooldownMs left attempt n id s = (r, n', s') →
  (n' ≤ n + S left)%nat ∧ r ≠ inl OutOfLooks.
Proof.
  induction left as [|left IH]; intros attempt n id s r n' s' H; cbn [finalized_attempts] in H;
    walk; try (split; [lia|done]); apply IH in H as [? ?]; (split; [lia|done]).
Qed.

Lemma unbound_candidates_count ids : ∀ lastErr n s r n' s',
  unbound_candidates errs inspect e jobId command w dustRetries cooldownMs ids lastErr n s = (r, n', s') →
  (n' ≤ n + length ids * S dustRetries)%nat ∧ r ≠ OutOfLooks.
Proof.
  induction ids as [|id ids IH]; intros lastErr n s r n' s' H; cbn [unbound_candidates] in H; [simplify_eq; split; [lia|done]|].
  destruct (unbound_attempts _ _ _ _ _ _ _ _ _ _ _ _ _) as [[o n1] s1] eqn:E.
  apply unbound_attempts_count in E as [? ?]. destruct o as [x|t]; simplify_eq/=; [split; [lia|naive_solver]|].
  apply IH in H as [? ?]. split; [lia|done].
Qed.

Context (looks : nat) (lane_others : nat → nat → Lanes → Lanes) (clock : nat → nat → Z) (atGate : option (string → bool)).

(** A wait with enough looks is answered. *)
Lemma acquire_answers others (c : nat → Z) ids deadline :
  (∀ i, c i + 500 ≤ c (S i))%Z →
  ∀ fuel i ls, (0 < fuel)%nat → (deadline - c i ≤ 500 * (Z.of_nat fuel - 1))%Z →
  (acquire_lane fuel i others c ids deadline atGate ls).1 ≠ Ret None.
Proof.
  intros Hc fuel. induction fuel as [|fuel IH]; intros i ls Hf Hd; [lia|]. cbn [acquire_lane].
  destruct (pickFreeSponsor _ _ _ _); [done|]. case_bool_decide; [done|]. specialize (Hc i). apply IH; lia.
Qed.

Lemma pick_elem ids now g ls id : pickFreeSponsor ids now g ls = Some id → id ∈ ids.
Proof.
  unfold pickFreeSponsor. intros H. apply fmap_Some in H as ([[x r] u] & Hb & ->). simpl.
  enough (∀ l b, foldl (pick_step now g ls) b l = Some (x, r, u) → b = Some (x, r, u) ∨ x ∈ l) as Hg by (destruct (Hg _ _ Hb); [done|done]).
  intros l. induction l as [|y l IH]; intros b Hf; [by left|]. simpl in Hf. apply IH in Hf as [Hf|]; [|set_solver].
  unfold pick_step in Hf. destruct (_ && _); [simplify_eq; set_solver|by left].
Qed.

Lemma acquire_elem others c ids deadline : ∀ fuel i ls id ls',
  acquire_lane fuel i others c ids deadline atGate ls = (Ret (Some id), ls') → id ∈ ids.
Proof.
  intros fuel. induction fuel as [|fuel IH]; intros i ls id ls' H; cbn [acquire_lane] in H; [done|].
  destruct (pickFreeSponsor _ _ _ _) eqn:E; [simplify_eq; by eapply pick_elem|]. case_bool_decide; [done|eauto].
Qed.

Lemma keep_smaller id (ids : list string) : id ∈ ids → (length (keep (λ c, negb (bool_decide (c = id))) ids) < length ids)%nat.
Proof.
  intros Hin. unfold keep. induction ids as [|x ids IH]; [by apply not_elem_of_nil in Hin|]. rewrite filter_cons.
  destruct (decide (x = id)) as [->|Hne].
  - rewrite decide_False by (rewrite bool_decide_eq_true_2; done). simpl. pose proof (length_filter (λ c, negb (bool_decide (c = id)) = true) ids). lia.
  - rewrite decide_True by (by rewrite bool_decide_eq_false_2). simpl. apply elem_of_cons in Hin as [|Hin]; [congruence|]. apply IH in Hin. lia.
Qed.

Lemma finalized_candidates_ends start waitMs :
  (0 ≤ waitMs ≤ 500 * (Z.of_nat looks - 1))%Z → (∀ j, start ≤ clock j 0)%Z → (∀ j i, clock j i + 500 ≤ clock j (S i))%Z →
  ∀ fuel j ids lastErr n s r n' s', (length ids ≤ fuel)%nat →
  finalized_candidates errs inspect e jobId command w dustRetries cooldownMs looks lane_others clock atGate fuel j ids (start + waitMs) lastErr n s = (r, n', s') →
  (n' ≤ n + length ids * S dustRetries)%nat ∧ r ≠ OutOfLooks.
Proof.
  intros Hw Hstart Hclock fuel. induction fuel as [|fuel IH]; intros j ids lastErr n s r n' s' Hlen H.
  { destruct ids; [|simpl in Hlen; lia]. simpl in H. simplify_eq. split; [lia|done]. }
  cbn [finalized_candidates] in H. destruct ids as [|id0 ids0]; [simplify_eq; split; [lia|done]|]. set (ids := id0 :: ids0) in *.
  unfold acquireSponsor in H. rewrite bool_decide_eq_false_2 in H by done.
  destruct (acquire_lane _ _ _ _ _ _ _ _) as [[[id|]|x] ls] eqn:E.
  - apply acquire_elem in E. apply keep_smaller in E.
    destruct (finalized_attempts _ _ _ _ _ _ _ _ _ _ _ _ _) as [[o n1] s1] eqn:E1.
    apply finalized_attempts_count in E1 as [? ?]. destruct o as [x|t]; simplify_eq/=.
    + split; [lia|naive_solver].
    + apply IH in H as [? ?]; [|lia]. split; [|done].
      assert (S (length (keep (λ c, negb (bool_decide (c = id))) ids)) * S dustRetries ≤ length ids * S dustRetries)%nat by (apply Nat.mul_le_mono_r; done).
      simpl in *. lia.
  - exfalso. specialize (Hstart j). apply (f_equal fst) in E. apply acquire_answers in E; [done|auto|lia|lia].
  - simplify_eq. split; [lia|done].
Qed.

Lemma candidates_count pool (f : list string → list string) ids :
  (∀ l, (length (f l) ≤ length l)%nat) → sponsorCandidates command pool f = inr ids → (length ids ≤ Nat.max 1 (length pool))%nat.
Proof.
  intros Hf H. unfold sponsorCandidates in H. destruct (negb _); [simplify_eq/=; lia|]. case_bool_decide; simplify_eq. specialize (Hf pool). lia.
Qed.

Lemma non_exclusive_count now ls pool : (length (sponsorCandidatesNonExclusive pool now atGate ls) ≤ length pool)%nat.
Proof. unfold sponsorCandidatesNonExclusive. rewrite merge_sort_Permutation. unfold keep. apply length_filter. Qed.
End Ends.

(** C37. A sponsoring job ends, and what it may spend on fee proofs is bounded:
    whatever the worker, the wallets, the database and the other jobs do, both
    executors return a result or an error after at most one more attempt per
    wallet than the allowed rebuilds; for the wait for a free wallet the pause
    of half a second between two looks is all that is needed of the clock. *)
Theorem sponsoring_ends errs inspect e jobId command w dustRetries cooldownMs looks lane_others
    (clock : nat → nat → Z) atGate pool waitMs start x :
  (0 ≤ waitMs ≤ 500 * (Z.of_nat looks - 1))%Z → (∀ j, start ≤ clock j 0%nat)%Z → (∀ j i, clock j i + 500 ≤ clock j (S i))%Z →
  let attempts := (Nat.max 1 (length pool) * S dustRetries)%nat in
  let '(r, n, _) := executeSponsorUnbound errs inspect e jobId command w dustRetries cooldownMs pool start atGate x in
  let '(r', n', _) := executeSponsorFinalized errs inspect e jobId command w dustRetries cooldownMs looks lane_others clock atGate pool waitMs start x in
  r ≠ OutOfLooks ∧ (n ≤ attempts)%nat ∧ r' ≠ OutOfLooks ∧ (n' ≤ attempts)%nat.
Proof.
  intros Hw Hs Hc attempts.
  assert (∀ (ids : list string) k, (length ids ≤ Nat.max 1 (length pool))%nat → (k ≤ 0 + length ids * S dustRetries)%nat → (k ≤ attempts)%nat) as Hk.
  { intros ids k Hl Hk. unfold attempts. etrans; [exact Hk|]. apply Nat.mul_le_mono_r. done. }
  destruct (executeSponsorUnbound _ _ _ _ _ _ _ _ _ _ _ _) as [[r n] s] eqn:E. unfold executeSponsorUnbound in E.
  destruct (executeSponsorFinalized _ _ _ _ _ _ _ _ _ _ _ _ _ _ _ _) as [[r' n'] s'] eqn:E'. unfold executeSponsorFinalized in E'.
  assert (r ≠ OutOfLooks ∧ (n ≤ attempts)%nat) as [? ?].
  { destruct (sponsorCandidates command pool _) as [y|ids] eqn:Ec; [simplify_eq; split; [done|lia]|].
    apply candidates_count in Ec; [|intros; apply non_exclusive_count]. apply unbound_candidates_count in E as [? ?]. eauto. }
  split_and!; [done|done| |].
  all: destruct (sponsorCandidates command pool (λ p, p)) as [y|ids] eqn:Ec; [simplify_eq; (done || lia)|].
  all: apply candidates_count in Ec; [|done]; apply finalized_candidates_ends in E' as [? ?]; [by eauto|done|done|done|done].
Qed.

(** * On what evidence an attempt is left behind *)

(** [keeps_view f m]: whatever [m] does, [f] of the database stays. *)
Definition keeps_view {A V} (f : Database → V) (m : M Database A) : Prop := ∀ d o d', m d = (o, d') → f d' = f d.

Section Views.
Context {V : Type} (f : Database → V).

Lemma view_ret {A} (a : A) : keeps_view f (mret a).
Proof. intros d o d' E. by injection E as _ <-. Qed.
Lemma view_throw {A} x : keeps_view (A:=A) f (throw x).
Proof. intros d o d' E. by injection E as _ <-. Qed.
Lemma view_bind {A B} (m : M Database A) (k : A → M Database B) : keeps_view f m → (∀ a, keeps_view f (k a)) → keeps_view f (m ≫= k).
Proof.
  intros Hm Hk d o d' E. apply bind_cases in E as [(a & d1 & E1 & E2)|(x & E & _)]; [|by eapply Hm].
  apply Hm in E1. apply Hk in E2. congruence.
Qed.
Lemma view_stmt {A} e o i n (m : M Database A) : keeps_view f m → keeps_view f (stmt e o i n m).
Proof. intros Hm. unfold stmt. destruct (fault e o i n); [apply view_throw|done]. Qed.
Lemma view_select id : keeps_view f (select_grant id).
Proof. intros d o d' E. unfold select_grant in E. by simplify_eq. Qed.

(** Statements of one table keep what does not read it. *)
Lemma view_job k c p : (∀ t d, f (with_jobs t d) = f d) → keeps_view f (update_job k c p).
Proof. intros Hf d o d' E. apply update_job_cases in E as [(r & _ & _ & _ & ->)|(_ & -> & _)]; done. Qed.
Lemma view_grant id c p : (∀ t d, f (with_grants t d) = f d) → keeps_view f (update_grant id c p).
Proof. intros Hf d o d' E. unfold update_grant in E. by repeat case_match; simplify_eq. Qed.
Lemma view_refund g n : (∀ t d, f (with_grants t d) = f d) → keeps_view f (deployRefund g n).
Proof. intros Hf d o d' E. unfold deployRefund in E. by repeat case_match; simplify_eq. Qed.
Lemma view_submission id c p : (∀ t d, f (with_submissions t d) = f d) → keeps_view f (update_submission id c p).
Proof. intros Hf d o d' E. unfold update_submission in E. by repeat case_match; simplify_eq. Qed.
Lemma view_insert id r : (∀ t d, f (with_submissions t d) = f d) → keeps_view f (insert_submission id r).
Proof. intros Hf d o d' E. unfold insert_submission in E. by repeat case_match; simplify_eq. Qed.
End Views.

Create HintDb views.
#[export] Hint Resolve view_ret view_throw view_stmt view_select view_job view_grant view_refund view_submission view_insert : views.

(** Follows the statements of an operation. *)
Ltac view_kept :=
  repeat match goal with
  | |- keeps_view _ (_ ≫= _) => apply view_bind; [|intros ?]
  | |- keeps_view _ (match ?x with _ => _ end) => destruct x
  | |- keeps_view _ (let _ := _ in _) => intros
  | |- keeps_view _ _ => solve [eauto with views]
  end.

Lemma on_database_view {A V} (f : Database → V) (m : M Database A) x o x' :
  keeps_view f m → on_database m x = (o, x') → f (sh_db x') = f (sh_db x).
Proof. intros Hm E. unfold on_database in E. destruct (m (sh_db x)) as [o1 d] eqn:E1. simplify_eq. by apply Hm in E1. Qed.

Lemma try_catch_cases {S A} (m : M S A) h s o s' :
  try_catch m h s = (o, s') → (∃ a, m s = (Ret a, s') ∧ o = Ret a) ∨ (∃ x s1, m s = (Throw x, s1) ∧ h x s1 = (o, s')).
Proof. unfold try_catch. destruct (m s) as [[a|x] s1]; intros; simplify_eq; [left; eauto|right; eauto]. Qed.

(** ** What the code takes an error for *)

(** The job ends and its row stays open. *)
Definition leaves_open (v : SponsorVerdict) : bool :=
  match v_decision v with DecideAmbiguous | DecideLanded => true | _ => false end.

(** The job may build another transaction. *)
Definition goes_on (v : SponsorVerdict) : bool :=
  match v_decision v with DecideRebuild | DecideFailover => true | _ => false end.

(** The error says that the sponsor's wallet cannot pay yet: by one of two codes, by
    its name, or, when it is none of the known failures of a submission, by its text. *)
Definition sponsor_unready (errs : nat → ErrObj) (inspect : nat → string) (err : nat) : Prop :=
  nightgate_code errs err = Some "WALLET_NOT_SYNCED" ∨ nightgate_code errs err = Some "FEE_SPONSOR_UNUSABLE" ∨
  eo_name (errs err) = Some "FeeSponsorError" ∨
  fi_code (classifySubmitFailure errs inspect err) = Internal ∧ retry_text (nullish (eo_message (errs err)) (eo_string (errs err))) = true.

(** The job goes on only after a rejection before inclusion or an error about the
    wallet. *)
Lemma goes_on_evidence errs inspect err : goes_on (decideSponsorFailure errs inspect err) = true →
  isPreInclusionReject errs inspect err = true ∨ sponsor_unready errs inspect err.
Proof.
  unfold goes_on, decideSponsorFailure, isPreInclusionReject, isRetryableSponsorFailure, sponsor_unready.
  generalize (classifySubmitFailure errs inspect err). intros info. destruct (fi_code info) eqn:Ec; try done; try (by left).
  all: destruct (bool_decide _ || bool_decide _) eqn:E1; [apply orb_true_iff in E1 as [?%bool_decide_eq_true|?%bool_decide_eq_true]; auto|].
  all: destruct (bool_decide (eo_name _ = _)) eqn:E2; [apply bool_decide_eq_true in E2; auto|]; try done.
  destruct (retry_text _) eqn:E3; [auto 6|done].
Qed.

(** Another transaction on the same wallet only after a rejection. *)
Lemma rebuild_rejected errs inspect err : v_decision (decideSponsorFailure errs inspect err) = DecideRebuild → isPreInclusionReject errs inspect err = true.
Proof.
  unfold decideSponsorFailure, isPreInclusionReject. generalize (classifySubmitFailure errs inspect err). intros info.
  destruct (fi_code info); try done; destruct (isRetryableSponsorFailure _ _ _); done.
Qed.

(** ** Induction over the attempts of a job

    [I n]: between attempts, [n] the next; [Mid n r]: after attempt [n] ended
    with [r]; [Q]: when the job ends. *)
Section Loop.
Context (errs : nat → ErrObj) (inspect : nat → string) (e : Env) (jobId : string) (command : SponsorCommand).
Context (w : AttemptWorld) (dustRetries : nat) (cooldownMs : Z).
Context (I : nat → JobState → Prop) (Mid : nat → Thrown + SponsorOut → JobState → Prop) (Q : JobState → Prop).

Record loop_rules : Prop := MkLoopRules {
  rule_attempt : ∀ n id s r s', I n s → sponsorAttempt e jobId command w n id s = (r, s') → Mid n r s';
  rule_close : ∀ n t s s', Mid n (inl t) s → goes_on (verdict_of errs inspect t) = true →
    failPreviousAttempt e jobId command (message_of errs t) (v_preInclusion (verdict_of errs inspect t)) s = (Ret tt, s') → I (S n) s';
  rule_last : ∀ n t s o s', Mid n (inl t) s →
    failPreviousAttempt e jobId command (message_of errs t) (v_preInclusion (verdict_of errs inspect t)) s = (o, s') → Q s';
  rule_record : ∀ n out s, Mid n (inr out) s → ∃ s', on_shared (recordOnGrant e command out) s = (Ret tt, s') ∧ Q s';
  rule_others : ∀ n r s, Mid n r s → Mid n r (others_act w n 3 s);
  rule_end : ∀ n r s, Mid n r s → Q s;
  rule_between : ∀ n s, I n s → Q s;
  rule_lanes : ∀ f n r s, (I n s → I n (on_lanes f s)) ∧ (Mid n r s → Mid n r (on_lanes f s)) ∧ (Q s → Q (on_lanes f s)) }.

Context (rules : loop_rules).

(** After the attempts on one wallet. *)
Definition settled (r : SponsorEnd + Thrown) (n : nat) (s : JobState) : Prop :=
  match r with inl _ => Q s | inr _ => I n s end.

Lemma verdict_cases t :
  leaves_open (verdict_of errs inspect t) = true ∨ v_decision (verdict_of errs inspect t) = DecideFail ∨
  (v_decision (verdict_of errs inspect t) ≠ DecideFail ∧ leaves_open (verdict_of errs inspect t) = false) ∧ goes_on (verdict_of errs inspect t) = true.
Proof. unfold leaves_open, goes_on. destruct (v_decision _); auto. Qed.

Lemma unbound_attempts_inv left : ∀ attempt n id s r n' s', I n s →
  unbound_attempts errs inspect e jobId command w dustRetries cooldownMs left attempt n id s = (r, n', s') → settled r n' s'.
Proof.
  destruct rules as [Ra Rc Ro Rr _ Re Rb Rl].
  induction left as [|left IH]; intros attempt n id s r n' s' HI H; cbn [unbound_attempts] in H;
    destruct (sponsorAttempt _ _ _ _ _ _ _) as [[t|out] s1] eqn:Ea; pose proof (Ra _ _ _ _ _ HI Ea) as Hm;
    try (destruct (Rr _ _ _ Hm) as (s2 & Er & Hq); rewrite Er in H; simplify_eq; exact Hq);
    destruct (verdict_cases t) as [Hd|[Hd|[[Hne Hd] Hg]]].
  1,4: unfold leaves_open in Hd; destruct (v_decision _); simplify_eq; by eapply Re.
  1,3: rewrite Hd in H; destruct (failPreviousAttempt _ _ _ _ _ _) as [[[]|x] s2] eqn:Ef; simplify_eq; by eapply Ro.
  all: unfold leaves_open in Hd; destruct (failPreviousAttempt _ _ _ _ _ _) as [[[]|x] s2] eqn:Ef;
    [pose proof (Rc _ _ _ _ Hm Hg Ef) as Hi|pose proof (Ro _ _ _ _ _ Hm Ef) as Hq; destruct (v_decision _); simplify_eq; done].
  all: destruct (v_decision _); simplify_eq; try (case_bool_decide; simplify_eq); simpl; eauto; by apply (proj1 (Rl _ _ (inl t) _)).
Qed.

Lemma finalized_attempts_inv left : ∀ attempt n id s r n' s', I n s →
  finalized_attempts errs inspect e jobId command w dustRetries cooldownMs left attempt n id s = (r, n', s') → settled r n' s'.
Proof.
  destruct rules as [Ra Rc Ro Rr Roth Re Rb Rl].
  assert (∀ f s, Q s → Q (on_lanes f s)) as RQ by (intros f s; apply (Rl f 0%nat (inl (Own no_candidate)))).
  induction left as [|left IH]; intros attempt n id s r n' s' HI H; cbn [finalized_attempts] in H;
    destruct (sponsorAttempt _ _ _ _ _ _ _) as [[t|out] s1] eqn:Ea; pose proof (Ra _ _ _ _ _ HI Ea) as Hm;
    try (destruct (Rr _ _ _ (Roth _ _ _ (proj1 (proj2 (Rl (releaseSponsor id) _ _ _)) Hm))) as (s2 & Er & Hq); rewrite Er in H; simplify_eq; exact Hq);
    destruct (verdict_cases t) as [Hd|[Hd|[[Hne Hd] Hg]]].
  1,4: unfold leaves_open in Hd; destruct (v_decision _); simplify_eq; apply RQ; by eapply Re.
  1,3: rewrite Hd in H; destruct (failPreviousAttempt _ _ _ _ _ _) as [[[]|x] s2] eqn:Ef; simplify_eq; apply RQ; by eapply Ro.
  all: unfold leaves_open in Hd; destruct (failPreviousAttempt _ _ _ _ _ _) as [[[]|x] s2] eqn:Ef;
    [pose proof (Rc _ _ _ _ Hm Hg Ef) as Hi|pose proof (Ro _ _ _ _ _ Hm Ef) as Hq; destruct (v_decision _); simplify_eq; by apply RQ].
  all: destruct (v_decision _); simplify_eq; repeat (case_bool_decide || destruct (v_generic _)); simplify_eq; simpl; eauto;
    by apply (proj1 (Rl _ _ (inl t) _)).
Qed.

Lemma unbound_candidates_inv ids : ∀ lastErr n s r n' s', I n s →
  unbound_candidates errs inspect e jobId command w dustRetries cooldownMs ids lastErr n s = (r, n', s') → Q s'.
Proof.
  pose proof (rule_between rules) as Rb. pose proof (rule_lanes rules) as Rl.
  induction ids as [|id ids IH]; intros lastErr n s r n' s' HI H; cbn [unbound_candidates] in H; [simplify_eq; eauto|].
  destruct (unbound_attempts _ _ _ _ _ _ _ _ _ _ _ _ _) as [[o n1] s1] eqn:E.
  apply unbound_attempts_inv in E; [|by apply (proj1 (Rl _ _ (inl lastErr) _))]. destruct o; simplify_eq; eauto.
Qed.

Lemma finalized_candidates_inv looks lane_others clock atGate : ∀ fuel j ids deadline lastErr n s r n' s', I n s →
  finalized_candidates errs inspect e jobId command w dustRetries cooldownMs looks lane_others clock atGate fuel j ids deadline lastErr n s = (r, n', s') → Q s'.
Proof.
  pose proof (rule_between rules) as Rb. pose proof (rule_lanes rules) as Rl.
  assert (∀ f n s, I n s → I n (on_lanes f s)) as RI by (intros f n s; apply (proj1 (Rl f n (inl (Own no_candidate)) s))).
  induction fuel as [|fuel IH]; intros j ids deadline lastErr n s r n' s' HI H; cbn [finalized_candidates] in H;
    (destruct ids as [|id0 ids0]; [simplify_eq; eauto|]); [simplify_eq; eauto|].
  destruct (acquireSponsor _ _ _ _ _ _ _) as [[[id|]|x] ls]; [|simplify_eq; eauto..].
  destruct (finalized_attempts _ _ _ _ _ _ _ _ _ _ _ _ _) as [[o n1] s1] eqn:E.
  apply finalized_attempts_inv in E; [|by apply RI]. destruct o; simplify_eq; eauto.
Qed.

(** The rules carry over to both executors. *)
Lemma executors_inv pool start atGate x looks lane_others clock waitMs :
  I 0 (MkJobState x new_ledger (sc_sponsorSessionId command) []) →
  Q (executeSponsorUnbound errs inspect e jobId command w dustRetries cooldownMs pool start atGate x).2 ∧
  Q (executeSponsorFinalized errs inspect e jobId command w dustRetries cooldownMs looks lane_others clock atGate pool waitMs start x).2.
Proof.
  intros HI. unfold executeSponsorUnbound, executeSponsorFinalized. split.
  - destruct (sponsorCandidates _ _ _); [by eapply rule_between|].
    destruct (unbound_candidates _ _ _ _ _ _ _ _ _ _ _ _) as [[r n] s] eqn:E. by eapply unbound_candidates_inv.
  - destruct (sponsorCandidates _ _ _); [by eapply rule_between|].
    destruct (finalized_candidates _ _ _ _ _ _ _ _ _ _ _ _ _ _ _ _ _ _ _) as [[r n] s] eqn:E. by eapply finalized_candidates_inv.
Qed.
End Loop.

(** ** What the transactions of an attempt do to the attempt rows *)

Notation rows x := (submissions (sh_db x)).

(** Statements that leave the attempt rows alone. *)
Notation keeps_rows := (keeps_view submissions).

Lemma reserve_keeps_rows g n : keeps_rows (reserveDeployBudget g n).
Proof. unfold reserveDeployBudget. view_kept. Qed.
Lemma release_keeps_rows g n : keeps_rows (releaseDeployBudget g n).
Proof. unfold releaseDeployBudget. view_kept. Qed.
Lemma broadcast_keeps_rows e k h : keeps_rows (markJobBroadcastOn e k h).
Proof. unfold markJobBroadcastOn. view_kept. Qed.
Lemma rejected_keeps_rows e k h : keeps_rows (markJobSubmissionRejectedOn e k h).
Proof. unfold markJobSubmissionRejectedOn. view_kept. Qed.
Lemma minted_keeps_rows g l : keeps_rows (recordMintedTokenTypes g l).
Proof. unfold recordMintedTokenTypes. view_kept. Qed.
Lemma deployed_keeps_rows g l : keeps_rows (recordDeployedContracts g l).
Proof. unfold recordDeployedContracts. view_kept. Qed.

Lemma lease_check_rows x o x' : lease_check x = (o, x') → sh_db x' = sh_db x.
Proof. unfold lease_check. intros H. destruct (assertLeaseHeld _ _). by simplify_eq. Qed.

Lemma in_tx_throw {A} (m : M Shared A) x err x' : in_one_transaction m x = (Throw err, x') → sh_db x' = sh_db x.
Proof. unfold in_one_transaction. destruct (m x) as [[a|y] s]; intros; by simplify_eq. Qed.

Lemma in_tx_ret {A} (m : M Shared A) x a x' : in_one_transaction m x = (Ret a, x') → m x = (Ret a, x').
Proof. unfold in_one_transaction. destruct (m x) as [[b|y] s]; intros; by simplify_eq. Qed.

Definition same_db : relation Shared := λ x x', sh_db x' = sh_db x.
#[export] Instance same_db_preorder : PreOrder same_db.
Proof. split; [done|]. intros x y z. unfold same_db. congruence. Qed.

(** A retried transaction: on a throw the database is as before, a result comes
    from one run on the same database. *)
Lemma retried_tx {A} (m : nat → M Shared A) x o x' :
  withLockContentionRetry (λ i, in_one_transaction (m i)) x = (o, x') →
  (∃ i a x1, o = Ret a ∧ sh_db x1 = sh_db x ∧ m i x1 = (Ret a, x')) ∨ (∃ err, o = Throw err ∧ sh_db x' = sh_db x).
Proof.
  intros H. apply (retry_from_result same_db) in H as [(i & a & x1 & -> & Hx & Hm)|(err & -> & Hx)].
  - left. exists i, a, x1. apply in_tx_ret in Hm. done.
  - right. by exists err.
  - intros i s y s' Ht. by eapply in_tx_throw.
Qed.

Section Rows.
Context (e : Env) (jobId : string) (command : SponsorCommand).

(** The announcement inserts a row that was not there, and touches no other. *)
Lemma intent_rows l id feeSponsor it x o x' :
  withLockContentionRetry (λ i, intent_tx e jobId command i l id feeSponsor it) x = (o, x') →
  (o = Ret tt ∧ rows x !! id = None ∧ ∃ r, s_status r = SubPending ∧ rows x' = <[id := r]> (rows x)) ∨
  (∃ err, o = Throw err ∧ rows x' = rows x).
Proof.
  intros H. apply retried_tx in H as [(i & [] & x1 & -> & Hx & H)|(err & -> & ->)]; [left|right; by exists err].
  split; [done|]. apply bind_ret_inv in H as ([] & x2 & H2 & H). apply bind_ret_inv in H as ([] & x3 & H3 & H).
  assert (rows x3 = rows x2) as E3.
  { case_bool_decide; [|by injection H3 as <-]. apply bind_ret_inv in H3 as (ok & x4 & H4 & H3).
    destruct ok; [|done]. injection H3 as <-. eapply (on_database_view submissions); [|done]. apply view_stmt, reserve_keeps_rows. }
  unfold reportBroadcastOn in H. apply bind_ret_inv in H as ([] & x5 & H5 & H). apply lease_check_rows in H5.
  apply (on_database_view submissions) in H; [|apply broadcast_keeps_rows]. rewrite H, H5, E3.
  unfold on_database, stmt, insert_submission in H2. rewrite Hx in H2. destruct (fault e _ _ _); [done|].
  destruct (rows x !! id); simplify_eq. split; [done|]. eexists. by split; [|done].
Qed.

(** Closing an attempt marks its row failed, and touches no other. *)
Lemma close_rows l id why pre x o x' :
  withLockContentionRetry (λ i, close_tx e jobId command i l id why pre) x = (o, x') →
  (o = Ret tt ∧ rows x' = (sql_update_key id (λ _, true) (patch_sub (close_patch pre why)) (rows x)).1) ∨
  (∃ err, o = Throw err ∧ rows x' = rows x).
Proof.
  intros H. apply retried_tx in H as [(i & [] & x1 & -> & Hx & H)|(err & -> & ->)]; [left|right; by exists err].
  split; [done|]. apply bind_ret_inv in H as (k & x2 & H2 & H). apply bind_ret_inv in H as ([] & x3 & H3 & H).
  assert (rows x3 = rows x2) as E3.
  { case_bool_decide; [|by injection H3 as <-]. eapply (on_database_view submissions); [|done]. apply view_stmt, release_keeps_rows. }
  assert (rows x' = rows x3) as E4.
  { destruct pre; [|by injection H as <-]. eapply (on_database_view submissions); [|done]. apply rejected_keeps_rows. }
  rewrite E4, E3. unfold on_database, stmt, update_submission in H2. rewrite Hx in H2. destruct (fault e _ _ _); [done|].
  destruct (sql_update_key id _ _ _) as [t m] eqn:Eu. by simplify_eq/=.
Qed.
End Rows.

(** ** At most one attempt is open *)

(** Attempt rows stay, and failed ones stay failed. *)
Definition rows_stay (x x' : Shared) : Prop :=
  ∀ id r, rows x !! id = Some r → ∃ r', rows x' !! id = Some r' ∧ (s_status r = SubFailed → s_status r' = SubFailed).

Lemma rows_stay_eq x x' : rows x' = rows x → rows_stay x x'.
Proof. intros Hx id r Hr. rewrite Hx. eauto. Qed.

Lemma rows_stay_insert x x' id r : rows x !! id = None → rows x' = <[id := r]> (rows x) → rows_stay x x'.
Proof. intros Hn Hx k r0 Hr. rewrite Hx. rewrite lookup_insert_ne by congruence. eauto. Qed.

Lemma rows_stay_close x x' id p : rows x' = (sql_update_key id (λ _, true) (patch_sub p) (rows x)).1 →
  (∀ r, s_status (patch_sub p r) = SubFailed) → rows_stay x x'.
Proof.
  intros Hx Hp k r Hr. rewrite Hx. unfold sql_update_key. destruct (rows x !! id) as [r0|] eqn:E; simpl; [|eauto].
  destruct (decide (k = id)) as [->|Hne]; [rewrite lookup_insert_eq; eauto|rewrite lookup_insert_ne by done; eauto].
Qed.

Section Open.
Context (errs : nat → ErrObj) (inspect : nat → string) (e : Env) (jobId : string) (command : SponsorCommand) (w : AttemptWorld).
Hypothesis others_tame : ∀ n k x, rows_stay x (w_others w n k x).
Hypothesis records : fault e "recordLearnedTokenTypes" 0 0 = None ∧ fault e "recordDeployedContracts" 0 0 = None.

(** An attempt left behind: its row is failed, and the worker ended it with an error
    that rejects its transaction before inclusion, or says that the wallet cannot pay. *)
Definition given_up (x : Shared) (a : nat * string) : Prop :=
  (∃ r, rows x !! a.2 = Some r ∧ s_status r = SubFailed) ∧
  ∃ err, w_result w a.1 = inl err ∧ (isPreInclusionReject errs inspect err = true ∨ sponsor_unready errs inspect err).

Lemma given_up_stay x x' l : rows_stay x x' → Forall (given_up x) l → Forall (given_up x') l.
Proof.
  intros Hs Hl. eapply Forall_impl; [exact Hl|]. intros a [(r & Hr & Hf) Ha]. split; [|done]. destruct (Hs _ _ Hr) as (r' & Hr' & Hf'). eauto.
Qed.

Definition none_open (s : JobState) : Prop :=
  currentSubmissionId (s_ledger s) = None ∧ NoDup (s_acked s).*2 ∧ Forall (given_up (s_shared s)) (s_acked s).

Definition open_at (n : nat) (r : Thrown + SponsorOut) (s : JobState) : Prop :=
  ∃ earlier id, s_acked s = (earlier ++ [(n, id)])%list ∧ currentSubmissionId (s_ledger s) = Some id ∧ NoDup (s_acked s).*2 ∧
    is_Some (rows (s_shared s) !! id) ∧ Forall (given_up (s_shared s)) earlier ∧
    match r with inl (Foreign err) => w_result w n = inl err | inl (Own _) => False | inr _ => True end.

Definition attempt_over (n : nat) (r : Thrown + SponsorOut) (s : JobState) : Prop := none_open s ∨ open_at n r s.

Definition one_open (s : JobState) : Prop :=
  ∃ earlier last, s_acked s = (earlier ++ last)%list ∧ (length last ≤ 1)%nat ∧ NoDup (s_acked s).*2 ∧ Forall (given_up (s_shared s)) earlier.

Lemma none_open_stay s s' : s_ledger s' = s_ledger s → s_acked s' = s_acked s → rows_stay (s_shared s) (s_shared s') → none_open s → none_open s'.
Proof. intros Hl Ha Hs (H1 & H2 & H3). unfold none_open. rewrite Hl, Ha. split_and!; [done|done|by eapply given_up_stay]. Qed.

Lemma open_at_stay n r s s' : s_ledger s' = s_ledger s → s_acked s' = s_acked s → rows_stay (s_shared s) (s_shared s') → open_at n r s → open_at n r s'.
Proof.
  intros Hl Ha Hs (earlier & id & H1 & H2 & H3 & [r0 H4] & H5 & H6). exists earlier, id. rewrite Hl, Ha.
  split_and!; try done; [|by eapply given_up_stay]. destruct (Hs _ _ H4) as (r' & ? & _). eauto.
Qed.

Lemma one_open_stay s s' : s_acked s' = s_acked s → rows_stay (s_shared s) (s_shared s') → one_open s → one_open s'.
Proof.
  intros Ha Hs (earlier & last & H1 & H2 & H3 & H4). exists earlier, last. rewrite Ha. split_and!; try done. by eapply given_up_stay.
Qed.

Lemma none_open_end s : none_open s → one_open s.
Proof. intros (_ & H2 & H3). exists (s_acked s), []. rewrite app_nil_r. split_and!; [done|simpl; lia|done|done]. Qed.

Lemma open_at_end n r s : open_at n r s → one_open s.
Proof. intros (earlier & id & H1 & _ & H3 & _ & H5 & _). exists earlier, [(n, id)]. split_and!; [done|done|done|done]. Qed.

Lemma none_open_others n k s : none_open s → none_open (others_act w n k s).
Proof. apply none_open_stay; [done|done|apply others_tame]. Qed.

(** The announcement of attempt [n], and whatever others do after it. *)
Lemma announce_open n id msg s o s' :
  none_open s → onSubmitIntent e jobId command n id msg s = (o, s') →
  (o = Ret tt ∧ ∃ earlier, s_acked s' = (earlier ++ [(n, id)])%list ∧ currentSubmissionId (s_ledger s') = Some id ∧ NoDup (s_acked s').*2 ∧
     is_Some (rows (s_shared s') !! id) ∧ Forall (given_up (s_shared s')) earlier) ∨
  (∃ x, o = Throw x ∧ none_open s').
Proof.
  intros Hs H. unfold onSubmitIntent in H. destruct (withLockContentionRetry _ _) as [o1 x'] eqn:E. pose proof Hs as (Hc & Hn & Hg).
  apply intent_rows in E as [(-> & Hnone & r & _ & Hr)|(y & -> & Hr)]; simplify_eq.
  - left. split; [done|]. exists (s_acked s). simpl. split_and!; [done|done| | |].
    + rewrite fmap_app. apply NoDup_app. split_and!; [done| |apply NoDup_singleton].
      intros i Hi ->%list_elem_of_singleton. apply list_elem_of_fmap in Hi as (a & Ha & Hin). rewrite Forall_forall in Hg.
      destruct (Hg _ Hin) as [(r0 & Hr0 & _) _]. simpl in Ha. rewrite <- Ha in Hr0. congruence.
    + rewrite Hr, lookup_insert_eq. eauto.
    + eapply given_up_stay; [|done]. by eapply rows_stay_insert.
  - right. exists y. split; [done|]. apply (none_open_stay s); [done|done|by apply rows_stay_eq|done].
Qed.

(** Marking the landed row touches no other row. *)
Lemma included_rows out s o s' :
  markIncluded e out s = (o, s') →
  s_ledger s' = s_ledger s ∧ s_acked s' = s_acked s ∧
  ∀ id, (currentSubmissionId (s_ledger s) = Some id → is_Some (rows (s_shared s) !! id) → is_Some (rows (s_shared s') !! id)) ∧
        (currentSubmissionId (s_ledger s) ≠ Some id → rows (s_shared s') !! id = rows (s_shared s) !! id).
Proof.
  unfold markIncluded, on_shared, try_catch, on_database, stmt, update_submission, sql_update_key. intros H.
  destruct (currentSubmissionId _) as [k|]; [|simplify_eq/=; naive_solver].
  destruct (fault e "markIncluded" 0 0); m_unfold; [simplify_eq/=; naive_solver|].
  cbn in H. destruct (rows (s_shared s) !! k) eqn:Er; cbn in H; injection H as <- <-; cbn [s_ledger s_acked with_shared]; (split_and!; [done|done|]); intros id; [|naive_solver]. split.
  - intros [= ->] _. cbn. rewrite lookup_insert_eq. eauto.
  - intros Hk. cbn. by rewrite lookup_insert_ne by congruence.
Qed.

Lemma deployed_returns g l d : (recordDeployedContracts g l d).1 = Ret tt.
Proof.
  unfold recordDeployedContracts, select_grant, update_grant. m_unfold. by repeat (case_match || simplify_eq/=).
Qed.

Lemma record_keeps_rows out x o x' : recordOnGrant e command out x = (o, x') → o = Ret tt ∧ rows x' = rows x.
Proof.
  destruct records as [R1 R2]. unfold recordOnGrant. intros H.
  apply bind_cases in H as [([] & x1 & H1 & H2)|(y & H1 & ->)].
  - assert (rows x1 = rows x) as E1.
    { destruct (so_minted out); [by injection H1 as <-|]. apply bind_ret_inv in H1 as ([] & x2 & H1 & H3).
      apply (on_database_view submissions) in H1; [|by apply view_stmt, view_ret]. destruct (grant_of command); [|by injection H3 as <-].
      unfold try_catch in H3. destruct (on_database _ x2) as [[a|y] x3] eqn:E; apply (on_database_view submissions) in E;
        try (apply view_stmt, minted_keeps_rows); m_unfold; simplify_eq; congruence. }
    destruct (grant_of command) as [g|]; [|injection H2 as <- <-; done]. destruct (so_deployed out) as [|a l]; [injection H2 as <- <-; done|].
    unfold stmt in H2. rewrite R2 in H2. assert (rows x' = rows x1) as E2 by (by eapply (on_database_view submissions); [apply deployed_keeps_rows|]).
    split; [|congruence]. unfold on_database in H2. pose proof (deployed_returns g (a :: l) (sh_db x1)) as Hd.
    destruct (recordDeployedContracts _ _ _). by simplify_eq/=.
  - exfalso. destruct (so_minted out); [done|]. unfold stmt in H1. rewrite R1 in H1.
    apply bind_cases in H1 as [([] & x2 & H1 & H3)|(z & H1 & _)]; [|done]. destruct (grant_of command); [|done].
    unfold try_catch in H3. by destruct (on_database _ x2) as [[a|z] x3].
Qed.

(** ** The rules hold *)

Lemma attempt_rule n id s r s' : none_open s → sponsorAttempt e jobId command w n id s = (r, s') → attempt_over n r s'.
Proof.
  intros Hs H. unfold sponsorAttempt in H. apply (none_open_others n 0) in Hs. set (s0 := others_act w n 0 s) in *.
  destruct (w_resolve w n); [simplify_eq; by left|]. set (s1 := MkJobState _ _ _ _) in *.
  assert (none_open s1) as H1 by (by apply (none_open_stay s0); [done|done|apply rows_stay_eq|]).
  destruct (w_policy w n); [simplify_eq; by left|]. apply (none_open_others n 1) in H1.
  destruct (w_intent w n) as [msg|].
  - destruct (onSubmitIntent _ _ _ _ _ _ _) as [o s2] eqn:E. apply announce_open in E as [(-> & earlier & Ha & Hc & Hn & Hr & Hg)|(x & -> & H2)]; [| |done].
    + set (r0 := w_result w n) in *. assert (∀ r, match r with inl (Foreign err) => w_result w n = inl err | inl (Own _) => False | inr _ => True end →
        open_at n r (others_act w n 2 s2)) as Hopen.
      { intros r1 Hr1. apply (open_at_stay n r1 s2); [done|done|apply others_tame|]. exists earlier, (w_ids w n). done. }
      destruct r0 as [a|out] eqn:Ew; [simplify_eq; right; by apply Hopen|].
      destruct (markIncluded _ _ _) as [o3 s3] eqn:Em. simplify_eq. right.
      destruct (Hopen (inr out) I) as (earlier' & id' & Q1 & Q2 & Q3 & Q4 & Q5 & _).
      apply included_rows in Em as (L1 & L2 & L3). exists earlier', id'. rewrite L1, L2. split_and!; [done|done|done|by apply L3| |done].
      rewrite Q1, fmap_app in Q3. apply NoDup_app in Q3 as (_ & Q3 & _).
      apply Forall_forall. intros a Ha'. rewrite Forall_forall in Q5. destruct (Q5 _ Ha') as [(r2 & Hr2 & Hf) Hw]. split; [|done].
      exists r2. split; [|done]. rewrite (proj2 (L3 a.2)); [done|]. rewrite Q2. intros [= Heq]. apply (Q3 a.2); [by apply list_elem_of_fmap_2|].
      rewrite Heq. simpl. by apply list_elem_of_singleton.
    + simplify_eq. left. by apply none_open_others.
  - apply (none_open_others n 2) in H1. destruct (w_result w n) as [a|out]; [simplify_eq; by left|].
    destruct (markIncluded _ _ _) as [o3 s3] eqn:Em. simplify_eq. left. pose proof H1 as (Hc & _). unfold markIncluded in Em. rewrite Hc in Em. by simplify_eq.
Qed.

(** Closing the open attempt, or none. *)
Lemma close_rule n t s o s' :
  attempt_over n (inl t) s →
  failPreviousAttempt e jobId command (message_of errs t) (v_preInclusion (verdict_of errs inspect t)) s = (o, s') →
  (o = Ret tt → goes_on (verdict_of errs inspect t) = true → none_open s') ∧ one_open s'.
Proof.
  intros Hover H. unfold failPreviousAttempt in H. destruct Hover as [Hs|(earlier & id & Q1 & Q2 & Q3 & [r Q4] & Q5 & Q6)].
  { pose proof Hs as (Hc & _). rewrite Hc in H. simplify_eq. split; [done|by apply none_open_end]. }
  rewrite Q2 in H. destruct t as [err|x]; [|done]. destruct (withLockContentionRetry _ _) as [o1 x'] eqn:E.
  apply close_rows in E as [(-> & Hr)|(y & -> & Hr)]; simplify_eq.
  - assert (rows_stay (s_shared s) x') as Hstay by (by eapply rows_stay_close). split.
    + intros _ Hg. split_and!; [done|done|]. cbn [s_acked s_shared]. rewrite Q1. apply Forall_app_2; [by eapply given_up_stay|]. apply Forall_singleton.
      split; [|exists err; split; [done|by apply goes_on_evidence]]. rewrite Hr. unfold sql_update_key. rewrite Q4. cbn. rewrite lookup_insert_eq. eauto.
    + exists earlier, [(n, id)]. cbn [s_acked s_shared]. split_and!; [done|done|done|by eapply given_up_stay].
  - split; [done|]. apply (one_open_stay s); [done|by apply rows_stay_eq|]. apply (open_at_end n (inl (Foreign err))). exists earlier, id. split_and!; eauto.
Qed.

Lemma open_rules : loop_rules errs inspect e jobId command w (λ _, none_open) attempt_over one_open.
Proof.
  split.
  - apply attempt_rule.
  - intros n t s s' Hm Hv Hc. by eapply close_rule in Hc as [Hn _]; [apply Hn|].
  - intros n t s o s' Hm Hc. by eapply close_rule in Hc as [_ ?].
  - intros n out s Hm. destruct (on_shared (recordOnGrant e command out) s) as [o s'] eqn:E. unfold on_shared in E.
    destruct (recordOnGrant e command out (s_shared s)) as [o1 x'] eqn:E1. apply record_keeps_rows in E1 as [-> Hr]. simplify_eq.
    eexists. split; [done|]. apply (one_open_stay s); [done|by apply rows_stay_eq|]. destruct Hm; [by apply none_open_end|by eapply open_at_end].
  - intros n r s [Hs|Hs]; [left; by apply none_open_others|right]. apply (open_at_stay n r s); [done|done|apply others_tame|done].
  - intros n r s [Hs|Hs]; [by apply none_open_end|by eapply open_at_end].
  - intros n s. apply none_open_end.
  - intros f n r s. split_and!.
    + apply none_open_stay; [done|done|by apply rows_stay_eq].
    + intros [Hs|Hs]; [left; by apply (none_open_stay s); [done|done|apply rows_stay_eq|]|right; by apply (open_at_stay n r s); [done|done|apply rows_stay_eq|]].
    + apply one_open_stay; [done|by apply rows_stay_eq].
Qed.
End Open.


(** * The deploy budget of a grant while a sponsoring job runs *)

(** The used deploys of a grant. *)
Definition deploys_used (g : string) (d : Database) : option (option Z) := g_deploysUsed <$> grants d !! g.

Section Budget.
Context (g : string).

Lemma keeps_used_update id c p :
  (∀ r, g_deploysUsed (patch_grant (p r) r) = g_deploysUsed r) → keeps_view (deploys_used g) (update_grant id c p).
Proof.
  intros Hp d o d' H. unfold update_grant, sql_update_key in H. destruct (grants d !! id) as [r|] eqn:E; [destruct (c r)|]; simplify_eq/=; try done.
  unfold deploys_used. simpl. destruct (decide (g = id)) as [->|Hne]; [rewrite lookup_insert_eq, E; simpl; by rewrite Hp|by rewrite lookup_insert_ne].
Qed.

Lemma minted_keeps_used k l : keeps_view (deploys_used g) (recordMintedTokenTypes k l).
Proof. unfold recordMintedTokenTypes. view_kept; by apply keeps_used_update. Qed.
Lemma deployed_keeps_used k l : keeps_view (deploys_used g) (recordDeployedContracts k l).
Proof. unfold recordDeployedContracts. view_kept; by apply keeps_used_update. Qed.
Lemma broadcast_keeps_used e k h : keeps_view (deploys_used g) (markJobBroadcastOn e k h).
Proof. unfold markJobBroadcastOn. view_kept. Qed.
Lemma rejected_keeps_used e k h : keeps_view (deploys_used g) (markJobSubmissionRejectedOn e k h).
Proof. unfold markJobSubmissionRejectedOn. view_kept. Qed.

(** A reservation that is granted raises the counter by what was asked for. *)
Lemma reserve_used n d d' u : deploys_used g d = Some (Some u) →
  reserveDeployBudget g n d = (Ret true, d') → deploys_used g d' = Some (Some (u + n)%Z).
Proof.
  intros Hu H. unfold reserveDeployBudget in H. destruct (is_empty g || _); [done|]. unfold select_grant, update_grant, sql_update_key in H. m_unfold.
  unfold deploys_used in *. destruct (grants d !! g) as [r|] eqn:E; [|done]. destruct (bool_decide _ || negb _); [done|]. cbn in H. rewrite E in H.
  destruct (is_true _ && _ && _); simplify_eq/=. rewrite lookup_insert_eq. simpl. by rewrite Hu.
Qed.

(** Giving back lowers it. *)
Lemma release_used n d o d' u : deploys_used g d = Some (Some u) → is_empty g = false → (1 ≤ n ≤ u)%Z →
  releaseDeployBudget g n d = (o, d') → deploys_used g d' = Some (Some (u - n)%Z).
Proof.
  intros Hu Hg Hn H. unfold releaseDeployBudget in H. rewrite Hg, bool_decide_eq_false_2 in H by lia. cbn [orb] in H.
  unfold deployRefund, sql_update_key in H. m_unfold. unfold deploys_used in *. destruct (grants d !! g) as [r|] eqn:E; [|done]. simplify_eq/=.
  rewrite Hu in H. rewrite bool_decide_eq_true_2 in H by lia. simplify_eq/=. rewrite lookup_insert_eq. simpl. by rewrite ?Hu.
Qed.

Context (e : Env) (jobId : string) (command : SponsorCommand).
Hypothesis grant : grant_of command = Some g.

Lemma grant_nonempty : is_empty g = false.
Proof. unfold grant_of in grant. destruct (sc_grantId command) as [k|]; [|done]. simpl in grant. destruct (is_empty k) eqn:E; by simplify_eq. Qed.

Lemma intent_used l id feeSponsor it x o x' u :
  deploys_used g (sh_db x) = Some (Some u) →
  withLockContentionRetry (λ i, intent_tx e jobId command i l id feeSponsor it) x = (o, x') →
  (o = Ret tt ∧ deploys_used g (sh_db x') = Some (Some (u + deploys_needed command l it)%Z)) ∨
  (∃ err, o = Throw err ∧ deploys_used g (sh_db x') = Some (Some u)).
Proof.
  intros Hu H. apply retried_tx in H as [(i & [] & x1 & -> & Hx & H)|(err & -> & Hx)]; [left|right; exists err; by rewrite Hx].
  split; [done|]. rewrite <- Hx in Hu. apply bind_ret_inv in H as ([] & x2 & H2 & H). apply bind_ret_inv in H as ([] & x3 & H3 & H).
  apply (on_database_view (deploys_used g)) in H2; [|apply view_stmt, view_insert; done]. rewrite <- H2 in Hu.
  unfold reportBroadcastOn in H. apply bind_ret_inv in H as ([] & x4 & H4 & H). apply lease_check_rows in H4.
  apply (on_database_view (deploys_used g)) in H; [|apply broadcast_keeps_used]. rewrite H, H4. clear H H4 H2.
  rewrite grant in H3. cbn [nullish] in H3. case_bool_decide as Hneed; [|injection H3 as <-; rewrite Hu; f_equal; f_equal; unfold deploys_needed in *; rewrite grant in *; lia].
  apply bind_ret_inv in H3 as (ok & x5 & H5 & H3). destruct ok; [|done]. injection H3 as <-.
  unfold on_database, stmt in H5. destruct (fault e _ _ _); [done|]. destruct (reserveDeployBudget _ _ _) as [o1 d1] eqn:E. simplify_eq/=.
  by eapply reserve_used.
Qed.

Lemma close_used l id why pre x o x' u :
  deploys_used g (sh_db x) = Some (Some u) → (reservedDeploys l ≤ u)%Z →
  withLockContentionRetry (λ i, close_tx e jobId command i l id why pre) x = (o, x') →
  (o = Ret tt ∧ deploys_used g (sh_db x') = Some (Some (u - refund_due command l pre)%Z)) ∨
  (∃ err, o = Throw err ∧ deploys_used g (sh_db x') = Some (Some u)).
Proof.
  intros Hu Hle H. apply retried_tx in H as [(i & [] & x1 & -> & Hx & H)|(err & -> & Hx)]; [left|right; exists err; by rewrite Hx].
  split; [done|]. rewrite <- Hx in Hu. apply bind_ret_inv in H as (k & x2 & H2 & H). apply bind_ret_inv in H as ([] & x3 & H3 & H).
  apply (on_database_view (deploys_used g)) in H2; [|apply view_stmt, view_submission; done]. rewrite <- H2 in Hu.
  assert (deploys_used g (sh_db x') = deploys_used g (sh_db x3)) as ->.
  { destruct pre; [|by injection H as <-]. eapply on_database_view; [|done]. apply rejected_keeps_used. }
  unfold refund_due in *. rewrite grant in *. cbn [nullish] in H3. destruct (pre && bool_decide (0 < reservedDeploys l)%Z) eqn:Ep.
  - apply andb_true_iff in Ep as [_ Hr%bool_decide_eq_true_1]. rewrite bool_decide_eq_true_2 in H3 by done.
    unfold on_database, stmt in H3. destruct (fault e _ _ _); [done|]. destruct (releaseDeployBudget _ _ _) as [o1 d1] eqn:E. simplify_eq/=.
    eapply release_used; [exact Hu|apply grant_nonempty| |exact E]. lia.
  - rewrite bool_decide_eq_false_2 in H3 by lia. injection H3 as <-. rewrite Hu. do 2 f_equal. lia.
Qed.

(** ** The ledger of the job and the counter of the grant *)

Context (errs : nat → ErrObj) (inspect : nat → string) (w : AttemptWorld) (D : Z) (u0 : Z).
Hypothesis others_keep : ∀ n k x, deploys_used g (sh_db (w_others w n k x)) = deploys_used g (sh_db x).
Hypothesis records : fault e "recordLearnedTokenTypes" 0 0 = None ∧ fault e "recordDeployedContracts" 0 0 = None.
Hypothesis same_deploys : ∀ n msg, w_intent w n = Some msg → Z.of_nat (length (deployed_of (received_intent msg))) = D.
Hypothesis u0_pos : (0 ≤ u0)%Z.

(** What the job holds is what the counter shows: nothing, or the deploys of its
    one transaction once. *)
Definition accounted (s : JobState) : Prop :=
  deploys_used g (sh_db (s_shared s)) = Some (Some (u0 + reservedDeploys (s_ledger s))%Z) ∧
  (reservedDeploys (s_ledger s) = 0%Z ∨ reservedDeploys (s_ledger s) = D) ∧ (0 ≤ D)%Z ∧
  (s_acked s = [] → reservedDeploys (s_ledger s) = 0%Z).

Lemma accounted_same s s' : s_ledger s' = s_ledger s → s_acked s' = s_acked s →
  deploys_used g (sh_db (s_shared s')) = deploys_used g (sh_db (s_shared s)) → accounted s → accounted s'.
Proof. intros Hl Ha Hd. unfold accounted. by rewrite Hl, Ha, Hd. Qed.

Lemma accounted_others n k s : accounted s → accounted (others_act w n k s).
Proof. apply accounted_same; [done|done|apply others_keep]. Qed.

Lemma announce_accounted n id msg s o s' :
  w_intent w n = Some msg → accounted s → onSubmitIntent e jobId command n id (received_intent msg) s = (o, s') → accounted s'.
Proof.
  intros Hw (Hu & Hr & HD & Ha) H. unfold onSubmitIntent in H. apply same_deploys in Hw.
  destruct (withLockContentionRetry _ _) as [o1 x'] eqn:E.
  apply intent_used with (u := (u0 + reservedDeploys (s_ledger s))%Z) in E as [(-> & Hx)|(err & -> & Hx)]; [| |done]; simplify_eq.
  - unfold accounted. cbn [s_shared s_ledger s_acked reservedDeploys]. unfold deploys_needed in Hx. rewrite grant in *.
    split_and!; [|by destruct (deployed_of _); [auto|right]|done|by destruct (s_acked s)].
    rewrite Hx. do 2 f_equal. destruct (deployed_of _) as [|d l]; [|lia]. simpl in *. lia.
  - split_and!; [|done|done|done]. cbn [s_shared s_ledger with_shared]. done.
Qed.

Lemma included_used out s o s' : markIncluded e out s = (o, s') →
  s_ledger s' = s_ledger s ∧ s_acked s' = s_acked s ∧ deploys_used g (sh_db (s_shared s')) = deploys_used g (sh_db (s_shared s)).
Proof.
  unfold markIncluded. intros H. destruct (currentSubmissionId _) as [k|]; [|by simplify_eq]. unfold on_shared in H.
  destruct (try_catch _ _ _) as [o1 x'] eqn:E. simplify_eq. split_and!; [done|done|]. cbn [s_shared with_shared].
  assert (∃ o2, (_ ← on_database (stmt e "markIncluded" 0 0 (update_submission k (λ _, true)
    [SSetStatus SubIncluded; SSetContractAddress (so_contractAddress out); SSetCircuitName (head (so_circuits out))])); mret tt) (s_shared s) = (o2, x')) as [o2 E2].
  { apply try_catch_cases in E as [(a & E & _)|(y & x2 & E & E3)]; [by eexists|]. injection E3 as _ <-. by eexists. }
  apply bind_cases in E2 as [(a & x3 & E3 & E4)|(y & E3 & _)]; [injection E4 as _ <-|];
    (eapply on_database_view; [|exact E3]); apply view_stmt, view_submission; done.
Qed.

Lemma attempt_accounted n id s r s' : accounted s → sponsorAttempt e jobId command w n id s = (r, s') → accounted s'.
Proof.
  intros Hs H. unfold sponsorAttempt in H. apply (accounted_others n 0) in Hs. set (s0 := others_act w n 0 s) in *.
  destruct (w_resolve w n); [by simplify_eq|]. set (s1 := MkJobState _ _ _ _) in *.
  assert (accounted s1) as H1 by done. destruct (w_policy w n); [by simplify_eq|]. apply (accounted_others n 1) in H1.
  destruct (match w_intent w n with Some _ => _ | None => _ end) as [refused s2] eqn:E.
  assert (accounted s2) as H2.
  { destruct (w_intent w n) as [msg|] eqn:Ew; [|by simplify_eq]. destruct (onSubmitIntent _ _ _ _ _ _ _) as [o s3] eqn:Eo.
    apply announce_accounted in Eo; [|done|done]. by destruct o; simplify_eq. }
  apply (accounted_others n 2) in H2. destruct refused; [by simplify_eq|]. destruct (w_result w n) as [a|out]; [by simplify_eq|].
  destruct (markIncluded _ _ _) as [o3 s3] eqn:Em. simplify_eq. apply included_used in Em as (? & ? & ?). by eapply accounted_same.
Qed.

Lemma close_accounted why pre s o s' : accounted s → failPreviousAttempt e jobId command why pre s = (o, s') → accounted s'.
Proof.
  intros (Hu & Hr & HD & Ha) H. unfold failPreviousAttempt in H. destruct (currentSubmissionId _) as [k|]; [|by simplify_eq].
  destruct (withLockContentionRetry _ _) as [o1 x'] eqn:E.
  eapply close_used in E as [(-> & Hx)|(err & -> & Hx)]; [| |exact Hu|lia]; simplify_eq; [|by split_and!].
  unfold accounted. cbn [s_shared s_ledger s_acked reservedDeploys]. rewrite Hx. unfold refund_due in *. rewrite grant in *.
  destruct (pre && bool_decide (0 < reservedDeploys (s_ledger s))%Z) eqn:Ep.
  - apply andb_true_iff in Ep as [_ Hp%bool_decide_eq_true_1]. rewrite bool_decide_eq_true_2 by done.
    split_and!; [do 2 f_equal; lia|by left|done|done].
  - rewrite bool_decide_eq_false_2 by lia. split_and!; [do 2 f_equal; lia|done|done|done].
Qed.

Lemma record_accounted out s : accounted s → ∃ s', on_shared (recordOnGrant e command out) s = (Ret tt, s') ∧ accounted s'.
Proof.
  intros Hs. destruct (on_shared (recordOnGrant e command out) s) as [o s'] eqn:E. unfold on_shared in E.
  destruct (recordOnGrant e command out (s_shared s)) as [o1 x'] eqn:E1. simplify_eq.
  pose proof E1 as E2. apply record_keeps_rows in E2 as [-> _]; [|done]. eexists. split; [done|]. apply (accounted_same s); [done|done| |done].
  cbn [s_shared with_shared]. unfold recordOnGrant in E1. apply bind_ret_inv in E1 as ([] & x1 & H1 & H2).
  trans (deploys_used g (sh_db x1)).
  - rewrite grant in H2. destruct (so_deployed out); [by injection H2 as <-|]. eapply on_database_view; [|done]. apply view_stmt, deployed_keeps_used.
  - destruct (so_minted out); [by injection H1 as <-|]. apply bind_ret_inv in H1 as ([] & x2 & H1 & H3).
    apply (on_database_view (deploys_used g)) in H1; [|by apply view_stmt, view_ret]. rewrite <- H1. rewrite grant in H3.
    unfold try_catch in H3. destruct (on_database _ x2) as [o2 x3] eqn:E. apply (on_database_view (deploys_used g)) in E; [|apply view_stmt, minted_keeps_used].
    destruct o2; m_unfold; by simplify_eq.
Qed.

Lemma budget_rules : loop_rules errs inspect e jobId command w (λ _, accounted) (λ _ _, accounted) accounted.
Proof.
  split; try done.
  - intros n id s r s'. apply attempt_accounted.
  - intros n t s s' Hs _. by apply close_accounted.
  - intros n t s o s' Hs. by apply close_accounted.
  - intros n out s. apply record_accounted.
  - intros n _ s. apply accounted_others.
Qed.
End Budget.

(** The deploy budget is charged once per transaction: while a sponsoring
    job tries wallets and rebuilds its transaction of [D] deploys, the used
    counter of its grant is the counter before the job plus what the job's
    ledger holds, and that is nothing or [D]; nothing is held before an attempt
    was announced. Rebuilding does not reserve again, a rejected attempt gives
    everything back. *)
Theorem deploys_reserved_once g e jobId command errs inspect w D u0 dustRetries cooldownMs looks lane_others clock atGate pool waitMs start x :
  grant_of command = Some g → (∀ n k x, deploys_used g (sh_db (w_others w n k x)) = deploys_used g (sh_db x)) →
  fault e "recordLearnedTokenTypes" 0 0 = None ∧ fault e "recordDeployedContracts" 0 0 = None →
  (∀ n msg, w_intent w n = Some msg → Z.of_nat (length (deployed_of (received_intent msg))) = D) → (0 ≤ u0)%Z → (0 ≤ D)%Z →
  deploys_used g (sh_db x) = Some (Some u0) →
  accounted g D u0 (executeSponsorUnbound errs inspect e jobId command w dustRetries cooldownMs pool start atGate x).2 ∧
  accounted g D u0 (executeSponsorFinalized errs inspect e jobId command w dustRetries cooldownMs looks lane_others clock atGate pool waitMs start x).2.
Proof.
  intros Hg Ho Hr Hd Hu HD Hx. eapply executors_inv; [by eapply (budget_rules g)|].
  split_and!; [|by left|done|done]. cbn. rewrite Hx. do 2 f_equal. lia.
Qed.
