(* ===== verification/SponsorExamples.v ===== *)
(** Runs of the sponsoring executors, and what goes wrong when the bookkeeping
    of a landed transaction fails. *)
From S2P Require Import Prelude Db Retry Json Numbers InstanceLease SubmitFailure WorkerProtocol Schema SponsorPolicy.
From S2P Require Import JobStore ChainOutcome GrantScope GrantBudgets AgentAccess Reconciliation GrantAdmin SponsorJobs SponsorSafety.

Local Open Scope string_scope.

Definition deploy_grant : Grant :=
  MkGrant "alice" "session-1" None None "hash" (json_strings ["sponsorUnboundTransaction"]) None (Some 0%Z) None None (Some 0%Z) None
    None None (Some true) (Some 1%Z) (Some 0%Z) None None None None None None None None None (Some true) None.

Definition sponsor_db : Database :=
  MkDatabase {[ "job-1" := sample_job "sponsorUnboundTransaction" Running (Some "w1") None ]} ∅ {[ "g1" := deploy_grant ]} None.

Definition sponsor_shared : Shared := MkShared sponsor_db ∅ no_proc ∅.

Definition from_pool : SponsorCommand := MkSponsorCommand PLATFORM_POOL_SENTINEL (Some "g1") false false None.

Definition deploy_intent (hash : string) : SubmitIntent :=
  MkIntent hash (Some "c1") (Some ["<deploy>"]) None (Some "acc") (Some ["c1"]) None (Some (JArr [JObj []])) None None None None.

Definition landed : SponsorOut := MkOut "0xbb" (Some "c1") ["<deploy>"] ["c1"] [].

(** The node rejects the first attempt as a dust race; the second lands. *)
Definition race_errors : list ErrObj := [plain_error "Error" "1010: Invalid Transaction: Custom error: 170" None].

Definition race_then_land (others : nat → nat → Shared → Shared) : AttemptWorld :=
  MkAttemptWorld (λ _, None) (λ _, None) (λ n, Some (deploy_intent (match n with O => "0xaa" | _ => "0xbb" end))) (λ _, O)
    (λ n, match n with O => inl O | _ => inr landed end) (λ n, match n with O => "sub-1" | _ => "sub-2" end) others (λ n, 6000 + Z.of_nat n)%Z.

Definition quiet (n k : nat) (x : Shared) : Shared := x.

Definition env_with (f : string → nat → nat → option exn) : Env := MkEnv (λ i, 5000 + Z.of_nat i)%Z "w1" 60000 600000 f.
Definition no_faults : Env := env_with (λ _ _ _, None).

Definition run_unbound (e : Env) (w : AttemptWorld) :=
  executeSponsorUnbound (chain_store race_errors) (rendered race_errors) e "job-1" from_pool w 2 30000 ["s1"; "s2"] 5000 None sponsor_shared.

Definition looks_clock (j i : nat) : Z := 5000 + 1000 * Z.of_nat j + 500 * Z.of_nat i.

Definition run_finalized (e : Env) (w : AttemptWorld) :=
  executeSponsorFinalized (chain_store race_errors) (rendered race_errors) e "job-1" from_pool w 2 30000 5 (λ _ _ l, l) looks_clock None
    ["s1"; "s2"] 2000 5000 sponsor_shared.

(** What is seen of a run: attempts, rows with status, used deploys, busy lanes. *)
Definition seen (r : SponsorEnd * nat * JobState) :=
  let s := r.2 in
  (r.1.2, map_to_list (s_status <$> rows (s_shared s)), deploys_used "g1" (sh_db (s_shared s)),
   map_to_list (l_busy <$> sh_lanes (s_shared s))).

Example rebuilt_once : seen (run_unbound no_faults (race_then_land quiet)) =
  (2%nat, [("sub-1", SubFailed); ("sub-2", SubIncluded)], Some (Some 1%Z), [("s1", false)]).
Proof. vm_compute. reflexivity. Qed.
Example rebuilt_once_bound : seen (run_finalized no_faults (race_then_land quiet)) =
  (2%nat, [("sub-1", SubFailed); ("sub-2", SubIncluded)], Some (Some 1%Z), [("s1", false)]).
Proof. vm_compute. reflexivity. Qed.

(** ** Witnesses *)

Lemma sponsoring_ends_witness :
  (run_unbound no_faults (race_then_land quiet)).1.1 ≠ OutOfLooks ∧ ((run_unbound no_faults (race_then_land quiet)).1.2 ≤ 6)%nat.
Proof.
  pose proof (sponsoring_ends (chain_store race_errors) (rendered race_errors) no_faults "job-1" from_pool (race_then_land quiet) 2 30000 5
    (λ _ _ l, l) looks_clock None ["s1"; "s2"] 2000 5000 sponsor_shared) as Hend.
  unfold looks_clock in Hend. specialize (Hend ltac:(lia) ltac:(intros; lia) ltac:(intros; lia)).
  unfold run_unbound. destruct (executeSponsorUnbound _ _ _ _ _ _ _ _ _ _ _ _) as [[r n] s]. destruct (executeSponsorFinalized _ _ _ _ _ _ _ _ _ _ _ _ _ _ _ _) as [[r' n'] s'].
  destruct Hend as (H1 & H2 & _). split; [exact H1|exact H2].
Defined.


Lemma deploys_reserved_once_witness :
  accounted "g1" 1 0 (run_unbound no_faults (race_then_land quiet)).2.
Proof.
  refine (proj1 (deploys_reserved_once "g1" no_faults "job-1" from_pool (chain_store race_errors) (rendered race_errors) (race_then_land quiet) 1 0 2 30000 5
    (λ _ _ l, l) looks_clock None ["s1"; "s2"] 2000 5000 sponsor_shared _ _ _ _ _ _ _)); try reflexivity; try lia; [split; reflexivity|].
  intros n msg Hm. injection Hm as <-. reflexivity.
Defined.

(** ** An error about the wallet

    The worker ends the first attempt, after its announcement, with an error that
    is none of the known ones and whose text speaks of the wallet's dust. *)
Definition wallet_errors : list ErrObj := [plain_error "Error" "dust state is stale" None].

(** It is not taken for a rejection: the row is closed, the deploy stays
    charged, and the job goes on with the next wallet. *)
Example wallet_text_is_no_rejection :
  decideSponsorFailure (chain_store wallet_errors) (rendered wallet_errors) 0 = MkVerdict DecideFailover false false ∧
  seen (executeSponsorUnbound (chain_store wallet_errors) (rendered wallet_errors) no_faults "job-1" from_pool (race_then_land quiet) 2 30000
    ["s1"; "s2"] 5000 None sponsor_shared) =
  (2%nat, [("sub-1", SubFailed); ("sub-2", SubIncluded)], Some (Some 1%Z), [("s1", false); ("s2", false)]).
Proof. split; vm_compute; reflexivity. Qed.

(** ** When recording a landed deploy fails

    The error of the grant's bookkeeping is handled like an error of the
    submission. *)
Definition record_fails : Env :=
  env_with (λ o _ _, if bool_decide (o = "recordDeployedContracts") then Some (js_error "database is locked") else None).

(** The row of the transaction that is on chain is closed as failed. *)
Theorem landed_attempt_marked_failed :
  seen (run_unbound record_fails (race_then_land quiet)) =
  (2%nat, [("sub-1", SubFailed); ("sub-2", SubFailed)], Some (Some 1%Z), [("s1", false)]).
Proof. vm_compute. reflexivity. Qed.

(** Another job that takes the wallet while the landed job still records. *)
Definition other_job_takes (n k : nat) (x : Shared) : Shared :=
  if bool_decide (k = 3) then with_lanes (hold_lane "s1" 7000 (sh_lanes x)) x else x.

(** The wallet is released a second time, although the other job holds it. *)
Theorem second_release_frees_other :
  map_to_list (l_busy <$> sh_lanes (s_shared (run_finalized record_fails (race_then_land other_job_takes)).2)) = [("s1", false)] ∧
  map_to_list (l_busy <$> sh_lanes (s_shared (run_finalized no_faults (race_then_land other_job_takes)).2)) = [("s1", true)].
Proof. split; vm_compute; reflexivity. Qed.

(** ** What the announcement loses

    The worker announces the segments of the calls; the main thread drops them,
    so the chain's outcome of the single calls is never stored. *)
Lemma other_field k k' v l : k' ≠ k → map_get k (field_if k' v ++ l)%list = map_get k l.
Proof. intros Hne. destruct v; [|done]. cbn. by rewrite decide_False. Qed.

Theorem recorded_segments_missing sponsor command msg o :
  chainSegmentsOf (Some (Text (coordinates sponsor command (received_intent msg)))) o = None.
Proof.
  unfold chainSegmentsOf, coordinates. cbn [ChainOutcome.parseSubmitIntent json_get map_get app].
  rewrite !decide_False by done. rewrite !other_field by done. cbn [received_intent in_segments nonempty_array field_if app].
  rewrite !other_field by done. rewrite <- (app_nil_r (field_if "deployReservation" _)). by rewrite other_field.
Qed.
