(* ===== verification/WalletSessions.v ===== *)
(** Wallet sessions: connecting and closing them, and the wallets they keep
    loaded in the worker (srv/sessions/wallet-sessions.ts,
    srv/sessions/wallet-session-lifecycle.ts, srv/sessions/wallet-session-sweep.ts,
    the session actions of srv/admin-service.ts, and evictWalletFacade,
    getOrBuildWalletFacade of srv/submission/wallet-facade-builder.ts).

    Handlers run beside one another, statement by statement. The keys of a session
    are stored encrypted; the cipher, the hashes and the derivation of keys are
    outside the program. *)
From Stdlib Require Import Ascii.
From S2P Require Import Prelude Db Retry Json Numbers SponsorPolicy Schema JobKinds JobStore AgentAccess Reconciliation StartJob SponsorJobs GrantAdmin Rollback Threads.

Set Warnings "-register-all".

Local Open Scope string_scope.

(** ** State *)

(** A row of WalletSessions. *)
Record SessionRow := MkSessionRow {
  se_userId : option string; se_label : option string; se_viewingKeyHash : option string;
  se_viewingKey : option string; se_seedKey : option string; se_accountIndex : option Z; se_sessionId : string;
  se_connectedAt : Z; se_disconnectedAt : option Z; se_expiresAt : option Z; se_isActive : option bool }.

(** The sessions, the wallets in the worker, the wallets the main thread counts as
    loaded ([residentAccounts]), the accounts it holds a passphrase of
    ([sessionRegistry]), the accounts under a lock, the variable [announced] of each
    running wallet command, and what the job system keeps. *)
Record Wallets := MkWallets {
  wl_sessions : gmap string SessionRow; wl_worker : gset string; wl_resident : gset string; wl_registry : gset string; wl_locked : gset string;
  wl_announced : gmap string string; wl_shared : Shared }.

Definition with_sessions (t : gmap string SessionRow) (w : Wallets) : Wallets :=
  MkWallets t (wl_worker w) (wl_resident w) (wl_registry w) (wl_locked w) (wl_announced w) (wl_shared w).
Definition with_worker (x : gset string) (w : Wallets) : Wallets :=
  MkWallets (wl_sessions w) x (wl_resident w) (wl_registry w) (wl_locked w) (wl_announced w) (wl_shared w).
Definition with_resident (x : gset string) (w : Wallets) : Wallets :=
  MkWallets (wl_sessions w) (wl_worker w) x (wl_registry w) (wl_locked w) (wl_announced w) (wl_shared w).
Definition with_registry (x : gset string) (w : Wallets) : Wallets :=
  MkWallets (wl_sessions w) (wl_worker w) (wl_resident w) x (wl_locked w) (wl_announced w) (wl_shared w).
Definition with_locked (x : gset string) (w : Wallets) : Wallets :=
  MkWallets (wl_sessions w) (wl_worker w) (wl_resident w) (wl_registry w) x (wl_announced w) (wl_shared w).
Definition with_shared (x : Shared) (w : Wallets) : Wallets :=
  MkWallets (wl_sessions w) (wl_worker w) (wl_resident w) (wl_registry w) (wl_locked w) (wl_announced w) x.
Definition with_announced (x : gmap string string) (w : Wallets) : Wallets :=
  MkWallets (wl_sessions w) (wl_worker w) (wl_resident w) (wl_registry w) (wl_locked w) x (wl_shared w).

(** Statements of the database. *)
Definition read {A} (f : Wallets → A) : prog Wallets A := db_stmt (λ _ w, (Ret (f w), w)).
Definition write (f : Z → Wallets → Wallets) : prog Wallets unit := db_stmt (λ now w, (Ret tt, f now w)).

(** In memory. *)
Definition set_memory (f : Wallets → Wallets) : prog Wallets unit := local (λ w, (Ret tt, f w)).

Definition on_wallets {A} (m : M Shared A) : M Wallets A := λ w,
  let '(o, x) := m (wl_shared w) in (o, with_shared x w).

(** [isActive: false], without the keys. *)
Definition closed (disconnectedAt : option Z) (r : SessionRow) : SessionRow :=
  MkSessionRow (se_userId r) (se_label r) (se_viewingKeyHash r) None None (se_accountIndex r) (se_sessionId r)
    (se_connectedAt r) (match disconnectedAt with Some t => Some t | None => se_disconnectedAt r end) (se_expiresAt r) (Some false).

Definition set_seed (seedKey : string) (account : Z) (r : SessionRow) : SessionRow :=
  MkSessionRow (se_userId r) (se_label r) (se_viewingKeyHash r) (se_viewingKey r) (Some seedKey) (Some account) (se_sessionId r)
    (se_connectedAt r) (se_disconnectedAt r) (se_expiresAt r) (se_isActive r).

Definition update_sessions (where_ : SessionRow → bool) (f : SessionRow → SessionRow) (w : Wallets) : Wallets :=
  with_sessions (sql_update (λ _ r, where_ r) f (wl_sessions w)).1 w.

Definition active (r : SessionRow) : bool := SponsorPolicy.is_true (se_isActive r).
Definition of_session (sessionId : string) (r : SessionRow) : bool := bool_decide (se_sessionId r = sessionId).
Definition of_user (user : string) (r : SessionRow) : bool := bool_decide (se_userId r = Some user).

(** ** The account lock (srv/utils/keyed-lock.ts) *)

(** Callers with the same key run one after another. *)
Definition withKeyedLock {A} (key : string) (fn : prog Wallets A) : prog Wallets A :=
  _ ← blocking (λ w, bool_decide (key ∉ wl_locked w)) (λ w, (Ret tt, with_locked ({[key]} ∪ wl_locked w) w));
  finally fn (set_memory (λ w, with_locked (wl_locked w ∖ {[key]}) w)).

(** ** Wallets in the worker *)

(** [walletEvict], a call of the worker. *)
Definition walletEvict (account : string) : prog Wallets unit := write (λ _ w, with_worker (wl_worker w ∖ {[account]}) w).

Definition evictWalletFacade (account : string) : prog Wallets unit :=
  finally (catching (walletEvict account) (λ _, mret tt)) 
    (set_memory (λ w, with_registry (wl_registry w ∖ {[account]}) (with_resident (wl_resident w ∖ {[account]}) w))).

(** Reads the saved state, then loads the wallet. A wallet has a passphrase for its
    state always; the progress report is not kept. *)
Definition buildWalletFacadeLocked (account : string) : prog Wallets unit :=
  _ ← read (λ _, tt);
  _ ← write (λ _ w, with_worker ({[account]} ∪ wl_worker w) w);
  set_memory (λ w, with_registry ({[account]} ∪ wl_registry w) (with_resident ({[account]} ∪ wl_resident w) w)).

Definition getOrBuildWalletFacade (account : string) : prog Wallets unit := withKeyedLock account (buildWalletFacadeLocked account).

(** ** Checks *)

Inductive SessionAnswer :=
| Connected (sessionId : string) (expiresAt : Z) | SigningEnabled (sessionId : string) (prewarmJob : option (string * JobStatus))
| Disconnected | Invalidated (rows : nat) | ClosedAtStart (sessionIds : list string) | Swept
| Checked (row : SessionRow) | Account (account : string) | CommandDone (result : json).

Abbreviation handler := (prog Wallets (AdminAnswer SessionAnswer)).

Definition refuse (status : Z) (message : string) : handler := mret (Refuse status None message).
Definition answer (a : SessionAnswer) : handler := mret (Answer a).


Section Sessions.
Context `{ScanOrder}.

(** The cipher of stored values ([encrypt] draws its nonce), the hashes of a
    viewing key, and the derivation of keys. *)
Variable encrypt : string → string → string → string → string.
Variable decrypt : string → string → string → option string.
Variables hashViewingKey deriveAccountId : string → string.
Variable deriveViewingKeyForAccount : string → Z → option string.
Variable mnemonicToBip39SeedHex : string → option string.
Variable cfg : SponsorConfig.
Variable sessionTtlMs : option Z.

(** Purposes of [EnvelopeBinding]; the subject is the session. *)
Definition walletSessionViewingKeyBinding : string := "wallet-session/viewing-key".
Definition walletSessionSeedBinding : string := "wallet-session/seed".

Definition find_session (where_ : SessionRow → bool) (w : Wallets) : option SessionRow :=
  snd <$> head (sql_select (λ _ r, where_ r) (wl_sessions w)).

(** [checkSigningSession]; [user] is null for a configured platform sponsor. *)
Definition checkSigningSession (sessionId : string) (user : option string) (ignoreExpiry : bool) : handler :=
  row ← read (find_session (λ r, of_session sessionId r && active r && match user with Some u => of_user u r | None => true end));
  match row with
  | None => refuse 404 "Session not found or inactive"
  | Some r =>
      if negb (truthy_str (se_viewingKey r)) then refuse 404 "Session has no viewing key"
      else if negb (truthy_str (se_seedKey r)) then refuse 412 "Session has no signing key. Call connectWalletForSigning first."
      else
        now ← clock;
        if negb ignoreExpiry && session_expired cfg now sessionId (se_expiresAt r) then refuse 410 "Session expired"
        else answer (Checked r)
  end.

(** The account of a session, by its viewing key. *)
Definition account_of (r : SessionRow) : option string :=
  c ← se_viewingKey r; vk ← decrypt c walletSessionViewingKeyBinding (se_sessionId r); Some (deriveAccountId vk).

Definition loadSigningSessionAccountId (sessionId : string) (user : option string) (ignoreExpiry : bool) : handler :=
  checked ← checkSigningSession sessionId user ignoreExpiry;
  match checked with
  | Answer (Checked r) =>
      match account_of r with
      | Some account => answer (Account account)
      | None => refuse 500 "Failed to decrypt session keys (ENCRYPTION_KEY mismatch?)"
      end
  | other => mret other
  end.

(** ** Unloading a wallet *)

(** Another live session of this wallet: of the same user, or with a signing key. *)
Definition keeps_wallet (user : string) (now : Z) (r : SessionRow) : bool :=
  (of_user user r || truthy_str (se_seedKey r)) && negb (session_expired cfg now (se_sessionId r) (se_expiresAt r)).

Definition hasLiveSessionForWallet (viewingKeyHash user : option string) : prog Wallets bool :=
  match present viewingKeyHash, present user with
  | Some h, Some u =>
      rows ← read (λ w, sql_select (λ _ r, bool_decide (se_viewingKeyHash r = Some h) && active r) (wl_sessions w));
      now ← clock;
      mret (existsb (λ kr : string * SessionRow, keeps_wallet u now kr.2) rows)
  | _, _ => mret false
  end.

(** Never throws. The caller has deactivated its own rows. *)
Definition evictFacadeUnlessShared (session : SessionRow) : prog Wallets unit :=
  catching
    (if negb (truthy_str (se_viewingKey session)) then mret tt
     else
       match account_of session with
       | None => raise (js_error "decrypt")
       | Some account =>
           withKeyedLock account
             (shared ← (if truthy_str (se_viewingKeyHash session)
                        then hasLiveSessionForWallet (se_viewingKeyHash session) (se_userId session) else mret false);
              if shared : bool then mret tt else evictWalletFacade account)
       end)
    (λ _, mret tt).

(** ** Closing sessions *)

Definition disconnectWallet (user : option string) (sessionId : string) : handler :=
  match present user with
  | None => refuse 401 "authentication required"
  | Some u =>
      if is_empty sessionId then refuse 400 "sessionId is required"
      else
        let mine r := of_session sessionId r && of_user u r in
        row ← read (find_session mine);
        match row with
        | None => refuse 404 "Session not found"
        | Some session =>
            now ← clock;
            if session_expired cfg now sessionId (se_expiresAt session) then
              _ ← write (λ _, update_sessions mine (closed None));
              _ ← evictFacadeUnlessShared session;
              refuse 410 "Session expired"
            else
              _ ← write (λ now, update_sessions mine (closed (Some now)));
              _ ← evictFacadeUnlessShared session;
              answer Disconnected
        end
  end.

(** One run of the cleanup timer. [decided]: the hashes whose wallet was decided. *)
Fixpoint evict_expired (decided : list string) (rows : list SessionRow) : prog Wallets unit :=
  match rows with
  | [] => mret tt
  | s :: rows' =>
      if negb (truthy_str (se_viewingKey s)) then evict_expired decided rows'
      else
        match present (se_viewingKeyHash s) with
        | Some h =>
            if mem h decided then evict_expired decided rows'
            else _ ← evictFacadeUnlessShared s; evict_expired (h :: decided) rows'
        | None => _ ← evictFacadeUnlessShared s; evict_expired decided rows'
        end
  end.

Definition session_cleanup : handler :=
  _ ← catching
        (now ← clock;
         let platformSponsors := getConfiguredFeeSponsorSessions cfg in
         rows ← read (λ w, sql_select (λ _ r, active r && match se_expiresAt r with Some t => bool_decide (t < now)%Z | None => false end)
                             (wl_sessions w));
         let expiring := keep (λ r, negb (mem (se_sessionId r) platformSponsors)) rows.*2 in
         match expiring with
         | [] => mret tt
         | _ =>
             _ ← write (λ _, update_sessions (λ r, mem (se_sessionId r) (se_sessionId <$> expiring)) (closed None));
             evict_expired [] expiring
         end)
        (λ _, mret tt);
  answer Swept.

Definition SESSION_CLOSE_CHUNK : nat := 200.

Fixpoint close_chunks (now : Z) (cs : list (list string)) : prog Wallets unit :=
  match cs with
  | [] => mret tt
  | c :: cs' => _ ← write (λ _, update_sessions (λ r, mem (se_sessionId r) c) (closed (Some now))); close_chunks now cs'
  end.

(** At start-up: closes the sessions that only view. *)
Definition closeSessionsFromPreviousProcess : handler :=
  let exempt := getConfiguredFeeSponsorSessions cfg in
  rows ← read (λ w, sql_select (λ _ r, active r) (wl_sessions w));
  let keyed := se_sessionId <$> keep (λ r, negb (is_empty (se_sessionId r)) && truthy_str (se_seedKey r) && negb (mem (se_sessionId r) exempt)) rows.*2 in
  let stale := keep (λ id, negb (is_empty id) && negb (mem id exempt) && negb (mem id keyed)) (se_sessionId <$> rows.*2) in
  match stale with
  | [] => answer (ClosedAtStart [])
  | _ => now ← clock; _ ← close_chunks now (chunks SESSION_CLOSE_CHUNK stale); answer (ClosedAtStart stale)
  end.

(** [evictSessionFacade] of the admin service: unloads the wallet even when other
    sessions use it. *)
Definition evictSessionFacade (session : SessionRow) : prog Wallets unit :=
  catching
    (if negb (truthy_str (se_viewingKey session)) then mret tt
     else match account_of session with
          | None => raise (js_error "decrypt")
          | Some account => withKeyedLock account (evictWalletFacade account)
          end)
    (λ _, mret tt).

Definition invalidateSession (sessionId : string) : handler :=
  if is_empty sessionId then refuse 400 "sessionId is required"
  else
    row ← read (find_session (of_session sessionId));
    match row with
    | None => refuse 404 ("Session " ++ sessionId ++ " not found")
    | Some session =>
        if negb (active session) then refuse 409 ("Session " ++ sessionId ++ " is already inactive")
        else
          _ ← write (λ now, update_sessions (of_session sessionId) (closed (Some now)));
          _ ← evictSessionFacade session;
          answer Disconnected
    end.

Fixpoint evict_sessions (rows : list SessionRow) : prog Wallets unit :=
  match rows with
  | [] => mret tt
  | s :: rows' => _ ← evictSessionFacade s; evict_sessions rows'
  end.

Definition invalidateAllSessions : handler :=
  rows ← read (λ w, sql_select (λ _ r, active r) (wl_sessions w));
  n ← db_stmt (λ now w, (Ret (sql_update (λ _ r, active r) (closed (Some now)) (wl_sessions w)).2,
                          update_sessions active (closed (Some now)) w));
  _ ← evict_sessions rows.*2;
  answer (Invalidated n).

(** ** Connecting *)

Definition HEX_REGEX (s : string) : bool := negb (is_empty s) && all_chars is_hex_lower (lower s).

(** [validateViewingKey] (srv/utils/validation.ts). *)
Definition validateViewingKey (viewingKey : option string) : option string :=
  match present viewingKey with
  | None => Some "viewingKey is required"
  | Some k =>
      if negb (HEX_REGEX k) then Some "viewingKey must be hex-encoded"
      else if negb (String.length k =? 64)%nat
      then Some ("viewingKey must be 64 hex characters (32 bytes), got " ++ pretty (Z.of_nat (String.length k)))
      else None
  end.

(** [rate] is the refusal of the rate check, if any. [id], [sessionId] are the
    fresh uuids, [nonce] the cipher's. The account's key is created on the side and
    not modelled. *)
Definition connectWallet (rate : option string) (user : option string) (viewingKey label : option string)
    (id sessionId nonce : string) : handler :=
  match rate with
  | Some message => refuse 429 message
  | None =>
      match present user with
      | None => refuse 401 "authentication required"
      | Some u =>
          match validateViewingKey viewingKey with
          | Some message => refuse 400 message
          | None =>
              let vk := nullish viewingKey EmptyString in
              if match label with Some l => (100 <? String.length l)%nat | None => false end
              then refuse 400 "label must be at most 100 characters"
              else
                now ← clock;
                let ttl := match sessionTtlMs with Some t => if bool_decide (t = 0%Z) then 86400000%Z else t | None => 86400000%Z end in
                let expiresAt := (now + ttl)%Z in
                now ← clock;
                let row := MkSessionRow (Some u) (present label) (Some (hashViewingKey vk))
                             (Some (encrypt nonce vk walletSessionViewingKeyBinding sessionId)) None None sessionId now None
                             (Some expiresAt) (Some true) in
                _ ← db_stmt (λ _ w, match wl_sessions w !! id with
                                    | Some _ => (Throw unique_violation, w)
                                    | None => (Ret tt, with_sessions (<[id := row]> (wl_sessions w)) w)
                                    end);
                answer (Connected sessionId expiresAt)
          end
      end
  end.

Definition SEED_HEX_RE (s : string) : bool := (String.length s =? 128)%nat && all_chars is_hex_lower (lower s).

(** The seed of a mnemonic or as given. *)
Definition requested_seed (mnemonic seedHex : option string) : string + string :=
  match present mnemonic, present seedHex with
  | Some m, _ => match mnemonicToBip39SeedHex m with Some s => inr s | None => inl "mnemonic is not a valid BIP39 phrase" end
  | None, Some s => if SEED_HEX_RE s then inr (lower s) else inl "seedHex must be 128 hex chars (64-byte BIP39 seed)"
  | None, None => inl "either mnemonic or seedHex (64-byte BIP39 seed, 128 hex chars) is required"
  end.

(** [admission] starts the prewarm job of an account and supersedes the older queued
    ones, or throws; it runs in the transaction of the request, with the UPDATE. *)
Variable admission : string → string → M Shared (string * JobStatus).

Definition write_seed (u sessionId seedKey : string) (account : Z) (prewarm : option string) : prog Wallets (option (string * JobStatus)) :=
  db_stmt (λ _ w,
    let w := update_sessions (λ r, of_session sessionId r && of_user u r) (set_seed seedKey account) w in
    match prewarm with
    | None => (Ret None, w)
    | Some a =>
        match on_wallets (admission sessionId a) w with
        | (Ret job, w') => (Ret (Some job), w')
        | (Throw _, w') => (Ret None, w')
        end
    end).

Definition connectWalletForSigning (rate : option string) (user : option string) (sessionId : string) (mnemonic seedHex : option string)
    (accountIndex : option Z) (prewarm : bool) (nonce : string) : handler :=
  match rate, present user with
  | Some message, _ => refuse 429 message
  | None, None => refuse 401 "authentication required"
  | None, Some u =>
      let account := nullish accountIndex 0%Z in
      if is_empty sessionId then refuse 400 "sessionId is required"
      else if bool_decide (account < 0)%Z then refuse 400 "accountIndex must be a non-negative integer"
      else
        match requested_seed mnemonic seedHex with
        | inl message => refuse 400 message
        | inr seed =>
            row ← read (find_session (λ r, of_session sessionId r && active r && of_user u r));
            match row with
            | None => refuse 404 "Session not found or inactive"
            | Some session =>
                now ← clock;
                if session_expired cfg now sessionId (se_expiresAt session) then refuse 410 "Session expired"
                else
                  match decrypt (nullish (se_viewingKey session) EmptyString) walletSessionViewingKeyBinding (se_sessionId session) with
                  | None => refuse 500 "Failed to decrypt session viewing key (ENCRYPTION_KEY mismatch?)"
                  | Some sessionViewingKey =>
                      match deriveViewingKeyForAccount seed account with
                      | None => refuse 500 "wallet derivation failed"
                      | Some derived =>
                          if negb (bool_decide (lower derived = lower sessionViewingKey))
                          then refuse 400 ("Seed does not derive this session's viewing key at accountIndex " ++ pretty account ++ ". " ++
                                      "Connect the session with the viewingKey deriveWalletInfo returns for the same secret and accountIndex.")
                          else
                            job ← write_seed u sessionId (encrypt nonce seed walletSessionSeedBinding (se_sessionId session)) account
                                    (if prewarm then Some (deriveAccountId sessionViewingKey) else None);
                            answer (SigningEnabled sessionId job)
                      end
                  end
            end
        end
  end.

(** ** Wallet commands *)

(** What a replayed job runs. [job]: its row; [e]: its clock, worker id and
    database faults. *)
Variables (e : Env) (jobId : string).

(** The calls of the worker: registering or deregistering for dust, a transfer.
    Each gets the command, the account, the paying account, and the callback it
    runs before it broadcasts. *)
Variable worker_call : string → json → string → option string → (string → prog Wallets unit) → prog Wallets json.
Variable walletWaitForSyncedState : string → prog Wallets unit.

(** [isPreInclusionReject] of what was thrown (SponsorJobs.v). *)
Variable preInclusion : exn → bool.

Definition on_job {A} (m : M Database A) : prog Wallets A := db_stmt (λ _, on_wallets (on_database m)).

Definition reportExternalExecution : prog Wallets unit := on_job (markJobExternalExecution e jobId (MkHandle None None None)).

Definition reportBroadcast (txHash : string) : prog Wallets unit :=
  _ ← db_stmt (λ _, on_wallets lease_check);
  on_job (markJobBroadcastOn e jobId (MkHandle None (Some txHash) (Some false))).

Definition announced (w : Wallets) : option string := wl_announced w !! jobId.

(** The transaction's id is stored before the worker may send it. *)
Definition onSubmitIntent (txHash : string) : prog Wallets unit :=
  _ ← reportBroadcast txHash; set_memory (λ w, with_announced (<[jobId := txHash]> (wl_announced w)) w).

Definition withRejectBookkeeping {A} (work : prog Wallets A) : prog Wallets A :=
  catching work (λ err,
    rejected ← local (λ w, (Ret (announced w), w));
    _ ← (match rejected with
         | Some txHash =>
             if negb (is_empty txHash) && preInclusion err then
               catching
                 (_ ← on_job (markJobSubmissionRejectedOn e jobId (MkHandle None (Some txHash) None));
                  set_memory (λ w, with_announced (delete jobId (wl_announced w)) w))
                 (λ _, mret tt)
             else mret tt
         | None => mret tt
         end);
    raise err).

(** [resolveFeeSponsor] of srv/submission/fee-sponsor.ts: the sponsor's account. *)
Definition resolve_sponsor (sponsorSessionId user : string) : prog Wallets string :=
  let platform := mem sponsorSessionId (getConfiguredFeeSponsorSessions cfg) in
  if negb platform && is_empty user then raise (Exn "FeeSponsorError" EmptyString "sponsorSessionId requires an authenticated caller")
  else
    row ← read (find_session (λ r, of_session sponsorSessionId r && active r && (platform || of_user user r)));
    match row with
    | None => raise (Exn "FeeSponsorError" EmptyString
                ("Sponsor session not found, inactive, or not usable by this caller. " ++
                 "Use one of your own sessions, or a session listed in NIGHTGATE_FEE_SPONSOR_SESSION."))
    | Some r =>
        now ← clock;
        if session_expired cfg now sponsorSessionId (se_expiresAt r) then raise (Exn "FeeSponsorError" EmptyString "Sponsor session expired")
        else if negb (truthy_str (se_viewingKey r)) then raise (Exn "FeeSponsorError" EmptyString "Sponsor session has no viewing key")
        else if negb (truthy_str (se_seedKey r)) then
          raise (Exn "FeeSponsorError" EmptyString
                   "Sponsor session has no signing key. Call connectWalletForSigning for the sponsor session first.")
        else
          match account_of r, decrypt (nullish (se_seedKey r) EmptyString) walletSessionSeedBinding (se_sessionId r) with
          | Some account, Some _ => mret account
          | _, _ => raise (Exn "FeeSponsorError" EmptyString "Failed to decrypt sponsor session keys (ENCRYPTION_KEY mismatch?)")
          end
    end.

(** The loaded wallet of the session a command runs for. *)
Definition command_wallet (job : Job) (user : string) : prog Wallets string :=
  row ← read (find_session (λ r, of_session (sessionId (j_spec job)) r && active r && of_user user r));
  match row with
  | None => raise (js_error "Session not found, inactive, or no longer owned by the requesting principal")
  | Some r =>
      now ← clock;
      if session_expired cfg now (sessionId (j_spec job)) (se_expiresAt r) then raise (js_error "Session expired")
      else if negb (truthy_str (se_viewingKey r)) || negb (truthy_str (se_seedKey r))
      then raise (js_error "Session no longer has signing material")
      else
        match account_of r, decrypt (nullish (se_seedKey r) EmptyString) walletSessionSeedBinding (se_sessionId r) with
        | Some account, Some _ =>
            _ ← local (λ w, (Ret tt, w));
            _ ← getOrBuildWalletFacade account;
            mret account
        | _, _ => raise (js_error "decrypt")
        end
  end.

Definition unsupported (job : Job) (op : string) : exn :=
  js_error ("Persisted command " ++ kind (j_spec job) ++ " v" ++ pretty (nullish (commandVersion (j_spec job)) 0%Z) ++
            " has incompatible operation '" ++ op ++ "'").

Definition is_wallet_kind (k : string) : bool :=
  match map_get k JOB_KINDS with Some d => bool_decide (executor d = ExWallet) | None => false end.

Definition executeWalletCommand (raw : json) (job : Job) : prog Wallets json :=
  match json_get "op" raw, present (requestedBy (j_spec job)) with
  | Some (JStr op), Some user =>
      if is_empty (sessionId (j_spec job)) then raise (js_error ("Invalid persisted wallet command for job " ++ jobId))
      else if negb (bool_decide (commandVersion (j_spec job) = Some 1%Z)) || negb (is_wallet_kind (kind (j_spec job))) ||
              negb (bool_decide (jobKindOp (kind (j_spec job)) = Some op))
      then raise (unsupported job op)
      else
        account ← command_wallet job user;
        if bool_decide (op = "prewarm") then
          _ ← walletWaitForSyncedState account; mret (JObj [("ready", JBool true)])
        else if bool_decide (op = "registerDust") || bool_decide (op = "sendNight") then
          _ ← reportExternalExecution;
          withRejectBookkeeping (worker_call op raw account None onSubmitIntent)
        else if bool_decide (op = "deregisterDust") then
          sponsor ← (match json_get "sponsorSessionId" raw with
                     | Some (JStr s) =>
                         if is_empty s then mret None
                         else a ← resolve_sponsor s user; _ ← getOrBuildWalletFacade a; mret (Some a)
                     | _ => mret None
                     end);
          _ ← reportExternalExecution;
          withRejectBookkeeping (worker_call op raw account sponsor onSubmitIntent)
        else raise (js_error ("Unsupported wallet command operation: " ++ op))
  | _, _ => raise (js_error ("Invalid persisted wallet command for job " ++ jobId))
  end.
End Sessions.
