(* ===== verification/SessionFacts.v ===== *)
(** Closing a wallet session is final, and the last one to close unloads the
    wallet, however the handlers interleave. *)
From Stdlib Require Import Ascii.
From S2P Require Import Prelude Db Json Numbers Schema SponsorPolicy AgentAccess Retry JobKinds.
From S2P Require Import JobStore Reconciliation StartJob GrantAdmin Rollback SponsorJobs SponsorExamples Threads WalletSessions.

Set Warnings "-register-all".

Local Open Scope string_scope.

(** ** What a statement does to the sessions *)

(** Who a row belongs to does not change; it does not become active again, and its
    viewing key stays or goes with it. *)
Record row_moves (r r' : SessionRow) : Prop := {
  rm_session : se_sessionId r' = se_sessionId r;
  rm_user : se_userId r' = se_userId r;
  rm_hash : se_viewingKeyHash r' = se_viewingKeyHash r;
  rm_active : active r' = true → active r = true ∧ se_viewingKey r' = se_viewingKey r;
  rm_key : se_viewingKey r' = None ∨ se_viewingKey r' = se_viewingKey r;
  rm_closed : active r' = false → active r = true → se_viewingKey r' = None }.

#[export] Instance row_moves_preorder : PreOrder row_moves.
Proof.
  split.
  - intros r. split; try done; [by right|congruence].
  - intros r1 r2 r3 [A1 A2 A3 A4 A5 A6] [B1 B2 B3 B4 B5 B6]. split; try congruence.
    + intros H. destruct (B4 H) as [H2 K2]. destruct (A4 H2) as [H1 K1]. split; congruence.
    + destruct B5 as [-> | ->]; [by left|done].
    + intros H3 H1. destruct (active r2) eqn:E2; [auto|]. specialize (A6 eq_refl H1). destruct B5 as [-> | ->]; [done|done].
Qed.

Lemma closed_moves t r : row_moves r (closed t r).
Proof. split; try done. by left. Qed.

Lemma set_seed_moves k a r : row_moves r (set_seed k a r).
Proof. split; try done; [by right|]. simpl. intros H1 H2. unfold active in *. simpl in H1. congruence. Qed.

(** A closed row has no viewing key. *)
Definition wiped (r : SessionRow) : Prop := active r = false → se_viewingKey r = None.

Lemma wiped_moves r r' : row_moves r r' → wiped r → wiped r'.
Proof.
  intros [_ _ _ _ A5 A6] Hw Hr. destruct (active r) eqn:E; [by apply A6|]. specialize (Hw E). by destruct A5 as [-> | ->].
Qed.

(** No row is lost. *)
Definition table_moves (t t' : gmap string SessionRow) : Prop :=
  ∀ id r', t' !! id = Some r' →
    match t !! id with
    | Some r => row_moves r r'
    | None => wiped r'
    end.

Definition sessions_move (w w' : Wallets) : Prop :=
  (∀ id, is_Some (wl_sessions w !! id) → is_Some (wl_sessions w' !! id)) ∧ table_moves (wl_sessions w) (wl_sessions w').

Lemma same_sessions w w' : wl_sessions w' = wl_sessions w → sessions_move w w'.
Proof. intros E. split; rewrite E; [done|]. intros id r ->. reflexivity. Qed.

Lemma update_moves where_ f w : (∀ r, row_moves r (f r)) → sessions_move w (update_sessions where_ f w).
Proof.
  intros Hf. unfold update_sessions. split; cbn [wl_sessions with_sessions].
  - intros id [r Hr]. rewrite lookup_sql_update, Hr. eauto.
  - intros id r' Hr'. rewrite lookup_sql_update in Hr'. apply fmap_Some in Hr' as (r & Hr & ->). rewrite Hr.
    destruct (where_ r); [apply Hf|reflexivity].
Qed.

(** ** Handlers only move sessions *)

Section Moves.
Context `{ScanOrder}.
Variable encrypt : string → string → string → string → string.
Variable decrypt : string → string → string → option string.
Variables hashViewingKey deriveAccountId : string → string.
Variable deriveViewingKeyForAccount : string → Z → option string.
Variable mnemonicToBip39SeedHex : string → option string.
Variable cfg : SponsorConfig.
Variable sessionTtlMs : option Z.
Variable admission : string → string → M Shared (string * JobStatus).

Abbreviation moves := (within sessions_move).

Lemma moves_read {A} (f : Wallets → A) : moves (read f).
Proof. apply within_stmt. intros now w o w' _ [= _ <-]. by apply same_sessions. Qed.

Lemma moves_clock : moves (clock : prog Wallets Z).
Proof. apply within_stmt. intros now w o w' _ [= _ <-]. by apply same_sessions. Qed.

Lemma moves_memory f : (∀ w, wl_sessions (f w) = wl_sessions w) → moves (set_memory f).
Proof. intros Hf. apply within_stmt. intros now w o w' _ [= _ <-]. by apply same_sessions. Qed.

Lemma moves_write f : (∀ now w, sessions_move w (f now w)) → moves (write f).
Proof. intros Hf. apply within_stmt. intros now w o w' _ [= _ <-]. apply Hf. Qed.

Lemma moves_ret {A} (a : A) : moves (mret a).
Proof. done. Qed.

Lemma moves_if {A} (b : bool) (p q : prog Wallets A) : moves p → moves q → moves (if b then p else q).
Proof. by destruct b. Qed.

Lemma moves_lock {A} key (p : prog Wallets A) : moves p → moves (withKeyedLock key p).
Proof.
  intros Hp. unfold withKeyedLock. apply within_bind.
  - apply within_stmt. intros now w o w' _ [= _ <-]. by apply same_sessions.
  - intros _. apply within_finally; [done|]. by apply moves_memory.
Qed.

Lemma moves_evict account : moves (evictWalletFacade account).
Proof.
  apply within_finally; [apply within_catching; [|done]|by apply moves_memory].
  apply moves_write. intros now w. by apply same_sessions.
Qed.

Lemma moves_hasLive h u : moves (hasLiveSessionForWallet cfg h u).
Proof.
  unfold hasLiveSessionForWallet. destruct (present h), (present u); try done.
  apply within_bind; [apply moves_read|intros ?]. apply within_bind; [apply moves_clock|done].
Qed.

Lemma moves_unless session : moves (evictFacadeUnlessShared decrypt deriveAccountId cfg session).
Proof.
  apply within_catching; [|done]. apply moves_if; [done|]. destruct (account_of _ _ _) as [a|]; [|done].
  apply moves_lock, within_bind; [apply moves_if; [apply moves_hasLive|done]|]. intros b. apply moves_if; [done|apply moves_evict].
Qed.

Lemma moves_admin_evict session : moves (evictSessionFacade decrypt deriveAccountId session).
Proof.
  apply within_catching; [|done]. apply moves_if; [done|]. destruct (account_of _ _ _) as [a|]; [|done]. apply moves_lock, moves_evict.
Qed.

Lemma moves_close where_ t : moves (write (λ now, update_sessions where_ (closed (t now)))).
Proof. apply moves_write. intros now w. apply update_moves. intros r. apply closed_moves. Qed.

Lemma moves_disconnect user sid : moves (disconnectWallet decrypt deriveAccountId cfg user sid).
Proof.
  unfold disconnectWallet. destruct (present user) as [u|]; [|done]. apply moves_if; [done|].
  apply within_bind; [apply moves_read|]. intros [session|]; [|done]. apply within_bind; [apply moves_clock|]. intros now.
  apply moves_if; (apply within_bind; [|intros _; apply within_bind; [apply moves_unless|done]]).
  - apply (moves_close _ (λ _, None)).
  - apply (moves_close _ Some).
Qed.

Lemma moves_evict_expired decided rows : moves (evict_expired decrypt deriveAccountId cfg decided rows).
Proof.
  revert decided. induction rows as [|s rows IH]; intros decided; simpl; [done|]. apply moves_if; [done|].
  destruct (present _) as [h|]; [apply moves_if; [done|]|]; (apply within_bind; [apply moves_unless|done]).
Qed.

Lemma moves_cleanup : moves (session_cleanup decrypt deriveAccountId cfg).
Proof.
  unfold session_cleanup. apply within_bind; [|done]. apply within_catching; [|done]. apply within_bind; [apply moves_clock|]. intros now.
  apply within_bind; [apply moves_read|]. intros rows. cbv zeta. destruct (keep _ _) as [|s l]; [done|].
  apply within_bind; [apply (moves_close _ (λ _, None))|]. intros _. apply moves_evict_expired.
Qed.

Lemma moves_chunks now cs : moves (close_chunks now cs).
Proof. induction cs as [|c cs IH]; [done|]. apply within_bind; [apply (moves_close _ (λ _, Some now))|done]. Qed.

Lemma moves_start : moves (closeSessionsFromPreviousProcess cfg).
Proof.
  unfold closeSessionsFromPreviousProcess. apply within_bind; [apply moves_read|]. intros rows. cbv zeta. destruct (keep _ _); [done|].
  apply within_bind; [apply moves_clock|]. intros now. apply within_bind; [apply moves_chunks|done].
Qed.

Lemma moves_invalidate sid : moves (invalidateSession decrypt deriveAccountId sid).
Proof.
  unfold invalidateSession. apply moves_if; [done|]. apply within_bind; [apply moves_read|]. intros [session|]; [|done]. apply moves_if; [done|].
  apply within_bind; [apply (moves_close _ Some)|]. intros _. apply within_bind; [apply moves_admin_evict|done].
Qed.

Lemma moves_evict_all rows : moves (evict_sessions decrypt deriveAccountId rows).
Proof. induction rows as [|s rows IH]; [done|]. apply within_bind; [apply moves_admin_evict|done]. Qed.

Lemma moves_invalidate_all : moves (invalidateAllSessions decrypt deriveAccountId).
Proof.
  unfold invalidateAllSessions. apply within_bind; [apply moves_read|]. intros rows. apply within_bind.
  - apply within_stmt. intros now w o w' _ [= _ <-]. apply update_moves. intros r. apply closed_moves.
  - intros n. apply within_bind; [apply moves_evict_all|done].
Qed.

Lemma moves_connect rate user vk label id sid nonce :
  moves (connectWallet encrypt hashViewingKey sessionTtlMs rate user vk label id sid nonce).
Proof.
  unfold connectWallet. destruct rate; [done|]. destruct (present user); [|done]. destruct (validateViewingKey vk); [done|]. cbv zeta.
  apply moves_if; [done|]. apply within_bind; [apply moves_clock|]. intros now. apply within_bind; [apply moves_clock|]. intros now'.
  apply within_bind; [|done]. apply within_stmt. intros now2 w o w' _ E. destruct (wl_sessions w !! id) as [r|] eqn:El; injection E as <- <-.
  - by apply same_sessions.
  - split; simpl.
    + intros id' Hs. destruct (decide (id = id')) as [<-|Hne]; [by rewrite lookup_insert_eq; eauto|by rewrite lookup_insert_ne].
    + intros id' r' Hr. destruct (decide (id = id')) as [<-|Hne].
      * rewrite lookup_insert_eq in Hr. injection Hr as <-. rewrite El. done.
      * rewrite lookup_insert_ne in Hr by done. rewrite Hr. reflexivity.
Qed.

Lemma moves_seed u sid k a p : moves (write_seed admission u sid k a p).
Proof.
  apply within_stmt. intros now w o w' _ E.
  assert (sessions_move w (update_sessions (λ r, of_session sid r && of_user u r) (set_seed k a) w)) as Hu.
  { apply update_moves. intros r. apply set_seed_moves. }
  destruct p as [account|]; [|by injection E as _ <-]. unfold on_wallets in E.
  destruct (admission _ _ _) as [o1 x]. destruct o1; injection E as _ <-; exact Hu.
Qed.

Lemma moves_signing rate user sid m s ai p nonce :
  moves (connectWalletForSigning encrypt decrypt deriveAccountId deriveViewingKeyForAccount mnemonicToBip39SeedHex cfg admission rate user sid m s ai p nonce).
Proof.
  unfold connectWalletForSigning. destruct rate; [done|]. destruct (present user) as [u|]; [|done]. cbv zeta. apply moves_if; [done|].
  apply moves_if; [done|]. destruct (requested_seed _ _ _); [done|]. apply within_bind; [apply moves_read|]. intros [r|]; [|done].
  apply within_bind; [apply moves_clock|]. intros now. apply moves_if; [done|]. destruct (decrypt _ _ _); [|done].
  destruct (deriveViewingKeyForAccount _ _); [|done]. apply moves_if; [done|]. apply within_bind; [apply moves_seed|done].
Qed.
End Moves.

(** ** Every loaded wallet is accounted for *)

(** What a running handler still has to do or knows: it decides on the wallet of an
    account; it is about to use a fresh session id; it has read a row. *)
Inductive duty := Owes (account : string) | Reserved (sessionId : string) | Saw (id : string) (r : SessionRow).

Definition reserved (d : duty) : option string := match d with Reserved s => Some s | _ => None end.

Section Accounts.
Context `{ScanOrder}.
Variable encrypt : string → string → string → string → string.
Variable decrypt : string → string → string → option string.
Variables hashViewingKey deriveAccountId : string → string.
Variable deriveViewingKeyForAccount : string → Z → option string.
Variable mnemonicToBip39SeedHex : string → option string.
Variable cfg : SponsorConfig.
Variable sessionTtlMs : option Z.
Variable admission : string → string → M Shared (string * JobStatus).

(** SHA-256 of a viewing key tells keys apart; the cipher opens what it sealed
    under the same binding, and no empty text. *)
Hypothesis hash_inj : ∀ vk vk', hashViewingKey vk = hashViewingKey vk' → vk = vk'.
Hypothesis decrypt_encrypt : ∀ nonce text purpose subject, decrypt (encrypt nonce text purpose subject) purpose subject = Some text.
Hypothesis decrypt_empty : ∀ purpose subject, decrypt EmptyString purpose subject = None.

Abbreviation account r := (account_of decrypt deriveAccountId r).

(** An active row has the viewing key its hash says; a closed one has none. *)
Definition well_formed (r : SessionRow) : Prop :=
  match se_viewingKey r with
  | Some c => active r = true ∧ ∃ vk, decrypt c walletSessionViewingKeyBinding (se_sessionId r) = Some vk ∧
                se_viewingKeyHash r = Some (hashViewingKey vk)
  | None => active r = false
  end.

Definition in_use (t : gmap string SessionRow) (a : string) : Prop := ∃ id r, t !! id = Some r ∧ active r = true ∧ account r = Some a.

Record accounted (w : Wallets) (l : list duty) : Prop := {
  ac_unique : ∀ i j r r', wl_sessions w !! i = Some r → wl_sessions w !! j = Some r' → se_sessionId r = se_sessionId r' → i = j;
  ac_form : ∀ i r, wl_sessions w !! i = Some r → well_formed r;
  ac_fresh : NoDup (omap reserved l);
  ac_reserved : ∀ s, Reserved s ∈ l → ∀ i r, wl_sessions w !! i = Some r → se_sessionId r ≠ s;
  ac_saw : ∀ i r, Saw i r ∈ l → well_formed r ∧ ∃ r', wl_sessions w !! i = Some r' ∧ row_moves r r';
  ac_loaded : ∀ a, a ∈ wl_worker w → in_use (wl_sessions w) a ∨ Owes a ∈ l }.

Lemma accounted_perm w l l' : l ≡ₚ l' → accounted w l → accounted w l'.
Proof. intros Hp [U F N R S L]. split; [done|done|by rewrite <- Hp|..]; setoid_rewrite <- Hp; done. Qed.

Lemma session_accounted_same w w' l : wl_sessions w' = wl_sessions w → wl_worker w' = wl_worker w → accounted w l → accounted w' l.
Proof. intros E1 E2 [U F N R S L]. split; rewrite ?E1, ?E2; done. Qed.

(** A handler may drop a duty it has done, and note a row it has read. *)
Lemma accounted_change w own own' env :
  accounted w (own ++ env) → omap reserved own' = omap reserved own →
  (∀ i r, Saw i r ∈ own' → Saw i r ∈ own ∨ wl_sessions w !! i = Some r) →
  (∀ a, Owes a ∈ own → Owes a ∈ own' ∨ in_use (wl_sessions w) a ∨ a ∉ wl_worker w) →
  accounted w (own' ++ env).
Proof.
  intros [U F N R S L] Hres Hsaw Howes. split; [done|done| | | |].
  - rewrite omap_app, Hres, <- omap_app. done.
  - intros s Hin. apply R. apply elem_of_app in Hin as [Hin|Hin]; apply elem_of_app; [left|by right].
    assert (s ∈ omap reserved own) as Hs by (rewrite <- Hres; apply list_elem_of_omap; by exists (Reserved s)).
    apply list_elem_of_omap in Hs as ([?|s'|? ?] & Hs & E); try done. by injection E as ->.
  - intros i r [Hin|Hin]%elem_of_app; [|apply S, elem_of_app; by right].
    apply Hsaw in Hin as [Hin|Hr]; [apply S, elem_of_app; by left|]. split; [by eapply F|]. exists r. split; [done|reflexivity].
  - intros a Ha. destruct (L _ Ha) as [?|[Hin|Hin]%elem_of_app]; [by left| |right; apply elem_of_app; by right].
    destruct (Howes _ Hin) as [?|[?|?]]; [right; apply elem_of_app; by left|by left|done].
Qed.

(** Rows move; whoever closes a row decides on its wallet. *)
Lemma accounted_update w own own' env where_ f :
  accounted w (own ++ env) → (∀ r, row_moves r (f r)) → (∀ r, well_formed r → well_formed (f r)) →
  omap reserved own' = omap reserved own → (∀ i r, Saw i r ∈ own' → Saw i r ∈ own) → (∀ a, Owes a ∈ own → Owes a ∈ own') →
  (∀ i r a, wl_sessions w !! i = Some r → where_ r = true → active r = true → active (f r) = false → account r = Some a → Owes a ∈ own') →
  accounted (update_sessions where_ f w) (own' ++ env).
Proof.
  intros Hacc Hf Hwf Hres Hsaw Hkeep Howes. pose proof Hacc as [U F N R S L].
  assert (∀ i r', wl_sessions (update_sessions where_ f w) !! i = Some r' ↔
    ∃ r, wl_sessions w !! i = Some r ∧ r' = if where_ r then f r else r) as Hlook.
  { intros i r'. cbn [update_sessions wl_sessions with_sessions]. rewrite lookup_sql_update, fmap_Some. done. }
  assert (∀ r, row_moves r (if where_ r then f r else r)) as Hmv by (intros r; destruct (where_ r); [apply Hf|reflexivity]).
  destruct (accounted_change w own own' env Hacc) as [_ _ N' R' S' _]; [done|by left; apply Hsaw|by left; apply Hkeep|]. split.
  - intros i j r r' (r0 & Hi & ->)%Hlook (r0' & Hj & ->)%Hlook. rewrite (rm_session _ _ (Hmv r0)), (rm_session _ _ (Hmv r0')). by apply U.
  - intros i r' (r & Hi & ->)%Hlook. apply F in Hi. destruct (where_ r); auto.
  - done.
  - intros s Hin i r' (r & Hi & ->)%Hlook. rewrite (rm_session _ _ (Hmv r)). by eapply R'.
  - intros i r Hin. destruct (S' _ _ Hin) as (Hw & r' & Hi & Hm). split; [done|]. eexists. split; [apply Hlook; by exists r'|].
    etrans; [exact Hm|apply Hmv].
  - intros a Ha. destruct (L _ Ha) as [(i & r & Hi & Hact & Hacct)|[Hin|Hin]%elem_of_app]; [|right; apply elem_of_app; by left; apply Hkeep|right; apply elem_of_app; by right].
    destruct (active (if where_ r then f r else r)) eqn:E.
    + left. exists i, (if where_ r then f r else r). split; [apply Hlook; by exists r|]. split; [done|]. unfold account_of.
      destruct (rm_active _ _ (Hmv r) E) as [_ ->]. by rewrite (rm_session _ _ (Hmv r)).
    + right. apply elem_of_app. left. destruct (where_ r) eqn:Ew; [|congruence]. by eapply Howes.
Qed.

Lemma closed_well_formed t r : well_formed r → well_formed (closed t r).
Proof. done. Qed.

Lemma set_seed_well_formed k a r : well_formed r → well_formed (set_seed k a r).
Proof. done. Qed.

Lemma account_well_formed r a : account r = Some a → well_formed r → active r = true ∧ truthy_str (se_viewingKey r) = true ∧
  ∃ vk, a = deriveAccountId vk ∧ se_viewingKeyHash r = Some (hashViewingKey vk).
Proof.
  unfold account_of, well_formed. destruct (se_viewingKey r) as [c|]; [|done]. simpl.
  intros Ha (Hact & vk & Hd & Hh). rewrite Hd in Ha. injection Ha as <-. split_and!; [done| |eauto].
  destruct c; [by rewrite decrypt_empty in Hd|done].
Qed.

(** Rows of the same hash are of the same account. *)
Lemma same_hash r r' a a' : well_formed r → well_formed r' → account r = Some a → account r' = Some a' →
  se_viewingKeyHash r = se_viewingKeyHash r' → a = a'.
Proof.
  intros Hw Hw' Ha Ha' Hh. destruct (account_well_formed _ _ Ha Hw) as (_ & _ & vk & -> & E).
  destruct (account_well_formed _ _ Ha' Hw') as (_ & _ & vk' & -> & E'). f_equal. apply hash_inj. congruence.
Qed.

(** ** The statements *)

Abbreviation safe := (keeps accounted false).

Lemma safe_read {A} (f : Wallets → A) (Q : outcome A → list duty → Prop) own :
  (∀ w env, accounted w (own ++ env) → ∃ own', accounted w (own' ++ env) ∧ Q (Ret (f w)) own') → safe Q own (read f).
Proof. intros Hf. apply keeps_stmt; [|done]. intros now w env o w' Hi _ [= <- <-]. by apply Hf. Qed.

Lemma safe_look {A} (f : Wallets → A) (Q : outcome A → list duty → Prop) own : (∀ a, Q (Ret a) own) → safe Q own (read f).
Proof. intros HQ. apply safe_read. intros w env Hi. eauto. Qed.

Lemma safe_clock (Q : outcome Z → list duty → Prop) own : (∀ now, Q (Ret now) own) → safe Q own clock.
Proof. intros HQ. apply keeps_stmt; [|done]. intros now w env o w' Hi _ [= <- <-]. eauto. Qed.

Lemma safe_memory f (Q : outcome unit → list duty → Prop) own :
  (∀ w, wl_sessions (f w) = wl_sessions w ∧ wl_worker (f w) = wl_worker w) → Q (Ret tt) own → safe Q own (set_memory f).
Proof. intros Hf HQ. apply keeps_stmt; [|done]. intros now w env o w' Hi _ [= <- <-]. exists own. split; [|done]. by eapply session_accounted_same; [apply Hf..|]. Qed.

Lemma safe_write f (Q : outcome unit → list duty → Prop) own :
  (∀ now w env, accounted w (own ++ env) → ∃ own', accounted (f now w) (own' ++ env) ∧ Q (Ret tt) own') → safe Q own (write f).
Proof. intros Hf. apply keeps_stmt; [|done]. intros now w env o w' Hi _ [= <- <-]. by apply Hf. Qed.
(** ** Deciding on a wallet *)

(** What is still owed satisfies [P]. *)
Definition owing (P : string → Prop) (l : list duty) : Prop := ∀ a, Owes a ∈ l → P a.

Definition is_owes (a : string) (d : duty) : bool := match d with Owes b => bool_decide (a = b) | _ => false end.

(** The duties without those of [a]. *)
Definition settle (a : string) (l : list duty) : list duty := keep (λ d, negb (is_owes a d)) l.

Lemma settle_reserved a l : omap reserved (settle a l) = omap reserved l.
Proof.
  induction l as [|d l IH]; [done|]. unfold settle, keep in *. rewrite filter_cons.
  destruct (decide (negb (is_owes a d) = true)) as [Hd|Hd].
  - destruct d; [exact IH|cbn; f_equal; exact IH|exact IH].
  - destruct d; [exact IH|by destruct Hd..].
Qed.

Lemma elem_of_settle a d l : d ∈ settle a l ↔ d ∈ l ∧ d ≠ Owes a.
Proof.
  unfold settle. rewrite elem_of_keep, negb_true_iff. destruct d as [b|s|i r]; simpl.
  - rewrite bool_decide_eq_false. naive_solver.
  - naive_solver.
  - naive_solver.
Qed.

Lemma settle_change w a own env : accounted w (own ++ env) → in_use (wl_sessions w) a ∨ a ∉ wl_worker w → accounted w (settle a own ++ env).
Proof.
  intros Hi Ha. eapply accounted_change; [done|apply settle_reserved| |].
  - intros i r [Hin _]%elem_of_settle. by left.
  - intros b Hb. destruct (decide (b = a)) as [->|Hne]; [by right|]. left. apply elem_of_settle. split; [done|congruence].
Qed.

Lemma owing_settle P a l : owing (λ b, b = a ∨ P b) l → owing P (settle a l).
Proof. intros Hl b [Hb Hne]%elem_of_settle. destruct (Hl _ Hb) as [->|]; [done|done]. Qed.

Lemma safe_evict P own a : owing (λ b, b = a ∨ P b) own → safe (λ o l, o = Ret tt ∧ owing P l) own (evictWalletFacade a).
Proof.
  intros Ho. apply keeps_finally with (Q := λ o l, o = Ret tt ∧ owing P l).
  - apply keeps_catching with (Q := λ o l, o = Ret tt ∧ owing P l); [|by intros e l [[=] _]|done].
    apply safe_write. intros now w env Hi. exists (settle a own). split; [|split; [done|by apply owing_settle]].
    assert (accounted (with_worker (wl_worker w ∖ {[a]}) w) (own ++ env)) as Hi'.
    { destruct Hi as [U F N R S L]. split; try done. intros b. simpl. intros [Hb _]%elem_of_difference. by apply L. }
    apply settle_change; [done|]. right. simpl. set_solver.
  - intros o l [-> Hl]. apply safe_memory; [done|]. eauto.
Qed.

Lemma safe_lock {A} key (p : prog Wallets A) Q own : safe Q own p → safe Q own (withKeyedLock key p).
Proof.
  intros Hp. unfold withKeyedLock. apply keeps_bind with (Q := λ o l, o = Ret tt ∧ l = own).
  - apply keeps_stmt; [|done]. intros now w env o w' Hi _ [= <- <-]. exists own. split; [by eapply session_accounted_same; [..|exact Hi]|done].
  - intros [] l [_ ->]. eapply keeps_finally; [exact Hp|]. intros o l Hl. apply safe_memory; [done|]. eauto.
  - by intros e l [[=] _].
Qed.

(** [r] was read with the hash [h]; another row of it keeps the wallet. *)
Lemma safe_hasLive P own r a u : account r = Some a → well_formed r → owing (λ b, b = a ∨ P b) own →
  safe (λ o l, ∃ b : bool, o = Ret b ∧ (if b then owing P l else owing (λ b, b = a ∨ P b) l)) own
    (hasLiveSessionForWallet cfg (se_viewingKeyHash r) u).
Proof.
  intros Ha Hw Ho. unfold hasLiveSessionForWallet. destruct (present (se_viewingKeyHash r)) as [h|] eqn:Eh; [|by exists false].
  destruct (present u) as [v|]; [|by exists false]. apply present_Some in Eh as [Eh _].
  eapply keeps_bind with (Q := λ o l, ∃ rows : list (string * SessionRow), o = Ret rows ∧
    (if bool_decide (rows = []) then owing (λ b, b = a ∨ P b) l else owing P l)); [|intros rows l (? & [= <-] & Hl)|by intros e l (? & [=] & _)].
  - apply safe_read. intros w env Hi. destruct (sql_select _ _) as [|[i r2] rows] eqn:Er.
    + exists own. split; [done|]. by exists [].
    + exists (settle a own). split.
      * apply settle_change; [done|]. left. assert ((i, r2) ∈ sql_select (λ _ r0, bool_decide (se_viewingKeyHash r0 = Some h) && active r0) (wl_sessions w)) as Hin
          by (rewrite Er; apply list_elem_of_here).
        apply elem_of_select in Hin as [Hi2 [Hh%bool_decide_eq_true_1 Hact]%andb_prop]. exists i, r2. split_and!; [done|done|].
        pose proof (ac_form _ _ Hi _ _ Hi2) as Hw2. destruct (account r2) as [a2|] eqn:Ea2.
        -- f_equal. eapply (same_hash r2 r); [done..|congruence].
        -- exfalso. unfold account_of, well_formed in *. destruct (se_viewingKey r2); [|congruence]. simpl in Ea2.
           destruct Hw2 as (_ & vk & Hd & _). by rewrite Hd in Ea2.
      * eexists. split; [done|]. rewrite bool_decide_eq_false_2 by done. by apply owing_settle.
  - eapply keeps_bind with (Q := λ o l', (∃ n, o = Ret n) ∧ l' = l); [by apply safe_clock; eauto|intros now l' [_ ->]|by intros e l' [[? [=]] _]].
    eexists. split; [done|]. case_bool_decide as Hr; [by rewrite Hr|]. destruct (existsb _ _); [done|]. intros b Hb. right. by apply Hl.
Qed.

Lemma safe_unless P own r : well_formed r → owing (λ a, a = nullish (account r) a ∧ is_Some (account r) ∨ P a) own →
  safe (λ o l, o = Ret tt ∧ owing P l) own (evictFacadeUnlessShared decrypt deriveAccountId cfg r).
Proof.
  intros Hw Ho. unfold evictFacadeUnlessShared.
  apply keeps_catching with (Q := λ _ l, owing P l); [|by intros e l Hl|intros [] l Hl; done].
  destruct (account r) as [a|] eqn:Ea.
  - assert (owing (λ b, b = a ∨ P b) own) as Hown by (intros b [[Hb _]|Hb]%Ho; auto).
    destruct (account_well_formed _ _ Ea Hw) as (_ & -> & _). simpl negb. cbv iota. apply safe_lock.
    eapply keeps_bind with (Q := λ o l, ∃ b : bool, o = Ret b ∧ (if b then owing P l else owing (λ b, b = a ∨ P b) l)).
    + destruct (truthy_str (se_viewingKeyHash r)); [by apply safe_hasLive|]. by exists false.
    + intros b l (? & [= <-] & Hl). destruct b; [done|]. eapply keeps_weaken; [by apply safe_evict|]. by intros o l' [_ ?].
    + by intros e l (? & [=] & _).
  - assert (owing P own) as Hown by (intros b Hb; destruct (Ho _ Hb) as [[_ [? [=]]]|]; done). by destruct (negb _).
Qed.

Lemma safe_admin_evict P own r : well_formed r → owing (λ a, a = nullish (account r) a ∧ is_Some (account r) ∨ P a) own →
  safe (λ o l, o = Ret tt ∧ owing P l) own (evictSessionFacade decrypt deriveAccountId r).
Proof.
  intros Hw Ho. unfold evictSessionFacade.
  apply keeps_catching with (Q := λ _ l, owing P l); [|by intros e l Hl|intros [] l Hl; done].
  destruct (account r) as [a|] eqn:Ea.
  - destruct (account_well_formed _ _ Ea Hw) as (_ & -> & _). simpl negb. cbv iota. apply safe_lock.
    eapply keeps_weaken; [apply (safe_evict P); intros b [[Hb _]|Hb]%Ho; auto|]. by intros o l' [_ ?].
  - assert (owing P own) as Hown by (intros b Hb; destruct (Ho _ Hb) as [[_ [? [=]]]|]; done). by destruct (negb _).
Qed.
(** ** The handlers *)

(** A handler that ends with nothing owed. *)
Definition settled (p : handler) (own : list duty) : Prop := safe (λ _ l, owing (λ _, False) l) own p.

Lemma settled_answer x own : owing (λ _, False) own → settled (mret x) own.
Proof. done. Qed.

Lemma found where_ w r : find_session where_ w = Some r → ∃ i, wl_sessions w !! i = Some r ∧ where_ r = true.
Proof.
  unfold find_session. destruct (sql_select _ _) as [|[i x] l] eqn:E; [done|]. intros [= <-]. exists i. simpl.
  apply (elem_of_select (λ _ r, where_ r)). rewrite E. apply list_elem_of_here.
Qed.

(** Reading a row. *)
Lemma safe_find where_ : safe (λ o l, ∃ row, o = Ret row ∧ match row with
    | Some r => ∃ i, l = [Saw i r] ∧ where_ r = true | None => l = [] end) [] (read (find_session where_)).
Proof.
  apply safe_read. intros w env Hi. destruct (find_session where_ w) as [r|] eqn:E; [|exists []; split; [done|]; by eexists].
  apply found in E as (i & Hr & Hwh). exists [Saw i r]. split; [|eexists; split; [done|]; by exists i].
  apply (accounted_change w [] [Saw i r] env Hi); [done| |intros a Ha; by apply not_elem_of_nil in Ha]. intros i' r' [[= -> ->]|?%elem_of_nil]%elem_of_cons; [by right|done].
Qed.

(** Closing the rows that have the session id of a row read before. *)
Lemma safe_close where_ t i r :
  (∀ r', where_ r' = true → se_sessionId r' = se_sessionId r) →
  safe (λ o l, o = Ret tt ∧ well_formed r ∧ owing (λ a, a = nullish (account r) a ∧ is_Some (account r)) l) [Saw i r]
    (write (λ now, update_sessions where_ (closed (t now)))).
Proof.
  intros Hwh. apply safe_write. intros now w env Hi.
  destruct (ac_saw _ _ Hi i r (list_elem_of_here _ _)) as (Hw & r1 & Hi1 & Hm).
  set (owed := match account r with Some a => [Owes a] | None => [] end). exists (owed ++ [Saw i r])%list. split.
  - eapply accounted_update; [exact Hi|intros; apply closed_moves|intros; by apply closed_well_formed|by unfold owed; destruct (account r)| | |].
    + intros i' r' [Hin|Hin]%elem_of_app; [|done]. unfold owed in Hin. destruct (account r); [by apply list_elem_of_singleton in Hin|by apply not_elem_of_nil in Hin].
    + intros a Ha. by apply list_elem_of_singleton in Ha.
    + intros i2 r2 a Hi2 Hwh2 Hact _ Ha. apply Hwh in Hwh2. assert (i2 = i) as ->.
      { eapply ac_unique; [exact Hi|done|done|]. by rewrite (rm_session _ _ Hm). }
      assert (r2 = r1) as -> by congruence. destruct (rm_active _ _ Hm Hact) as [_ Hk].
      assert (account r = Some a) as E; [|apply elem_of_app; left; unfold owed; rewrite E; apply list_elem_of_here].
      rewrite <- Ha. unfold account_of. rewrite Hk. by rewrite (rm_session _ _ Hm).
  - split_and!; [done|done|]. intros a [Ha|Ha]%elem_of_app.
    + unfold owed in Ha. destruct (account r) as [b|]; [|by apply not_elem_of_nil in Ha]. apply list_elem_of_singleton in Ha as [= ->]. by split.
    + by apply list_elem_of_singleton in Ha.
Qed.
Lemma settled_then {A} (p : prog Wallets A) (k : A → handler) Q own :
  safe Q own p → (∀ e l, Q (Throw e) l → owing (λ _, False) l) → (∀ a l, Q (Ret a) l → settled (k a) l) → settled (p ≫= k) own.
Proof. intros Hp He Hk. eapply keeps_bind; [exact Hp|exact Hk|]. exact He. Qed.

Lemma saw_nothing i r : owing (λ _, False) [Saw i r].
Proof. intros a Ha. by apply list_elem_of_singleton in Ha. Qed.

Lemma owing_nil P : owing P [].
Proof. intros a Ha. by apply not_elem_of_nil in Ha. Qed.

Lemma settled_find where_ (k : option SessionRow → handler) :
  settled (k None) [] → (∀ i r, where_ r = true → settled (k (Some r)) [Saw i r]) → settled (row ← read (find_session where_); k row) [].
Proof.
  intros Hn Hs. eapply settled_then; [apply safe_find|intros e l; by intros (? & [=] & _)|].
  intros [r|] l (? & [= <-] & Hl); [destruct Hl as (i & -> & Hwh); auto|by rewrite Hl].
Qed.

Lemma settled_clock (k : Z → handler) own : (∀ now, settled (k now) own) → settled (now ← clock; k now) own.
Proof.
  intros Hk. eapply (settled_then _ _ (λ o l, (∃ n, o = Ret n) ∧ l = own)); [by apply safe_clock; eauto|intros e l; by intros [[? [=]] _]|].
  by intros n l [_ ->].
Qed.

(** Closing the row that was read, then deciding on its wallet. *)
Lemma settled_closing (evict : SessionRow → prog Wallets unit) where_ t i r x :
  (∀ P own r, well_formed r → owing (λ a, a = nullish (account r) a ∧ is_Some (account r) ∨ P a) own →
     safe (λ o l, o = Ret tt ∧ owing P l) own (evict r)) →
  (∀ r', where_ r' = true → se_sessionId r' = se_sessionId r) →
  settled (_ ← write (λ now, update_sessions where_ (closed (t now))); _ ← evict r; mret x) [Saw i r].
Proof.
  intros Hev Hwh. eapply settled_then; [by apply safe_close|intros e l; by intros [[=] _]|]. intros [] l (_ & Hw & Hl).
  eapply settled_then; [apply (Hev (λ _, False)); [exact Hw|]|intros e l'; by intros [[=] _]|by intros [] l' [_ Hl']].
  intros a Ha. left. by apply Hl.
Qed.

Lemma settled_disconnect user sid : settled (disconnectWallet decrypt deriveAccountId cfg user sid) [].
Proof.
  unfold disconnectWallet. destruct (present user) as [u|]; [|apply owing_nil]. destruct (is_empty sid); [apply owing_nil|]. cbv zeta.
  apply settled_find; [apply owing_nil|]. intros i r [Hr%bool_decide_eq_true_1 _]%andb_prop. apply settled_clock. intros now.
  assert (∀ r', of_session sid r' && of_user u r' = true → se_sessionId r' = se_sessionId r) as Hwh.
  { intros r' [Hr'%bool_decide_eq_true_1 _]%andb_prop. congruence. }
  destruct (session_expired _ _ _ _).
  - apply (settled_closing _ _ (λ _, None)); [apply safe_unless|exact Hwh].
  - apply (settled_closing _ _ Some); [apply safe_unless|exact Hwh].
Qed.

Lemma settled_invalidate sid : settled (invalidateSession decrypt deriveAccountId sid) [].
Proof.
  unfold invalidateSession. destruct (is_empty sid); [apply owing_nil|]. apply settled_find; [apply owing_nil|].
  intros i r Hr%bool_decide_eq_true_1. destruct (negb (active r)); [apply saw_nothing|].
  apply (settled_closing _ _ Some); [apply safe_admin_evict|]. intros r' Hr'%bool_decide_eq_true_1. congruence.
Qed.

(** Only the first of the rows of a hash decides. *)
Lemma safe_evict_expired decided rows own : Forall well_formed rows →
  owing (λ a, ∃ r, r ∈ rows ∧ account r = Some a ∧ ∀ h, present (se_viewingKeyHash r) = Some h → h ∉ decided) own →
  safe (λ o l, o = Ret tt ∧ owing (λ _, False) l) own (evict_expired decrypt deriveAccountId cfg decided rows).
Proof.
  revert decided own. induction rows as [|s rows IH]; intros decided own Hf Ho; cbn [evict_expired].
  { split; [done|]. intros a (r & Hr & _)%Ho. by apply not_elem_of_nil in Hr. }
  apply Forall_cons in Hf as [Hs Hf]. destruct (account s) as [a|] eqn:Ea.
  2:{ assert (owing (λ a, ∃ r, r ∈ rows ∧ account r = Some a ∧ ∀ h, present (se_viewingKeyHash r) = Some h → h ∉ decided) own) as Ho'.
      { intros a (r & [->|Hr]%elem_of_cons & Hx & Hd)%Ho; [congruence|eauto]. }
      assert (negb (truthy_str (se_viewingKey s)) = true) as ->; [|by apply IH].
      unfold account_of, well_formed in *. destruct (se_viewingKey s); [|done]. simpl in Ea. destruct Hs as (_ & vk & Hd & _). by rewrite Hd in Ea. }
  destruct (account_well_formed _ _ Ea Hs) as (_ & -> & vk & -> & Hh). simpl negb. cbv iota.
  assert (∀ d' : list string, (∀ r, r ∈ rows → ∀ b h, account r = Some b → present (se_viewingKeyHash r) = Some h → h ∈ d' → h ∉ decided → b = deriveAccountId vk) →
    owing (λ a, a = nullish (account s) a ∧ is_Some (account s) ∨
      ∃ r, r ∈ rows ∧ account r = Some a ∧ ∀ h, present (se_viewingKeyHash r) = Some h → h ∉ d') own) as Hstep.
  { intros d' Hd' b (r & [->|Hr]%elem_of_cons & Hx & Hd)%Ho; [left; rewrite Hx; by split|].
    destruct (present (se_viewingKeyHash r)) as [h|] eqn:Eh.
    - destruct (decide (h ∈ d')) as [Hin|Hin]; [left; rewrite Ea; split; [by eapply Hd'; eauto|done]|right].
      exists r. split_and!; [done|done|]. rewrite Eh. by intros h' [= <-].
    - right. exists r. split_and!; [done|done|]. by rewrite Eh. }
  destruct (present (se_viewingKeyHash s)) as [h|] eqn:Eh.
  - destruct (mem h decided) eqn:Em.
    + apply IH; [done|]. intros b (r & [->|Hr]%elem_of_cons & Hx & Hd)%Ho; [|eauto]. exfalso. apply (Hd h Eh). by apply mem_true.
    + eapply keeps_bind; [eapply (safe_unless _ own s Hs), (Hstep (h :: decided))|intros [] l [_ Hl]; by apply IH|by intros e l [[=] _]].
      intros r Hr b h' Hb Hp [->|Hin]%elem_of_cons Hnd; [|done]. apply present_Some in Hp as [Hp _], Eh as [Eh _].
      rewrite Forall_forall in Hf. eapply (same_hash r s); [by apply Hf|done|done|done|congruence].
  - eapply keeps_bind; [eapply (safe_unless _ own s Hs), (Hstep decided)|intros [] l [_ Hl]; by apply IH|by intros e l [[=] _]].
    done.
Qed.
Lemma settled_cleanup : settled (session_cleanup decrypt deriveAccountId cfg) [].
Proof.
  unfold session_cleanup. eapply (settled_then _ _ (λ _ l, owing (λ _, False) l)); [|by intros ? l Hl|by intros ? l Hl].
  apply keeps_catching with (Q := λ _ l, owing (λ _, False) l); [|done|done].
  eapply keeps_bind with (Q := λ o l, (∃ n, o = Ret n) ∧ l = []); [apply safe_clock; eauto|intros now l [_ ->]|by intros e l [[? [=]] _]].
  eapply keeps_bind with (Q := λ o l, ∃ rows : list (string * SessionRow), o = Ret rows ∧ l = (λ x, Saw x.1 x.2) <$> rows);
    [|intros rows l (? & [= <-] & ->)|by intros e l (? & [=] & _)].
  - apply safe_read. intros w env Hi. eexists. split; [|by eexists]. apply (accounted_change w [] _ env Hi).
    + by induction (sql_select _ _).
    + intros i r ([i' r'] & [= -> ->] & Hin)%list_elem_of_fmap. right. by apply elem_of_select in Hin as [? _].
    + intros a Ha. by apply not_elem_of_nil in Ha.
  - cbv zeta. set (expiring := keep _ rows.*2). destruct expiring as [|s0 l0] eqn:Ee.
    { intros a Ha. apply list_elem_of_fmap in Ha as (? & ? & _). done. }
    rewrite <- Ee. eapply keeps_bind with (Q := λ o l, o = Ret tt ∧ Forall well_formed expiring ∧
      owing (λ a, ∃ r, r ∈ expiring ∧ account r = Some a) l); [|intros [] l (_ & Hw & Hl)|by intros e l [[=] _]].
    + apply safe_write. intros now' w env Hi. set (saws := (λ x : string * SessionRow, Saw x.1 x.2) <$> rows).
      exists ((Owes <$> omap (λ r, account r) expiring) ++ saws)%list. split_and!; [|done| |].
      * eapply accounted_update; [exact Hi|intros; apply closed_moves|intros; by apply closed_well_formed| | | |].
        -- rewrite omap_app. assert (omap reserved (Owes <$> omap (λ r, account r) expiring) = []) as ->; [|done]. by induction (omap _ expiring).
        -- intros i r [Hin|Hin]%elem_of_app; [|done]. by apply list_elem_of_fmap in Hin as (? & ? & _).
        -- intros a Ha. apply elem_of_app. by right.
        -- intros i r a Hi2 Hm%mem_true Hact _ Ha. apply list_elem_of_fmap in Hm as (r0 & Hs & Hin).
           assert (∃ i0, (i0, r0) ∈ rows) as [i0 Hrow].
           { apply elem_of_keep in Hin as [_ Hin]. apply list_elem_of_fmap in Hin as ([i0 r0'] & -> & Hin). by exists i0. }
           destruct (ac_saw _ _ Hi i0 r0) as (_ & r1 & Hi0 & Hm1).
           { apply elem_of_app. left. apply list_elem_of_fmap. by exists (i0, r0). }
           assert (i = i0) as -> by (eapply ac_unique; [exact Hi|done|done|by rewrite (rm_session _ _ Hm1)]).
           assert (r = r1) as -> by congruence. destruct (rm_active _ _ Hm1 Hact) as [_ Hk].
           apply elem_of_app. left. apply list_elem_of_fmap. exists a. split; [done|]. apply list_elem_of_omap. exists r0. split; [done|].
           rewrite <- Ha. unfold account_of. rewrite Hk. by rewrite (rm_session _ _ Hm1).
      * apply Forall_forall. intros r [_ Hin]%elem_of_keep. apply list_elem_of_fmap in Hin as ([i r'] & -> & Hin).
        destruct (ac_saw _ _ Hi i r') as [Hw _]; [|done]. apply elem_of_app. left. apply list_elem_of_fmap. by exists (i, r').
      * intros a [Ha|Ha]%elem_of_app; [|by apply list_elem_of_fmap in Ha as (? & ? & _)].
        apply list_elem_of_fmap in Ha as (b & [= ->] & Hb). apply list_elem_of_omap in Hb as (r & Hr & Hx). eauto.
    + eapply keeps_weaken; [apply safe_evict_expired; [done|]|by intros o l' [_ ?]].
      intros a (r & Hr & Hx)%Hl. exists r. split_and!; [done|done|]. intros h _. apply not_elem_of_nil.
Qed.

Lemma settled_connect rate user vk label id sid nonce :
  settled (connectWallet encrypt hashViewingKey sessionTtlMs rate user vk label id sid nonce) [Reserved sid].
Proof.
  assert (owing (λ _, False) [Reserved sid]) as Hr by (intros a Ha; by apply list_elem_of_singleton in Ha).
  unfold connectWallet. destruct rate; [exact Hr|]. destruct (present user); [|exact Hr]. destruct (validateViewingKey vk); [exact Hr|]. cbv zeta.
  destruct (match label with Some _ => _ | None => _ end); [exact Hr|]. apply settled_clock. intros now. apply settled_clock. intros now'.
  eapply (settled_then _ _ (λ _ l, owing (λ _, False) l)); [|by intros ? l Hl|by intros ? l Hl].
  apply keeps_stmt; [|done]. intros now2 w env o w' Hi _ E. destruct (wl_sessions w !! id) as [r|] eqn:El; injection E as <- <-; [by exists [Reserved sid]|].
  exists []. split; [|apply owing_nil]. destruct Hi as [U F N R S L]. set (row := MkSessionRow _ _ _ _ _ _ _ _ _ _ _).
  assert (well_formed row) as Hrow by (split; [done|]; eexists; by rewrite decrypt_encrypt).
  assert (∀ i r, wl_sessions w !! i = Some r → se_sessionId r ≠ sid) as Hfresh by (apply R, list_elem_of_here).
  split; cbn [wl_sessions with_sessions wl_worker app].
  - intros i j r r' Hi Hj Hs. destruct (decide (i = id)) as [->|Hni], (decide (j = id)) as [->|Hnj]; try done.
    + rewrite lookup_insert_eq in Hi. rewrite lookup_insert_ne in Hj by done. injection Hi as <-. by eapply Hfresh in Hj.
    + rewrite lookup_insert_eq in Hj. rewrite lookup_insert_ne in Hi by done. injection Hj as <-. by eapply Hfresh in Hi.
    + rewrite lookup_insert_ne in Hi by done. rewrite lookup_insert_ne in Hj by done. by eapply U.
  - intros i r Hi. destruct (decide (i = id)) as [->|Hni]; [rewrite lookup_insert_eq in Hi; by injection Hi as <-|].
    rewrite lookup_insert_ne in Hi by done. by eapply F.
  - by apply NoDup_cons in N as [_ ?].
  - intros sx Hs i r Hi. destruct (decide (i = id)) as [->|Hni].
    + rewrite lookup_insert_eq in Hi. injection Hi as <-. simpl. intros ->. apply NoDup_cons in N as [N _]. apply N.
      apply list_elem_of_omap. by exists (Reserved sx).
    + rewrite lookup_insert_ne in Hi by done. eapply R; [by apply list_elem_of_further|done].
  - intros i r Hin. destruct (S i r) as (Hw & r' & Hi & Hm); [by apply list_elem_of_further|]. split; [done|]. exists r'. split; [|done].
    rewrite lookup_insert_ne by congruence. done.
  - intros a Ha. destruct (L _ Ha) as [(i & r & Hi & Hact & Hx)|Hin]; [left; exists i, r; split_and!; [rewrite lookup_insert_ne by congruence|..]; done|].
    right. by apply elem_of_cons in Hin as [|].
Qed.

Lemma settled_signing rate user sid m s ai p nonce :
  settled (connectWalletForSigning encrypt decrypt deriveAccountId deriveViewingKeyForAccount mnemonicToBip39SeedHex cfg admission rate user sid m s ai p nonce) [].
Proof.
  unfold connectWalletForSigning. destruct rate; [apply owing_nil|]. destruct (present user) as [u|]; [|apply owing_nil]. cbv zeta.
  destruct (is_empty sid); [apply owing_nil|]. destruct (bool_decide _); [apply owing_nil|]. destruct (requested_seed _ _ _); [apply owing_nil|].
  apply settled_find; [apply owing_nil|]. intros i r _. apply settled_clock. intros now. destruct (session_expired _ _ _ _); [apply saw_nothing|].
  destruct (decrypt _ _ _); [|apply saw_nothing]. destruct (deriveViewingKeyForAccount _ _); [|apply saw_nothing].
  destruct (negb _); [apply saw_nothing|]. eapply (settled_then _ _ (λ _ l, owing (λ _, False) l)); [|by intros ? l Hl|by intros ? l Hl].
  apply keeps_stmt; [|done]. intros now' w env o w' Hi _ E. exists [Saw i r]. split; [|apply saw_nothing].
  set (w1 := update_sessions _ _ w) in E. assert (accounted w1 ([Saw i r] ++ env)) as Hi1.
  { eapply accounted_update; [exact Hi|intros; apply set_seed_moves|intros; by apply set_seed_well_formed|done|done|done|].
    intros j r' a _ _ H1 H2. unfold active in *. simpl in H2. congruence. }
  destruct p; [|by injection E as _ <-]. unfold on_wallets in E. destruct (admission _ _ _) as [[x|x] sh]; injection E as _ <-;
    by eapply session_accounted_same; [..|exact Hi1].
Qed.

Lemma safe_check sid user ie : safe (λ o l, ∃ x, o = Ret x ∧ owing (λ _, False) l) [] (checkSigningSession cfg sid user ie).
Proof.
  unfold checkSigningSession. eapply keeps_bind; [apply safe_find|intros [r|] l (? & [= <-] & Hl)|by intros e l (? & [=] & _)].
  - destruct Hl as (i & -> & _). pose proof (saw_nothing i r) as Hn. destruct (negb _); [by eexists|]. destruct (negb _); [by eexists|].
    eapply keeps_bind with (Q := λ o l, (∃ n, o = Ret n) ∧ l = [Saw i r]); [apply safe_clock; eauto|intros now l [_ ->]|by intros e l [[? [=]] _]].
    destruct (_ && _); by eexists.
  - rewrite Hl. eexists. split; [done|apply owing_nil].
Qed.

Lemma settled_load sid user ie : settled (loadSigningSessionAccountId decrypt deriveAccountId cfg sid user ie) [].
Proof.
  unfold loadSigningSessionAccountId. eapply settled_then; [apply safe_check|intros e l; by intros (? & [=] & _)|].
  intros a l (? & _ & Hl). destruct a as [|[]]; try done. by destruct (account_of _ _ _).
Qed.
End Accounts.

(** ** Any number of handlers *)

Section System.
Context `{ScanOrder}.
Variable encrypt : string → string → string → string → string.
Variable decrypt : string → string → string → option string.
Variables hashViewingKey deriveAccountId : string → string.
Variable deriveViewingKeyForAccount : string → Z → option string.
Variable mnemonicToBip39SeedHex : string → option string.
Variable cfg : SponsorConfig.
Variable sessionTtlMs : option Z.
Variable admission : string → string → M Shared (string * JobStatus).

(** A request of a user, of an admin, or a run of the timer; [id] is the session id
    it draws. *)
Inductive request : option string → handler → Prop :=
| req_connect rate user vk label id sid nonce :
    request (Some sid) (connectWallet encrypt hashViewingKey sessionTtlMs rate user vk label id sid nonce)
| req_signing rate user sid m s ai p nonce :
    request None (connectWalletForSigning encrypt decrypt deriveAccountId deriveViewingKeyForAccount mnemonicToBip39SeedHex cfg admission
                    rate user sid m s ai p nonce)
| req_disconnect user sid : request None (disconnectWallet decrypt deriveAccountId cfg user sid)
| req_invalidate sid : request None (invalidateSession decrypt deriveAccountId sid)
| req_cleanup : request None (session_cleanup decrypt deriveAccountId cfg)
| req_load sid user ie : request None (loadSigningSessionAccountId decrypt deriveAccountId cfg sid user ie).

(** The other handlers: closing all at once, closing at start-up, and jobs, which
    may do anything but write the sessions. *)
Inductive session_handler : handler → Prop :=
| sh_request id p : request id p → session_handler p
| sh_invalidate_all : session_handler (invalidateAllSessions decrypt deriveAccountId)
| sh_start : session_handler (closeSessionsFromPreviousProcess cfg)
| sh_job p : within (λ w w', wl_sessions w' = wl_sessions w) p → session_handler p.

Lemma within_weaken {S A} (R R' : S → S → Prop) (p : prog S A) : (∀ s s', R s s' → R' s s') → within R p → within R' p.
Proof.
  intros HR. induction p as [o|X f g m c IH]; [done|]. intros [H1 H2]. split; [|auto].
  intros now s o s' Hg Hm. destruct (H1 _ _ _ _ Hg Hm). auto.
Qed.

Lemma handlers_move p : session_handler p → within sessions_move p.
Proof.
  intros [id p' []| | |p' Hp].
  - apply moves_connect.
  - apply moves_signing.
  - apply moves_disconnect.
  - apply moves_invalidate.
  - apply moves_cleanup.
  - unfold loadSigningSessionAccountId, checkSigningSession. apply within_bind.
    + apply within_bind; [apply moves_read|]. intros [r|]; [|done]. do 2 (apply moves_if; [done|]). apply within_bind; [apply moves_clock|].
      intros now. by apply moves_if.
    + intros [|[]]; try done. by destruct (account_of _ _ _).
  - apply moves_invalidate_all.
  - apply moves_start.
  - eapply within_weaken; [|exact Hp]. intros w w'. apply same_sessions.
Qed.

#[local] Instance sessions_move_preorder : PreOrder sessions_move.
Proof.
  split; [intros w; by apply same_sessions|]. intros w1 w2 w3 [A1 A2] [B1 B2]. split; [auto|]. intros id r3 H3.
  specialize (B2 _ _ H3). destruct (wl_sessions w2 !! id) as [r2|] eqn:E2.
  - specialize (A2 _ _ E2). destruct (wl_sessions w1 !! id) as [r1|]; [by etrans|by eapply wiped_moves].
  - destruct (wl_sessions w1 !! id) eqn:E1; [|done]. destruct (A1 id) as [? Hx]; [eauto|]. congruence.
Qed.

Lemma moves_rtc w w' : rtc sessions_move w w' → sessions_move w w'.
Proof. induction 1 as [|w w1 w' H1 _ IH]; [reflexivity|by etrans]. Qed.

(** C16. Closing a session is final. Users connect and disconnect, admins invalidate,
    the timer and start-up close sessions and jobs run, in any number, interleaved
    at every statement, with failing statements: a session that is closed stays
    closed, keeps its owner, and has no viewing key, so no account can be read from
    it; nor does any row vanish. *)
Theorem closing_is_final faults w ps w1 ps1 w2 ps2 :
  Forall session_handler ps → (∀ id r, wl_sessions w !! id = Some r → wiped r) →
  rtc (pool_step faults) (w, ps) (w1, ps1) → rtc (pool_step faults) (w1, ps1) (w2, ps2) →
  ∀ id r1, wl_sessions w1 !! id = Some r1 → active r1 = false →
    ∃ r2, wl_sessions w2 !! id = Some r2 ∧ active r2 = false ∧ se_sessionId r2 = se_sessionId r1 ∧ se_userId r2 = se_userId r1 ∧
      se_viewingKey r1 = None ∧ account_of decrypt deriveAccountId r2 = None.
Proof.
  intros Hps Hw Hr1 Hr2 id r1 Hi Hact.
  destruct (within_pool sessions_move faults w w1 ps ps1) as [Hm1 Hps1]; [by eapply Forall_impl; [|apply handlers_move]|done|].
  destruct (within_pool sessions_move faults w1 w2 ps1 ps2) as [Hm2 _]; [done|done|].
  apply moves_rtc in Hm1 as [_ T1], Hm2 as [P2 T2]. destruct (P2 id) as [r2 Hr]; [eauto|].
  assert (wiped r1) as Hw1.
  { specialize (T1 _ _ Hi). destruct (wl_sessions w !! id) as [r0|] eqn:E; [|done]. eapply wiped_moves; [exact T1|by eapply Hw]. }
  specialize (T2 _ _ Hr). rewrite Hi in T2. destruct T2 as [M1 M2 _ M4 M5 _]. exists r2.
  assert (active r2 = false) as Hact2 by (destruct (active r2); [|done]; destruct M4; [done|congruence]).
  split_and!; [done|done|done|done|by apply Hw1|]. unfold account_of. rewrite (Hw1 Hact) in M5. by destruct M5 as [-> | ->].
Qed.

(** SHA-256 of a viewing key tells keys apart; the cipher opens what it sealed
    under the same binding, and no empty text. *)
Hypothesis hash_inj : ∀ vk vk', hashViewingKey vk = hashViewingKey vk' → vk = vk'.
Hypothesis decrypt_encrypt : ∀ nonce text purpose subject, decrypt (encrypt nonce text purpose subject) purpose subject = Some text.
Hypothesis decrypt_empty : ∀ purpose subject, decrypt EmptyString purpose subject = None.

(** Session ids name one row; an active row has the viewing key its hash says, a
    closed one none; every wallet in the worker belongs to an active session. *)
Definition orderly (w : Wallets) : Prop := accounted decrypt hashViewingKey deriveAccountId w [].

Definition drawn (id : option string) : list duty := match id with Some s => [Reserved s] | None => [] end.

Lemma request_settled id p : request id p →
  keeps (accounted decrypt hashViewingKey deriveAccountId) false (λ _ l, owing (λ _, False) l) (drawn id) p.
Proof using hash_inj decrypt_encrypt decrypt_empty.
  intros []; cbn [drawn].
  - by eapply settled_connect.
  - by eapply settled_signing.
  - by eapply settled_disconnect.
  - by eapply settled_invalidate.
  - by eapply settled_cleanup.
  - by eapply settled_load.
Qed.

(** C17. The last session to close unloads the wallet. Requests to connect, to
    disconnect and to invalidate and runs of the cleanup timer, in any number and
    interleaved at every statement: when all have ended, every wallet the worker
    still holds belongs to an active session, if that was so at the start. *)
Theorem last_closing_unloads w ids ps w' ps' :
  Forall2 request ids ps → orderly w → NoDup (omap id ids) →
  (∀ s, Some s ∈ ids → ∀ i r, wl_sessions w !! i = Some r → se_sessionId r ≠ s) →
  rtc (pool_step false) (w, ps) (w', ps') → Forall finished ps' →
  ∀ a, a ∈ wl_worker w' → ∃ i r, wl_sessions w' !! i = Some r ∧ active r = true ∧ account_of decrypt deriveAccountId r = Some a.
Proof using hash_inj decrypt_encrypt decrypt_empty.
  intros Hreq [U F N R S L] Hids Hfresh Hr Hf a Ha.
  destruct (keeps_finished (accounted decrypt hashViewingKey deriveAccountId) false (accounted_perm _ _ _)
    (owing (λ _, False)) w w' ps ps' (drawn <$> ids)) as (owns & [_ _ _ _ _ L'] & HQ); [|split|done|done|].
  - clear -Hreq hash_inj decrypt_encrypt decrypt_empty. induction Hreq; constructor; [by apply request_settled|done].
  - done.
  - done.
  - assert (omap reserved (mjoin (drawn <$> ids)) = omap id ids) as ->; [|done]. clear. induction ids as [|[s|] ids IH]; [done| |exact IH].
    cbn. f_equal. exact IH.
  - intros s Hs. apply Hfresh. apply list_elem_of_join in Hs as (l & Hl & (o & -> & Ho)%list_elem_of_fmap).
    destruct o as [s'|]; [by apply list_elem_of_singleton in Hl as [= ->]|by apply not_elem_of_nil in Hl].
  - intros i r Hs. apply list_elem_of_join in Hs as (l & Hl & (o & -> & Ho)%list_elem_of_fmap).
    destruct o; [by apply list_elem_of_singleton in Hl|by apply not_elem_of_nil in Hl].
  - intros b Hb. destruct (L _ Hb) as [|Hn]; [by left|by apply not_elem_of_nil in Hn].
  - destruct (L' _ Ha) as [Hu|Hin]; [exact Hu|]. apply list_elem_of_join in Hin as (l & Hl & Ho).
    rewrite Forall_forall in HQ. by destruct (HQ _ Ho _ Hl).
Qed.
End System.

(** * Sessions at concrete schedules

    Two sessions of one wallet closed at the same time, and two runs after which a
    key or a wallet outlives its session. *)

Local Open Scope string_scope.
Local Open Scope list_scope.

#[local] Existing Instance key_order.

(** A cipher that marks what it seals. *)
Definition seal (nonce text purpose subject : string) : string := String "!" text.
Definition unseal (c purpose subject : string) : option string :=
  match c with String _ text => Some text | EmptyString => None end.

Lemma unseal_seal nonce text purpose subject : unseal (seal nonce text purpose subject) purpose subject = Some text.
Proof. done. Qed.

Definition hash_of (vk : string) : string := vk.
Definition derives_aa (seed : string) (account : Z) : option string := Some "aa".
Definition no_phrase (m : string) : option string := None.
Definition no_config : SponsorConfig := MkSponsorConfig [] None.
Definition no_admission (sessionId account : string) : M Shared (string * JobStatus) := λ s, (Throw (js_error "busy"), s).

(** A session of [user] that views the wallet "aa". *)
Definition viewing (sid user : string) : SessionRow :=
  MkSessionRow (Some user) None (Some "aa") (Some "!aa") None None sid 0 None (Some 1000%Z) (Some true).

Definition two_sessions : Wallets :=
  MkWallets (<["1" := viewing "s1" "ann"]> {["2" := viewing "s2" "ann"]}) {["aa"]} {["aa"]} {["aa"]} ∅ ∅ sponsor_shared.

Definition disconnect_of (sid : string) : handler := disconnectWallet unseal hash_of no_config (Some "ann") sid.

Definition both_disconnect : pool Wallets (AdminAnswer SessionAnswer) :=
  run_schedule 10 (concat (repeat [0; 1]%nat 20)) (two_sessions, [disconnect_of "s1"; disconnect_of "s2"]).

(** Neither handler finds the other's session active, and the wallet is unloaded. *)
Example both_disconnect_ends :
  snd both_disconnect = [Done (Ret (Answer Disconnected)); Done (Ret (Answer Disconnected))] ∧
  (elements (wl_worker both_disconnect.1), elements (wl_registry both_disconnect.1), elements (wl_locked both_disconnect.1)) = ([], [], []).
Proof. split; vm_compute; reflexivity. Qed.

Lemma two_sessions_lookup i r : wl_sessions two_sessions !! i = Some r → i = "1" ∧ r = viewing "s1" "ann" ∨ i = "2" ∧ r = viewing "s2" "ann".
Proof.
  cbn [two_sessions wl_sessions]. intros [[<- <-]|[_ [<- <-]%lookup_singleton_Some]]%lookup_insert_Some; [by left|by right].
Qed.

Lemma two_sessions_orderly : orderly unseal hash_of hash_of two_sessions.
Proof.
  split.
  - intros i j r r' [[-> ->]|[-> ->]]%two_sessions_lookup [[-> ->]|[-> ->]]%two_sessions_lookup; try done.
  - intros i r [[-> ->]|[-> ->]]%two_sessions_lookup; split; try done; by exists "aa".
  - constructor.
  - intros s Hs. by apply not_elem_of_nil in Hs.
  - intros i r Hs. by apply not_elem_of_nil in Hs.
  - intros a Ha. cbn [two_sessions wl_worker] in Ha. apply elem_of_singleton in Ha as ->. left. exists "1", (viewing "s1" "ann"). by split_and!.
Qed.

(** ** What outlives a session *)

Definition one_session (r : SessionRow) : Wallets := MkWallets {["1" := r]} ∅ ∅ ∅ ∅ ∅ sponsor_shared.

(** What is left: row by row whether it is active and has a seed; the loaded wallets. *)
Definition left_over (w : Wallets) : list (bool * bool) * list string :=
  ((λ x : string * SessionRow, (active x.2, truthy_str (se_seedKey x.2))) <$> map_to_list (wl_sessions w), elements (wl_worker w)).

Definition alice_viewing : SessionRow := viewing "session-1" "alice".
Definition alice_signing : SessionRow := set_seed "!seed" 0 alice_viewing.

Definition alice_leaves : handler := disconnectWallet unseal hash_of no_config (Some "alice") "session-1".

Definition alice_signs : handler :=
  connectWalletForSigning seal unseal hash_of derives_aa no_phrase no_config no_admission None (Some "alice") "session-1" None
    (Some (Nat.iter 128 (String "a") EmptyString)) None false "n".

Definition signing_outlived : pool Wallets (AdminAnswer SessionAnswer) :=
  run_schedule 10 ([0; 0]%nat ++ repeat 1%nat 20 ++ repeat 0%nat 5)
    (one_session alice_viewing, [alice_signs; alice_leaves]).

(** The session is closed after it was read and before the seed is written: the
    closed session keeps the seed, and no run of the timer wipes it. *)
Example seed_outlives_session :
  snd signing_outlived = [Done (Ret (Answer (SigningEnabled "session-1" None))); Done (Ret (Answer Disconnected))] ∧
  left_over signing_outlived.1 = ([(false, true)], []) ∧
  left_over (run_schedule 9999 (repeat 0%nat 30) (signing_outlived.1, [session_cleanup unseal hash_of no_config])).1 = ([(false, true)], []).
Proof. split; [|split]; vm_compute; reflexivity. Qed.

(** A prewarm of the wallet. *)
Definition prewarm : handler :=
  r ← executeWalletCommand unseal hash_of no_config no_faults "job-1" (λ op raw account sponsor announce, mret JNull) (λ account, mret tt)
        (λ err, false) (JObj [("op", JStr "prewarm")]) (sample_job "connectWalletForSigning" Running (Some "w1") None);
  answer (CommandDone r).

Definition wallet_outlived (leave : handler) : pool Wallets (AdminAnswer SessionAnswer) :=
  run_schedule 10 ([0; 0; 0]%nat ++ repeat 1%nat 20 ++ repeat 0%nat 20) (one_session alice_signing, [prewarm; leave]).

(** The command has read the session when a user, or an administrator, closes it:
    the wallet is loaded after it was unloaded, and stays. *)
Example wallet_outlives_session :
  (left_over (wallet_outlived alice_leaves).1, snd (wallet_outlived alice_leaves)) =
    ([(false, false)], ["aa"], [Done (Ret (Answer (CommandDone (JObj [("ready", JBool true)])))); Done (Ret (Answer Disconnected))]) ∧
  left_over (wallet_outlived (invalidateSession unseal hash_of "session-1")).1 = ([(false, false)], ["aa"]) ∧
  left_over (run_schedule 9999 (repeat 0%nat 30) ((wallet_outlived alice_leaves).1, [session_cleanup unseal hash_of no_config])).1 =
    ([(false, false)], ["aa"]).
Proof. split; [|split]; vm_compute; reflexivity. Qed.

(** ** Witnesses *)

Definition cleanup : handler := session_cleanup unseal hash_of no_config.

Definition all_closed : pool Wallets (AdminAnswer SessionAnswer) :=
  run_schedule 10 (concat (repeat [0; 1]%nat 20)) (two_sessions, [disconnect_of "s1"; disconnect_of "s2"; cleanup]).
Definition cleaned_up : pool Wallets (AdminAnswer SessionAnswer) := run_schedule 9999 (repeat 2%nat 30) all_closed.

Lemma closing_is_final_witness : ∃ r2,
  wl_sessions cleaned_up.1 !! "1" = Some r2 ∧ active r2 = false ∧ se_userId r2 = Some "ann" ∧ account_of unseal hash_of r2 = None.
Proof.
  destruct (closing_is_final seal unseal hash_of hash_of derives_aa no_phrase no_config None no_admission false two_sessions
    [disconnect_of "s1"; disconnect_of "s2"; cleanup] all_closed.1 all_closed.2 cleaned_up.1 cleaned_up.2) with (id := "1")
    (r1 := closed (Some 10%Z) (viewing "s1" "ann")) as (r2 & H1 & H2 & _ & H3 & _ & H4).
  - constructor; [eapply sh_request, req_disconnect|]. constructor; [eapply sh_request, req_disconnect|].
    constructor; [eapply sh_request, req_cleanup|constructor].
  - intros id r [[-> ->]|[-> ->]]%two_sessions_lookup; done.
  - rewrite <- surjective_pairing. apply run_schedule_steps.
  - rewrite <- !surjective_pairing. apply run_schedule_steps.
  - vm_compute. reflexivity.
  - reflexivity.
  - exact (ex_intro _ r2 (conj H1 (conj H2 (conj H3 H4)))).
Defined.

Lemma last_closing_unloads_witness : Forall (λ p, finished p) both_disconnect.2 ∧
  (∀ a, a ∈ wl_worker both_disconnect.1 → ∃ i r, wl_sessions both_disconnect.1 !! i = Some r ∧ active r = true ∧
    account_of unseal hash_of r = Some a).
Proof.
  assert (Forall (λ p, finished p) both_disconnect.2) as Hf by (vm_compute; repeat constructor). split; [exact Hf|].
  apply (last_closing_unloads seal unseal hash_of hash_of derives_aa no_phrase no_config None no_admission (λ _ _ E, E) unseal_seal (λ _ _, eq_refl)
    two_sessions [None; None] [disconnect_of "s1"; disconnect_of "s2"] both_disconnect.1 both_disconnect.2).
  - constructor; [apply req_disconnect|]. constructor; [apply req_disconnect|constructor].
  - apply two_sessions_orderly.
  - constructor.
  - intros s Hs. by repeat (apply elem_of_cons in Hs as [Hs|Hs]; [done|]); apply not_elem_of_nil in Hs.
  - rewrite <- surjective_pairing. apply run_schedule_steps.
  - exact Hf.
Defined.
