(* ===== verification/Submitter.v ===== *)
(** Contract deploys and calls (srv/submission/TransactionSubmitter.ts), and how the
    scheduler books a job that failed (the catch of dispatchJob in
    srv/submission/job-scheduler.ts).

    The row of an attempt is written before the worker starts, and the transaction's
    id is stored on row and job before the worker may broadcast. Rejects that a
    fresh build can fix are rebuilt. The building of arguments for the worker and
    the private state store are left out. *)
From Stdlib Require Import Ascii.
From S2P Require Import Prelude Db Retry Json Numbers InstanceLease SubmitFailure WorkerProtocol Schema SponsorPolicy.
From S2P Require Import JobStore GrantScope GrantBudgets AgentAccess ChainOutcome Reconciliation JobKinds GrantAdmin SponsorJobs.

Set Warnings "-register-all".

Local Open Scope string_scope.

(** ** Classification of a failure *)

Record SubmissionErrorClassification := MkSubmissionClass {
  sc_code : string; sc_retryable : bool; sc_knownIssueRef : option string; sc_message : string;
  sc_dustRace : bool; sc_calls : option (list BatchCallStageInfo) }.

Definition class (code : string) (retryable : bool) (message : string) : SubmissionErrorClassification :=
  MkSubmissionClass code retryable None message false None.

Definition KNOWN_ISSUE_1016_MAINNET : string :=
  "https://forum.midnight.network/t/1190 (mainnet 1016 Immediately Dropped: deterministic rejection, early May 2026)".

Definition ZSWAP_INVALID_CODE : string := "1010/103".
Definition zswapInvalidMessage (message : string) : string :=
  "Shielded offer refused (Substrate 1010, ledger error 103: a coin the transaction spends is already spent, or its proof refers to a coin tree state the node no longer accepts); nothing entered the pool and no fee was spent; a swap offer ends here once another fill of it landed, or when a half is too old: build a new half against the current state: " ++ message.

Definition STALE_TRANSCRIPT_CODE : string := "1010/104".
Definition staleTranscriptMessage (message : string) : string :=
  "Transaction refused against the current contract state (Substrate 1010, ledger error 104: the call's transcript no longer fits, typically its gas budget after another transaction on the same contract grew a map); nothing entered the pool and no fee was spent; build the call again against the current state and submit the new bytes: " ++ message.

Definition priorityReject (message : string) : SubmissionErrorClassification :=
  class "1014" false ("Pool priority reject (Substrate 1014, priority too low): " ++ message).

Definition poolDropped (network message : string) : SubmissionErrorClassification :=
  if bool_decide (network = "mainnet")
  then MkSubmissionClass "1016" false (Some KNOWN_ISSUE_1016_MAINNET)
         ("Mainnet deterministic rejection (1016 Immediately Dropped). Known issue; see " ++ KNOWN_ISSUE_1016_MAINNET) false None
  else class "1016" true ("Transaction pool full or immediately dropped: " ++ message).

Definition invalidTransaction (code : string) (ledgerError : option string) (message : string) : SubmissionErrorClassification :=
  class code false ("Invalid transaction (Substrate 1010" ++
    match ledgerError with Some c => if is_empty c then EmptyString else ", ledger error " ++ c | None => EmptyString end ++ "): " ++ message).

Definition dustRace (code message : string) : SubmissionErrorClassification :=
  MkSubmissionClass code true None ("Transient dust race (Substrate 1010, ledger error " ++ drop_chars 5 code ++
    "): the dust spend was built against a dust state the node has already moved past; nothing entered the pool and no fee was spent, rebuild and resubmit: " ++
    message) true None.

(** What the worker's own classification becomes. *)
Definition classificationFromSubmitFailure (info : SubmitFailureInfo) (message network : string) : SubmissionErrorClassification :=
  match fi_code info with
  | DustRace =>
      if bool_decide (fi_ledgerCode info = Some "pool-invalid")
      then MkSubmissionClass "PoolInvalid" true None ("Pool status Invalid (a competing transaction consumed a note first, or the transaction is invalid); rebuild and resubmit: " ++ message) true None
      else dustRace (nullish (fi_ledgerCode info) "1010") message
  | PreMempoolReject =>
      let ledger := nullish (fi_ledgerCode info) "1010" in
      if bool_decide (ledger = "intent-rejected") then class "SubmitIntentRejected" false message
      else if bool_decide (ledger = "intent-timeout")
      then class "SubmitIntentTimeout" false ("The announced transaction was not recorded in time; nothing was broadcast, a new idempotencyKey may retry: " ++ message)
      else if bool_decide (ledger = "1014") then priorityReject message
      else if bool_decide (ledger = "1016") then poolDropped network message
      else if bool_decide (ledger = STALE_TRANSCRIPT_CODE) then class ledger false (staleTranscriptMessage message)
      else if bool_decide (ledger = ZSWAP_INVALID_CODE) then class ledger false (zswapInvalidMessage message)
      else invalidTransaction ledger (if starts_with "1010/" ledger then Some (drop_chars 5 ledger) else None) message
  | Transport => class "NetworkOrTimeout" true message
  | Ambiguous => class "SubmitAmbiguous" false message
  | LandedNotApplied => class "TxFailed" false message
  | Policy => class "SponsorPolicyRefused" false message
  | Causality =>
      MkSubmissionClass "BatchCausalityViolation" false None message false
        (match fi_calls info with Some (c :: cs) => Some (c :: cs) | _ => None end)
  | GasBudget => class "BatchGasBudgetExceeded" false message
  | Internal => class "UnknownError" false message
  end.

Definition JOB_CODES_FROM_ERRORS : list string := ["AGENT_GRANT_REVOKED"; "SPONSOR_POLICY_UNAVAILABLE"; "SPONSOR_POLICY_EMPTY"].

Definition NETWORK_RE : list string :=
  ["ECONNREFUSED"; "ECONNRESET"; "ENOTFOUND"; "ETIMEDOUT"; "socket hang up"; "timeout"; "disconnected from"; "Normal Closure";
   "Abnormal Closure"; "WebSocket is not connected"].

(** [/Immediately\s*Dropped/i.test(s)] *)
Definition immediately_dropped (s : string) : bool :=
  bool_decide (is_Some (scan_match (λ _ t,
    r ← after_ci "immediately" t; if starts_with "dropped" (lower (trim_start r)) then Some tt else None) None s)).

Section Classify.
(** The errors, what node renders of each, and the classification one carries when
    it went through here before. *)
Context (errs : nat → ErrObj) (inspect : nat → string) (prior : nat → option SubmissionErrorClassification) (network : string).

(** The last tests of [classifySubmissionError]. *)
Definition classify_name (err : nat) (name message haystack : string) : SubmissionErrorClassification :=
  if any_ci NETWORK_RE haystack then class "NetworkOrTimeout" true message
  else if existsb (λ p, includes p name) ["ContractTypeError"; "IncompleteCallTxPrivateStateConfig"; "IncompleteFindContractPrivateStateConfig"]
  then class name false message
  else if bool_decide (name = "WalletSigningNotAvailable") || includes "WalletSigningNotAvailable" message
  then class "WalletSigningNotAvailable" false (message ++ " (session needs encryptedSeedKey to sign/balance transactions)")
  else match (a ← findNightgateError errs err; c ← eo_code (errs a); if mem c JOB_CODES_FROM_ERRORS then Some (c, eo_retryable (errs a)) else None) with
       | Some (c, r) => class c r message
       | None => class (if is_empty name then "UnknownError" else name) false message
       end.

Definition classifySubmissionError (err : nat) : SubmissionErrorClassification :=
  match prior err with Some c => c | None =>
  let o := errs err in
  let message := errorMessage o in
  let name := if eo_error o then nullish (eo_name o) "Error" else "Error" in
  match carriedSubmitFailure errs err with Some info => classificationFromSubmitFailure info message network | None =>
  if bool_decide (name = "TxFailedError") || includes "TxFailedError" message then class "TxFailed" false message
  else if includes "violates the ledger's causality constraint" message then class "BatchCausalityViolation" false message
  else if includes "runs out of gas on the ledger" message then class "BatchGasBudgetExceeded" false message
  else
    let haystack := message ++ " " ++ classificationHaystack inspect err in
    if includes_ci "priority is too low" haystack then priorityReject message
    else if coded "1010" haystack || includes_ci "invalid transaction" haystack then
      match dustRaceLedgerCode errs inspect err with
      | Some raced => dustRace raced message
      | None =>
          match ledgerErrorCode haystack with
          | Some "104" => class STALE_TRANSCRIPT_CODE false (staleTranscriptMessage message)
          | Some "103" => class ZSWAP_INVALID_CODE false (zswapInvalidMessage message)
          | Some custom => invalidTransaction ("1010/" ++ custom) (Some custom) message
          | None => invalidTransaction "1010" None message
          end
      end
    else if coded "1014" haystack then class "1014" false ("Pool reject (Substrate 1014): " ++ message)
    else if coded "1016" haystack || immediately_dropped haystack then poolDropped network message
    else classify_name err name message haystack
  end end.
End Classify.

(** ** The rows of the attempts *)

(** The columns an attempt row starts with. *)
Record SubmissionShape := MkShape { sh_contractAddress : option string; sh_circuitName : option string }.

(** The variables of [boundAttemptLedger]. [su_acked]: the attempts whose
    announcement was acknowledged, with their row and transaction, so that the
    worker may have sent them; the code does not keep it. *)
Record SubmitterState := MkSubmitter {
  su_shared : Shared; su_rowId : option string; su_txHash : option string; su_acked : list (nat * string * string) }.

Definition with_su_shared (x : Shared) (s : SubmitterState) : SubmitterState := MkSubmitter x (su_rowId s) (su_txHash s) (su_acked s).

Definition pending_row (now : Z) (shape : SubmissionShape) (txHash : option string) (data : option json_text) : Submission :=
  MkSubmission SubPending txHash (sh_contractAddress shape) (sh_circuitName shape) now None None None None None data None None.

Definition bound_coordinates (shape : SubmissionShape) (it : SubmitIntent) : json :=
  JObj ([("channel", JStr "bound"); ("circuits", JArr (JStr <$> nullish (in_circuits it) []));
         ("contractAddress", json_of_string (match in_contractAddress it with Some a => Some a | None => sh_contractAddress shape end))] ++
        field_if "note" (nonempty_text (in_note it)) ++ field_if "ttl" (nonempty_text (in_ttl it)) ++
        field_if "segments" (nonempty_array (in_segments it)))%list.

(** What a send of the worker answers. *)
Record SubmitResult := MkResult {
  sr_txHash : string; sr_onChainStatus : string; sr_contractAddress : option string; sr_blockHeight : option Z }.

Section Submitter.
Context (errs : nat → ErrObj) (inspect : nat → string) (prior : nat → option SubmissionErrorClassification) (network : string).
Context (e : Env) (jobId : string) (shape : SubmissionShape).

(** The transaction of [onSubmitIntent], as retry [i] runs it. *)
Definition bound_intent_tx (i : nat) (reuse : bool) (targetRow : string) (it : SubmitIntent) : M Shared unit :=
  in_one_transaction
    (let data := Some (Text (bound_coordinates shape it)) in
     _ ← on_database (stmt e "boundAttempt" i 0
           (if reuse then _ ← update_submission targetRow (λ _, true) [SSetTxHash (Some (in_txHash it)); SSetSubmitIntentData data]; mret tt
            else insert_submission targetRow (pending_row (clock e i) shape (Some (in_txHash it)) data)));
     reportBroadcastOn e jobId (MkHandle (Some targetRow) (Some (in_txHash it)) (Some false))).

(** [uuid] is drawn when no row waits. *)
Definition bound_onSubmitIntent (n : nat) (uuid : string) (it : SubmitIntent) : M SubmitterState unit := λ s,
  let targetRow := nullish (su_rowId s) uuid in
  let reuse := bool_decide (is_Some (su_rowId s)) in
  match withLockContentionRetry (λ i, bound_intent_tx i reuse targetRow it) (su_shared s) with
  | (Throw x, x') => (Throw x, with_su_shared x' s)
  | (Ret _, x') =>
      (Ret tt, MkSubmitter x' (Some targetRow) (Some (in_txHash it)) (su_acked s ++ [(n, targetRow, in_txHash it)])%list)
  end.

Definition attempt_bookkeeping_pending (closing why : string) (x : exn) : exn :=
  Exn "SponsorAttemptBookkeepingPendingError" REJECTED_ATTEMPT_BOOKKEEPING_PENDING
    ("broadcast attempt " ++ closing ++ " was rejected before inclusion but its bookkeeping (row, hash) could not be committed: " ++
     ex_msg x ++ ". Settled by the reconciler. Original failure: " ++ slice0 200 why).

Definition reject_tx (i : nat) (closing hash why : string) : M Shared unit :=
  in_one_transaction
    (_ ← on_database (stmt e "rejectAttempt" i 0 (update_submission closing (λ _, true)
           [SSetStatus SubFailed; SSetErrorCode (Some "REJECTED"); SSetErrorMessage (Some (slice0 500 why))]));
     reportSubmissionRejectedOn e jobId (MkHandle (Some closing) (Some hash) None)).

Definition rejectAnnouncedAttempt (why : string) : M SubmitterState unit := λ s,
  match su_txHash s, su_rowId s with
  | Some hash, Some closing =>
      if is_empty hash || is_empty closing then (Ret tt, s)
      else
        match withLockContentionRetry (λ i, reject_tx i closing hash why) (su_shared s) with
        | (Throw x, x') => (Throw (attempt_bookkeeping_pending closing why x), with_su_shared x' s)
        | (Ret _, x') => (Ret tt, MkSubmitter x' None None (su_acked s))
        end
  | _, _ => (Ret tt, s)
  end.

(** A statement whose failure is logged. *)
Definition best_effort (m : M Database unit) : M SubmitterState unit := λ s,
  let '(_, x') := on_database m (su_shared s) in (Ret tt, with_su_shared x' s).

Definition noteAmbiguousFailure (submissionId : string) (c : SubmissionErrorClassification) : M SubmitterState unit :=
  best_effort (stmt e "noteAmbiguousFailure" 0 0 (_ ← update_submission submissionId (λ r, bool_decide (s_status r = SubPending))
    [SSetErrorCode (Some (sc_code c)); SSetErrorMessage (Some (slice0 500 ("outcome unknown after broadcast: " ++ sc_message c)))]; mret tt)).

Definition markSubmissionFailed (submissionId : string) (c : SubmissionErrorClassification) : M SubmitterState unit :=
  best_effort (stmt e "markSubmissionFailed" 0 0 (_ ← update_submission submissionId (λ _, true)
    [SSetStatus SubFailed; SSetErrorCode (Some (sc_code c)); SSetErrorMessage (Some (slice0 500 (sc_message c)))]; mret tt)).

(** [classifySubmissionError] and [isPreInclusionReject] of what was thrown. *)
Definition class_of (t : Thrown) : SubmissionErrorClassification :=
  match t with
  | Foreign a => classifySubmissionError errs inspect prior network a
  | Own x => classifySubmissionError (λ _, own_object x) (λ _, ex_msg x) (λ _, None) network 0
  end.

Definition pre_inclusion (t : Thrown) : bool :=
  match t with
  | Foreign a => isPreInclusionReject errs inspect a
  | Own x => isPreInclusionReject (λ _, own_object x) (λ _, ex_msg x) 0
  end.

(** Answers the row the error names. *)
Definition settleFailedAttempt (fallbackRowId : string) (t : Thrown) (c : SubmissionErrorClassification) : M SubmitterState string := λ s,
  let named := nullish (su_rowId s) fallbackRowId in
  let announced := match su_txHash s, su_rowId s with Some h, Some r => negb (is_empty h) && negb (is_empty r) | _, _ => false end in
  (_ ← (if announced && pre_inclusion t then rejectAnnouncedAttempt (sc_message c)
        else if announced then noteAmbiguousFailure named c
        else markSubmissionFailed named c);
   mret named) s.

(** ** Sending *)

(** How attempt [n] goes: the worker announces a transaction or not, and answers;
    [sw_nacked] is its error when the announcement was refused; [sw_others n k] what
    others do to the shared state before step [k]. [sw_proxy]: the private state
    cannot be offered to the worker. *)
Record SubmitWorld := MkSubmitWorld {
  sw_proxy : option exn; sw_intent : nat → option SubmitIntent; sw_nacked : nat → nat; sw_result : nat → nat + SubmitResult;
  sw_ids : nat → string; sw_others : nat → nat → Shared → Shared }.

Context (w : SubmitWorld).

Definition su_others (n k : nat) (s : SubmitterState) : SubmitterState := with_su_shared (sw_others w n k (su_shared s)) s.

Definition send_attempt (n : nat) (s : SubmitterState) : (nat + SubmitResult) * SubmitterState :=
  let s := su_others n 0 s in
  let '(refused, s) :=
    match sw_intent w n with
    | None => (false, s)
    | Some msg =>
        match bound_onSubmitIntent n (sw_ids w n) (received_intent msg) s with
        | (Ret _, s') => (false, s')
        | (Throw _, s') => (true, s')
        end
    end in
  let s := su_others n 1 s in
  if (refused : bool) then (inl (sw_nacked w n), s) else (sw_result w n, s).

Context (dustRetries staleRetries : nat).

(** Why attempt [err] is built again, and the rebuilds of each kind then. *)
Definition rebuild_reason (dustRebuilds staleRebuilds err : nat) : option (string * nat * nat) :=
  let info := classifySubmitFailure errs inspect err in
  let dustCode := if bool_decide (fi_code info = DustRace)
                  then c ← fi_ledgerCode info; if starts_with "1010/" c then Some c else None else None in
  let stale := bool_decide (fi_code info = PreMempoolReject) && bool_decide (fi_ledgerCode info = Some STALE_TRANSCRIPT_CODE) in
  match dustCode with
  | Some c =>
      if (dustRebuilds <? dustRetries)%nat then Some ("transient dust race (" ++ c ++ ")", S dustRebuilds, staleRebuilds)
      else None
  | None =>
      if stale && (staleRebuilds <? staleRetries)%nat
      then Some ("transcript refused against the current contract state (" ++ STALE_TRANSCRIPT_CODE ++ ")", dustRebuilds, S staleRebuilds)
      else None
  end.

Inductive SendEnd := Sent (r : SubmitResult) | SendFailed (t : Thrown) | OutOfAttempts.

(** [withRebuildRetry], attempt [n]; the second component counts the attempts. *)
Fixpoint withRebuildRetry (fuel n dustRebuilds staleRebuilds : nat) (s : SubmitterState) : SendEnd * nat * SubmitterState :=
  match fuel with
  | O => (OutOfAttempts, n, s)
  | S fuel' =>
      let '(r, s) := send_attempt n s in
      match r with
      | inr out => (Sent out, S n, s)
      | inl err =>
          match rebuild_reason dustRebuilds staleRebuilds err with
          | None => (SendFailed (Foreign err), S n, s)
          | Some (reason, d, st) =>
              match rejectAnnouncedAttempt (reason ++ "; rebuilt") s with
              | (Throw x, s) => (SendFailed (Own x), S n, s)
              | (Ret _, s) => withRebuildRetry fuel' (S n) d st s
              end
          end
      end
  end.

(** ** One submission *)

(** A SubmissionError with the row it names, or another error. *)
Inductive SubmitEnd :=
| SubmissionOk (rowId : string) (r : SubmitResult)
| SubmissionError (rowId : string) (c : SubmissionErrorClassification)
| Raised (t : Thrown)
| NoEnd.

Definition insertPending (submissionId : string) : M SubmitterState unit := λ s,
  let '(o, x') := on_database (stmt e "insertPending" 0 0 (insert_submission submissionId (pending_row (clock e 0) shape None None))) (su_shared s) in
  (o, with_su_shared x' s).

Definition is_bookkeeping_pending (t : Thrown) : bool :=
  match t with Own x => bool_decide (ex_name x = "SponsorAttemptBookkeepingPendingError") | Foreign _ => false end.

(** The catch of [runSubmit]. *)
Definition submit_failed (submissionId : string) (t : Thrown) (s : SubmitterState) : SubmitEnd * SubmitterState :=
  if is_bookkeeping_pending t then (Raised t, s)
  else
    let c := class_of t in
    match settleFailedAttempt submissionId t c s with
    | (Ret named, s) => (SubmissionError named c, s)
    | (Throw x, s) => (Raised (Own x), s)
    end.

(** What [markJobSubmitted] and the update of the row do after a result. *)
Definition report_submitted (rowId txHash : string) : M SubmitterState unit := λ s,
  let '(o, x') := on_database (markJobSubmitted e jobId (MkHandle (Some rowId) (Some txHash) None)) (su_shared s) in (o, with_su_shared x' s).

Definition updateAfterSdk (rowId : string) (patch : list sub_set) : M SubmitterState unit := λ s,
  let '(o, x') := on_database (stmt e "updateAfterSdk" 0 0 (_ ← update_submission rowId (λ _, true) patch; mret tt)) (su_shared s) in
  (o, with_su_shared x' s).

Definition after_sdk_patch (r : SubmitResult) (contractAddress : string) : list sub_set :=
  if bool_decide (sr_onChainStatus r = "SucceedEntirely")
  then [SSetTxHash (Some (sr_txHash r)); SSetContractAddress (Some contractAddress); SSetStatus SubIncluded]
  else [SSetTxHash (Some (sr_txHash r)); SSetContractAddress (Some contractAddress); SSetStatus SubFailed;
        SSetErrorCode (Some ("OnChainStatus:" ++ sr_onChainStatus r));
        SSetErrorMessage (Some ("On-chain status was " ++ sr_onChainStatus r ++ ", expected SucceedEntirely"))].

(** [worker], [what]: how messages call the worker's method and the operation;
    [deploys]: the address of the contract comes with the result. *)
Context (deploys : bool) (worker what : string).

Definition contractAddressOf (r : SubmitResult) : option string := if deploys then sr_contractAddress r else sh_contractAddress shape.

Definition submit_result (rowId : string) (r : SubmitResult) (s : SubmitterState) : SubmitEnd * SubmitterState :=
  match (if is_empty (sr_txHash r) then None else present (contractAddressOf r)) with
  | None =>
      let c := class "MalformedResult" false ("Worker " ++ worker ++ " returned without txHash" ++ if deploys then "/contractAddress" else EmptyString) in
      let '(_, s) := markSubmissionFailed rowId c s in (SubmissionError rowId c, s)
  | Some contractAddress =>
      match (_ ← report_submitted rowId (sr_txHash r); updateAfterSdk rowId (after_sdk_patch r contractAddress)) s with
      | (Throw x, s) => (Raised (Own x), s)
      | (Ret _, s) =>
          if bool_decide (sr_onChainStatus r = "SucceedEntirely") then (SubmissionOk rowId r, s)
          else (SubmissionError rowId (class ("OnChainStatus:" ++ sr_onChainStatus r) false (what ++ " on-chain status " ++ sr_onChainStatus r)), s)
      end
  end.

Definition external_execution (submissionId : string) : M SubmitterState unit := λ s,
  let '(o, x') := on_database (markJobExternalExecution e jobId (MkHandle (Some submissionId) None None)) (su_shared s) in (o, with_su_shared x' s).

(** [runSubmit]; [submissionId] is the fresh id of the first row. *)
Definition runSubmit (submissionId : string) (x : Shared) : SubmitEnd * nat * SubmitterState :=
  let s := MkSubmitter x None None [] in
  match insertPending submissionId s with
  | (Throw y, s) => (Raised (Own y), 0%nat, s)
  | (Ret _, s) =>
      let s := MkSubmitter (su_shared s) (Some submissionId) None [] in
      match (match sw_proxy w with Some y => (Throw y, s) | None => external_execution submissionId s end) with
      | (Throw y, s) => let '(r, s) := submit_failed submissionId (Own y) s in (r, 0%nat, s)
      | (Ret _, s) =>
          match withRebuildRetry (S (dustRetries + staleRetries)) 0 0 0 s with
          | (OutOfAttempts, n, s) => (NoEnd, n, s)
          | (SendFailed t, n, s) => let '(r, s) := submit_failed submissionId t s in (r, n, s)
          | (Sent out, n, s) => let '(r, s) := submit_result (nullish (su_rowId s) submissionId) out s in (r, n, s)
          end
      end
  end.
End Submitter.

(** ** How the scheduler books the end of a job *)

(** What it looks at of the error: that a step of the workflow waits for
    reconciliation, that the books of a rejected attempt are open, that the worker
    saw the call not apply (and at which block), and its classification. *)
Record JobFailure := MkJobFailure {
  jf_childPending : option string; jf_bookkeeping : option string; jf_notApplied : option (option Z);
  jf_class : SubmissionErrorClassification }.

Definition booked (c : SubmissionErrorClassification) : Classification := MkClassification (sc_code c) (sc_message c).

Definition unconfirmed_broadcast (hash message : string) : Classification :=
  MkClassification BROADCAST_UNCONFIRMED
    ("Broadcast of " ++ hash ++ " is unconfirmed: " ++ message ++
     ". The job ends succeeded or failed once the indexer shows the transaction, or failed/" ++ BROADCAST_NOT_INCLUDED ++
     " once the indexer tip is past its validity window; a new attempt needs a new idempotencyKey either way.").

Definition failed_after_broadcast (hash message : string) : Classification :=
  MkClassification "EXTERNAL_EXECUTION_FAILED"
    ("Execution failed after broadcasting " ++ hash ++ "; verify chain state before retrying. " ++ message).

Definition superseded (current : option Job) : bool :=
  match current with
  | Some r => bool_decide (j_status r = Schema.Failed) && bool_decide (j_errorCode r = Some "SUPERSEDED")
  | None => false
  end.

Section Dispatch.
Context `{ScanOrder}.
Context (finalizer_run : string * Job → ReconciliationEvidence → M Database (option json)) (confirmer : string → outcome ChainLookup).
Context (e : Env) (reg : Registry) (jobId : string).

(** The catch of [dispatchJob]. *)
Definition dispatch_failed (f : JobFailure) : M Database unit :=
  match jf_childPending f with
  | Some message => markReconciliationRequired e jobId (MkClassification "CHILD_RECONCILIATION_REQUIRED" message)
  | None =>
      current ← getJobById e jobId;
      let message := sc_message (jf_class f) in
      if superseded current then mret tt
      else
        match (r ← current; h ← present (j_txHash r); Some (r, h)) with
        | None => markFailed e jobId (booked (jf_class f))
        | Some (r, h) =>
            match (if identifierKeyed (jobKindTraits reg (kind (j_spec r))) then jf_notApplied f else None), jf_bookkeeping f with
            | Some carried, _ => markChainFailureAfterBroadcast finalizer_run confirmer e (jobId, r) carried
            | None, Some message => markReconciliationRequired e jobId (MkClassification REJECTED_ATTEMPT_BOOKKEEPING_PENDING message)
            | None, None =>
                if bool_decide (sc_code (jf_class f) = "SubmitAmbiguous")
                then markReconciliationRequired e jobId (unconfirmed_broadcast h message)
                else markReconciliationRequired e jobId (failed_after_broadcast h message)
            end
        end
  end.

Definition result_persist_failed : Classification :=
  MkClassification "RESULT_PERSIST_FAILED"
    "The job work completed but its result could not be persisted (database lock contention or a lost worker lease). On-chain effects may exist; verify chain state before retrying.".

Definition dispatch_succeeded (result : json) : M Database unit :=
  try_catch (markSucceeded e jobId result)
    (λ _, current ← getJobById e jobId;
          if superseded current then mret tt else markFailed e jobId result_persist_failed).
End Dispatch.

(** ** A contract job *)

(** The failure a job sees of a submission; [notApplied]: what the worker saw of a
    SubmissionError. *)
Definition failure_of (errs : nat → ErrObj) (class_of : Thrown → SubmissionErrorClassification) (notApplied : option (option Z))
    (end_ : SubmitEnd) : option JobFailure :=
  match end_ with
  | SubmissionOk _ _ => None
  | SubmissionError _ c => Some (MkJobFailure None None notApplied c)
  | Raised t => Some (MkJobFailure None (if is_bookkeeping_pending t then Some (message_of errs t) else None) None (class_of t))
  | NoEnd => Some (MkJobFailure None None None (class "UnknownError" false EmptyString))
  end.

Section ContractJob.
Context `{ScanOrder}.
Context (finalizer_run : string * Job → ReconciliationEvidence → M Database (option json)) (confirmer : string → outcome ChainLookup).
Context (errs : nat → ErrObj) (inspect : nat → string) (prior : nat → option SubmissionErrorClassification) (network : string).
Context (e : Env) (reg : Registry) (jobId : string) (shape : SubmissionShape) (w : SubmitWorld) (dustRetries staleRetries : nat).
Context (deploys : bool) (worker what : string).

(** The submission, what others do then, and the booking of its end. *)
Definition run_contract_job (submissionId : string) (result : json) (notApplied : option (option Z)) (x : Shared) :
    SubmitterState * Database :=
  let '(end_, n, s) := runSubmit errs inspect prior network e jobId shape w dustRetries staleRetries deploys worker what submissionId x in
  let s := su_others w n 2 s in
  (s, match failure_of errs (class_of errs inspect prior network) notApplied end_ with
      | None => (dispatch_succeeded e jobId result (sh_db (su_shared s))).2
      | Some f => (dispatch_failed finalizer_run confirmer e reg jobId f (sh_db (su_shared s))).2
      end).
End ContractJob.
