(* ===== verification/SubmitterFacts.v ===== *)
(** What a contract job may have sent: a rejected attempt is off the job before the
    next one is announced, and a job that ends failed announced only what was
    answered by errors that read as refusals. *)
From Stdlib Require Import Ascii.
From S2P Require Import Prelude Db Retry Json Numbers InstanceLease SubmitFailure WorkerProtocol Schema SponsorPolicy.
From S2P Require Import JobStore GrantScope GrantBudgets AgentAccess ChainOutcome Reconciliation JobKinds GrantAdmin SponsorJobs SponsorSafety Submitter.

Set Warnings "-register-all".

Local Open Scope string_scope.

(** ** The end of a submission *)

Section Ends.
Context (errs : nat → ErrObj) (inspect : nat → string) (prior : nat → option SubmissionErrorClassification) (network : string).
Context (e : Env) (jobId : string) (shape : SubmissionShape) (w : SubmitWorld) (dustRetries staleRetries : nat).

Lemma reason_counts d st err reason d' st' : rebuild_reason errs inspect dustRetries staleRetries d st err = Some (reason, d', st') →
  (d' + st' = S (d + st) ∧ d' ≤ Nat.max d dustRetries ∧ st' ≤ Nat.max st staleRetries)%nat.
Proof.
  unfold rebuild_reason. destruct (if bool_decide _ then _ else _) as [c|].
  - destruct (Nat.ltb_spec d dustRetries); intros [= <- <- <-]; lia.
  - destruct (_ && _) eqn:E; [|done]. apply andb_true_iff in E as [_ E%Nat.ltb_lt]. intros [= <- <- <-]. lia.
Qed.

(** Only what was refused before inclusion is built again. *)
Lemma reason_pre_inclusion d st err r : rebuild_reason errs inspect dustRetries staleRetries d st err = Some r → isPreInclusionReject errs inspect err = true.
Proof.
  unfold rebuild_reason, isPreInclusionReject. destruct (fi_code _) eqn:Ec; try done.
  all: rewrite ?bool_decide_eq_true_2, ?bool_decide_eq_false_2 by done; simpl; destruct (_ && _); done.
Qed.

Lemma rebuilds_end fuel : ∀ n d st s r n' s',
  (d ≤ dustRetries)%nat → (st ≤ staleRetries)%nat → (dustRetries + staleRetries < fuel + d + st)%nat →
  withRebuildRetry errs inspect e jobId shape w dustRetries staleRetries fuel n d st s = (r, n', s') → r ≠ OutOfAttempts ∧ (n' ≤ n + fuel)%nat.
Proof.
  induction fuel as [|fuel IH]; intros n d st s r n' s' Hd Hst Hf H; [simpl in *; lia|]. cbn [withRebuildRetry] in H.
  destruct (send_attempt _ _ _ _ _ _) as [[err|out] s1]; [|simplify_eq; split; [done|lia]].
  destruct (rebuild_reason _ _ _ _ _ _ _) as [[[reason d'] st']|] eqn:Er; [|simplify_eq; split; [done|lia]].
  apply reason_counts in Er as (? & ? & ?). destruct (rejectAnnouncedAttempt _ _ _ _) as [[[]|x] s2]; [|simplify_eq; split; [done|lia]].
  apply IH in H as [? ?]; [split; [done|lia]|lia..].
Qed.
End Ends.

(** ** What happened to what was sent *)

Section Sent.
Context (errs : nat → ErrObj) (inspect : nat → string) (prior : nat → option SubmissionErrorClassification) (network : string).
Context (e : Env) (reg : Registry) (jobId : string) (shape : SubmissionShape) (w : SubmitWorld) (dustRetries staleRetries : nat).

Abbreviation mine := (owned_by (getRuntimeWorkerId e)).
Abbreviation job_of x := (jobs (sh_db x) !! jobId).

(** The job keeps its kind, and its hash while it is this worker's; it does not
    become this worker's. *)
Definition job_stays (x x' : Shared) : Prop :=
  ∀ r', job_of x' = Some r' → ∃ r, job_of x = Some r ∧ j_spec r' = j_spec r ∧ (mine r' = true → mine r = true ∧ j_txHash r' = j_txHash r).

(** What others may do meanwhile: neither delete or reopen attempt rows nor write
    the job of this worker's. *)
Definition tame (x x' : Shared) : Prop := rows_stay x x' ∧ job_stays x x'.

(** The attempt is over: its row is failed, and the worker ended it with an error
    that reads as a refusal before inclusion. *)
Definition rejected_attempt (x : Shared) (a : nat * string * string) : Prop :=
  (∃ r, rows x !! a.1.2 = Some r ∧ s_status r = SubFailed) ∧
  ∃ err, sw_result w a.1.1 = inl err ∧ isPreInclusionReject errs inspect err = true.

Definition not_keyed (x : Shared) : Prop := ∀ r, job_of x = Some r → identifierKeyed (jobKindTraits reg (kind (j_spec r))) = false.
Definition hash_is (h : string) (x : Shared) : Prop := h ≠ EmptyString ∧ ∀ r, job_of x = Some r → mine r = true → j_txHash r = Some h.

Definition nothing_open (s : SubmitterState) : Prop :=
  not_keyed (su_shared s) ∧ su_txHash s = None ∧ Forall (rejected_attempt (su_shared s)) (su_acked s) ∧
  ∀ id, su_rowId s = Some id → id ≠ EmptyString ∧ is_Some (rows (su_shared s) !! id).

Definition open_attempt (n : nat) (s : SubmitterState) : Prop :=
  not_keyed (su_shared s) ∧ ∃ earlier id h, su_txHash s = Some h ∧ su_rowId s = Some id ∧ id ≠ EmptyString ∧ hash_is h (su_shared s) ∧
    su_acked s = (earlier ++ [(n, id, h)])%list ∧ is_Some (rows (su_shared s) !! id) ∧ Forall (rejected_attempt (su_shared s)) earlier.

(** All attempts are over, or the job carries a hash. *)
Definition on_record (s : SubmitterState) : Prop :=
  not_keyed (su_shared s) ∧ (Forall (rejected_attempt (su_shared s)) (su_acked s) ∨ ∃ h, hash_is h (su_shared s)).

(** *** What tame steps keep *)

#[export] Instance tame_preorder : PreOrder tame.
Proof.
  split.
  - intros x. split; [by apply rows_stay_eq|]. intros r ?. by exists r.
  - intros x y z [R1 J1] [R2 J2]. split.
    + intros id r Hr. destruct (R1 _ _ Hr) as (r1 & Hr1 & ?). destruct (R2 _ _ Hr1) as (r2 & ? & ?). eauto.
    + intros r Hr. destruct (J2 _ Hr) as (r1 & Hr1 & ? & ?). destruct (J1 _ Hr1) as (r2 & ? & ? & ?). exists r2. naive_solver congruence.
Qed.

Lemma tame_same_job x x' : rows_stay x x' → jobs (sh_db x') = jobs (sh_db x) → tame x x'.
Proof. intros Hr Hj. split; [done|]. intros r. rewrite Hj. eauto. Qed.

Lemma not_keyed_tame x x' : tame x x' → not_keyed x → not_keyed x'.
Proof. intros [_ J] H r Hr. destruct (J _ Hr) as (r0 & Hr0 & -> & _). eauto. Qed.
Lemma hash_is_tame h x x' : tame x x' → hash_is h x → hash_is h x'.
Proof. intros [_ J] [Hh H]. split; [done|]. intros r Hr Hm. destruct (J _ Hr) as (r0 & Hr0 & _ & Hk). destruct (Hk Hm) as [? ->]. eauto. Qed.
Lemma rejected_stay x x' l : rows_stay x x' → Forall (rejected_attempt x) l → Forall (rejected_attempt x') l.
Proof. intros Hs Hl. eapply Forall_impl; [exact Hl|]. intros a [(r & Hr & Hf) Ha]. destruct (Hs _ _ Hr) as (r' & Hr' & Hf'). split; eauto. Qed.

(** A state reached by a tame step, with the same variables. *)
Definition tame_step (s s' : SubmitterState) : Prop :=
  tame (su_shared s) (su_shared s') ∧ su_rowId s' = su_rowId s ∧ su_txHash s' = su_txHash s ∧ su_acked s' = su_acked s.

Lemma nothing_open_tame s s' : tame_step s s' → nothing_open s → nothing_open s'.
Proof.
  intros (Ht & Er & Eh & Ea) (H1 & H2 & H3 & H4). unfold nothing_open. rewrite Er, Eh, Ea. split_and!; [by eapply not_keyed_tame|done|by eapply rejected_stay; [apply Ht|]|].
  intros id Hid. destruct (H4 _ Hid) as [? [r Hr]]. destruct (proj1 Ht _ _ Hr) as (? & ? & _). eauto.
Qed.

Lemma open_attempt_tame n s s' : tame_step s s' → open_attempt n s → open_attempt n s'.
Proof.
  intros (Ht & Er & Eh & Ea) (H1 & earlier & id & h & H2 & H3 & H4 & H5 & H6 & [r H7] & H8). split; [by eapply not_keyed_tame|].
  exists earlier, id, h. rewrite Er, Eh, Ea. split_and!; try done; [by eapply hash_is_tame| |by eapply rejected_stay; [apply Ht|]].
  destruct (proj1 Ht _ _ H7) as (? & ? & _). eauto.
Qed.

Lemma on_record_tame s s' : tame_step s s' → on_record s → on_record s'.
Proof.
  intros (Ht & _ & _ & Ea) [H1 H2]. split; [by eapply not_keyed_tame|]. rewrite Ea. destruct H2 as [H2|[h H2]]; [left|right; exists h].
  - by eapply rejected_stay; [apply Ht|].
  - by eapply hash_is_tame.
Qed.

Lemma nothing_open_end s : nothing_open s → on_record s.
Proof. intros (? & _ & ? & _). split; auto. Qed.
Lemma open_attempt_end n s : open_attempt n s → on_record s.
Proof. intros (? & earlier & id & h & _ & _ & _ & ? & _). split; eauto. Qed.

(** *** The statements *)

Lemma patch_tame {A} op i id c p (m : M Database A) x o x' : (∀ d, (m d).2 = (update_submission id c p d).2) →
  (∀ r, s_status r = SubFailed → s_status (patch_sub p r) = SubFailed) → on_database (stmt e op i 0 m) x = (o, x') → tame x x'.
Proof.
  intros Hm Hp H. unfold on_database, stmt in H. destruct (fault e _ _ _); [simplify_eq/=; by apply tame_same_job; [apply rows_stay_eq|]|].
  specialize (Hm (sh_db x)). destruct (m (sh_db x)) as [o1 d]. simplify_eq/=. unfold update_submission, sql_update_key.
  destruct (rows x !! id) as [r0|] eqn:E; [destruct (c r0)|]; simpl; apply tame_same_job; try done; intros id' r Hr; simpl; [|eauto..].
  destruct (decide (id' = id)) as [->|]; [rewrite lookup_insert_eq|rewrite lookup_insert_ne by done]; simplify_eq; eauto.
Qed.

(** An update whose count is not read. *)
Lemma update_unread id c p (d : Database) : ((_ ← update_submission id c p; mret tt) d : outcome unit * Database).2 = (update_submission id c p d).2.
Proof. m_unfold. by destruct (update_submission id c p d) as [[?|?] ?]. Qed.

Lemma insert_tame op i id r x (o : outcome unit) x' :
  on_database (stmt e op i 0 (insert_submission id r)) x = (o, x') → tame x x' ∧ (o = Ret tt → is_Some (rows x' !! id)).
Proof.
  intros H. assert (jobs (sh_db x') = jobs (sh_db x)) as Hj by (eapply (on_database_view jobs); [|done]; apply view_stmt; view_kept).
  unfold on_database, stmt, insert_submission in H. m_unfold. destruct (fault e _ _ _).
  { simplify_eq/=. split; [|done]. by apply tame_same_job; [apply rows_stay_eq|]. }
  destruct (rows x !! id) eqn:E; simplify_eq/=; (split; [apply tame_same_job; [|done]|]); [by apply rows_stay_eq|done|by eapply rows_stay_insert|].
  intros _. rewrite lookup_insert_eq. eauto.
Qed.

Lemma cas_tame {A} c p (m : M Database A) x o x' : cas1 jobId c p m →
  (∀ i r, j_spec (patch_job (p i) r) = j_spec r ∧ (mine (patch_job (p i) r) = true → mine r = true ∧ j_txHash (patch_job (p i) r) = j_txHash r)) →
  on_database m x = (o, x') → tame x x'.
Proof.
  intros Hm Hp H. unfold on_database in H. destruct (m (sh_db x)) as [o1 d] eqn:E. simplify_eq.
  apply Hm in E as [(i & r & Hr & _ & ->) | ->]; (split; [by apply rows_stay_eq|]); intros r' Hr'; simpl in Hr'; [|eauto].
  rewrite lookup_insert_eq in Hr'. simplify_eq. exists r. split; [done|]. apply Hp.
Qed.

(** A change of the job's hash. *)
Lemma cas_moves {A} c p h (m : M Database A) x o x' : cas1 jobId c p m →
  (∀ i r, j_spec (patch_job (p i) r) = j_spec r ∧ j_txHash (patch_job (p i) r) = h) → on_database m x = (o, x') →
  rows x' = rows x ∧ (not_keyed x → not_keyed x') ∧ (x' = x ∨ (∀ r, job_of x' = Some r → j_txHash r = h)).
Proof.
  intros Hm Hp H. unfold on_database in H. destruct (m (sh_db x)) as [o1 d] eqn:E. simplify_eq.
  apply Hm in E as [(i & r & Hr & _ & ->) | ->]; [|split; [done|split; [done|left; by destruct x]]]. destruct (Hp i r) as [Hs Hh].
  split; [done|]. split; [intros Hk r' Hr'|right; intros r' Hr']; simpl in Hr'; rewrite lookup_insert_eq in Hr'; simplify_eq; [|done]. rewrite Hs. eauto.
Qed.

Lemma tame_db x x' : sh_db x' = sh_db x → tame x x'.
Proof. intros E. apply tame_same_job; [apply rows_stay_eq|]; by rewrite E. Qed.

(** *** Announcing and rejecting *)

(** A refused announcement leaves the database as it was. *)
Lemma announce n uuid it s o s' : uuid ≠ EmptyString → in_txHash it ≠ EmptyString →
  nothing_open s → bound_onSubmitIntent e jobId shape n uuid it s = (o, s') → (o = Ret tt ∧ open_attempt n s') ∨ (∃ x, o = Throw x ∧ nothing_open s').
Proof.
  intros Hu Hh Hs H. pose proof Hs as (H1 & _ & H3 & H4). unfold bound_onSubmitIntent in H. set (id := nullish (su_rowId s) uuid) in *.
  destruct (withLockContentionRetry _ _) as [o1 x'] eqn:E. unfold bound_intent_tx in E.
  apply retried_tx in E as [(i & [] & x1 & -> & Hx & E)|(y & -> & Hx)]; simplify_eq.
  2:{ right. exists y. split; [done|]. eapply nothing_open_tame; [|done]. split_and!; [by apply tame_db|done..]. }
  left. split; [done|]. apply bind_ret_inv in E as ([] & x2 & E1 & E). apply bind_ret_inv in E as ([] & x3 & E2 & E). apply lease_check_rows in E2.
  assert (tame (su_shared s) x2 ∧ is_Some (rows x2 !! id) ∧ id ≠ EmptyString) as ([R2 J2] & Hid & Hne).
  { subst id. destruct (su_rowId s) as [id|]; simpl in E1 |- *.
    - eapply patch_tame in E1; [|apply update_unread|done]. assert (tame (su_shared s) x2) as Ht by (etrans; [by apply tame_db|done]).
      destruct (H4 id eq_refl) as [? [r Hr]]. destruct (proj1 Ht _ _ Hr) as (? & ? & _). eauto.
    - apply insert_tame in E1 as [Ht Hr]. split_and!; [etrans; [by apply tame_db|done]|by apply Hr|done]. }
  assert (rows x' = rows x3 ∧ (not_keyed x3 → not_keyed x') ∧ ∀ r, job_of x' = Some r → j_txHash r = Some (in_txHash it)) as (Er & Hk & Hj).
  { unfold on_database in E. destruct (markJobBroadcastOn _ _ _ _) as [o3 d] eqn:Em. simplify_eq/=.
    apply (proj2 (markJobBroadcastOn_cas e jobId _)) in Em as (_ & r & Hr & _ & ->). simpl. rewrite lookup_insert_eq.
    split_and!; [done| |]; [intros Hk r'|intros r']; simpl; rewrite ?lookup_insert_eq; intros; simplify_eq; [|done]. by apply Hk in Hr. }
  assert (tame (su_shared s) x3) as Ht by (split; [intros k r; rewrite E2; apply R2|intros r; rewrite E2; apply J2]).
  assert (rows_stay (su_shared s) x') as Hst by (intros k r; rewrite Er; apply Ht).
  split; [by eapply Hk, not_keyed_tame|]. exists (su_acked s), id, (in_txHash it). simpl.
  split_and!; try done; [by split; [|intros r Hr _; apply Hj]|by rewrite Er, E2|by eapply rejected_stay].
Qed.

Lemma reject n err why s o s' : open_attempt n s → sw_result w n = inl err → isPreInclusionReject errs inspect err = true →
  rejectAnnouncedAttempt e jobId why s = (o, s') → (o = Ret tt ∧ nothing_open s') ∨ (∃ x, o = Throw x ∧ ex_name x = "SponsorAttemptBookkeepingPendingError" ∧ open_attempt n s').
Proof.
  intros Hs Hw Hp H. pose proof Hs as (H1 & earlier & id & h & H2 & H3 & H4 & [H5 _] & H6 & [r H7] & H8).
  unfold rejectAnnouncedAttempt in H. rewrite H2, H3 in H. destruct h as [|a h], id as [|b id]; [done..|]. change (is_empty _ || is_empty _) with false in H. cbv iota in H.
  destruct (withLockContentionRetry _ _) as [o1 x'] eqn:E. unfold reject_tx in E.
  apply retried_tx in E as [(i & [] & x1 & -> & Hx & E)|(y & -> & Hx)]; simplify_eq.
  2:{ right. eexists. split; [done|split; [done|]]. eapply open_attempt_tame; [|done]. split_and!; [by apply tame_db|done..]. }
  left. split; [done|]. apply bind_ret_inv in E as (k & x2 & E1 & E).
  assert (∃ r2, rows x2 !! String b id = Some r2 ∧ s_status r2 = SubFailed) as (r2 & Hr2 & Hf).
  { unfold on_database, stmt, update_submission, sql_update_key in E1. rewrite Hx in E1. destruct (fault e _ _ _); [done|].
    rewrite H7 in E1. m_unfold. simplify_eq/=. rewrite lookup_insert_eq. by eexists. }
  eapply patch_tame in E1; [|by intros|done]. assert (tame (su_shared s) x2) as Ht by (etrans; [by apply tame_db|done]).
  eapply (cas_moves _ _ None) in E as (Er & Hk & _); [|apply markJobSubmissionRejectedOn_cas|intros; split; reflexivity].
  split_and!; [by eapply Hk, not_keyed_tame|done| |done]. cbn [su_shared su_acked]. rewrite H6. apply Forall_app_2.
  - eapply rejected_stay; [|done]. intros k0 q. rewrite Er. apply Ht.
  - apply Forall_singleton. split; [|by exists err]. exists r2. simpl. by rewrite Er.
Qed.

(** *** The whole submission *)

Hypothesis others_tame : ∀ n k x, tame x (sw_others w n k x).
Hypothesis named : ∀ n, sw_ids w n ≠ EmptyString ∧ ∀ msg, sw_intent w n = Some msg → in_txHash msg ≠ EmptyString.

Lemma others_step n k s : tame_step s (su_others w n k s).
Proof. split_and!; [apply others_tame..|done|done|done]. Qed.

(** After attempt [n] ended with [r]. *)
Definition after_attempt (n : nat) (r : nat + SubmitResult) (s : SubmitterState) : Prop :=
  nothing_open s ∨ open_attempt n s ∧ sw_result w n = r.

Lemma after_attempt_end n r s : after_attempt n r s → on_record s.
Proof. intros [Hs|[Hs _]]; [by apply nothing_open_end|by eapply open_attempt_end]. Qed.

Lemma attempt_sent n s r s' : nothing_open s → send_attempt e jobId shape w n s = (r, s') → after_attempt n r s'.
Proof.
  intros Hs H. unfold send_attempt in H. apply (nothing_open_tame _ _ (others_step n 0 s)) in Hs. destruct (sw_intent w n) as [msg|] eqn:Ei.
  - destruct (bound_onSubmitIntent _ _ _ _ _ _ _) as [o s1] eqn:E. apply announce in E; [|by apply named|exact (proj2 (named n) msg Ei)|done].
    destruct E as [[-> Ho]|(x & -> & Hn)]; simplify_eq.
    + right. split; [|done]. by eapply open_attempt_tame; [apply others_step|].
    + left. by eapply nothing_open_tame; [apply others_step|].
  - simplify_eq. left. by eapply nothing_open_tame; [apply others_step|].
Qed.

Definition send_end (r : SendEnd) (s : SubmitterState) : Prop :=
  match r with
  | SendFailed (Foreign err) => ∃ n, after_attempt n (inl err) s
  | SendFailed (Own x) => ex_name x = "SponsorAttemptBookkeepingPendingError" ∧ on_record s
  | _ => on_record s
  end.

Lemma rebuilds_sent fuel : ∀ n d st s r n' s', nothing_open s →
  withRebuildRetry errs inspect e jobId shape w dustRetries staleRetries fuel n d st s = (r, n', s') → send_end r s'.
Proof.
  induction fuel as [|fuel IH]; intros n d st s r n' s' Hs H; cbn [withRebuildRetry] in H; [simplify_eq; by apply nothing_open_end|].
  destruct (send_attempt _ _ _ _ _ _) as [[err|out] s1] eqn:Ea; apply attempt_sent in Ea; [|done| |done].
  2:{ simplify_eq. by eapply after_attempt_end. }
  destruct (rebuild_reason _ _ _ _ _ _ _) as [[[reason d'] st']|] eqn:Er; [|simplify_eq; by exists n].
  apply reason_pre_inclusion in Er. destruct (rejectAnnouncedAttempt _ _ _ _) as [o s2] eqn:Ej. destruct Ea as [Hn|[Ho Hw]].
  - pose proof Hn as (_ & Hh & _). unfold rejectAnnouncedAttempt in Ej. rewrite Hh in Ej. simplify_eq. by eapply IH.
  - apply (reject n err) in Ej as [[-> Hn]|(x & -> & Hx & Ho')]; [by eapply IH| |done..]. simplify_eq. split; [done|by eapply open_attempt_end].
Qed.

Lemma then_ret {A B} (m : M SubmitterState A) (b : B) s o s' : (_ ← m; mret b) s = (o, s') → ∃ o1, m s = (o1, s').
Proof. m_unfold. destruct (m s) as [[a|x] s1]; intros; simplify_eq; eauto. Qed.

Lemma best_effort_patch op id c p s o s' : (∀ r, s_status r = SubFailed → s_status (patch_sub p r) = SubFailed) →
  best_effort (stmt e op 0 0 (_ ← update_submission id c p; mret tt)) s = (o, s') → tame_step s s' ∧ o = Ret tt.
Proof.
  intros Hp H. unfold best_effort in H. destruct (on_database _ _) as [o1 x'] eqn:E. simplify_eq.
  eapply patch_tame in E; [|apply update_unread|done]. by split.
Qed.

Lemma failed_settled id t c s o s' : (nothing_open s ∨ ∃ n err, t = Foreign err ∧ open_attempt n s ∧ sw_result w n = inl err) →
  settleFailedAttempt errs inspect e jobId id t c s = (o, s') → on_record s'.
Proof.
  intros Hs H. unfold settleFailedAttempt in H. apply then_ret in H as [o1 H].
  destruct Hs as [Hs|(n & err & -> & Hs & Hw)].
  - pose proof Hs as (_ & Hh & _). rewrite Hh in H. cbn in H. apply best_effort_patch in H as [Ht _]; [|done].
    apply nothing_open_end. by eapply nothing_open_tame.
  - pose proof Hs as (_ & earlier & k & h & Hh & Hk & Hne & [Hhe _] & _). rewrite Hh, Hk in H. destruct h, k; [done..|]. cbn [is_empty negb andb pre_inclusion] in H.
    destruct (isPreInclusionReject errs inspect err) eqn:Ep.
    + apply (reject n err) in H as [[_ Hn]|(x & _ & _ & Ho)]; [by apply nothing_open_end|by eapply open_attempt_end|done..].
    + apply best_effort_patch in H as [Ht _]; [|done]. eapply open_attempt_end. by eapply open_attempt_tame.
Qed.

Lemma failed_reported id t s r s' : (nothing_open s ∨ (is_bookkeeping_pending t = true ∧ on_record s) ∨ ∃ n err, t = Foreign err ∧ open_attempt n s ∧ sw_result w n = inl err) →
  submit_failed errs inspect prior network e jobId id t s = (r, s') → on_record s'.
Proof.
  intros Hs H. unfold submit_failed in H. destruct (is_bookkeeping_pending t) eqn:Eb.
  - simplify_eq. destruct Hs as [Hs|[[_ Hs]|(n & err & -> & _)]]; [by apply nothing_open_end|done|done].
  - destruct (settleFailedAttempt _ _ _ _ _ _ _ _) as [o s1] eqn:E. apply failed_settled in E; [by repeat case_match; simplify_eq|].
    destruct Hs as [|[[? _]|]]; [by left|congruence|by right].
Qed.

Lemma submitted_recorded rowId h s o s' : h ≠ EmptyString → on_record s → report_submitted e jobId rowId h s = (o, s') → on_record s'.
Proof.
  intros Hh [H1 H2] H. unfold report_submitted in H. destruct (on_database _ _) as [o1 x'] eqn:E. simplify_eq.
  eapply (cas_moves _ _ (Some h)) in E as (Er & Hk & Hj); [|apply markJobSubmitted_cas|intros; split; reflexivity].
  split; [by apply Hk|]. simpl. destruct Hj as [->|Hj]; [done|]. right. exists h. split; [done|]. intros r Hr _. by apply Hj.
Qed.

Lemma result_recorded deploys worker what rowId out s r s' : on_record s →
  submit_result e jobId shape deploys worker what rowId out s = (r, s') → (∀ id o, r ≠ SubmissionOk id o) → on_record s'.
Proof.
  intros Hs H Hr. unfold submit_result in H. destruct (if is_empty (sr_txHash out) then _ else _) as [address|] eqn:Ec.
  2:{ destruct (markSubmissionFailed _ _ _ _) as [o s1] eqn:E. apply best_effort_patch in E as [Ht _]; [|done]. simplify_eq. by eapply on_record_tame. }
  match type of H with match ?m with _ => _ end = _ => destruct m as [o s1] eqn:E end. assert (sr_txHash out ≠ EmptyString) as Hne by (intros Eh; by rewrite Eh in Ec).
  apply bind_cases in E as [([] & s2 & E1 & E2)|(x & E1 & ->)]; [|simplify_eq; by eapply submitted_recorded].
  apply submitted_recorded in E1; [|done..]. unfold updateAfterSdk in E2. destruct (on_database _ _) as [o2 x'] eqn:E. simplify_eq.
  destruct o as [[]|x].
  - case_bool_decide as Eok; simplify_eq; [by destruct (Hr rowId out)|]. eapply patch_tame in E; [|apply update_unread|].
    + by eapply on_record_tame; [|done].
    + intros q _. unfold after_sdk_patch. by rewrite bool_decide_eq_false_2.
  - simplify_eq. eapply on_record_tame; [|done]. split_and!; try done; apply tame_db.
    all: unfold on_database, stmt, update_submission in E; destruct (fault e _ _ _); m_unfold; [by simplify_eq|]; by destruct (sql_update_key _ _ _ _).
Qed.

Lemma run_recorded deploys worker what id x r n s : id ≠ EmptyString → not_keyed x →
  runSubmit errs inspect prior network e jobId shape w dustRetries staleRetries deploys worker what id x = (r, n, s) →
  (∀ id o, r ≠ SubmissionOk id o) → on_record s.
Proof.
  intros Hid Hx H Hr. unfold runSubmit in H. destruct (insertPending _ _ _ _) as [o s0] eqn:E. unfold insertPending in E.
  destruct (on_database _ _) as [o1 x1] eqn:Ei. simplify_eq. apply insert_tame in Ei as [Ht Hrow]. apply (not_keyed_tame _ _ Ht) in Hx.
  destruct o as [[]|y]; [|simplify_eq; split; [done|left; constructor]]. cbn [su_shared with_su_shared] in H.
  set (s1 := MkSubmitter x1 (Some id) None []) in *. assert (nothing_open s1) as H1.
  { split_and!; [done|done|constructor|]. intros k [= <-]. split; [done|by apply Hrow]. }
  destruct (match sw_proxy w with Some _ => _ | None => _ end) as [o s2] eqn:E. assert (nothing_open s2) as H2.
  { destruct (sw_proxy w); [by simplify_eq|]. unfold external_execution in E. destruct (on_database _ _) as [o2 x2] eqn:Em. simplify_eq.
    eapply cas_tame in Em; [|apply markJobExternalExecution_cas|by intros]. by eapply nothing_open_tame; [|exact H1]. }
  destruct o as [[]|y]; [|destruct (submit_failed _ _ _ _ _ _ _ _ _) as [r' s3] eqn:Ef; simplify_eq; eapply failed_reported; [by left|done]].
  destruct (withRebuildRetry _ _ _ _ _ _ _ _ _ _ _ _ _) as [[r1 n1] s3] eqn:Ew. apply rebuilds_sent in Ew; [|done].
  destruct r1 as [out|t|]; [| |by simplify_eq].
  - destruct (submit_result _ _ _ _ _ _ _ _ _) as [r' s4] eqn:Ef. simplify_eq. by eapply result_recorded.
  - destruct (submit_failed _ _ _ _ _ _ _ _ _) as [r' s4] eqn:Ef. simplify_eq. eapply failed_reported; [|done].
    destruct t as [err|x']; simpl in Ew; [destruct Ew as [m [|[]]]; [by left|right; right; by exists m, err]|].
    destruct Ew as [Hn ?]. right. left. split; [|done]. simpl. by rewrite Hn.
Qed.
End Sent.

(** *** How the job is booked *)

Section Booked.
Context `{ScanOrder}.
Context (finalizer_run : string * Job → ReconciliationEvidence → M Database (option json)) (confirmer : string → outcome ChainLookup).
Context (errs : nat → ErrObj) (inspect : nat → string) (e : Env) (reg : Registry) (jobId : string) (w : SubmitWorld).

(** A row the operation writes is failed only when [P] holds of it. *)
Definition fails_only {A} (P : Job → Job → Prop) (m : M Database A) : Prop :=
  ∀ d o d' r r', m d = (o, d') → jobs d !! jobId = Some r → j_status r ≠ Schema.Failed → jobs d' !! jobId = Some r' → j_status r' = Schema.Failed → P r r'.

Lemma fails_only_cas {A} (P : Job → Job → Prop) c p (m : M Database A) : cas1 jobId c p m →
  (∀ i r, c r = true → j_status (patch_job (p i) r) = Schema.Failed → P r (patch_job (p i) r)) → fails_only P m.
Proof.
  intros Hm Hp d o d' r r' E Hr Hn Hr' Hf. apply Hm in E as [(i & r0 & Hr0 & Hc & ->) | ->]; [|congruence].
  simpl in Hr'. rewrite lookup_insert_eq in Hr'. simplify_eq. by apply Hp.
Qed.

Lemma parked_not_failed P c : fails_only P (markReconciliationRequired e jobId c).
Proof. eapply fails_only_cas; [apply markReconciliationRequired_cas|done]. Qed.

(** A failed contract job whose failure was booked carried no hash, and was this worker's. *)
Lemma booked_without_hash f d r : jobId ≠ EmptyString → jobs d !! jobId = Some r → j_status r ≠ Schema.Failed → jf_childPending f = None →
  identifierKeyed (jobKindTraits reg (kind (j_spec r))) = false → ∀ r', jobs (dispatch_failed finalizer_run confirmer e reg jobId f d).2 !! jobId = Some r' →
  j_status r' = Schema.Failed → present (j_txHash r) = None ∧ owned_by (getRuntimeWorkerId e) r = true.
Proof.
  intros Hj Hr Hn Hc Hk r' Hr' Hf. unfold dispatch_failed in Hr'. rewrite Hc in Hr'. m_unfold.
  destruct (getJobById e jobId d) as [[current|x] d1] eqn:E; pose proof E as E1; apply getJobById_same in E1 as ->; [|simpl in Hr'; congruence].
  unfold getJobById, stmt, select_job in E. rewrite bool_decide_eq_false_2 in E by done. destruct (fault e _ _ _); [done|]. rewrite Hr in E. m_unfold. simplify_eq.
  assert (∀ c, fails_only (λ _ _, False) (markReconciliationRequired e jobId c)) as Hp by (intros c; apply parked_not_failed).
  destruct (superseded _); [simpl in Hr'; congruence|]. cbn in Hr'.
  destruct (present (j_txHash r)) as [h|] eqn:Eh; cbn in Hr'.
  - rewrite Hk in Hr'. exfalso. destruct (jf_bookkeeping f); [|case_bool_decide];
      match type of Hr' with jobs (?m d).2 !! _ = _ => destruct (m d) as [o d2] eqn:Em end; by eapply Hp.
  - destruct (markFailed _ _ _ _) as [o d2] eqn:Em. split; [done|].
    assert (fails_only (λ r _, owned_by (getRuntimeWorkerId e) r = true) (markFailed e jobId (booked (jf_class f)))) as Hm; [|by eapply Hm].
    eapply fails_only_cas; [apply markFailed_cas|]. intros i q Hq _. by apply andb_true_iff in Hq as [? _].
Qed.

Lemma succeeded_fails_as_persist result d r r' : jobs d !! jobId = Some r → j_status r ≠ Schema.Failed →
  jobs (dispatch_succeeded e jobId result d).2 !! jobId = Some r' → j_status r' = Schema.Failed → j_errorCode r' = Some "RESULT_PERSIST_FAILED".
Proof.
  intros Hr Hn Hr' Hf. unfold dispatch_succeeded in Hr'. destruct (try_catch _ _ d) as [o d'] eqn:E. simpl in Hr'.
  assert (fails_only (λ _ _, False) (markSucceeded e jobId result)) as Hs by (eapply fails_only_cas; [apply markSucceeded_cas|done]).
  apply try_catch_cases in E as [(a & E & _)|(x & d1 & E & E1)]; [by destruct (Hs _ _ _ _ _ E Hr Hn Hr' Hf)|].
  assert (∃ r1, jobs d1 !! jobId = Some r1 ∧ j_status r1 ≠ Schema.Failed) as (r1 & Hr1 & Hn1).
  { apply (proj1 (markSucceeded_cas e jobId result)) in E as [(i & r0 & _ & _ & ->) | ->]; [|eauto]. simpl. rewrite lookup_insert_eq. by eexists. }
  apply bind_cases in E1 as [(current & d2 & E2 & E1)|(y & E2 & _)]; apply getJobById_same in E2 as ->; [|congruence].
  destruct (superseded current); [injection E1 as _ <-; congruence|].
  assert (fails_only (λ _ q, j_errorCode q = Some "RESULT_PERSIST_FAILED") (markFailed e jobId result_persist_failed)) as Hm; [|by eapply Hm].
  eapply fails_only_cas; [apply markFailed_cas|]. intros i q _ _. reflexivity.
Qed.

Lemma on_record_failed (s : SubmitterState) f r r' : jobId ≠ EmptyString → on_record errs inspect e reg jobId w s →
  jobs (sh_db (su_shared s)) !! jobId = Some r → j_status r ≠ Schema.Failed → jf_childPending f = None →
  jobs (dispatch_failed finalizer_run confirmer e reg jobId f (sh_db (su_shared s))).2 !! jobId = Some r' → j_status r' = Schema.Failed →
  Forall (rejected_attempt errs inspect w (su_shared s)) (su_acked s).
Proof.
  intros Hj [Hk [Hall|(h & Hne & Hh)]] Hr Hn Hc Hr' Hf; [done|].
  destruct (booked_without_hash _ _ _ Hj Hr Hn Hc (Hk _ Hr) _ Hr' Hf) as [Hp Hm]. rewrite (Hh _ Hr Hm) in Hp. by destruct h.
Qed.
End Booked.

Lemma no_child_pending errs c notApplied end_ f : failure_of errs c notApplied end_ = Some f → jf_childPending f = None.
Proof. unfold failure_of. by destruct end_; intros; simplify_eq. Qed.

(** C32. A contract job ends failed only when every transaction that the worker
    announced for it, in any of its attempts, ended in an error that the main thread
    reads as a refusal before inclusion, and its row is closed as failed. So it is
    whatever the calls to the worker end with: after an announcement every other error
    (a crash of the worker, a timeout, a lost reply, a failure on chain, an error of
    the database) leaves a hash on the job, which then waits for reconciliation, and
    attempts are rebuilt only when the one before was refused. What others do to the
    database meanwhile is arbitrary as long as they neither delete or reopen attempt
    rows nor write the job, and a job whose result could not be stored is excepted.
    What the reading is worth depends on how the worker's error arrives:
    [worker_end_tells] says when it is right, [reworded_open_outcome_is_rebuilt] shows
    where it is not. *)
Theorem failed_job_was_rejected `{ScanOrder} finalizer_run confirmer errs inspect prior network e reg jobId shape w dustRetries staleRetries
    deploys worker what submissionId result notApplied x s d r r' :
  (∀ n k x, tame e jobId x (sw_others w n k x)) →
  (∀ n, sw_ids w n ≠ EmptyString ∧ ∀ msg, sw_intent w n = Some msg → in_txHash msg ≠ EmptyString) →
  jobId ≠ EmptyString → submissionId ≠ EmptyString → not_keyed reg jobId x →
  run_contract_job finalizer_run confirmer errs inspect prior network e reg jobId shape w dustRetries staleRetries deploys worker what
    submissionId result notApplied x = (s, d) →
  jobs (sh_db (su_shared s)) !! jobId = Some r → j_status r ≠ Schema.Failed →
  jobs d !! jobId = Some r' → j_status r' = Schema.Failed → j_errorCode r' ≠ Some "RESULT_PERSIST_FAILED" →
  Forall (rejected_attempt errs inspect w (su_shared s)) (su_acked s).
Proof.
  intros Ht Hnamed Hj Hid Hx Hrun Hr Hn Hr' Hf Hcode. unfold run_contract_job in Hrun.
  destruct (runSubmit _ _ _ _ _ _ _ _ _ _ _ _ _ _ _) as [[end_ n] s1] eqn:E. injection Hrun as <- Hd.
  destruct (failure_of _ _ _ end_) as [f|] eqn:Ef.
  2:{ subst d. destruct Hcode. exact (succeeded_fails_as_persist _ _ _ _ _ _ Hr Hn Hr' Hf). }
  subst d. eapply on_record_failed; [exact Hj| |exact Hr|exact Hn|by eapply no_child_pending|exact Hr'|exact Hf].
  eapply on_record_tame; [by apply others_step|]. eapply run_recorded; [exact Ht|exact Hnamed|exact Hid|exact Hx|exact E|]. by intros id o ->.
Qed.

(** A submission ends: whatever the worker, the database and the others do, it
    comes to a result or an error after at most one attempt more than the rebuilds
    allowed for both kinds of rejection together. *)
Theorem submission_ends errs inspect prior network e jobId shape w dustRetries staleRetries deploys worker what submissionId x :
  let '(r, n, _) := runSubmit errs inspect prior network e jobId shape w dustRetries staleRetries deploys worker what submissionId x in
  r ≠ NoEnd ∧ (n ≤ 1 + dustRetries + staleRetries)%nat.
Proof.
  unfold runSubmit. destruct (insertPending _ _ _ _) as [[[]|y] s0]; [|split; [done|lia]].
  assert (∀ t s, (submit_failed errs inspect prior network e jobId submissionId t s).1 ≠ NoEnd) as Hfailed.
  { intros t s. unfold submit_failed. destruct (is_bookkeeping_pending t); [done|]. by destruct (settleFailedAttempt _ _ _ _ _ _ _ _) as [[?|?] ?]. }
  destruct (match sw_proxy w with Some _ => _ | None => _ end) as [[[]|y] s1].
  2:{ destruct (submit_failed _ _ _ _ _ _ _ _ _) as [r s2] eqn:E. split; [|lia]. apply (f_equal fst) in E. simpl in E. rewrite <- E. apply Hfailed. }
  destruct (withRebuildRetry _ _ _ _ _ _ _ _ _ _ _ _ _) as [[r n] s2] eqn:E. apply rebuilds_end in E as [Hr Hn]; [|lia..].
  destruct r as [out|t|]; [| |done].
  - destruct (submit_result _ _ _ _ _ _ _ _ _) as [r' s3] eqn:E2. split; [|lia]. unfold submit_result in E2. walk.
  - destruct (submit_failed _ _ _ _ _ _ _ _ _) as [r' s3] eqn:E2. split; [|lia]. apply (f_equal fst) in E2. simpl in E2. rewrite <- E2. apply Hfailed.
Qed.
