(* ===== verification/WorkerSubmit.v ===== *)
(** Sending a transaction from the wallet worker (srv/midnight/worker/submit.ts,
    srv/midnight/worker/phased-submit.ts).

    A transaction is announced, sent on a connection of its own in three phases,
    sent again when the connection failed, and looked up on the indexer when its
    outcome is open. The dust state saved before the build is restored when nothing
    can have been spent. The pool of clients, log lines and late answers of the node
    are left out; the node and the indexer are arguments. *)
From Stdlib Require Import Ascii.
From S2P Require Import Prelude Json Numbers ChainOutcome SubmitFailure.

Set Warnings "-register-all".

Local Open Scope string_scope.

(** ** State *)

(** Errors are objects, created at the end of [wk_errors] and named by their place;
    [wk_nothingSent]: those marked by [markNothingSent]. [wk_now]: the clock;
    [wk_queries]: the queries of the indexer so far. The wallet: the dust state, the
    snapshot, the epoch, what is stored of it ([FacadeEntry]), and whether the coins of the
    transaction are booked as pending. Not kept by the code: [wk_acked], that the main
    thread recorded the transaction, and [wk_sends], the attempts whose request left. *)
Record Worker := MkWorker {
  wk_errors : list ErrObj; wk_nothingSent : list nat; wk_now : Z; wk_queries : nat;
  wk_dust : string; wk_snapshot : option string; wk_dustEpoch : Z; wk_stored : option string; wk_restoresPersisted : Z;
  wk_pending : bool; wk_acked : bool; wk_sends : list nat }.

Definition with_errors (l : list ErrObj) (s : Worker) : Worker :=
  MkWorker l (wk_nothingSent s) (wk_now s) (wk_queries s) (wk_dust s) (wk_snapshot s) (wk_dustEpoch s) (wk_stored s)
    (wk_restoresPersisted s) (wk_pending s) (wk_acked s) (wk_sends s).
Definition with_clock (now : Z) (queries : nat) (s : Worker) : Worker :=
  MkWorker (wk_errors s) (wk_nothingSent s) now queries (wk_dust s) (wk_snapshot s) (wk_dustEpoch s) (wk_stored s)
    (wk_restoresPersisted s) (wk_pending s) (wk_acked s) (wk_sends s).
Definition with_snapshot (snapshot : option string) (s : Worker) : Worker :=
  MkWorker (wk_errors s) (wk_nothingSent s) (wk_now s) (wk_queries s) (wk_dust s) snapshot (wk_dustEpoch s) (wk_stored s)
    (wk_restoresPersisted s) (wk_pending s) (wk_acked s) (wk_sends s).
Definition with_pending (b : bool) (s : Worker) : Worker :=
  MkWorker (wk_errors s) (wk_nothingSent s) (wk_now s) (wk_queries s) (wk_dust s) (wk_snapshot s) (wk_dustEpoch s) (wk_stored s)
    (wk_restoresPersisted s) b (wk_acked s) (wk_sends s).
Definition note_acked (s : Worker) : Worker :=
  MkWorker (wk_errors s) (wk_nothingSent s) (wk_now s) (wk_queries s) (wk_dust s) (wk_snapshot s) (wk_dustEpoch s) (wk_stored s)
    (wk_restoresPersisted s) (wk_pending s) true (wk_sends s).
Definition note_sent (n : nat) (s : Worker) : Worker :=
  MkWorker (wk_errors s) (wk_nothingSent s) (wk_now s) (wk_queries s) (wk_dust s) (wk_snapshot s) (wk_dustEpoch s) (wk_stored s)
    (wk_restoresPersisted s) (wk_pending s) (wk_acked s) (wk_sends s ++ [n]).

(** A computation that throws an error object. *)
Definition W (A : Type) : Type := Worker → (nat + A) * Worker.
#[export] Instance W_ret : MRet W := λ A a s, (inr a, s).
#[export] Instance W_bind : MBind W := λ A B k m s,
  match m s with (inr a, s') => k a s' | (inl e, s') => (inl e, s') end.

Definition raise {A} (e : nat) : W A := λ s, (inl e, s).
Definition throw_new {A} (o : ErrObj) : W A := λ s, (inl (length (wk_errors s)), with_errors (wk_errors s ++ [o])%list s).
Definition modify (f : Worker → Worker) : W unit := λ s, (inr tt, f s).
Definition worker : W Worker := λ s, (inr s, s).
Definition attempt {A} (m : W A) : W (nat + A) := λ s, let '(r, s') := m s in (inr r, s').
Definition catch_error {A} (m : W A) (h : nat → W A) : W A := λ s, match m s with (inl e, s') => h e s' | r => r end.

Definition errs_of (s : Worker) : nat → ErrObj := chain_store (wk_errors s).

(** ** The errors of the worker *)

Definition nightgate_obj (name code message : string) (retryable : bool) (phase : option string) (height : option Z) (cause : option nat) : ErrObj :=
  MkErr true true true (Some name) (Some code) (Some message) EmptyString EmptyString phase None retryable None height cause.

Definition SubmitPhaseError (phase message : string) (cause : option nat) : ErrObj :=
  nightgate_obj "SubmitPhaseError" "SUBMIT_PHASE_FAILED" message false (Some phase) None cause.

Definition SubmitWatchTimeoutError (ms : Z) : ErrObj :=
  nightgate_obj "SubmitWatchTimeoutError" "SUBMIT_WATCH_TIMEOUT"
    ("submit watch timed out after " ++ json_to_string (JInt ms) ++ "ms without a final answer from the node") false None None None.

Definition SubmitOutcomeUnknownError (identifier cause_message : string) (cause : nat) : ErrObj :=
  plain_error "SubmitOutcomeUnknownError"
    ("submit outcome unknown: an earlier send of " ++ slice0 16 identifier ++
     " may have reached the node and the indexer does not show it yet; the later attempt failed: " ++ slice0 300 cause_message) (Some cause).

(** [submitPhaseOf] *)
Fixpoint phase_from (left : nat) (errs : nat → ErrObj) (cur : option nat) : option string :=
  match left, cur with
  | S left', Some a =>
      let o := errs a in
      match (if bool_decide (eo_name o = Some "SubmitPhaseError") then eo_phase o else None) with
      | Some p => Some p
      | None => phase_from left' errs (cause_of o)
      end
  | _, _ => None
  end.
Definition submitPhaseOf (errs : nat → ErrObj) (err : nat) : option string := phase_from 8 errs (Some err).

(** [isNothingSent] *)
Fixpoint marked_from (left : nat) (errs : nat → ErrObj) (marked : list nat) (cur : option nat) : bool :=
  match left, cur with
  | S left', Some a => bool_decide (a ∈ marked) || marked_from left' errs marked (cause_of (errs a))
  | _, _ => false
  end.
Definition isNothingSent (s : Worker) (err : nat) : bool := marked_from 8 (errs_of s) (wk_nothingSent s) (Some err).
Definition markNothingSent (err : nat) (s : Worker) : Worker :=
  MkWorker (wk_errors s) (err :: wk_nothingSent s) (wk_now s) (wk_queries s) (wk_dust s) (wk_snapshot s) (wk_dustEpoch s) (wk_stored s)
    (wk_restoresPersisted s) (wk_pending s) (wk_acked s) (wk_sends s).

(** [isClosingSocketReject]: [/disconnected from \S*:\s*1000\s*::\s*Normal Closure/i] *)
Definition normal_closure (s : string) : bool :=
  bool_decide (is_Some (
    r ← after_ci "1000" (trim_start s);
    r ← after_ci "::" (trim_start r);
    after_ci "Normal Closure" (trim_start r))).

Fixpoint closing_tail (s : string) : bool :=
  match s with
  | EmptyString => false
  | String a s' => (Ascii.eqb a ":" && normal_closure s') || (negb (is_space a) && closing_tail s')
  end.

Definition closing_socket_text (s : string) : bool :=
  bool_decide (is_Some (scan_match (λ _ t, r ← after_ci "disconnected from " t; if closing_tail r then Some tt else None) None s)).

(** [describe] of phased-submit.ts *)
Fixpoint described (left : nat) (errs : nat → ErrObj) (cur : option nat) : list string :=
  match left, cur with
  | S left', Some a => nullish (eo_message (errs a)) (eo_string (errs a)) :: described left' errs (cause_of (errs a))
  | _, _ => []
  end.
Definition describe (errs : nat → ErrObj) (err : nat) : string := slice0 400 (String.concat " <- " (described 6 errs (Some err))).

(** ** One send in three phases *)

(** How an attempt goes: the connection, then what happens after the request left, in
    the order in which it is seen: a status of the node, the end or an error of its
    stream, one of the timers. [sc_timeline]: the events as the messages render them. *)
Inductive ConnectEnd := Connects | ConnectTimesOut | ConnectFails (err : nat).
Inductive StreamItem := Status (tag : string) | StreamEnds | StreamFails (err : nat) | RequestTimer | WatchTimer | BackstopTimer.
Record SendScript := MkScript { sc_connect : ConnectEnd; sc_stream : list StreamItem; sc_timeline : string }.

(** The limits of the phases, the resends, the waits for the indexer. *)
Record SubmitConfig := MkConfig {
  cf_connectMs : Z; cf_requestMs : Z; cf_watchMs : Z; cf_backstopMs : Z; cf_waitFor : string;
  cf_retries : nat; cf_backoffMs : Z; cf_probeMs : Z; cf_visibleMs : Z; cf_ackMs : Z }.

Definition SUBMIT_WATCH_CONFIRM_MS : Z := 90000.

Section Phases.
Context (cfg : SubmitConfig) (identifier site : string).

Definition ms_text (ms : Z) : string := json_to_string (JInt ms).

(** [fail] *)
Definition fail_phase {A} (script : SendScript) (phase message : string) (cause : option nat) : W A :=
  throw_new (SubmitPhaseError phase
    (message ++ " [" ++ site ++ " " ++ slice0 16 identifier ++ ": " ++ sc_timeline script ++ "]") cause).

(** After the request left; [seen]: a status arrived, [last]: the last one. *)
Fixpoint after_send (script : SendScript) (seen : bool) (last : string) (items : list StreamItem) : W unit :=
  match items with
  | [] | BackstopTimer :: _ => throw_new (SubmitWatchTimeoutError (cf_backstopMs cfg))
  | Status tag :: rest => if bool_decide (tag = cf_waitFor cfg) then mret tt else after_send script true tag rest
  | StreamEnds :: _ =>
      if seen then fail_phase script "watch" ("submit stream ended before " ++ cf_waitFor cfg ++ " (last status " ++ last ++ ")") None
      else fail_phase script "request" "submit stream ended without any status" None
  | StreamFails a :: _ => raise a
  | RequestTimer :: rest =>
      if seen then after_send script seen last rest
      else fail_phase script "request" ("submit request phase: no status from the node within " ++ ms_text (cf_requestMs cfg) ++
             "ms after the send; the transaction may or may not have reached the pool") None
  | WatchTimer :: rest =>
      if seen then fail_phase script "watch" ("submit watch timed out after " ++ ms_text (cf_watchMs cfg) ++ "ms without a " ++ cf_waitFor cfg ++
             " status (the node acknowledged the request; last status " ++ last ++ ")") None
      else after_send script seen last rest
  end.

(** [submitTransaction] of attempt [n], under the limit of [withDedicatedSubmitClient]. *)
Definition submitTransaction (n : nat) (script : SendScript) : W unit :=
  match sc_connect script with
  | ConnectTimesOut =>
      fail_phase script "connect" ("submit connect phase: no connection within " ++ ms_text (cf_connectMs cfg) ++ "ms; nothing was sent") None
  | ConnectFails a => λ s,
      fail_phase script "connect" ("submit connect phase failed; nothing was sent: " ++ describe (errs_of s) a) (Some a) s
  | Connects => _ ← modify (note_sent n); after_send script false "none" (sc_stream script)
  end.
End Phases.

(** ** Looking at the indexer *)

Record IndexerBlock := MkFound { ib_height : string; ib_status : option string; ib_failedSegments : list (option Z) }.

(** [Number(s.id)] of the failed segments. *)
Definition segment_ids (v : option json) : list (option Z) :=
  match v with
  | Some (JArr l) => omap (λ s, match json_get "success" s with Some (JBool false) => Some (number_of (json_get "id" s)) | _ => None end) l
  | _ => []
  end.

Definition found_of (data : json) : option IndexerBlock :=
  t ← first_elem (json_get "transactions" data);
  match field2 "block" "height" t with
  | None | Some JNull => None
  | Some h => Some (MkFound (json_to_string h) (as_string (field2 "transactionResult" "status" t))
                      (segment_ids (field2 "transactionResult" "segments" t)))
  end.

Definition number_text (n : option Z) : string := match n with Some z => ms_text z | None => "NaN" end.

Definition TxNotAppliedError (identifier : string) (found : IndexerBlock) (status : string) : ErrObj :=
  let failed := ib_failedSegments found in
  nightgate_obj "TxFailedError" "TX_FAILED"
    ("TxFailedError: transaction " ++ slice0 16 identifier ++ " is in block " ++ ib_height found ++
     " but its call did NOT apply (ledger result " ++ status ++ ", failed segment" ++
     (if (length failed =? 1)%nat then EmptyString else "s") ++ " " ++
     (match failed with [] => "?" | _ => String.concat "," (number_text <$> failed) end) ++
     "); the fee was spent, the call must be rebuilt against the current contract state")
    false None (nonNegativeInteger (Some (JStr (ib_height found)))) None.

Definition assertApplied (identifier : string) (found : IndexerBlock) : W unit :=
  match present (ib_status found) with
  | Some status => if bool_decide (status = "SUCCESS") then mret tt else throw_new (TxNotAppliedError identifier found status)
  | None => mret tt
  end.

Section Indexer.
(** Its answers, and how long each takes. *)
Context (indexer : nat → outcome json) (queryMs : nat → nat) (identifier : string).

Definition sleep (ms : Z) : W unit := modify (λ s, with_clock (wk_now s + Z.max 0 ms)%Z (wk_queries s) s).

Definition indexerBlockOfIdentifier : W (option IndexerBlock) := λ s,
  let k := wk_queries s in
  (inr (match indexer k with Ret data => found_of data | Throw _ => None end),
   with_clock (wk_now s + Z.of_nat (queryMs k))%Z (S k) s).

Fixpoint landed_looks (fuel : nat) (deadline : Z) : W (option IndexerBlock) :=
  match fuel with
  | O => mret None
  | S fuel' =>
      found ← indexerBlockOfIdentifier;
      match found with
      | Some _ => mret found
      | None =>
          s ← worker;
          if bool_decide (deadline ≤ wk_now s)%Z then mret None
          else _ ← sleep (Z.min 5000 (Z.max 0 (deadline - wk_now s))); landed_looks fuel' deadline
      end
  end.

Definition landed_fuel (windowMs : Z) : nat := Z.to_nat (windowMs / 5000) + 2.

Definition waitLandedOnIndexer (windowMs : Z) : W (option IndexerBlock) := λ s,
  landed_looks (landed_fuel windowMs) (wk_now s + windowMs)%Z s.

Fixpoint visible_looks (fuel : nat) (t0 windowMs : Z) : W unit :=
  match fuel with
  | O => mret tt
  | S fuel' =>
      s ← worker;
      if bool_decide (windowMs ≤ wk_now s - t0)%Z then mret tt
      else
        found ← indexerBlockOfIdentifier;
        match found with
        | Some b => assertApplied identifier b
        | None => _ ← sleep 1500; visible_looks fuel' t0 windowMs
        end
  end.

Definition visible_fuel (windowMs : Z) : nat := Z.to_nat (windowMs / 1500) + 2.

Definition waitIndexerVisible (windowMs : Z) : W unit := λ s, visible_looks (visible_fuel windowMs) (wk_now s) windowMs s.
End Indexer.

(** ** A submission *)

(** The answer of the main thread to the announcement; whether the transaction can be
    booked as pending; whether freeing coins, saving and restoring dust work. *)
Inductive AckEnd := AckOk | AckRefused (error : option string) | AckTimeout.
Inductive BookEnd := BookMissing | BookDone | BookFails (err : nat).
Record WalletWorld := MkWallet { ww_book : BookEnd; ww_reverts : bool; ww_restores : bool; ww_persists : bool }.

Section Submit.
Context (inspect : list ErrObj → nat → string) (cfg : SubmitConfig).
Context (node : nat → SendScript) (indexer : nat → outcome json) (queryMs : nat → nat) (wallet : WalletWorld).
Context (identifier site : string).

Definition failure_of_error (s : Worker) (err : nat) : SubmitFailureInfo := classifySubmitFailure (errs_of s) (inspect (wk_errors s)) err.
Definition isPreMempoolReject (s : Worker) (err : nat) : bool := isPreMempoolFailure (failure_of_error s err).
Definition isSubmitTransportFailure (s : Worker) (err : nat) : bool := bool_decide (fi_code (failure_of_error s err) = Transport).
Definition isClosingSocketReject (s : Worker) (err : nat) : bool :=
  closing_socket_text (classificationHaystack (inspect (wk_errors s)) err).
Definition is_watch_timeout (s : Worker) (err : nat) : bool := bool_decide (nameOf (errs_of s err) = "SubmitWatchTimeoutError").

Definition unknownOutcome {A} (err : nat) : W A := λ s,
  throw_new (SubmitOutcomeUnknownError identifier (errorMessage (errs_of s err)) err) s.

(** [landed] *)
Definition landed (windowMs : Z) : W bool :=
  found ← waitLandedOnIndexer indexer queryMs windowMs;
  match found with
  | None => mret false
  | Some b => _ ← assertApplied identifier b; mret true
  end.

Definition attempt_once (n : nat) : W unit :=
  _ ← submitTransaction cfg identifier site n (node n); waitIndexerVisible indexer queryMs identifier (cf_visibleMs cfg).

(** Attempt [n] with [left] resends left; [maybeSent]: an earlier one may have
    reached the node. *)
Fixpoint send_loop (left n : nat) (maybeSent : bool) {struct left} : W string :=
  r ← attempt (attempt_once n);
  s ← worker;
  match r with
  | inr _ => mret identifier
  | inl e =>
      let phase := submitPhaseOf (errs_of s) e in
      if (n =? 0)%nat && isClosingSocketReject s e then
        match left with O => unknownOutcome e | S left' => send_loop left' (S n) true end
      else if bool_decide (phase = Some "connect") then
        match left with
        | O => if maybeSent then unknownOutcome e else (_ ← modify (markNothingSent e); raise e)
        | S left' => _ ← sleep (cf_backoffMs cfg); send_loop left' (S n) maybeSent
        end
      else if is_watch_timeout s e || bool_decide (phase = Some "watch") || bool_decide (phase = Some "request") then
        there ← landed SUBMIT_WATCH_CONFIRM_MS; if (there : bool) then mret identifier else raise e
      else if isSubmitTransportFailure s e then
        there ← landed (cf_probeMs cfg);
        if (there : bool) then mret identifier
        else match left with
             | O => unknownOutcome e
             | S left' => _ ← sleep (cf_backoffMs cfg); send_loop left' (S n) true
             end
      else
        there ← (if (left <? cf_retries cfg)%nat then landed (cf_probeMs cfg) else mret false);
        if (there : bool) then mret identifier else if maybeSent then unknownOutcome e else raise e
  end.

Definition bookPending : W unit :=
  match ww_book wallet with
  | BookMissing => mret tt
  | BookDone => modify (with_pending true)
  | BookFails a => raise a
  end.

Definition revertRecipeBestEffort : W unit :=
  if ww_reverts wallet then modify (with_pending false) else mret tt.

(** With [{ book: true }]. *)
Definition submitOnDedicatedClient : W string :=
  _ ← bookPending;
  catch_error (send_loop (cf_retries cfg) 0 false) (λ e, _ ← revertRecipeBestEffort; raise e).

(** ** The dust state *)

Definition captureDustSnapshot (serializes : bool) : W unit :=
  modify (λ s, with_snapshot (if serializes then Some (wk_dust s) else None) s).

Definition restoreDustFromSnapshot : W unit := λ s,
  let s1 := with_snapshot None s in
  match present (wk_snapshot s) with
  | Some snapshot =>
      if ww_restores wallet then
        let '(stored, persisted) := if ww_persists wallet then (Some snapshot, wk_restoresPersisted s + 1)%Z
                                    else (wk_stored s, wk_restoresPersisted s) in
        (inr tt, MkWorker (wk_errors s) (wk_nothingSent s) (wk_now s) (wk_queries s) snapshot None (wk_dustEpoch s + 1)%Z stored persisted
                   (wk_pending s) (wk_acked s) (wk_sends s))
      else (inr tt, s1)
  | None => (inr tt, s1)
  end.

(** ** The announcement *)

Definition announceSubmitIntent (ack : AckEnd) : W unit :=
  match ack with
  | AckOk => modify note_acked
  | AckRefused error =>
      throw_new (nightgate_obj "NightgateError" "SUBMIT_INTENT_REJECTED"
        ("submit-intent rejected by the main thread: " ++ nullish error "unknown") false None None None)
  | AckTimeout =>
      throw_new (nightgate_obj "NightgateError" "SUBMIT_INTENT_TIMEOUT"
        ("submit-intent was not acknowledged by the main thread within " ++ ms_text (cf_ackMs cfg) ++ "ms; not broadcasting") true None None None)
  end.

(** The first [try]. [ack]: the answer to the announcement, when there is a port to
    announce on; [named]: the transaction exposes its identifiers. *)
Definition announce_guarded (ack : option AckEnd) (named : bool) : W unit :=
  match ack with
  | None => mret tt
  | Some a =>
      catch_error
        (if named then announceSubmitIntent a
         else throw_new (plain_error "Error" (site ++ ": transaction exposes no identifiers(); refusing to broadcast unannounced") None))
        (λ e, _ ← revertRecipeBestEffort; _ ← restoreDustFromSnapshot; raise e)
  end.

(** The second. *)
Definition send_guarded (named : bool) : W string :=
  catch_error
    (if named then txId ← submitOnDedicatedClient; _ ← modify (with_snapshot None); mret txId
     else throw_new (plain_error "TypeError" "tx.identifiers is not a function" None))
    (λ e, s ← worker;
          _ ← (if isPreMempoolReject s e || isNothingSent s e then restoreDustFromSnapshot else modify (with_snapshot None));
          raise e).

Definition submitWithDustGuard (ack : option AckEnd) (named : bool) : W string :=
  _ ← announce_guarded ack named; send_guarded named.
End Submit.
