(* ===== verification/WorkerSubmitFacts.v ===== *)
(** What the end of a submission in the worker says of the transaction: an error that
    reads as a rejection, or that restores the dust state, only when no request of any
    attempt can land; a result only when the node or the indexer has shown it. *)
From Stdlib Require Import Ascii.
From S2P Require Import Prelude Json Numbers ChainOutcome SubmitFailure SponsorJobs WorkerSubmit.

Set Warnings "-register-all".

Local Open Scope string_scope.

(** ** Errors the worker creates *)

Lemma fresh_lookup l o : chain_store (l ++ [o]) (length l) = o.
Proof. unfold chain_store. by rewrite lookup_app_r, Nat.sub_diag by lia. Qed.

Section Fresh.
Context (errs : nat → ErrObj) (inspect : nat → string) (a : nat).

(** Whatever its text says, such an error does not read as a rejection. *)
Lemma unknown_not_rejected : eo_code (errs a) = None → eo_name (errs a) = Some "SubmitOutcomeUnknownError" → isPreInclusionReject errs inspect a = false.
Proof.
  intros Hc Hn. unfold isPreInclusionReject, classifySubmitFailure, carriedSubmitFailure. rewrite Hc. replace (if eo_object (errs a) then _ else _) with (@None SubmitFailureCode) by (by destruct (eo_object _)).
  cbn [mbind option_bind]. destruct (_ || _); [done|]. destruct (_ || _); [done|].
  assert (chain_name errs "SubmitOutcomeUnknownError" a = true) as ->; [|done].
  apply existsb_exists. exists a. split; [|apply bool_decide_eq_true_2; unfold nameOf; by rewrite Hn].
  unfold errorChain, MAX_CHAIN. cbn [chain_from]. rewrite bool_decide_eq_false_2 by set_solver. by left.
Qed.

(** A NIGHTGATE error without a cause. *)
Definition own_nightgate (code : string) : Prop :=
  let o := errs a in eo_object o = true ∧ eo_nightgate o = true ∧ eo_code o = Some code ∧ eo_cause o = None.

Lemma own_chain code : own_nightgate code → errorChain errs a = [a] ∧ nightgate_code errs a = Some code.
Proof.
  intros (Ho & Hn & Hc & Hk). assert (cause_of (errs a) = None) as Hcause by (unfold cause_of; by rewrite Ho).
  assert (isNightgateError (errs a) = true) as Hng by (unfold isNightgateError; by rewrite Ho, Hn, Hc).
  unfold errorChain, MAX_CHAIN, nightgate_code, findNightgateError. cbn [chain_from nightgate_from].
  rewrite (bool_decide_eq_false_2 (a ∈ [])) by set_solver. by rewrite Hcause, Hng.
Qed.

Lemma own_not_rejected code : own_nightgate code → submit_code_of code = None → codedSubmitFailure (Some code) = None → nameOf (errs a) ≠ "SubmitOutcomeUnknownError" →
  match phase_error errs a with Some p => p ≠ "connect" | None => nameOf (errs a) = "SubmitWatchTimeoutError" ∨ nameOf (errs a) = "TxFailedError" end →
  isPreInclusionReject errs inspect a = false.
Proof.
  intros Hown Hs Hcoded Hu Hp. pose proof (own_chain _ Hown) as [Hch Hng]. destruct Hown as (Ho & _ & Hc & _).
  unfold isPreInclusionReject, classifySubmitFailure, carriedSubmitFailure. rewrite Ho, Hc. cbn [mbind option_bind]. rewrite Hs.
  destruct (_ || _); [done|]. destruct (_ || _); [done|]. unfold chain_name. rewrite Hch, Hng, Hcoded. cbn [existsb].
  rewrite (bool_decide_eq_false_2 (nameOf (errs a) = "SubmitOutcomeUnknownError")) by done. cbn [orb]. destruct (phase_error errs a) as [p|].
  - rewrite (bool_decide_eq_false_2 (p = "connect")) by done. by case_bool_decide.
  - destruct Hp as [-> | ->]; [done|]. destruct (_ || _); [done|]. done.
Qed.
End Fresh.

(** ** Ends that leave the outcome open *)

Section Facts.
Context (inspect : list ErrObj → nat → string).

Definition rejected (s : Worker) (e : nat) : bool := isPreInclusionReject (errs_of s) (inspect (wk_errors s)) e.

(** Reads neither as a rejection nor as nothing sent. *)
Definition open_end (e : nat) (s : Worker) : Prop := rejected s e = false ∧ isNothingSent s e = false.

Lemma marked_nil left errs cur : marked_from left errs [] cur = false.
Proof. revert cur. induction left as [|left IH]; intros [a|]; [done..| |done]. cbn [marked_from]. rewrite bool_decide_eq_false_2 by set_solver. apply IH. Qed.

(** What waiting and looking change: the clock and the queries. *)
Definition waited (s s' : Worker) : Prop := ∃ now q, s' = with_clock now q s.
#[export] Instance waited_preorder : PreOrder waited.
Proof. split; [intros []; by eexists _, _|]. intros x y z (n & q & ->) (n' & q' & ->). by exists n', q'. Qed.

(** A new error [o] was thrown, after some waiting. *)
Definition thrown (o : ErrObj) (e : nat) (s s' : Worker) : Prop :=
  e = length (wk_errors s) ∧ ∃ s1, waited s s1 ∧ s' = with_errors (wk_errors s ++ [o])%list s1.

Lemma thrown_errs o e s s' : thrown o e s s' → errs_of s' e = o ∧ wk_nothingSent s' = wk_nothingSent s ∧ wk_sends s' = wk_sends s ∧ wk_acked s' = wk_acked s ∧
  wk_dustEpoch s' = wk_dustEpoch s ∧ wk_errors s' = (wk_errors s ++ [o])%list.
Proof. intros (-> & s1 & (now & q & ->) & ->). split_and!; try done. apply fresh_lookup. Qed.

Lemma throw_new_thrown {A} o s r s' : throw_new (A:=A) o s = (r, s') → ∃ e, r = inl e ∧ thrown o e s s'.
Proof. intros [= <- <-]. eexists. split; [done|]. split; [done|]. by exists s. Qed.

Lemma thrown_waited o e s s1 s' : waited s s1 → thrown o e s1 s' → thrown o e s s'.
Proof. intros (now & q & ->) (-> & s2 & (now' & q' & ->) & ->). split; [done|]. eexists. split; [|done]. by eexists _, _. Qed.

Lemma thrown_open o e s s' : thrown o e s s' → wk_nothingSent s = [] → (∀ errs i a, errs a = o → isPreInclusionReject errs i a = false) → open_end e s'.
Proof.
  intros H Hm Ho. apply thrown_errs in H as (He & Hn & _). split; [by apply Ho|]. unfold isNothingSent. rewrite Hn, Hm. apply marked_nil.
Qed.

Lemma phase_not_rejected phase m errs i a : phase ≠ "connect" → errs a = SubmitPhaseError phase m None → isPreInclusionReject errs i a = false.
Proof.
  intros Hp He. assert (own_nightgate errs a "SUBMIT_PHASE_FAILED") as Hown by (unfold own_nightgate; by rewrite He).
  apply (own_not_rejected errs i a _ Hown); [done|done|by rewrite He|]. unfold phase_error. rewrite (proj1 (own_chain _ _ _ Hown)). cbn [List.find]. rewrite He.
  rewrite (bool_decide_eq_true_2 (nameOf _ = _)), bool_decide_eq_true_2 by eauto. cbn. by rewrite He.
Qed.
Lemma timeout_not_rejected ms errs i a : errs a = SubmitWatchTimeoutError ms → isPreInclusionReject errs i a = false.
Proof.
  intros He. assert (own_nightgate errs a "SUBMIT_WATCH_TIMEOUT") as Hown by (unfold own_nightgate; by rewrite He).
  apply (own_not_rejected errs i a _ Hown); [done|done|by rewrite He|]. unfold phase_error. rewrite (proj1 (own_chain _ _ _ Hown)). cbn [List.find]. rewrite He.
  rewrite (bool_decide_eq_false_2 (nameOf _ = _)) by done. by left.
Qed.
Lemma not_applied_not_rejected id b st errs i a : errs a = TxNotAppliedError id b st → isPreInclusionReject errs i a = false.
Proof.
  intros He. assert (own_nightgate errs a "TX_FAILED") as Hown by (unfold own_nightgate; by rewrite He).
  apply (own_not_rejected errs i a _ Hown); [done|done|by rewrite He|]. unfold phase_error. rewrite (proj1 (own_chain _ _ _ Hown)). cbn [List.find]. rewrite He.
  rewrite (bool_decide_eq_false_2 (nameOf _ = _)) by done. by right.
Qed.
Lemma unknown_not_rejected' id m c errs i a : errs a = SubmitOutcomeUnknownError id m c → isPreInclusionReject errs i a = false.
Proof. intros He. apply unknown_not_rejected; by rewrite He. Qed.
End Facts.

(** ** The parts of a submission *)

Section Parts.
Context (indexer : nat → outcome json) (queryMs : nat → nat) (identifier : string).

Definition applied (b : IndexerBlock) : Prop := present (ib_status b) = None ∨ ib_status b = Some "SUCCESS".
(** The indexer has shown the transaction in a block, and not that its call failed. *)
Definition shown : Prop := ∃ k data b, indexer k = Ret data ∧ found_of data = Some b ∧ applied b.
Definition found_once (b : IndexerBlock) : Prop := ∃ k data, indexer k = Ret data ∧ found_of data = Some b.

Lemma assertApplied_ends b s r s' : assertApplied identifier b s = (r, s') →
  (r = inr tt ∧ s' = s ∧ applied b) ∨ (∃ e st, r = inl e ∧ thrown (TxNotAppliedError identifier b st) e s s').
Proof.
  unfold assertApplied, applied. destruct (present (ib_status b)) as [st|] eqn:E; [|intros [= <- <-]; left; auto].
  case_bool_decide as Hs; [|intros [= <- <-]; right; eexists _, st; split; [done|]; split; [done|]; by exists s].
  intros [= <- <-]. left. split_and!; [done|done|]. right. unfold present in E. destruct (ib_status b) as [t|]; [|done]. case_bool_decide; by simplify_eq.
Qed.

Lemma query_ends s : ∃ s1, waited s s1 ∧ ∀ r s', indexerBlockOfIdentifier indexer queryMs s = (r, s') → s' = s1 ∧ ∃ x, r = inr x ∧ ∀ b, x = Some b → found_once b.
Proof.
  eexists. split; [by eexists _, _|]. unfold indexerBlockOfIdentifier. intros r s' [= <- <-]. split; [done|]. eexists. split; [done|]. intros b Hb.
  destruct (indexer (wk_queries s)) as [data|] eqn:E; [|done]. by exists (wk_queries s), data.
Qed.

Lemma landed_looks_ends fuel : ∀ deadline s r s', landed_looks indexer queryMs fuel deadline s = (r, s') →
  waited s s' ∧ ∃ x, r = inr x ∧ ∀ b, x = Some b → found_once b.
Proof.
  induction fuel as [|fuel IH]; intros deadline s r s' H; cbn [landed_looks] in H; [injection H as <- <-; split; [reflexivity|exists None; naive_solver]|].
  unfold mbind, W_bind in H. destruct (query_ends s) as (s1 & Hw & Hq). destruct (indexerBlockOfIdentifier _ _ s) as [q sq].
  destruct (Hq _ _ eq_refl) as (-> & x & -> & Hx). destruct x as [b|]; [injection H as <- <-; split; [done|]; eexists; split; [done|]; by apply Hx|].
  cbn in H. case_bool_decide; [injection H as <- <-; split; [done|exists None; naive_solver]|]. apply IH in H as [Hw' H]. split; [|done].
  etrans; [exact Hw|]. etrans; [|exact Hw']. by eexists _, _.
Qed.

Lemma landed_ends w s r s' : landed indexer queryMs identifier w s = (r, s') →
  match r with
  | inr there => waited s s' ∧ ((there : bool) = true → shown)
  | inl e => ∃ b st, thrown (TxNotAppliedError identifier b st) e s s'
  end.
Proof.
  unfold landed, waitLandedOnIndexer, mbind, W_bind. intros H. destruct (landed_looks _ _ _ _ s) as [q s1] eqn:E.
  apply landed_looks_ends in E as (Hw & x & -> & Hx). destruct x as [b|]; [|by injection H as <- <-].
  destruct (assertApplied identifier b s1) as [q s2] eqn:Ea. apply assertApplied_ends in Ea as [(-> & -> & Ha)|(e & st & -> & Ht)]; injection H as <- <-.
  - split; [done|]. intros _. destruct (Hx b eq_refl) as (k & data & ? & ?). by exists k, data, b.
  - exists b, st. by eapply thrown_waited.
Qed.

Lemma visible_ends fuel : ∀ t0 w s r s', visible_looks indexer queryMs identifier fuel t0 w s = (r, s') →
  match r with inr _ => waited s s' | inl e => ∃ b st, thrown (TxNotAppliedError identifier b st) e s s' end.
Proof.
  induction fuel as [|fuel IH]; intros t0 w s r s' H; cbn [visible_looks] in H; [injection H as <- <-; reflexivity|].
  unfold mbind at 1, W_bind, worker in H. case_bool_decide; [injection H as <- <-; reflexivity|]. unfold mbind, W_bind in H. destruct (query_ends s) as (s1 & Hw & Hq).
  destruct (indexerBlockOfIdentifier _ _ s) as [q sq]. destruct (Hq _ _ eq_refl) as (-> & x & -> & _). destruct x as [b|].
  - apply assertApplied_ends in H as [(-> & -> & _)|(e & st & -> & Ht)]; [done|]. exists b, st. by eapply thrown_waited.
  - cbn in H. apply IH in H. assert (waited s (with_clock (wk_now s1 + 1500) (wk_queries s1) s1)) as Hs by (etrans; [exact Hw|by eexists _, _]).
    destruct r as [e|]; [destruct H as (b & st & Ht); exists b, st; by eapply thrown_waited|by etrans].
Qed.

(** The looks last until the deadline: the fuel is never used up. *)
Lemma landed_looks_last fuel : ∀ deadline s s', (0 < fuel)%nat → (deadline - wk_now s ≤ 5000 * (Z.of_nat fuel - 1))%Z →
  landed_looks indexer queryMs fuel deadline s = (inr None, s') → (deadline ≤ wk_now s')%Z.
Proof.
  induction fuel as [|fuel IH]; intros deadline s s' Hf Hgap H; [lia|]. cbn [landed_looks] in H.
  unfold mbind, W_bind, indexerBlockOfIdentifier in H. set (s1 := with_clock _ _ s) in H. assert (wk_now s ≤ wk_now s1)%Z as Hle by (unfold s1; cbn; lia).
  destruct (match indexer (wk_queries s) with Ret data => found_of data | Throw _ => None end); [discriminate|].
  unfold worker, sleep, modify in H. cbv beta iota zeta in H. case_bool_decide as Hd; [by injection H as <-|].
  destruct fuel as [|fuel]; [exfalso; lia|]. eapply IH; [lia| |exact H]. cbn [wk_now with_clock]. lia.
Qed.

Lemma waitLanded_until_deadline w s s' : waitLandedOnIndexer indexer queryMs w s = (inr None, s') → (wk_now s + w ≤ wk_now s')%Z.
Proof.
  apply landed_looks_last; unfold landed_fuel; [lia|]. pose proof (Z.mul_succ_div_gt w 5000 ltac:(lia)).
  destruct (decide (0 ≤ w / 5000)%Z); [lia|]. assert (w < 0)%Z by (apply Z.div_pos in n || (pose proof (Z.div_pos w 5000); lia)). lia.
Qed.

(** The watch for an applied result answers when it was found applied, or at the
    end of its window. *)
Lemma visible_looks_last fuel : ∀ t0 w s s', (0 < fuel)%nat → (t0 + w - wk_now s ≤ 1500 * (Z.of_nat fuel - 1))%Z →
  visible_looks indexer queryMs identifier fuel t0 w s = (inr tt, s') → (t0 + w ≤ wk_now s')%Z ∨
  shown.
Proof.
  induction fuel as [|fuel IH]; intros t0 w s s' Hf Hgap H; [lia|]. cbn [visible_looks] in H.
  unfold mbind, W_bind, worker, indexerBlockOfIdentifier in H. case_bool_decide as Hd; [injection H as <-; left; lia|].
  set (s1 := with_clock _ _ s) in H. assert (wk_now s ≤ wk_now s1)%Z as Hle by (unfold s1; cbn; lia).
  destruct (indexer (wk_queries s)) as [data|] eqn:Ei; [destruct (found_of data) as [b|] eqn:Eb|].
  - apply assertApplied_ends in H as [(_ & _ & Ha)|(e & st & ? & _)]; [right; by exists (wk_queries s), data, b|done].
  - unfold sleep, modify in H. cbv beta iota zeta in H. destruct fuel as [|fuel]; [exfalso; lia|]. eapply IH; [lia| |exact H]. cbn [wk_now with_clock]. lia.
  - unfold sleep, modify in H. cbv beta iota zeta in H. destruct fuel as [|fuel]; [exfalso; lia|]. eapply IH; [lia| |exact H]. cbn [wk_now with_clock]. lia.
Qed.

Lemma waitVisible_until_deadline w s s' : waitIndexerVisible indexer queryMs identifier w s = (inr tt, s') →
  (wk_now s + w ≤ wk_now s')%Z ∨ shown.
Proof.
  apply visible_looks_last; unfold visible_fuel; [lia|]. pose proof (Z.mul_succ_div_gt w 1500 ltac:(lia)). lia.
Qed.

Context (cfg : SubmitConfig) (node : nat → SendScript) (site : string).

(** The errors of an attempt whose request left, besides the node's own. *)
Definition lost (o : ErrObj) : Prop :=
  (∃ p m, p ≠ "connect" ∧ o = SubmitPhaseError p m None) ∨ (∃ ms, o = SubmitWatchTimeoutError ms).

Lemma after_send_ends script items : ∀ seen last s r s', after_send cfg identifier site script seen last items s = (r, s') →
  (r = inr tt ∧ s' = s ∧ Status (cf_waitFor cfg) ∈ items) ∨ (∃ a, r = inl a ∧ s' = s ∧ StreamFails a ∈ items) ∨
  (∃ e o, r = inl e ∧ thrown o e s s' ∧ lost o).
Proof.
  assert (∀ A p m s r s', p ≠ "connect" → fail_phase (A:=A) identifier site script p m None s = (r, s') → ∃ e o, r = inl e ∧ thrown o e s s' ∧ lost o) as Hfail.
  { intros A p m s r s' Hp H. apply throw_new_thrown in H as (e & -> & Ht). eexists e, _. split; [done|]. split; [exact Ht|]. left. eauto. }
  assert (∀ s r s', throw_new (A:=unit) (SubmitWatchTimeoutError (cf_backstopMs cfg)) s = (r, s') → ∃ e o, r = inl e ∧ thrown o e s s' ∧ lost o) as Hback.
  { intros s r s' H. apply throw_new_thrown in H as (e & -> & Ht). eexists e, _. split; [done|]. split; [exact Ht|]. right. eauto. }
  induction items as [|i items IH]; intros seen last s r s' H; cbn [after_send] in H; [right; right; by apply Hback|].
  destruct i as [tag| |a| | |].
  - case_bool_decide; [injection H as <- <-; left; split_and!; [done|done|subst; left]|]. apply IH in H as [(? & ? & ?)|[(a & ? & ? & ?)|?]]; [left|right; left; exists a|by right; right]; split_and!; try done; by right.
  - destruct seen; right; right; (eapply Hfail; [|exact H]; done).
  - injection H as <- <-. right. left. exists a. split_and!; [done|done|left].
  - destruct seen; [|right; right; (eapply Hfail; [|exact H]; done)]. apply IH in H as [(? & ? & ?)|[(a & ? & ? & ?)|?]]; [left|right; left; exists a|by right; right]; split_and!; try done; by right.
  - destruct seen; [right; right; (eapply Hfail; [|exact H]; done)|]. apply IH in H as [(? & ? & ?)|[(a & ? & ? & ?)|?]]; [left|right; left; exists a|by right; right]; split_and!; try done; by right.
  - right. right. by apply Hback.
Qed.

Inductive attempt_error (n : nat) (s : Worker) (e : nat) (s' : Worker) : Prop :=
| never_sent m c : thrown (SubmitPhaseError "connect" m c) e s s' → attempt_error n s e s'
| node_refused : StreamFails e ∈ sc_stream (node n) → waited (note_sent n s) s' → attempt_error n s e s'
| sent_and_lost o : lost o → thrown o e (note_sent n s) s' → attempt_error n s e s'
| sent_not_applied b st : thrown (TxNotAppliedError identifier b st) e (note_sent n s) s' → attempt_error n s e s'.

Lemma attempt_ends n s r s' : attempt_once cfg node indexer queryMs identifier site n s = (r, s') →
  match r with inr _ => waited (note_sent n s) s' ∧ Status (cf_waitFor cfg) ∈ sc_stream (node n) | inl e => attempt_error n s e s' end.
Proof.
  unfold attempt_once, mbind, W_bind. intros H. destruct (submitTransaction _ _ _ _ _ s) as [q s1] eqn:E. unfold submitTransaction in E.
  destruct (sc_connect (node n)) as [| |a].
  - cbn in E. apply after_send_ends in E as [(-> & -> & Hs)|[(a & -> & -> & Ha)|(e & o & -> & Ht & Hl)]].
    + unfold waitIndexerVisible in H. apply visible_ends in H. destruct r as [e|]; [destruct H as (b & st & Ht); by eapply sent_not_applied|done].
    + simplify_eq. by apply node_refused.
    + simplify_eq. by eapply sent_and_lost.
  - apply throw_new_thrown in E as (e & -> & Ht). simplify_eq. by eapply never_sent.
  - unfold fail_phase in E. apply throw_new_thrown in E as (e & -> & Ht). simplify_eq. by eapply never_sent.
Qed.
End Parts.

(** ** The end of a submission *)

Section Verdict.
Context (inspect : list ErrObj → nat → string) (cfg : SubmitConfig).
Context (node : nat → SendScript) (indexer : nat → outcome json) (queryMs : nat → nat) (wallet : WalletWorld).
Context (identifier site : string) (given : list ErrObj).

(** [lands n]: the request of attempt [n] can put the transaction on chain. *)
Context (lands : nat → bool).

(** What is relied on of the node, and of its client: an error of its stream that
    reads as a rejection of the transaction tells that this request cannot land, and
    its errors do not bear names of the worker's own. *)
Record node_contract : Prop := MkContract {
  rejection_is_final : ∀ n a more, StreamFails a ∈ sc_stream (node n) →
    fi_code (classifySubmitFailure (chain_store (given ++ more)) (inspect (given ++ more)%list) a) ∈ [PreMempoolReject; DustRace] → lands n = false;
  foreign_errors : ∀ n a more, StreamFails a ∈ sc_stream (node n) →
    submitPhaseOf (chain_store (given ++ more)) a = None ∧ nameOf (chain_store (given ++ more) a) ≠ "SubmitWatchTimeoutError" }.

Hypothesis contract : node_contract.

Abbreviation no_landing s := (Forall (λ n, lands n = false) (wk_sends s)).

(** The error tells of a rejection, or that nothing was sent, only when nothing can land. *)
Definition told (e : nat) (s : Worker) : Prop := rejected inspect s e = true ∨ isNothingSent s e = true → no_landing s.

(** Between the attempts. *)
Definition between (maybeSent : bool) (s : Worker) : Prop :=
  wk_nothingSent s = [] ∧ (∃ more, wk_errors s = given ++ more)%list ∧ (maybeSent = false → wk_sends s = []).

Lemma open_told e s : open_end inspect e s → told e s.
Proof. intros [H1 H2] [?|?]; congruence. Qed.

Lemma between_waited b s s' : waited s s' → between b s → between b s'.
Proof. by intros (now & q & ->). Qed.

Lemma told_waited e s s' : waited s s' → told e s → told e s'.
Proof. by intros (now & q & ->). Qed.

Lemma between_thrown b o e s s' : thrown o e s s' → between b s → between b s'.
Proof.
  intros Ht (H1 & (more & H2) & H3). apply thrown_errs in Ht as (_ & Hm & Hs & _ & _ & He). unfold between. rewrite Hm, Hs, He, H2.
  split_and!; [done| |done]. exists (more ++ [o])%list. by rewrite (assoc_L (++)).
Qed.

Lemma between_sent n s : between false s → between true (note_sent n s).
Proof. intros (H1 & H2 & _). by split_and!. Qed.

Lemma unknown_told {A} e b s r s' : between b s → unknownOutcome (A:=A) identifier e s = (r, s') → ∃ e', r = inl e' ∧ told e' s'.
Proof.
  intros (Hm & _) H. unfold unknownOutcome in H. apply throw_new_thrown in H as (e' & -> & Ht). exists e'. split; [done|].
  eapply open_told, thrown_open; [exact Ht|done|]. intros errs i a. apply unknown_not_rejected'.
Qed.

Lemma lost_told o e b s s' : between b s → thrown o e s s' → lost o ∨ (∃ bl st, o = TxNotAppliedError identifier bl st) → told e s'.
Proof.
  intros (Hm & _) Ht Ho. eapply open_told, thrown_open; [exact Ht|done|]. intros errs i a Ha.
  destruct Ho as [[(p & m & Hp & ->)|(ms & ->)]|(bl & st & ->)]; [by eapply phase_not_rejected|by eapply timeout_not_rejected|by eapply not_applied_not_rejected].
Qed.

Lemma nothing_read s e : wk_nothingSent s = [] → isNothingSent s e = false.
Proof. unfold isNothingSent. intros ->. apply marked_nil. Qed.
Lemma rejected_read s l e : wk_errors s = l → rejected inspect s e = isPreInclusionReject (chain_store l) (inspect l) e.
Proof. by intros <-. Qed.
Lemma transport_read s l e : wk_errors s = l →
  isSubmitTransportFailure inspect s e = bool_decide (fi_code (classifySubmitFailure (chain_store l) (inspect l) e) = Transport).
Proof. by intros <-. Qed.

(** How an attempt's error is read. *)
Lemma attempt_read b n s e s' : between b s → attempt_error identifier node n s e s' →
  between true s' ∧
  (bool_decide (submitPhaseOf (errs_of s') e = Some "connect") = true → wk_sends s' = wk_sends s) ∧
  (bool_decide (submitPhaseOf (errs_of s') e = Some "connect") = false →
   told e s' ∨ is_watch_timeout s' e = false ∧ bool_decide (submitPhaseOf (errs_of s') e = Some "watch") = false ∧
     bool_decide (submitPhaseOf (errs_of s') e = Some "request") = false ∧ (isSubmitTransportFailure inspect s' e = false → b = false → told e s')).
Proof.
  intros Hb Ha. pose proof Hb as (H1 & (more & H2) & H3). assert (between true (note_sent n s)) as Hs by (by split_and!; [|exists more|]).
  destruct Ha as [m c Ht|Ha Hw|o Hl Ht|bl st Ht].
  - assert (between true s) as Hb' by (by split_and!; [|exists more|]). split; [by eapply between_thrown|]. pose proof (thrown_errs _ _ _ _ Ht) as (He & _ & Hsends & _).
    split; [done|]. unfold submitPhaseOf. cbn [phase_from]. rewrite He. cbn. done.
  - destruct Hw as (now & q & ->). split; [done|]. assert (wk_errors (with_clock now q (note_sent n s)) = given ++ more)%list as Hl' by done. destruct (foreign_errors contract n e more Ha) as [Hf1 Hf2].
    assert (errs_of (with_clock now q (note_sent n s)) = chain_store (given ++ more)) as Herr by (unfold errs_of; cbn; by rewrite H2).
    rewrite Herr, Hf1. split; [done|]. intros _. right. unfold is_watch_timeout. rewrite Herr, bool_decide_eq_false_2 by done.
    split_and!; [done..|]. intros Htr Hbf [Hr|Hr].
    + cbn [wk_sends with_clock note_sent]. rewrite (H3 Hbf). apply Forall_singleton. apply (rejection_is_final contract n e more Ha).
      rewrite (transport_read _ _ _ Hl') in Htr. rewrite (rejected_read _ _ _ Hl') in Hr. apply bool_decide_eq_false_1 in Htr.
      unfold isPreInclusionReject in Hr. revert Htr Hr. generalize (classifySubmitFailure (chain_store (given ++ more)) (inspect (given ++ more)%list) e).
      intros info Htr Hr. destruct (fi_code info); try done; [by left|right; by left].
    + exfalso. rewrite nothing_read in Hr; [done|exact H1].
  - split; [by eapply between_thrown|]. assert (told e s') as Htold by (eapply lost_told; [exact Hs|exact Ht|by left]).
    pose proof (thrown_errs _ _ _ _ Ht) as (He & _). split; [|by left]. unfold submitPhaseOf. cbn [phase_from]. rewrite He.
    destruct Hl as [(p & m & Hp & ->)|(ms & ->)]; cbn; [|done]. intros Hc. apply bool_decide_eq_true_1 in Hc. rewrite (bool_decide_eq_true_2 (Some "SubmitPhaseError" = _)) in Hc by done. congruence.
  - split; [by eapply between_thrown|]. assert (told e s') as Htold by (eapply lost_told; [exact Hs|exact Ht|right; by exists bl, st]).
    pose proof (thrown_errs _ _ _ _ Ht) as (He & _). split; [|by left]. unfold submitPhaseOf. cbn [phase_from]. rewrite He. cbn. done.
Qed.

(** What sending leaves alone. *)
Definition kept_wallet (s s' : Worker) : Prop :=
  wk_acked s' = wk_acked s ∧ wk_dustEpoch s' = wk_dustEpoch s ∧ wk_dust s' = wk_dust s ∧ wk_snapshot s' = wk_snapshot s.
#[local] Instance kept_wallet_preorder : PreOrder kept_wallet.
Proof. split; [done|]. intros x y z (?&?&?&?) (?&?&?&?). unfold kept_wallet. split_and!; congruence. Qed.

Lemma kept_waited s s' : waited s s' → kept_wallet s s'.
Proof. by intros (now & q & ->). Qed.
Lemma kept_thrown o e s s' : thrown o e s s' → kept_wallet s s'.
Proof. by intros (-> & s1 & (now & q & ->) & ->). Qed.
Lemma kept_attempt n s e s' : attempt_error identifier node n s e s' → kept_wallet s s'.
Proof. intros [m c Ht|_ Hw|o _ Ht|b st Ht]; [by apply kept_thrown in Ht|by apply kept_waited in Hw|by apply kept_thrown in Ht|by apply kept_thrown in Ht]. Qed.

(** The node has shown the wanted status for a request, or the indexer the block. *)
Definition observed (s : Worker) : Prop :=
  (∃ n, Status (cf_waitFor cfg) ∈ sc_stream (node n) ∧ n ∈ wk_sends s) ∨ shown indexer.

Definition finished (s : Worker) (r : nat + string) (s' : Worker) : Prop :=
  kept_wallet s s' ∧ match r with inr _ => observed s' | inl e => told e s' end.

Lemma finished_after s s1 r s' : kept_wallet s s1 → finished s1 r s' → finished s r s'.
Proof. intros H [? ?]. split; [by etrans|done]. Qed.

Lemma unknown_finished e b s r s' : between b s → unknownOutcome identifier e s = (r, s') → finished s r s'.
Proof.
  intros Hb H. destruct (unknown_told _ _ _ _ _ Hb H) as (e' & -> & Ht). split; [|done].
  unfold unknownOutcome in H. apply throw_new_thrown in H as (e2 & _ & H). by eapply kept_thrown.
Qed.

Lemma between_weaken b s : between b s → between true s.
Proof. intros (?&?&?). by split_and!. Qed.

(** A look at the indexer, and what follows when it does not show the transaction. *)
Lemma look_finished w b (k : W string) s r s' : between b s →
  (there ← landed indexer queryMs identifier w; if (there : bool) then mret identifier else k) s = (r, s') →
  (∀ s1, waited s s1 → k s1 = (r, s') → finished s r s') → finished s r s'.
Proof.
  intros Hb H Hk. unfold mbind, W_bind in H. destruct (landed _ _ _ _ s) as [q s1] eqn:E. apply landed_ends in E.
  destruct q as [e|[]].
  - destruct E as (bl & st & Ht). injection H as <- <-. split; [by eapply kept_thrown|]. eapply lost_told; [exact Hb|exact Ht|right; by exists bl, st].
  - destruct E as [Hw Hs]. injection H as <- <-. split; [by apply kept_waited|]. right. by apply Hs.
  - destruct E as [Hw _]. by apply (Hk s1).
Qed.

Lemma slept ms (k : W string) s r s' : (_ ← sleep ms; k) s = (r, s') → ∃ s1, waited s s1 ∧ k s1 = (r, s').
Proof. intros H. unfold mbind, W_bind, sleep, modify in H. eexists. split; [|exact H]. by eexists _, _. Qed.

Lemma raised e b s (r : nat + string) s1 s' : waited s s1 → told e s → raise e s1 = (r, s') → between b s → finished s r s'.
Proof. intros Hw Ht [= <- <-] _. split; [by apply kept_waited|by eapply told_waited]. Qed.

(** After a refusal: the indexer is asked when the transaction was sent before. *)
Lemma refusal_finished w b asked e s r s' : between true s → (b = false → told e s) →
  (there ← (if (asked : bool) then landed indexer queryMs identifier w else mret false);
   if (there : bool) then mret identifier else if b then unknownOutcome identifier e else raise e) s = (r, s') → finished s r s'.
Proof.
  intros Hb Ht H. assert (∀ s1, waited s s1 → (if b then unknownOutcome identifier e else raise e) s1 = (r, s') → finished s r s') as Hk.
  { intros s1 Hw H1. destruct b; [|by eapply raised; [exact Hw|by apply Ht|exact H1|exact Hb]].
    eapply finished_after; [by apply kept_waited|]. eapply unknown_finished; [by eapply between_waited|exact H1]. }
  destruct asked; [by eapply look_finished|]. by eapply (Hk s).
Qed.

(** After a failure of the connection: [again] sends once more, or gives up. *)
Lemma lost_reply_finished w (again : W string) s r s' : between true s → (∀ s1, waited s s1 → again s1 = (r, s') → finished s1 r s') →
  (there ← landed indexer queryMs identifier w; if (there : bool) then mret identifier else again) s = (r, s') → finished s r s'.
Proof.
  intros Hb Hk H. eapply look_finished; [exact Hb|exact H|]. intros s1 Hw H1. eapply finished_after; [by apply kept_waited|]. by apply Hk.
Qed.

Lemma send_loop_ends left : ∀ n b s r s', between b s →
  send_loop inspect cfg node indexer queryMs identifier site left n b s = (r, s') → finished s r s'.
Proof.
  induction left as [|left IH]; intros n b s r s' Hb H; cbn [send_loop] in H; unfold mbind at 1, W_bind at 1, attempt in H;
    destruct (attempt_once _ _ _ _ _ _ n s) as [[e|[]] s1] eqn:Ea; apply attempt_ends in Ea; cbv beta iota zeta in H; unfold mbind at 1, W_bind at 1, worker in H.
  2,4: destruct Ea as [(now & q & ->) Hst]; injection H as <- <-; split; [done|]; left; exists n; split; [done|]; apply elem_of_app; right; by left.
  all: pose proof (kept_attempt _ _ _ _ Ea) as Hk; destruct (attempt_read _ _ _ _ _ Hb Ea) as (Hb1 & Hconn & Hread); apply (finished_after _ _ _ _ Hk).
  all: cbv beta iota zeta in H; destruct ((n =? 0)%nat && _); [try (by eapply unknown_finished); by eapply IH|].
  all: destruct (bool_decide (submitPhaseOf _ _ = Some "connect")) eqn:Ec; [specialize (Hconn eq_refl)|specialize (Hread eq_refl)].
  1: destruct b; [by eapply unknown_finished|]; unfold mbind, W_bind, modify, raise in H; injection H as <- <-;
    split; [done|]; intros _; change (wk_sends (markNothingSent e s1)) with (wk_sends s1); rewrite Hconn, (proj2 (proj2 Hb) eq_refl); constructor.
  2: apply slept in H as (s2 & Hw & H); eapply finished_after; [by apply kept_waited|]; eapply (IH _ b); [eapply between_waited; [exact Hw|]|exact H];
    split_and!; [apply Hb1..|]; intros Hbf; rewrite Hconn; by apply Hb.
  all: destruct (is_watch_timeout _ _ || _ || _) eqn:Ew.
  1,3: (eapply look_finished; [exact Hb1|exact H|]); intros s2 Hw H2; eapply raised; [exact Hw| |exact H2|exact Hb1];
    destruct Hread as [|(E1 & E2 & E3 & _)]; [done|rewrite E1, E2, E3 in Ew; done].
  all: destruct (isSubmitTransportFailure _ _ _) eqn:Et;
    [|eapply refusal_finished; [exact Hb1| |exact H]; destruct Hread as [|(_ & _ & _ & Hraw)]; [done|by apply Hraw]].
  all: eapply lost_reply_finished; [exact Hb1| |exact H]; intros s2 Hw H2.
  - eapply unknown_finished; [by eapply between_waited|exact H2].
  - apply slept in H2 as (s3 & Hw' & H3). eapply finished_after; [by apply kept_waited|]. eapply IH; [|exact H3]. eapply between_waited; [exact Hw'|]. by eapply between_waited.
Qed.

(** *** The guard around the sending *)

(** Nothing of what the error is read from changes, nor what was sent. *)
Definition same_reading (s s' : Worker) : Prop :=
  wk_errors s' = wk_errors s ∧ wk_nothingSent s' = wk_nothingSent s ∧ wk_sends s' = wk_sends s ∧ wk_acked s' = wk_acked s.

Lemma told_reading e s s' : same_reading s s' → told e s → told e s'.
Proof. unfold told, rejected, isNothingSent, errs_of. intros (-> & -> & -> & _). done. Qed.

Lemma revert_reading s r s' : revertRecipeBestEffort wallet s = (r, s') → r = inr tt ∧ same_reading s s' ∧ wk_dustEpoch s' = wk_dustEpoch s.
Proof. unfold revertRecipeBestEffort. destruct (ww_reverts wallet); by intros [= <- <-]. Qed.

Lemma restore_reading s r s' : restoreDustFromSnapshot wallet s = (r, s') → r = inr tt ∧ same_reading s s'.
Proof.
  unfold restoreDustFromSnapshot. destruct (present _); [|by intros [= <- <-]].
  destruct (ww_restores wallet), (ww_persists wallet); by intros [= <- <-].
Qed.

Lemma pre_mempool_rejected s e : isPreMempoolReject inspect s e = true → rejected inspect s e = true.
Proof.
  unfold isPreMempoolReject, rejected, isPreInclusionReject, isPreMempoolFailure, failure_of_error.
  generalize (classifySubmitFailure (errs_of s) (inspect (wk_errors s)) e). intros info. by destruct (fi_code info).
Qed.

(** Before anything is sent. *)
Lemma told_unsent e s : wk_sends s = [] → told e s.
Proof. intros Hs _. rewrite Hs. constructor. Qed.

Lemma client_ends s r s' : between false s → submitOnDedicatedClient inspect cfg node indexer queryMs wallet identifier site s = (r, s') →
  wk_acked s' = wk_acked s ∧ wk_dustEpoch s' = wk_dustEpoch s ∧ match r with inr _ => observed s' | inl e => told e s' end.
Proof.
  intros Hb H. unfold submitOnDedicatedClient, mbind, W_bind at 1, bookPending in H.
  assert (∀ s1 r1 s2, same_reading s s1 → wk_dustEpoch s1 = wk_dustEpoch s →
    catch_error (send_loop inspect cfg node indexer queryMs identifier site (cf_retries cfg) 0 false)
      (λ e, _ ← revertRecipeBestEffort wallet; raise e) s1 = (r1, s2) →
    wk_acked s2 = wk_acked s ∧ wk_dustEpoch s2 = wk_dustEpoch s ∧ match r1 with inr _ => observed s2 | inl e => told e s2 end) as Hrun.
  { intros s1 r1 s2 (He & Hm & Hs & Ha) Hd H1. unfold catch_error in H1. destruct (send_loop _ _ _ _ _ _ _ _ _ _ s1) as [q s3] eqn:E.
    apply send_loop_ends in E; [|unfold between; rewrite He, Hm, Hs; exact Hb]. destruct E as [(Ka & Kd & _) E]. destruct q as [e|id].
    - unfold mbind, W_bind in H1. destruct (revertRecipeBestEffort wallet s3) as [q s4] eqn:Er.
      destruct (revert_reading _ _ _ Er) as (-> & Hre & Hde). injection H1 as <- <-. pose proof Hre as (_ & _ & _ & Hra).
      split_and!; [congruence|congruence|by eapply told_reading].
    - injection H1 as <- <-. split_and!; [congruence|congruence|done]. }
  destruct (ww_book wallet) as [| |a]; [eapply Hrun; [| |exact H]; done|eapply Hrun; [| |exact H]; done|].
  injection H as <- <-. split_and!; [done|done|]. apply told_unsent, Hb. done.
Qed.

Lemma announce_ends ack named s r s' : announce_guarded cfg wallet site ack named s = (r, s') → wk_sends s' = wk_sends s ∧
  (r = inr tt → wk_errors s' = wk_errors s ∧ wk_nothingSent s' = wk_nothingSent s ∧ wk_dustEpoch s' = wk_dustEpoch s ∧ (is_Some ack → wk_acked s' = true)).
Proof.
  unfold announce_guarded. destruct ack as [a|]; [|intros [= <- <-]; split; [done|]; intros _; split_and!; [done|done|done|by intros []]].
  assert (∀ (m : W unit), wk_sends (m s).2 = wk_sends s →
    (m s).1 = inr tt → (m s).2 = note_acked s → catch_error m (λ e, _ ← revertRecipeBestEffort wallet; _ ← restoreDustFromSnapshot wallet; raise e) s = (inr tt, note_acked s)) as Hok.
  { intros m _. unfold catch_error. destruct (m s) as [q s1]. simpl. by intros -> ->. }
  assert (∀ o, catch_error (throw_new o) (λ e, _ ← revertRecipeBestEffort wallet; _ ← restoreDustFromSnapshot wallet; raise e) s = (r, s') →
    wk_sends s' = wk_sends s ∧ (r : nat + unit) ≠ inr tt) as Hthrow.
  { intros o H. unfold catch_error, throw_new, mbind, W_bind in H. destruct (revertRecipeBestEffort wallet _) as [q s3] eqn:Er.
    apply revert_reading in Er as (-> & (_ & _ & Hr & _) & _). destruct (restoreDustFromSnapshot wallet s3) as [q s4] eqn:Ed.
    apply restore_reading in Ed as (-> & (_ & _ & Hd & _)). injection H as <- <-. split; [etrans; [exact Hd|exact Hr]|done]. }
  destruct named; [destruct a as [|error|]|].
  - intros H. rewrite Hok in H by done. by injection H as <- <-.
  - intros H. apply Hthrow in H as [? Hr]. split; [done|]. by intros ->.
  - intros H. apply Hthrow in H as [? Hr]. split; [done|]. by intros ->.
  - intros H. apply Hthrow in H as [? Hr]. split; [done|]. by intros ->.
Qed.

Lemma guarded_ends named s r s' : between false s → send_guarded inspect cfg node indexer queryMs wallet identifier site named s = (r, s') →
  wk_acked s' = wk_acked s ∧
  match r with inr _ => observed s' ∧ wk_dustEpoch s' = wk_dustEpoch s | inl e => told e s' ∧ (wk_dustEpoch s' ≠ wk_dustEpoch s → no_landing s') end.
Proof.
  intros Hb. unfold send_guarded, catch_error. set (m := if named then _ else _).
  assert (∀ q s1, m s = (q, s1) → wk_acked s1 = wk_acked s ∧ wk_dustEpoch s1 = wk_dustEpoch s ∧ match q with inr _ => observed s1 | inl e => told e s1 end) as Hm.
  { intros q s1 E. subst m. destruct named.
    - unfold mbind, W_bind in E. destruct (submitOnDedicatedClient _ _ _ _ _ _ _ _ s) as [p s2] eqn:E2. apply client_ends in E2; [|done].
      destruct p; by injection E as <- <-.
    - injection E as <- <-. split_and!; [done|done|]. apply told_unsent. by apply Hb. }
  destruct (m s) as [[e|id] s1]; destruct (Hm _ _ eq_refl) as (Ha & Hd & Ht); [|by intros [= <- <-]].
  unfold mbind, W_bind, worker. set (m2 := if _ || _ then _ else _).
  assert (∀ q s2, m2 s1 = (q, s2) → q = inr tt ∧ same_reading s1 s2 ∧ (wk_dustEpoch s2 ≠ wk_dustEpoch s1 → no_landing s1)) as Hm2.
  { intros q s2 E. subst m2. destruct (isPreMempoolReject inspect s1 e) eqn:Ep; [|destruct (isNothingSent s1 e) eqn:En].
    - apply restore_reading in E as [-> Hr]. split_and!; [done|done|]. intros _. apply Ht. left. by apply pre_mempool_rejected.
    - apply restore_reading in E as [-> Hr]. split_and!; [done|done|]. intros _. apply Ht. by right.
    - by injection E as <- <-. }
  destruct (m2 s1) as [q s2]. destruct (Hm2 _ _ eq_refl) as (-> & Hr & Hn). intros [= <- <-]. pose proof Hr as (_ & _ & Hs & Hra).
  split_and!; [congruence|by eapply told_reading|]. rewrite Hs, <- Hd. exact Hn.
Qed.
End Verdict.

(** The state a submission starts in: the errors [given], nothing marked or sent. *)
Definition fresh_worker (given : list ErrObj) (s : Worker) : Prop :=
  wk_errors s = given ∧ wk_nothingSent s = [] ∧ wk_sends s = [] ∧ wk_acked s = false.

Lemma announced_between cfg wallet site given ack named s s1 : fresh_worker given s → announce_guarded cfg wallet site ack named s = (inr tt, s1) → between given false s1.
Proof.
  intros (Hg & Hm & Hs & _) H. apply announce_ends in H as [Hsends Hok]. destruct (Hok eq_refl) as (He & Hn & _).
  unfold between. rewrite He, Hn, Hsends, Hg, Hm, Hs. split_and!; [done|exists []; by rewrite app_nil_r|done].
Qed.

(** A failed submission is told as it is. *)
Lemma guard_told inspect cfg node indexer queryMs wallet identifier site given lands ack named s e s' :
  node_contract inspect node given lands → fresh_worker given s →
  submitWithDustGuard inspect cfg node indexer queryMs wallet identifier site ack named s = (inl e, s') → told inspect lands e s'.
Proof.
  intros Hc Hs H. unfold submitWithDustGuard, mbind, W_bind in H. destruct (announce_guarded _ _ _ _ _ s) as [[e0|[]] s1] eqn:E.
  - injection H as <- <-. apply told_unsent. apply announce_ends in E as [-> _]. apply Hs.
  - eapply guarded_ends in H as (_ & H & _); [exact H|exact Hc|by eapply announced_between].
Qed.

(** C35. What the end of a submission in the worker says of the transaction: when it
    fails with an error that the main thread reads as a rejection before inclusion,
    so that it closes the attempt and may build another, or when the dust state from
    before the build is restored, so that its note is spent again, then no request of
    any attempt can land, although attempts may have been lost and sent again, and
    whatever the texts of the worker's own errors say; it is enough that a rejection
    by the node speaks for the request it answers. When it succeeds, the node has
    shown the wanted status of a request that was sent or the indexer the block, and
    not that the call failed. With a port, nothing is sent that was not recorded. *)
Theorem worker_end_tells inspect cfg node indexer queryMs wallet identifier site given lands ack named s r s' :
  node_contract inspect node given lands → fresh_worker given s →
  submitWithDustGuard inspect cfg node indexer queryMs wallet identifier site ack named s = (r, s') →
  match r with
  | inl e => isPreInclusionReject (errs_of s') (inspect (wk_errors s')) e = true ∨ wk_dustEpoch s' ≠ wk_dustEpoch s → Forall (λ n, lands n = false) (wk_sends s')
  | inr _ => observed cfg node indexer s' ∧ wk_dustEpoch s' = wk_dustEpoch s
  end ∧ (is_Some ack → wk_sends s' ≠ [] → wk_acked s' = true).
Proof.
  intros Hc Hs H. unfold submitWithDustGuard, mbind, W_bind in H.
  destruct (announce_guarded _ _ _ _ _ s) as [q s1] eqn:E. pose proof E as E'. apply announce_ends in E as [Hsends Hok]. destruct q as [e|[]].
  - injection H as <- <-. rewrite Hsends, (proj1 (proj2 (proj2 Hs))). by split.
  - destruct (Hok eq_refl) as (_ & _ & Hd & Ha). apply (announced_between _ _ _ _ _ _ _ _ Hs) in E'.
    apply (guarded_ends _ _ _ _ _ _ _ _ _ _ Hc) in H as [Hka H]; [|done]. rewrite Hka, <- Hd. split; [|by intros ? _; apply Ha].
    destruct r as [e|id]; [|done]. destruct H as [Ht Hep]. intros [?|?]; [apply Ht; by left|by apply Hep].
Qed.
