(* ===== verification/ContractJobs.v ===== *)
(** Runs of contract jobs on the main thread and of submissions in the worker: a
    job that is rejected and rebuilt, sends whose reply is lost, what happens to an
    open outcome whose error is reworded on its way, and what a malformed answer of
    the worker does to the row of a transaction that may be on chain. *)
From S2P Require Import Prelude Db Retry Json Numbers InstanceLease SubmitFailure WorkerProtocol Schema SponsorPolicy.
From S2P Require Import JobStore ChainOutcome Reconciliation JobKinds GrantScope GrantBudgets AgentAccess GrantAdmin SponsorJobs SponsorSafety.
From S2P Require Import SponsorExamples Submitter SubmitterFacts WorkerSubmit WorkerSubmitFacts.

Local Open Scope string_scope.

(** ** Runs of the main thread *)

Definition contract_db : Database :=
  MkDatabase {[ "job-1" := sample_job "submitContractCall" Running (Some "w1") None ]} ∅ ∅ None.
Definition contract_shared : Shared := MkShared contract_db ∅ no_proc ∅.
Definition call_shape : SubmissionShape := MkShape (Some "c1") (Some "mint").
Definition call_intent (hash : string) : SubmitIntent :=
  MkIntent hash (Some "c1") (Some ["mint"]) None None None None None None None None None.

(** The node rejects each build as a dust race. *)
Definition always_raced : SubmitWorld :=
  MkSubmitWorld None (λ n, Some (call_intent (match n with O => "0xaa" | _ => "0xbb" end))) (λ _, O) (λ _, inl O)
    (λ _, "sub-2") (λ _ _ x, x).

Definition run_call (world : SubmitWorld) (deploys : bool) : SubmitterState * Database :=
  run_contract_job (H:=key_order) (λ _ _, mret None) (λ _, Throw (js_error "offline")) (chain_store race_errors) (rendered race_errors) (λ _, None) "preprod"
    no_faults full_registry "job-1" call_shape world 1 1 deploys "submitContractCall" "Call" "sub-1" JNull None contract_shared.

(** The end of the job, its hash, and the rows of its attempts. *)
Definition seen_call (r : SubmitterState * Database) :=
  ((λ j, (j_status j, j_errorCode j, j_txHash j)) <$> jobs r.2 !! "job-1", map_to_list (s_status <$> submissions r.2), su_acked r.1).

Example rejected_twice : seen_call (run_call always_raced false) =
  (Some (Schema.Failed, Some "1010/170", None), [("sub-1", SubFailed); ("sub-2", SubFailed)], [(0%nat, "sub-1", "0xaa"); (1%nat, "sub-2", "0xbb")]).
Proof. vm_compute. reflexivity. Qed.

Lemma failed_job_was_rejected_witness :
  Forall (rejected_attempt (chain_store race_errors) (rendered race_errors) always_raced (su_shared (run_call always_raced false).1))
    (su_acked (run_call always_raced false).1) ∧
  length (su_acked (run_call always_raced false).1) = 2.
Proof.
  split; [|vm_compute; reflexivity].
  refine (failed_job_was_rejected (H:=key_order) (λ _ _, mret None) (λ _, Throw (js_error "offline")) (chain_store race_errors) (rendered race_errors)
    (λ _, None) "preprod" no_faults full_registry "job-1" call_shape always_raced 1 1 false "submitContractCall" "Call" "sub-1" JNull None contract_shared
    (run_call always_raced false).1 (run_call always_raced false).2 _ _ _ _ _ _ _ _ _ _ _ _ _).
  - intros n k x. split; [intros id r Hr; exists r; split; [exact Hr|intros Hf; exact Hf]|intros r Hr; exists r; split; [exact Hr|split; [reflexivity|intros Hm; split; [exact Hm|reflexivity]]]].
  - intros n. split; [discriminate|]. intros msg Hm. injection Hm as <-. destruct n; discriminate.
  - discriminate.
  - discriminate.
  - intros r Hr. vm_compute in Hr. injection Hr as <-. reflexivity.
  - apply surjective_pairing.
  - vm_compute. reflexivity.
  - discriminate.
  - vm_compute. reflexivity.
  - reflexivity.
  - discriminate.
Defined.

(** *** The worker's runs: it cannot connect at first, and is refused then *)

Definition refusal : list ErrObj := [plain_error "Error" "1010: Invalid Transaction: Custom error: 170" None].
Definition own_text (l : list ErrObj) (a : nat) : string := errorMessage (chain_store l a).
Definition short_limits : SubmitConfig := MkConfig 20000 30000 75000 135000 "InBlock" 2 5000 30000 30000 120000.
Definition refused_second (k : nat) : SendScript :=
  match k with O => MkScript ConnectTimesOut [] EmptyString | 1%nat => MkScript Connects [StreamFails 0] EmptyString | _ => MkScript Connects [StreamEnds] EmptyString end.
Definition idle_worker : Worker := MkWorker refusal [] 5000 0 "dust-7" (Some "dust-6") 0 None 0 false false [].
Definition guarded_run (node : nat → SendScript) : W string :=
  submitWithDustGuard own_text short_limits node (λ _, Throw (js_error "offline")) (λ _, 100%nat) (MkWallet BookDone true true true) "0xaa" "submit"
    (Some AckOk) true.

Lemma worker_end_tells_witness :
  Forall (λ k, negb (k =? 1)%nat = false) (wk_sends (guarded_run refused_second idle_worker).2).
Proof.
  pose proof (worker_end_tells own_text short_limits refused_second (λ _, Throw (js_error "offline")) (λ _, 100%nat) (MkWallet BookDone true true true)
    "0xaa" "submit" refusal (λ k, negb (k =? 1)%nat) (Some AckOk) true idle_worker (inl 0%nat) (guarded_run refused_second idle_worker).2) as H.
  apply H; [| |vm_compute; reflexivity|right; vm_compute; discriminate].
  - split; intros [|[|k]] a more Ha; cbn in Ha; try (apply not_elem_of_nil in Ha; destruct Ha); apply list_elem_of_singleton in Ha; try discriminate; injection Ha as ->; [reflexivity|].
    split; [vm_compute; reflexivity|vm_compute; discriminate].
  - repeat split.
Defined.

(** The reply to the first send is lost, the second is refused: the outcome is open,
    and the dust state is not restored. *)
Definition reply_lost (k : nat) : SendScript :=
  match k with O => MkScript Connects [StreamFails 1] EmptyString | _ => MkScript Connects [StreamFails 0] EmptyString end.
Definition lost_then_refused : (nat + string) * Worker :=
  guarded_run reply_lost (with_errors (refusal ++ [plain_error "Error" "disconnected from wss://node: 1006:: Abnormal Closure" None])%list idle_worker).
Definition read_end (r : (nat + string) * Worker) : option SubmitFailureInfo :=
  match r with (inl e, s) => Some (failure_of_error own_text s e) | _ => None end.

Example lost_reply_is_open : read_end lost_then_refused = Some (failure Ambiguous (Some "unresolved-send") false) ∧
  wk_dust lost_then_refused.2 = "dust-7" ∧ wk_sends lost_then_refused.2 = [0; 1]%nat.
Proof. vm_compute. repeat split. Qed.

(** midnight-js rewords errors of a scoped transaction: a new error with the text
    of the old one, and neither its name nor its cause. Of the open outcome above,
    that text reads as a refusal before inclusion, so that the main thread closes
    the attempt as failed and builds the call anew, while its first send may land. *)
Definition reworded (o : ErrObj) : ErrObj :=
  plain_error "Error" ("Unexpected error submitting scoped transaction 'call': " ++ nameOf o ++ ": " ++ errorMessage o) None.
Definition lost_reply_reworded : list ErrObj :=
  match lost_then_refused with (inl e, s) => [reworded (errs_of s e)] | _ => [] end.

Theorem reworded_open_outcome_is_rebuilt :
  read_end lost_then_refused = Some (failure Ambiguous (Some "unresolved-send") false) ∧
  classify_chain lost_reply_reworded = failure DustRace (Some "1010/170") true ∧
  isPreInclusionReject (chain_store lost_reply_reworded) (rendered lost_reply_reworded) 0 = true.
Proof. vm_compute. repeat split. Qed.

Example refused_dust_restored : read_end (guarded_run refused_second idle_worker) = Some (failure DustRace (Some "1010/170") true) ∧
  wk_dust (guarded_run refused_second idle_worker).2 = "dust-6" ∧ wk_sends (guarded_run refused_second idle_worker).2 = [1]%nat.
Proof. vm_compute. repeat split. Qed.

(** No attempt connects, the first because its socket closes normally: nothing was
    sent, yet the outcome counts as unknown and the dust state is not restored. *)
Definition never_connects (k : nat) : SendScript :=
  match k with O => MkScript (ConnectFails 1) [] EmptyString | _ => MkScript ConnectTimesOut [] EmptyString end.
Definition closed_while_connecting : (nat + string) * Worker :=
  guarded_run never_connects (with_errors (refusal ++ [plain_error "Error" "disconnected from wss://node: 1000:: Normal Closure" None])%list idle_worker).

Theorem unsent_counts_as_unknown : read_end closed_while_connecting = Some (failure Ambiguous (Some "unresolved-send") false) ∧
  wk_sends closed_while_connecting.2 = [] ∧ wk_dust closed_while_connecting.2 = "dust-7".
Proof. vm_compute. repeat split. Qed.

(** ** A malformed answer after the announcement

    The deploy is announced, and the worker answers without the contract's address.
    The transaction may land, and the job waits for reconciliation; but its row is
    failed already. *)
Definition address_missing : SubmitWorld :=
  MkSubmitWorld None (λ _, Some (call_intent "0xaa")) (λ _, O) (λ _, inr (MkResult "0xaa" "SucceedEntirely" None None)) (λ _, "sub-2") (λ _ _ x, x).

Theorem malformed_result_fails_open_row : seen_call (run_call address_missing true) =
  (Some (ReconciliationRequired, Some "EXTERNAL_EXECUTION_FAILED", Some "0xaa"), [("sub-1", SubFailed)], [(0%nat, "sub-1", "0xaa")]).
Proof. vm_compute. reflexivity. Qed.

(** An error of unknown outcome leaves the row open. *)
Definition outcome_unknown : SubmitWorld :=
  MkSubmitWorld None (λ _, Some (call_intent "0xaa")) (λ _, O) (λ _, inl 7%nat) (λ _, "sub-2") (λ _ _ x, x).

Example ambiguous_row_stays_open : seen_call (run_call outcome_unknown false) =
  (Some (ReconciliationRequired, Some "EXTERNAL_EXECUTION_FAILED", Some "0xaa"), [("sub-1", SubPending)], [(0%nat, "sub-1", "0xaa")]).
Proof. vm_compute. reflexivity. Qed.
