(* ===== verification/Envelope.v ===== *)
(** Encryption of database secrets (srv/utils/crypto.ts,
    srv/utils/envelope-bindings.ts): the key ring, the format of a stored value, and
    what it is bound to.

    Node's ciphers, hashes and random bytes are arguments. What the proofs need of
    AES-GCM is [GcmLaws]: what is sealed opens again, and the lengths. *)
From Stdlib Require Import Ascii.
From S2P Require Import Prelude Json Numbers Scale ScaleFacts.

Set Warnings "-register-all".

Local Open Scope string_scope.
Local Open Scope list_scope.

(** ** Text *)

(** [s.split(c)] of a one-character separator. *)
Fixpoint split_on (c : Ascii.ascii) (s : string) : list string :=
  match s with
  | EmptyString => [EmptyString]
  | String a s' =>
      if Ascii.eqb c a then EmptyString :: split_on c s'
      else match split_on c s' with w :: ws => String a w :: ws | [] => [String a EmptyString] end
  end.

(** [parts.join(c)] *)
Definition join_with (c : Ascii.ascii) (parts : list string) : string := String.concat (String c EmptyString) parts.

(** [Buffer.from(s, 'utf8')]. Code units above 255 do not occur in the model. *)
Definition utf8_unit (a : Ascii.ascii) : list Z :=
  let n := Z.of_nat (nat_of_ascii a) in
  if (n <? 128)%Z then [n] else [192 + n / 64; 128 + n mod 64]%Z.

Fixpoint utf8 (s : string) : list Z :=
  match s with EmptyString => [] | String a s' => utf8_unit a ++ utf8 s' end.

Definition unit_of (n : Z) : Ascii.ascii := ascii_of_nat (Z.to_nat n).

(** [bytes.toString('utf8')]; what is not the encoding of a code unit below 256
    becomes a question mark. *)
Fixpoint of_utf8 (l : list Z) : string :=
  match l with
  | [] => EmptyString
  | b :: l' =>
      if (b <? 128)%Z then String (unit_of b) (of_utf8 l')
      else match l' with
           | c :: l'' =>
               if bool_decide (194 ≤ b < 196)%Z && bool_decide (128 ≤ c < 192)%Z
               then String (unit_of ((b - 192) * 64 + (c - 128))) (of_utf8 l'')
               else String "?" (of_utf8 l')
           | [] => "?"
           end
  end.

(** ** Bindings *)

Record EnvelopeBinding := MkBinding { eb_purpose : string; eb_subject : string }.

Definition walletSessionViewingKeyBinding (sessionId : string) : EnvelopeBinding := MkBinding "wallet-session/viewing-key" sessionId.
Definition walletSessionSeedBinding (sessionId : string) : EnvelopeBinding := MkBinding "wallet-session/seed" sessionId.
Definition jobCommandBinding (jobId : string) : EnvelopeBinding := MkBinding "background-job/command" jobId.
Definition accountDekBinding (accountId : string) : EnvelopeBinding := MkBinding "account-key/ring-seal" accountId.
Definition holderDisclosureContentBinding (grantId : string) : EnvelopeBinding := MkBinding "holder-disclosure/content" grantId.
Definition accountDekViewingKeySealBinding (accountId : string) : EnvelopeBinding := MkBinding "account-key/viewing-key-seal" accountId.

Definition NUL : Ascii.ascii := ascii_of_nat 0.
Definition not_char (c a : Ascii.ascii) : bool := negb (Ascii.eqb c a).

Definition assertBinding (b : EnvelopeBinding) : outcome unit :=
  if is_empty (eb_purpose b) || is_empty (eb_subject b) then Throw (js_error "envelope binding needs a non-empty purpose and subject")
  else if all_chars (not_char NUL) (eb_purpose b) && all_chars (not_char NUL) (eb_subject b) then Ret tt
  else Throw (js_error "envelope binding fields must not contain NUL").

(** ** The key ring *)

Definition IV_LENGTH : nat := 12.
Definition AUTH_TAG_LENGTH : nat := 16.
Definition DEK_LENGTH : nat := 32.
Definition KEK_LENGTH : nat := 32.
Definition WRAPPED_DEK_LENGTH : nat := IV_LENGTH + AUTH_TAG_LENGTH + DEK_LENGTH.
Definition ENVELOPE_VERSION : string := "v2".
Definition BOUND_ENVELOPE_VERSION : string := "v3".
Definition LEGACY_KEY_ID : string := "1".
Definition MIN_SECRET_LENGTH : nat := 32.
Definition KEK_INFO : string := "nightgate/kek/v2".

Definition key_id_char (a : Ascii.ascii) : bool :=
  char_in "A" "Z" a || char_in "a" "z" a || is_digit a || bool_decide (a ∈ ["_"; "-"]%char).

Definition KEY_ID_PATTERN (s : string) : bool :=
  (1 <=? String.length s)%nat && (String.length s <=? 16)%nat && all_chars key_id_char s.

Record KeySpec := MkKey { ks_id : string; ks_secret : string }.
Record KeyRingSpec := MkRingSpec { sp_activeId : string; sp_keys : list KeySpec }.

(** The variables of the environment that name the ring; an unset one is empty. *)
Record KeyEnv := MkKeyEnv { ev_keys : string; ev_active : string; ev_key : string }.

Definition UnknownEncryptionKeyError (keyId : string) : exn :=
  Exn "UnknownEncryptionKeyError" "ENCRYPTION_KEY_UNKNOWN"
    ("ciphertext is encrypted under key id '" ++ keyId ++ "', which is not in the encryption key ring (ENCRYPTION_KEYS); add the key or run nightgate-rewrap-keys before removing it").

Definition is_unknown_key (e : exn) : bool := bool_decide (ex_name e = "UnknownEncryptionKeyError").

Definition UnboundEnvelopeError (purpose : string) : exn :=
  Exn "UnboundEnvelopeError" EmptyString
    ("ciphertext for '" ++ purpose ++ "' is an unbound v1/v2 envelope; run nightgate-rewrap-keys (or set NIGHTGATE_ACCEPT_UNBOUND_ENVELOPES=true until it ran)").

Definition is_unbound (e : exn) : bool := bool_decide (ex_name e = "UnboundEnvelopeError").

(** One entry of ENCRYPTION_KEYS: [id=secret]. *)
Definition parse_entry (raw : string) : outcome (option KeySpec) :=
  let entry := trim raw in
  if is_empty entry then Ret None
  else match String.index 0 "=" entry with
       | Some (S n) => Ret (Some (MkKey (trim (slice0 (S n) entry)) (trim (String.substring (S (S n)) (String.length entry) entry))))
       | _ => Throw (js_error ("ENCRYPTION_KEYS entry '" ++ slice0 8 entry ++ "…' is not id=secret"))
       end.

Fixpoint parse_entries (l : list string) : outcome (list KeySpec) :=
  match l with
  | [] => Ret []
  | raw :: l' => k ← parse_entry raw; ks ← parse_entries l'; Ret (match k with Some x => x :: ks | None => ks end)
  end.

Definition find_key (id : string) (ks : list KeySpec) : option KeySpec := List.find (λ k, bool_decide (ks_id k = id)) ks.

Definition parseKeyRingSpec (env : KeyEnv) : outcome (option KeyRingSpec) :=
  let text := trim (ev_keys env) in
  keys ← (if is_empty text then Ret [] else parse_entries (split_on "," text));
  keys ← (if is_empty (ev_key env) then Ret keys
          else match find_key LEGACY_KEY_ID keys with
               | Some k =>
                   if bool_decide (ks_secret k = ev_key env) then Ret keys
                   else Throw (js_error ("ENCRYPTION_KEY and ENCRYPTION_KEYS both define key id '" ++ LEGACY_KEY_ID ++ "' with different secrets"))
               | None => Ret (keys ++ [MkKey LEGACY_KEY_ID (ev_key env)])
               end);
  match keys with
  | [] => Ret None
  | k :: rest =>
      let active := trim (ev_active env) in
      if is_empty active && negb (bool_decide (rest = []))
      then Throw (js_error "ENCRYPTION_KEY_ACTIVE is required when the encryption key ring holds more than one key")
      else Ret (Some (MkRingSpec (if is_empty active then ks_id k else active) keys))
  end.

Record KeyRing := MkRing { kr_activeId : string; kr_keks : list (string * list Z); kr_legacyKeys : list (string * list Z) }.

Definition ring_ids (ring : KeyRing) : list string := (kr_keks ring).*1.
Definition ring_has (ring : KeyRing) (id : string) : bool := map_has id (kr_keks ring).
Definition ring_kek (ring : KeyRing) (id : string) : outcome (list Z) :=
  match map_get id (kr_keks ring) with Some k => Ret k | None => Throw (UnknownEncryptionKeyError id) end.
Definition legacyKey (ring : KeyRing) (id : string) : option (list Z) := map_get id (kr_legacyKeys ring).

(** A ring of one ready-made key. *)
Definition fromKek (kek : list Z) : outcome KeyRing :=
  if (length kek =? KEK_LENGTH)%nat then Ret (MkRing LEGACY_KEY_ID [(LEGACY_KEY_ID, kek)] [(LEGACY_KEY_ID, kek)])
  else Throw (js_error ("encryption key must be " ++ pretty KEK_LENGTH ++ " bytes, got " ++ pretty (length kek))).

(** The associated data of an unbound and of a bound value. *)
Definition aad (keyId : string) : list Z := utf8 (ENVELOPE_VERSION ++ ":" ++ keyId).
Definition boundAad (keyId : string) (b : EnvelopeBinding) : list Z :=
  utf8 (join_with NUL [BOUND_ENVELOPE_VERSION; keyId; eb_purpose b; eb_subject b]).

(** Version and key id of a stored value. *)
Definition inspectCiphertext (combined : string) : outcome (Z * string) :=
  match split_on ":" combined with
  | [_; _; _] => Ret (1%Z, LEGACY_KEY_ID)
  | [version; keyId; _; _; _; _] =>
      if bool_decide (version = ENVELOPE_VERSION) || bool_decide (version = BOUND_ENVELOPE_VERSION) then
        if KEY_ID_PATTERN keyId then Ret ((if bool_decide (version = BOUND_ENVELOPE_VERSION) then 3 else 2)%Z, keyId)
        else Throw (js_error ("Invalid encrypted format: bad key id '" ++ keyId ++ "'"))
      else Throw (js_error "Invalid encrypted format: expected v3|v2:keyId:wrappedDek:iv:authTag:ciphertext or iv:authTag:ciphertext")
  | _ => Throw (js_error "Invalid encrypted format: expected v3|v2:keyId:wrappedDek:iv:authTag:ciphertext or iv:authTag:ciphertext")
  end.

(** ** Sealing and opening *)

(** AES-256-GCM as node has it: the data and the tag of what is sealed under a key,
    an IV and associated data; opening fails when the tag does not fit. *)
Class Gcm := {
  gcm_seal : list Z → list Z → list Z → list Z → list Z * list Z;
  gcm_open : list Z → list Z → list Z → list Z → list Z → option (list Z) }.

Class GcmLaws `{Gcm} : Prop := {
  gcm_opens k iv p a : gcm_open k iv (gcm_seal k iv p a).2 (gcm_seal k iv p a).1 a = Some p;
  gcm_tag_length k iv p a : length (gcm_seal k iv p a).2 = AUTH_TAG_LENGTH;
  gcm_data_length k iv p a : length (gcm_seal k iv p a).1 = length p;
  gcm_tag_bytes k iv p a : Forall is_byte (gcm_seal k iv p a).2;
  gcm_data_bytes k iv p a : Forall is_byte p → Forall is_byte (gcm_seal k iv p a).1 }.

(** [crypto.randomBytes(n)], numbered by the calls. *)
Class Random := { randomBytes : nat → nat → list Z }.
Class RandomLaws `{Random} : Prop := {
  random_length k n : length (randomBytes k n) = n;
  random_bytes k n : Forall is_byte (randomBytes k n) }.

(** [crypto.hkdfSync('sha256', ..)] of 32 bytes, SHA-256, [crypto.pbkdf2] with 600,000
    rounds of SHA-256, and HMAC-SHA256. *)
Class Hashes := {
  hkdf : list Z → string → string → list Z; sha256 : list Z → list Z;
  pbkdf2 : string → list Z → list Z; hmac : string → string → list Z }.
Class HashLaws `{Hashes} : Prop := { sha256_length l : length (sha256 l) = 32; sha256_bytes l : Forall is_byte (sha256 l); hkdf_length k s i : length (hkdf k s i) = 32 }.

Section Crypto.
Context `{Gcm, Random, Hashes}.

Definition deriveKek (id secret : string) : list Z := hkdf (utf8 secret) id KEK_INFO.
Definition legacyFold (secret : string) : list Z := sha256 (utf8 secret).

Fixpoint add_keys (ring : KeyRing) (keys : list KeySpec) : outcome KeyRing :=
  match keys with
  | [] => Ret ring
  | k :: keys' =>
      if negb (KEY_ID_PATTERN (ks_id k)) then Throw (js_error ("invalid encryption key id '" ++ ks_id k ++ "' (allowed: [A-Za-z0-9_-]{1,16})"))
      else if is_empty (ks_secret k) then Throw (js_error ("encryption key '" ++ ks_id k ++ "' has an empty secret"))
      else if ring_has ring (ks_id k) then Throw (js_error ("duplicate encryption key id '" ++ ks_id k ++ "'"))
      else add_keys
             (MkRing (kr_activeId ring) (kr_keks ring ++ [(ks_id k, deriveKek (ks_id k) (ks_secret k))])
                (if bool_decide (ks_id k = LEGACY_KEY_ID) then kr_legacyKeys ring ++ [(ks_id k, legacyFold (ks_secret k))] else kr_legacyKeys ring))
             keys'
  end.

(** [new KeyRing(spec)] *)
Definition newKeyRing (spec : KeyRingSpec) : outcome KeyRing :=
  match sp_keys spec with
  | [] => Throw (js_error "encryption key ring is empty")
  | keys =>
      ring ← add_keys (MkRing (sp_activeId spec) [] []) keys;
      if ring_has ring (sp_activeId spec) then Ret ring
      else Throw (js_error ("ENCRYPTION_KEY_ACTIVE='" ++ sp_activeId spec ++ "' is not in the encryption key ring"))
  end.

(** The variables [pinnedRing], [cachedRing] and [devFallback]. *)
Record Rings := MkRings { rg_pinned : option KeyRing; rg_cached : option (KeyEnv * KeyRing); rg_devFallback : option KeyRing; rg_draws : nat }.

Definition setKeyRing (spec : option KeyRingSpec) : M Rings unit := λ s,
  match spec with
  | None => (Ret tt, MkRings None (rg_cached s) (rg_devFallback s) (rg_draws s))
  | Some x =>
      match newKeyRing x with
      | Ret ring => (Ret tt, MkRings (Some ring) (rg_cached s) (rg_devFallback s) (rg_draws s))
      | Throw e => (Throw e, s)
      end
  end.

#[export] Instance KeyEnv_eq_dec : EqDecision KeyEnv.
Proof. solve_decision. Defined.

(** The first key that is too short; outside production it only is warned of. *)
Definition short_key (keys : list KeySpec) : option KeySpec :=
  List.find (λ k, (String.length (ks_secret k) <? MIN_SECRET_LENGTH)%nat) keys.

(** The ring of the environment, or outside production a random one. *)
Definition ring_of_env (production : bool) (env : KeyEnv) : M Rings KeyRing := λ s,
  match parseKeyRingSpec env with
  | Throw e => (Throw e, s)
  | Ret (Some spec) =>
      match short_key (sp_keys spec), production with
      | Some k, true =>
          (Throw (js_error ("encryption key '" ++ ks_id k ++ "' is shorter than 32 characters; production requires a high-entropy secret of at least 32 characters (hex or base64) in ENCRYPTION_KEY / ENCRYPTION_KEYS")), s)
      | _, _ =>
          match newKeyRing spec with
          | Throw e => (Throw e, s)
          | Ret ring => (Ret ring, MkRings (rg_pinned s) (Some (env, ring)) (rg_devFallback s) (rg_draws s))
          end
      end
  | Ret None =>
      if production then (Throw (js_error "ENCRYPTION_KEY must be set in production. Refusing to start with fallback key."), s)
      else match rg_devFallback s with
           | Some ring => (Ret ring, s)
           | None =>
               match newKeyRing (MkRingSpec "dev" [MkKey "dev" (to_hex (randomBytes (rg_draws s) 32))]) with
               | Throw e => (Throw e, s)
               | Ret ring => (Ret ring, MkRings (rg_pinned s) (rg_cached s) (Some ring) (S (rg_draws s)))
               end
           end
  end.

Definition getEncryptionKey (production : bool) (env : KeyEnv) : M Rings KeyRing := λ s,
  match rg_pinned s, rg_cached s with
  | Some ring, _ => (Ret ring, s)
  | None, Some (env', ring) => if bool_decide (env' = env) then (Ret ring, s) else ring_of_env production env s
  | None, None => ring_of_env production env s
  end.

(** [gcmEncrypt] is [gcm_seal]; [gcmDecrypt] checks the lengths first. *)
Definition gcmDecrypt (key iv tag data associated : list Z) : outcome (list Z) :=
  if negb (length iv =? IV_LENGTH)%nat then Throw (js_error ("Invalid IV length: expected 12 bytes, got " ++ pretty (length iv)))
  else if negb (length tag =? AUTH_TAG_LENGTH)%nat then Throw (js_error ("Invalid auth tag length: expected 16 bytes, got " ++ pretty (length tag)))
  else match gcm_open key iv tag data associated with
       | Some plain => Ret plain
       | None => Throw (js_error "Unsupported state or unable to authenticate data")
       end.

(** The random bytes of one encryption: the data key, the IV of the text and the IV
    of the wrapped key are the draws [n], [n + 1] and [n + 2]. *)
Definition encrypt (n : nat) (plaintext : string) (ring : KeyRing) (binding : option EnvelopeBinding) : outcome string :=
  let keyId := kr_activeId ring in
  _ ← (match binding with Some b => assertBinding b | None => Ret tt end);
  let version := match binding with Some _ => BOUND_ENVELOPE_VERSION | None => ENVELOPE_VERSION end in
  let associated := match binding with Some b => boundAad keyId b | None => aad keyId end in
  let dek := randomBytes n DEK_LENGTH in
  let iv := randomBytes (n + 1) IV_LENGTH in
  let payload := gcm_seal dek iv (utf8 plaintext) associated in
  kek ← ring_kek ring keyId;
  let wrap_iv := randomBytes (n + 2) IV_LENGTH in
  let wrap := gcm_seal kek wrap_iv dek associated in
  let wrappedDek := wrap_iv ++ wrap.2 ++ wrap.1 in
  Ret (join_with ":" [version; keyId; base64 wrappedDek; base64 iv; base64 payload.2; base64 payload.1]).

(** [acceptUnbound]: [opts.allowUnbound], or NIGHTGATE_ACCEPT_UNBOUND_ENVELOPES is set. *)
Definition decrypt (combined : string) (ring : KeyRing) (binding : option EnvelopeBinding) (acceptUnbound : bool) : outcome string :=
  '(version, keyId) ← inspectCiphertext combined;
  _ ← (match binding with
       | Some b => if bool_decide (version < 3)%Z && negb acceptUnbound then Throw (UnboundEnvelopeError (eb_purpose b)) else Ret tt
       | None => Ret tt
       end);
  match split_on ":" combined with
  | [iv; tag; data] =>
      match legacyKey ring keyId with
      | None => Throw (UnknownEncryptionKeyError keyId)
      | Some key => of_utf8 <$> gcmDecrypt key (from_base64 iv) (from_base64 tag) (from_base64 data) []
      end
  | [_; _; wrapped; iv; tag; data] =>
      let wrapped := from_base64 wrapped in
      if negb (length wrapped =? WRAPPED_DEK_LENGTH)%nat
      then Throw (js_error ("Invalid wrapped key length: expected 60 bytes, got " ++ pretty (length wrapped)))
      else
        associated ← (if bool_decide (version = 3%Z) then
                        match binding with
                        | None => Throw (js_error "ciphertext is bound to a purpose and a subject; decrypt it with the binding it was written under")
                        | Some b => _ ← assertBinding b; Ret (boundAad keyId b)
                        end
                      else Ret (aad keyId));
        kek ← ring_kek ring keyId;
        dek ← gcmDecrypt kek (take IV_LENGTH wrapped) (take AUTH_TAG_LENGTH (drop IV_LENGTH wrapped))
                (drop (IV_LENGTH + AUTH_TAG_LENGTH) wrapped) associated;
        of_utf8 <$> gcmDecrypt dek (from_base64 iv) (from_base64 tag) (from_base64 data) associated
  | _ => Throw (js_error "Invalid encrypted format")
  end.

Definition deriveBoundSecret (ring : KeyRing) (keyId material info : string) : outcome (list Z) :=
  kek ← ring_kek ring keyId; Ret (hkdf (kek ++ utf8 material) keyId info).

Definition hashViewingKey (viewingKey : string) : string := to_hex (sha256 (utf8 viewingKey)).
End Crypto.

(** ** Text reads back *)

Lemma split_on_nonempty c s : split_on c s ≠ [].
Proof. destruct s as [|a s]; [done|]. cbn. destruct (Ascii.eqb c a); [done|]. by destruct (split_on c s). Qed.

(** A part without the separator in front of it, or at the end. *)
Lemma split_on_part c p s : all_chars (not_char c) p = true → split_on c (p ++ String c s)%string = p :: split_on c s.
Proof.
  induction p as [|a p IH]; intros Hp.
  - change ((EmptyString ++ String c s)%string) with (String c s). cbn [split_on]. by rewrite Ascii.eqb_refl.
  - apply andb_prop in Hp as [Ha Hp]. change ((String a p ++ String c s)%string) with (String a (p ++ String c s)%string). cbn [split_on].
    unfold not_char in Ha. apply negb_true_iff in Ha. by rewrite Ha, IH.
Qed.

Lemma split_on_last c p : all_chars (not_char c) p = true → split_on c p = [p].
Proof.
  induction p as [|a p IH]; [done|]. intros [Ha Hp]%andb_prop. cbn [split_on]. unfold not_char in Ha. apply negb_true_iff in Ha. by rewrite Ha, IH.
Qed.

Lemma split_join c (parts : list string) : parts ≠ [] → Forall (λ p, all_chars (not_char c) p = true) parts →
  split_on c (join_with c parts) = parts.
Proof.
  intros Hne Hall. unfold join_with. induction Hall as [|p parts Hp Hall IH]; [done|]. destruct parts as [|q parts]; [by apply split_on_last|].
  change (String.concat (String c EmptyString) (p :: q :: parts)) with (p ++ String c (String.concat (String c EmptyString) (q :: parts)))%string.
  rewrite split_on_part by done. by rewrite IH.
Qed.

Lemma of_utf8_unit a l : of_utf8 (utf8_unit a ++ l) = String a (of_utf8 l).
Proof.
  unfold utf8_unit. pose proof (nat_ascii_bounded a) as Hb. destruct (Z.of_nat (nat_of_ascii a) <? 128)%Z eqn:E.
  - cbn. rewrite E. unfold unit_of. by rewrite Nat2Z.id, ascii_nat_embedding.
  - apply Z.ltb_ge in E. cbn [app of_utf8]. rewrite (proj2 (Z.ltb_ge _ 128)) by (Z.to_euclidean_division_equations; lia).
    rewrite !bool_decide_eq_true_2 by (Z.to_euclidean_division_equations; lia). simpl. unfold unit_of.
    replace (Z.to_nat _) with (nat_of_ascii a) by (Z.to_euclidean_division_equations; lia). by rewrite ascii_nat_embedding.
Qed.

Lemma utf8_reads s : of_utf8 (utf8 s) = s.
Proof. induction s as [|a s IH]; [done|]. cbn [utf8]. by rewrite of_utf8_unit, IH. Qed.

Lemma utf8_bytes s : Forall is_byte (utf8 s).
Proof.
  induction s as [|a s IH]; [constructor|]. apply Forall_app. split; [|done]. pose proof (nat_ascii_bounded a). unfold utf8_unit, is_byte.
  destruct (_ <? _)%Z eqn:E; [apply Z.ltb_lt in E; repeat constructor; lia|]. apply Z.ltb_ge in E.
  repeat constructor; Z.to_euclidean_division_equations; lia.
Qed.

Lemma all_chars_app p s t : all_chars p (s ++ t)%string = all_chars p s && all_chars p t.
Proof. induction s as [|a s IH]; [done|]. change (p a && all_chars p (s ++ t)%string = p a && all_chars p s && all_chars p t). by rewrite IH, andb_assoc. Qed.

Lemma all_chars_impl (p q : Ascii.ascii → bool) s : (∀ a, p a = true → q a = true) → all_chars p s = true → all_chars q s = true.
Proof. intros Hpq. induction s as [|a s IH]; [done|]. intros [Ha Hs]%andb_prop. cbn. by rewrite Hpq, IH. Qed.

(** What is checked of every character. *)
Lemma for_chars (p : Ascii.ascii → bool) : forallb (λ n, p (ascii_of_nat n)) (seq 0 256) = true → ∀ a, p a = true.
Proof.
  intros Hp a. pose proof (proj1 (forallb_forall _ _) Hp (nat_of_ascii a)) as H. cbv beta in H. rewrite ascii_nat_embedding in H.
  apply H, in_seq. pose proof (nat_ascii_bounded a). lia.
Qed.

Lemma key_id_char_colon a : key_id_char a = true → not_char ":" a = true.
Proof. 
  assert (∀ a, implb (key_id_char a) (not_char ":" a) = true) as H by (apply for_chars; vm_compute; reflexivity).
  intros Ha. specialize (H a). by rewrite Ha in H.
Qed.

Lemma base64_char_colon x : all_chars (not_char ":") (base64_char x) = true.
Proof.
  unfold base64_char, chr. cbn [all_chars]. rewrite andb_true_r. set (n := Z.to_nat x). clearbody n.
  destruct (n <? 26)%nat eqn:E1; [|destruct (n <? 52)%nat eqn:E2; [|destruct (n <? 62)%nat eqn:E3; [|by destruct (n =? 62)%nat]]].
  all: repeat match goal with H : (_ <? _)%nat = true |- _ => apply Nat.ltb_lt in H end.
  - assert (forallb (λ n, not_char ":" (ascii_of_nat (65 + n))) (seq 0 26) = true) as H by reflexivity.
    apply (proj1 (forallb_forall _ _) H), in_seq. lia.
  - assert (forallb (λ n, not_char ":" (ascii_of_nat (71 + n))) (seq 0 52) = true) as H by reflexivity.
    apply (proj1 (forallb_forall _ _) H), in_seq. lia.
  - apply Nat.ltb_ge in E2. assert (forallb (λ n, not_char ":" (ascii_of_nat (n - 4))) (seq 52 10) = true) as H by reflexivity.
    apply (proj1 (forallb_forall _ _) H), in_seq. lia.
Qed.

Lemma base64_colon l : all_chars (not_char ":") (base64 l) = true.
Proof.
  remember (length l) as n eqn:En. revert l En. induction (lt_wf n) as [n _ IH]. intros l ->. destruct l as [|a [|b [|c l]]]; [done|..].
  - cbn [base64]. by rewrite !all_chars_app, !base64_char_colon.
  - cbn [base64]. by rewrite !all_chars_app, !base64_char_colon.
  - cbn [base64]. rewrite !all_chars_app, !base64_char_colon. cbn [andb]. apply (IH (length l)); [simpl; lia|done].
Qed.

#[export] Hint Resolve utf8_bytes base64_colon : ng.

(** ** Bindings are kept apart *)

Lemma boundAad_inj k b k' b' : all_chars (not_char NUL) k = true → all_chars (not_char NUL) k' = true →
  assertBinding b = Ret tt → assertBinding b' = Ret tt → boundAad k b = boundAad k' b' → k = k' ∧ b = b'.
Proof.
  intros Hk Hk' Hb Hb' H. apply (f_equal of_utf8) in H. unfold boundAad in H. rewrite !utf8_reads in H. apply (f_equal (split_on NUL)) in H.
  assert (∀ b, assertBinding b = Ret tt → all_chars (not_char NUL) (eb_purpose b) = true ∧ all_chars (not_char NUL) (eb_subject b) = true) as Hparts.
  { intros [p s] Hx. unfold assertBinding in Hx. simpl in *. destruct (is_empty p || is_empty s); [done|]. by destruct (all_chars _ p), (all_chars _ s). }
  apply Hparts in Hb as [Hp Hs], Hb' as [Hp' Hs']. rewrite !split_join in H by (done || (repeat constructor; done)).
  injection H as -> Hpu Hsu. split; [done|]. destruct b, b'. simpl in *. by subst.
Qed.

(** ** What is encrypted decrypts *)

Section Laws.
Context `{GcmLaws, RandomLaws, Hashes}.

Definition ring_ok (ring : KeyRing) : Prop := KEY_ID_PATTERN (kr_activeId ring) = true ∧ ring_has ring (kr_activeId ring) = true.

Lemma add_keys_ids keys : ∀ ring ring', add_keys ring keys = Ret ring' → Forall (λ i, KEY_ID_PATTERN i = true) (ring_ids ring) →
  kr_activeId ring' = kr_activeId ring ∧ Forall (λ i, KEY_ID_PATTERN i = true) (ring_ids ring').
Proof.
  induction keys as [|k keys IH]; intros ring ring' Hr0 Hall; [by injection Hr0 as <-|]. cbn [add_keys] in Hr0.
  destruct (KEY_ID_PATTERN (ks_id k)) eqn:Ek; [|done]. simpl in Hr0. destruct (is_empty _); [done|]. destruct (ring_has ring _); [done|].
  apply IH in Hr0; [done|]. unfold ring_ids. simpl. rewrite fmap_app. apply Forall_app. split; [done|]. by repeat constructor.
Qed.

Lemma map_has_get {V} id (m : list (string * V)) : map_has id m = true → id ∈ m.*1.
Proof.
  induction m as [|[k v] m IH]; [done|]. unfold map_has. cbn [map_get]. destruct (decide (k = id)) as [->|Hne]; [left|]. intros Hm. right. by apply IH.
Qed.

Lemma newKeyRing_ok spec ring : newKeyRing spec = Ret ring → ring_ok ring ∧ kr_activeId ring = sp_activeId spec.
Proof.
  unfold newKeyRing. destruct (sp_keys spec) as [|k ks]; [done|]. intros (r & Hr & Hr0)%outcome_bind_ret.
  apply add_keys_ids in Hr as [Ha Hall]; [|constructor]. simpl in Ha. destruct (ring_has r _) eqn:E; [|done]. injection Hr0 as <-.
  split; [|done]. split; [|by rewrite Ha]. rewrite Ha. apply map_has_get in E. by eapply Forall_forall in Hall.
Qed.

Lemma key_id_colon s : KEY_ID_PATTERN s = true → all_chars (not_char ":") s = true.
Proof. intros [_ Hs]%andb_prop. revert Hs. apply all_chars_impl, key_id_char_colon. Qed.

Lemma encrypt_parts n p ring b c : KEY_ID_PATTERN (kr_activeId ring) = true → encrypt n p ring (Some b) = Ret c →
  assertBinding b = Ret tt ∧ ∃ kek, ring_kek ring (kr_activeId ring) = Ret kek ∧
  let a := boundAad (kr_activeId ring) b in
  let wrap := gcm_seal kek (randomBytes (n + 2) IV_LENGTH) (randomBytes n DEK_LENGTH) a in
  let payload := gcm_seal (randomBytes n DEK_LENGTH) (randomBytes (n + 1) IV_LENGTH) (utf8 p) a in
  c = join_with ":" [BOUND_ENVELOPE_VERSION; kr_activeId ring; base64 (randomBytes (n + 2) IV_LENGTH ++ wrap.2 ++ wrap.1);
                     base64 (randomBytes (n + 1) IV_LENGTH); base64 payload.2; base64 payload.1] ∧
  split_on ":" c = [BOUND_ENVELOPE_VERSION; kr_activeId ring; base64 (randomBytes (n + 2) IV_LENGTH ++ wrap.2 ++ wrap.1);
                    base64 (randomBytes (n + 1) IV_LENGTH); base64 payload.2; base64 payload.1].
Proof.
  unfold encrypt. intros Hk Hr0. apply outcome_bind_ret in Hr0 as ([] & Hb & Hr0). split; [done|].
  apply outcome_bind_ret in Hr0 as (kek & Hkek & [= <-]). exists kek. split; [done|]. split; [done|].
  apply split_join; [done|]. repeat constructor; try apply base64_colon. by apply key_id_colon.
Qed.

Lemma encrypt_total n p ring b : ring_ok ring → assertBinding b = Ret tt → ∃ c, encrypt n p ring (Some b) = Ret c.
Proof.
  intros [_ Hr] Hb. unfold encrypt. rewrite Hb. simpl. unfold ring_has, map_has in Hr. unfold ring_kek.
  destruct (map_get _ (kr_keks ring)) as [k|]; [|done]. by eexists.
Qed.

Lemma inspect_encrypt n p ring b c : KEY_ID_PATTERN (kr_activeId ring) = true → encrypt n p ring (Some b) = Ret c →
  inspectCiphertext c = Ret (3%Z, kr_activeId ring).
Proof. intros Hk Hr0. apply encrypt_parts in Hr0 as (_ & kek & _ & _ & Hs); [|done]. unfold inspectCiphertext. rewrite Hs. simpl. by rewrite Hk. Qed.

Lemma gcmDecrypt_sealed k iv p a : length iv = IV_LENGTH →
  gcmDecrypt k iv (gcm_seal k iv p a).2 (gcm_seal k iv p a).1 a = Ret p.
Proof. intros Hiv. unfold gcmDecrypt. by rewrite Hiv, gcm_tag_length, gcm_opens. Qed.

(** A value opens under every ring that holds its key, as what it was. *)
Lemma decrypt_encrypt n p ring b c ring' acceptUnbound : KEY_ID_PATTERN (kr_activeId ring) = true →
  encrypt n p ring (Some b) = Ret c → ring_kek ring' (kr_activeId ring) = ring_kek ring (kr_activeId ring) →
  decrypt c ring' (Some b) acceptUnbound = Ret p.
Proof.
  intros Hk Henc Hring. pose proof (inspect_encrypt _ _ _ _ _ Hk Henc) as Hi.
  apply encrypt_parts in Henc as (Hb & kek & Hkek & _ & Hs); [|done]. unfold decrypt. rewrite Hi, Hs. cbn [mbind outcome_bind].
  rewrite (bool_decide_eq_false_2 (3 < 3)%Z) by lia. cbn [andb mbind outcome_bind].
  assert (∀ m k, Forall is_byte (randomBytes m k)) as Hr by apply random_bytes.
  rewrite base64_reads by (repeat apply Forall_app_2; [done|apply gcm_tag_bytes|by apply gcm_data_bytes]).
  rewrite !length_app, gcm_tag_length, gcm_data_length, !random_length. change (negb (12 + (16 + 32) =? WRAPPED_DEK_LENGTH)%nat) with false.
  cbv iota. rewrite bool_decide_eq_true_2, Hb by done. cbn [mbind outcome_bind]. rewrite Hring, Hkek. cbn [mbind outcome_bind].
  rewrite take_app_length' by (symmetry; apply random_length). rewrite drop_app_length' by (symmetry; apply random_length).
  rewrite take_app_length' by (symmetry; apply gcm_tag_length). rewrite app_assoc, drop_app_length' by (by rewrite length_app, random_length, gcm_tag_length).
  rewrite gcmDecrypt_sealed by apply random_length. cbn [mbind outcome_bind].
  rewrite !base64_reads by (done || apply gcm_tag_bytes || (apply gcm_data_bytes, utf8_bytes)).
  rewrite gcmDecrypt_sealed by apply random_length. cbn. by rewrite utf8_reads.
Qed.

(** Rings that know a key under the same id know the same key. *)
Definition agree (r r' : KeyRing) : Prop := ∀ id k k', ring_kek r id = Ret k → ring_kek r' id = Ret k' → k = k'.

Lemma decrypt_unknown n p ring b c ring' acceptUnbound : KEY_ID_PATTERN (kr_activeId ring) = true →
  encrypt n p ring (Some b) = Ret c → ring_kek ring' (kr_activeId ring) = Throw (UnknownEncryptionKeyError (kr_activeId ring)) →
  decrypt c ring' (Some b) acceptUnbound = Throw (UnknownEncryptionKeyError (kr_activeId ring)).
Proof.
  intros Hk Henc Hring. pose proof (inspect_encrypt _ _ _ _ _ Hk Henc) as Hi.
  apply encrypt_parts in Henc as (Hb & kek & Hkek & _ & Hs); [|done]. unfold decrypt. rewrite Hi, Hs. cbn [mbind outcome_bind].
  rewrite (bool_decide_eq_false_2 (3 < 3)%Z) by lia. cbn [andb mbind outcome_bind].
  assert (∀ m k, Forall is_byte (randomBytes m k)) as Hr by apply random_bytes.
  rewrite base64_reads by (repeat apply Forall_app_2; [done|apply gcm_tag_bytes|by apply gcm_data_bytes]).
  rewrite !length_app, gcm_tag_length, gcm_data_length, !random_length. change (negb (12 + (16 + 32) =? WRAPPED_DEK_LENGTH)%nat) with false.
  cbv iota. rewrite bool_decide_eq_true_2, Hb by done. cbn [mbind outcome_bind]. by rewrite Hring.
Qed.

(** A value opens as what it was, or names a key the ring does not have. *)
Lemma decrypt_encrypt_cases n p ring b c ring' acceptUnbound : KEY_ID_PATTERN (kr_activeId ring) = true → agree ring ring' →
  encrypt n p ring (Some b) = Ret c →
  decrypt c ring' (Some b) acceptUnbound = Ret p ∨ decrypt c ring' (Some b) acceptUnbound = Throw (UnknownEncryptionKeyError (kr_activeId ring)).
Proof.
  intros Hk Ha Henc. pose proof Henc as (Hb & kek & Hkek & _ & _)%encrypt_parts; [|done].
  destruct (ring_kek ring' (kr_activeId ring)) as [k|e] eqn:E.
  - left. eapply decrypt_encrypt; [done..|]. rewrite Hkek, E. f_equal. symmetry. by eapply Ha.
  - right. eapply decrypt_unknown; [done..|]. rewrite E. unfold ring_kek in E. destruct (map_get _ (kr_keks ring')); [done|]. by injection E as <-.
Qed.
End Laws.

(** ** A toy cipher

    An instance of the laws, to run the model with: the text in the open, with a
    checksum over everything. *)

Definition checksum (l : list Z) : Z := (foldl (λ x b, x * 31 + b + 7) 1 l mod 256)%Z.
Definition toy_tag (k iv p a : list Z) : list Z := replicate 16 (checksum (k ++ [1%Z] ++ iv ++ [2%Z] ++ p ++ [3%Z] ++ a)).

Definition toy_gcm : Gcm :=
  {| gcm_seal k iv p a := (p, toy_tag k iv p a);
     gcm_open k iv t d a := if bool_decide (t = toy_tag k iv d a) then Some d else None |}.

Definition toy_random : Random := {| randomBytes k n := (λ i, Z.of_nat (k * 37 + i * 5) mod 256)%Z <$> seq 0 n |}.

Definition toy_hashes : Hashes :=
  {| hkdf l salt info := (λ i, checksum (l ++ [Z.of_nat i] ++ utf8 salt ++ [0%Z] ++ utf8 info)) <$> seq 0 32;
     sha256 l := (λ i, checksum (Z.of_nat i :: l)) <$> seq 0 32;
     pbkdf2 password salt := (λ i, checksum (Z.of_nat i :: utf8 password ++ [0%Z] ++ salt)) <$> seq 0 32;
     hmac key data := (λ i, checksum (Z.of_nat i :: utf8 key ++ [1%Z] ++ utf8 data)) <$> seq 0 32 |}.

Lemma toy_hash_laws : @HashLaws toy_hashes.
Proof.
  split; simpl; intros l; [done| |done]. repeat apply Forall_cons_2; try apply Forall_nil_2; unfold is_byte, checksum; apply Z.mod_pos_bound; lia.
Qed.

Lemma toy_gcm_laws : @GcmLaws toy_gcm.
Proof.
  split; simpl; intros k iv p a.
  - by rewrite bool_decide_eq_true_2.
  - reflexivity.
  - done.
  - apply Forall_replicate. unfold is_byte, checksum. apply Z.mod_pos_bound. lia.
  - done.
Qed.

Lemma toy_random_laws : @RandomLaws toy_random.
Proof.
  split; simpl; intros k n; [by rewrite length_fmap, length_seq|].
  apply Forall_fmap, Forall_true. intros i. unfold is_byte. simpl. apply Z.mod_pos_bound. lia.
Qed.
