(* ===== verification/AccountKeys.v ===== *)
(** The data key of an account (srv/submission/account-keys.ts): random, sealed in
    the database under the key ring and once more under the viewing key, and
    cached per process. *)
From Stdlib Require Import Ascii.
From stdpp Require Import countable.
From S2P Require Import Prelude Db Json Numbers Retry Scale ScaleFacts Envelope Threads.

Set Warnings "-register-all".

Local Open Scope string_scope.
Local Open Scope list_scope.

(** ** State *)

Definition DEK_SCHEME : string := "dek1".
Definition VK_SEAL_VERSION : string := "vk1".
Definition VK_SEAL_INFO : string := "nightgate/account-dek/vk-seal/v1".
Definition VK_SEAL_SALT : string := "nightgate-account-dek".
Definition PRIVATE_STATE_DEK_INFO : string := "nightgate/private-state/dek/v1".
Definition SYNC_STATE_DEK_INFO : string := "nightgate/sync-state/dek/v1".

Record AccountKeyRow := MkAccountKey {
  ak_wrappedDek : option string; ak_wrappedDekByViewingKey : option string; ak_createdAt : Z; ak_rotatedAt : option Z }.

Record CachedDek := MkCached { cd_dek : list Z; cd_keyId : string; cd_passwordHash : option string }.

Abbreviation Dek := (option (list Z)).

(** The table; and of each process its cache, its lookups under way by account, and
    what its lookups came to, by account and number. Lookups and draws of random
    bytes are numbered. *)
Record KeyStore := MkKeyStore {
  st_accountKeys : gmap string AccountKeyRow; st_cache : gmap (nat * string) CachedDek;
  st_inflight : gmap (nat * string) nat; st_settled : gmap (string * nat) (outcome Dek); st_draws : nat }.

Definition with_key_rows (t : gmap string AccountKeyRow) (s : KeyStore) : KeyStore :=
  MkKeyStore t (st_cache s) (st_inflight s) (st_settled s) (st_draws s).
Definition with_cache (c : gmap (nat * string) CachedDek) (s : KeyStore) : KeyStore :=
  MkKeyStore (st_accountKeys s) c (st_inflight s) (st_settled s) (st_draws s).
Definition with_inflight (c : gmap (nat * string) nat) (s : KeyStore) : KeyStore :=
  MkKeyStore (st_accountKeys s) (st_cache s) c (st_settled s) (st_draws s).
Definition with_settled (c : gmap (string * nat) (outcome Dek)) (s : KeyStore) : KeyStore :=
  MkKeyStore (st_accountKeys s) (st_cache s) (st_inflight s) c (st_draws s).
Definition with_draws (n : nat) (s : KeyStore) : KeyStore :=
  MkKeyStore (st_accountKeys s) (st_cache s) (st_inflight s) (st_settled s) n.

Definition AccountDekUnavailableError (accountId reason : string) : exn :=
  Exn "AccountDekUnavailableError" "ACCOUNT_KEY_UNAVAILABLE" ("account key for " ++ slice0 16 accountId ++ " cannot be opened: " ++ reason).

Section Keys.
Context `{Gcm, Random, Hashes}.

(** NIGHTGATE_ACCEPT_UNBOUND_ENVELOPES *)
Variable acceptUnbound : bool.

(** ** Sealing the data key *)

Definition vkSealKey (storagePassword : string) : list Z := hkdf (utf8 storagePassword) VK_SEAL_SALT VK_SEAL_INFO.

Definition sealDekByStoragePassword (n : nat) (dek : list Z) (storagePassword : string) : string :=
  let iv := randomBytes n 12 in
  let sealed := gcm_seal (vkSealKey storagePassword) iv dek (utf8 VK_SEAL_VERSION) in
  join_with ":" [VK_SEAL_VERSION; base64 iv; base64 sealed.2; base64 sealed.1].

Definition checked_length (dek : list Z) : outcome (list Z) :=
  if (length dek =? DEK_LENGTH)%nat then Ret dek else Throw (js_error ("Invalid account key length: " ++ pretty (length dek))).

(** Node refuses a tag of another length when it is set, and a wrong one at the end. *)
Definition openDekByStoragePassword (sealed storagePassword : string) : outcome (list Z) :=
  match split_on ":" sealed with
  | [version; iv; tag; data] =>
      if bool_decide (version = VK_SEAL_VERSION) then
        if negb (length (from_base64 tag) =? 16)%nat then Throw (js_error "Invalid authentication tag length")
        else match gcm_open (vkSealKey storagePassword) (from_base64 iv) (from_base64 tag) (from_base64 data) (utf8 VK_SEAL_VERSION) with
             | Some dek => checked_length dek
             | None => Throw (js_error "Unsupported state or unable to authenticate data")
             end
      else Throw (js_error "Invalid account key seal: expected vk1:iv:tag:data")
  | _ => Throw (js_error "Invalid account key seal: expected vk1:iv:tag:data")
  end.

Definition isBareViewingKeySeal (stored : string) : bool := starts_with (VK_SEAL_VERSION ++ ":")%string stored.

Definition sealDekByViewingKey (n : nat) (dek : list Z) (storagePassword : string) (ring : KeyRing) (accountId : string) : outcome string :=
  encrypt (n + 1) (sealDekByStoragePassword n dek storagePassword) ring (Some (accountDekViewingKeySealBinding accountId)).

Definition openDekByViewingKey (stored storagePassword : string) (ring : KeyRing) (accountId : string) : outcome (list Z) :=
  inner ← (if isBareViewingKeySeal stored then Ret stored
           else decrypt stored ring (Some (accountDekViewingKeySealBinding accountId)) acceptUnbound);
  openDekByStoragePassword inner storagePassword.

Definition wrapDek (n : nat) (dek : list Z) (ring : KeyRing) (accountId : string) : outcome string :=
  encrypt n (to_hex dek) ring (Some (accountDekBinding accountId)).

Definition unwrapDek (wrapped : string) (ring : KeyRing) (accountId : string) : outcome (list Z) :=
  hex ← decrypt wrapped ring (Some (accountDekBinding accountId)) acceptUnbound; checked_length (hex_bytes hex).

(** ** Derived passwords *)

Definition dekPassword (dek : list Z) (accountId info : string) : string := to_hex (hkdf dek accountId info).
Definition privateStatePasswordFromDek (dek : list Z) (accountId : string) : string := dekPassword dek accountId PRIVATE_STATE_DEK_INFO.
Definition syncStatePassphraseFromDek (dek : list Z) (accountId : string) : string := dekPassword dek accountId SYNC_STATE_DEK_INFO.

(** ** Looking the data key up *)

Definition passwordHash (storagePassword : string) : string := to_hex (sha256 (utf8 storagePassword)).

Record ResolveArgs := MkResolve {
  ra_process : nat; ra_ring : KeyRing; ra_accountId : string; ra_storagePassword : option string; ra_create : bool; ra_readOnly : bool }.

Definition key_id_of (stored : string) : string := match inspectCiphertext stored with Ret (_, keyId) => keyId | Throw _ => EmptyString end.

(** What the two copies of a row open to: the data key, whether the ring failed,
    and whether a key of the viewing key's copy is missing. *)
Record Opened := MkOpened { op_dek : list Z; op_ringFailed : bool; op_vkUnknownKey : bool }.

Definition missing_reason (wrapped : string) (vk : option string) (ringError vkError : option exn) (password : option string) : string :=
  let missing :=
    match ringError with
    | Some e => if is_unknown_key e then Some (key_id_of wrapped) else None
    | None => None
    end in
  let missing := match missing, vkError with Some k, _ => Some k | None, Some e => if is_unknown_key e then key_id_of <$> vk else None | None, None => None end in
  match missing with
  | Some keyId => "it is sealed under encryption key id '" ++ keyId ++ "', which is not in the ring"
  | None => match password with
            | Some _ => "neither the ring nor the viewing key opens it"
            | None => "the ring does not open it and no viewing key is at hand"
            end
  end.

Definition error_of {A} (o : outcome A) : option exn := match o with Ret _ => None | Throw e => Some e end.
Definition ok_of {A} (o : outcome A) : option A := match o with Ret a => Some a | Throw _ => None end.

Definition open_row (a : ResolveArgs) (wrapped : string) (vk : option string) : outcome Opened :=
  let password := present (ra_storagePassword a) in
  let viaRing := unwrapDek wrapped (ra_ring a) (ra_accountId a) in
  _ ← (match error_of viaRing with Some e => if is_unbound e then Throw e else Ret tt | None => Ret tt end);
  let viaVk := p ← password; v ← present vk; Some (openDekByViewingKey v p (ra_ring a) (ra_accountId a)) in
  _ ← (match viaVk ≫= error_of with Some e => if is_unbound e then Throw e else Ret tt | None => Ret tt end);
  let vkUnknownKey := match viaVk ≫= error_of with Some e => is_unknown_key e | None => false end in
  let vkOpens := match viaVk with
                 | None => None
                 | Some (Ret d) => Some (match viaRing with Ret d' => bool_decide (d = d') | Throw _ => true end)
                 | Some (Throw e) => if is_unknown_key e then None else Some false
                 end in
  match (match ok_of viaRing with Some d => Some d | None => viaVk ≫= ok_of end) with
  | None => Throw (AccountDekUnavailableError (ra_accountId a) (missing_reason wrapped (present vk) (error_of viaRing) (viaVk ≫= error_of) password))
  | Some dek =>
      if bool_decide (vkOpens = Some false) then Throw (AccountDekUnavailableError (ra_accountId a) "the viewing key does not match the account key")
      else Ret (MkOpened dek (match viaRing with Throw _ => true | Ret _ => false end) vkUnknownKey)
  end.

(** The columns to write: [set.wrappedDek] and [set.wrappedDekByViewingKey]. *)
Definition rewrapped (n : nat) (a : ResolveArgs) (wrapped : string) (vk : option string) (o : Opened) : outcome (option string * option string) :=
  let ring := ra_ring a in
  '(version, keyId) ← inspectCiphertext wrapped;
  w ← (if negb (bool_decide (keyId = kr_activeId ring)) || negb (bool_decide (version = 3%Z)) || op_ringFailed o
       then Some <$> wrapDek n (op_dek o) ring (ra_accountId a) else Ret None);
  v ← (match present (ra_storagePassword a), present vk with
       | Some p, None => Some <$> sealDekByViewingKey (n + 3) (op_dek o) p ring (ra_accountId a)
       | _, Some v =>
           if isBareViewingKeySeal v then Some <$> encrypt (n + 3) v ring (Some (accountDekViewingKeySealBinding (ra_accountId a)))
           else if op_vkUnknownKey o then Ret None
           else
             '(_, sealedBy) ← inspectCiphertext v;
             if bool_decide (sealedBy = kr_activeId ring) then Ret None
             else
               inner ← decrypt v ring (Some (accountDekViewingKeySealBinding (ra_accountId a))) acceptUnbound;
               Some <$> encrypt (n + 3) inner ring (Some (accountDekViewingKeySealBinding (ra_accountId a)))
       | None, None => Ret None
       end);
  Ret (w, v).

Definition apply_set (now : Z) (set_ : option string * option string) (r : AccountKeyRow) : AccountKeyRow :=
  MkAccountKey (match set_.1 with Some w => Some w | None => ak_wrappedDek r end)
    (match set_.2 with Some v => Some v | None => ak_wrappedDekByViewingKey r end) (ak_createdAt r) (Some now).

Abbreviation program := (prog KeyStore).

Definition select_row (accountId : string) : program (option AccountKeyRow) :=
  db_stmt (λ _ s, (Ret (st_accountKeys s !! accountId), s)).

Definition update_row (accountId : string) (set_ : option string * option string) : program unit :=
  db_stmt (λ now s, (Ret tt, with_key_rows (sql_update_key accountId (λ _, true) (apply_set now set_) (st_accountKeys s)).1 s)).

Definition insert_key_row (accountId wrapped vk : string) : program unit :=
  db_stmt (λ now s, match st_accountKeys s !! accountId with
                    | Some _ => (Throw unique_violation, s)
                    | None => (Ret tt, with_key_rows (<[accountId := MkAccountKey (Some wrapped) (Some vk) now None]> (st_accountKeys s)) s)
                    end).

(** [n] draws of random bytes. *)
Definition draw (n : nat) : program nat := local (λ s, (Ret (st_draws s), with_draws (st_draws s + n) s)).

Definition storeDek (a : ResolveArgs) (dek : list Z) (token : nat) : program unit :=
  local (λ s, (Ret tt,
    if bool_decide (st_inflight s !! (ra_process a, ra_accountId a) = Some token)
    then with_cache (<[(ra_process a, ra_accountId a) :=
           MkCached dek (kr_activeId (ra_ring a)) (passwordHash <$> present (ra_storagePassword a))]> (st_cache s)) s
    else s)).

Definition lift_prog {A} (o : outcome A) : program A := Done o.

(** The row is there: the data key it holds, its copies renewed. *)
Definition resolve_row (a : ResolveArgs) (token : nat) (wrapped : string) (vk : option string) : program Dek :=
  o ← lift_prog (open_row a wrapped vk);
  n ← draw 7;
  set_ ← lift_prog (rewrapped n a wrapped vk o);
  _ ← (if bool_decide (set_ = (None, None)) || ra_readOnly a then mret tt else update_row (ra_accountId a) set_);
  _ ← storeDek a (op_dek o) token;
  mret (Some (op_dek o)).

Definition present_row (row : option AccountKeyRow) : option (string * option string) :=
  r ← row; w ← present (ak_wrappedDek r); Some (w, ak_wrappedDekByViewingKey r).

(** [deeper] is what more than [fuel] levels of recursion would do. *)
Fixpoint resolveUncached (deeper : program Dek) (fuel : nat) (a : ResolveArgs) (token : nat) : program Dek :=
  match fuel with
  | O => deeper
  | S fuel' =>
      row ← select_row (ra_accountId a);
      match present_row row with
      | Some (wrapped, vk) => resolve_row a token wrapped vk
      | None =>
          match ra_create a, present (ra_storagePassword a) with
          | true, Some p =>
              n ← draw 8;
              let dek := randomBytes n DEK_LENGTH in
              lost ← catching
                (wrapped ← lift_prog (wrapDek (n + 1) dek (ra_ring a) (ra_accountId a));
                 vk ← lift_prog (sealDekByViewingKey (n + 4) dek p (ra_ring a) (ra_accountId a));
                 _ ← insert_key_row (ra_accountId a) wrapped vk; mret false)
                (λ err, again ← select_row (ra_accountId a);
                        match present_row again with None => raise err | Some _ => mret true end);
              if lost : bool then resolveUncached deeper fuel' a token
              else _ ← storeDek a dek token; mret (Some dek)
          | _, _ => mret None
          end
      end
  end.

(** How a lookup starts, before its first wait. *)
Inductive Entry := Hit (o : outcome Dek) | Join (token : nat) | Lead (token : nat).

Definition enter (a : ResolveArgs) : M KeyStore Entry := λ s,
  let at_ := (ra_process a, ra_accountId a) in
  let start :=
    match st_inflight s !! at_ with
    | Some token => (Ret (Join token), s)
    | None => (Ret (Lead (st_draws s)), with_draws (S (st_draws s)) (with_inflight (<[at_ := st_draws s]> (st_inflight s)) s))
    end in
  match st_cache s !! at_ with
  | Some c =>
      if bool_decide (cd_keyId c = kr_activeId (ra_ring a)) then
        match present (ra_storagePassword a), present (cd_passwordHash c) with
        | Some p, Some h =>
            if bool_decide (h = passwordHash p) then (Ret (Hit (Ret (Some (cd_dek c)))), s)
            else (Ret (Hit (Throw (AccountDekUnavailableError (ra_accountId a) "the viewing key does not match the account key"))), s)
        | _, _ => (Ret (Hit (Ret (Some (cd_dek c)))), s)
        end
      else start
  | None => start
  end.

(** The lookup has ended: whoever waits for it goes on. *)
Definition settle (a : ResolveArgs) (token : nat) (o : outcome Dek) : program unit :=
  local (λ s,
    let at_ := (ra_process a, ra_accountId a) in
    (Ret tt, with_settled (<[(ra_accountId a, token) := o]> (st_settled s))
       (if bool_decide (st_inflight s !! at_ = Some token) then with_inflight (delete at_ (st_inflight s)) s else s))).

Definition settled (a : ResolveArgs) (token : nat) (s : KeyStore) : bool := bool_decide (is_Some (st_settled s !! (ra_accountId a, token))).

(** The promise of a lookup that has ended; before that, nobody asks. *)
Definition result_of (a : ResolveArgs) (token : nat) (s : KeyStore) : outcome Dek :=
  match st_settled s !! (ra_accountId a, token) with Some o => o | None => Ret None end.

(** An insert that lost the race reads the row that won: two levels. *)
Definition resolveAccountDek (deeper : program Dek) (a : ResolveArgs) : program Dek :=
  entry ← local (enter a);
  match entry with
  | Hit o => lift_prog o
  | Join token => blocking (settled a token) (λ s, (result_of a token s, s))
  | Lead token =>
      dek ← catching (resolveUncached deeper 2 a token) (λ e, _ ← settle a token (Throw e); raise e);
      _ ← settle a token (Ret dek); mret dek
  end.

Definition evictAccountDek (process : nat) (accountId : string) : program Dek :=
  local (λ s, (Ret None, with_inflight (delete (process, accountId) (st_inflight s)) (with_cache (delete (process, accountId) (st_cache s)) s))).

Definition clearAllAccountDeks (process : nat) : program Dek :=
  local (λ s, (Ret None, with_inflight (filter (λ kv, kv.1.1 ≠ process) (st_inflight s))
                           (with_cache (filter (λ kv, kv.1.1 ≠ process) (st_cache s)) s))).
End Keys.

(** ** The copies of a row *)

Section Facts.
Context `{GcmLaws, RandomLaws, Hashes} (acceptUnbound : bool).

Lemma vk_version_colon : all_chars (not_char ":") VK_SEAL_VERSION = true.
Proof. done. Qed.

Lemma seal_parts n dek p : split_on ":" (sealDekByStoragePassword n dek p) =
  [VK_SEAL_VERSION; base64 (randomBytes n 12); base64 (gcm_seal (vkSealKey p) (randomBytes n 12) dek (utf8 VK_SEAL_VERSION)).2;
   base64 (gcm_seal (vkSealKey p) (randomBytes n 12) dek (utf8 VK_SEAL_VERSION)).1].
Proof. apply split_join; [done|]. repeat constructor; apply base64_colon. Qed.

Lemma seal_opens n dek p : length dek = DEK_LENGTH → Forall is_byte dek →
  openDekByStoragePassword (sealDekByStoragePassword n dek p) p = Ret dek.
Proof.
  intros Hl Hb. unfold openDekByStoragePassword. rewrite seal_parts, bool_decide_eq_true_2 by done.
  rewrite !base64_reads by (apply random_bytes || apply gcm_tag_bytes || by apply gcm_data_bytes).
  rewrite gcm_tag_length. change (negb (AUTH_TAG_LENGTH =? 16)%nat) with false. cbv iota. rewrite gcm_opens. unfold checked_length. by rewrite Hl.
Qed.

Lemma starts_with_app p s : starts_with p (p ++ s)%string = true.
Proof. induction p as [|a p IH]; [done|]. change (Ascii.eqb a a && starts_with p (p ++ s)%string = true). by rewrite Ascii.eqb_refl. Qed.

Lemma seal_bare n dek p : isBareViewingKeySeal (sealDekByStoragePassword n dek p) = true.
Proof. apply (starts_with_app "vk1:"). Qed.

Lemma encrypt_not_bare n p ring b c : KEY_ID_PATTERN (kr_activeId ring) = true → encrypt n p ring (Some b) = Ret c → isBareViewingKeySeal c = false.
Proof. intros Hk Henc. apply encrypt_parts in Henc as (_ & kek & _ & -> & _); [|done]. reflexivity. Qed.

Lemma encrypt_present n p ring b c : KEY_ID_PATTERN (kr_activeId ring) = true → encrypt n p ring (Some b) = Ret c → present (Some c) = Some c.
Proof. intros Hk Henc. apply encrypt_parts in Henc as (_ & kek & _ & -> & _); [|done]. reflexivity. Qed.

(** The rings in use, and the storage password of each account. *)
Variable rings : list KeyRing.
Variable password : string → string.
Hypothesis rings_ok : Forall ring_ok rings.
Hypothesis rings_agree : ∀ r r', r ∈ rings → r' ∈ rings → agree r r'.

(** [w] is [dek] sealed under a ring in use. *)
Definition sealed_by_ring (acc : string) (dek : list Z) (w : string) : Prop :=
  ∃ n r, r ∈ rings ∧ wrapDek n dek r acc = Ret w.

(** [v] is [dek] sealed under the account's password, and possibly under a ring. *)
Definition sealed_by_password (acc : string) (dek : list Z) (v : string) : Prop :=
  ∃ m, let inner := sealDekByStoragePassword m dek (password acc) in
  v = inner ∨ ∃ n r, r ∈ rings ∧ encrypt n inner r (Some (accountDekViewingKeySealBinding acc)) = Ret v.

Record holds (acc : string) (dek : list Z) (row : AccountKeyRow) : Prop := {
  ho_length : length dek = DEK_LENGTH;
  ho_bytes : Forall is_byte dek;
  ho_wrapped : ∃ w, ak_wrappedDek row = Some w ∧ sealed_by_ring acc dek w;
  ho_vk : ∀ v, ak_wrappedDekByViewingKey row = Some v → sealed_by_password acc dek v }.

Lemma ring_in r : r ∈ rings → KEY_ID_PATTERN (kr_activeId r) = true.
Proof. intros Hr. by destruct (proj1 (Forall_forall _ _) rings_ok _ Hr). Qed.

Lemma unwrap_sealed acc dek w r : length dek = DEK_LENGTH → Forall is_byte dek → sealed_by_ring acc dek w → r ∈ rings →
  unwrapDek acceptUnbound w r acc = Ret dek ∨ ∃ id, unwrapDek acceptUnbound w r acc = Throw (UnknownEncryptionKeyError id).
Proof.
  intros Hl Hb (n & r0 & Hr0 & Hw) Hr. unfold unwrapDek.
  destruct (decrypt_encrypt_cases _ _ _ _ _ r acceptUnbound (ring_in _ Hr0) (rings_agree _ _ Hr0 Hr) Hw) as [-> | ->]; [left|right; by eexists].
  cbn. unfold checked_length. by rewrite hex_roundtrip, Hl.
Qed.

(** A row holds one data key. *)
Lemma sealed_once acc d d' w : Forall is_byte d → Forall is_byte d' → sealed_by_ring acc d w → sealed_by_ring acc d' w → d = d'.
Proof.
  intros Hb Hb' (n & r & Hr & Hw) (n' & r' & Hr' & Hw').
  pose proof (inspect_encrypt _ _ _ _ _ (ring_in _ Hr) Hw) as Hi. pose proof (inspect_encrypt _ _ _ _ _ (ring_in _ Hr') Hw') as Hi'.
  rewrite Hi in Hi'. injection Hi' as Hid.
  assert (decrypt w r (Some (accountDekBinding acc)) true = Ret (to_hex d)) as H4 by (exact (decrypt_encrypt _ _ _ _ _ _ _ (ring_in _ Hr) Hw eq_refl)).
  assert (decrypt w r (Some (accountDekBinding acc)) true = Ret (to_hex d')) as H5.
  { apply (decrypt_encrypt _ _ _ _ _ _ _ (ring_in _ Hr') Hw'). pose proof (encrypt_parts _ _ _ _ _ (ring_in _ Hr) Hw) as (_ & k & Hk & _).
    pose proof (encrypt_parts _ _ _ _ _ (ring_in _ Hr') Hw') as (_ & k' & Hk' & _). rewrite <- Hid in Hk' |- *. rewrite Hk, Hk'. f_equal. exact (rings_agree _ _ Hr Hr' _ _ _ Hk Hk'). }
  rewrite H4 in H5. injection H5 as H5. apply (f_equal hex_bytes) in H5. by rewrite !hex_roundtrip in H5.
Qed.

Definition legal (a : ResolveArgs) : Prop :=
  ra_ring a ∈ rings ∧ ∀ p, present (ra_storagePassword a) = Some p → p = password (ra_accountId a).

(** The layer of the ring comes off, or a key of it is missing. *)
Lemma sealed_inner acc dek v r : sealed_by_password acc dek v → r ∈ rings →
  (∃ m, (if isBareViewingKeySeal v then Ret v else decrypt v r (Some (accountDekViewingKeySealBinding acc)) acceptUnbound) =
     Ret (sealDekByStoragePassword m dek (password acc))) ∨
  isBareViewingKeySeal v = false ∧ ∃ id, decrypt v r (Some (accountDekViewingKeySealBinding acc)) acceptUnbound = Throw (UnknownEncryptionKeyError id).
Proof.
  intros (m & [->|(n & r0 & Hr0 & Henc)]) Hr; [rewrite seal_bare; left; by eexists|].
  rewrite (encrypt_not_bare _ _ _ _ _ (ring_in _ Hr0) Henc).
  destruct (decrypt_encrypt_cases _ _ _ _ _ r acceptUnbound (ring_in _ Hr0) (rings_agree _ _ Hr0 Hr) Henc) as [-> | ->]; [left|right]; eauto.
Qed.

Lemma open_sealed_vk acc dek v r : length dek = DEK_LENGTH → Forall is_byte dek → sealed_by_password acc dek v → r ∈ rings →
  openDekByViewingKey acceptUnbound v (password acc) r acc = Ret dek ∨
  ∃ id, openDekByViewingKey acceptUnbound v (password acc) r acc = Throw (UnknownEncryptionKeyError id).
Proof.
  intros Hl Hb Hv Hr. unfold openDekByViewingKey. destruct (sealed_inner _ _ _ _ Hv Hr) as [(m & ->)|(-> & id & ->)]; [left|right; by eexists].
  cbn. by apply seal_opens.
Qed.

(** Whatever of a row opens, opens to its data key. *)
Lemma open_row_holds a dek row w o : legal a → holds (ra_accountId a) dek row → ak_wrappedDek row = Some w →
  open_row acceptUnbound a w (ak_wrappedDekByViewingKey row) = Ret o → op_dek o = dek.
Proof.
  intros [Hr Hp] [Hl Hb (w' & Ew & Hw) Hv] Ew'. rewrite Ew in Ew'. injection Ew' as ->. unfold open_row.
  destruct (unwrap_sealed _ _ _ (ra_ring a) Hl Hb Hw Hr) as [-> | (id & ->)].
  - intros Ho. cbn [error_of ok_of mbind outcome_bind] in Ho. apply outcome_bind_ret in Ho as (_ & _ & Ho). case_bool_decide; [done|]. by injection Ho as <-.
  - intros Ho. cbn [error_of ok_of mbind outcome_bind] in Ho. change (is_unbound (UnknownEncryptionKeyError id)) with false in Ho. cbn [mbind outcome_bind] in Ho.
    destruct (present (ra_storagePassword a)) as [p|] eqn:Ep; [|by cbn in Ho].
    destruct (present (ak_wrappedDekByViewingKey row)) as [v|] eqn:Ev; [|by cbn in Ho]. apply present_Some in Ev as [Ev _].
    pose proof (Hp _ eq_refl) as ->. cbn in Ho.
    destruct (open_sealed_vk _ _ _ (ra_ring a) Hl Hb (Hv _ Ev) Hr) as [E|(id' & E)]; rewrite E in Ho; cbn in Ho; [by injection Ho as <-|done].
Qed.

(** What is written in its place holds the same data key. *)
Lemma rewrapped_holds a n dek row row' w o set_ now : legal a → holds (ra_accountId a) dek row → holds (ra_accountId a) dek row' →
  op_dek o = dek → rewrapped acceptUnbound n a w (ak_wrappedDekByViewingKey row) o = Ret set_ →
  holds (ra_accountId a) dek (apply_set now set_ row').
Proof.
  intros [Hr Hp] [_ _ _ Hv] [Hl Hb Hw' Hv'] Ho Hset. unfold rewrapped in Hset.
  apply outcome_bind_ret in Hset as ([ver keyId] & _ & Hset). apply outcome_bind_ret in Hset as (sw & Hsw & Hset).
  apply outcome_bind_ret in Hset as (sv & Hsv & [= <-]).
  assert (∀ w', sw = Some w' → sealed_by_ring (ra_accountId a) dek w') as Hw.
  { intros w' ->. destruct (_ || _ || _); [|done]. destruct (wrapDek n (op_dek o) (ra_ring a) (ra_accountId a)) as [x|] eqn:E; [|done].
    injection Hsw as ->. rewrite Ho in E. by exists n, (ra_ring a). }
  assert (∀ v', sv = Some v' → sealed_by_password (ra_accountId a) dek v') as Hvs.
  { intros v' ->. clear Hsw Hw.
    assert (∀ m k x, encrypt k (sealDekByStoragePassword m dek (password (ra_accountId a))) (ra_ring a)
      (Some (accountDekViewingKeySealBinding (ra_accountId a))) = Ret x → sealed_by_password (ra_accountId a) dek x) as Hnew.
    { intros m k x Hx. exists m. right. by exists k, (ra_ring a). }
    assert (∀ (x : outcome string), Some <$> x = Ret (Some v') → x = Ret v') as Hinv by (intros [x|]; [by intros [= ->]|done]).
    destruct (present (ak_wrappedDekByViewingKey row)) as [v|] eqn:Ev.
    - apply present_Some in Ev as [Ev _]. pose proof (sealed_inner _ _ _ (ra_ring a) (Hv _ Ev) Hr) as Hin.
      assert (∀ b, (if isBareViewingKeySeal v then Some <$> encrypt (n + 3) v (ra_ring a) (Some (accountDekViewingKeySealBinding (ra_accountId a)))
                else b) = Ret (Some v') → isBareViewingKeySeal v = false → b = Ret (Some v')) as Hskip by (intros b Hb0 Hbare; by rewrite Hbare in Hb0).
      assert ((if isBareViewingKeySeal v then Some <$> encrypt (n + 3) v (ra_ring a) (Some (accountDekViewingKeySealBinding (ra_accountId a)))
               else if op_vkUnknownKey o then Ret None else
                 '(_, sealedBy) ← inspectCiphertext v;
                 if bool_decide (sealedBy = kr_activeId (ra_ring a)) then Ret None
                 else inner ← decrypt v (ra_ring a) (Some (accountDekViewingKeySealBinding (ra_accountId a))) acceptUnbound;
                      Some <$> encrypt (n + 3) inner (ra_ring a) (Some (accountDekViewingKeySealBinding (ra_accountId a)))) = Ret (Some v')) as Hsv'
        by (by destruct (present (ra_storagePassword a))). clear Hsv.
      destruct (isBareViewingKeySeal v) eqn:Eb.
      + destruct Hin as [(m & [= ->])|[? _]]; [|done]. apply Hinv in Hsv'. by eapply Hnew.
      + destruct (op_vkUnknownKey o); [done|]. apply outcome_bind_ret in Hsv' as ([? sb] & _ & Hx). case_bool_decide; [done|].
        apply outcome_bind_ret in Hx as (inner & Hd & Hx). destruct Hin as [(m & Hm)|(_ & id & Hm)]; [|congruence].
        rewrite Hm in Hd. injection Hd as <-. apply Hinv in Hx. by eapply Hnew.
    - destruct (present (ra_storagePassword a)) as [p|] eqn:Ep; [|done]. apply Hinv in Hsv. rewrite (Hp _ eq_refl), Ho in Hsv. by eapply Hnew. }
  split; [done|done| |].
  - cbn. destruct sw as [w'|]; [exists w'; auto|done].
  - cbn. destruct sv as [v'|]; [|done]. intros v [= <-]. auto.
Qed.
(** ** Lookups beside one another *)

(** What a running lookup knows: the account holds the data key. *)
Abbreviation known := (string * list Z)%type.

Definition has_key (s : KeyStore) (k : known) : Prop := ∃ row, st_accountKeys s !! k.1 = Some row ∧ holds k.1 k.2 row.

Record sound (s : KeyStore) (l : list known) : Prop := {
  so_rows : ∀ acc row, st_accountKeys s !! acc = Some row → ∃ dek, holds acc dek row;
  so_cache : ∀ pr acc c, st_cache s !! (pr, acc) = Some c → has_key s (acc, cd_dek c);
  so_settled : ∀ acc t dek, st_settled s !! (acc, t) = Some (Ret (Some dek)) → has_key s (acc, dek);
  so_known : ∀ k, k ∈ l → has_key s k }.

Lemma sound_perm s l l' : l ≡ₚ l' → sound s l → sound s l'.
Proof. intros Hp [R C S K]. split; [done..|]. intros k. rewrite <- Hp. apply K. Qed.

(** Keys stay, and one more may be known. *)
Lemma sound_step s s' own own' env : sound s (own ++ env) → (∀ k, has_key s k → has_key s' k) →
  (∀ acc row, st_accountKeys s' !! acc = Some row → ∃ dek, holds acc dek row) →
  (∀ pr acc c, st_cache s' !! (pr, acc) = Some c → has_key s' (acc, cd_dek c)) →
  (∀ acc t dek, st_settled s' !! (acc, t) = Some (Ret (Some dek)) → has_key s' (acc, dek)) →
  (∀ k, k ∈ own' → has_key s' k) → sound s' (own' ++ env).
Proof.
  intros [R C S K] Hk HR HC HS HO. split; [done..|]. intros k [Hin|Hin]%elem_of_app; [by apply HO|apply Hk, K, elem_of_app; by right].
Qed.

Lemma sound_same s s' own own' env : sound s (own ++ env) → st_accountKeys s' = st_accountKeys s →
  (∀ pr acc c, st_cache s' !! (pr, acc) = Some c → has_key s (acc, cd_dek c)) →
  (∀ acc t dek, st_settled s' !! (acc, t) = Some (Ret (Some dek)) → has_key s (acc, dek)) →
  (∀ k, k ∈ own' → has_key s k) → sound s' (own' ++ env).
Proof.
  intros Hs E HC HS HO. pose proof Hs as [R C S K].
  assert (∀ k, has_key s k → has_key s' k) as Hk by (intros k; unfold has_key; by rewrite E).
  eapply sound_step; [exact Hs|done|by rewrite E|eauto..].
Qed.

Lemma sound_grow s own own' env : sound s (own ++ env) → (∀ k, k ∈ own' → has_key s k) → sound s (own' ++ env).
Proof. intros Hs. pose proof Hs as [R C S K]. by apply sound_same with (s := s) (own := own). Qed.

Variable faults : bool.
Abbreviation safe := (keeps sound faults).

Definition answers (acc : string) (o : outcome Dek) (own : list known) : Prop :=
  match o with Ret (Some dek) => (acc, dek) ∈ own | _ => True end.

Lemma safe_lift {A B} (o : outcome A) (k : A → prog KeyStore B) (Q : outcome B → list known → Prop) own :
  (∀ a, o = Ret a → safe Q own (k a)) → (∀ e, Q (Throw e) own) → safe Q own (lift_prog o ≫= k).
Proof. intros Hk He. destruct o as [a|e]; [by apply Hk|apply He]. Qed.

Lemma safe_draw n own (Q : outcome nat → list known → Prop) : (∀ k, Q (Ret k) own) → safe Q own (draw n).
Proof.
  intros HQ. apply keeps_stmt; [|done]. intros now s env o s' Hs _ [= <- <-]. exists own. split; [|done].
  pose proof Hs as [R C S K]. eapply sound_same; [exact Hs|done..|]. intros k Hk. apply K, elem_of_app. by left.
Qed.

Lemma safe_select acc own (Q : outcome (option AccountKeyRow) → list known → Prop) :
  Q (Ret None) own → (∀ row dek, holds acc dek row → Q (Ret (Some row)) ((acc, dek) :: own)) →
  (∀ e, Q (Throw e) own) → safe Q own (select_row acc).
Proof.
  intros Hnone Hsome He. apply keeps_stmt; [|done]. intros now s env o s' Hs _ [= <- <-]. pose proof Hs as [R C S K].
  destruct (st_accountKeys s !! acc) as [row|] eqn:E; [|by exists own]. destruct (R _ _ E) as (dek & Hd). exists ((acc, dek) :: own). split; [|by apply Hsome].
  eapply sound_grow; [exact Hs|]. intros k [->|Hk]%elem_of_cons; [by exists row|]. apply K, elem_of_app. by left.
Qed.

Lemma safe_update a dek own set_ : (ra_accountId a, dek) ∈ own →
  (∀ row now, holds (ra_accountId a) dek row → holds (ra_accountId a) dek (apply_set now set_ row)) →
  safe (λ _ l, l = own) own (update_row (ra_accountId a) set_).
Proof.
  intros Hin Hset. apply keeps_stmt; [|done]. intros now s env o s' Hs _ [= <- <-]. exists own. split; [|done]. pose proof Hs as [R C S K].
  destruct (K (ra_accountId a, dek)) as (row & Hrow & Hh); [apply elem_of_app; by left|]. simpl in Hrow, Hh. unfold sql_update_key. rewrite Hrow. cbn [fst].
  assert (∀ k, has_key s k → has_key (with_key_rows (<[ra_accountId a:=apply_set now set_ row]> (st_accountKeys s)) s) k) as Hk.
  { intros [acc d] (r & Hr & Hd). simpl in Hr, Hd. destruct (decide (acc = ra_accountId a)) as [->|Hne].
    - eexists. simpl. split; [apply lookup_insert_eq|]. rewrite Hrow in Hr. injection Hr as <-.
      destruct Hd as [Hl Hb (w & Ew & Hw) _]. pose proof Hh as [_ Hb' (w' & Ew' & Hw') _]. rewrite Ew in Ew'. injection Ew' as <-.
      rewrite (sealed_once _ _ _ _ Hb Hb' Hw Hw'). auto.
    - exists r. simpl. by rewrite lookup_insert_ne by congruence. }
  eapply sound_step; [exact Hs|done| |intros; eapply Hk, C; done|intros; eapply Hk, S; done|intros k Hk'; apply Hk, K, elem_of_app; by left].
  intros acc r. simpl. intros [[<- <-]|[_ Hr]]%lookup_insert_Some; [eauto|by eapply R].
Qed.
Lemma safe_insert acc dek w v own : holds acc dek (MkAccountKey (Some w) (Some v) 0 None) →
  safe (λ o l, match o with Ret _ => l = (acc, dek) :: own | Throw _ => l = own end) own (insert_key_row acc w v).
Proof.
  intros Hh. apply keeps_stmt; [|done]. intros now s env o s' Hs _ Em. pose proof Hs as [R C S K].
  destruct (st_accountKeys s !! acc) as [row|] eqn:E; injection Em as <- <-; [by exists own|]. exists ((acc, dek) :: own). split; [|done].
  assert (holds acc dek (MkAccountKey (Some w) (Some v) now None)) as Hh' by (by destruct Hh).
  assert (∀ k, has_key s k → has_key (with_key_rows (<[acc:=MkAccountKey (Some w) (Some v) now None]> (st_accountKeys s)) s) k) as Hk.
  { intros [acc' d] (r & Hr & Hd). simpl in Hr, Hd. exists r. simpl. rewrite lookup_insert_ne by congruence. done. }
  eapply sound_step; [exact Hs|done| |intros; eapply Hk, C; done|intros; eapply Hk, S; done|].
  - intros acc' r. simpl. intros [[<- <-]|[_ Hr]]%lookup_insert_Some; [eauto|by eapply R].
  - intros k [->|Hin]%elem_of_cons; [|apply Hk, K, elem_of_app; by left]. eexists. simpl. split; [apply lookup_insert_eq|done].
Qed.

Lemma safe_store a dek token own : (ra_accountId a, dek) ∈ own → safe (λ _ l, l = own) own (storeDek a dek token).
Proof.
  intros Hin. apply keeps_stmt; [|done]. intros now s env o s' Hs _ [= <- <-]. exists own. split; [|done]. pose proof Hs as [R C S K].
  assert (∀ k, k ∈ own → has_key s k) as Ho by (intros k Hk; apply K, elem_of_app; by left).
  case_bool_decide; [|by eapply sound_same]. eapply sound_same; [exact Hs|done| |done|done].
  intros pr acc c. simpl. intros [[[= <- <-] <-]|[_ Hc]]%lookup_insert_Some; [by apply Ho|by eapply C].
Qed.

Lemma safe_settle a token o own : answers (ra_accountId a) o own → safe (λ _ l, l = own) own (settle a token o).
Proof.
  intros Hans. apply keeps_stmt; [|done]. intros now s env o' s' Hs _ [= <- <-]. exists own. split; [|done]. pose proof Hs as [R C S K].
  assert (∀ k, k ∈ own → has_key s k) as Ho by (intros k Hk; apply K, elem_of_app; by left).
  eapply sound_same; [exact Hs|by case_bool_decide| | |done].
  - intros pr acc c. assert (∀ x, st_cache (with_settled x (if bool_decide (st_inflight s !! (ra_process a, ra_accountId a) = Some token)
      then with_inflight (delete (ra_process a, ra_accountId a) (st_inflight s)) s else s)) = st_cache s) as -> by (intros x; by case_bool_decide). apply C.
  - intros acc t d. simpl. intros [[[= <- <-] ->]|[_ Hd]]%lookup_insert_Some; [by apply Ho|by eapply S].
Qed.

(** A row that is there answers with the data key it holds. *)
Lemma safe_resolve_row a token row w dek own : legal a → holds (ra_accountId a) dek row → present (ak_wrappedDek row) = Some w →
  (ra_accountId a, dek) ∈ own → safe (answers (ra_accountId a)) own (resolve_row acceptUnbound a token w (ak_wrappedDekByViewingKey row)).
Proof.
  intros Ha Hh Hw Hin. unfold resolve_row. apply present_Some in Hw as [Hw _].
  apply safe_lift; [intros o Eo|done].
  pose proof (open_row_holds _ _ _ _ _ Ha Hh Hw Eo) as <-. apply keeps_bind with (Q := λ o' l, (∃ n, o' = Ret n) ∧ l = own).
  - apply safe_draw. eauto.
  - intros n l [_ ->]. apply safe_lift; [intros set_ Es|done].
    apply keeps_bind with (Q := λ _ l, l = own); [|intros [] l ->|done].
    + destruct (_ || _); [done|]. apply safe_update with (dek := op_dek o); [done|]. intros row' now Hrow'. exact (rewrapped_holds a n (op_dek o) row row' w o set_ now Ha Hh Hrow' eq_refl Es).
    + eapply keeps_bind; [by apply (safe_store a (op_dek o))|intros [] l ->; exact Hin|done].
  - done.
Qed.

Lemma holds_present acc dek row : holds acc dek row → ∃ w, present (ak_wrappedDek row) = Some w ∧ present_row (Some row) = Some (w, ak_wrappedDekByViewingKey row).
Proof.
  intros [_ _ (w & Ew & n & r & Hr & Hw) _]. exists w.
  pose proof (encrypt_present _ _ _ _ _ (ring_in _ Hr) Hw) as Hp. rewrite Ew. split; [done|]. unfold present_row. cbn [mbind option_bind]. by rewrite Ew, Hp.
Qed.

(** What a lookup that knows of the row does. *)
Lemma safe_known deeper fuel a token dek own : legal a → (ra_accountId a, dek) ∈ own →
  safe (answers (ra_accountId a)) own (resolveUncached acceptUnbound deeper (S fuel) a token).
Proof.
  intros Ha Hin. cbn [resolveUncached]. eapply keeps_bind with
    (Q := λ o l, match o with Ret row => ∃ r d, row = Some r ∧ holds (ra_accountId a) d r ∧ (ra_accountId a, d) ∈ l | Throw _ => True end).
  - apply keeps_stmt; [|done]. intros now s env o s' Hs _ [= <- <-]. pose proof Hs as [R C S K].
    destruct (K (ra_accountId a, dek)) as (row & Hrow & Hh); [apply elem_of_app; by left|]. simpl in Hrow, Hh. exists own. split; [done|]. rewrite Hrow. eauto.
  - intros row l (r & d & -> & Hh & Hd). destruct (holds_present _ _ _ Hh) as (w & Hw & ->). by eapply safe_resolve_row.
  - done.
Qed.

Lemma new_row_holds n a p w v : legal a → present (ra_storagePassword a) = Some p →
  wrapDek (n + 1) (randomBytes n DEK_LENGTH) (ra_ring a) (ra_accountId a) = Ret w →
  sealDekByViewingKey (n + 4) (randomBytes n DEK_LENGTH) p (ra_ring a) (ra_accountId a) = Ret v →
  holds (ra_accountId a) (randomBytes n DEK_LENGTH) (MkAccountKey (Some w) (Some v) 0 None).
Proof.
  intros [Hr Hp] Ep Hw Hv. apply Hp in Ep as ->. split; [apply random_length|apply random_bytes|exists w|intros v' [= <-]].
  - split; [done|]. by exists (n + 1), (ra_ring a).
  - exists (n + 4). right. by exists (n + 4 + 1), (ra_ring a).
Qed.

Lemma safe_uncached deeper a token own : legal a → safe (answers (ra_accountId a)) own (resolveUncached acceptUnbound deeper 2 a token).
Proof.
  intros Ha. remember 1 as one eqn:E1. cbn [resolveUncached].
  apply keeps_bind with (Q := λ o l, match o with Ret (Some row) => ∃ d, holds (ra_accountId a) d row ∧ (ra_accountId a, d) ∈ l | _ => True end);
    [apply safe_select; [done| |done]; intros row d Hd; exists d; split; [done|by left]| |done].
  intros [row|] l Hl.
  { destruct Hl as (d & Hd & Hin). destruct (holds_present _ _ _ Hd) as (w & Hw & ->). by eapply safe_resolve_row. }
  cbn [present_row mbind option_bind]. destruct (ra_create a), (present (ra_storagePassword a)) as [p|] eqn:Ep; try done.
  apply keeps_bind with (Q := λ o l', True); [by apply safe_draw| |done]. intros n l' _. clear Hl l own. rename l' into own.
  apply keeps_bind with (Q := λ o l, match o with Ret lost => ∃ d, (ra_accountId a, d) ∈ l ∧ (lost = false → d = randomBytes n DEK_LENGTH) | Throw _ => True end).
  - apply keeps_catching with (Q := λ o l, match o with Ret lost => lost = false ∧ (ra_accountId a, randomBytes n DEK_LENGTH) ∈ l | Throw _ => True end);
      [| |intros lost l [-> Hin]; by eexists].
    + apply safe_lift; [intros w Ew|done]. apply safe_lift; [intros v Ev|done]. eapply keeps_bind; [by eapply safe_insert, new_row_holds| |done].
      intros [] l ->. split; [done|by left].
    + intros err l _. apply keeps_bind with (Q := λ o l, match o with Ret (Some row) => ∃ d, holds (ra_accountId a) d row ∧ (ra_accountId a, d) ∈ l | _ => True end);
        [apply safe_select; [done| |done]; intros row d Hd; exists d; split; [done|by left]| |done].
      intros [row|] l' Hl; [|done]. destruct Hl as (d & Hd & Hin). destruct (holds_present _ _ _ Hd) as (w & Hw & ->). exists d. split; [done|by intros [=]].
  - intros [] l (d & Hin & Hd); [subst one; by eapply safe_known|]. rewrite Hd in Hin by done.
    eapply keeps_bind; [by apply safe_store|intros [] l' ->; exact Hin|done].
  - done.
Qed.
Lemma safe_enter a own : safe (λ o l, match o with Ret (Hit r) => answers (ra_accountId a) r l | _ => True end) own (local (enter a)).
Proof.
  apply keeps_stmt; [|done]. intros now s env o s' Hs _ Em. pose proof Hs as [R C S K].
  assert (∀ k, k ∈ own → has_key s k) as Ho by (intros k Hk; apply K, elem_of_app; by left).
  assert (∀ o' s1, match st_inflight s !! (ra_process a, ra_accountId a) with
      | Some token => (Ret (Join token), s)
      | None => (Ret (Lead (st_draws s)), with_draws (Datatypes.S (st_draws s)) (with_inflight (<[(ra_process a, ra_accountId a) := st_draws s]> (st_inflight s)) s))
      end = (o', s1) →
      ∃ own', sound s1 (own' ++ env) ∧ match o' with Ret (Hit r) => answers (ra_accountId a) r own' | _ => True end) as Hstart.
  { intros o' s1 E. exists own. destruct (st_inflight s !! _); injection E as <- <-; (split; [|done]); [done|by eapply sound_same]. }
  unfold enter in Em. destruct (st_cache s !! _) as [c|] eqn:Ec; [|by apply Hstart]. case_bool_decide; [|by apply Hstart].
  assert (∃ own', sound s (own' ++ env) ∧ answers (ra_accountId a) (Ret (Some (cd_dek c))) own') as Hhit.
  { exists ((ra_accountId a, cd_dek c) :: own). split; [|by left]. eapply sound_grow; [exact Hs|]. intros k [->|Hk]%elem_of_cons; [by eapply C|by apply Ho]. }
  destruct (present (ra_storagePassword a)), (present (cd_passwordHash c)); [case_bool_decide|..]; injection Em as <- <-; try exact Hhit. by exists own.
Qed.

Lemma safe_resolve deeper a : legal a → safe (answers (ra_accountId a)) [] (resolveAccountDek acceptUnbound deeper a).
Proof.
  intros Ha. unfold resolveAccountDek. eapply keeps_bind; [apply safe_enter| |done]. intros [o|token|token] l Hl; [done| |].
  - apply keeps_stmt; [|done]. intros now s env o s' Hs Hg Em. injection Em as <- <-. pose proof Hs as [R C S K].
    unfold settled in Hg. apply bool_decide_eq_true_1 in Hg as [o Ho]. unfold result_of. rewrite Ho. destruct o as [[d|]|e]; [|by exists l..].
    exists ((ra_accountId a, d) :: l). split; [|by left]. eapply sound_grow; [exact Hs|].
    intros k [->|Hk]%elem_of_cons; [by eapply S|apply K, elem_of_app; by left].
  - eapply keeps_bind with (Q := answers (ra_accountId a)); [| |done].
    + eapply keeps_catching; [by apply safe_uncached| |by intros dek l'].
      intros e l' _. eapply keeps_bind; [by apply safe_settle|by intros [] l''|done].
    + intros dek l' Hd. eapply keeps_bind; [by apply safe_settle|by intros [] l'' ->|done].
Qed.

Lemma safe_evict_dek pr acc acc' : safe (answers acc') [] (evictAccountDek pr acc).
Proof.
  apply keeps_stmt; [|done]. intros now s env o s' Hs _ [= <- <-]. exists []. split; [|done]. pose proof Hs as [R C S K].
  eapply sound_same; [exact Hs|done| |done|by intros k Hk%elem_of_nil]. intros pr' acc'' c. simpl. intros [_ Hc]%lookup_delete_Some. by eapply C.
Qed.

Lemma safe_clear pr acc' : safe (answers acc') [] (clearAllAccountDeks pr).
Proof.
  apply keeps_stmt; [|done]. intros now s env o s' Hs _ [= <- <-]. exists []. split; [|done]. pose proof Hs as [R C S K].
  eapply sound_same; [exact Hs|done| |done|by intros k Hk%elem_of_nil]. intros pr' acc'' c. simpl. intros [Hc _]%map_lookup_filter_Some. by eapply C.
Qed.
End Facts.

(** ** The data key of an account never changes *)

(** What the processes do with the data keys. *)
Inductive Task := Resolve (a : ResolveArgs) | Evict (process : nat) (accountId : string) | ClearAll (process : nat).

Definition new_store : KeyStore := MkKeyStore ∅ ∅ ∅ ∅ 0.

Section Changes.
Context `{GcmLaws, RandomLaws, Hashes} (acceptUnbound : bool).

Definition run_task (deeper : prog KeyStore Dek) (t : Task) : prog KeyStore Dek :=
  match t with
  | Resolve a => resolveAccountDek acceptUnbound deeper a
  | Evict process accountId => evictAccountDek process accountId
  | ClearAll process => clearAllAccountDeks process
  end.

Definition legal_task (rings : list KeyRing) (password : string → string) (t : Task) : Prop :=
  match t with Resolve a => legal rings password a | _ => True end.

Definition task_account (t : Task) : string := match t with Resolve a => ra_accountId a | Evict _ acc => acc | ClearAll _ => EmptyString end.

(** C20. The data key of an account never changes. From an empty table on, processes
    with rings that agree look data keys up, create them when there is none, renew
    their sealed copies, share lookups under way and evict what they cache,
    interleaved at every statement, with failing statements: whatever data key two
    lookups of an account answer, it is the same one, and the table holds it, to be
    opened by every ring that has its key. Nothing runs deeper than two levels. *)
Theorem account_key_never_changes rings password faults deeper tasks s ps :
  Forall ring_ok rings → (∀ r r', r ∈ rings → r' ∈ rings → agree r r') → Forall (legal_task rings password) tasks →
  rtc (pool_step faults) (new_store, run_task deeper <$> tasks) (s, ps) →
  ∀ i a d, tasks !! i = Some (Resolve a) → ps !! i = Some (Done (Ret (Some d))) →
    (∃ row w, st_accountKeys s !! ra_accountId a = Some row ∧ ak_wrappedDek row = Some w ∧
       ∀ r, r ∈ rings → unwrapDek acceptUnbound w r (ra_accountId a) = Ret d ∨
                        ∃ id, unwrapDek acceptUnbound w r (ra_accountId a) = Throw (UnknownEncryptionKeyError id)) ∧
    ∀ j b d', tasks !! j = Some (Resolve b) → ps !! j = Some (Done (Ret (Some d'))) → ra_accountId b = ra_accountId a → d' = d.
Proof.
  intros Hok Hag Hlegal Hr i a d Hi Hd.
  assert (pool_keeps (sound rings password) faults (λ i o l, ∀ t, tasks !! i = Some t → answers (task_account t) o l) ((λ _, []) <$> tasks)
    (run_task deeper <$> tasks)) as Hpool.
  { split; [by rewrite !length_fmap|]. intros k own p. rewrite !list_lookup_fmap. destruct (tasks !! k) as [t|] eqn:Et; [|done]. intros [= <-] [= <-].
    eapply keeps_weaken with (Q := answers (task_account t)); [|by intros o l Ho t' [= <-]].
    pose proof (Forall_lookup_1 _ _ _ _ Hlegal Et) as Hl. destruct t as [b|pr acc|pr]; [by apply safe_resolve|apply safe_evict_dek|apply safe_clear]. }
  eapply keeps_pool_at in Hpool as (owns & [R C S K] & Hlen & Hat); [|apply sound_perm| |exact Hr].
  2:{ split; simpl; [by intros acc row ?%lookup_empty_Some|by intros pr acc c ?%lookup_empty_Some|by intros acc t x ?%lookup_empty_Some|]. intros k. clear. induction tasks as [|t tasks IH]; [by intros ?%elem_of_nil|exact IH]. }
  assert (∀ j b x, tasks !! j = Some (Resolve b) → ps !! j = Some (Done (Ret (Some x))) → has_key rings password s (ra_accountId b, x)) as Hkey.
  { intros j b x Hj Hx. destruct (lookup_lt_is_Some_2 owns j) as [own Hown]; [rewrite Hlen; by eapply lookup_lt_Some|].
    pose proof (Hat _ _ _ Hown Hx _ Hj) as Hin. apply K, list_elem_of_join. exists own. split; [exact Hin|by eapply list_elem_of_lookup_2]. }
  destruct (Hkey _ _ _ Hi Hd) as (row & Hrow & Hh). simpl in Hrow, Hh. pose proof Hh as [Hl Hb (w & Ew & Hw) _]. split.
  - exists row, w. split_and!; [done..|]. intros r Hrin. by eapply unwrap_sealed.
  - intros j b d' Hj Hd' E. destruct (Hkey _ _ _ Hj Hd') as (row' & Hrow' & Hh'). simpl in Hrow', Hh'. rewrite E in *.
    rewrite Hrow in Hrow'. injection Hrow' as <-. destruct Hh' as [_ Hb' (w' & Ew' & Hw') _]. rewrite Ew in Ew'. injection Ew' as <-.
    by eapply sealed_once.
Qed.
End Changes.

(** ** Two processes that create the key of one account at the same time *)

#[local] Existing Instances toy_gcm toy_random toy_hashes.
#[local] Existing Instances toy_gcm_laws toy_random_laws.

Definition example_ring : KeyRing :=
  match newKeyRing (MkRingSpec "k2" [MkKey "1" "an old secret"; MkKey "k2" "a new secret"]) with Ret r => r | Throw _ => MkRing EmptyString [] [] end.

Definition lookup_by (process : nat) : Task := Resolve (MkResolve process example_ring "acct" (Some "pw") true false).

(** Both find no row; the second insert finds the row of the first. *)
Definition race : pool KeyStore Dek :=
  run_schedule 5 [0; 1; 0; 1; 0; 1; 0; 0; 1; 1; 1; 1; 0; 1; 1; 1; 1; 1; 0]%nat (new_store, run_task false (Done (Ret None)) <$> [lookup_by 0; lookup_by 1; Evict 0 "acct"]).

Example race_ends : (λ p, match p with Done (Ret d) => length <$> d | _ => None end) <$> race.2 = [Some 32; Some 32; None].
Proof. vm_compute. reflexivity. Qed.

Definition answer_at (i : nat) : list Z := match race.2 !! i with Some (Done (Ret (Some d))) => d | _ => [] end.

Lemma answered i : i < 2 → race.2 !! i = Some (Done (Ret (Some (answer_at i)))).
Proof. intros Hi. destruct i as [|[|i]]; [vm_compute; reflexivity..|lia]. Qed.

Lemma example_ring_ok : ring_ok example_ring.
Proof. split; vm_compute; reflexivity. Qed.

Lemma race_steps : rtc (pool_step false) (new_store, run_task false (Done (Ret None)) <$> [lookup_by 0; lookup_by 1; Evict 0 "acct"]) race.
Proof. apply run_schedule_steps. Qed.

Lemma race_legal : Forall (legal_task [example_ring] (λ _, "pw")) [lookup_by 0; lookup_by 1; Evict 0 "acct"].
Proof. repeat constructor; by intros p [= <-]. Qed.

Lemma one_ring_agrees r r' : r ∈ [example_ring] → r' ∈ [example_ring] → agree r r'.
Proof. intros ->%list_elem_of_singleton ->%list_elem_of_singleton id k k' Hk Hk'. congruence. Qed.

#[local] Opaque race answer_at.

Lemma account_key_never_changes_witness : answer_at 1 = answer_at 0.
Proof.
  pose proof race_steps as Hr. destruct race as [s ps] eqn:Er.
  assert (∀ i, i < 2 → ps !! i = Some (Done (Ret (Some (answer_at i))))) as Ha by (intros i Hi; pose proof (answered i Hi) as E; by rewrite Er in E).
  refine (proj2 (account_key_never_changes false [example_ring] (λ _, "pw") false (Done (Ret None)) _ s ps _ one_ring_agrees race_legal Hr
    0 (MkResolve 0 example_ring "acct" (Some "pw") true false) (answer_at 0) eq_refl (Ha 0 _)) 1 (MkResolve 1 example_ring "acct" (Some "pw") true false) (answer_at 1) eq_refl (Ha 1 _) eq_refl).
  - constructor; [apply example_ring_ok|constructor].
  - lia.
  - lia.
Defined.
