(* ===== verification/JsonText.v ===== *)
(** JSON text: JSON.parse on what JSON.stringify prints, and on any other text.

    A number with a fraction or an exponent is kept by its text ([JFloat]); a code
    unit above 255 in a [\u] escape is outside the model. *)
From Stdlib Require Import Ascii.
From S2P Require Import Prelude Json Numbers.

Set Warnings "-register-all".

Local Open Scope string_scope.
Local Open Scope list_scope.

(** ** The parser *)

Definition json_space (a : Ascii.ascii) : bool := bool_decide (nat_of_ascii a ∈ [9; 10; 13; 32]).

Fixpoint skip_space (s : string) : string :=
  match s with
  | String a s' => if json_space a then skip_space s' else s
  | EmptyString => EmptyString
  end.

(** [s] without the prefix [p]. *)
Fixpoint strip_prefix (p s : string) : option string :=
  match p, s with
  | EmptyString, _ => Some s
  | String a p', String b s' => if Ascii.eqb a b then strip_prefix p' s' else None
  | String _ _, EmptyString => None
  end.

Definition hex_val_any (a : Ascii.ascii) : option nat :=
  let n := nat_of_ascii a in
  if is_digit a then Some (n - 48)
  else if char_in "a" "f" a then Some (n - 87)
  else if char_in "A" "F" a then Some (n - 55)
  else None.

Definition unicode_unit (h1 h2 h3 h4 : Ascii.ascii) : option Ascii.ascii :=
  a ← hex_val_any h1; b ← hex_val_any h2; c ← hex_val_any h3; d ← hex_val_any h4;
  if (a =? 0)%nat && (b =? 0)%nat then Some (ascii_of_nat (c * 16 + d)) else None.

(** The letter after a backslash. *)
Definition simple_escape (a : Ascii.ascii) : option Ascii.ascii :=
  let n := nat_of_ascii a in
  if bool_decide (n ∈ [34; 92; 47]) then Some a
  else if (n =? 98)%nat then Some (ascii_of_nat 8)
  else if (n =? 116)%nat then Some (ascii_of_nat 9)
  else if (n =? 110)%nat then Some (ascii_of_nat 10)
  else if (n =? 102)%nat then Some (ascii_of_nat 12)
  else if (n =? 114)%nat then Some (ascii_of_nat 13)
  else None.

Definition put_char (a : Ascii.ascii) (r : option (string * string)) : option (string * string) :=
  '(text, rest) ← r; Some (String a text, rest).

(** The rest of a string after its opening quote. *)
Fixpoint parse_chars (s : string) : option (string * string) :=
  match s with
  | EmptyString => None
  | String a s' =>
      if (nat_of_ascii a =? 34)%nat then Some (EmptyString, s')
      else if (nat_of_ascii a =? 92)%nat then
        match s' with
        | String e s'' =>
            if (nat_of_ascii e =? 117)%nat then
              match s'' with
              | String h1 (String h2 (String h3 (String h4 rest))) =>
                  match unicode_unit h1 h2 h3 h4 with Some x => put_char x (parse_chars rest) | None => None end
              | _ => None
              end
            else match simple_escape e with Some x => put_char x (parse_chars s'') | None => None end
        | EmptyString => None
        end
      else if (nat_of_ascii a <? 32)%nat then None
      else put_char a (parse_chars s')
  end.

Fixpoint take_digits (s : string) : string * string :=
  match s with
  | String a s' => if is_digit a then let '(d, rest) := take_digits s' in (String a d, rest) else (EmptyString, s)
  | EmptyString => (EmptyString, EmptyString)
  end.

(** Digits without a leading zero. *)
Definition parse_int (s : string) : option (string * string) :=
  let '(d, rest) := take_digits s in
  match d with
  | EmptyString => None
  | String a (String _ _) => if Ascii.eqb a "0" then None else Some (d, rest)
  | String _ EmptyString => Some (d, rest)
  end.

(** [\.\d+] and [[eE][+-]?\d+], as far as they are there. *)
Definition parse_fraction (s : string) : option (string * string) :=
  match s with
  | String "."%char s' => match take_digits s' with (EmptyString, _) => None | (d, rest) => Some (String "." d, rest) end
  | _ => Some (EmptyString, s)
  end.

Definition parse_exponent (s : string) : option (string * string) :=
  match s with
  | String a s' =>
      if Ascii.eqb a "e" || Ascii.eqb a "E" then
        let '(sign, s'') := match s' with
                            | String b t => if Ascii.eqb b "+" || Ascii.eqb b "-" then (String b EmptyString, t) else (EmptyString, s')
                            | EmptyString => (EmptyString, s')
                            end in
        match take_digits s'' with (EmptyString, _) => None | (d, rest) => Some (String a sign ++ d, rest)%string end
      else Some (EmptyString, s)
  | EmptyString => Some (EmptyString, s)
  end.

Definition parse_number (s : string) : option (json * string) :=
  let '(minus, s1) := match s with String "-"%char s' => (true, s') | _ => (false, s) end in
  '(d, s2) ← parse_int s1; '(fraction, s3) ← parse_fraction s2; '(exponent, rest) ← parse_exponent s3;
  if is_empty fraction && is_empty exponent
  then n ← parse_digits d; Some (JInt (if minus then - n else n)%Z, rest)
  else Some (JFloat ((if minus then "-" else EmptyString) ++ d ++ fraction ++ exponent), rest)%string.

(** The fields of an object: a later one of the same name wins. *)
Definition object_of (fields : list (string * json)) : json := JObj (foldl (λ o kv, map_set kv.1 kv.2 o) [] fields).

Fixpoint parse_value (fuel : nat) (s : string) : option (json * string) :=
  match fuel with
  | O => None
  | S fuel' =>
      let s := skip_space s in
      match s with
      | EmptyString => None
      | String a s' =>
          if (nat_of_ascii a =? 34)%nat then '(text, rest) ← parse_chars s'; Some (JStr text, rest)
          else if Ascii.eqb a "[" then
            match skip_space s' with
            | String "]"%char rest => Some (JArr [], rest)
            | _ => '(l, rest) ← parse_elements fuel' s'; Some (JArr l, rest)
            end
          else if Ascii.eqb a "{" then
            match skip_space s' with
            | String "}"%char rest => Some (JObj [], rest)
            | _ => '(l, rest) ← parse_fields fuel' s'; Some (object_of l, rest)
            end
          else match strip_prefix "null" s, strip_prefix "true" s, strip_prefix "false" s with
               | Some rest, _, _ => Some (JNull, rest)
               | _, Some rest, _ => Some (JBool true, rest)
               | _, _, Some rest => Some (JBool false, rest)
               | _, _, _ => parse_number s
               end
      end
  end
with parse_elements (fuel : nat) (s : string) : option (list json * string) :=
  match fuel with
  | O => None
  | S fuel' =>
      '(v, s1) ← parse_value fuel' s;
      match skip_space s1 with
      | String a s2 =>
          if Ascii.eqb a "," then '(l, rest) ← parse_elements fuel' s2; Some (v :: l, rest)
          else if Ascii.eqb a "]" then Some ([v], s2)
          else None
      | EmptyString => None
      end
  end
with parse_fields (fuel : nat) (s : string) : option (list (string * json) * string) :=
  match fuel with
  | O => None
  | S fuel' =>
      match skip_space s with
      | String q s1 =>
          if (nat_of_ascii q =? 34)%nat then
            '(k, s2) ← parse_chars s1;
            match skip_space s2 with
            | String c s3 =>
                if Ascii.eqb c ":" then
                  '(v, s4) ← parse_value fuel' s3;
                  match skip_space s4 with
                  | String a s5 =>
                      if Ascii.eqb a "," then '(l, rest) ← parse_fields fuel' s5; Some ((k, v) :: l, rest)
                      else if Ascii.eqb a "}" then Some ([(k, v)], s5)
                      else None
                  | EmptyString => None
                  end
                else None
            | EmptyString => None
            end
          else None
      | EmptyString => None
      end
  end.

Definition syntax_error : exn := Exn "SyntaxError" EmptyString "Unexpected token in JSON".

(** [JSON.parse(s)]. Every second call consumes a character. *)
Definition json_parse (s : string) : outcome json :=
  match parse_value (2 * String.length s + 1) s with
  | Some (v, rest) => if is_empty (skip_space rest) then Ret v else Throw syntax_error
  | None => Throw syntax_error
  end.

Example parse_ex : json_parse (String "[" (stringify (JObj [("a", JArr [JInt (-12); JNull; JStr (chr 34)]); ("b", JBool true)]) ++ " , 0.5e3 ]")) =
  Ret (JArr [JObj [("a", JArr [JInt (-12); JNull; JStr (chr 34)]); ("b", JBool true)]; JFloat "0.5e3"]).
Proof. vm_compute. reflexivity. Qed.

(** ** What is printed parses back *)

(** Values the printer and the parser agree on: no other numbers than integers, and
    no field twice. *)
Fixpoint json_plain (v : json) : bool :=
  match v with
  | JFloat _ => false
  | JArr l => forallb json_plain l
  | JObj fs => bool_decide (NoDup (fs.*1)) && forallb (λ kv, json_plain kv.2) fs
  | _ => true
  end.

Fixpoint json_size (v : json) : nat :=
  match v with
  | JArr l => S (list_sum (List.map (λ x, S (json_size x)) l))
  | JObj fs => S (list_sum (List.map (λ kv, S (json_size kv.2)) fs))
  | _ => 1
  end.

(** What may follow a value. *)
Definition json_stop (s : string) : bool :=
  match s with EmptyString => true | String a _ => bool_decide (a ∈ [","; "]"; "}"]%char) end.

Lemma str_app_nil s : (s ++ EmptyString)%string = s.
Proof. induction s as [|a s IH]; [done|]. change (String a (s ++ EmptyString)%string = String a s). by rewrite IH. Qed.

Lemma str_app_assoc (a b c : string) : ((a ++ b) ++ c)%string = (a ++ (b ++ c))%string.
Proof. induction a as [|x a IH]; [done|]. change (String x ((a ++ b) ++ c)%string = String x (a ++ (b ++ c))%string). by rewrite IH. Qed.

Lemma parse_escaped a s : parse_chars (escape_char a ++ s)%string = put_char a (parse_chars s).
Proof. destruct a as [[] [] [] [] [] [] [] []]; reflexivity. Qed.

Lemma parse_quoted t rest : parse_chars (escape t ++ chr 34 ++ rest)%string = Some (t, rest).
Proof.
  induction t as [|a t IH]; [done|]. cbn [escape]. by rewrite str_app_assoc, parse_escaped, IH.
Qed.

Lemma stop_not_digit rest : json_stop rest = true → take_digits rest = (EmptyString, rest) ∧ parse_fraction rest = Some (EmptyString, rest) ∧ parse_exponent rest = Some (EmptyString, rest).
Proof.
  destruct rest as [|a rest]; [done|]. intros Ha%bool_decide_eq_true_1.
  apply elem_of_cons in Ha as [->|[->|[->|Ha]%elem_of_cons]%elem_of_cons]; [done..|by apply elem_of_nil in Ha].
Qed.

Lemma digit_is_digit a : is_Some (digit_val a) → is_digit a = true.
Proof. destruct a as [[] [] [] [] [] [] [] []]; vm_compute; intros [v Hv]; first [done|discriminate]. Qed.

Lemma take_digits_all d rest : all_digits d = true → take_digits rest = (EmptyString, rest) → take_digits (d ++ rest)%string = (d, rest).
Proof.
  intros Hd Hr. induction d as [|a d IH]; [done|]. simpl in Hd. apply andb_prop in Hd as [Ha%bool_decide_eq_true_1 Hd].
  change ((String a d ++ rest)%string) with (String a (d ++ rest)%string). cbn [take_digits]. by rewrite digit_is_digit, IH.
Qed.

(** A positive numeral does not start with a zero. *)
Lemma pretty_first x s : (0 < x)%N → ∃ a t, pretty_N_go x s = String a t ∧ is_digit a = true ∧ Ascii.eqb a "0" = false.
Proof.
  revert s. induction (N.lt_wf_0 x) as [x _ IH]; intros s Hx. rewrite pretty_N_go_step by done.
  destruct (decide (x / 10 = 0)%N) as [E|E].
  - rewrite E, pretty_N_go_0. do 2 eexists. split; [done|]. assert (x < 10)%N as Hlt by (apply N.div_small_iff in E; lia). rewrite N.mod_small by done.
    assert (x = 1 ∨ x = 2 ∨ x = 3 ∨ x = 4 ∨ x = 5 ∨ x = 6 ∨ x = 7 ∨ x = 8 ∨ x = 9)%N as Hin by lia.
    by repeat (destruct Hin as [->|Hin]; [by vm_compute|]); subst x.
  - apply IH; [by apply N.div_lt|by apply N.neq_0_lt_0].
Qed.

Lemma parse_int_pretty (p : positive) rest : take_digits rest = (EmptyString, rest) → parse_int (pretty (N.pos p) ++ rest)%string = Some (pretty (N.pos p), rest).
Proof.
  intros Hr. unfold parse_int. rewrite take_digits_all by (done || apply all_digits_pretty).
  destruct (pretty_first (N.pos p) EmptyString) as (a & t & E & _ & Ha); [done|].
  change (pretty (N.pos p)) with (pretty_N_go (N.pos p) EmptyString). rewrite E. destruct t; [done|]. by rewrite Ha.
Qed.

Lemma parse_number_int n rest : json_stop rest = true → parse_number (pretty n ++ rest)%string = Some (JInt n, rest).
Proof.
  intros Hs. pose proof (stop_not_digit _ Hs) as (Hd & Hf & He).
  assert (∀ p, ∃ a t, pretty (N.pos p) = String a t ∧ is_digit a = true) as Hfirst.
  { intros p. destruct (pretty_first (N.pos p) EmptyString) as (a & t & E & Ha & _); [done|]. exists a, t. done. }
  destruct n as [|p|p].
  - assert (parse_int (String "0" rest) = Some ("0", rest)) as Hz by (unfold parse_int; cbn [take_digits]; change (is_digit "0") with true; cbv iota; by rewrite Hd).
    change (parse_number (String "0" rest) = Some (JInt 0, rest)). unfold parse_number. rewrite Hz. cbn [mbind option_bind].
    rewrite Hf. cbn [mbind option_bind]. by rewrite He.
  - change (pretty (Z.pos p)) with (pretty (N.pos p)). destruct (Hfirst p) as (a & t & E & Ha).
    assert (parse_number (pretty (N.pos p) ++ rest)%string = '(d, s2) ← parse_int (pretty (N.pos p) ++ rest)%string; '(fraction, s3) ← parse_fraction s2;
      '(exponent, r) ← parse_exponent s3; if is_empty fraction && is_empty exponent then n ← parse_digits d; Some (JInt n, r)
      else Some (JFloat (EmptyString ++ d ++ fraction ++ exponent), r)%string) as ->.
    { rewrite E. unfold parse_number. change ((String a t ++ rest)%string) with (String a (t ++ rest)%string). clear -Ha.
      destruct a as [[] [] [] [] [] [] [] []]; first [reflexivity|vm_compute in Ha; discriminate]. }
    rewrite parse_int_pretty by done. cbn [mbind option_bind]. rewrite Hf. cbn [mbind option_bind]. rewrite He. cbn [mbind option_bind]. change (is_empty EmptyString) with true.
    cbn [andb]. by rewrite digits_val_pretty.
  - change (pretty (Z.neg p)) with (String "-"%char (pretty (N.pos p))).
    change ((String "-" (pretty (N.pos p)) ++ rest)%string) with (String "-" (pretty (N.pos p) ++ rest)%string). unfold parse_number.
    rewrite parse_int_pretty by done. cbn [mbind option_bind]. rewrite Hf. cbn [mbind option_bind]. rewrite He. cbn [mbind option_bind]. change (is_empty EmptyString) with true.
    cbn [andb]. by rewrite digits_val_pretty.
Qed.

Definition field_text (kv : string * json) : string := quote kv.1 ++ ":" ++ stringify kv.2.

Lemma stringify_start v : json_plain v = true → ∃ a t, stringify v = String a t ∧ json_space a = false ∧ Ascii.eqb a "]" = false ∧ Ascii.eqb a "}" = false.
Proof.
  assert (∀ a, is_digit a = true → json_space a = false ∧ Ascii.eqb a "]" = false ∧ Ascii.eqb a "}" = false) as Hdigit
    by (intros [[] [] [] [] [] [] [] []]; vm_compute; by intros).
  assert (∀ p, ∃ a t, pretty (N.pos p) = String a t ∧ is_digit a = true) as Hfirst.
  { intros p. destruct (pretty_first (N.pos p) EmptyString) as (a & t & E & Ha & _); [done|]. exists a, t. done. }
  destruct v as [|[]|[|p|p]| | | |]; intros Hp; [..|done| | |]; try (eexists _, _; split; [reflexivity|done]).
  cbn [stringify]. change (pretty (Z.pos p)) with (pretty (N.pos p)). destruct (Hfirst p) as (a & t & -> & Ha). exists a, t. auto.
Qed.

Lemma skip_start v rest : json_plain v = true → skip_space (stringify v ++ rest)%string = (stringify v ++ rest)%string.
Proof.
  intros Hp. destruct (stringify_start _ Hp) as (a & t & -> & Ha & _). change ((String a t ++ rest)%string) with (String a (t ++ rest)%string).
  cbn [skip_space]. by rewrite Ha.
Qed.

Lemma object_of_plain fs : NoDup fs.*1 → object_of fs = JObj fs.
Proof.
  intros Hn. unfold object_of. f_equal. change fs with ([] ++ fs) at 2.
  assert (∀ kv, kv ∈ fs → kv.1 ∉ (@nil (string * json)).*1) as Hd by (intros kv _; apply not_elem_of_nil).
  revert Hn Hd. generalize (@nil (string * json)). induction fs as [|[k v] fs IH]; intros o Hn Hd; [by rewrite app_nil_r|].
  apply NoDup_cons in Hn as [Hk Hn]. cbn [foldl fst snd].
  assert (map_set k v o = o ++ [(k, v)]) as ->.
  { specialize (Hd (k, v) (list_elem_of_here _ _)). simpl in Hd. clear -Hd. induction o as [|[k' v'] o IHo]; [done|]. cbn [map_set].
    rewrite decide_False by (intros ->; apply Hd; by left). cbn [app]. f_equal. apply IHo. intros Hin. apply Hd. by right. }
  rewrite IH; [by rewrite <- app_assoc|done|]. intros kv Hin. rewrite fmap_app, elem_of_app. intros [Ho|Ho].
  - by apply (Hd kv); [right|].
  - apply list_elem_of_singleton in Ho. apply Hk. rewrite <- Ho. by apply list_elem_of_fmap_2.
Qed.

(** One element or field, followed by a comma or the end. *)
Lemma concat_cons x l c rest : (String.concat "," (x :: l) ++ String c rest)%string =
  (x ++ match l with [] => String c rest | _ => String "," (String.concat "," l ++ String c rest) end)%string.
Proof.
  destruct l as [|y l]; [done|]. change (String.concat "," (x :: y :: l)) with (x ++ "," ++ String.concat "," (y :: l))%string.
  by rewrite !str_app_assoc.
Qed.

Lemma parse_value_number n0 n rest : json_stop rest = true → parse_value (S n0) (pretty n ++ rest)%string = Some (JInt n, rest).
Proof.
  intros Hs. rewrite <- (parse_number_int n rest Hs).
  pose proof (skip_start (JInt n) rest eq_refl) as Hskip. cbn [stringify] in Hskip.
  cbn [parse_value]. rewrite Hskip. assert (∃ a t, pretty n = String a t ∧ (is_digit a || Ascii.eqb a "-") = true) as (a & t & -> & Ha).
  { destruct n as [|p|p]; [eexists _, _; split; reflexivity| |eexists _, _; split; reflexivity].
    destruct (pretty_first (N.pos p) EmptyString) as (a & t & E & Ha & _); [done|]. exists a, t. split; [done|]. by rewrite Ha. }
  change ((String a t ++ rest)%string) with (String a (t ++ rest)%string). clear -Ha.
  destruct a as [[] [] [] [] [] [] [] []]; first [reflexivity|vm_compute in Ha; discriminate].
Qed.

Definition size_sum (l : list json) : nat := list_sum (List.map (λ x, S (json_size x)) l).

(** The parser on printed values, elements and fields, with [n] levels. *)
Definition reads_value (n : nat) : Prop := ∀ v rest, (json_size v ≤ n)%nat → json_plain v = true → json_stop rest = true →
  parse_value n (stringify v ++ rest)%string = Some (v, rest).
Definition reads_elements (n : nat) : Prop := ∀ l rest, l ≠ [] → (size_sum l ≤ n)%nat → forallb json_plain l = true →
  parse_elements n (String.concat "," (List.map stringify l) ++ String "]" rest)%string = Some (l, rest).
Definition reads_fields (n : nat) : Prop := ∀ fs rest, fs ≠ [] → (size_sum fs.*2 ≤ n)%nat → forallb (λ kv, json_plain kv.2) fs = true →
  parse_fields n (String.concat "," (List.map field_text fs) ++ String "}" rest)%string = Some (fs, rest).

Lemma json_size_pos v : (0 < json_size v)%nat.
Proof. destruct v; simpl; lia. Qed.

Lemma elements_step n : reads_value n → reads_elements n → reads_elements (S n).
Proof.
  intros Hv He l rest Hl Hs Hp. destruct l as [|x l]; [done|]. cbn [forallb] in Hp. apply andb_prop in Hp as [Hx Hp].
  change (size_sum (x :: l)) with (S (json_size x) + size_sum l) in Hs. cbn [List.map]. rewrite concat_cons. cbn [parse_elements].
  destruct l as [|y l].
  - cbn [List.map]. rewrite Hv by (done || lia). cbn [mbind option_bind]. reflexivity.
  - cbn [List.map]. rewrite Hv by (done || lia). cbn [mbind option_bind]. change (skip_space (String "," ?s)) with (String "," s). cbn [skip_space].
    change (json_space ",") with false. cbv iota. change (Ascii.eqb "," ",") with true. cbv iota.
    change (stringify y :: List.map stringify l) with (List.map stringify (y :: l)). by rewrite He by (done || lia).
Qed.

Lemma field_text_app kv s : (field_text kv ++ s)%string = String (ascii_of_nat 34) (escape kv.1 ++ chr 34 ++ String ":" (stringify kv.2 ++ s))%string.
Proof. unfold field_text, quote. rewrite !str_app_assoc. reflexivity. Qed.

Lemma fields_step n : reads_value n → reads_fields n → reads_fields (S n).
Proof.
  intros Hv He fs rest Hl Hs Hp. destruct fs as [|[k x] fs]; [done|]. cbn [forallb snd] in Hp. apply andb_prop in Hp as [Hx Hp].
  change (size_sum ((k, x) :: fs).*2) with (S (json_size x) + size_sum fs.*2) in Hs. cbn [List.map]. rewrite concat_cons, field_text_app. cbn [fst snd parse_fields].
  cbn [skip_space]. change (json_space (ascii_of_nat 34)) with false. cbv iota. change (nat_of_ascii (ascii_of_nat 34) =? 34)%nat with true. cbv iota.
  rewrite parse_quoted. cbn [mbind option_bind skip_space]. change (json_space ":") with false. cbv iota. change (Ascii.eqb ":" ":") with true. cbv iota.
  destruct fs as [|f fs].
  - cbn [List.map]. rewrite Hv by (done || lia). cbn [mbind option_bind]. reflexivity.
  - cbn [List.map]. rewrite Hv by (done || lia). cbn [mbind option_bind skip_space].
    change (json_space ",") with false. cbv iota. change (Ascii.eqb "," ",") with true. cbv iota.
    change (field_text f :: List.map field_text fs) with (List.map field_text (f :: fs)). by rewrite He by (done || lia).
Qed.

Lemma value_step n : reads_elements n → reads_fields n → reads_value (S n).
Proof.
  intros He Hf v rest Hs Hp Hr. destruct v as [|b|k|r|t|l|fs].
  - reflexivity.
  - by destruct b.
  - by apply parse_value_number.
  - done.
  - cbn [stringify]. unfold quote. rewrite !str_app_assoc.
    change (chr 34 ++ escape t ++ chr 34 ++ rest)%string with (String (ascii_of_nat 34) (escape t ++ chr 34 ++ rest)%string).
    cbn [parse_value skip_space]. change (json_space (ascii_of_nat 34)) with false. cbv iota. change (nat_of_ascii (ascii_of_nat 34) =? 34)%nat with true. cbv iota.
    by rewrite parse_quoted.
  - cbn [stringify]. rewrite !str_app_assoc. destruct l as [|x l]; [reflexivity|].
    change (("[" ++ ?a ++ "]" ++ rest)%string) with (String "[" (a ++ String "]" rest)%string).
    assert (size_sum (x :: l) ≤ n)%nat as Hn by (change (S (size_sum (x :: l)) ≤ S n)%nat in Hs; lia).
    pose proof (He (x :: l) rest ltac:(done) Hn Hp) as Hread.
    set (body := (String.concat "," (List.map stringify (x :: l)) ++ String "]" rest)%string) in *.
    assert (∃ a t, body = String a t ∧ json_space a = false ∧ Ascii.eqb a "]" = false) as (a & t & Eb & Hsp & Hcl).
    { cbn [forallb json_plain] in Hp. apply andb_prop in Hp as [Hx _]. destruct (stringify_start _ Hx) as (a & t & E & H1 & H2 & _).
      unfold body. cbn [List.map]. rewrite concat_cons, E. by exists a, (t ++ match List.map stringify l with [] => String "]" rest | _ => String "," (String.concat "," (List.map stringify l) ++ String "]" rest) end)%string. }
    change (parse_value (S n) (String "[" body) = Some (JArr (x :: l), rest)). cbn [parse_value skip_space].
    change (json_space "[") with false. cbv iota. change (nat_of_ascii "[" =? 34)%nat with false. change (Ascii.eqb "[" "[") with true. cbv iota.
    rewrite Hread. rewrite Eb. cbn [skip_space]. rewrite Hsp. clear -Hcl. destruct a as [[] [] [] [] [] [] [] []]; first [reflexivity|discriminate].
  - cbn [stringify]. rewrite !str_app_assoc. cbn [json_plain] in Hp. apply andb_prop in Hp as [Hn%bool_decide_eq_true_1 Hp]. destruct fs as [|f fs]; [reflexivity|].
    assert (size_sum (f :: fs).*2 ≤ n)%nat as Hsz.
    { assert (json_size (JObj (f :: fs)) = S (size_sum (f :: fs).*2)) as E; [|lia]. cbn [json_size]. f_equal. unfold size_sum. generalize (f :: fs). clear.
      intros l. induction l as [|kv l IH]; [done|]. simpl. by rewrite IH. }
    pose proof (Hf (f :: fs) rest ltac:(done) Hsz Hp) as Hread.
    change (parse_value (S n) (String "{" (String.concat "," (List.map field_text (f :: fs)) ++ String "}" rest)%string) = Some (JObj (f :: fs), rest)).
    cbn [parse_value]. cbn [skip_space]. change (json_space "{") with false. cbv iota. change (nat_of_ascii "{" =? 34)%nat with false.
    change (Ascii.eqb "{" "[") with false. change (Ascii.eqb "{" "{") with true. cbv iota. rewrite Hread. cbn [mbind option_bind]. rewrite object_of_plain by done.
    cbn [List.map]. rewrite concat_cons, field_text_app. reflexivity.
Qed.

Lemma parse_printed n : reads_value n ∧ reads_elements n ∧ reads_fields n.
Proof.
  induction n as [|n (Hv & He & Hf)].
  - split_and!.
    + intros v rest Hs. pose proof (json_size_pos v). lia.
    + intros [|x l] rest Hl Hs; [done|]. change (S (json_size x) + size_sum l ≤ 0)%nat in Hs. lia.
    + intros [|x l] rest Hl Hs; [done|]. change (S (json_size x.2) + size_sum l.*2 ≤ 0)%nat in Hs. lia.
  - split_and!; [by apply value_step|by apply elements_step|by apply fields_step].
Qed.

(** ** The levels are enough *)

Lemma str_length_app (s t : string) : String.length (s ++ t)%string = String.length s + String.length t.
Proof. induction s as [|a s IH]; [done|]. change (S (String.length (s ++ t)%string) = S (String.length s) + String.length t). by rewrite IH. Qed.

Lemma concat_length {A} (f : A → string) (sz : A → nat) l : (∀ x, x ∈ l → sz x ≤ 2 * String.length (f x))%nat →
  (list_sum (List.map (λ x, S (sz x)) l) ≤ 2 * String.length (String.concat "," (List.map f l)) + 1)%nat.
Proof.
  induction l as [|x l IH]; intros Hl; [simpl; lia|]. pose proof (Hl x (list_elem_of_here _ _)) as Hx.
  specialize (IH (λ z Hz, Hl z (list_elem_of_further _ _ _ Hz))). destruct l as [|y l]; [cbn [List.map String.concat list_sum]; simpl; lia|].
  change (String.concat "," (List.map f (x :: y :: l))) with (f x ++ "," ++ String.concat "," (List.map f (y :: l)))%string.
  rewrite !str_length_app. change (String.length ",") with 1. cbn [List.map list_sum foldr] in *. lia.
Qed.

Lemma sum_bounds {A} (sz : A → nat) x l : x ∈ l → (sz x < list_sum (List.map (λ x, S (sz x)) l))%nat.
Proof. induction 1 as [x l|x y l _ IH]; simpl; lia. Qed.

Lemma stringify_length v : json_plain v = true → (json_size v ≤ 2 * String.length (stringify v))%nat.
Proof.
  remember (json_size v) as n eqn:En. revert v En. induction (lt_wf n) as [n _ IH]. intros v -> Hp. destruct v as [|[]|k|r|t|l|fs]; try (simpl; lia).
  - destruct (stringify_start _ Hp) as (a & t & -> & _). simpl. lia.
  - done.
  - cbn [stringify json_size]. rewrite !str_length_app. cbn [json_plain] in Hp.
    enough (∀ x, x ∈ l → json_size x ≤ 2 * String.length (stringify x))%nat as Hc by (apply concat_length in Hc; simpl; lia). intros x Hx. eapply IH; [|done|].
    + pose proof (sum_bounds json_size x l Hx). simpl. lia.
    + apply (proj1 (forallb_forall _ _) Hp), list_elem_of_In, Hx.
  - cbn [stringify json_size]. rewrite !str_length_app. cbn [json_plain] in Hp. apply andb_prop in Hp as [_ Hp].
    enough (∀ x, x ∈ fs → json_size x.2 ≤ 2 * String.length (field_text x))%nat as Hc
      by (apply (concat_length field_text (λ kv, json_size kv.2)) in Hc; unfold field_text in Hc; simpl; lia).
    intros x Hx. unfold field_text. rewrite !str_length_app. assert (json_size x.2 ≤ 2 * String.length (stringify x.2))%nat; [|lia]. eapply IH; [|done|].
    + pose proof (sum_bounds (λ kv, json_size kv.2) x fs Hx). simpl. lia.
    + apply (proj1 (forallb_forall _ _) Hp), list_elem_of_In, Hx.
Qed.

(** What is printed parses back. *)
Lemma json_roundtrip v : json_plain v = true → json_parse (stringify v) = Ret v.
Proof.
  intros Hp. unfold json_parse. destruct (parse_printed (2 * String.length (stringify v) + 1)) as (Hread & _).
  specialize (Hread v EmptyString). rewrite str_app_nil in Hread. rewrite Hread; [done| |done|done]. pose proof (stringify_length v Hp). lia.
Qed.
