(* ===== verification/StoredStates.v ===== *)
(** What is stored of an account under its data key: the private state and the
    signing keys of its contracts (srv/midnight/CapDbPrivateStateProvider.ts), in
    the SDK's format (srv/utils/storage-encryption.ts), with its passwords
    (srv/submission/wallet-material-factory.ts), and the saved state of its wallet
    (srv/submission/wallet-sync-state-store.ts). *)
From Stdlib Require Import Ascii.
From stdpp Require Import countable.
From S2P Require Import Prelude Db Json JsonText Numbers Scale ScaleFacts Envelope AccountKeys.

Set Warnings "-register-all".

Local Open Scope string_scope.
Local Open Scope list_scope.

(** ** The SDK's format *)

Definition SALT_LENGTH : nat := 32.
Definition CURRENT_ENCRYPTION_VERSION : Z := 2.
Definition HEADER_LENGTH : nat := 1 + SALT_LENGTH + IV_LENGTH + AUTH_TAG_LENGTH.

(** An instance of the class: [clear] wipes the key. *)
Record StorageEncryption := MkEncryption { se_salt : list Z; se_encryptionKey : list Z; se_cleared : bool }.

Record EncryptedComponents := MkComponents { ec_salt : list Z; ec_iv : list Z; ec_authTag : list Z; ec_encrypted : list Z }.

Definition extractEncryptedComponents (data : list Z) : outcome EncryptedComponents :=
  if (length data <? HEADER_LENGTH)%nat then Throw (js_error "Invalid encrypted data: too short")
  else
    let version := nullish (head data) 0%Z in
    if bool_decide (version = CURRENT_ENCRYPTION_VERSION) then
      Ret (MkComponents (take SALT_LENGTH (drop 1 data)) (take IV_LENGTH (drop (1 + SALT_LENGTH) data))
             (take AUTH_TAG_LENGTH (drop (1 + SALT_LENGTH + IV_LENGTH) data)) (drop HEADER_LENGTH data))
    else Throw (js_error ("Unsupported encryption version: " ++ pretty version)).

Section Storage.
Context `{Gcm, Random, Hashes}.

Definition deriveKey (password : string) (salt : list Z) : list Z := pbkdf2 password salt.
Definition newStorageEncryption (password : string) (salt : list Z) : StorageEncryption := MkEncryption salt (deriveKey password salt) false.
Definition clear (e : StorageEncryption) : StorageEncryption := MkEncryption (se_salt e) (replicate (length (se_encryptionKey e)) 0%Z) true.

Definition assertUsable (e : StorageEncryption) : outcome unit :=
  if se_cleared e then Throw (js_error "StorageEncryption: key has been cleared") else Ret tt.

(** The IV is the draw [n]. *)
Definition se_encrypt (e : StorageEncryption) (n : nat) (data : string) : outcome string :=
  _ ← assertUsable e;
  let iv := randomBytes n IV_LENGTH in
  let sealed := gcm_seal (se_encryptionKey e) iv (utf8 data) [] in
  Ret (base64 ([CURRENT_ENCRYPTION_VERSION] ++ se_salt e ++ iv ++ sealed.2 ++ sealed.1)).

Definition decryptComponents (c : EncryptedComponents) (key : list Z) : outcome string :=
  match gcm_open key (ec_iv c) (ec_authTag c) (ec_encrypted c) [] with
  | Some plain => Ret (of_utf8 plain)
  | None => Throw (js_error "Unsupported state or unable to authenticate data")
  end.

Definition se_decrypt (e : StorageEncryption) (encryptedData : string) : outcome string :=
  _ ← assertUsable e;
  c ← extractEncryptedComponents (from_base64 encryptedData);
  if bool_decide (se_salt e = ec_salt c) then decryptComponents c (se_encryptionKey e)
  else Throw (js_error "Salt mismatch: data was encrypted with a different password/salt").

Definition decryptWithPassword (encryptedData password : string) : outcome string :=
  c ← extractEncryptedComponents (from_base64 encryptedData); decryptComponents c (deriveKey password (ec_salt c)).

(** ** Passwords of an account *)

Definition ACCOUNT_ID_LABEL : string := "nightgate-account-id-v1".
Definition PRIVATE_STATE_PASSWORD_LABEL : string := "nightgate-private-state-password-v1".
Definition PRIVATE_STATE_SALT_LABEL : string := "nightgate-private-state-salt-v1".
Definition PRIVATE_STATE_INFO : string := "nightgate/private-state/v2".

Definition deriveAccountId (viewingKey : string) : string := to_hex (hmac ACCOUNT_ID_LABEL viewingKey).
Definition deriveStoragePassword (viewingKey : string) : string := to_hex (hmac PRIVATE_STATE_PASSWORD_LABEL viewingKey).

Definition privateStateStableSalt (accountId password : string) : list Z :=
  sha256 (utf8 (join_with "|" [password; accountId; PRIVATE_STATE_SALT_LABEL])).

Definition derivePrivateStatePassword (ring : KeyRing) (keyId viewingKey : string) : outcome string :=
  to_hex <$> deriveBoundSecret ring keyId (deriveStoragePassword viewingKey) PRIVATE_STATE_INFO.

(** The key ids of a ring, the active one first. *)
Definition ids_active_first (ring : KeyRing) : list string :=
  kr_activeId ring :: keep (λ i, negb (bool_decide (i = kr_activeId ring))) (ring_ids ring).

Fixpoint map_outcome {A B} (f : A → outcome B) (l : list A) : outcome (list B) :=
  match l with [] => Ret [] | x :: l' => y ← f x; ys ← map_outcome f l'; Ret (y :: ys) end.

Definition privateStatePasswordCandidates (ring : KeyRing) (viewingKey : string) : outcome (list string) :=
  bound ← map_outcome (λ id, derivePrivateStatePassword ring id viewingKey) (ids_active_first ring);
  Ret (bound ++ [deriveStoragePassword viewingKey]).
End Storage.

(** ** The tables *)

Record SealedRow := MkSealed { sl_ciphertext : string; sl_keyScheme : option string; sl_updatedAt : Z }.

Record SyncStateRow := MkSyncState {
  sy_shielded : option string; sy_unshielded : option string; sy_dust : option string; sy_keyScheme : option string;
  sy_sdkVersion : string; sy_networkId : option string; sy_seedFingerprint : option string; sy_updatedAt : Z }.

(** PrivateStates by account and contract, and within by state; ContractSigningKeys
    by account and within by contract; WalletSyncStates by account. *)
Record StateStore := MkStateStore {
  ss_states : gmap (string * string) (gmap string SealedRow); ss_signingKeys : gmap string (gmap string SealedRow);
  ss_syncStates : gmap string SyncStateRow; ss_draws : nat }.

Abbreviation StoreM := (M StateStore).

(** [n] draws of random bytes. *)
Definition draws (n : nat) : StoreM nat := λ s, (Ret (ss_draws s), MkStateStore (ss_states s) (ss_signingKeys s) (ss_syncStates s) (ss_draws s + n)).

Definition states_of (at_ : string * string) (s : StateStore) : gmap string SealedRow := nullish (ss_states s !! at_) ∅.
Definition keys_of (acc : string) (s : StateStore) : gmap string SealedRow := nullish (ss_signingKeys s !! acc) ∅.

Definition put_states (at_ : string * string) (t : gmap string SealedRow) : StoreM unit := λ s,
  (Ret tt, MkStateStore (<[at_ := t]> (ss_states s)) (ss_signingKeys s) (ss_syncStates s) (ss_draws s)).
Definition put_keys (acc : string) (t : gmap string SealedRow) : StoreM unit := λ s,
  (Ret tt, MkStateStore (ss_states s) (<[acc := t]> (ss_signingKeys s)) (ss_syncStates s) (ss_draws s)).
Definition put_sync (acc : string) (r : SyncStateRow) : StoreM unit := λ s,
  (Ret tt, MkStateStore (ss_states s) (ss_signingKeys s) (<[acc := r]> (ss_syncStates s)) (ss_draws s)).

(** ** The provider of one account and contract *)

Definition MAX_EXPORT_STATES : nat := 10000.
Definition MAX_EXPORT_SIGNING_KEYS : nat := 10000.
Definition PRIVATE_STATE_EXPORT_FORMAT : string := "midnight-private-state-export".
Definition SIGNING_KEY_EXPORT_FORMAT : string := "midnight-signing-key-export".
Definition CURRENT_EXPORT_VERSION : Z := 1.
Definition SUPPORTED_EXPORT_VERSIONS : list Z := [1%Z].

(** The configuration, and [currentContractAddress]. *)
Record Provider := MkProvider {
  pv_accountId : string; pv_password : string; pv_fallbacks : list string; pv_contractAddress : option string }.

Record StateExport := MkExport { xp_format : string; xp_encryptedPayload : string; xp_salt : string }.
Record ImportResult := MkImported { im_imported : nat; im_skipped : nat; im_overwritten : nat }.
Inductive ConflictStrategy := Skip | Overwrite | ErrorOut.
#[export] Instance ConflictStrategy_eq_dec : EqDecision ConflictStrategy.
Proof. solve_decision. Defined.

Definition ExportDecryptionError : exn := Exn "ExportDecryptionError" "PRIVATE_STATE_EXPORT_UNREADABLE" "Failed to decrypt export".
Definition InvalidExportFormatError (msg : string) : exn := Exn "InvalidExportFormatError" "PRIVATE_STATE_EXPORT_INVALID" msg.
Definition ImportConflictError (n : nat) : exn :=
  Exn "ImportConflictError" "PRIVATE_STATE_IMPORT_CONFLICT" ("Import aborted: " ++ pretty n ++ " conflict(s) detected and conflictStrategy is 'error'").

Definition setContractAddress (address : string) (p : Provider) : outcome Provider :=
  if is_empty address then Throw (js_error "Contract address must not be empty")
  else Ret (MkProvider (pv_accountId p) (pv_password p) (pv_fallbacks p) (Some address)).

Definition requireContractAddress (op : string) (p : Provider) : outcome string :=
  match pv_contractAddress p with
  | Some a => Ret a
  | None => Throw (js_error ("Contract address not set. Call setContractAddress() before " ++ op ++ "()."))
  end.

Definition getStoragePassword (p : Provider) : outcome string :=
  if (String.length (pv_password p) <? 16)%nat then Throw (js_error "Private storage password must be a string of at least 16 characters")
  else Ret (pv_password p).

Definition validateExportPassword (password : string) : outcome unit :=
  if (String.length password <? 16)%nat then Throw (js_error "Export password must be at least 16 characters") else Ret tt.

Definition is_hex_any (a : Ascii.ascii) : bool := is_digit a || char_in "a" "f" a || char_in "A" "F" a.

Definition validateSaltHex (salt : string) : outcome unit :=
  if all_chars is_hex_any salt && (String.length salt =? 64)%nat then Ret tt else Throw (InvalidExportFormatError "Invalid salt format").

(** [o[k] = v] on a plain object: [__proto__] is not an own property. *)
Definition js_assign (k : string) (v : json) (o : list (string * json)) : list (string * json) :=
  if bool_decide (k = "__proto__") then o else map_set k v o.

(** [Object.keys(v)] with the values. *)
Definition entries_of (v : json) : list (string * json) :=
  match v with
  | JObj fs => fs
  | JArr l => imap (λ i x, (pretty i, x)) l
  | _ => []
  end.

Section Provider.
Context `{ScanOrder} `{Gcm, Random, Hashes}.
Variable now : Z.

Definition getEncryption (p : Provider) : outcome StorageEncryption :=
  pw ← getStoragePassword p; Ret (newStorageEncryption pw (privateStateStableSalt (pv_accountId p) pw)).

(** The older password whose salt the value names. *)
Definition fallback_of (p : Provider) (salt : list Z) : option string :=
  List.find (λ pw, bool_decide (privateStateStableSalt (pv_accountId p) pw = salt)) (pv_fallbacks p).

(** [rewrite] saves a value opened with an older password under the current one. *)
Definition decryptStored (p : Provider) (ciphertext : string) (rewrite : string → StoreM unit) : StoreM string :=
  enc ← lift (getEncryption p);
  match se_decrypt enc ciphertext with
  | Ret plain => mret plain
  | Throw primary =>
      match extractEncryptedComponents (from_base64 ciphertext) with
      | Throw _ => throw primary
      | Ret c =>
          match fallback_of p (ec_salt c) with
          | None => throw primary
          | Some pw =>
              plain ← lift (decryptWithPassword ciphertext pw);
              n ← draws 1;
              _ ← try_catch (fresh ← lift (se_encrypt enc n plain); rewrite fresh) (λ _, mret tt);
              mret plain
          end
      end
  end.

Definition upsertPrivateState (p : Provider) (address id ciphertext : string) : StoreM unit :=
  s ← get; put_states (pv_accountId p, address) (<[id := MkSealed ciphertext (Some DEK_SCHEME) now]> (states_of (pv_accountId p, address) s)).

Definition upsertSigningKey (p : Provider) (address ciphertext : string) : StoreM unit :=
  s ← get; put_keys (pv_accountId p) (<[address := MkSealed ciphertext (Some DEK_SCHEME) now]> (keys_of (pv_accountId p) s)).

Definition save_state (p : Provider) (address id : string) (state : json) : StoreM unit :=
  enc ← lift (getEncryption p); n ← draws 1;
  ciphertext ← lift (se_encrypt enc n (stringify state)); upsertPrivateState p address id ciphertext.

Definition set_state (p : Provider) (id : string) (state : json) : StoreM unit :=
  address ← lift (requireContractAddress "set" p); save_state p address id state.

Definition get_state (p : Provider) (id : string) : StoreM (option json) :=
  address ← lift (requireContractAddress "get" p);
  s ← get;
  match states_of (pv_accountId p, address) s !! id with
  | None => mret None
  | Some row =>
      text ← decryptStored p (sl_ciphertext row) (upsertPrivateState p address id);
      v ← lift (json_parse text); mret (Some v)
  end.

Definition remove_state (p : Provider) (id : string) : StoreM unit :=
  address ← lift (requireContractAddress "remove" p);
  s ← get; put_states (pv_accountId p, address) (delete id (states_of (pv_accountId p, address) s)).

Definition clear_states (p : Provider) : StoreM unit :=
  address ← lift (requireContractAddress "clear" p); put_states (pv_accountId p, address) ∅.

Definition setSigningKey (p : Provider) (address signingKey : string) : StoreM unit :=
  enc ← lift (getEncryption p); n ← draws 1;
  ciphertext ← lift (se_encrypt enc n signingKey); upsertSigningKey p address ciphertext.

Definition getSigningKey (p : Provider) (address : string) : StoreM (option string) :=
  s ← get;
  match keys_of (pv_accountId p) s !! address with
  | None => mret None
  | Some row => k ← decryptStored p (sl_ciphertext row) (upsertSigningKey p address); mret (Some k)
  end.

Definition removeSigningKey (p : Provider) (address : string) : StoreM unit :=
  s ← get; put_keys (pv_accountId p) (delete address (keys_of (pv_accountId p) s)).

Definition clearSigningKeys (p : Provider) : StoreM unit := put_keys (pv_accountId p) ∅.

(** *** Export and import *)

Definition sealExport (format : string) (payload : json) (password : string) : StoreM StateExport :=
  _ ← lift (validateExportPassword password);
  n ← draws 2;
  let exporter := newStorageEncryption password (randomBytes n SALT_LENGTH) in
  sealed ← lift (se_encrypt exporter (n + 1) (stringify payload));
  mret (MkExport format sealed (to_hex (se_salt exporter))).

Definition too_many (what : string) (n max : nat) : exn :=
  InvalidExportFormatError ("Too many " ++ what ++ " (" ++ pretty n ++ "). Maximum allowed: " ++ pretty max).

(** Decrypts the rows one after another into an object. *)
Fixpoint export_rows (p : Provider) (rewrite : string → string → StoreM unit) (value : string → outcome json)
    (rows : list (string * SealedRow)) (o : list (string * json)) : StoreM (list (string * json)) :=
  match rows with
  | [] => mret o
  | (id, row) :: rows' =>
      text ← decryptStored p (sl_ciphertext row) (rewrite id);
      v ← lift (value text);
      export_rows p rewrite value rows' (js_assign id v o)
  end.

Definition exportPrivateStates (p : Provider) (password : option string) (maxStates : option nat) : StoreM StateExport :=
  address ← lift (requireContractAddress "exportPrivateStates" p);
  s ← get;
  let rows := scan (states_of (pv_accountId p, address) s) in
  if (nullish maxStates MAX_EXPORT_STATES <? length rows)%nat
  then throw (too_many "states to export" (length rows) (nullish maxStates MAX_EXPORT_STATES))
  else
    states ← export_rows p (upsertPrivateState p address) json_parse rows [];
    pw ← lift (match password with Some x => Ret x | None => getStoragePassword p end);
    sealExport PRIVATE_STATE_EXPORT_FORMAT
      (JObj [("version", JInt CURRENT_EXPORT_VERSION); ("stateCount", JInt (Z.of_nat (length rows))); ("states", JObj states)]) pw.

Definition exportSigningKeys (p : Provider) (password : option string) (maxKeys : option nat) : StoreM StateExport :=
  s ← get;
  let rows := scan (keys_of (pv_accountId p) s) in
  if (nullish maxKeys MAX_EXPORT_SIGNING_KEYS <? length rows)%nat
  then throw (too_many "signing keys to export" (length rows) (nullish maxKeys MAX_EXPORT_SIGNING_KEYS))
  else
    keys ← export_rows p (upsertSigningKey p) (λ k, Ret (JStr k)) rows [];
    pw ← lift (match password with Some x => Ret x | None => getStoragePassword p end);
    sealExport SIGNING_KEY_EXPORT_FORMAT
      (JObj [("version", JInt CURRENT_EXPORT_VERSION); ("keyCount", JInt (Z.of_nat (length keys))); ("keys", JObj keys)]) pw.

Definition is_null (v : json) : bool := match v with JNull => true | _ => false end.
Definition is_count (n : nat) (v : json) : bool := match v with JInt x => bool_decide (x = Z.of_nat n) | _ => false end.
Definition is_number (v : option json) : bool := match v with Some (JInt _) | Some (JFloat _) => true | _ => false end.

(** The checks of an import before anything is written: the entries it holds. *)
Definition open_import (p : Provider) (format countName entriesName what : string) (max : nat) (x : StateExport) (password : option string) :
    outcome (list (string * json)) :=
  if negb (bool_decide (xp_format x = format)) then Throw (InvalidExportFormatError "Unrecognized export format")
  else if is_empty (xp_encryptedPayload x) || is_empty (xp_salt x) then Throw (InvalidExportFormatError "Missing required fields")
  else
    _ ← validateSaltHex (xp_salt x);
    _ ← (match password with Some pw => validateExportPassword pw | None => Ret tt end);
    pw ← (match password with Some pw => Ret pw | None => getStoragePassword p end);
    payload ← (match (text ← decryptWithPassword (xp_encryptedPayload x) pw; json_parse text) with
               | Ret v => Ret v
               | Throw _ => Throw ExportDecryptionError
               end);
    if is_null payload then Throw (Exn "TypeError" EmptyString "Cannot read properties of null")
    else
      match json_get entriesName payload with
      | Some ((JObj _ | JArr _) as entries) =>
          match json_get "version" payload, json_get countName payload with
          | Some (JInt version), Some count =>
              if negb (is_number (Some count)) then Throw ExportDecryptionError
              else if negb (bool_decide (version ∈ SUPPORTED_EXPORT_VERSIONS))
              then Throw (InvalidExportFormatError ("Export version " ++ pretty version ++ " is not supported. Supported versions: 1"))
              else if negb (is_count (length (entries_of entries)) count) then Throw ExportDecryptionError
              else if (max <? length (entries_of entries))%nat then Throw (too_many what (length (entries_of entries)) max)
              else Ret (entries_of entries)
          | Some (JFloat version), Some count =>
              if is_number (Some count) then Throw (InvalidExportFormatError ("Export version " ++ version ++ " is not supported. Supported versions: 1"))
              else Throw ExportDecryptionError
          | _, _ => Throw ExportDecryptionError
          end
      | _ => Throw ExportDecryptionError
      end.

(** [existing !== null] *)
Definition conflicts {A} (is_null : A → bool) (existing : option A) : bool :=
  match existing with Some v => negb (is_null v) | None => false end.

Fixpoint count_conflicts (exists_ : string → StoreM bool) (ids : list string) : StoreM nat :=
  match ids with
  | [] => mret 0
  | id :: ids' => e ← exists_ id; n ← count_conflicts exists_ ids'; mret (if (e : bool) then S n else n)
  end.

Fixpoint import_entries (exists_ : string → StoreM bool) (write : string → json → StoreM unit) (strategy : ConflictStrategy)
    (l : list (string * json)) (r : ImportResult) : StoreM ImportResult :=
  match l with
  | [] => mret r
  | (id, v) :: l' =>
      e ← exists_ id;
      if (e : bool) && bool_decide (strategy = Skip)
      then import_entries exists_ write strategy l' (MkImported (im_imported r) (S (im_skipped r)) (im_overwritten r))
      else
        _ ← write id v;
        import_entries exists_ write strategy l'
          (if e then MkImported (im_imported r) (im_skipped r) (S (im_overwritten r)) else MkImported (S (im_imported r)) (im_skipped r) (im_overwritten r))
  end.

Definition import_checked (exists_ : string → StoreM bool) (write : string → json → StoreM unit) (strategy : ConflictStrategy)
    (l : list (string * json)) : StoreM ImportResult :=
  n ← (if bool_decide (strategy = ErrorOut) then count_conflicts exists_ (l.*1) else mret 0);
  if (0 <? n)%nat then throw (ImportConflictError n) else import_entries exists_ write strategy l (MkImported 0 0 0).

Definition state_exists (p : Provider) (id : string) : StoreM bool := v ← get_state p id; mret (conflicts is_null v).
Definition key_exists (p : Provider) (address : string) : StoreM bool := v ← getSigningKey p address; mret (conflicts (λ _, false) v).

Definition importPrivateStates (p : Provider) (x : StateExport) (password : option string) (strategy : option ConflictStrategy)
    (maxStates : option nat) : StoreM ImportResult :=
  address ← lift (requireContractAddress "importPrivateStates" p);
  l ← lift (open_import p PRIVATE_STATE_EXPORT_FORMAT "stateCount" "states" "states in export" (nullish maxStates MAX_EXPORT_STATES) x password);
  import_checked (state_exists p) (save_state p address) (nullish strategy ErrorOut) l.

(** A key is text; another value is what [Buffer.from] makes of it, and most fail. *)
Definition importSigningKeys (p : Provider) (x : StateExport) (password : option string) (strategy : option ConflictStrategy)
    (maxKeys : option nat) : StoreM ImportResult :=
  l ← lift (open_import p SIGNING_KEY_EXPORT_FORMAT "keyCount" "keys" "keys in export" (nullish maxKeys MAX_EXPORT_SIGNING_KEYS) x password);
  import_checked (key_exists p)
    (λ address v, match v with
                  | JStr key => setSigningKey p address key
                  | _ => throw (Exn "TypeError" "ERR_INVALID_ARG_TYPE" "The first argument must be of type string")
                  end)
    (nullish strategy ErrorOut) l.
End Provider.

(** ** What is sealed opens *)

Section Laws.
Context `{GcmLaws, RandomLaws, HashLaws}.

Definition salt_ok (salt : list Z) : Prop := length salt = SALT_LENGTH ∧ Forall is_byte salt.

Lemma stable_salt_ok accountId password : salt_ok (privateStateStableSalt accountId password).
Proof. split; [apply sha256_length|apply sha256_bytes]. Qed.

Lemma random_salt_ok n : salt_ok (randomBytes n SALT_LENGTH).
Proof. split; [apply random_length|apply random_bytes]. Qed.

#[local] Hint Resolve stable_salt_ok random_salt_ok : ng.

Lemma sealed_parts version salt iv tag data : version = CURRENT_ENCRYPTION_VERSION → length salt = SALT_LENGTH → length iv = IV_LENGTH →
  length tag = AUTH_TAG_LENGTH → extractEncryptedComponents (version :: salt ++ iv ++ tag ++ data) = Ret (MkComponents salt iv tag data).
Proof.
  intros -> Hs Hi Ht. unfold extractEncryptedComponents. rewrite (proj2 (Nat.ltb_ge _ _)).
  2: { cbn [length]. rewrite !length_app, Hs, Hi, Ht. unfold HEADER_LENGTH. lia. }
  cbn [head nullish]. rewrite bool_decide_eq_true_2 by done. unfold HEADER_LENGTH. cbn [Nat.add drop]. rewrite drop_0.
  f_equal. f_equal.
  - by rewrite take_app_length'.
  - rewrite drop_app_length' by done. by rewrite take_app_length'.
  - rewrite <- drop_drop, drop_app_length' by done. rewrite drop_app_length' by done. by rewrite take_app_length'.
  - rewrite <- drop_drop, <- drop_drop, !drop_app_length' by done. done.
Qed.

Lemma extract_sealed e n data c : salt_ok (se_salt e) → se_encrypt e n data = Ret c →
  let iv := randomBytes n IV_LENGTH in
  let sealed := gcm_seal (se_encryptionKey e) iv (utf8 data) [] in
  extractEncryptedComponents (from_base64 c) = Ret (MkComponents (se_salt e) iv sealed.2 sealed.1).
Proof.
  intros [Hlen Hbytes] Hc. unfold se_encrypt in Hc. apply outcome_bind_ret in Hc as ([] & _ & Hc). cbv zeta in *.
  assert (∀ b b', Ret (base64 b) = Ret b' → b' = base64 b) as Hinj by (intros b b' H'; congruence). apply Hinj in Hc as ->.
  rewrite base64_reads; [rewrite <- app_comm_cons, app_nil_l; apply sealed_parts; auto using gcm_tag_length; apply random_length|].
  apply Forall_cons. split; [unfold is_byte, CURRENT_ENCRYPTION_VERSION; lia|]. repeat apply Forall_app_2; auto using gcm_tag_bytes, gcm_data_bytes, utf8_bytes.
  apply random_bytes.
Qed.

Lemma decrypt_sealed key n data : let iv := randomBytes n IV_LENGTH in
  let sealed := gcm_seal key iv (utf8 data) [] in ∀ salt, decryptComponents (MkComponents salt iv sealed.2 sealed.1) key = Ret data.
Proof. intros iv sealed salt. unfold decryptComponents, sealed. cbn. by rewrite gcm_opens, utf8_reads. Qed.

(** A class that wrote a value, or one of the same password and salt, reads it. *)
Lemma se_decrypt_encrypt e n data c : salt_ok (se_salt e) → se_encrypt e n data = Ret c → se_decrypt e c = Ret data.
Proof.
  intros Hs Hc. unfold se_decrypt. rewrite (extract_sealed _ _ _ _ Hs Hc).
  unfold se_encrypt in Hc. apply outcome_bind_ret in Hc as ([] & -> & _). cbn [mbind outcome_bind ec_salt].
  rewrite bool_decide_eq_true_2 by done. apply decrypt_sealed.
Qed.

Lemma decryptWithPassword_encrypt password salt n data c : salt_ok salt → se_encrypt (newStorageEncryption password salt) n data = Ret c →
  decryptWithPassword c password = Ret data.
Proof. intros Hs Hc. unfold decryptWithPassword. rewrite (extract_sealed (newStorageEncryption password salt) _ _ _ Hs Hc). apply decrypt_sealed. Qed.

Lemma se_encrypt_total password salt n data : ∃ c, se_encrypt (newStorageEncryption password salt) n data = Ret c.
Proof. by eexists. Qed.

(** ** Values of a provider *)

Context `{ScanOrder}.
Variable now : Z.

(** The passwords a provider opens values with. *)
Definition passwords (p : Provider) : list string := pv_password p :: pv_fallbacks p.

(** A value one of them wrote. *)
Definition holds (p : Provider) (ciphertext text : string) : Prop := ∃ pw n,
  pw ∈ passwords p ∧ se_encrypt (newStorageEncryption pw (privateStateStableSalt (pv_accountId p) pw)) n text = Ret ciphertext.

(** The salts name the passwords: SHA-256 has no collision among them. *)
Definition salts_apart (p : Provider) : Prop := ∀ pw pw', pw ∈ passwords p → pw' ∈ passwords p →
  privateStateStableSalt (pv_accountId p) pw = privateStateStableSalt (pv_accountId p) pw' → pw = pw'.

Definition usable_provider (p : Provider) : Prop := (16 ≤ String.length (pv_password p))%nat ∧ salts_apart p.

Definition current_encryption (p : Provider) : StorageEncryption := newStorageEncryption (pv_password p) (privateStateStableSalt (pv_accountId p) (pv_password p)).

Lemma getEncryption_usable p : usable_provider p → getEncryption p = Ret (current_encryption p).
Proof. intros [Hlen _]. unfold getEncryption, getStoragePassword. by rewrite (proj2 (Nat.ltb_ge _ _)). Qed.

Lemma fallback_found p pw : salts_apart p → pw ∈ pv_fallbacks p → fallback_of p (privateStateStableSalt (pv_accountId p) pw) = Some pw.
Proof.
  intros Ha Hpw. unfold fallback_of. destruct (List.find _ _) as [pw'|] eqn:E.
  - apply find_some in E as [Hin Hs%bool_decide_eq_true_1]. f_equal. apply Ha; [right; by apply list_elem_of_In|by right|done].
  - apply list_elem_of_In in Hpw. eapply find_none in E; [|exact Hpw]. by rewrite bool_decide_eq_true_2 in E.
Qed.

(** A stored value opens as what was stored, under the current or an older password. *)
Lemma decryptStored_holds p ciphertext text rewrite s : usable_provider p → holds p ciphertext text →
  ∃ s', decryptStored p ciphertext rewrite s = (Ret text, s').
Proof.
  intros Hu (pw & n & Hpw & Hc). unfold decryptStored. rewrite getEncryption_usable by done. destruct Hu as [_ Ha].
  pose proof (stable_salt_ok (pv_accountId p) pw) as Hs. m_unfold. cbn [lift].
  pose proof (extract_sealed (newStorageEncryption pw (privateStateStableSalt (pv_accountId p) pw)) _ _ _ Hs Hc) as Hx. cbv zeta in Hx.
  destruct (decide (pw = pv_password p)) as [->|Hne].
  - unfold current_encryption. rewrite (se_decrypt_encrypt (newStorageEncryption _ _) _ _ _ Hs Hc). by eexists.
  - assert (∃ e, se_decrypt (current_encryption p) ciphertext = Throw e) as [e ->].
    { unfold se_decrypt. rewrite Hx. cbn. rewrite bool_decide_eq_false_2; [by eexists|]. intros E. apply Hne, Ha; [done|by left|done]. }
    rewrite Hx. cbn [ec_salt newStorageEncryption se_salt].
    apply elem_of_cons in Hpw as [->|Hpw]; [done|]. rewrite fallback_found by done.
    unfold lift, draws. rewrite (decryptWithPassword_encrypt _ _ _ _ _ Hs Hc). unfold try_catch.
    destruct (match se_encrypt _ _ _ with Ret _ => _ | Throw _ => _ end) as [[|] s'] eqn:E; by eexists.
Qed.

(** What an export collects of the rows: their texts read as values. *)
Definition exported (p : Provider) (value : string → outcome json) (row : string * SealedRow) (kv : string * json) : Prop :=
  kv.1 = row.1 ∧ ∃ text, holds p (sl_ciphertext row.2) text ∧ value text = Ret kv.2.

Lemma export_rows_holds p rewrite value rows l : usable_provider p → Forall2 (exported p value) rows l → "__proto__" ∉ rows.*1 →
  ∀ o s, NoDup (rows.*1) → (∀ id, id ∈ rows.*1 → id ∉ o.*1) → ∃ s', export_rows p rewrite value rows o s = (Ret (o ++ l), s').
Proof.
  intros Hu Hall. induction Hall as [|[id row] [k v] rows l [Hk (text & Hh & Hv)] Hall IH]; intros Hp o s Hn Ho.
  { rewrite app_nil_r. by eexists. }
  simpl in Hk, Hh, Hv. subst k. cbn [export_rows]. apply NoDup_cons in Hn as [Hid Hn]. apply not_elem_of_cons in Hp as [Hp Hps].
  destruct (decryptStored_holds p _ text (rewrite id) s Hu Hh) as [s1 Hd]. m_unfold. rewrite Hd. unfold lift. rewrite Hv. unfold js_assign.
  rewrite bool_decide_eq_false_2 by done. rewrite map_set_absent by (apply map_get_None, Ho; left).
  destruct (IH Hps (o ++ [(id, v)]) s1 Hn) as [s2 Hs2].
  { intros i Hi. rewrite fmap_app, not_elem_of_app. split; [apply Ho; by right|]. simpl. by intros ->%list_elem_of_singleton. }
  m_unfold. exists s2. rewrite Hs2. by rewrite <- app_assoc.
Qed.

(** Sealing a payload and opening the export again. *)
Lemma sealExport_opens format payload pw s : (16 ≤ String.length pw)%nat → ∃ x s',
  sealExport format payload pw s = (Ret x, s') ∧ xp_format x = format ∧ is_empty (xp_encryptedPayload x) = false ∧ is_empty (xp_salt x) = false ∧
  validateSaltHex (xp_salt x) = Ret tt ∧ decryptWithPassword (xp_encryptedPayload x) pw = Ret (stringify payload).
Proof.
  intros Hpw. unfold sealExport, validateExportPassword. rewrite (proj2 (Nat.ltb_ge _ _)) by done. m_unfold. unfold lift, draws. cbv beta iota.
  set (n := ss_draws s). pose proof (random_salt_ok n) as Hs. destruct (se_encrypt_total pw (randomBytes n SALT_LENGTH) (n + 1) (stringify payload)) as [c Hc].
  rewrite Hc. eexists _, _. split; [done|]. cbn [xp_format xp_encryptedPayload xp_salt newStorageEncryption se_salt].
  assert (validateSaltHex (to_hex (randomBytes n SALT_LENGTH)) = Ret tt) as Hhex.
  { unfold validateSaltHex. rewrite to_hex_length, random_length. change (2 * SALT_LENGTH =? 64)%nat with true. rewrite andb_true_r.
    erewrite all_chars_impl; [done| |apply to_hex_lower, random_bytes]. unfold is_hex_any, is_hex_lower. intros a Ha. by rewrite Ha. }
  split; [done|]. split; [|split; [|split; [done|by eapply decryptWithPassword_encrypt]]].
  - destruct c; [|done]. pose proof (extract_sealed (newStorageEncryption pw (randomBytes n SALT_LENGTH)) (n + 1) _ _ Hs Hc) as Hx. done.
  - by destruct (to_hex _).
Qed.

(** The checks of an import pass what an export sealed. *)
Lemma open_import_sealed p format countName entriesName what max x pw o : xp_format x = format → is_empty (xp_encryptedPayload x) = false →
  is_empty (xp_salt x) = false → validateSaltHex (xp_salt x) = Ret tt → (16 ≤ String.length pw)%nat → (length o ≤ max)%nat →
  decryptWithPassword (xp_encryptedPayload x) pw =
    Ret (stringify (JObj [("version", JInt 1); (countName, JInt (Z.of_nat (length o))); (entriesName, JObj o)])) →
  json_plain (JObj o) = true → NoDup ["version"; countName; entriesName] →
  open_import p format countName entriesName what max x (Some pw) = Ret o.
Proof.
  intros Hf He Hse Hsalt Hpw Hmax Hd Hplain Hn. unfold open_import, validateExportPassword. rewrite (bool_decide_eq_true_2 _ Hf), He, Hse, Hsalt.
  rewrite (proj2 (Nat.ltb_ge _ _)) by done. cbn [negb orb mbind outcome_bind]. rewrite Hd. cbn [mbind outcome_bind].
  rewrite json_roundtrip.
  2: { cbn [json_plain]. rewrite bool_decide_eq_true_2 by done. cbn [forallb snd]. change (bool_decide (NoDup o.*1) && _) with (json_plain (JObj o)). by rewrite Hplain. }
  assert (countName ≠ entriesName ∧ "version" ≠ countName ∧ "version" ≠ entriesName) as (H1' & H2' & H3') by (clear -Hn; apply NoDup_cons in Hn as [Ha Hn]; apply NoDup_cons in Hn as [Hb _]; set_solver).
  cbn [mbind outcome_bind is_null]. set (payload := JObj _). change (is_null payload) with false. cbv iota.
  assert (json_get entriesName payload = Some (JObj o) ∧ json_get "version" payload = Some (JInt 1) ∧ json_get countName payload = Some (JInt (Z.of_nat (length o))))
    as (-> & -> & ->) by (unfold payload; cbn [json_get map_get]; repeat case_decide; done).
  cbn [is_number negb is_count entries_of]. rewrite !bool_decide_eq_true_2 by (done || left). cbn [negb]. by rewrite (proj2 (Nat.ltb_ge _ _)).
Qed.

(** Saving a state changes its row only, which then holds the value. *)
Lemma save_state_saves p address id v s : usable_provider p → ∃ row s', save_state now p address id v s = (Ret tt, s') ∧
  holds p (sl_ciphertext row) (stringify v) ∧
  states_of (pv_accountId p, address) s' = <[id := row]> (states_of (pv_accountId p, address) s) ∧
  (∀ at_, at_ ≠ (pv_accountId p, address) → states_of at_ s' = states_of at_ s).
Proof.
  intros Hu. unfold save_state. rewrite getEncryption_usable by done. m_unfold. unfold lift, draws. cbv beta iota.
  destruct (se_encrypt_total (pv_password p) (privateStateStableSalt (pv_accountId p) (pv_password p)) (ss_draws s) (stringify v)) as [c Hc].
  unfold current_encryption. rewrite Hc. eexists (MkSealed c (Some DEK_SCHEME) now), _. split; [reflexivity|]. split; [|split].
  - exists (pv_password p), (ss_draws s). split; [by left|done].
  - unfold states_of at 1. cbn. by rewrite lookup_insert_eq.
  - intros at_ Hne. unfold states_of. cbn. by rewrite lookup_insert_ne.
Qed.

Lemma get_state_holds p address id v row s : usable_provider p → pv_contractAddress p = Some address → json_plain v = true →
  states_of (pv_accountId p, address) s !! id = Some row → holds p (sl_ciphertext row) (stringify v) → ∃ s', get_state now p id s = (Ret (Some v), s').
Proof.
  intros Hu Ha Hv Hrow Hh. unfold get_state, requireContractAddress. rewrite Ha. m_unfold. unfold lift, get. rewrite Hrow.
  edestruct (decryptStored_holds p _ _ (upsertPrivateState now p address id) s Hu Hh) as [s' Hd]. rewrite Hd, json_roundtrip by done. by eexists.
Qed.

Lemma state_absent p address id s : pv_contractAddress p = Some address → states_of (pv_accountId p, address) s !! id = None →
  state_exists now p id s = (Ret false, s).
Proof. intros Ha Hn. unfold state_exists, get_state, requireContractAddress. rewrite Ha. m_unfold. unfold lift, get. by rewrite Hn. Qed.

Lemma count_absent p address ids s : pv_contractAddress p = Some address → (∀ id, id ∈ ids → states_of (pv_accountId p, address) s !! id = None) →
  count_conflicts (state_exists now p) ids s = (Ret 0, s).
Proof.
  intros Ha. induction ids as [|id ids IH]; intros Hn; [done|]. cbn [count_conflicts]. m_unfold.
  rewrite (state_absent _ address) by (done || (apply Hn; left)). rewrite IH; [done|]. intros i Hi. apply Hn. by right.
Qed.

Lemma import_entries_absent p address strategy l : usable_provider p → pv_contractAddress p = Some address → ∀ s n, NoDup l.*1 →
  (∀ id, id ∈ l.*1 → states_of (pv_accountId p, address) s !! id = None) →
  ∃ s', import_entries (state_exists now p) (save_state now p address) strategy l (MkImported n 0 0) s = (Ret (MkImported (n + length l) 0 0), s') ∧
    (∀ id v, (id, v) ∈ l → ∃ row, states_of (pv_accountId p, address) s' !! id = Some row ∧ holds p (sl_ciphertext row) (stringify v)) ∧
    (∀ id, id ∉ l.*1 → states_of (pv_accountId p, address) s' !! id = states_of (pv_accountId p, address) s !! id) ∧
    (∀ at_, at_ ≠ (pv_accountId p, address) → states_of at_ s' = states_of at_ s).
Proof.
  intros Hu Ha. induction l as [|[id v] l IH]; intros s n Hn Hs.
  { exists s. rewrite Nat.add_0_r. split; [done|]. split; [by intros ? ? ?%elem_of_nil|done]. }
  cbn [import_entries]. m_unfold. rewrite (state_absent _ address) by (done || (apply Hs; left)). cbn [andb].
  destruct (save_state_saves p address id v s Hu) as (row & s1 & -> & Hh & Hput & Hkeep). apply NoDup_cons in Hn as [Hid Hn].
  cbn [im_imported im_skipped im_overwritten]. destruct (IH s1 (S n) Hn) as (s' & Hrun & Hin & Hout & Hat).
  { intros i Hi. rewrite Hput, lookup_insert_ne by (intros ->; done). apply Hs. by right. }
  exists s'. m_unfold. rewrite Hrun. split; [simpl; by rewrite Nat.add_succ_r|]. split; [|split].
  - intros i w [[= -> ->]|Hi]%elem_of_cons; [|by apply Hin]. exists row. split; [|done]. rewrite (Hout id Hid), Hput. by rewrite lookup_insert_eq.
  - intros i Hi. apply not_elem_of_cons in Hi as [Hne Hi]. rewrite (Hout i Hi), Hput. by rewrite lookup_insert_ne.
  - intros at_ Hne. by rewrite Hat, Hkeep.
Qed.

(** The values a provider can read of its contract. *)
Definition readable (p : Provider) (address : string) (s : StateStore) (vals : gmap string json) : Prop :=
  dom vals = dom (states_of (pv_accountId p, address) s) ∧
  ∀ id v, vals !! id = Some v → json_plain v = true ∧ ∃ row,
    states_of (pv_accountId p, address) s !! id = Some row ∧ holds p (sl_ciphertext row) (stringify v).

Lemma readable_rows p address s vals : readable p address s vals →
  ∃ l, Forall2 (exported p json_parse) (scan (states_of (pv_accountId p, address) s)) l ∧ l ≡ₚ map_to_list vals.
Proof.
  intros [Hdom Hall]. set (rows := states_of _ s) in *. exists ((λ r, (r.1, nullish (vals !! r.1) JNull)) <$> scan rows). split.
  - apply Forall2_fmap_r, Forall_Forall2_diag, Forall_forall. intros [id row] Hin. rewrite (scan_perm rows), elem_of_map_to_list in Hin.
    assert (id ∈ dom vals) as [v Hv]%elem_of_dom by (rewrite Hdom; by apply elem_of_dom_2 in Hin). simpl. rewrite Hv. destruct (Hall id v Hv) as (Hp & row' & Hrow & Hh).
    simplify_eq. split; [done|]. exists (stringify v). split; [done|]. by apply json_roundtrip.
  - rewrite (scan_perm rows). apply NoDup_Permutation; [|apply NoDup_map_to_list|].
    + apply (NoDup_fmap_1 fst). rewrite <- list_fmap_compose. apply (NoDup_fst_map_to_list rows).
    + intros [id v]. rewrite list_elem_of_fmap, elem_of_map_to_list. split.
      * intros ([i row] & [= -> ->] & Hin%elem_of_map_to_list). assert (i ∈ dom vals) as [w Hw]%elem_of_dom by (rewrite Hdom; by apply elem_of_dom_2 in Hin). simpl. by rewrite Hw.
      * intros Hv. destruct (Hall id v Hv) as (_ & row & Hrow & _). exists (id, row). simpl. rewrite Hv. split; [done|]. by apply elem_of_map_to_list.
Qed.

(** C21. What one account exports another can import, within the limits of an
    export: at most 10000 states, whose values hold whole numbers only and no field
    twice, none of them named [__proto__] (which the export loses); both accounts'
    storage passwords have 16 characters and their salts differ. With the states
    of a contract readable under the exporter's current or an older password and an
    export password of 16 characters, the export succeeds, and its import into a
    contract without states, under any strategy for conflicts, succeeds, reports
    every state as imported, leaves the importer's contract with these states and no
    others, each read back as the value that was exported, and leaves every other
    contract's states alone. *)
Theorem export_import_roundtrip (pA pB : Provider) (a b pw : string) (strategy : option ConflictStrategy) (vals : gmap string json) (sA sB : StateStore) :
  usable_provider pA → usable_provider pB → pv_contractAddress pA = Some a → pv_contractAddress pB = Some b → (16 ≤ String.length pw)%nat →
  readable pA a sA vals → "__proto__" ∉ dom vals → (size vals ≤ MAX_EXPORT_STATES)%nat → states_of (pv_accountId pB, b) sB = ∅ →
  ∃ x sA' sB', exportPrivateStates now pA (Some pw) None sA = (Ret x, sA') ∧
    importPrivateStates now pB x (Some pw) strategy None sB = (Ret (MkImported (size vals) 0 0), sB') ∧
    dom (states_of (pv_accountId pB, b) sB') = dom vals ∧
    (∀ id v, vals !! id = Some v → ∃ sB'', get_state now pB id sB' = (Ret (Some v), sB'')) ∧
    (∀ at_, at_ ≠ (pv_accountId pB, b) → states_of at_ sB' = states_of at_ sB).
Proof.
  intros HA HB Ha Hb Hpw Hread Hproto Hmax Hempty. destruct (readable_rows _ _ _ _ Hread) as (l & Hrows & Hl).
  set (rows := scan (states_of (pv_accountId pA, a) sA)) in *.
  assert (l.*1 = rows.*1) as Hkeys by (clear -Hrows; induction Hrows as [|r kv rows l [Hk _] _ IH]; csimpl; congruence).
  assert (length l = size vals) as Hsize by (by rewrite Hl, length_map_to_list).
  assert (length rows = length l) as Hlen by (by eapply Forall2_length).
  assert (NoDup l.*1) as Hnodup by (rewrite Hl; apply NoDup_fst_map_to_list).
  assert (∀ id, id ∈ l.*1 ↔ id ∈ dom vals) as Hids.
  { intros id. rewrite Hl, list_elem_of_fmap, elem_of_dom. split; [intros ([i v] & -> & Hv%elem_of_map_to_list); by eexists|].
    intros [v Hv]. exists (id, v). split; [done|]. by apply elem_of_map_to_list. }
  destruct (export_rows_holds pA (upsertPrivateState now pA a) json_parse rows l HA Hrows ltac:(by rewrite <- Hkeys, Hids) [] sA
              ltac:(by rewrite <- Hkeys) ltac:(intros; apply not_elem_of_nil)) as [s1 Hexp].
  destruct (sealExport_opens PRIVATE_STATE_EXPORT_FORMAT (JObj [("version", JInt CURRENT_EXPORT_VERSION); ("stateCount", JInt (Z.of_nat (length rows))); ("states", JObj l)])
              pw s1 Hpw) as (x & sA' & Hseal & Hf & He & Hse & Hsalt & Hdec).
  assert (json_plain (JObj l) = true) as Hplain.
  { cbn [json_plain]. rewrite bool_decide_eq_true_2 by done. apply forallb_forall. intros [id v] Hin%list_elem_of_In. rewrite Hl, elem_of_map_to_list in Hin.
    exact (proj1 (proj2 Hread id v Hin)). }
  destruct (import_entries_absent pB b (nullish strategy ErrorOut) l HB Hb sB 0 Hnodup) as (sB' & Himp & Hin & Hout & Hat).
  { intros id _. rewrite Hempty. apply lookup_empty. }
  exists x, sA', sB'. split; [|split; [|split; [|split; [|done]]]].
  - unfold exportPrivateStates, requireContractAddress. rewrite Ha. m_unfold. unfold lift, get. fold rows. cbn [nullish]. rewrite (proj2 (Nat.ltb_ge _ _)) by lia.
    rewrite Hexp. exact Hseal.
  - unfold importPrivateStates, requireContractAddress. rewrite Hb. m_unfold. unfold lift. rewrite Hlen in Hdec.
    rewrite (open_import_sealed _ _ _ _ _ _ _ _ l) by (done || (cbn [nullish]; lia) || (repeat constructor; set_solver)).
    unfold import_checked. rewrite Hsize in Himp. case_bool_decide; m_unfold; [rewrite (count_absent _ b) by (done || (intros; rewrite Hempty; apply lookup_empty))|]; exact Himp.
  - apply set_eq. intros id. rewrite <- Hids. rewrite elem_of_dom. split; [|intros ([i v] & -> & Hi)%list_elem_of_fmap; destruct (Hin i v Hi) as (r & Hr & _); by exists r].
    intros [r Hr]. destruct (decide (id ∈ l.*1)) as [|Hni]; [done|]. by rewrite (Hout id Hni), Hempty, lookup_empty in Hr.
  - intros id v Hv. destruct (Hin id v ltac:(rewrite Hl; by apply elem_of_map_to_list)) as (row & Hrow & Hh). eapply get_state_holds; [done..| |done|done].
    exact (proj1 (proj2 Hread id v Hv)).
Qed.
End Laws.

(** ** A run *)

Section Example.
#[local] Existing Instances key_order toy_gcm toy_gcm_laws toy_random toy_random_laws toy_hashes toy_hash_laws.

Definition old_provider : Provider := MkProvider "alice" "an older password" [] (Some "c1").
Definition new_provider : Provider := MkProvider "alice" "the current password" ["an older password"] (Some "c1").
Definition other_provider : Provider := MkProvider "bob" "bob's own password" [] (Some "c2").

Definition ex_values : gmap string json := {[ "notes" := JArr [JInt 1; JStr "é"]; "total" := JObj [("sum", JInt (-5))] ]}.
Definition no_states : StateStore := MkStateStore ∅ ∅ ∅ 0.
(** One state is from before the password changed. *)
Definition ex_states : StateStore :=
  ((_ ← set_state 100 old_provider "notes" (JArr [JInt 1; JStr "é"]); set_state 200 new_provider "total" (JObj [("sum", JInt (-5))])) no_states).2.

Lemma ex_new_usable : usable_provider new_provider.
Proof.
  split; [vm_compute; lia|]. intros pw pw'. unfold passwords. simpl. rewrite !elem_of_cons, !elem_of_nil.
  intros [->|[->|[]]] [->|[->|[]]]; [done|vm_compute; discriminate|vm_compute; discriminate|done].
Qed.

Lemma ex_other_usable : usable_provider other_provider.
Proof. split; [vm_compute; lia|]. intros pw pw'. unfold passwords. simpl. rewrite !elem_of_cons, !elem_of_nil. by intros [->|[]] [->|[]]. Qed.

Lemma ex_readable : readable new_provider "c1" ex_states ex_values.
Proof.
  split; [by apply (bool_decide_unpack _); vm_compute|]. intros id v Hv. unfold ex_values in Hv. apply lookup_insert_Some in Hv as [[<- <-]|[_ [<- <-]%lookup_singleton_Some]].
  - split; [reflexivity|]. eexists. split; [vm_compute; reflexivity|]. exists "an older password", 0. split; [right; left|]. vm_compute. reflexivity.
  - split; [reflexivity|]. eexists. split; [vm_compute; reflexivity|]. exists "the current password", 1. split; [left|]. vm_compute. reflexivity.
Qed.

Lemma export_import_roundtrip_witness : ∃ x sA' sB',
  exportPrivateStates 300 new_provider (Some "password of the export") None ex_states = (Ret x, sA') ∧
  importPrivateStates 300 other_provider x (Some "password of the export") None None no_states = (Ret (MkImported 2 0 0), sB') ∧
  dom (states_of ("bob", "c2") sB') = dom ex_values ∧
  (∀ id v, ex_values !! id = Some v → ∃ sB'', get_state 300 other_provider id sB' = (Ret (Some v), sB'')) ∧
  (∀ at_, at_ ≠ ("bob", "c2") → states_of at_ sB' = states_of at_ no_states).
Proof.
  apply (export_import_roundtrip 300 new_provider other_provider "c1" "c2" "password of the export" None ex_values ex_states no_states ex_new_usable
           ex_other_usable eq_refl eq_refl ltac:(vm_compute; lia) ex_readable ltac:(vm_compute; set_solver) ltac:(vm_compute; lia) eq_refl).
Defined.

(** A state named [__proto__] can be stored and read, but its export is refused. *)
Definition proto_states : StateStore := (set_state 100 new_provider "__proto__" (JInt 1) no_states).2.

Lemma proto_reads : (get_state 200 new_provider "__proto__" proto_states).1 = Ret (Some (JInt 1)).
Proof. vm_compute. reflexivity. Qed.

Lemma proto_export_refused : ∃ x s, exportPrivateStates 300 new_provider (Some "password of the export") None proto_states = (Ret x, s) ∧
  (importPrivateStates 300 other_provider x (Some "password of the export") None None no_states).1 = Throw ExportDecryptionError.
Proof. eexists _, _. split; [vm_compute; reflexivity|]. vm_compute. reflexivity. Qed.
End Example.
