(* ===== verification/SyncStates.v ===== *)
(** The saved state of an account's wallet (srv/submission/wallet-sync-state-store.ts):
    the snapshots of its three sub-wallets, written under a passphrase of the
    account's data key and read back under it or an older one.

    What [resolveAccountDek] answers (file AccountKeys) is an argument. A write that a
    lock delays is repeated (file Retry); it is the same write. The cache of derived
    keys saves deriving them again and is not modelled, nor the queue of the writes. *)
From Stdlib Require Import Ascii.
From S2P Require Import Prelude Db Json Numbers Scale ScaleFacts Envelope AccountKeys StoredStates.

Set Warnings "-register-all".

Local Open Scope string_scope.
Local Open Scope list_scope.

Definition SYNC_STATE_INFO : string := "nightgate/sync-state/v2".
Definition SALT_LABEL_V1 : string := "nightgate-wallet-sync-salt-v1".
Definition SALT_LABEL_V2 : string := "nightgate-wallet-sync-salt-v2".
Definition SALT_LABEL_DEK : string := "nightgate-wallet-sync-salt-dek1".

(** What a snapshot may be encrypted with. *)
Record Candidate := MkCandidate { ca_keyId : option string; ca_passphrase : string; ca_label : string; ca_legacy : bool }.

Record SerializedWalletStates := MkWalletStates { ws_shielded : option string; ws_unshielded : option string; ws_dust : option string }.

Record SaveSyncStateArgs := MkSave {
  sa_accountId : string; sa_passphrase : string; sa_sdkVersion : string; sa_states : SerializedWalletStates;
  sa_networkId : option string; sa_seedFingerprint : option string }.

Record LoadSyncStateArgs := MkLoad {
  la_accountId : string; la_passphrase : string; la_expectedSdkVersion : string;
  la_expectedNetworkId : option string; la_expectedSeedFingerprint : option string }.

Record LoadedSyncState := MkLoaded { lo_states : SerializedWalletStates; lo_savedAt : Z }.

(** [if (x)] on a text that may be absent. *)
Definition truthy_text (s : option string) : option string :=
  match s with Some t => if is_empty t then None else Some t | None => None end.

Definition saltOf (blob : string) : option (list Z) :=
  match extractEncryptedComponents (from_base64 blob) with Ret c => Some (ec_salt c) | Throw _ => None end.

(** Both present and different. *)
Definition differs (expected stored : option string) : bool :=
  match truthy_text expected, truthy_text stored with Some e, Some x => negb (bool_decide (x = e)) | _, _ => false end.

Section SyncState.
Context `{Gcm, Random, Hashes}.
Variable now : Z.

Definition boundPassphrase (ring : KeyRing) (keyId passphrase : string) : outcome string :=
  to_hex <$> deriveBoundSecret ring keyId passphrase SYNC_STATE_INFO.

Definition deriveStableSalt (accountId passphrase label : string) : list Z :=
  sha256 (utf8 (join_with "|" [passphrase; accountId; label])).

Definition syncStatePassphraseCandidates (ring : KeyRing) (passphrase : string) : outcome (list Candidate) :=
  out ← map_outcome (λ id, p ← boundPassphrase ring id passphrase; Ret (MkCandidate (Some id) p SALT_LABEL_V2 false)) (ids_active_first ring);
  Ret (out ++ [MkCandidate None passphrase SALT_LABEL_V1 true]).

(** The class of the account's passphrase. *)
Definition sync_encryption (accountId passphrase : string) : StorageEncryption :=
  newStorageEncryption passphrase (deriveStableSalt accountId passphrase SALT_LABEL_DEK).

(** The text and whether it is under the account key. *)
Definition decryptSyncBlob (accountId blob passphrase : string) (ring : KeyRing) (dekPassphrase : option string) : outcome (option (string * bool)) :=
  match saltOf blob with
  | None => Ret None
  | Some salt =>
      match (d ← truthy_text dekPassphrase; if bool_decide (deriveStableSalt accountId d SALT_LABEL_DEK = salt) then Some d else None) with
      | Some d => Ret (match se_decrypt (sync_encryption accountId d) blob with Ret text => Some (text, true) | Throw _ => None end)
      | None =>
          candidates ← syncStatePassphraseCandidates ring passphrase;
          Ret (match List.find (λ c, bool_decide (deriveStableSalt accountId (ca_passphrase c) (ca_label c) = salt)) candidates with
               | Some c => match decryptWithPassword blob (ca_passphrase c) with Ret text => Some (text, false) | Throw _ => None end
               | None => None
               end)
      end
  end.

(** A snapshot that is given, encrypted. *)
Definition seal_given (enc : StorageEncryption) (text : option string) : StoreM (option string) :=
  match truthy_text text with
  | Some t => n ← draws 1; c ← lift (se_encrypt enc n t); mret (Some c)
  | None => mret None
  end.

(** A stored snapshot that the new ones leave alone, under the account key. *)
Definition carry (enc : StorageEncryption) (accountId passphrase : string) (ring : KeyRing) (dekPassphrase : string) (blob : option string) :
    StoreM (option string) :=
  match truthy_text blob with
  | None => mret None
  | Some b =>
      if bool_decide (saltOf b = Some (se_salt enc)) then mret (Some b)
      else
        plain ← lift (decryptSyncBlob accountId b passphrase ring (Some dekPassphrase));
        match plain with
        | None => mret None
        | Some (text, _) => n ← draws 1; c ← lift (se_encrypt enc n text); mret (Some c)
        end
  end.

(** [cipher ?? await carry(blob)] *)
Definition or_carry (cipher : option string) (carried : StoreM (option string)) : StoreM (option string) :=
  match cipher with Some c => mret (Some c) | None => carried end.

Definition saveSyncState (ring : KeyRing) (resolved : outcome (option (list Z))) (args : SaveSyncStateArgs) : StoreM unit :=
  let acc := sa_accountId args in
  if is_empty acc then throw (js_error "saveSyncState: accountId is required")
  else if is_empty (sa_passphrase args) then throw (js_error "saveSyncState: passphrase is required")
  else if is_empty (sa_sdkVersion args) then throw (js_error "saveSyncState: sdkVersion is required")
  else
    dek ← lift resolved;
    match dek with
    | None => throw (js_error "saveSyncState: the account key could not be resolved")
    | Some d =>
        let dekPassphrase := syncStatePassphraseFromDek d acc in
        let enc := sync_encryption acc dekPassphrase in
        shielded ← seal_given enc (ws_shielded (sa_states args));
        unshielded ← seal_given enc (ws_unshielded (sa_states args));
        dust ← seal_given enc (ws_dust (sa_states args));
        s ← get;
        match ss_syncStates s !! acc with
        | Some row =>
            let carried := carry enc acc (sa_passphrase args) ring dekPassphrase in
            shielded ← or_carry shielded (carried (sy_shielded row));
            unshielded ← or_carry unshielded (carried (sy_unshielded row));
            dust ← or_carry dust (carried (sy_dust row));
            put_sync acc (MkSyncState shielded unshielded dust (Some DEK_SCHEME) (sa_sdkVersion args)
              (match sa_networkId args with Some x => Some x | None => sy_networkId row end)
              (match sa_seedFingerprint args with Some x => Some x | None => sy_seedFingerprint row end) now)
        | None =>
            put_sync acc (MkSyncState shielded unshielded dust (Some DEK_SCHEME) (sa_sdkVersion args) (sa_networkId args) (sa_seedFingerprint args) now)
        end
    end.

(** One snapshot of the row: [Ret None] is the return of null. *)
Definition load_blob (accountId passphrase : string) (ring : KeyRing) (dekPassphrase blob : option string) : outcome (option (option string)) :=
  match truthy_text blob with
  | None => Ret (Some None)
  | Some b =>
      plain ← decryptSyncBlob accountId b passphrase ring dekPassphrase;
      Ret (match plain with Some (text, _) => Some (Some text) | None => None end)
  end.

Definition loadSyncState (ring : KeyRing) (resolved : outcome (option (list Z))) (args : LoadSyncStateArgs) (s : StateStore) :
    outcome (option LoadedSyncState) :=
  let acc := la_accountId args in
  if is_empty acc then Throw (js_error "loadSyncState: accountId is required")
  else if is_empty (la_passphrase args) then Throw (js_error "loadSyncState: passphrase is required")
  else if is_empty (la_expectedSdkVersion args) then Throw (js_error "loadSyncState: expectedSdkVersion is required")
  else
    match ss_syncStates s !! acc with
    | None => Ret None
    | Some row =>
        if negb (bool_decide (sy_sdkVersion row = la_expectedSdkVersion args)) then Ret None
        else if differs (la_expectedNetworkId args) (sy_networkId row) then Ret None
        else if differs (la_expectedSeedFingerprint args) (sy_seedFingerprint row) then Ret None
        else
          match resolved with
          | Throw _ => Ret None
          | Ret dek =>
              let dekPassphrase := (λ d, syncStatePassphraseFromDek d acc) <$> dek in
              let load := load_blob acc (la_passphrase args) ring dekPassphrase in
              shielded ← load (sy_shielded row);
              match shielded with
              | None => Ret None
              | Some sh =>
                  unshielded ← load (sy_unshielded row);
                  match unshielded with
                  | None => Ret None
                  | Some un =>
                      dust ← load (sy_dust row);
                      Ret (match dust with None => None | Some du => Some (MkLoaded (MkWalletStates sh un du) (sy_updatedAt row)) end)
                  end
              end
          end
    end.
End SyncState.

(** ** What is saved loads *)

Section Laws.
Context `{GcmLaws, RandomLaws, HashLaws}.
Variables (now : Z) (ring : KeyRing) (acc passphrase : string) (dek : list Z).
Hypothesis Hring : ring_ok ring.

#[local] Notation dp := (syncStatePassphraseFromDek dek acc).
#[local] Notation enc := (sync_encryption acc dp).

Lemma ids_in_ring id : id ∈ ids_active_first ring → ring_has ring id = true.
Proof.
  destruct Hring as [_ Ha]. unfold ids_active_first. intros [->|Hid]%elem_of_cons; [done|].
  unfold keep in Hid. apply list_elem_of_filter in Hid as [_ Hid]. unfold ring_has, map_has. destruct (map_get id (kr_keks ring)) eqn:E; [done|].
  apply map_get_None in E. by unfold ring_ids in Hid.
Qed.

Lemma map_outcome_total {A B} (f : A → outcome B) l : (∀ x, x ∈ l → ∃ y, f x = Ret y) → ∃ ys, map_outcome f l = Ret ys.
Proof.
  induction l as [|x l IH]; intros Hf; [by eexists|]. destruct (Hf x (list_elem_of_here _ _)) as [y Hy].
  destruct IH as [ys Hys]; [by intros z Hz; apply Hf; right|]. exists (y :: ys). cbn. by rewrite Hy, Hys.
Qed.

Lemma candidates_total p : ∃ cs, syncStatePassphraseCandidates ring p = Ret cs.
Proof.
  unfold syncStatePassphraseCandidates. destruct (map_outcome_total (λ id, p0 ← boundPassphrase ring id p; Ret (MkCandidate (Some id) p0 SALT_LABEL_V2 false)) (ids_active_first ring)) as [cs ->].
  - intros id Hid%ids_in_ring. unfold boundPassphrase, deriveBoundSecret, ring_kek. unfold ring_has, map_has in Hid. destruct (map_get id _); [by eexists|done].
  - by eexists.
Qed.

Lemma decryptSyncBlob_total b : ∃ o, decryptSyncBlob acc b passphrase ring (Some dp) = Ret o.
Proof.
  unfold decryptSyncBlob. destruct (saltOf b); [|by eexists]. destruct (truthy_text (Some dp) ≫= _); [by eexists|].
  destruct (candidates_total passphrase) as [cs ->]. by eexists.
Qed.

Lemma dp_truthy : truthy_text (Some dp) = Some dp.
Proof.
  unfold truthy_text. destruct (is_empty dp) eqn:E; [|done]. exfalso.
  assert (String.length dp = 64) as Hl by (unfold syncStatePassphraseFromDek, dekPassword; by rewrite to_hex_length, hkdf_length).
  by destruct dp.
Qed.

Lemma enc_salt_ok : salt_ok (se_salt enc).
Proof. split; [apply sha256_length|apply sha256_bytes]. Qed.

Lemma saltOf_sealed n t c : se_encrypt enc n t = Ret c → saltOf c = Some (se_salt enc).
Proof. intros Hc. unfold saltOf. by rewrite (extract_sealed _ _ _ _ enc_salt_ok Hc). Qed.

(** What the account reads of a snapshot. *)
Definition reads (blob expected : option string) : Prop := load_blob acc passphrase ring (Some dp) blob = Ret (Some expected).

Lemma reads_sealed n t c : se_encrypt enc n t = Ret c → reads (Some c) (Some t).
Proof.
  intros Hc. pose proof (saltOf_sealed _ _ _ Hc) as Hsalt. unfold reads, load_blob.
  assert (truthy_text (Some c) = Some c) as -> by (unfold truthy_text; by destruct c). unfold decryptSyncBlob. rewrite Hsalt, dp_truthy. cbn [mbind option_bind].
  change (se_salt enc) with (deriveStableSalt acc dp SALT_LABEL_DEK). rewrite bool_decide_eq_true_2 by done.
  by rewrite (se_decrypt_encrypt _ _ _ _ enc_salt_ok Hc).
Qed.

(** What a stored snapshot is worth: its text, or nothing when no key at hand opens it. *)
Definition worth (blob : option string) : option string :=
  match load_blob acc passphrase ring (Some dp) blob with Ret (Some t) => t | _ => None end.

(** A snapshot already under the account key opens. *)
Definition intact (blob : option string) : Prop := ∀ b, truthy_text blob = Some b → saltOf b = Some (se_salt enc) → reads blob (worth blob).

Definition same_rows (s s' : StateStore) : Prop := ss_syncStates s' = ss_syncStates s.

Lemma seal_given_ok text s : ∃ c s', seal_given enc text s = (Ret c, s') ∧ same_rows s s' ∧
  match truthy_text text with Some t => ∃ ct, c = Some ct ∧ reads c (Some t) | None => c = None end.
Proof.
  unfold seal_given. destruct (truthy_text text) as [t|]; [|by exists None, s]. m_unfold. unfold lift, draws. cbv beta iota.
  destruct (se_encrypt_total dp (deriveStableSalt acc dp SALT_LABEL_DEK) (ss_draws s) t) as [c Hc]. unfold sync_encryption. rewrite Hc.
  eexists _, _. split; [done|]. split; [done|]. exists c. split; [done|]. by eapply reads_sealed.
Qed.

Lemma carry_ok blob s : intact blob → ∃ c s', carry enc acc passphrase ring dp blob s = (Ret c, s') ∧ same_rows s s' ∧ reads c (worth blob).
Proof.
  intros Hi. unfold carry. destruct (truthy_text blob) as [b|] eqn:Eb.
  2: { exists None, s. split; [done|]. split; [done|]. unfold reads, worth, load_blob. by rewrite Eb. }
  case_bool_decide as Hs.
  { exists (Some b), s. split; [done|]. split; [done|]. assert (blob = Some b) as <- by (unfold truthy_text in Eb; destruct blob as [x|]; [by destruct (is_empty x); simplify_eq|done]).
    by apply (Hi b). }
  m_unfold. unfold lift. destruct (decryptSyncBlob_total b) as [o Ho]. rewrite Ho. unfold worth, load_blob. rewrite Eb, Ho. cbn [mbind outcome_bind].
  destruct o as [[t under]|]; [|by exists None, s].
  unfold draws. destruct (se_encrypt_total dp (deriveStableSalt acc dp SALT_LABEL_DEK) (ss_draws s) t) as [c Hc]. unfold sync_encryption. rewrite Hc.
  eexists _, _. split; [done|]. split; [done|]. by eapply reads_sealed.
Qed.

(** The new snapshot, or else what the stored one is worth. *)
Definition merged (new old : option string) : option string := match truthy_text new with Some t => Some t | None => worth old end.

Lemma or_carry_ok new c old s : intact old →
  match truthy_text new with Some t => ∃ ct, c = Some ct ∧ reads c (Some t) | None => c = None end →
  ∃ c' s', or_carry c (carry enc acc passphrase ring dp old) s = (Ret c', s') ∧ same_rows s s' ∧ reads c' (merged new old).
Proof.
  intros Hi Hc. unfold merged. destruct (truthy_text new) as [t|].
  - destruct Hc as (ct & -> & Hr). by exists (Some ct), s.
  - subst c. by apply carry_ok.
Qed.

Lemma worth_none : worth None = None.
Proof. done. Qed.

Lemma intact_none : intact None.
Proof. by intros b. Qed.
End Laws.

Definition no_row : SyncStateRow := MkSyncState None None None None EmptyString None None 0.
Definition row_of (s : StateStore) (acc : string) : SyncStateRow := nullish (ss_syncStates s !! acc) no_row.
Definition or_old {A} (new old : option A) : option A := match new with Some x => Some x | None => old end.

Section Saved.
Context `{GcmLaws, RandomLaws, HashLaws}.

(** The row a save leaves behind. *)
Lemma save_row now ring acc passphrase dek sdk states network fingerprint s : ring_ok ring →
  is_empty acc = false → is_empty passphrase = false → is_empty sdk = false →
  intact ring acc passphrase dek (sy_shielded (row_of s acc)) → intact ring acc passphrase dek (sy_unshielded (row_of s acc)) →
  intact ring acc passphrase dek (sy_dust (row_of s acc)) →
  ∃ s' sh un du, saveSyncState now ring (Ret (Some dek)) (MkSave acc passphrase sdk states network fingerprint) s = (Ret tt, s') ∧
    ss_syncStates s' = <[acc := MkSyncState sh un du (Some DEK_SCHEME) sdk (or_old network (sy_networkId (row_of s acc)))
                                  (or_old fingerprint (sy_seedFingerprint (row_of s acc))) now]> (ss_syncStates s) ∧
    reads ring acc passphrase dek sh (merged ring acc passphrase dek (ws_shielded states) (sy_shielded (row_of s acc))) ∧
    reads ring acc passphrase dek un (merged ring acc passphrase dek (ws_unshielded states) (sy_unshielded (row_of s acc))) ∧
    reads ring acc passphrase dek du (merged ring acc passphrase dek (ws_dust states) (sy_dust (row_of s acc))).
Proof.
  intros Hr Ha Hp Hv Hsh Hun Hdu. unfold saveSyncState. cbn [sa_accountId sa_passphrase sa_sdkVersion sa_states sa_networkId sa_seedFingerprint]. rewrite Ha, Hp, Hv.
  m_unfold. unfold lift. cbv zeta beta iota.
  destruct (seal_given_ok ring acc passphrase dek (ws_shielded states) s) as (c1 & s1 & E1 & S1 & R1). rewrite E1.
  destruct (seal_given_ok ring acc passphrase dek (ws_unshielded states) s1) as (c2 & s2 & E2 & S2' & R2). rewrite E2.
  destruct (seal_given_ok ring acc passphrase dek (ws_dust states) s2) as (c3 & s3 & E3 & S3 & R3). rewrite E3. unfold get. unfold same_rows in *.
  assert (ss_syncStates s3 = ss_syncStates s) as Hs3 by congruence. unfold row_of in *. rewrite Hs3. destruct (ss_syncStates s !! acc) as [row|]; cbn [nullish] in *.
  - destruct (or_carry_ok ring acc passphrase dek Hr (ws_shielded states) c1 (sy_shielded row) s3 Hsh R1) as (d1 & s4 & F1 & T1 & Q1). rewrite F1.
    destruct (or_carry_ok ring acc passphrase dek Hr (ws_unshielded states) c2 (sy_unshielded row) s4 Hun R2) as (d2 & s5 & F2 & T2 & Q2). rewrite F2.
    destruct (or_carry_ok ring acc passphrase dek Hr (ws_dust states) c3 (sy_dust row) s5 Hdu R3) as (d3 & s6 & F3 & T3 & Q3). rewrite F3.
    unfold same_rows in *. eexists _, d1, d2, d3. split; [reflexivity|]. split; [|done]. simpl. by rewrite T3, T2, T1, Hs3.
  - eexists _, c1, c2, c3. split; [reflexivity|]. split; [simpl; rewrite Hs3; by destruct network, fingerprint|].
    assert (∀ new c, match truthy_text new with Some t => ∃ ct, c = Some ct ∧ reads ring acc passphrase dek c (Some t) | None => c = None end →
              reads ring acc passphrase dek c (merged ring acc passphrase dek new None)) as Hnew.
    { intros new c Hc. unfold merged. destruct (truthy_text new); [by destruct Hc as (? & _ & ?)|by subst c]. }
    repeat split; by apply Hnew.
Qed.

(** A saved wallet state loads again: after a save under the account's data key,
    a load for the same account, passphrase and SDK version, with no expected network
    or seed that differs from the stored one, returns for each of the three
    sub-wallets the snapshot just saved or, where none was given, what the stored one
    was worth before: its text also when an older key had written it, and nothing
    when no key at hand opens it. A save leaves the other accounts' rows alone. *)
Theorem saved_sync_state_loads now ring acc passphrase dek sdk states network fingerprint expectedNetwork expectedFingerprint s :
  ring_ok ring → is_empty acc = false → is_empty passphrase = false → is_empty sdk = false →
  intact ring acc passphrase dek (sy_shielded (row_of s acc)) → intact ring acc passphrase dek (sy_unshielded (row_of s acc)) →
  intact ring acc passphrase dek (sy_dust (row_of s acc)) →
  differs expectedNetwork (or_old network (sy_networkId (row_of s acc))) = false →
  differs expectedFingerprint (or_old fingerprint (sy_seedFingerprint (row_of s acc))) = false →
  ∃ s', saveSyncState now ring (Ret (Some dek)) (MkSave acc passphrase sdk states network fingerprint) s = (Ret tt, s') ∧
    loadSyncState ring (Ret (Some dek)) (MkLoad acc passphrase sdk expectedNetwork expectedFingerprint) s' =
      Ret (Some (MkLoaded (MkWalletStates (merged ring acc passphrase dek (ws_shielded states) (sy_shielded (row_of s acc)))
                                          (merged ring acc passphrase dek (ws_unshielded states) (sy_unshielded (row_of s acc)))
                                          (merged ring acc passphrase dek (ws_dust states) (sy_dust (row_of s acc)))) now)) ∧
    (∀ acc', acc' ≠ acc → ss_syncStates s' !! acc' = ss_syncStates s !! acc').
Proof.
  intros Hr Ha Hp Hv Hsh Hun Hdu Hnet Hfp.
  destruct (save_row now ring acc passphrase dek sdk states network fingerprint s Hr Ha Hp Hv Hsh Hun Hdu) as (s' & sh & un & du & Hsave & Hrow & R1 & R2 & R3).
  exists s'. split; [done|]. split; [|by intros acc' Hne; rewrite Hrow, lookup_insert_ne].
  unfold loadSyncState. cbn [la_accountId la_passphrase la_expectedSdkVersion la_expectedNetworkId la_expectedSeedFingerprint]. rewrite Ha, Hp, Hv, Hrow, lookup_insert_eq.
  cbn [sy_sdkVersion sy_networkId sy_seedFingerprint sy_shielded sy_unshielded sy_dust sy_updatedAt]. rewrite bool_decide_eq_true_2 by done. rewrite Hnet, Hfp.
  unfold reads in *. cbn [negb fmap option_fmap option_map]. by rewrite R1, R2, R3.
Qed.
End Saved.

(** ** A run *)

Section Example.
#[local] Existing Instances toy_gcm toy_gcm_laws toy_random toy_random_laws toy_hashes toy_hash_laws.

(** The row has a snapshot from before the account key, and one that nothing opens. *)
Definition old_snapshot : string := Eval vm_compute in
  match se_encrypt (newStorageEncryption "storage password" (deriveStableSalt "acct" "storage password" SALT_LABEL_V1)) 7 "shielded state" with
  | Ret c => c
  | Throw _ => EmptyString
  end.

Definition synced : StateStore :=
  MkStateStore ∅ ∅ {[ "acct" := MkSyncState (Some old_snapshot) (Some "junk") None None "sdk@1" (Some "preprod") None 5 ]} 0.

Definition ex_dek : list Z := replicate 32 9%Z.

Definition ex_new : SerializedWalletStates := MkWalletStates None None (Some "dust state").
#[local] Notation ex_merged f g := (merged example_ring "acct" "storage password" ex_dek (f ex_new) (g (row_of synced "acct"))).

Lemma ex_shielded : ex_merged ws_shielded sy_shielded = Some "shielded state".
Proof. vm_compute. reflexivity. Qed.
Lemma ex_unshielded : ex_merged ws_unshielded sy_unshielded = None.
Proof. vm_compute. reflexivity. Qed.
Lemma ex_dust : ex_merged ws_dust sy_dust = Some "dust state".
Proof. vm_compute. reflexivity. Qed.

Lemma ex_intact : intact example_ring "acct" "storage password" ex_dek (sy_shielded (row_of synced "acct")) ∧
  intact example_ring "acct" "storage password" ex_dek (sy_unshielded (row_of synced "acct")) ∧
  intact example_ring "acct" "storage password" ex_dek (sy_dust (row_of synced "acct")).
Proof.
  split; [|split]; [intros b Hb Hs; exfalso; revert Hs; vm_compute in Hb; injection Hb as <-; vm_compute; discriminate..|by intros b].
Qed.

#[local] Opaque merged saveSyncState loadSyncState intact example_ring.

Lemma saved_sync_state_loads_witness : ∃ s',
  saveSyncState 60 example_ring (Ret (Some ex_dek)) (MkSave "acct" "storage password" "sdk@2" ex_new None None) synced = (Ret tt, s') ∧
  loadSyncState example_ring (Ret (Some ex_dek)) (MkLoad "acct" "storage password" "sdk@2" (Some "preprod") (Some "f")) s' =
    Ret (Some (MkLoaded (MkWalletStates (Some "shielded state") None (Some "dust state")) 60)) ∧
  (∀ acc', acc' ≠ "acct" → ss_syncStates s' !! acc' = ss_syncStates synced !! acc').
Proof.
  destruct ex_intact as (I1 & I2 & I3).
  destruct (saved_sync_state_loads 60 example_ring "acct" "storage password" ex_dek "sdk@2" ex_new None None
              (Some "preprod") (Some "f") synced example_ring_ok eq_refl eq_refl eq_refl I1 I2 I3 eq_refl eq_refl) as (s' & Hs & Hl & Ho).
  exists s'. rewrite ex_shielded, ex_unshielded, ex_dust in Hl. exact (conj Hs (conj Hl Ho)).
Defined.
End Example.
