(* ===== verification/KeyRotation.v ===== *)
(** Changing the encryption key (srv/utils/encryption-rewrap.ts): the check at
    start-up that the ring has every key in use, and the tool that encrypts all stored
    values again under the active key and moves rows from before the account keys
    under these. *)
From Stdlib Require Import Ascii.
From stdpp Require Import countable.
From S2P Require Import Prelude Db Json Numbers Scale ScaleFacts Envelope Threads AccountKeys StoredStates SyncStates.

Set Warnings "-register-all".

Local Open Scope string_scope.
Local Open Scope list_scope.

(** ** The tables

    Of each row the columns the tool reads or writes. *)

Record SessionSecrets := MkSecrets { vs_sessionId : string; vs_encryptedViewingKey : option string; vs_encryptedSeedKey : option string }.
Record JobSecret := MkJobSecret { vj_command : option string; vj_commandEncoding : option string }.

(** WalletSessions, BackgroundJobs and HolderDisclosureGrants by id (of these the
    content), AccountKeys by account, and the tables of stored states. *)
Record Vault := MkVault {
  va_sessions : gmap string SessionSecrets; va_jobs : gmap string JobSecret; va_disclosures : gmap string (option string);
  va_keys : KeyStore; va_stored : StateStore }.

Definition with_session_rows (t : gmap string SessionSecrets) (v : Vault) : Vault := MkVault t (va_jobs v) (va_disclosures v) (va_keys v) (va_stored v).
Definition with_jobs (t : gmap string JobSecret) (v : Vault) : Vault := MkVault (va_sessions v) t (va_disclosures v) (va_keys v) (va_stored v).
Definition with_disclosures (t : gmap string (option string)) (v : Vault) : Vault := MkVault (va_sessions v) (va_jobs v) t (va_keys v) (va_stored v).
Definition with_keys (k : KeyStore) (v : Vault) : Vault := MkVault (va_sessions v) (va_jobs v) (va_disclosures v) k (va_stored v).
Definition with_stored (s : StateStore) (v : Vault) : Vault := MkVault (va_sessions v) (va_jobs v) (va_disclosures v) (va_keys v) s.

Abbreviation VaultM := (M Vault).

Definition on_keys {A} (m : M KeyStore A) : VaultM A := λ v, let '(o, k) := m (va_keys v) in (o, with_keys k v).
Definition on_stored {A} (m : M StateStore A) : VaultM A := λ v, let '(o, s) := m (va_stored v) in (o, with_stored s v).

Definition ring_draws (n : nat) : VaultM nat := on_keys (λ s, (Ret (st_draws s), with_draws (st_draws s + n) s)).

(** ** The encrypted columns *)

(** A value, whether the column's condition holds of its row, and what it is bound to. *)
Record Cell := MkCell { ce_value : option string; ce_where : bool; ce_binding : EnvelopeBinding }.

Record CiphertextColumn := MkColumn {
  cc_name : string; cc_cells : Vault → gmap string Cell; cc_write : Z → string → string → Vault → Vault; cc_plainPrefix : option string }.

Definition BARE_VIEWING_KEY_SEAL_PREFIX : string := "vk1:".

Definition viewing_key_column : CiphertextColumn := MkColumn "midnight.WalletSessions.encryptedViewingKey"
  (λ v, (λ r, MkCell (vs_encryptedViewingKey r) true (walletSessionViewingKeyBinding (vs_sessionId r))) <$> va_sessions v)
  (λ _ id x v, with_session_rows (alter (λ r, MkSecrets (vs_sessionId r) (Some x) (vs_encryptedSeedKey r)) id (va_sessions v)) v) None.

Definition seed_column : CiphertextColumn := MkColumn "midnight.WalletSessions.encryptedSeedKey"
  (λ v, (λ r, MkCell (vs_encryptedSeedKey r) true (walletSessionSeedBinding (vs_sessionId r))) <$> va_sessions v)
  (λ _ id x v, with_session_rows (alter (λ r, MkSecrets (vs_sessionId r) (vs_encryptedViewingKey r) (Some x)) id (va_sessions v)) v) None.

Definition is_encrypted_job (r : JobSecret) : bool := bool_decide (vj_commandEncoding r = Some "aes-gcm-v1").

Definition command_column : CiphertextColumn := MkColumn "midnight.BackgroundJobs.command"
  (λ v, map_imap (λ id r, Some (MkCell (vj_command r) (is_encrypted_job r) (jobCommandBinding id))) (va_jobs v))
  (λ _ id x v, with_jobs (alter (λ r, if is_encrypted_job r then MkJobSecret (Some x) (vj_commandEncoding r) else r) id (va_jobs v)) v) None.

Definition ring_seal_column : CiphertextColumn := MkColumn "midnight.AccountKeys.wrappedDek"
  (λ v, map_imap (λ acc r, Some (MkCell (ak_wrappedDek r) true (accountDekBinding acc))) (st_accountKeys (va_keys v)))
  (λ now acc x v, with_keys (with_key_rows (alter (λ r, MkAccountKey (Some x) (ak_wrappedDekByViewingKey r) (ak_createdAt r) (Some now)) acc
                                          (st_accountKeys (va_keys v))) (va_keys v)) v) None.

Definition viewing_key_seal_column : CiphertextColumn := MkColumn "midnight.AccountKeys.wrappedDekByViewingKey"
  (λ v, map_imap (λ acc r, Some (MkCell (ak_wrappedDekByViewingKey r) true (accountDekViewingKeySealBinding acc))) (st_accountKeys (va_keys v)))
  (λ now acc x v, with_keys (with_key_rows (alter (λ r, MkAccountKey (ak_wrappedDek r) (Some x) (ak_createdAt r) (Some now)) acc
                                          (st_accountKeys (va_keys v))) (va_keys v)) v) (Some BARE_VIEWING_KEY_SEAL_PREFIX).

Definition disclosure_column : CiphertextColumn := MkColumn "midnight.HolderDisclosureGrants.content"
  (λ v, map_imap (λ id c, Some (MkCell c true (holderDisclosureContentBinding id))) (va_disclosures v))
  (λ _ id x v, with_disclosures (alter (λ _, Some x) id (va_disclosures v)) v) None.

Definition ENVELOPE_COLUMNS : list CiphertextColumn :=
  [viewing_key_column; seed_column; command_column; ring_seal_column; viewing_key_seal_column; disclosure_column].

(** ** The check at start-up *)

(** The part before the next colon, if there is one and it is not empty. *)
Definition up_to_colon (rest : string) : string :=
  match split_on ":" rest with w :: _ :: _ => if is_empty w then rest else w | _ => rest end.

Definition rest_from (n : nat) (s : string) : string := String.substring n (String.length s) s.

Definition keyIdFromPrefix (prefix : string) : option string :=
  if starts_with BARE_VIEWING_KEY_SEAL_PREFIX prefix then None
  else if starts_with (BOUND_ENVELOPE_VERSION ++ ":") prefix then Some (up_to_colon (rest_from 3 prefix))
  else if starts_with (ENVELOPE_VERSION ++ ":") prefix then Some (up_to_colon (rest_from 3 prefix))
  else Some LEGACY_KEY_ID.

(** The prefix the query reads of a value, and the id in it. *)
Definition scanned_id (c : Cell) : option string :=
  match ce_value c with
  | Some value =>
      if ce_where c then
        let prefix := slice0 24 value in
        if is_empty prefix then None
        else match keyIdFromPrefix prefix with Some id => if is_empty id then None else Some id | None => None end
      else None
  | None => None
  end.

Definition sort_texts (l : list string) : list string := merge_sort String.le l.

Definition key_ids (col : CiphertextColumn) (v : Vault) : list string :=
  sort_texts (remove_dups (omap (λ kc, scanned_id kc.2) (map_to_list (cc_cells col v)))).

Definition scanStoredKeyIds (v : Vault) : list (CiphertextColumn * list string) := (λ col, (col, key_ids col v)) <$> ENVELOPE_COLUMNS.

(** The ids that are not in the ring, with the columns they are in. *)
Definition unknown_ids (ring : KeyRing) (v : Vault) : list (string * list string) :=
  foldl (λ m p, foldl (λ m id, if ring_has ring id then m else map_set id (nullish (map_get id m) [] ++ [cc_name p.1]) m) m p.2) []
    (scanStoredKeyIds v).

Definition assertStoredKeyIdsKnown (ring : KeyRing) (v : Vault) : outcome unit :=
  match unknown_ids ring v with
  | [] => Ret tt
  | unknown =>
      Throw (js_error ("stored ciphertexts reference encryption key id(s) not in the ring: " ++
        String.concat "; " (List.map (λ m, ("'" ++ m.1 ++ "' (" ++ String.concat ", " m.2 ++ ")")%string) unknown) ++
        ". Add the key to ENCRYPTION_KEYS, or run nightgate-rewrap-keys with the old key still in the ring before removing it."))
  end.

Record LegacyTable := MkLegacyTable { lt_entity : string; lt_rows : nat; lt_accounts : nat }.
Record LegacyRowCensus := MkCensus { lc_tables : list LegacyTable; lc_accounts : list string; lc_total : nat }.

(** The accounts of a table's legacy rows, one for each row. *)
Definition is_legacy (scheme : option string) : bool := match scheme with None => true | Some _ => false end.
Definition legacy_rows (t : gmap string SealedRow) : nat := length (filter (λ kr, is_legacy (sl_keyScheme kr.2) = true) (map_to_list t)).

Definition legacy_state_accounts (s : StateStore) : list string :=
  flat_map (λ kt, replicate (legacy_rows kt.2) kt.1.1) (map_to_list (ss_states s)).
Definition legacy_key_accounts (s : StateStore) : list string :=
  flat_map (λ kt, replicate (legacy_rows kt.2) kt.1) (map_to_list (ss_signingKeys s)).
Definition legacy_sync_accounts (s : StateStore) : list string :=
  (filter (λ kr, is_legacy (sy_keyScheme kr.2) = true) (map_to_list (ss_syncStates s))).*1.

(** Rows without an account are not counted. *)
Definition census_table (entity : string) (accounts : list string) : LegacyTable * list string :=
  let accounts := keep (λ a, negb (is_empty a)) accounts in
  (MkLegacyTable entity (length accounts) (length (remove_dups accounts)), accounts).

Definition countLegacyRows (v : Vault) : LegacyRowCensus :=
  let tables := [census_table "midnight.PrivateStates" (legacy_state_accounts (va_stored v));
                 census_table "midnight.ContractSigningKeys" (legacy_key_accounts (va_stored v));
                 census_table "midnight.WalletSyncStates" (legacy_sync_accounts (va_stored v))] in
  MkCensus (tables.*1) (sort_texts (remove_dups (mjoin (tables.*2)))) (list_sum (List.map (λ t, lt_rows t.1) tables)).

(** ** The ring's values again under the active key *)

Record ColumnStats := MkStats { cs_column : string; cs_scanned : nat; cs_rewrapped : nat; cs_unreadable : nat; cs_bySourceKey : list (string * nat) }.

Definition scanned (s : ColumnStats) : ColumnStats := MkStats (cs_column s) (S (cs_scanned s)) (cs_rewrapped s) (cs_unreadable s) (cs_bySourceKey s).
Definition unreadable (s : ColumnStats) : ColumnStats := MkStats (cs_column s) (cs_scanned s) (cs_rewrapped s) (S (cs_unreadable s)) (cs_bySourceKey s).
Definition from_key (id : string) (s : ColumnStats) : ColumnStats :=
  MkStats (cs_column s) (cs_scanned s) (cs_rewrapped s) (cs_unreadable s) (map_set id (S (nullish (map_get id (cs_bySourceKey s)) 0)) (cs_bySourceKey s)).
Definition add_rewrapped (n : nat) (s : ColumnStats) : ColumnStats :=
  MkStats (cs_column s) (cs_scanned s) (cs_rewrapped s + n) (cs_unreadable s) (cs_bySourceKey s).

Section Rotation.
Context `{ScanOrder} `{Gcm, Random, Hashes}.
Variables (acceptUnbound : bool) (now : Z).

Definition has_prefix (p : option string) (value : string) : bool := match p with Some x => starts_with x value | None => false end.

(** One row of a page: the statistics, and the value to write. *)
Definition consider (ring : KeyRing) (col : CiphertextColumn) (c : Cell) (st : ColumnStats) : VaultM (ColumnStats * option string) :=
  match truthy_text (ce_value c) with
  | None => mret (st, None)
  | Some value =>
      if negb (ce_where c) then mret (st, None)
      else
        let st := scanned st in
        if has_prefix (cc_plainPrefix col) value then
          n ← ring_draws 3; x ← lift (encrypt n value ring (Some (ce_binding c))); mret (from_key "bare" st, Some x)
        else
          '(version, keyId) ← lift (inspectCiphertext value);
          if bool_decide (version = 3%Z) && bool_decide (keyId = kr_activeId ring) then mret (st, None)
          else
            match decrypt value ring (Some (ce_binding c)) true with
            | Throw err => if is_unknown_key err then throw err else mret (unreadable st, None)
            | Ret plain => n ← ring_draws 3; x ← lift (encrypt n plain ring (Some (ce_binding c))); mret (from_key keyId st, Some x)
            end
  end.

Fixpoint consider_rows (ring : KeyRing) (col : CiphertextColumn) (rows : list (string * Cell)) (st : ColumnStats) (updates : list (string * string)) :
    VaultM (ColumnStats * list (string * string)) :=
  match rows with
  | [] => mret (st, updates)
  | (id, c) :: rows' =>
      '(st, x) ← consider ring col c st;
      consider_rows ring col rows' st (match x with Some x => updates ++ [(id, x)] | None => updates end)
  end.

(** In one transaction. *)
Definition write_all (col : CiphertextColumn) (updates : list (string * string)) : VaultM unit := λ v,
  (Ret tt, foldl (λ v u, cc_write col now u.1 u.2 v) v updates).

Definition ahead (upto : option string) (key : string) : bool := match upto with Some a => negb (String.leb key a) | None => true end.

(** [SELECT .. WHERE key > upto ORDER BY key LIMIT batchSize] *)
Definition cell_page (col : CiphertextColumn) (batchSize : nat) (upto : option string) (v : Vault) : list (string * Cell) :=
  take batchSize (sql_select_by_id (λ k _, ahead upto k) (cc_cells col v)).

(** Page by page; [fuel] bounds the pages. *)
Fixpoint rewrap_pages (fuel : nat) (ring : KeyRing) (dryRun : bool) (batchSize : nat) (col : CiphertextColumn) (upto : option string) (st : ColumnStats) :
    VaultM ColumnStats :=
  match fuel with
  | O => mret st
  | S fuel' =>
      v ← get;
      match last (cell_page col batchSize upto v) with
      | None => mret st
      | Some (key, _) =>
          '(st, updates) ← consider_rows ring col (cell_page col batchSize upto v) st [];
          _ ← (if bool_decide (updates = []) || dryRun then mret tt else write_all col updates);
          let st := add_rewrapped (length updates) st in
          if (length (cell_page col batchSize upto v) <? batchSize)%nat then mret st
          else rewrap_pages fuel' ring dryRun batchSize col (Some key) st
      end
  end.

Definition rewrap_column (ring : KeyRing) (dryRun : bool) (batchSize : nat) (col : CiphertextColumn) : VaultM ColumnStats :=
  v ← get; rewrap_pages (S (size (cc_cells col v))) ring dryRun batchSize col None (MkStats (cc_name col) 0 0 0 []).

Fixpoint rewrap_columns (ring : KeyRing) (dryRun : bool) (batchSize : nat) (cols : list CiphertextColumn) : VaultM (list ColumnStats) :=
  match cols with
  | [] => mret []
  | col :: cols' => st ← rewrap_column ring dryRun batchSize col; sts ← rewrap_columns ring dryRun batchSize cols'; mret (st :: sts)
  end.

(** *** Rows from before the account keys

    A program with no other beside it, run to its end; what it would wait for never
    comes. *)
Fixpoint alone {A} (p : prog KeyStore A) : M KeyStore A := λ s,
  match p with
  | Done o => (o, s)
  | Stmt X _ g m k => if g s then let '(o, s') := m now s in alone (k o) s' else (Throw (js_error "waits for ever"), s)
  end.

Record SyncReport := MkSyncReport { sr_accounts : nat; sr_blobsRewrapped : nat; sr_blobsDropped : nat; sr_sessionsUnreadable : nat }.
Record StateReport := MkStateReport { pr_accounts : nat; pr_rowsRewrapped : nat; pr_rowsUnreadable : nat }.

(** What the migration carries from session to session. *)
Record Migration := MkMigration { mi_seen : gset string; mi_migrated : gset string; mi_sync : SyncReport; mi_private : StateReport }.

Definition seen (acc : string) (m : Migration) : Migration := MkMigration ({[acc]} ∪ mi_seen m) (mi_migrated m) (mi_sync m) (mi_private m).
Definition migrated (acc : string) (m : Migration) : Migration := MkMigration (mi_seen m) ({[acc]} ∪ mi_migrated m) (mi_sync m) (mi_private m).
Definition in_sync (f : SyncReport → SyncReport) (m : Migration) : Migration := MkMigration (mi_seen m) (mi_migrated m) (f (mi_sync m)) (mi_private m).
Definition in_private (f : StateReport → StateReport) (m : Migration) : Migration := MkMigration (mi_seen m) (mi_migrated m) (mi_sync m) (f (mi_private m)).
Definition session_unreadable : Migration → Migration :=
  in_sync (λ r, MkSyncReport (sr_accounts r) (sr_blobsRewrapped r) (sr_blobsDropped r) (S (sr_sessionsUnreadable r))).
Definition row_unreadable : Migration → Migration := in_private (λ r, MkStateReport (pr_accounts r) (pr_rowsRewrapped r) (S (pr_rowsUnreadable r))).
Definition row_rewrapped : Migration → Migration := in_private (λ r, MkStateReport (pr_accounts r) (S (pr_rowsRewrapped r)) (pr_rowsUnreadable r)).
Definition private_account : Migration → Migration := in_private (λ r, MkStateReport (S (pr_accounts r)) (pr_rowsRewrapped r) (pr_rowsUnreadable r)).
Definition sync_account : Migration → Migration :=
  in_sync (λ r, MkSyncReport (S (sr_accounts r)) (sr_blobsRewrapped r) (sr_blobsDropped r) (sr_sessionsUnreadable r)).
Definition blob_rewrapped : Migration → Migration :=
  in_sync (λ r, MkSyncReport (sr_accounts r) (S (sr_blobsRewrapped r)) (sr_blobsDropped r) (sr_sessionsUnreadable r)).
Definition blobs_dropped (n : nat) : Migration → Migration :=
  in_sync (λ r, MkSyncReport (sr_accounts r) (sr_blobsRewrapped r) (sr_blobsDropped r + n) (sr_sessionsUnreadable r)).

(** A stored value read with the older password its salt names. *)
Definition read_legacy (acc : string) (candidates : list string) (blob : string) : option string :=
  salt ← saltOf blob;
  pw ← List.find (λ pw, bool_decide (privateStateStableSalt acc pw = salt)) candidates;
  match se_decrypt (newStorageEncryption pw salt) blob with Ret plain => Some plain | Throw _ => None end.

(** One legacy row of private states or signing keys. *)
Definition migrate_row (dryRun : bool) (acc : string) (dekPassword : option string) (candidates : list string)
    (write : string → VaultM unit) (row : SealedRow) (m : Migration) : VaultM Migration :=
  match read_legacy acc candidates (sl_ciphertext row) with
  | None => mret (row_unreadable m)
  | Some plain =>
      _ ← (match dekPassword with
           | Some pw =>
               if dryRun then mret tt
               else n ← on_stored (draws 1); fresh ← lift (se_encrypt (newStorageEncryption pw (privateStateStableSalt acc pw)) n plain); write fresh
           | None => mret tt
           end);
      mret (migrated acc (row_rewrapped m))
  end.

(** The legacy rows of a table, the flag telling whether there was one; an empty
    value is passed over. *)
Fixpoint migrate_rows (dryRun : bool) (acc : string) (dekPassword : option string) (candidates : list string)
    (rows : list ((string → VaultM unit) * SealedRow)) (m : Migration * bool) : VaultM (Migration * bool) :=
  match rows with
  | [] => mret m
  | (write, row) :: rows' =>
      if is_empty (sl_ciphertext row) then migrate_rows dryRun acc dekPassword candidates rows' m
      else m' ← migrate_row dryRun acc dekPassword candidates write row m.1; migrate_rows dryRun acc dekPassword candidates rows' (m', true)
  end.

Definition legacy_of (t : gmap string SealedRow) : list (string * SealedRow) := filter (λ kr, is_legacy (sl_keyScheme kr.2) = true) (scan t).

(** [UPDATE .. WHERE accountId, contractAddress, privateStateId] *)
Definition write_state (acc address id ciphertext : string) : VaultM unit := on_stored (λ s,
  put_states (acc, address) (alter (λ _, MkSealed ciphertext (Some DEK_SCHEME) now) id (states_of (acc, address) s)) s).
Definition write_key (acc address ciphertext : string) : VaultM unit := on_stored (λ s,
  put_keys acc (alter (λ _, MkSealed ciphertext (Some DEK_SCHEME) now) address (keys_of acc s)) s).

(** An account's legacy private states, contract by contract, and signing keys. *)
Definition legacy_states (acc : string) (s : StateStore) : list ((string → VaultM unit) * SealedRow) :=
  flat_map (λ kt, if bool_decide (kt.1.1 = acc) then (λ kr, (write_state acc kt.1.2 kr.1, kr.2)) <$> legacy_of kt.2 else []) (map_to_list (ss_states s)).
Definition legacy_signing_keys (acc : string) (s : StateStore) : list ((string → VaultM unit) * SealedRow) :=
  (λ kr, (write_key acc kr.1, kr.2)) <$> legacy_of (keys_of acc s).

(** What becomes of one snapshot of a wallet: the column to set, if any. *)
Definition migrate_blob (dryRun : bool) (acc : string) (dekPassphrase : option string) (candidates : list Candidate) (blob : option string) (m : Migration) :
    VaultM (option (option string) * Migration) :=
  match truthy_text blob with
  | None => mret (None, m)
  | Some b =>
      match saltOf b with
      | None => mret (Some None, blobs_dropped 1 m)
      | Some salt =>
          if match truthy_text dekPassphrase with Some d => bool_decide (deriveStableSalt acc d SALT_LABEL_DEK = salt) | None => false end then mret (None, m)
          else
            match (c ← List.find (λ c, bool_decide (deriveStableSalt acc (ca_passphrase c) (ca_label c) = salt)) candidates;
                   match decryptWithPassword b (ca_passphrase c) with Ret plain => Some plain | Throw _ => None end) with
            | None => mret (Some None, blobs_dropped 1 m)
            | Some plain =>
                set_ ← (match truthy_text dekPassphrase with
                        | Some d => if dryRun then mret None
                                    else n ← on_stored (draws 1); x ← lift (se_encrypt (sync_encryption acc d) n plain); mret (Some (Some x))
                        | None => mret None
                        end);
                mret (set_, blob_rewrapped m)
            end
      end
  end.

Definition migrate_sync_row (ring : KeyRing) (dryRun : bool) (acc storagePassword : string) (dekPassphrase : option string) (m : Migration) : VaultM Migration :=
  v ← get;
  match ss_syncStates (va_stored v) !! acc with
  | Some row =>
      if bool_decide (sy_keyScheme row = Some DEK_SCHEME) then mret m
      else
        candidates ← lift (syncStatePassphraseCandidates ring storagePassword);
        '(sh, m) ← migrate_blob dryRun acc dekPassphrase candidates (sy_shielded row) (sync_account m);
        '(un, m) ← migrate_blob dryRun acc dekPassphrase candidates (sy_unshielded row) m;
        '(du, m) ← migrate_blob dryRun acc dekPassphrase candidates (sy_dust row) m;
        _ ← (if dryRun then mret tt
             else on_stored (put_sync acc (MkSyncState (nullish sh (sy_shielded row)) (nullish un (sy_unshielded row)) (nullish du (sy_dust row))
                    (Some DEK_SCHEME) (sy_sdkVersion row) (sy_networkId row) (sy_seedFingerprint row) (sy_updatedAt row))));
        mret (migrated acc m)
  | None => mret m
  end.

(** The rows of one account, through a session whose viewing key opened. *)
Definition migrate_account (ring : KeyRing) (dryRun : bool) (viewingKey acc : string) (dek : option (list Z)) (m : Migration) : VaultM Migration :=
  let storagePassword := deriveStoragePassword viewingKey in
  let dekPassword := (λ d, privateStatePasswordFromDek d acc) <$> dek in
  let dekPassphrase := (λ d, syncStatePassphraseFromDek d acc) <$> dek in
  candidates ← lift (privateStatePasswordCandidates ring viewingKey);
  v ← get;
  '(m, touched) ← migrate_rows dryRun acc (truthy_text dekPassword) candidates (legacy_states acc (va_stored v)) (m, false);
  v ← get;
  '(m, touched) ← migrate_rows dryRun acc (truthy_text dekPassword) candidates (legacy_signing_keys acc (va_stored v)) (m, touched);
  let m := if (touched : bool) then private_account m else m in
  m ← migrate_sync_row ring dryRun acc storagePassword dekPassphrase m;
  mret (match dek with None => if dryRun then migrated acc m else m | Some _ => m end).

Fixpoint migrate_sessions (ring : KeyRing) (dryRun : bool) (sessions : list SessionSecrets) (m : Migration) : VaultM Migration :=
  match sessions with
  | [] => mret m
  | s :: sessions' =>
      match truthy_text (vs_encryptedViewingKey s) with
      | None => migrate_sessions ring dryRun sessions' m
      | Some value =>
          match decrypt value ring (Some (walletSessionViewingKeyBinding (vs_sessionId s))) true with
          | Throw err => if is_unknown_key err then throw err else migrate_sessions ring dryRun sessions' (session_unreadable m)
          | Ret viewingKey =>
              let acc := deriveAccountId viewingKey in
              if bool_decide (acc ∈ mi_seen m) then migrate_sessions ring dryRun sessions' m
              else
                let m := seen acc m in
                v ← get;
                let lookup := resolveAccountDek acceptUnbound (Done (Ret None))
                                (MkResolve 0 ring acc (Some (deriveStoragePassword viewingKey)) (negb dryRun) dryRun) in
                match on_keys (alone lookup) v with
                | (Throw _, v') => _ ← put v'; migrate_sessions ring dryRun sessions' (session_unreadable m)
                | (Ret dek, v') => _ ← put v'; m ← migrate_account ring dryRun viewingKey acc dek m; migrate_sessions ring dryRun sessions' m
                end
          end
      end
  end.

Definition no_migration : Migration := MkMigration ∅ ∅ (MkSyncReport 0 0 0 0) (MkStateReport 0 0 0).

Definition migrateLegacyRows (ring : KeyRing) (dryRun : bool) : VaultM Migration :=
  v ← get;
  migrate_sessions ring dryRun ((sql_select (λ _ r, match vs_encryptedViewingKey r with Some _ => true | None => false end) (va_sessions v)).*2) no_migration.

(** The wallet states of accounts no session reaches. *)
Fixpoint drop_rows (dryRun : bool) (accounts : list string) (m : Migration) (dropped : nat) : VaultM (Migration * nat) :=
  match accounts with
  | [] => mret (m, dropped)
  | acc :: accounts' =>
      if bool_decide (acc ∈ mi_migrated m) then drop_rows dryRun accounts' m dropped
      else
        _ ← (if dryRun then mret tt
             else on_stored (λ s, (Ret tt, MkStateStore (ss_states s) (ss_signingKeys s) (delete acc (ss_syncStates s)) (ss_draws s))));
        drop_rows dryRun accounts' (migrated acc m) (S dropped)
  end.

Definition dropLegacySyncStates (dryRun drop : bool) (m : Migration) : VaultM Migration :=
  if negb drop then mret m
  else
    v ← get;
    '(m, dropped) ← drop_rows dryRun (sql_select (λ _ r, is_legacy (sy_keyScheme r)) (ss_syncStates (va_stored v))).*1 m 0;
    mret (blobs_dropped dropped m).

Record RewrapReport := MkReport {
  rr_activeId : string; rr_dryRun : bool; rr_envelope : list ColumnStats; rr_syncState : SyncReport; rr_privateState : StateReport;
  rr_legacy : LegacyRowCensus; rr_migratableAccounts : list string }.

Definition rewrapStoredCiphertexts (ring : KeyRing) (dryRun : bool) (batchSize : Z) (dropLegacySyncState : bool) : VaultM RewrapReport :=
  v ← get;
  _ ← lift (assertStoredKeyIdsKnown ring v);
  envelope ← rewrap_columns ring dryRun (Z.to_nat (Z.max 1 batchSize)) ENVELOPE_COLUMNS;
  m ← migrateLegacyRows ring dryRun;
  m ← dropLegacySyncStates dryRun dropLegacySyncState m;
  v ← get;
  mret (MkReport (kr_activeId ring) dryRun envelope (mi_sync m) (mi_private m) (countLegacyRows v) (sort_texts (elements (mi_migrated m)))).
End Rotation.

(** Computations whose effect on the tables is within a relation. *)
Section Writes.
Context (R : Vault → Vault → Prop) `{!PreOrder R}.

Definition writes {A} (m : VaultM A) : Prop := ∀ v o v', m v = (o, v') → R v v'.

Lemma writes_ret {A} (x : A) : writes (mret x).
Proof. by intros v o v' [= <- <-]. Qed.

Lemma writes_lift {A} (o : outcome A) : writes (lift o).
Proof. by intros v o' v' [= <- <-]. Qed.

Lemma writes_get : writes get.
Proof. by intros v o v' [= <- <-]. Qed.

Lemma writes_bind {A B} (m : VaultM A) (k : A → VaultM B) : writes m → (∀ a, writes (k a)) → writes (m ≫= k).
Proof.
  intros Hm Hk v o v' [(a & v1 & H1' & H2')|(e & H1' & ->)]%bind_cases; [|by eapply Hm]. etransitivity; [by eapply Hm|by eapply Hk].
Qed.

(** A computation on the state it has just read. *)
Lemma writes_read {A B} (m : Vault → VaultM A) (k : A → VaultM B) : (∀ v o v', m v v = (o, v') → R v v') → (∀ a, writes (k a)) → writes (v ← get; m v ≫= k).
Proof.
  intros Hm Hk v o v' Hr. unfold get in Hr. unfold mbind at 1, M_bind at 1 in Hr. apply bind_cases in Hr as [(a & v1 & H1' & H2')|(e & H1' & ->)]; [|by eapply Hm].
  etransitivity; [by eapply Hm|by eapply Hk].
Qed.

Lemma writes_unless_dry {A} (dryRun : bool) (x : A) (m : VaultM A) : (dryRun = false → writes m) → writes (if dryRun then mret x else m).
Proof. destruct dryRun; [intros _; apply writes_ret|by intros Hm; apply Hm]. Qed.
End Writes.

Ltac quiet := intros; first [done | apply _ | apply writes_ret; apply _ | apply writes_lift; apply _ | apply writes_get; apply _].

(** ** What becomes of a value *)

Section Facts.
Context `{ScanOrder} `{GcmLaws, RandomLaws, Hashes}.
Variables (now : Z) (ring : KeyRing).
Hypothesis Hring : ring_ok ring.

(** What a value holds: a key sealed by the viewing key alone is its own content. *)
Definition content (ring : KeyRing) (col : CiphertextColumn) (b : EnvelopeBinding) (value : string) : outcome string :=
  if has_prefix (cc_plainPrefix col) value then Ret value else decrypt value ring (Some b) true.

(** [x] holds what [c] held, sealed under the active key. *)
Definition renewal (col : CiphertextColumn) (c : Cell) (x : string) : Prop :=
  ce_where c = true ∧ ∃ value p n, truthy_text (ce_value c) = Some value ∧ content ring col (ce_binding c) value = Ret p ∧
    encrypt n p ring (Some (ce_binding c)) = Ret x.

(** Either as it was, or renewed. *)
Definition kept (col : CiphertextColumn) (c c' : Cell) : Prop :=
  c' = c ∨ ∃ x, renewal col c x ∧ c' = MkCell (Some x) (ce_where c) (ce_binding c).

(** Sealed under the active key. *)
Definition fresh (c : Cell) : Prop :=
  ∀ value, truthy_text (ce_value c) = Some value → ce_where c = true → inspectCiphertext value = Ret (3%Z, kr_activeId ring).

Lemma active_pattern : KEY_ID_PATTERN (kr_activeId ring) = true.
Proof. apply Hring. Qed.

Lemma encrypt_truthy n p b x : encrypt n p ring (Some b) = Ret x → truthy_text (Some x) = Some x.
Proof. intros Hx. pose proof (inspect_encrypt _ _ _ _ _ active_pattern Hx) as Hi. unfold truthy_text. by destruct x. Qed.

Lemma renewal_fresh col c x : renewal col c x → fresh (MkCell (Some x) (ce_where c) (ce_binding c)).
Proof.
  intros (_ & value & p & n & _ & _ & Hx) y Hy _. cbn [ce_value] in Hy. rewrite (encrypt_truthy _ _ _ _ Hx) in Hy. injection Hy as <-.
  by eapply inspect_encrypt; [apply active_pattern|].
Qed.

Lemma kept_fresh col c c' : kept col c c' → fresh c → fresh c'.
Proof. intros [->|(x & Hx & ->)] Hf; [done|by eapply renewal_fresh]. Qed.

(** The only prefix a column names is that of a bare seal. *)
Definition prefix_ok (col : CiphertextColumn) : Prop := cc_plainPrefix col = None ∨ cc_plainPrefix col = Some BARE_VIEWING_KEY_SEAL_PREFIX.

Lemma content_renewed col b n p x : prefix_ok col → encrypt n p ring (Some b) = Ret x → content ring col b x = Ret p.
Proof.
  intros Hp Hx. unfold content. assert (has_prefix (cc_plainPrefix col) x = false) as ->.
  { destruct Hp as [->| ->]; [done|]. apply (encrypt_not_bare _ _ _ _ _ active_pattern Hx). }
  by eapply decrypt_encrypt; [apply active_pattern|done|].
Qed.

Lemma kept_trans col c1 c2 c3 : prefix_ok col → kept col c1 c2 → kept col c2 c3 → kept col c1 c3.
Proof.
  intros Hp [->|(x & Hx & ->)] Hk; [done|]. destruct Hk as [->|(y & Hy & ->)]; [right; by exists x|]. right. exists y. split; [|done].
  destruct Hx as (Hw & value & p & n & Hv & Hc & Hx). destruct Hy as (_ & v' & p' & m & Hv' & Hc' & Hy). cbn [ce_value ce_binding] in Hv', Hc', Hy.
  rewrite (encrypt_truthy _ _ _ _ Hx) in Hv'. injection Hv' as <-. rewrite (content_renewed _ _ _ _ _ Hp Hx) in Hc'. injection Hc' as <-.
  split; [done|]. by exists value, p, m.
Qed.

(** *** One row *)

Definition tables (v : Vault) :=
  (va_sessions v, va_jobs v, va_disclosures v, st_accountKeys (va_keys v), ss_states (va_stored v), ss_signingKeys (va_stored v), ss_syncStates (va_stored v)).
Definition same_tables (v v' : Vault) : Prop := tables v' = tables v.

(** The rows the columns are in. *)
Definition ring_tables (v : Vault) := (va_sessions v, va_jobs v, va_disclosures v, st_accountKeys (va_keys v)).

Lemma same_cells col v v' : col ∈ ENVELOPE_COLUMNS → ring_tables v' = ring_tables v → cc_cells col v' = cc_cells col v.
Proof.
  intros Hin [= E1 E2 E3 E4]. unfold ENVELOPE_COLUMNS in Hin. rewrite !elem_of_cons, elem_of_nil in Hin.
  destruct Hin as [->|[->|[->|[->|[->|[->|[]]]]]]]; simpl; congruence.
Qed.

Lemma same_ring_tables v v' : same_tables v v' → ring_tables v' = ring_tables v.
Proof. unfold same_tables, tables, ring_tables. congruence. Qed.

Lemma same_tables_refl v : same_tables v v.
Proof. done. Qed.

Lemma same_tables_trans v1 v2 v3 : same_tables v1 v2 → same_tables v2 v3 → same_tables v1 v3.
Proof. unfold same_tables. congruence. Qed.

Lemma ring_draws_tables n v : ∃ m v', ring_draws n v = (Ret m, v') ∧ same_tables v v'.
Proof. by eexists _, _. Qed.

(** What the row leaves to write; nothing to write and not unreadable is fresh. *)
Definition considered (col : CiphertextColumn) (c : Cell) (st st' : ColumnStats) (x : option string) : Prop :=
  (cs_unreadable st ≤ cs_unreadable st')%nat ∧
  match x with Some y => renewal col c y | None => cs_unreadable st' = cs_unreadable st → fresh c end.

Lemma consider_spec col c st v o v' : consider ring col c st v = (o, v') →
  same_tables v v' ∧ match o with Ret (st', x) => considered col c st st' x | Throw _ => True end.
Proof.
  unfold consider, considered. destruct (truthy_text (ce_value c)) as [value|] eqn:Ev.
  2: { intros [= <- <-]. split; [apply same_tables_refl|]. split; [done|]. intros _ y Hy. by rewrite Ev in Hy. }
  destruct (ce_where c) eqn:Ew; cbn [negb].
  2: { intros [= <- <-]. split; [apply same_tables_refl|]. split; [done|]. intros _ y _ Hy. by rewrite Ew in Hy. }
  destruct (has_prefix (cc_plainPrefix col) value) eqn:Ep; m_unfold.
  { destruct (ring_draws_tables 3 v) as (m & v1 & -> & Ht). unfold lift. destruct (encrypt m value ring _) as [x|e] eqn:Ex; intros [= <- <-]; (split; [done|]); [|done].
    split; [done|]. split; [done|]. exists value, value, m. split; [done|]. split; [unfold content; by rewrite Ep|done]. }
  unfold lift. destruct (inspectCiphertext value) as [[version keyId]|e] eqn:Ei; [|intros [= <- <-]; split; [apply same_tables_refl|done]].
  destruct (bool_decide (version = 3%Z) && bool_decide (keyId = kr_activeId ring)) eqn:Ecur.
  { apply andb_prop in Ecur as [->%bool_decide_eq_true_1 ->%bool_decide_eq_true_1]. intros [= <- <-]. split; [apply same_tables_refl|]. split; [done|].
    intros _ y Hy _. congruence. }
  destruct (decrypt value ring _ true) as [p|err] eqn:Ed.
  - destruct (ring_draws_tables 3 v) as (m & v1 & -> & Ht). destruct (encrypt m p ring _) as [x|e] eqn:Ex; intros [= <- <-]; (split; [done|]); [|done].
    split; [done|]. split; [done|]. exists value, p, m. split; [done|]. split; [unfold content; by rewrite Ep|done].
  - destruct (is_unknown_key err); intros [= <- <-]; (split; [apply same_tables_refl|]); [done|]. simpl. split; [lia|]. lia.
Qed.

Lemma consider_rows_spec col rows : ∀ st us v o v', consider_rows ring col rows st us v = (o, v') →
  same_tables v v' ∧
  match o with
  | Ret (st', us') => ∃ u, us' = us ++ u ∧ u.*1 `sublist_of` rows.*1 ∧ (cs_unreadable st ≤ cs_unreadable st')%nat ∧
      (∀ id x, (id, x) ∈ u → ∃ c, (id, c) ∈ rows ∧ renewal col c x) ∧
      (cs_unreadable st' = cs_unreadable st → ∀ id c, (id, c) ∈ rows → id ∈ u.*1 ∨ fresh c)
  | Throw _ => True
  end.
Proof.
  induction rows as [|[id c] rows IH]; intros st us v o v' Hr.
  { injection Hr as <- <-. split; [apply same_tables_refl|]. exists []. rewrite app_nil_r. split; [done|]. split; [constructor|]. split; [done|].
    split; [by intros ? ? ?%elem_of_nil|by intros _ ? ? ?%elem_of_nil]. }
  cbn [consider_rows] in Hr. apply bind_cases in Hr as [([st1 x] & v1 & Hc & Hr)|(e & Hc & ->)]; [|by apply consider_spec in Hc as [? _]].
  apply consider_spec in Hc as [Ht1 [Hle Hx]]. apply IH in Hr as [Ht2 Hr]. split; [by eapply same_tables_trans|]. destruct o as [[st' us']|e]; [|done].
  destruct Hr as (u & -> & Hsub & Hle' & Hren & Hfr). destruct x as [x|].
  - exists ((id, x) :: u). split; [by rewrite <- app_assoc|]. split; [by constructor|]. split; [lia|]. split.
    + intros i y [[= -> ->]|Hi]%elem_of_cons; [exists c; split; [left|done]|]. destruct (Hren i y Hi) as (c' & Hin & ?). exists c'. split; [by right|done].
    + intros Heq i c' [[= -> ->]|Hi]%elem_of_cons; [left; left|]. destruct (Hfr ltac:(lia) i c' Hi); [left; by right|by right].
  - exists u. split; [done|]. split; [by constructor|]. split; [lia|]. split.
    + intros i y Hi. destruct (Hren i y Hi) as (c' & Hin & ?). exists c'. split; [by right|done].
    + intros Heq i c' [[= -> ->]|Hi]%elem_of_cons; [right; apply Hx; lia|]. apply (Hfr ltac:(lia) i c' Hi).
Qed.

(** *** Columns

    What the tool relies on of a column: a write changes the value of one cell, where
    the column's condition holds, and nothing in another column. *)
Record column_ok (col : CiphertextColumn) : Prop := {
  ok_prefix : prefix_ok col;
  ok_write t id x v : cc_cells col (cc_write col t id x v) =
    alter (λ c, MkCell (if ce_where c then Some x else ce_value c) (ce_where c) (ce_binding c)) id (cc_cells col v);
  ok_apart col' t id x v : col' ∈ ENVELOPE_COLUMNS → cc_name col' ≠ cc_name col → cc_cells col' (cc_write col t id x v) = cc_cells col' v }.

Lemma fmap_alter_map {A B} (f : A → B) (g : A → A) (h : B → B) id (m : gmap string A) : (∀ a, f (g a) = h (f a)) → f <$> alter g id m = alter h id (f <$> m).
Proof.
  intros Hf. apply map_eq. intros k. rewrite lookup_fmap. destruct (decide (k = id)) as [->|Hne].
  - rewrite !lookup_alter_eq, lookup_fmap. destruct (m !! id); simpl; [by rewrite Hf|done].
  - by rewrite !lookup_alter_ne, lookup_fmap.
Qed.

Lemma imap_alter_map {A B} (f : string → A → option B) (g : A → A) (h : B → B) id (m : gmap string A) :
  (∀ k a, f k (g a) = h <$> f k a) → map_imap f (alter g id m) = alter h id (map_imap f m).
Proof.
  intros Hf. apply map_eq. intros k. rewrite map_lookup_imap. destruct (decide (k = id)) as [->|Hne].
  - rewrite !lookup_alter_eq, map_lookup_imap. destruct (m !! id); simpl; [by rewrite Hf|done].
  - by rewrite !lookup_alter_ne, map_lookup_imap.
Qed.

(** A write that leaves what another column reads alone. *)
Lemma fmap_alter_same {A B} (f : A → B) (g : A → A) id (m : gmap string A) : (∀ a, f (g a) = f a) → f <$> alter g id m = f <$> m.
Proof. intros Hf. rewrite (fmap_alter_map f g (λ b, b)) by done. apply map_eq. intros k. destruct (decide (k = id)) as [->|Hne]; [rewrite lookup_alter_eq; by destruct (_ !! id)|by rewrite lookup_alter_ne]. Qed.

Lemma imap_alter_same {A B} (f : string → A → option B) (g : A → A) id (m : gmap string A) : (∀ k a, f k (g a) = f k a) → map_imap f (alter g id m) = map_imap f m.
Proof.
  intros Hf. apply map_eq. intros k. rewrite !map_lookup_imap. destruct (decide (k = id)) as [->|Hne]; [rewrite lookup_alter_eq|by rewrite lookup_alter_ne].
  destruct (m !! id); simpl; [by rewrite Hf|done].
Qed.

Lemma columns_ok col : col ∈ ENVELOPE_COLUMNS → column_ok col.
Proof.
  unfold ENVELOPE_COLUMNS. rewrite !elem_of_cons, elem_of_nil. intros Hcol.
  split.
  - unfold prefix_ok. destruct Hcol as [->|[->|[->|[->|[->|[->|[]]]]]]]; auto.
  - intros t id x v. destruct Hcol as [->|[->|[->|[->|[->|[->|[]]]]]]]; simpl; try (by apply fmap_alter_map); try (by apply imap_alter_map).
    apply imap_alter_map. intros k r. simpl. destruct (is_encrypted_job r) eqn:E; simpl; [|by rewrite E]. unfold is_encrypted_job in *. simpl. by rewrite E.
  - intros col' t id x v. unfold ENVELOPE_COLUMNS. rewrite !elem_of_cons, elem_of_nil. intros Hcol' Hne.
    destruct Hcol as [->|[->|[->|[->|[->|[->|[]]]]]]], Hcol' as [->|[->|[->|[->|[->|[->|[]]]]]]]; simpl; try done;
      try (by apply fmap_alter_same); try (by apply imap_alter_same).
Qed.

Lemma write_all_cells col us : column_ok col → ∀ v, NoDup us.*1 →
  (∀ id, cc_cells col (foldl (λ v u, cc_write col now u.1 u.2 v) v us) !! id =
     (λ c, match map_get id us with Some x => MkCell (if ce_where c then Some x else ce_value c) (ce_where c) (ce_binding c) | None => c end)
       <$> cc_cells col v !! id) ∧
  (∀ col', col' ∈ ENVELOPE_COLUMNS → cc_name col' ≠ cc_name col → cc_cells col' (foldl (λ v u, cc_write col now u.1 u.2 v) v us) = cc_cells col' v).
Proof.
  intros Hok. induction us as [|[i x] us IH]; intros v Hn; [split; [intros id; by destruct (_ !! id)|done]|]. apply NoDup_cons in Hn as [Hi Hn]. cbn [foldl fst snd].
  destruct (IH (cc_write col now i x v) Hn) as [I1 I2]. split; [|by intros col' H1' H2'; rewrite I2, (ok_apart _ Hok) by done].
  intros id. rewrite I1, (ok_write _ Hok). cbn [map_get]. destruct (decide (i = id)) as [->|Hne]; [|by rewrite lookup_alter_ne].
  rewrite lookup_alter_eq. apply map_get_None in Hi. cbn [fst] in Hi. rewrite Hi. by destruct (cc_cells col v !! id).
Qed.

(** Every cell as it was or renewed. *)
Definition all_kept (v v' : Vault) : Prop := ∀ col, col ∈ ENVELOPE_COLUMNS → ∀ id,
  match cc_cells col v !! id, cc_cells col v' !! id with
  | Some c, Some c' => kept col c c'
  | None, None => True
  | _, _ => False
  end.

Lemma all_kept_same v v' : same_tables v v' → all_kept v v'.
Proof. intros Hs col Hcol id. rewrite (same_cells col v v' Hcol (same_ring_tables _ _ Hs)). destruct (_ !! id); [by left|done]. Qed.

Lemma all_kept_trans v1 v2 v3 : all_kept v1 v2 → all_kept v2 v3 → all_kept v1 v3.
Proof.
  intros K1 K2 col Hcol id. specialize (K1 col Hcol id). specialize (K2 col Hcol id).
  destruct (cc_cells col v1 !! id), (cc_cells col v2 !! id), (cc_cells col v3 !! id); try done. eapply kept_trans; [|done..]. by apply columns_ok.
Qed.

Lemma names_apart col col' : col ∈ ENVELOPE_COLUMNS → col' ∈ ENVELOPE_COLUMNS → cc_name col' = cc_name col → col' = col.
Proof.
  unfold ENVELOPE_COLUMNS. rewrite !elem_of_cons, !elem_of_nil.
  intros [->|[->|[->|[->|[->|[->|[]]]]]]] [->|[->|[->|[->|[->|[->|[]]]]]]]; simpl; intros E; first [done|discriminate E].
Qed.

(** Writing the renewals of some of a column's rows. *)
Lemma write_all_kept col v (rows : list (string * Cell)) (u : list (string * string)) : col ∈ ENVELOPE_COLUMNS → (∀ id c, (id, c) ∈ rows → cc_cells col v !! id = Some c) → NoDup u.*1 →
  (∀ id x, (id, x) ∈ u → ∃ c, (id, c) ∈ rows ∧ renewal col c x) →
  let v' := foldl (λ v u, cc_write col now u.1 u.2 v) v u in
  all_kept v v' ∧ ∀ id c', id ∈ u.*1 → cc_cells col v' !! id = Some c' → fresh c'.
Proof.
  intros Hcol Hrows Hn Hu v'. destruct (write_all_cells col u (columns_ok col Hcol) v Hn) as [Hw Ho].
  assert (∀ id x, map_get id u = Some x → ∃ c, cc_cells col v !! id = Some c ∧ renewal col c x) as Hget.
  { intros id x Hx. apply map_get_In in Hx. destruct (Hu id x Hx) as (c & Hin & Hr). exists c. split; [by apply Hrows|done]. }
  split.
  - intros col' Hcol' id. destruct (decide (cc_name col' = cc_name col)) as [E%names_apart|Hne]; [|done..|unfold v'; rewrite (Ho col' Hcol' Hne); destruct (_ !! id); [by left|done]].
    subst col'. unfold v'. rewrite Hw. destruct (map_get id u) as [x|] eqn:E; [|destruct (cc_cells col v !! id); [by left|done]].
    destruct (Hget id x E) as (c & -> & Hr). simpl. right. exists x. split; [done|]. by rewrite (proj1 Hr).
  - intros id c' Hid. unfold v'. rewrite Hw. destruct (map_get id u) as [x|] eqn:E; [|by apply map_get_None in E].
    destruct (Hget id x E) as (c & -> & Hr). intros [= <-]. rewrite (proj1 Hr). rewrite <- (proj1 Hr). by eapply renewal_fresh.
Qed.

(** *** Pages *)

Definition ahead_keys (col : CiphertextColumn) (upto : option string) (v : Vault) : gset string :=
  filter (λ id, ahead upto id = true) (dom (cc_cells col v)).

Lemma kept_dom col v v' : col ∈ ENVELOPE_COLUMNS → all_kept v v' → dom (cc_cells col v') = dom (cc_cells col v).
Proof.
  intros Hcol Hk. apply set_eq. intros id. rewrite !elem_of_dom. specialize (Hk col Hcol id).
  by destruct (cc_cells col v !! id), (cc_cells col v' !! id); split; intros []; eauto.
Qed.

Lemma page_cells col n upto v id c : (id, c) ∈ cell_page col n upto v → cc_cells col v !! id = Some c ∧ ahead upto id = true.
Proof. intros Hin. apply elem_of_take in Hin as (i & Hi & _). apply list_elem_of_lookup_2, elem_of_sql_select in Hi. done. Qed.

(** Every row up to the last of the page is on it. *)
Lemma page_covers col n upto v key c0 id c : last (cell_page col n upto v) = Some (key, c0) → cc_cells col v !! id = Some c → ahead upto id = true →
  (id, c) ∈ cell_page col n upto v ∨ (ahead (Some key) id = true ∧ length (cell_page col n upto v) = n).
Proof.
  intros Hlast Hid Ha. unfold cell_page in *. set (L := sql_select_by_id _ _) in *.
  assert ((id, c) ∈ L) as Hin by (by apply elem_of_sql_select). rewrite <- (take_drop n L) in Hin. apply elem_of_app in Hin as [|Hin]; [by left|]. right.
  assert (StronglySorted key_le L) as Hs by apply sql_select_sorted. assert (NoDup L.*1) as Hn by apply sql_select_NoDup.
  apply last_Some_elem_of in Hlast. rewrite <- (take_drop n L) in Hs, Hn. split.
  - pose proof (StronglySorted_app_1_elem_of key_le _ _ _ _ Hs Hlast Hin) as Hle. simpl. apply negb_true_iff. destruct (String.leb id key) eqn:E; [|done].
    assert (key = id) as <- by (apply (anti_symm String.le); [done|by apply Is_true_true]).
    rewrite fmap_app in Hn. apply NoDup_app in Hn as (_ & Hd & _). exfalso.
    by apply (Hd key); [apply (list_elem_of_fmap_2 fst _ (key, c0))|apply (list_elem_of_fmap_2 fst _ (key, c))].
  - rewrite length_take. destruct (decide (n ≤ length L)%nat); [lia|]. rewrite drop_ge in Hin by lia. by apply elem_of_nil in Hin.
Qed.

Lemma page_exhausted col n upto v : (0 < n)%nat → last (cell_page col n upto v) = None → ∀ id c, cc_cells col v !! id = Some c → ahead upto id = true → False.
Proof.
  intros Hn Hl id c Hid Ha. apply last_None in Hl. unfold cell_page in Hl. assert ((id, c) ∈ sql_select_by_id (λ k _, ahead upto k) (cc_cells col v)) as Hin
    by (by apply elem_of_sql_select). destruct (sql_select_by_id _ _) as [|x L]; [by apply elem_of_nil in Hin|]. by destruct n; [lia|].
Qed.

Lemma fewer_ahead col n upto v v2 key c0 : dom (cc_cells col v2) = dom (cc_cells col v) → last (cell_page col n upto v) = Some (key, c0) →
  (size (ahead_keys col (Some key) v2) < size (ahead_keys col upto v))%nat.
Proof.
  intros Hdom Hlast. apply last_Some_elem_of in Hlast. pose proof (page_cells _ _ _ _ _ _ Hlast) as [Hkey Hup]. apply subset_size. unfold ahead_keys. rewrite Hdom.
  assert (String.leb key key = true) as Hrefl by (apply Is_true_true, (reflexivity (R:=String.le))).
  split.
  - intros id. rewrite !elem_of_filter. intros [Ha Hid]. split; [|done]. destruct upto as [a|]; [|done]. simpl in *. apply negb_true_iff. apply negb_true_iff in Ha, Hup.
    destruct (String.leb id a) eqn:E; [|done]. exfalso. revert Ha. assert (String.leb id key = true) as ->; [|done].
    apply Is_true_true. change (String.le id key). transitivity a; [by apply Is_true_true|].
    destruct (total String.le key a) as [Hka|]; [|done]. apply Is_true_true in Hka. congruence.
  - intros Hsub. assert (key ∈ filter (λ id, ahead (Some key) id = true) (dom (cc_cells col v))) as Hin.
    { apply Hsub. apply elem_of_filter. split; [done|]. by apply elem_of_dom_2 in Hkey. }
    apply elem_of_filter in Hin as [Hin _]. simpl in Hin. by rewrite Hrefl in Hin.
Qed.

Section Batches.
Context (dryRun : bool) (batchSize : nat) (Hbatch : (0 < batchSize)%nat).

(** What the pages of a column come to: every cell kept, and when none was
    unreadable those ahead fresh; a dry run writes nothing. *)
Definition covers (col : CiphertextColumn) (upto : option string) (v' : Vault) : Prop :=
  ∀ id c', cc_cells col v' !! id = Some c' → ahead upto id = true → fresh c'.

Lemma fresh_later col v v' id c' : col ∈ ENVELOPE_COLUMNS → all_kept v v' → cc_cells col v' !! id = Some c' →
  (∀ c, cc_cells col v !! id = Some c → fresh c) → fresh c'.
Proof.
  intros Hcol Hk Hid Hf. specialize (Hk col Hcol id). rewrite Hid in Hk. destruct (cc_cells col v !! id) as [c|] eqn:E; [|done].
  eapply kept_fresh; [exact Hk|]. by apply Hf.
Qed.

(** One page: considered and written. *)
Lemma page_spec col upto st st' us v v1 : col ∈ ENVELOPE_COLUMNS →
  consider_rows ring col (cell_page col batchSize upto v) st [] v = (Ret (st', us), v1) →
  let v2 := if bool_decide (us = []) || dryRun then v1 else foldl (λ v u, cc_write col now u.1 u.2 v) v1 us in
  all_kept v v2 ∧ (dryRun = true → same_tables v v2) ∧ (cs_unreadable st ≤ cs_unreadable st')%nat ∧
  (dryRun = false → cs_unreadable st' = cs_unreadable st → ∀ id c', (id, c') ∈ cell_page col batchSize upto v →
     ∀ c2, cc_cells col v2 !! id = Some c2 → fresh c2).
Proof.
  intros Hcol Hc v2. apply consider_rows_spec in Hc as [Ht (u & Hu & Hsub & Hle & Hren & Hfr)]. simpl in Hu. subst us.
  assert (NoDup u.*1) as Hn.
  { eapply sublist_NoDup; [|exact Hsub]. eapply sublist_NoDup; [apply (sql_select_NoDup (λ k _, ahead upto k) (cc_cells col v))|].
    apply sublist_fmap_mono. unfold cell_page. apply sublist_take. }
  assert (∀ id c, (id, c) ∈ cell_page col batchSize upto v → cc_cells col v1 !! id = Some c) as Hrows by (intros id c Hin; rewrite (same_cells _ _ _ Hcol (same_ring_tables _ _ Ht)); by apply page_cells in Hin as [? _]).
  destruct (write_all_kept col v1 _ u Hcol Hrows Hn Hren) as [Hk Hw]. apply all_kept_same in Ht as Hk1.
  unfold v2. destruct dryRun; [rewrite orb_true_r; by split; [|split; [|split]]|]. rewrite orb_false_r. case_bool_decide as Hnil.
  - split; [done|]. split; [done|]. split; [done|]. intros _ Heq id c Hin c2 Hc2. rewrite (Hrows id c Hin) in Hc2. injection Hc2 as <-.
    destruct (Hfr Heq id c Hin) as [Hid|]; [|done]. rewrite Hnil in Hid. by apply elem_of_nil in Hid.
  - split; [by eapply all_kept_trans|]. split; [done|]. split; [done|]. intros _ Heq id c Hin c2 Hc2. destruct (Hfr Heq id c Hin) as [Hid|Hf]; [by eapply Hw|].
    eapply fresh_later; [exact Hcol|exact Hk|exact Hc2|]. intros c1 Hc1. rewrite (Hrows id c Hin) in Hc1. by injection Hc1 as <-.
Qed.

Lemma rewrap_pages_spec col fuel : col ∈ ENVELOPE_COLUMNS → ∀ upto st v o v', rewrap_pages now fuel ring dryRun batchSize col upto st v = (o, v') →
  all_kept v v' ∧ (dryRun = true → same_tables v v') ∧
  match o with
  | Ret st' => (cs_unreadable st ≤ cs_unreadable st')%nat ∧
      (dryRun = false → cs_unreadable st' = cs_unreadable st → (size (ahead_keys col upto v) < fuel)%nat → covers col upto v')
  | Throw _ => True
  end.
Proof.
  intros Hcol. induction fuel as [|fuel IH]; intros upto st v o v' Hr.
  { injection Hr as <- <-. split; [by apply all_kept_same|]. split; [done|]. split; [done|]. lia. }
  cbn [rewrap_pages] in Hr. unfold get in Hr. m_unfold. destruct (last (cell_page col batchSize upto v)) as [[key c0]|] eqn:Elast.
  2: { injection Hr as <- <-. split; [by apply all_kept_same|]. split; [done|]. split; [done|]. intros _ _ _ id c' Hid Ha. by destruct (page_exhausted _ _ _ _ Hbatch Elast id c'). }
  destruct (consider_rows ring col (cell_page col batchSize upto v) st [] v) as [[[st1 us]|e] v1] eqn:Ec.
  2: { injection Hr as <- <-. apply consider_rows_spec in Ec as [Ht _]. split; [by apply all_kept_same|done]. }
  destruct (page_spec col upto st st1 us v v1 Hcol Ec) as (Hk & Hdry & Hle & Hfresh). revert Hk Hdry Hfresh Hr. unfold write_all.
  set (v2 := if bool_decide (us = []) || dryRun then v1 else _). intros Hk Hdry Hfresh Hr.
  assert (match (if (length (cell_page col batchSize upto v) <? batchSize)%nat then (Ret (add_rewrapped (length us) st1), v2)
                 else rewrap_pages now fuel ring dryRun batchSize col (Some key) (add_rewrapped (length us) st1) v2) with r => r end = (o, v')) as Hr2.
  { rewrite <- Hr. unfold v2. by destruct (bool_decide (us = []) || dryRun), (_ <? _)%nat. }
  clear Hr. destruct (length (cell_page col batchSize upto v) <? batchSize)%nat eqn:El.
  - injection Hr2 as <- <-. split; [done|]. split; [done|]. split; [done|]. intros Hd Heq _ id c' Hid Ha.
    assert (is_Some (cc_cells col v !! id)) as [c Hc] by (apply elem_of_dom; rewrite <- (kept_dom col v v2 Hcol Hk); by apply elem_of_dom).
    destruct (page_covers _ _ _ _ _ _ _ _ Elast Hc Ha) as [Hin|[_ Hlen]]; [by eapply Hfresh|]. apply Nat.ltb_lt in El. lia.
  - apply IH in Hr2 as (Hk2 & Hdry2 & Hr2). split; [by eapply all_kept_trans|]. split; [intros Hd; eapply same_tables_trans; auto|]. destruct o as [st'|e]; [|done].
    destruct Hr2 as [Hle2 Hcov]. cbn [cs_unreadable add_rewrapped] in *. split; [lia|]. intros Hd Heq Hfuel id c' Hid Ha.
    assert (is_Some (cc_cells col v !! id)) as [c Hc] by (apply elem_of_dom; rewrite <- (kept_dom col v v2 Hcol Hk), <- (kept_dom col v2 v' Hcol Hk2); by apply elem_of_dom).
    pose proof (fewer_ahead col batchSize upto v v2 key c0 (kept_dom col v v2 Hcol Hk) Elast).
    destruct (page_covers _ _ _ _ _ _ _ _ Elast Hc Ha) as [Hin|[Hlater _]]; [|by apply (Hcov Hd ltac:(lia) ltac:(lia) id c')].
    eapply fresh_later; [exact Hcol|exact Hk2|exact Hid|]. intros c2 Hc2. eapply Hfresh; [done|lia|exact Hin|exact Hc2].
Qed.

Lemma rewrap_column_spec col v o v' : col ∈ ENVELOPE_COLUMNS → rewrap_column now ring dryRun batchSize col v = (o, v') →
  all_kept v v' ∧ (dryRun = true → same_tables v v') ∧
  match o with Ret st' => dryRun = false → cs_unreadable st' = 0 → covers col None v' | Throw _ => True end.
Proof.
  intros Hcol Hr. unfold rewrap_column, get in Hr. m_unfold. apply rewrap_pages_spec in Hr as (Hk & Hd & Hr); [|done]. split; [done|]. split; [done|].
  destruct o as [st'|]; [|done]. destruct Hr as [_ Hr]. intros Hdry Heq. apply (Hr Hdry Heq). unfold ahead_keys.
  rewrite <- size_dom. apply Nat.lt_succ_r, subseteq_size. intros id. rewrite elem_of_filter. by intros [_ ?].
Qed.

Lemma rewrap_columns_spec cols : ∀ v o v', (∀ col, col ∈ cols → col ∈ ENVELOPE_COLUMNS) → rewrap_columns now ring dryRun batchSize cols v = (o, v') →
  all_kept v v' ∧ (dryRun = true → same_tables v v') ∧
  match o with
  | Ret sts => dryRun = false → Forall (λ st, cs_unreadable st = 0) sts → ∀ col, col ∈ cols → covers col None v'
  | Throw _ => True
  end.
Proof.
  induction cols as [|col cols IH]; intros v o v' Hin Hr.
  { injection Hr as <- <-. split; [by apply all_kept_same|]. split; [done|]. by intros _ _ col ?%elem_of_nil. }
  cbn [rewrap_columns] in Hr. m_unfold. destruct (rewrap_column now ring dryRun batchSize col v) as [[st|e] v1] eqn:E1.
  2: { injection Hr as <- <-. apply rewrap_column_spec in E1 as (? & ? & _); [done|apply Hin; left]. }
  apply rewrap_column_spec in E1 as (Hk1 & Hd1 & Hc1); [|apply Hin; left].
  destruct (rewrap_columns now ring dryRun batchSize cols v1) as [[sts|e] v2] eqn:E2; apply IH in E2 as (Hk2 & Hd2 & Hc2); try (by intros; apply Hin; right).
  - injection Hr as <- <-. split; [by eapply all_kept_trans|]. split; [intros Hd; eapply same_tables_trans; auto|].
    intros Hd [Hst Hsts]%Forall_cons col' [->|Hcol']%elem_of_cons; [|by apply Hc2]. intros id c' Hid _. eapply fresh_later; [apply Hin; left|exact Hk2|exact Hid|].
    intros c Hc. by eapply Hc1.
  - injection Hr as <- <-. split; [by eapply all_kept_trans|]. split; [intros Hd; eapply same_tables_trans; auto|done].
Qed.
End Batches.

(** *** The migration *)

Section Lookups.
Variable acceptUnbound : bool.

Lemma alone_within {A} (R : KeyStore → KeyStore → Prop) (p : prog KeyStore A) : within R p → ∀ s o s', alone now p s = (o, s') → rtc R s s'.
Proof.
  induction p as [o|X f g m k IH]; intros Hp s o' s' Hr; [by injection Hr as <- <-|]. cbn [alone] in Hr.
  destruct (g s) eqn:Eg; [|by injection Hr as <- <-]. destruct (m now s) as [o1 s1] eqn:Em. destruct Hp as [Hp _]. destruct (Hp _ _ _ _ Eg Em) as [HR Hk].
  eapply rtc_l; [exact HR|]. by eapply IH.
Qed.

Definition fresh_value (value : option string) : Prop := ∀ x, truthy_text value = Some x → inspectCiphertext x = Ret (3%Z, kr_activeId ring).
Definition fresh_row (r : AccountKeyRow) : Prop := fresh_value (ak_wrappedDek r) ∧ fresh_value (ak_wrappedDekByViewingKey r).
Definition fresh_keys (s : KeyStore) : Prop := ∀ acc r, st_accountKeys s !! acc = Some r → fresh_row r.

Lemma encrypt_fresh n p b x : encrypt n p ring (Some b) = Ret x → fresh_value (Some x).
Proof. intros Hx y Hy. rewrite (encrypt_truthy _ _ _ _ Hx) in Hy. injection Hy as <-. eapply inspect_encrypt; [apply active_pattern|exact Hx]. Qed.

Lemma encrypted_fresh n p b x : Some <$> encrypt n p ring (Some b) = Ret (Some x) → fresh_value (Some x).
Proof. destruct (encrypt n p ring (Some b)) as [y|] eqn:E; [|done]. intros [= <-]. by eapply encrypt_fresh. Qed.

Lemma rewrapped_fresh n a wrapped vk o w v : ra_ring a = ring → rewrapped acceptUnbound n a wrapped vk o = Ret (w, v) →
  (∀ x, w = Some x → fresh_value w) ∧ (∀ x, v = Some x → fresh_value v).
Proof.
  intros Ha Hr. unfold rewrapped in Hr. rewrite Ha in Hr. apply outcome_bind_ret in Hr as ([version keyId] & _ & Hr).
  apply outcome_bind_ret in Hr as (w' & Hw & Hr). apply outcome_bind_ret in Hr as (v' & Hv & [= -> ->]). split; intros x ->.
  - destruct (_ || _); [|done]. by apply encrypted_fresh in Hw.
  - destruct (present (ra_storagePassword a)), (present vk); try done; try (by apply encrypted_fresh in Hv).
    all: destruct (isBareViewingKeySeal _); [by apply encrypted_fresh in Hv|]; destruct (op_vkUnknownKey o); [done|].
    all: apply outcome_bind_ret in Hv as ([? sealedBy] & _ & Hv); case_bool_decide; [done|]; apply outcome_bind_ret in Hv as (inner & _ & Hv); by apply encrypted_fresh in Hv.
Qed.

Lemma done_bind {A B} (x : A) (k : A → prog KeyStore B) : (Done (Ret x) ≫= k) = k x.
Proof. done. Qed.

(** What the statements of a lookup do to the table of keys, beyond leaving it alone. *)
Lemma within_resolve (R : KeyStore → KeyStore → Prop) a :
  (∀ s s', st_accountKeys s' = st_accountKeys s → R s s') →
  (ra_readOnly a = false → ∀ n w vk op set_, rewrapped acceptUnbound n a w vk op = Ret set_ → within R (update_row (ra_accountId a) set_)) →
  (ra_create a = true → ∀ n m dek p w vk, wrapDek n dek (ra_ring a) (ra_accountId a) = Ret w →
     sealDekByViewingKey m dek p (ra_ring a) (ra_accountId a) = Ret vk → within R (insert_key_row (ra_accountId a) w vk)) →
  within R (resolveAccountDek acceptUnbound (Done (Ret None)) a).
Proof.
  intros Hsame Hupdate Hinsert.
  assert (∀ A (m : M KeyStore A), (∀ s o s', m s = (o, s') → st_accountKeys s' = st_accountKeys s) → within R (local m)) as Hlocal.
  { intros A m Hm. apply within_stmt. intros _ s o s' _ Hr. by eapply Hsame, Hm. }
  unfold resolveAccountDek. apply within_bind; [apply Hlocal; intros s o s'; unfold enter; intros Hr; by walk|].
  intros [o|token|token]; [done|apply within_stmt; intros _ s o s' _ [= <- <-]; by apply Hsame|].
  assert (∀ o, within R (settle a token o)) as Hsettle by (intros o; apply Hlocal; intros s o' s' [= <- <-]; by case_bool_decide).
  apply within_bind; [|intros dek; by apply within_bind]. apply within_catching; [|intros e; by apply within_bind].
  assert (∀ dek, within R (storeDek a dek token)) as Hstore by (intros dek; apply Hlocal; intros s o s' [= <- <-]; by case_bool_decide).
  assert (∀ acc, within R (select_row acc)) as Hselect by (intros acc; apply within_stmt; intros _ s o s' _ [= <- <-]; by apply Hsame).
  assert (∀ n, within R (draw n)) as Hdraw by (intros n; apply Hlocal; by intros s o s' [= <- <-]).
  assert (∀ w vk, within R (resolve_row acceptUnbound a token w vk)) as Hrow.
  { intros w vk. unfold resolve_row, lift_prog. destruct (open_row _ _ _ _) as [op|e]; [|done]. rewrite done_bind. apply within_bind; [done|]. intros n.
    destruct (rewrapped acceptUnbound n a w vk op) as [set_|e] eqn:Er; [|done]. rewrite done_bind.
    apply within_bind; [|intros _; by apply within_bind]. destruct (bool_decide _); [done|]. destruct (ra_readOnly a); [done|]. by eapply Hupdate. }
  generalize 2. intros fuel. induction fuel as [|fuel IH]; [done|]. cbn [resolveUncached]. apply within_bind; [done|]. intros row.
  destruct (present_row row) as [[w vk]|]; [done|]. destruct (ra_create a); [|done]. destruct (present (ra_storagePassword a)) as [p|]; [|done].
  apply within_bind; [done|]. intros n. apply within_bind; [|intros []; [done|by apply within_bind]].
  apply within_catching; [|intros e; apply within_bind; [done|intros again; by destruct (present_row again)]].
  unfold lift_prog. destruct (wrapDek _ _ _ _) as [w|e] eqn:Ew; [|done]. destruct (sealDekByViewingKey _ _ _ _ _) as [vk|e] eqn:Ev; [|done].
  rewrite !done_bind. apply within_bind; [|done]. eapply Hinsert; [reflexivity|exact Ew|exact Ev].
Qed.

Lemma read_only_resolve a : ra_readOnly a = true → ra_create a = false →
  within (λ s s', st_accountKeys s' = st_accountKeys s) (resolveAccountDek acceptUnbound (Done (Ret None)) a).
Proof. intros Hr Hc. apply within_resolve; [done|by rewrite Hr|by rewrite Hc]. Qed.

Definition stays_fresh (s s' : KeyStore) : Prop := fresh_keys s → fresh_keys s'.

Lemma stays_resolve a : ra_ring a = ring → within stays_fresh (resolveAccountDek acceptUnbound (Done (Ret None)) a).
Proof.
  intros Ha. apply within_resolve.
  - intros s s' E Hf acc r Hrow. rewrite E in Hrow. by eapply Hf.
  - intros _ n w vk op [w' v'] [F1 F2]%rewrapped_fresh; [|done]. apply within_stmt. intros t s o s' _ [= <- <-] Hf acc r. simpl. unfold sql_update_key.
    destruct (st_accountKeys s !! ra_accountId a) as [row|] eqn:E; simpl; [|by apply Hf]. intros [[<- <-]|[_ Hr]]%lookup_insert_Some; [|by eapply Hf].
    destruct (Hf _ row E) as [G1 G2]. destruct w' as [w'|], v' as [v'|]; split; simpl in *; eauto.
  - rewrite Ha. intros _ n m dek p w vk Hw Hv. apply within_stmt. intros t s o s' _ Hi Hf.
    destruct (st_accountKeys s !! ra_accountId a) eqn:E; injection Hi as <- <-; [done|].
    intros acc r Hr. cbn [st_accountKeys with_key_rows] in Hr. apply lookup_insert_Some in Hr as [[<- <-]|[_ Hr]]; [|by eapply Hf]. split; simpl; by eapply encrypt_fresh.
Qed.

(** What the migration does to the tables: it looks account keys up, moves rows and,
    unless it is a dry run, writes wallet states and draws random bytes. *)
Section Within.
Context (dryRun : bool) (R : Vault → Vault → Prop) `{!PreOrder R}.
Hypothesis Hdraws : dryRun = false → writes R (on_stored (draws 1)).
Hypothesis Hsync : dryRun = false → ∀ acc row, writes R (on_stored (put_sync acc row)).
Hypothesis Hdrop : dryRun = false → ∀ acc, writes R (on_stored (λ s, (Ret tt, MkStateStore (ss_states s) (ss_signingKeys s) (delete acc (ss_syncStates s)) (ss_draws s)))).
Hypothesis Hlookup : ∀ acc p,
  writes R (on_keys (alone now (resolveAccountDek acceptUnbound (Done (Ret None)) (MkResolve 0 ring acc (Some p) (negb dryRun) dryRun)))).
Hypothesis Hstates : ∀ acc d cs m v o v',
  migrate_rows dryRun acc (truthy_text ((λ d, privateStatePasswordFromDek d acc) <$> d)) cs (legacy_states now acc (va_stored v)) m v = (o, v') → R v v'.
Hypothesis Hkeys : ∀ acc d cs m v o v',
  migrate_rows dryRun acc (truthy_text ((λ d, privateStatePasswordFromDek d acc) <$> d)) cs (legacy_signing_keys now acc (va_stored v)) m v = (o, v') → R v v'.

Lemma writes_blob acc pass candidates blob m : writes R (migrate_blob dryRun acc pass candidates blob m).
Proof.
  unfold migrate_blob. destruct (truthy_text blob) as [b|]; [|quiet]. destruct (saltOf b) as [salt|]; [|quiet]. destruct (match truthy_text pass with Some _ => _ | None => _ end); [quiet|].
  destruct (List.find _ candidates ≫= _) as [plain|]; [|quiet]. apply writes_bind; [quiet| |quiet]. destruct (truthy_text pass) as [d|]; [|quiet]. apply writes_unless_dry; [quiet|]. intros Hd.
  apply writes_bind; [quiet|by apply Hdraws|]. intros n. apply writes_bind; quiet.
Qed.

Lemma writes_sync acc p pass m : writes R (migrate_sync_row ring dryRun acc p pass m).
Proof.
  unfold migrate_sync_row. apply writes_bind; [quiet..|]. intros v. destruct (ss_syncStates (va_stored v) !! acc) as [row|]; [|quiet]. case_bool_decide; [quiet|].
  apply writes_bind; [quiet..|]. intros candidates. apply writes_bind; [quiet|apply writes_blob|]. intros [sh m1]. apply writes_bind; [quiet|apply writes_blob|]. intros [un m2].
  apply writes_bind; [quiet|apply writes_blob|]. intros [du m3]. apply writes_bind; [quiet| |quiet]. apply writes_unless_dry; [quiet|]. intros Hd. by apply Hsync.
Qed.

Lemma writes_account vk acc d m : writes R (migrate_account now ring dryRun vk acc d m).
Proof.
  unfold migrate_account. apply writes_bind; [quiet..|]. intros cs. apply writes_read; [quiet|intros v o v'; apply Hstates|]. intros [m1 touched].
  apply writes_read; [quiet|intros v o v'; apply Hkeys|]. intros [m2 touched2]. apply writes_bind; [quiet|apply writes_sync|quiet].
Qed.

Lemma writes_sessions sessions : ∀ m, writes R (migrate_sessions acceptUnbound now ring dryRun sessions m).
Proof.
  induction sessions as [|s sessions IH]; intros m; [quiet|]. cbn [migrate_sessions]. destruct (truthy_text _) as [value|]; [|quiet].
  destruct (decrypt value ring _ true) as [vk|err]; [|destruct (is_unknown_key err); [by intros v o v' [= <- <-]|done]]. case_bool_decide; [quiet|]. intros v o v'. unfold get, put. m_unfold.
  destruct (on_keys _ v) as [[dek|e] v1] eqn:Ek; apply Hlookup in Ek; intros Hr; (etransitivity; [exact Ek|]); [|by eapply IH].
  revert Hr. apply (writes_bind R (migrate_account now ring dryRun vk (deriveAccountId vk) dek (seen (deriveAccountId vk) m))); [apply writes_account|quiet].
Qed.

Lemma writes_drop drop m : writes R (dropLegacySyncStates dryRun drop m).
Proof.
  unfold dropLegacySyncStates. destruct (negb drop); [quiet|]. apply writes_bind; [quiet..|]. intros v. apply writes_bind; [quiet| |intros []; quiet].
  generalize 0 as n. revert m. induction (sql_select _ _).*1 as [|acc accs IH]; intros m n; [quiet|]. cbn [drop_rows]. case_bool_decide; [quiet|].
  apply writes_bind; [quiet| |quiet]. apply writes_unless_dry; [quiet|]. intros Hd. by apply Hdrop.
Qed.

(** All that follows the encryption of the columns. *)
Lemma writes_migration drop : writes R (m ← migrateLegacyRows acceptUnbound now ring dryRun; dropLegacySyncStates dryRun drop m).
Proof. apply writes_bind; [quiet|apply writes_bind; [quiet..|]; intros v; apply writes_sessions|]. intros m. apply writes_drop. Qed.
End Within.

(** A relation that lets stored states change at will. *)
Section Stored.
Context (dryRun : bool) (R : Vault → Vault → Prop) `{!PreOrder R}.
Hypothesis Hstored : dryRun = false → ∀ v s, R v (with_stored s v).

Lemma writes_stored {A} (m : M StateStore A) : dryRun = false → writes R (on_stored m).
Proof. intros Hd v o v'. unfold on_stored. destruct (m (va_stored v)) as [o1 s1]. intros [= <- <-]. by apply Hstored. Qed.

Lemma writes_rows acc pw candidates rows : Forall (λ r, dryRun = false → ∀ x, writes R (r.1 x)) rows → ∀ m, writes R (migrate_rows dryRun acc pw candidates rows m).
Proof.
  induction 1 as [|[write row] rows Hw Hrows IH]; intros m; [quiet|]. cbn [migrate_rows]. destruct (is_empty _); [quiet|]. apply writes_bind; [quiet| |quiet].
  unfold migrate_row. destruct (read_legacy _ _ _) as [plain|]; [|quiet]. apply writes_bind; [quiet| |quiet]. destruct pw as [pw|]; [|quiet].
  apply writes_unless_dry; [quiet|]. intros Hd. apply writes_bind; [quiet|by apply writes_stored|]. intros n. apply writes_bind; [quiet..|]. by apply Hw.
Qed.

Lemma writes_legacy_states acc s : Forall (λ r, dryRun = false → ∀ x, writes R (r.1 x)) (legacy_states now acc s).
Proof.
  apply Forall_forall. intros r Hr Hd x. unfold legacy_states in Hr. rewrite list_elem_of_In, in_flat_map in Hr. destruct Hr as (kt & _ & Hr).
  apply list_elem_of_In in Hr. case_bool_decide; [|by apply elem_of_nil in Hr]. apply list_elem_of_fmap in Hr as (kr & -> & _). by apply writes_stored.
Qed.

Lemma writes_legacy_keys acc s : Forall (λ r, dryRun = false → ∀ x, writes R (r.1 x)) (legacy_signing_keys now acc s).
Proof. apply Forall_forall. intros r Hr Hd x. apply list_elem_of_fmap in Hr as (kr & -> & _). by apply writes_stored. Qed.

Lemma writes_any_migration drop :
  (∀ acc p, writes R (on_keys (alone now (resolveAccountDek acceptUnbound (Done (Ret None)) (MkResolve 0 ring acc (Some p) (negb dryRun) dryRun))))) →
  writes R (m ← migrateLegacyRows acceptUnbound now ring dryRun; dropLegacySyncStates dryRun drop m).
Proof.
  intros Hlookup. apply writes_migration; [quiet|intros; by apply writes_stored..|exact Hlookup| |].
  - intros acc d cs m v o v'. apply writes_rows, writes_legacy_states.
  - intros acc d cs m v o v'. apply writes_rows, writes_legacy_keys.
Qed.
End Stored.

Lemma dry_lookup acc p v o v' :
  on_keys (alone now (resolveAccountDek acceptUnbound (Done (Ret None)) (MkResolve 0 ring acc (Some p) false true))) v = (o, v') → same_tables v v'.
Proof.
  unfold on_keys. destruct (alone now _ (va_keys v)) as [o1 k] eqn:Ea. intros [= <- <-].
  eapply alone_within in Ea; [|by apply read_only_resolve]. unfold same_tables, tables. simpl.
  assert (st_accountKeys k = st_accountKeys (va_keys v)) as ->; [|done]. induction Ea as [|s1 s2 s3 E _ IH]; [done|by rewrite IH].
Qed.

(** The tables the migration leaves alone, and the keys it renews. *)
Definition spares (v v' : Vault) : Prop :=
  va_sessions v' = va_sessions v ∧ va_jobs v' = va_jobs v ∧ va_disclosures v' = va_disclosures v ∧ stays_fresh (va_keys v) (va_keys v').

#[export] Instance spares_preorder : PreOrder spares.
Proof. split; [intros v; split_and!; [done..|by intros Hf]|]. intros v1 v2 v3 (A1 & B1 & C1 & D1) (A2 & B2 & C2 & D2). split_and!; [congruence..|]. intros Hf. by apply D2, D1. Qed.

#[export] Instance same_tables_preorder : PreOrder same_tables.
Proof. split; [done|]. intros v1 v2 v3. apply same_tables_trans. Qed.

Lemma spared_lookup dryRun acc p v o v' :
  on_keys (alone now (resolveAccountDek acceptUnbound (Done (Ret None)) (MkResolve 0 ring acc (Some p) (negb dryRun) dryRun))) v = (o, v') → spares v v'.
Proof.
  unfold on_keys. destruct (alone now _ (va_keys v)) as [o1 k] eqn:Ea. intros [= <- <-]. split_and!; [done..|]. simpl.
  eapply alone_within in Ea; [|by apply stays_resolve]. induction Ea as [|s1 s2 s3 E _ IH]; [by intros Hf|]. intros Hf. by apply IH, E.
Qed.

Lemma migration_spares dryRun drop v o v' : (m ← migrateLegacyRows acceptUnbound now ring dryRun; dropLegacySyncStates dryRun drop m) v = (o, v') → spares v v'.
Proof. apply (writes_any_migration dryRun spares); [intros _ v1 s; split_and!; [done..|by intros Hf]|intros acc p v1 o1 v1'; apply spared_lookup]. Qed.

Lemma migration_dry drop v o v' : (m ← migrateLegacyRows acceptUnbound now ring true; dropLegacySyncStates true drop m) v = (o, v') → same_tables v v'.
Proof. apply (writes_any_migration true same_tables); [done|intros acc p v1 o1 v1'; apply dry_lookup]. Qed.

(** The tool: its check, the columns, and the migration. *)
Lemma rewrap_parts dryRun batchSize drop v o v' : rewrapStoredCiphertexts acceptUnbound now ring dryRun batchSize drop v = (o, v') →
  (v' = v ∧ ∃ e, o = Throw e) ∨ ∃ o1 v1, rewrap_columns now ring dryRun (Z.to_nat (Z.max 1 batchSize)) ENVELOPE_COLUMNS v = (o1, v1) ∧
    match o1 with
    | Throw e => v' = v1 ∧ o = Throw e
    | Ret envelope => ∃ o2, (m ← migrateLegacyRows acceptUnbound now ring dryRun; dropLegacySyncStates dryRun drop m) v1 = (o2, v') ∧
        match o with Ret report => rr_envelope report = envelope ∧ (∃ m, o2 = Ret m) | Throw _ => True end
    end.
Proof.
  unfold rewrapStoredCiphertexts, get, lift. m_unfold. destruct (assertStoredKeyIdsKnown ring v) as [[]|e]; [|intros [= <- <-]; left; split; [done|by eexists]]. intros Hr. right.
  destruct (rewrap_columns now ring dryRun _ ENVELOPE_COLUMNS v) as [o1 v1] eqn:E1. exists o1, v1. split; [done|]. destruct o1 as [envelope|e]; [|injection Hr as <- <-; done].
  destruct (migrateLegacyRows acceptUnbound now ring dryRun v1) as [[m|e] v2]; [|injection Hr as <- <-; by eexists].
  destruct (dropLegacySyncStates dryRun drop m v2) as [[m'|e] v3]; injection Hr as <- <-; eexists; eauto.
Qed.
End Lookups.
End Facts.

(** ** The check passes *)

Lemma join_split_on c s : join_with c (split_on c s) = s.
Proof.
  unfold join_with. induction s as [|a s IH]; [done|]. cbn [split_on]. destruct (Ascii.eqb c a) eqn:E.
  - apply Ascii.eqb_eq in E as <-. destruct (split_on c s) as [|w ws] eqn:Es; [by apply split_on_nonempty in Es|].
    change (String.concat (String c EmptyString) (EmptyString :: w :: ws)) with (String c (String.concat (String c EmptyString) (w :: ws))). by rewrite IH.
  - destruct (split_on c s) as [|w [|w' ws]] eqn:Es; [by apply split_on_nonempty in Es| |].
    + by rewrite <- IH.
    + change (String.concat (String c EmptyString) (String a w :: w' :: ws)) with (String a (w ++ String c EmptyString ++ String.concat (String c EmptyString) (w' :: ws))%string).
      f_equal. by rewrite <- IH.
Qed.

Lemma slice0_long n s t : (String.length s ≤ n)%nat → slice0 n (s ++ t) = (s ++ slice0 (n - String.length s) t)%string.
Proof.
  unfold slice0. revert n. induction s as [|a s IH]; intros n Hn; [by rewrite Nat.sub_0_r|]. simpl in Hn. destruct n as [|n]; [lia|].
  change (String a (String.substring 0 n (s ++ t)) = String a (s ++ String.substring 0 (S n - S (String.length s)) t)%string). f_equal. rewrite IH by lia. done.
Qed.

(** The prefix of a value under the active key names it. *)
Lemma fresh_prefix value id : inspectCiphertext value = Ret (3%Z, id) → ∃ rest,
  slice0 24 value = (BOUND_ENVELOPE_VERSION ++ String ":" (id ++ String ":" rest))%string ∧ KEY_ID_PATTERN id = true.
Proof.
  intros Hi. pose proof (join_split_on ":" value) as Hj. unfold inspectCiphertext in Hi.
  destruct (split_on ":" value) as [|w1 [|w2 [|w3 [|w4 [|w5 [|w6 [|w7 l]]]]]]]; try discriminate Hi.
  destruct (_ || _); [|done]. destruct (KEY_ID_PATTERN w2) eqn:Ek; [|done]. case_bool_decide as Ev; [|done]. injection Hi as <-. subst w1.
  set (tail := String.concat (String ":" EmptyString) [w3; w4; w5; w6]).
  assert (value = (BOUND_ENVELOPE_VERSION ++ String ":" EmptyString) ++ w2 ++ (String ":" EmptyString) ++ tail)%string as -> by (by rewrite <- Hj).
  assert (String.length w2 ≤ 16)%nat as Hlen by (unfold KEY_ID_PATTERN in Ek; apply andb_prop in Ek as [[_ ?%Nat.leb_le]%andb_prop _]; done).
  eexists. split; [|done]. rewrite slice0_long by (simpl; lia). rewrite slice0_long by (simpl; lia). rewrite slice0_long by (simpl; lia). done.
Qed.

Lemma fresh_scanned ring c id : ring_ok ring → fresh ring c → scanned_id c = Some id → id = kr_activeId ring.
Proof.
  intros Hr Hf. unfold scanned_id. destruct (ce_value c) as [value|] eqn:Ev; [|done]. destruct (ce_where c) eqn:Ew; [|done].
  destruct (is_empty value) eqn:Ee; [by destruct value|]. assert (inspectCiphertext value = Ret (3%Z, kr_activeId ring)) as Hi.
  { apply Hf; [|done]. rewrite Ev. unfold truthy_text. by rewrite Ee. }
  destruct (fresh_prefix _ _ Hi) as (rest & Hp & Hk). rewrite Hp. unfold keyIdFromPrefix.
  change (is_empty (BOUND_ENVELOPE_VERSION ++ _)) with false. change (starts_with BARE_VIEWING_KEY_SEAL_PREFIX (BOUND_ENVELOPE_VERSION ++ _)) with false.
  change (starts_with (BOUND_ENVELOPE_VERSION ++ ":") (BOUND_ENVELOPE_VERSION ++ String ":" ?x)) with true. cbv iota.
  assert (rest_from 3 (BOUND_ENVELOPE_VERSION ++ String ":" (kr_activeId ring ++ String ":" rest)) = (kr_activeId ring ++ String ":" rest)%string) as ->.
  { unfold rest_from. change (BOUND_ENVELOPE_VERSION ++ String ":" ?x)%string with (String "v" (String "3" (String ":" x))).
    cbn [String.substring]. set (x := (_ ++ _)%string). change (String.length (String "v" (String "3" (String ":" x)))) with (3 + String.length x).
    generalize (3 + String.length x)%nat (Nat.le_add_l (String.length x) 3). clear. intros n. revert n. induction x as [|a x IH]; intros n Hn; [by destruct n|].
    simpl in Hn. destruct n as [|n]; [lia|]. cbn [String.substring]. f_equal. apply IH. lia. }
  unfold up_to_colon. rewrite split_on_part by (by apply key_id_colon). destruct (split_on ":" rest) eqn:Er; [by apply split_on_nonempty in Er|].
  destruct (is_empty (kr_activeId ring)) eqn:Ea.
  - destruct (kr_activeId ring); [|done]. apply andb_prop in Hk as [[Hk _]%andb_prop _]. done.
  - cbv iota. rewrite Ea. by intros [= <-].
Qed.

(** ** Private states and signing keys in the migration *)

Section Moved.
Context `{ScanOrder} `{GcmLaws, RandomLaws, HashLaws}.
Variables (acceptUnbound : bool) (now : Z) (ring : KeyRing).

(** A row as it was, or a legacy row that reads under the account's key what it read
    under an older password. *)
Definition row_moved (acc : string) (r r' : SealedRow) : Prop :=
  r' = r ∨ (sl_keyScheme r = None ∧ sl_keyScheme r' = Some DEK_SCHEME ∧ ∃ candidates plain d,
    let pw := privateStatePasswordFromDek d acc in
    read_legacy acc candidates (sl_ciphertext r) = Some plain ∧
    se_decrypt (newStorageEncryption pw (privateStateStableSalt acc pw)) (sl_ciphertext r') = Ret plain).

Definition rows_moved (acc : string) (t t' : gmap string SealedRow) : Prop := ∀ id,
  match t !! id, t' !! id with Some r, Some r' => row_moved acc r r' | None, None => True | _, _ => False end.

Definition states_moved (s s' : StateStore) : Prop :=
  (∀ acc address, rows_moved acc (states_of (acc, address) s) (states_of (acc, address) s')) ∧ (∀ acc, rows_moved acc (keys_of acc s) (keys_of acc s')).

Lemma rows_moved_refl acc t : rows_moved acc t t.
Proof. intros id. destruct (t !! id); [by left|done]. Qed.

Lemma row_moved_trans acc r1 r2 r3 : row_moved acc r1 r2 → row_moved acc r2 r3 → row_moved acc r1 r3.
Proof. intros [->|(L & D & E)] M2; [done|]. destruct M2 as [->|(L2 & _)]; [by right|congruence]. Qed.

Lemma rows_moved_trans acc t1 t2 t3 : rows_moved acc t1 t2 → rows_moved acc t2 t3 → rows_moved acc t1 t3.
Proof.
  intros M1 M2 id. specialize (M1 id). specialize (M2 id). destruct (t1 !! id), (t2 !! id), (t3 !! id); try done. by eapply row_moved_trans.
Qed.

#[export] Instance states_moved_preorder : PreOrder states_moved.
Proof.
  split; [intros s; split; intros; apply rows_moved_refl|]. intros s1 s2 s3 [A1 B1] [A2 B2]. split; intros; by eapply rows_moved_trans.
Qed.

(** The row of the list, moved. *)
Definition moved_to (acc : string) (row : SealedRow) (ciphertext : string) : Prop :=
  sl_keyScheme row = None ∧ row_moved acc row (MkSealed ciphertext (Some DEK_SCHEME) now).

Lemma rows_moved_alter acc t t' id row ciphertext : t !! id = Some row → moved_to acc row ciphertext → rows_moved acc t t' →
  rows_moved acc t (alter (λ _, MkSealed ciphertext (Some DEK_SCHEME) now) id t').
Proof.
  intros Hrow [_ Hm] Ht k. specialize (Ht k). destruct (decide (k = id)) as [->|Hne]; [|by rewrite lookup_alter_ne].
  rewrite lookup_alter_eq, Hrow in *. by destruct (t' !! id).
Qed.

(** Writing such a row, when the store has come from [s0] by such moves. *)
Definition write_moves (acc : string) (s0 : StateStore) (e : (string → VaultM unit) * SealedRow) : Prop :=
  sl_keyScheme e.2 = None ∧ ∀ ciphertext v o v', moved_to acc e.2 ciphertext → states_moved s0 (va_stored v) → e.1 ciphertext v = (o, v') → states_moved s0 (va_stored v').

Lemma legacy_of_row (t : gmap string SealedRow) id row : (id, row) ∈ legacy_of t → t !! id = Some row ∧ sl_keyScheme row = None.
Proof.
  unfold legacy_of. rewrite list_elem_of_filter, (scan_perm t), elem_of_map_to_list. intros [Hl Hr]. split; [done|]. simpl in Hl. by destruct (sl_keyScheme row).
Qed.

Lemma legacy_states_move acc s0 : Forall (write_moves acc s0) (legacy_states now acc s0).
Proof.
  apply Forall_forall. intros e He. unfold legacy_states in He. rewrite list_elem_of_In, in_flat_map in He. destruct He as ([[acc' address] t] & Hkt & He).
  apply list_elem_of_In in Hkt, He. simpl in He. case_bool_decide as Hacc; [|by apply elem_of_nil in He]. subst acc'. apply list_elem_of_fmap in He as ([id row] & -> & Hin).
  apply elem_of_map_to_list in Hkt. apply legacy_of_row in Hin as [Hrow Hl]. split; [done|]. intros c v o v' Hm [Ms Mk] [= <- <-]. split; [|done]. intros acc' address'. simpl.
  assert (states_of (acc, address) s0 = t) as Hs0 by (unfold states_of; by rewrite Hkt).
  destruct (decide ((acc', address') = (acc, address))) as [[= -> ->]|Hne].
  - unfold states_of at 2. cbn [ss_states]. rewrite lookup_insert_eq. cbn [nullish]. eapply rows_moved_alter; [by rewrite Hs0|exact Hm|apply Ms].
  - specialize (Ms acc' address'). unfold states_of at 2. cbn [ss_states]. by rewrite lookup_insert_ne.
Qed.

Lemma legacy_keys_move acc s0 : Forall (write_moves acc s0) (legacy_signing_keys now acc s0).
Proof.
  apply Forall_forall. intros e He. apply list_elem_of_fmap in He as ([address row] & -> & Hin). apply legacy_of_row in Hin as [Hrow Hl]. split; [done|].
  intros c v o v' Hm [Ms Mk] [= <- <-]. split; [done|]. intros acc'. simpl. destruct (decide (acc' = acc)) as [->|Hne].
  - unfold keys_of at 2. cbn [ss_signingKeys]. rewrite lookup_insert_eq. cbn [nullish]. eapply rows_moved_alter; [exact Hrow|exact Hm|apply Mk].
  - specialize (Mk acc'). unfold keys_of at 2. cbn [ss_signingKeys]. by rewrite lookup_insert_ne.
Qed.

Lemma migrate_rows_move dryRun acc d candidates s0 rows : Forall (write_moves acc s0) rows → ∀ m v o v', states_moved s0 (va_stored v) →
  migrate_rows dryRun acc (truthy_text ((λ d, privateStatePasswordFromDek d acc) <$> d)) candidates rows m v = (o, v') → states_moved s0 (va_stored v').
Proof.
  induction 1 as [|[write row] rows [Hl Hw] Hrows IH]; intros m v o v' Hs Hr; [by injection Hr as <- <-|]. cbn [migrate_rows] in Hr.
  destruct (is_empty _); [by eapply IH|]. apply bind_cases in Hr as Hr'. revert Hr'. unfold migrate_row.
  destruct (read_legacy acc candidates (sl_ciphertext row)) as [plain|] eqn:Ep.
  2: { intros [(m1 & v1 & [= <- <-] & Hr')|(e & Hc & _)]; [|done]. by eapply IH. }
  destruct (truthy_text _) as [pw|] eqn:Epw; [|intros [(m1 & v1 & [= <- <-] & Hr')|(e & Hc & _)]; [|done]; by eapply IH].
  destruct dryRun; [intros [(m1 & v1 & [= <- <-] & Hr')|(e & Hc & _)]; [|done]; by eapply IH|].
  assert (∃ d0, pw = privateStatePasswordFromDek d0 acc) as [d0 Hpw].
  { destruct d as [d0|]; [|done]. exists d0. simpl in Epw. by destruct (is_empty _); simplify_eq. }
  set (v1 := with_stored (draws 1 (va_stored v)).2 v). assert (states_moved s0 (va_stored v1)) as Hs1 by exact Hs.
  destruct (se_encrypt_total pw (privateStateStableSalt acc pw) (ss_draws (va_stored v)) plain) as [c Hc].
  assert (moved_to acc row c) as Hm.
  { split; [done|]. right. split; [done|]. split; [done|]. exists candidates, plain, d0. rewrite <- Hpw. split; [done|]. by eapply se_decrypt_encrypt; [apply stable_salt_ok|]. }
  unfold on_stored, draws, lift. m_unfold. cbv beta iota. rewrite Hc. destruct (write c (with_stored _ v)) as [[[]|e] v2] eqn:Ew.
  - intros [(m1 & v3 & [= <- <-] & Hr')|(e & Hc' & _)]; [|done]. eapply IH; [|exact Hr']. eapply Hw; [exact Hm| |exact Ew]. exact Hs1.
  - intros [(m1 & v3 & Hc' & _)|(e' & [= <- <-] & _)]; [done|]. eapply Hw; [exact Hm| |exact Ew]. exact Hs1.
Qed.

Definition vault_moved (v v' : Vault) : Prop := states_moved (va_stored v) (va_stored v').

#[export] Instance vault_moved_preorder : PreOrder vault_moved.
Proof. split; [intros v; unfold vault_moved; reflexivity|]. intros v1 v2 v3 A1 A2. unfold vault_moved in *. by etransitivity. Qed.

(** What writes none of the two tables. *)
Lemma moved_stored {A} (m : M StateStore A) : (∀ s o s', m s = (o, s') → ss_states s' = ss_states s ∧ ss_signingKeys s' = ss_signingKeys s) → writes vault_moved (on_stored m).
Proof.
  intros Hm v o v'. unfold on_stored. destruct (m (va_stored v)) as [o1 s1] eqn:E. intros [= <- <-]. destruct (Hm _ _ _ E) as [E1 E2].
  unfold vault_moved, states_moved, states_of, keys_of. simpl. rewrite E1, E2. split; intros; apply rows_moved_refl.
Qed.

Lemma lookup_moves a : writes vault_moved (on_keys (alone now (resolveAccountDek acceptUnbound (Done (Ret None)) a))).
Proof. intros v o v'. unfold on_keys. destruct (alone now _ (va_keys v)) as [o1 k]. intros [= <- <-]. unfold vault_moved. reflexivity. Qed.

Lemma migration_moves dryRun drop : writes vault_moved (m ← migrateLegacyRows acceptUnbound now ring dryRun; dropLegacySyncStates dryRun drop m).
Proof.
  apply writes_migration; [apply _|intros; apply moved_stored; by intros s o s' [= <- <-]..|intros; apply lookup_moves| |].
  - intros acc d cs m v o v' Hr. eapply migrate_rows_move; [apply legacy_states_move|reflexivity|exact Hr].
  - intros acc d cs m v o v' Hr. eapply migrate_rows_move; [apply legacy_keys_move|reflexivity|exact Hr].
Qed.

(** The columns hold no stored states. *)
Definition keeps_stored (v v' : Vault) : Prop := va_stored v' = va_stored v.

#[export] Instance keeps_stored_preorder : PreOrder keeps_stored.
Proof. split; [done|]. unfold keeps_stored. intros v1 v2 v3. congruence. Qed.

Lemma draws_keep n : writes keeps_stored (ring_draws n).
Proof. by intros v o v' [= <- <-]. Qed.

Lemma write_all_keep col us : col ∈ ENVELOPE_COLUMNS → writes keeps_stored (write_all now col us).
Proof.
  unfold ENVELOPE_COLUMNS. rewrite !elem_of_cons, elem_of_nil. intros Hcol v o v' [= <- <-]. revert v. induction us as [|u us IH]; intros v; [done|].
  cbn [foldl]. etransitivity; [|apply IH]. destruct Hcol as [->|[->|[->|[->|[->|[->|[]]]]]]]; done.
Qed.

Lemma consider_keep col c st : writes keeps_stored (consider ring col c st).
Proof.
  unfold consider. destruct (truthy_text (ce_value c)) as [value|]; [|quiet]. destruct (negb (ce_where c)); [quiet|]. destruct (has_prefix _ value).
  - apply writes_bind; [quiet|apply draws_keep|]. intros n. apply writes_bind; quiet.
  - apply writes_bind; [quiet..|]. intros [version keyId]. destruct (_ && _); [quiet|]. destruct (decrypt value ring _ true).
    + apply writes_bind; [quiet|apply draws_keep|]. intros n. apply writes_bind; quiet.
    + destruct (is_unknown_key e); [by intros v o v' [= <- <-]|quiet].
Qed.

Lemma columns_keep dryRun batchSize cols : (∀ col, col ∈ cols → col ∈ ENVELOPE_COLUMNS) → writes keeps_stored (rewrap_columns now ring dryRun batchSize cols).
Proof.
  induction cols as [|col cols IH]; intros Hcols; [quiet|]. cbn [rewrap_columns]. apply writes_bind; [quiet| |].
  - unfold rewrap_column. apply writes_bind; [quiet..|]. intros v0. generalize (S (size (cc_cells col v0))) as fuel, (None : option string) as upto, (MkStats (cc_name col) 0 0 0 []) as st.
    intros fuel. induction fuel as [|fuel IHf]; intros upto st; [quiet|]. cbn [rewrap_pages]. apply writes_bind; [quiet..|]. intros v.
    destruct (last _) as [[key c0]|]; [|quiet]. apply writes_bind; [quiet| |].
    + generalize (cell_page col batchSize upto v) as rows, ([] : list (string * string)) as us. intros rows. revert st. induction rows as [|[id c] rows IHr]; intros st us; [quiet|].
      cbn [consider_rows]. apply writes_bind; [quiet|apply consider_keep|]. intros [st1 x]. apply IHr.
    + intros [st1 us]. apply writes_bind; [quiet|destruct (_ || _); [quiet|apply write_all_keep, Hcols; left]|]. intros []. destruct (_ <? _)%nat; [quiet|apply IHf].
  - intros st. apply writes_bind; [quiet|apply IH; intros; apply Hcols; by right|]. quiet.
Qed.
End Moved.

Section Rotated.
Context `{ScanOrder} `{GcmLaws, RandomLaws, HashLaws}.

Lemma key_ids_fresh ring col v id : ring_ok ring → (∀ k c, cc_cells col v !! k = Some c → fresh ring c) → id ∈ key_ids col v → id = kr_activeId ring.
Proof.
  intros Hr Hf Hid. unfold key_ids, sort_texts in Hid. rewrite merge_sort_Permutation in Hid. apply elem_of_remove_dups, list_elem_of_omap in Hid as ([k c] & Hin & Hs).
  apply elem_of_map_to_list in Hin. by eapply fresh_scanned; [|by eapply Hf|].
Qed.

Lemma known_ids ring v : (∀ col, col ∈ ENVELOPE_COLUMNS → ∀ id, id ∈ key_ids col v → ring_has ring id = true) → assertStoredKeyIdsKnown ring v = Ret tt.
Proof.
  intros Hk. unfold assertStoredKeyIdsKnown, unknown_ids, scanStoredKeyIds. revert Hk. generalize ENVELOPE_COLUMNS. intros cols Hk.
  assert (∀ l (name : string), (∀ id, id ∈ l → ring_has ring id = true) →
    foldl (λ m id, if ring_has ring id then m else map_set id (nullish (map_get id m) [] ++ [name]) m) [] l = ([] : list (string * list string))) as Hl.
  { intros l name. induction l as [|i l IH]; intros Hl; [done|]. simpl. rewrite Hl by left. apply IH. intros j Hj. apply Hl. by right. }
  enough (foldl (λ m p, foldl (λ m id, if ring_has ring id then m else map_set id (nullish (map_get id m) [] ++ [cc_name p.1]) m) m p.2) []
            ((λ col, (col, key_ids col v)) <$> cols) = ([] : list (string * list string))) as -> by done.
  induction cols as [|col cols IH]; [done|]. cbn [foldl fmap list_fmap fst snd]. rewrite Hl; [apply IH; intros c Hc; apply Hk; by right|]. apply Hk. left.
Qed.

(** A value under the active key reads the same under every ring with that key. *)
Lemma decrypt_active ring ring' value b a a' : inspectCiphertext value = Ret (3%Z, kr_activeId ring) →
  ring_kek ring' (kr_activeId ring) = ring_kek ring (kr_activeId ring) → decrypt value ring' (Some b) a = decrypt value ring (Some b) a'.
Proof.
  intros Hi Hk. unfold decrypt. rewrite Hi. cbn [mbind outcome_bind]. rewrite (bool_decide_eq_false_2 (3 < 3)%Z) by lia. cbn [andb mbind outcome_bind].
  unfold inspectCiphertext in Hi. destruct (split_on ":" value) as [|w1 [|w2 [|w3 [|w4 [|w5 [|w6 [|w7 l]]]]]]]; try done. by rewrite Hk.
Qed.

(** The columns of tables the migration leaves alone. *)
Definition owned_columns : list CiphertextColumn := [viewing_key_column; seed_column; command_column; disclosure_column].

Lemma owned_in col : col ∈ owned_columns → col ∈ ENVELOPE_COLUMNS ∧ cc_plainPrefix col = None.
Proof. unfold owned_columns, ENVELOPE_COLUMNS. rewrite !elem_of_cons, !elem_of_nil. intros [->|[->|[->|[->|[]]]]]; (split; [tauto|done]). Qed.

Lemma owned_spared ring col v v' : col ∈ owned_columns → spares ring v v' → cc_cells col v' = cc_cells col v.
Proof. unfold owned_columns. rewrite !elem_of_cons, elem_of_nil. intros [->|[->|[->|[->|[]]]]] (E1 & E2 & E3 & _); simpl; congruence. Qed.

Lemma fresh_spared ring v v' : spares ring v v' → (∀ col, col ∈ ENVELOPE_COLUMNS → covers ring col None v) →
  ∀ col, col ∈ ENVELOPE_COLUMNS → ∀ id c, cc_cells col v' !! id = Some c → fresh ring c.
Proof.
  intros Hs Hc col Hcol id c Hid. assert (fresh_keys ring (va_keys v')) as Hkeys.
  { apply (proj2 (proj2 (proj2 Hs))). intros acc r Hr. split; intros x Hx.
    - apply (Hc ring_seal_column ltac:(unfold ENVELOPE_COLUMNS; rewrite !elem_of_cons; tauto) acc (MkCell (ak_wrappedDek r) true (accountDekBinding acc))); [|done..].
      simpl. by rewrite map_lookup_imap, Hr.
    - apply (Hc viewing_key_seal_column ltac:(unfold ENVELOPE_COLUMNS; rewrite !elem_of_cons; tauto) acc (MkCell (ak_wrappedDekByViewingKey r) true (accountDekViewingKeySealBinding acc))); [|done..].
      simpl. by rewrite map_lookup_imap, Hr. }
  assert (col ∈ owned_columns ∨ col = ring_seal_column ∨ col = viewing_key_seal_column) as [Ho|[->| ->]]
    by (unfold ENVELOPE_COLUMNS in Hcol; unfold owned_columns; rewrite !elem_of_cons in Hcol; rewrite !elem_of_cons; tauto).
  { rewrite (owned_spared ring _ _ _ Ho Hs) in Hid. by eapply Hc. }
  all: simpl in Hid; rewrite map_lookup_imap in Hid; destruct (st_accountKeys (va_keys v') !! id) as [r|] eqn:Er; [|done]; injection Hid as <-; intros x Hx _; destruct (Hkeys id r Er) as [F1 F2]; first [by apply F1|by apply F2].
Qed.

(** C19. The rewrap never loses a value: whatever way a run of the tool ends, by its
    report, by a value that makes it throw or at a key the ring does not have, and
    also as a dry run, every value of a session's viewing key or seed, a job's command
    and a disclosure's content either is as it was or is sealed under the active key
    with what it held before, bound to the same row. Of the account keys' two copies
    the same holds of the part of the run that encrypts the columns. And every private
    state and signing key either is as it was or is a row from before the account keys
    that now opens under one as what an older password of the account opened. *)
Theorem rewrap_never_loses_a_value acceptUnbound now ring dryRun batchSize drop v o v' : ring_ok ring →
  rewrapStoredCiphertexts acceptUnbound now ring dryRun batchSize drop v = (o, v') →
  ∃ o1 v1, (v1 = v ∨ rewrap_columns now ring dryRun (Z.to_nat (Z.max 1 batchSize)) ENVELOPE_COLUMNS v = (o1, v1)) ∧ all_kept ring v v1 ∧
    (∀ col, col ∈ owned_columns → cc_cells col v' = cc_cells col v1) ∧ states_moved (va_stored v) (va_stored v').
Proof.
  intros Hr [[-> _]|(o1 & v1 & H1' & Hrest)]%rewrap_parts.
  - exists (Throw (js_error EmptyString)), v. split; [by left|]. split; [by apply all_kept_same|]. split; [done|reflexivity].
  - exists o1, v1. split; [by right|]. pose proof (columns_keep now ring dryRun _ ENVELOPE_COLUMNS (λ _ Hc, Hc) _ _ _ H1') as Hstored.
    apply rewrap_columns_spec in H1' as [Hk _]; [|done|lia|done]. split; [done|]. unfold keeps_stored in Hstored. rewrite <- Hstored.
    destruct o1 as [envelope|e]; [|by destruct Hrest as [-> _]]. destruct Hrest as (o2 & Hm & _). split; [|by eapply migration_moves].
    intros col Hcol. eapply owned_spared; [done|]. by eapply migration_spares.
Qed.

(** A dry run writes nothing: whatever it reports or throws, every table is as it
    was, also those of the account keys, whose lookups only read. *)
Theorem dry_run_writes_nothing acceptUnbound now ring batchSize drop v o v' : ring_ok ring →
  rewrapStoredCiphertexts acceptUnbound now ring true batchSize drop v = (o, v') → tables v' = tables v.
Proof.
  intros Hr [[-> _]|(o1 & v1 & H1' & Hrest)]%rewrap_parts; [done|]. apply rewrap_columns_spec in H1' as (_ & Hd & _); [|done|lia|done]. specialize (Hd eq_refl).
  destruct o1 as [envelope|e]; [|by destruct Hrest as [-> _]]. destruct Hrest as (o2 & Hm & _). eapply same_tables_trans; [exact Hd|]. by eapply migration_dry.
Qed.

(** C18. A rotation frees the old keys: after a run of the tool that ends with its
    report and found no value unreadable, the check at start-up passes with every ring
    that has the active key, so also with that key alone, and under such a ring each
    viewing key, seed, command and disclosure still opens, bound to its row, as what
    it was under the old ring. This holds for every number of rows and every batch
    size: the pages cover the tables. *)
Theorem rotation_frees_old_keys acceptUnbound now ring ring' batchSize drop v report v' : ring_ok ring →
  ring_has ring' (kr_activeId ring) = true → ring_kek ring' (kr_activeId ring) = ring_kek ring (kr_activeId ring) →
  rewrapStoredCiphertexts acceptUnbound now ring false batchSize drop v = (Ret report, v') →
  Forall (λ st, cs_unreadable st = 0) (rr_envelope report) →
  assertStoredKeyIdsKnown ring' v' = Ret tt ∧
  ∀ col id c value, col ∈ owned_columns → cc_cells col v !! id = Some c → ce_where c = true → truthy_text (ce_value c) = Some value →
    ∃ c' value', cc_cells col v' !! id = Some c' ∧ ce_value c' = Some value' ∧
      ∀ accept, decrypt value' ring' (Some (ce_binding c)) accept = decrypt value ring (Some (ce_binding c)) true.
Proof.
  intros Hr Hhas Hkek Hrun Hun. apply rewrap_parts in Hrun as [[_ [e He]]|(o1 & v1 & H1' & Hrest)]; [done|]. destruct o1 as [envelope|e]; [|by destruct Hrest].
  destruct Hrest as (o2 & Hm & <- & _). apply rewrap_columns_spec in H1' as (Hk & _ & Hc); [|done|lia|done]. apply migration_spares in Hm as Hs; [|done].
  specialize (Hc eq_refl Hun). split.
  - apply known_ids. intros col Hcol id Hid. enough (id = kr_activeId ring) as -> by done. eapply key_ids_fresh; [done| |exact Hid].
    intros k c Hkc. by eapply fresh_spared.
  - intros col id c value Ho Hid Hw Hv. destruct (owned_in col Ho) as [Hcol Hnone]. pose proof (Hk col Hcol id) as Hkept. rewrite Hid in Hkept.
    destruct (cc_cells col v1 !! id) as [c'|] eqn:E; [|done]. rewrite (owned_spared ring _ _ _ Ho Hs). exists c'.
    destruct Hkept as [->|(x & (_ & value0 & p & n & Hv0 & Hcont & Hx) & ->)].
    + exists value. split; [done|]. split; [unfold truthy_text in Hv; destruct (ce_value c) as [y|]; [by destruct (is_empty y); simplify_eq|done]|].
      intros accept. apply decrypt_active; [by eapply Hc|done].
    + rewrite Hv in Hv0. injection Hv0 as <-. exists x. split; [done|]. split; [done|]. intros accept. unfold content in Hcont. rewrite Hnone in Hcont. simpl in Hcont. rewrite Hcont.
      by eapply decrypt_encrypt; [apply Hr|exact Hx|].
Qed.
End Rotated.

(** ** A run *)

Section Example.
#[local] Existing Instances key_order toy_gcm toy_gcm_laws toy_random toy_random_laws toy_hashes toy_hash_laws.

Definition old_ring : KeyRing :=
  match newKeyRing (MkRingSpec "1" [MkKey "1" "an old secret"]) with Ret r => r | Throw _ => MkRing EmptyString [] [] end.
Definition new_only : KeyRing :=
  match newKeyRing (MkRingSpec "k2" [MkKey "k2" "a new secret"]) with Ret r => r | Throw _ => MkRing EmptyString [] [] end.

Definition under_old (n : nat) (text : string) (b : EnvelopeBinding) : option string :=
  match encrypt n text old_ring (Some b) with Ret c => Some c | Throw _ => None end.

(** Two sessions, one without a seed; two jobs, one with its command in the open; a
    disclosure; and the key of another account, with a bare second copy. *)
Definition ex_vault : Vault := MkVault
  {[ "s1" := MkSecrets "s1" (under_old 10 "viewing key" (walletSessionViewingKeyBinding "s1")) (under_old 20 "seed" (walletSessionSeedBinding "s1"));
     "s2" := MkSecrets "s2" (under_old 30 "another key" (walletSessionViewingKeyBinding "s2")) None ]}
  {[ "j1" := MkJobSecret (under_old 40 "{}" (jobCommandBinding "j1")) (Some "aes-gcm-v1"); "j2" := MkJobSecret (Some "{}") (Some "json-v1") ]}
  {[ "d1" := under_old 50 "disclosed" (holderDisclosureContentBinding "d1") ]}
  (MkKeyStore {[ "acct" := MkAccountKey (under_old 60 (to_hex (replicate 32 5%Z)) (accountDekBinding "acct"))
                             (Some (sealDekByStoragePassword 70 (replicate 32 5%Z) "pw")) 0 None ]} ∅ ∅ ∅ 100)
  (MkStateStore ∅ ∅ ∅ 0).

Definition ex_run (dryRun : bool) := rewrapStoredCiphertexts false 300 example_ring dryRun 1 true ex_vault.

Lemma ex_run_reports : match (ex_run false).1 with Ret r => forallb (λ st, cs_unreadable st =? 0)%nat (rr_envelope r) | Throw _ => false end = true.
Proof. vm_compute. reflexivity. Qed.

Lemma ex_old_refused : assertStoredKeyIdsKnown new_only ex_vault ≠ Ret tt.
Proof. vm_compute. discriminate. Qed.

Lemma new_only_has : ring_has new_only (kr_activeId example_ring) = true.
Proof. vm_compute. reflexivity. Qed.

Lemma new_only_kek : ring_kek new_only (kr_activeId example_ring) = ring_kek example_ring (kr_activeId example_ring).
Proof. vm_compute. reflexivity. Qed.

(** A value that is no envelope at all ends the run before the columns after it. *)
Definition junk_vault : Vault := with_session_rows (<[ "s0" := MkSecrets "s0" (Some "junk:value") None ]> (va_sessions ex_vault)) ex_vault.

Lemma junk_stops_the_rewrap : ∃ e v', rewrapStoredCiphertexts false 300 example_ring false 200 true junk_vault = (Throw e, v') ∧ tables v' = tables junk_vault.
Proof. eexists _, _. split; [vm_compute; reflexivity|]. vm_compute. reflexivity. Qed.

(** A value copied from another row cannot be read and stays under the old key; the
    run reports no legacy rows, and the check refuses the ring without the old key. *)
Definition copied_vault : Vault :=
  with_disclosures {[ "d1" := under_old 50 "disclosed" (holderDisclosureContentBinding "d0") ]} ex_vault.

Lemma unreadable_keeps_the_old_key :
  match rewrapStoredCiphertexts false 300 example_ring false 200 true copied_vault with
  | (Ret report, v') => lc_total (rr_legacy report) = 0 ∧ assertStoredKeyIdsKnown new_only v' ≠ Ret tt
  | (Throw _, _) => False
  end.
Proof. vm_compute. split; [reflexivity|discriminate]. Qed.

Lemma ex_runs d : rewrapStoredCiphertexts false 300 example_ring d 1 true ex_vault = ex_run d.
Proof. reflexivity. Qed.

#[local] Opaque ex_run example_ring new_only ex_vault rewrapStoredCiphertexts.

Lemma rotation_frees_old_keys_witness : ∃ report v', ex_run false = (Ret report, v') ∧ assertStoredKeyIdsKnown new_only v' = Ret tt.
Proof.
  pose proof ex_run_reports as Hr. destruct (ex_run false) as [[report|e] v'] eqn:E; [|discriminate Hr]. exists report, v'. refine (conj eq_refl _).
  refine (proj1 (rotation_frees_old_keys false 300 example_ring new_only 1 true ex_vault report v' example_ring_ok new_only_has new_only_kek (eq_trans (ex_runs false) E) _)).
  apply Forall_forall. intros st Hst. apply list_elem_of_In in Hst. apply Nat.eqb_eq. exact (proj1 (forallb_forall _ _) Hr st Hst).
Defined.

Lemma dry_run_writes_nothing_witness : tables (ex_run true).2 = tables ex_vault.
Proof. destruct (ex_run true) as [o v'] eqn:E. exact (dry_run_writes_nothing false 300 example_ring 1 true ex_vault o v' example_ring_ok (eq_trans (ex_runs _) E)). Defined.

Lemma rewrap_never_loses_a_value_witness : ∃ v1, all_kept example_ring ex_vault v1 ∧ ∀ col, col ∈ owned_columns → cc_cells col (ex_run false).2 = cc_cells col v1.
Proof.
  destruct (ex_run false) as [o v'] eqn:E.
  destruct (rewrap_never_loses_a_value false 300 example_ring false 1 true ex_vault o v' example_ring_ok (eq_trans (ex_runs _) E)) as (o1 & v1 & _ & Hk & Ho & _). exact (ex_intro _ v1 (conj Hk Ho)).
Defined.
End Example.
