(* ===== verification/WorkerRpc.v ===== *)
(** Calls to a helper worker thread: the calling side
    (srv/midnight/worker-rpc/client.ts), used for the decode worker and the dust
    verify worker, and the dispatcher of the worker
    (srv/midnight/worker-rpc/dispatch.ts).

    The client is a machine over the events that Node delivers to it; between two
    of them every handler runs to its end. What a promise continues with is an
    event of its own ([EResume]), so that other code may run in between. *)
From S2P Require Import Prelude Json Numbers SubmitFailure WorkerProtocol.

Local Open Scope string_scope.

(** ** The reply *)

Record WorkerRpcErrorPayload := MkErrorPayload {
  we_name : string; we_message : string; we_causes : list string; we_nightgate : option (string * Z) }.

Section Client.
Context {Arg V : Type}.

(** An error whose payload has no message is read as one without payload. *)
Inductive WorkerRpcReply := ReplyOk (result : V) | ReplyError (error : option WorkerRpcErrorPayload).

Inductive answer := Resolved (result : V) | Rejected (err : ErrObj).

Definition rejected_error (msg : string) : ErrObj := plain_error "Error" msg None.

(** What the caller is told of a reply. *)
Definition reply_answer (name : string) (reply : WorkerRpcReply) : answer :=
  match reply with
  | ReplyOk v => Resolved v
  | ReplyError None => Rejected (rejected_error (name ++ " rpc failed"))
  | ReplyError (Some p) =>
      match we_nightgate p with
      | Some (code, status) => Rejected (nightgateErrorFromPayload status (we_name p) (we_message p) code)
      | None => Rejected (plain_error (if is_empty (we_name p) then "Error" else we_name p) (we_message p) None)
      end
  end.

(** ** The client *)

Record WorkerRpcClientOptions := MkOptions {
  op_name : string; op_budgetFromStart : bool; op_terminateOnTimeout : bool }.

(** One [MessageChannel], with what its handlers close over: the worker the call
    was posted to, and the timeout read then. *)
Record Port := MkPort { pt_id : nat; pt_worker : nat; pt_timeoutMs : Z }.

Record PendingRpc := MkPending {
  p_method : string; p_args : Arg;
  p_sentTo : option nat; p_started : bool; p_resent : bool;
  p_port : option Port; p_timer : option Port;
  p_settled : bool }.

(** The promise [ready] of a worker. *)
Inductive Ready := NotYet | IsReady | NotReady (err : ErrObj).

Record Thread := MkThread { th_ready : Ready; th_exited : bool }.

(** A continuation that awaits [start()]: the call that sends itself, if one
    does; the worker whose [ready] it awaits, or the error [start] failed with
    at once; whether this [start] made the worker. *)
Inductive Awaited := Await (worker : nat) | Failed (err : ErrObj).
Record Wait := MkWait { wt_call : option nat; wt_on : Awaited; wt_owner : bool }.

(** [rc_calls] holds the call objects, [rc_pending] the set [pendingRpcs] in its
    order, [rc_threads] every worker made so far. The last three are logs: what
    each call was told, which worker it was posted to, and which calls' [send]
    ended in an error nobody handles. *)
Record Rpc := MkRpc {
  rc_client : option nat; rc_stoppingWorker : option nat; rc_restartingWorker : option nat;
  rc_exitCount : nat; rc_lastExit : option (Z * Z);
  rc_pending : list nat; rc_calls : gmap nat PendingRpc; rc_threads : list Thread; rc_waits : list Wait; rc_nextPort : nat;
  rc_answers : list (nat * answer); rc_posts : list (nat * nat); rc_dropped : list nat }.

Definition no_rpc : Rpc := MkRpc None None None 0 None [] ∅ [] [] 0 [] [] [].

Definition set_client v s := MkRpc v (rc_stoppingWorker s) (rc_restartingWorker s) (rc_exitCount s) (rc_lastExit s)
  (rc_pending s) (rc_calls s) (rc_threads s) (rc_waits s) (rc_nextPort s) (rc_answers s) (rc_posts s) (rc_dropped s).
Definition set_stopping v s := MkRpc (rc_client s) v (rc_restartingWorker s) (rc_exitCount s) (rc_lastExit s)
  (rc_pending s) (rc_calls s) (rc_threads s) (rc_waits s) (rc_nextPort s) (rc_answers s) (rc_posts s) (rc_dropped s).
Definition set_restarting v s := MkRpc (rc_client s) (rc_stoppingWorker s) v (rc_exitCount s) (rc_lastExit s)
  (rc_pending s) (rc_calls s) (rc_threads s) (rc_waits s) (rc_nextPort s) (rc_answers s) (rc_posts s) (rc_dropped s).
Definition count_crash code now s := MkRpc (rc_client s) (rc_stoppingWorker s) (rc_restartingWorker s) (S (rc_exitCount s)) (Some (code, now))
  (rc_pending s) (rc_calls s) (rc_threads s) (rc_waits s) (rc_nextPort s) (rc_answers s) (rc_posts s) (rc_dropped s).
Definition set_calls v s := MkRpc (rc_client s) (rc_stoppingWorker s) (rc_restartingWorker s) (rc_exitCount s) (rc_lastExit s)
  (rc_pending s) v (rc_threads s) (rc_waits s) (rc_nextPort s) (rc_answers s) (rc_posts s) (rc_dropped s).
Definition set_pending v s := MkRpc (rc_client s) (rc_stoppingWorker s) (rc_restartingWorker s) (rc_exitCount s) (rc_lastExit s)
  v (rc_calls s) (rc_threads s) (rc_waits s) (rc_nextPort s) (rc_answers s) (rc_posts s) (rc_dropped s).
Definition set_threads v s := MkRpc (rc_client s) (rc_stoppingWorker s) (rc_restartingWorker s) (rc_exitCount s) (rc_lastExit s)
  (rc_pending s) (rc_calls s) v (rc_waits s) (rc_nextPort s) (rc_answers s) (rc_posts s) (rc_dropped s).
Definition set_waits v s := MkRpc (rc_client s) (rc_stoppingWorker s) (rc_restartingWorker s) (rc_exitCount s) (rc_lastExit s)
  (rc_pending s) (rc_calls s) (rc_threads s) v (rc_nextPort s) (rc_answers s) (rc_posts s) (rc_dropped s).
Definition take_port s := MkRpc (rc_client s) (rc_stoppingWorker s) (rc_restartingWorker s) (rc_exitCount s) (rc_lastExit s)
  (rc_pending s) (rc_calls s) (rc_threads s) (rc_waits s) (S (rc_nextPort s)) (rc_answers s) (rc_posts s) (rc_dropped s).
Definition log_answer c a s := MkRpc (rc_client s) (rc_stoppingWorker s) (rc_restartingWorker s) (rc_exitCount s) (rc_lastExit s)
  (rc_pending s) (rc_calls s) (rc_threads s) (rc_waits s) (rc_nextPort s) (rc_answers s ++ [(c, a)]) (rc_posts s) (rc_dropped s).
Definition log_post c w s := MkRpc (rc_client s) (rc_stoppingWorker s) (rc_restartingWorker s) (rc_exitCount s) (rc_lastExit s)
  (rc_pending s) (rc_calls s) (rc_threads s) (rc_waits s) (rc_nextPort s) (rc_answers s) (rc_posts s ++ [(c, w)]) (rc_dropped s).
Definition log_drop c s := MkRpc (rc_client s) (rc_stoppingWorker s) (rc_restartingWorker s) (rc_exitCount s) (rc_lastExit s)
  (rc_pending s) (rc_calls s) (rc_threads s) (rc_waits s) (rc_nextPort s) (rc_answers s) (rc_posts s) (rc_dropped s ++ [c]).

Definition on_call (c : nat) (f : PendingRpc → PendingRpc) (s : Rpc) : Rpc := set_calls (alter f c (rc_calls s)) s.

(** [detach], with [settled] and [resent] as they shall be. *)
Definition detached (settled resent : bool) (p : PendingRpc) : PendingRpc :=
  MkPending (p_method p) (p_args p) None false resent None None settled.

Definition posted_on (pt : Port) (timer : option Port) (p : PendingRpc) : PendingRpc :=
  MkPending (p_method p) (p_args p) (Some (pt_worker pt)) (p_started p) (p_resent p) (Some pt) timer (p_settled p).

Definition begun (timer : option Port) (p : PendingRpc) : PendingRpc :=
  MkPending (p_method p) (p_args p) (p_sentTo p) true (p_resent p) (p_port p) timer (p_settled p).

(** [pending.settle(outcome)] *)
Definition settle (c : nat) (a : answer) (s : Rpc) : Rpc :=
  match rc_calls s !! c with
  | Some p =>
      if p_settled p then s
      else log_answer c a (set_pending (filter (λ d, d ≠ c) (rc_pending s)) (on_call c (detached true (p_resent p)) s))
  | None => s
  end.

(** [start()] up to its [await]; [spawn] is the error with which [new Worker]
    throws, if it does. *)
Definition start (spawn : option ErrObj) (call : option nat) (s : Rpc) : Rpc :=
  match rc_client s, spawn with
  | Some w, _ => set_waits (rc_waits s ++ [MkWait call (Await w) false]) s
  | None, Some e => set_waits (rc_waits s ++ [MkWait call (Failed e) false]) s
  | None, None =>
      let w := length (rc_threads s) in
      set_waits (rc_waits s ++ [MkWait call (Await w) true]) (set_client (Some w) (set_threads (rc_threads s ++ [MkThread NotYet false]) s))
  end.

(** [rpc(method, args)] up to the [await] of [send]. *)
Definition rpc (spawn : option ErrObj) (c : nat) (method : string) (args : Arg) (s : Rpc) : Rpc :=
  start spawn (Some c)
    (set_pending (rc_pending s ++ [c]) (set_calls (<[c := MkPending method args None false false None None false]> (rc_calls s)) s)).

(** [stop()] up to its [await]. *)
Definition stop (s : Rpc) : Rpc :=
  match rc_client s with
  | Some w => set_stopping (Some w) (set_client None s)
  | None => s
  end.

(** The loop of [settlePendingOf], for one call. *)
Definition settle_pending (spawn : option ErrObj) (w : nat) (requeueUnstarted : bool) (reason : string) (s : Rpc) (c : nat) : Rpc :=
  match rc_calls s !! c with
  | Some p =>
      if negb (bool_decide (p_sentTo p = Some w)) then s
      else if requeueUnstarted && negb (p_started p) && negb (p_resent p)
           then start spawn (Some c) (on_call c (detached (p_settled p) true) s)
           else settle c (Rejected (rejected_error reason)) s
  | None => s
  end.

Definition settlePendingOf (spawn : option ErrObj) (w : nat) (requeueUnstarted : bool) (reason : string) (s : Rpc) : Rpc :=
  foldl (settle_pending spawn w requeueUnstarted reason) s (rc_pending s).

(** ** Events *)

Inductive event :=
| ERpc (spawn : option ErrObj) (c : nat) (method : string) (args : Arg)
| EStart (spawn : option ErrObj)
| EStop
| EReady (w : nat)
| EError (w : nat) (err : ErrObj)
| EExit (spawn : option ErrObj) (w : nat) (code now : Z)
| EResume (i : nat) (timeoutMs : Z) (post : option ErrObj)
| EStarted (c port : nat)
| EReply (c port : nat) (reply : WorkerRpcReply)
| EMessageError (c port : nat) (err : ErrObj)
| ETimer (c : nat).

Context (opts : WorkerRpcClientOptions).

(** The exit of worker [w]: the listener of [start], then the client's own. *)
Definition on_exit (spawn : option ErrObj) (w : nat) (code now : Z) (s : Rpc) : Rpc :=
  let name := op_name opts in
  let failed t := MkThread (match th_ready t with
                            | NotYet => NotReady (rejected_error (name ++ " exited with code " ++ pretty code ++ " before it was ready"))
                            | r => r end) true in
  let s := set_threads (alter failed w (rc_threads s)) s in
  let s := if bool_decide (rc_client s = Some w) then set_client None s else s in
  let planned := bool_decide (rc_stoppingWorker s = Some w) in
  let restarting := bool_decide (rc_restartingWorker s = Some w) in
  let s := if planned then set_stopping None s else s in
  let s := if restarting then set_restarting None s else s in
  let s := if planned then s else count_crash code now s in
  settlePendingOf spawn w restarting (if planned then name ++ " stopped" else name ++ " exited with code " ++ pretty code) s.

(** What follows the [await] in [send]; [post] is the error with which
    [postMessage] throws, if it does. Without a client the code reads the worker
    of nothing, and the [send] ends with an error nobody sees. *)
Definition send_on (c : nat) (timeoutMs : Z) (post : option ErrObj) (s : Rpc) : Rpc :=
  if negb (bool_decide (c ∈ rc_pending s)) then s
  else match rc_client s with
       | None => log_drop c s
       | Some w =>
           let pt := MkPort (rc_nextPort s) w timeoutMs in
           let timer := if op_budgetFromStart opts then None else Some pt in
           let s := on_call c (posted_on pt timer) (take_port s) in
           match post with
           | Some e => settle c (Rejected e) s
           | None => log_post c w s
           end
       end.

(** A continuation after the [await] of [start], whose result it is given. *)
Definition resumed (k : Wait) (started : option ErrObj) (timeoutMs : Z) (post : option ErrObj) (s : Rpc) : Rpc :=
  match started, wt_call k with
  | None, None => s
  | None, Some c => send_on c timeoutMs post s
  | Some e, _ =>
      let s := match wt_on k with
               | Await w => if wt_owner k && bool_decide (rc_client s = Some w) then set_client None s else s
               | Failed _ => s
               end in
      match wt_call k with Some c => settle c (Rejected e) s | None => s end
  end.

Definition on_resume (i : nat) (timeoutMs : Z) (post : option ErrObj) (s : Rpc) : Rpc :=
  match rc_waits s !! i with
  | None => s
  | Some k =>
      let s' := set_waits (delete i (rc_waits s)) s in
      match wt_on k with
      | Failed e => resumed k (Some e) timeoutMs post s'
      | Await w =>
          match th_ready <$> rc_threads s !! w with
          | Some IsReady => resumed k None timeoutMs post s'
          | Some (NotReady e) => resumed k (Some e) timeoutMs post s'
          | _ => s
          end
      end
  end.

Definition timed_out (p : PendingRpc) (pt : Port) : ErrObj :=
  rejected_error (op_name opts ++ " rpc '" ++ p_method p ++ "' timed out after " ++ pretty (pt_timeoutMs pt) ++ "ms").

Definition on_timer (c : nat) (s : Rpc) : Rpc :=
  match rc_calls s !! c with
  | Some p =>
      match p_timer p with
      | Some pt =>
          let s := settle c (Rejected (timed_out p pt)) s in
          if op_terminateOnTimeout opts && bool_decide (rc_client s = Some (pt_worker pt))
          then stop (set_restarting (Some (pt_worker pt)) s) else s
      | None => s
      end
  | None => s
  end.

(** A message of the open port [port] of the call. *)
Definition on_port (c port : nat) (f : PendingRpc → Port → Rpc → Rpc) (s : Rpc) : Rpc :=
  match rc_calls s !! c with
  | Some p => match p_port p with Some pt => if bool_decide (pt_id pt = port) then f p pt s else s | None => s end
  | None => s
  end.

Definition on_started (c : nat) (p : PendingRpc) (pt : Port) (s : Rpc) : Rpc :=
  let timer := match p_timer p with None => if op_budgetFromStart opts then Some pt else None | t => t end in
  on_call c (begun timer) s.

Definition step (ev : event) (s : Rpc) : Rpc :=
  match ev with
  | ERpc spawn c method args => match rc_calls s !! c with Some _ => s | None => rpc spawn c method args s end
  | EStart spawn => start spawn None s
  | EStop => stop s
  | EReady w => set_threads (alter (λ t, match th_ready t with NotYet => MkThread IsReady (th_exited t) | _ => t end) w (rc_threads s)) s
  | EError w e => set_threads (alter (λ t, match th_ready t with NotYet => MkThread (NotReady e) (th_exited t) | _ => t end) w (rc_threads s)) s
  | EExit spawn w code now =>
      match rc_threads s !! w with
      | Some t => if th_exited t then s else on_exit spawn w code now s
      | None => s
      end
  | EResume i timeoutMs post => on_resume i timeoutMs post s
  | EStarted c port => on_port c port (λ p pt, on_started c p pt) s
  | EReply c port reply => on_port c port (λ _ _, settle c (reply_answer (op_name opts) reply)) s
  | EMessageError c port e => on_port c port (λ _ _, settle c (Rejected e)) s
  | ETimer c => on_timer c s
  end.

Definition run (evs : list event) : Rpc := foldl (λ s ev, step ev s) no_rpc evs.

Record WorkerRpcStatus := MkStatus { ws_running : bool; ws_inFlightRpcs : nat; ws_exitCount : nat; ws_lastExit : option (Z * Z) }.

Definition status (s : Rpc) : WorkerRpcStatus :=
  MkStatus (bool_decide (is_Some (rc_client s))) (length (rc_pending s)) (rc_exitCount s) (rc_lastExit s).
End Client.

(** ** The dispatcher of the worker *)

Section Dispatcher.
Context {Arg V : Type}.

(** The errors of the worker, what [inspect] renders of them, and the status a
    NIGHTGATE error carries. *)
Context (errs : nat → ErrObj) (inspect : nat → string) (status : nat → Z).

(** The handlers with what each call of them ends in, the error that is thrown
    for an unknown method, and whether a result can be cloned to the port. *)
Context (handlers : string → option (Arg → V + nat)) (unknown_method : string → nat) (cloneable : V → bool).

Inductive WorkerMsg := WorkerRpcRequest (method : string) (args : Arg) | UnexpectedMsg.

(** What is posted on the call's port. *)
Inductive PortMsg := WorkerRpcStarted | PostedReply (reply : WorkerRpcReply (V := V)).

(** The NIGHTGATE error among the causes, with its code and status. *)
Definition coded_error (err : nat) : option (string * Z) :=
  a ← findNightgateError errs err; code ← eo_code (errs a); Some (code, status a).

Definition error_payload (err : nat) : WorkerRpcErrorPayload :=
  MkErrorPayload (errorName errs err) (formatErrWithCauses errs inspect err) (causeMessages errs err) (coded_error err).

Definition handled (method : string) (args : Arg) : V + nat :=
  match handlers method with Some fn => fn args | None => inr (unknown_method method) end.

(** The posts of one message, after which its port is closed; none and no port
    for a message that is no request. *)
Definition createDispatcher (msg : WorkerMsg) : option (list PortMsg) :=
  match msg with
  | UnexpectedMsg => None
  | WorkerRpcRequest method args =>
      Some (WorkerRpcStarted ::
        match handled method args with
        | inl v => if cloneable v then [PostedReply (ReplyOk v)] else []
        | inr err => [PostedReply (ReplyError (Some (error_payload err)))]
        end)
  end.
End Dispatcher.
