(* ===== verification/RpcFacts.v ===== *)
(** What the callers of a helper worker may rely on: every call is answered once
    or still waits for a worker that can answer it, and an error arrives as it was
    thrown. *)
From S2P Require Import Prelude Json Numbers SubmitFailure WorkerProtocol WorkerRpc.

(** ** The invariant *)

Lemma once_in_log {A} (l : list (nat * A)) c : NoDup l.*1 → c ∈ l.*1 → length (filter (λ a, a.1 = c) l) = 1.
Proof.
  induction l as [|[d a] l IH]; [by intros _ ?%not_elem_of_nil|]. rewrite fmap_cons. intros [Hn Hl]%NoDup_cons Hc. rewrite filter_cons. cbn [fst].
  case_decide as Hd; [subst d|by apply IH; [|apply elem_of_cons in Hc as [->|?]]]. rewrite list_filter_none; [done|].
  intros b Hb Hbc. apply Hn. cbn. rewrite <- Hbc. exact (list_elem_of_fmap_2 fst _ _ Hb).
Qed.

Section Invariant.
Context {Arg V : Type} (opts : WorkerRpcClientOptions).
Implicit Types (s : Rpc (Arg := Arg) (V := V)) (p : PendingRpc (Arg := Arg)) (c w : nat).

Definition waiting s : list nat := omap wt_call (rc_waits s).
Definition answered s : list nat := (rc_answers s).*1.
Definition sends s c : nat := length (filter (λ e, e.1 = c) (rc_posts s)).

(** Neither sent nor timed. *)
Definition idle p : Prop := p_sentTo p = None ∧ p_port p = None ∧ p_timer p = None ∧ p_started p = false.

(** Held by a worker that has not exited, whose port is open, with the timer
    running unless the call has not begun and time is counted from then. *)
Definition at_worker (g : option nat) s p : Prop :=
  ∃ pt t, p_sentTo p = Some (pt_worker pt) ∧ p_port p = Some pt ∧
    rc_threads s !! pt_worker pt = Some t ∧ (th_exited t = false ∨ g = Some (pt_worker pt)) ∧
    (p_timer p = Some pt ∨ p_timer p = None ∧ op_budgetFromStart opts = true ∧ p_started p = false).

Definition call_state (g : option nat) s c p : Prop :=
  if p_settled p then c ∉ rc_pending s ∧ c ∉ waiting s ∧ c ∉ rc_dropped s ∧ c ∈ answered s ∧ idle p
  else c ∈ rc_pending s ∧ c ∉ answered s ∧
       ((c ∈ waiting s ∧ c ∉ rc_dropped s ∧ idle p) ∨ (c ∉ waiting s ∧ c ∈ rc_dropped s ∧ idle p) ∨
        (c ∉ waiting s ∧ c ∉ rc_dropped s ∧ at_worker g s p)).

(** A call that a handler has in its hands. *)
Definition in_hand s c p : Prop :=
  p_settled p = false ∧ c ∈ rc_pending s ∧ c ∉ answered s ∧ c ∉ waiting s ∧ c ∉ rc_dropped s ∧ idle p.

Definition send_count s c p : Prop :=
  sends s c ≤ 1 + Nat.b2n (p_resent p) ∧ (p_settled p = false → idle p → c ∉ rc_dropped s → sends s c ≤ Nat.b2n (p_resent p)) ∧
  (p_resent p = true → op_terminateOnTimeout opts = true).

Definition unknown s c : Prop :=
  c ∉ rc_pending s ∧ c ∉ waiting s ∧ c ∉ answered s ∧ c ∉ rc_dropped s ∧ c ∉ (rc_posts s).*1.

Definition fine (g x : option nat) s c p : Prop :=
  (if bool_decide (x = Some c) then in_hand s c p else call_state g s c p) ∧ send_count s c p.

(** [g]: a worker whose exit is being handled; [x]: a call a handler has in its
    hands. *)
Record wf (g x : option nat) s : Prop := {
  wf_call : ∀ c p, rc_calls s !! c = Some p → fine g x s c p;
  wf_unknown : ∀ c, rc_calls s !! c = None → unknown s c ∧ x ≠ Some c;
  wf_answers : NoDup (answered s);
  wf_waits : NoDup (waiting s);
  wf_client : ∀ w, rc_client s = Some w → ∃ t, rc_threads s !! w = Some t ∧ th_exited t = false;
  wf_exited : ∀ w t, rc_threads s !! w = Some t → th_exited t = true → th_ready t ≠ NotYet;
  wf_awaits : ∀ k w, k ∈ rc_waits s → wt_on k = Await w → w < length (rc_threads s);
  wf_restart : is_Some (rc_restartingWorker s) → op_terminateOnTimeout opts = true }.

Lemma wf_initial : wf None None no_rpc.
Proof.
  split; cbn; try by constructor. all: try done.
  - intros c _. split; [|done]. unfold unknown. cbn. set_solver.
  - set_solver.
Qed.

(** What a handler does to other calls does not matter. *)
Lemma fine_same g x x' s s' c p :
  fine g x s c p → (x = Some c ↔ x' = Some c) →
  (c ∈ rc_pending s' ↔ c ∈ rc_pending s) → (c ∈ waiting s' ↔ c ∈ waiting s) → (c ∈ answered s' ↔ c ∈ answered s) →
  (c ∈ rc_dropped s' ↔ c ∈ rc_dropped s) → sends s' c = sends s c → (at_worker g s p → at_worker g s' p) → fine g x' s' c p.
Proof.
  unfold fine, in_hand, call_state, send_count. intros [Hk Hn] Hx Hp Hw Ha Hd -> Hh.
  rewrite (bool_decide_ext _ _ Hx) in Hk. split; [|naive_solver]. case_bool_decide; [naive_solver|]. destruct (p_settled p); naive_solver.
Qed.

(** *** Settling *)

Lemma settled_call g x s c p a :
  wf g x s → rc_calls s !! c = Some p → p_settled p = false → c ∉ waiting s → c ∉ rc_dropped s →
  wf g (if bool_decide (x = Some c) then None else x) (settle c a s).
Proof.
  intros H Hc Hs Hw Hdr. unfold settle. rewrite Hc, Hs.
  assert (c ∉ answered s) as Hna.
  { destruct (wf_call _ _ _ H _ _ Hc) as [Hk _]. unfold in_hand, call_state in Hk. rewrite Hs in Hk. case_bool_decide; naive_solver. }
  assert (∀ d, d ≠ c → x = Some d ↔ (if bool_decide (x = Some c) then None else x) = Some d) as Hx by (intros; case_bool_decide; naive_solver).
  destruct H as [Hcall Hunk Hans Hwait Hcl Hex Haw Hre]. split; cbn; try done.
  - intros d q Hd. destruct (decide (d = c)) as [->|Hne].
    + rewrite lookup_alter, decide_True, Hc in Hd by done. injection Hd as <-.
      destruct (Hcall _ _ Hc) as [_ Hn]. split.
      * rewrite bool_decide_eq_false_2 by (case_bool_decide; naive_solver). unfold call_state, answered, idle. cbn.
        rewrite list_elem_of_filter, fmap_app, elem_of_app. cbn. set_solver.
      * unfold send_count, sends in *. cbn. naive_solver.
    + rewrite lookup_alter_ne in Hd by done. apply (fine_same _ _ _ _ _ _ _ (Hcall _ _ Hd) (Hx _ Hne)); try done; cbn.
      * rewrite list_elem_of_filter. naive_solver.
      * unfold answered. cbn. rewrite fmap_app. set_solver.
  - intros d Hd. assert (d ≠ c) as Hne by (intros ->; by rewrite lookup_alter, decide_True, Hc in Hd). rewrite lookup_alter_ne in Hd by done.
    destruct (Hunk _ Hd) as [Hu ?]. split; [|rewrite <- (Hx _ Hne); done].
    unfold unknown, waiting, answered in *. cbn. rewrite list_elem_of_filter, fmap_app. set_solver.
  - unfold answered in *. cbn. rewrite fmap_app. apply NoDup_app. split_and!; [done| |by apply NoDup_singleton]. set_solver.
Qed.

(** *** Starting *)

Lemma wait_added g call on owner s :
  wf g call s → (∀ w, on = Await w → w < length (rc_threads s)) → wf g None (set_waits (rc_waits s ++ [MkWait call on owner]) s).
Proof.
  intros [Hcall Hunk Hans Hwait Hcl Hex Haw Hre] Hon.
  assert (∀ d, d ∈ waiting (set_waits (rc_waits s ++ [MkWait call on owner]) s) ↔ d ∈ waiting s ∨ call = Some d) as Hw.
  { intros d. unfold waiting. cbn. rewrite omap_app, elem_of_app. cbn. destruct call; set_solver. }
  split; cbn; try done.
  - intros d q Hd. pose proof (Hcall _ _ Hd) as Hf. destruct (decide (call = Some d)) as [->|Hne].
    + destruct Hf as [Hk Hn]. rewrite bool_decide_eq_true_2 in Hk by done. split; [|exact Hn].
      rewrite bool_decide_eq_false_2 by done. destruct Hk as (Hs & ? & ? & ? & ? & ?). unfold call_state. rewrite Hs. rewrite Hw. naive_solver.
    + apply (fine_same _ _ _ _ _ _ _ Hf); try done; rewrite ?Hw; naive_solver.
  - intros d Hd. destruct (Hunk _ Hd) as [Hu ?]. unfold unknown in *. rewrite Hw. naive_solver.
  - unfold waiting. cbn. rewrite omap_app. apply NoDup_app. split_and!; [done| |destruct call; [apply NoDup_singleton|apply NoDup_nil_2]].
    intros d Hd. cbn. destruct call as [c|]; [|set_solver]. cbn. intros ->%list_elem_of_singleton.
    destruct (rc_calls s !! c) as [p|] eqn:Hc; [|by destruct (Hunk _ Hc)].
    destruct (Hcall _ _ Hc) as [Hk _]. rewrite bool_decide_eq_true_2 in Hk by done. unfold in_hand in Hk. naive_solver.
  - intros k w [Hk| ->%list_elem_of_singleton]%elem_of_app; [by apply Haw|apply Hon].
Qed.

Lemma thread_made g x s :
  wf g x s → wf g x (set_client (Some (length (rc_threads s))) (set_threads (rc_threads s ++ [MkThread NotYet false]) s)).
Proof.
  intros [Hcall Hunk Hans Hwait Hcl Hex Haw Hre]. split; cbn; try done.
  - intros d q Hd. apply (fine_same _ _ _ _ _ _ _ (Hcall _ _ Hd)); try done. unfold at_worker. cbn.
    intros (pt & t & H1 & H2 & H3 & H4). exists pt, t. rewrite (lookup_app_l_Some _ _ _ _ H3). naive_solver.
  - intros w [= <-]. exists (MkThread NotYet false). split; [|done]. by rewrite list_lookup_middle by done.
  - intros w t [Hl|[_ Hl]]%lookup_app_Some; [by eapply Hex|]. apply list_lookup_singleton_Some in Hl as [_ <-]. done.
  - intros k w Hk Ho. specialize (Haw _ _ Hk Ho). rewrite length_app. lia.
Qed.

Lemma started_call g spawn call s : wf g call s → wf g None (start spawn call s).
Proof.
  intros H. unfold start. destruct (rc_client s) as [w|] eqn:Hw; [|destruct spawn as [e|]].
  - apply wait_added; [done|]. intros w' [= <-]. destruct (wf_client _ _ _ H _ Hw) as (t & Ht & _). by apply lookup_lt_Some in Ht.
  - by apply wait_added.
  - apply (wait_added g call _ true (set_client _ (set_threads _ s))); [by apply thread_made|]. cbn. intros w [= <-]. rewrite length_app. cbn. lia.
Qed.

(** *** A wait that is over *)

Lemma wait_over s i k : wf None None s → rc_waits s !! i = Some k → wf None (wt_call k) (set_waits (delete i (rc_waits s)) s).
Proof.
  intros [Hcall Hunk Hans Hwait Hcl Hex Haw Hre] Hi. set (s' := set_waits _ s).
  assert (waiting s ≡ₚ option_list (wt_call k) ++ waiting s') as Hp.
  { unfold waiting. cbn. rewrite (delete_Permutation _ _ _ Hi) at 1. cbn. by destruct (wt_call k). }
  assert (NoDup (option_list (wt_call k) ++ waiting s')) as Hnd by (by rewrite <- Hp).
  assert (∀ d, d ∈ waiting s ↔ wt_call k = Some d ∨ d ∈ waiting s') as Hw.
  { intros d. rewrite Hp, elem_of_app. destruct (wt_call k); set_solver. }
  apply NoDup_app in Hnd as (_ & Hout & Hnd). split; cbn; try done.
  - intros d q Hd. pose proof (Hcall _ _ Hd) as Hf. destruct (decide (wt_call k = Some d)) as [Hk|Hne].
    + destruct Hf as [Hk' Hn]. split; [|exact Hn]. rewrite bool_decide_eq_true_2 by done. assert (d ∈ waiting s) by (apply Hw; by left).
      assert (d ∉ waiting s') by (apply Hout; rewrite Hk; by apply list_elem_of_singleton).
      rewrite bool_decide_eq_false_2 in Hk' by done. unfold call_state, in_hand in *. destruct (p_settled q); naive_solver.
    + apply (fine_same _ _ _ _ _ _ _ Hf); try done; rewrite ?Hw; naive_solver.
  - intros d Hd. destruct (Hunk _ Hd) as [Hu ?]. unfold unknown in *. rewrite Hw in Hu. naive_solver.
  - intros k' w Hk'%list_elem_of_delete_inv. naive_solver.
Qed.

(** *** Sending *)

Lemma call_in_hand g c s : wf g (Some c) s → ∃ p, rc_calls s !! c = Some p ∧ in_hand s c p ∧ send_count s c p.
Proof.
  intros H. destruct (rc_calls s !! c) as [p|] eqn:Hc; [|by destruct (wf_unknown _ _ _ H _ Hc)].
  destruct (wf_call _ _ _ H _ _ Hc) as [Hk Hn]. rewrite bool_decide_eq_true_2 in Hk by done. eauto.
Qed.

Lemma settled_in_hand g c s a : wf g (Some c) s → wf g None (settle c a s).
Proof.
  intros H. destruct (call_in_hand _ _ _ H) as (p & Hc & (Hs & _ & _ & Hw & Hd & _) & _).
  pose proof (settled_call _ _ _ _ _ a H Hc Hs Hw Hd) as H'. by rewrite bool_decide_eq_true_2 in H' by done.
Qed.

Lemma dropped_call g c s : wf g (Some c) s → wf g None (log_drop c s).
Proof.
  intros H. destruct (call_in_hand _ _ _ H) as (p & Hc & (Hs & Hp & Ha & Hw & Hd & Hid) & Hn).
  destruct H as [Hcall Hunk Hans Hwait Hcl Hex Haw Hre]. split; cbn; try done.
  - intros d q Hq. destruct (decide (d = c)) as [->|Hne].
    + rewrite Hc in Hq. injection Hq as <-. split; [|unfold send_count, sends in *; cbn; set_solver].
      rewrite bool_decide_eq_false_2 by done. unfold call_state, answered, waiting. rewrite Hs. cbn. set_solver.
    + apply (fine_same _ _ _ _ _ _ _ (Hcall _ _ Hq)); try done; cbn; set_solver.
  - intros d Hq. destruct (Hunk _ Hq) as [Hu ?]. split; [|done]. unfold unknown, waiting, answered in *. cbn. set_solver.
Qed.

Lemma sent_call c w s pt timer :
  wf None (Some c) s → rc_client s = Some w → pt_worker pt = w →
  timer = (if op_budgetFromStart opts then None else Some pt) →
  let s' := on_call c (posted_on pt timer) (take_port s) in
  wf None None s' ∧ ∃ p, rc_calls s' !! c = Some p ∧ p_settled p = false ∧ c ∉ waiting s' ∧ c ∉ rc_dropped s' ∧ ¬ idle p ∧ sends s' c ≤ Nat.b2n (p_resent p).
Proof.
  intros H Hcw Hpt Ht. destruct (call_in_hand _ _ _ H) as (p & Hc & (Hs & Hp & Ha & Hw & Hd & Hid) & Hn).
  destruct H as [Hcall Hunk Hans Hwait Hcl Hex Haw Hre]. destruct (Hcl _ Hcw) as (t & Hth & Hte).
  assert (rc_calls (on_call c (posted_on pt timer) (take_port s)) !! c = Some (posted_on pt timer p)) as Hc'.
  { cbn. by rewrite lookup_alter, decide_True, Hc by done. }
  split; [|exists (posted_on pt timer p); split_and!; try done; [by intros [??]|by apply Hn]]. split; cbn; try done.
  - intros d q Hq. destruct (decide (d = c)) as [->|Hne].
    + cbn in Hc'. rewrite Hc' in Hq. injection Hq as <-. split; [|unfold send_count, sends in *; cbn; naive_solver].
      rewrite bool_decide_eq_false_2 by done. unfold call_state, answered, waiting. cbn. rewrite Hs. split_and!; try done. right. right.
      split_and!; try done. exists pt, t. cbn. rewrite Hpt. split_and!; try done; [by left|]. destruct Hid as (_ & _ & _ & ?).
      destruct (op_budgetFromStart opts); subst timer; [by right|by left].
    + rewrite lookup_alter_ne in Hq by done. apply (fine_same _ _ _ _ _ _ _ (Hcall _ _ Hq)); try done; naive_solver.
  - intros d Hq. assert (d ≠ c) by (intros ->; cbn in Hc'; congruence). rewrite lookup_alter_ne in Hq by done.
    destruct (Hunk _ Hq) as [Hu ?]. done.
Qed.

Lemma posted_call c w s p :
  wf None None s → rc_calls s !! c = Some p → ¬ idle p → sends s c ≤ Nat.b2n (p_resent p) → wf None None (log_post c w s).
Proof.
  intros [Hcall Hunk Hans Hwait Hcl Hex Haw Hre] Hc Hid Hsend.
  assert (∀ d, sends (log_post c w s) d = sends s d + (if decide (d = c) then 1 else 0)) as Hn.
  { intros d. unfold sends. cbn. rewrite filter_app, length_app, filter_cons, filter_nil. cbn. by repeat case_decide; subst. }
  split; cbn; try done.
  - intros d q Hq. destruct (decide (d = c)) as [->|Hne].
    + rewrite Hc in Hq. injection Hq as <-. destruct (Hcall _ _ Hc) as [Hk Hcount]. split; [exact Hk|].
      unfold send_count in *. rewrite Hn, decide_True by done. split_and!; [lia|naive_solver..].
    + apply (fine_same _ _ _ _ _ _ _ (Hcall _ _ Hq)); try done. rewrite Hn, decide_False by done. lia.
  - intros d Hq. destruct (Hunk _ Hq) as [Hu ?]. split; [|done]. unfold unknown, waiting, answered in *. cbn. rewrite fmap_app.
    assert (d ≠ c) by congruence. set_solver.
Qed.

Lemma send_on_kept c ms post s : wf None (Some c) s → wf None None (send_on opts c ms post s).
Proof.
  intros H. destruct (call_in_hand _ _ _ H) as (p & Hc & (_ & Hp & _) & _). unfold send_on.
  rewrite bool_decide_eq_true_2 by done. cbn [negb]. destruct (rc_client s) as [w|] eqn:Hw; [|by apply dropped_call].
  destruct (sent_call _ _ _ (MkPort (rc_nextPort s) w ms) _ H Hw eq_refl eq_refl) as (H' & p' & Hc' & Hs' & Hw' & Hd' & Hid & Hn).
  destruct post as [e|]; [|by eapply posted_call]. exact (settled_call _ _ _ _ _ _ H' Hc' Hs' Hw' Hd').
Qed.

(** *** What touches no call *)

Lemma inert g x s s' :
  wf g x s → rc_calls s' = rc_calls s → rc_pending s' = rc_pending s → rc_waits s' = rc_waits s → rc_answers s' = rc_answers s →
  rc_posts s' = rc_posts s → rc_dropped s' = rc_dropped s → rc_threads s' = rc_threads s →
  (rc_client s' = rc_client s ∨ rc_client s' = None) → (is_Some (rc_restartingWorker s') → op_terminateOnTimeout opts = true) →
  wf g x s'.
Proof.
  intros [Hcall Hunk Hans Hwait Hcl Hex Haw Hre] E1 E2 E3 E4 E5 E6 E7 Ec Er.
  split; unfold fine, unknown, in_hand, call_state, send_count, at_worker, sends, waiting, answered in *; rewrite ?E1, ?E2, ?E3, ?E4, ?E5, ?E6, ?E7; try done.
  destruct Ec as [->| ->]; [exact Hcl|done].
Qed.

(** A [ready] that settles. *)
Lemma ready_settled x s w (f : Thread → Thread) :
  wf None x s → (∀ t, th_exited (f t) = th_exited t ∧ (th_ready t ≠ NotYet → th_ready (f t) = th_ready t)) →
  wf None x (set_threads (alter f w (rc_threads s)) s).
Proof.
  intros [Hcall Hunk Hans Hwait Hcl Hex Haw Hre] Hf.
  assert (∀ v t, rc_threads s !! v = Some t → ∃ t', alter f w (rc_threads s) !! v = Some t' ∧ th_exited t' = th_exited t) as Hl.
  { intros v t Ht. destruct (decide (w = v)) as [->|Hne]; [rewrite list_lookup_alter_eq, Ht|rewrite list_lookup_alter_ne by done; by eauto].
    exists (f t). split; [done|apply Hf]. }
  split; cbn; try done.
  - intros d q Hd. apply (fine_same _ _ _ _ _ _ _ (Hcall _ _ Hd)); try done. unfold at_worker. cbn.
    intros (pt & t & H1 & H2 & H3 & [H4|?] & H5); [|done]. destruct (Hl _ _ H3) as (t' & Ht' & E). exists pt, t'. rewrite E. naive_solver.
  - intros v Hv. destruct (Hcl _ Hv) as (t & Ht & He). destruct (Hl _ _ Ht) as (t' & Ht' & E). exists t'. by rewrite E.
  - intros v t Ht He. destruct (decide (w = v)) as [->|Hne]; [|rewrite list_lookup_alter_ne in Ht by done; by eapply Hex].
    rewrite list_lookup_alter_eq in Ht. destruct (rc_threads s !! v) as [t0|] eqn:Ht0; [|done]. injection Ht as <-. destruct (Hf t0) as [E1 E2]. rewrite E1 in He.
    pose proof (Hex _ _ Ht0 He). by rewrite E2.
  - intros k v Hk Hv. rewrite length_alter. by eapply Haw.
Qed.

(** *** An exit *)

(** The calls the gone worker held. *)
Definition clear_of w s c : Prop := ∀ p, rc_calls s !! c = Some p → p_sentTo p ≠ Some w.

Lemma exit_marked w (f : Thread → Thread) s :
  wf None None s → (∀ t, th_exited (f t) = true ∧ th_ready (f t) ≠ NotYet) →
  let s1 := set_threads (alter f w (rc_threads s)) s in
  wf (Some w) None (if bool_decide (rc_client s1 = Some w) then set_client None s1 else s1).
Proof.
  intros [Hcall Hunk Hans Hwait Hcl Hex Haw Hre] Hf s1. set (s2 := if bool_decide _ then _ else _).
  assert (rc_calls s2 = rc_calls s ∧ rc_pending s2 = rc_pending s ∧ rc_waits s2 = rc_waits s ∧ rc_answers s2 = rc_answers s ∧
          rc_posts s2 = rc_posts s ∧ rc_dropped s2 = rc_dropped s ∧ rc_threads s2 = rc_threads s1 ∧
          rc_restartingWorker s2 = rc_restartingWorker s ∧ ∀ v, rc_client s2 = Some v → rc_client s = Some v ∧ v ≠ w)
    as (E1 & E2 & E3 & E4 & E5 & E6 & E7 & E8 & Hc2).
  { subst s2. case_bool_decide as Hb; [done|]. split_and!; try done. cbn in *. intros v Hv. split; [done|]. intros ->. done. }
  split; unfold unknown, waiting, answered in *; rewrite ?E1, ?E2, ?E3, ?E4, ?E5, ?E6, ?E7, ?E8; try done.
  - intros d q Hd. specialize (Hcall _ _ Hd). revert Hcall. unfold fine, call_state, in_hand, send_count, sends, at_worker, waiting, answered.
    rewrite ?E2, ?E3, ?E4, ?E5, ?E6, ?E7. cbn. intros [Hk Hn]. split; [|exact Hn]. destruct (p_settled q); [exact Hk|].
    destruct Hk as (? & ? & [?|[?|(? & ? & pt & t & H1 & H2 & H3 & [H4|?] & H5)]]); [naive_solver..| |done].
    split_and!; [done..|]. right. right. split_and!; [done..|]. destruct (decide (w = pt_worker pt)) as [->|Hne].
    + exists pt, (f t). rewrite list_lookup_alter_eq, H3. naive_solver.
    + exists pt, t. rewrite list_lookup_alter_ne by done. naive_solver.
  - intros v Hv. destruct (Hc2 _ Hv) as [Hv' Hne]. cbn. rewrite list_lookup_alter_ne by done. by apply Hcl.
  - cbn. intros v t Ht He. destruct (decide (w = v)) as [->|Hne]; [|rewrite list_lookup_alter_ne in Ht by done; by eapply Hex].
    rewrite list_lookup_alter_eq in Ht. destruct (rc_threads s !! v) as [t0|]; [|done]. injection Ht as <-. apply Hf.
  - cbn. intros k v Hk Hv. rewrite length_alter. by eapply Haw.
Qed.

Lemma start_calls spawn call s : rc_calls (start spawn call s) = rc_calls s ∧ rc_pending (start spawn call s) = rc_pending s.
Proof. unfold start. by destruct (rc_client s), spawn. Qed.

(** A call that a gone worker had not begun is taken out of its hands. *)
Lemma requeued g w c s p :
  wf g None s → rc_calls s !! c = Some p → p_sentTo p = Some w → p_resent p = false → op_terminateOnTimeout opts = true →
  wf g (Some c) (on_call c (detached (p_settled p) true) s).
Proof.
  intros [Hcall Hunk Hans Hwait Hcl Hex Haw Hre] Hc Hw Hr Ht. destruct (Hcall _ _ Hc) as [Hk Hn].
  rewrite bool_decide_eq_false_2 in Hk by done.
  assert (p_settled p = false ∧ c ∈ rc_pending s ∧ c ∉ answered s ∧ c ∉ waiting s ∧ c ∉ rc_dropped s) as (Hs & Hp).
  { unfold call_state, idle in Hk. rewrite Hw in Hk. destruct (p_settled p); naive_solver. }
  split; cbn; try done.
  - intros d q Hq. destruct (decide (d = c)) as [->|Hne].
    + rewrite lookup_alter, decide_True, Hc in Hq by done. injection Hq as <-. split.
      * rewrite bool_decide_eq_true_2 by done. unfold in_hand, idle. cbn. naive_solver.
      * unfold send_count in *. rewrite Hr in Hn. cbn in *. unfold sends in *. cbn. naive_solver lia.
    + rewrite lookup_alter_ne in Hq by done. apply (fine_same _ _ _ _ _ _ _ (Hcall _ _ Hq)); try done; naive_solver.
  - intros d Hq. assert (d ≠ c) as Hne by (intros ->; by rewrite lookup_alter, decide_True, Hc in Hq). rewrite lookup_alter_ne in Hq by done.
    destruct (Hunk _ Hq) as [Hu ?]. split; [done|naive_solver].
Qed.

(** One turn of the loop leaves nothing of the call with the gone worker, and
    gives no call to it. *)
Lemma settle_pending_kept spawn w requeue reason s c :
  (requeue = true → op_terminateOnTimeout opts = true) → wf (Some w) None s →
  let s' := settle_pending spawn w requeue reason s c in
  wf (Some w) None s' ∧ clear_of w s' c ∧ (∀ d, clear_of w s d → clear_of w s' d) ∧ rc_pending s' ⊆ rc_pending s.
Proof.
  intros Hq H. unfold settle_pending. destruct (rc_calls s !! c) as [p|] eqn:Hc; [|split_and!; try done; by intros p' Hp'%(eq_trans (eq_sym Hc))].
  destruct (decide (p_sentTo p = Some w)) as [Hw|Hw]; [rewrite bool_decide_eq_true_2 by done|rewrite bool_decide_eq_false_2 by done]; cbn [negb].
  2: { split_and!; try done. intros p' Hp'. congruence. }
  destruct (wf_call _ _ _ H _ _ Hc) as [Hk _]. rewrite bool_decide_eq_false_2 in Hk by done.
  assert (p_settled p = false ∧ c ∉ waiting s ∧ c ∉ rc_dropped s) as (Hs & Hwt & Hdr) by (unfold call_state, idle in Hk; rewrite Hw in Hk; destruct (p_settled p); naive_solver).
  assert (∀ b r d, clear_of w s d ∨ d = c → clear_of w (on_call c (detached b r) s) d) as Hclear.
  { intros b r d Hd p'. cbn. destruct (decide (d = c)) as [->|Hne]; [rewrite lookup_alter, decide_True, Hc by done; by intros [= <-]|].
    rewrite lookup_alter_ne by done. destruct Hd; [auto|done]. }
  destruct (requeue && negb (p_started p) && negb (p_resent p)) eqn:Hg.
  - apply andb_true_iff in Hg as [[Hrq _]%andb_true_iff Hr%negb_true_iff].
    destruct (start_calls spawn (Some c) (on_call c (detached (p_settled p) true) s)) as [E1 E2]. unfold clear_of in *. rewrite E1, E2.
    split_and!; [|by apply Hclear; right|intros d Hd; apply Hclear; by left|done].
    apply started_call. eapply requeued; eauto.
  - split_and!; [exact (settled_call _ _ _ _ _ _ H Hc Hs Hwt Hdr)|..]; unfold settle; rewrite Hc, Hs; [apply Hclear; by right|intros d Hd; apply Hclear; by left|].
    cbn. intros d. rewrite list_elem_of_filter. by intros [_ ?].
Qed.

Lemma settle_pending_all spawn w requeue reason l s :
  (requeue = true → op_terminateOnTimeout opts = true) → wf (Some w) None s →
  let s' := foldl (settle_pending spawn w requeue reason) s l in
  wf (Some w) None s' ∧ (∀ d, d ∈ l ∨ clear_of w s d → clear_of w s' d) ∧ rc_pending s' ⊆ rc_pending s.
Proof.
  intros Hq. revert s. induction l as [|c l IH]; intros s H; [split_and!; [done| |done]; by intros d [?%not_elem_of_nil|?]|].
  cbn [foldl]. destruct (settle_pending_kept spawn w requeue reason s c Hq H) as (H1 & H2 & H3 & H4).
  destruct (IH _ H1) as (H5 & H6 & H7). split_and!; [done| |by etrans]. intros d [[->|?]%elem_of_cons|?]; apply H6; auto.
Qed.

Lemma settlePendingOf_kept spawn w requeue reason s :
  (requeue = true → op_terminateOnTimeout opts = true) → wf (Some w) None s → wf None None (settlePendingOf spawn w requeue reason s).
Proof.
  intros Hq H. destruct (settle_pending_all spawn w requeue reason (rc_pending s) s Hq H) as (H' & Hclear & Hsub).
  fold (settlePendingOf spawn w requeue reason s) in *. set (s' := settlePendingOf _ _ _ _ _) in *.
  destruct H' as [Hcall Hunk Hans Hwait Hcl Hex Haw Hre]. split; try done. intros d q Hd. destruct (Hcall _ _ Hd) as [Hk Hn].
  rewrite bool_decide_eq_false_2 in Hk by done. split; [rewrite bool_decide_eq_false_2 by done|exact Hn].
  unfold call_state in *. destruct (p_settled q); [done|]. destruct Hk as (Hp & Ha & [?|[?|(? & ? & pt & t & H1 & H2 & H3 & H4 & H5)]]); [naive_solver..|].
  split_and!; [done..|]. right. right. split_and!; [done..|]. exists pt, t. split_and!; try done. left. destruct H4 as [?|[= ->]]; [done|].
  by destruct (Hclear d (or_introl (Hsub _ Hp)) _ Hd).
Qed.

Lemma on_exit_kept spawn w code now s : wf None None s → wf None None (on_exit opts spawn w code now s).
Proof.
  intros H. unfold on_exit. apply settlePendingOf_kept.
  - case_bool_decide as Hr; [|done]. intros _. apply (wf_restart _ _ _ H). revert Hr. repeat case_bool_decide; cbn; intros ->; eauto.
  - match goal with |- context [alter ?f w _] => pose proof (exit_marked w f s H) as Hm end.
    cbn zeta in Hm. specialize (Hm ltac:(intros t; cbn; by destruct (th_ready t))). revert Hm.
    set (s2 := if bool_decide (rc_client _ = _) then _ else _). intros Hm.
    apply (inert _ _ _ _ Hm); repeat case_bool_decide; try done; cbn; auto; try apply (wf_restart _ _ _ Hm); by intros [? ?].
Qed.

(** *** Every event *)

Lemma resumed_kept k res ms post s : wf None (wt_call k) s → wf None None (resumed opts k res ms post s).
Proof.
  intros H. unfold resumed. destruct res as [e|].
  - set (s' := match wt_on k with Await _ => _ | _ => _ end). assert (wf None (wt_call k) s') as H'.
    { subst s'. destruct (wt_on k); [|done]. case_match; [|done]. apply (inert _ _ _ _ H); try done; cbn; auto. apply H. }
    destruct (wt_call k); [by apply settled_in_hand|done].
  - destruct (wt_call k); [by apply send_on_kept|done].
Qed.

Lemma on_resume_kept i ms post s : wf None None s → wf None None (on_resume opts i ms post s).
Proof.
  intros H. unfold on_resume. destruct (rc_waits s !! i) as [k|] eqn:Hi; [|done]. pose proof (wait_over _ _ _ H Hi) as H'.
  destruct (wt_on k) as [w|e]; [|by apply resumed_kept]. destruct (rc_threads s !! w) as [[[]]|]; try done; by apply resumed_kept.
Qed.

(** A call with an open port or a timer is one that a worker holds. *)
Lemma held_call s c p : wf None None s → rc_calls s !! c = Some p → (is_Some (p_port p) ∨ is_Some (p_timer p)) →
  p_settled p = false ∧ c ∉ waiting s ∧ c ∉ rc_dropped s ∧ at_worker None s p.
Proof.
  intros H Hc Hp. destruct (wf_call _ _ _ H _ _ Hc) as [Hk _]. rewrite bool_decide_eq_false_2 in Hk by done. revert Hk.
  unfold call_state, idle. destruct (p_settled p); destruct Hp as [[? Hp]|[? Hp]]; rewrite Hp; naive_solver.
Qed.

Lemma settled_held s c p a : wf None None s → rc_calls s !! c = Some p → (is_Some (p_port p) ∨ is_Some (p_timer p)) → wf None None (settle c a s).
Proof. intros H Hc Hp. destruct (held_call _ _ _ H Hc Hp) as (? & ? & ? & _). by apply (settled_call _ _ _ _ _ a H Hc). Qed.

Lemma on_port_kept c id f s :
  wf None None s → (∀ p pt, rc_calls s !! c = Some p → p_port p = Some pt → wf None None (f p pt s)) → wf None None (on_port c id f s).
Proof. intros H Hf. unfold on_port. destruct (rc_calls s !! c) as [p|]; [|done]. destruct (p_port p) eqn:?; [|done]. case_bool_decide; eauto. Qed.

Lemma on_started_kept c s p pt : wf None None s → rc_calls s !! c = Some p → p_port p = Some pt → wf None None (on_started opts c p pt s).
Proof.
  intros H Hc Hp. destruct (held_call _ _ _ H Hc ltac:(eauto)) as (Hs & Hw & _ & Hh). destruct (wf_call _ _ _ H _ _ Hc) as [Hk Hn].
  rewrite bool_decide_eq_false_2 in Hk by done. unfold on_started. set (timer := match p_timer p with None => _ | _ => _ end).
  destruct H as [Hcall Hunk Hans Hwait Hcl Hex Haw Hre]. split; cbn; try done.
  - intros d q Hq. destruct (decide (d = c)) as [->|Hne].
    + rewrite lookup_alter, decide_True, Hc in Hq by done. injection Hq as <-.
      split; [|unfold send_count, sends, idle in *; cbn; rewrite Hp in *; naive_solver]. rewrite bool_decide_eq_false_2 by done.
      unfold call_state, idle, at_worker in *. cbn. rewrite Hs in *. rewrite Hp in *.
      destruct Hk as (? & ? & [?|[?|(? & ? & pt' & t & H1 & [= <-] & H3 & H4 & H5)]]); [naive_solver..|].
      split_and!; [done..|]. right. right. split_and!; [done..|]. exists pt, t. split_and!; try done. left. subst timer.
      destruct H5 as [->|(-> & -> & _)]; done.
    + rewrite lookup_alter_ne in Hq by done. apply (fine_same _ _ _ _ _ _ _ (Hcall _ _ Hq)); done.
  - intros d Hq. assert (d ≠ c) as Hne by (intros ->; by rewrite lookup_alter, decide_True, Hc in Hq). rewrite lookup_alter_ne in Hq by done.
    by apply Hunk.
Qed.

Lemma on_timer_kept c s : wf None None s → wf None None (on_timer opts c s).
Proof.
  intros H. unfold on_timer. destruct (rc_calls s !! c) as [p|] eqn:Hc; [|done]. destruct (p_timer p) as [pt|] eqn:Ht; [|done].
  set (s' := settle _ _ _). assert (wf None None s') as H' by (eapply settled_held; eauto).
  destruct (op_terminateOnTimeout opts) eqn:Hterm; [|done]. case_bool_decide; [|done]. cbn [andb]. unfold stop. cbn.
  destruct (rc_client s') eqn:Hcl; apply (inert _ _ _ _ H'); try done; cbn; auto.
Qed.

Lemma called spawn c method args s : wf None None s → rc_calls s !! c = None → wf None None (rpc spawn c method args s).
Proof.
  intros H Hc. unfold rpc. apply started_call. destruct (wf_unknown _ _ _ H _ Hc) as [(Hp & Hw & Ha & Hd & Hpo) _].
  assert (sends s c = 0) as Hz.
  { unfold sends. apply length_zero_iff_nil, list_filter_none. intros e He <-. apply Hpo. by apply list_elem_of_fmap_2. }
  destruct H as [Hcall Hunk Hans Hwait Hcl Hex Haw Hre]. split; cbn; try done.
  - intros d q Hq. destruct (decide (d = c)) as [->|Hne].
    + rewrite lookup_insert, decide_True in Hq by done. injection Hq as <-. split.
      * rewrite bool_decide_eq_true_2 by done. unfold in_hand, idle, waiting, answered in *. cbn. set_solver.
      * unfold send_count. change (sends _ c) with (sends s c). cbn. rewrite Hz. split_and!; [lia..|done].
    + rewrite lookup_insert_ne in Hq by done. apply (fine_same _ _ _ _ _ _ _ (Hcall _ _ Hq)); try done; cbn; [naive_solver|set_solver].
  - intros d Hq. assert (d ≠ c) as Hne by (intros ->; by rewrite lookup_insert, decide_True in Hq). rewrite lookup_insert_ne in Hq by done.
    destruct (Hunk _ Hq) as [Hu ?]. split; [|naive_solver]. unfold unknown, waiting, answered in *. cbn. set_solver.
Qed.

Lemma step_kept ev s : wf None None s → wf None None (step opts ev s).
Proof.
  intros H. destruct ev; cbn [step].
  - destruct (rc_calls s !! c) eqn:?; [done|by apply called].
  - by apply started_call.
  - unfold stop. destruct (rc_client s); [|done]. apply (inert _ _ _ _ H); try done; cbn; [auto|apply H].
  - apply ready_settled; [done|]. intros t. by destruct (th_ready t) eqn:E; rewrite ?E.
  - apply ready_settled; [done|]. intros t. by destruct (th_ready t) eqn:E; rewrite ?E.
  - destruct (rc_threads s !! w) as [t|]; [|done]. destruct (th_exited t); [done|by apply on_exit_kept].
  - by apply on_resume_kept.
  - apply on_port_kept; [done|]. intros. by apply on_started_kept.
  - apply on_port_kept; [done|]. intros. eapply settled_held; eauto.
  - apply on_port_kept; [done|]. intros. eapply settled_held; eauto.
  - by apply on_timer_kept.
Qed.

Lemma run_wf evs : wf None None (run opts evs).
Proof.
  unfold run. generalize wf_initial. generalize (no_rpc (Arg := Arg) (V := V)). induction evs as [|ev evs IH]; intros s H; [done|].
  cbn [foldl]. by apply IH, step_kept.
Qed.

(** *** Lost calls stay lost *)

Lemma settle_dropped c a s : rc_dropped (settle c a s) = rc_dropped s.
Proof. unfold settle. destruct (rc_calls s !! c) as [p|]; [|done]. by destruct (p_settled p). Qed.

Lemma start_dropped spawn call s : rc_dropped (start spawn call s) = rc_dropped s.
Proof. unfold start. by destruct (rc_client s), spawn. Qed.

Lemma settlePendingOf_dropped spawn w requeue reason s : rc_dropped (settlePendingOf spawn w requeue reason s) = rc_dropped s.
Proof.
  unfold settlePendingOf. generalize (rc_pending s) as l. intros l. revert s. induction l as [|c l IH]; intros s; [done|]. cbn [foldl].
  rewrite IH. unfold settle_pending. destruct (rc_calls s !! c); [|done]. case_match; [done|]. case_match; [by rewrite start_dropped|apply settle_dropped].
Qed.

Lemma send_on_dropped c ms post s : rc_dropped s ⊆ rc_dropped (send_on opts c ms post s).
Proof.
  unfold send_on. case_match; [done|]. destruct (rc_client s); [|cbn; set_solver]. destruct post; [by rewrite settle_dropped|done].
Qed.

Lemma resumed_dropped k res ms post s : rc_dropped s ⊆ rc_dropped (resumed opts k res ms post s).
Proof.
  unfold resumed. destruct res, (wt_call k); [rewrite settle_dropped|..|apply send_on_dropped|done]; by repeat case_match.
Qed.

Lemma step_dropped ev s : rc_dropped s ⊆ rc_dropped (step opts ev s).
Proof.
  destruct ev; cbn [step]; try done.
  - destruct (rc_calls s !! c); [done|]. unfold rpc. by rewrite start_dropped.
  - by rewrite start_dropped.
  - unfold stop. by destruct (rc_client s).
  - destruct (rc_threads s !! w) as [t|]; [|done]. destruct (th_exited t); [done|]. unfold on_exit. rewrite settlePendingOf_dropped. by repeat case_match.
  - unfold on_resume. destruct (rc_waits s !! i) as [k|]; [|done].
    destruct (wt_on k) as [w|e]; [destruct (rc_threads s !! w) as [[[| |e]]|]; cbn [fmap option_fmap option_map th_ready]; try done|]; apply (resumed_dropped k _ timeoutMs post (set_waits (delete i (rc_waits s)) s)).
  - unfold on_port. by repeat case_match.
  - unfold on_port. repeat case_match; by rewrite ?settle_dropped.
  - unfold on_port. repeat case_match; by rewrite ?settle_dropped.
  - unfold on_timer. destruct (rc_calls s !! c) as [p|]; [|done]. destruct (p_timer p) as [pt|]; [|done]. unfold stop.
    repeat case_match; cbn; by rewrite settle_dropped.
Qed.

Lemma run_snoc evs evs' : run opts (evs ++ evs') = foldl (λ s ev, step opts ev s) (run opts evs) evs'.
Proof. unfold run. by rewrite foldl_app. Qed.

Theorem lost_call_stays_pending evs evs' c :
  c ∈ rc_dropped (run opts evs) → c ∈ rc_pending (run opts (evs ++ evs')) ∧ c ∉ answered (run opts (evs ++ evs')).
Proof.
  intros Hc. assert (c ∈ rc_dropped (run opts (evs ++ evs'))) as Hd.
  { rewrite run_snoc. revert Hc. generalize (run opts evs). induction evs' as [|ev evs' IH]; intros s Hs; [done|]. cbn [foldl]. by apply IH, step_dropped. }
  pose proof (run_wf (evs ++ evs')) as H. destruct (rc_calls (run opts (evs ++ evs')) !! c) as [p|] eqn:Hp.
  - destruct (wf_call _ _ _ H _ _ Hp) as [Hk _]. rewrite bool_decide_eq_false_2 in Hk by done. unfold call_state in Hk. destruct (p_settled p); naive_solver.
  - destruct (wf_unknown _ _ _ H _ Hp) as [Hu _]. unfold unknown in Hu. naive_solver.
Qed.

(** *** Calm runs lose nothing *)

(** The promise a continuation awaits has settled. *)
Definition resumable s (k : Wait) : bool :=
  match wt_on k with
  | Failed _ => true
  | Await w => match th_ready <$> rc_threads s !! w with Some NotYet => false | _ => true end
  end.

(** Continuations run before the next exit and the next timer, and nobody calls
    [stop] while a start waits. *)
Definition calm_event (ev : event (Arg := Arg) (V := V)) s : bool :=
  match ev with
  | EStop => bool_decide (rc_waits s = [])
  | EExit _ _ _ _ | ETimer _ => negb (existsb (resumable s) (rc_waits s))
  | _ => true
  end.

Fixpoint calm (evs : list event) s : bool :=
  match evs with [] => true | ev :: evs' => calm_event ev s && calm evs' (step opts ev s) end.

Definition ready_of s w : option Ready := th_ready <$> rc_threads s !! w.

(** A start that may still succeed waits for the client's worker, and calls are
    sent to workers that are past their start. *)
Record calm_inv s : Prop := {
  ci_waits : ∀ k w, k ∈ rc_waits s → wt_on k = Await w →
    ∃ r, ready_of s w = Some r ∧ (r = NotYet ∨ r = IsReady → rc_client s = Some w);
  ci_client : ∀ w, rc_client s = Some w → is_Some (ready_of s w);
  ci_sent : ∀ c p w, rc_calls s !! c = Some p → p_sentTo p = Some w → ∃ r, ready_of s w = Some r ∧ r ≠ NotYet;
  ci_dropped : rc_dropped s = [] }.

(** Nothing is sent anew, nothing waits anew. *)
Lemma calm_less s s' :
  calm_inv s → rc_threads s' = rc_threads s → rc_client s' = rc_client s → rc_waits s' ⊆ rc_waits s → rc_dropped s' = rc_dropped s →
  (∀ c p', rc_calls s' !! c = Some p' → p_sentTo p' = None ∨ ∃ p, rc_calls s !! c = Some p ∧ p_sentTo p' = p_sentTo p) → calm_inv s'.
Proof.
  intros [Hw Hcl Hs Hd] Et Ec Hsub Ed Hc. split; unfold ready_of in *; rewrite ?Et, ?Ec; [|done| |by rewrite Ed].
  - intros k w Hk. apply Hw, Hsub, Hk.
  - intros c p w Hp Hw'. destruct (Hc _ _ Hp) as [E|(p0 & Hp0 & E)]; [congruence|]. eapply Hs; [done|congruence].
Qed.

(** Only the call's own object changes, which is not sent anew. *)
Lemma calls_less (f : PendingRpc → PendingRpc) c s d p' :
  (∀ p, p_sentTo (f p) = None ∨ p_sentTo (f p) = p_sentTo p) → alter f c (rc_calls s) !! d = Some p' →
  p_sentTo p' = None ∨ ∃ p, rc_calls s !! d = Some p ∧ p_sentTo p' = p_sentTo p.
Proof.
  intros Hf. destruct (decide (d = c)) as [->|Hne]; [|rewrite lookup_alter_ne by done; eauto].
  rewrite lookup_alter, decide_True by done. intros (p & Hp & ->)%fmap_Some. destruct (Hf p); eauto.
Qed.

Lemma calm_settle c a s : calm_inv s → calm_inv (settle c a s).
Proof.
  intros H. unfold settle. destruct (rc_calls s !! c) as [p|]; [|done]. destruct (p_settled p); [done|].
  apply (calm_less _ _ H); try done. intros d p'. cbn. apply calls_less. by left.
Qed.

Lemma calm_start spawn call s : calm_inv s → calm_inv (start spawn call s).
Proof.
  intros [Hw Hcl Hs Hd]. unfold start. destruct (rc_client s) as [v|] eqn:Hv; [|destruct spawn as [e|]].
  - split; cbn; rewrite ?Hv; try done. intros k w [Hk| ->%list_elem_of_singleton]%elem_of_app; [by apply Hw|]. intros [= <-].
    destruct (Hcl v eq_refl) as [r Hr]. eauto.
  - split; cbn; rewrite ?Hv; try done. intros k w [Hk| ->%list_elem_of_singleton]%elem_of_app; [by apply Hw|done].
  - set (th := rc_threads s ++ [MkThread NotYet false]).
    assert (∀ w r, ready_of s w = Some r → th_ready <$> th !! w = Some r) as Hold.
    { intros w r. unfold ready_of, th. intros (t & Ht & ->)%fmap_Some. by rewrite (lookup_app_l_Some _ _ _ _ Ht). }
    assert (th_ready <$> th !! length (rc_threads s) = Some NotYet) as Hnew by (unfold th; by rewrite list_lookup_middle).
    split; unfold ready_of; cbn; fold th; try done.
    + intros k w [Hk| ->%list_elem_of_singleton]%elem_of_app; [|intros [= <-]; eauto]. intros Ho.
      destruct (Hw _ _ Hk Ho) as (r & Hr & Hc). exists r. split; [by apply Hold|]. intros Hcase. by specialize (Hc Hcase).
    + intros w [= <-]. eauto.
    + intros c p w Hp Hpw. destruct (Hs _ _ _ Hp Hpw) as (r & Hr & Hne). eauto.
Qed.

Lemma calm_settlePendingOf spawn w requeue reason s : calm_inv s → calm_inv (settlePendingOf spawn w requeue reason s).
Proof.
  unfold settlePendingOf. generalize (rc_pending s) as l. intros l. revert s. induction l as [|c l IH]; intros s H; [done|]. cbn [foldl].
  apply IH. unfold settle_pending. destruct (rc_calls s !! c); [|done]. case_match; [done|]. case_match; [|by apply calm_settle].
  apply calm_start, (calm_less _ _ H); try done. intros d p'. cbn. apply calls_less. by left.
Qed.

Lemma calm_threads f w s :
  calm_inv s → (∀ t, th_ready t ≠ NotYet → th_ready (f t) = th_ready t) → calm_inv (set_threads (alter f w (rc_threads s)) s).
Proof.
  intros [Hw Hcl Hs Hd] Hf.
  assert (∀ v r, ready_of s v = Some r → ∃ r', th_ready <$> alter f w (rc_threads s) !! v = Some r' ∧ (r ≠ NotYet → r' = r)) as Hold.
  { unfold ready_of. intros v r (t & Ht & ->)%fmap_Some. destruct (decide (w = v)) as [->|Hne].
    - rewrite list_lookup_alter_eq, Ht. cbn. eauto.
    - rewrite list_lookup_alter_ne, Ht by done. cbn. eauto. }
  split; unfold ready_of; cbn; try done.
  - intros k v Hk Hv. destruct (Hw _ _ Hk Hv) as (r & Hr & Hc). destruct (Hold _ _ Hr) as (r' & -> & Hr'). exists r'. split; [done|].
    intros Hcase. apply Hc. destruct r; [by left|by right|]. rewrite Hr' in Hcase by done. naive_solver.
  - intros v Hv. destruct (Hcl _ Hv) as [r Hr]. destruct (Hold _ _ Hr) as (r' & -> & _). eauto.
  - intros c p v Hp Hv. destruct (Hs _ _ _ Hp Hv) as (r & Hr & Hne). destruct (Hold _ _ Hr) as (r' & -> & Hr'). exists r'. split; [done|]. by rewrite Hr'.
Qed.

(** The client goes when no start that waits may still succeed. *)
Lemma calm_unclient s :
  calm_inv s → (∀ k w, k ∈ rc_waits s → wt_on k = Await w → ready_of s w ≠ Some NotYet ∧ ready_of s w ≠ Some IsReady) → calm_inv (set_client None s).
Proof.
  intros [Hw Hcl Hs Hd] Hno. split; try done. intros k w Hk Hv. destruct (Hw _ _ Hk Hv) as (r & Hr & _). destruct (Hno _ _ Hk Hv) as [H1 H2].
  exists r. split; [done|]. cbn. unfold ready_of in *. cbn in *. intros [->| ->]; by rewrite Hr in *.
Qed.

Lemma calm_not_resumable s k w : existsb (resumable s) (rc_waits s) = false → k ∈ rc_waits s → wt_on k = Await w → ready_of s w = Some NotYet.
Proof.
  intros He Hk Hw. assert (resumable s k = false) as Hr.
  { destruct (resumable s k) eqn:E; [|done]. assert (existsb (resumable s) (rc_waits s) = true) as Ht; [|congruence].
    apply existsb_exists. exists k. by rewrite <- list_elem_of_In. }
  unfold resumable in Hr. rewrite Hw in Hr. unfold ready_of. by destruct (th_ready <$> rc_threads s !! w) as [[]|].
Qed.

Lemma calm_exit spawn w code now s :
  calm_inv s → existsb (resumable s) (rc_waits s) = false → calm_inv (on_exit opts spawn w code now s).
Proof.
  intros H Hq. unfold on_exit. apply calm_settlePendingOf.
  match goal with |- context [alter ?f w _] => pose proof (calm_threads f w s H) as Hm; set (s1 := set_threads (alter f w (rc_threads s)) s) in * end.
  specialize (Hm ltac:(intros t Ht; cbn; destruct (th_ready t); [by destruct Ht|done..])).
  assert (calm_inv (if bool_decide (rc_client s1 = Some w) then set_client None s1 else s1)) as Hc.
  { case_bool_decide as Hb; [|done]. apply calm_unclient; [done|]. intros k v Hk Hv. pose proof (calm_not_resumable _ _ _ Hq Hk Hv) as Hr.
    destruct (ci_waits _ H _ _ Hk Hv) as (r & Hr' & Hcl). assert (v = w) as ->.
    { rewrite Hr in Hr'. injection Hr' as <-. specialize (Hcl (or_introl eq_refl)). cbn in Hb. congruence. }
    subst s1. unfold ready_of in *. cbn. rewrite list_lookup_alter_eq. destruct (rc_threads s !! w) as [t|]; [|done]. cbn in Hr |- *. injection Hr as ->. done. }
  revert Hc. set (s2 := if bool_decide (rc_client s1 = Some w) then _ else _). intros Hc.
  repeat case_bool_decide; apply (calm_less _ _ Hc); try done; intros c p' Hp'; right; by exists p'.
Qed.

Lemma calm_timer c s : wf None None s → calm_inv s → existsb (resumable s) (rc_waits s) = false → calm_inv (on_timer opts c s).
Proof.
  intros Hwf H Hq. unfold on_timer. destruct (rc_calls s !! c) as [p|] eqn:Hp; [|done]. destruct (p_timer p) as [pt|] eqn:Ht; [|done].
  destruct (held_call _ _ _ Hwf Hp ltac:(eauto)) as (_ & _ & _ & pt' & t & Hto & _ & _ & _ & Hti).
  assert (pt' = pt) as -> by (rewrite Ht in Hti; naive_solver). destruct (ci_sent _ H _ _ _ Hp Hto) as (r & Hr & Hne).
  set (a := Rejected _). assert (rc_waits (settle c a s) = rc_waits s ∧ rc_client (settle c a s) = rc_client s ∧ rc_threads (settle c a s) = rc_threads s) as (Ew & Ec & Et).
  { unfold settle. rewrite Hp. by destruct (p_settled p). }
  pose proof (calm_settle c a s H) as Hs. destruct (op_terminateOnTimeout opts); [|done]. rewrite Ec. case_bool_decide as Hcl; [|done]. cbn [andb].
  unfold stop. cbn. rewrite Ec, Hcl. apply (calm_less (set_client None (settle c a s))); try done; [|intros d p' Hp'; right; by exists p'].
  apply calm_unclient; [done|]. rewrite Ew. intros k v Hk Hv. pose proof (calm_not_resumable _ _ _ Hq Hk Hv) as Hr'. exfalso.
  destruct (ci_waits _ H _ _ Hk Hv) as (r' & E & Hcl'). rewrite Hr' in E. injection E as <-. specialize (Hcl' (or_introl eq_refl)). congruence.
Qed.

Lemma calm_send_on c w ms post s :
  calm_inv s → rc_client s = Some w → ready_of s w = Some IsReady → calm_inv (send_on opts c ms post s).
Proof.
  intros H Hcl Hr. unfold send_on. case_match; [done|]. rewrite Hcl.
  set (pt := MkPort _ _ _). set (s' := on_call c _ _). assert (calm_inv s') as H'.
  { destruct H as [Hw Hc Hs Hd]. split; try done. cbn. intros d p' v. destruct (decide (d = c)) as [->|Hne].
    - rewrite lookup_alter, decide_True by done. intros (p & _ & ->)%fmap_Some [= <-]. exists IsReady. split; [exact Hr|done].
    - rewrite lookup_alter_ne by done. apply Hs. }
  destruct post; [by apply calm_settle|]. apply (calm_less _ _ H'); try done. intros d p' Hp'. right. by exists p'.
Qed.

Lemma calm_resume i ms post s : calm_inv s → calm_inv (on_resume opts i ms post s).
Proof.
  intros H. unfold on_resume. destruct (rc_waits s !! i) as [k|] eqn:Hi; [|done]. set (s' := set_waits _ s).
  assert (calm_inv s') as H'.
  { apply (calm_less _ _ H); try done; [|intros d p' Hp'; right; by exists p']. intros k'. apply list_elem_of_delete_inv. }
  pose proof (list_elem_of_lookup_2 _ _ _ Hi) as Hk. destruct (wt_on k) as [w|e] eqn:Ho.
  - destruct (ci_waits _ H _ _ Hk Ho) as (r & Hr & Hcl). unfold ready_of in Hr. rewrite Hr. destruct r as [| |e]; [done|..].
    + unfold resumed. destruct (wt_call k); [|done]. eapply calm_send_on; [done|apply Hcl; by right|exact Hr].
    + unfold resumed. rewrite Ho. destruct (wt_owner k && bool_decide (rc_client s' = Some w)) eqn:Hb.
      * apply andb_true_iff in Hb as [_ Hb%bool_decide_eq_true]. assert (calm_inv (set_client None s')) as H2; [|by destruct (wt_call k); [apply calm_settle|]].
        apply calm_unclient; [done|]. intros k' v Hk' Hv. destruct (ci_waits _ H' _ _ Hk' Hv) as (r & Hr2 & Hcl').
        rewrite Hr2. destruct r; [..|done]; exfalso; (assert (rc_client s' = Some v) as E by (apply Hcl'; auto));
          rewrite Hb in E; injection E as <-; unfold ready_of in Hr2; cbn in Hr2; congruence.
      * destruct (wt_call k); [by apply calm_settle|done].
  - unfold resumed. rewrite Ho. destruct (wt_call k); [by apply calm_settle|done].
Qed.

Lemma calm_step ev s : wf None None s → calm_inv s → calm_event ev s = true → calm_inv (step opts ev s).
Proof.
  intros Hwf H Hc. destruct ev; cbn [step calm_event] in *.
  - destruct (rc_calls s !! c) eqn:Hn; [done|]. unfold rpc. apply calm_start. destruct H as [Hw Hcl Hs Hd]. split; try done. cbn.
    intros d p w. destruct (decide (d = c)) as [->|Hne]; [rewrite lookup_insert, decide_True by done; by intros [= <-]|]. rewrite lookup_insert_ne by done. apply Hs.
  - by apply calm_start.
  - apply bool_decide_eq_true in Hc. unfold stop. destruct (rc_client s); [|done].
    apply (calm_less (set_client None s)); try done; [|intros d p' Hp'; right; by exists p']. apply calm_unclient; [done|]. rewrite Hc.
    by intros k w Hk%not_elem_of_nil.
  - apply calm_threads; [done|]. intros t Ht. destruct (th_ready t) eqn:E; [by destruct Ht|by rewrite ?E..].
  - apply calm_threads; [done|]. intros t Ht. destruct (th_ready t) eqn:E; [by destruct Ht|by rewrite ?E..].
  - apply negb_true_iff in Hc. destruct (rc_threads s !! w) as [t|]; [|done]. destruct (th_exited t); [done|by apply calm_exit].
  - by apply calm_resume.
  - unfold on_port. destruct (rc_calls s !! c) as [p|]; [|done]. destruct (p_port p) as [pt|]; [|done]. case_bool_decide; [|done].
    unfold on_started. apply (calm_less _ _ H); try done. intros d p'. cbn. apply calls_less. by right.
  - unfold on_port. repeat case_match; by try apply calm_settle.
  - unfold on_port. repeat case_match; by try apply calm_settle.
  - apply negb_true_iff in Hc. by apply calm_timer.
Qed.

Lemma calm_run evs : calm evs no_rpc = true → calm_inv (run opts evs).
Proof.
  intros Hc. unfold run. assert (calm_inv no_rpc) as H by (split; try done; intros k w Hk; by apply not_elem_of_nil in Hk).
  revert Hc H. generalize wf_initial. generalize (no_rpc (Arg := Arg) (V := V)). induction evs as [|ev evs IH]; intros s Hwf Hc H; [done|].
  cbn in *. apply andb_true_iff in Hc as [Hc1 Hc2]. apply IH; [by apply step_kept|done|by apply calm_step].
Qed.

(** ** What the client promises *)

(** Who answers a call: nobody yet, since a [start] is awaited or a running
    worker holds the call under a timer. *)
Definition still_waits s c p : Prop :=
  (∃ k, k ∈ rc_waits s ∧ wt_call k = Some c ∧
     match wt_on k with
     | Failed _ => True
     | Await w => ∃ t, rc_threads s !! w = Some t ∧ (th_exited t = false ∨ th_ready t ≠ NotYet)
     end) ∨ at_worker None s p.

(** C39. Every call of a helper worker is accounted for. Whatever calls are made
    and however the workers start, answer, fail and exit, as long as nobody
    stops the client while a start waits: a call is either answered exactly
    once, and then has no open port and no timer, or not yet answered and waits
    for a start that can go on, or for a worker that is still running, whose
    reply port is open and whose timer runs (or will, when the time is counted
    from the begin of the call). None is left with a worker that is gone. It was
    posted at most once, and once more only after a restart for a timeout. *)
Theorem every_call_accounted evs c p :
  calm evs no_rpc = true → let s := run opts evs in rc_calls s !! c = Some p →
  (if p_settled p then length (filter (λ a, a.1 = c) (rc_answers s)) = 1 ∧ c ∉ rc_pending s ∧ idle p
   else c ∉ answered s ∧ c ∈ rc_pending s ∧ still_waits s c p) ∧
  sends s c ≤ 1 + Nat.b2n (p_resent p) ∧ (p_resent p = true → op_terminateOnTimeout opts = true).
Proof.
  intros Hcalm s Hc. pose proof (run_wf evs) as H. pose proof (ci_dropped _ (calm_run _ Hcalm)) as Hd. fold s in H, Hd.
  destruct (wf_call _ _ _ H _ _ Hc) as [Hk (Hn & _ & Hr)]. split; [|done]. rewrite bool_decide_eq_false_2 in Hk by done.
  unfold call_state in Hk. destruct (p_settled p).
  - destruct Hk as (Hp & _ & _ & Ha & Hi). split_and!; [|done..]. by apply once_in_log; [apply (wf_answers _ _ _ H)|].
  - rewrite Hd in Hk. destruct Hk as (Hp & Ha & Hk). split_and!; [done..|].
    destruct Hk as [(Hw & _)|[(_ & Hin & _)|(_ & _ & Hh)]]; [left|by apply not_elem_of_nil in Hin|by right].
    apply list_elem_of_omap in Hw as (k & Hk & Hkc). exists k. split_and!; [done..|]. destruct (wt_on k) as [w|] eqn:Ho; [|done].
    destruct (lookup_lt_is_Some_2 _ _ (wf_awaits _ _ _ H _ _ Hk Ho)) as [t Ht]. exists t. split; [done|].
    destruct (th_exited t) eqn:He; [right; by eapply (wf_exited _ _ _ H)|by left].
Qed.

End Invariant.

(** ** The dispatcher of the worker *)

Section Dispatcher.
Context {Arg V : Type} (errs : nat → ErrObj) (inspect : nat → string) (status : nat → Z).
Context (handlers : string → option (Arg → V + nat)) (unknown_method : string → nat) (cloneable : V → bool).

Local Notation ended := (handled handlers unknown_method).
Local Notation posts := (createDispatcher errs inspect status handlers unknown_method cloneable).
Local Notation payload := (error_payload errs inspect status).
Local Notation coded_of := (coded_error errs status).

(** What a caller may rely on of the error it is rejected with. *)
Definition same_error (err : nat) (received : ErrObj) : Prop :=
  errorMessage received = formatErrWithCauses errs inspect err ∧
  (errorName errs err ≠ EmptyString → nameOf received = errorName errs err) ∧
  (∀ code, nightgate_code errs err = Some code → map_has code ERROR_CODES = true →
     isNightgateError received = true ∧ eo_code received = Some code).

(** A request is answered by one reply after the note that it began, and what
    the client makes of the reply is what the method ended with: its result, or
    an error with the name, the text with its causes, and the code. *)
Theorem reply_reaches_caller name method args :
  match ended method args with
  | inl v =>
      if cloneable v
      then ∃ r, posts (WorkerRpcRequest method args) = Some [WorkerRpcStarted; PostedReply r] ∧ reply_answer name r = Resolved v
      else posts (WorkerRpcRequest method args) = Some [WorkerRpcStarted]
  | inr err =>
      ∃ r e, posts (WorkerRpcRequest method args) = Some [WorkerRpcStarted; PostedReply r] ∧
        reply_answer name r = Rejected e ∧ same_error err e
  end.
Proof.
  unfold WorkerRpc.createDispatcher. destruct (ended method args) as [v|err]; [destruct (cloneable v); by eauto|].
  set (p := payload err). exists (ReplyError (Some p)).
  destruct (coded_of err) as [[code st]|] eqn:Hn.
  - exists (nightgateErrorFromPayload st (we_name p) (we_message p) code). split_and!; [done|by unfold p, WorkerRpc.error_payload; cbn [reply_answer we_nightgate]; rewrite Hn|].
    split_and!; [done..|]. unfold nightgate_code, WorkerRpc.coded_error in *. destruct (findNightgateError errs err) as [a|]; [|done]. cbn in *.
    intros code' Hc Hin. rewrite Hc in Hn. injection Hn as <- <-. unfold nightgateErrorFromPayload. by rewrite Hin.
  - eexists. split_and!; [done|unfold p, WorkerRpc.error_payload; cbn [reply_answer we_nightgate]; rewrite Hn; reflexivity|]. split_and!; [done| |].
    + cbn. unfold nameOf. cbn. by destruct (errorName errs err).
    + unfold nightgate_code, WorkerRpc.coded_error in *. destruct (findNightgateError errs err) as [a|]; [|done]. cbn in *. intros code Hc. by rewrite Hc in Hn.
Qed.
End Dispatcher.

(** ** Runs *)

Local Open Scope string_scope.

Definition dust_verify : WorkerRpcClientOptions := MkOptions "dust-verify-worker" true true.

(** Two checks on one worker; the first runs past its budget, so the worker is
    ended and the second moves to the next one. *)
Definition budget_run : list (event (Arg := string) (V := bool)) :=
  [ERpc None 1 "verifyCollapsedDust" "a"; EReady 0; EResume 0 1000 None; ERpc None 2 "verifyCollapsedDust" "b"; EResume 0 1000 None;
   EStarted 1 0; ETimer 1; EExit None 0 1 5000; EReady 1; EResume 0 1000 None; EStarted 2 2; EReply 2 2 (ReplyOk true)].

Lemma every_call_accounted_witness :
  calm dust_verify budget_run no_rpc = true ∧
  let s := run dust_verify budget_run in
  option_map p_resent (rc_calls s !! 2) = Some true ∧ rc_posts s = [(1, 0); (2, 0); (2, 1)] ∧
  length (filter (λ a, a.1 = 2) (rc_answers s)) = 1 ∧ status s = MkStatus true 0 0 None.
Proof.
  set (s := run dust_verify budget_run). assert (calm dust_verify budget_run no_rpc = true) as Hc by (vm_compute; reflexivity).
  assert (rc_calls s !! 2 = Some (MkPending "verifyCollapsedDust" "b" None false true None None true)) as H2 by (vm_compute; reflexivity).
  pose proof (every_call_accounted dust_verify budget_run 2 _ Hc H2) as [[Ha _] _].
  split; [exact Hc|]. split; [vm_compute; reflexivity|]. split; [vm_compute; reflexivity|]. split; [exact Ha|vm_compute; reflexivity].
Defined.

(** A call whose worker is stopped before it is ready. The worker's last message
    is that it is ready; the call then finds no client, is never posted, and is
    never answered. *)
Theorem stop_while_starting_loses_the_call evs' :
  let s := run dust_verify ([ERpc None 1 "verifyCollapsedDust" "a"; EStop; EReady 0; EResume 0 1000 None; EExit None 0 0 5000] ++ evs') in
  1 ∈ rc_pending s ∧ 1 ∉ answered (Arg := string) (V := bool) s.
Proof. apply lost_call_stays_pending. vm_compute. set_solver. Qed.

(** A stop before the last stop has ended: the first exit is counted as a
    crash. *)
Theorem planned_exit_counted :
  status (run (Arg := string) (V := bool) dust_verify
    [EStart None; EReady 0; EResume 0 0 None; EStop; EStart None; EReady 1; EResume 0 0 None; EStop; EExit None 0 0 5000; EExit None 1 0 6000]) =
  MkStatus false 0 1 (Some (0, 5000)%Z).
Proof. vm_compute. reflexivity. Qed.
