(* ===== verification/WalletPool.v ===== *)
(** The wallet workers: which worker a call goes to, the calls of the main
    thread with their retry over a planned restart
    (srv/midnight/wallet-worker-client.ts), and what the worker does with a call
    and when it restarts (srv/midnight/worker/rpc.ts,
    srv/midnight/worker/rotation.ts).

    A slot of the pool and its workers are one machine over the events of both
    threads: a message is delivered some time after it was posted, or never when
    the worker exits first. The announcement of a transaction on the port of one
    call is a machine of its own. *)
From Stdlib Require Import Ascii.
From S2P Require Import Prelude Json Numbers.

Local Open Scope string_scope.

(** ** Routing *)

Section Routing.
(** [walletWorkerPoolConfig()], the wallets with a worker of their own, and the
    wallets that reported from a worker. *)
Context (walletWorkers : Z) (dedicatedMode : bool).

Definition DEFAULT_SLOT : string := "user-0".

Fixpoint hash_from (h : Z) (key : string) : Z :=
  match key with
  | EmptyString => h
  | String a key' => hash_from ((Z.lxor h (Z.of_nat (nat_of_ascii a)) * 16777619) `mod` 2 ^ 32)%Z key'
  end.
Definition hashKey (key : string) : Z := hash_from 2166136261 key.

Definition workerIdFor (dedicated : list string) (facadeKey : option string) : string :=
  match facadeKey with
  | None | Some EmptyString => DEFAULT_SLOT
  | Some key =>
      if mem key dedicated then "sponsor-" ++ slice0 16 key
      else if bool_decide (walletWorkers ≤ 1)%Z then DEFAULT_SLOT
      else "user-" ++ pretty (hashKey key `mod` walletWorkers)%Z
  end.

(** The wallet of the caller and of the sponsor among the arguments, where they
    are strings. *)
Definition given_key (s : option string) : option string := match s with Some EmptyString => None | s => s end.

Definition facadeKeyOf (sessionId sponsorSessionId : option string) : option string :=
  match given_key sessionId with Some s => Some s | None => given_key sponsorSessionId end.

Definition assertSameWorker (dedicated : list string) (method : string) (sessionId sponsorSessionId : option string) : outcome unit :=
  match sessionId, given_key sponsorSessionId with
  | Some s, Some p =>
      let mine := workerIdFor dedicated (Some s) in
      let sponsors := workerIdFor dedicated (Some p) in
      if bool_decide (mine = sponsors) then Ret tt
      else Throw (Exn "NightgateError" "PRECONDITION_FAILED"
        (method ++ ": the sponsor wallet lives in worker " ++ sponsors ++ ", the caller's in " ++ mine ++ "; " ++
         "bound sponsoring needs both in one worker (NIGHTGATE_SPONSOR_WORKERS=shared, NIGHTGATE_WALLET_WORKERS=1)"))
  | _, _ => Ret tt
  end.

(** [reported]: the wallet has reported progress from a worker. *)
Definition assignDedicatedWorker (reported : string → bool) (dedicated : list string) (facadeKey : string) : list string :=
  if negb dedicatedMode then dedicated
  else if mem facadeKey dedicated then dedicated
  else if reported facadeKey then dedicated
  else (dedicated ++ [facadeKey])%list.
End Routing.

Lemma hash_from_range h key : (0 ≤ h < 2 ^ 32)%Z → (0 ≤ hash_from h key < 2 ^ 32)%Z.
Proof. revert h. induction key as [|a key IH]; intros h H; [done|]. cbn [hash_from]. apply IH. apply Z.mod_pos_bound. lia. Qed.

(** A key without a worker of its own goes to one of the user workers. *)
Lemma user_worker_range n key : (1 < n)%Z → (0 ≤ hashKey key `mod` n < n)%Z.
Proof. intros Hn. apply Z.mod_pos_bound. lia. Qed.

(** A wallet that reported keeps its worker, whoever is assigned one later. *)
Lemma reported_wallet_stays n mode reported dedicated key other :
  reported key = true → workerIdFor n (assignDedicatedWorker mode reported dedicated other) (Some key) = workerIdFor n dedicated (Some key).
Proof.
  intros Hr. unfold assignDedicatedWorker. destruct mode; [|done]. cbn. destruct (mem other dedicated); [done|]. destruct (reported other) eqn:Ho; [done|].
  assert (key ≠ other) by congruence. unfold workerIdFor. destruct key as [|a key]; [done|].
  replace (mem (String a key) (dedicated ++ [other])) with (mem (String a key) dedicated); [done|].
  unfold mem. apply bool_decide_ext. rewrite elem_of_app, list_elem_of_singleton. naive_solver.
Qed.

(** ** One slot of the pool *)

Definition WORKER_ROTATING : string := "WORKER_ROTATING".
Definition WORKER_ROTATED : string := "WORKER_ROTATED".

Definition SUBMIT_METHODS : list string :=
  ["deployContract"; "submitContractCall"; "submitContractCallBatch"; "registerDustGeneration"; "deregisterDustGeneration";
   "transferNight"; "buildSponsorableTx"; "sponsorFinalizedTx"].

Definition isSubmittingMethod (method : string) : bool := mem method SUBMIT_METHODS || bool_decide (method = "sponsorUnboundTx").

(** How a call ends, as far as the machine depends on it: with a result, or with
    an error of that name. *)
Inductive Reply := ROk | RErr (name : string).

#[export] Instance Reply_eq_dec : EqDecision Reply.
Proof. solve_decision. Defined.

Inductive ReadyState := RNot | RYes | RNo.

#[export] Instance ReadyState_eq_dec : EqDecision ReadyState.
Proof. solve_decision. Defined.

(** What a worker tells the main thread of its restart. *)
Inductive RotationNote := Rotating | RotationDone.

(** A worker: whether its start succeeded and whether it exited; [rotationState]
    of its rotation.ts; what it has to tell the main thread and the main thread
    has not got yet ([RotationDone] is posted once the wallets are saved). *)
Record PoolWorker := MkWorker {
  wk_ready : ReadyState; wk_exited : bool;
  wk_pending : bool; wk_draining : bool; wk_inflight : nat; wk_finalizing : bool; wk_posted : list RotationNote }.

(** What becomes of one post of a call at its worker. *)
Inductive PostState := Queued | Refused | Running | Finished (r : Reply).

#[export] Instance PostState_eq_dec : EqDecision PostState.
Proof. solve_decision. Defined.

Record Post := MkPost { po_worker : nat; po_submitting : bool; po_state : PostState }.

(** Where a call of the main thread stands in [rpc]: it is about to try; waits for
    the exit of a draining worker, or for a start; its port is open; it has its
    answer and waits for its hooks; it is over. *)
Inductive Phase := PBegin | PWaitExit (w : nat) | PWaitReady (w : nat) | POpen (w : nat) | PAnswered (r : Reply) | PDone (r : Reply).

Record PoolCall := MkCall { pc_submitting : bool; pc_attempt : nat; pc_phase : Phase }.

(** Why the main thread called [terminate()] of a worker: it reported the end of
    its restart; a call has waited too long for its exit; it is being stopped. *)
Inductive EndCause := EndRotation | EndCeiling | EndStop.

(** [WorkerSlot], with the process-wide flag and counters; every call made, the
    posts by call and attempt, every worker of the slot, and the workers that were
    told to end (their exits are events of their own). *)
Record Slot := MkSlot {
  sl_worker : option nat; sl_rotationAnnouncedBy : option nat; sl_drainingWorker : option nat; sl_stoppingWorker : option nat;
  sl_everStarted : bool; sl_exitCount : nat; sl_rotationCount : nat;
  sl_calls : gmap nat PoolCall; sl_posts : gmap (nat * nat) Post; sl_workers : list PoolWorker; sl_ended : list (nat * EndCause) }.

Definition empty_slot : Slot := MkSlot None None None None false 0 0 ∅ ∅ [] [].

Definition with_slot (worker announced draining stopping : option nat) (s : Slot) : Slot :=
  MkSlot worker announced draining stopping (sl_everStarted s) (sl_exitCount s) (sl_rotationCount s) (sl_calls s) (sl_posts s) (sl_workers s) (sl_ended s).
Definition with_draining (draining : option nat) (s : Slot) : Slot :=
  with_slot (sl_worker s) (sl_rotationAnnouncedBy s) draining (sl_stoppingWorker s) s.
Definition with_started (started : bool) (s : Slot) : Slot :=
  MkSlot (sl_worker s) (sl_rotationAnnouncedBy s) (sl_drainingWorker s) (sl_stoppingWorker s) started (sl_exitCount s) (sl_rotationCount s)
    (sl_calls s) (sl_posts s) (sl_workers s) (sl_ended s).
Definition with_counts (exits rotations : nat) (s : Slot) : Slot :=
  MkSlot (sl_worker s) (sl_rotationAnnouncedBy s) (sl_drainingWorker s) (sl_stoppingWorker s) (sl_everStarted s) exits rotations
    (sl_calls s) (sl_posts s) (sl_workers s) (sl_ended s).
Definition with_calls (calls : gmap nat PoolCall) (s : Slot) : Slot :=
  MkSlot (sl_worker s) (sl_rotationAnnouncedBy s) (sl_drainingWorker s) (sl_stoppingWorker s) (sl_everStarted s) (sl_exitCount s) (sl_rotationCount s)
    calls (sl_posts s) (sl_workers s) (sl_ended s).
Definition with_posts (posts : gmap (nat * nat) Post) (s : Slot) : Slot :=
  MkSlot (sl_worker s) (sl_rotationAnnouncedBy s) (sl_drainingWorker s) (sl_stoppingWorker s) (sl_everStarted s) (sl_exitCount s) (sl_rotationCount s)
    (sl_calls s) posts (sl_workers s) (sl_ended s).
Definition with_workers (workers : list PoolWorker) (s : Slot) : Slot :=
  MkSlot (sl_worker s) (sl_rotationAnnouncedBy s) (sl_drainingWorker s) (sl_stoppingWorker s) (sl_everStarted s) (sl_exitCount s) (sl_rotationCount s)
    (sl_calls s) (sl_posts s) workers (sl_ended s).
Definition end_worker (w : nat) (cause : EndCause) (s : Slot) : Slot :=
  MkSlot (sl_worker s) (sl_rotationAnnouncedBy s) (sl_drainingWorker s) (sl_stoppingWorker s) (sl_everStarted s) (sl_exitCount s) (sl_rotationCount s)
    (sl_calls s) (sl_posts s) (sl_workers s) (sl_ended s ++ [(w, cause)]).

Definition on_worker (w : nat) (f : PoolWorker → PoolWorker) (s : Slot) : Slot := with_workers (alter f w (sl_workers s)) s.
Definition set_phase (c : nat) (submitting : bool) (attempt : nat) (ph : Phase) (s : Slot) : Slot :=
  with_calls (<[c := MkCall submitting attempt ph]> (sl_calls s)) s.

(** *** The main thread *)

(** [startWorkerSlot] up to its [await], for a slot without worker. *)
Definition spawn (s : Slot) : Slot :=
  with_workers (sl_workers s ++ [MkWorker RNot false false false 0 false []])
    (with_started true (with_slot (Some (length (sl_workers s))) (sl_rotationAnnouncedBy s) (sl_drainingWorker s) (sl_stoppingWorker s) s)).

(** [waitForDrainingWorker], for the given attempt. *)
Definition wait_for_draining (c : nat) (submitting : bool) (attempt : nat) (s : Slot) : Slot :=
  set_phase c submitting attempt (match sl_drainingWorker s with Some w => PWaitExit w | None => PBegin end) s.

(** Its timer: [NIGHTGATE_WORKER_DRAIN_MAX_MS] have passed and the worker is still
    the draining one. *)
Definition drain_ceiling (w : nat) (s : Slot) : Slot :=
  if bool_decide (sl_drainingWorker s = Some w) then end_worker w EndCeiling s else s.

(** The call is posted; [postable]: its arguments can be cloned. *)
Definition post_to (c : nat) (p : PoolCall) (w : nat) (postable : bool) (s : Slot) : Slot :=
  if postable
  then with_posts (<[(c, pc_attempt p) := MkPost w (pc_submitting p) Queued]> (sl_posts s)) (set_phase c (pc_submitting p) (pc_attempt p) (POpen w) s)
  else set_phase c (pc_submitting p) (pc_attempt p) (PAnswered (RErr "DataCloneError")) s.

(** [rpcOnce] up to its first [await]. *)
Definition rpc_once (c : nat) (p : PoolCall) (postable : bool) (s : Slot) : Slot :=
  match sl_worker s with
  | Some w => post_to c p w postable s
  | None =>
      if negb (sl_everStarted s) then set_phase c (pc_submitting p) (pc_attempt p) (PDone (RErr "Error")) s
      else set_phase c (pc_submitting p) (pc_attempt p) (PWaitReady (length (sl_workers s))) (spawn s)
  end.

(** [rpcOnce] after the start it waited for. *)
Definition after_start (c : nat) (p : PoolCall) (w : nat) (postable : bool) (s : Slot) : Slot :=
  match wk_ready <$> sl_workers s !! w with
  | Some RYes =>
      match sl_worker s with
      | Some v => post_to c p v postable s
      | None => set_phase c (pc_submitting p) (pc_attempt p) (PAnswered (RErr "TypeError")) s
      end
  | Some RNo => set_phase c (pc_submitting p) (pc_attempt p) (PDone (RErr "Error")) s
  | _ => s
  end.

(** [rpc] once the call has its outcome. *)
Definition after_outcome (c : nat) (p : PoolCall) (r : Reply) (s : Slot) : Slot :=
  let first := bool_decide (pc_attempt p = 0%nat) in
  if first && bool_decide (r = RErr WORKER_ROTATING) then
    wait_for_draining c (pc_submitting p) 1 (match sl_drainingWorker s with None => with_draining (sl_worker s) s | Some _ => s end)
  else if first && bool_decide (r = RErr WORKER_ROTATED) && negb (pc_submitting p) then wait_for_draining c (pc_submitting p) 1 s
  else set_phase c (pc_submitting p) (pc_attempt p) (PDone r) s.

(** [rejectPendingRpcs]: every call of the slot that has no answer yet. *)
Definition rejected_call (r : Reply) (p : PoolCall) : PoolCall :=
  match pc_phase p with POpen _ => MkCall (pc_submitting p) (pc_attempt p) (PAnswered r) | _ => p end.
Definition rejectPendingRpcs (r : Reply) (s : Slot) : Slot := with_calls (rejected_call r <$> sl_calls s) s.

(** The listeners for the exit of [w] in [waitForDrainingWorker]. *)
Definition released_call (w : nat) (p : PoolCall) : PoolCall :=
  match pc_phase p with
  | PWaitExit v => if bool_decide (v = w) then MkCall (pc_submitting p) (pc_attempt p) PBegin else p
  | _ => p
  end.

Definition cleared (w : nat) (v : option nat) : option nat := if bool_decide (v = Some w) then None else v.

(** The exit of a worker: the slot's listeners, then the calls that waited. *)
Definition on_exit (w : nat) (s : Slot) : Slot :=
  let s := on_worker w (λ k, MkWorker (match wk_ready k with RNot => RNo | r => r end) true (wk_pending k) (wk_draining k) (wk_inflight k) (wk_finalizing k) (wk_posted k)) s in
  let stopped := bool_decide (sl_stoppingWorker s = Some w) in
  let rotated := negb stopped && bool_decide (sl_rotationAnnouncedBy s = Some w) in
  let s := with_slot (cleared w (sl_worker s)) (cleared w (sl_rotationAnnouncedBy s)) (cleared w (sl_drainingWorker s)) (cleared w (sl_stoppingWorker s)) s in
  let s := if stopped then s else if rotated then with_counts (sl_exitCount s) (S (sl_rotationCount s)) s else with_counts (S (sl_exitCount s)) (sl_rotationCount s) s in
  let s := rejectPendingRpcs (RErr (if rotated then WORKER_ROTATED else "Error")) s in
  with_calls (released_call w <$> sl_calls s) s.

(** A message about the restart of [w]; when it is done, [w] is told to end. *)
Definition on_note (w : nat) (note : RotationNote) (s : Slot) : Slot :=
  let s := with_slot (sl_worker s) (Some w) (Some w) (sl_stoppingWorker s) s in
  match note with Rotating => s | RotationDone => end_worker w EndRotation s end.

(** *** The worker *)

Definition rotateIfDue (k : PoolWorker) : PoolWorker :=
  if negb (wk_pending k) then k
  else
    let posted := (wk_posted k ++ (if wk_draining k then [] else [Rotating]))%list in
    if bool_decide (0 < wk_inflight k)%nat || wk_finalizing k
    then MkWorker (wk_ready k) (wk_exited k) true true (wk_inflight k) (wk_finalizing k) posted
    else MkWorker (wk_ready k) (wk_exited k) true true (wk_inflight k) true (posted ++ [RotationDone])%list.

Definition sending_count (n : nat) (k : PoolWorker) : PoolWorker :=
  MkWorker (wk_ready k) (wk_exited k) (wk_pending k) (wk_draining k) n (wk_finalizing k) (wk_posted k).
Definition restart_due (k : PoolWorker) : PoolWorker :=
  MkWorker (wk_ready k) (wk_exited k) true (wk_draining k) (wk_inflight k) (wk_finalizing k) (wk_posted k).
Definition closed_admission (k : PoolWorker) : PoolWorker :=
  MkWorker (wk_ready k) (wk_exited k) (wk_pending k) true (wk_inflight k) (wk_finalizing k) (wk_posted k).

Definition post_state (id : nat * nat) (q : Post) (st : PostState) (s : Slot) : Slot :=
  with_posts (<[id := MkPost (po_worker q) (po_submitting q) st]> (sl_posts s)) s.

(** [dispatch] up to the call of the handler. *)
Definition dispatch (id : nat * nat) (q : Post) (k : PoolWorker) (s : Slot) : Slot :=
  if wk_draining k then post_state id q Refused s
  else post_state id q Running (on_worker (po_worker q) (sending_count (wk_inflight k + (if po_submitting q then 1 else 0))) s).

(** [dispatch] after the handler. *)
Definition dispatch_end (id : nat * nat) (q : Post) (k : PoolWorker) (r : Reply) (s : Slot) : Slot :=
  post_state id q (Finished r) (on_worker (po_worker q) (λ k, rotateIfDue (sending_count (wk_inflight k - (if po_submitting q then 1 else 0)) k)) s).

(** What the main thread reads on the call's port. *)
Definition reply_of (st : PostState) : option Reply :=
  match st with Refused => Some (RErr WORKER_ROTATING) | Finished r => Some r | _ => None end.

(** *** Events *)

Inductive slot_event :=
| PCall (c : nat) (method : string)       (* rpc(method, ...) *)
| PTry (c : nat) (postable : bool)        (* the wait in rpc, or the start, is over *)
| PReplied (c : nat)                      (* the reply is delivered *)
| PTimeout (c : nat)
| PSettle (c : nat)                       (* the hooks are done, or their time is over *)
| PStart                                  (* startWalletWorker() *)
| PStopping                               (* stopWalletWorker(): no more starts *)
| PStopWaits (w : nat)                    (* the worker being stopped refused the shutdown: it restarts *)
| PStopped (w : nat)                      (* the stop of w goes on after its shutdown *)
| PReady (w : nat) | PError (w : nat) | PExit (w : nat)
| PNote (w : nat)                         (* the next message of w about its restart *)
| PDispatch (c attempt : nat)             (* the worker takes the call *)
| PImport (c attempt : nat)               (* its handler loads the version that makes a restart due *)
| PFinish (c attempt : nat) (r : Reply)   (* its handler ends *)
| PShutdown (w : nat)                     (* the handler of shutdown closes admission *)
| POther (w : nat)                        (* a dispatch that rpc did not make ends *)
| PCeiling (c : nat).                     (* the timer of its wait for an exit *)

Definition live_worker (w : nat) (s : Slot) : option PoolWorker :=
  match sl_workers s !! w with Some k => if wk_exited k then None else Some k | None => None end.

Definition slot_step (ev : slot_event) (s : Slot) : Slot :=
  match ev with
  | PCall c method => match sl_calls s !! c with Some _ => s | None => wait_for_draining c (isSubmittingMethod method) 0 s end
  | PTry c postable =>
      match sl_calls s !! c with
      | Some p =>
          match pc_phase p with
          | PBegin => rpc_once c p postable s
          | PWaitReady w => after_start c p w postable s
          | _ => s
          end
      | None => s
      end
  | PReplied c =>
      match sl_calls s !! c with
      | Some p =>
          match pc_phase p, sl_posts s !! (c, pc_attempt p) with
          | POpen w, Some q => match reply_of (po_state q) with Some r => set_phase c (pc_submitting p) (pc_attempt p) (PAnswered r) s | None => s end
          | _, _ => s
          end
      | None => s
      end
  | PTimeout c =>
      match sl_calls s !! c with
      | Some p => match pc_phase p with POpen w => set_phase c (pc_submitting p) (pc_attempt p) (PAnswered (RErr "Error")) s | _ => s end
      | None => s
      end
  | PSettle c =>
      match sl_calls s !! c with
      | Some p => match pc_phase p with PAnswered r => after_outcome c p r s | _ => s end
      | None => s
      end
  | PStart => match sl_worker s with Some _ => s | None => spawn s end
  | PStopping => with_started false s
  | PStopWaits w => match sl_drainingWorker s with None => with_draining (Some w) s | Some _ => s end
  | PStopped w =>
      if bool_decide (sl_worker s = Some w)
      then end_worker w EndStop (with_slot None (sl_rotationAnnouncedBy s) (sl_drainingWorker s) (Some w) s) else s
  | PReady w => on_worker w (λ k, match wk_ready k with RNot => MkWorker RYes (wk_exited k) (wk_pending k) (wk_draining k) (wk_inflight k) (wk_finalizing k) (wk_posted k) | _ => k end) s
  | PError w =>
      rejectPendingRpcs (RErr "Error")
        (on_worker w (λ k, match wk_ready k with RNot => MkWorker RNo (wk_exited k) (wk_pending k) (wk_draining k) (wk_inflight k) (wk_finalizing k) (wk_posted k) | _ => k end) s)
  | PExit w => match live_worker w s with Some _ => on_exit w s | None => s end
  | PNote w =>
      match live_worker w s with
      | Some k =>
          match wk_posted k with
          | note :: rest => on_note w note (on_worker w (λ k, MkWorker (wk_ready k) (wk_exited k) (wk_pending k) (wk_draining k) (wk_inflight k) (wk_finalizing k) rest) s)
          | [] => s
          end
      | None => s
      end
  | PDispatch c a =>
      match sl_posts s !! (c, a) with
      | Some q =>
          match live_worker (po_worker q) s, po_state q with
          | Some k, Queued => dispatch (c, a) q k s
          | _, _ => s
          end
      | None => s
      end
  | PImport c a =>
      match sl_posts s !! (c, a) with
      | Some q => match live_worker (po_worker q) s, po_state q with Some _, Running => on_worker (po_worker q) restart_due s | _, _ => s end
      | None => s
      end
  | PFinish c a r =>
      match sl_posts s !! (c, a) with
      | Some q => match live_worker (po_worker q) s, po_state q with Some k, Running => dispatch_end (c, a) q k r s | _, _ => s end
      | None => s
      end
  | PShutdown w => match live_worker w s with Some _ => on_worker w closed_admission s | None => s end
  | POther w => match live_worker w s with Some _ => on_worker w rotateIfDue s | None => s end
  | PCeiling c =>
      match sl_calls s !! c with
      | Some p => match pc_phase p with PWaitExit w => drain_ceiling w s | _ => s end
      | None => s
      end
  end.

Definition pool_run (evs : list slot_event) : Slot := foldl (λ s ev, slot_step ev s) empty_slot evs.

Local Close Scope string_scope.

(** ** The announcements on the port of one call *)

(** [settled] of [rpcOnce] is [cp_outcome]; the hooks in flight are the
    transactions whose hook has not ended; what the hooks stored and what was
    posted back to the worker are logs. *)
Record CallPort := MkCallPort {
  cp_answered : option Reply; cp_outcome : option Reply; cp_hooks : list string;
  cp_stored : list string; cp_acks : list (string * bool); cp_cancelled : bool }.

Definition open_port : CallPort := MkCallPort None None [] [] [] false.

Inductive port_event :=
| IIntent (txHash : string)          (* the worker announces a transaction *)
| IHook (i : nat) (ok : bool)        (* the i-th hook in flight ends *)
| IAnswer (r : Reply)                (* the reply, a rejection, a message error *)
| IDeadline                          (* the timeout of the call *)
| IWaited (late : bool).             (* finish looks again; late: its time is over *)

Definition finish (r : Reply) (s : CallPort) : CallPort :=
  match cp_answered s with
  | Some _ => s
  | None => MkCallPort (Some r) (cp_outcome s) (cp_hooks s) (cp_stored s) (cp_acks s) (cp_cancelled s)
  end.

(** An acknowledgement, unless the call was answered meanwhile. *)
Definition post_ack (txHash : string) (ok : bool) (s : CallPort) : CallPort :=
  match cp_answered s with
  | Some _ => s
  | None => MkCallPort None (cp_outcome s) (cp_hooks s) (cp_stored s) (cp_acks s ++ [(txHash, ok)]) (cp_cancelled s)
  end.

Definition port_step (ev : port_event) (s : CallPort) : CallPort :=
  match ev with
  | IIntent txHash =>
      match cp_answered s with
      | Some _ => s
      | None => MkCallPort None (cp_outcome s) (cp_hooks s ++ [txHash]) (cp_stored s) (cp_acks s) (cp_cancelled s)
      end
  | IHook i ok =>
      match cp_hooks s !! i with
      | Some txHash =>
          post_ack txHash ok
            (MkCallPort (cp_answered s) (cp_outcome s) (delete i (cp_hooks s)) (if ok then cp_stored s ++ [txHash] else cp_stored s) (cp_acks s) (cp_cancelled s))
      | None => s
      end
  | IAnswer r => finish r s
  | IDeadline =>
      match cp_answered s with
      | Some _ => s
      | None => MkCallPort (Some (RErr "Error")) (cp_outcome s) (cp_hooks s) (cp_stored s) (cp_acks s) true
      end
  | IWaited late =>
      match cp_answered s, cp_outcome s with
      | Some r, None =>
          if bool_decide (cp_hooks s = []) || late
          then MkCallPort (Some r) (Some r) (cp_hooks s) (cp_stored s) (cp_acks s) (cp_cancelled s) else s
      | _, _ => s
      end
  end.

Definition port_run (evs : list port_event) (s : CallPort) : CallPort := foldl (λ s ev, port_step ev s) s evs.
