(* ===== verification/PoolFacts.v ===== *)
(** What holds of the wallet workers however the events of the two threads
    interleave: a call that may send a transaction is carried out at most once, a
    restart waits for such calls up to a ceiling, and an announcement is acknowledged
    only once it is stored. *)
From S2P Require Import Prelude Json Numbers WalletPool.

(** ** A call that may send a transaction runs at most once *)

(** The handler of the post has been called. *)
Definition ran (st : PostState) : bool := match st with Running | Finished _ => true | _ => false end.

(** Nothing has been posted for the attempt the call is at. *)
Definition before_post (ph : Phase) : bool := match ph with PBegin | PWaitExit _ | PWaitReady _ => true | _ => false end.

Definition refused (s : Slot) (c : nat) : Prop := ∃ q, sl_posts s !! (c, 0) = Some q ∧ po_state q = Refused.

Record pool_wf (s : Slot) : Prop := {
  pw_attempt : ∀ c p, sl_calls s !! c = Some p → pc_attempt p ≤ 1;
  pw_post : ∀ c a q, sl_posts s !! (c, a) = Some q →
    ∃ p, sl_calls s !! c = Some p ∧ po_submitting q = pc_submitting p ∧ a ≤ pc_attempt p ∧ (a = pc_attempt p → before_post (pc_phase p) = false);
  pw_retry : ∀ c p, sl_calls s !! c = Some p → pc_submitting p = true → pc_attempt p = 1 → refused s c;
  pw_refused : ∀ c p, sl_calls s !! c = Some p → pc_phase p = PAnswered (RErr WORKER_ROTATING) → pc_attempt p = 0 → refused s c }.

(** The error of a handler does not carry the name of a refusal. *)
Definition honest (ev : slot_event) : bool :=
  match ev with PFinish _ _ r => negb (bool_decide (r = RErr WORKER_ROTATING)) | _ => true end.

(** Whether the event calls the handler of call [c]. *)
Definition begins (ev : slot_event) (s : Slot) (c : nat) : nat :=
  match ev with
  | PDispatch d a =>
      match sl_posts s !! (d, a) with
      | Some q =>
          match live_worker (po_worker q) s, po_state q with
          | Some k, Queued => if negb (wk_draining k) && bool_decide (d = c) then 1 else 0
          | _, _ => 0
          end
      | None => 0
      end
  | _ => 0
  end.

Fixpoint runs_from (c : nat) (evs : list slot_event) (s : Slot) : nat :=
  match evs with [] => 0 | ev :: evs' => begins ev s c + runs_from c evs' (slot_step ev s) end.

(** How often the worker called the handler of [c] in a run. *)
Definition handler_runs (c : nat) (evs : list slot_event) : nat := runs_from c evs empty_slot.

(** The same, read off the posts. *)
Definition ran_post (s : Slot) (id : nat * nat) : nat := match sl_posts s !! id with Some q => Nat.b2n (ran (po_state q)) | None => 0 end.
Definition ran_posts (s : Slot) (c : nat) : nat := ran_post s (c, 0) + ran_post s (c, 1).

Lemma ran_posts_bound s c p : pool_wf s → sl_calls s !! c = Some p → ran_posts s c ≤ (if pc_submitting p then 1 else 2).
Proof.
  intros H Hc. assert (∀ id, ran_post s id ≤ 1) as Hb by (intros id; unfold ran_post; destruct (sl_posts s !! id) as [q|]; [destruct (ran (po_state q)); cbn|]; lia).
  pose proof (Hb (c, 0)). pose proof (Hb (c, 1)). unfold ran_posts. destruct (pc_submitting p) eqn:Hs; [|lia].
  destruct (sl_posts s !! (c, 1)) as [q|] eqn:Hq; [|unfold ran_post at 2; rewrite Hq; lia].
  destruct (pw_post _ H _ _ _ Hq) as (p' & Hp' & _ & Ha & _). rewrite Hc in Hp'. injection Hp' as <-.
  pose proof (pw_attempt _ H _ _ Hc). destruct (pw_retry _ H _ _ Hc Hs) as (q0 & Hq0 & Hr); [lia|]. unfold ran_post at 1. rewrite Hq0, Hr. cbn. lia.
Qed.

Lemma no_call_no_runs s c : pool_wf s → sl_calls s !! c = None → ran_posts s c = 0.
Proof.
  intros H Hc. unfold ran_posts, ran_post. destruct (sl_posts s !! (c, 0)) as [q|] eqn:H0; [destruct (pw_post _ H _ _ _ H0) as (? & ? & _); congruence|].
  destruct (sl_posts s !! (c, 1)) as [q|] eqn:H1; [destruct (pw_post _ H _ _ _ H1) as (? & ? & _); congruence|done].
Qed.

(** *** Steps of the main thread *)

Lemma wf_ext s s' : pool_wf s → sl_calls s' = sl_calls s → sl_posts s' = sl_posts s → pool_wf s'.
Proof. intros [H1 H2 H3 H4] Ec Ep. unfold refused in *. split; unfold refused; rewrite ?Ec, ?Ep; eauto. Qed.

(** The phase of a call changes, or the call goes to its second attempt. *)
Lemma wf_phase s c p a ph :
  pool_wf s → sl_calls s !! c = Some p → pc_attempt p ≤ a → a ≤ 1 →
  (pc_submitting p = true → a = 1 → refused s c) →
  (before_post ph = true → sl_posts s !! (c, a) = None) → (ph = PAnswered (RErr WORKER_ROTATING) → a = 0 → refused s c) →
  pool_wf (set_phase c (pc_submitting p) a ph s).
Proof.
  intros [H1 H2 H3 H4] Hc Hle Ha Hsub Hpre Hrot. split; unfold set_phase, refused in *; cbn.
  - intros d q. destruct (decide (d = c)) as [->|]; [rewrite lookup_insert, decide_True by done; by intros [= <-]|rewrite lookup_insert_ne by done; apply H1].
  - intros d b q Hq. destruct (H2 _ _ _ Hq) as (p' & Hp' & Hs & Hb & Hph). destruct (decide (d = c)) as [->|]; [|rewrite lookup_insert_ne by done; eauto].
    rewrite Hc in Hp'. injection Hp' as <-. eexists. rewrite lookup_insert, decide_True by done. split_and!; [done|done|cbn; lia|]. cbn. intros ->.
    destruct (before_post ph) eqn:E; [|done]. by rewrite Hpre in Hq.
  - intros d q. destruct (decide (d = c)) as [->|]; [rewrite lookup_insert, decide_True by done; intros [= <-]; cbn; auto|rewrite lookup_insert_ne by done; apply H3].
  - intros d q. destruct (decide (d = c)) as [->|]; [rewrite lookup_insert, decide_True by done; intros [= <-]; cbn; auto|rewrite lookup_insert_ne by done; apply H4].
Qed.

(** An earlier phase at which nothing was posted. *)
Lemma no_post s c p : pool_wf s → sl_calls s !! c = Some p → before_post (pc_phase p) = true → sl_posts s !! (c, pc_attempt p) = None.
Proof.
  intros H Hc Hb. destruct (sl_posts s !! (c, pc_attempt p)) as [q|] eqn:Hq; [|done]. destruct (pw_post _ H _ _ _ Hq) as (p' & Hp' & _ & _ & Hx).
  rewrite Hc in Hp'. injection Hp' as <-. rewrite Hx in Hb by done. done.
Qed.

(** The call stays at its attempt. *)
Lemma wf_same s c p ph :
  pool_wf s → sl_calls s !! c = Some p → (before_post ph = true → before_post (pc_phase p) = true) → ph ≠ PAnswered (RErr WORKER_ROTATING) →
  pool_wf (set_phase c (pc_submitting p) (pc_attempt p) ph s).
Proof.
  intros H Hc Hb Hr. apply wf_phase; [done..|by apply H in Hc| | |done].
  - intros Hs Ha. by eapply pw_retry.
  - intros Hp. apply no_post; auto.
Qed.

(** All calls at once. *)
Lemma wf_calls s f :
  pool_wf s → (∀ p, pc_submitting (f p) = pc_submitting p ∧ pc_attempt (f p) = pc_attempt p ∧
                   (before_post (pc_phase (f p)) = true → before_post (pc_phase p) = true) ∧
                   (pc_phase (f p) = PAnswered (RErr WORKER_ROTATING) → pc_phase p = PAnswered (RErr WORKER_ROTATING))) →
  pool_wf (with_calls (f <$> sl_calls s) s).
Proof.
  intros [H1 H2 H3 H4] Hf. split; unfold refused in *; cbn.
  - intros c q. rewrite lookup_fmap. intros (p & Hp & ->)%fmap_Some. destruct (Hf p) as (_ & -> & _). eauto.
  - intros c a q Hq. destruct (H2 _ _ _ Hq) as (p & Hp & Hs & Hb & Hph). exists (f p). rewrite lookup_fmap, Hp. destruct (Hf p) as (-> & -> & Hb' & _).
    split_and!; [done..|]. intros Ha. specialize (Hph Ha). destruct (before_post (pc_phase (f p))); [by rewrite Hb' in Hph|done].
  - intros c q. rewrite lookup_fmap. intros (p & Hp & ->)%fmap_Some. destruct (Hf p) as (-> & -> & _). eauto.
  - intros c q. rewrite lookup_fmap. intros (p & Hp & ->)%fmap_Some. destruct (Hf p) as (_ & -> & _ & Hr). eauto.
Qed.

Lemma wf_rejected s r : pool_wf s → r ≠ RErr WORKER_ROTATING → pool_wf (rejectPendingRpcs r s).
Proof. intros H Hr. apply wf_calls; [done|]. intros [sub a ph]. unfold rejected_call. cbn. destruct ph; cbn; naive_solver. Qed.

Lemma wf_posted s c p w postable :
  pool_wf s → sl_calls s !! c = Some p → before_post (pc_phase p) = true → pool_wf (post_to c p w postable s) ∧ ∀ d, ran_posts (post_to c p w postable s) d = ran_posts s d.
Proof.
  intros H Hc Hb. unfold post_to. destruct postable; [|split; [by apply wf_same|done]]. pose proof (no_post _ _ _ H Hc Hb) as Hno.
  pose proof (wf_same _ _ _ (POpen w) H Hc ltac:(done) ltac:(done)) as Hs. set (s1 := set_phase _ _ _ _ _) in *.
  assert (sl_calls s1 !! c = Some (MkCall (pc_submitting p) (pc_attempt p) (POpen w))) as Hc1 by (cbn; by rewrite lookup_insert, decide_True).
  assert (∀ d, refused s1 d → refused (with_posts (<[(c, pc_attempt p) := MkPost w (pc_submitting p) Queued]> (sl_posts s)) s1) d) as Href.
  { intros d (q & Hq & Hr). exists q. cbn. split; [|done]. rewrite lookup_insert_ne; [done|]. intros [= -> E]. cbn in Hq. rewrite <- E, Hno in Hq. done. }
  destruct Hs as [H1 H2 H3 H4]. split; [split|]; cbn [sl_calls sl_posts with_posts]; [done| |by intros d q Hd Hs Ha; apply Href; eauto|by intros d q Hd Hs Ha; apply Href; eauto|].
  - intros d b q. destruct (decide ((c, pc_attempt p) = (d, b))) as [[= <- <-]|Hne]; [|rewrite lookup_insert_ne by done; apply H2].
    rewrite lookup_insert, decide_True by done. intros [= <-]. eexists. by split_and!.
  - intros d. unfold ran_posts, ran_post. cbn. destruct (decide (d = c)) as [->|Hne].
    + destruct (pc_attempt p) as [|[|n]] eqn:Ha; rewrite ?lookup_insert, ?decide_True, ?decide_False by congruence; rewrite ?Hno; try done.
      all: repeat (rewrite ?lookup_insert, ?decide_True, ?decide_False by congruence); rewrite ?Hno; try done.
    + rewrite !lookup_insert_ne by congruence. done.
Qed.

(** *** Steps of the worker *)

Lemma wf_post_state s id q st :
  pool_wf s → sl_posts s !! id = Some q → po_state q ≠ Refused → pool_wf (post_state id q st s).
Proof.
  intros [H1 H2 H3 H4] Hq Hne.
  assert (∀ d, refused s d → refused (post_state id q st s) d) as Href.
  { intros d (q0 & Hq0 & Hr). exists q0. cbn. split; [|done]. rewrite lookup_insert_ne; [done|]. intros ->. congruence. }
  split; cbn; [done| |by intros d p Hd Hs Ha; apply Href; eauto|by intros d p Hd Hs Ha; apply Href; eauto].
  intros d b q'. destruct (decide (id = (d, b))) as [->|Hn]; [|rewrite lookup_insert_ne by done; apply H2].
  rewrite lookup_insert, decide_True by done. intros [= <-]. exact (H2 _ _ _ Hq).
Qed.

(** The state of one post changes from one where the handler has not been called. *)
Lemma ran_post_state s c a q st d :
  sl_posts s !! (c, a) = Some q → a ≤ 1 → ran (po_state q) = false ∨ ran st = true →
  ran_posts (post_state (c, a) q st s) d = ran_posts s d + (if bool_decide (c = d) then Nat.b2n (ran st) - Nat.b2n (ran (po_state q)) else 0).
Proof.
  intros Hq Ha Hor. unfold ran_posts, ran_post. cbn. case_bool_decide as Hcd.
  - subst d. assert (a = 0 ∨ a = 1) as [->| ->] by lia; rewrite !lookup_insert; repeat case_decide; try congruence; rewrite Hq; cbn [po_state];
      destruct (ran (po_state q)), (ran st), Hor; cbn; try done; lia.
  - rewrite !lookup_insert_ne by congruence. lia.
Qed.

Lemma post_attempt s c a q : pool_wf s → sl_posts s !! (c, a) = Some q → a ≤ 1.
Proof. intros H Hq. destruct (pw_post _ H _ _ _ Hq) as (p & Hp & _ & Ha & _). pose proof (pw_attempt _ H _ _ Hp). lia. Qed.

(** *** Every step *)

Definition step_kept (ev : slot_event) (s : Slot) : Prop :=
  pool_wf (slot_step ev s) ∧ ∀ d, ran_posts (slot_step ev s) d = ran_posts s d + begins ev s d.

(** A step that calls no handler. *)
Lemma quiet s s' : pool_wf s' → sl_posts s' = sl_posts s → pool_wf s' ∧ ∀ d, ran_posts s' d = ran_posts s d + 0.
Proof. intros H E. split; [done|]. intros d. unfold ran_posts, ran_post. rewrite E. lia. Qed.

Lemma kept_call c method s : pool_wf s → step_kept (PCall c method) s.
Proof.
  intros H. unfold step_kept. cbn [slot_step begins]. destruct (sl_calls s !! c) as [p|] eqn:Hc; [by apply quiet|].
  apply quiet; [|done]. destruct H as [H1 H2 H3 H4]. unfold wait_for_draining, set_phase, refused in *.
  assert (∀ a, sl_posts s !! (c, a) = None) as Hno.
  { intros a. destruct (sl_posts s !! (c, a)) as [q|] eqn:Hq; [|done]. destruct (H2 _ _ _ Hq) as (p & Hp & _). congruence. }
  split; unfold refused; cbn; [intros d p|intros d a q Hq|intros d p|intros d p].
  - destruct (decide (d = c)) as [->|]; [rewrite lookup_insert, decide_True by done; intros [= <-]; cbn; lia|rewrite lookup_insert_ne by done; apply H1].
  - destruct (decide (d = c)) as [->|]; [by rewrite Hno in Hq|rewrite lookup_insert_ne by done; by apply H2].
  - destruct (decide (d = c)) as [->|]; [rewrite lookup_insert, decide_True by done; by intros [= <-]|rewrite lookup_insert_ne by done; apply H3].
  - destruct (decide (d = c)) as [->|]; [rewrite lookup_insert, decide_True by done; intros [= <-]; cbn; by destruct (sl_drainingWorker s)|rewrite lookup_insert_ne by done; apply H4].
Qed.

Lemma kept_try c postable s : pool_wf s → step_kept (PTry c postable) s.
Proof.
  intros H. unfold step_kept. cbn [slot_step begins]. destruct (sl_calls s !! c) as [p|] eqn:Hc; [|by apply quiet].
  assert (∀ w, before_post (pc_phase p) = true →
    pool_wf (post_to c p w postable s) ∧ ∀ d, ran_posts (post_to c p w postable s) d = ran_posts s d + 0) as Hpost.
  { intros w Hb. destruct (wf_posted s c p w postable H Hc Hb) as [Hw Hr]. split; [done|]. intros d. rewrite Hr. lia. }
  destruct (pc_phase p) as [|w|w|w|r|r] eqn:Hph; try (by apply quiet).
  - unfold rpc_once. destruct (sl_worker s); [by apply Hpost|]. destruct (sl_everStarted s); cbn [negb]; (apply quiet; [|done]).
    + apply (wf_same (spawn s)); [by eapply wf_ext|done|by rewrite Hph|done].
    + by apply wf_same.
  - unfold after_start. destruct (wk_ready <$> sl_workers s !! w) as [[]|]; try (by apply quiet).
    + destruct (sl_worker s); [by apply Hpost|]. apply quiet; [|done]. by apply wf_same.
    + apply quiet; [|done]. by apply wf_same.
Qed.

Lemma kept_replied c s : pool_wf s → (∀ q a, sl_posts s !! (c, a) = Some q → po_state q ≠ Finished (RErr WORKER_ROTATING)) → step_kept (PReplied c) s.
Proof.
  intros H Hh. unfold step_kept. cbn [slot_step begins]. destruct (sl_calls s !! c) as [p|] eqn:Hc; [|by apply quiet].
  destruct (pc_phase p) as [|w|w|w|r|r] eqn:Hph; try (by apply quiet). destruct (sl_posts s !! (c, pc_attempt p)) as [q|] eqn:Hq; [|by apply quiet].
  destruct (reply_of (po_state q)) as [r|] eqn:Hr; [|by apply quiet]. apply quiet; [|done].
  apply wf_phase; [done..|by apply H in Hc| |done|].
  - intros Hs Ha. by eapply pw_retry.
  - intros [= ->] Ha. rewrite Ha in Hq. exists q. split; [done|]. specialize (Hh _ _ Hq). by destruct (po_state q) as [| | |[]]; simplify_eq/=.
Qed.

Lemma kept_settle c s : pool_wf s → step_kept (PSettle c) s.
Proof.
  intros H. unfold step_kept. cbn [slot_step begins]. destruct (sl_calls s !! c) as [p|] eqn:Hc; [|by apply quiet].
  destruct (pc_phase p) as [|w|w|w|r|r] eqn:Hph; try (by apply quiet).
  assert (pc_attempt p = 0 → sl_posts s !! (c, 1) = None) as Hno.
  { intros Ha. destruct (sl_posts s !! (c, 1)) as [q|] eqn:Hq; [|done]. destruct (pw_post _ H _ _ _ Hq) as (p' & Hp' & _ & Hle & _).
    rewrite Hc in Hp'. injection Hp' as <-. lia. }
  assert (∀ s' ph, sl_calls s' = sl_calls s → sl_posts s' = sl_posts s → pc_attempt p = 0 → (pc_submitting p = true → refused s c) →
    ph ≠ PAnswered (RErr WORKER_ROTATING) → pool_wf (set_phase c (pc_submitting p) 1 ph s')) as Hretry.
  { intros s' ph Ec Ep Ha Hs Hn. apply wf_phase; [by eapply wf_ext|by rewrite Ec|lia|lia| |rewrite Ep; auto|done].
    intros Hsub _. unfold refused. rewrite Ep. by apply Hs. }
  unfold after_outcome. destruct (bool_decide (pc_attempt p = 0)) eqn:Ha; cbn [andb].
  - apply bool_decide_eq_true in Ha. destruct (bool_decide (r = RErr WORKER_ROTATING)) eqn:Hr; cbn [andb].
    + apply bool_decide_eq_true in Hr as ->. assert (refused s c) as Href by (by eapply pw_refused).
      destruct (sl_drainingWorker s) eqn:Hd; (apply quiet; [|done]); unfold wait_for_draining; apply Hretry; try done; cbn; rewrite ?Hd; repeat case_match; done.
    + destruct (bool_decide (r = RErr WORKER_ROTATED) && negb (pc_submitting p)) eqn:Hrot.
      * apply quiet; [|done]. unfold wait_for_draining. apply Hretry; [done..| |by case_match]. intros Hs. rewrite Hs in Hrot. by rewrite andb_false_r in Hrot.
      * apply quiet; [|done]. by apply wf_same.
  - apply quiet; [|done]. by apply wf_same.
Qed.

Lemma kept_exit w s : pool_wf s → step_kept (PExit w) s.
Proof.
  intros H. unfold step_kept. cbn [slot_step begins]. destruct (live_worker w s); [|by apply quiet]. apply quiet.
  - unfold on_exit. match goal with |- context [rejectPendingRpcs ?r ?t] => set (s1 := t); set (rr := r) end.
    assert (pool_wf (rejectPendingRpcs rr s1)) as H1.
    { apply wf_rejected; [|subst rr; by repeat case_match]. eapply (wf_ext s); [done|..]; subst s1; by repeat case_match. }
    apply wf_calls; [done|]. intros [sub a ph]. unfold released_call. cbn. destruct ph; try done. by case_bool_decide.
  - unfold on_exit. by repeat case_match.
Qed.

Lemma kept_dispatch c a s : pool_wf s → step_kept (PDispatch c a) s.
Proof.
  intros H. unfold step_kept. cbn [slot_step begins]. destruct (sl_posts s !! (c, a)) as [q|] eqn:Hq; [|by apply quiet].
  destruct (live_worker (po_worker q) s) as [k|]; [|by apply quiet]. destruct (po_state q) eqn:Hst; try (by apply quiet). unfold dispatch.
  pose proof (post_attempt _ _ _ _ H Hq) as Ha. destruct (wk_draining k); cbn [negb andb].
  - split; [apply wf_post_state; [done..|by rewrite Hst]|]. intros d. rewrite ran_post_state by (done || by left; rewrite Hst). rewrite Hst. cbn. by case_bool_decide.
  - set (s1 := on_worker _ _ s). split; [apply wf_post_state; [by eapply wf_ext|done|by rewrite Hst]|].
    intros d. rewrite (ran_post_state s1) by (done || by right). rewrite Hst. cbn. by case_bool_decide.
Qed.

Lemma kept_finish c a r s : pool_wf s → step_kept (PFinish c a r) s.
Proof.
  intros H. unfold step_kept. cbn [slot_step begins]. destruct (sl_posts s !! (c, a)) as [q|] eqn:Hq; [|by apply quiet].
  destruct (live_worker (po_worker q) s) as [k|]; [|by apply quiet]. destruct (po_state q) eqn:Hst; try (by apply quiet). unfold dispatch_end.
  set (s1 := on_worker _ _ s). split; [apply wf_post_state; [by eapply wf_ext|done|by rewrite Hst]|].
  intros d. rewrite (ran_post_state s1) by (done || by apply (post_attempt _ _ _ _ H Hq) || by right). rewrite Hst. cbn. case_bool_decide; done.
Qed.

(** No handler ended under the name of a refusal. *)
Definition honest_posts (s : Slot) : Prop := ∀ id q, sl_posts s !! id = Some q → po_state q ≠ Finished (RErr WORKER_ROTATING).

Lemma kept ev s : pool_wf s → honest_posts s → step_kept ev s.
Proof.
  intros H Hh. destruct ev; try (unfold step_kept; cbn [slot_step begins]; apply quiet; [|done]; by eapply wf_ext).
  - by apply kept_call.
  - by apply kept_try.
  - apply kept_replied; [done|]. intros q a. apply Hh.
  - unfold step_kept. cbn [slot_step begins]. destruct (sl_calls s !! c) as [p|] eqn:Hc; [|by apply quiet].
    destruct (pc_phase p) eqn:Hph; try (by apply quiet). apply quiet; [|done]. by apply wf_same.
  - by apply kept_settle.
  - unfold step_kept. cbn [slot_step begins]. destruct (sl_worker s); apply quiet; try done. by eapply wf_ext.
  - unfold step_kept. cbn [slot_step begins]. destruct (sl_drainingWorker s); apply quiet; try done. by eapply wf_ext.
  - unfold step_kept. cbn [slot_step begins]. case_bool_decide; apply quiet; try done. by eapply wf_ext.
  - unfold step_kept. cbn [slot_step begins]. apply quiet; [|done]. apply wf_rejected; [by eapply wf_ext|done].
  - by apply kept_exit.
  - unfold step_kept. cbn [slot_step begins]. destruct (live_worker w s) as [k|]; [|by apply quiet].
    destruct (wk_posted k) as [|[] rest]; apply quiet; try done; by eapply wf_ext.
  - by apply kept_dispatch.
  - unfold step_kept. cbn [slot_step begins]. destruct (sl_posts s !! (c, attempt)) as [q|]; [|by apply quiet].
    destruct (live_worker (po_worker q) s); [|by apply quiet]. destruct (po_state q); apply quiet; try done. by eapply wf_ext.
  - by apply kept_finish.
  - unfold step_kept. cbn [slot_step begins]. destruct (live_worker w s); apply quiet; try done. by eapply wf_ext.
  - unfold step_kept. cbn [slot_step begins]. destruct (live_worker w s); apply quiet; try done. by eapply wf_ext.
  - unfold step_kept. cbn [slot_step begins]. destruct (sl_calls s !! c) as [p|]; [|by apply quiet].
    destruct (pc_phase p); apply quiet; try done; unfold drain_ceiling; case_bool_decide; try done. by eapply wf_ext.
Qed.

(** Only a dispatch writes a post, or the call's own post. *)
Lemma step_posts ev s : honest ev = true → honest_posts s → honest_posts (slot_step ev s).
Proof.
  intros Hev Hh. assert (∀ id q, po_state q ≠ Finished (RErr WORKER_ROTATING) → honest_posts (with_posts (<[id := q]> (sl_posts s)) s)) as Hput.
  { intros id q Hq id' q'. cbn. destruct (decide (id = id')) as [->|]; [rewrite lookup_insert, decide_True by done; by intros [= <-]|].
    rewrite lookup_insert_ne by done. apply Hh. }
  assert (∀ c p w b, honest_posts (post_to c p w b s)) as Hpost.
  { intros c p w [] id q; [|apply Hh]. unfold post_to. cbn. intros Hq. eapply (Hput _ (MkPost w (pc_submitting p) Queued)); [by cbn|exact Hq]. }
  destruct ev; cbn [slot_step]; try done.
  - by destruct (sl_calls s !! c).
  - destruct (sl_calls s !! c) as [p|]; [|done]. destruct (pc_phase p); try done.
    + unfold rpc_once. destruct (sl_worker s); [apply Hpost|]. by destruct (sl_everStarted s).
    + unfold after_start. destruct (wk_ready <$> sl_workers s !! w) as [[]|]; try done. destruct (sl_worker s); [apply Hpost|done].
  - repeat case_match; done.
  - repeat case_match; done.
  - destruct (sl_calls s !! c) as [p|]; [|done]. destruct (pc_phase p); try done. unfold after_outcome. by repeat case_match.
  - by destruct (sl_worker s).
  - by destruct (sl_drainingWorker s).
  - by case_bool_decide.
  - destruct (live_worker w s); [|done]. unfold on_exit. by repeat case_match.
  - destruct (live_worker w s) as [k|]; [|done]. by destruct (wk_posted k) as [|[] rest].
  - destruct (sl_posts s !! (c, attempt)) as [q|]; [|done]. destruct (live_worker (po_worker q) s) as [k|]; [|done]. destruct (po_state q); try done.
    unfold dispatch. destruct (wk_draining k); intros id q' Hq'; (eapply (Hput _ (MkPost _ _ _)); [|exact Hq']); by cbn.
  - repeat case_match; done.
  - destruct (sl_posts s !! (c, attempt)) as [q|]; [|done]. destruct (live_worker (po_worker q) s) as [k|]; [|done]. destruct (po_state q); try done.
    unfold dispatch_end. intros id q' Hq'. eapply (Hput _ (MkPost _ _ _)); [|exact Hq']. cbn. intros [= ->]. cbn in Hev. done.
  - by destruct (live_worker w s).
  - by destruct (live_worker w s).
  - destruct (sl_calls s !! c) as [p|]; [|done]. destruct (pc_phase p); try done. unfold drain_ceiling. by case_bool_decide.
Qed.

Lemma runs_counted evs s c :
  forallb honest evs = true → pool_wf s → honest_posts s →
  let s' := foldl (λ s ev, slot_step ev s) s evs in pool_wf s' ∧ ran_posts s' c = ran_posts s c + runs_from c evs s.
Proof.
  revert s. induction evs as [|ev evs IH]; intros s Hev H Hh; [split; [done|cbn; lia]|]. cbn in Hev. apply andb_true_iff in Hev as [Hev1 Hev2].
  destruct (kept ev s H Hh) as [H1 H2]. destruct (IH (slot_step ev s) Hev2 H1 (step_posts _ _ Hev1 Hh)) as [H3 H4]. split; [exact H3|].
  cbn [foldl runs_from]. rewrite H4, H2. lia.
Qed.

Lemma pool_wf_empty : pool_wf empty_slot.
Proof. by split. Qed.

(** C33. A call that may send a transaction is carried out at most once.
    However calls, replies, timeouts, planned restarts, crashes, stops and
    starts of the workers interleave on the two threads, the handler of such a
    call is called at most once in all workers together, and that of any other
    call at most twice; the only assumption is that no handler fails under the
    name with which a restarting worker refuses calls. *)
Theorem sending_call_runs_once evs c p :
  forallb honest evs = true → sl_calls (pool_run evs) !! c = Some p → handler_runs c evs ≤ (if pc_submitting p then 1 else 2).
Proof.
  intros Hev Hc. destruct (runs_counted evs empty_slot c Hev pool_wf_empty) as [H Hr]; [done|].
  replace (handler_runs c evs) with (ran_posts (pool_run evs) c) by exact Hr. by apply ran_posts_bound.
Qed.

(** ** A planned restart waits for what may be sent *)

Definition sending_on (w : nat) (q : Post) : bool := bool_decide (po_worker q = w) && po_submitting q && bool_decide (po_state q = Running).

Definition sending (s : Slot) (w : nat) : nat := size (filter (λ e : nat * nat * Post, sending_on w e.2 = true) (sl_posts s)).

Definition busy (s : Slot) (w : nat) : Prop := ∃ id q, sl_posts s !! id = Some q ∧ po_worker q = w ∧ po_state q = Running.

Record worker_wf (s : Slot) (w : nat) (k : PoolWorker) : Prop := {
  ww_inflight : wk_inflight k = sending s w;
  ww_final : wk_finalizing k = true → wk_draining k = true ∧ wk_inflight k = 0;
  ww_notes : (Rotating ∈ wk_posted k → wk_draining k = true) ∧ (RotationDone ∈ wk_posted k → wk_finalizing k = true);
  ww_due : wk_pending k = true → wk_finalizing k = true ∨ busy s w }.

Record rotation_wf (s : Slot) : Prop := {
  rw_workers : ∀ w k, sl_workers s !! w = Some k → worker_wf s w k;
  rw_posts : ∀ id q, sl_posts s !! id = Some q → po_worker q < length (sl_workers s);
  rw_worker : ∀ w, sl_worker s = Some w → w < length (sl_workers s) }.

Lemma count_insert {K A} `{Countable K} (f : A → bool) (m : gmap K A) i x :
  size (filter (λ e : K * A, f e.2 = true) (<[i := x]> m)) + Nat.b2n (match m !! i with Some y => f y | None => false end) =
  size (filter (λ e : K * A, f e.2 = true) m) + Nat.b2n (f x).
Proof.
  set (P := λ e : K * A, f e.2 = true). rewrite <- (insert_delete_eq m i x).
  assert (size (filter P (<[i:=x]> (delete i m))) = size (filter P (delete i m)) + Nat.b2n (f x)) as ->.
  { rewrite map_filter_insert. case_decide as Hx; unfold P in Hx; cbn in Hx.
    - rewrite map_size_insert, map_lookup_filter, lookup_delete_eq, Hx. cbn. lia.
    - rewrite delete_delete_eq. destruct (f x); [done|]. cbn. lia. }
  assert (size (filter P m) = size (filter P (delete i m)) + Nat.b2n (match m !! i with Some y => f y | None => false end)) as ->; [|lia].
  rewrite map_filter_delete, map_size_delete, map_lookup_filter. destruct (m !! i) as [y|] eqn:Hy; cbn; [|lia].
  unfold guard. case_decide as Hp; unfold P in Hp; cbn in *; [|destruct (f y); [done|cbn; lia]]. rewrite Hp. cbn.
  assert (size (filter P m) ≠ 0); [|lia]. intros Hz%map_size_empty_inv. assert (filter P m !! i = Some y) as Hl by (rewrite map_lookup_filter_Some; done).
  by rewrite Hz in Hl.
Qed.

Lemma sending_off w q : po_state q ≠ Running → sending_on w q = false.
Proof. intros H. unfold sending_on. by rewrite (bool_decide_eq_false_2 _ H), andb_false_r. Qed.

Lemma rotation_ext s s' :
  rotation_wf s → sl_workers s' = sl_workers s → sl_posts s' = sl_posts s → (∀ w, sl_worker s' = Some w → sl_worker s = Some w) → rotation_wf s'.
Proof.
  intros [H1 H2 H3] Ew Ep Hw. split; rewrite ?Ew, ?Ep; eauto. intros w k Hk. destruct (H1 _ _ Hk) as [A B C D].
  split; unfold sending, busy in *; rewrite ?Ep; done.
Qed.

(** One worker changes, and with it nothing that the posts say. *)
Lemma rotation_worker s w (f : PoolWorker → PoolWorker) :
  rotation_wf s → (∀ k, sl_workers s !! w = Some k → worker_wf s w k → worker_wf s w (f k)) → rotation_wf (on_worker w f s).
Proof.
  intros [H1 H2 H3] Hf. split; cbn; rewrite ?length_alter; try done. intros v k Hk.
  assert (worker_wf s v k) as [A B C D]; [|by split].
  destruct (decide (w = v)) as [->|Hne]; [|rewrite list_lookup_alter_ne in Hk by done; by apply H1].
  rewrite list_lookup_alter_eq in Hk. destruct (sl_workers s !! v) as [k0|] eqn:Hk0; [|done]. injection Hk as <-. auto.
Qed.

Lemma rotation_spawn s : rotation_wf s → rotation_wf (spawn s).
Proof.
  intros [H1 H2 H3]. split; cbn; rewrite ?length_app; cbn.
  - intros w k [Hk|[Hle Hk]]%lookup_app_Some; [destruct (H1 _ _ Hk) as [A B C D]; by split|].
    apply list_lookup_singleton_Some in Hk as [Hw <-]. split; cbn; [|done|split; set_solver|done]. symmetry. unfold sending. apply map_size_empty_iff, map_empty.
    intros id. cbn. rewrite map_lookup_filter. destruct (sl_posts s !! id) as [q|] eqn:Hq; [|done]. cbn. unfold guard. case_decide as Hs; [|done].
    exfalso. unfold sending_on in Hs. cbn in Hs. apply andb_true_iff in Hs as [[Hw'%bool_decide_eq_true _]%andb_true_iff _]. specialize (H2 _ _ Hq). lia.
  - intros id q Hq. specialize (H2 _ _ Hq). lia.
  - intros w [= <-]. lia.
Qed.

Lemma rotation_post_to s c p w postable :
  rotation_wf s → sl_worker s = Some w → sl_posts s !! (c, pc_attempt p) = None → rotation_wf (post_to c p w postable s).
Proof.
  intros H Hw Hno. unfold post_to. destruct postable; [|by eapply rotation_ext]. destruct H as [H1 H2 H3]. split; cbn; [| |done].
  - intros v k Hk. destruct (H1 _ _ Hk) as [A B C D]. split; [|done..|].
    + rewrite A. unfold sending. cbn. pose proof (count_insert (sending_on v) (sl_posts s) (c, pc_attempt p) (MkPost w (pc_submitting p) Queued)) as E.
      rewrite Hno, (sending_off v (MkPost _ _ _)) in E by done. cbn in E. lia.
    + intros Hp. destruct (D Hp) as [?|(id & q & Hq & Hx)]; [by left|right]. exists id, q. split; [|exact Hx]. cbn. rewrite lookup_insert_ne; [done|congruence].
  - intros id q. destruct (decide ((c, pc_attempt p) = id)) as [<-|Hne]; [rewrite lookup_insert, decide_True by done; intros [= <-]; by apply H3|].
    rewrite lookup_insert_ne by done. apply H2.
Qed.

(** A dispatch moves a post on, and its worker with it. *)
Lemma rotation_move s id q st k (f : PoolWorker → PoolWorker) :
  rotation_wf s → sl_posts s !! id = Some q → sl_workers s !! po_worker q = Some k →
  wk_inflight (f k) + Nat.b2n (sending_on (po_worker q) q) = wk_inflight k + Nat.b2n (po_submitting q && bool_decide (st = Running)) →
  (wk_finalizing (f k) = true → wk_draining (f k) = true ∧ wk_inflight (f k) = 0) →
  ((Rotating ∈ wk_posted (f k) → wk_draining (f k) = true) ∧ (RotationDone ∈ wk_posted (f k) → wk_finalizing (f k) = true)) →
  (wk_pending (f k) = true → wk_finalizing (f k) = true ∨ st = Running ∨ po_state q ≠ Running ∧ wk_pending k = true ∧ (wk_finalizing k = true → wk_finalizing (f k) = true) ∨ busy (post_state id q st s) (po_worker q)) →
  rotation_wf (post_state id q st (on_worker (po_worker q) f s)).
Proof.
  intros [H1 H2 H3] Hq Hk Hin Hfin Hnote Hdue.
  assert (∀ v, sending (post_state id q st (on_worker (po_worker q) f s)) v + Nat.b2n (sending_on v q) =
               sending s v + Nat.b2n (sending_on v (MkPost (po_worker q) (po_submitting q) st))) as Hcount.
  { intros v. unfold sending. cbn. pose proof (count_insert (sending_on v) (sl_posts s) id (MkPost (po_worker q) (po_submitting q) st)) as E. rewrite Hq in E. done. }
  assert (∀ v, busy s v → v ≠ po_worker q ∨ po_state q ≠ Running → busy (post_state id q st (on_worker (po_worker q) f s)) v) as Hbusy.
  { intros v (id' & q' & Hq' & Hv & Hr) Hor. exists id', q'. split; [|done]. cbn. rewrite lookup_insert_ne; [done|]. intros <-. rewrite Hq in Hq'. injection Hq' as <-. naive_solver. }
  split; cbn; rewrite ?length_alter; [| |done].
  - intros v k' Hk'. destruct (decide (po_worker q = v)) as [<-|Hne].
    + rewrite list_lookup_alter_eq, Hk in Hk'. injection Hk' as <-. destruct (H1 _ _ Hk) as [A B C D]. split; [|done|done|].
      * specialize (Hcount (po_worker q)). unfold sending_on in Hcount at 2. cbn in Hcount. rewrite bool_decide_eq_true_2 in Hcount by done. cbn in Hcount. lia.
      * intros Hp. destruct (Hdue Hp) as [?|[->|[(Hr & Hpk & Hf)|Hb]]]; [by left| | |by right].
        -- right. exists id, (MkPost (po_worker q) (po_submitting q) Running). cbn. by rewrite lookup_insert, decide_True by done.
        -- destruct (D Hpk) as [?|Hb]; [left; auto|right; apply Hbusy; auto].
    + rewrite list_lookup_alter_ne in Hk' by done. destruct (H1 _ _ Hk') as [A B C D]. split; [|done|done|].
      * specialize (Hcount v). unfold sending_on in Hcount at 1 2. cbn in Hcount. rewrite bool_decide_eq_false_2 in Hcount by done. cbn in Hcount. lia.
      * intros Hp. destruct (D Hp) as [?|Hb]; [by left|right; apply Hbusy; auto].
  - intros id' q'. destruct (decide (id = id')) as [<-|Hne]; [rewrite lookup_insert, decide_True by done; intros [= <-]; cbn; by eapply H2|].
    rewrite lookup_insert_ne by done. apply H2.
Qed.

Lemma on_worker_id w s : on_worker w id s = s.
Proof. unfold on_worker, with_workers. destruct s. cbn. by rewrite list_alter_id. Qed.

(** A sending call that runs is among those in flight. *)
Lemma sending_pos s id q : sl_posts s !! id = Some q → po_submitting q = true → po_state q = Running → 0 < sending s (po_worker q).
Proof.
  intros Hq Hs Hr. unfold sending. destruct (size _) eqn:Hz; [|lia]. apply map_size_empty_inv in Hz.
  assert (filter (λ e : nat * nat * Post, sending_on (po_worker q) e.2 = true) (sl_posts s) !! id = Some q) as Hl; [|rewrite Hz in Hl; by apply lookup_empty_Some in Hl].
  rewrite map_lookup_filter_Some. split; [done|]. unfold sending_on. cbn. by rewrite Hs, Hr, !bool_decide_eq_true_2.
Qed.

Definition consistent (k : PoolWorker) : Prop :=
  (wk_finalizing k = true → wk_draining k = true ∧ wk_inflight k = 0) ∧
  (Rotating ∈ wk_posted k → wk_draining k = true) ∧ (RotationDone ∈ wk_posted k → wk_finalizing k = true).

Lemma rotateIfDue_facts k :
  consistent k → consistent (rotateIfDue k) ∧ wk_inflight (rotateIfDue k) = wk_inflight k ∧ wk_pending (rotateIfDue k) = wk_pending k ∧
  (wk_finalizing k = true → wk_finalizing (rotateIfDue k) = true) ∧
  (wk_pending k = true → wk_finalizing (rotateIfDue k) = true ∨ 0 < wk_inflight k).
Proof.
  intros (B & C1 & C2). unfold rotateIfDue. destruct (wk_pending k) eqn:Hp; cbn [negb]; [|by rewrite Hp].
  destruct (bool_decide (0 < wk_inflight k)) eqn:Hi; [|destruct (wk_finalizing k) eqn:Hf]; cbn [orb]; unfold consistent; cbn.
  - apply bool_decide_eq_true in Hi. split_and!; try done; [intros Hf; destruct (B Hf); lia| |auto].
    intros [Hin|Hin]%elem_of_app; [auto|]. destruct (wk_draining k); set_solver.
  - destruct (B eq_refl) as [-> ?]. rewrite app_nil_r. split_and!; try done. by left.
  - apply bool_decide_eq_false in Hi. split_and!; try done; [intros _; split; [done|lia]|by left].
Qed.

Lemma rotateIfDue_wf s w k : worker_wf s w k → worker_wf s w (rotateIfDue k).
Proof.
  intros [A B C D]. destruct (rotateIfDue_facts k (conj B C)) as ((B' & C') & E1 & E2 & E3 & _).
  split; [by rewrite E1|done|done|]. rewrite E2. intros Hp. destruct (D Hp); [left; auto|by right].
Qed.

Lemma live_lookup w s k : live_worker w s = Some k → sl_workers s !! w = Some k.
Proof. unfold live_worker. destruct (sl_workers s !! w) as [k0|]; [|done]. destruct (wk_exited k0); [done|]. by intros [= ->]. Qed.

Lemma rotation_dispatch c a s : rotation_wf s → rotation_wf (slot_step (PDispatch c a) s).
Proof.
  intros H. cbn [slot_step]. destruct (sl_posts s !! (c, a)) as [q|] eqn:Hq; [|done]. destruct (live_worker (po_worker q) s) as [k|] eqn:Hk; [|done].
  apply live_lookup in Hk. destruct (po_state q) eqn:Hst; try done. destruct (rw_workers _ H _ _ Hk) as [A B C D].
  assert (sending_on (po_worker q) q = false) as Hno by (apply sending_off; by rewrite Hst).
  unfold dispatch. destruct (wk_draining k) eqn:Hd.
  - rewrite <- (on_worker_id (po_worker q) s). apply (rotation_move s (c, a) q Refused k id H Hq Hk); cbn; rewrite ?Hno, ?andb_false_r; [done| |by rewrite Hd|].
    + rewrite Hd. exact B.
    + intros Hp. right. right. left. by rewrite Hst.
  - apply (rotation_move s (c, a) q Running k _ H Hq Hk); cbn; rewrite ?Hno, ?andb_true_r.
    + destruct (po_submitting q); cbn; lia.
    + intros Hf. destruct (B Hf) as [? _]. congruence.
    + by rewrite Hd.
    + intros _. right. by left.
Qed.

Lemma rotation_finish c a r s : rotation_wf s → rotation_wf (slot_step (PFinish c a r) s).
Proof.
  intros H. cbn [slot_step]. destruct (sl_posts s !! (c, a)) as [q|] eqn:Hq; [|done]. destruct (live_worker (po_worker q) s) as [k|] eqn:Hk; [|done].
  apply live_lookup in Hk. destruct (po_state q) eqn:Hst; try done. pose proof (rw_workers _ H _ _ Hk) as [A B C D].
  assert (sending_on (po_worker q) q = po_submitting q) as Hs.
  { unfold sending_on. rewrite Hst, bool_decide_eq_true_2 by done. cbn. by rewrite andb_true_r. }
  assert (po_submitting q = true → 0 < wk_inflight k) as Hpos by (intros; rewrite A; by eapply sending_pos).
  set (n := wk_inflight k - (if po_submitting q then 1 else 0)).
  assert (n + Nat.b2n (po_submitting q) = wk_inflight k) as Hn by (subst n; destruct (po_submitting q); cbn; [specialize (Hpos eq_refl)|]; lia).
  unfold dispatch_end. set (q2 := MkPost (po_worker q) (po_submitting q) (Finished r)).
  set (f := λ k, rotateIfDue (sending_count (wk_inflight k - (if po_submitting q then 1 else 0)) k)).
  assert (consistent (sending_count n k)) as Hcons.
  { split; [|exact C]. cbn. intros Hf. destruct (B Hf) as [? Hz]. split; [done|]. lia. }
  destruct (rotateIfDue_facts _ Hcons) as ((B' & C') & E1 & E2 & _ & E4). change (rotateIfDue (sending_count n k)) with (f k) in *. cbn in E1, E2, E4.
  apply (rotation_move s (c, a) q (Finished r) k f H Hq Hk); [|exact B'|exact C'|].
  - rewrite E1, Hs, bool_decide_eq_false_2, andb_false_r by done. cbn. lia.
  - rewrite E2. intros Hp. destruct (E4 Hp) as [?|Hb]; [by left|right; right; right].
    assert (sending (with_posts (<[(c, a) := q2]> (sl_posts s)) s) (po_worker q) = n) as Hcount.
    { pose proof (count_insert (sending_on (po_worker q)) (sl_posts s) (c, a) q2) as E. rewrite Hq, Hs, (sending_off _ q2) in E by done.
      unfold sending in *. cbn in *. lia. }
    rewrite <- Hcount in Hb. unfold sending in Hb. cbn in Hb.
    destruct (map_choose (filter (λ e : nat * nat * Post, sending_on (po_worker q) e.2 = true) (<[(c, a) := q2]> (sl_posts s)))) as (id & q' & Hid).
    { intros Hz. rewrite Hz, map_size_empty in Hb. lia. }
    apply map_lookup_filter_Some in Hid as [Hid Hs']. unfold sending_on in Hs'. cbn in Hs'.
    apply andb_true_iff in Hs' as [[Hw%bool_decide_eq_true _]%andb_true_iff Hr%bool_decide_eq_true]. by exists id, q'.
Qed.

Lemma rotation_step ev s : pool_wf s → rotation_wf s → rotation_wf (slot_step ev s).
Proof.
  intros Hp H. destruct ev; try (by apply rotation_dispatch); try (by apply rotation_finish); cbn [slot_step].
  - destruct (sl_calls s !! c); [done|]. by eapply rotation_ext.
  - destruct (sl_calls s !! c) as [p|] eqn:Hc; [|done].
    assert (∀ w, before_post (pc_phase p) = true → sl_worker s = Some w → rotation_wf (post_to c p w postable s)) as Hpost
      by (intros w Hb Hw; apply rotation_post_to; [done..|by apply no_post]).
    destruct (pc_phase p) as [|w|w|w|r|r] eqn:Hph; try done.
    + unfold rpc_once. destruct (sl_worker s) eqn:Hw; [by apply Hpost|]. destruct (sl_everStarted s); cbn [negb].
      * by eapply rotation_ext; [apply rotation_spawn|..].
      * by eapply rotation_ext.
    + unfold after_start. destruct (wk_ready <$> sl_workers s !! w) as [[]|]; try done; [|by eapply rotation_ext].
      destruct (sl_worker s) eqn:Hw; [by apply Hpost|by eapply rotation_ext].
  - repeat case_match; try done; by eapply rotation_ext.
  - repeat case_match; try done; by eapply rotation_ext.
  - destruct (sl_calls s !! c) as [p|]; [|done]. destruct (pc_phase p); try done. unfold after_outcome, wait_for_draining.
    repeat case_match; by eapply rotation_ext.
  - destruct (sl_worker s); [done|by apply rotation_spawn].
  - by eapply rotation_ext.
  - destruct (sl_drainingWorker s); [done|by eapply rotation_ext].
  - case_bool_decide; [|done]. by eapply rotation_ext.
  - apply rotation_worker; [done|]. intros k _ [A B C D]. destruct (wk_ready k); by split.
  - eapply rotation_ext; [apply (rotation_worker s w)|..]; try done. intros k _ [A B C D]. destruct (wk_ready k); by split.
  - destruct (live_worker w s); [|done]. unfold on_exit.
    match goal with |- context [on_worker w ?f s] => assert (rotation_wf (on_worker w f s)) as H1 by (apply rotation_worker; [done|]; intros k _ [A B C D]; by split) end.
    eapply rotation_ext; [exact H1|..]; unfold cleared; by repeat case_match.
  - destruct (live_worker w s) as [k|] eqn:Hk; [|done]. destruct (wk_posted k) as [|n rest] eqn:Hn; [done|]. apply live_lookup in Hk.
    eapply rotation_ext; [apply (rotation_worker s w)|..]; [done| |by destruct n..]. intros k' Hk' [A B [C1 C2] D]. rewrite Hk in Hk'. injection Hk' as <-.
    split; cbn; try done. rewrite Hn in C1, C2. split; intros Hin; [apply C1|apply C2]; by right.
  - destruct (sl_posts s !! (c, attempt)) as [q|] eqn:Hq; [|done]. destruct (live_worker (po_worker q) s) as [k|]; [|done].
    destruct (po_state q) eqn:Hst; try done. apply rotation_worker; [done|]. intros k' _ [A B C D]. split; cbn; try done. intros _. right. by exists (c, attempt), q.
  - destruct (live_worker w s); [|done]. apply rotation_worker; [done|]. intros k' _ [A B [C1 C2] D]. split; cbn; try done. intros Hf. by destruct (B Hf).
  - destruct (live_worker w s); [|done]. apply rotation_worker; [done|]. intros k' _. apply rotateIfDue_wf.
  - destruct (sl_calls s !! c) as [p|]; [|done]. destruct (pc_phase p); try done. unfold drain_ceiling. case_bool_decide; [|done]. by eapply rotation_ext.
Qed.

(** *** Whom the main thread ends for a restart *)

Definition finalizing (s : Slot) (w : nat) : Prop := ∃ k, sl_workers s !! w = Some k ∧ wk_finalizing k = true.

Definition ended_wf (s : Slot) : Prop := ∀ w, (w, EndRotation) ∈ sl_ended s → finalizing s w.

Lemma ended_ext s s' : ended_wf s → sl_workers s' = sl_workers s → sl_ended s' = sl_ended s → ended_wf s'.
Proof. intros H Ew Ee w. unfold finalizing. rewrite Ew, Ee. apply H. Qed.

(** A worker is never taken back from unloading its wallets. *)
Lemma ended_worker s w f :
  ended_wf s → (∀ k, wk_finalizing k = true → wk_finalizing (f k) = true) → ended_wf (on_worker w f s).
Proof.
  intros H Hf v Hv. destruct (H v Hv) as (k & Hk & Hfin). unfold finalizing. cbn.
  destruct (decide (w = v)) as [->|Hne]; [rewrite list_lookup_alter_eq, Hk; cbn|rewrite list_lookup_alter_ne by done]; eauto.
Qed.

Lemma ended_end s w cause : ended_wf s → (cause = EndRotation → finalizing s w) → ended_wf (end_worker w cause s).
Proof. intros H Hw v. cbn. intros [Hv|[= -> <-]%list_elem_of_singleton]%elem_of_app; [by apply H|by apply Hw]. Qed.

Lemma ended_spawn s : ended_wf s → ended_wf (spawn s).
Proof. intros H v Hv. destruct (H v Hv) as (k & Hk & Hf). exists k. cbn. split; [by apply lookup_app_l_Some|done]. Qed.

Lemma rotateIfDue_finalizing k : wk_finalizing k = true → wk_finalizing (rotateIfDue k) = true.
Proof. intros Hf. unfold rotateIfDue. destruct (wk_pending k); [|done]. cbn. by destruct (bool_decide _); rewrite ?Hf. Qed.

Lemma ended_step ev s : rotation_wf s → ended_wf s → ended_wf (slot_step ev s).
Proof.
  intros Hr H. assert (∀ c p w b, ended_wf (post_to c p w b s)) as Hpost by (intros c p w []; by eapply ended_ext).
  destruct ev; cbn [slot_step]; try (by eapply ended_ext); try (by (repeat case_match; try done; by eapply ended_ext)).
  - destruct (sl_calls s !! c) as [p|]; [|done]. destruct (pc_phase p); try done.
    + unfold rpc_once. destruct (sl_worker s); [apply Hpost|]. destruct (sl_everStarted s); cbn [negb]; [|by eapply ended_ext].
      eapply ended_ext; [by apply ended_spawn|done..].
    + unfold after_start. destruct (wk_ready <$> sl_workers s !! w) as [[]|]; try done.
      destruct (sl_worker s); [apply Hpost|by eapply ended_ext].
  - destruct (sl_calls s !! c) as [p|]; [|done]. destruct (pc_phase p); try done. unfold after_outcome, wait_for_draining.
    repeat case_match; by eapply ended_ext.
  - destruct (sl_worker s); [done|by apply ended_spawn].
  - case_bool_decide; [|done]. apply ended_end; [by eapply ended_ext|done].
  - apply ended_worker; [done|]. intros k. by destruct (wk_ready k).
  - match goal with |- context [on_worker w ?f s] => assert (ended_wf (on_worker w f s)) as H1 by (apply ended_worker; [done|]; intros k; by destruct (wk_ready k)) end.
    by eapply ended_ext.
  - destruct (live_worker w s); [|done]. unfold on_exit.
    match goal with |- context [on_worker w ?f s] => assert (ended_wf (on_worker w f s)) as H1 by (by apply ended_worker) end.
    eapply ended_ext; [exact H1|..]; by repeat case_match.
  - destruct (live_worker w s) as [k|] eqn:Hk; [|done]. apply live_lookup in Hk. destruct (wk_posted k) as [|note rest] eqn:Hn; [done|].
    set (f := λ k, MkWorker _ _ _ _ _ _ rest). assert (ended_wf (on_worker w f s)) as H1 by (by apply ended_worker).
    destruct note; [by eapply ended_ext|]. apply ended_end; [by eapply ended_ext|]. intros _. exists (f k). cbn.
    rewrite list_lookup_alter_eq, Hk. split; [done|]. apply (ww_notes _ _ _ (rw_workers _ Hr _ _ Hk)). rewrite Hn. by left.
  - destruct (sl_posts s !! (c, attempt)) as [q|]; [|done]. destruct (live_worker (po_worker q) s) as [k|]; [|done]. destruct (po_state q); try done.
    unfold dispatch. destruct (wk_draining k); [by eapply ended_ext|].
    match goal with |- context [on_worker ?w ?f s] => assert (ended_wf (on_worker w f s)) as H1 by (by apply ended_worker) end. by eapply ended_ext.
  - destruct (sl_posts s !! (c, attempt)) as [q|]; [|done]. destruct (live_worker (po_worker q) s); [|done]. destruct (po_state q); try done.
    by apply ended_worker.
  - destruct (sl_posts s !! (c, attempt)) as [q|]; [|done]. destruct (live_worker (po_worker q) s) as [k|]; [|done]. destruct (po_state q); try done.
    unfold dispatch_end. match goal with |- context [on_worker ?w ?f s] => assert (ended_wf (on_worker w f s)) as H1 end; [|by eapply ended_ext].
    apply ended_worker; [done|]. intros k' Hf. by apply rotateIfDue_finalizing.
  - destruct (live_worker w s); [|done]. by apply ended_worker.
  - destruct (live_worker w s); [|done]. apply ended_worker; [done|apply rotateIfDue_finalizing].
  - destruct (sl_calls s !! c) as [p|]; [|done]. destruct (pc_phase p); try done. unfold drain_ceiling. case_bool_decide; [|done]. by apply ended_end.
Qed.

Lemma reachable_wf evs : forallb honest evs = true → rotation_wf (pool_run evs) ∧ ended_wf (pool_run evs).
Proof.
  intros Hev. unfold pool_run. assert (rotation_wf empty_slot) as H0 by (split; done).
  assert (ended_wf empty_slot) as He by (intros w Hw; by apply not_elem_of_nil in Hw).
  assert (honest_posts empty_slot) as Hh by done. revert Hev H0 He Hh. generalize pool_wf_empty. generalize empty_slot.
  induction evs as [|ev evs IH]; intros s Hp Hev H0 He Hh; [done|]. cbn in *. apply andb_true_iff in Hev as [Hev1 Hev2].
  apply IH; [by apply kept|done|by apply rotation_step|by apply ended_step|by apply step_posts].
Qed.

(** C34. A restart waits for the calls that may send a transaction, up to the
    ceiling, and comes. However the events of both threads interleave: the main
    thread ends a worker for its restart ([EndRotation]) only when the worker has
    begun to unload its wallets, and from then on the worker takes no call and
    runs none that may send; and a worker whose restart is due and that runs no
    call has begun. Earlier than that, a worker ends only by the ceiling of a call
    that waits for its exit (NIGHTGATE_WORKER_DRAIN_MAX_MS), by a stop, or by
    itself; [ceiling_cuts_a_send] shows the first. *)
Theorem restart_waits_for_sends evs w k :
  forallb honest evs = true → let s := pool_run evs in sl_workers s !! w = Some k →
  ((w, EndRotation) ∈ sl_ended s → wk_finalizing k = true) ∧
  (wk_finalizing k = true → wk_draining k = true ∧
     ∀ id q, sl_posts s !! id = Some q → po_worker q = w → po_submitting q = true → po_state q ≠ Running) ∧
  (RotationDone ∈ wk_posted k → wk_finalizing k = true) ∧
  (wk_pending k = true → (∀ id q, sl_posts s !! id = Some q → po_worker q = w → po_state q ≠ Running) → wk_finalizing k = true).
Proof.
  intros Hev s Hk. destruct (reachable_wf evs Hev) as [H He]. fold s in H, He.
  destruct (rw_workers _ H _ _ Hk) as [A B C D]. split_and!; [| |apply C|].
  - intros Hend. destruct (He w Hend) as (k' & Hk' & Hf). congruence.
  - intros Hf. destruct (B Hf) as [Hd Hz]. split; [done|]. intros id q Hq <- Hs Hr. pose proof (sending_pos _ _ _ Hq Hs Hr). lia.
  - intros Hp Hno. destruct (D Hp) as [?|(id & q & Hq & Hw & Hr)]; [done|]. by destruct (Hno _ _ Hq Hw).
Qed.

(** ** The announcements on the port of one call *)

Record port_wf (s : CallPort) : Prop := {
  po_acks : ∀ txHash, (txHash, true) ∈ cp_acks s → txHash ∈ cp_stored s;
  po_outcome : ∀ r, cp_outcome s = Some r → cp_answered s = Some r }.

Lemma port_step_wf ev s : port_wf s → port_wf (port_step ev s).
Proof.
  intros H. pose proof H as [H1 H2]. destruct ev; cbn.
  - destruct (cp_answered s) eqn:Ha; [done|by split].
  - destruct (cp_hooks s !! i) as [h|]; [|done]. unfold post_ack. cbn. destruct (cp_answered s) eqn:Ha; split; cbn; try exact H2.
    + intros h' Hin. destruct ok; [apply elem_of_app; left|]; auto.
    + intros h' [Hin|Hin]%elem_of_app; [destruct ok; [apply elem_of_app; left|]; auto|].
      apply list_elem_of_singleton in Hin as [= -> <-]. apply elem_of_app. right. by apply list_elem_of_singleton.
  - unfold finish. destruct (cp_answered s) eqn:Ha; [done|]. split; cbn; [done|]. intros r' Hr. specialize (H2 _ Hr). congruence.
  - destruct (cp_answered s) eqn:Ha; [done|]. split; cbn; [done|]. intros r' Hr. specialize (H2 _ Hr). congruence.
  - destruct (cp_answered s) eqn:Ha; [|done]. destruct (cp_outcome s) eqn:Ho; [done|]. destruct (_ || _); [|done]. split; cbn; [done|]. by intros ? [= <-].
Qed.

Lemma answered_step ev s r : cp_answered s = Some r → cp_answered (port_step ev s) = Some r ∧ cp_acks (port_step ev s) = cp_acks s.
Proof.
  intros Ha. destruct ev; cbn; rewrite ?Ha; try done.
  - destruct (cp_hooks s !! i); [|done]. unfold post_ack. cbn. by rewrite ?Ha.
  - unfold finish. by rewrite ?Ha.
  - destruct (cp_outcome s); [done|]. by destruct (_ || _).
Qed.

(** The worker is told to go on with a transaction only after its hook stored
    it, and nothing more once the call was answered: the first answer is the one
    the caller gets. *)
Theorem announcement_acknowledged_in_time evs :
  let s := port_run evs open_port in
  (∀ txHash, (txHash, true) ∈ cp_acks s → txHash ∈ cp_stored s) ∧
  (∀ r, cp_outcome s = Some r → cp_answered s = Some r) ∧
  (∀ r evs', cp_answered s = Some r → cp_answered (port_run evs' s) = Some r ∧ cp_acks (port_run evs' s) = cp_acks s).
Proof.
  intros s. assert (port_wf s) as [H1 H2].
  { subst s. unfold port_run. assert (port_wf open_port) as H by (split; [intros h Hh; by apply not_elem_of_nil in Hh|done]).
    revert H. generalize open_port. induction evs as [|ev evs IH]; intros s H; [done|]. by apply IH, port_step_wf. }
  split_and!; [done..|]. intros r evs'. generalize s. clear. induction evs' as [|ev evs' IH]; intros s Ha; [done|].
  destruct (answered_step ev s r Ha) as [Ha' E]. destruct (IH _ Ha') as [H1 H2]. unfold port_run in *. cbn [foldl]. rewrite H2. done.
Qed.

(** ** Runs *)

(** A restart becomes due while a transfer runs; a contract call that comes
    meanwhile is refused, waits for the exit and goes to the next worker. *)
Definition restart_run : list slot_event :=
  [PStart; PReady 0; PCall 1 "transferNight"; PTry 1 true; PDispatch 1 0; PCall 2 "syncState"; PTry 2 true; PDispatch 2 0; PImport 2 0;
   PFinish 2 0 ROk; PCall 3 "submitContractCall"; PTry 3 true; PDispatch 3 0; PReplied 3; PSettle 3; PNote 0].
Definition restarted_run : list slot_event :=
  restart_run ++ [PFinish 1 0 ROk; PNote 0; PReplied 1; PSettle 1; PExit 0; PTry 3 true; PReady 1; PTry 3 true; PDispatch 3 1; PFinish 3 1 ROk;
   PReplied 3; PSettle 3].

Lemma sending_call_runs_once_witness :
  sl_calls (pool_run restarted_run) !! 3 = Some (MkCall true 1 (PDone ROk)) ∧ handler_runs 3 restarted_run = 1 ∧ handler_runs 3 restarted_run ≤ 1.
Proof.
  assert (sl_calls (pool_run restarted_run) !! 3 = Some (MkCall true 1 (PDone ROk))) as Hc by (vm_compute; reflexivity).
  assert (forallb honest restarted_run = true) as Hh by (vm_compute; reflexivity).
  split; [exact Hc|]. split; [vm_compute; reflexivity|]. exact (sending_call_runs_once restarted_run 3 _ Hh Hc).
Defined.

Lemma restart_waits_for_sends_witness :
  let k := MkWorker RYes false true true 0 true [] in
  let s := pool_run (restart_run ++ [PFinish 1 0 ROk; PNote 0]) in
  sl_workers s !! 0 = Some k ∧ sl_ended s = [(0, EndRotation)] ∧ wk_finalizing k = true ∧ wk_draining k = true ∧
  sl_workers (pool_run restart_run) !! 0 = Some (MkWorker RYes false true true 1 false []) ∧ sl_ended (pool_run restart_run) = [].
Proof.
  set (evs := (restart_run ++ [PFinish 1 0 ROk; PNote 0])%list). intros k s.
  assert (sl_workers s !! 0 = Some k) as Hk by (vm_compute; reflexivity).
  assert (forallb honest evs = true) as Hh by (vm_compute; reflexivity).
  assert (sl_ended s = [(0, EndRotation)]) as He by (vm_compute; reflexivity).
  destruct (restart_waits_for_sends evs 0 k Hh Hk) as (Hend & Hf & _). assert (wk_finalizing k = true) as Hfin.
  { apply Hend. fold s. rewrite He. by apply list_elem_of_singleton. }
  split; [exact Hk|]. split; [exact He|]. split; [exact Hfin|]. split; [exact (proj1 (Hf Hfin))|]. split; vm_compute; reflexivity.
Defined.

(** The contract call has waited too long for the exit: the worker is ended while
    the transfer runs, which fails as cut off by a restart and is not repeated. *)
Example ceiling_cuts_a_send :
  let s := pool_run (restart_run ++ [PCeiling 3; PExit 0; PSettle 1]) in
  sl_ended s = [(0, EndCeiling)] ∧ sl_posts s !! (1, 0) = Some (MkPost 0 true Running) ∧
  sl_calls s !! 1 = Some (MkCall true 0 (PDone (RErr WORKER_ROTATED))) ∧ sl_rotationCount s = 1.
Proof. by vm_compute. Qed.

(** A worker is stopped and the pool started again before its exit: the late exit
    rejects the calls of the new worker too, which goes on with them. *)
Theorem late_exit_rejects_new_calls :
  let s := pool_run [PStart; PReady 0; PStopping; PStopped 0; PStart; PCall 1 "transferNight"; PTry 1 true; PDispatch 1 0; PExit 0] in
  sl_calls s !! 1 = Some (MkCall true 0 (PAnswered (RErr "Error"))) ∧ sl_posts s !! (1, 0) = Some (MkPost 1 true Running) ∧
  sl_worker s = Some 1 ∧ wk_exited <$> sl_workers s !! 1 = Some false.
Proof. vm_compute. done. Qed.

(** A call that sends nothing is not waited for: the restart goes on while it
    runs, and it fails when the worker exits. *)
Theorem restart_cuts_other_calls :
  let s := pool_run [PStart; PReady 0; PCall 1 "waitForSyncedState"; PTry 1 true; PDispatch 1 0; PCall 2 "init"; PTry 2 true; PDispatch 2 0;
                     PImport 2 0; PFinish 2 0 ROk; PNote 0; PNote 0; PExit 0] in
  sl_posts s !! (1, 0) = Some (MkPost 0 false Running) ∧ sl_calls s !! 1 = Some (MkCall false 0 (PAnswered (RErr WORKER_ROTATED))) ∧
  sl_workers s !! 0 = Some (MkWorker RYes true true true 0 true []).
Proof. vm_compute. done. Qed.
